(* ===== verification/_CoqProject ===== *)
-Q . S2P
Prelude.v
PyStr.v
PyPath.v
PyRe.v
Ipaddr.v
WorkloadAddr.v
WorkloadUid.v
UnitFile.v
Toml.v
WorkloadNames.v
WorkloadConfig.v
SecretsTemplate.v
CredentialEntries.v
NetworkConfig.v
ContainerValidate.v
NftElements.v
FilterArm.v
PcapFile.v
Seccomp.v
Validation.v
BrokerConfig.v
InspectArm.v
VmEgressValidate.v
VmValidate.v
VmDisk.v
Clean.v
RunArgs.v
UnitGen.v
GenCommon.v
GenEgress.v
GenContainer.v
GenReadback.v
GenConfined.v
GenFiles.v
GenVm.v
PasstDns.v
SecretsEnv.v
GenRun.v
Qmp.v
VmNotify.v
Disable.v
Drift.v
DataTree.v
Backup.v
Restore.v
EgressQuery.v
Oplog.v
Update.v
TomlText.v
Create.v
Cleanup.v
SafePaths.v
VmProvision.v
VmSeed.v
Ensure.v
Secret.v
Pcap.v
PcapSession.v
InspectDiag.v
