(* ===== verification/Prelude.v ===== *)
(** * workloadctl: a verification development

    workloadctl turns TOML files that describe workloads (containers or virtual
    machines) into systemd units, gives each workload a user, a subordinate id
    range and addresses of its own, and arms a per-workload egress filter in
    shared netfilter tables.  The Python modules are under
    src/workloadctl/lib; this library models the part of them that computes: the
    data, the parsers and validators, the encoders of everything written for
    another program to read, and the steps that change shared state.

    ** Conventions

    - An exception is a value: [res A] is a result or one of the exception
      classes the code names ([exn]).  Code with effects on a world [W] is of
      type [io W A], which keeps the effects made before an exception.
    - Python integers are [Z]; a width matters only where the code or its reader
      has one (32-bit ids and record fields, 16-bit groups, ports), and is then
      written out in the statement.
    - A Python string is a Rocq [string], the code points of Latin-1.  Character
      classes are those of Python on these code points; regular expressions are
      boolean predicates or matchers, with the difference between [$] and
      end-of-string kept ([match_anchored]).
    - TOML and JSON values are [Toml.tv]; tables keep their order, and every
      access raises what Python raises on a value of the wrong type.
    - Error messages are constructors carrying what the message carries.

    ** Files

    - [Prelude], [PyStr], [PyPath], [PyRe], [Ipaddr], [Toml]: the language and the
      standard library as far as the code uses them: results and effects, strings,
      [pathlib], scanning with regular expressions, [ipaddress], parsed TOML.
    - [WorkloadAddr] (workload_addr.py): addresses and nflog groups as offsets of
      the uid, the table of reserved ranges and the refusals that read it.
      Theorems: no two derived addresses are equal, all are reserved, the bounds
      of the nflog group.
    - [WorkloadUid] (workload_uid.py, and parts of gen_run.py, run_files.py and
      ensure_container.py): allocation of uids, the lock, the sysusers pin, the
      subid files.  [step] is the interleaving of many processes that resolve
      uids and write their files a second time, with their deaths, locks that could
      not be taken and the runs of systemd-sysusers; the invariant over the runs of
      [orderly_step], in which no claim falls between the two halves of such a
      write or goes without the lock, gives unique uids, and
      [rewrite_race_shares_a_uid] a run that is not so.  Other theorems:
      disjoint 32-bit ranges, [claim_uid] on every branch, adding and removing
      subid entries, the reentrant lock.
    - [UnitFile] (unit_file.py): the builder of units, with a reader of
      systemd.syntax(7); reading gives back the directives.
    - [WorkloadNames] (workload_lib.py): names, directories, volumes, tags, tokens,
      quoting.  Each encoder is proved against the decoder of its reader (the
      kernel's mountinfo, systemd's unit names and the words of its lines, which a
      line feed ends however it is quoted); anchored volume paths stay below their
      roots.
    - [WorkloadConfig] (config_parser.py): kind, mode, normalised containers,
      policy entries, host patterns.
    - [SecretsTemplate] (secrets_template.py): substitution in templates,
      credentials demanded and read, the paths of credentials.
    - [CredentialEntries] (credential_entries.py): the validator and the lenient
      parser of credential blocks agree on accepted configurations.
    - [NetworkConfig] (container_network_config.py, vm_network_config.py,
      egress_policy.py): accessors of the network tables, allow entries, the
      documents of inspector and responder.
    - [ContainerValidate] (container_validate.py): the validator of a container's
      network table, and what acceptance means for the accessors.
    - [NftElements] (nft_constants.py, nft_elements.py, netfilter_state.py): the
      elements a workload owns, as commands and read back from nft.
    - [FilterArm] (filter_arm.py, nft.py): the arm step over an interface to nft.
      [NftHost] is the interface, [NftLaws] what nft promises, [Kernel] an
      implementation that satisfies it; [up] and [down] are proved against
      the laws for both substrates.  nft prints an owner as a number or as a name;
      where it prints names, nothing is purged, and the theorem on [up] says what is
      left.
    - [PcapFile] (pcap_file.py): counting and shifting the records of a capture.
    - [Seccomp] (workload_seccomp.py): derived system-call profiles.
    - [Validation] (validation.py, and the environment arguments of
      container_run_args.py): validation of a whole container configuration.
    - [BrokerConfig] (broker_config.py): the command line of a workload's broker,
      read back by the broker's arguments, and the addresses of its upstreams.
    - [InspectArm] (inspect_arm.py, svcaddr_arm.py, nft.py): the arm step of the
      egress inspector, over the interface [ArmHost] to nft and the link, with
      the laws [ArmLaws]; after [up] the exemptions are those of the configuration,
      and [down] clears whatever [up] left, also when it failed half way.
    - [VmEgressValidate] (vm_egress_validate.py): the validator of the egress part
      of a VM's network table; on an accepted table the readers see what was
      validated, and the credential of a request depends on its host only.
    - [VmValidate] (vm_validate.py, vm_defs.py, validation.py): memory and ports, the
      validator of a VM and the whole of [validate_workload_config].
    - [VmDisk] (vm_disk_generations.py, vm_disk_build.py, vm_image_fetch.py and the
      rollback of substrate_vm.py): disks over the interface [DiskHost], every operation
      of which may fail; no update and no rollback loses a disk, a rotation keeps
      the newest generations, and an image that is used has its checksum.
    - [Clean]: strings and tables without line feeds, the vocabulary of the proofs
      that a unit's text is read as it was meant.
    - [RunArgs] (container_run_args.py, workload_seccomp.py, guest_ca.py): the podman
      command line, builder by builder; when the host's user namespace and
      [--privileged] can appear in it.
    - [UnitGen]: units as the sequence of calls of the builder that make them.
    - [GenCommon] (run_files.py, gen_common.py): the inventory of a workload's run
      files, the sysusers line, the user manager's drop-in, the setup service.
    - [GenEgress] (gen_egress.py, with paths of egress_policy.py and commands of
      nft_elements.py): the inspector, the responder and the broker of a workload.
    - [GenContainer] (gen_container.py, gen_container_heads.py): the services of
      containers, pods and bridges.
    - [GenReadback], [GenConfined]: systemd reads a container's service as it was
      asked for; its confinement survives custom directives; nothing of an
      inspected workload runs before its filter is armed; the inspector's socket
      listens where the redirect map sends.  Two theorems exhibit accepted
      configurations whose unit does not do what it says.
    - [GenFiles] ([generate_container_workload]): which files a generation writes,
      over a map of files in which any write may fail: nothing but the inventory,
      and after a success all of it.
    - [GenVm] (gen_vm.py, vm_defs.py): the units of a VM and [generate_vm_workload];
      no VM off a bridge runs unfiltered, and every id of a guest becomes the
      workload's on a shared volume.
    - [PasstDns] (passt_dns_fragment.py, passt_dns_host.py, vm_netdev.py and the script
      workload-vm-netdev): the resolver a VM's guest is given; each family has all
      three of passt's options or none, a filtered guest's come from its responder
      only, and the variable the unit expands is written on every path.
    - [SecretsEnv] (secrets_env.py): the file of secret variables, which exists with
      exactly the resolved variables when the command line of the container
      names it, and is removed otherwise.
    - [GenRun] (gen_run.py, with [enqueue_starts] and [pin_allocated_uid] of
      gen_common.py): a whole run of the generator over the interface [Emitters] with
      the laws [EmitterLaws], which [generators] (GenFiles and GenVm) satisfies: a run
      touches only the files of the bundles it selects, and one that fails
      does not stop the others.
    - [Qmp] (qmp.py): the client of the machine protocol over a scripted peer;
      how the peer splits its bytes is invisible.
    - [VmNotify] (vm_notify.py): the supervisor of a VM; its exit status and the
      unit's restart policy together follow what the guest asked for.
    - [Disable] (cmd_disable.py, the teardown of substrate_container.py and
      substrate_vm.py, the hooks of host_setup.py and workload_selinux.py): taking a
      workload apart when any step may fail; each leftover has its own cause and is
      reported, a successful disable undoes a generation, and the plan of a dry
      run names what goes but for what the theorem says.
    - [Drift] (cmd_drift.py, the scans of run_files.py): the comparison of the live
      tree with a fresh generation, exact on the paths the scans cover; the paths
      they do not cover.
    - [DataTree]: the trees that are copied, the mount table of workload_lib.py, the
      callback of backup.py that stops a copy at mounts, and the guards of
      cmd_backup.py; a copy holds what is on this side of the boundaries, a merge of
      trees that agree is their overlay, and the table is read as the kernel wrote it.
    - [Backup] (backup.py, service_runtime.py, the backup verb of cmd_backup.py, over
      [Qmp]): whatever fails, the service is left as it was found, and vCPUs whose
      pause was acknowledged are told to go on; the archive holds exactly the data up to its mounts;
      a run over all workloads isolates the faults of a copy.  [late_stop_...]
      exhibits a session that leaves the guest paused.
    - [Restore] (the restore verb): it writes only below the directories of the
      workload its archive names and through links that are in its data, never below
      a mount of the kernel's table that the code can read, undoes a backup, and
      merges without losing a file; what a refused restore has already written.
    - [EgressQuery] (egress_record_query.py, and the limit of cmd_egress.py): the
      record of requests; the files a window lets the reader leave unopened never
      hold what it selects, and grouping partitions the selection.
    - [Oplog] (oplog.py): the log of operations; what is reported about a
      workload is read back, entry by entry.
    - [Update] (cmd_update.py, the images of substrate_container.py): updating a
      container workload and undoing it; the update of a workload that can be undone
      ends well on the new images, or back on the old ones, or is reported.  The cases where a rollback is
      reported and the failed image runs on are theorems of their own.
    - [TomlText] (toml_string of workloadctl_core.py) and a reader of the TOML the
      commands write; a document of sections is read back.
    - [Create] (cmd_create.py, the copies of cmd_catalog.py): the file a creation
      writes is loaded as what was asked for, and the lines of a copy are those of its
      source but for the name and the bundle; what a failed creation leaves behind.
    - [Cleanup] (cmd_cleanup.py, deployment.py): the sweep of orphans; declared workloads
      and the state of another deployment are untouched whatever fails, and
      without faults exactly the orphans go, an orphan being defined on the declarations
      and the stamps.  Two ways in which the sweep
      removes more than it says are lemmas of [Attic].
    - [SafePaths] (the walks of ensure_common.py, ensure_container.py and ensure_vm.py): root's
      system calls in the workload's tree, with any moves of the workload between
      them; nothing the workload could not reach changes hands, descriptors are closed,
      and without interference every volume is there.  Where a path is followed instead, a
      sample shows what a link does.
    - [VmProvision] (vm_provision.py, the seed image of ensure_vm.py, the watch of
      vm_notify.py): the instance a guest is given; a reported failure gives it one new one,
      as long as no write of a start is cut or refused; what each start that breaks can
      add is counted.
    - [VmSeed] (vm_default_seed.py, vm_ptp.py, the user data of ensure_vm.py): when the
      built-in seed meets the contract custom seeds are refused by.
    - [Ensure] (ensure_user.py): the order of the steps and what the status of a run says.
    - [Secret] (cmd_secret.py): the store of sealed credentials and the file one is moved in; a
      credential arrives on another host as it was, a changed file is refused, and a
      rotation restarts the workloads that demand it.
    - [Pcap] and [PcapSession] (pcap.py, pcap_session.py and its taps, the start of
      cmd_pcap.py): packet captures; a request that is accepted has its plan, and a capture,
      however it ends, leaves the rules of the other captures, also of those that start or
      end while it runs.  What it drops, leaves
      unbounded or ends by a race are samples.
    - [InspectDiag] (diagnose_inspect.py): the check that a workload is inspected; it is the
      plain reading of the kernel's elements, what [InspectArm] installs passes it, and one
      way in which it misses a guard is a sample.
    ** Parameters

    Code that is not in the repository is a parameter: name resolution
    ([getaddrinfo]), the password and group databases ([getpwnam], [getgrnam]), the
    credential store, hashes, JSON, the arithmetic of floats, the resolution of
    paths and the kinds of files, nft and the link (behind [NftHost] and [ArmHost]),
    disks and the tools that make them (behind [DiskHost]), and of the inspector's
    package the redirected ports, the TLS modes, [normalize_hostname],
    [patterns_overlap] and [hostname_match].  [NftLaws], [ArmLaws] and [DiskLaws]
    say what is assumed of the interfaces, and [Kernel], [Host] and [Directory]
    satisfy them; that a theorem assumes patterns with a common name to overlap
    is a hypothesis of its statement.

    ** Fuel

    The search for a free virtiofs tag tries at most one more suffix than there
    are tags taken, which [virtiofs_tags_distinct] shows to be enough; the scan of
    a capture has as much fuel as the capture has bytes, and a record takes at
    least sixteen; the loop that waits for a guest's shutdown has the weight of the
    input that is left, which [monitor_loop_ends] shows to be enough.  All other recursion is structural.

    ** Not modelled

    The warnings of the validators and the log, the other command-line verbs, the
    metrics reports and all diagnosis but that of the inspector, and the keys and the
    clock of virtual machines: they are sequences of calls to external programs
    and of prints; the reading and writing of archives by tar, whose result
    is a parameter of Restore; and the owners and modes of the files in the trees
    that are backed up and restored.  Apart from the files a generation writes and the disks of
    a VM, reading and writing files appears only as the text read or written. *)
From stdpp Require Export base tactics list gmap strings pretty.
From Stdlib Require Export ZArith Lia Ascii.

(** ** Exceptions and fallible computations *)

(** The exception classes the modelled code raises or catches by name. *)
Inductive exn :=
  | ValueError | KeyError | TypeError | AttributeError | IndexError
  | RuntimeError | FileNotFoundError | FileExistsError | PermissionError | OSError | CalledProcessError | StructError
  | URLError | LifecycleError | EnvFileError | ConnectionError | TimeoutError | AssertionError | BackupError
  | NotRoot | WorkloadUserNotFound | SystemExit | TarError | EgressUsage | EOFError | OverflowError
  | PodmanError | ImageTransferError | ProvisionFailed | NotApplicable | SeedContractError.

#[export] Instance exn_eq_dec : EqDecision exn.
Proof. solve_decision. Defined.

(** A computation that returns or raises. *)
Inductive res (A : Type) : Type :=
  | Ok (a : A)
  | Raise (e : exn).
Arguments Ok {A} a.
Arguments Raise {A} e.

#[export] Instance res_ret : MRet res := fun A a => Ok a.
#[export] Instance res_bind : MBind res := fun A B f m =>
  match m with Ok a => f a | Raise e => Raise e end.
#[export] Instance res_fmap : FMap res := fun A B f m =>
  match m with Ok a => Ok (f a) | Raise e => Raise e end.
#[export] Instance res_eq_dec `{EqDecision A} : EqDecision (res A).
Proof. solve_decision. Defined.

Definition is_ok {A} (m : res A) : bool :=
  match m with Ok _ => true | Raise _ => false end.

(** [try: m except e: h]; any other exception propagates. *)
Definition catch {A} (m : res A) (e : exn) (h : res A) : res A :=
  match m with
  | Raise e' => if decide (e' = e) then h else m
  | _ => m
  end.

(** [except OSError], which catches the subclasses too. *)
Definition is_oserror (e : exn) : bool :=
  match e with
  | OSError | FileNotFoundError | FileExistsError | PermissionError | URLError | ConnectionError | TimeoutError => true
  | _ => false
  end.

(** A list under a condition. *)
Definition when {A} (b : bool) (l : list A) : list A := if b then l else [].

(** A loop whose body may raise, collecting its results in order. *)
Fixpoint mapM_res {A B} (f : A -> res B) (l : list A) : res (list B) :=
  match l with
  | [] => Ok []
  | x :: l => y ← f x; ys ← mapM_res f l; Ok (y :: ys)
  end.

(** A computation on a world: its effects stay when it raises. *)
Definition io (W A : Type) : Type := W -> W * res A.

#[export] Instance io_ret {W} : MRet (io W) := fun A a w => (w, Ok a).
#[export] Instance io_bind {W} : MBind (io W) := fun A B f m w =>
  match m w with
  | (w', Ok a) => f a w'
  | (w', Raise e) => (w', Raise e)
  end.

(** A computation without effects. *)
Definition pure {W A} (m : res A) : io W A := fun w => (w, m).

(** [try: m except <p>: h]: the handler runs in the world the exception left. *)
Definition try_io {W A} (m : io W A) (p : exn -> bool) (h : exn -> io W A) : io W A := fun w =>
  match m w with
  | (w', Raise e) => if p e then h e w' else (w', Raise e)
  | r => r
  end.

(** [try: m finally: fin] *)
Definition finally {W A} (m : io W A) (fin : io W unit) : io W A := fun w =>
  let '(w1, r) := m w in
  match fin w1 with (w2, Ok _) => (w2, r) | (w2, Raise e) => (w2, Raise e) end.

(** A [for] loop of effects. *)
Fixpoint for_io {W A} (f : A -> io W unit) (l : list A) : io W unit :=
  match l with
  | [] => mret tt
  | x :: l => _ ← f x; for_io f l
  end.

Lemma io_bind_Ok {W A B} (m : io W A) (f : A -> io W B) w w' b :
  (x ← m; f x) w = (w', Ok b) -> exists w1 a, m w = (w1, Ok a) /\ f a w1 = (w', Ok b).
Proof. cbv [mbind io_bind]. destruct (m w) as [w1 [a|e]]; [eauto | discriminate]. Qed.

(** ** Reasoning about effects *)

(** From a world in [P], [m] ends in a world and a result of [Q], also when it
    raises. *)
Definition triple {W A} (P : W -> Prop) (m : io W A) (Q : W -> res A -> Prop) : Prop :=
  forall w, P w -> Q (fst (m w)) (snd (m w)).

(** [I] holds after [m] however [m] ends. *)
Definition keeps {W A} (I : W -> Prop) (m : io W A) : Prop := triple I m (fun w _ => I w).

Lemma triple_bind {W A B} (P : W -> Prop) (m : io W A) (f : A -> io W B) R Q :
  triple P m R -> (forall a, triple (fun w => R w (Ok a)) (f a) Q) ->
  (forall w e, R w (Raise e) -> Q w (Raise e)) -> triple P (x ← m; f x) Q.
Proof.
  intros Hm Hf He w Hw. specialize (Hm w Hw). cbv [mbind io_bind].
  destruct (m w) as [w' [a|e]]; cbn in *; [by apply Hf|by apply He].
Qed.

Lemma triple_pure {W A} (P : W -> Prop) (m : res A) : triple P (pure m) (fun w r => P w /\ r = m).
Proof. by intros w Hw. Qed.

Lemma triple_weaken {W A} (P P' : W -> Prop) (m : io W A) Q Q' :
  triple P m Q -> (forall w, P' w -> P w) -> (forall w r, Q w r -> Q' w r) -> triple P' m Q'.
Proof. unfold triple. auto. Qed.

Lemma keeps_pure {W A} (I : W -> Prop) (m : res A) : keeps I (pure m).
Proof. by intros w Hw. Qed.

Lemma keeps_ret {W A} (I : W -> Prop) (a : A) : keeps I (mret a).
Proof. by intros w Hw. Qed.

Lemma keeps_bind {W A B} (I : W -> Prop) (m : io W A) (f : A -> io W B) :
  keeps I m -> (forall a, keeps I (f a)) -> keeps I (x ← m; f x).
Proof. intros Hm Hf. by apply (triple_bind _ _ _ (fun w _ => I w)). Qed.

(** A bind whose first part has no effect. *)
Lemma keeps_pure_bind {W A B} (I : W -> Prop) (m : res A) (f : A -> io W B) :
  (forall a, m = Ok a -> keeps I (f a)) -> keeps I (x ← pure m; f x).
Proof. intros Hf w Hw. cbv [mbind io_bind pure]. destruct m as [a|e]; cbn; [by apply (Hf a)|done]. Qed.

Lemma keeps_for {W A} (I : W -> Prop) (f : A -> io W unit) l :
  (forall x, x ∈ l -> keeps I (f x)) -> keeps I (for_io f l).
Proof.
  induction l as [|x l IH]; intros H; [by intros w Hw|]. cbn [for_io].
  apply keeps_bind; [apply H; by left|]. intros _. apply IH. intros y Hy. apply H. by right.
Qed.

Lemma triple_pure_bind {W A B} (P : W -> Prop) (m : res A) (f : A -> io W B) Q :
  (forall a, m = Ok a -> triple P (f a) Q) ->
  (forall w e, P w -> m = Raise e -> Q w (Raise e)) -> triple P (x ← pure m; f x) Q.
Proof. intros Hf He w Hw. cbv [mbind io_bind pure]. destruct m as [a|e]; cbn; [by apply (Hf a)|by apply He]. Qed.

(** [m] never raises. *)
Definition unfailing {W} (m : io W unit) : Prop := forall w, snd (m w) = Ok tt.

(** [m] moves the world along [R], also when it raises. *)
Definition within {W A} (R : relation W) (m : io W A) : Prop := forall w, R w (fst (m w)).

Section within.
Context {W : Type} (R : relation W) `{!PreOrder R}.

Lemma within_pure {A} (m : res A) : within R (pure m).
Proof. intros w. cbn. reflexivity. Qed.

Lemma within_ret {A} (a : A) : within R (mret a).
Proof. intros w. cbn. reflexivity. Qed.

Lemma within_bind {A B} (m : io W A) (f : A -> io W B) :
  within R m -> (forall a, within R (f a)) -> within R (x ← m; f x).
Proof.
  intros Hm Hf w. specialize (Hm w). cbv [mbind io_bind]. destruct (m w) as [w1 [a|e]]; cbn in *; [|done].
  etrans; [exact Hm|apply Hf].
Qed.

Lemma within_try {A} (m : io W A) p h : within R m -> (forall e, within R (h e)) -> within R (try_io m p h).
Proof.
  intros Hm Hh w. specialize (Hm w). unfold try_io. destruct (m w) as [w1 [a|e]]; cbn in *; [done|].
  destruct (p e); [|done]. etrans; [exact Hm|apply Hh].
Qed.

Lemma within_for {A} (f : A -> io W unit) l : (forall x, x ∈ l -> within R (f x)) -> within R (for_io f l).
Proof.
  induction l as [|x l IH]; intros H; [apply within_ret|]. cbn [for_io].
  apply within_bind; [apply H; by left|]. intros _. apply IH. intros y Hy. apply H. by right.
Qed.
Lemma within_finally {A} (m : io W A) fin : within R m -> within R fin -> within R (finally m fin).
Proof.
  intros Hm Hf w. unfold finally. specialize (Hm w). destruct (m w) as [w1 r]. specialize (Hf w1).
  destruct (fin w1) as [w2 [?|?]]; cbn in *; by etrans.
Qed.
End within.

Lemma unfailing_bind {W} (m k : io W unit) : unfailing m -> unfailing k -> unfailing (_ ← m; k).
Proof. intros Hm Hk w. specialize (Hm w). cbv [mbind io_bind]. destruct (m w) as [w1 r]. cbn in Hm. by subst r. Qed.

Lemma unfailing_ret {W} : unfailing (mret tt : io W unit).
Proof. done. Qed.

Lemma unfailing_for {W A} (f : A -> io W unit) l : (forall x, unfailing (f x)) -> unfailing (for_io f l).
Proof. intros H. induction l as [|x l IH]; [done|]. cbn [for_io]. by apply unfailing_bind. Qed.

(** A handler of everything that itself never raises. *)
Lemma unfailing_try {W} (m : io W unit) h : (forall e, unfailing (h e)) -> unfailing (try_io m (fun _ => true) h).
Proof. intros Hh w. unfold try_io. destruct (m w) as [w1 [[]|e]]; [done|apply Hh]. Qed.

(** A property reached by one of two computations run in turn. *)
Lemma reach_first {W} (P Q : W -> Prop) (m k : io W unit) :
  unfailing m -> triple P m (fun w _ => Q w) -> keeps Q k -> triple P (_ ← m; k) (fun w _ => Q w).
Proof.
  intros Hq Hm Hk. apply (triple_bind _ _ _ (fun w _ => Q w)); [done|by intros []|done].
Qed.

Lemma reach_then {W} (P Q : W -> Prop) (m k : io W unit) :
  unfailing m -> keeps P m -> triple P k (fun w _ => Q w) -> triple P (_ ← m; k) (fun w _ => Q w).
Proof.
  intros Hq Hm Hk w Hw. specialize (Hq w). specialize (Hm w Hw). cbv [mbind io_bind].
  destruct (m w) as [w1 r]. cbn in *. subst r. by apply Hk.
Qed.

Create HintDb effects.
#[export] Hint Resolve keeps_pure keeps_ret within_pure within_ret unfailing_ret : effects.

Lemma bind_Ok {A B} (f : A -> res B) a : (x ← Ok a; f x) = f a.
Proof. reflexivity. Qed.

Lemma Ok_inj {A} (a b : A) : Ok a = Ok b -> a = b.
Proof. by intros [=]. Qed.

Lemma bind_Ok_inv {A B} (m : res A) (f : A -> res B) b :
  (x ← m; f x) = Ok b -> exists a, m = Ok a /\ f a = Ok b.
Proof. destruct m; cbn; [eauto | discriminate]. Qed.

Lemma mapM_res_Forall2 {A B} (f : A -> res B) l l' :
  mapM_res f l = Ok l' <-> Forall2 (fun x y => f x = Ok y) l l'.
Proof.
  revert l'. induction l as [|x l IH]; intros l'; cbn.
  - split; [intros [= <-]; constructor | inversion 1; done].
  - split.
    + intros (y & Hy & H)%bind_Ok_inv. apply bind_Ok_inv in H as (ys & Hys & [= <-]).
      constructor; [done | by apply IH].
    + inversion 1 as [|? y ? ys Hy Hys]; subst. rewrite Hy; cbn.
      apply IH in Hys. by rewrite Hys.
Qed.

(** ** Lists *)

Lemma filter_length_id {A} (P : A -> Prop) `{forall x, Decision (P x)} (l : list A) :
  length (filter P l) = length l -> filter P l = l.
Proof.
  induction l as [|x l IH]; [done|]. rewrite filter_cons. case_decide; cbn.
  - intros [= Hl]. by rewrite IH.
  - pose proof (length_filter P l). lia.
Qed.

Lemma filter_all_id {A} (P : A -> Prop) `{forall x, Decision (P x)} (l : list A) :
  Forall P l -> filter P l = l.
Proof.
  induction 1 as [|x l Hx Hl IH]; [done|]. rewrite filter_cons, decide_True by done.
  by rewrite IH.
Qed.

(** ** Tactics *)

(** Invert an equation between results, or a chain of binds that succeeded. *)
Ltac inv_ok :=
  repeat match goal with
  | H : Ok _ = Ok _ |- _ => injection H as H; try subst
  | H : Ok _ = Raise _ |- _ => discriminate H
  | H : Raise _ = Ok _ |- _ => discriminate H
  | H : Raise _ = Raise _ |- _ => injection H as H; try subst
  | H : mbind _ _ = Ok _ |- _ => apply bind_Ok_inv in H as (? & ? & H)
  end.

(** Split every conditional and match of the goal, discarding the absurd ones. *)
Ltac split_cases :=
  repeat (case_match; simplify_eq/=; try done).
