(* ===== verification/PyStr.v ===== *)
(** * Python strings

    The part of Python's [str] the modelled code uses: slicing, [strip],
    [split], [splitlines], [startswith], [replace], [join], [isdigit], [int]
    and [str] of an integer.  A Python string is a Rocq [string], that is a
    sequence of the 256 code points of Latin-1; the character classes below are
    those Python's Unicode tables give for these code points. *)
From S2P Require Import Prelude.

Local Open Scope Z_scope.

#[global] Arguments String.append : simpl nomatch.

(** ** Character classes *)

Definition code (c : ascii) : Z := Z.of_N (N_of_ascii c).
Definition in_range (lo hi : Z) (c : ascii) : bool := (lo <=? code c) && (code c <=? hi).

Definition is_lower (c : ascii) : bool := in_range 97 122 c.
Definition is_upper (c : ascii) : bool := in_range 65 90 c.
Definition is_dec (c : ascii) : bool := in_range 48 57 c.
Definition is_alpha (c : ascii) : bool := is_lower c || is_upper c.
Definition is_alnum (c : ascii) : bool := is_alpha c || is_dec c.
Definition is_hexdigit (c : ascii) : bool :=
  is_dec c || in_range 97 102 c || in_range 65 70 c.

Definition is_char (a : ascii) (c : ascii) : bool := Ascii.eqb a c.

(** [str.isspace] of one character. *)
Definition is_space (c : ascii) : bool :=
  in_range 9 13 c || in_range 28 32 c || (code c =? 133) || (code c =? 160).

(** [str.isdigit] of one character: the decimal digits and the superscripts
    two, three and one, which [isdigit] accepts and [int] does not. *)
Definition is_pydigit (c : ascii) : bool :=
  is_dec c || (code c =? 178) || (code c =? 179) || (code c =? 185).

(** The boundaries [str.splitlines] breaks a line at. *)
Definition is_linebreak (c : ascii) : bool :=
  in_range 10 13 c || in_range 28 30 c || (code c =? 133).

Definition LF : ascii := "010"%char.
Definition CR : ascii := "013"%char.
Definition DQUOTE : ascii := "034"%char.

Lemma code_inj c d : code c = code d -> c = d.
Proof.
  unfold code. intros H%N2Z.inj.
  by rewrite <- (ascii_N_embedding c), <- (ascii_N_embedding d), H.
Qed.

Lemma code_bound c : 0 <= code c < 256.
Proof. unfold code. pose proof (N_ascii_bounded c). lia. Qed.

Lemma is_char_spec a c : is_char a c = true <-> a = c.
Proof. apply Ascii.eqb_eq. Qed.

(** ** Strings as sequences of characters *)

Fixpoint all_chars (p : ascii -> bool) (s : string) : bool :=
  match s with
  | EmptyString => true
  | String c s => p c && all_chars p s
  end.

Fixpoint any_char (p : ascii -> bool) (s : string) : bool :=
  match s with
  | EmptyString => false
  | String c s => p c || any_char p s
  end.

(** [c in s] for a one-character [c]. *)
Definition has_char (c : ascii) (s : string) : bool := any_char (is_char c) s.

Fixpoint str_take (n : nat) (s : string) : string :=
  match n, s with
  | S n, String c s => String c (str_take n s)
  | _, _ => EmptyString
  end.

Fixpoint str_drop (n : nat) (s : string) : string :=
  match n, s with
  | S n, String _ s => str_drop n s
  | _, _ => s
  end.

Fixpoint starts_with (p s : string) : bool :=
  match p, s with
  | EmptyString, _ => true
  | String a p, String c s => Ascii.eqb a c && starts_with p s
  | _, _ => false
  end.

(** [sub in s]. *)
Fixpoint contains (sub s : string) : bool :=
  starts_with sub s ||
  match s with EmptyString => false | String _ s => contains sub s end.

Fixpoint ends_with_char (c : ascii) (s : string) : bool :=
  match s with
  | EmptyString => false
  | String a EmptyString => Ascii.eqb a c
  | String _ s => ends_with_char c s
  end.

Fixpoint map_chars (f : ascii -> string) (s : string) : string :=
  match s with
  | EmptyString => EmptyString
  | String c s => f c +:+ map_chars f s
  end.

Definition chr (c : ascii) : string := String c EmptyString.

(** [s.replace(a, r)] for a one-character [a]. *)
Definition replace_char (a : ascii) (r : string) (s : string) : string :=
  map_chars (fun c => if Ascii.eqb c a then r else chr c) s.

Fixpoint lstrip_by (p : ascii -> bool) (s : string) : string :=
  match s with
  | EmptyString => EmptyString
  | String c s' => if p c then lstrip_by p s' else s
  end.

Fixpoint rstrip_by (p : ascii -> bool) (s : string) : string :=
  match s with
  | EmptyString => EmptyString
  | String c s =>
      match rstrip_by p s with
      | EmptyString => if p c then EmptyString else chr c
      | r => String c r
      end
  end.

Definition strip_by (p : ascii -> bool) (s : string) : string :=
  lstrip_by p (rstrip_by p s).

(** [s.strip()]. *)
Definition strip (s : string) : string := strip_by is_space s.

(** ** Splitting and joining *)

Fixpoint cut (c : ascii) (s : string) : option (string * string) :=
  match s with
  | EmptyString => None
  | String a s =>
      if Ascii.eqb a c then Some (EmptyString, s)
      else match cut c s with
           | Some (l, r) => Some (String a l, r)
           | None => None
           end
  end.

(** [s.split(c)]. *)
Fixpoint split_on (c : ascii) (s : string) : list string :=
  match s with
  | EmptyString => [EmptyString]
  | String a s =>
      if Ascii.eqb a c then EmptyString :: split_on c s
      else match split_on c s with
           | h :: t => String a h :: t
           | [] => [chr a]
           end
  end.

(** [s.split(c, n)]. *)
Fixpoint split_max (c : ascii) (n : nat) (s : string) : list string :=
  match n with
  | O => [s]
  | S n => match cut c s with
           | Some (l, r) => l :: split_max c n r
           | None => [s]
           end
  end.

(** [s.split()]: maximal runs of non-space characters. *)
Fixpoint words_from (cur : string) (s : string) : list string :=
  match s with
  | EmptyString => if decide (cur = EmptyString) then [] else [cur]
  | String c s =>
      if is_space c
      then (if decide (cur = EmptyString) then [] else [cur]) ++ words_from EmptyString s
      else words_from (cur +:+ chr c) s
  end.
Definition words (s : string) : list string := words_from EmptyString s.

(** [s.splitlines()]: no final empty line, and CR LF is one boundary. *)
Fixpoint lines_from (cur : string) (pending : bool) (s : string) : list string :=
  match s with
  | EmptyString => if pending then [cur] else []
  | String c s =>
      if is_linebreak c
      then cur :: (match s with
                   | String d s' =>
                       if Ascii.eqb c CR && Ascii.eqb d LF
                       then lines_from EmptyString false s'
                       else lines_from EmptyString false s
                   | EmptyString => []
                   end)
      else lines_from (cur +:+ chr c) true s
  end.
Definition splitlines (s : string) : list string := lines_from EmptyString false s.

(** [sep.join(l)]. *)
Fixpoint join (sep : string) (l : list string) : string :=
  match l with
  | [] => EmptyString
  | [x] => x
  | x :: l => x +:+ sep +:+ join sep l
  end.

(** ** Numbers *)

(** [str(n)] of an integer. *)
Definition str_Z (n : Z) : string := pretty n.

Definition digit_val (c : ascii) : Z := code c - 48.

(** The digits of an [int] literal: decimal digits, single underscores between
    two of them. *)
Fixpoint int_digits (acc : Z) (after_digit : bool) (s : string) : option Z :=
  match s with
  | EmptyString => if after_digit then Some acc else None
  | String c s =>
      if is_dec c then int_digits (acc * 10 + digit_val c) true s
      else if Ascii.eqb c "_"%char && after_digit then int_digits acc false s
      else None
  end.

(** [int(s)]: surrounding white space, a sign, digits; [None] is ValueError. *)
Definition py_int (s : string) : option Z :=
  match strip s with
  | String c r =>
      if Ascii.eqb c "-"%char then Z.opp <$> int_digits 0 false r
      else if Ascii.eqb c "+"%char then int_digits 0 false r
      else int_digits 0 false (String c r)
  | EmptyString => None
  end.

(** [int(s)], which raises. *)
Definition int_res (s : string) : res Z := match py_int s with Some n => Ok n | None => Raise ValueError end.

(** [s.isdigit()]. *)
Definition isdigit (s : string) : bool :=
  negb (bool_decide (s = EmptyString)) && all_chars is_pydigit s.

(** ** Regular-expression fragments

    [re.match(r"^...$", s)]: without [re.MULTILINE] the [$] matches at the end
    of the string and also before a newline that ends it, so a pattern
    [^p$] accepts [s] when [p] matches all of [s], or all of it but one final
    newline. *)
Definition chop_lf (s : string) : string :=
  if ends_with_char LF s then str_take (String.length s - 1) s else s.

Definition match_anchored (p : string -> bool) (s : string) : bool :=
  p s || (ends_with_char LF s && p (chop_lf s)).

(** [[class]+] and [[first][class]*] over a whole string. *)
Definition re_plus (p : ascii -> bool) (s : string) : bool :=
  negb (bool_decide (s = EmptyString)) && all_chars p s.

Definition re_head_star (p q : ascii -> bool) (s : string) : bool :=
  match s with
  | EmptyString => false
  | String c s => p c && all_chars q s
  end.

(** ** Lemmas *)

Create HintDb pystr.

Lemma app_assoc_str s t u : (s +:+ t) +:+ u = s +:+ (t +:+ u).
Proof. induction s; simpl; congruence. Qed.

Lemma app_nil_r_str s : s +:+ EmptyString = s.
Proof. induction s; simpl; congruence. Qed.

Lemma length_app_str s t :
  (String.length (s +:+ t) = String.length s + String.length t)%nat.
Proof. induction s; simpl; congruence. Qed.

Lemma app_inj_l_str s t u : s +:+ t = s +:+ u -> t = u.
Proof. induction s; simpl; [done | intros [= H]; auto]. Qed.

Lemma app_inj_r_str s t u : t +:+ s = u +:+ s -> t = u.
Proof.
  revert u. induction t as [|a t IH]; intros [|b u] H; simpl in *; [done| | |].
  - apply (f_equal String.length) in H. simpl in H. rewrite length_app_str in H. lia.
  - apply (f_equal String.length) in H. simpl in H. rewrite length_app_str in H. lia.
  - injection H as -> H. f_equal. auto.
Qed.

Lemma app_inj_len_str s s' t t' :
  String.length s = String.length s' -> s +:+ t = s' +:+ t' -> s = s' /\ t = t'.
Proof.
  revert s'. induction s as [|a s IH]; intros [|b s'] Hl H; simpl in *; try lia; [done|].
  injection H as -> H. destruct (IH s') as [-> ->]; [lia | done | done].
Qed.

Lemma all_chars_app p s t : all_chars p (s +:+ t) = all_chars p s && all_chars p t.
Proof. induction s; simpl; [done|]. by rewrite IHs, andb_assoc. Qed.

Lemma any_char_app p s t : any_char p (s +:+ t) = any_char p s || any_char p t.
Proof. induction s; simpl; [done|]. by rewrite IHs, orb_assoc. Qed.

Lemma all_chars_any p s : all_chars p s = negb (any_char (fun c => negb (p c)) s).
Proof. induction s as [|c s IH]; simpl; [done|]. rewrite IH. by destruct (p c). Qed.

Lemma all_chars_impl (p q : ascii -> bool) s :
  (forall c, p c = true -> q c = true) -> all_chars p s = true -> all_chars q s = true.
Proof.
  intros Hpq. induction s as [|c s IH]; simpl; [done|].
  intros [Hc Hs]%andb_prop. by rewrite (Hpq _ Hc), IH.
Qed.

(** A character a class excludes does not occur in a string over the class. *)
Lemma all_chars_no_char p c s :
  p c = false -> all_chars p s = true -> has_char c s = false.
Proof.
  intros Hc. induction s as [|a s IH]; simpl; [done|].
  intros [Ha Hs]%andb_prop. unfold has_char in *. simpl. rewrite IH by done.
  destruct (is_char c a) eqn:E; [|done]. apply is_char_spec in E as ->. congruence.
Qed.

Lemma has_char_app c s t : has_char c (s +:+ t) = has_char c s || has_char c t.
Proof. apply any_char_app. Qed.

Lemma map_chars_app f s t : map_chars f (s +:+ t) = map_chars f s +:+ map_chars f t.
Proof. induction s; simpl; [done|]. by rewrite IHs, app_assoc_str. Qed.

Lemma map_chars_map_chars f g s :
  map_chars g (map_chars f s) = map_chars (fun c => map_chars g (f c)) s.
Proof. induction s; simpl; [done|]. by rewrite map_chars_app, IHs. Qed.

Lemma map_chars_ext f g s : (forall c, f c = g c) -> map_chars f s = map_chars g s.
Proof. intros H. induction s; simpl; [done|]. by rewrite H, IHs. Qed.

Lemma str_take_drop n s : str_take n s +:+ str_drop n s = s.
Proof. revert s. induction n; intros [|c s]; simpl; try done. by rewrite IHn. Qed.

Lemma length_str_take n s : String.length (str_take n s) = Nat.min n (String.length s).
Proof. revert s. induction n; intros [|c s]; simpl; auto. Qed.

Lemma str_take_all n s : (String.length s <= n)%nat -> str_take n s = s.
Proof. revert s. induction n; intros [|c s] H; simpl in *; try lia; auto. f_equal. apply IHn. lia. Qed.

Lemma starts_with_spec p s : starts_with p s = true <-> exists t, s = p +:+ t.
Proof.
  revert s. induction p as [|a p IH]; intros s; simpl.
  - split; eauto.
  - destruct s as [|c s].
    + split; [done | intros [t H]; discriminate].
    + rewrite andb_true_iff, Ascii.eqb_eq, IH. split.
      * intros [-> [t ->]]. eauto.
      * intros [t [= -> ->]]. eauto.
Qed.

Lemma starts_with_app p t : starts_with p (p +:+ t) = true.
Proof. apply starts_with_spec. eauto. Qed.

Lemma str_take_app_l s t : str_take (String.length s) (s +:+ t) = s.
Proof. induction s as [|c s IH]; [by destruct t|]. cbn. by rewrite IH. Qed.

Lemma str_drop_drop n m s : str_drop (n + m) s = str_drop m (str_drop n s).
Proof. revert s. induction n as [|n IH]; intros s; [done|]. destruct s; [by destruct m|]. cbn. apply IH. Qed.

Lemma str_drop_app p t : str_drop (String.length p) (p +:+ t) = t.
Proof. induction p; simpl; [by destruct t | done]. Qed.

(** Splitting at a character and joining with it are inverse. *)
Lemma join_split_on c s : join (chr c) (split_on c s) = s.
Proof.
  induction s as [|a s IH]; [done|]. cbn [split_on].
  destruct (Ascii.eqb_spec a c) as [->|Hne].
  - destruct (split_on c s) as [|h t] eqn:E; [destruct s; simpl in E; repeat case_match; done|].
    change (join (chr c) (EmptyString :: h :: t)) with (String c (join (chr c) (h :: t))).
    by rewrite IH.
  - destruct (split_on c s) as [|h t] eqn:E; [simpl in IH; by rewrite <- IH|].
    rewrite <- IH. destruct t; done.
Qed.

Lemma split_on_nonempty c s : split_on c s <> [].
Proof. destruct s; simpl; [done|]. repeat case_match; done. Qed.

Lemma split_on_no_char c s :
  has_char c s = false -> split_on c s = [s].
Proof.
  unfold has_char. induction s as [|a s IH]; [done|]. cbn [split_on any_char].
  unfold is_char at 1. rewrite (Ascii.eqb_sym c a).
  destruct (Ascii.eqb a c); [done|]. simpl. intros H. by rewrite IH.
Qed.

Lemma split_on_app c s t :
  has_char c s = false -> split_on c (s +:+ String c t) = s :: split_on c t.
Proof.
  unfold has_char. induction s as [|a s IH]; cbn -[split_on].
  - intros _. simpl. by rewrite Ascii.eqb_refl.
  - intros [Ha Hs]%orb_false_elim. unfold is_char in Ha. rewrite Ascii.eqb_sym in Ha.
    cbn [split_on]. rewrite Ha, IH; done.
Qed.

(** Splitting at a separator splits both sides. *)
Lemma split_on_sep c s t : split_on c (s +:+ String c t) = split_on c s ++ split_on c t.
Proof.
  induction s as [|a s IH].
  - simpl. by rewrite Ascii.eqb_refl.
  - change (String a s +:+ String c t) with (String a (s +:+ String c t)). cbn [split_on].
    rewrite IH. destruct (Ascii.eqb a c); [done|].
    pose proof (split_on_nonempty c s). destruct (split_on c s); [done|]. reflexivity.
Qed.

Lemma split_on_join c l :
  l <> [] -> Forall (fun s => has_char c s = false) l ->
  split_on c (join (chr c) l) = l.
Proof.
  intros Hne H. induction H as [|s l Hs Hl IH]; [done|].
  destruct l as [|s' l]; [by apply split_on_no_char|].
  change (join (chr c) (s :: s' :: l)) with (s +:+ String c (join (chr c) (s' :: l))).
  rewrite split_on_app by done. f_equal. by apply IH.
Qed.

Lemma split_on_Forall c s : Forall (fun p => has_char c p = false) (split_on c s).
Proof.
  induction s as [|a s IH]; [by constructor|]. cbn [split_on].
  destruct (Ascii.eqb_spec a c) as [->|Hne]; [by constructor|].
  destruct (split_on c s) as [|h t]; inversion IH; subst;
    constructor; try done; unfold has_char; simpl.
  - unfold is_char. by destruct (Ascii.eqb_spec c a); subst.
  - unfold is_char. destruct (Ascii.eqb_spec c a); subst; done.
Qed.

Lemma cut_Some c s l r :
  cut c s = Some (l, r) -> s = l +:+ String c r /\ has_char c l = false.
Proof.
  revert l r. induction s as [|a s IH]; intros l r; cbn [cut]; [done|].
  destruct (Ascii.eqb_spec a c) as [->|Hne].
  - by intros [= <- <-].
  - destruct (cut c s) as [[l' r']|]; [|done]. intros [= <- <-].
    destruct (IH l' r' eq_refl) as [-> Hl]. split; [done|].
    unfold has_char in *. simpl. rewrite Hl. unfold is_char.
    by destruct (Ascii.eqb_spec c a); subst.
Qed.

Lemma cut_app c l r : has_char c l = false -> cut c (l +:+ String c r) = Some (l, r).
Proof.
  unfold has_char. induction l as [|a l IH]; cbn [cut any_char].
  - intros _. simpl. by rewrite Ascii.eqb_refl.
  - intros [Ha Hl]%orb_false_elim. simpl. unfold is_char in Ha.
    rewrite Ascii.eqb_sym in Ha. by rewrite Ha, IH.
Qed.

Lemma cut_None c s : cut c s = None <-> has_char c s = false.
Proof.
  unfold has_char. induction s as [|a s IH]; cbn [cut any_char]; [done|].
  unfold is_char at 1. rewrite (Ascii.eqb_sym c a). destruct (Ascii.eqb a c); [done|].
  simpl. rewrite <- IH. destruct (cut c s) as [[]|]; done.
Qed.

(** Stripping removes the padding and leaves a string it can no longer shorten. *)
Lemma lstrip_by_head p c s : p c = false -> lstrip_by p (String c s) = String c s.
Proof. intros H. simpl. by rewrite H. Qed.

Lemma rstrip_by_id p s :
  all_chars (fun c => negb (p c)) s = true -> rstrip_by p s = s.
Proof.
  induction s as [|c s IH]; simpl; [done|]. intros [Hc Hs]%andb_prop.
  rewrite IH by done. destruct s; [|done].
  apply negb_true_iff in Hc. by rewrite Hc.
Qed.

Lemma lstrip_by_id p s :
  all_chars (fun c => negb (p c)) s = true -> lstrip_by p s = s.
Proof. destruct s as [|c s]; simpl; [done|]. intros [Hc _]%andb_prop. by apply negb_true_iff in Hc as ->. Qed.

Lemma strip_by_id p s :
  all_chars (fun c => negb (p c)) s = true -> strip_by p s = s.
Proof. intros H. unfold strip_by. by rewrite rstrip_by_id, lstrip_by_id. Qed.

Lemma all_chars_lstrip p q s : all_chars q s = true -> all_chars q (lstrip_by p s) = true.
Proof.
  induction s as [|c s IH]; simpl; [done|]. intros [Hc Hs]%andb_prop.
  destruct (p c); [auto|]. simpl. by rewrite Hc, Hs.
Qed.

Lemma all_chars_rstrip p q s : all_chars q s = true -> all_chars q (rstrip_by p s) = true.
Proof.
  induction s as [|c s IH]; simpl; [done|]. intros [Hc Hs]%andb_prop.
  specialize (IH Hs). destruct (rstrip_by p s); [destruct (p c)|]; simpl in *; by rewrite ?Hc.
Qed.

Lemma all_chars_strip_by p q s : all_chars q s = true -> all_chars q (strip_by p s) = true.
Proof. intros H. by apply all_chars_lstrip, all_chars_rstrip. Qed.

Lemma rstrip_by_idem p s : rstrip_by p (rstrip_by p s) = rstrip_by p s.
Proof.
  induction s as [|c s IH]; [done|]. cbn. destruct (rstrip_by p s) as [|d r] eqn:E.
  - destruct (p c) eqn:Ec; cbn; by rewrite ?Ec.
  - cbn in *. by rewrite IH.
Qed.

Lemma lstrip_by_idem p s : lstrip_by p (lstrip_by p s) = lstrip_by p s.
Proof.
  induction s as [|c s IH]; [done|]. cbn. destruct (p c) eqn:Ec; [done|]. cbn. by rewrite Ec.
Qed.

Lemma rstrip_lstrip p t : rstrip_by p t = t -> rstrip_by p (lstrip_by p t) = lstrip_by p t.
Proof.
  induction t as [|c t IH]; [done|]. intros H. cbn [lstrip_by]. destruct (p c) eqn:Ec; [|done].
  apply IH. cbn in H. destruct (rstrip_by p t) as [|d r] eqn:E.
  - rewrite Ec in H. done.
  - by injection H.
Qed.

(** Stripping twice is stripping once. *)
Lemma strip_idem s : strip (strip s) = strip s.
Proof.
  unfold strip, strip_by. rewrite (rstrip_lstrip _ (rstrip_by is_space s)) by apply rstrip_by_idem.
  apply lstrip_by_idem.
Qed.

Lemma str_Z_inj n m : str_Z n = str_Z m -> n = m.
Proof. apply (inj pretty). Qed.

(** The [$] of a Python pattern: a match of the whole string, or of all but a
    final newline. *)
Lemma ends_with_lf_chop s :
  ends_with_char LF s = true -> s = chop_lf s +:+ chr LF.
Proof.
  intros H. unfold chop_lf. rewrite H.
  induction s as [|c s IH]; [done|]. destruct s as [|d s].
  - simpl in H. apply Ascii.eqb_eq in H as ->. done.
  - specialize (IH H). cbn [String.length] in *.
    replace (S (S (String.length s)) - 1)%nat with (S (S (String.length s) - 1)) by lia.
    cbn [str_take String.append]. by rewrite IH at 1.
Qed.

Lemma match_anchored_spec p s :
  match_anchored p s = true <-> p s = true \/ exists t, s = t +:+ chr LF /\ p t = true.
Proof.
  unfold match_anchored. rewrite orb_true_iff, andb_true_iff. split.
  - intros [H|[He Hp]]; [by left|]. right. exists (chop_lf s).
    split; [by apply ends_with_lf_chop | done].
  - intros [H|(t & -> & Hp)]; [by left|]. right.
    assert (Hends : ends_with_char LF (t +:+ chr LF) = true).
    { clear Hp. induction t as [|c t IH]; [done|]. simpl in *. by destruct t. }
    split; [done|]. unfold chop_lf. rewrite Hends, length_app_str. cbn [String.length chr].
    replace (String.length t + 1 - 1)%nat with (String.length t) by lia.
    clear Hends. assert (str_take (String.length t) (t +:+ chr LF) = t) as ->; [|done].
    clear Hp. induction t; simpl; congruence.
Qed.

(** On a string without newline the anchored match is the plain one. *)
Lemma match_anchored_no_lf p s :
  has_char LF s = false -> match_anchored p s = p s.
Proof.
  intros H. unfold match_anchored. destruct (ends_with_char LF s) eqn:E; [|by rewrite orb_false_r].
  apply ends_with_lf_chop in E. rewrite E in H. rewrite has_char_app in H.
  apply orb_false_elim in H as [_ H]. discriminate.
Qed.

#[export] Hint Rewrite app_nil_r_str app_assoc_str all_chars_app any_char_app has_char_app : pystr.
#[export] Hint Resolve all_chars_strip_by all_chars_lstrip all_chars_rstrip : pystr.

(** *** Decimal numerals *)

Lemma pretty_N_char_digit d :
  (d < 10)%N -> is_dec (pretty_N_char d) = true /\ digit_val (pretty_N_char d) = Z.of_N d.
Proof.
  intros H.
  assert (Hd : (d = 0 \/ d = 1 \/ d = 2 \/ d = 3 \/ d = 4 \/ d = 5 \/ d = 6 \/ d = 7
                \/ d = 8 \/ d = 9)%N) by lia.
  destruct_or!; subst d; split; vm_compute; reflexivity.
Qed.

Lemma pretty_N_go_digits x s :
  (0 < x)%N ->
  exists k, (0 <= k) /\
    (forall acc b, int_digits acc b (pretty_N_go x s) = int_digits (acc * 10 ^ k + Z.of_N x) true s)
    /\ (all_chars is_dec (pretty_N_go x s) = all_chars is_dec s)
    /\ pretty_N_go x s <> EmptyString.
Proof.
  revert s. induction (N.lt_wf_0 x) as [x _ IH]. intros s Hx.
  rewrite pretty_N_go_step by done.
  assert (Hdm : Z.of_N x = Z.of_N (x / 10) * 10 + Z.of_N (x mod 10)).
  { rewrite N2Z.inj_div, N2Z.inj_mod. pose proof (Z.div_mod (Z.of_N x) (Z.of_N 10)). lia. }
  assert (Hmod : (x mod 10 < 10)%N) by (apply N.mod_lt; lia).
  destruct (pretty_N_char_digit _ Hmod) as [Hc Hv].
  destruct (decide (0 < x / 10)%N) as [Hpos|Hz].
  - destruct (IH (x / 10)%N ltac:(apply N.div_lt; lia) (String (pretty_N_char (x mod 10)) s) Hpos)
      as (k & Hk & Hint & Hall & Hne).
    exists (k + 1). split; [lia|]. split; [|split].
    + intros acc b. rewrite Hint. cbn [int_digits]. rewrite Hc, Hv. f_equal.
      rewrite Z.pow_add_r by lia. lia.
    + rewrite Hall. simpl. by rewrite Hc.
    + done.
  - assert (x / 10 = 0)%N as -> by lia. rewrite pretty_N_go_0.
    exists 1. split; [lia|]. split; [|split; [simpl; by rewrite Hc | done]].
    intros acc b. cbn [int_digits]. rewrite Hc, Hv. f_equal. lia.
Qed.

Lemma str_Z_pos_go n : 0 < n -> str_Z n = pretty_N_go (Z.to_N n) EmptyString.
Proof. intros H. destruct n as [|p|p]; [lia| |lia]. reflexivity. Qed.

Lemma str_Z_digits n : 0 <= n -> re_plus is_dec (str_Z n) = true.
Proof.
  intros H. unfold re_plus. destruct (decide (n = 0)) as [->|]; [reflexivity|].
  rewrite str_Z_pos_go by lia.
  destruct (pretty_N_go_digits (Z.to_N n) EmptyString ltac:(lia)) as (k & _ & _ & -> & Hne).
  by rewrite bool_decide_eq_false_2.
Qed.

Lemma all_digits_str_Z n : 0 <= n -> all_chars is_dec (str_Z n) = true.
Proof. intros H. apply str_Z_digits in H. by apply andb_prop in H as [_ ?]. Qed.

(** A decimal numeral is made of digits, after a sign. *)
Lemma str_Z_no_char c n : is_dec c = false -> c <> "-"%char -> has_char c (str_Z n) = false.
Proof.
  intros Hd Hc. destruct n as [|p|p].
  - by apply (all_chars_no_char is_dec).
  - by apply (all_chars_no_char is_dec); [|apply all_digits_str_Z].
  - change (str_Z (Z.neg p)) with (String "-" (str_Z (Z.pos p))).
    unfold has_char. cbn [any_char]. apply orb_false_intro; [by apply Ascii.eqb_neq|].
    by apply (all_chars_no_char is_dec c); [|apply all_digits_str_Z].
Qed.

Lemma str_Z_nonempty n : 0 <= n -> str_Z n <> EmptyString.
Proof. intros H%str_Z_digits E. by rewrite E in H. Qed.

Lemma is_dec_not_space c : is_dec c = true -> negb (is_space c) = true.
Proof. unfold is_dec, is_space, in_range. intros H. apply negb_true_iff. lia. Qed.

Lemma no_space_str_Z n : 0 <= n -> all_chars (fun c => negb (is_space c)) (str_Z n) = true.
Proof. intros H. eapply all_chars_impl; [apply is_dec_not_space | by apply all_digits_str_Z]. Qed.

Lemma int_digits_str_Z n : 0 <= n -> int_digits 0 false (str_Z n) = Some n.
Proof.
  intros H. destruct (decide (n = 0)) as [->|]; [reflexivity|].
  rewrite str_Z_pos_go by lia.
  destruct (pretty_N_go_digits (Z.to_N n) EmptyString ltac:(lia)) as (k & _ & -> & _).
  cbn. f_equal. lia.
Qed.

(** [int(str(n))] is [n]. *)
Lemma py_int_str_Z n : 0 <= n -> py_int (str_Z n) = Some n.
Proof.
  intros H. unfold py_int, strip. rewrite strip_by_id by (by apply no_space_str_Z).
  pose proof (int_digits_str_Z n H) as Hd. pose proof (all_digits_str_Z n H) as Ha.
  destruct (str_Z n) as [|c r] eqn:E; [by apply str_Z_nonempty in E|].
  cbn in Ha. apply andb_prop in Ha as [Hc _].
  destruct (Ascii.eqb_spec c "-"); [subst; discriminate|].
  destruct (Ascii.eqb_spec c "+"); [subst; discriminate|]. done.
Qed.

(** *** Words and lines *)

Definition no_space (s : string) : bool := all_chars (fun c => negb (is_space c)) s.
Definition no_break (s : string) : bool := all_chars (fun c => negb (is_linebreak c)) s.

Lemma no_break_app s t : no_break (s +:+ t) = no_break s && no_break t.
Proof. apply all_chars_app. Qed.

Lemma no_space_no_break s : no_space s = true -> no_break s = true.
Proof.
  apply all_chars_impl. intros c. unfold is_space, is_linebreak, in_range.
  rewrite !negb_true_iff. lia.
Qed.

Lemma words_from_app cur w s :
  no_space w = true -> words_from cur (w +:+ s) = words_from (cur +:+ w) s.
Proof.
  revert cur. induction w as [|c w IH]; intros cur; cbn; [by rewrite app_nil_r_str|].
  intros [Hc Hw]%andb_prop. apply negb_true_iff in Hc. rewrite Hc.
  rewrite IH by done. by rewrite app_assoc_str.
Qed.

Lemma words_cons w s :
  no_space w = true -> w <> EmptyString -> words (w +:+ " " +:+ s) = w :: words s.
Proof.
  intros Hw Hne. unfold words. rewrite words_from_app by done. cbn.
  by rewrite decide_False.
Qed.

Lemma words_single w : no_space w = true -> w <> EmptyString -> words w = [w].
Proof.
  intros Hw Hne. unfold words. rewrite <- (app_nil_r_str w) at 1.
  rewrite words_from_app by done. cbn. by rewrite decide_False.
Qed.

Lemma lines_from_app cur p l s :
  no_break l = true -> l <> EmptyString -> lines_from cur p (l +:+ s) = lines_from (cur +:+ l) true s.
Proof.
  revert cur p. induction l as [|c l IH]; intros cur p; cbn; [done|].
  intros [Hc Hl]%andb_prop _. apply negb_true_iff in Hc. rewrite Hc.
  destruct l as [|d l]; [by cbn|].
  rewrite IH by done. by rewrite app_assoc_str.
Qed.

Lemma splitlines_cons l s :
  no_break l = true -> splitlines (l +:+ String LF s) = l :: splitlines s.
Proof.
  intros Hl. unfold splitlines. destruct (decide (l = EmptyString)) as [->|Hne].
  - cbn. destruct s; done.
  - rewrite lines_from_app by done. cbn. destruct s; done.
Qed.

Lemma splitlines_join l :
  Forall (fun s => no_break s = true) l ->
  splitlines (join EmptyString (map (fun s => s +:+ chr LF) l)) = l.
Proof.
  induction 1 as [|s l Hs Hl IH]; [done|].
  cbn [map]. destruct l as [|s' l].
  - cbn [map join]. unfold chr. by rewrite splitlines_cons.
  - change (join EmptyString ((s +:+ chr LF) :: map (fun s0 => s0 +:+ chr LF) (s' :: l)))
      with ((s +:+ chr LF) +:+ join EmptyString (map (fun s0 => s0 +:+ chr LF) (s' :: l))).
    rewrite app_assoc_str. unfold chr at 1. cbn [String.append].
    rewrite splitlines_cons by done. by rewrite IH.
Qed.
