(* ===== verification/PyPath.v ===== *)
(** * Paths

    The part of [pathlib.PurePosixPath] the code uses: a path is a root and a
    list of parts, [str], [parent] and the [/] operator. *)
From S2P Require Import Prelude PyStr.

Record pypath := mkPath { root : string; parts : list string }.

#[export] Instance pypath_eq_dec : EqDecision pypath.
Proof. solve_decision. Defined.

Definition is_part (p : string) : bool := negb (String.eqb p "" || String.eqb p ".").

(** The parts of a POSIX path string: empty and "." components vanish. *)
Definition parts_of (s : string) : list string := List.filter is_part (split_on "/" s).

(** Exactly two leading slashes are a root of their own. *)
Definition root_of (s : string) : string :=
  if starts_with "//" s && negb (starts_with "///" s) then "//"
  else if starts_with "/" s then "/" else "".

Definition path_of (s : string) : pypath := mkPath (root_of s) (parts_of s).

Definition path_str (p : pypath) : string :=
  if decide (root p = "" /\ parts p = []) then "."
  else root p +:+ join "/" (parts p).

Definition path_parent (p : pypath) : pypath := mkPath (root p) (removelast (parts p)).

(** [p / s]. *)
Definition path_div (p : pypath) (s : string) : pypath :=
  let q := path_of s in
  if decide (root q = "") then mkPath (root p) (parts p ++ parts q) else q.

(** [base / s1 / s2 ...] as a string, the way the code builds its paths. *)
Definition path_under (base : string) (segs : list string) : string :=
  path_str (foldl path_div (path_of base) segs).

(** ** Lemmas *)

Lemma parts_of_slash a b : parts_of (a +:+ "/" +:+ b) = parts_of a ++ parts_of b.
Proof.
  unfold parts_of. change ("/" +:+ b) with (String "/" b).
  assert (H : split_on "/" (a +:+ String "/" b) = split_on "/" a ++ split_on "/" b).
  { induction a as [|c a IH]; [done|].
    change (String c a +:+ String "/" b) with (String c (a +:+ String "/" b)).
    cbn [split_on]. destruct (Ascii.eqb c "/"); rewrite IH; [done|].
    destruct (split_on "/" a) eqn:E; [by apply split_on_nonempty in E|done]. }
  by rewrite H, List.filter_app.
Qed.

Lemma parts_of_single s : has_char "/" s = false -> is_part s = true -> parts_of s = [s].
Proof. intros H Hp. unfold parts_of. rewrite split_on_no_char by done. cbn. by rewrite Hp. Qed.

Lemma root_of_no_slash s : starts_with "/" s = false -> root_of s = "".
Proof.
  unfold root_of. destruct s as [|c s]; [done|]. intros H.
  cbn [starts_with] in *. rewrite andb_true_r in H. by rewrite H.
Qed.

Lemma starts_with_slash_no_char s : has_char "/" s = false -> starts_with "/" s = false.
Proof.
  destruct s as [|c s]; [done|]. unfold has_char. cbn [any_char starts_with].
  intros [H _]%orb_false_elim. unfold is_char in H. by rewrite H.
Qed.

(** Appending one plain segment appends one part. *)
Lemma path_div_segment p s :
  has_char "/" s = false -> is_part s = true ->
  path_div p s = mkPath (root p) (parts p ++ [s]).
Proof.
  intros H Hp. unfold path_div, path_of. cbn [root parts].
  rewrite root_of_no_slash by (by apply starts_with_slash_no_char).
  by rewrite parts_of_single.
Qed.

Lemma path_str_abs ps : path_str (mkPath "/" ps) = "/" +:+ join "/" ps.
Proof. unfold path_str. cbn [root parts]. rewrite decide_False; [done|]. by intros []. Qed.

(** A path string made of plain segments is read back as these segments. *)
Lemma parts_of_path_str ps :
  ps <> [] -> Forall (fun s => has_char "/" s = false /\ is_part s = true) ps ->
  parts_of (path_str (mkPath "/" ps)) = ps.
Proof.
  intros Hne H. rewrite path_str_abs. change ("/" +:+ join "/" ps) with ("" +:+ "/" +:+ join "/" ps).
  rewrite parts_of_slash. cbn [app]. unfold parts_of at 2.
  change "/" with (chr "/") at 1. rewrite split_on_join; [|done|].
  - change (parts_of "") with (@nil string). cbn [app].
    induction H as [|s ps [_ Hs] Hps IH]; [done|]. cbn. rewrite Hs.
    destruct ps; [done|]. by rewrite IH.
  - eapply Forall_impl; [done|]. by intros ? [].
Qed.
