(* ===== verification/PyRe.v ===== *)
(** * Regular-expression scanning

    [re.Pattern.sub] and [finditer] walk a text left to right: at each position
    a match is consumed whole, otherwise one character is passed over.
    [re_tokens] is this walk for any matcher that says, from the previous
    character and the remaining text, what matches and how long it is.

    [match_ref] is the shape of reference all the patterns of the code share: an
    opening, one or more characters of a class, and a closing brace. *)
From S2P Require Import Prelude PyStr.

Section scan.
Context {A : Type}.
(** The match at a position: what it captured, and the number of characters
    after the first that it consumes. *)
Variable matcher : option ascii -> string -> option (A * nat).

Fixpoint re_tokens (prev : option ascii) (skip : nat) (s : string) : list (ascii + A) :=
  match s with
  | EmptyString => []
  | String c s' =>
      match skip with
      | S skip => re_tokens (Some c) skip s'
      | O => match matcher prev s with
             | Some (a, n) => inr a :: re_tokens (Some c) n s'
             | None => inl c :: re_tokens (Some c) O s'
             end
      end
  end.

Definition re_matches (s : string) : list A :=
  omap (fun t => match t with inr a => Some a | inl _ => None end) (re_tokens None O s).
End scan.

(** [pattern.sub(f, s)] with an [f] that may raise. *)
Fixpoint render_tokens {A} (f : A -> res string) (l : list (ascii + A)) : res string :=
  match l with
  | [] => Ok EmptyString
  | inl c :: l => r ← render_tokens f l; Ok (String c r)
  | inr a :: l => x ← f a; r ← render_tokens f l; Ok (x +:+ r)
  end.

(** The longest run of a class at the head of a string. *)
Fixpoint span (p : ascii -> bool) (s : string) : string * string :=
  match s with
  | EmptyString => (EmptyString, EmptyString)
  | String c s' => if p c then let '(r, t) := span p s' in (String c r, t) else (EmptyString, s)
  end.

(** [opening class+ }], for a class without the closing brace. *)
Definition match_ref (opening : string) (cls : ascii -> bool) (s : string) : option string :=
  if starts_with opening s then
    match span cls (str_drop (String.length opening) s) with
    | (EmptyString, _) => None
    | (name, String c _) => if Ascii.eqb c "}" then Some name else None
    | _ => None
    end
  else None.

(** The characters a reference consumes after its first. *)
Definition ref_len (opening name : string) : nat := String.length opening + String.length name.

(** ** Lemmas *)

Lemma span_spec p s : s = fst (span p s) +:+ snd (span p s) /\ all_chars p (fst (span p s)) = true.
Proof.
  induction s as [|c s [IH1 IH2]]; [done|]. cbn. destruct (p c) eqn:E; [|done].
  destruct (span p s) as [r t]. cbn in *. rewrite E, IH2. by rewrite IH1 at 1.
Qed.

Lemma span_app p r c t : all_chars p r = true -> p c = false -> span p (r +:+ String c t) = (r, String c t).
Proof.
  intros Hr Hc. induction r as [|a r IH]; cbn in *; [by rewrite Hc|].
  apply andb_prop in Hr as [-> Hr]. by rewrite IH.
Qed.

Lemma match_ref_Some opening cls s name :
  match_ref opening cls s = Some name ->
  name <> EmptyString /\ all_chars cls name = true /\ exists t, s = opening +:+ name +:+ String "}" t.
Proof.
  unfold match_ref. destruct (starts_with opening s) eqn:E; [|done].
  apply starts_with_spec in E as [u ->]. rewrite str_drop_app.
  pose proof (span_spec cls u) as [Hu Hc]. destruct (span cls u) as [r t]; cbn [fst snd] in *.
  destruct r as [|a r]; [done|]. destruct t as [|c t]; [done|].
  destruct (Ascii.eqb_spec c "}") as [->|]; [|done]. intros [= <-]. subst u. eauto.
Qed.

Lemma match_ref_app opening cls name t :
  name <> EmptyString -> all_chars cls name = true -> cls "}"%char = false ->
  match_ref opening cls (opening +:+ name +:+ String "}" t) = Some name.
Proof.
  intros Hne Hn Hb. unfold match_ref. rewrite starts_with_app, str_drop_app, span_app by done.
  by destruct name.
Qed.

(** Skipping over the text of a match. *)
Lemma re_tokens_skip {A} (m : option ascii -> string -> option (A * nat)) prev u t :
  re_tokens m prev (String.length u) (u +:+ t) =
  re_tokens m (from_option Some prev (last (String.list_ascii_of_string u))) O t.
Proof.
  revert prev. induction u as [|c u IH]; intros prev; [done|].
  cbn [String.length String.append re_tokens]. rewrite IH. f_equal.
  cbn [String.list_ascii_of_string]. rewrite last_cons.
  by destruct (last (String.list_ascii_of_string u)).
Qed.

(** Text without a dollar sign before the rest is copied. *)
Lemma render_skip_lit {A} (f : A -> res string)
    (m : option ascii -> string -> option (A * nat)) lit rest prev :
  (forall prev t, m prev t <> None -> exists t', t = String "$" t') ->
  has_char "$" lit = false ->
  render_tokens f (re_tokens m prev O (lit +:+ rest)) =
  (r ← render_tokens f (re_tokens m (from_option Some prev (last (String.list_ascii_of_string lit))) O rest);
   Ok (lit +:+ r)).
Proof.
  intros Hm. revert prev. induction lit as [|c lit IH]; intros prev.
  { intros _. cbn. by destruct (render_tokens f _). }
  unfold has_char. cbn [any_char]. intros [Hc Hs]%orb_false_elim.
  change (String c lit +:+ rest) with (String c (lit +:+ rest)). cbn [re_tokens].
  destruct (m prev (String c (lit +:+ rest))) as [[a n]|] eqn:E.
  - destruct (Hm prev (String c (lit +:+ rest))) as [t' [= -> _]]; [by rewrite E|done].
  - cbn [render_tokens]. rewrite IH by done. cbn [String.list_ascii_of_string]. rewrite last_cons.
    destruct (last (String.list_ascii_of_string lit)); cbn [from_option];
      by destruct (render_tokens f _).
Qed.

Lemma render_tokens_lit {A} (f : A -> res string) s (m : option ascii -> string -> option (A * nat)) prev :
  (forall prev t, m prev t <> None -> exists t', t = String "$" t') ->
  has_char "$" s = false ->
  render_tokens f (re_tokens m prev O s) = Ok s.
Proof.
  intros Hm Hs. rewrite <- (app_nil_r_str s) at 1. rewrite render_skip_lit by done.
  cbn [re_tokens render_tokens mbind res_bind]. by rewrite app_nil_r_str.
Qed.
