(* ===== verification/Ipaddr.v ===== *)
(** * Python's [ipaddress]

    The part of the standard library module [ipaddress] the modelled code uses:
    [ip_address] on a string, [str] of an address, [ip_network] on the literals
    the source contains, and membership of an address in a network.  An address
    is its version, its integer value and, for IPv6, its scope. *)
From S2P Require Import Prelude PyStr.

Local Open Scope Z_scope.

Inductive ip :=
  | IPv4 (n : Z)
  | IPv6 (n : Z) (scope : option string).

#[export] Instance ip_eq_dec : EqDecision ip.
Proof. solve_decision. Defined.

Definition ip_version (a : ip) : Z := match a with IPv4 _ => 4 | IPv6 _ _ => 6 end.
Definition ip_int (a : ip) : Z := match a with IPv4 n | IPv6 n _ => n end.
Definition is_v6 (a : ip) : bool := match a with IPv4 _ => false | IPv6 _ _ => true end.

(** Addresses that exist: the value fits the family's width. *)
Definition ip_wf (a : ip) : Prop :=
  match a with
  | IPv4 n => 0 <= n < 2 ^ 32
  | IPv6 n _ => 0 <= n < 2 ^ 128
  end.

(** ** Printing *)

Definition octet (n : Z) (i : Z) : Z := (n / 2 ^ (8 * i)) mod 256.

Definition v4_str (n : Z) : string :=
  join "." [str_Z (octet n 3); str_Z (octet n 2); str_Z (octet n 1); str_Z (octet n 0)].

Definition hex_digit (d : Z) : ascii :=
  ascii_of_N (Z.to_N (if d <? 10 then 48 + d else 87 + d)).

(** ['%x' % n] of a 16-bit value. *)
Definition hex16 (n : Z) : string :=
  let d i := (n / 2 ^ (4 * i)) mod 16 in
  let s := String (hex_digit (d 3)) (String (hex_digit (d 2))
             (String (hex_digit (d 1)) EmptyString)) in
  lstrip_by (is_char "0") s +:+ chr (hex_digit (d 0)).

Definition hextet (n : Z) (i : Z) : Z := (n / 2 ^ (16 * i)) mod 65536.

Definition hextets (n : Z) : list string :=
  map (fun i => hex16 (hextet n i)) [7; 6; 5; 4; 3; 2; 1; 0].

(** [_compress_hextets]: the longest run of zero hextets, the first of the
    longest, found as start and length. *)
Fixpoint zero_runs (i : nat) (cur : option (nat * nat)) (best : nat * nat)
    (l : list string) : nat * nat :=
  match l with
  | [] => best
  | h :: l =>
      if decide (h = "0")
      then let c := match cur with Some (st, n) => (st, S n) | None => (i, 1%nat) end in
           zero_runs (S i) (Some c) (if (snd best <? snd c)%nat then c else best) l
      else zero_runs (S i) None best l
  end.

Definition compress_hextets (l : list string) : list string :=
  let '(st, n) := zero_runs 0 None (0%nat, 0%nat) l in
  if (1 <? n)%nat
  then (if (st =? 0)%nat then [EmptyString] else []) ++
       take st l ++ [EmptyString] ++ drop (st + n) l ++
       (if (st + n =? length l)%nat then [EmptyString] else [])
  else l.

Definition v6_str (n : Z) : string := join ":" (compress_hextets (hextets n)).

(** [str(address)]. *)
Definition ip_str (a : ip) : string :=
  match a with
  | IPv4 n => v4_str n
  | IPv6 n None => v6_str n
  | IPv6 n (Some scope) => v6_str n +:+ "%" +:+ scope
  end.

(** ** Parsing *)

(** One decimal octet: ASCII digits, at most three, no leading zero, at most 255. *)
Definition parse_octet (s : string) : option Z :=
  if negb (re_plus is_dec s) then None
  else if (3 <? String.length s)%nat then None
  else if negb (bool_decide (s = "0")) && starts_with "0" s then None
  else match int_digits 0 false s with
       | Some n => if 255 <? n then None else Some n
       | None => None
       end.

Definition parse_v4 (s : string) : option Z :=
  match split_on "." s with
  | [a; b; c; d] =>
      a ← parse_octet a; b ← parse_octet b; c ← parse_octet c; d ← parse_octet d;
      Some (((a * 256 + b) * 256 + c) * 256 + d)
  | _ => None
  end.

Definition hex_val (c : ascii) : Z :=
  if is_dec c then code c - 48
  else if in_range 97 102 c then code c - 87 else code c - 55.

Fixpoint hex_acc (acc : Z) (s : string) : Z :=
  match s with
  | EmptyString => acc
  | String c s => hex_acc (acc * 16 + hex_val c) s
  end.

Definition parse_hextet (s : string) : option Z :=
  if re_plus is_hexdigit s && (String.length s <=? 4)%nat then Some (hex_acc 0 s) else None.

Fixpoint parse_hextets (l : list string) : option (list Z) :=
  match l with
  | [] => Some []
  | s :: l => n ← parse_hextet s; ns ← parse_hextets l; Some (n :: ns)
  end.

Definition join_hextets (l : list Z) : Z := foldl (fun acc h => acc * 65536 + h) 0 l.

(** A dotted quad in the last position stands for two hextets. *)
Definition expand_v4_tail (parts : list string) : option (list string) :=
  match last parts with
  | Some s =>
      if has_char "." s
      then n ← parse_v4 s;
           Some (take (length parts - 1) parts ++ [hex16 (n / 65536); hex16 (n mod 65536)])
      else Some parts
  | None => Some parts
  end.

(** The positions of the empty parts strictly between the first and the last. *)
Definition inner_empties (parts : list string) : list nat :=
  filter (fun i => parts !! i = Some EmptyString) (seq 1 (length parts - 2)).

Definition parse_v6_parts (parts : list string) : option Z :=
  if (length parts <? 3)%nat then None else
  parts ← expand_v4_tail parts;
  if (9 <? length parts)%nat then None else
  let first := default EmptyString (head parts) in
  let final := default EmptyString (last parts) in
  match inner_empties parts with
  | [] =>
      if negb (length parts =? 8)%nat then None
      else ns ← parse_hextets parts; Some (join_hextets ns)
  | [skip] =>
      let hi := skip in
      let lo := (length parts - skip - 1)%nat in
      let hi' := if decide (first = EmptyString) then (hi - 1)%nat else hi in
      let lo' := if decide (final = EmptyString) then (lo - 1)%nat else lo in
      if bool_decide (first = EmptyString) && negb (hi' =? 0)%nat then None
      else if bool_decide (final = EmptyString) && negb (lo' =? 0)%nat then None
      else if (8 <=? hi' + lo')%nat then None
      else his ← parse_hextets (take hi' parts);
           los ← parse_hextets (drop (length parts - lo') parts);
           Some (join_hextets (his ++ replicate (8 - (hi' + lo')) 0 ++ los))
  | _ => None
  end.

Definition parse_v6 (s : string) : option ip :=
  if has_char "/" s then None else
  match cut "%" s with
  | None => n ← parse_v6_parts (split_on ":" s); Some (IPv6 n None)
  | Some (a, scope) =>
      if bool_decide (scope = EmptyString) || has_char "%" scope then None
      else n ← parse_v6_parts (split_on ":" a); Some (IPv6 n (Some scope))
  end.

(** [ip_address(s)]; [None] is ValueError. *)
Definition ip_address (s : string) : option ip :=
  match parse_v4 s with
  | Some n => Some (IPv4 n)
  | None => parse_v6 s
  end.

(** ** Networks *)

Record network := Network { net_v6 : bool; net_base : Z; net_plen : Z }.

#[export] Instance network_eq_dec : EqDecision network.
Proof. solve_decision. Defined.

Definition width (v6 : bool) : Z := if v6 then 128 else 32.
Definition netmask (n : network) : Z :=
  Z.lxor (Z.ones (width (net_v6 n))) (Z.shiftr (Z.ones (width (net_v6 n))) (net_plen n)).

(** [ip_network(s)] of ["addr/prefix"] or ["addr"], host bits zero. *)
Definition ip_network (s : string) : option network :=
  '(a, p) ← (match cut "/" s with
             | None => a ← ip_address s; Some (a, width (is_v6 a))
             | Some (l, r) => a ← ip_address l; p ← int_digits 0 false r; Some (a, p)
             end);
  let n := Network (is_v6 a) (ip_int a) p in
  if (p <=? width (is_v6 a)) && (Z.land (ip_int a) (netmask n) =? ip_int a)
  then Some n else None.

(** [addr in network]. *)
Definition in_network (a : ip) (n : network) : bool :=
  Bool.eqb (is_v6 a) (net_v6 n) && (Z.land (ip_int a) (netmask n) =? net_base n).

(** ** Lemmas *)

Lemma netmask_land w p a :
  0 <= p <= w -> 0 <= a < 2 ^ w ->
  Z.land a (Z.lxor (Z.ones w) (Z.shiftr (Z.ones w) p)) = a / 2 ^ (w - p) * 2 ^ (w - p).
Proof.
  intros Hp Ha. rewrite <- Z.shiftr_div_pow2, <- Z.shiftl_mul_pow2 by lia.
  apply Z.bits_inj'. intros i Hi.
  rewrite Z.land_spec, Z.lxor_spec, Z.shiftr_spec by lia.
  destruct (decide (i < w - p)).
  - rewrite Z.shiftl_spec_low by lia.
    rewrite !Z.ones_spec_low by lia. by rewrite andb_false_r.
  - rewrite Z.shiftl_spec by lia. rewrite Z.shiftr_spec by lia.
    replace (i - (w - p) + (w - p)) with i by lia.
    rewrite (Z.ones_spec_high _ (i + p)) by lia. rewrite xorb_false_r.
    destruct (decide (i < w)).
    + rewrite Z.ones_spec_low by lia. by rewrite andb_true_r.
    + rewrite Z.ones_spec_high by lia. rewrite andb_false_r.
      rewrite <- (Z.mod_small a (2 ^ w)) by lia. symmetry. apply Z.mod_pow2_bits_high. lia.
Qed.

(** Membership in an aligned network is a range test. *)
Lemma in_network_range a n :
  ip_wf a -> 0 <= net_plen n <= width (net_v6 n) ->
  net_base n mod 2 ^ (width (net_v6 n) - net_plen n) = 0 ->
  in_network a n = true <->
  is_v6 a = net_v6 n /\
  net_base n <= ip_int a < net_base n + 2 ^ (width (net_v6 n) - net_plen n).
Proof.
  intros Ha Hp Hb. unfold in_network. rewrite andb_true_iff, Bool.eqb_true_iff, Z.eqb_eq.
  assert (Hpos : 0 < 2 ^ (width (net_v6 n) - net_plen n)) by (apply Z.pow_pos_nonneg; lia).
  split; intros [Hv H]; split; try done.
  - unfold netmask in H. rewrite netmask_land in H; [|done|].
    2:{ destruct a; simpl in *; rewrite <- Hv; simpl; lia. }
    pose proof (Z.div_mod (ip_int a) (2 ^ (width (net_v6 n) - net_plen n))).
    pose proof (Z.mod_pos_bound (ip_int a) (2 ^ (width (net_v6 n) - net_plen n)) Hpos). lia.
  - unfold netmask. rewrite netmask_land; [|done|].
    2:{ destruct a; simpl in *; rewrite <- Hv; simpl; lia. }
    set (k := 2 ^ (width (net_v6 n) - net_plen n)) in *.
    pose proof (Z.div_mod (net_base n) k). pose proof (Z.div_mod (ip_int a) k).
    pose proof (Z.mod_pos_bound (ip_int a) k Hpos).
    assert (net_base n = k * (net_base n / k)) as Hbk by lia.
    assert (ip_int a / k = net_base n / k) as ->; [|lia].
    symmetry. apply Z.div_unique with (ip_int a - net_base n); lia.
Qed.

Lemma octet_bound n i : 0 <= octet n i < 256.
Proof. apply Z.mod_pos_bound. lia. Qed.

Lemma parse_octet_str n : 0 <= n < 256 -> parse_octet (str_Z n) = Some n.
Proof.
  intros H.
  assert (Hall : forallb (fun k => bool_decide (parse_octet (str_Z (Z.of_nat k)) = Some (Z.of_nat k)))
                   (seq 0 256) = true) by (vm_compute; reflexivity).
  rewrite forallb_forall in Hall.
  specialize (Hall (Z.to_nat n)). rewrite bool_decide_eq_true in Hall.
  rewrite Z2Nat.id in Hall by lia. apply Hall. apply in_seq. lia.
Qed.

Lemma str_Z_no_dot n : 0 <= n < 256 -> has_char "." (str_Z n) = false.
Proof.
  intros H.
  assert (Hall : forallb (fun k => negb (has_char "." (str_Z (Z.of_nat k)))) (seq 0 256) = true)
    by (vm_compute; reflexivity).
  rewrite forallb_forall in Hall.
  specialize (Hall (Z.to_nat n)). rewrite Z2Nat.id in Hall by lia.
  apply negb_true_iff, Hall, in_seq. lia.
Qed.

(** Printing an IPv4 address and parsing it back gives the address. *)
Lemma parse_v4_str n : 0 <= n < 2 ^ 32 -> parse_v4 (v4_str n) = Some n.
Proof.
  intros H. unfold parse_v4, v4_str.
  change "."%string with (chr ".").
  rewrite split_on_join; [|done|repeat constructor; apply str_Z_no_dot, octet_bound].
  rewrite !parse_octet_str by apply octet_bound. cbn [mbind option_bind]. f_equal.
  unfold octet.
  change (2 ^ (8 * 3)) with 16777216. change (2 ^ (8 * 2)) with 65536.
  change (2 ^ (8 * 1)) with 256. change (2 ^ (8 * 0)) with 1.
  change (2 ^ 32) with 4294967296 in H.
  Z.to_euclidean_division_equations. lia.
Qed.

Lemma ip_address_v4_str n : 0 <= n < 2 ^ 32 -> ip_address (v4_str n) = Some (IPv4 n).
Proof. intros H. unfold ip_address. by rewrite parse_v4_str. Qed.

Lemma v4_str_inj n m :
  0 <= n < 2 ^ 32 -> 0 <= m < 2 ^ 32 -> v4_str n = v4_str m -> n = m.
Proof.
  intros Hn Hm H. apply (f_equal parse_v4) in H. rewrite !parse_v4_str in H by done. congruence.
Qed.

Lemma hex_digit_spec d :
  0 <= d < 16 ->
  hex_val (hex_digit d) = d /\ is_hexdigit (hex_digit d) = true /\
  is_char "0" (hex_digit d) = (d =? 0).
Proof.
  intros H.
  assert (Hall : forallb (fun k => let d := Z.of_nat k in
      (hex_val (hex_digit d) =? d) && is_hexdigit (hex_digit d) &&
      Bool.eqb (is_char "0" (hex_digit d)) (d =? 0)) (seq 0 16) = true)
    by (vm_compute; reflexivity).
  rewrite forallb_forall in Hall. specialize (Hall (Z.to_nat d)).
  rewrite Z2Nat.id in Hall by lia.
  destruct (andb_prop _ _ (Hall ltac:(apply in_seq; lia))) as [[? ?]%andb_prop ?].
  repeat split; [lia | done | by apply Bool.eqb_prop].
Qed.

Lemma parse_hextet_hex16 n : 0 <= n < 65536 -> parse_hextet (hex16 n) = Some n.
Proof.
  intros H. unfold hex16.
  set (d i := (n / 2 ^ (4 * i)) mod 16).
  assert (Hd : forall i, 0 <= d i < 16) by (intros i; apply Z.mod_pos_bound; lia).
  assert (Hn : ((d 3 * 16 + d 2) * 16 + d 1) * 16 + d 0 = n).
  { unfold d. change (2 ^ (4 * 3)) with 4096. change (2 ^ (4 * 2)) with 256.
    change (2 ^ (4 * 1)) with 16. change (2 ^ (4 * 0)) with 1.
    Z.to_euclidean_division_equations. lia. }
  destruct (hex_digit_spec _ (Hd 0)) as (V0 & H0 & _).
  destruct (hex_digit_spec _ (Hd 1)) as (V1 & H1 & Z1).
  destruct (hex_digit_spec _ (Hd 2)) as (V2 & H2 & Z2).
  destruct (hex_digit_spec _ (Hd 3)) as (V3 & H3 & Z3).
  fold (d 3) (d 2) (d 1) (d 0). cbn [lstrip_by]. rewrite Z1, Z2, Z3.
  unfold parse_hextet, re_plus.
  destruct (Z.eqb_spec (d 3) 0), (Z.eqb_spec (d 2) 0), (Z.eqb_spec (d 1) 0);
    cbn -[Z.mul Z.add d]; rewrite ?H0, ?H1, ?H2, ?H3, ?V0, ?V1, ?V2, ?V3;
    cbn -[Z.mul Z.add d]; f_equal; lia.
Qed.

Lemma hex16_inj n m :
  0 <= n < 65536 -> 0 <= m < 65536 -> hex16 n = hex16 m -> n = m.
Proof.
  intros Hn Hm H. apply (f_equal parse_hextet) in H.
  rewrite !parse_hextet_hex16 in H by done. congruence.
Qed.

Example v6_roundtrip_example :
  ip_address "2001:2::c612:100" = Some (IPv6 (0x20010002000000000000000000000000 + 0xc6120100) None)
  /\ ip_str (IPv6 (0x20010002000000000000000000000000 + 0xc6120100) None) = "2001:2::c612:100"
  /\ ip_address "::ffff:1.2.3.4" = Some (IPv6 0xffff01020304 None)
  /\ ip_str (IPv6 0 None) = "::" /\ ip_str (IPv6 1 None) = "::1"
  /\ ip_address "1:2:3:4:5:6:7::" = Some (IPv6 0x10002000300040005000600070000 None)
  /\ ip_address "1::2::3" = None /\ ip_address "01.2.3.4" = None
  /\ ip_network "10.0.0.0/8" = Some (Network false 0x0a000000 8).
Proof. vm_compute. repeat split. Qed.
