(* ===== verification/WorkloadAddr.v ===== *)
(** * Uid-derived values: [lib/workload_addr.py]

    Everything a workload is given of its own -- loopback listeners, inspector
    addresses in both families, an nflog group -- is an offset of its uid into
    the workload range.  The file models the rows, the derivation, the table of
    reserved ranges computed from the rows and the two refusals that read it,
    and proves that the derived values never collide and are always reserved. *)
From S2P Require Import Prelude PyStr Ipaddr.

Local Open Scope Z_scope.

(** ** The model *)

Definition UID_MIN : Z := 10000.
Definition UID_MAX : Z := 52948.

Record RangeReservation := mkReservation {
  rr_network : network;
  rr_port : option Z;
  rr_what : string }.

#[export] Instance RangeReservation_eq_dec : EqDecision RangeReservation.
Proof. solve_decision. Defined.

Record UidDerived := mkDerived {
  ud_noun : string;
  ud_base : Z;
  ud_reservation : option RangeReservation;
  ud_reservation6 : option RangeReservation }.

Definition uid_derived_value (d : UidDerived) (uid : Z) : res Z :=
  if (uid <? UID_MIN) || (UID_MAX <? uid) then Raise ValueError
  else Ok (ud_base d + (uid - UID_MIN)).

Definition INSPECT_ADDR_BASE : Z := 0xC6120100.
Definition INSPECT_NETWORK : network := Network false 0xC6120000 16.
Definition INSPECT_ADDR6_PREFIX : network :=
  Network true 0x20010002000000000000000000000000 48.

Definition RESERVATION_INSPECT4 : RangeReservation :=
  mkReservation INSPECT_NETWORK None "the egress inspector's IPv4 listener range".
Definition RESERVATION_INSPECT6 : RangeReservation :=
  mkReservation INSPECT_ADDR6_PREFIX None "the egress inspector's IPv6 listener range".
Definition UID_INSPECT : UidDerived :=
  mkDerived "inspector address" INSPECT_ADDR_BASE
    (Some RESERVATION_INSPECT4) (Some RESERVATION_INSPECT6).

Definition MGMT_ADDR_BASE : Z := 0x7F800000.
Definition MGMT_NETWORK : network := Network false 0x7F800000 9.
Definition RESERVATION_MGMT : RangeReservation :=
  mkReservation MGMT_NETWORK None "the per-workload management addresses".
Definition UID_MGMT : UidDerived :=
  mkDerived "management address" MGMT_ADDR_BASE (Some RESERVATION_MGMT) None.

Definition NFLOG_GROUP_BASE : Z := 1000.
Definition UID_NFLOG : UidDerived := mkDerived "nflog group" NFLOG_GROUP_BASE None None.

Definition BROKER_ADDR_BASE : Z := 0x7F810000.
Definition UID_BROKER : UidDerived :=
  mkDerived "broker listen address" BROKER_ADDR_BASE (Some RESERVATION_MGMT) None.

Definition RESOLVE_ADDR_BASE : Z := 0x7F820000.
Definition UID_RESOLVE : UidDerived :=
  mkDerived "responder address" RESOLVE_ADDR_BASE (Some RESERVATION_MGMT) None.

Definition management_address (uid : Z) : res string :=
  n ← uid_derived_value UID_MGMT uid; Ok (v4_str n).

Record VmInspectAddress := mkInspect { v4 : string; v6 : string }.

Definition inspect_address (uid : Z) : res VmInspectAddress :=
  n ← uid_derived_value UID_INSPECT uid;
  Ok (mkInspect (v4_str n) (v6_str (Z.lor (net_base INSPECT_ADDR6_PREFIX) n))).

Definition nflog_group (uid : Z) : res Z := uid_derived_value UID_NFLOG uid.

Definition broker_listen_address (uid : Z) : res string :=
  n ← uid_derived_value UID_BROKER uid; Ok (v4_str n).

Definition resolve_address (uid : Z) : res string :=
  n ← uid_derived_value UID_RESOLVE uid; Ok (v4_str n).

Definition UID_DERIVED : list UidDerived :=
  [UID_MGMT; UID_BROKER; UID_RESOLVE; UID_INSPECT; UID_NFLOG].

Record ReservedRange := mkReserved {
  rg_network : network;
  rg_port : option Z;
  rg_what : string }.

(** [_reserved_ranges]: the reservations of the rows, deduplicated in table order. *)
Fixpoint dedup_reservations (seen : list RangeReservation)
    (l : list (option RangeReservation)) : list ReservedRange :=
  match l with
  | [] => []
  | None :: l => dedup_reservations seen l
  | Some r :: l =>
      if decide (r ∈ seen) then dedup_reservations seen l
      else mkReserved (rr_network r) (rr_port r) (rr_what r)
             :: dedup_reservations (seen ++ [r]) l
  end.

Definition reserved_ranges (rows : list UidDerived) : list ReservedRange :=
  dedup_reservations []
    (concat (map (fun d => [ud_reservation d; ud_reservation6 d]) rows)).

Definition RESERVED_RANGES : list ReservedRange := reserved_ranges UID_DERIVED.

Definition range_covers (a : ip) (port : option Z) (r : ReservedRange) : bool :=
  if negb (Bool.eqb (is_v6 a) (net_v6 (rg_network r))) then false
  else if negb (in_network a (rg_network r)) then false
  else match rg_port r with
       | None => true
       | Some p => bool_decide (port = Some p)
       end.

Definition reserved_range (addr : string) (port : option Z) : option ReservedRange :=
  match ip_address addr with
  | None => None
  | Some a => find (range_covers a port) RESERVED_RANGES
  end.

(** The reason is [Some n] for the network named in the message. *)
Definition allow_reserved_reason (addr : ip) : option network :=
  let n := if is_v6 addr then INSPECT_ADDR6_PREFIX else INSPECT_NETWORK in
  if in_network addr n then Some n else None.

Definition ADVERTISED_IFACE : string := "workload-proxy".
Definition IP_BIN : string := "/usr/sbin/ip".

(** [ensure_advertised_interface(run)]: [run] takes the world and an argv and
    gives the world after it, a return code and its standard error. *)
Definition ensure_advertised_interface {W} (run : W -> list string -> W * (Z * string))
    (w : W) : W * res unit :=
  let '(w, (rc, err)) := run w [IP_BIN; "link"; "add"; ADVERTISED_IFACE; "type"; "dummy"] in
  if negb (rc =? 0) && negb (contains "File exists" err) then (w, Raise RuntimeError)
  else let '(w, (rc, _)) := run w [IP_BIN; "link"; "set"; ADVERTISED_IFACE; "up"] in
       if negb (rc =? 0) then (w, Raise RuntimeError) else (w, Ok tt).

(** ** The addresses a workload is given, by kind *)

Inductive addr_kind := MGMT | BROKER | RESOLVE | INSPECT4 | INSPECT6.

Definition derived_address (k : addr_kind) (uid : Z) : res string :=
  match k with
  | MGMT => management_address uid
  | BROKER => broker_listen_address uid
  | RESOLVE => resolve_address uid
  | INSPECT4 => v4 <$> inspect_address uid
  | INSPECT6 => v6 <$> inspect_address uid
  end.

(** ** Lemmas *)

Lemma uid_derived_value_Ok d uid n :
  uid_derived_value d uid = Ok n <->
  UID_MIN <= uid <= UID_MAX /\ n = ud_base d + (uid - UID_MIN).
Proof.
  unfold uid_derived_value. destruct ((uid <? UID_MIN) || (UID_MAX <? uid)) eqn:E.
  - split; [done|]. intros [H _]. lia.
  - split; [intros [= <-]; lia | intros [_ ->]; done].
Qed.

(** The integer behind each kind of address. *)
Definition kind_base (k : addr_kind) : Z :=
  match k with
  | MGMT => MGMT_ADDR_BASE | BROKER => BROKER_ADDR_BASE | RESOLVE => RESOLVE_ADDR_BASE
  | INSPECT4 | INSPECT6 => INSPECT_ADDR_BASE
  end.
Definition kind_v6 (k : addr_kind) : bool := match k with INSPECT6 => true | _ => false end.

Definition kind_ip (k : addr_kind) (uid : Z) : ip :=
  let n := kind_base k + (uid - UID_MIN) in
  if kind_v6 k then IPv6 (net_base INSPECT_ADDR6_PREFIX + n) None else IPv4 n.

Lemma lor_prefix n : 0 <= n < 2 ^ 32 ->
  Z.lor (net_base INSPECT_ADDR6_PREFIX) n = net_base INSPECT_ADDR6_PREFIX + n.
Proof.
  intros H. rewrite <- Z.lxor_lor, <- Z.add_nocarry_lxor; [done| |];
  (apply Z.bits_inj'; intros i Hi; rewrite Z.land_spec, Z.bits_0;
   destruct (decide (i < 32)) as [Hl|Hl];
   [ replace (Z.testbit (net_base INSPECT_ADDR6_PREFIX) i) with false;
     [done | change (net_base INSPECT_ADDR6_PREFIX) with
               (Z.shiftl (0x200100020000000000000000) 32);
             by rewrite Z.shiftl_spec_low by lia]
   | rewrite <- (Z.mod_small n (2 ^ 32)) by lia;
     rewrite Z.mod_pow2_bits_high by lia; by rewrite andb_false_r ]).
Qed.

Lemma derived_address_Ok k uid s :
  derived_address k uid = Ok s <->
  UID_MIN <= uid <= UID_MAX /\ s = ip_str (kind_ip k uid).
Proof.
  assert (Hb : UID_MIN <= uid <= UID_MAX ->
               0 <= INSPECT_ADDR_BASE + (uid - UID_MIN) < 2 ^ 32)
    by (unfold UID_MIN, UID_MAX, INSPECT_ADDR_BASE; lia).
  destruct k; cbn [derived_address]; unfold management_address, broker_listen_address,
    resolve_address, inspect_address;
  (match goal with |- context [uid_derived_value ?d uid] =>
     destruct (uid_derived_value d uid) as [n|e] eqn:E end; cbn;
   [ apply uid_derived_value_Ok in E as [Hu ->];
     try rewrite lor_prefix by auto;
     split; [intros [= <-]; done | intros [_ ->]; done]
   | split; [done|]; intros [Hu _]; unfold uid_derived_value in E;
     destruct ((uid <? UID_MIN) || (UID_MAX <? uid)) eqn:E'; [lia | done] ]).
Qed.

Lemma kind_ip_wf k uid : UID_MIN <= uid <= UID_MAX -> ip_wf (kind_ip k uid).
Proof.
  unfold UID_MIN, UID_MAX. intros H. destruct k; cbn -[Z.pow];
    unfold MGMT_ADDR_BASE, BROKER_ADDR_BASE, RESOLVE_ADDR_BASE, INSPECT_ADDR_BASE, UID_MIN; lia.
Qed.

(** The printed form of an inspector's IPv6 address. *)
Definition v6_head : Z := 0x200100020000000000000000C6120000.

Lemma hextet_head_high lo i :
  0 <= lo < 65536 -> 1 <= i -> hextet (v6_head + lo) i = hextet v6_head i.
Proof.
  intros Hlo Hi. unfold hextet. f_equal.
  replace (2 ^ (16 * i)) with (65536 * 2 ^ (16 * (i - 1))).
  2:{ change 65536 with (2 ^ 16). rewrite <- Z.pow_add_r by lia. f_equal. lia. }
  rewrite <- !Z.div_div by (try apply Z.pow_pos_nonneg; lia). f_equal.
  replace v6_head with (0x200100020000000000000000C612 * 65536) at 1 by reflexivity.
  rewrite Z.div_add_l by lia. rewrite Z.div_small by lia. reflexivity.
Qed.

Lemma v6_str_inspect lo :
  0 < lo < 65536 -> v6_str (v6_head + lo) = "2001:2::c612:" +:+ hex16 lo.
Proof.
  intros Hlo. unfold v6_str, hextets.
  change [7; 6; 5; 4; 3; 2; 1; 0] with ([7; 6; 5; 4; 3; 2; 1] ++ [0]). rewrite map_app.
  rewrite (map_ext_in _ (fun i => hex16 (hextet v6_head i)) [7; 6; 5; 4; 3; 2; 1]).
  2:{ intros i Hi. f_equal. apply hextet_head_high; [lia|].
      repeat (destruct Hi as [<-|Hi]; [lia|]). done. }
  cbn [map].
  replace (hextet (v6_head + lo) 0) with lo.
  2:{ unfold hextet. change (2 ^ (16 * 0)) with 1. rewrite Z.div_1_r.
      replace v6_head with (0x200100020000000000000000C612 * 65536) by reflexivity.
      rewrite Z.add_comm, Z.mod_add by lia. rewrite Z.mod_small; lia. }
  assert (Hne : hex16 lo <> "0").
  { change "0" with (hex16 0). intros H%hex16_inj; lia. }
  generalize dependent (hex16 lo). intros h Hne.
  replace [hex16 (hextet v6_head 7); hex16 (hextet v6_head 6); hex16 (hextet v6_head 5);
           hex16 (hextet v6_head 4); hex16 (hextet v6_head 3); hex16 (hextet v6_head 2);
           hex16 (hextet v6_head 1)]
    with ["2001"; "2"; "0"; "0"; "0"; "0"; "c612"] by (vm_compute; reflexivity).
  cbn [app]. unfold compress_hextets.
  assert (zero_runs 0 None (0%nat, 0%nat) ["2001"; "2"; "0"; "0"; "0"; "0"; "c612"; h] = (2%nat, 4%nat)) as ->.
  { cbn [zero_runs]. repeat (destruct (decide _) as [?|?]; try done). }
  done.
Qed.

Lemma kind_ip_str_inspect6 uid :
  UID_MIN <= uid <= UID_MAX ->
  ip_str (kind_ip INSPECT6 uid) = "2001:2::c612:" +:+ hex16 (0x100 + (uid - UID_MIN)).
Proof.
  unfold UID_MIN, UID_MAX. intros H. rewrite <- v6_str_inspect by lia.
  cbn [kind_ip kind_v6 ip_str kind_base]. f_equal.
  unfold v6_head, INSPECT_ADDR_BASE, UID_MIN. cbn [net_base INSPECT_ADDR6_PREFIX]. lia.
Qed.

Lemma v4_str_no_colon n : has_char ":" (v4_str n) = false.
Proof.
  assert (Hs : forall m, 0 <= m < 256 -> has_char ":" (str_Z m) = false).
  { intros m Hm.
    assert (Hall : forallb (fun k => negb (has_char ":" (str_Z (Z.of_nat k)))) (seq 0 256) = true)
      by (vm_compute; reflexivity).
    rewrite forallb_forall in Hall. specialize (Hall (Z.to_nat m)).
    rewrite Z2Nat.id in Hall by lia. apply negb_true_iff, Hall, in_seq. lia. }
  unfold v4_str. cbn [join]. rewrite !has_char_app, !Hs by apply octet_bound. reflexivity.
Qed.

(** Two derived addresses are equal only for the same kind and the same uid. *)
Lemma kind_ip_str_inj k k' u u' :
  UID_MIN <= u <= UID_MAX -> UID_MIN <= u' <= UID_MAX ->
  ip_str (kind_ip k u) = ip_str (kind_ip k' u') -> k = k' /\ u = u'.
Proof.
  intros Hu Hu' H.
  assert (Hcolon : forall k u, UID_MIN <= u <= UID_MAX ->
            has_char ":" (ip_str (kind_ip k u)) = kind_v6 k).
  { intros [] ? ?; try (apply v4_str_no_colon).
    rewrite kind_ip_str_inspect6 by done. by rewrite has_char_app. }
  pose proof (f_equal (has_char ":") H) as Hc. rewrite !Hcolon in Hc by done.
  destruct (kind_v6 k) eqn:Ek, (kind_v6 k') eqn:Ek'; try done.
  - destruct k, k'; try done. rewrite !kind_ip_str_inspect6 in H by done.
    apply app_inj_l_str, hex16_inj in H; unfold UID_MIN, UID_MAX in *; [split; [done|lia]|lia|lia].
  - pose proof (kind_ip_wf k u Hu) as W. pose proof (kind_ip_wf k' u' Hu') as W'.
    unfold kind_ip in *. rewrite Ek in *. rewrite Ek' in *.
    cbn [ip_str ip_wf] in *. apply v4_str_inj in H; [|done|done].
    destruct k, k'; try discriminate; cbn [kind_base] in H;
      unfold MGMT_ADDR_BASE, BROKER_ADDR_BASE, RESOLVE_ADDR_BASE, INSPECT_ADDR_BASE,
        UID_MIN, UID_MAX in *; (split; [done|lia]) || lia.
Qed.

Lemma hex16_no_char c n :
  is_hexdigit c = false -> 0 <= n < 65536 -> has_char c (hex16 n) = false.
Proof.
  intros Hc Hn. pose proof (parse_hextet_hex16 n Hn) as H. unfold parse_hextet in H.
  destruct (re_plus is_hexdigit (hex16 n)) eqn:E; [|done].
  unfold re_plus in E. apply andb_prop in E as [_ E].
  by apply (all_chars_no_char is_hexdigit).
Qed.

Lemma hex16_nonempty n : 0 <= n < 65536 -> hex16 n <> EmptyString.
Proof. intros Hn H. pose proof (parse_hextet_hex16 n Hn) as P. by rewrite H in P. Qed.

(** Every derived address parses back to the address it prints. *)
Lemma kind_ip_parse k uid :
  UID_MIN <= uid <= UID_MAX -> ip_address (ip_str (kind_ip k uid)) = Some (kind_ip k uid).
Proof.
  intros Hu. destruct (kind_v6 k) eqn:Ek.
  - destruct k; try discriminate. rewrite kind_ip_str_inspect6 by done.
    unfold UID_MIN, UID_MAX in *. set (lo := 0x100 + (uid - 10000)).
    assert (Hlo : 0 < lo < 65536) by (unfold lo; lia).
    assert (Hkind : kind_ip INSPECT6 uid = IPv6 (v6_head + lo) None).
    { unfold lo, kind_ip, v6_head. cbn [kind_v6 kind_base net_base INSPECT_ADDR6_PREFIX].
      unfold INSPECT_ADDR_BASE, UID_MIN. f_equal. lia. }
    rewrite Hkind. clear Hkind. clearbody lo.
    pose proof (hex16_no_char ":" lo eq_refl ltac:(lia)) as C1.
    pose proof (hex16_no_char "." lo eq_refl ltac:(lia)) as C2.
    pose proof (hex16_no_char "/" lo eq_refl ltac:(lia)) as C3.
    pose proof (hex16_no_char "%" lo eq_refl ltac:(lia)) as C4.
    pose proof (parse_hextet_hex16 lo ltac:(lia)) as P.
    pose proof (hex16_nonempty lo ltac:(lia)) as Hne.
    generalize dependent (hex16 lo). intros h C1 C2 C3 C4 P Hne.
    unfold ip_address, parse_v4. rewrite split_on_no_char by (by rewrite has_char_app, C2).
    unfold parse_v6. rewrite has_char_app, C3. cbn [orb].
    change (has_char "/" "2001:2::c612:") with false. cbn [orb].
    assert (cut "%" ("2001:2::c612:" +:+ h) = None) as ->.
    { apply cut_None. by rewrite has_char_app, C4. }
    change ("2001:2::c612:" +:+ h)
      with ("2001" +:+ String ":" ("2" +:+ String ":" ("" +:+ String ":" ("c612" +:+ String ":" h)))).
    rewrite !split_on_app by done. rewrite (split_on_no_char ":" h) by done.
    unfold parse_v6_parts, expand_v4_tail. cbn [last length Nat.ltb Nat.leb].
    rewrite C2. cbn [mbind option_bind length Nat.ltb Nat.leb].
    change (inner_empties ["2001"; "2"; ""; "c612"; h]) with [2%nat].
    cbn [last head default from_option length Nat.sub].
    rewrite (bool_decide_eq_false_2 (h = "")) by done.
    rewrite (bool_decide_eq_false_2 ("2001" = "")) by done.
    rewrite !(decide_False (P := h = "")), !(decide_False (P := "2001" = "")) by done.
    cbn [andb negb Nat.add Nat.leb Nat.sub take drop parse_hextets].
    change (parse_hextet "2001") with (Some 0x2001). change (parse_hextet "2") with (Some 2).
    change (parse_hextet "c612") with (Some 0xc612). rewrite P.
    cbn [mbind option_bind app replicate]. unfold v6_head, join_hextets.
    reflexivity.
  - pose proof (kind_ip_wf k uid Hu) as W. unfold kind_ip in *. rewrite Ek in *.
    by apply ip_address_v4_str.
Qed.

Lemma reserved_ranges_eq :
  RESERVED_RANGES =
  [mkReserved MGMT_NETWORK None (rr_what RESERVATION_MGMT);
   mkReserved INSPECT_NETWORK None (rr_what RESERVATION_INSPECT4);
   mkReserved INSPECT_ADDR6_PREFIX None (rr_what RESERVATION_INSPECT6)].
Proof. vm_compute. reflexivity. Qed.

(** The network that reserves each kind of address. *)
Definition kind_network (k : addr_kind) : network :=
  match k with
  | INSPECT4 => INSPECT_NETWORK | INSPECT6 => INSPECT_ADDR6_PREFIX | _ => MGMT_NETWORK
  end.

Definition kind_range (k : addr_kind) : ReservedRange :=
  mkReserved (kind_network k) None
    (match k with
     | INSPECT4 => rr_what RESERVATION_INSPECT4 | INSPECT6 => rr_what RESERVATION_INSPECT6
     | _ => rr_what RESERVATION_MGMT
     end).

Lemma kind_range_network k : rg_network (kind_range k) = kind_network k.
Proof. done. Qed.

Lemma kind_range_In k : In (kind_range k) RESERVED_RANGES.
Proof. rewrite reserved_ranges_eq. destruct k; simpl; tauto. Qed.

Lemma kind_ip_in_network k uid :
  UID_MIN <= uid <= UID_MAX -> in_network (kind_ip k uid) (kind_network k) = true.
Proof.
  intros Hu. pose proof (kind_ip_wf k uid Hu) as W.
  apply in_network_range; [done| | |].
  - destruct k; vm_compute; split; discriminate.
  - destruct k; vm_compute; reflexivity.
  - unfold UID_MIN, UID_MAX in Hu. split; [by destruct k|].
    destruct k; cbn -[Z.pow]; unfold MGMT_ADDR_BASE, BROKER_ADDR_BASE, RESOLVE_ADDR_BASE,
      INSPECT_ADDR_BASE, UID_MIN; lia.
Qed.

(** ** Theorems *)

(** C35.  Uniqueness is inherited from the uid: no two of the addresses this
    design hands out -- management, broker, responder, inspector v4 and v6, of
    any workloads -- are equal as the strings written into units and nft
    elements, unless they are the same kind of address of the same uid. *)
Theorem derived_addresses_unique k k' u u' s :
  derived_address k u = Ok s -> derived_address k' u' = Ok s -> k = k' /\ u = u'.
Proof.
  intros [Hu ->]%derived_address_Ok [Hu' H]%derived_address_Ok. by apply kind_ip_str_inj.
Qed.

Lemma derived_addresses_unique_witness :
  derived_address MGMT 10003 = Ok "127.128.0.3" /\ (MGMT = MGMT /\ 10003 = 10003).
Proof.
  split; [vm_compute; reflexivity|].
  apply (derived_addresses_unique MGMT MGMT 10003 10003 "127.128.0.3"); vm_compute; reflexivity.
Defined.

(** Every address this design derives for a workload is refused as a
    [ports] bind address, whatever the port: the table of reserved ranges is
    computed from the rows and covers all of them, in both families. *)
Theorem derived_address_reserved k uid s port :
  derived_address k uid = Ok s ->
  exists r, reserved_range s port = Some r /\ in_network (kind_ip k uid) (rg_network r) = true.
Proof.
  intros [Hu ->]%derived_address_Ok. unfold reserved_range. rewrite kind_ip_parse by done.
  pose proof (kind_ip_in_network k uid Hu) as Hin.
  destruct (find (range_covers (kind_ip k uid) port) RESERVED_RANGES) as [r|] eqn:E.
  - exists r. split; [done|]. apply find_some in E as [_ E]. unfold range_covers in E.
    destruct (Bool.eqb _ _); [|done]. by destruct (in_network _ (rg_network r)).
  - exfalso. pose proof (find_none _ _ E _ (kind_range_In k)) as F. unfold range_covers in F.
    rewrite kind_range_network, Hin in F. by destruct k.
Qed.

Lemma derived_address_reserved_witness :
  exists r, reserved_range "127.129.0.0" (Some 80) = Some r
    /\ in_network (kind_ip BROKER 10000) (rg_network r) = true.
Proof. apply (derived_address_reserved BROKER 10000); vm_compute; reflexivity. Defined.

(** The nflog group is derivable exactly for workload uids, lies in
    1000..43948 -- clear of the conventional small groups and inside the 16-bit
    group space -- and is different for different uids. *)
Theorem nflog_group_range uid :
  (forall g, nflog_group uid = Ok g ->
     1000 <= g <= 43948 /\ g < 2 ^ 16 /\ forall uid', nflog_group uid' = Ok g -> uid' = uid)
  /\ (is_ok (nflog_group uid) = true <-> UID_MIN <= uid <= UID_MAX)
  /\ (is_ok (nflog_group uid) = false -> nflog_group uid = Raise ValueError).
Proof.
  unfold nflog_group. repeat split.
  1-4: apply uid_derived_value_Ok in H as [H ->]; unfold UID_MIN, UID_MAX in *;
       cbn [ud_base UID_NFLOG]; unfold NFLOG_GROUP_BASE; try lia.
  - intros uid' [H' E]%uid_derived_value_Ok. cbn in E. unfold NFLOG_GROUP_BASE, UID_MIN in E. lia.
  - unfold uid_derived_value in *. destruct (_ || _) eqn:E; [done|]. lia.
  - unfold uid_derived_value in *. destruct (_ || _) eqn:E; [done|]. lia.
  - intros [H1 H2]. unfold uid_derived_value. by replace (_ || _) with false by lia.
  - unfold uid_derived_value. by destruct (_ || _).
Qed.

Lemma nflog_group_range_witness :
  (forall g, nflog_group 10000 = Ok g ->
     1000 <= g <= 43948 /\ g < 2 ^ 16 /\ forall uid', nflog_group uid' = Ok g -> uid' = 10000)
  /\ (is_ok (nflog_group 10000) = true <-> UID_MIN <= 10000 <= UID_MAX)
  /\ (is_ok (nflog_group 10000) = false -> nflog_group 10000 = Raise ValueError).
Proof. exact (nflog_group_range 10000). Defined.
