(* ===== verification/WorkloadUid.v ===== *)
(** * Uids and subordinate ranges: [lib/workload_uid.py]

    The workload uid: its allocation, the lock around it, and the subordinate
    range derived from it; [render_sysusers_config] of [lib/run_files.py], which
    pins an allocated uid, [resolve_uid] of [lib/gen_run.py], which does both
    under one lock hold, and the reconciliation of /etc/subuid and /etc/subgid
    in [lib/ensure_container.py].

    The host is what the code reads of it: the uids of the password database,
    the texts of the pending sysusers files, the owners of the workload's
    directories, the text of a subid file.  [None] stands for the read raising. *)
From S2P Require Import Prelude PyStr WorkloadAddr.

Local Open Scope Z_scope.

(** ** The subordinate range of a uid *)

Definition SUBID_BASE : Z := 600100000.
Definition SUBID_COUNT : Z := 65536.

Definition derived_subid_range (uid : Z) : res (Z * Z) :=
  if uid <? UID_MIN then Raise ValueError
  else let start := SUBID_BASE + (uid - UID_MIN) * SUBID_COUNT in
       if 4294967295 <? start + SUBID_COUNT - 1 then Raise ValueError
       else Ok (start, SUBID_COUNT).

(** [for line in f]: the lines of a text file, broken at newlines only. *)
Definition file_lines (text : string) : list string :=
  match last (split_on LF text) with
  | Some EmptyString => take (length (split_on LF text) - 1) (split_on LF text)
  | _ => split_on LF text
  end.

(** [login_defs_subid_window]: the loop of reading keeps the last value of each
    key and gives up on one that is not an integer. *)
Fixpoint login_defs_scan (lo hi : option Z) (l : list string) : option (Z * Z) :=
  match l with
  | [] => lo ← lo; hi ← hi; Some (lo, hi)
  | line :: l =>
      let line := strip line in
      if starts_with "#" line then login_defs_scan lo hi l
      else match words line with
           | [k; v] =>
               if decide (k = "SUB_UID_MIN") then
                 match py_int v with Some n => login_defs_scan (Some n) hi l | None => None end
               else if decide (k = "SUB_UID_MAX") then
                 match py_int v with Some n => login_defs_scan lo (Some n) l | None => None end
               else login_defs_scan lo hi l
           | _ => login_defs_scan lo hi l
           end
  end.

Definition login_defs_subid_window (text : option string) : option (Z * Z) :=
  t ← text; login_defs_scan None None (file_lines t).

(** ** The subid files *)

Definition entry_prefix (username : string) : string := username +:+ ":".

Definition owns_line (username line : string) : bool := starts_with (entry_prefix username) line.

Fixpoint read_subid_scan (username : string) (supplementary : option (Z * Z))
    (l : list string) : option (Z * Z) :=
  match l with
  | [] => supplementary
  | line :: l =>
      if negb (owns_line username line) then read_subid_scan username supplementary l
      else match split_on ":" (strip line) with
           | [_; a; b] =>
               match py_int a, py_int b with
               | Some start, Some count =>
                   if negb (count =? 1) then Some (start, count)
                   else read_subid_scan username
                          (match supplementary with None => Some (start, count) | s => s end) l
               | _, _ => None
               end
           | _ => read_subid_scan username supplementary l
           end
  end.

Definition read_subid_entry (username : string) (text : option string) : option (Z * Z) :=
  t ← text; read_subid_scan username None (file_lines t).

(** Whether one subid file carries an entry for the user. *)
Definition subid_file_has_entry (username : string) (text : option string) : bool :=
  match text with
  | None => false
  | Some t => existsb (owns_line username) (splitlines t)
  end.

Definition rewrite_subid_file (lines : list string) : string :=
  join (chr LF) lines +:+ (if decide (lines = []) then EmptyString else chr LF).

(** [remove_subid_entries] on one file: its text afterwards, and whether it was
    rewritten. *)
Definition remove_subid_entries (username : string) (text : option string)
    : option string * bool :=
  match text with
  | None => (None, false)
  | Some t =>
      let kept := filter (fun l => owns_line username l = false) (splitlines t) in
      if decide (length kept <> length (splitlines t))
      then (Some (rewrite_subid_file kept), true)
      else (Some t, false)
  end.

(** [append_subid_entries]: opening with mode "a" creates a missing file. *)
Definition append_subid_entries (text : option string) (entries : list string)
    : option string :=
  match entries with
  | [] => text
  | _ => Some (default EmptyString text +:+
               join EmptyString (map (fun e => e +:+ chr LF) entries))
  end.

(** [configure_subuid_subgid]: the entries a file still lacks, the main range
    grandfathered when the user has any entry. *)
Definition subid_entry (username : string) (start count : Z) : string :=
  entry_prefix username +:+ str_Z start +:+ ":" +:+ str_Z count.

Definition missing_entries (username main : string) (required : list string)
    (existing : string) : list string :=
  let lines := splitlines existing in
  let main_already_allocated := existsb (owns_line username) lines in
  filter (fun e => ~ (e = main /\ main_already_allocated = true) /\ e ∉ lines) required.

Definition configure_subid_file (username main : string) (required : list string)
    (text : option string) : option string :=
  append_subid_entries text (missing_entries username main required (default EmptyString text)).

(** ** Allocation *)

Record host := mkHost {
  passwd_uids : option (list Z);
  pending_confs : list (option (list (option string)));
  data_owner : string -> option Z;
  state_owner : string -> option Z }.

(** The uid a sysusers line pins: [u <name> <uid|uid:gid> ...]. *)
Definition sysusers_line_uid (line : string) : option Z :=
  match words line with
  | u :: _ :: id :: _ =>
      if decide (u = "u") then py_int (default EmptyString (head (split_max ":" 1 id))) else None
  | _ => None
  end.

Definition conf_uids (text : string) : list Z := omap sysusers_line_uid (splitlines text).

Definition reserved_uids_in_pending_sysusers (h : host) : gset Z :=
  list_to_set (concat (map (fun dir =>
    match dir with
    | None => []
    | Some confs => concat (map (fun c => match c with Some t => conf_uids t | None => [] end) confs)
    end) (pending_confs h))).

Definition in_workload_range (uid : Z) : bool := (UID_MIN <=? uid) && (uid <=? UID_MAX).

Definition used_uids (allocated : gset Z) (h : host) : gset Z :=
  allocated ∪ reserved_uids_in_pending_sysusers h ∪
  list_to_set (filter (fun u => in_workload_range u = true) (default [] (passwd_uids h))).

Fixpoint first_free (used : gset Z) (uid : Z) (n : nat) : option Z :=
  match n with
  | O => None
  | S n => if decide (uid ∈ used) then first_free used (uid + 1) n else Some uid
  end.

(** [get_next_uid]: the uid and the process's set of allocated uids after it. *)
Definition get_next_uid (allocated : gset Z) (h : host) : res (Z * gset Z) :=
  match first_free (used_uids allocated h) UID_MIN (Z.to_nat (UID_MAX + 1 - UID_MIN)) with
  | Some uid => Ok (uid, {[uid]} ∪ allocated)
  | None => Raise RuntimeError
  end.

Definition state_owner_uid (h : host) (name : string) : option Z :=
  match data_owner h name with
  | Some u => if in_workload_range u then Some u
              else match state_owner h name with
                   | Some u' => if in_workload_range u' then Some u' else None
                   | None => None
                   end
  | None => match state_owner h name with
            | Some u' => if in_workload_range u' then Some u' else None
            | None => None
            end
  end.

Inductive claim_reason := Fresh | Adopted | Collision.

Definition claim_uid (allocated : gset Z) (h : host) (name : string)
    : res (Z * claim_reason * gset Z) :=
  match state_owner_uid h name with
  | None => '(uid, al) ← get_next_uid allocated h; Ok (uid, Fresh, al)
  | Some adopted =>
      if decide (adopted ∈ used_uids allocated h)
      then '(uid, al) ← get_next_uid allocated h; Ok (uid, Collision, al)
      else Ok (adopted, Adopted, {[adopted]} ∪ allocated)
  end.

(** ** Pinning an allocated uid: the sysusers file *)

Fixpoint add_groups (groups extra : list string) : list string :=
  match extra with
  | [] => groups
  | g :: extra => add_groups (if decide (g ∈ groups) then groups else groups ++ [g]) extra
  end.

Definition render_sysusers_config (name user_name : string) (uid : Z) (home_dir : string)
    (extra_groups : list string) (is_vm : bool) : string :=
  let groups := add_groups (if is_vm then ["kvm"] else []) extra_groups in
  join (chr LF)
    (["# Workload user for " +:+ name +:+ (if is_vm then " (VM)" else "");
      "u " +:+ user_name +:+ " " +:+ str_Z uid +:+ " " +:+ chr DQUOTE +:+ name +:+ " workload"
        +:+ chr DQUOTE +:+ " " +:+ home_dir]
     ++ map (fun g => "m " +:+ user_name +:+ " " +:+ g) groups)
  +:+ chr LF.

(** ** The lock

    [subid_lock] nests on one cached descriptor.  Opening and flocking the lock
    file either succeeds, or is denied, or fails otherwise. *)

Inductive open_outcome := Opened | Denied | Failed.

Record lock_state := mkLock { lk_depth : nat; lk_fd : bool }.

Definition subid_lock_enter (o : open_outcome) (st : lock_state) : res lock_state :=
  match lk_depth st with
  | O => match o with
         | Opened => Ok (mkLock 1 true)
         | Denied => Ok (mkLock 1 false)
         | Failed => Raise OSError
         end
  | S d => Ok (mkLock (S (S d)) (lk_fd st))
  end.

Definition subid_lock_exit (st : lock_state) : lock_state :=
  match pred (lk_depth st) with
  | O => mkLock 0 false
  | S d => mkLock (S d) (lk_fd st)
  end.

(** [with subid_lock(): body]; the exit runs whether or not the body raises. *)
Definition with_subid_lock {A} (o : open_outcome)
    (body : lock_state -> lock_state * res A) (st : lock_state) : lock_state * res A :=
  match subid_lock_enter o st with
  | Raise e => (st, Raise e)
  | Ok st' => let '(st'', r) := body st' in (subid_lock_exit st'', r)
  end.

(** ** [resolve_uid]: look the user up, else claim and pin under one hold *)

Record pin := mkPin { pin_uid : Z; pin_text : string }.

Definition home_of (name : string) : string := "/var/lib/workloads/" +:+ name +:+ "/state".

Definition pin_allocated_uid (name user_name : string) (uid : Z) (groups : list string)
    (is_vm : bool) : pin :=
  mkPin uid (render_sysusers_config name user_name uid (home_of name) groups is_vm).

Definition resolve_uid (user_uid : option Z) (allocated : gset Z) (h : host)
    (name user_name : string) (groups : list string) (is_vm : bool)
    : res (Z * option pin * gset Z) :=
  match user_uid with
  | Some uid => Ok (uid, None, allocated)
  | None =>
      '(uid, _, al) ← claim_uid allocated h name;
      Ok (uid, Some (pin_allocated_uid name user_name uid groups is_vm), al)
  end.

(** ** Concurrent runs

    Any number of processes generate workloads: each looks its workload's user up,
    claims and pins a uid under the lock when there is none, and then writes the
    sysusers file once more, outside of the lock ([generate_container_workload] and
    [generate_vm_workload]); [write_text] empties the file before it writes it.  The
    shared state is the users systemd-sysusers has created, the sysusers files, the
    other uids of the password database, the owners of the state directories and the
    lock's holder.  Each process has its own set of allocated uids. *)

(** A sysusers file: emptied, or written. *)
Inductive conf := Emptied | Written (p : pin).

Definition conf_text (c : conf) : string := match c with Emptied => EmptyString | Written p => pin_text p end.

Inductive pc :=
  | Idle
  | Waiting (name : string)
  | Holding (name : string)
  (** claimed, not yet pinned *)
  | Claimed (name : string) (p : pin)
  (** [resolve_uid] has returned; the file is to be written again *)
  | Resolved (name : string) (uid : Z)
  (** the file is emptied *)
  | Rewriting (name : string) (uid : Z).

(** The workload a process is at work on. *)
Definition busy_on (c : pc) : option string :=
  match c with
  | Idle => None
  | Waiting n | Holding n | Claimed n _ | Resolved n _ | Rewriting n _ => Some n
  end.

Record system := mkSys {
  users : gmap string Z;
  confs : gmap string conf;
  other_uids : list Z;
  owner_data : string -> option Z;
  owner_state : string -> option Z;
  holder : option nat;
  procs : nat -> pc;
  alloc : nat -> gset Z }.

Definition host_of (s : system) : host :=
  mkHost (Some (map snd (map_to_list (users s)) ++ other_uids s))
    [Some (map (fun kv => Some (conf_text (snd kv))) (map_to_list (confs s))); Some []]
    (owner_data s) (owner_state s).

Definition set_proc (s : system) (p : nat) (c : pc) (h : option nat) : system :=
  mkSys (users s) (confs s) (other_uids s) (owner_data s) (owner_state s) h
    (fun q => if decide (q = p) then c else procs s q) (alloc s).
Definition set_alloc (s : system) (p : nat) (al : gset Z) : system :=
  mkSys (users s) (confs s) (other_uids s) (owner_data s) (owner_state s) (holder s) (procs s)
    (fun q => if decide (q = p) then al else alloc s q).
Definition set_confs (s : system) (c : gmap string conf) : system :=
  mkSys (users s) c (other_uids s) (owner_data s) (owner_state s) (holder s) (procs s) (alloc s).
Definition set_users (s : system) (u : gmap string Z) : system :=
  mkSys u (confs s) (other_uids s) (owner_data s) (owner_state s) (holder s) (procs s) (alloc s).

(** Names that become part of a user name and a sysusers line. *)
Definition name_ok (name : string) : Prop := no_space name = true /\ name <> EmptyString.

Definition workload_user (name : string) : string := "_wl-" +:+ name.

Inductive action :=
  | Lookup (p : nat) (name : string)
  | Acquire (p : nat)
  (** the lock file may not be opened: the body runs without the lock *)
  | Unlocked (p : nat)
  | Claim (p : nat)
  | Pin (p : nat)
  | Truncate (p : nat)
  | Rewrite (p : nat)
  | Die (p : nat)
  | Sysusers (name : string)
  | RemoveConf (name : string)
  | Userdel (name : string)
  | HostChanges.

(** Giving the lock up, by a process that holds it. *)
Definition released (s : system) (p : nat) : option nat := if decide (holder s = Some p) then None else holder s.

Inductive step : action -> system -> system -> Prop :=
  | step_found s p name uid al groups is_vm :
      procs s p = Idle -> name_ok name -> users s !! name <> None ->
      resolve_uid (users s !! name) (alloc s p) (host_of s) name (workload_user name) groups is_vm
        = Ok (uid, None, al) ->
      step (Lookup p name) s (set_alloc (set_proc s p (Resolved name uid) (holder s)) p al)
  | step_absent s p name :
      procs s p = Idle -> name_ok name -> users s !! name = None ->
      step (Lookup p name) s (set_proc s p (Waiting name) (holder s))
  | step_acquire s p name :
      procs s p = Waiting name -> holder s = None ->
      step (Acquire p) s (set_proc s p (Holding name) (Some p))
  | step_unlocked s p name :
      procs s p = Waiting name ->
      step (Unlocked p) s (set_proc s p (Holding name) (holder s))
  | step_claim s p name uid pn al groups is_vm :
      procs s p = Holding name ->
      resolve_uid None (alloc s p) (host_of s) name (workload_user name) groups is_vm
        = Ok (uid, Some pn, al) ->
      step (Claim p) s (set_alloc (set_proc s p (Claimed name pn) (holder s)) p al)
  | step_claim_raise s p name e groups is_vm :
      procs s p = Holding name ->
      resolve_uid None (alloc s p) (host_of s) name (workload_user name) groups is_vm = Raise e ->
      step (Claim p) s (set_proc s p Idle (released s p))
  | step_pin s p name pn :
      procs s p = Claimed name pn ->
      step (Pin p) s (set_confs (set_proc s p (Resolved name (pin_uid pn)) (released s p))
                        (<[name := Written pn]> (confs s)))
  (** the pin's own write stops half way *)
  | step_pin_cut s p name pn :
      procs s p = Claimed name pn ->
      step (Pin p) s (set_confs (set_proc s p Idle (released s p)) (<[name := Emptied]> (confs s)))
  | step_truncate s p name uid :
      procs s p = Resolved name uid ->
      step (Truncate p) s (set_confs (set_proc s p (Rewriting name uid) (holder s)) (<[name := Emptied]> (confs s)))
  | step_rewrite s p name uid groups is_vm :
      procs s p = Rewriting name uid ->
      step (Rewrite p) s
        (set_confs (set_proc s p Idle (holder s))
           (<[name := Written (pin_allocated_uid name (workload_user name) uid groups is_vm)]> (confs s)))
  | step_die s p :
      step (Die p) s (set_proc s p Idle (released s p))
  | step_sysusers s name pn :
      confs s !! name = Some (Written pn) -> users s !! name = None ->
      step (Sysusers name) s (set_users s (<[name := pin_uid pn]> (users s)))
  | step_remove_conf s name : step (RemoveConf name) s (set_confs s (delete name (confs s)))
  | step_userdel s name : step (Userdel name) s (set_users s (delete name (users s)))
  | step_host s other od os :
      step HostChanges s (mkSys (users s) (confs s) other od os (holder s) (procs s) (alloc s)).

(** The orders in which the lock protects the allocation: the lock can be taken,
    one process at a time is at work on a workload (a disable counts as one), and no
    uid is claimed while the file of a workload that has no user yet is being written
    again. *)
Definition orderly (a : action) (s : system) : Prop :=
  match a with
  | Unlocked _ => False
  | Lookup _ n | RemoveConf n | Userdel n => forall q, busy_on (procs s q) <> Some n
  | Claim _ => forall q n uid, procs s q = Rewriting n uid -> users s !! n = Some uid
  | _ => True
  end.

Definition any_step (s s' : system) : Prop := exists a, step a s s'.
Definition orderly_step (s s' : system) : Prop := exists a, step a s s' /\ orderly a s.

(** The uids a workload is known by: its user's, its pinned one, and the one a
    process is about to write. *)
Definition known_by (s : system) (name : string) (uid : Z) : Prop :=
  users s !! name = Some uid \/ (exists pn, confs s !! name = Some (Written pn) /\ pin_uid pn = uid) \/
  exists p, procs s p = Resolved name uid \/ procs s p = Rewriting name uid.

Definition initial (s : system) : Prop :=
  users s = ∅ /\ confs s = ∅ /\ holder s = None /\ forall p, procs s p = Idle.

(** ** Lemmas *)

Lemma derived_subid_range_Ok uid start count :
  derived_subid_range uid = Ok (start, count) <->
  UID_MIN <= uid <= 66378 /\ start = SUBID_BASE + (uid - UID_MIN) * SUBID_COUNT
  /\ count = SUBID_COUNT.
Proof.
  unfold derived_subid_range, UID_MIN, SUBID_BASE, SUBID_COUNT.
  destruct (uid <? 10000) eqn:E1; [split; [done|lia]|].
  destruct (4294967295 <? _) eqn:E2; [split; [done|lia]|].
  split; [intros [= <- <-]; lia | by intros (_ & -> & ->)].
Qed.

Lemma first_free_Some used uid n v :
  first_free used uid n = Some v <->
  uid <= v < uid + Z.of_nat n /\ v ∉ used /\ forall w, uid <= w < v -> w ∈ used.
Proof.
  revert uid. induction n as [|n IH]; intros uid; cbn [first_free].
  - split; [done|]. lia.
  - destruct (decide (uid ∈ used)) as [Hin|Hout].
    + rewrite IH. split.
      * intros (Hb & Hv & Hall). split; [lia|]. split; [done|]. intros w Hw.
        destruct (decide (w = uid)) as [->|]; [done|]. apply Hall. lia.
      * intros (Hb & Hv & Hall).
        assert (uid <> v) by congruence. repeat split; try lia; [done|].
        intros w Hw. apply Hall. lia.
    + split.
      * intros [= <-]. repeat split; try lia; done.
      * intros (Hb & Hv & Hall). f_equal.
        destruct (decide (uid = v)) as [|Hne]; [done|]. exfalso. apply Hout, Hall. lia.
Qed.

Lemma first_free_None used uid n :
  first_free used uid n = None <-> forall w, uid <= w < uid + Z.of_nat n -> w ∈ used.
Proof.
  revert uid. induction n as [|n IH]; intros uid; cbn [first_free].
  - split; [lia|done].
  - destruct (decide (uid ∈ used)) as [Hin|Hout].
    + rewrite IH. split; intros H w Hw.
      * destruct (decide (w = uid)) as [->|]; [done|]. apply H. lia.
      * apply H. lia.
    + split; [done|]. intros H. exfalso. apply Hout, H. lia.
Qed.

Lemma get_next_uid_Ok al h uid al' :
  get_next_uid al h = Ok (uid, al') ->
  UID_MIN <= uid <= UID_MAX /\ uid ∉ used_uids al h /\
  (forall w, UID_MIN <= w < uid -> w ∈ used_uids al h) /\ al' = {[uid]} ∪ al.
Proof.
  unfold get_next_uid. destruct (first_free _ _ _) as [v|] eqn:E; [|done].
  intros [= <- <-]. apply first_free_Some in E as (Hb & Hv & Hall).
  unfold UID_MIN, UID_MAX in *. repeat split; try lia; done.
Qed.

Lemma state_owner_uid_range h name uid :
  state_owner_uid h name = Some uid -> UID_MIN <= uid <= UID_MAX.
Proof.
  unfold state_owner_uid. intros H.
  repeat case_match; simplify_eq; unfold in_workload_range in *; lia.
Qed.

(** Whatever the reason, a claimed uid is in range and was not in use. *)
Lemma claim_uid_fresh al h name uid why al' :
  claim_uid al h name = Ok (uid, why, al') ->
  UID_MIN <= uid <= UID_MAX /\ uid ∉ used_uids al h /\ al' = {[uid]} ∪ al.
Proof.
  unfold claim_uid. destruct (state_owner_uid h name) as [a|] eqn:Ea.
  - case_decide as Hu.
    + intros H. inv_ok. destruct x as [u al2]. injection H as <- <- <-.
      apply get_next_uid_Ok in H0 as (? & ? & _ & ?). done.
    + intros [= <- <- <-]. split; [by apply state_owner_uid_range in Ea | done].
  - intros H. inv_ok. destruct x as [u al2]. injection H as <- <- <-.
    apply get_next_uid_Ok in H0 as (? & ? & _ & ?). done.
Qed.

Lemma no_space_app s t : no_space (s +:+ t) = no_space s && no_space t.
Proof. apply all_chars_app. Qed.

(** A rendered sysusers file pins its uid: the scan of pending files finds it. *)
Lemma conf_uids_render name uid groups is_vm :
  name_ok name -> 0 <= uid ->
  uid ∈ conf_uids (pin_text (pin_allocated_uid name (workload_user name) uid groups is_vm)).
Proof.
  intros [Hns Hne] Hu. pose proof (no_space_no_break _ Hns) as Hnb.
  unfold pin_allocated_uid, conf_uids. cbn [pin_text]. unfold render_sysusers_config.
  set (l1 := "# Workload user for " +:+ _). set (l2 := "u " +:+ _).
  set (ms := map _ (add_groups _ _)).
  assert (Hl1 : no_break l1 = true).
  { unfold l1. rewrite !no_break_app, Hnb. by destruct is_vm. }
  assert (Hl2 : no_break l2 = true).
  { unfold l2, workload_user, home_of. rewrite !no_break_app, Hnb.
    rewrite (no_space_no_break (str_Z uid)) by (by apply no_space_str_Z). done. }
  assert (Hword : sysusers_line_uid l2 = Some uid).
  { unfold sysusers_line_uid, l2.
    change ("u " +:+ ?x) with ("u" +:+ " " +:+ x) at 1.
    rewrite words_cons by done.
    rewrite words_cons; [|unfold workload_user; by rewrite no_space_app, Hns|done].
    rewrite words_cons; [|by apply no_space_str_Z|by apply str_Z_nonempty].
    rewrite decide_True by done. unfold split_max.
    assert (cut ":" (str_Z uid) = None) as ->.
    { apply cut_None. apply (all_chars_no_char is_dec); [done|]. by apply all_digits_str_Z. }
    cbn. by apply py_int_str_Z. }
  assert (Htext : exists rest, join (chr LF) ([l1; l2] ++ ms) +:+ chr LF
                  = l1 +:+ String LF (l2 +:+ String LF rest)).
  { destruct ms as [|m ms].
    - exists EmptyString. clearbody l1 l2. cbn [app join]. rewrite !app_assoc_str. reflexivity.
    - exists (join (chr LF) (m :: ms) +:+ chr LF).
      cbn [app]. change (join (chr LF) (l1 :: l2 :: m :: ms))
        with (l1 +:+ String LF (l2 +:+ String LF (join (chr LF) (m :: ms)))).
      rewrite app_assoc_str. cbn [String.append]. by rewrite app_assoc_str. }
  destruct Htext as [rest ->]. rewrite !splitlines_cons by done.
  cbn [omap list_omap]. rewrite Hword. destruct (sysusers_line_uid l1); set_solver.
Qed.

(** *** The invariant of concurrent allocation *)

Record alloc_inv (s : system) : Prop := {
  inv_confs : forall name pn, confs s !! name = Some (Written pn) -> pin_uid pn ∈ conf_uids (pin_text pn);
  inv_range : forall name uid, known_by s name uid -> UID_MIN <= uid <= UID_MAX;
  inv_unique : forall n m uid, known_by s n uid -> known_by s m uid -> n = m;
  inv_mutex : forall p, match procs s p with
                        | Holding _ | Claimed _ _ => holder s = Some p
                        | _ => True
                        end;
  inv_busy : forall p q n, busy_on (procs s p) = Some n -> busy_on (procs s q) = Some n -> p = q;
  inv_claim : forall p n pn, procs s p = Claimed n pn ->
    UID_MIN <= pin_uid pn <= UID_MAX /\ pin_uid pn ∈ conf_uids (pin_text pn) /\
    forall m, ~ known_by s m (pin_uid pn);
  (** a resolved uid can be seen by the others *)
  inv_resolved : forall p n uid, procs s p = Resolved n uid ->
    users s !! n = Some uid \/ exists pn, confs s !! n = Some (Written pn) /\ pin_uid pn = uid;
  inv_names : forall p n, busy_on (procs s p) = Some n -> name_ok n }.

(** What is known is found in use, the file being rewritten for an existing user or
    not at all. *)
Lemma known_used s al name uid :
  alloc_inv s -> (forall q n u, procs s q = Rewriting n u -> users s !! n = Some u) ->
  known_by s name uid -> uid ∈ used_uids al (host_of s).
Proof.
  intros I Hor Hk.
  assert (Hcase : users s !! name = Some uid \/ exists pn, confs s !! name = Some (Written pn) /\ pin_uid pn = uid).
  { destruct Hk as [?|[?|(p & [Hp|Hp])]]; [by left|by right|by apply (inv_resolved s I p)|left; by eapply Hor]. }
  pose proof (inv_range s I _ _ Hk) as Hr.
  unfold used_uids, reserved_uids_in_pending_sysusers; cbn. destruct Hcase as [Hu|(pn & Hp & <-)].
  - apply elem_of_union_r, elem_of_list_to_set, list_elem_of_filter. split; [unfold in_workload_range; lia|].
    apply elem_of_app. left. apply list_elem_of_fmap. exists (name, uid).
    split; [done|]. by apply elem_of_map_to_list.
  - apply elem_of_union_l, elem_of_union_r, elem_of_list_to_set.
    rewrite app_nil_r. apply list_elem_of_In, in_concat. exists (conf_uids (pin_text pn)).
    split; [|by apply list_elem_of_In, (inv_confs s I name)].
    rewrite map_map. apply in_map_iff. exists (name, Written pn). split; [done|].
    apply list_elem_of_In. by apply elem_of_map_to_list.
Qed.

(** A claim is in range, pinned by its text, and was not in use. *)
Lemma resolve_claims al h name groups is_vm uid pn al' :
  name_ok name ->
  resolve_uid None al h name (workload_user name) groups is_vm = Ok (uid, Some pn, al') ->
  pin_uid pn = uid /\ UID_MIN <= uid <= UID_MAX /\ uid ∉ used_uids al h /\ uid ∈ conf_uids (pin_text pn).
Proof.
  intros Hn Hres. unfold resolve_uid in Hres. apply bind_Ok_inv in Hres as ([[u w] al2] & Hc & [= <- <- <-]).
  apply claim_uid_fresh in Hc as (Hr & Hf & _). split_and!; try done; try lia.
  apply conf_uids_render; [done|]. unfold UID_MIN in Hr. lia.
Qed.

(** Processes: all but [p] are as they were. *)
Lemma proc_cases s p c h q :
  (q = p /\ procs (set_proc s p c h) q = c) \/ (q <> p /\ procs (set_proc s p c h) q = procs s q).
Proof. cbn. case_decide; auto. Qed.

(** [p] goes on with its workload, or takes up one that no other is at work on. *)
Lemma busy_set s p c h :
  alloc_inv s ->
  (forall n, busy_on c = Some n -> name_ok n /\ forall q, q <> p -> busy_on (procs s q) <> Some n) ->
  (forall q r n, busy_on (procs (set_proc s p c h) q) = Some n ->
     busy_on (procs (set_proc s p c h) r) = Some n -> q = r) /\
  (forall q n, busy_on (procs (set_proc s p c h) q) = Some n -> name_ok n).
Proof.
  intros I Hc. split.
  - intros q r n. destruct (proc_cases s p c h q) as [[-> ->]|[Hq ->]], (proc_cases s p c h r) as [[-> ->]|[Hr ->]];
      intros H1 H2; [done|..|by eapply inv_busy].
    + exfalso. by apply (proj2 (Hc n H1) r).
    + exfalso. by apply (proj2 (Hc n H2) q).
  - intros q n. destruct (proc_cases s p c h q) as [[-> ->]|[Hq ->]]; [apply Hc|by eapply inv_names].
Qed.

Lemma busy_same s p c :
  alloc_inv s -> busy_on c = None \/ busy_on c = busy_on (procs s p) ->
  forall n, busy_on c = Some n -> name_ok n /\ forall q, q <> p -> busy_on (procs s q) <> Some n.
Proof.
  intros I [Hc|Hc] n Hn; [congruence|]. rewrite Hc in Hn. split; [by eapply inv_names|].
  intros q Hq H. apply Hq. by eapply inv_busy.
Qed.

Lemma mutex_released s p : alloc_inv s ->
  forall q, q <> p -> match procs s q with Holding _ | Claimed _ _ => released s p = Some q | _ => True end.
Proof.
  intros I q Hq. pose proof (inv_mutex s I q) as Hm. unfold released.
  destruct (procs s q); try done; rewrite Hm; rewrite decide_False by congruence; done.
Qed.

Lemma mutex_set s p c h : alloc_inv s ->
  match c with Holding _ | Claimed _ _ => h = Some p | _ => True end ->
  (forall q, q <> p -> match procs s q with Holding _ | Claimed _ _ => h = Some q | _ => True end) ->
  forall q, match procs (set_proc s p c h) q with Holding _ | Claimed _ _ => h = Some q | _ => True end.
Proof. intros I Hc Hq q. destruct (proc_cases s p c h q) as [[-> ->]|[Hne ->]]; [exact Hc|exact (Hq q Hne)]. Qed.

Lemma mutex_kept s p : alloc_inv s ->
  forall q, q <> p -> match procs s q with Holding _ | Claimed _ _ => holder s = Some q | _ => True end.
Proof. intros I q _. exact (inv_mutex s I q). Qed.

(** The others that are at work on [n] are none. *)
Lemma busy_excludes s p n q u : alloc_inv s -> busy_on (procs s p) = Some n -> q <> p -> procs s q <> Resolved n u.
Proof. intros I Hp Hq H. apply Hq. eapply (inv_busy s I q p n); [by rewrite H|done]. Qed.

(** One process moves on to [c], and the users and the files become [us] and [cf].
    [K] is what is known afterwards: it is in range and unique, and what the others
    have claimed is not in it. *)
Lemma inv_move s s' p c h us cf al (K : string -> Z -> Prop) :
  alloc_inv s ->
  s' = mkSys us cf (other_uids s) (owner_data s) (owner_state s) h (procs (set_proc s p c h)) al ->
  (forall n u, K n u -> UID_MIN <= u <= UID_MAX) ->
  (forall n m u, K n u -> K m u -> n = m) ->
  (forall n u, us !! n = Some u -> K n u) ->
  (forall n pn, cf !! n = Some (Written pn) -> K n (pin_uid pn) /\ pin_uid pn ∈ conf_uids (pin_text pn)) ->
  (forall n u q, q <> p -> procs s q = Resolved n u \/ procs s q = Rewriting n u -> K n u) ->
  (forall n pn q, q <> p -> procs s q = Claimed n pn -> forall m, ~ K m (pin_uid pn)) ->
  match c with
  | Claimed _ pn => UID_MIN <= pin_uid pn <= UID_MAX /\ pin_uid pn ∈ conf_uids (pin_text pn) /\
                      forall m, ~ K m (pin_uid pn)
  | Resolved n u => K n u /\ (us !! n = Some u \/ exists pn, cf !! n = Some (Written pn) /\ pin_uid pn = u)
  | Rewriting n u => K n u
  | _ => True
  end ->
  (forall q n u, q <> p -> procs s q = Resolved n u ->
     us !! n = Some u \/ exists pn, cf !! n = Some (Written pn) /\ pin_uid pn = u) ->
  match c with Holding _ | Claimed _ _ => h = Some p | _ => True end ->
  (forall q, q <> p -> match procs s q with Holding _ | Claimed _ _ => h = Some q | _ => True end) ->
  (forall n, busy_on c = Some n -> name_ok n /\ forall q, q <> p -> busy_on (procs s q) <> Some n) ->
  alloc_inv s'.
Proof.
  intros I -> Hr Hu Hus Hcf Hoth Hclq Hc Hres Hm Hmq Hb.
  set (s' := mkSys _ _ _ _ _ _ _ _). pose proof (busy_set s p c h I Hb) as [Hb1 Hb2].
  pose proof (mutex_set s p c h I Hm Hmq) as Hm'.
  assert (HK : forall n u, known_by s' n u -> K n u).
  { intros n u [H|[(pn & H & <-)|(q & H)]]; [by apply Hus|by apply Hcf|].
    cbn [procs s'] in H. destruct (proc_cases s p c h q) as [[-> E]|[Hq E]]; rewrite E in H; [|by eapply Hoth].
    destruct H as [->| ->]; [apply Hc|exact Hc]. }
  split; try done.
  - intros n pn H. exact (proj2 (Hcf n pn H)).
  - intros n u H%HK. by eapply Hr.
  - intros n m u H1%HK H2%HK. by eapply Hu.
  - intros q n pn H. cbn [procs s'] in H. destruct (proc_cases s p c h q) as [[-> E]|[Hq E]]; rewrite E in H.
    + rewrite H in Hc. destruct Hc as (? & ? & Hf). split_and!; try lia; try done. intros m Hk%HK. by apply (Hf m).
    + destruct (inv_claim s I q n pn H) as (? & ? & _). split_and!; try lia; try done.
      intros m Hk%HK. by eapply Hclq.
  - intros q n u H. cbn [procs s' users confs] in *. destruct (proc_cases s p c h q) as [[-> E]|[Hq E]]; rewrite E in H.
    + rewrite H in Hc. apply Hc.
    + by eapply Hres.
Qed.

(** The common case: nothing new becomes known. *)
Lemma inv_keep s s' p c h us cf al :
  alloc_inv s ->
  s' = mkSys us cf (other_uids s) (owner_data s) (owner_state s) h (procs (set_proc s p c h)) al ->
  (forall n u, us !! n = Some u -> known_by s n u) ->
  (forall n pn, cf !! n = Some (Written pn) -> known_by s n (pin_uid pn) /\ pin_uid pn ∈ conf_uids (pin_text pn)) ->
  match c with
  | Claimed _ pn => UID_MIN <= pin_uid pn <= UID_MAX /\ pin_uid pn ∈ conf_uids (pin_text pn) /\
                      forall m, ~ known_by s m (pin_uid pn)
  | Resolved n u => known_by s n u /\ (us !! n = Some u \/ exists pn, cf !! n = Some (Written pn) /\ pin_uid pn = u)
  | Rewriting n u => known_by s n u
  | _ => True
  end ->
  (forall q n u, q <> p -> procs s q = Resolved n u ->
     us !! n = Some u \/ exists pn, cf !! n = Some (Written pn) /\ pin_uid pn = u) ->
  match c with Holding _ | Claimed _ _ => h = Some p | _ => True end ->
  (forall q, q <> p -> match procs s q with Holding _ | Claimed _ _ => h = Some q | _ => True end) ->
  (forall n, busy_on c = Some n -> name_ok n /\ forall q, q <> p -> busy_on (procs s q) <> Some n) ->
  alloc_inv s'.
Proof.
  intros I Hs Hus Hcf Hc Hres Hm Hmq Hb. apply (inv_move s s' p c h us cf al (known_by s)); try done.
  - apply (inv_range s I).
  - apply (inv_unique s I).
  - intros n u q _ H. right. right. eauto.
  - intros n pn q _ H. by apply (inv_claim s I q n pn H).
Qed.

Lemma users_known s n u : users s !! n = Some u -> known_by s n u.
Proof. by left. Qed.

Lemma confs_known s n pn : alloc_inv s -> confs s !! n = Some (Written pn) ->
  known_by s n (pin_uid pn) /\ pin_uid pn ∈ conf_uids (pin_text pn).
Proof. intros I H. split; [right; left; eauto|by eapply inv_confs]. Qed.

(** A file emptied or written by the process at work on it: the others' stay. *)
Lemma conf_put s p name c q n u :
  alloc_inv s -> busy_on (procs s p) = Some name -> q <> p -> procs s q = Resolved n u ->
  users s !! n = Some u \/ exists pn, <[name := c]> (confs s) !! n = Some (Written pn) /\ pin_uid pn = u.
Proof.
  intros I Hp Hq H. destruct (inv_resolved s I q n u H) as [|(pn & Hn & <-)]; [by left|]. right.
  exists pn. split; [|done]. rewrite lookup_insert_ne; [done|]. intros ->.
  by apply (busy_excludes s p n q (pin_uid pn) I Hp Hq).
Qed.

Lemma conf_emptied s name n pn : alloc_inv s -> <[name := Emptied]> (confs s) !! n = Some (Written pn) ->
  known_by s n (pin_uid pn) /\ pin_uid pn ∈ conf_uids (pin_text pn).
Proof. intros I [[_ ?]|[_ H]]%lookup_insert_Some; [done|by apply confs_known]. Qed.

#[local] Hint Resolve users_known confs_known conf_emptied inv_resolved mutex_released mutex_kept : alloc.

Ltac keeps I :=
  match goal with |- alloc_inv ?s' =>
    match s' with context [set_proc ?s ?p ?c ?h] =>
      eapply (inv_keep s s' p c h (users s') (confs s')); [exact I|reflexivity|..] end end;
  cbn [users confs set_alloc set_confs set_users set_proc]; eauto with alloc;
  try (by apply mutex_kept); try (by apply mutex_released); try done.

Lemma inv_claim_step s s' p : alloc_inv s -> orderly (Claim p) s -> step (Claim p) s s' -> alloc_inv s'.
Proof.
  intros I Ho St. inversion St as [| | | |? ? name uid pn al groups is_vm Hp Hres|? ? name e groups is_vm Hp Hres| | | | | | | | |];
    subst; pose proof (inv_mutex s I p) as Hm; rewrite Hp in Hm.
  - destruct (resolve_claims _ _ _ _ _ _ _ _ (inv_names s I p name ltac:(by rewrite Hp)) Hres) as (<- & Hr & Hf & Hc).
    keeps I.
    + cbn. split_and!; try lia; try done. intros m Hk. apply Hf. eapply known_used; [exact I|exact Ho|exact Hk].
    + apply busy_same; [done|]. right. by rewrite Hp.
  - keeps I.
Qed.

Lemma inv_pin_step s s' p : alloc_inv s -> step (Pin p) s s' -> alloc_inv s'.
Proof.
  intros I St. inversion St as [| | | | | |? ? name pn Hp|? ? name pn Hp| | | | | | |]; subst;
    pose proof (inv_mutex s I p) as Hm; rewrite Hp in Hm;
    destruct (inv_claim s I p name pn Hp) as (Hr & Hc & Hf);
    assert (Hbusy : busy_on (procs s p) = Some name) by (by rewrite Hp).
  - apply (inv_move s _ p (Resolved name (pin_uid pn)) (released s p) (users s) (<[name := Written pn]> (confs s)) (alloc s)
      (fun n u => known_by s n u \/ (n = name /\ u = pin_uid pn))); try done.
    + intros n u [H|[-> ->]]; [by eapply inv_range|lia].
    + intros n m u [H1|[-> ->]] [H2|[-> E]]; subst; try done.
      * by eapply inv_unique.
      * by apply Hf in H1.
      * by apply Hf in H2.
    + intros n u H. left. by left.
    + intros n pn' [[<- [= <-]]|[_ H]]%lookup_insert_Some; [by split; [right|]|].
      destruct (confs_known s n pn' I H). by split; [left|].
    + intros n u q _ H. left. right. right. eauto.
    + intros n pn' q Hq H. exfalso. pose proof (inv_mutex s I q) as Hmq. rewrite H in Hmq. congruence.
    + split; [by right|]. right. exists pn. by rewrite lookup_insert_eq.
    + intros q n u Hq H. by eapply conf_put.
    + by apply mutex_released.
    + apply busy_same; [done|]. right. by rewrite Hp.
  - keeps I. intros q n u Hq H. by eapply conf_put.
Qed.

Lemma inv_rewrite_step s s' p a : a = Truncate p \/ a = Rewrite p -> alloc_inv s -> step a s s' -> alloc_inv s'.
Proof.
  intros Ha I St. destruct Ha as [-> | ->].
  - inversion St as [| | | | | | | |? ? name uid Hp| | | | | |]; subst.
    assert (Hbusy : busy_on (procs s p) = Some name) by (by rewrite Hp).
    keeps I; [right; right; eauto|..]. { intros q n u Hq H. by eapply conf_put. }
    apply busy_same; [done|]. right. by rewrite Hp.
  - inversion St as [| | | | | | | | |? ? name uid groups is_vm Hp| | | | |]; subst.
    assert (Hbusy : busy_on (procs s p) = Some name) by (by rewrite Hp).
    assert (Hk : known_by s name uid) by (right; right; eauto).
    keeps I.
    + intros n pn [[<- [= <-]]|[_ H]]%lookup_insert_Some; [|by apply confs_known]. split; [done|].
      apply conf_uids_render; [by eapply inv_names|]. pose proof (inv_range s I _ _ Hk). unfold UID_MIN in *. lia.
    + intros q n u Hq H. by eapply conf_put.
Qed.

(** The steps that take a workload up, wait for the lock or end. *)
Lemma inv_process_step s s' a p : (exists n, a = Lookup p n) \/ a = Acquire p \/ a = Die p ->
  alloc_inv s -> orderly a s -> step a s s' -> alloc_inv s'.
Proof.
  intros Ha I Ho St. inversion St as [? p' name uid al groups is_vm Hp Hn Hu Hres|? p' name Hp Hn Hu|? p' name Hp Hh| | | | | | | |? p'| | | |];
    subst; try (by destruct Ha as [[? Ha]|[Ha|Ha]]).
  - unfold resolve_uid in Hres. destruct (users s !! name) as [u|] eqn:E; [|done]. injection Hres as <- <-.
    keeps I. intros n [= <-]. split; [done|]. intros q _. apply Ho.
  - keeps I. intros n [= <-]. split; [done|]. intros q _. apply Ho.
  - keeps I.
    + intros q _. pose proof (inv_mutex s I q) as Hm. destruct (procs s q); congruence.
    + apply busy_same; [done|]. right. by rewrite Hp.
  - keeps I.
Qed.

(** The steps of the rest of the host, as moves of a process that stays where it is. *)
Lemma inv_host_step s s' a : (exists n, a = Sysusers n \/ a = RemoveConf n \/ a = Userdel n) ->
  alloc_inv s -> orderly a s -> step a s s' -> alloc_inv s'.
Proof.
  intros Ha I Ho St.
  assert (Hsame : forall us cf,
    (forall n u, us !! n = Some u -> known_by s n u) ->
    (forall n pn, cf !! n = Some (Written pn) -> known_by s n (pin_uid pn) /\ pin_uid pn ∈ conf_uids (pin_text pn)) ->
    (forall q n u, procs s q = Resolved n u -> us !! n = Some u \/ exists pn, cf !! n = Some (Written pn) /\ pin_uid pn = u) ->
    alloc_inv (mkSys us cf (other_uids s) (owner_data s) (owner_state s) (holder s) (procs s) (alloc s))).
  { intros us cf H1 H2 H3. assert (HK : forall n u, known_by (mkSys us cf (other_uids s) (owner_data s) (owner_state s)
      (holder s) (procs s) (alloc s)) n u -> known_by s n u).
    { intros n u [H|[(pn & H & <-)|H]]; [by apply H1|by apply H2|by right; right]. }
    split; try apply I; try done.
    - intros n pn H. exact (proj2 (H2 n pn H)).
    - intros n u H%HK. by eapply inv_range.
    - intros n m u Hn%HK Hm%HK. by eapply inv_unique.
    - intros p n pn H. destruct (inv_claim s I p n pn H) as (? & ? & Hf). split_and!; try lia; try done.
      intros m Hk%HK. by apply (Hf m). }
  inversion St as [| | | | | | | | | | |? name pn Hc Hu|? name|? name|]; subst; try (by destruct Ha as [? [|[|]]]).
  - apply Hsame; eauto with alloc.
    + intros n u [[<- <-]|[_ H]]%lookup_insert_Some; [right; left; eauto|by left].
    + intros q n u H. destruct (inv_resolved s I q n u H) as [Hn|]; [|by right]. left.
      rewrite lookup_insert_ne; [done|]. intros ->. congruence.
  - apply Hsame; eauto with alloc.
    + intros n pn [_ H]%lookup_delete_Some. by apply confs_known.
    + intros q n u H. destruct (inv_resolved s I q n u H) as [|(pn & Hn & <-)]; [by left|]. right. exists pn.
      split; [|done]. rewrite lookup_delete_ne; [done|]. intros ->. apply (Ho q). by rewrite H.
  - apply Hsame; eauto with alloc.
    + intros n u [_ H]%lookup_delete_Some. by left.
    + intros q n u H. destruct (inv_resolved s I q n u H) as [Hn|]; [|by right]. left.
      rewrite lookup_delete_ne; [done|]. intros ->. apply (Ho q). by rewrite H.
Qed.

Lemma inv_step s s' : alloc_inv s -> orderly_step s s' -> alloc_inv s'.
Proof.
  intros I (a & St & Ho). destruct a as [p name|p|p|p|p|p|p|p|name|name|name|].
  - eapply (inv_process_step _ _ _ p); [|exact I|exact Ho|exact St]; eauto.
  - eapply (inv_process_step _ _ _ p); [|exact I|exact Ho|exact St]; eauto.
  - done.
  - eapply inv_claim_step; eauto.
  - eapply inv_pin_step; eauto.
  - eapply (inv_rewrite_step _ _ p); [|exact I|exact St]; eauto.
  - eapply (inv_rewrite_step _ _ p); [|exact I|exact St]; eauto.
  - eapply (inv_process_step _ _ _ p); [|exact I|exact Ho|exact St]; eauto.
  - eapply inv_host_step; [|exact I|exact Ho|exact St]; eauto.
  - eapply inv_host_step; [|exact I|exact Ho|exact St]; eauto.
  - eapply inv_host_step; [|exact I|exact Ho|exact St]; eauto.
  - inversion St; subst. split; apply I.
Qed.

Lemma inv_initial s : initial s -> alloc_inv s.
Proof.
  intros (Hu & Hp & Hh & Hi).
  assert (Hk : forall n u, ~ known_by s n u).
  { intros n u [H|[(? & H & _)|(p & [H|H])]]; [rewrite Hu in H|rewrite Hp in H|rewrite Hi in H..];
      by rewrite ?lookup_empty in H. }
  split.
  - intros ?? H. by rewrite Hp, lookup_empty in H.
  - intros ?? H. by apply Hk in H.
  - intros ??? H. by apply Hk in H.
  - intros p. by rewrite Hi.
  - intros ??? H. by rewrite Hi in H.
  - intros ??? H. by rewrite Hi in H.
  - intros ??? H. by rewrite Hi in H.
  - intros ?? H. by rewrite Hi in H.
Qed.

Lemma inv_reachable s s' : initial s -> rtc orderly_step s s' -> alloc_inv s'.
Proof.
  intros Hi. apply inv_initial in Hi. induction 1; [done|]. apply IHrtc. by eapply inv_step.
Qed.

(** *** Lines of the subid files *)

Lemma no_break_chr c : is_linebreak c = false -> no_break (chr c) = true.
Proof. intros H. cbn. by rewrite H. Qed.

Lemma lines_from_no_break n cur p s :
  (String.length s <= n)%nat -> no_break cur = true ->
  Forall (fun l => no_break l = true) (lines_from cur p s).
Proof.
  revert cur p s. induction n as [|n IH]; intros cur p [|c s] Hl Hc; cbn in Hl |- *;
    try lia; try (destruct p; by repeat constructor).
  destruct (is_linebreak c) eqn:E.
  - constructor; [done|]. destruct s as [|d s]; [constructor|]. cbn in Hl.
    case_match; apply IH; cbn; (done || lia).
  - apply IH; [lia|]. by rewrite no_break_app, Hc, no_break_chr.
Qed.

Lemma splitlines_no_break s : Forall (fun l => no_break l = true) (splitlines s).
Proof. by apply (lines_from_no_break (String.length s)). Qed.

Lemma rewrite_subid_file_eq l :
  rewrite_subid_file l = join EmptyString (map (fun s => s +:+ chr LF) l).
Proof.
  unfold rewrite_subid_file. destruct (decide (l = [])) as [->|Hne]; [done|].
  induction l as [|x l IH]; [done|]. destruct l as [|y l]; [done|].
  change (join (chr LF) (x :: y :: l)) with (x +:+ chr LF +:+ join (chr LF) (y :: l)).
  change (join EmptyString (map (fun s => s +:+ chr LF) (x :: y :: l)))
    with ((x +:+ chr LF) +:+ join EmptyString (map (fun s => s +:+ chr LF) (y :: l))).
  rewrite <- IH by done. by rewrite !app_assoc_str.
Qed.

Lemma splitlines_rewrite l :
  Forall (fun s => no_break s = true) l -> splitlines (rewrite_subid_file l) = l.
Proof. rewrite rewrite_subid_file_eq. apply splitlines_join. Qed.

(** A text that ends its last line: empty, or ending in a newline. *)
Definition lines_ended (t : string) : Prop := t = EmptyString \/ ends_with_char LF t = true.

Lemma lines_ended_rewrite l : lines_ended (rewrite_subid_file l).
Proof.
  unfold rewrite_subid_file, lines_ended. case_decide as E; [subst; by left|]. right.
  generalize (join (chr LF) l). intros s. induction s as [|c s IH]; [done|].
  cbn in *. by destruct s.
Qed.

Lemma split_on_ended t u :
  lines_ended t -> split_on LF (t +:+ u) = file_lines t ++ split_on LF u.
Proof.
  intros [->|He]; [done|]. apply ends_with_lf_chop in He.
  generalize dependent (chop_lf t). intros b ->.
  assert (Hb : forall v, split_on LF ((b +:+ chr LF) +:+ v) = split_on LF b ++ split_on LF v).
  { intros v. rewrite app_assoc_str. cbn [chr String.append].
    induction b as [|c b IH]; [done|]. cbn [String.append split_on].
    destruct (Ascii.eqb c LF); [by rewrite IH|]. rewrite IH.
    destruct (split_on LF b) eqn:E; [by apply split_on_nonempty in E | done]. }
  rewrite Hb. f_equal. unfold file_lines.
  pose proof (Hb EmptyString) as H0. rewrite app_nil_r_str in H0. rewrite H0. cbn [split_on].
  rewrite last_snoc, length_app. cbn [length].
  replace (length (split_on LF b) + 1 - 1)%nat with (length (split_on LF b)) by lia.
  by rewrite take_app_length.
Qed.

Lemma file_lines_app t u : lines_ended t -> file_lines (t +:+ u) = file_lines t ++ file_lines u.
Proof.
  intros Ht. pose proof (split_on_ended t u Ht) as Hs. generalize dependent (file_lines t).
  intros ft Hs. unfold file_lines. rewrite Hs, last_app, length_app.
  pose proof (split_on_nonempty LF u). destruct (split_on LF u) as [|x l] eqn:E; [done|].
  assert (Hl : exists y, last (x :: l) = Some y) by (clear; revert x; induction l; eauto).
  destruct Hl as [y Hy]. rewrite Hy. destruct y; [|done].
  rewrite take_app_ge by (cbn; lia). f_equal. f_equal. cbn. lia.
Qed.

Lemma file_lines_one l : has_char LF l = false -> file_lines (l +:+ chr LF) = [l].
Proof.
  intros Hl. unfold file_lines, chr. rewrite split_on_app by done. done.
Qed.

Lemma has_lf_no_break l : no_break l = true -> has_char LF l = false.
Proof. by apply all_chars_no_char. Qed.

Lemma file_lines_rewrite ls u :
  Forall (fun s => no_break s = true) ls ->
  file_lines (rewrite_subid_file ls +:+ u) = ls ++ file_lines u.
Proof.
  intros H. rewrite file_lines_app by apply lines_ended_rewrite. f_equal.
  rewrite rewrite_subid_file_eq. induction H as [|s ls Hs Hls IH]; [done|].
  destruct ls as [|s' ls].
  - cbn [map join]. by apply file_lines_one, has_lf_no_break.
  - change (join EmptyString (map (fun s => s +:+ chr LF) (s :: s' :: ls)))
      with ((s +:+ chr LF) +:+ join EmptyString (map (fun s => s +:+ chr LF) (s' :: ls))).
    rewrite file_lines_app, IH, file_lines_one by (try apply has_lf_no_break; done || (right; clear;
      induction s as [|c s IH]; [done|]; cbn in *; by destruct s)). done.
Qed.

Lemma read_subid_scan_skip username sup ls rest :
  Forall (fun l => owns_line username l = false) ls ->
  read_subid_scan username sup (ls ++ rest) = read_subid_scan username sup rest.
Proof. induction 1 as [|l ls Hl _ IH]; [done|]. cbn. by rewrite Hl. Qed.

Lemma read_subid_scan_main username start count sup rest :
  name_ok username -> has_char ":" username = false -> 0 <= start -> 1 < count ->
  read_subid_scan username sup (subid_entry username start count :: rest) = Some (start, count).
Proof.
  intros [Hs _] Hcol Hst Hct. cbn [read_subid_scan].
  assert (Hown : owns_line username (subid_entry username start count) = true)
    by apply starts_with_app.
  assert (Hdig : forall n, 0 <= n -> has_char ":" (str_Z n) = false).
  { intros n Hn. apply (all_chars_no_char is_dec); [done|]. by apply all_digits_str_Z. }
  rewrite Hown. cbn [negb]. unfold strip. rewrite strip_by_id.
  2:{ unfold subid_entry, entry_prefix. rewrite !all_chars_app.
      rewrite !no_space_str_Z by lia. unfold no_space in Hs. by rewrite Hs. }
  unfold subid_entry, entry_prefix. rewrite app_assoc_str.
  cbn [String.append]. rewrite split_on_app by done. rewrite split_on_app by auto.
  rewrite split_on_no_char by (apply Hdig; lia).
  rewrite !py_int_str_Z by lia. replace (count =? 1) with false by lia. done.
Qed.

(** ** Theorems *)

(** C9.  Two workloads never share a subordinate id: the derived ranges of
    distinct uids are disjoint, each has 65536 ids, lies at or above 600100000
    and fits in 32 bits. *)
Theorem subid_ranges_disjoint u v su cu sv cv :
  derived_subid_range u = Ok (su, cu) -> derived_subid_range v = Ok (sv, cv) -> u <> v ->
  (su + cu <= sv \/ sv + cv <= su) /\ cu = 65536 /\ 600100000 <= su /\ su + cu <= 2 ^ 32.
Proof.
  intros (Hu & -> & ->)%derived_subid_range_Ok (Hv & -> & ->)%derived_subid_range_Ok Hne.
  unfold SUBID_BASE, SUBID_COUNT, UID_MIN in *. lia.
Qed.

Lemma subid_ranges_disjoint_witness :
  derived_subid_range 10000 = Ok (600100000, 65536) /\
  ((600100000 + 65536 <= 600165536 \/ 600165536 + 65536 <= 600100000) /\ 65536 = 65536
   /\ 600100000 <= 600100000 /\ 600100000 + 65536 <= 2 ^ 32).
Proof.
  split; [vm_compute; reflexivity|].
  apply (subid_ranges_disjoint 10000 10001 600100000 65536 600165536 65536);
    vm_compute; (reflexivity || discriminate).
Defined.

(** [derived_subid_range] is defined for every workload uid, and its only
    bounds are UID_MIN and the 32-bit limit: it also answers for the uids
    52949..66378, above UID_MAX, which the derivations of addresses refuse. *)
Theorem derived_subid_range_domain uid :
  (is_ok (derived_subid_range uid) = true <-> UID_MIN <= uid <= 66378) /\
  (UID_MAX < uid -> is_ok (derived_address MGMT uid) = false).
Proof.
  split.
  - destruct (derived_subid_range uid) as [[s c]|e] eqn:E; cbn.
    + apply derived_subid_range_Ok in E. tauto.
    + split; [done|]. intros H.
      rewrite (proj2 (derived_subid_range_Ok uid _ _)) in E by (split; [exact H|done]). done.
  - intros H. destruct (derived_address MGMT uid) eqn:E; [|done].
    apply derived_address_Ok in E. lia.
Qed.

Lemma derived_subid_range_domain_witness :
  (is_ok (derived_subid_range 52949) = true <-> UID_MIN <= 52949 <= 66378) /\
  (UID_MAX < 52949 -> is_ok (derived_address MGMT 52949) = false).
Proof. exact (derived_subid_range_domain 52949). Defined.

(** C4.  Mutual exclusion and unique uids over the orderly interleavings of any number of
    runs.  Processes look users up, wait for the lock, claim and pin ([resolve_uid]),
    write the sysusers file again outside of the lock, which empties it first, and may
    die anywhere; systemd-sysusers, disables and the rest of the host act at any time.
    Provided every process can take the lock, no two processes (a disable counts as
    one) are at work on one workload, and no uid is claimed while the file of a
    workload that has no user yet is being written again, no uid is ever known by two
    workloads, as a user, a pinned uid or one about to be written, and at most one
    process is between its claim and its pin.  (The last proviso is needed, and the
    code does not see to it: [rewrite_race_shares_a_uid].) *)
Theorem concurrent_uids_unique s s' :
  initial s -> rtc orderly_step s s' ->
  (forall n m uid, known_by s' n uid -> known_by s' m uid -> n = m) /\
  (forall p q n m u v, procs s' p = Claimed n u -> procs s' q = Claimed m v -> p = q).
Proof.
  intros Hi Hr. pose proof (inv_reachable s s' Hi Hr) as I. split; [apply I|].
  intros p q n m u v Hp Hq. pose proof (inv_mutex s' I p) as Mp. pose proof (inv_mutex s' I q) as Mq.
  rewrite Hp in Mp. rewrite Hq in Mq. congruence.
Qed.

Definition empty_system : system :=
  mkSys ∅ ∅ [] (fun _ => None) (fun _ => None) None (fun _ => Idle) (fun _ => ∅).

Definition sample_pin (name : string) (uid : Z) : pin := pin_allocated_uid name (workload_user name) uid [] false.

(** A process claims the first uid that is free. *)
Lemma claims_first s p name uid :
  procs s p = Holding name -> state_owner_uid (host_of s) name = None ->
  first_free (used_uids (alloc s p) (host_of s)) UID_MIN (Z.to_nat (UID_MAX + 1 - UID_MIN)) = Some uid ->
  step (Claim p) s (set_alloc (set_proc s p (Claimed name (sample_pin name uid)) (holder s)) p ({[uid]} ∪ alloc s p)).
Proof.
  intros Hp Ho Hf. apply (step_claim s p name uid _ _ [] false); [done|].
  unfold resolve_uid, claim_uid, get_next_uid. rewrite Ho, Hf. reflexivity.
Qed.

(** Steps of a concrete run: the next state is the one the rule gives. *)
Tactic Notation "next_state" uconstr(rule) "in" "order" tactic3(tac) :=
  eapply rtc_l; [eexists; split; [eapply rule; [reflexivity|..]|tac]|].
Ltac named := first [reflexivity|by split].
Ltac none_busy := let q := fresh "q" in intros q; cbn [orderly busy_on procs set_proc set_confs set_alloc empty_system];
  repeat case_decide; discriminate.
Ltac none_writes := let q := fresh "q" in intros q ? ?; cbn [procs set_proc set_confs set_alloc empty_system];
  repeat case_decide; discriminate.

(** Two processes allocate at the same time, one while the other waits for the lock:
    web has the first uid of the range and db the second. *)
Lemma concurrent_uids_unique_witness :
  exists s, rtc orderly_step empty_system s /\ known_by s "web" 10000 /\ known_by s "db" 10001 /\
  (forall n m uid, known_by s n uid -> known_by s m uid -> n = m) /\
  (forall p q n m u v, procs s p = Claimed n u -> procs s q = Claimed m v -> p = q).
Proof.
  assert (H : exists s, rtc orderly_step empty_system s /\ known_by s "web" 10000 /\ known_by s "db" 10001).
  { eexists. split.
    - next_state (step_absent empty_system 0 "web") in order none_busy; [named..|].
      next_state (step_absent _ 1 "db") in order none_busy; [named..|].
      next_state (step_acquire _ 0 "web") in order (exact Logic.I); [named|].
      next_state (claims_first _ 0 "web" 10000) in order none_writes; [vm_compute; reflexivity..|].
      next_state (step_pin _ 0) in order (exact Logic.I).
      next_state (step_acquire _ 1 "db") in order (exact Logic.I); [named|].
      next_state (claims_first _ 1 "db" 10001) in order none_writes; [vm_compute; reflexivity..|].
      next_state (step_pin _ 1) in order (exact Logic.I). apply rtc_refl.
    - split; right; left; eexists; split; vm_compute; reflexivity. }
  destruct H as (s & Hr & Hw & Hd). exists s. split_and!; [exact Hr|exact Hw|exact Hd|..];
    apply (concurrent_uids_unique empty_system s); (exact Hr || by repeat split).
Defined.

(** The file of a workload without a user is written a second time outside of the
    lock, and is empty meanwhile: another process that claims a uid then is given the
    same one.  Every other condition of order is kept. *)
Theorem rewrite_race_shares_a_uid :
  exists s, rtc (fun s s' => exists a, step a s s' /\ ((forall p, a <> Claim p) -> orderly a s)) empty_system s /\
    known_by s "web" 10000 /\ known_by s "db" 10000.
Proof.
  eexists. split_and!.
  - next_state (step_absent empty_system 0 "web") in order (intros _; none_busy); [named..|].
    next_state (step_acquire _ 0 "web") in order (intros _; exact Logic.I); [named|].
    next_state (claims_first _ 0 "web" 10000) in order (intros H; by destruct (H 0%nat)); [vm_compute; reflexivity..|].
    next_state (step_pin _ 0) in order (intros _; exact Logic.I).
    next_state (step_truncate _ 0) in order (intros _; exact Logic.I).
    next_state (step_absent _ 1 "db") in order (intros _; none_busy); [named..|].
    next_state (step_acquire _ 1 "db") in order (intros _; exact Logic.I); [named|].
    next_state (claims_first _ 1 "db" 10000) in order (intros H; by destruct (H 1%nat)); [vm_compute; reflexivity..|].
    next_state (step_pin _ 1) in order (intros _; exact Logic.I).
    next_state (step_rewrite _ 0 _ _ [] false) in order (intros _; exact Logic.I). apply rtc_refl.
  - right; left; eexists; split; vm_compute; reflexivity.
  - right; left; eexists; split; vm_compute; reflexivity.
Qed.

(** [claim_uid] on every branch: without an adoptable state tree the uid is
    the least free one; a free owner of the state tree is adopted as it is; an
    owner in use gives a collision with the least free uid; and the claimed uid
    is recorded and was not in use. *)
Theorem claim_uid_spec al h name :
  match claim_uid al h name with
  | Ok (uid, why, al') =>
      UID_MIN <= uid <= UID_MAX /\ uid ∉ used_uids al h /\ al' = {[uid]} ∪ al /\
      match why with
      | Adopted => state_owner_uid h name = Some uid
      | Fresh => state_owner_uid h name = None /\
                 forall w, UID_MIN <= w < uid -> w ∈ used_uids al h
      | Collision => exists old, state_owner_uid h name = Some old /\ old ∈ used_uids al h /\
                     forall w, UID_MIN <= w < uid -> w ∈ used_uids al h
      end
  | Raise e => e = RuntimeError /\ forall w, UID_MIN <= w <= UID_MAX -> w ∈ used_uids al h
  end.
Proof.
  assert (Hn : match get_next_uid al h with Ok _ => True
               | Raise e => e = RuntimeError /\ forall w, UID_MIN <= w <= UID_MAX -> w ∈ used_uids al h
               end).
  { unfold get_next_uid. destruct (first_free _ _ _) eqn:E; [done|]. split; [done|].
    intros w Hw. apply (proj1 (first_free_None _ _ _) E). unfold UID_MIN, UID_MAX in *. lia. }
  unfold claim_uid. destruct (state_owner_uid h name) as [a|] eqn:Ea.
  - case_decide as Hu.
    + destruct (get_next_uid al h) as [[uid al']|e] eqn:E; cbn; [|done].
      apply get_next_uid_Ok in E as (? & ? & ? & ?). repeat split; try done; try lia. eauto.
    + apply state_owner_uid_range in Ea. repeat split; try done; lia.
  - destruct (get_next_uid al h) as [[uid al']|e] eqn:E; cbn; [|done].
    apply get_next_uid_Ok in E as (? & ? & ? & ?). repeat split; try done; lia.
Qed.

(** A second [resolve_uid] of a workload whose adopted uid is pinned but
    whose user does not exist yet does not adopt again: the workload's own pin
    counts as a use of the uid, so the claim is a collision and another uid. *)
Theorem own_pin_is_a_collision h name uid groups is_vm confs al' why uid' :
  name_ok name -> state_owner_uid h name = Some uid ->
  pending_confs h =
    Some (Some (pin_text (pin_allocated_uid name (workload_user name) uid groups is_vm)) :: confs)
    :: [] ->
  claim_uid ∅ h name = Ok (uid', why, al') -> why = Collision /\ uid' <> uid.
Proof.
  intros Hok Ho Hp Hc. pose proof (state_owner_uid_range _ _ _ Ho) as Hr.
  assert (Hused : uid ∈ used_uids ∅ h).
  { unfold used_uids, reserved_uids_in_pending_sysusers. rewrite Hp.
    apply elem_of_union_l, elem_of_union_r, elem_of_list_to_set. cbn [map concat].
    rewrite !elem_of_app. left. left. apply conf_uids_render; [done|].
    unfold UID_MIN in Hr. lia. }
  unfold claim_uid in Hc. rewrite Ho, decide_True in Hc by done.
  destruct (get_next_uid ∅ h) as [[v al]|] eqn:E; [|done]. cbn in Hc. injection Hc as <- <- <-.
  apply get_next_uid_Ok in E as (_ & Hf & _). split; [done|]. congruence.
Qed.

Definition pinned_host : host :=
  mkHost (Some []) [Some [Some (pin_text (pin_allocated_uid "web" (workload_user "web") 10007 [] false))]]
    (fun _ => Some 10007) (fun _ => None).

Lemma own_pin_is_a_collision_witness :
  claim_uid ∅ pinned_host "web" = Ok (10000, Collision, {[10000]} ∪ ∅) /\
  (Collision = Collision /\ 10000 <> 10007).
Proof.
  split; [vm_compute; reflexivity|].
  apply (own_pin_is_a_collision pinned_host "web" 10007 [] false [] ({[10000]} ∪ ∅) Collision 10000);
    [split; [reflexivity|done]| reflexivity | reflexivity | vm_compute; reflexivity].
Defined.

(** [remove_subid_entries] drops exactly the user's lines: the lines left
    are the others, in order, the rewritten file ends its last line, and a file
    without an entry is not touched; nothing of the user is left to remove. *)
Theorem remove_subid_entries_spec username t :
  let '(t', changed) := remove_subid_entries username (Some t) in
  exists u, t' = Some u /\
    splitlines u = filter (fun l => owns_line username l = false) (splitlines t) /\
    (changed = false -> u = t) /\ (changed = true -> lines_ended u) /\
    (changed = subid_file_has_entry username (Some t)) /\
    subid_file_has_entry username (Some u) = false.
Proof.
  cbn [remove_subid_entries]. set (kept := filter _ _).
  assert (Hk : Forall (fun l => no_break l = true) kept).
  { apply Forall_forall. intros l [_ Hl]%list_elem_of_filter.
    by eapply Forall_forall in Hl; [|apply splitlines_no_break]. }
  assert (Hnone : existsb (owns_line username) kept = false).
  { apply not_true_iff_false. intros (l & [Hl _]%list_elem_of_In%list_elem_of_filter & H)%existsb_exists.
    congruence. }
  assert (Hlen : length kept = length (splitlines t) -> kept = splitlines t)
    by apply filter_length_id.
  case_decide as Hd; [exists (rewrite_subid_file kept) | exists t]; (split; [done|]).
  - rewrite splitlines_rewrite by done. cbn. rewrite splitlines_rewrite by done.
    repeat split; try done; [intros _; apply lines_ended_rewrite|].
    symmetry. apply not_false_iff_true. intros He. apply Hd. unfold kept.
    rewrite filter_all_id; [done|]. apply Forall_forall. intros l Hl.
    apply not_true_iff_false. intros Ho. apply not_true_iff_false in He. apply He.
    apply existsb_exists. exists l. split; [by apply list_elem_of_In | done].
  - rewrite <- (Hlen Hd) in *. cbn. rewrite <- (Hlen Hd).
    rewrite Hnone. done.
Qed.

(** Provisioning then reading back: a user with no entry in a subid file
    gets the derived range as its main entry and [read_subid_entry] finds it,
    whatever supplementary entries are required with it; every other line stays
    where it was.  A user with an entry keeps it: the main range is not written
    over an existing one. *)
Theorem provision_then_read username uid start count extra ls :
  name_ok username -> has_char ":" username = false ->
  derived_subid_range uid = Ok (start, count) ->
  Forall (fun l => no_break l = true) ls ->
  let main := subid_entry username start count in
  let t' := configure_subid_file username main (main :: extra) (Some (rewrite_subid_file ls)) in
  (Forall (fun l => owns_line username l = false) ls ->
   read_subid_entry username t' = Some (start, count) /\
   exists rest, file_lines (default EmptyString t') = ls ++ main :: rest) /\
  (Exists (fun l => owns_line username l = true) ls ->
   main ∉ missing_entries username main (main :: extra) (rewrite_subid_file ls)).
Proof.
  intros Hok Hcol (Hr & -> & ->)%derived_subid_range_Ok Hnb main t'.
  assert (Hmain : owns_line username main = true) by apply starts_with_app.
  unfold t', configure_subid_file, missing_entries. cbv zeta. cbn [from_option id].
  rewrite splitlines_rewrite by done.
  assert (Hbounds : 0 <= SUBID_BASE + (uid - UID_MIN) * SUBID_COUNT)
    by (unfold SUBID_BASE, SUBID_COUNT, UID_MIN in *; lia).
  split.
  - intros Hno.
    assert (Hex : existsb (owns_line username) ls = false).
    { apply not_true_iff_false. intros (l & Hl & Ho)%existsb_exists.
      apply list_elem_of_In in Hl. eapply Forall_forall in Hno; [|done]. congruence. }
    assert (Hnin : main ∉ ls).
    { intros Hin. eapply Forall_forall in Hno; [|done]. congruence. }
    rewrite Hex. rewrite filter_cons, decide_True by (split; [by intros [_ ?]|done]).
    set (more := filter _ extra). cbn [append_subid_entries].
    assert (Hj : exists v, join EmptyString (map (fun e => e +:+ chr LF) (main :: more))
                           = (main +:+ chr LF) +:+ v).
    { destruct more as [|m more]; [exists EmptyString; cbn [map join]; by rewrite app_nil_r_str|].
      by exists (join EmptyString (map (fun e => e +:+ chr LF) (m :: more))). }
    destruct Hj as [v Hj]. rewrite Hj. cbn [from_option id].
    assert (Hlf : has_char LF main = false).
    { apply has_lf_no_break, no_space_no_break. unfold main, subid_entry, entry_prefix.
      rewrite !no_space_app. destruct Hok as [-> _].
      unfold no_space at 2 3. rewrite !no_space_str_Z by (done || lia). done. }
    assert (Hlines : file_lines (rewrite_subid_file ls +:+ (main +:+ chr LF) +:+ v)
                     = ls ++ main :: file_lines v).
    { rewrite file_lines_rewrite by done. rewrite file_lines_app, file_lines_one; [done|done|].
      right. clear. induction main as [|c s IH]; [done|]. cbn in *. by destruct s. }
    rewrite Hlines. split; [|eauto]. cbn. rewrite Hlines.
    rewrite read_subid_scan_skip by done. by apply read_subid_scan_main.
  - intros Hex [[Hn _] _]%list_elem_of_filter. apply Hn. split; [done|].
    apply existsb_exists. apply Exists_exists in Hex as (l & Hl & Ho).
    exists l. split; [by apply list_elem_of_In | done].
Qed.

Lemma provision_then_read_witness :
  let main := subid_entry "_wl-web" 600100000 65536 in
  let t' := configure_subid_file "_wl-web" main [main; "_wl-web:39:1"]
              (Some (rewrite_subid_file ["alice:524288:65536"])) in
  read_subid_entry "_wl-web" t' = Some (600100000, 65536) /\
  exists rest, file_lines (default EmptyString t') = ["alice:524288:65536"] ++ main :: rest.
Proof.
  apply (provision_then_read "_wl-web" 10000 600100000 65536 ["_wl-web:39:1"] ["alice:524288:65536"]);
    [split; done | reflexivity | reflexivity | repeat constructor | repeat constructor].
Defined.

(** The lock is reentrant and always released: a body that returns with
    the lock state it was given (as every use does), nested to any depth and
    whether it raises or not, leaves the state as it found it; inside an outer
    hold the descriptor is the outer one and opening it again is never tried; a
    denied open runs the body without the flock, any other failure does not run
    it at all. *)
Theorem with_subid_lock_balanced {A} o (body : lock_state -> lock_state * res A) st :
  (lk_depth st = O -> lk_fd st = false) ->
  (forall st', fst (body st') = st') ->
  fst (with_subid_lock o body st) = st /\
  (lk_depth st <> O ->
     snd (with_subid_lock o body st) = snd (body (mkLock (S (lk_depth st)) (lk_fd st)))) /\
  (lk_depth st = O ->
     snd (with_subid_lock o body st) =
       match o with
       | Opened => snd (body (mkLock 1 true))
       | Denied => snd (body (mkLock 1 false))
       | Failed => Raise OSError
       end).
Proof.
  intros Hwf Hb. destruct st as [d fd]. unfold with_subid_lock, subid_lock_enter. cbn in *.
  assert (Hbody : forall st', body st' = (st', snd (body st')))
    by (intros st'; rewrite (surjective_pairing (body st')) at 1; by rewrite Hb).
  destruct d as [|d].
  - rewrite Hwf by done. split; [|split; [done|intros _]].
    all: destruct o; try done; by rewrite Hbody.
  - rewrite Hbody. split; [done|]. split; done.
Qed.

Lemma with_subid_lock_balanced_witness :
  with_subid_lock Opened (with_subid_lock Failed (fun st => (st, Ok (lk_fd st)))) (mkLock 0 false)
    = (mkLock 0 false, Ok true) /\
  fst (with_subid_lock Opened (fun st => (st, Ok (lk_fd st))) (mkLock 0 false)) = mkLock 0 false.
Proof.
  split; [reflexivity|].
  apply (with_subid_lock_balanced Opened (fun st => (st, Ok (lk_fd st))) (mkLock 0 false)); done.
Defined.
