(* ===== verification/UnitFile.v ===== *)
(** * The unit-file builder: [lib/unit_file.py]

    A unit is an optional preamble of comments and sections in first-seen
    order; a section is an ordered list of directives, comments and blanks.  The
    operations return the new unit: [section(name)] hands out the section object
    itself, so an operation on it is an update of the unit at that name.

    [parse_unit] is the reader's side, systemd.syntax(7): lines, comments,
    section headers, key and value around the first '='.  The main theorem is
    that it reads back exactly the directives the callers gave, so that no value
    without a line break can add or remove a directive. *)
From S2P Require Import Prelude PyStr.

(** ** The model *)

Inductive uline :=
  | Kv (key value : string)
  | Cmt (text : string)
  | Blank.

#[export] Instance uline_eq_dec : EqDecision uline.
Proof. solve_decision. Defined.

Definition render_line (l : uline) : string :=
  match l with
  | Kv k v => k +:+ "=" +:+ v
  | Cmt t => rstrip_by is_space ("# " +:+ t)
  | Blank => ""
  end.

Definition is_blank (l : uline) : bool := match l with Blank => true | _ => false end.

Fixpoint drop_blanks (l : list uline) : list uline :=
  match l with
  | Blank :: l => drop_blanks l
  | _ => l
  end.

Definition strip_edge_blanks (l : list uline) : list uline :=
  reverse (drop_blanks (reverse (drop_blanks l))).

Fixpoint sec_set (key value : string) (l : list uline) : list uline :=
  match l with
  | [] => [Kv key value]
  | Kv k v :: l => if decide (k = key) then Kv key value :: l else Kv k v :: sec_set key value l
  | x :: l => x :: sec_set key value l
  end.

Definition sec_add (key value : string) (l : list uline) : list uline := l ++ [Kv key value].
Definition sec_comment (text : string) (l : list uline) : list uline := l ++ [Cmt text].
Definition sec_blank (l : list uline) : list uline := l ++ [Blank].

Definition sec_body (l : list uline) : list string := map render_line (strip_edge_blanks l).

Record unit_file := mkUnit {
  preamble : list uline;
  sections : list (string * list uline) }.

Definition empty_unit : unit_file := mkUnit [] [].

Definition unit_comment (text : string) (u : unit_file) : unit_file :=
  mkUnit (preamble u ++ [Cmt text]) (sections u).

(** [unit.section(name)], then an operation on the section it returns. *)
Fixpoint on_section (name : string) (f : list uline -> list uline)
    (l : list (string * list uline)) : list (string * list uline) :=
  match l with
  | [] => [(name, f [])]
  | (n, b) :: l => if decide (n = name) then (n, f b) :: l else (n, b) :: on_section name f l
  end.

Definition unit_section (name : string) (f : list uline -> list uline) (u : unit_file) : unit_file :=
  mkUnit (preamble u) (on_section name f (sections u)).

Definition blocks (u : unit_file) : list (list string) :=
  (if decide (strip_edge_blanks (preamble u) = []) then []
   else [map render_line (strip_edge_blanks (preamble u))]) ++
  map (fun '(n, b) => ("[" +:+ n +:+ "]") :: sec_body b) (sections u).

(** One blank line between blocks. *)
Fixpoint join_blocks (l : list (list string)) : list string :=
  match l with
  | [] => []
  | [b] => b
  | b :: l => b ++ "" :: join_blocks l
  end.

Definition render (u : unit_file) : string := join (chr LF) (join_blocks (blocks u)) +:+ chr LF.

(** ** The reader *)

Definition BACKSLASH : ascii := "092"%char.

Inductive parsed :=
  | PSkip
  | PSection (name : string)
  | PKv (key value : string)
  | PBad.

Definition parse_line (line : string) : parsed :=
  let l := strip line in
  match l with
  | EmptyString => PSkip
  | String c r =>
      if Ascii.eqb c "#" || Ascii.eqb c ";" then PSkip
      else if Ascii.eqb c "[" then
        match cut "]" r with
        | Some (n, EmptyString) => PSection n
        | _ => PBad
        end
      else match cut "=" l with
           | Some (k, v) => PKv (strip k) (strip v)
           | None => PBad
           end
  end.

(** The logical lines of a file: a comment line is dropped, and a line ending in
    an unescaped backslash goes on in the next one. *)
Fixpoint continues_from (esc : bool) (s : string) : bool :=
  match s with
  | EmptyString => esc
  | String c s => continues_from (if Ascii.eqb c BACKSLASH then negb esc else false) s
  end.
Definition continues (s : string) : bool := continues_from false s.

Definition is_comment_line (s : string) : bool :=
  match lstrip_by is_space s with
  | String c _ => Ascii.eqb c "#" || Ascii.eqb c ";"
  | EmptyString => false
  end.

Fixpoint logical_lines (pending : string) (l : list string) : list string :=
  match l with
  | [] => [pending]
  | x :: l =>
      if is_comment_line x then logical_lines pending l
      else if continues (pending +:+ x)
      then logical_lines (str_take (String.length (pending +:+ x) - 1) (pending +:+ x) +:+ " ") l
      else (pending +:+ x) :: logical_lines EmptyString l
  end.

(** The sections of a sequence of lines; the first group holds the directives
    before the first header. *)
Fixpoint parse_lines (cur : string) (acc : list (string * string)) (l : list string)
    : option (list (string * list (string * string))) :=
  match l with
  | [] => Some [(cur, acc)]
  | x :: l =>
      match parse_line x with
      | PSkip => parse_lines cur acc l
      | PSection n => rest ← parse_lines n [] l; Some ((cur, acc) :: rest)
      | PKv k v => parse_lines cur (acc ++ [(k, v)]) l
      | PBad => None
      end
  end.

(** A directive before any header is an error; the first group is the one before
    the first header, and must be empty. *)
Definition parse_unit (text : string) : option (list (string * list (string * string))) :=
  match parse_lines "" [] (logical_lines "" (split_on LF text)) with
  | Some ((_, []) :: secs) => Some secs
  | _ => None
  end.

(** What the callers asked for. *)
Definition kv_of (l : uline) : option (string * string) :=
  match l with Kv k v => Some (k, strip v) | _ => None end.

Definition directives (u : unit_file) : list (string * list (string * string)) :=
  map (fun '(n, b) => (n, omap kv_of b)) (sections u).

(** ** Well-formed units *)

Definition no_lf (s : string) : bool := negb (has_char LF s).

(** A key: not empty, no '=', no newline, no white space, and not starting a
    comment or a header. *)
Definition wf_key (k : string) : bool :=
  match k with
  | EmptyString => false
  | String c _ => negb (Ascii.eqb c "#" || Ascii.eqb c ";" || Ascii.eqb c "[")
                  && no_space k && negb (has_char "=" k)
  end.

Definition wf_line (l : uline) : bool :=
  match l with
  | Kv k v => wf_key k && no_lf v && negb (continues (k +:+ "=" +:+ v))
  | Cmt t => no_lf t
  | Blank => true
  end.

Definition wf_unit (u : unit_file) : bool :=
  forallb wf_line (preamble u) && forallb (fun l => match l with Kv _ _ => false | _ => true end) (preamble u)
  && forallb (fun '(n, b) => no_lf n && negb (has_char "]" n) && forallb wf_line b) (sections u).

(** ** Lemmas *)

Lemma lstrip_by_app p s t :
  all_chars p s = true -> lstrip_by p (s +:+ t) = lstrip_by p t.
Proof. induction s as [|c s IH]; cbn; [done|]. intros [-> Hs]%andb_prop. auto. Qed.

Lemma rstrip_nonempty p c s : p c = false -> exists r, rstrip_by p (String c s) = String c r.
Proof. intros H. cbn. destruct (rstrip_by p s); rewrite ?H; eauto. Qed.

Lemma rstrip_app p s t :
  rstrip_by p t <> EmptyString -> rstrip_by p (s +:+ t) = s +:+ rstrip_by p t.
Proof.
  intros Ht. induction s as [|c s IH]; cbn; [done|]. rewrite IH.
  destruct (s +:+ rstrip_by p t) eqn:E; [|done]. destruct s; by cbn in E.
Qed.

Lemma rstrip_app_empty p s t :
  rstrip_by p t = EmptyString -> rstrip_by p (s +:+ t) = rstrip_by p s.
Proof. intros Ht. induction s as [|c s IH]; cbn; [done|]. by rewrite IH. Qed.

Lemma strip_skip_head c s : is_space c = false -> strip (String c s) = rstrip_by is_space (String c s).
Proof.
  intros H. unfold strip, strip_by. destruct (rstrip_nonempty is_space c s H) as [r ->].
  cbn. by rewrite H.
Qed.

(** The value a reader sees does not depend on the padding around it. *)
Lemma strip_rstrip s : strip (rstrip_by is_space s) = strip s.
Proof.
  unfold strip, strip_by. f_equal. induction s as [|c s IH]; cbn; [done|].
  destruct (rstrip_by is_space s) eqn:E.
  - destruct (is_space c) eqn:Ec; cbn; [done|]. by rewrite Ec.
  - cbn. cbn in IH. by rewrite IH.
Qed.

Lemma wf_key_spec k : wf_key k = true ->
  exists c r, k = String c r /\ Ascii.eqb c "#" = false /\ Ascii.eqb c ";" = false
  /\ Ascii.eqb c "[" = false /\ is_space c = false /\ no_space k = true /\ has_char "=" k = false.
Proof.
  destruct k as [|c r]; [done|]. intros H. unfold wf_key in H.
  apply andb_prop in H as [[H1 H2]%andb_prop H3].
  apply negb_true_iff, orb_false_elim in H1 as [[? ?]%orb_false_elim ?]. apply negb_true_iff in H3.
  exists c, r. repeat split; try done. cbn in H2. apply andb_prop in H2 as [H2 _].
  by apply negb_true_iff in H2.
Qed.

Lemma parse_line_kv k v : wf_key k = true -> parse_line (k +:+ "=" +:+ v) = PKv k (strip v).
Proof.
  intros (c & r & -> & H1 & H2 & H3 & Hs & Hns & Heq)%wf_key_spec.
  set (k := String c r) in *.
  assert (Hl : strip (k +:+ "=" +:+ v) = k +:+ String "=" (rstrip_by is_space v)).
  { change (k +:+ "=" +:+ v) with (String c (r +:+ "=" +:+ v)). rewrite strip_skip_head by done.
    change (String c (r +:+ "=" +:+ v)) with (k +:+ String "=" v).
    rewrite rstrip_app; [f_equal|]; destruct (rstrip_nonempty is_space "=" v eq_refl) as [x Hx];
      [|congruence]. cbn. by destruct (rstrip_by is_space v). }
  unfold parse_line. rewrite Hl. unfold k at 1. cbn [String.append].
  rewrite H1, H2, H3. cbn [orb].
  change (String c (r +:+ String "=" (rstrip_by is_space v)))
    with (k +:+ String "=" (rstrip_by is_space v)).
  rewrite cut_app by done. f_equal; [|apply strip_rstrip].
  by apply strip_by_id.
Qed.

Lemma parse_line_comment t : parse_line (rstrip_by is_space ("# " +:+ t)) = PSkip.
Proof.
  unfold parse_line. rewrite strip_rstrip.
  change ("# " +:+ t) with (String "#" (String " " t)). rewrite strip_skip_head by done.
  destruct (rstrip_nonempty is_space "#" (String " " t) eq_refl) as [r ->]. done.
Qed.

Lemma parse_line_header n : has_char "]" n = false -> parse_line ("[" +:+ n +:+ "]") = PSection n.
Proof.
  intros Hn. unfold parse_line.
  assert (strip ("[" +:+ n +:+ "]") = "[" +:+ n +:+ "]") as ->.
  { change ("[" +:+ n +:+ "]") with (String "[" (n +:+ "]")). rewrite strip_skip_head by done.
    change (String "[" (n +:+ "]")) with (String "[" n +:+ "]"). by rewrite rstrip_app. }
  cbn [String.append]. cbn [Ascii.eqb orb Bool.eqb andb].
  change "]" with (String "]" EmptyString). by rewrite cut_app.
Qed.

Lemma logical_plain x l :
  is_comment_line x = false -> continues x = false ->
  logical_lines "" (x :: l) = x :: logical_lines "" l.
Proof. intros Hc Hx. cbn [logical_lines String.append]. by rewrite Hc, Hx. Qed.

Lemma kv_not_comment k v : wf_key k = true -> is_comment_line (k +:+ "=" +:+ v) = false.
Proof.
  intros (c & r & -> & H1 & H2 & _ & Hs & _)%wf_key_spec.
  unfold is_comment_line. cbn. rewrite Hs. by rewrite H1, H2.
Qed.

Lemma comment_is_comment t : is_comment_line (rstrip_by is_space ("# " +:+ t)) = true.
Proof.
  change ("# " +:+ t) with (String "#" (String " " t)).
  by destruct (rstrip_nonempty is_space "#" (String " " t) eq_refl) as [r ->].
Qed.

Lemma continues_from_app s t esc :
  continues_from esc (s +:+ t) = continues_from (continues_from esc s) t.
Proof. revert esc. induction s as [|c s IH]; intros esc; cbn; auto. Qed.

Lemma header_plain n l :
  logical_lines "" (("[" +:+ n +:+ "]") :: l) = ("[" +:+ n +:+ "]") :: logical_lines "" l.
Proof.
  apply logical_plain; [done|]. change ("[" +:+ n +:+ "]") with (String "[" (n +:+ "]")).
  unfold continues. cbn. by rewrite continues_from_app.
Qed.

Lemma parse_lines_body cur acc b rest :
  forallb wf_line b = true ->
  parse_lines cur acc (logical_lines "" (map render_line b ++ rest)) =
  parse_lines cur (acc ++ omap kv_of b) (logical_lines "" rest).
Proof.
  revert acc. induction b as [|l b IH]; intros acc; cbn [map app forallb].
  - intros _. cbn. by rewrite app_nil_r.
  - intros [Hl Hb]%andb_prop.
    destruct l as [k v|t|]; cbn [render_line omap list_omap kv_of].
    + cbn [wf_line] in Hl. apply andb_prop in Hl as [[Hk _]%andb_prop Hc%negb_true_iff].
      rewrite logical_plain by eauto using kv_not_comment. cbn [parse_lines].
      rewrite parse_line_kv, IH by done. by rewrite <- app_assoc.
    + cbn [logical_lines]. rewrite comment_is_comment. by rewrite IH.
    + rewrite logical_plain by done. cbn [parse_lines]. change (parse_line "") with PSkip. by rewrite IH.
Qed.

Lemma drop_blanks_omap l : omap kv_of (drop_blanks l) = omap kv_of l.
Proof. induction l as [|[]]; cbn; auto. Qed.

Lemma omap_reverse {A B} (f : A -> option B) l : omap f (reverse l) = reverse (omap f l).
Proof.
  induction l as [|x l IH]; [done|]. rewrite reverse_cons, omap_app, IH.
  cbn [omap list_omap]. destruct (f x); [by rewrite <- reverse_cons | by rewrite app_nil_r].
Qed.

Lemma strip_edge_blanks_omap l : omap kv_of (strip_edge_blanks l) = omap kv_of l.
Proof.
  unfold strip_edge_blanks. by rewrite omap_reverse, drop_blanks_omap, omap_reverse, reverse_involutive, drop_blanks_omap.
Qed.

Lemma drop_blanks_wf l : forallb wf_line l = true -> forallb wf_line (drop_blanks l) = true.
Proof. induction l as [|[]]; cbn; auto. Qed.

Lemma forallb_reverse {A} (f : A -> bool) l : forallb f (reverse l) = forallb f l.
Proof.
  induction l as [|x l IH]; [done|]. rewrite reverse_cons, forallb_app, IH. cbn.
  rewrite andb_true_r. apply andb_comm.
Qed.

Lemma strip_edge_blanks_wf l :
  forallb wf_line l = true -> forallb wf_line (strip_edge_blanks l) = true.
Proof.
  intros H. unfold strip_edge_blanks. rewrite forallb_reverse. apply drop_blanks_wf.
  rewrite forallb_reverse. by apply drop_blanks_wf.
Qed.

(** *** The lines of a rendering *)

Lemma no_char_all c s : has_char c s = negb (all_chars (fun d => negb (is_char c d)) s).
Proof.
  unfold has_char. induction s as [|d s IH]; cbn; [done|].
  by rewrite IH, negb_andb, negb_involutive.
Qed.

Lemma rendered_no_lf l : wf_line l = true -> has_char LF (render_line l) = false.
Proof.
  destruct l as [k v|t|]; cbn [wf_line render_line]; intros H; [| |done].
  - apply andb_prop in H as [[Hk Hv%negb_true_iff]%andb_prop _].
    apply wf_key_spec in Hk as (? & ? & -> & _ & _ & _ & _ & Hns & _).
    rewrite !has_char_app, Hv. 
    by erewrite (all_chars_no_char _ LF (String _ _)); [| |exact Hns].
  - apply negb_true_iff in H. rewrite no_char_all in *. apply negb_false_iff in H.
    apply negb_false_iff, all_chars_rstrip. by rewrite all_chars_app, H.
Qed.

Definition wf_section (nb : string * list uline) : bool :=
  no_lf (fst nb) && negb (has_char "]" (fst nb)) && forallb wf_line (snd nb).

Definition section_block (nb : string * list uline) : list string :=
  ("[" +:+ fst nb +:+ "]") :: sec_body (snd nb).

Lemma join_blocks_cons b l : l <> [] -> join_blocks (b :: l) = b ++ "" :: join_blocks l.
Proof. by destruct l. Qed.

(** Reading the sections of a unit, after whatever came before. *)
Lemma parse_section_blocks secs cur acc :
  forallb wf_section secs = true ->
  parse_lines cur acc (logical_lines "" (join_blocks (map section_block secs) ++ [""])) =
  Some ((cur, acc) :: map (fun nb => (fst nb, omap kv_of (snd nb))) secs).
Proof.
  revert cur acc. induction secs as [|[n b] secs IH]; intros cur acc; [done|].
  cbn [forallb]. intros [[[_ Hn%negb_true_iff]%andb_prop Hb]%andb_prop Hs]%andb_prop.
  assert (Hj : join_blocks (map section_block ((n, b) :: secs)) ++ [""] =
               ("[" +:+ n +:+ "]") :: sec_body b ++
               (if decide (secs = []) then [""]
                else "" :: join_blocks (map section_block secs) ++ [""])).
  { case_decide as Hd; [subst secs; by cbn|]. cbn [map].
    rewrite join_blocks_cons by (by destruct secs). unfold section_block at 1. cbn [fst snd app].
    by rewrite <- app_assoc. }
  rewrite Hj, header_plain. cbn [parse_lines fst snd] in *. rewrite parse_line_header by done.
  unfold sec_body. rewrite parse_lines_body by (by apply strip_edge_blanks_wf).
  rewrite strip_edge_blanks_omap. cbn [app map].
  case_decide as Hd; [by subst|]. rewrite logical_plain by done. cbn [parse_lines].
  change (parse_line "") with PSkip. cbn iota. by rewrite IH.
Qed.

Lemma strip_edge_blanks_incl l : forall x, In x (strip_edge_blanks l) -> In x l.
Proof.
  assert (Hd : forall l x, In x (drop_blanks l) -> In x l).
  { induction l0 as [|[] l0 IH]; cbn; auto. }
  intros x. unfold strip_edge_blanks. rewrite <- list_elem_of_In, elem_of_reverse, list_elem_of_In.
  intros H%Hd. rewrite <- list_elem_of_In, elem_of_reverse, list_elem_of_In in H. by apply Hd.
Qed.

Lemma preamble_directives l :
  forallb (fun l => match l with Kv _ _ => false | _ => true end) l = true -> omap kv_of l = [].
Proof. induction l as [|[] l IH]; cbn; auto; discriminate. Qed.

Lemma join_blocks_no_lf l :
  Forall (Forall (fun s => has_char LF s = false)) l ->
  Forall (fun s => has_char LF s = false) (join_blocks l).
Proof.
  induction 1 as [|b l Hb Hl IH]; [constructor|]. destruct l as [|b' l]; [done|].
  rewrite join_blocks_cons by done. apply Forall_app. split; [done|]. by constructor.
Qed.

Lemma rendered_body_no_lf b :
  forallb wf_line b = true -> Forall (fun s => has_char LF s = false) (map render_line b).
Proof.
  intros H. apply Forall_forall. intros s (x & -> & Hx)%list_elem_of_fmap.
  apply rendered_no_lf. rewrite forallb_forall in H. by apply H, list_elem_of_In.
Qed.

Lemma wf_unit_spec u : wf_unit u = true ->
  forallb wf_line (preamble u) = true /\ omap kv_of (preamble u) = [] /\
  forallb wf_section (sections u) = true.
Proof.
  unfold wf_unit. intros [[H1 H2]%andb_prop H3]%andb_prop. split; [done|].
  split; [by apply preamble_directives|]. rewrite <- H3. clear.
  induction (sections u) as [|[n b] l IH]; cbn [forallb]; [done|]; by rewrite IH.
Qed.

Lemma blocks_no_lf u : wf_unit u = true ->
  Forall (fun s => has_char LF s = false) (join_blocks (blocks u)).
Proof.
  intros (Hp & _ & Hs)%wf_unit_spec. apply join_blocks_no_lf. unfold blocks. apply Forall_app. split.
  - case_decide; repeat constructor. by apply rendered_body_no_lf, strip_edge_blanks_wf.
  - apply Forall_forall. intros ? ([n b] & -> & Hin)%list_elem_of_fmap.
    rewrite forallb_forall in Hs. apply list_elem_of_In, Hs in Hin.
    apply andb_prop in Hin as [[Hn%negb_true_iff _]%andb_prop Hb]. cbn [fst snd] in *.
    constructor; [|by apply rendered_body_no_lf, strip_edge_blanks_wf].
    by rewrite !has_char_app, Hn.
Qed.

Lemma split_rendering ls :
  Forall (fun s => has_char LF s = false) ls ->
  split_on LF (join (chr LF) ls +:+ chr LF) =
  (if decide (ls = []) then [""; ""] else ls ++ [""]).
Proof.
  intros H. case_decide as Hd; [by subst|].
  assert (join (chr LF) ls +:+ chr LF = join (chr LF) (ls ++ [""])) as ->.
  { clear H. induction ls as [|x ls IH]; [done|]. destruct ls as [|y ls]; [done|].
    change (join (chr LF) (x :: y :: ls)) with (x +:+ chr LF +:+ join (chr LF) (y :: ls)).
    change (join (chr LF) ((x :: y :: ls) ++ [""])) with (x +:+ chr LF +:+ join (chr LF) ((y :: ls) ++ [""])).
    by rewrite !app_assoc_str, IH. }
  apply split_on_join; [by destruct ls|]. apply Forall_app. split; [done|]. by repeat constructor.
Qed.

Lemma parse_blocks u : wf_unit u = true ->
  parse_lines "" [] (logical_lines "" (join_blocks (blocks u) ++ [""])) =
  Some (("", []) :: directives u).
Proof.
  intros (Hp & Ho & Hs)%wf_unit_spec. unfold blocks, directives.
  assert (Hmap : map (fun '(n, b) => ("[" +:+ n +:+ "]") :: sec_body b) (sections u)
                 = map section_block (sections u)) by (apply map_ext; by intros []).
  assert (Hdir : map (fun '(n, b) => (n, omap kv_of b)) (sections u)
                 = map (fun nb => (fst nb, omap kv_of (snd nb))) (sections u))
    by (apply map_ext; by intros []).
  rewrite Hmap, Hdir. case_decide as Hd; [by apply parse_section_blocks|].
  assert (Hbody : forall rest,
    parse_lines "" [] (logical_lines "" (map render_line (strip_edge_blanks (preamble u)) ++ rest))
    = parse_lines "" [] (logical_lines "" rest)).
  { intros rest. rewrite parse_lines_body by (by apply strip_edge_blanks_wf).
    by rewrite strip_edge_blanks_omap, Ho. }
  cbn [app]. destruct (sections u) as [|nb secs] eqn:E.
  - cbn [map join_blocks]. by rewrite Hbody.
  - rewrite join_blocks_cons by done. rewrite <- app_assoc, Hbody. cbn [app].
    rewrite logical_plain by done. cbn [parse_lines]. change (parse_line "") with PSkip.
    cbn iota. by apply parse_section_blocks.
Qed.

Lemma read_back u : wf_unit u = true -> parse_unit (render u) = Some (directives u).
Proof.
  intros H. unfold parse_unit, render. rewrite split_rendering by (by apply blocks_no_lf).
  case_decide as Hd; [|by rewrite parse_blocks].
  pose proof (parse_blocks u H) as Hp. rewrite Hd in Hp. cbn in Hp. by injection Hp as <-.
Qed.

(** ** The theorems *)

(** systemd reads back exactly the directives the callers put into the
    builder, section by section and in order: for well-formed keys and section
    names, whatever the values (without a newline and not ending in a
    continuation backslash), the comments and the blanks. *)
Theorem parse_render u :
  wf_unit u = true -> parse_unit (render u) = Some (directives u).
Proof. apply read_back. Qed.

Definition sample_unit : unit_file :=
  unit_section "Service" (fun s => sec_blank (sec_add "Environment" "A=#b;[c]" (sec_set "Type" "oneshot" s)))
    (unit_section "Unit" (fun s => sec_set "After" "x.service" (sec_comment "order" (sec_set "After" "" s)))
       (unit_comment "Generated" empty_unit)).

Lemma parse_render_witness :
  wf_unit sample_unit = true /\
  parse_unit (render sample_unit) =
  Some [("Unit", [("After", "x.service")]); ("Service", [("Type", "oneshot"); ("Environment", "A=#b;[c]")])].
Proof. split; [reflexivity|]. exact (parse_render sample_unit eq_refl). Defined.

(** The values of a key in a section, in order. *)
Definition values (key : string) (l : list uline) : list string :=
  omap (fun x => match x with Kv k v => if decide (k = key) then Some v else None | _ => None end) l.

(** [Section.set] replaces the value of the first directive of its key
    where it stands, or appends one: the later directives of the key, those of
    every other key and their order are as before, and a second [set] of the
    key leaves no trace of the first. *)
Theorem sec_set_spec key v w other l :
  values key (sec_set key v l) = v :: tail (values key l)
  /\ (other <> key -> values other (sec_set key v l) = values other l)
  /\ sec_set key w (sec_set key v l) = sec_set key w l.
Proof.
  induction l as [|[k u|t|] l (IH1 & IH2 & IH3)]; unfold values in *; cbn [sec_set].
  - repeat split; cbn; intros; repeat case_decide; congruence.
  - destruct (decide (k = key)) as [->|Hk]; repeat split; intros; cbn [sec_set omap list_omap];
      repeat case_decide; try congruence; try done; by rewrite IH2.
  - repeat split; cbn [omap list_omap sec_set]; [done|done|congruence].
  - repeat split; cbn [omap list_omap sec_set]; [done|done|congruence].
Qed.

Lemma sec_set_spec_witness :
  values "After" (sec_set "Type" "simple" [Kv "Type" "oneshot"; Kv "After" "a"; Kv "After" "b"]) = ["a"; "b"].
Proof.
  apply (sec_set_spec "Type" "simple" "" "After" [Kv "Type" "oneshot"; Kv "After" "a"; Kv "After" "b"]).
  discriminate.
Defined.
