(* ===== verification/Toml.v ===== *)
(** * Parsed TOML values

    What [tomllib.load] gives the code: strings, integers, booleans, arrays and
    tables (insertion-ordered, one entry per key), and the other scalars (floats,
    dates), of which the code only uses the type's name, the text and the truth
    value.  The operations are those of the Python objects: each raises what
    Python raises on a value of the wrong type. *)
From S2P Require Import Prelude PyStr.
Local Open Scope Z_scope.

Inductive tv :=
  | TStr (s : string)
  | TInt (n : Z)
  | TBool (b : bool)
  | TOther (tyname text repr : string) (truthy : bool)
  | TArr (l : list tv)
  | TTab (t : list (string * tv)).

Definition table := list (string * tv).

Fixpoint assoc {A} (k : string) (l : list (string * A)) : option A :=
  match l with
  | [] => None
  | (k', v) :: l => if decide (k' = k) then Some v else assoc k l
  end.

(** [key in table]. *)
Definition has_key {A} (k : string) (l : list (string * A)) : bool :=
  match assoc k l with Some _ => true | None => false end.

(** [table[key] = v]: in place, or at the end. *)
Fixpoint assoc_set {A} (k : string) (v : A) (l : list (string * A)) : list (string * A) :=
  match l with
  | [] => [(k, v)]
  | (k', v') :: l => if decide (k' = k) then (k', v) :: l else (k', v') :: assoc_set k v l
  end.

Definition assoc_del {A} (k : string) (l : list (string * A)) : list (string * A) :=
  filter (fun p => fst p <> k) l.

(** [isinstance(v, str)] and so on; [bool] is a subclass of [int]. *)
Definition as_str (v : tv) : option string := match v with TStr s => Some s | _ => None end.
Definition as_arr (v : tv) : option (list tv) := match v with TArr l => Some l | _ => None end.
Definition as_tab (v : tv) : option table := match v with TTab t => Some t | _ => None end.
Definition is_str (v : tv) : bool := match v with TStr _ => true | _ => false end.
Definition is_bool (v : tv) : bool := match v with TBool _ => true | _ => false end.
Definition as_int (v : tv) : option Z :=
  match v with TInt n => Some n | TBool b => Some (Z.b2z b) | _ => None end.

Definition truthy (v : tv) : bool :=
  match v with
  | TStr s => negb (String.eqb s "")
  | TInt n => negb (n =? 0)
  | TBool b => b
  | TOther _ _ _ b => b
  | TArr l => match l with [] => false | _ => true end
  | TTab t => match t with [] => false | _ => true end
  end.

Definition type_name (v : tv) : string :=
  match v with
  | TStr _ => "str" | TInt _ => "int" | TBool _ => "bool" | TOther n _ _ _ => n
  | TArr _ => "list" | TTab _ => "dict"
  end.

(** ** [repr] and [str] *)

Definition hexd (n : Z) : ascii := ascii_of_N (Z.to_N (if n <? 10 then 48 + n else 87 + n)).

Definition is_printable (c : ascii) : bool :=
  in_range 32 126 c || (in_range 161 255 c && negb (code c =? 173)).

Definition repr_char (q c : ascii) : string :=
  if Ascii.eqb c q || Ascii.eqb c "092" then String "092" (chr c)
  else if Ascii.eqb c LF then "\n" else if Ascii.eqb c CR then "\r"
  else if Ascii.eqb c "009" then "\t"
  else if is_printable c then chr c
  else String "092" (String "x" (String (hexd (code c / 16)) (chr (hexd (code c mod 16))))).

(** Single quotes, unless the string has one and no double quote. *)
Definition repr_str (s : string) : string :=
  let q := if has_char "'" s && negb (has_char DQUOTE s) then DQUOTE else "'"%char in
  chr q +:+ map_chars (repr_char q) s +:+ chr q.

Fixpoint py_repr (v : tv) : string :=
  match v with
  | TStr s => repr_str s
  | TInt n => str_Z n
  | TBool b => if b then "True" else "False"
  | TOther _ _ r _ => r
  | TArr l => "[" +:+ join ", " (map py_repr l) +:+ "]"
  | TTab t => "{" +:+ join ", " (map (fun '(k, v) => repr_str k +:+ ": " +:+ py_repr v) t) +:+ "}"
  end.

(** [str(v)]. *)
Definition py_str (v : tv) : string :=
  match v with
  | TStr s => s
  | TOther _ s _ _ => s
  | _ => py_repr v
  end.

(** ** Access *)

(** [v.get(k)]: [None] for a missing key. *)
Definition get (v : tv) (k : string) : res (option tv) :=
  match v with TTab t => Ok (assoc k t) | _ => Raise AttributeError end.

(** [bool(t.get(k))]. *)
Definition truthy_at (t : table) (k : string) : bool :=
  match assoc k t with Some v => truthy v | None => false end.

(** [v.get(k, d)]. *)
Definition get_or (v : tv) (k : string) (d : tv) : res tv :=
  match v with
  | TTab t => Ok (match assoc k t with Some x => x | None => d end)
  | _ => Raise AttributeError
  end.

(** [v.items()]. *)
Definition items (v : tv) : res table :=
  match v with TTab t => Ok t | _ => Raise AttributeError end.

(** [for x in v]. *)
Definition iter (v : tv) : res (list tv) :=
  match v with
  | TArr l => Ok l
  | TTab t => Ok (map (fun p => TStr (fst p)) t)
  | TStr s => Ok (map (fun c => TStr (chr c)) (String.list_ascii_of_string s))
  | _ => Raise TypeError
  end.

(** [k in v]. *)
Definition contains_key (k : string) (v : tv) : res bool :=
  match v with
  | TTab t => Ok (has_key k t)
  | TArr l => Ok (existsb (fun x => match x with TStr s => String.eqb s k | _ => false end) l)
  | TStr s => Ok (contains k s)
  | _ => Raise TypeError
  end.

(** [v[k]] with a string index. *)
Definition index (v : tv) (k : string) : res tv :=
  match v with
  | TTab t => match assoc k t with Some x => Ok x | None => Raise KeyError end
  | _ => Raise TypeError
  end.

(** A value that can be a set's element. *)
Definition hashable (v : tv) : bool :=
  match v with TArr _ | TTab _ => false | _ => true end.

(** ** Lemmas *)

Lemma assoc_In {A} k (v : A) l : assoc k l = Some v -> (k, v) ∈ l.
Proof.
  induction l as [|[k' v'] l IH]; cbn; [done|]. case_decide as Hk.
  - subst. intros [= ->]. apply list_elem_of_here.
  - intros H. apply list_elem_of_further. auto.
Qed.

Lemma assoc_set_same {A} k (v : A) l : assoc k (assoc_set k v l) = Some v.
Proof.
  induction l as [|[k' v'] l IH]; cbn; [by rewrite decide_True|].
  case_decide as Hk; cbn; [by rewrite decide_True|by rewrite decide_False].
Qed.

Lemma assoc_set_other {A} k k' (v : A) l : k <> k' -> assoc k' (assoc_set k v l) = assoc k' l.
Proof.
  intros Hne. induction l as [|[j v'] l IH]; cbn; [by rewrite decide_False|].
  case_decide as Hk; cbn; [subst; by rewrite !decide_False|]. case_decide; [done|apply IH].
Qed.

Lemma assoc_del_same {A} k (l : list (string * A)) : assoc k (assoc_del k l) = None.
Proof.
  unfold assoc_del. induction l as [|[j v'] l IH]; [done|]. rewrite filter_cons.
  case_decide as Hk; [cbn in *; by rewrite decide_False|done].
Qed.

Lemma assoc_del_other {A} k k' (l : list (string * A)) : k <> k' -> assoc k' (assoc_del k l) = assoc k' l.
Proof.
  intros Hne. unfold assoc_del. induction l as [|[j v'] l IH]; [done|]. rewrite filter_cons.
  case_decide as Hk; cbn in *; [by rewrite IH|]. rewrite IH, decide_False; [done|].
  intros ->. congruence.
Qed.

#[export] Hint Resolve assoc_In : pystr.
