(* ===== verification/WorkloadNames.v ===== *)
(** * Names, paths and quoting: [lib/workload_lib.py]

    The strings every other component derives from a workload's name and volume
    list: user, service and container names, the workload's directories, virtiofs
    tags, mount-unit names, SELinux module names, anchored volume paths,
    [${WORKLOAD_*}] tokens and the quoting of unit-file values.  Each encoder
    is proved against the decoder of the program that reads its output (the
    kernel's mountinfo escapes, systemd's unit-name and command-line syntax). *)
From S2P Require Import Prelude PyStr PyPath PyRe Toml.
Local Open Scope Z_scope.

Definition BSLASH : ascii := "092"%char.

(** ** /proc/self/mountinfo *)

Definition is_octal (c : ascii) : bool := in_range 48 55 c.

(** [int(text, 8)] of three characters [isdigit] accepted. *)
Definition int8 (a b c : ascii) : res Z :=
  if is_octal a && is_octal b && is_octal c
  then Ok (64 * (code a - 48) + 8 * (code b - 48) + (code c - 48))
  else Raise ValueError.

(** The result is a sequence of code points: three octal digits reach 511. *)
Fixpoint unescape_mountinfo (text : string) : res (list Z) :=
  match text with
  | EmptyString => Ok []
  | String c rest =>
      let plain := r ← unescape_mountinfo rest; Ok (code c :: r) in
      match rest with
      | String d1 (String d2 (String d3 rest')) =>
          if Ascii.eqb c BSLASH && (is_pydigit d1 && is_pydigit d2 && is_pydigit d3)
          then x ← int8 d1 d2 d3; r ← unescape_mountinfo rest'; Ok (x :: r)
          else plain
      | _ => plain
      end
  end.

(** The kernel's [mangle_path]: these characters as a backslash and three octal
    digits. *)
Definition kernel_escapes (c : ascii) : bool :=
  Ascii.eqb c " " || Ascii.eqb c "009" || Ascii.eqb c LF || Ascii.eqb c BSLASH || Ascii.eqb c "#".

Definition octal_digit (n : Z) : ascii := ascii_of_N (Z.to_N (48 + n)).

Definition mangle_char (c : ascii) : string :=
  if kernel_escapes c
  then String BSLASH (String (octal_digit (code c / 64))
         (String (octal_digit (code c / 8 mod 8)) (chr (octal_digit (code c mod 8)))))
  else chr c.

Definition mangle_path (s : string) : string := map_chars mangle_char s.

(** ** Names *)

Definition USERNAME_PREFIX : string := "_wl-".
Definition MAX_NAME_LENGTH : nat := 27.

Definition is_name_char (c : ascii) : bool := is_lower c || is_dec c || Ascii.eqb c "-".

(** [NAME_PATTERN.match] and [CONTAINER_NAME_PATTERN.match]. *)
Definition name_pattern (s : string) : bool := match_anchored (re_head_star is_lower is_name_char) s.

Definition workload_username (name : string) : string := USERNAME_PREFIX +:+ name.
Definition workload_service_name (name : string) : string := "workload-" +:+ name +:+ ".service".
Definition workload_container_name (name : string) : string := "workload-" +:+ name.
Definition workload_podman_container_name (name container_name : string) (is_multi : bool) : string :=
  if is_multi then "workload-" +:+ name +:+ "-" +:+ container_name
  else workload_container_name name.

Definition WORKLOADS_BASE : string := "/var/lib/workloads".
Definition workload_root_dir (name : string) : pypath := path_div (path_of WORKLOADS_BASE) name.
Definition runtime_dir (name : string) : string := "/run/workload-vm/" +:+ name.
Definition STATE_SUBDIR : string := "state".
Definition DATA_SUBDIR : string := "data".
Definition workload_state_dir (name : string) : pypath := path_div (workload_root_dir name) STATE_SUBDIR.
Definition workload_data_dir (name : string) : pypath := path_div (workload_root_dir name) DATA_SUBDIR.
Definition workload_home_dir (name : string) : pypath := workload_state_dir name.

Definition selinux_module_name (name : string) : string := "wl_" +:+ replace_char "-" "_" name.
Definition selinux_type_name (name : string) : string := selinux_module_name name +:+ ".process".

(** ** Volumes *)

(** [parse_volume_spec]: host, guest, options. *)
Definition parse_volume_spec (vol_spec : string) : string * string * string :=
  match split_max ":" 2 vol_spec with
  | [h] => (h, h, "rw")
  | [h; g] => (h, g, "rw")
  | h :: g :: o :: _ => (h, g, o)
  | [] => (vol_spec, vol_spec, "rw")
  end.

Definition safe_anchor_subpath (sub : string) : res string :=
  if starts_with "/" sub || bool_decide (".." ∈ parts_of sub) then Raise ValueError else Ok sub.

Definition strip_prefix (p s : string) : option string :=
  if starts_with p s then Some (str_drop (String.length p) s) else None.

Definition data_root (home_dir : string) : string :=
  path_str (path_div (path_parent (path_of home_dir)) DATA_SUBDIR).
Definition state_vol_root (home_dir : string) : string := home_dir +:+ "/volumes".

(** The anchors, in the order they are tried. *)
Definition anchors (home_dir : string) : list (string * string) :=
  [("./", data_root home_dir); ("@/", state_vol_root home_dir);
   ("data/", data_root home_dir); ("state/", state_vol_root home_dir)].

Fixpoint try_anchors (host : string) (l : list (string * string)) : option (res string) :=
  match l with
  | [] => None
  | (prefix, root) :: l =>
      match strip_prefix prefix host with
      | Some sub => Some (sub ← safe_anchor_subpath sub;
                          Ok (if decide (sub = "") then root else root +:+ "/" +:+ sub))
      | None => try_anchors host l
      end
  end.

Definition expand_anchor (host home_dir : string) : res string :=
  match try_anchors host (anchors home_dir) with
  | Some r => r
  | None =>
      if decide (host = "data") then Ok (data_root home_dir)
      else if decide (host = "state") then Ok (state_vol_root home_dir)
      else Ok host
  end.

Fixpoint count_char (c : ascii) (s : string) : nat :=
  match s with
  | EmptyString => 0
  | String a s => (if Ascii.eqb a c then 1 else 0) + count_char c s
  end.

Definition expand_volume_path (vol_spec home_dir : string) : res string :=
  let '(host, guest, opts) := parse_volume_spec vol_spec in
  host ← expand_anchor host home_dir;
  Ok (match count_char ":" vol_spec with
      | O => host
      | 1%nat => host +:+ ":" +:+ guest
      | _ => host +:+ ":" +:+ guest +:+ ":" +:+ opts
      end).

(** ** virtiofs tags *)

(** [s[:n]]: a negative bound counts from the end. *)
Definition slice_to (n : Z) (s : string) : string :=
  str_take (if 0 <=? n then Z.to_nat n else String.length s - Z.to_nat (- n)) s.

Definition is_tag_char (c : ascii) : bool := is_alnum c || Ascii.eqb c "_" || Ascii.eqb c "-".

Definition virtiofs_tag (container_path : string) (index : Z) : string :=
  let tag := replace_char "/" "-" (lstrip_by (is_char "/") container_path) in
  let tag := if decide (tag = "") then "vol" +:+ str_Z index else tag in
  slice_to 36 (map_chars (fun c => if is_tag_char c then chr c else "-") tag).

Definition base_tags (volume_specs : list string) : list string :=
  imap (fun i v => virtiofs_tag (snd (fst (parse_volume_spec v))) (Z.of_nat i)) volume_specs.

Definition suffixed (t : string) (bump : Z) : string :=
  let suffix := "-" +:+ str_Z bump in
  slice_to (36 - Z.of_nat (String.length suffix)) t +:+ suffix.

(** The [while] loop; [None] when the fuel runs out. *)
Fixpoint free_tag (fuel : nat) (used : list string) (t : string) (dup : bool)
    (cand : string) (bump : Z) : option string :=
  if bool_decide (cand ∈ used) || (String.eqb cand t && dup) then
    match fuel with
    | O => None
    | S fuel => free_tag fuel used t dup (suffixed t bump) (bump + 1)
    end
  else Some cand.

Definition count_of (t : string) (l : list string) : nat := length (filter (fun x => x = t) l).

(** The [for] loop: [done] holds the tags assigned so far, which are also [used]. *)
Fixpoint assign_tags (base : list string) (i : Z) (todo done : list string) : option (list string) :=
  match todo with
  | [] => Some done
  | t :: todo =>
      match free_tag (length done + 2) done t (Nat.ltb 1 (count_of t base)) t i with
      | Some cand => assign_tags base (i + 1) todo (done ++ [cand])
      | None => None
      end
  end.

Definition virtiofs_tags (volume_specs : list string) : option (list string) :=
  let base := base_tags volume_specs in assign_tags base 0 base [].

(** ** systemd unit names of paths *)

Definition hex_digit (n : Z) : ascii :=
  ascii_of_N (Z.to_N (if n <? 10 then 48 + n else 87 + n)).

(** [\x{b:02x}]. *)
Definition hex_escape (b : Z) : string :=
  String BSLASH (String "x" (String (hex_digit (b / 16)) (chr (hex_digit (b mod 16))))).

(** [ch.encode("utf-8")] of a code point below 256. *)
Definition utf8 (c : ascii) : list Z :=
  if code c <? 128 then [code c] else [192 + code c / 64; 128 + code c mod 64].

Definition escape_char (first : bool) (c : ascii) : string :=
  if Ascii.eqb c "/" then "-"
  else if (is_alnum c || Ascii.eqb c ":" || Ascii.eqb c "_" || Ascii.eqb c ".")
          && negb (first && Ascii.eqb c ".") then chr c
  else foldr String.append "" (map hex_escape (utf8 c)).

Definition systemd_escape_path (path : string) : string :=
  match strip_by (is_char "/") path with
  | EmptyString => "-"
  | String c s => escape_char true c +:+ map_chars (escape_char false) s
  end.

(** ** Tokens in volume paths *)

Definition workload_tokens (config_dir name : string) : list (string * string) :=
  [("WORKLOAD_NAME", name);
   ("WORKLOAD_INSTANCE_DIR", path_str (path_div (path_of config_dir) name));
   ("WORKLOAD_ROOT_DIR", path_str (workload_root_dir name));
   ("WORKLOAD_STATE_DIR", path_str (workload_state_dir name));
   ("WORKLOAD_DATA_DIR", path_str (workload_data_dir name))].

Definition is_token_char (c : ascii) : bool := is_upper c || Ascii.eqb c "_".

(** [WORKLOAD_TOKEN_PATTERN]. *)
Definition token_matcher (_ : option ascii) (s : string) : option (string * nat) :=
  match match_ref "${WORKLOAD_" is_token_char s with
  | Some k => Some ("WORKLOAD_" +:+ k, ref_len "${WORKLOAD_" k)
  | None => None
  end.

Definition token_value (config_dir name key : string) : res string :=
  match assoc key (workload_tokens config_dir name) with
  | Some v => Ok v
  | None => Raise ValueError
  end.

Definition expand_workload_tokens (config_dir value name : string) : res string :=
  render_tokens (token_value config_dir name) (re_tokens token_matcher None O value).

(** ** Quoting *)

Definition quote_with (body : string) : string := chr DQUOTE +:+ body +:+ chr DQUOTE.

Definition esc_bslash (s : string) : string := replace_char BSLASH (String BSLASH (chr BSLASH)) s.
Definition esc_dquote (s : string) : string := replace_char DQUOTE (String BSLASH (chr DQUOTE)) s.

Definition dq (s : string) : string :=
  quote_with (replace_char "%" "%%" (replace_char "$" "$$" (esc_dquote (esc_bslash s)))).

Definition uq (s : string) : string :=
  quote_with (replace_char "%" "%%" (esc_dquote (esc_bslash s))).

(** ** Mountinfo: the unescape is the inverse of the kernel's escape *)

Definition code_points (s : string) : list Z := map code (String.list_ascii_of_string s).

Lemma unescape_plain c rest :
  Ascii.eqb c BSLASH = false ->
  unescape_mountinfo (String c rest) = (r ← unescape_mountinfo rest; Ok (code c :: r)).
Proof.
  intros Hc. destruct rest as [|d1 [|d2 [|d3 rest']]]; try reflexivity.
  change (unescape_mountinfo (String c (String d1 (String d2 (String d3 rest')))))
    with (if Ascii.eqb c BSLASH && (is_pydigit d1 && is_pydigit d2 && is_pydigit d3)
          then x ← int8 d1 d2 d3; r ← unescape_mountinfo rest'; Ok (x :: r)
          else r ← unescape_mountinfo (String d1 (String d2 (String d3 rest'))); Ok (code c :: r)).
  by rewrite Hc.
Qed.

Lemma kernel_escapes_inv c :
  kernel_escapes c = true ->
  c = " "%char \/ c = "009"%char \/ c = LF \/ c = BSLASH \/ c = "#"%char.
Proof.
  unfold kernel_escapes. rewrite !orb_true_iff, !Ascii.eqb_eq. tauto.
Qed.

Lemma unescape_mangled c t :
  unescape_mountinfo (mangle_char c +:+ t) = (r ← unescape_mountinfo t; Ok (code c :: r)).
Proof.
  unfold mangle_char. destruct (kernel_escapes c) eqn:E.
  - apply kernel_escapes_inv in E as [->|[->|[->|[->| ->]]]]; reflexivity.
  - apply unescape_plain. unfold kernel_escapes in E. rewrite !orb_false_iff in E. tauto.
Qed.

(** Reading a mount point back from mountinfo gives the path the kernel
    escaped, whatever characters it holds. *)
Theorem mountinfo_roundtrip s : unescape_mountinfo (mangle_path s) = Ok (code_points s).
Proof.
  induction s as [|c s IH]; [done|]. unfold mangle_path in *. cbn [map_chars].
  rewrite unescape_mangled, IH. done.
Qed.

(** ** Quoting: systemd reads the literal back *)

(** What systemd documents of reading a setting whose value begins with a double-quoted
    word: the line feed ends the line, whatever is quoted; the word is read with its
    escapes, of which the backslash and the quote are modelled here, and is followed by a
    blank or by the end of the line; then specifiers are expanded, and in an Exec line,
    when it is run, variables.  [None] is anything else. *)
Definition first_line (s : string) : string := match cut LF s with Some (l, _) => l | None => s end.

(** A blank, or the end of the line. *)
Definition word_ends (s : string) : bool :=
  match s with EmptyString => true | String c _ => Ascii.eqb c " " || Ascii.eqb c "009" end.

(** The rest of a double-quoted word, and what follows it. *)
Fixpoint quoted_body (s : string) : option (string * string) :=
  match s with
  | EmptyString => None
  | String c r =>
      if Ascii.eqb c DQUOTE then if word_ends r then Some (EmptyString, r) else None
      else if Ascii.eqb c BSLASH then
        match r with
        | String d r' => if Ascii.eqb d BSLASH || Ascii.eqb d DQUOTE
                         then prod_map (String d) id <$> quoted_body r' else None
        | EmptyString => None
        end
      else prod_map (String c) id <$> quoted_body r
  end.

Definition quoted_word (s : string) : option (string * string) :=
  match s with
  | String c r => if Ascii.eqb c DQUOTE then quoted_body r else None
  | EmptyString => None
  end.

(** "%%" is a percent sign; any other use of one is a specifier. *)
Fixpoint expand_specifiers (s : string) : option string :=
  match s with
  | EmptyString => Some EmptyString
  | String c r =>
      if Ascii.eqb c "%" then
        match r with
        | String d r' => if Ascii.eqb d "%" then String "%" <$> expand_specifiers r' else None
        | EmptyString => None
        end
      else String c <$> expand_specifiers r
  end.

(** "$$" is a dollar sign. *)
Fixpoint expand_dollars (s : string) : option string :=
  match s with
  | EmptyString => Some EmptyString
  | String c r =>
      if Ascii.eqb c "$" then
        match r with
        | String d r' => if Ascii.eqb d "$" then String "$" <$> expand_dollars r' else None
        | EmptyString => None
        end
      else String c <$> expand_dollars r
  end.

(** The first word of a value, and what follows it on its line. *)
Definition setting_word (text : string) : option (string * string) :=
  '(w, rest) ← quoted_word (first_line text); w ← expand_specifiers w; Some (w, rest).

Definition exec_word (text : string) : option (string * string) :=
  '(w, rest) ← setting_word text; w ← expand_dollars w; Some (w, rest).

Lemma replace_char_cons a r c s :
  replace_char a r (String c s) = (if Ascii.eqb c a then r else chr c) +:+ replace_char a r s.
Proof. reflexivity. Qed.

Lemma replace_char_app a r s t : replace_char a r (s +:+ t) = replace_char a r s +:+ replace_char a r t.
Proof. apply map_chars_app. Qed.

Lemma expand_specifiers_doubled s : expand_specifiers (replace_char "%" "%%" s) = Some s.
Proof.
  induction s as [|c s IH]; [done|]. rewrite replace_char_cons.
  destruct (Ascii.eqb_spec c "%") as [->|Hc].
  - change ("%%" +:+ replace_char "%" "%%" s) with (String "%" (String "%" (replace_char "%" "%%" s))).
    cbn [expand_specifiers]. by rewrite !Ascii.eqb_refl, IH.
  - apply Ascii.eqb_neq in Hc. change (chr c +:+ ?x) with (String c x).
    cbn [expand_specifiers]. by rewrite Hc, IH.
Qed.

Lemma expand_dollars_doubled s : expand_dollars (replace_char "$" "$$" s) = Some s.
Proof.
  induction s as [|c s IH]; [done|]. rewrite replace_char_cons.
  destruct (Ascii.eqb_spec c "$") as [->|Hc].
  - change ("$$" +:+ replace_char "$" "$$" s) with (String "$" (String "$" (replace_char "$" "$$" s))).
    cbn [expand_dollars]. by rewrite !Ascii.eqb_refl, IH.
  - apply Ascii.eqb_neq in Hc. change (chr c +:+ ?x) with (String c x).
    cbn [expand_dollars]. by rewrite Hc, IH.
Qed.

(** The two escapes of the quotes. *)
Definition escaped (s : string) : string := esc_dquote (esc_bslash s).

Lemma escaped_cons c s :
  escaped (String c s) =
  (if Ascii.eqb c BSLASH then String BSLASH (chr BSLASH)
   else if Ascii.eqb c DQUOTE then String BSLASH (chr DQUOTE) else chr c) +:+ escaped s.
Proof.
  unfold escaped, esc_bslash, esc_dquote. rewrite replace_char_cons.
  destruct (Ascii.eqb_spec c BSLASH) as [->|Hc]; [done|]. change (chr c +:+ ?x) with (String c x).
  by rewrite replace_char_cons.
Qed.

Lemma escaped_app s t : escaped (s +:+ t) = escaped s +:+ escaped t.
Proof. unfold escaped, esc_bslash, esc_dquote. by rewrite !replace_char_app. Qed.

Lemma escaped_lf s : has_char LF (escaped s) = has_char LF s.
Proof.
  induction s as [|c s IH]; [done|]. rewrite escaped_cons, has_char_app, IH.
  change (String c s) with (chr c +:+ s). rewrite has_char_app. f_equal.
  destruct (Ascii.eqb_spec c BSLASH) as [->|Hb]; [done|]. by destruct (Ascii.eqb_spec c DQUOTE) as [->|Hq].
Qed.

(** Doubling a character that is neither escaped nor a line feed. *)
Definition doubled_plain (a : ascii) : Prop := a = "%"%char \/ a = "$"%char.

Lemma doubled_lf a s : doubled_plain a -> has_char LF (replace_char a (String a (chr a)) s) = has_char LF s.
Proof.
  intros Ha. induction s as [|c s IH]; [done|]. rewrite replace_char_cons, has_char_app, IH.
  change (String c s) with (chr c +:+ s). rewrite has_char_app. f_equal.
  destruct (Ascii.eqb_spec c a) as [->|Hc]; [|done]. by destruct Ha as [-> | ->].
Qed.

Lemma doubled_escaped a s : doubled_plain a -> replace_char a (String a (chr a)) (escaped s) = escaped (replace_char a (String a (chr a)) s).
Proof.
  intros Ha. induction s as [|c s IH]; [done|]. rewrite escaped_cons, replace_char_app, IH, replace_char_cons, escaped_app. f_equal.
  destruct (Ascii.eqb_spec c BSLASH) as [->|Hb]; [by destruct Ha as [-> | ->]|].
  destruct (Ascii.eqb_spec c DQUOTE) as [->|Hq]; [by destruct Ha as [-> | ->]|].
  unfold chr. rewrite replace_char_cons. change (replace_char a _ "") with "". rewrite app_nil_r_str.
  destruct (Ascii.eqb_spec c a) as [->|Hd]; [by destruct Ha as [-> | ->]|].
  unfold chr. rewrite escaped_cons. apply Ascii.eqb_neq in Hb, Hq. by rewrite Hb, Hq.
Qed.

Lemma quoted_body_escaped s tail : word_ends tail = true -> quoted_body (escaped s +:+ chr DQUOTE +:+ tail) = Some (s, tail).
Proof.
  intros Ht. induction s as [|c s IH]; [change (quoted_body (String DQUOTE tail) = Some (EmptyString, tail)); cbn [quoted_body]; by rewrite Ascii.eqb_refl, Ht|].
  rewrite escaped_cons, app_assoc_str. set (rest := escaped s +:+ _) in *.
  destruct (Ascii.eqb_spec c BSLASH) as [->|Hb].
  { change (quoted_body (String BSLASH (String BSLASH rest)) = Some (String BSLASH s, tail)). cbn [quoted_body]. by rewrite IH. }
  destruct (Ascii.eqb_spec c DQUOTE) as [->|Hq].
  { change (quoted_body (String BSLASH (String DQUOTE rest)) = Some (String DQUOTE s, tail)). cbn [quoted_body]. by rewrite IH. }
  change (quoted_body (String c rest) = Some (String c s, tail)).
  apply Ascii.eqb_neq in Hb, Hq. cbn [quoted_body]. by rewrite Hq, Hb, IH.
Qed.

(** Nothing in an escaped text closes the quote. *)
Lemma quoted_body_open s : quoted_body (escaped s) = None.
Proof.
  induction s as [|c s IH]; [done|]. rewrite escaped_cons.
  destruct (Ascii.eqb_spec c BSLASH) as [->|Hb].
  { change (quoted_body (String BSLASH (String BSLASH (escaped s))) = None). cbn [quoted_body]. by rewrite IH. }
  destruct (Ascii.eqb_spec c DQUOTE) as [->|Hq].
  { change (quoted_body (String BSLASH (String DQUOTE (escaped s))) = None). cbn [quoted_body]. by rewrite IH. }
  change (quoted_body (String c (escaped s)) = None). apply Ascii.eqb_neq in Hb, Hq. cbn [quoted_body]. by rewrite Hq, Hb, IH.
Qed.

Lemma quoted_word_escaped s tail rest :
  word_ends tail = true -> has_char LF tail = false ->
  quoted_word (first_line (quote_with (escaped s) +:+ tail +:+ chr LF +:+ rest)) = if has_char LF s then None else Some (s, tail).
Proof.
  intros He Hl. unfold quote_with, first_line. rewrite !app_assoc_str. destruct (has_char LF s) eqn:E.
  - destruct (cut LF s) as [[l r]|] eqn:Ec; [|apply cut_None in Ec; congruence]. apply cut_Some in Ec as [-> Hl'].
    rewrite escaped_app, app_assoc_str. change (escaped (String LF r)) with (String LF (escaped r)).
    assert (Hc : forall x, chr DQUOTE +:+ escaped l +:+ String LF (escaped r) +:+ x = (chr DQUOTE +:+ escaped l) +:+ String LF (escaped r +:+ x))
      by (intros x; by rewrite app_assoc_str).
    rewrite Hc, cut_app by (by rewrite has_char_app, escaped_lf, Hl'). apply quoted_body_open.
  - assert (Hc : chr DQUOTE +:+ escaped s +:+ chr DQUOTE +:+ tail +:+ chr LF +:+ rest =
      (chr DQUOTE +:+ escaped s +:+ chr DQUOTE +:+ tail) +:+ String LF rest) by (by rewrite !app_assoc_str).
    rewrite Hc, cut_app by (by rewrite !has_char_app, escaped_lf, E, Hl). by apply quoted_body_escaped.
Qed.



(** ** Anchored volume paths stay under their root *)

Lemma safe_anchor_subpath_Ok sub s :
  safe_anchor_subpath sub = Ok s -> s = sub /\ starts_with "/" sub = false /\ ".." ∉ parts_of sub.
Proof.
  unfold safe_anchor_subpath. destruct (starts_with "/" sub); [done|]. cbn [orb].
  case_bool_decide; [done|]. by intros [= <-].
Qed.

(** The four prefixes exclude each other. *)
Lemma try_anchors_prefix home prefix root sub :
  (prefix, root) ∈ anchors home ->
  try_anchors (prefix +:+ sub) (anchors home) =
  Some (s ← safe_anchor_subpath sub; Ok (if decide (s = "") then root else root +:+ "/" +:+ s)).
Proof.
  unfold anchors. intros H. apply list_elem_of_In in H.
  destruct H as [H|[H|[H|[H|[]]]]]; injection H as <- <-; reflexivity.
Qed.

(** A volume path with an anchor ("./", "@/", "data/", "state/") expands
    to its root or to a path below it: the parts after the root's are those of
    the rest of the path, and none of them is "..".  It is refused exactly when
    the rest is absolute or has a ".." part. *)
Theorem anchored_path_contained home prefix root sub :
  (prefix, root) ∈ anchors home ->
  (expand_anchor (prefix +:+ sub) home = Raise ValueError
   <-> starts_with "/" sub = true \/ ".." ∈ parts_of sub)
  /\ forall p, expand_anchor (prefix +:+ sub) home = Ok p ->
       parts_of p = parts_of root ++ parts_of sub /\ ".." ∉ parts_of sub.
Proof.
  intros H. unfold expand_anchor. rewrite (try_anchors_prefix _ _ _ _ H). split.
  - unfold safe_anchor_subpath. destruct (starts_with "/" sub); cbn [orb]; [naive_solver|].
    case_bool_decide; cbn; naive_solver.
  - intros p Hp. apply bind_Ok_inv in Hp as (s & Hs & Hp). injection Hp as <-.
    apply safe_anchor_subpath_Ok in Hs as (-> & _ & Hd). split; [|done].
    case_decide as He; [subst; by rewrite app_nil_r|]. apply parts_of_slash.
Qed.

Lemma anchored_path_contained_witness :
  parts_of "/var/lib/workloads/web/data/a/b" = parts_of "/var/lib/workloads/web/data" ++ ["a"; "b"].
Proof.
  apply (anchored_path_contained "/var/lib/workloads/web/state" "./" "/var/lib/workloads/web/data" "a/b");
    [apply list_elem_of_In; by left | reflexivity].
Defined.

(** ** Tokens *)

Lemma token_matcher_dollar prev t :
  token_matcher prev t <> None -> exists t', t = String "$" t'.
Proof.
  unfold token_matcher. destruct (match_ref _ _ t) as [k|] eqn:E; [|done].
  apply match_ref_Some in E as (_ & _ & [u ->]). intros _. by eexists.
Qed.

(** Only the text after a position matters to this pattern, not what precedes it. *)
Lemma token_matcher_prev p q s n : re_tokens token_matcher p n s = re_tokens token_matcher q n s.
Proof. destruct s as [|c s]; [done|]. destruct n; reflexivity. Qed.

(** Expansion replaces each known token by its value and goes on after it,
    so that a value is never expanded again; the text between tokens is
    unchanged, and an unknown [WORKLOAD_] token raises [ValueError]. *)
Theorem expand_workload_tokens_spec dir name lit k rest :
  has_char "$" lit = false -> k <> "" -> all_chars is_token_char k = true ->
  expand_workload_tokens dir lit name = Ok lit /\
  expand_workload_tokens dir (lit +:+ "${WORKLOAD_" +:+ k +:+ "}" +:+ rest) name =
  match assoc ("WORKLOAD_" +:+ k) (workload_tokens dir name) with
  | Some v => r ← expand_workload_tokens dir rest name; Ok (lit +:+ v +:+ r)
  | None => Raise ValueError
  end.
Proof.
  intros Hl Hk Hc. unfold expand_workload_tokens. split.
  { apply render_tokens_lit; [apply token_matcher_dollar|done]. }
  rewrite render_skip_lit by (apply token_matcher_dollar || done). set (f := token_value dir name).
  assert (Hm : forall p, token_matcher p ("${WORKLOAD_" +:+ k +:+ "}" +:+ rest)
                         = Some ("WORKLOAD_" +:+ k, ref_len "${WORKLOAD_" k)).
  { intros p. unfold token_matcher. change ("}" +:+ rest) with (String "}" rest).
    by rewrite match_ref_app. }
  change ("${WORKLOAD_" +:+ k +:+ "}" +:+ rest)
    with (String "$" ("{WORKLOAD_" +:+ k +:+ "}" +:+ rest)) in *.
  cbn [re_tokens]. rewrite Hm. cbn [render_tokens].
  change (f ("WORKLOAD_" +:+ k)) with (token_value dir name ("WORKLOAD_" +:+ k)). unfold token_value.
  destruct (assoc ("WORKLOAD_" +:+ k) (workload_tokens dir name)) as [v|]; [|done].
  assert (Hlen : ref_len "${WORKLOAD_" k = String.length ("{WORKLOAD_" +:+ k +:+ "}")).
  { unfold ref_len. rewrite !length_app_str. cbn. lia. }
  rewrite Hlen. rewrite <- !app_assoc_str, re_tokens_skip.
  rewrite (token_matcher_prev _ None). cbn [mbind res_bind].
  by destruct (render_tokens f _).
Qed.

Lemma expand_workload_tokens_spec_witness :
  expand_workload_tokens "/etc/workloads.d" "a:${WORKLOAD_NAME}/b" "web" = Ok "a:web/b".
Proof.
  exact (proj2 (expand_workload_tokens_spec "/etc/workloads.d" "web" "a:" "NAME" "/b"
                  eq_refl ltac:(discriminate) eq_refl)).
Defined.

(** ** Names *)

Lemma replace_char_inj a r s t :
  has_char r s = false -> has_char r t = false ->
  replace_char a (chr r) s = replace_char a (chr r) t -> s = t.
Proof.
  revert t. unfold has_char, replace_char.
  induction s as [|c s IH]; intros [|d t]; cbn [map_chars any_char]; [done|..].
  - intros _ _. by destruct (Ascii.eqb d a).
  - intros _ _. by destruct (Ascii.eqb c a).
  - intros [Hc Hs]%orb_false_elim [Hd Ht]%orb_false_elim H.
    unfold is_char in Hc, Hd. apply Ascii.eqb_neq in Hc, Hd.
    destruct (Ascii.eqb_spec c a), (Ascii.eqb_spec d a); cbn in H; simplify_eq; f_equal; auto.
Qed.

Lemma name_no_underscore s : all_chars is_name_char s = true -> has_char "_" s = false.
Proof. by apply all_chars_no_char. Qed.

(** Distinct workload names give distinct SELinux modules, distinct users
    and distinct services, and a name within the length limit gives a user name
    of at most 31 characters, the kernel's limit. *)
Theorem names_injective n m :
  all_chars is_name_char n = true -> all_chars is_name_char m = true ->
  (selinux_module_name n = selinux_module_name m -> n = m)
  /\ (workload_username n = workload_username m -> n = m)
  /\ (workload_service_name n = workload_service_name m -> n = m)
  /\ ((String.length n <= MAX_NAME_LENGTH)%nat -> (String.length (workload_username n) <= 31)%nat).
Proof.
  intros Hn Hm. apply name_no_underscore in Hn, Hm. repeat split.
  - intros H%app_inj_l_str. by apply replace_char_inj in H.
  - apply app_inj_l_str.
  - unfold workload_service_name. intros H%app_inj_l_str. by apply app_inj_r_str in H.
  - unfold workload_username. rewrite length_app_str. cbn. unfold MAX_NAME_LENGTH. lia.
Qed.

Lemma names_injective_witness : (String.length (workload_username "web-1") <= 31)%nat.
Proof.
  apply (names_injective "web-1" "db"); [reflexivity | reflexivity | vm_compute; lia].
Defined.

(** ** Mount unit names *)

Definition hex_val (c : ascii) : option Z :=
  if is_dec c then Some (code c - 48)
  else if in_range 97 102 c then Some (code c - 87) else None.

(** systemd's [unit_name_path_unescape], giving bytes. *)
Fixpoint unit_name_unescape (s : string) : option (list Z) :=
  match s with
  | EmptyString => Some []
  | String c r =>
      if Ascii.eqb c "-" then cons 47 <$> unit_name_unescape r
      else if Ascii.eqb c BSLASH then
        match r with
        | String x (String h (String l r')) =>
            if Ascii.eqb x "x" then
              hv ← hex_val h; lv ← hex_val l; cons (16 * hv + lv) <$> unit_name_unescape r'
            else None
        | _ => None
        end
      else cons (code c) <$> unit_name_unescape r
  end.

Definition unit_name_path_unescape (s : string) : option (list Z) :=
  if String.eqb s "-" then Some [] else unit_name_unescape s.

Definition utf8_bytes (s : string) : list Z := concat (map utf8 (String.list_ascii_of_string s)).

Definition byte_ok (n : nat) : bool :=
  let b := Z.of_nat n in
  bool_decide (hex_val (hex_digit (b / 16)) = Some (b / 16))
  && bool_decide (hex_val (hex_digit (b mod 16)) = Some (b mod 16)).

Lemma byte_ok_all b : 0 <= b < 256 ->
  hex_val (hex_digit (b / 16)) = Some (b / 16) /\ hex_val (hex_digit (b mod 16)) = Some (b mod 16).
Proof.
  intros Hb. assert (H : forallb byte_ok (seq 0 256) = true) by (vm_compute; reflexivity).
  rewrite forallb_forall in H. specialize (H (Z.to_nat b)).
  unfold byte_ok in H. rewrite Z2Nat.id in H by lia.
  assert (Hin : In (Z.to_nat b) (seq 0 256)) by (apply in_seq; lia).
  apply H, andb_prop in Hin as [H1 H2]. by rewrite !bool_decide_eq_true in *.
Qed.

Lemma unescape_hex b t : 0 <= b < 256 ->
  unit_name_unescape (hex_escape b +:+ t) = cons b <$> unit_name_unescape t.
Proof.
  intros Hb. destruct (byte_ok_all b Hb) as [H1 H2]. unfold hex_escape.
  change (String BSLASH ?x +:+ t) with (String BSLASH (x +:+ t)). cbn [String.append unit_name_unescape].
  change (Ascii.eqb BSLASH "-") with false. rewrite !Ascii.eqb_refl. cbn iota.
  cbn [String.append chr]. rewrite H1, H2. cbn [mbind option_bind]. f_equal.
  assert (16 * (b / 16) + b mod 16 = b) as -> by (pose proof (Z.div_mod b 16); lia). done.
Qed.

Lemma utf8_range c : Forall (fun b => 0 <= b < 256) (utf8 c).
Proof.
  pose proof (code_bound c). unfold utf8. destruct (code c <? 128) eqn:E.
  - apply Z.ltb_lt in E. repeat constructor; lia.
  - apply Z.ltb_ge in E. repeat constructor; try lia.
    + pose proof (Z.div_pos (code c) 64). lia.
    + assert (code c / 64 < 4) by (apply Z.div_lt_upper_bound; lia). lia.
    + pose proof (Z.mod_pos_bound (code c) 64). lia.
    + pose proof (Z.mod_pos_bound (code c) 64). lia.
Qed.

Lemma unescape_bytes l t : Forall (fun b => 0 <= b < 256) l ->
  unit_name_unescape (foldr String.append "" (map hex_escape l) +:+ t) = app l <$> unit_name_unescape t.
Proof.
  induction 1 as [|b l Hb Hl IH]; [cbn; by destruct (unit_name_unescape t)|].
  cbn [map foldr]. rewrite app_assoc_str, unescape_hex, IH by done.
  by destruct (unit_name_unescape t).
Qed.

Lemma unescape_char f c t :
  unit_name_unescape (escape_char f c +:+ t) = app (utf8 c) <$> unit_name_unescape t.
Proof.
  unfold escape_char. destruct (Ascii.eqb_spec c "/") as [->|Hs].
  { cbn. by destruct (unit_name_unescape t). }
  destruct (_ && _) eqn:E; [|apply unescape_bytes, utf8_range].
  apply andb_prop in E as [E _].
  assert (H : Ascii.eqb c "-" = false /\ Ascii.eqb c BSLASH = false /\ utf8 c = [code c]).
  { clear f t Hs. destruct c as [[] [] [] [] [] [] [] []]; vm_compute in E; try discriminate E; by vm_compute. }
  destruct H as (H1 & H2 & H3). rewrite H3. cbn. rewrite H1, H2. by destruct (unit_name_unescape t).
Qed.

Lemma unescape_map_chars s :
  unit_name_unescape (map_chars (escape_char false) s) = Some (utf8_bytes s).
Proof.
  induction s as [|c s IH]; [done|]. cbn [map_chars]. by rewrite unescape_char, IH.
Qed.

(** The escape of a character is empty or a lone "-" only for the separator. *)
Lemma escape_char_first c :
  Ascii.eqb c "/" = false ->
  exists d r, escape_char true c = String d r /\ Ascii.eqb d "-" = false /\ Ascii.eqb d "." = false.
Proof.
  intros H. unfold escape_char. rewrite H. destruct (_ && _) eqn:E.
  - exists c, "". split; [done|].
    destruct c as [[] [] [] [] [] [] [] []]; vm_compute in E; try discriminate E; by vm_compute.
  - unfold utf8. destruct (code c <? 128); cbn; eauto.
Qed.

Lemma strip_by_head p s c r : strip_by p s = String c r -> p c = false.
Proof.
  unfold strip_by. generalize (rstrip_by p s). clear s.
  induction s as [|a s IH]; cbn; [done|]. destruct (p a) eqn:E; [done|]. by intros [= <- <-].
Qed.

(** systemd recovers from the unit name exactly the path (its UTF-8 bytes,
    without the outer slashes), so two paths with one mount-unit name have the same
    bytes between these slashes, and the name never starts with a dot. *)
Theorem systemd_escape_path_decodes path :
  unit_name_path_unescape (systemd_escape_path path) = Some (utf8_bytes (strip_by (is_char "/") path))
  /\ starts_with "." (systemd_escape_path path) = false.
Proof.
  unfold systemd_escape_path. destruct (strip_by (is_char "/") path) as [|c s] eqn:E; [done|].
  apply strip_by_head in E. unfold is_char in E. rewrite Ascii.eqb_sym in E.
  destruct (escape_char_first c E) as (d & r & Hd & Hm & Hdot). split.
  - unfold unit_name_path_unescape.
    assert (String.eqb (escape_char true c +:+ map_chars (escape_char false) s) "-" = false) as ->.
    { rewrite Hd. change (String d r +:+ ?x) with (String d (r +:+ x)). cbn [String.eqb]. by rewrite Hm. }
    by rewrite unescape_char, unescape_map_chars.
  - rewrite Hd. change (String d r +:+ ?x) with (String d (r +:+ x)). cbn [starts_with].
    by rewrite Ascii.eqb_sym, Hdot.
Qed.

(** ** virtiofs tags *)

Lemma pretty_go_length k x s :
  (x < 10 ^ N.of_nat k)%N -> (String.length (pretty.pretty_N_go x s) <= k + String.length s)%nat.
Proof.
  revert x s. induction k as [|k IH]; intros x s Hx.
  - cbn in Hx. assert (x = 0%N) as -> by lia. by rewrite pretty.pretty_N_go_0.
  - destruct (decide (x = 0%N)) as [->|Hne]; [rewrite pretty.pretty_N_go_0; lia|].
    rewrite pretty.pretty_N_go_step by lia.
    etrans; [apply IH|cbn; lia].
    apply N.Div0.div_lt_upper_bound. rewrite Nat2N.inj_succ, N.pow_succ_r' in Hx. lia.
Qed.

Lemma length_str_Z k n : 0 <= n < 10 ^ Z.of_nat k -> (0 < k)%nat -> (String.length (str_Z n) <= k)%nat.
Proof.
  intros [H0 Hn] Hk. destruct (decide (n = 0)) as [->|]; [cbn; lia|].
  rewrite str_Z_pos_go by lia. pose proof (pretty_go_length k (Z.to_N n) "") as H. cbn in H.
  rewrite Nat.add_0_r in H. apply H. apply N2Z.inj_lt. rewrite Z2N.id, N2Z.inj_pow by lia.
  by rewrite nat_N_Z.
Qed.

Lemma length_slice n s : 0 <= n -> (String.length (slice_to n s) <= Z.to_nat n)%nat.
Proof.
  intros Hn. unfold slice_to. rewrite (proj2 (Z.leb_le 0 n) Hn), length_str_take. lia.
Qed.

Lemma all_chars_take p n s : all_chars p s = true -> all_chars p (str_take n s) = true.
Proof.
  revert n. induction s as [|c s IH]; intros [|n]; cbn; [done..|].
  intros [-> Hs]%andb_prop. cbn. auto.
Qed.

Definition tag_ok (s : string) : Prop := all_chars is_tag_char s = true /\ (String.length s <= 36)%nat.

Lemma virtiofs_tag_ok path i : tag_ok (virtiofs_tag path i).
Proof.
  unfold virtiofs_tag. set (tag := if decide _ then _ else _). split.
  - unfold slice_to. apply all_chars_take. clearbody tag. clear.
    induction tag as [|c s IH]; [done|]. cbn [map_chars]. rewrite all_chars_app, IH.
    destruct (is_tag_char c) eqn:E; cbn; by rewrite ?E.
  - by apply length_slice.
Qed.

Lemma suffixed_ok t b : tag_ok t -> 0 <= b < 10 ^ 20 -> tag_ok (suffixed t b).
Proof.
  intros [Hc Hl] Hb. pose proof (length_str_Z 20 b) as Hs. unfold suffixed. split.
  - rewrite all_chars_app. unfold slice_to. rewrite all_chars_take by done. cbn.
    apply (all_chars_impl is_dec); [|apply all_digits_str_Z; lia].
    intros c H. unfold is_tag_char, is_alnum. rewrite H. by rewrite orb_true_r.
  - rewrite length_app_str. change ("-" +:+ str_Z b) with (String "-" (str_Z b)).
    cbn [String.length]. pose proof (length_slice (36 - Z.of_nat (S (String.length (str_Z b)))) t). lia.
Qed.

Lemma split_on_last c a d :
  has_char c d = false -> last (split_on c (a +:+ String c d)) = Some d.
Proof.
  intros Hd. assert (H : split_on c (a +:+ String c d) = split_on c a ++ [d]).
  { rewrite <- (split_on_no_char c d Hd). clear Hd.
    induction a as [|x a IH]; [cbn [String.append split_on]; by rewrite Ascii.eqb_refl|].
    change (String x a +:+ String c d) with (String x (a +:+ String c d)).
    cbn [split_on]. destruct (Ascii.eqb x c); rewrite IH; [done|].
    destruct (split_on c a) eqn:E; [by apply split_on_nonempty in E|done]. }
  by rewrite H, last_snoc.
Qed.

(** Different numbers give different candidates. *)
Lemma suffixed_inj t b b' : 0 <= b -> 0 <= b' -> suffixed t b = suffixed t b' -> b = b'.
Proof.
  intros Hb Hb' H. unfold suffixed in H.
  assert (Hd : forall n, 0 <= n -> has_char "-" (str_Z n) = false).
  { intros n Hn. apply (all_chars_no_char is_dec); [done|]. by apply all_digits_str_Z. }
  apply (f_equal (fun s => last (split_on "-" s))) in H.
  change ("-" +:+ str_Z ?x) with (String "-" (str_Z x)) in H.
  rewrite !split_on_last in H by auto. by injection H as H%str_Z_inj.
Qed.

(** When the loop gives up it has tried that many candidates, all taken. *)
Lemma free_tag_None fuel used t dup cand bump :
  free_tag fuel used t dup cand bump = None ->
  forall k, (k < fuel)%nat -> suffixed t (bump + Z.of_nat k) ∈ t :: used.
Proof.
  revert cand bump. induction fuel as [|fuel IH]; intros cand bump; [lia|].
  cbn [free_tag]. destruct (_ || _); [|done]. intros H k Hk.
  destruct k as [|k]; [|replace (bump + Z.of_nat (S k)) with (bump + 1 + Z.of_nat k) by lia; eapply IH; eauto; lia].
  rewrite Z.add_0_r. destruct fuel as [|fuel]; cbn [free_tag] in H;
    destruct (bool_decide (suffixed t bump ∈ used) || _) eqn:E; try done;
    apply orb_prop in E as [E%bool_decide_eq_true|[E%String.eqb_eq _]%andb_prop]; set_solver.
Qed.

Lemma free_tag_total used t dup bump :
  0 <= bump -> exists c, free_tag (length used + 2) used t dup t bump = Some c.
Proof.
  intros Hb. destruct (free_tag _ _ _ _ _ _) eqn:E; [eauto|]. exfalso.
  pose proof (free_tag_None _ _ _ _ _ _ E) as H.
  set (cands := map (fun k => suffixed t (bump + Z.of_nat k)) (seq 0 (length used + 2))).
  assert (Hnd : NoDup cands).
  { apply NoDup_fmap_2_strong; [|apply NoDup_seq].
    intros x y _ _ Hxy%suffixed_inj; lia. }
  assert (Hsub : cands ⊆ t :: used).
  { intros c (k & -> & Hk)%list_elem_of_fmap. apply H. apply elem_of_seq in Hk. lia. }
  pose proof (submseteq_length _ _ (NoDup_submseteq _ _ Hnd Hsub)) as Hlen.
  unfold cands in Hlen. rewrite length_map, length_seq in Hlen. cbn in Hlen. lia.
Qed.

(** What the loop returns is free, and is the tag itself or one of the numbered
    candidates it tried. *)
Lemma free_tag_Some fuel used t dup cand bump c :
  free_tag fuel used t dup cand bump = Some c ->
  c ∉ used /\ (c = t -> dup = false) /\
  (c = cand \/ exists k, (k < fuel)%nat /\ c = suffixed t (bump + Z.of_nat k)).
Proof.
  revert cand bump. induction fuel as [|fuel IH]; intros cand bump; cbn [free_tag];
    destruct (bool_decide (cand ∈ used) || _) eqn:E; try done.
  - intros [= <-]. apply orb_false_elim in E as [E%bool_decide_eq_false E2].
    split; [done|]. split; [|by left]. intros ->. by rewrite String.eqb_refl in E2.
  - intros (H1 & H2 & H3)%IH. split; [done|]. split; [done|]. right.
    destruct H3 as [-> | (k & Hk & ->)].
    + exists O. split; [lia|]. by rewrite Z.add_0_r.
    + exists (S k). split; [lia|]. f_equal. lia.
  - intros [= <-]. apply orb_false_elim in E as [E%bool_decide_eq_false E2].
    split; [done|]. split; [|by left]. intros ->. by rewrite String.eqb_refl in E2.
Qed.

Lemma assign_tags_spec base i todo done :
  0 <= i -> i + Z.of_nat (length todo) + Z.of_nat (length done) + Z.of_nat (length todo) + 2 < 10 ^ 20 ->
  NoDup done -> Forall tag_ok todo -> Forall tag_ok done ->
  exists tags, assign_tags base i todo done = Some tags
    /\ NoDup tags /\ Forall tag_ok tags /\ length tags = (length done + length todo)%nat.
Proof.
  revert i done. induction todo as [|t todo IH]; intros i dn Hi Hlt Hnd Ht Hd.
  { exists dn. repeat split; try done; cbn; lia. }
  inversion Ht as [|? ? Ht1 Ht2]; subst. cbn [assign_tags length] in *.
  destruct (free_tag_total dn t (Nat.ltb 1 (count_of t base)) i Hi) as [c Hc]. rewrite Hc.
  apply free_tag_Some in Hc as (Hnot & _ & Hform).
  destruct (IH (i + 1) (dn ++ [c])) as (tags & -> & H1 & H2 & H3).
  - lia.
  - rewrite length_app. cbn. lia.
  - apply NoDup_app. repeat split; [done| |apply NoDup_singleton]. set_solver.
  - done.
  - apply Forall_app. split; [done|]. constructor; [|done].
    destruct Hform as [-> | (k & Hk & ->)]; [done|]. apply suffixed_ok; [done|lia].
  - exists tags. repeat split; try done. rewrite H3, length_app. cbn. lia.
Qed.

(** A tag no other volume shares is kept as it is. *)
Lemma assign_tags_distinct base todo i done :
  (forall t, t ∈ todo -> count_of t base = 1%nat) -> NoDup (done ++ todo) ->
  assign_tags base i todo done = Some (done ++ todo).
Proof.
  revert i done. induction todo as [|t todo IH]; intros i dn Hc Hnd; cbn [assign_tags];
    [by rewrite app_nil_r|].
  assert (free_tag (length dn + 2) dn t (Nat.ltb 1 (count_of t base)) t i = Some t) as ->.
  { rewrite Hc by set_solver. destruct (length dn + 2)%nat; cbn [free_tag];
      (rewrite bool_decide_eq_false_2; [by rewrite andb_false_r|]);
      apply NoDup_app in Hnd as (_ & Hnd & _); intros Hin; by apply (Hnd t Hin), list_elem_of_here. }
  rewrite IH; [by rewrite <- app_assoc| |by rewrite <- app_assoc].
  intros t' Ht'. apply Hc. set_solver.
Qed.

Lemma count_of_NoDup t l : NoDup l -> t ∈ l -> count_of t l = 1%nat.
Proof.
  unfold count_of. induction 1 as [|x l Hx Hl IH]; intros Hin; [by apply not_elem_of_nil in Hin|].
  rewrite filter_cons. destruct (decide (x = t)) as [->|Hne].
  - cbn. f_equal. destruct (filter (fun y => y = t) l) as [|y l'] eqn:E; [done|].
    assert (Hy : y ∈ filter (fun y => y = t) l) by (rewrite E; apply list_elem_of_here).
    apply list_elem_of_filter in Hy as [-> Hy]. done.
  - apply IH. set_solver.
Qed.

(** Every volume gets a tag of its own. *)
Lemma virtiofs_tags_spec volume_specs :
  Z.of_nat (length volume_specs) < 10 ^ 9 ->
  exists tags, virtiofs_tags volume_specs = Some tags
    /\ NoDup tags /\ length tags = length volume_specs
    /\ Forall (fun t => all_chars is_tag_char t = true /\ (String.length t <= 36)%nat) tags
    /\ (NoDup (base_tags volume_specs) -> tags = base_tags volume_specs).
Proof.
  intros Hn. unfold virtiofs_tags. set (base := base_tags volume_specs).
  assert (Hlen : length base = length volume_specs) by apply length_imap.
  destruct (assign_tags_spec base 0 base []) as (tags & Hs & H1 & H2 & H3).
  - lia.
  - cbn [length]. lia.
  - constructor.
  - apply Forall_lookup. intros k t Hk. unfold base, base_tags in Hk.
    rewrite list_lookup_imap in Hk. destruct (volume_specs !! k); [|done].
    cbn in Hk. injection Hk as <-. apply virtiofs_tag_ok.
  - constructor.
  - exists tags. cbn [length] in H3. repeat split; try done; [lia|].
    intros Hnd. rewrite assign_tags_distinct in Hs; [by injection Hs| |done].
    intros t Ht. by apply count_of_NoDup.
Qed.

(** C40.  Every volume of a VM gets a tag: the disambiguating loop ends, the
    tags are pairwise distinct and in the order of the volumes, each has at most
    36 characters of [A-Za-z0-9_-], and volumes whose natural tags are already
    distinct keep them. *)
Theorem virtiofs_tags_distinct volume_specs :
  Z.of_nat (length volume_specs) < 10 ^ 9 ->
  exists tags, virtiofs_tags volume_specs = Some tags
    /\ NoDup tags /\ length tags = length volume_specs
    /\ Forall (fun t => all_chars is_tag_char t = true /\ (String.length t <= 36)%nat) tags
    /\ (NoDup (base_tags volume_specs) -> tags = base_tags volume_specs).
Proof. apply virtiofs_tags_spec. Qed.

Lemma virtiofs_tags_distinct_witness :
  exists tags, virtiofs_tags ["./a:/srv/x"; "./b:/srv-x"; "./c:/srv-x-0"] = Some tags /\ NoDup tags.
Proof.
  destruct (virtiofs_tags_distinct ["./a:/srv/x"; "./b:/srv-x"; "./c:/srv-x-0"] ltac:(vm_compute; reflexivity))
    as (tags & H & Hnd & _). by exists tags.
Defined.
