(* ===== verification/WorkloadConfig.v ===== *)
(** * Reading a workload's TOML: [lib/config_parser.py] and the container
    normalisation of [lib/workload_lib.py]

    The mode and kind of a workload, the list of containers in its uniform shape,
    and the hostname-policy entries with the syntax check of their patterns. *)
From S2P Require Import Prelude PyStr Toml.
Local Open Scope Z_scope.

(** ** Case *)

(** [str.lower] and [str.upper] on Latin-1 (the two letters whose upper case
    lies outside it, micro sign and y with diaeresis, are left alone). *)
Definition shift_char (c : ascii) (d : Z) : ascii := ascii_of_N (Z.to_N (code c + d)).

Definition lower_char (c : ascii) : ascii :=
  if is_upper c || (in_range 192 222 c && negb (code c =? 215)) then shift_char c 32 else c.

Definition upper_char (c : ascii) : string :=
  if code c =? 223 then "SS"
  else if is_lower c || (in_range 224 254 c && negb (code c =? 247)) then chr (shift_char c (-32))
  else chr c.

Definition lower (s : string) : string := map_chars (fun c => chr (lower_char c)) s.
Definition upper (s : string) : string := map_chars upper_char s.

(** ** Kind and mode *)

Inductive kind := KVm | KContainer.
Inductive mode := MSingle | MPod | MBridge.

#[export] Instance kind_eq_dec : EqDecision kind.
Proof. solve_decision. Defined.
#[export] Instance mode_eq_dec : EqDecision mode.
Proof. solve_decision. Defined.

Definition infer_workload_kind (config : table) : kind :=
  if has_key "vm" config then KVm else KContainer.

(** [VALID_WORKLOAD_MODES]. *)
Definition mode_of (v : tv) : option mode :=
  match v with
  | TStr s => if String.eqb s "single" then Some MSingle
              else if String.eqb s "pod" then Some MPod
              else if String.eqb s "bridge" then Some MBridge else None
  | _ => None
  end.

Definition infer_workload_mode (config : table) : res mode :=
  w ← get_or (TTab config) "workload" (TTab []);
  m ← get w "mode";
  match m with
  | Some v => match mode_of v with Some m => Ok m | None => Raise ValueError end
  | None => Ok (if has_key "containers" config then MPod else MSingle)
  end.

(** ** Containers *)

(** [dict(v)], where [v] is a table.  What else [dict] accepts, an array of
    pairs, no valid configuration has here; it is refused like the rest. *)
Definition dict_of (v : tv) : res table :=
  match v with
  | TTab t => Ok t
  | TArr [] | TStr EmptyString => Ok []
  | TArr _ | TStr _ => Raise ValueError
  | _ => Raise TypeError
  end.

(** [list(v)]. *)
Definition list_of (v : tv) : res (list tv) := iter v.

Definition LIFTED_CONTAINER_KEYS : list string := ["environment"; "health"].

(** Move one key from the entry into its container table. *)
Definition lift_key (key : string) (nc : table * table) : table * table :=
  let '(normalized, container) := nc in
  match assoc key normalized with
  | Some v => (assoc_del key normalized, assoc_set key v container)
  | None => nc
  end.

Definition normalize_entry (entry : tv) : res table :=
  normalized ← dict_of entry;
  c ← get_or (TTab normalized) "container" (TTab []);
  container ← dict_of c;
  let '(normalized, container) :=
    foldl (fun nc key => lift_key key nc) (normalized, container) LIFTED_CONTAINER_KEYS in
  Ok (assoc_set "container" (TTab container) normalized).

Definition dict_at (config : table) (key : string) : res tv :=
  v ← get_or (TTab config) key (TTab []); t ← dict_of v; Ok (TTab t).

Definition normalize_containers (config : table) : res (list table) :=
  match assoc "containers" config with
  | Some cs => l ← iter cs; mapM_res normalize_entry l
  | None =>
      w ← index (TTab config) "workload"; name ← index w "name";
      container ← dict_at config "container";
      security ← dict_at config "security";
      st ← get_or (TTab config) "storage" (TTab []);
      vols ← get_or st "volumes" (TArr []); volumes ← list_of vols;
      devices ← dict_at config "devices";
      secrets ← dict_at config "secrets";
      resources ← dict_at config "resources";
      Ok [[("name", name); ("container", container); ("security", security);
           ("storage", TTab [("volumes", TArr volumes)]); ("devices", devices);
           ("secrets", secrets); ("resources", resources)]]
  end.

(** ** Hostname policy entries *)

Record policy_entry := mkPolicy {
  pe_host : string;
  pe_methods : option (list string);
  pe_paths : option (list string);
  pe_credential : option string }.

Definition normalise_policy_list (value : option tv) (up : bool) : option (list string) :=
  match value with
  | None => None
  | Some (TArr l) => Some (omap (fun item => match item with
                                             | TStr s => Some (if up then upper s else s)
                                             | _ => None
                                             end) l)
  | Some _ => Some []
  end.

(** A key whose value is a string that is not blank, stripped. *)
Definition stripped_str (item : table) (key : string) : option string :=
  match assoc key item with
  | Some (TStr s) => if String.eqb (strip s) "" then None else Some (strip s)
  | _ => None
  end.

Definition parse_policy_entry (item : tv) : option policy_entry :=
  match item with
  | TTab t =>
      match stripped_str t "host" with
      | Some host => Some (mkPolicy host (normalise_policy_list (assoc "methods" t) true)
                             (normalise_policy_list (assoc "paths" t) false)
                             (stripped_str t "credential"))
      | None => None
      end
  | _ => None
  end.

Definition parse_policy_entries (net : table) : list policy_entry :=
  match assoc "policy" net with
  | Some (TArr raw) => omap parse_policy_entry raw
  | _ => []
  end.

Definition is_host_pattern_char (c : ascii) : bool :=
  is_alnum c || Ascii.eqb c "*" || Ascii.eqb c "?" || Ascii.eqb c "." || Ascii.eqb c "["
  || Ascii.eqb c "]" || Ascii.eqb c "!" || Ascii.eqb c "_" || Ascii.eqb c "-".

(** What is wrong with a pattern; each is one message of the source. *)
Inductive host_pattern_error :=
  | HpNotString | HpEmpty | HpUrl | HpPath | HpPort | HpMatchesAll | HpShape.

#[export] Instance host_pattern_error_eq_dec : EqDecision host_pattern_error.
Proof. solve_decision. Defined.

Definition validate_host_pattern (pattern : tv) : list host_pattern_error :=
  match pattern with
  | TStr p =>
      let text := strip p in
      if String.eqb text "" then [HpEmpty]
      else if contains "://" text then [HpUrl]
      else if has_char "/" text then [HpPath]
      else if has_char ":" text then [HpPort]
      else if String.eqb text "*" then [HpMatchesAll]
      else if negb (match_anchored (re_plus is_host_pattern_char) text) then [HpShape]
      else []
  | _ => [HpNotString]
  end.

(** ** Properties *)

Lemma contains_has_char c s sub : contains (String c sub) s = true -> has_char c s = true.
Proof.
  induction s as [|a s IH]; [done|]. unfold has_char. cbn [contains any_char].
  intros [H|H]%orb_prop.
  - cbn [starts_with] in H. apply andb_prop in H as [H _]. unfold is_char. by rewrite H.
  - unfold has_char in IH. rewrite IH by done. apply orb_true_r.
Qed.

Lemma rstrip_by_last p s : rstrip_by p s <> EmptyString ->
  exists r c, rstrip_by p s = r +:+ chr c /\ p c = false.
Proof.
  induction s as [|a s IH]; cbn; [done|]. destruct (rstrip_by p s) as [|b t] eqn:E.
  - destruct (p a) eqn:Ea; [done|]. intros _. by exists "", a.
  - intros _. destruct IH as (r & c & Hr & Hc); [done|]. exists (String a r), c. by rewrite Hr.
Qed.

Lemma lstrip_suffix p s r c : p c = false -> s = r +:+ chr c -> exists r', lstrip_by p s = r' +:+ chr c.
Proof.
  intros Hc. revert r. induction s as [|a s IH]; intros r H; [by destruct r|]. cbn.
  destruct (p a) eqn:Ea.
  - destruct r as [|b r]; [injection H as -> ->; congruence|].
    injection H as <- H. eauto.
  - exists r. done.
Qed.

(** A stripped string does not end in a newline. *)
Lemma ends_with_char_app s c d : ends_with_char d (s +:+ chr c) = Ascii.eqb c d.
Proof.
  induction s as [|a s IH]; [done|]. cbn. rewrite IH. by destruct s.
Qed.

Lemma strip_no_final_lf s : ends_with_char LF (strip s) = false.
Proof.
  unfold strip, strip_by. destruct (decide (rstrip_by is_space s = EmptyString)) as [E|E]; [by rewrite E|].
  apply rstrip_by_last in E as (r & c & Hr & Hc).
  destruct (lstrip_suffix is_space _ r c Hc Hr) as [r' ->]. rewrite ends_with_char_app.
  destruct (Ascii.eqb_spec c LF) as [->|]; done.
Qed.

Lemma validate_host_pattern_iff v :
  validate_host_pattern v = []
  <-> exists p, v = TStr p /\ re_plus is_host_pattern_char (strip p) = true /\ strip p <> "*".
Proof.
  destruct v as [p| | | | |]; cbn [validate_host_pattern]; try naive_solver.
  set (t := strip p).
  assert (Hm : match_anchored (re_plus is_host_pattern_char) t = re_plus is_host_pattern_char t).
  { unfold match_anchored, t. by rewrite strip_no_final_lf, orb_false_r. }
  rewrite Hm. split.
  - destruct (String.eqb_spec t ""); [done|]. destruct (contains "://" t); [done|].
    destruct (has_char "/" t); [done|]. destruct (has_char ":" t); [done|].
    destruct (String.eqb_spec t "*"); [done|].
    destruct (re_plus is_host_pattern_char t) eqn:E; [|done]. intros _. by exists p.
  - intros (q & [= <-] & Hr & Hs). fold t in Hr, Hs. rewrite Hr.
    apply andb_prop in Hr as [Hne%negb_true_iff%bool_decide_eq_false Hall].
    rewrite (proj2 (String.eqb_neq _ _) Hne), (proj2 (String.eqb_neq _ _) Hs).
    rewrite !(fun c H => all_chars_no_char is_host_pattern_char c t H Hall) by done.
    destruct (contains "://" t) eqn:E; [|done].
    apply contains_has_char in E.
    by rewrite (all_chars_no_char is_host_pattern_char ":" t eq_refl Hall) in E.
Qed.

(** A policy pattern is accepted exactly when, stripped, it is a nonempty
    string over the characters of a hostname or an fnmatch pattern and is not
    the one that matches everything; otherwise there is exactly one error. *)
Theorem validate_host_pattern_spec v :
  (validate_host_pattern v = []
   <-> exists p, v = TStr p /\ re_plus is_host_pattern_char (strip p) = true /\ strip p <> "*")
  /\ (length (validate_host_pattern v) <= 1)%nat.
Proof.
  split; [apply validate_host_pattern_iff|].
  destruct v; cbn [validate_host_pattern]; repeat case_match; cbn; lia.
Qed.

Lemma lift_key_container key n c n' c' :
  lift_key key (n, c) = (n', c') ->
  assoc key n' = None /\
  assoc key c' = match assoc key n with Some v => Some v | None => assoc key c end /\
  (forall k, k <> key -> assoc k n' = assoc k n /\ assoc k c' = assoc k c).
Proof.
  unfold lift_key. destruct (assoc key n) as [v|] eqn:E; intros [= <- <-].
  - split; [apply assoc_del_same|]. split; [apply assoc_set_same|]. intros k Hk.
    split; [by apply assoc_del_other | by apply assoc_set_other].
  - done.
Qed.

(** In every container of a normalised multi-container workload
    [environment] and [health] are found in the container table and only there:
    a key written beside the table wins over one inside it, and every other key
    of the entry and of its container table is unchanged. *)
Theorem normalize_entry_spec entry t c k :
  entry = TTab t -> assoc "container" t = Some (TTab c) -> k <> "container" ->
  exists n c', normalize_entry entry = Ok n /\ assoc "container" n = Some (TTab c') /\
  (if bool_decide (k ∈ LIFTED_CONTAINER_KEYS)
   then assoc k n = None /\
        assoc k c' = match assoc k t with Some v => Some v | None => assoc k c end
   else assoc k n = assoc k t /\ assoc k c' = assoc k c).
Proof.
  intros -> Hc Hk. unfold normalize_entry. cbn [dict_of mbind res_bind get_or]. rewrite Hc.
  cbn [mbind res_bind dict_of].
  change (foldl _ _ _) with (lift_key "health" (lift_key "environment" (t, c))).
  destruct (lift_key "environment" (t, c)) as [n1 c1] eqn:E1.
  destruct (lift_key "health" (n1, c1)) as [n2 c2] eqn:E2.
  apply lift_key_container in E1 as (A1 & B1 & O1). apply lift_key_container in E2 as (A2 & B2 & O2).
  exists (assoc_set "container" (TTab c2) n2), c2. split; [reflexivity|]. split; [apply assoc_set_same|].
  rewrite assoc_set_other by done. unfold LIFTED_CONTAINER_KEYS. case_bool_decide as Hin.
  - apply list_elem_of_In in Hin as [<-|[<-|[]]].
    + destruct (O2 "environment") as [-> ->]; [discriminate|]. by rewrite A1, B1.
    + rewrite A2, B2. destruct (O1 "health") as [-> ->]; [discriminate|]. by split.
  - assert (k <> "environment" /\ k <> "health") as [H1 H2] by set_solver.
    destruct (O2 k H2) as [-> ->], (O1 k H1) as [-> ->]. done.
Qed.

Lemma normalize_entry_spec_witness :
  exists n c', normalize_entry (TTab [("name", TStr "a"); ("container", TTab [("image", TStr "i")]);
                                      ("environment", TTab [])]) = Ok n
  /\ assoc "container" n = Some (TTab c') /\ assoc "environment" c' = Some (TTab []).
Proof.
  destruct (normalize_entry_spec
    (TTab [("name", TStr "a"); ("container", TTab [("image", TStr "i")]); ("environment", TTab [])])
    [("name", TStr "a"); ("container", TTab [("image", TStr "i")]); ("environment", TTab [])]
    [("image", TStr "i")] "environment" eq_refl eq_refl ltac:(discriminate)) as (n & c' & H1 & H2 & H3).
  exists n, c'. split; [exact H1|]. split; [exact H2|]. exact (proj2 H3).
Defined.
