(* ===== verification/SecretsTemplate.v ===== *)
(** * Templates and secrets: [lib/secrets_template.py]

    The substitution pass over cloud-init templates, the secret references of
    container environments, the credentials a configuration demands, and the
    names of credentials in the store.  The credential store at run time is a
    parameter: a function from a credential's name to its contents.

    The theorems are the security properties the source states in its comments:
    inserted text is never scanned again, demanded and read credentials agree,
    the two reference syntaxes agree on what is a reference, and a broker's
    credential cannot be named from an environment. *)
From S2P Require Import Prelude PyStr PyPath PyRe Toml.
Local Open Scope Z_scope.

(** ** Patterns *)

Definition is_cred_char (c : ascii) : bool := is_alnum c || Ascii.eqb c "_" || Ascii.eqb c "-".
Definition is_var_head (c : ascii) : bool := is_alpha c || Ascii.eqb c "_".
Definition is_var_char (c : ascii) : bool := is_alnum c || Ascii.eqb c "_".

Definition validate_env_key (key : string) : bool :=
  match_anchored (re_head_star is_var_head is_var_char) key.

(** [SECRET_PATTERN] at a position, and [SECRET_PATTERN.search]. *)
Definition secret_ref (s : string) : option string := match_ref "${SECRET:" is_cred_char s.

Fixpoint secret_search (s : string) : bool :=
  match secret_ref s with
  | Some _ => true
  | None => match s with EmptyString => false | String _ s => secret_search s end
  end.

(** What [_SUBSTITUTION_PATTERN] matches. *)
Inductive placeholder :=
  | OptSecret (name : string)
  | Secret (name : string)
  | Var (name : string)
  | Esc.

(** A variable reference: [[a-zA-Z_][a-zA-Z0-9_]*] between the braces. *)
Definition var_ref (s : string) : option string :=
  match match_ref "${" is_var_char s with
  | Some (String c r) => if is_var_head c then Some (String c r) else None
  | _ => None
  end.

Definition substitution_matcher (prev : option ascii) (s : string) : option (placeholder * nat) :=
  let esc := if starts_with "$$" s then Some (Esc, 1%nat) else None in
  if bool_decide (prev = Some "$"%char) then esc
  else match match_ref "${SECRET?" is_cred_char s with
       | Some n => Some (OptSecret n, ref_len "${SECRET?" n)
       | None =>
           match secret_ref s with
           | Some n => Some (Secret n, ref_len "${SECRET:" n)
           | None =>
               match var_ref s with
               | Some n => Some (Var n, ref_len "${" n)
               | None => esc
               end
           end
       end.

Section substitute.
Variables (template_vars : table) (env : list (string * string)).
(** The resolver may be absent. *)
Variable secret_resolver : option (string -> res string).

Definition resolve_placeholder (p : placeholder) : res string :=
  match p with
  | Esc => Ok "$"
  | OptSecret n =>
      match secret_resolver with
      | None => Ok ""
      | Some f => catch (catch (f n) FileNotFoundError (Ok "")) KeyError (Ok "")
      end
  | Secret n => match secret_resolver with None => Raise KeyError | Some f => f n end
  | Var n => match assoc n template_vars with
             | Some v => Ok (py_str v)
             | None => match assoc n env with Some s => Ok s | None => Raise KeyError end
             end
  end.

Definition substitute_template (text : string) : res string :=
  render_tokens resolve_placeholder (re_tokens substitution_matcher None O text).
End substitute.

(** [_ENV_SECRET_REF]: whether the reference is escaped, and its name. *)
Definition env_ref_matcher (_ : option ascii) (s : string) : option (bool * string * nat) :=
  let bare := match secret_ref s with
              | Some n => Some (false, n, ref_len "${SECRET:" n)
              | None => None
              end in
  match s with
  | String c r =>
      if Ascii.eqb c "$" then
        match secret_ref r with
        | Some n => Some (true, n, S (ref_len "${SECRET:" n))
        | None => bare
        end
      else bare
  | EmptyString => bare
  end.

(** ** The credentials a configuration demands *)

(** The names of an environment value that are demanded, in order. *)
Definition env_demands (value : string) : list string :=
  omap (fun '(esc, n) => if esc : bool then None else Some n) (re_matches env_ref_matcher value).

Definition scan_env (env : tv) : res (list tv) :=
  t ← items env; Ok (map TStr (concat (map (fun '(_, v) => env_demands (py_str v)) t))).

(** [if "credential" in spec: needed.add(spec["credential"])]. *)
Definition file_credential (spec : tv) : res (list tv) :=
  b ← contains_key "credential" spec;
  if (b : bool) then v ← index spec "credential"; if hashable v then Ok [v] else Raise TypeError
  else Ok [].

Definition files_credentials (owner : tv) : res (list tv) :=
  secrets ← get_or owner "secrets" (TTab []);
  files ← get_or secrets "files" (TArr []);
  l ← iter files;
  ls ← mapM_res file_credential l; Ok (concat ls).

Definition entry_credentials (entry : tv) : res (list tv) :=
  e1 ← get_or entry "environment" (TTab []); d1 ← scan_env e1;
  c ← get_or entry "container" (TTab []); e2 ← get_or c "environment" (TTab []); d2 ← scan_env e2;
  d3 ← files_credentials entry;
  Ok (d1 ++ d2 ++ d3).

(** The result is a set; the list has its elements. *)
Definition auto_detect_credentials (config : table) : res (list tv) :=
  c ← get_or (TTab config) "container" (TTab []); e ← get_or c "environment" (TTab []);
  d1 ← scan_env e;
  cs ← get_or (TTab config) "containers" (TArr []); l ← iter cs;
  d2 ← mapM_res entry_credentials l;
  d3 ← files_credentials (TTab config);
  Ok (d1 ++ concat d2 ++ d3).

(** ** Resolving a container's environment *)

Section resolve.
(** The credential files of the unit. *)
Variable creds : string -> option string.

Definition resolve_ref (m : bool * string) : res string :=
  let '(esc, n) := m in
  if (esc : bool) then Ok ("${SECRET:" +:+ n +:+ "}")
  else match creds n with Some text => Ok text | None => Raise FileNotFoundError end.

Definition resolve_env_value (value : string) : res string :=
  render_tokens resolve_ref (re_tokens env_ref_matcher None O value).

Fixpoint resolve_env (env : table) : res (list (string * string)) :=
  match env with
  | [] => Ok []
  | (key, v) :: env =>
      if secret_search (py_str v) then
        r ← resolve_env_value (py_str v); rest ← resolve_env env; Ok ((key, r) :: rest)
      else resolve_env env
  end.

Definition resolve_secret_env_vars (config : table) : res (list (string * string)) :=
  c ← get_or (TTab config) "container" (TTab []); e ← get_or c "environment" (TTab []);
  t ← items e; resolve_env t.
End resolve.

(** ** Names in the credential store *)

Definition segment_ok (s : string) : bool := match_anchored (re_plus is_cred_char) s.

Definition credential_path (cred_dir : pypath) (name : string) : res (pypath * string) :=
  match split_on "/" name with
  | [_] => if segment_ok name then Ok (path_div cred_dir name, name) else Raise ValueError
  | scope :: rest =>
      if negb (String.eqb scope "broker") then Raise ValueError
      else match rest with
           | [workload; leaf] =>
               if segment_ok scope && segment_ok workload && segment_ok leaf
               then Ok (path_div (path_div (path_div cred_dir scope) workload) leaf,
                        scope +:+ "-" +:+ workload +:+ "-" +:+ leaf)
               else Raise ValueError
           | _ => Raise ValueError
           end
  | [] => Raise ValueError
  end.

(** ** Where references stand *)

(** The plain reading of both syntaxes: a reference counts where no dollar sign
    precedes it. *)
Fixpoint bare_refs (prev : option ascii) (s : string) : list string :=
  match s with
  | EmptyString => []
  | String c s' =>
      (if bool_decide (prev = Some "$"%char) then []
       else match secret_ref s with Some n => [n] | None => [] end) ++ bare_refs (Some c) s'
  end.

Definition env_bare (t : ascii + bool * string) : option string :=
  match t with inr (false, n) => Some n | _ => None end.
Definition template_bare (t : ascii + placeholder) : option string :=
  match t with inr (Secret n) => Some n | _ => None end.

(** The credentials a template requires. *)
Definition template_demands (text : string) : list string :=
  omap template_bare (re_tokens substitution_matcher None O text).

Lemma secret_ref_dollar c s n : secret_ref (String c s) = Some n -> c = "$"%char.
Proof. intros H. apply match_ref_Some in H as (_ & _ & t & H). by injection H. Qed.

Lemma secret_ref_double s : secret_ref (String "$" (String "$" s)) = None.
Proof. reflexivity. Qed.

Lemma secret_ref_not_dollar c s : c <> "$"%char -> secret_ref (String c s) = None.
Proof. intros Hc. destruct (secret_ref (String c s)) eqn:E; [|done]. by apply secret_ref_dollar in E. Qed.

Lemma bare_refs_skip u t prev :
  has_char "$" u = false ->
  bare_refs prev (u +:+ t) = bare_refs (from_option Some prev (last (String.list_ascii_of_string u))) t.
Proof.
  revert prev. induction u as [|c u IH]; intros prev; [done|]. unfold has_char. cbn [any_char].
  intros [Hc Hu]%orb_false_elim. change (String c u +:+ t) with (String c (u +:+ t)). cbn [bare_refs].
  unfold is_char in Hc. apply Ascii.eqb_neq in Hc.
  rewrite secret_ref_not_dollar by congruence.
  assert ((if bool_decide (prev = Some "$"%char) then [] else []) = @nil string) as ->
    by (by case_bool_decide).
  cbn [app]. rewrite IH by done. f_equal. cbn [String.list_ascii_of_string]. rewrite last_cons.
  by destruct (last (String.list_ascii_of_string u)).
Qed.

Lemma last_closing u : last (String.list_ascii_of_string (u +:+ "}")) = Some "}"%char.
Proof.
  induction u as [|c u IH]; [done|]. change (String c u +:+ "}") with (String c (u +:+ "}")).
  cbn [String.list_ascii_of_string]. rewrite last_cons, IH. done.
Qed.

(** Past a reference [$ o n }], both the walk and the plain reading stand after
    the closing brace. *)
Lemma skip_ref {A} (m : option ascii -> string -> option (A * nat)) o n t prev :
  re_tokens m prev (ref_len (String "$" o) n) (o +:+ n +:+ String "}" t)
  = re_tokens m (Some "}"%char) O t.
Proof.
  assert (o +:+ n +:+ String "}" t = (o +:+ n +:+ "}") +:+ t) as -> by (by rewrite !app_assoc_str).
  replace (ref_len (String "$" o) n) with (String.length (o +:+ n +:+ "}"))
    by (unfold ref_len; rewrite !length_app_str; cbn; lia).
  rewrite re_tokens_skip, <- app_assoc_str, last_closing. done.
Qed.

Lemma bare_refs_ref o n t prev :
  has_char "$" o = false -> has_char "$" n = false ->
  bare_refs prev (o +:+ n +:+ String "}" t) = bare_refs (Some "}"%char) t.
Proof.
  intros Ho Hn.
  assert (o +:+ n +:+ String "}" t = ((o +:+ n) +:+ "}") +:+ t) as -> by (by rewrite !app_assoc_str).
  rewrite bare_refs_skip by (by rewrite !has_char_app, Ho, Hn). by rewrite last_closing.
Qed.

Lemma cred_no_dollar n : all_chars is_cred_char n = true -> has_char "$" n = false.
Proof. by apply all_chars_no_char. Qed.

Lemma secret_ref_inv s n : secret_ref s = Some n ->
  has_char "$" n = false /\ exists t, s = String "$" ("{SECRET:" +:+ n +:+ String "}" t).
Proof.
  intros (_ & Hc & t & ->)%match_ref_Some. split; [by apply cred_no_dollar|]. by exists t.
Qed.

Lemma env_tokens_bare k s prev :
  (String.length s <= k)%nat -> (prev = Some "$"%char -> secret_ref s = None) ->
  omap env_bare (re_tokens env_ref_matcher prev O s) = bare_refs prev s.
Proof.
  revert s prev. induction k as [|k IH]; intros s prev Hk Hinv; [by destruct s; [|cbn in Hk; lia]|].
  destruct s as [|c r]; [done|]. cbn [String.length] in Hk.
  cbn [bare_refs re_tokens]. unfold env_ref_matcher at 1.
  destruct (Ascii.eqb_spec c "$") as [->|Hc].
  - destruct (secret_ref r) as [n|] eqn:Er.
    + apply secret_ref_inv in Er as (Hn & t & ->).
      cbn [omap list_omap env_bare]. rewrite secret_ref_double.
      cbn [re_tokens]. rewrite (skip_ref _ "{SECRET:"), IH; [|cbn in Hk; rewrite !length_app_str in Hk; cbn in Hk; lia|done].
      cbn [bare_refs]. rewrite (bool_decide_eq_true_2 (Some "$"%char = Some "$"%char)) by done.
      rewrite bare_refs_ref by done. by case_bool_decide.
    + destruct (secret_ref (String "$" r)) as [n|] eqn:Es.
      * pose proof Es as Es'. apply secret_ref_inv in Es as (Hn & t & Ht).
        assert (r = "{SECRET:" +:+ n +:+ String "}" t) as -> by congruence. clear Ht.
        cbn [omap list_omap env_bare].
        rewrite (skip_ref _ "{SECRET:"), IH; [|cbn in Hk; rewrite !length_app_str in Hk; cbn in Hk; lia|done].
        rewrite bare_refs_ref by done.
        case_bool_decide as Hp; [by apply Hinv in Hp|]. done.
      * cbn [omap list_omap env_bare]. rewrite IH by (done || lia). by case_bool_decide.
  - rewrite secret_ref_not_dollar by done. cbn [omap list_omap env_bare].
    rewrite IH by (lia || congruence). by case_bool_decide.
Qed.

(** *** The template's walk *)

Lemma opt_ref_inv s n : match_ref "${SECRET?" is_cred_char s = Some n ->
  has_char "$" n = false /\ secret_ref s = None /\
  exists t, s = String "$" ("{SECRET?" +:+ n +:+ String "}" t).
Proof.
  intros (_ & Hc & t & ->)%match_ref_Some. split; [by apply cred_no_dollar|]. split; [done|]. by exists t.
Qed.

Lemma var_ref_inv s n : var_ref s = Some n ->
  has_char "$" n = false /\ exists t, s = String "$" ("{" +:+ n +:+ String "}" t).
Proof.
  unfold var_ref. destruct (match_ref "${" is_var_char s) as [[|c r]|] eqn:E; try done.
  destruct (is_var_head c); [|done]. intros [= <-].
  apply match_ref_Some in E as (_ & Hc & t & ->). split; [|by exists t].
  by apply (all_chars_no_char is_var_char).
Qed.

Lemma esc_inv s : starts_with "$$" s = true -> exists u, s = String "$" (String "$" u).
Proof. intros [u ->]%starts_with_spec. by exists u. Qed.

(** What a match is, and where the walk goes on. *)
Lemma substitution_cases prev s p n :
  substitution_matcher prev s = Some (p, n) ->
  (p = Esc /\ n = 1%nat /\ exists u, s = String "$" (String "$" u)) \/
  (prev <> Some "$"%char /\ exists o name t,
     s = String "$" (o +:+ name +:+ String "}" t) /\ n = ref_len (String "$" o) name /\
     has_char "$" o = false /\ has_char "$" name = false /\
     secret_ref s = match p with Secret m => Some m | _ => None end /\
     (forall m, p = Secret m -> m = name /\ o = "{SECRET:")).
Proof.
  assert (Hesc : (if starts_with "$$" s then Some (Esc, 1%nat) else None) = Some (p, n) ->
    p = Esc /\ n = 1%nat /\ exists u, s = String "$" (String "$" u)).
  { destruct (starts_with "$$" s) eqn:E; [|done]. intros [= <- <-]. apply esc_inv in E. auto. }
  unfold substitution_matcher. case_bool_decide as Hp; [auto|].
  destruct (match_ref "${SECRET?" is_cred_char s) as [m|] eqn:E1.
  { intros [= <- <-]. apply opt_ref_inv in E1 as (H1 & H2 & t & ->). right.
    split; [done|]. exists "{SECRET?", m, t. by split_and!. }
  destruct (secret_ref s) as [m|] eqn:E2.
  { intros [= <- <-]. apply secret_ref_inv in E2 as (H1 & t & ->). right.
    split; [done|]. exists "{SECRET:", m, t. split_and!; try done. intros ? [= <-]. done. }
  destruct (var_ref s) as [m|] eqn:E3; [|auto].
  intros [= <- <-]. apply var_ref_inv in E3 as (H1 & t & ->). right.
  split; [done|]. exists "{", m, t. by split_and!.
Qed.

Lemma template_tokens_bare k s prev :
  (String.length s <= k)%nat ->
  omap template_bare (re_tokens substitution_matcher prev O s) = bare_refs prev s.
Proof.
  revert s prev. induction k as [|k IH]; intros s prev Hk; [by destruct s; [|cbn in Hk; lia]|].
  destruct s as [|c r]; [done|]. cbn [String.length] in Hk. cbn [bare_refs re_tokens].
  destruct (substitution_matcher prev (String c r)) as [[p n]|] eqn:E.
  - apply substitution_cases in E as [(-> & -> & u & Hu)|(Hp & o & name & t & Hs & -> & Ho & Hn & Hr & _)].
    + assert (c = "$"%char /\ r = String "$" u) as [-> ->] by (split; congruence).
      cbn [omap list_omap template_bare re_tokens]. rewrite secret_ref_double.
      cbn [bare_refs]. rewrite (bool_decide_eq_true_2 (Some "$"%char = Some "$"%char)) by done.
      cbn [app] in *. cbn [String.length] in Hk. rewrite IH by lia. by case_bool_decide.
    + assert (c = "$"%char /\ r = o +:+ name +:+ String "}" t) as [-> ->] by (split; congruence).
      cbn [omap list_omap]. rewrite skip_ref.
      rewrite IH by (rewrite !length_app_str in Hk; cbn in Hk; lia).
      rewrite bool_decide_eq_false_2 by done. rewrite Hr, bare_refs_ref by done. by destruct p.
  - cbn [omap list_omap template_bare]. rewrite IH by lia.
    case_bool_decide as Hp; [done|]. unfold substitution_matcher in E.
    rewrite bool_decide_eq_false_2 in E by done.
    destruct (match_ref _ _ _); [done|]. by destruct (secret_ref (String c r)).
Qed.

Lemma env_demands_tokens value : env_demands value = omap env_bare (re_tokens env_ref_matcher None O value).
Proof.
  unfold env_demands, re_matches. induction (re_tokens _ _ _ _) as [|[c|[[] n]] l IH]; [done|..];
    cbn [omap list_omap env_bare]; congruence.
Qed.

(** An environment value and a template demand the same credentials: both
    read a reference exactly where no dollar sign precedes it, whatever run of
    dollar signs that is and whatever surrounds it. *)
Theorem env_and_template_agree text : env_demands text = template_demands text.
Proof.
  rewrite env_demands_tokens. unfold template_demands.
  by rewrite (env_tokens_bare (String.length text)), (template_tokens_bare (String.length text)) by done.
Qed.

(** ** Inserted text is never scanned again *)

Lemma substitution_dollar prev t : substitution_matcher prev t <> None -> exists t', t = String "$" t'.
Proof.
  destruct (substitution_matcher prev t) as [[p n]|] eqn:E; [|done].
  apply substitution_cases in E as [(_ & _ & u & ->)|(_ & o & name & u & -> & _)]; eauto.
Qed.

Lemma substitution_prev p q s :
  p <> Some "$"%char -> q <> Some "$"%char ->
  re_tokens substitution_matcher p O s = re_tokens substitution_matcher q O s.
Proof.
  intros Hp Hq. destruct s as [|c s]; [done|]. cbn [re_tokens]. unfold substitution_matcher.
  by rewrite !bool_decide_eq_false_2.
Qed.

Lemma last_no_char c s : has_char c s = false -> last (String.list_ascii_of_string s) <> Some c.
Proof.
  induction s as [|a s IH]; [done|]. unfold has_char. cbn [any_char].
  intros [Ha Hs]%orb_false_elim. cbn [String.list_ascii_of_string]. rewrite last_cons.
  destruct (last (String.list_ascii_of_string s)) eqn:E; [by apply IH|].
  intros [= ->]. unfold is_char in Ha. by rewrite Ascii.eqb_refl in Ha.
Qed.

(** A template is substituted in one pass: the text before the first
    dollar sign is copied, a secret's value is inserted as it is, whatever
    placeholders or dollar signs it contains, and the scan goes on after the
    reference; an exception of the resolver is the result. *)
Theorem substitution_single_pass vars env f lit name rest :
  has_char "$" lit = false -> name <> "" -> all_chars is_cred_char name = true ->
  substitute_template vars env (Some f) (lit +:+ "${SECRET:" +:+ name +:+ "}" +:+ rest) =
  (v ← f name; r ← substitute_template vars env (Some f) rest; Ok (lit +:+ v +:+ r)).
Proof.
  intros Hl Hne Hn. unfold substitute_template.
  rewrite render_skip_lit by (apply substitution_dollar || done).
  set (prev := from_option _ _ _).
  assert (Hprev : prev <> Some "$"%char).
  { unfold prev. pose proof (last_no_char "$" lit Hl). by destruct (last (String.list_ascii_of_string lit)). }
  assert (Hm : substitution_matcher prev ("${SECRET:" +:+ name +:+ "}" +:+ rest)
               = Some (Secret name, ref_len "${SECRET:" name)).
  { unfold substitution_matcher. rewrite bool_decide_eq_false_2 by done.
    assert (match_ref "${SECRET?" is_cred_char ("${SECRET:" +:+ name +:+ "}" +:+ rest) = None) as -> by done.
    unfold secret_ref. change ("}" +:+ rest) with (String "}" rest). by rewrite match_ref_app. }
  change ("${SECRET:" +:+ name +:+ "}" +:+ rest)
    with (String "$" ("{SECRET:" +:+ name +:+ String "}" rest)) in *.
  cbn [re_tokens]. rewrite Hm. cbn [render_tokens resolve_placeholder]. rewrite (skip_ref _ "{SECRET:").
  rewrite (substitution_prev (Some "}"%char) None) by done.
  destruct (f name) as [v|]; [|done]. cbn [mbind res_bind].
  by destruct (render_tokens _ _).
Qed.

Lemma substitution_single_pass_witness :
  substitute_template [] [] (Some (fun n => Ok "a$${SECRET:b}")) "k=${SECRET:x}" = Ok "k=a$${SECRET:b}".
Proof.
  exact (substitution_single_pass [] [] (fun n => Ok "a$${SECRET:b}") "k=" "x" ""
           eq_refl ltac:(discriminate) eq_refl).
Defined.

(** ** Demanded and read credentials *)

Lemma render_tokens_Ok {A} (f : A -> res string) l :
  (exists s, render_tokens f l = Ok s) <->
  Forall (fun t => match t with inl _ => True | inr a => exists s, f a = Ok s end) l.
Proof.
  induction l as [|[c|a] l IH]; cbn [render_tokens].
  - split; [by constructor | eauto].
  - rewrite Forall_cons, <- IH. split.
    + intros [s H]. apply bind_Ok_inv in H as (r & H & _). eauto.
    + intros [_ [s H]]. rewrite H. cbn. eauto.
  - rewrite Forall_cons, <- IH. split.
    + intros [s H]. apply bind_Ok_inv in H as (x & Hx & H). apply bind_Ok_inv in H as (r & H & _). eauto.
    + intros [[x Hx] [s H]]. rewrite Hx, H. cbn. eauto.
Qed.

Lemma resolve_value_ok creds value :
  (exists s, resolve_env_value creds value = Ok s) <->
  Forall (fun n => is_Some (creds n)) (env_demands value).
Proof.
  unfold resolve_env_value. rewrite render_tokens_Ok, env_demands_tokens.
  induction (re_tokens _ _ _ _) as [|[c|[[] n]] l IH]; cbn [omap list_omap env_bare];
    [split; constructor|..]; rewrite ?Forall_cons, IH; cbn [resolve_ref]; [naive_solver..|].
  split; intros [H1 H2]; (split; [|done]).
  - destruct H1 as [s Hs]. by destruct (creds n).
  - destruct H1 as [s ->]. eauto.
Qed.

(** The only way to fail is a credential that is not there. *)
Lemma resolve_value_raise creds value e :
  resolve_env_value creds value = Raise e -> e = FileNotFoundError.
Proof.
  unfold resolve_env_value. induction (re_tokens _ _ _ _) as [|[c|[[] n]] l IH]; [done|..];
    cbn [render_tokens resolve_ref]; destruct (render_tokens _ l) as [|e'] eqn:E; cbn;
    try (intros [= <-]; eauto; done); try destruct (creds n); cbn; try done;
    intros [= <-]; eauto.
Qed.

Lemma resolve_value_ext creds creds' value :
  (forall n, n ∈ env_demands value -> creds n = creds' n) ->
  resolve_env_value creds value = resolve_env_value creds' value.
Proof.
  unfold resolve_env_value. rewrite env_demands_tokens.
  induction (re_tokens _ _ _ _) as [|[c|[[] n]] l IH]; cbn [omap list_omap env_bare render_tokens resolve_ref];
    intros H; [done|..].
  - by rewrite IH.
  - by rewrite IH.
  - rewrite IH, (H n) by set_solver. done.
Qed.

(** A value the search passes over demands nothing. *)
Lemma no_search_no_demand value : secret_search value = false -> env_demands value = [].
Proof.
  intros H. rewrite env_demands_tokens, (env_tokens_bare (String.length value)) by done.
  revert H. generalize (@None ascii). induction value as [|c s IH]; intros prev; [done|].
  cbn [secret_search bare_refs]. destruct (secret_ref (String c s)); [done|]. intros H.
  rewrite (IH _ H). by case_bool_decide.
Qed.

(** The credentials the environment of a container demands. *)
Definition table_demands (t : table) : list string := concat (map (fun '(_, v) => env_demands (py_str v)) t).

Lemma resolve_env_ok creds t :
  (exists r, resolve_env creds t = Ok r) <-> Forall (fun n => is_Some (creds n)) (table_demands t).
Proof.
  unfold table_demands. induction t as [|[k v] t IH]; [split; [constructor | cbn; eauto]|].
  cbn [map concat resolve_env]. rewrite Forall_app, <- IH.
  destruct (secret_search (py_str v)) eqn:E.
  - rewrite <- resolve_value_ok. split.
    + intros [r H]. apply bind_Ok_inv in H as (x & Hx & H). apply bind_Ok_inv in H as (y & Hy & _). eauto.
    + intros [[x ->] [y ->]]. cbn. eauto.
  - rewrite (no_search_no_demand _ E). split; [intros H; split; [constructor|done] | by intros [_ ?]].
Qed.

Lemma resolve_env_raise creds t e : resolve_env creds t = Raise e -> e = FileNotFoundError.
Proof.
  induction t as [|[k v] t IH]; cbn [resolve_env]; [done|].
  destruct (secret_search (py_str v)); [|done].
  destruct (resolve_env_value creds (py_str v)) as [x|e'] eqn:Ev; cbn.
  - destruct (resolve_env creds t); [done|]. intros [= <-]. by apply IH.
  - intros [= <-]. by apply resolve_value_raise in Ev.
Qed.

Lemma resolve_env_ext creds creds' t :
  (forall n, n ∈ table_demands t -> creds n = creds' n) -> resolve_env creds t = resolve_env creds' t.
Proof.
  unfold table_demands. induction t as [|[k v] t IH]; cbn [map concat resolve_env]; [done|].
  intros H. rewrite IH, (resolve_value_ext creds creds') by set_solver. done.
Qed.

(** The environment a configuration's demand starts with. *)
Lemma detect_environment config d :
  auto_detect_credentials config = Ok d ->
  exists c e t rest, get_or (TTab config) "container" (TTab []) = Ok c /\
    get_or c "environment" (TTab []) = Ok e /\ items e = Ok t /\ d = map TStr (table_demands t) ++ rest.
Proof.
  unfold auto_detect_credentials, scan_env. intros H.
  apply bind_Ok_inv in H as (c & Hc & H). apply bind_Ok_inv in H as (e & He & H).
  apply bind_Ok_inv in H as (d1 & Hd1 & H). apply bind_Ok_inv in Hd1 as (t & Ht & [= <-]).
  inv_ok. by eexists c, e, t, _.
Qed.

(** What is demanded is what is read.  A store holding every demanded
    credential resolves the environment; the result depends on no other
    credential; and the only failure is [FileNotFoundError], for a demanded
    credential that the store lacks. *)
Theorem demanded_is_read config d creds creds' :
  auto_detect_credentials config = Ok d ->
  ((forall n, TStr n ∈ d -> is_Some (creds n)) -> exists r, resolve_secret_env_vars creds config = Ok r)
  /\ ((forall n, TStr n ∈ d -> creds n = creds' n) ->
      resolve_secret_env_vars creds config = resolve_secret_env_vars creds' config)
  /\ (forall e, resolve_secret_env_vars creds config = Raise e ->
      e = FileNotFoundError /\ exists n, TStr n ∈ d /\ creds n = None).
Proof.
  intros (c & e & t & rest & Hc & He & Ht & ->)%detect_environment.
  assert (Hr : forall cr, resolve_secret_env_vars cr config = resolve_env cr t)
    by (intros cr; unfold resolve_secret_env_vars; rewrite Hc; cbn [mbind res_bind]; rewrite He;
        cbn [mbind res_bind]; by rewrite Ht).
  assert (Hin : forall n, n ∈ table_demands t -> TStr n ∈ map TStr (table_demands t) ++ rest)
    by (intros n Hn; apply elem_of_app; left; by apply list_elem_of_fmap_2).
  rewrite !Hr. split_and!.
  - intros H. apply resolve_env_ok, Forall_forall. auto.
  - intros H. apply resolve_env_ext. auto.
  - intros x Hx. split; [by eapply resolve_env_raise|].
    destruct (decide (Forall (fun n => is_Some (creds n)) (table_demands t))) as [Hall|Hnot].
    + apply resolve_env_ok in Hall as [r Hall]. congruence.
    + apply not_Forall_Exists in Hnot; [|apply _]. apply Exists_exists in Hnot as (n & Hn & Hs).
      exists n. split; [auto|]. by apply eq_None_not_Some.
Qed.

Lemma demanded_is_read_witness :
  exists r, resolve_secret_env_vars (fun n => if String.eqb n "db" then Some "pw" else None)
    [("container", TTab [("environment", TTab [("P", TStr "x${SECRET:db}$${SECRET:no}")])])] = Ok r.
Proof.
  refine (proj1 (demanded_is_read
    [("container", TTab [("environment", TTab [("P", TStr "x${SECRET:db}$${SECRET:no}")])])]
    [TStr "db"] _ (fun _ => None) _) _); [reflexivity|].
  intros n Hn. apply list_elem_of_singleton in Hn as [= ->]. by eexists.
Defined.

(** ** Names in the store *)

Lemma segment_plain s :
  segment_ok s = true -> has_char "/" s = false /\ is_part s = true.
Proof.
  unfold segment_ok. intros H. apply match_anchored_spec in H.
  assert (Hs : forall t, re_plus is_cred_char t = true ->
            has_char "/" t = false /\ exists c r, t = String c r /\ Ascii.eqb c "." = false).
  { intros t [Hne%negb_true_iff%bool_decide_eq_false Hall]%andb_prop. split.
    - by apply (all_chars_no_char is_cred_char).
    - destruct t as [|c r]; [done|]. exists c, r. split; [done|]. cbn in Hall.
      apply andb_prop in Hall as [Hc _]. destruct (Ascii.eqb_spec c "."); [by subst|done]. }
  destruct H as [H|(t & -> & H)]; apply Hs in H as (Hn & c & r & -> & Hd).
  - split; [done|]. unfold is_part. cbn [String.eqb]. by rewrite Hd.
  - split; [by rewrite has_char_app, Hn|].
    change (String c r +:+ chr LF) with (String c (r +:+ chr LF)).
    unfold is_part. cbn [String.eqb]. by rewrite Hd.
Qed.

Lemma split_single s x : split_on "/" s = [x] -> x = s /\ has_char "/" s = false.
Proof.
  intros H. pose proof (join_split_on "/" s) as Hj. pose proof (split_on_Forall "/" s) as Hf.
  rewrite H in *. cbn in Hj. subst x. split; [done|]. by inversion Hf.
Qed.

(** The two forms of a name and the place of each. *)
Lemma credential_path_cases dir name f seal :
  credential_path dir name = Ok (f, seal) ->
  (has_char "/" name = false /\ f = mkPath (root dir) (parts dir ++ [name]) /\ seal = name)
  \/ exists w l, name = "broker/" +:+ w +:+ "/" +:+ l /\
     f = mkPath (root dir) (parts dir ++ ["broker"; w; l]) /\ seal = "broker-" +:+ w +:+ "-" +:+ l.
Proof.
  unfold credential_path. destruct (split_on "/" name) as [|x [|y rest]] eqn:E; [done|..].
  - destruct (segment_ok name) eqn:Hs; [|done]. intros [= <- <-]. left.
    apply segment_plain in Hs as [Hn Hp]. by rewrite path_div_segment.
  - destruct (String.eqb_spec x "broker") as [->|]; [|done]. cbn [negb].
    destruct rest as [|l [|]]; [done| |done].
    destruct (segment_ok "broker" && _ && _) eqn:Hs; [|done]. intros [= <- <-]. right.
    apply andb_prop in Hs as [[_ [Hw1 Hw2]%segment_plain]%andb_prop [Hl1 Hl2]%segment_plain].
    exists y, l. split_and!; [|rewrite !path_div_segment by done; cbn [root parts]; by rewrite <- !app_assoc|done].
    rewrite <- (join_split_on "/" name), E. reflexivity.
Qed.

Lemma env_demand_name value n : n ∈ env_demands value -> re_plus is_cred_char n = true.
Proof.
  rewrite env_demands_tokens, (env_tokens_bare (String.length value)) by done.
  generalize (@None ascii). induction value as [|c s IH]; intros prev; [by intros ?%not_elem_of_nil|].
  cbn [bare_refs]. rewrite elem_of_app. intros [H|H]; [|by eapply IH].
  case_bool_decide; [by apply not_elem_of_nil in H|].
  destruct (secret_ref (String c s)) as [m|] eqn:E; [|by apply not_elem_of_nil in H].
  apply list_elem_of_singleton in H as ->. apply match_ref_Some in E as (Hne & Hc & _).
  unfold re_plus. by rewrite bool_decide_eq_false_2.
Qed.

(** A broker's credential cannot be reached from an environment or a
    template: every demanded name is a plain name of the store, directly below
    its root, and no scoped name is kept in such a file. *)
Theorem scoped_names_unreachable dir value n w l f seal :
  n ∈ env_demands value ->
  credential_path dir ("broker/" +:+ w +:+ "/" +:+ l) = Ok (f, seal) ->
  credential_path dir n = Ok (mkPath (root dir) (parts dir ++ [n]), n)
  /\ f <> mkPath (root dir) (parts dir ++ [n])
  /\ n <> "broker/" +:+ w +:+ "/" +:+ l.
Proof.
  intros Hn Hf. apply env_demand_name in Hn.
  assert (Hseg : segment_ok n = true) by (unfold segment_ok, match_anchored; by rewrite Hn).
  destruct (segment_plain n Hseg) as [Hs Hp]. split_and!.
  - unfold credential_path. rewrite split_on_no_char by done. rewrite Hseg. by rewrite path_div_segment.
  - apply credential_path_cases in Hf as [(Hno & _)|(w' & l' & _ & -> & _)].
    + by rewrite !has_char_app in Hno.
    + intros [= H%(f_equal length)]. rewrite !length_app in H. cbn in H. lia.
  - intros ->. by rewrite !has_char_app in Hs.
Qed.

Lemma scoped_names_unreachable_witness :
  credential_path (path_of "/etc/credstore.encrypted") "db"
  = Ok (mkPath "/" ["etc"; "credstore.encrypted"; "db"], "db").
Proof.
  refine (proj1 (scoped_names_unreachable (path_of "/etc/credstore.encrypted") "${SECRET:db}" "db" "web" "key"
    (mkPath "/" ["etc"; "credstore.encrypted"; "broker"; "web"; "key"]) "broker-web-key" _ _)).
  - vm_compute. apply list_elem_of_here.
  - reflexivity.
Defined.

(** The file of a credential determines its name; the seal name does not:
    two workloads whose names contain hyphens can have credentials sealed under
    one name, which an unscoped credential can carry as well. *)
Theorem seal_name_ambiguous dir :
  (forall n m f s s', credential_path dir n = Ok (f, s) -> credential_path dir m = Ok (f, s') -> n = m)
  /\ exists f1 f2 f3 seal,
       credential_path dir "broker/a-b/c" = Ok (f1, seal) /\
       credential_path dir "broker/a/b-c" = Ok (f2, seal) /\
       credential_path dir "broker-a-b-c" = Ok (f3, seal).
Proof.
  split; [|by eexists _, _, _, _].
  intros n m f s s' H1%credential_path_cases H2%credential_path_cases.
  destruct H1 as [(_ & -> & _)|(w & l & -> & -> & _)], H2 as [(_ & H & _)|(w' & l' & -> & H & _)];
    injection H as H%app_inv_head; congruence.
Qed.
