(* ===== verification/CredentialEntries.v ===== *)
(** * Broker credentials of a workload: [lib/credential_entries.py]

    [[network.credential]] blocks are read twice: by the validator, which
    reports errors, and by a lenient parser, which the generators use.  The main
    theorem is that on a configuration without errors both see the same
    credentials, and that these are pairwise distinct in name and variable. *)
From S2P Require Import Prelude PyStr Toml WorkloadConfig.
Local Open Scope Z_scope.

Record credential := mkCred {
  cr_name : string;
  cr_placeholder : string;
  cr_env : string;
  cr_auth_header : option string;
  cr_auth_format : option string }.

(** ** The parser *)

Definition parse_credential (item : tv) : option credential :=
  match item with
  | TTab t =>
      match stripped_str t "name", stripped_str t "placeholder", stripped_str t "env" with
      | Some n, Some p, Some e =>
          Some (mkCred n p e (stripped_str t "auth_header") (stripped_str t "auth_format"))
      | _, _, _ => None
      end
  | _ => None
  end.

Definition parse_credential_entries (net : table) : list credential :=
  match assoc "credential" net with
  | Some (TArr raw) => omap parse_credential raw
  | _ => []
  end.

(** ** [string.Formatter().parse] *)

(** Where the scanner is: in literal text, after one brace, in a field's name, in
    brackets inside the name, in the conversion, in the format specification
    (with its brace depth). *)
Inductive fmt_state :=
  | FLit | FOpen | FClose
  | FName (acc : string) | FBracket (acc : string)
  | FConv (acc : string) | FConvEnd (acc : string)
  | FSpec (acc : string) (depth : nat).

(** The fields of a format string, or [None] where it raises [ValueError]. *)
Fixpoint format_fields (st : fmt_state) (s : string) : option (list string) :=
  match s with
  | EmptyString => match st with FLit => Some [] | _ => None end
  | String c s =>
      let name acc :=
        if Ascii.eqb c "{" then None
        else if Ascii.eqb c "[" then format_fields (FBracket (acc +:+ chr c)) s
        else if Ascii.eqb c "}" then cons acc <$> format_fields FLit s
        else if Ascii.eqb c ":" then format_fields (FSpec acc 1) s
        else if Ascii.eqb c "!" then format_fields (FConv acc) s
        else format_fields (FName (acc +:+ chr c)) s in
      match st with
      | FLit => format_fields (if Ascii.eqb c "{" then FOpen
                               else if Ascii.eqb c "}" then FClose else FLit) s
      | FOpen => if Ascii.eqb c "{" then format_fields FLit s else name ""
      | FClose => if Ascii.eqb c "}" then format_fields FLit s else None
      | FName acc => name acc
      | FBracket acc => if Ascii.eqb c "]" then format_fields (FName (acc +:+ chr c)) s
                        else format_fields (FBracket (acc +:+ chr c)) s
      | FConv acc => format_fields (FConvEnd acc) s
      | FConvEnd acc => if Ascii.eqb c "}" then cons acc <$> format_fields FLit s
                        else if Ascii.eqb c ":" then format_fields (FSpec acc 1) s else None
      | FSpec acc d => if Ascii.eqb c "{" then format_fields (FSpec acc (S d)) s
                       else if Ascii.eqb c "}" then
                         match d with
                         | S (S d) => format_fields (FSpec acc (S d)) s
                         | _ => cons acc <$> format_fields FLit s
                         end
                       else format_fields (FSpec acc d) s
      end
  end.

(** ** The validator *)

Inductive cred_error :=
  | CeNotArray (tyname : string)
  | CeNotTable
  | CeUnknownKeys (keys : list string)
  | CeMissing (key : string)
  | CeBadName (name : string)
  | CeBadEnv (name env : string)
  | CeReservedEnv (name env : string)
  | CeDuplicateEnv (env : string)
  | CeDuplicateName (name : string)
  | CeHeaderType (name : string)
  | CeHeaderNotToken (name header : string)
  | CeHeaderRefused (name header : string)
  | CeFormatType (name : string)
  | CeFormatInvalid (name fmt : string)
  | CeFormatFields (name fmt : string) (fields : list string).

Definition is_cred_name_char (c : ascii) : bool := is_alnum c || Ascii.eqb c "_" || Ascii.eqb c "-".
Definition is_env_head (c : ascii) : bool := is_alpha c || Ascii.eqb c "_".
Definition is_env_char (c : ascii) : bool := is_alnum c || Ascii.eqb c "_".

(** RFC 9110 tchar. *)
Definition is_tchar (c : ascii) : bool :=
  is_alnum c || has_char c "!#$%&'*+.^_`|~-".

Definition AUTH_HEADER_REFUSED : list string :=
  ["content-length"; "transfer-encoding"; "host"; "connection"; "upgrade"; "te"; "trailer";
   "keep-alive"; "proxy-authorization"; "proxy-authenticate"].

Definition validate_auth_header (name header : string) : list cred_error :=
  if negb (match_anchored (re_plus is_tchar) header) then [CeHeaderNotToken name header]
  else if bool_decide (lower header ∈ AUTH_HEADER_REFUSED) then [CeHeaderRefused name header]
  else [].

Definition validate_auth_format (name fmt : string) : list cred_error :=
  match format_fields FLit fmt with
  | None => [CeFormatInvalid name fmt]
  | Some fields => if decide (fields = ["secret"]) then [] else [CeFormatFields name fmt fields]
  end.

Definition CREDENTIAL_KEYS : list string := ["name"; "placeholder"; "env"; "auth_header"; "auth_format"].

Record vstate := mkV {
  v_creds : list credential;
  v_errors : list cred_error;
  v_seen : list string;
  v_seen_envs : list string }.

Definition err (st : vstate) (e : list cred_error) : vstate :=
  mkV (v_creds st) (v_errors st ++ e) (v_seen st) (v_seen_envs st).

(** The first of the three required keys that is missing, or their values. *)
Definition required_values (t : table) : string + (string * string * string) :=
  match stripped_str t "name" with
  | None => inl "name"
  | Some n =>
      match stripped_str t "placeholder" with
      | None => inl "placeholder"
      | Some p =>
          match stripped_str t "env" with
          | None => inl "env"
          | Some e => inr (n, p, e)
          end
      end
  end.

(** An optional key: absent, its stripped text, or a value of the wrong form. *)
Definition optional_value (t : table) (key : string) : option (option string) :=
  match assoc key t with
  | None => Some None
  | Some _ => match stripped_str t key with Some s => Some (Some s) | None => None end
  end.

Section validate.
Variable reserved_env : list string.

(** The end of the loop's body: both optional keys, then the credential. *)
Definition finish_item (st : vstate) (t : table) (name placeholder env : string) : vstate :=
  match optional_value t "auth_header" with
  | None => err st [CeHeaderType name]
  | Some h =>
      let st := match h with Some h => err st (validate_auth_header name h) | None => st end in
      match optional_value t "auth_format" with
      | None => err st [CeFormatType name]
      | Some f =>
          let st := match f with Some f => err st (validate_auth_format name f) | None => st end in
          mkV (v_creds st ++ [mkCred name placeholder env h f]) (v_errors st) (v_seen st) (v_seen_envs st)
      end
  end.

Definition validate_table (st : vstate) (t : table) : vstate :=
  (* the message lists them sorted *)
  let unknown := filter (fun k => k ∉ CREDENTIAL_KEYS) (map fst t) in
  let st := match unknown with [] => st | _ => err st [CeUnknownKeys unknown] end in
  match required_values t with
  | inl key => err st [CeMissing key]
  | inr (name, placeholder, env) =>
      if negb (match_anchored (re_plus is_cred_name_char) name) then err st [CeBadName name]
      else if negb (match_anchored (re_head_star is_env_head is_env_char) env)
      then err st [CeBadEnv name env]
      else if bool_decide (env ∈ reserved_env) then err st [CeReservedEnv name env]
      else if bool_decide (env ∈ v_seen_envs st) then err st [CeDuplicateEnv env]
      else
        let st := mkV (v_creds st) (v_errors st) (v_seen st) (env :: v_seen_envs st) in
        if bool_decide (name ∈ v_seen st) then err st [CeDuplicateName name]
        else
          let st := mkV (v_creds st) (v_errors st) (name :: v_seen st) (v_seen_envs st) in
          finish_item st t name placeholder env
  end.

Definition validate_item (st : vstate) (item : tv) : vstate :=
  match item with
  | TTab t => validate_table st t
  | _ => err st [CeNotTable]
  end.

Definition validate_credential_entries (net : table) : list credential * list cred_error :=
  match assoc "credential" net with
  | None => ([], [])
  | Some (TArr raw) =>
      let st := foldl validate_item (mkV [] [] [] []) raw in (v_creds st, v_errors st)
  | Some v => ([], [CeNotArray (type_name v)])
  end.
End validate.

(** ** Invariant of the loop *)

(** What every credential the validator keeps satisfies. *)
Definition cred_ok (reserved : list string) (c : credential) : Prop :=
  re_plus is_cred_name_char (cr_name c) = true /\
  re_head_star is_env_head is_env_char (cr_env c) = true /\ cr_env c ∉ reserved.

(** Names and variables are taken from [seen] and [seen_envs], without repetition. *)
Record vstate_ok (reserved : list string) (st : vstate) : Prop := {
  vo_names : NoDup (map cr_name (v_creds st));
  vo_envs : NoDup (map cr_env (v_creds st));
  vo_seen : forall c, c ∈ v_creds st -> cr_name c ∈ v_seen st;
  vo_seen_envs : forall c, c ∈ v_creds st -> cr_env c ∈ v_seen_envs st;
  vo_creds : Forall (cred_ok reserved) (v_creds st) }.

Lemma err_ok r st e : vstate_ok r st -> vstate_ok r (err st e).
Proof. intros []. by constructor. Qed.
#[export] Hint Resolve err_ok : pystr.

Lemma stripped_str_no_lf t k s : stripped_str t k = Some s -> ends_with_char LF s = false.
Proof.
  unfold stripped_str. destruct (assoc k t) as [[]|]; try done.
  destruct (String.eqb _ _); [done|]. intros [= <-]. apply strip_no_final_lf.
Qed.

Lemma match_stripped p t k s : stripped_str t k = Some s -> match_anchored p s = p s.
Proof. intros H. unfold match_anchored. by rewrite (stripped_str_no_lf _ _ _ H), orb_false_r. Qed.

Lemma required_values_inr t n p e :
  required_values t = inr (n, p, e) ->
  stripped_str t "name" = Some n /\ stripped_str t "placeholder" = Some p /\ stripped_str t "env" = Some e.
Proof. unfold required_values. repeat case_match; naive_solver. Qed.

Lemma seen_ok r st n e : vstate_ok r st -> vstate_ok r (mkV (v_creds st) (v_errors st) (n ++ v_seen st) (e ++ v_seen_envs st)).
Proof. intros [H1 H2 H3 H4 H5]. constructor; cbn; try done; intros c Hc; apply elem_of_app; eauto. Qed.

Lemma push_ok r st c errs :
  vstate_ok r st -> cr_name c ∈ v_seen st -> cr_env c ∈ v_seen_envs st -> cred_ok r c ->
  cr_name c ∉ map cr_name (v_creds st) -> cr_env c ∉ map cr_env (v_creds st) ->
  vstate_ok r (mkV (v_creds st ++ [c]) errs (v_seen st) (v_seen_envs st)).
Proof.
  intros [H1 H2 H3 H4 H5] Hn He Hc Hn' He'. constructor; cbn.
  - rewrite map_app. cbn. apply NoDup_app. split_and!; [done| |apply NoDup_singleton]. set_solver.
  - rewrite map_app. cbn. apply NoDup_app. split_and!; [done| |apply NoDup_singleton]. set_solver.
  - intros d [Hd|Hd%list_elem_of_singleton]%elem_of_app; [auto|by subst].
  - intros d [Hd|Hd%list_elem_of_singleton]%elem_of_app; [auto|by subst].
  - apply Forall_app. split; [done|]. by constructor.
Qed.

Lemma finish_item_ok r st t n p e :
  vstate_ok r st -> n ∈ v_seen st -> e ∈ v_seen_envs st -> (forall h f, cred_ok r (mkCred n p e h f)) ->
  n ∉ map cr_name (v_creds st) -> e ∉ map cr_env (v_creds st) ->
  vstate_ok r (finish_item st t n p e).
Proof.
  intros Hst Hn He Hc Hn' He'. unfold finish_item.
  destruct (optional_value t "auth_header") as [h|]; [|by apply err_ok].
  destruct (optional_value t "auth_format") as [f|]; [|by destruct h; auto with pystr].
  destruct h, f; cbn [v_creds v_errors v_seen v_seen_envs err]; by apply push_ok.
Qed.

Lemma validate_item_ok r st item : vstate_ok r st -> vstate_ok r (validate_item r st item).
Proof.
  intros Hst. destruct item as [| | | | |t]; try by apply err_ok. cbn [validate_item].
  unfold validate_table. set (unknown := filter _ (map fst t)).
  set (st' := match unknown with [] => st | _ => _ end).
  assert (Hst' : vstate_ok r st') by (unfold st'; case_match; auto with pystr). clearbody st'.
  destruct (required_values t) as [key|[[n p] e]] eqn:Er; [auto with pystr|].
  apply required_values_inr in Er as (Hn & _ & He).
  rewrite (match_stripped _ _ _ _ Hn), (match_stripped _ _ _ _ He).
  destruct (re_plus is_cred_name_char n) eqn:E1; cbn [negb]; [|auto with pystr].
  destruct (re_head_star is_env_head is_env_char e) eqn:E2; cbn [negb]; [|auto with pystr].
  case_bool_decide as E3; [auto with pystr|]. case_bool_decide as E4; [auto with pystr|].
  case_bool_decide as E5; [apply err_ok; apply (seen_ok r st' [] [e] Hst')|].
  destruct Hst' as [H1 H2 H3 H4 H5].
  apply finish_item_ok; cbn; try apply list_elem_of_here; try done.
  - constructor; cbn; try done; intros c Hc; apply list_elem_of_further; auto.
  - intros (c & -> & Hc)%list_elem_of_fmap. by apply E5, H3.
  - intros (c & -> & Hc)%list_elem_of_fmap. by apply E4, H4.
Qed.

(** The credentials a validated configuration yields have pairwise
    distinct names and pairwise distinct environment variables, names fit to be
    file names in the store, variables that are shell names, and none that is
    reserved: also when the configuration has errors. *)
Theorem validated_credentials_distinct reserved net creds errors :
  validate_credential_entries reserved net = (creds, errors) ->
  NoDup (map cr_name creds) /\ NoDup (map cr_env creds) /\ Forall (cred_ok reserved) creds.
Proof.
  unfold validate_credential_entries. intros H.
  destruct (assoc "credential" net) as [v|]; [|injection H as <- <-; repeat constructor].
  destruct v as [| | | |raw|]; injection H as <- <-; try (repeat constructor; fail).
  assert (Hok : vstate_ok reserved (foldl (validate_item reserved) (mkV [] [] [] []) raw)).
  { assert (H0 : vstate_ok reserved (mkV [] [] [] [])) by (constructor; cbn; try constructor; set_solver).
    revert H0. generalize (mkV [] [] [] []). induction raw as [|x raw IH]; intros st H0; [done|].
    cbn [foldl]. apply IH. by apply validate_item_ok. }
  by destruct Hok.
Qed.

Definition sample_net : table :=
  [("credential", TArr [TTab [("name", TStr "key "); ("placeholder", TStr "ph"); ("env", TStr "API_KEY");
                              ("auth_format", TStr "Bearer {secret}")];
                        TTab [("name", TStr "other"); ("placeholder", TStr "p2"); ("env", TStr "OTHER")]])].

Lemma validated_credentials_distinct_witness :
  NoDup (map cr_name [mkCred "key" "ph" "API_KEY" None (Some "Bearer {secret}");
                      mkCred "other" "p2" "OTHER" None None]).
Proof.
  apply (validated_credentials_distinct ["CURL_CA_BUNDLE"] sample_net _ []). vm_compute. reflexivity.
Defined.

(** ** The parser agrees with the validator *)

Lemma app_nil {A} (l m : list A) : l ++ m = [] -> l = [] /\ m = [].
Proof. by destruct l. Qed.

Lemma optional_value_parse t k o : optional_value t k = Some o -> stripped_str t k = o.
Proof.
  unfold optional_value, stripped_str. destruct (assoc k t) as [v|]; [|by intros [= <-]].
  destruct v; try done. destruct (String.eqb _ _); [done|]. by intros [= <-].
Qed.

Lemma finish_item_clean st t n p e :
  v_errors (finish_item st t n p e) = [] ->
  v_errors st = [] /\ v_creds (finish_item st t n p e) =
    v_creds st ++ [mkCred n p e (stripped_str t "auth_header") (stripped_str t "auth_format")].
Proof.
  unfold finish_item. destruct (optional_value t "auth_header") as [h|] eqn:Eh;
    [|cbn; intros H%app_nil; naive_solver].
  apply optional_value_parse in Eh as ->.
  destruct (optional_value t "auth_format") as [f|] eqn:Ef.
  - apply optional_value_parse in Ef as ->.
    destruct h, f; cbn [err v_errors v_creds]; intros H; split; try done; by repeat apply app_nil in H as [H _].
  - destruct h; cbn [err v_errors v_creds]; intros H; apply app_nil in H as [_ H]; done.
Qed.

Lemma err_clean st e : v_errors (err st e) = [] -> e = [].
Proof. cbn. by intros [_ H]%app_nil. Qed.

Lemma validate_item_clean r st item :
  v_errors (validate_item r st item) = [] ->
  v_errors st = [] /\ exists c, parse_credential item = Some c /\
    v_creds (validate_item r st item) = v_creds st ++ [c].
Proof.
  destruct item as [| | | | |t]; try (intros H%err_clean; discriminate). cbn [validate_item].
  unfold validate_table. set (unknown := filter _ (map fst t)).
  destruct unknown as [|k ks].
  2: { repeat case_match; intros Herr; try (apply err_clean in Herr; discriminate Herr).
       apply finish_item_clean in Herr as [Herr _]. cbn in Herr. by apply app_nil in Herr as [_ Herr]. }
  destruct (required_values t) as [key|[[n p] e]] eqn:Er; [intros H%err_clean; discriminate|].
  apply required_values_inr in Er as (Hn & Hp & He).
  repeat (case_match; try (intros H'%err_clean; discriminate)).
  intros [He1 Hc1]%finish_item_clean. split; [done|]. eexists. split; [|exact Hc1].
  cbn [parse_credential]. by rewrite Hn, Hp, He.
Qed.

Lemma validated_parsed_eq reserved net creds :
  validate_credential_entries reserved net = (creds, []) ->
  creds = parse_credential_entries net.
Proof.
  unfold validate_credential_entries, parse_credential_entries. intros H.
  destruct (assoc "credential" net) as [v|]; [|by injection H].
  destruct v as [| | | |raw|]; try discriminate H.
  enough (forall st, v_errors (foldl (validate_item reserved) st raw) = [] ->
            v_errors st = [] /\
            v_creds (foldl (validate_item reserved) st raw) = v_creds st ++ omap parse_credential raw) as Hf.
  { injection H as <- He. by apply Hf in He as [_ ->]. }
  clear H. induction raw as [|x raw IH]; intros st He; cbn [foldl] in *.
  - split; [done|]. cbn. by rewrite app_nil_r.
  - apply IH in He as [He Hc]. apply validate_item_clean in He as (He & c & Hx & Hs).
    split; [done|]. cbn [foldl omap list_omap]. rewrite Hx, Hc, Hs. by rewrite <- app_assoc.
Qed.

(** A configuration that validates without errors gives the generators
    the same credentials: the lenient parser drops and changes nothing. *)
Theorem validated_equals_parsed reserved net creds :
  validate_credential_entries reserved net = (creds, []) ->
  parse_credential_entries net = creds.
Proof. by intros ->%validated_parsed_eq. Qed.

Lemma validated_equals_parsed_witness :
  parse_credential_entries sample_net =
  [mkCred "key" "ph" "API_KEY" None (Some "Bearer {secret}"); mkCred "other" "p2" "OTHER" None None].
Proof. apply (validated_equals_parsed ["CURL_CA_BUNDLE"]). vm_compute. reflexivity. Defined.
