(* ===== verification/NetworkConfig.v ===== *)
(** * Reading the network tables: [lib/container_network_config.py],
    [lib/vm_network_config.py] and [lib/egress_policy.py]

    The lenient accessors of [network] and [vm.network], the allow entries of
    both kinds of workload, the predicates that decide which egress components a
    workload gets, and the policy documents the inspector reads.

    Parameters: the resolver ([getaddrinfo]: the addresses of a name, in order,
    or [OSError]), and of the inspector's package the two redirected ports, the
    default TLS mode and [normalize_hostname]. *)
From S2P Require Import Prelude PyStr Toml Ipaddr WorkloadAddr WorkloadConfig CredentialEntries PyRe.
Local Open Scope Z_scope.

(** ** Containers *)

Definition container_policy_entries (net : table) : list policy_entry := parse_policy_entries net.
Definition container_credential_entries (net : table) : list credential := parse_credential_entries net.

(** [isinstance(h, str) and h.strip()]. *)
Definition nonblank (s : string) : bool := negb (String.eqb (strip s) "").

Definition arr_at (net : table) (key : string) : list tv :=
  match assoc key net with Some (TArr l) => l | _ => [] end.

Definition container_allowed_hosts (net : table) : list string :=
  omap (fun h => match h with TStr s => if nonblank s then Some s else None | _ => None end)
    (arr_at net "hosts").

Record allow_entry := mkAllow {
  ae_host : option string;
  ae_address : option string;
  ae_port : option Z;
  ae_reason : option string }.

Definition int_not_bool (v : option tv) : option Z :=
  match v with Some (TInt n) => Some n | _ => None end.

Definition parse_allow_entry (item : tv) : option allow_entry :=
  match item with
  | TTab t =>
      let host := stripped_str t "host" in
      let address := stripped_str t "address" in
      if bool_decide (host = None) && bool_decide (address = None) then None
      else Some (mkAllow host address (int_not_bool (assoc "port" t)) (stripped_str t "reason"))
  | _ => None
  end.

Definition container_allow_entries (net : table) : list allow_entry :=
  omap parse_allow_entry (arr_at net "allow").

Definition is_the_str (v : option tv) (s : string) : bool :=
  match v with Some (TStr s') => String.eqb s' s | _ => false end.

(** [config.get("network", {})] when it is a table. *)
Definition network_table (config : table) : option table :=
  match assoc "network" config with
  | Some (TTab t) => Some t
  | Some _ => None
  | None => Some []
  end.

Definition container_runs_on_host_network (config : table) : res bool :=
  match network_table config with
  | Some net =>
      if negb (is_the_str (assoc "mode" net) "host") then Ok false
      else catch (m ← infer_workload_mode config; Ok (negb (bool_decide (m = MBridge))))
             ValueError (Ok true)
  | None => Ok false
  end.

Definition nonempty {A} (l : list A) : bool := match l with [] => false | _ => true end.

Definition container_uses_inspect (config : table) : res bool :=
  match network_table config with
  | None => Ok false
  | Some net =>
      h ← container_runs_on_host_network config;
      Ok (if (h : bool) then false
          else nonempty (container_allowed_hosts net) || nonempty (container_policy_entries net)
               || nonempty (container_allow_entries net))
  end.

(** Resolving a name: every address once, in order. *)
Section resolve.
Variable getaddrinfo : string -> res (list string).

Definition parse_addr (s : string) : res ip :=
  match ip_address s with Some a => Ok a | None => Raise ValueError end.

Definition add_new (seen : list ip) (a : ip) : list ip :=
  if decide (a ∈ seen) then seen else seen ++ [a].

Fixpoint resolve_infos (seen : list ip) (infos : list string) : res (list ip) :=
  match infos with
  | [] => Ok seen
  | i :: infos => a ← parse_addr i; resolve_infos (add_new seen a) infos
  end.

Definition resolve_name (host : string) : res (list ip) :=
  infos ← catch (getaddrinfo host) OSError (Raise ValueError); resolve_infos [] infos.

Definition container_allow_resolve (e : allow_entry) : res (list ip) :=
  match ae_address e with
  | Some a => a ← parse_addr a; Ok [a]
  | None => resolve_name (match ae_host e with Some h => h | None => "" end)
  end.
End resolve.

Definition container_tls_mode (net : table) : option string :=
  match assoc "tls" net with Some (TStr s) => if nonblank s then Some s else None | _ => None end.
Definition container_tls_reason (net : table) : option string := stripped_str net "tls_reason".
Definition container_ca_delivery (net : table) : option string := stripped_str net "ca_delivery".
Definition container_ca_mount_path (net : table) : option string := stripped_str net "ca_mount_path".

Record host_reason := mkHR { hr_host : string; hr_reason : option string }.

Definition parse_host_reason (item : tv) : option host_reason :=
  match item with
  | TTab t => match stripped_str t "host" with
              | Some h => Some (mkHR h (stripped_str t "reason"))
              | None => None
              end
  | _ => None
  end.

Definition container_host_reason_entries (net : table) (key : string) : list host_reason :=
  omap parse_host_reason (arr_at net key).
Definition container_internal_entries (net : table) := container_host_reason_entries net "internal".
Definition container_splice_entries (net : table) := container_host_reason_entries net "splice".

Definition container_effective_tls_mode (net : table) : string :=
  match container_tls_mode net with
  | Some m => m
  | None => if nonempty (container_policy_entries net) then "inspect" else "splice"
  end.

(** ** VM allow entries *)

Record vm_allow := mkVmAllow {
  va_address : option ip;
  va_host : option string;
  va_port : Z;
  va_reason : string }.

Inductive vm_allow_error :=
  | VaBareString | VaNotTable | VaUnknownKeys (keys : list string) | VaNoAddress | VaNoReason
  | VaBadAddress | VaShape | VaPortRange (port : Z) | VaRedirected (port : Z) | VaReserved.

(** Between one and three digits. *)
Definition octet_shape (s : string) : bool :=
  all_chars is_dec s && Nat.leb 1 (String.length s) && Nat.leb (String.length s) 3.

Definition is_hex_colon (c : ascii) : bool := is_hexdigit c || Ascii.eqb c ":".

Definition all_digits (s : string) : bool := re_plus is_dec s.

(** [VM_ALLOW_ADDR_RE]: the address and port texts. *)
Definition match_allow_addr (spec : string) : option (string * string) :=
  match spec with
  | String c rest =>
      if Ascii.eqb c "[" then
        match span is_hex_colon rest with
        | (v6, String d1 (String d2 port)) =>
            if negb (String.eqb v6 "") && Ascii.eqb d1 "]" && Ascii.eqb d2 ":" && all_digits port
            then Some (v6, port) else None
        | _ => None
        end
      else
        match cut ":" spec with
        | Some (v4, port) =>
            match split_on "." v4 with
            | [a; b; c; d] => if octet_shape a && octet_shape b && octet_shape c && octet_shape d
                                 && all_digits port
                              then Some (v4, port) else None
            | _ => None
            end
        | None => None
        end
  | EmptyString => None
  end.

Definition is_label_char (c : ascii) : bool := is_alnum c || Ascii.eqb c "_" || Ascii.eqb c "-".

(** [VM_ALLOW_NAME_RE]: the host and port texts. *)
Definition match_allow_name (spec : string) : option (string * string) :=
  match cut ":" spec with
  | Some (host, port) =>
      if forallb (re_head_star is_alnum is_label_char) (split_on "." host) && all_digits port
      then Some (host, port) else None
  | None => None
  end.

(** [int] of a nonempty digit string. *)
Definition int_of (s : string) : Z := match py_int s with Some n => n | None => 0 end.

Section vm_allow.
(** [CLEARTEXT.guest_port] and [TLS.guest_port]. *)
Variables cleartext_port tls_port : Z.

(** From the port on, the same for addresses and names. *)
Definition finish_allow (filtered : bool) (addr : option ip) (host : option string)
    (port : string) (reason : string) : vm_allow_error + vm_allow :=
  let port := int_of port in
  if negb ((1 <=? port) && (port <=? 65535)) then inl (VaPortRange port)
  else if filtered && ((port =? cleartext_port) || (port =? tls_port)) then inl (VaRedirected port)
  else match addr with
       | Some a => match allow_reserved_reason a with
                   | Some _ => inl VaReserved
                   | None => inr (mkVmAllow addr host port reason)
                   end
       | None => inr (mkVmAllow addr host port reason)
       end.

Definition parse_vm_allow (filtered : bool) (entry : tv) : vm_allow_error + vm_allow :=
  match entry with
  | TStr _ => inl VaBareString
  | TTab t =>
      match filter (fun k => k ∉ ["address"; "reason"]) (map fst t) with
      | [] =>
          match stripped_str t "address" with
          | None => inl VaNoAddress
          | Some spec =>
              match stripped_str t "reason" with
              | None => inl VaNoReason
              | Some reason =>
                  match match_allow_addr spec with
                  | Some (a, port) =>
                      match ip_address a with
                      | Some addr => finish_allow filtered (Some addr) None port reason
                      | None => inl VaBadAddress
                      end
                  | None =>
                      match match_allow_name spec with
                      | Some (host, port) => finish_allow filtered None (Some host) port reason
                      | None => inl VaShape
                      end
                  end
              end
          end
      | unknown => inl (VaUnknownKeys unknown)
      end
  | _ => inl VaNotTable
  end.

(** Every entry with its addresses; the first error, of parsing or resolving,
    is the result ([ValueError] in both cases). *)
Definition vm_allow_resolved (getaddrinfo : string -> res (list string)) (allow : list tv)
    : res (list (vm_allow * list ip)) :=
  mapM_res (fun spec =>
    match parse_vm_allow true spec with
    | inl _ => Raise ValueError
    | inr e =>
        match va_address e with
        | Some a => Ok (e, [a])
        | None => l ← resolve_name getaddrinfo (match va_host e with Some h => h | None => "" end);
                  Ok (e, l)
        end
    end) allow.
End vm_allow.

(** ** Which components a workload gets *)

Definition or_empty (v : tv) : tv := if truthy v then v else TTab [].

Definition vm_network (config : table) : res tv :=
  v ← get_or (TTab config) "vm" (TTab []);
  n ← get_or (or_empty v) "network" (TTab []); Ok (or_empty n).

Definition vm_uses_inspect (config : table) : res bool :=
  if negb (has_key "vm" config) then Ok false
  else n ← vm_network config;
       match n with
       | TTab net =>
           if match assoc "bridge" net with Some b => truthy b | None => false end then Ok false
           else Ok (match assoc "egress" net with Some v => is_the_str (Some v) "filtered" | None => true end)
       | _ => Ok false
       end.

Definition vm_uses_resolve (config : table) : res bool :=
  b ← vm_uses_inspect config;
  if negb b then Ok false
  else n ← vm_network config;
       r ← get_or n "resolver" (TStr "host");
       Ok (negb (is_the_str (Some r) "none")).

Definition container_network_mode (config : table) : string :=
  let mode := match network_table config with
              | Some net => match assoc "mode" net with Some m => m | None => TStr "pasta" end
              | None => TStr "pasta"
              end in
  match cut ":" (py_str mode) with Some (m, _) => m | None => py_str mode end.

Definition container_uses_resolve (config : table) : res bool :=
  i ← container_uses_inspect config;
  if negb i then Ok false
  else match infer_workload_mode config with
       | Ok MBridge => Ok false
       | Raise ValueError => Ok false
       | Raise e => Raise e
       | Ok _ => Ok (String.eqb (container_network_mode config) "pasta")
       end.

(** ** The inspector's documents *)

Definition POLICY_METHODS : list string :=
  ["ACL"; "BASELINE-CONTROL"; "BIND"; "CHECKIN"; "CHECKOUT"; "COPY"; "DELETE";
   "GET"; "HEAD"; "LABEL"; "LINK"; "LOCK"; "MERGE"; "MKACTIVITY";
   "MKCALENDAR"; "MKCOL"; "MKREDIRECTREF"; "MKWORKSPACE"; "MOVE"; "OPTIONS";
   "ORDERPATCH"; "PATCH"; "POST"; "PROPFIND"; "PROPPATCH"; "PUT"; "REBIND";
   "REPORT"; "SEARCH"; "TRACE"; "UNBIND"; "UNCHECKOUT"; "UNLINK"; "UNLOCK";
   "UPDATE"; "UPDATEREDIRECTREF"; "VERSION-CONTROL"].
Definition POLICY_METHODS_REFUSED : list string := ["CONNECT"; "PRI"].

Definition vm_policy_entries (net : table) : list policy_entry := parse_policy_entries net.

Definition host_reason_hosts (net : table) (key : string) : list string :=
  omap (fun e => match e with
                 | TTab t => match assoc "host" t with
                             | Some (TStr h) => if nonblank h then Some (strip h) else None
                             | _ => None
                             end
                 | _ => None
                 end) (arr_at net key).
Definition internal_hosts (net : table) := host_reason_hosts net "internal".
Definition splice_hosts (net : table) := host_reason_hosts net "splice".

Definition vm_allowed_hosts (net : table) : list tv := arr_at net "hosts".

(** The document; [http2] is always empty.  A policy entry's credential is left
    out when it is absent. *)
Record inspect_policy := mkPolicyDoc {
  ip_tls : tv;
  ip_hosts : list tv;
  ip_internal_expected : list string;
  ip_splice : list string;
  ip_http2 : list string;
  ip_policy : list policy_entry }.

Definition vm_inspect_policy (tls_default : string) (net : table) : inspect_policy :=
  mkPolicyDoc (match assoc "tls" net with Some v => v | None => TStr tls_default end)
    (vm_allowed_hosts net) (internal_hosts net) (splice_hosts net) [] (vm_policy_entries net).

Definition container_inspect_policy (net : table) : inspect_policy :=
  mkPolicyDoc (TStr (container_effective_tls_mode net))
    (map TStr (container_allowed_hosts net))
    (map hr_host (container_internal_entries net)) (map hr_host (container_splice_entries net)) []
    (container_policy_entries net).

(** The names resolved at arm time, for the responder. *)
Section static.
Variable normalize_hostname : string -> string.

Definition add_text (key text : string) (m : list (string * list string)) : list (string * list string) :=
  let old := match assoc key m with Some l => l | None => [] end in
  if decide (text ∈ old) then m else assoc_set key (old ++ [text]) m.

Definition resolve_static (resolved : list (vm_allow * list ip)) : list (string * list string) :=
  foldl (fun m '(e, addrs) =>
    match va_host e with
    | None => m
    | Some h => foldl (fun m a => add_text (normalize_hostname h) (ip_str a) m) m addrs
    end) [] resolved.
End static.

(** ** VM allow entries: what is accepted *)

Lemma stripped_str_Some t k s : stripped_str t k = Some s -> nonblank s = true.
Proof.
  unfold stripped_str, nonblank. destruct (assoc k t) as [[]|]; try done.
  destruct (String.eqb _ "") eqn:E; [done|]. intros [= <-]. by rewrite strip_idem, E.
Qed.

Lemma finish_allow_inr ct tt filtered addr host port reason e :
  finish_allow ct tt filtered addr host port reason = inr e ->
  e = mkVmAllow addr host (int_of port) reason /\ 1 <= int_of port <= 65535 /\
  (filtered = true -> int_of port <> ct /\ int_of port <> tt) /\
  (forall a, addr = Some a -> allow_reserved_reason a = None).
Proof.
  unfold finish_allow. destruct (_ && _) eqn:E1; [|done]. cbn [negb].
  destruct (filtered && _) eqn:E2; [done|]. intros H.
  assert (Hr : e = mkVmAllow addr host (int_of port) reason /\
               (forall a, addr = Some a -> allow_reserved_reason a = None)).
  { destruct addr as [a|]; [|by injection H].
    destruct (allow_reserved_reason a) eqn:Ea; [done|]. injection H as <-. split; [done|].
    by intros ? [= <-]. }
  destruct Hr as [-> Hr]. split_and!; try done; try lia. all: intros ->; cbn in E2; lia.
Qed.

(** Whatever [parse_vm_allow] accepts can be armed: it names exactly one
    of an address and a host, its port is a port and, in a filtered workload,
    not one of the two that are redirected first, its address is outside the
    ranges of the inspectors, and it carries a reason. *)
Theorem parse_vm_allow_sound ct tt filtered entry e :
  parse_vm_allow ct tt filtered entry = inr e ->
  (va_address e = None <-> va_host e <> None) /\
  1 <= va_port e <= 65535 /\
  (filtered = true -> va_port e <> ct /\ va_port e <> tt) /\
  (forall a, va_address e = Some a -> allow_reserved_reason a = None) /\
  nonblank (va_reason e) = true.
Proof.
  destruct entry as [| | | | |t]; try discriminate. cbn [parse_vm_allow].
  destruct (filter _ _); [|discriminate].
  destruct (stripped_str t "address") as [spec|]; [|discriminate].
  destruct (stripped_str t "reason") as [reason|] eqn:Er; [|discriminate].
  apply stripped_str_Some in Er.
  destruct (match_allow_addr spec) as [[a port]|].
  - destruct (ip_address a) as [addr|]; [|discriminate].
    intros (-> & Hp & Hf & Ha)%finish_allow_inr. cbn. split_and!; done || naive_solver.
  - destruct (match_allow_name spec) as [[host port]|]; [|discriminate].
    intros (-> & Hp & Hf & Ha)%finish_allow_inr. cbn. split_and!; done || naive_solver.
Qed.

Definition sample_allow : tv :=
  TTab [("address", TStr "192.0.2.7:5432"); ("reason", TStr " database ")].

Lemma parse_vm_allow_sound_witness :
  1 <= 5432 <= 65535 /\ allow_reserved_reason (IPv4 3221225991) = None.
Proof.
  pose proof (parse_vm_allow_sound 80 443 true sample_allow
    (mkVmAllow (Some (IPv4 3221225991)) None 5432 "database") ltac:(vm_compute; reflexivity)) as H.
  destruct H as (_ & Hp & _ & Ha & _). split; [exact Hp|]. exact (Ha _ eq_refl).
Defined.

(** ** VM allow entries: round trip *)

Lemma octet_shape_str n : 0 <= n <= 255 -> octet_shape (str_Z n) = true.
Proof.
  intros Hn. assert (H : forallb (fun k => octet_shape (str_Z (Z.of_nat k))) (seq 0 256) = true)
    by (vm_compute; reflexivity).
  rewrite forallb_forall in H. specialize (H (Z.to_nat n)). rewrite Z2Nat.id in H by lia.
  apply H, in_seq. lia.
Qed.

Lemma v4_str_chars n c :
  Ascii.eqb c "." = false -> is_dec c = false -> has_char c (v4_str n) = false.
Proof.
  intros Hc Hd. unfold v4_str. cbn [join].
  assert (Ho : forall i, has_char c (str_Z (octet n i)) = false).
  { intros i. apply (all_chars_no_char is_dec c); [done|]. apply all_digits_str_Z, octet_bound. }
  rewrite !has_char_app, !Ho. unfold has_char, is_char. cbn [any_char]. by rewrite Hc.
Qed.

Lemma v4_str_head n : exists c r, v4_str n = String c r /\ Ascii.eqb c "[" = false.
Proof.
  unfold v4_str. pose proof (all_digits_str_Z (octet n 3) (proj1 (octet_bound n 3))) as H.
  pose proof (str_Z_nonempty (octet n 3) (proj1 (octet_bound n 3))) as Hne.
  destruct (str_Z (octet n 3)) as [|c r]; [done|]. cbn in H. apply andb_prop in H as [Hc _].
  exists c. eexists. split; [reflexivity|]. destruct (Ascii.eqb_spec c "["); [by subst|done].
Qed.

Lemma match_allow_addr_v4 n port :
  0 <= port -> match_allow_addr (v4_str n +:+ ":" +:+ str_Z port) = Some (v4_str n, str_Z port).
Proof.
  intros Hp. unfold match_allow_addr. destruct (v4_str_head n) as (c & r & Hv & Hc).
  assert (Hcut : cut ":" (v4_str n +:+ ":" +:+ str_Z port) = Some (v4_str n, str_Z port)).
  { change (":" +:+ str_Z port) with (String ":" (str_Z port)). apply cut_app. by apply v4_str_chars. }
  assert (Hs : split_on "." (v4_str n)
    = [str_Z (octet n 3); str_Z (octet n 2); str_Z (octet n 1); str_Z (octet n 0)]).
  { unfold v4_str. change "."%string with (chr ".").
    rewrite split_on_join; [done|done|repeat constructor; apply str_Z_no_dot, octet_bound]. }
  rewrite Hv in *. change (String c r +:+ ":" +:+ str_Z port) with (String c (r +:+ ":" +:+ str_Z port)) in *.
  cbv beta iota. rewrite Hc, Hcut, Hs.
  assert (Ho : forall i, octet_shape (str_Z (octet n i)) = true)
    by (intros i; apply octet_shape_str; pose proof (octet_bound n i); lia).
  rewrite !Ho. unfold all_digits. by rewrite str_Z_digits.
Qed.

(** The entry an operator writes for an IPv4 address and a port is read
    back as that address and port, or refused for the stated reason: the port is
    redirected, or the address belongs to the inspectors. *)
Theorem parse_vm_allow_v4 ct tt filtered n port reason :
  0 <= n < 2 ^ 32 -> 1 <= port <= 65535 -> nonblank reason = true ->
  parse_vm_allow ct tt filtered
    (TTab [("address", TStr (v4_str n +:+ ":" +:+ str_Z port)); ("reason", TStr reason)]) =
  if filtered && ((port =? ct) || (port =? tt)) then inl (VaRedirected port)
  else match allow_reserved_reason (IPv4 n) with
       | Some _ => inl VaReserved
       | None => inr (mkVmAllow (Some (IPv4 n)) None port (strip reason))
       end.
Proof.
  intros Hn Hport Hr. set (spec := v4_str n +:+ ":" +:+ str_Z port).
  assert (Hstrip : strip spec = spec).
  { apply strip_by_id. unfold spec, v4_str. cbn [join]. rewrite !all_chars_app.
    by rewrite !no_space_str_Z by (apply octet_bound || lia). }
  unfold parse_vm_allow. cbn [map fst]. rewrite filter_cons_False, filter_cons_False by set_solver.
  rewrite filter_nil. unfold stripped_str. cbn [assoc].
  rewrite decide_True by done. rewrite Hstrip.
  assert (String.eqb spec "" = false) as ->.
  { unfold spec. destruct (v4_str_head n) as (c & r & -> & _). done. }
  rewrite decide_False, decide_True by done. unfold nonblank in Hr. apply negb_true_iff in Hr. rewrite Hr.
  unfold spec. rewrite match_allow_addr_v4 by lia. rewrite ip_address_v4_str by done.
  unfold finish_allow, int_of. rewrite py_int_str_Z by lia.
  assert ((1 <=? port) && (port <=? 65535) = true) as -> by lia. done.
Qed.

Lemma parse_vm_allow_v4_witness :
  parse_vm_allow 80 443 true (TTab [("address", TStr "192.0.2.7:5432"); ("reason", TStr "db")])
  = inr (mkVmAllow (Some (IPv4 3221225991)) None 5432 "db").
Proof.
  exact (parse_vm_allow_v4 80 443 true 3221225991 5432 "db" ltac:(lia) ltac:(lia) eq_refl).
Defined.

(** ** The resolved names *)

(** [text] is listed under [key]. *)
Definition listed (m : list (string * list string)) (key text : string) : Prop :=
  exists l, assoc key m = Some l /\ text ∈ l.

Definition lists_distinct (m : list (string * list string)) : Prop :=
  forall key l, assoc key m = Some l -> NoDup l.

Lemma add_text_listed key text m k t :
  listed (add_text key text m) k t <-> listed m k t \/ (k = key /\ t = text).
Proof.
  unfold add_text, listed. set (old := match assoc key m with Some l => l | None => [] end).
  destruct (decide (text ∈ old)) as [Hin|Hin].
  - split; [by left|]. intros [H|[-> ->]]; [done|]. unfold old in Hin.
    destruct (assoc key m) as [l|]; [eauto|by apply not_elem_of_nil in Hin].
  - destruct (decide (k = key)) as [->|Hne].
    + rewrite assoc_set_same. split.
      * intros (l & [= <-] & [Hl|Hl%list_elem_of_singleton]%elem_of_app); [|auto]. left.
        unfold old in Hl. destruct (assoc key m); [eauto|by apply not_elem_of_nil in Hl].
      * intros H. eexists. split; [done|]. apply elem_of_app.
        destruct H as [(l & Hl & Ht)|[_ ->]]; [left; unfold old; by rewrite Hl|right; by apply list_elem_of_singleton].
    + rewrite assoc_set_other by congruence. naive_solver.
Qed.

Lemma add_text_distinct key text m : lists_distinct m -> lists_distinct (add_text key text m).
Proof.
  intros Hm k l. unfold add_text. set (old := match assoc key m with Some l => l | None => [] end).
  destruct (decide (text ∈ old)) as [|Hin]; [apply Hm|].
  destruct (decide (k = key)) as [->|Hne]; [|rewrite assoc_set_other by congruence; apply Hm].
  rewrite assoc_set_same. intros [= <-]. apply NoDup_app. split_and!.
  - unfold old. destruct (assoc key m) eqn:E; [by eapply Hm|constructor].
  - set_solver.
  - apply NoDup_singleton.
Qed.

Lemma foldl_add_text key addrs m :
  lists_distinct m ->
  lists_distinct (foldl (fun m a => add_text key (ip_str a) m) m addrs) /\
  forall k t, listed (foldl (fun m a => add_text key (ip_str a) m) m addrs) k t <->
    listed m k t \/ (k = key /\ exists a, a ∈ addrs /\ t = ip_str a).
Proof.
  revert m. induction addrs as [|a addrs IH]; intros m Hm; cbn [foldl].
  - split; [done|]. set_solver.
  - destruct (IH _ (add_text_distinct key (ip_str a) m Hm)) as [H1 H2]. split; [done|].
    intros k t. rewrite H2, add_text_listed. set_solver.
Qed.

(** The static answers hold, under each normalised name, exactly the
    addresses of the allow entries of that name, each once; entries that give an
    address are not listed. *)
Theorem resolve_static_spec normalize resolved :
  lists_distinct (resolve_static normalize resolved) /\
  forall key text, listed (resolve_static normalize resolved) key text <->
    exists e addrs h a, (e, addrs) ∈ resolved /\ va_host e = Some h /\ normalize h = key /\
      a ∈ addrs /\ text = ip_str a.
Proof.
  unfold resolve_static.
  assert (H : forall m, lists_distinct m ->
    let r := foldl (fun m '(e, addrs) => match va_host e with None => m
      | Some h => foldl (fun m a => add_text (normalize h) (ip_str a) m) m addrs end) m resolved in
    lists_distinct r /\ forall key text, listed r key text <-> listed m key text \/
      exists e addrs h a, (e, addrs) ∈ resolved /\ va_host e = Some h /\ normalize h = key /\
        a ∈ addrs /\ text = ip_str a).
  { induction resolved as [|[e addrs] resolved IH]; intros m Hm; cbn [foldl].
    - split; [done|]. intros key text. split; [by left|]. intros [H|H]; [done|]. set_solver.
    - destruct (va_host e) as [h|] eqn:Eh.
      + destruct (foldl_add_text (normalize h) addrs m Hm) as [H1 H2].
        destruct (IH _ H1) as [H3 H4]. split; [done|]. intros key text. rewrite H4, H2.
        set_unfold. naive_solver.
      + destruct (IH _ Hm) as [H3 H4]. split; [done|]. intros key text. rewrite H4.
        set_unfold. naive_solver. }
  destruct (H []) as [H1 H2]; [intros ? ? [=]|]. split; [done|]. intros key text. rewrite H2.
  split; [|by right]. intros [(l & [=] & _)|]; done.
Qed.

(** The VM and the container form of the inspector's document agree on
    one network table: the same internal destinations, spliced hosts and policy. *)
Theorem inspect_documents_agree tls net :
  ip_internal_expected (vm_inspect_policy tls net) = ip_internal_expected (container_inspect_policy net) /\
  ip_splice (vm_inspect_policy tls net) = ip_splice (container_inspect_policy net) /\
  ip_policy (vm_inspect_policy tls net) = ip_policy (container_inspect_policy net).
Proof.
  assert (H : forall key, host_reason_hosts net key = map hr_host (container_host_reason_entries net key)).
  { intros key. unfold host_reason_hosts, container_host_reason_entries.
    induction (arr_at net key) as [|v l IH]; [done|]. cbn [omap list_omap].
    destruct v as [| | | | |t]; try exact IH.
    cbn [parse_host_reason]. unfold stripped_str at 1.
    destruct (assoc "host" t) as [[h| | | | |]|]; try exact IH.
    change (nonblank h) with (negb (String.eqb (strip h) "")). destruct (String.eqb (strip h) ""); cbn [negb map]; [exact IH|]. by rewrite IH. }
  split_and!; [apply H|apply H|done].
Qed.
