(* ===== verification/ContainerValidate.v ===== *)
(** * Validation of a container's [network] table: [lib/container_validate.py]

    The validator as the source has it, one definition per block, with a
    constructor of [net_error] for each message.  Parameters: the two pattern
    functions of the inspector's package, [patterns_overlap] and
    [hostname_match].

    The theorems connect it with the lenient accessors of [NetworkConfig], which
    the generators and the arm step use: on a table without errors the accessors
    lose nothing, and what they return can be enforced. *)
From S2P Require Import Prelude PyStr Toml WorkloadConfig CredentialEntries NetworkConfig.
Local Open Scope Z_scope.

Inductive net_error :=
  | NeNotTable
  | NePortsType | NePortBlank (i : nat) | NePortChars (i : nat) (spec : string)
  | NeHttp2
  | NeHostMode (keys : list string)
  | NeHostsType | NeHostsPattern (e : host_pattern_error)
  | NeAllowType | NeAllowItem | NeAllowNeither | NeAllowBoth
  | NeAllowPort | NeAllowRedirected (port : Z) | NeAllowReason
  | NeHrType (key : string) | NeHrItem (key : string) | NeHrNoHost (key : string)
  | NeHrPattern (key : string) (e : host_pattern_error) | NeHrReason (key host : string)
  | NeSpliceUncovered (host : string)
  | NeCred (e : cred_error)
  | NePolicyType | NePolicyItem | NePolicyUnknown (keys : list string) | NePolicyNoHost
  | NePolicyPattern (e : host_pattern_error)
  | NeMethodsType (host : string) | NeMethodToken (host : string)
  | NeMethodRefused (host token : string) | NeMethodUnknown (host token : string) | NeMethodsEmpty (host : string)
  | NePathsType (host : string) | NePathBlank (host : string)
  | NePathShape (host path : string) | NePathsEmpty (host : string)
  | NePolicyCredType (host : string) | NePolicyCredUndeclared (host cred : string)
  | NePolicyCredWildcard (host cred : string)
  | NeCredUnselected (name : string)
  | NeInternalUnlisted (host : string)
  | NePolicyTlsSplice | NePolicySpliced (host spliced : string)
  | NePolicyOverlap (host sibling : string) (missing : list string)
  | NePolicyApex (apex : string)
  | NeTlsValue (tls : string) | NeTlsNoReason | NeTlsReasonUnused
  | NeCaRequired | NeCaValue (v : string) | NeCaMountPath | NeCaMountUnused
  | NeSpliceRedundant (host : string).

(** ** Publish specifications *)

Definition is_publish_char (c : ascii) : bool :=
  is_alnum c || Ascii.eqb c ":" || Ascii.eqb c "." || Ascii.eqb c "[" || Ascii.eqb c "]"
  || Ascii.eqb c "-" || Ascii.eqb c "/".

Definition validate_publish_spec (i : nat) (spec : tv) : list net_error :=
  match spec with
  | TStr s => if negb (nonblank s) then [NePortBlank i]
              else if negb (all_chars is_publish_char s) then [NePortChars i s] else []
  | _ => [NePortBlank i]
  end.

Definition validate_publish_ports (ports : option tv) : list net_error :=
  match ports with
  | None => []
  | Some (TArr l) => concat (imap validate_publish_spec l)
  | Some _ => [NePortsType]
  end.

(** ** [hosts] and [allow] *)

Definition validate_hosts (net : table) : list net_error * list string :=
  match assoc "hosts" net with
  | None => ([], [])
  | Some (TArr l) =>
      (map NeHostsPattern (concat (map validate_host_pattern l)),
       omap (fun h => match h with TStr s => if nonblank s then Some (strip s) else None | _ => None end) l)
  | Some _ => ([NeHostsType], [])
  end.

Definition has_reason (t : table) : bool :=
  match assoc "reason" t with Some (TStr s) => nonblank s | _ => false end.

Definition validate_allow_item (item : tv) : list net_error :=
  match item with
  | TTab t =>
      match stripped_str t "host", stripped_str t "address" with
      | None, None => [NeAllowNeither]
      | Some _, Some _ => [NeAllowBoth]
      | _, _ =>
          match assoc "port" t with
          | Some (TInt port) =>
              if negb ((1 <=? port) && (port <=? 65535)) then [NeAllowPort]
              else if (port =? 80) || (port =? 443) then [NeAllowRedirected port] else []
          | _ => [NeAllowPort]
          end ++ (if has_reason t then [] else [NeAllowReason])
      end
  | _ => [NeAllowItem]
  end.

Definition validate_allow (net : table) : list net_error :=
  match assoc "allow" net with
  | None => []
  | Some (TArr l) => concat (map validate_allow_item l)
  | Some _ => [NeAllowType]
  end.

(** ** [internal] and [splice] *)

(** The host an item contributes, and its errors. *)
Definition validate_host_reason (key : string) (item : tv) : list string * list net_error :=
  match item with
  | TTab t =>
      match assoc "host" t with
      | None => ([], [NeHrNoHost key])
      | Some h =>
          match validate_host_pattern h with
          | [] => let host := match h with TStr s => strip s | _ => "" end in
                  ([host], if has_reason t then [] else [NeHrReason key host])
          | problems => ([], map (NeHrPattern key) problems)
          end
      end
  | _ => ([], [NeHrItem key])
  end.

Definition validate_host_reason_array (net : table) (key : string) : list string * list net_error :=
  match assoc key net with
  | None => ([], [])
  | Some (TArr l) => let rs := map (validate_host_reason key) l in
                     (concat (map fst rs), concat (map snd rs))
  | Some _ => ([], [NeHrType key])
  end.

(** ** [policy] *)

Definition validate_method (host : string) (token : tv) : option string * list net_error :=
  match token with
  | TStr s =>
      if negb (String.eqb s (strip s)) || any_char is_space s then (None, [NeMethodToken host])
      else let name := upper s in
           if bool_decide (name ∈ POLICY_METHODS_REFUSED) then (None, [NeMethodRefused host s])
           else if negb (bool_decide (name ∈ POLICY_METHODS)) then (None, [NeMethodUnknown host s])
           else (Some name, [])
  | _ => (None, [NeMethodToken host])
  end.

Definition validate_methods (host : string) (value : option tv) : option (list string) * list net_error :=
  match value with
  | None => (None, [])
  | Some (TArr l) =>
      let rs := map (validate_method host) l in
      (Some (omap fst rs),
       concat (map snd rs) ++ (if nonempty l then [] else [NeMethodsEmpty host]))
  | Some _ => (Some [], [NeMethodsType host])
  end.

Definition validate_path (host : string) (pattern : tv) : option string * list net_error :=
  match pattern with
  | TStr s =>
      if negb (nonblank s) then (None, [NePathBlank host])
      else if negb (starts_with "/" s) || has_char "?" s || has_char "#" s
      then (None, [NePathShape host s])
      else (Some s, [])
  | _ => (None, [NePathBlank host])
  end.

Definition validate_paths (host : string) (value : option tv) : option (list string) * list net_error :=
  match value with
  | None => (None, [])
  | Some (TArr l) =>
      let rs := map (validate_path host) l in
      (Some (omap fst rs),
       concat (map snd rs) ++ (if nonempty l then [] else [NePathsEmpty host]))
  | Some _ => (Some [], [NePathsType host])
  end.

Definition validate_policy_credential (names : list string) (host : string) (t : table)
    : option string * list net_error :=
  match assoc "credential" t with
  | None => (None, [])
  | Some _ =>
      match stripped_str t "credential" with
      | None => (None, [NePolicyCredType host])
      | Some c => (Some c,
                   (if bool_decide (c ∈ names) then [] else [NePolicyCredUndeclared host c]) ++
                   (if has_char "*" host then [NePolicyCredWildcard host c] else []))
      end
  end.

Definition POLICY_KEYS : list string := ["host"; "methods"; "paths"; "credential"].

Definition validate_policy_item (names : list string) (item : tv) : option policy_entry * list net_error :=
  match item with
  | TTab t =>
      let unknown := filter (fun k => k ∉ POLICY_KEYS) (map fst t) in
      let e0 := if nonempty unknown then [NePolicyUnknown unknown] else [] in
      match assoc "host" t with
      | None => (None, e0 ++ [NePolicyNoHost])
      | Some h =>
          match validate_host_pattern h with
          | [] =>
              let host := match h with TStr s => strip s | _ => "" end in
              let '(methods, e1) := validate_methods host (assoc "methods" t) in
              let '(paths, e2) := validate_paths host (assoc "paths" t) in
              let '(credential, e3) := validate_policy_credential names host t in
              (Some (mkPolicy host methods paths credential), e0 ++ e1 ++ e2 ++ e3)
          | problems => (None, e0 ++ map NePolicyPattern problems)
          end
      end
  | _ => (None, [NePolicyItem])
  end.

Definition validate_policy (names : list string) (net : table) : list policy_entry * list net_error :=
  match assoc "policy" net with
  | None => ([], [])
  | Some (TArr l) => let rs := map (validate_policy_item names) l in
                     (omap fst rs, concat (map snd rs))
  | Some _ => ([], [NePolicyType])
  end.

Section validate.
Variable patterns_overlap : string -> string -> bool.
Variable hostname_match : string -> list string -> bool.

Definition overlaps_any (host : string) (patterns : list string) : bool :=
  existsb (patterns_overlap host) patterns.

Definition check_splice_covered (splice hosts : list string) : list net_error :=
  concat (map (fun h => if overlaps_any h hosts then [] else [NeSpliceUncovered h]) splice).

Definition check_credentials_selected (creds : list credential) (policy : list policy_entry) : list net_error :=
  concat (map (fun c => if existsb (fun e => bool_decide (pe_credential e = Some (cr_name c))) policy
                        then [] else [NeCredUnselected (cr_name c)]) creds).

Definition check_internal_listed (internal hosts policy_hosts : list string) : list net_error :=
  concat (map (fun h => if overlaps_any h hosts || overlaps_any h policy_hosts
                        then [] else [NeInternalUnlisted h]) internal).

(** ** Rules between the policy entries and the rest *)

Definition check_policy_spliced (policy : list policy_entry) (splice : list string) : list net_error :=
  omap (fun e => match List.find (patterns_overlap (pe_host e)) splice with
                 | Some s => Some (NePolicySpliced (pe_host e) s)
                 | None => None
                 end) policy.

(** The other entries whose patterns overlap the [i]-th. *)
Definition siblings (policy : list policy_entry) (i : nat) (e : policy_entry) : list policy_entry :=
  omap (fun x => x) (imap (fun j o => if negb (Nat.eqb j i) && patterns_overlap (pe_host e) (pe_host o)
                                      then Some o else None) policy).

Definition missing_keys (e : policy_entry) : list string :=
  (if bool_decide (pe_methods e = None) then ["methods"] else []) ++
  (if bool_decide (pe_paths e = None) then ["paths"] else []).

Definition check_policy_overlap (policy : list policy_entry) : list net_error :=
  omap (fun x => x) (imap (fun i e =>
    match siblings policy i e with
    | [] => None
    | s :: _ => if nonempty (missing_keys e)
                then Some (NePolicyOverlap (pe_host e) (pe_host s) (missing_keys e)) else None
    end) policy).

Definition check_policy_apex (hosts : list string) (policy : list policy_entry) : list net_error :=
  omap (fun apex =>
    if negb (existsb (fun e => String.eqb (lower (strip (pe_host e))) (lower ("*." +:+ apex))) policy) then None
    else if existsb (fun e => hostname_match apex [pe_host e]) policy then None
    else Some (NePolicyApex apex)) hosts.

Definition check_policy (net : table) (hosts splice : list string) (policy : list policy_entry) : list net_error :=
  if negb (nonempty policy) then []
  else (if bool_decide (container_tls_mode net = Some "splice") then [NePolicyTlsSplice] else []) ++
       check_policy_spliced policy splice ++ check_policy_overlap policy ++ check_policy_apex hosts policy.

(** ** TLS mode and trust delivery *)

Definition check_tls (net : table) : list net_error :=
  let explicit := container_tls_mode net in
  let reason := container_tls_reason net in
  match explicit with
  | Some m => if negb (String.eqb m "inspect") && negb (String.eqb m "splice") then [NeTlsValue m] else []
  | None => []
  end ++
  (if bool_decide (explicit = Some "splice") && bool_decide (reason = None) then [NeTlsNoReason] else []) ++
  (if negb (bool_decide (reason = None)) && negb (bool_decide (explicit = Some "splice"))
   then [NeTlsReasonUnused] else []).

Definition check_ca (net : table) (hosts : list string) (policy : list policy_entry) : list net_error :=
  let delivery := container_ca_delivery net in
  let mount_path := container_ca_mount_path net in
  let triggered := nonempty hosts || nonempty policy
                   || match assoc "allow" net with Some v => truthy v | None => false end in
  (if triggered && String.eqb (container_effective_tls_mode net) "inspect" then
     match delivery with
     | None => [NeCaRequired]
     | Some d => if negb (bool_decide (d ∈ ["env"; "mount"; "image"])) then [NeCaValue d]
                 else if String.eqb d "mount" && bool_decide (mount_path = None) then [NeCaMountPath]
                 else []
     end
   else []) ++
  (if negb (bool_decide (mount_path = None)) && negb (bool_decide (delivery = Some "mount"))
   then [NeCaMountUnused] else []).

Definition check_splice_redundant (net : table) (splice : list string) : list net_error :=
  if String.eqb (container_effective_tls_mode net) "splice" then map NeSpliceRedundant splice else [].

(** ** The whole *)

Definition EGRESS_KEYS : list string :=
  ["hosts"; "policy"; "allow"; "internal"; "splice"; "tls"; "ca_delivery"; "credential"].

Definition named_keys (net : table) : list string :=
  List.filter (fun k => match assoc k net with Some v => truthy v | None => false end) EGRESS_KEYS.

(** Every rule after the one on host networking. *)
Definition validate_egress (reserved_env : list string) (net : table) : list net_error :=
  let '(hosts_errors, hosts) := validate_hosts net in
  let '(internal, internal_errors) := validate_host_reason_array net "internal" in
  let '(splice, splice_errors) := validate_host_reason_array net "splice" in
  let '(creds, cred_errors) := validate_credential_entries reserved_env net in
  let '(policy, policy_errors) := validate_policy (map cr_name creds) net in
  hosts_errors ++ validate_allow net ++ internal_errors ++ splice_errors ++
  check_splice_covered splice hosts ++ map NeCred cred_errors ++ policy_errors ++
  check_credentials_selected creds policy ++
  check_internal_listed internal hosts (map pe_host policy) ++
  check_policy net hosts splice policy ++ check_tls net ++ check_ca net hosts policy ++
  check_splice_redundant net splice.

Definition RESERVED_GUEST_ENV : list string :=
  ["SSL_CERT_FILE"; "NODE_EXTRA_CA_CERTS"; "REQUESTS_CA_BUNDLE"; "GIT_SSL_CAINFO"; "PIP_CERT"].

Definition validate_container_network (net : tv) (config : option table) : res (list net_error) :=
  match net with
  | TTab net =>
      let errors := validate_publish_ports (assoc "ports" net) ++
                    (if has_key "http2" net then [NeHttp2] else []) in
      on_host ← match config with
                | Some c => container_runs_on_host_network c
                | None => Ok (is_the_str (assoc "mode" net) "host")
                end;
      if (on_host : bool) && nonempty (named_keys net)
      then Ok (errors ++ [NeHostMode (named_keys net)])
      else Ok (errors ++ validate_egress RESERVED_GUEST_ENV net)
  | _ => Ok [NeNotTable]
  end.
End validate.

(** ** Tables without errors *)

Lemma concat_map_nil {A B} (f : A -> list B) l :
  concat (map f l) = [] <-> Forall (fun x => f x = []) l.
Proof.
  induction l as [|x l IH]; cbn; [split; constructor|]. rewrite Forall_cons, <- IH. split.
  - by intros [? ?]%app_nil.
  - by intros [-> ->].
Qed.

Lemma concat_imap_nil {A B} (f : nat -> A -> list B) l :
  concat (imap f l) = [] <-> (forall i x, l !! i = Some x -> f i x = []).
Proof.
  revert f. induction l as [|x l IH]; intros f; cbn [imap concat].
  { split; [intros _ i x H; by rewrite lookup_nil in H | done]. }
  split.
  - intros [H1 H2]%app_nil [|i] y Hy; cbn in Hy; [by injection Hy as <-|]. by apply (proj1 (IH _) H2).
  - intros H. rewrite (H 0%nat x eq_refl). cbn. apply IH. intros i y Hy. by apply (H (S i)).
Qed.

Lemma omap_nil {A B} (f : A -> option B) l : omap f l = [] <-> Forall (fun x => f x = None) l.
Proof.
  induction l as [|x l IH]; cbn [omap list_omap]; [split; [constructor|done]|].
  rewrite Forall_cons, <- IH. destruct (f x); naive_solver.
Qed.

Lemma pattern_ok_stripped t v :
  assoc "host" t = Some v -> validate_host_pattern v = [] ->
  exists s, v = TStr s /\ stripped_str t "host" = Some (strip s).
Proof.
  intros Ht [s (-> & Hr & _)]%validate_host_pattern_iff. exists s. split; [done|].
  unfold stripped_str. rewrite Ht. apply andb_prop in Hr as [Hne%negb_true_iff%bool_decide_eq_false _].
  by rewrite (proj2 (String.eqb_neq _ _) Hne).
Qed.

(** *** Policy entries *)

Lemma validate_method_clean host v o :
  validate_method host v = (o, []) -> exists s, v = TStr s /\ o = Some (upper s).
Proof.
  destruct v as [s| | | | |]; cbn [validate_method]; try discriminate.
  repeat case_match; intros [= <-]. eauto.
Qed.

Lemma validate_path_clean host v o :
  validate_path host v = (o, []) -> exists s, v = TStr s /\ o = Some s.
Proof.
  destruct v as [s| | | | |]; cbn [validate_path]; try discriminate.
  repeat case_match; intros [= <-]. eauto.
Qed.

(** A list each of whose items is clean is kept whole. *)
Lemma clean_items {A} (f : tv -> option string * list A) (g : string -> string) l :
  (forall v o, f v = (o, []) -> exists s, v = TStr s /\ o = Some (g s)) ->
  concat (map snd (map f l)) = [] ->
  omap fst (map f l) = omap (fun v => match v with TStr s => Some (g s) | _ => None end) l.
Proof.
  intros Hf. induction l as [|v l IH]; [done|]. cbn [map concat]. intros [H1 H2]%app_nil.
  destruct (f v) as [o e] eqn:E. cbn [snd] in H1. subst e. apply Hf in E as (s & -> & ->).
  cbn [omap list_omap fst]. by rewrite IH.
Qed.

Lemma validate_methods_clean host v m :
  validate_methods host v = (m, []) -> normalise_policy_list v true = m.
Proof.
  destruct v as [[| | | |l|]|]; cbn [validate_methods normalise_policy_list]; try discriminate;
    [|by intros [= <-]].
  intros H. injection H as <- H. apply app_nil in H as [H _]. f_equal. symmetry.
  apply (clean_items (validate_method host) upper); [apply validate_method_clean|done].
Qed.

Lemma validate_paths_clean host v m :
  validate_paths host v = (m, []) -> normalise_policy_list v false = m.
Proof.
  destruct v as [[| | | |l|]|]; cbn [validate_paths normalise_policy_list]; try discriminate;
    [|by intros [= <-]].
  intros H. injection H as <- H. apply app_nil in H as [H _]. f_equal. symmetry.
  apply (clean_items (validate_path host) (fun s => s)); [apply validate_path_clean|done].
Qed.

Lemma validate_policy_credential_clean names host t c :
  validate_policy_credential names host t = (c, []) ->
  stripped_str t "credential" = c /\ forall x, c = Some x -> x ∈ names /\ has_char "*" host = false.
Proof.
  unfold validate_policy_credential. destruct (assoc "credential" t) eqn:E.
  - destruct (stripped_str t "credential") as [x|] eqn:Es; [|discriminate].
    intros H. injection H as <- H. apply app_nil in H as [H1 H2]. split; [done|].
    intros y [= <-]. case_bool_decide; [|done]. by destruct (has_char "*" host).
  - intros [= <-]. split; [|done]. unfold stripped_str. by rewrite E.
Qed.

Lemma validate_policy_item_clean names item o :
  validate_policy_item names item = (o, []) ->
  exists e, o = Some e /\ parse_policy_entry item = Some e /\
    forall x, pe_credential e = Some x -> x ∈ names.
Proof.
  destruct item as [| | | | |t]; try discriminate. cbn [validate_policy_item].
  set (e0 := if nonempty _ then _ else _). destruct (assoc "host" t) as [h|] eqn:Eh.
  2: { intros H. injection H as _ H. by apply app_nil in H as [_ H]. }
  destruct (validate_host_pattern h) as [|p ps] eqn:Ep.
  2: { intros H. injection H as _ H. by apply app_nil in H as [_ H]. }
  destruct (pattern_ok_stripped t h Eh Ep) as (s & -> & Hs).
  destruct (validate_methods (strip s) (assoc "methods" t)) as [m e1] eqn:E1.
  destruct (validate_paths (strip s) (assoc "paths" t)) as [p e2] eqn:E2.
  destruct (validate_policy_credential names (strip s) t) as [c e3] eqn:E3.
  intros H. injection H as <- H. apply app_nil in H as [_ [-> [-> ->]%app_nil]%app_nil].
  apply validate_methods_clean in E1. apply validate_paths_clean in E2.
  apply validate_policy_credential_clean in E3 as [E3 Hc].
  eexists. split; [done|]. split; [|cbn; intros x Hx; by apply Hc].
  cbn [parse_policy_entry]. by rewrite Hs, E1, E2, E3.
Qed.

Lemma policy_items_clean names l :
  concat (map snd (map (validate_policy_item names) l)) = [] ->
  omap fst (map (validate_policy_item names) l) = omap parse_policy_entry l /\
  length (omap parse_policy_entry l) = length l /\
  Forall (fun e => forall x, pe_credential e = Some x -> x ∈ names) (omap parse_policy_entry l).
Proof.
  induction l as [|v l IH]; [by repeat split|]. cbn [map concat]. intros [H1 H2]%app_nil.
  destruct (IH H2) as (I1 & I2 & I3). destruct (validate_policy_item names v) as [o e] eqn:E.
  cbn [snd] in H1. subst e. apply validate_policy_item_clean in E as (e & -> & Hp & Hc).
  cbn [omap list_omap fst]. rewrite Hp, I1. cbn [length]. split_and!; [done|by rewrite I2|by constructor].
Qed.

Lemma validate_policy_clean names net policy :
  validate_policy names net = (policy, []) ->
  policy = container_policy_entries net /\
  length policy = length (arr_at net "policy") /\
  Forall (fun e => forall x, pe_credential e = Some x -> x ∈ names) policy.
Proof.
  unfold validate_policy, container_policy_entries, parse_policy_entries, arr_at.
  destruct (assoc "policy" net) as [[| | | |l|]|]; try discriminate.
  - intros H. injection H as <- H. apply policy_items_clean in H as (-> & H2 & H3). done.
  - intros [= <-]. by repeat split.
Qed.

(** *** Hosts with a reason *)

Lemma validate_host_reason_clean key v hs :
  validate_host_reason key v = (hs, []) ->
  exists e, parse_host_reason v = Some e /\ hs = [hr_host e] /\ hr_reason e <> None.
Proof.
  destruct v as [| | | | |t]; try discriminate. cbn [validate_host_reason].
  destruct (assoc "host" t) as [h|] eqn:Eh; [|discriminate].
  destruct (validate_host_pattern h) as [|p ps] eqn:Ep; [|discriminate].
  destruct (pattern_ok_stripped t h Eh Ep) as (s & -> & Hs).
  destruct (has_reason t) eqn:Er; intros [= <-].
  exists (mkHR (strip s) (stripped_str t "reason")). cbn [parse_host_reason]. rewrite Hs.
  split_and!; [done..|]. cbn. unfold has_reason, stripped_str, nonblank in *.
  destruct (assoc "reason" t) as [[r| | | | |]|]; try discriminate.
  by destruct (String.eqb (strip r) "").
Qed.

Lemma host_reason_array_clean net key hs :
  validate_host_reason_array net key = (hs, []) ->
  hs = map hr_host (container_host_reason_entries net key) /\
  length hs = length (arr_at net key) /\
  Forall (fun e => hr_reason e <> None) (container_host_reason_entries net key).
Proof.
  unfold validate_host_reason_array, container_host_reason_entries, arr_at.
  destruct (assoc key net) as [[| | | |l|]|]; try discriminate; [|by intros [= <-]; repeat split].
  intros H. injection H as <- H. induction l as [|v l IH]; [by repeat split|].
  cbn [map concat] in *. apply app_nil in H as [H1 H2]. destruct (IH H2) as (I1 & I2 & I3).
  destruct (validate_host_reason key v) as [h e] eqn:E. cbn [snd] in H1. subst e.
  apply validate_host_reason_clean in E as (e & He & -> & Hr). cbn [omap list_omap fst snd].
  rewrite He, I1. cbn [app length map]. rewrite length_map in *.
  split_and!; [done| |by constructor]. rewrite <- I2, I1, length_map. done.
Qed.

(** *** Allow entries *)

Definition allow_ok (e : allow_entry) : Prop :=
  (ae_host e = None <-> ae_address e <> None) /\
  (exists p, ae_port e = Some p /\ 1 <= p <= 65535 /\ p <> 80 /\ p <> 443) /\
  ae_reason e <> None.

Lemma has_reason_stripped t : has_reason t = true -> stripped_str t "reason" <> None.
Proof.
  unfold has_reason, stripped_str, nonblank. destruct (assoc "reason" t) as [[r| | | | |]|]; try discriminate.
  by destruct (String.eqb (strip r) "").
Qed.

Lemma validate_allow_item_clean item :
  validate_allow_item item = [] -> exists e, parse_allow_entry item = Some e /\ allow_ok e.
Proof.
  destruct item as [| | | | |t]; try discriminate. cbn [validate_allow_item parse_allow_entry].
  assert (Hport : forall rest, match assoc "port" t with
      | Some (TInt port) => if negb ((1 <=? port) && (port <=? 65535)) then [NeAllowPort]
                            else if (port =? 80) || (port =? 443) then [NeAllowRedirected port] else []
      | _ => [NeAllowPort] end ++ (if has_reason t then [] else rest) = [] -> rest <> [] ->
    (exists p, int_not_bool (assoc "port" t) = Some p /\ 1 <= p <= 65535 /\ p <> 80 /\ p <> 443) /\
    stripped_str t "reason" <> None).
  { intros rest [H1 H2]%app_nil Hr. split; [|destruct (has_reason t) eqn:E; [by apply has_reason_stripped|done]].
    destruct (assoc "port" t) as [[|p| | | |]|]; try discriminate. exists p. cbn.
    destruct ((1 <=? p) && (p <=? 65535)) eqn:E1; [|done]. cbn in H1.
    destruct ((p =? 80) || (p =? 443)) eqn:E2; [done|]. split_and!; [done|lia..]. }
  destruct (stripped_str t "host") as [h|], (stripped_str t "address") as [a|]; try discriminate;
    intros H; (apply Hport in H; [|done]); destruct H as [H1 H2];
    (eexists; split; [reflexivity|]); split_and!; cbn; try done; naive_solver.
Qed.

Lemma allow_clean net :
  validate_allow net = [] ->
  length (container_allow_entries net) = length (arr_at net "allow") /\
  Forall allow_ok (container_allow_entries net).
Proof.
  unfold validate_allow, container_allow_entries, arr_at.
  destruct (assoc "allow" net) as [[| | | |l|]|]; try discriminate; [|by repeat split].
  intros H%concat_map_nil. induction H as [|v l Hv Hl IH]; [by repeat split|].
  apply validate_allow_item_clean in Hv as (e & He & Hok). destruct IH as [I1 I2].
  cbn [omap list_omap]. rewrite He. cbn [length]. split; [by rewrite I1|by constructor].
Qed.

(** *** The whole table *)

Section clean.
Variable patterns_overlap : string -> string -> bool.
Variable hostname_match : string -> list string -> bool.
Variables (reserved : list string) (net : table).

(** What a table without errors gives, in terms of the accessors. *)
Lemma validate_egress_clean :
  validate_egress patterns_overlap hostname_match reserved net = [] ->
  exists hosts,
    validate_hosts net = ([], hosts) /\ validate_allow net = [] /\
    (exists creds, validate_credential_entries reserved net = (creds, []) /\
       creds = container_credential_entries net) /\
    (exists internal, validate_host_reason_array net "internal" = (internal, [])) /\
    validate_host_reason_array net "splice" = (map hr_host (container_splice_entries net), []) /\
    validate_policy (map cr_name (container_credential_entries net)) net
      = (container_policy_entries net, []) /\
    check_credentials_selected (container_credential_entries net) (container_policy_entries net) = [] /\
    check_policy patterns_overlap hostname_match net hosts (map hr_host (container_splice_entries net))
      (container_policy_entries net) = [] /\
    check_tls net = [] /\ check_ca net hosts (container_policy_entries net) = [].
Proof.
  unfold validate_egress.
  destruct (validate_hosts net) as [he hosts] eqn:E1.
  destruct (validate_host_reason_array net "internal") as [internal ie] eqn:E2.
  destruct (validate_host_reason_array net "splice") as [splice se] eqn:E3.
  destruct (validate_credential_entries reserved net) as [creds ce] eqn:E4.
  destruct (validate_policy (map cr_name creds) net) as [policy pe] eqn:E5.
  intros H.
  apply app_nil in H as [-> H]. apply app_nil in H as [H2 H]. apply app_nil in H as [-> H].
  apply app_nil in H as [-> H]. apply app_nil in H as [_ H]. apply app_nil in H as [H4 H].
  destruct ce; [|done]. apply app_nil in H as [-> H]. apply app_nil in H as [H5 H].
  apply app_nil in H as [_ H]. apply app_nil in H as [H6 H]. apply app_nil in H as [H7 H].
  apply app_nil in H as [H8 _].
  apply validated_parsed_eq in E4 as Ec. subst creds.
  apply host_reason_array_clean in E3 as Es. destruct Es as [-> _].
  apply validate_policy_clean in E5 as Ep. destruct Ep as [-> _].
  exists hosts. split_and!; eauto.
Qed.

(** On a table the validator accepts, the accessors lose nothing: every
    policy, splice, internal and allow item becomes an entry, and each allow
    entry names one destination with a port the redirect does not take and a
    reason. *)
Theorem accepted_tables_are_parsed_whole :
  validate_egress patterns_overlap hostname_match reserved net = [] ->
  length (container_policy_entries net) = length (arr_at net "policy") /\
  length (container_splice_entries net) = length (arr_at net "splice") /\
  length (container_internal_entries net) = length (arr_at net "internal") /\
  length (container_allow_entries net) = length (arr_at net "allow") /\
  Forall (fun e => (ae_host e = None <-> ae_address e <> None) /\
                   (exists p, ae_port e = Some p /\ 1 <= p <= 65535 /\ p <> 80 /\ p <> 443) /\
                   ae_reason e <> None) (container_allow_entries net).
Proof.
  intros (hosts & _ & Ha & _ & (internal & Hi) & Hs & Hp & _)%validate_egress_clean.
  apply validate_policy_clean in Hp as (_ & Hp & _).
  apply host_reason_array_clean in Hs as (_ & Hs & _). rewrite length_map in Hs.
  apply host_reason_array_clean in Hi as (Hi1 & Hi & _). rewrite Hi1, length_map in Hi.
  split; [done|]. split; [done|]. split; [done|].
  apply allow_clean. done.
Qed.

Lemma effective_mode_policy hosts splice policy :
  policy = container_policy_entries net -> policy <> [] ->
  check_policy patterns_overlap hostname_match net hosts splice policy = [] -> check_tls net = [] ->
  container_effective_tls_mode net = "inspect" /\
  forall e s, e ∈ policy -> s ∈ splice -> patterns_overlap (pe_host e) s = false.
Proof.
  intros Hp Hne Hc Ht. unfold check_policy in Hc. destruct policy as [|e0 policy]; [done|].
  cbn [nonempty negb] in Hc. apply app_nil in Hc as [H1 [H2 _]%app_nil]. split.
  - unfold container_effective_tls_mode. rewrite <- Hp. cbn [nonempty].
    unfold check_tls in Ht. apply app_nil in Ht as [H3 _].
    destruct (container_tls_mode net) as [m|]; [|done].
    destruct (String.eqb_spec m "inspect"); [done|]. destruct (String.eqb_spec m "splice"); [|done].
    subst m. by rewrite bool_decide_eq_true_2 in H1.
  - intros e s He Hs. unfold check_policy_spliced in H2. apply omap_nil in H2.
    rewrite Forall_forall in H2. specialize (H2 e He). cbn in H2.
    destruct (List.find _ splice) eqn:Ef; [done|].
    destruct (patterns_overlap (pe_host e) s) eqn:E; [|done].
    apply list_elem_of_In in Hs. by rewrite (List.find_none _ _ Ef s Hs) in E.
Qed.

(** The policy of an accepted table can be enforced.  Every credential a
    policy entry selects is declared, and every declared one is selected; if
    there is a policy entry the workload's TLS mode is [inspect], no entry
    overlaps a spliced host, and a way to deliver the CA is chosen. *)
Theorem accepted_policy_enforceable :
  validate_egress patterns_overlap hostname_match reserved net = [] ->
  (forall e c, e ∈ container_policy_entries net -> pe_credential e = Some c ->
     c ∈ map cr_name (container_credential_entries net)) /\
  (forall c, c ∈ container_credential_entries net ->
     exists e, e ∈ container_policy_entries net /\ pe_credential e = Some (cr_name c)) /\
  (container_policy_entries net <> [] ->
     container_effective_tls_mode net = "inspect" /\
     (forall e s, e ∈ container_policy_entries net -> s ∈ container_splice_entries net ->
        patterns_overlap (pe_host e) (hr_host s) = false) /\
     exists d, container_ca_delivery net = Some d /\ d ∈ ["env"; "mount"; "image"] /\
       (d = "mount" -> container_ca_mount_path net <> None)).
Proof.
  intros (hosts & _ & _ & _ & _ & _ & Hp & Hsel & Hpol & Htls & Hca)%validate_egress_clean.
  apply validate_policy_clean in Hp as (_ & _ & Hp). rewrite Forall_forall in Hp. split_and!.
  - intros e c He Hc. by apply (Hp e He).
  - intros c Hc. unfold check_credentials_selected in Hsel. apply concat_map_nil in Hsel.
    rewrite Forall_forall in Hsel. specialize (Hsel c Hc). cbn in Hsel.
    destruct (existsb _ _) eqn:E; [|done]. apply existsb_exists in E as (e & He & Hb).
    exists e. split; [by apply list_elem_of_In|]. by apply bool_decide_eq_true in Hb.
  - intros Hne. destruct (effective_mode_policy _ _ _ eq_refl Hne Hpol Htls) as [Hm Hsp].
    split; [done|]. split.
    + intros e s He Hs. apply Hsp; [done|]. by apply list_elem_of_fmap_2.
    + unfold check_ca in Hca. apply app_nil in Hca as [Hca _].
      destruct (container_policy_entries net) as [|e0 l]; [done|]. cbn [nonempty] in Hca.
      rewrite orb_true_r, Hm in Hca. cbn in Hca.
      destruct (container_ca_delivery net) as [d|]; [|done]. exists d. split; [done|].
      case_bool_decide as Hd; [|done]. split; [done|]. intros ->. cbn in Hca.
      by case_bool_decide.
Qed.
End clean.

Definition sample_network : table :=
  [("hosts", TArr [TStr "api.example.com"]); ("ca_delivery", TStr "env");
   ("allow", TArr [TTab [("address", TStr "192.0.2.7"); ("port", TInt 5432); ("reason", TStr "db")]]);
   ("policy", TArr [TTab [("host", TStr "api.example.com"); ("methods", TArr [TStr "get"]);
                          ("credential", TStr "key")]]);
   ("credential", TArr [TTab [("name", TStr "key"); ("placeholder", TStr "p"); ("env", TStr "API_KEY")]])].

(** Equality of patterns, a simple instance of the two functions. *)
Definition same_pattern (a b : string) : bool := String.eqb a b.
Definition same_match (h : string) (l : list string) : bool := existsb (String.eqb h) l.

Lemma accepted_tables_are_parsed_whole_witness : length (container_allow_entries sample_network) = 1%nat.
Proof.
  apply (accepted_tables_are_parsed_whole same_pattern same_match RESERVED_GUEST_ENV sample_network).
  vm_compute. reflexivity.
Defined.

Lemma accepted_policy_enforceable_witness : container_effective_tls_mode sample_network = "inspect".
Proof.
  refine (proj1 (proj2 (proj2 (accepted_policy_enforceable same_pattern same_match RESERVED_GUEST_ENV
    sample_network _)) _)); [vm_compute; reflexivity | vm_compute; discriminate].
Defined.

(** ** Publish specifications *)

(** The publish specifications of an accepted table are nonempty and made
    of letters, digits and ":.[]-/" only, so that none of them can end an
    argument, open a quote, start a specifier or expand a variable in the unit
    they are written into; and every such list is accepted. *)
Theorem publish_ports_safe l :
  validate_publish_ports (Some (TArr l)) = [] <->
  Forall (fun v => exists s, v = TStr s /\ s <> "" /\ all_chars is_publish_char s = true) l.
Proof.
  cbn [validate_publish_ports]. rewrite concat_imap_nil, Forall_lookup.
  assert (Hne : forall s, all_chars is_publish_char s = true -> nonblank s = negb (String.eqb s "")).
  { intros s Hs. unfold nonblank, strip. rewrite strip_by_id; [done|].
    eapply all_chars_impl; [|exact Hs]. intros c Hc.
    destruct (is_space c) eqn:E; [|done]. exfalso. revert Hc E. clear.
    destruct c as [[] [] [] [] [] [] [] []]; vm_compute; discriminate. }
  split; intros H i v Hv; specialize (H i v Hv).
  - destruct v as [s| | | | |]; try discriminate. cbn [validate_publish_spec] in H.
    destruct (nonblank s) eqn:E1; [|done]. destruct (all_chars is_publish_char s) eqn:E2; [|done].
    exists s. split_and!; [done| |done]. intros ->. done.
  - destruct H as (s & -> & Hs & Hc). cbn [validate_publish_spec]. rewrite Hne, Hc by done.
    by destruct (String.eqb_spec s "").
Qed.

(** ** A policy that is written is enforced *)

Lemma not_truthy_arr net key :
  (match assoc key net with Some v => truthy v | None => false end) = false -> arr_at net key = [].
Proof. unfold arr_at. destruct (assoc key net) as [[| | | |[]|]|]; done. Qed.

Lemma named_keys_nil net key : named_keys net = [] -> key ∈ EGRESS_KEYS -> arr_at net key = [].
Proof.
  intros H Hk. apply not_truthy_arr.
  destruct (match assoc key net with Some v => truthy v | None => false end) eqn:E; [|done].
  assert (Hin : In key (named_keys net)) by (apply List.filter_In; split; [by apply list_elem_of_In|done]).
  by rewrite H in Hin.
Qed.

(** A container workload that validates and is not inspected states no
    egress rule at all: no host, no policy and no allow entry of an accepted
    configuration goes unenforced, host networking included. *)
Theorem written_policy_is_enforced overlap hmatch config net :
  assoc "network" config = Some (TTab net) ->
  validate_container_network overlap hmatch (TTab net) (Some config) = Ok [] ->
  container_uses_inspect config = Ok false ->
  container_allowed_hosts net = [] /\ container_policy_entries net = [] /\ container_allow_entries net = [].
Proof.
  intros Hn Hv Hu. unfold container_uses_inspect, network_table in Hu. rewrite Hn in Hu.
  cbn [validate_container_network] in Hv. apply bind_Ok_inv in Hv as (h & Hh & Hv).
  rewrite Hh in Hu. cbn [mbind res_bind] in Hu. destruct h.
  - destruct (nonempty (named_keys net)) eqn:E; cbn [andb] in Hv.
    { injection Hv as Hv. apply app_nil in Hv as [_ Hv]. done. }
    assert (Hnil : named_keys net = []) by (by destruct (named_keys net)).
    assert (Hk : forall key, key ∈ EGRESS_KEYS -> arr_at net key = []) by (intros; by apply named_keys_nil).
    unfold container_allowed_hosts, container_allow_entries, container_policy_entries, parse_policy_entries.
    pose proof (Hk "policy") as Hp. unfold arr_at in Hp.
    rewrite !Hk by (apply list_elem_of_In; cbn; tauto). split_and!; [done| |done].
    destruct (assoc "policy" net) as [[| | | |l|]|]; try done.
    rewrite Hp by (apply list_elem_of_In; cbn; tauto). done.
  - cbn iota in Hu. injection Hu as Hu. apply orb_false_elim in Hu as [[H1 H2]%orb_false_elim H3].
    by destruct (container_allowed_hosts net), (container_policy_entries net), (container_allow_entries net).
Qed.

Lemma written_policy_is_enforced_witness :
  container_allowed_hosts [("mode", TStr "host")] = [].
Proof.
  refine (proj1 (written_policy_is_enforced same_pattern same_match
    [("network", TTab [("mode", TStr "host")])] [("mode", TStr "host")] _ _ _)); reflexivity.
Defined.
