(* ===== verification/NftElements.v ===== *)
(** * Set elements: [lib/nft_constants.py], [lib/nft_elements.py] and
    [lib/netfilter_state.py]

    What a workload owns in the shared netfilter tables: the elements each
    component adds, as text and as the command lines that add or delete them, and
    the elements read back from nft's JSON.  A dictionary from set names to
    elements is an association list in insertion order.  JSON values are the
    values of [Toml].

    Parameter: the planes of the inspector's package, pairs of the guest's port
    and the inspector's. *)
From S2P Require Import Prelude PyStr Toml Ipaddr WorkloadAddr WorkloadConfig NetworkConfig.
Local Open Scope Z_scope.

(** ** Tables, sets, families *)

Definition NFT_BIN : string := "/usr/sbin/nft".
Definition NFT_TABLE : list string := ["inet"; "workload_filter"].
Definition NFT_PROXY_TABLE : list string := ["inet"; "workload_proxy"].
Definition NFT_SKELETON : string := "/usr/share/workloadctl/workload-filter.nft".
Definition NFT_PROXY_SKELETON : string := "/usr/share/workloadctl/workload-proxy.nft".
Definition NFT_SET_FILTERED : string := "wl_filtered".
Definition NFT_SET_ALLOW4 : string := "wl_allow4".
Definition NFT_SET_ALLOW6 : string := "wl_allow6".
Definition NFT_SETS : list string := [NFT_SET_FILTERED; NFT_SET_ALLOW4; NFT_SET_ALLOW6].

Record family_pair := mkPair { fp_v4 : string; fp_v6 : string }.
Definition fp_of (p : family_pair) (version : Z) : string := if version =? 6 then fp_v6 p else fp_v4 p.

Definition elements := list (string * list string).

Definition both_families (p : family_pair) (a : VmInspectAddress) (build : string -> list string) : elements :=
  [(fp_v4 p, build (v4 a)); (fp_v6 p, build (v6 a))].

(** The elements of each family, in order; an empty family has no entry. *)
Definition split_by_family (p : family_pair) (els : list (ip * string)) : elements :=
  let bucket name := (name, omap (fun '(a, e) => if String.eqb (fp_of p (ip_version a)) name
                                                 then Some e else None) els) in
  List.filter (fun '(_, es) => nonempty es) [bucket (fp_v4 p); bucket (fp_v6 p)].

Definition NFT_PAIR_ALLOW := mkPair NFT_SET_ALLOW4 NFT_SET_ALLOW6.
Definition NFT_PAIR_INTERNAL_OK := mkPair "wl_internal_ok4" "wl_internal_ok6".
Definition NFT_PAIR_INSPECT_DST := mkPair "wl_inspect_dst" "wl_inspect_dst6".
Definition NFT_PAIR_INSPECT_SELF := mkPair "wl_inspect_self" "wl_inspect_self6".
Definition NFT_PAIR_INSPECT_LIVE := mkPair "wl_inspect_live" "wl_inspect_live6".
Definition NFT_PAIR_INSPECT_MAP := mkPair "wl_inspect4" "wl_inspect6".

Definition INTERNAL_PREFIXES4 : list string :=
  ["0.0.0.0/8"; "10.0.0.0/8"; "100.64.0.0/10"; "127.0.0.0/8"; "169.254.0.0/16"; "172.16.0.0/12";
   "192.0.2.0/24"; "192.168.0.0/16"; "255.255.255.255"].
Definition INTERNAL_PREFIXES6 : list string :=
  ["::/128"; "::1/128"; "::ffff:0.0.0.0/96"; "64:ff9b::/96"; "64:ff9b:1::/48"; "2002::/16";
   "fc00::/7"; "fe80::/10"].

(** ** Commands *)

(** ["{ " + ", ".join(entries) + " }"]. *)
Definition braces (entries : list string) : string := "{ " +:+ join ", " entries +:+ " }".

Definition element_command (action : string) (tab : list string) (set_name : string) (entries : list string)
    : list string :=
  [NFT_BIN; action; "element"] ++ tab ++ [set_name; braces entries].

Definition element_commands (action : string) (tab : list string) (els : elements) : list (list string) :=
  map (fun '(s, es) => element_command action tab s es) els.

Definition check_action (action : string) : res unit :=
  if String.eqb action "add" || String.eqb action "delete" then Ok tt else Raise ValueError.

(** [filter_delete_command]. *)
Definition filter_delete_command (set_name : string) (entries : list string) : list string :=
  element_command "delete" NFT_TABLE set_name entries.

(** ** The filter's elements *)

(** [f"{uid} . {addr} . {port}"]; a container's entry may have no port. *)
Definition allow_element (uid : Z) (a : ip) (port : string) : string :=
  str_Z uid +:+ " . " +:+ ip_str a +:+ " . " +:+ port.

Definition port_str (p : option Z) : string := match p with Some n => str_Z n | None => "None" end.

(** The elements of one entry's addresses; a reserved one raises. *)
Fixpoint allow_elements (uid : Z) (port : string) (addrs : list ip) : res (list (ip * string)) :=
  match addrs with
  | [] => Ok []
  | a :: addrs =>
      match allow_reserved_reason a with
      | Some _ => Raise ValueError
      | None => rest ← allow_elements uid port addrs; Ok ((a, allow_element uid a port) :: rest)
      end
  end.

(** The body shared by both loops: entries in order, each with its port text. *)
Fixpoint all_allow_elements (uid : Z) (resolved : list (string * list ip)) : res (list (ip * string)) :=
  match resolved with
  | [] => Ok []
  | (port, addrs) :: resolved =>
      x ← allow_elements uid port addrs; rest ← all_allow_elements uid resolved; Ok (x ++ rest)
  end.

Definition vm_filter_elements (uid : Z) (resolved : list (vm_allow * list ip)) : res elements :=
  allowed ← all_allow_elements uid (map (fun '(e, l) => (str_Z (va_port e), l)) resolved);
  Ok ((NFT_SET_FILTERED, [str_Z uid]) :: split_by_family NFT_PAIR_ALLOW allowed).

Definition container_filter_elements (uid : Z) (resolved : list (allow_entry * list ip)) : res elements :=
  allowed ← all_allow_elements uid (map (fun '(e, l) => (port_str (ae_port e), l)) resolved);
  let v4 := omap (fun '(a, e) => if ip_version a =? 6 then None else Some e) allowed in
  let v6 := omap (fun '(a, e) => if ip_version a =? 6 then Some e else None) allowed in
  Ok ([(NFT_SET_FILTERED, [str_Z uid])] ++ (if nonempty v4 then [(NFT_SET_ALLOW4, v4)] else [])
      ++ (if nonempty v6 then [(NFT_SET_ALLOW6, v6)] else [])).

Definition container_allow_resolved (getaddrinfo : string -> res (list string)) (allow : list allow_entry)
    : res (list (allow_entry * list ip)) :=
  mapM_res (fun e => l ← container_allow_resolve getaddrinfo e; Ok (e, l)) allow.

Definition vm_filter_commands (uid : Z) (action : string) (resolved : list (vm_allow * list ip))
    : res (list (list string)) :=
  _ ← check_action action; els ← vm_filter_elements uid resolved; Ok (element_commands action NFT_TABLE els).

Definition container_filter_commands (uid : Z) (action : string) (resolved : list (allow_entry * list ip))
    : res (list (list string)) :=
  _ ← check_action action; els ← container_filter_elements uid resolved; Ok (element_commands action NFT_TABLE els).

(** ** The inspector's elements *)

Section inspect.
Variable planes : list (Z * Z).

Definition inspect_map_elements (uid : Z) : res elements :=
  a ← inspect_address uid;
  Ok (both_families NFT_PAIR_INSPECT_MAP a (fun a =>
    map (fun '(g, i) => str_Z uid +:+ " . " +:+ str_Z g +:+ " : " +:+ a +:+ " . " +:+ str_Z i) planes)).

Definition inspect_dst_elements (uid : Z) : res elements :=
  a ← inspect_address uid;
  Ok (both_families NFT_PAIR_INSPECT_DST a (fun a =>
    map (fun '(_, i) => str_Z uid +:+ " . " +:+ a +:+ " . " +:+ str_Z i) planes)).

Definition inspect_self_elements (uid : Z) : res elements :=
  a ← inspect_address uid;
  Ok (both_families NFT_PAIR_INSPECT_SELF a (fun a => [str_Z uid +:+ " . " +:+ a])).

Definition inspect_live_elements (uid : Z) : res elements :=
  a ← inspect_address uid;
  Ok (both_families NFT_PAIR_INSPECT_LIVE a (fun a => [a])).

Definition inspect_element_commands (uid : Z) (action : string) : res (list (list string)) :=
  _ ← check_action action;
  m ← inspect_map_elements uid; d ← inspect_dst_elements uid;
  s ← inspect_self_elements uid; l ← inspect_live_elements uid;
  Ok (element_commands action NFT_PROXY_TABLE m ++ element_commands action NFT_TABLE d
      ++ element_commands action NFT_TABLE s ++ element_commands action NFT_TABLE l).
End inspect.

(** ** Internal exemptions *)

(** [None]: an exemption for the address is meaningful. *)
Definition internal_reserved_reason (a : ip) : res (option string) :=
  let prefixes := if ip_version a =? 4 then INTERNAL_PREFIXES4 else INTERNAL_PREFIXES6 in
  nets ← mapM_res (fun p => match ip_network p with Some n => Ok n | None => Raise ValueError end) prefixes;
  Ok (if existsb (in_network a) nets then None else Some (ip_str a)).

Fixpoint internal_exempt (uid : Z) (addrs : list ip) : res (list (ip * string)) :=
  match addrs with
  | [] => Ok []
  | a :: addrs =>
      r ← internal_reserved_reason a;
      match r with
      | Some _ => Raise ValueError
      | None => rest ← internal_exempt uid addrs; Ok ((a, str_Z uid +:+ " . " +:+ ip_str a) :: rest)
      end
  end.

Definition internal_ok_elements (uid : Z) (addrs : list ip) : res elements :=
  exempt ← internal_exempt uid addrs; Ok (split_by_family NFT_PAIR_INTERNAL_OK exempt).

Definition internal_ok_commands (uid : Z) (addrs : list ip) (action : string) : res (list (list string)) :=
  _ ← check_action action; els ← internal_ok_elements uid addrs; Ok (element_commands action NFT_TABLE els).

Definition internal_ok_list_commands : list (list string) :=
  map (fun s => [NFT_BIN; "-j"; "list"; "set"] ++ NFT_TABLE ++ [s])
    [fp_v4 NFT_PAIR_INTERNAL_OK; fp_v6 NFT_PAIR_INTERNAL_OK].

Definition internal_ok_delete_commands (set_name : string) (entries : list string) : list (list string) :=
  match entries with [] => [] | _ => [filter_delete_command set_name entries] end.

(** ** Reading elements back *)

(** The results that are not [None]. *)
Definition somes (l : list (option string)) : list string := omap (fun x => x) l.

(** [v == n] for an integer [n]; nft's JSON has no floats. *)
Definition eq_int (v : tv) (n : Z) : bool :=
  match v with TInt m => m =? n | TBool b => Z.b2z b =? n | _ => false end.

Definition owned_element (uid : Z) (elem : tv) : res (option string) :=
  let plain := Ok (if eq_int elem uid then Some (str_Z uid) else None) in
  match elem with
  | TTab t =>
      match assoc "concat" t with
      | Some parts =>
          if negb (truthy parts) then Ok None
          else match parts with
               | TArr (p :: ps) => Ok (if eq_int p uid then Some (join " . " (map py_str (p :: ps))) else None)
               | TArr [] => Ok None
               | TStr _ => Ok None
               | TTab _ => Raise KeyError
               | _ => Raise TypeError
               end
      | None => plain
      end
  | _ => plain
  end.

Definition owned_elements (uid : Z) (elems : list tv) : res (list string) :=
  l ← mapM_res (owned_element uid) elems; Ok (somes l).

(** [(payload or {}).get("nftables", [])]. *)
Definition nftables_items (payload : option tv) : res (list tv) :=
  match payload with
  | None => Ok []
  | Some p => n ← get_or (or_empty p) "nftables" (TArr []); iter n
  end.

(** [nft.set_elements]: the [elem] of the first item that is a set. *)
Fixpoint first_set (items : list tv) : res tv :=
  match items with
  | [] => Ok (TArr [])
  | item :: items =>
      b ← contains_key "set" item;
      if (b : bool) then s ← index item "set"; get_or s "elem" (TArr []) else first_set items
  end.

Definition set_elements (payload : option tv) : res tv := items ← nftables_items payload; first_set items.

(** [elems or []], to be iterated over. *)
Definition or_nil (v : tv) : res (list tv) := if truthy v then iter v else Ok [].

(** [netfilter_state.nft_set_elements], which also takes maps. *)
Fixpoint first_set_or_map (items : list tv) : res (list tv) :=
  match items with
  | [] => Ok []
  | item :: items =>
      b ← contains_key "set" item;
      if (b : bool) then s ← index item "set"; e ← get_or s "elem" (TArr []); or_nil e
      else c ← contains_key "map" item;
           if (c : bool) then m ← index item "map"; e ← get_or m "elem" (TArr []); or_nil e
           else first_set_or_map items
  end.

Definition nft_set_elements (payload : option tv) : res (list tv) :=
  items ← nftables_items payload; first_set_or_map items.

(** [owner in {uid, str(uid), user_name}]; an unhashable owner raises. *)
Definition wanted_owner (uid : Z) (user_name : string) (owner : tv) : res bool :=
  if negb (hashable owner) then Raise TypeError
  else Ok (match owner with
           | TStr s => String.eqb s (str_Z uid) || (negb (String.eqb user_name "") && String.eqb s user_name)
           | _ => eq_int owner uid
           end).

Definition internal_ok_owned (uid : Z) (user_name : string) (elem : tv) : res (option string) :=
  match elem with
  | TTab t =>
      match assoc "concat" t with
      | Some (TArr [owner; address]) =>
          b ← wanted_owner uid user_name owner;
          Ok (if (b : bool) then Some (py_str owner +:+ " . " +:+ py_str address) else None)
      | _ => Ok None
      end
  | _ => Ok None
  end.

Definition internal_ok_uid_elements (uid : Z) (payload : option tv) (user_name : string) : res (list string) :=
  elems ← nft_set_elements payload;
  l ← mapM_res (internal_ok_owned uid user_name) elems; Ok (somes l).

(** [unwrap_counted_elements]: an element with a counter is an object around its value. *)
Definition unwrap_counted (elem : tv) : tv :=
  match elem with
  | TTab t => match assoc "elem" t with
              | Some (TTab inner) => match assoc "val" inner with Some v => v | None => elem end
              | _ => elem
              end
  | _ => elem
  end.

Definition unwrap_counted_elements (elems : list tv) : list tv := map unwrap_counted elems.

(** ** The filter's elements are exactly the configured ones *)

Lemma allow_elements_spec uid port addrs :
  allow_elements uid port addrs =
  if forallb (fun a => bool_decide (allow_reserved_reason a = None)) addrs
  then Ok (map (fun a => (a, allow_element uid a port)) addrs) else Raise ValueError.
Proof.
  induction addrs as [|a addrs IH]; [done|]. cbn [allow_elements forallb map]. rewrite IH.
  destruct (allow_reserved_reason a); [by rewrite bool_decide_eq_false_2|].
  rewrite bool_decide_eq_true_2 by done. by destruct (forallb _ addrs).
Qed.

Definition reserved_free (resolved : list (string * list ip)) : bool :=
  forallb (fun '(_, l) => forallb (fun a => bool_decide (allow_reserved_reason a = None)) l) resolved.

Definition flat_elements (uid : Z) (resolved : list (string * list ip)) : list (ip * string) :=
  concat (map (fun '(port, l) => map (fun a => (a, allow_element uid a port)) l) resolved).

Lemma all_allow_elements_spec uid resolved :
  all_allow_elements uid resolved =
  if reserved_free resolved then Ok (flat_elements uid resolved) else Raise ValueError.
Proof.
  unfold reserved_free, flat_elements.
  induction resolved as [|[port l] resolved IH]; [done|]. cbn [all_allow_elements forallb map concat].
  rewrite allow_elements_spec, IH. destruct (forallb _ l); cbn; [|done].
  by destruct (forallb _ resolved).
Qed.

Lemma somes_app_filter (p : ip -> bool) (els : list (ip * string)) :
  omap (fun '(a, e) => if p a then Some e else None) els
  = map snd (List.filter (fun x => p (fst x)) els).
Proof.
  induction els as [|[a e] els IH]; [done|]. cbn [omap list_omap List.filter fst].
  destruct (p a); cbn [map snd]; by rewrite IH.
Qed.

Lemma omap_ext_all {A B} (f g : A -> option B) (l : list A) : (forall x, f x = g x) -> omap f l = omap g l.
Proof. intros H. induction l as [|x l IH]; [done|]. cbn [omap list_omap]. by rewrite H, IH. Qed.

Lemma ip_version_cases a : ip_version a = 4 \/ ip_version a = 6.
Proof. destruct a; auto. Qed.

Lemma split_allow els :
  split_by_family NFT_PAIR_ALLOW els =
  (if nonempty (omap (fun '(a, e) => if ip_version a =? 6 then None else Some e) els)
   then [(NFT_SET_ALLOW4, omap (fun '(a, e) => if ip_version a =? 6 then None else Some e) els)] else []) ++
  (if nonempty (omap (fun '(a, e) => if ip_version a =? 6 then Some e else None) els)
   then [(NFT_SET_ALLOW6, omap (fun '(a, e) => if ip_version a =? 6 then Some e else None) els)] else []).
Proof.
  unfold split_by_family.
  assert (H4 : omap (fun '(a, e) => if String.eqb (fp_of NFT_PAIR_ALLOW (ip_version a)) (fp_v4 NFT_PAIR_ALLOW)
                                    then Some e else None) els
             = omap (fun '(a, e) => if ip_version a =? 6 then None else Some e) els).
  { apply omap_ext_all. intros [a e]. by destruct (ip_version_cases a) as [-> | ->]. }
  assert (H6 : omap (fun '(a, e) => if String.eqb (fp_of NFT_PAIR_ALLOW (ip_version a)) (fp_v6 NFT_PAIR_ALLOW)
                                    then Some e else None) els
             = omap (fun '(a, e) => if ip_version a =? 6 then Some e else None) els).
  { apply omap_ext_all. intros [a e]. by destruct (ip_version_cases a) as [-> | ->]. }
  rewrite H4, H6. cbn [List.filter]. by repeat destruct (nonempty _).
Qed.

(** An element of a set. *)
Definition has_element (els : elements) (set_name e : string) : Prop :=
  exists es, (set_name, es) ∈ els /\ e ∈ es.

Lemma has_element_app l m s e : has_element (l ++ m) s e <-> has_element l s e \/ has_element m s e.
Proof. unfold has_element. set_solver. Qed.

Lemma has_element_if name es s e :
  has_element (if nonempty es then [(name, es)] else []) s e <-> s = name /\ e ∈ es.
Proof.
  unfold has_element. destruct es as [|x es]; cbn [nonempty].
  - split; [intros (? & ?%not_elem_of_nil & _); done | by intros [_ ?%not_elem_of_nil]].
  - split; [intros (? & [= -> ->]%list_elem_of_singleton & He); done|].
    intros [-> He]. eexists. split; [by apply list_elem_of_singleton|done].
Qed.

Lemma elem_of_omap_pair (p : ip -> bool) (els : list (ip * string)) e :
  e ∈ omap (fun '(a, x) => if p a then Some x else None) els <-> exists a, (a, e) ∈ els /\ p a = true.
Proof.
  rewrite list_elem_of_omap. split.
  - intros ([a x] & Hin & H). destruct (p a) eqn:E; [|done]. injection H as <-. eauto.
  - intros (a & Hin & H). exists (a, e). by rewrite H.
Qed.

Lemma split_allow_elements els s e :
  has_element (split_by_family NFT_PAIR_ALLOW els) s e <->
  exists a, (a, e) ∈ els /\ s = fp_of NFT_PAIR_ALLOW (ip_version a).
Proof.
  rewrite split_allow, has_element_app, !has_element_if, elem_of_omap_pair.
  assert (H4 : omap (fun '(a, e) => if ip_version a =? 6 then None else Some e) els
             = omap (fun '(a, e) => if negb (ip_version a =? 6) then Some e else None) els).
  { apply omap_ext_all. intros [a x]. by destruct (ip_version a =? 6). }
  rewrite H4, elem_of_omap_pair. split.
  - intros [(-> & a & Hin & Hp)|(-> & a & Hin & Hp)]; exists a; (split; [done|]); unfold fp_of;
      [apply negb_true_iff in Hp|]; by rewrite Hp.
  - intros (a & Hin & ->). unfold fp_of. destruct (ip_version a =? 6) eqn:E; [right|left];
      (split; [done|]); exists a; by rewrite ?E.
Qed.

Lemma flat_elements_in uid resolved a e :
  (a, e) ∈ flat_elements uid resolved <->
  exists port l, (port, l) ∈ resolved /\ a ∈ l /\ e = allow_element uid a port.
Proof.
  unfold flat_elements. rewrite list_elem_of_In, in_concat. split.
  - intros (x & Hx & Hin). apply list_elem_of_In in Hx, Hin.
    apply list_elem_of_fmap in Hx as ([port l] & -> & Hl).
    apply list_elem_of_fmap in Hin as (b & Heq & Hb). injection Heq as -> ->. eauto.
  - intros (port & l & Hl & Ha & ->). eexists. split.
    + apply list_elem_of_In, list_elem_of_fmap. exists (port, l). eauto.
    + apply list_elem_of_In, list_elem_of_fmap. eauto.
Qed.

(** The filter's elements are the workload's uid and one element for every
    resolved address of every allow entry, in the set of its family; an address
    of the inspectors' ranges, also one a name resolved to, is never armed: it
    makes the whole step fail. *)
Theorem vm_filter_elements_exact uid resolved :
  match vm_filter_elements uid resolved with
  | Raise e => e = ValueError /\ exists en l a, (en, l) ∈ resolved /\ a ∈ l /\ allow_reserved_reason a <> None
  | Ok els =>
      (forall en l a, (en, l) ∈ resolved -> a ∈ l -> allow_reserved_reason a = None) /\
      forall s e, has_element els s e <->
        (s = NFT_SET_FILTERED /\ e = str_Z uid) \/
        exists en l a, (en, l) ∈ resolved /\ a ∈ l /\ s = fp_of NFT_PAIR_ALLOW (ip_version a) /\
          e = allow_element uid a (str_Z (va_port en))
  end.
Proof.
  unfold vm_filter_elements. rewrite all_allow_elements_spec. unfold reserved_free.
  destruct (forallb _ _) eqn:E; cbn [mbind res_bind].
  - rewrite forallb_forall in E. split.
    + intros en l a Hen Ha. specialize (E (str_Z (va_port en), l)). cbn in E.
      assert (Hin : In (str_Z (va_port en), l) (map (fun '(e, l) => (str_Z (va_port e), l)) resolved)).
      { apply list_elem_of_In, list_elem_of_fmap. by exists (en, l). }
      apply E in Hin. rewrite forallb_forall in Hin.
      apply list_elem_of_In, Hin in Ha. by apply bool_decide_eq_true in Ha.
    + intros s e. change (?x :: ?y) with ([x] ++ y). rewrite has_element_app, split_allow_elements.
      assert (H1 : has_element [(NFT_SET_FILTERED, [str_Z uid])] s e <-> s = NFT_SET_FILTERED /\ e = str_Z uid).
      { rewrite (has_element_if NFT_SET_FILTERED [str_Z uid]). by rewrite list_elem_of_singleton. }
      rewrite H1. apply or_iff_compat_l. split.
      * intros (a & (port & l & Hl & Ha & ->)%flat_elements_in & ->).
        apply list_elem_of_fmap in Hl as ([en l'] & [= -> ->] & Hen). naive_solver.
      * intros (en & l & a & Hen & Ha & -> & ->). exists a. split; [|done]. apply flat_elements_in.
        exists (str_Z (va_port en)), l. split; [|done]. apply list_elem_of_fmap. by exists (en, l).
  - split; [done|]. apply not_true_iff_false in E. rewrite forallb_forall in E.
    destruct (decide (Exists (fun x => Exists (fun a => allow_reserved_reason a <> None) (snd x)) resolved)) as [Hx|Hx].
    + apply Exists_exists in Hx as ([en l] & Hen & Hl). apply Exists_exists in Hl as (a & Ha & Hr). eauto 10.
    + exfalso. apply E. intros [port l] Hin%list_elem_of_In.
      apply list_elem_of_fmap in Hin as ([en l'] & [= -> ->] & Hen).
      apply forallb_forall. intros a Ha%list_elem_of_In. apply bool_decide_eq_true.
      destruct (allow_reserved_reason a) eqn:Er; [|done]. exfalso. apply Hx, Exists_exists.
      exists (en, l'). split; [done|]. apply Exists_exists. exists a. by rewrite Er.
Qed.

(** The two substrates build the same elements. *)
Lemma filter_elements_same uid (rc : list (allow_entry * list ip)) (rv : list (vm_allow * list ip)) :
  Forall2 (fun c v => ae_port (fst c) = Some (va_port (fst v)) /\ snd c = snd v) rc rv ->
  container_filter_elements uid rc = vm_filter_elements uid rv.
Proof.
  intros H. unfold container_filter_elements, vm_filter_elements.
  assert (map (fun '(e, l) => (port_str (ae_port e), l)) rc = map (fun '(e, l) => (str_Z (va_port e), l)) rv) as ->.
  { induction H as [|[c l] [v l'] rc rv [Hp Hl] _ IH]; [done|]. cbn [map fst snd] in *. by rewrite Hp, Hl, IH. }
  rewrite all_allow_elements_spec. destruct (reserved_free _); [|done]. cbn [mbind res_bind].
  by rewrite split_allow.
Qed.
