(* ===== verification/FilterArm.v ===== *)
(** * Arming the egress filter: [lib/filter_arm.py] and [purge_uid_elements] of
    [lib/nft.py]

    [NftHost] is what the step needs of the machine: running nft, listing a set
    (the decoded output of [nft -j list set], [None] when the command fails or
    prints no JSON), and replacing the responder's static answers.  [NftLaws]
    states nft's documented behaviour on the three filter sets, with the elements
    of a set as lists of JSON components, the owner a uid in the kernel and printed
    by nft as a number or as the name of the account; the theorems are proved against
    it, and [Kernel] is an implementation that satisfies it.

    The main theorem says what a successful [up] leaves in the filter sets, on every
    branch: where nft prints the owner as a number the elements of a workload are a
    function of its configuration alone, which is the claim of the source; where nft
    prints the account's name the purge sees none of them and what was armed stays. *)
From S2P Require Import Prelude PyStr Toml Ipaddr WorkloadAddr WorkloadConfig NetworkConfig NftElements.
Local Open Scope Z_scope.

(** ** The machine *)

Class NftHost (W : Type) := {
  run : list string -> W -> W * Z;
  listed : string -> W -> option tv;
  put_static : string -> list (string * list string) -> W -> W }.

Section code.
Context {W : Type} `{NftHost W}.

(** [run(argv, check=True)]. *)
Definition run_checked (argv : list string) : io W unit := fun w =>
  let '(w', rc) := run argv w in
  (w', if rc =? 0 then Ok tt else Raise CalledProcessError).

(** One set of the purge: the number of elements removed. *)
Definition purge_set (uid : Z) (set_name : string) : io W Z := fun w =>
  match listed set_name w with
  | None => (w, Ok 0)
  | Some payload =>
      match (e ← set_elements (Some payload); l ← or_nil e; owned_elements uid l) with
      | Raise e => (w, Raise e)
      | Ok [] => (w, Ok 0)
      | Ok owned =>
          let '(w', rc) := run (filter_delete_command set_name owned) w in
          (w', Ok (if rc =? 0 then Z.of_nat (length owned) else 0))
      end
  end.

Fixpoint purge_sets (uid : Z) (sets : list string) : io W Z :=
  match sets with
  | [] => mret 0
  | s :: sets => n ← purge_set uid s; m ← purge_sets uid sets; mret (n + m)
  end.

Definition purge_uid_elements (uid : Z) : io W Z := purge_sets uid NFT_SETS.

(** ** The two substrates *)

Record Substrate (A E : Type) := mkSub {
  sub_network : table -> res tv;
  sub_exempt : tv -> res bool;
  (** Whether the workload is left unfiltered. *)
  sub_unfiltered : table -> tv -> res bool;
  sub_allow_entries : tv -> res (list A);
  sub_resolved : list A -> res (list (E * list ip));
  sub_commands : Z -> string -> list (E * list ip) -> res (list (list string));
  sub_uses_resolve : table -> res bool;
  (** What [resolve_static] reads of a resolved entry. *)
  sub_static : list (E * list ip) -> list (string * list string) }.
#[global] Arguments sub_network {A E}. #[global] Arguments sub_exempt {A E}.
#[global] Arguments sub_unfiltered {A E}. #[global] Arguments sub_allow_entries {A E}.
#[global] Arguments sub_resolved {A E}. #[global] Arguments sub_commands {A E}.
#[global] Arguments sub_uses_resolve {A E}. #[global] Arguments sub_static {A E}.

Section substrates.
Variable getaddrinfo : string -> res (list string).
Variables cleartext_port tls_port : Z.
Variable normalize_hostname : string -> string.

Definition VM : Substrate tv vm_allow := {|
  sub_network := fun config =>
    v ← get_or (TTab config) "vm" (TTab []); n ← get_or v "network" (TTab []); Ok (or_empty n);
  sub_exempt := fun net => b ← get net "bridge"; Ok (match b with Some b => truthy b | None => false end);
  sub_unfiltered := fun _ net =>
    e ← get_or net "egress" (TStr "filtered"); Ok (negb (is_the_str (Some e) "filtered"));
  sub_allow_entries := fun net => a ← get_or net "allow" (TArr []); iter a;
  sub_resolved := vm_allow_resolved cleartext_port tls_port getaddrinfo;
  sub_commands := vm_filter_commands;
  sub_uses_resolve := vm_uses_resolve;
  sub_static := resolve_static normalize_hostname |}.

(** A container's resolved entry, as [resolve_static] reads it. *)
Definition static_view (e : allow_entry) : vm_allow := mkVmAllow None (ae_host e) 0 "".

Definition CONTAINER : Substrate allow_entry allow_entry := {|
  sub_network := fun config => n ← get_or (TTab config) "network" (TTab []); Ok (or_empty n);
  sub_exempt := fun _ => Ok false;
  sub_unfiltered := fun config _ => b ← container_uses_inspect config; Ok (negb b);
  sub_allow_entries := fun net => match net with
                                  | TTab t => Ok (container_allow_entries t)
                                  | _ => Raise AttributeError
                                  end;
  sub_resolved := container_allow_resolved getaddrinfo;
  sub_commands := container_filter_commands;
  sub_uses_resolve := container_uses_resolve;
  sub_static := fun l => resolve_static normalize_hostname (map (fun '(e, a) => (static_view e, a)) l) |}.
End substrates.

(** ** [up] and [down] *)

Section arm.
Context {A E : Type} (sub : Substrate A E).
(** [pwd.getpwnam(f"_wl-{name}").pw_uid], and the workload's configuration. *)
Variable getpwnam : string -> option Z.
Variable load_workload_config : string -> res table.

Definition workload_uid (name : string) : res Z :=
  match getpwnam ("_wl-" +:+ name) with Some uid => Ok uid | None => Raise KeyError end.

Definition arm_resolve (name : string) (resolved : list (E * list ip)) : io W unit :=
  fun w => (put_static name (sub_static sub resolved) w, Ok tt).

Definition up (name : string) : io W Z :=
  uid ← pure (workload_uid name);
  config ← pure (load_workload_config name);
  net ← pure (sub_network sub config);
  exempt ← pure (sub_exempt sub net);
  if (exempt : bool) then mret 0
  else
    _ ← run_checked [NFT_BIN; "-f"; NFT_SKELETON];
    _ ← purge_uid_elements uid;
    unfiltered ← pure (sub_unfiltered sub config net);
    if (unfiltered : bool) then mret 0
    else
      allow ← pure (sub_allow_entries sub net);
      resolved ← pure (sub_resolved sub allow);
      commands ← pure (sub_commands sub uid "add" resolved);
      _ ← for_io run_checked commands;
      uses ← pure (sub_uses_resolve sub config);
      _ ← (if (uses : bool) then arm_resolve name resolved else mret tt);
      mret 0.

Definition down (name : string) : io W Z :=
  match workload_uid name with
  | Raise KeyError => mret 0
  | Raise e => pure (Raise e)
  | Ok uid => _ ← purge_uid_elements uid; mret 0
  end.
End arm.
End code.

(** ** What nft promises *)

(** An element is the list of its components, the owner first. *)
Definition element := list tv.
Definition text_of (e : element) : string := join " . " (map py_str e).
Definition json_element (e : element) : tv :=
  match e with [p] => p | _ => TTab [("concat", TArr e)] end.

(** An element's text must not end the element: a comma would. *)
Definition plain (t : string) : Prop := has_char "," t = false.
Definition plain_elements (els : elements) : Prop := forall s t, has_element els s t -> plain t.

(** A uid as nft prints it, in the place of the owner of an element. *)
Definition show_owner (f : Z -> tv) (e : element) : element :=
  match e with TInt n :: rest => f n :: rest | _ => e end.

Class NftLaws (W : Type) `{NftHost W} := {
  (** The elements of a set; the states nft can be in; those with the table
      loaded. *)
  elems : W -> string -> list element;
  consistent : W -> Prop;
  ready : W -> Prop;
  (** Loading the skeleton keeps the elements of the filter sets. *)
  law_skeleton w w' : consistent w -> run [NFT_BIN; "-f"; NFT_SKELETON] w = (w', 0) ->
    ready w' /\ forall s, s ∈ NFT_SETS -> elems w' s = elems w s;
  (** In the kernel the owner of an element is a uid. *)
  law_owner w s e : ready w -> s ∈ NFT_SETS -> e ∈ elems w s -> exists n rest, e = TInt n :: rest;
  (** nft prints a uid as a number, or as the name of its account; it does not change accounts. *)
  owner_shown : W -> Z -> tv;
  law_shown w n : owner_shown w n = TInt n \/ exists user, owner_shown w n = TStr user;
  law_accounts argv w : owner_shown (fst (run argv w)) = owner_shown w;
  (** A listing shows all the elements, the owner as nft prints it. *)
  law_listed w s : ready w -> s ∈ NFT_SETS ->
    exists p, listed s w = Some p /\
      set_elements (Some p) = Ok (TArr (map (fun e => json_element (show_owner (owner_shown w) e)) (elems w s)));
  (** Elements that are there can be deleted by their text. *)
  law_delete w s entries : ready w -> s ∈ NFT_SETS -> entries <> [] ->
    (forall t, t ∈ entries -> t ∈ map text_of (elems w s)) ->
    exists w', run (filter_delete_command s entries) w = (w', 0) /\ ready w' /\
      elems w' s = filter (fun e => text_of e ∉ entries) (elems w s) /\
      forall s', s' ∈ NFT_SETS -> s' <> s -> elems w' s' = elems w s';
  (** A successful [add] adds the listed elements, idempotently. *)
  law_add w s entries w' : ready w -> s ∈ NFT_SETS -> Forall plain entries ->
    run (element_command "add" NFT_TABLE s entries) w = (w', 0) ->
    ready w' /\ (forall t, t ∈ map text_of (elems w' s) <-> t ∈ map text_of (elems w s) \/ t ∈ entries) /\
    forall s', s' ∈ NFT_SETS -> s' <> s -> elems w' s' = elems w s';
  (** The static answers are a file, not netfilter state. *)
  law_static w name m : (ready w -> ready (put_static name m w)) /\
    forall s, s ∈ NFT_SETS -> elems (put_static name m w) s = elems w s }.

(** [t] is the text of an element of [uid]. *)
Definition owned_by (uid : Z) (t : string) : Prop :=
  t = str_Z uid \/ exists r, t = str_Z uid +:+ " . " +:+ r.

Lemma str_Z_no_space n : has_char " " (str_Z n) = false.
Proof. by apply str_Z_no_char. Qed.

Lemma text_of_cons p rest :
  text_of (p :: rest) = match rest with [] => py_str p | _ => py_str p +:+ " . " +:+ text_of rest end.
Proof. by destruct rest. Qed.

Lemma owned_by_text uid n rest : owned_by uid (text_of (TInt n :: rest)) <-> n = uid.
Proof.
  rewrite text_of_cons. change (py_str (TInt n)) with (str_Z n). unfold owned_by. split.
  - intros H. apply str_Z_inj. pose proof (cut_app " " (str_Z uid)) as Hu. pose proof (cut_app " " (str_Z n)) as Hn.
    specialize (Hu (". " +:+ text_of rest) (str_Z_no_space uid)).
    destruct rest as [|q rest].
    + destruct H as [H|[r H]]; [done|]. exfalso. pose proof (str_Z_no_space n) as Hs. rewrite H in Hs.
      by rewrite !has_char_app, orb_true_r in Hs.
    + destruct H as [H|[r H]].
      * exfalso. pose proof (str_Z_no_space uid) as Hs. rewrite <- H in Hs.
        by rewrite !has_char_app, orb_true_r in Hs.
      * apply (f_equal (cut " ")) in H.
        change (" . " +:+ ?x) with (String " " (". " +:+ x)) in H.
        rewrite !cut_app in H by apply str_Z_no_space. congruence.
  - intros ->. destruct rest; [by left|right; eauto].
Qed.

Section proofs.
Context {W : Type} `{NftLaws W}.

Definition texts (w : W) (s : string) : list string := map text_of (elems w s).

(** *** Purging *)

(** nft prints [uid] as a number. *)
Definition by_number (w : W) (uid : Z) : bool :=
  match owner_shown w uid with TInt _ => true | _ => false end.

Definition owner_is (uid : Z) (e : element) : bool :=
  match e with TInt n :: _ => n =? uid | _ => false end.

(** What the purge removes. *)
Definition purged (w : W) (uid : Z) (e : element) : bool := by_number w uid && owner_is uid e.

Definition numeric (e : element) : Prop := exists n rest, e = TInt n :: rest.

Lemma owned_element_json w uid e : numeric e ->
  owned_element uid (json_element (show_owner (owner_shown w) e)) =
  Ok (if purged w uid e then Some (text_of e) else None).
Proof.
  intros (n & rest & ->). unfold purged, by_number. cbn [show_owner owner_is].
  destruct (law_shown w n) as [Hn|[user Hn]]; rewrite Hn.
  - destruct (Z.eqb_spec n uid) as [->|Hne].
    + rewrite Hn. destruct rest as [|q rest]; cbn [json_element owned_element eq_int andb assoc truthy negb];
        rewrite ?decide_True by done; cbn [eq_int]; by rewrite Z.eqb_refl.
    + rewrite andb_false_r. destruct rest as [|q rest]; cbn [json_element owned_element eq_int assoc truthy negb];
        rewrite ?decide_True by done; cbn [eq_int]; by rewrite (proj2 (Z.eqb_neq n uid) Hne).
  - assert (match owner_shown w uid with TInt _ => true | _ => false end && (n =? uid) = false) as ->.
    { destruct (Z.eqb_spec n uid) as [<-|]; [by rewrite Hn|by rewrite andb_false_r]. }
    by destruct rest.
Qed.

Lemma owned_elements_json w uid l :
  Forall numeric l ->
  owned_elements uid (map (fun e => json_element (show_owner (owner_shown w) e)) l) =
  Ok (map text_of (List.filter (purged w uid) l)).
Proof.
  unfold owned_elements. induction 1 as [|e l He _ IH]; [done|].
  cbn [map mapM_res]. rewrite owned_element_json by done. cbn [List.filter mbind res_bind].
  apply bind_Ok_inv in IH as (x & Hx & [= IH]). rewrite Hx. cbn [mbind res_bind].
  destruct (purged w uid e); cbn [somes omap list_omap map]; f_equal; [f_equal|]; exact IH.
Qed.

Lemma purged_text w uid e : numeric e ->
  purged w uid e = true <-> by_number w uid = true /\ owned_by uid (text_of e).
Proof.
  intros (n & rest & ->). unfold purged. rewrite owned_by_text, andb_true_iff. cbn [owner_is]. by rewrite Z.eqb_eq.
Qed.

Lemma ready_numeric w s : ready w -> s ∈ NFT_SETS -> Forall numeric (elems w s).
Proof. intros Hr Hs. apply Forall_forall. intros e He. by eapply law_owner. Qed.

(** Deleting the texts that are purged deletes these elements and no other. *)
Lemma filter_owned w uid l : Forall numeric l ->
  filter (fun e => text_of e ∉ map text_of (List.filter (purged w uid) l)) l
  = List.filter (fun e => negb (purged w uid e)) l.
Proof.
  intros Hl. set (owned := map text_of (List.filter (purged w uid) l)).
  assert (Hown : forall e, numeric e -> e ∈ l -> text_of e ∈ owned <-> purged w uid e = true).
  { intros e Hn He. unfold owned. rewrite list_elem_of_In, in_map_iff. split.
    - intros (e' & Ht & [He' Ho]%List.filter_In). apply list_elem_of_In in He'.
      rewrite Forall_forall in Hl. apply purged_text; [done|]. rewrite <- Ht.
      by apply purged_text; [apply Hl|].
    - intros Ho. exists e. split; [done|]. apply List.filter_In. split; [by apply list_elem_of_In|done]. }
  assert (Hsub : forall l', Forall numeric l' -> (forall e, e ∈ l' -> e ∈ l) ->
    filter (fun e => text_of e ∉ owned) l' = List.filter (fun e => negb (purged w uid e)) l').
  { induction 1 as [|e l' Hn _ IH]; intros Hin; [done|]. rewrite filter_cons. cbn [List.filter].
    specialize (Hown e Hn (Hin e ltac:(by left))). rewrite IH by (intros; apply Hin; by right).
    destruct (purged w uid e); case_decide; cbn [negb]; try done; naive_solver. }
  by apply Hsub.
Qed.

Lemma purge_set_spec uid s w : ready w -> s ∈ NFT_SETS ->
  exists w' n, purge_set uid s w = (w', Ok n) /\ ready w' /\ owner_shown w' = owner_shown w /\
    elems w' s = List.filter (fun e => negb (purged w uid e)) (elems w s) /\
    forall s', s' ∈ NFT_SETS -> s' <> s -> elems w' s' = elems w s'.
Proof.
  intros Hr Hs. pose proof (ready_numeric w s Hr Hs) as Hnum.
  destruct (law_listed w s Hr Hs) as (p & Hp & He). unfold purge_set. rewrite Hp, He.
  cbn [mbind res_bind]. unfold or_nil. set (l := map _ (elems w s)).
  assert (Hl : (if truthy (TArr l) then iter (TArr l) else Ok []) = Ok l) by (by destruct l).
  rewrite Hl. cbn [mbind res_bind]. unfold l. rewrite owned_elements_json by done.
  pose proof (filter_owned w uid (elems w s) Hnum) as Hf.
  destruct (map text_of (List.filter (purged w uid) (elems w s))) as [|t ts] eqn:E.
  - exists w, 0. split_and!; try done. rewrite <- Hf. symmetry. apply filter_all_id, Forall_forall.
    intros e _. apply not_elem_of_nil.
  - destruct (law_delete w s (t :: ts)) as (w' & Hrun & Hr' & Hel & Hoth); [done|done|done| |].
    { intros x Hx. rewrite <- E in Hx. apply list_elem_of_In, in_map_iff in Hx as (e & <- & [He' _]%List.filter_In).
      by apply list_elem_of_In, in_map. }
    rewrite Hrun. exists w', (Z.of_nat (length (t :: ts))). split_and!; try done; [|by rewrite Hel, Hf].
    by rewrite <- (law_accounts (filter_delete_command s (t :: ts)) w), Hrun.
Qed.

Lemma purge_sets_spec uid sets w : ready w -> NoDup sets -> (forall s, s ∈ sets -> s ∈ NFT_SETS) ->
  exists w' n, purge_sets uid sets w = (w', Ok n) /\ ready w' /\
    (forall s, s ∈ sets -> elems w' s = List.filter (fun e => negb (purged w uid e)) (elems w s)) /\
    forall s', s' ∈ NFT_SETS -> s' ∉ sets -> elems w' s' = elems w s'.
Proof.
  intros Hr Hnd. revert w Hr. induction Hnd as [|s sets Hs _ IH]; intros w Hr Hin.
  { exists w, 0. split_and!; try done. intros s Hs. by apply not_elem_of_nil in Hs. }
  destruct (purge_set_spec uid s w Hr (Hin s ltac:(by left))) as (w1 & n & H1 & Hr1 & Hsh & He1 & Ho1).
  destruct (IH w1 Hr1 ltac:(intros; apply Hin; by right)) as (w2 & m & H2 & Hr2 & He2 & Ho2).
  assert (Hpg : purged w1 uid = purged w uid) by (unfold purged, by_number; by rewrite Hsh).
  rewrite Hpg in He2.
  exists w2, (n + m). split_and!; [|done| |].
  - cbn [purge_sets]. cbv [mbind io_bind]. by rewrite H1, H2.
  - intros s' [-> | Hs']%elem_of_cons.
    + rewrite Ho2 by (try apply Hin; set_solver). done.
    + rewrite He2 by done. f_equal. apply Ho1; [apply Hin; by right|]. by intros ->.
  - intros s' Hs' Hni. rewrite Ho2, Ho1 by set_solver. done.
Qed.

(** After the purge a set holds what it held, less what [uid] owned if nft
    prints [uid] as a number. *)
Lemma purge_texts uid w : ready w ->
  exists w' n, purge_uid_elements uid w = (w', Ok n) /\ ready w' /\
    forall s t, s ∈ NFT_SETS ->
      t ∈ texts w' s <-> t ∈ texts w s /\ ~ (by_number w uid = true /\ owned_by uid t).
Proof.
  intros Hr. destruct (purge_sets_spec uid NFT_SETS w Hr) as (w' & n & Hp & Hr' & He & _).
  { apply NoDup_ListNoDup. repeat constructor; cbn; intuition discriminate. }
  { done. }
  exists w', n. split_and!; try done. intros s t Hs. unfold texts. rewrite He by done.
  pose proof (ready_numeric w s Hr Hs) as Hnum. rewrite Forall_forall in Hnum.
  rewrite !list_elem_of_In, !in_map_iff. split.
  - intros (e & <- & [Hin Ho]%List.filter_In). split; [eauto|].
    rewrite <- purged_text by (by apply Hnum, list_elem_of_In).
    apply negb_true_iff in Ho. by rewrite Ho.
  - intros [(e & <- & Hin) Ho]. exists e. split; [done|]. apply List.filter_In. split; [done|].
    rewrite <- purged_text in Ho by (by apply Hnum, list_elem_of_In).
    by destruct (purged w uid e).
Qed.

(** *** Adding *)

Lemma add_all els w w' :
  ready w -> (forall s es, (s, es) ∈ els -> s ∈ NFT_SETS) -> plain_elements els ->
  for_io run_checked (element_commands "add" NFT_TABLE els) w = (w', Ok tt) ->
  ready w' /\ forall s t, s ∈ NFT_SETS -> t ∈ texts w' s <-> t ∈ texts w s \/ has_element els s t.
Proof.
  revert w. induction els as [|[s es] els IH]; intros w Hr Hin Hpl H1.
  { injection H1 as <-. split; [done|]. intros s t _. split; [by left|].
    intros [?|(? & ?%not_elem_of_nil & _)]; done. }
  cbn [element_commands map for_io] in H1. apply io_bind_Ok in H1 as (w1 & [] & Hrun & H1).
  unfold run_checked in Hrun. destruct (run _ w) as [w1' rc] eqn:E.
  injection Hrun as -> Hrc. destruct (Z.eqb_spec rc 0) as [->|]; [|done].
  apply law_add in E as (Hr1 & Ht & Ho);
    [|done|by apply (Hin s es), list_elem_of_here
     |apply Forall_forall; intros t Htin; apply (Hpl s t); exists es; by split; [left|]].
  apply IH in H1 as [Hr2 H2];
    [|done|intros; eapply Hin, list_elem_of_further; done
     |intros s' t (es' & Hi & Ht'); apply (Hpl s' t); exists es'; by split; [right|]].
  split; [done|]. intros s' t Hs'. rewrite H2 by done.
  change ((s, es) :: els) with ([(s, es)] ++ els). rewrite has_element_app.
  assert (Hone : has_element [(s, es)] s' t <-> s' = s /\ t ∈ es).
  { unfold has_element. split; [intros (? & [= -> ->]%list_elem_of_singleton & ?); done|].
    intros [-> ?]. exists es. by split; [apply list_elem_of_singleton|]. }
  rewrite Hone. unfold texts in *. destruct (decide (s' = s)) as [->|Hne].
  - rewrite Ht. naive_solver.
  - rewrite Ho by done. naive_solver.
Qed.

(** *** What a substrate promises the arming step *)

(** The commands of a substrate add the elements it computes, to the filter
    sets, each under the workload's own uid. *)
Class FilterSubstrate {A E} (sub : Substrate A E) := {
  elements_of : Z -> list (E * list ip) -> res elements;
  commands_of uid r : sub_commands sub uid "add" r =
    (els ← elements_of uid r; Ok (element_commands "add" NFT_TABLE els));
  elements_sets uid r els s es : elements_of uid r = Ok els -> (s, es) ∈ els -> s ∈ NFT_SETS;
  elements_owned uid r els s t : elements_of uid r = Ok els -> has_element els s t -> owned_by uid t }.

(** The elements a configuration asks for: none when it is not filtered. *)
Definition configured {A E} (sub : Substrate A E) `{!FilterSubstrate sub} (config : table) (uid : Z) : res elements :=
  net ← sub_network sub config;
  unfiltered ← sub_unfiltered sub config net;
  if (unfiltered : bool) then Ok []
  else allow ← sub_allow_entries sub net; resolved ← sub_resolved sub allow; elements_of uid resolved.

Lemma pure_Ok {A} (m : res A) (w w' : W) (a : A) : pure m w = (w', Ok a) -> w' = w /\ m = Ok a.
Proof. by intros [= <- ->]. Qed.

Lemma configured_sets {A E} (sub : Substrate A E) `{!FilterSubstrate sub} config uid els :
  configured sub config uid = Ok els ->
  (forall s es, (s, es) ∈ els -> s ∈ NFT_SETS) /\ forall s t, has_element els s t -> owned_by uid t.
Proof.
  unfold configured. intros H1. inv_ok. destruct x0.
  - injection H1 as <-. split; [intros ? ? ?%not_elem_of_nil; done|].
    intros s t (? & ?%not_elem_of_nil & _). done.
  - inv_ok. split; [intros; by eapply elements_sets | intros; by eapply elements_owned].
Qed.

(** A successful [up] of a workload that is not exempt purges, then adds the
    configured elements. *)
Lemma up_effect {A E} (sub : Substrate A E) `{!FilterSubstrate sub} getpwnam load name uid config net w w' r :
  consistent w -> getpwnam ("_wl-" +:+ name) = Some uid -> load name = Ok config ->
  sub_network sub config = Ok net -> sub_exempt sub net = Ok false ->
  (forall els, configured sub config uid = Ok els -> plain_elements els) ->
  up sub getpwnam load name w = (w', Ok r) ->
  exists els, configured sub config uid = Ok els /\ ready w' /\
    forall s t, s ∈ NFT_SETS ->
      t ∈ texts w' s <-> (t ∈ texts w s /\ ~ (by_number w uid = true /\ owned_by uid t)) \/ has_element els s t.
Proof.
  intros Hcons Hpw Hload Hnet Hex Hpl Hup. unfold up, workload_uid in Hup. rewrite Hpw, Hload in Hup.
  apply io_bind_Ok in Hup as (w0 & ? & [-> [= <-]]%pure_Ok & Hup).
  apply io_bind_Ok in Hup as (w0 & ? & [-> [= <-]]%pure_Ok & Hup). rewrite Hnet in Hup.
  apply io_bind_Ok in Hup as (w0 & ? & [-> [= <-]]%pure_Ok & Hup). rewrite Hex in Hup.
  apply io_bind_Ok in Hup as (w0 & ? & [-> [= <-]]%pure_Ok & Hup).
  apply io_bind_Ok in Hup as (w1 & [] & Hsk & Hup). unfold run_checked in Hsk.
  pose proof (law_accounts [NFT_BIN; "-f"; NFT_SKELETON] w) as Hacc.
  destruct (run _ w) as [w1' rc] eqn:Erun. injection Hsk as -> Hrc.
  destruct (Z.eqb_spec rc 0) as [->|]; [|done]. apply law_skeleton in Erun as [Hr1 Hsame]; [|done].
  apply io_bind_Ok in Hup as (w2 & n & Hp & Hup).
  destruct (purge_texts uid w1 Hr1) as (w2' & n' & Hp' & Hr2 & Htexts).
  rewrite Hp in Hp'. injection Hp' as <- <-.
  assert (Hbase : forall s t, s ∈ NFT_SETS -> t ∈ texts w2 s <->
    t ∈ texts w s /\ ~ (by_number w uid = true /\ owned_by uid t)).
  { intros s t Hs. rewrite Htexts by done. unfold texts, by_number. cbn [fst] in Hacc. by rewrite Hsame, Hacc. }
  unfold configured in *. rewrite Hnet in *. cbn [mbind res_bind] in *.
  apply io_bind_Ok in Hup as (w3 & unf & [-> Hunf]%pure_Ok & Hup). rewrite Hunf in *. cbn [mbind res_bind] in *.
  destruct unf.
  { injection Hup as <- _. exists []. split_and!; try done. intros s t Hs. rewrite Hbase by done.
    split; [by left|]. intros [?|(? & ?%not_elem_of_nil & _)]; done. }
  apply io_bind_Ok in Hup as (w3 & allow & [-> Hallow]%pure_Ok & Hup). rewrite Hallow in *. cbn [mbind res_bind] in *.
  apply io_bind_Ok in Hup as (w3 & resolved & [-> Hres]%pure_Ok & Hup). rewrite Hres in *. cbn [mbind res_bind] in *.
  apply io_bind_Ok in Hup as (w3 & cmds & [-> Hcmd]%pure_Ok & Hup). rewrite commands_of in Hcmd.
  apply bind_Ok_inv in Hcmd as (els & Hels & [= <-]). exists els. split; [done|].
  apply io_bind_Ok in Hup as (w4 & [] & Hadd & Hup).
  apply add_all in Hadd as [Hr4 Ht4]; [|done|intros; by eapply elements_sets|by apply Hpl].
  apply io_bind_Ok in Hup as (w5 & uses & [-> _]%pure_Ok & Hup).
  apply io_bind_Ok in Hup as (w6 & [] & Hst & Hup). injection Hup as <- _.
  assert (Hw6 : ready w6 /\ forall s, s ∈ NFT_SETS -> elems w6 s = elems w4 s).
  { destruct uses; [|by injection Hst as <-]. injection Hst as <-.
    destruct (law_static w4 name (sub_static sub resolved)) as [Hs1 Hs2]. auto. }
  destruct Hw6 as [Hr6 He6]. split; [done|]. intros s t Hs.
  unfold texts at 1. rewrite He6 by done. fold (texts w4 s). rewrite Ht4, Hbase by done. done.
Qed.

(** A successful [up] has found the account and read the configuration. *)
Lemma up_reads {A E} (sub : Substrate A E) getpwnam load name w w' r :
  up sub getpwnam load name w = (w', Ok r) ->
  exists uid config net exempt, getpwnam ("_wl-" +:+ name) = Some uid /\ load name = Ok config /\
    sub_network sub config = Ok net /\ sub_exempt sub net = Ok exempt /\ (exempt = true -> w' = w).
Proof.
  unfold up, workload_uid. intros Hup.
  apply io_bind_Ok in Hup as (w0 & uid & [-> Hu]%pure_Ok & Hup).
  destruct (getpwnam _) as [u|]; [|done]. injection Hu as ->.
  apply io_bind_Ok in Hup as (w0 & config & [-> Hl]%pure_Ok & Hup).
  apply io_bind_Ok in Hup as (w0 & net & [-> Hn]%pure_Ok & Hup).
  apply io_bind_Ok in Hup as (w0 & ex & [-> Hx]%pure_Ok & Hup).
  exists uid, config, net, ex. split_and!; try done. intros ->. by injection Hup as <- _.
Qed.

(** C1.  What a successful [up] leaves in the filter sets, on every branch.  The account
    exists and the configuration was read.  If the substrate exempts the workload
    (a VM on a bridge) the sets are as they were.  Otherwise, where no configured
    element has a comma in its text (only the scope of an IPv6 address could bring
    one), the configuration determines a list of elements, empty for an unfiltered
    workload, and a filter set then holds exactly these, the elements of other
    owners it held before, and, where nft prints the workload's uid as a user name
    instead of a number, also everything it held of the workload: the purge matches
    numbers only.  So where nft prints numbers the elements of the workload are those
    of its configuration, whatever was armed before. *)
Theorem armed_state_is_configuration {A E} (sub : Substrate A E) `{!FilterSubstrate sub}
    getpwnam load name w w' r :
  consistent w -> up sub getpwnam load name w = (w', Ok r) ->
  exists uid config net exempt, getpwnam ("_wl-" +:+ name) = Some uid /\ load name = Ok config /\
    sub_network sub config = Ok net /\ sub_exempt sub net = Ok exempt /\
    if exempt : bool then w' = w
    else (forall els, configured sub config uid = Ok els -> plain_elements els) ->
      exists els, configured sub config uid = Ok els /\
        forall s t, s ∈ NFT_SETS ->
          (owned_by uid t -> t ∈ texts w' s <-> has_element els s t \/ (by_number w uid = false /\ t ∈ texts w s)) /\
          (~ owned_by uid t -> t ∈ texts w' s <-> t ∈ texts w s).
Proof.
  intros Hcons Hup.
  destruct (up_reads _ _ _ _ _ _ _ Hup) as (uid & config & net & ex & Hpw & Hl & Hn & Hx & Hex).
  exists uid, config, net, ex. split_and!; try done. destruct ex; [auto|]. intros Hpl.
  destruct (up_effect sub _ _ _ _ _ _ _ _ _ Hcons Hpw Hl Hn Hx Hpl Hup) as (els & Hc & _ & Ht).
  exists els. split; [done|]. intros s t Hs. rewrite Ht by done.
  apply configured_sets in Hc as [_ Hown]. specialize (Hown s t).
  destruct (by_number w uid); naive_solver.
Qed.

(** [down] removes every element of the workload, where nft prints its uid as a
    number, and nothing else; it returns whether or not the account still exists. *)
Theorem down_clears getpwnam name w :
  ready w ->
  exists w', down getpwnam name w = (w', Ok 0) /\ ready w' /\
    forall s t, s ∈ NFT_SETS ->
      t ∈ texts w' s <-> t ∈ texts w s /\
        (forall uid, getpwnam ("_wl-" +:+ name) = Some uid -> ~ (by_number w uid = true /\ owned_by uid t)).
Proof.
  intros Hr. unfold down, workload_uid. destruct (getpwnam ("_wl-" +:+ name)) as [uid|].
  - destruct (purge_texts uid w Hr) as (w' & n & Hp & Hr' & Ht). exists w'.
    split; [cbv [mbind io_bind]; by rewrite Hp|]. split; [done|].
    intros s t Hs. rewrite Ht by done. naive_solver.
  - exists w. split_and!; try done. naive_solver.
Qed.
End proofs.

(** ** Both substrates keep the promise *)

Lemma filter_shape uid allowed els s t :
  els = (NFT_SET_FILTERED, [str_Z uid]) :: split_by_family NFT_PAIR_ALLOW allowed ->
  (forall a e, (a, e) ∈ allowed -> owned_by uid e) ->
  (has_element els s t -> owned_by uid t) /\ (forall es, (s, es) ∈ els -> s ∈ NFT_SETS).
Proof.
  intros -> Ho. split.
  - change (?x :: ?y) with ([x] ++ y). rewrite has_element_app, split_allow_elements.
    intros [(es & [= -> ->]%list_elem_of_singleton & ->%list_elem_of_singleton)|(a & Hin & _)]; [by left|eauto].
  - intros es [[= -> _] | Hin]%elem_of_cons; [by left|].
    unfold split_by_family in Hin. apply list_elem_of_In, List.filter_In in Hin as [Hin _].
    destruct Hin as [[= <- _]|[[= <- _]|[]]]; apply list_elem_of_In; cbn; auto.
Qed.

Lemma flat_owned uid resolved a e : (a, e) ∈ flat_elements uid resolved -> owned_by uid e.
Proof. intros (port & l & _ & _ & ->)%flat_elements_in. right. by eexists. Qed.

Lemma vm_elements_shape uid r els :
  vm_filter_elements uid r = Ok els ->
  els = (NFT_SET_FILTERED, [str_Z uid]) :: split_by_family NFT_PAIR_ALLOW
    (flat_elements uid (map (fun '(e, l) => (str_Z (va_port e), l)) r)).
Proof.
  unfold vm_filter_elements. rewrite all_allow_elements_spec. destruct (reserved_free _); [|done]. by intros [= <-].
Qed.

Lemma container_elements_shape uid r els :
  container_filter_elements uid r = Ok els ->
  els = (NFT_SET_FILTERED, [str_Z uid]) :: split_by_family NFT_PAIR_ALLOW
    (flat_elements uid (map (fun '(e, l) => (port_str (ae_port e), l)) r)).
Proof.
  unfold container_filter_elements. rewrite all_allow_elements_spec. destruct (reserved_free _); [|done].
  intros [= <-]. by rewrite split_allow.
Qed.

#[export] Instance vm_substrate getaddrinfo ct tt norm : FilterSubstrate (VM getaddrinfo ct tt norm).
Proof.
  refine {| elements_of := vm_filter_elements |}.
  - reflexivity.
  - intros uid r els s es H1%vm_elements_shape Hin. eapply (filter_shape uid); eauto using flat_owned.
  - intros uid r els s t H1%vm_elements_shape Hin. eapply (filter_shape uid); eauto using flat_owned.
Defined.

#[export] Instance container_substrate getaddrinfo norm : FilterSubstrate (CONTAINER getaddrinfo norm).
Proof.
  refine {| elements_of := container_filter_elements |}.
  - reflexivity.
  - intros uid r els s es H1%container_elements_shape Hin. eapply (filter_shape uid); eauto using flat_owned.
  - intros uid r els s t H1%container_elements_shape Hin. eapply (filter_shape uid); eauto using flat_owned.
Defined.

(** ** A machine that satisfies the laws *)

Module Kernel.

(** The accounts nft can name, the loaded flag, the sets of the filter table and the
    static answers. *)
Record kernel := mkKernel {
  k_names : list (Z * string);
  k_loaded : bool;
  k_sets : list (string * list element);
  k_static : list (string * list (string * list string)) }.

Definition k_elems (w : kernel) (s : string) : list element :=
  match assoc s (k_sets w) with Some l => l | None => [] end.

Definition k_put (s : string) (l : list element) (w : kernel) : kernel :=
  mkKernel (k_names w) (k_loaded w) (assoc_set s l (k_sets w)) (k_static w).

(** The components of an element's text: numbers and other words. *)
Definition component (t : string) : tv := if re_plus is_dec t then TInt (int_of t) else TStr t.
Definition parse_element (t : string) : element :=
  map component (List.filter (fun x => negb (String.eqb x ".")) (split_on " " t)).

(** nft takes an element if it reads it back the same and its owner is a number. *)
Definition accepts (t : string) : bool :=
  String.eqb (text_of (parse_element t)) t && negb (has_char "," t) &&
  match parse_element t with TInt _ :: _ => true | _ => false end.

(** The list inside the braces of a command. *)
Definition unbrace (body : string) : list string :=
  let inner := str_take (String.length body - 4) (str_drop 2 body) in
  match split_on "," inner with
  | [] => []
  | x :: xs => x :: map (str_drop 1) xs
  end.

Definition add_element (l : list element) (t : string) : list element :=
  if decide (t ∈ map text_of l) then l else l ++ [parse_element t].

Definition is_filter_table (verb family name : string) : bool :=
  String.eqb verb "element" && String.eqb family "inet" && String.eqb name "workload_filter".

Definition k_run (argv : list string) (w : kernel) : kernel * Z :=
  match argv with
  | [_; flag; f] =>
      if String.eqb flag "-f" && String.eqb f NFT_SKELETON
      then (mkKernel (k_names w) true (k_sets w) (k_static w), 0) else (w, 1)
  | [_; action; verb; family; name; s; body] =>
      let entries := unbrace body in
      if negb (is_filter_table verb family name && k_loaded w) then (w, 1)
      else if String.eqb action "add" then
        if forallb accepts entries then (k_put s (foldl add_element (k_elems w s) entries) w, 0) else (w, 1)
      else if forallb (fun t => bool_decide (t ∈ map text_of (k_elems w s))) entries
      then (k_put s (filter (fun e => text_of e ∉ entries) (k_elems w s)) w, 0) else (w, 1)
  | _ => (w, 1)
  end.

Definition k_shown (w : kernel) (n : Z) : tv :=
  match List.find (fun p => fst p =? n) (k_names w) with Some (_, user) => TStr user | None => TInt n end.

Definition k_listed (s : string) (w : kernel) : option tv :=
  if k_loaded w
  then Some (TTab [("nftables", TArr [TTab [("metainfo", TTab [])];
                                      TTab [("set", TTab [("name", TStr s);
                                                          ("elem", TArr (map (fun e => json_element (show_owner (k_shown w) e)) (k_elems w s)))])]])])
  else None.

Definition k_put_static (name : string) (m : list (string * list string)) (w : kernel) : kernel :=
  mkKernel (k_names w) (k_loaded w) (k_sets w) (assoc_set name m (k_static w)).

#[export] Instance kernel_host : NftHost kernel := {| run := k_run; listed := k_listed; put_static := k_put_static |}.

(** Elements have a numeric owner and no comma. *)
Definition k_consistent (w : kernel) : Prop :=
  forall s e, e ∈ k_elems w s -> numeric e /\ has_char "," (text_of e) = false.
Definition k_ready (w : kernel) : Prop := k_loaded w = true /\ k_consistent w.

Lemma split_join_comma es :
  es <> [] -> Forall (fun e => has_char "," e = false) es ->
  match split_on "," (join ", " es) with [] => [] | x :: xs => x :: map (str_drop 1) xs end = es.
Proof.
  intros Hne Hc. destruct es as [|e es]; [done|]. inversion Hc as [|? ? He Hes]; subst.
  assert (Hj : join ", " (e :: es) = join (chr ",") (e :: map (String " ") es)).
  { clear. revert e. induction es as [|x es IH]; intros e; [done|].
    change (join ", " (e :: x :: es)) with (e +:+ ", " +:+ join ", " (x :: es)).
    change (join (chr ",") (e :: map (String " ") (x :: es)))
      with (e +:+ "," +:+ join (chr ",") (String " " x :: map (String " ") es)).
    rewrite IH. f_equal. change (", " +:+ ?y) with ("," +:+ String " " y). f_equal.
    by destruct es. }
  rewrite Hj, split_on_join; [|done|].
  - f_equal. rewrite map_map. cbn. apply map_id.
  - constructor; [done|]. clear -Hes. induction Hes as [|x l Hx _ IH]; [constructor|].
    constructor; [done|exact IH].
Qed.

Lemma unbrace_braces es :
  es <> [] -> Forall (fun e => has_char "," e = false) es -> unbrace (braces es) = es.
Proof.
  intros Hne Hc. unfold unbrace, braces.
  assert (Hlen : (String.length ("{ " +:+ join ", " es +:+ " }") - 4)%nat = String.length (join ", " es)).
  { rewrite !length_app_str. cbn. lia. }
  rewrite Hlen. change (str_drop 2 ("{ " +:+ ?x)) with x. rewrite str_take_app_l.
  by apply split_join_comma.
Qed.

Lemma k_put_same s l w : k_elems (k_put s l w) s = l.
Proof. unfold k_elems, k_put. cbn. by rewrite assoc_set_same. Qed.
Lemma k_put_other s s' l w : s' <> s -> k_elems (k_put s l w) s' = k_elems w s'.
Proof. intros Hne. unfold k_elems, k_put. cbn. by rewrite assoc_set_other. Qed.

Lemma k_put_consistent s l w :
  k_consistent w -> (forall e, e ∈ l -> numeric e /\ has_char "," (text_of e) = false) ->
  k_consistent (k_put s l w).
Proof.
  intros Hw Hl s' e. destruct (decide (s' = s)) as [->|Hne]; [rewrite k_put_same; apply Hl|].
  rewrite k_put_other by done. apply Hw.
Qed.

Lemma accepts_spec t : accepts t = true ->
  text_of (parse_element t) = t /\ has_char "," t = false /\ numeric (parse_element t).
Proof.
  unfold accepts. intros [[H1%String.eqb_eq H2%negb_true_iff]%andb_prop H3]%andb_prop.
  split_and!; [done..|]. destruct (parse_element t) as [|[] rest]; try done. by eexists _, _.
Qed.

Lemma add_elements_spec entries l :
  forallb accepts entries = true ->
  (forall e, e ∈ l -> numeric e /\ has_char "," (text_of e) = false) ->
  let l' := foldl add_element l entries in
  (forall t, t ∈ map text_of l' <-> t ∈ map text_of l \/ t ∈ entries) /\
  (forall e, e ∈ l' -> numeric e /\ has_char "," (text_of e) = false).
Proof.
  revert l. induction entries as [|t entries IH]; intros l Ha Hl; cbn [foldl].
  { split; [|done]. set_solver. }
  cbn [forallb] in Ha. apply andb_prop in Ha as [(Ht & Hc & Hn)%accepts_spec Ha].
  assert (Hl1 : forall e, e ∈ add_element l t -> numeric e /\ has_char "," (text_of e) = false).
  { unfold add_element. case_decide; [done|]. intros e [He|He%list_elem_of_singleton]%elem_of_app; [auto|].
    subst e. by rewrite Ht. }
  destruct (IH (add_element l t) Ha Hl1) as [I1 I2]. split; [|done]. intros x. rewrite I1.
  unfold add_element. case_decide as Hd; [set_solver|]. rewrite map_app. cbn [map]. rewrite Ht. set_solver.
Qed.

Lemma k_command_loaded action s es w :
  es <> [] -> Forall (fun e => has_char "," e = false) es -> k_loaded w = true ->
  k_run (element_command action NFT_TABLE s es) w =
  if String.eqb action "add" then
    if forallb accepts es then (k_put s (foldl add_element (k_elems w s) es) w, 0) else (w, 1)
  else if forallb (fun t => bool_decide (t ∈ map text_of (k_elems w s))) es
  then (k_put s (filter (fun e => text_of e ∉ es) (k_elems w s)) w, 0) else (w, 1).
Proof.
  intros Hne Hc Hl. unfold element_command, NFT_TABLE, k_run. cbn [app].
  rewrite (unbrace_braces es), Hl by done. reflexivity.
Qed.

Lemma k_run_names argv w : k_names (fst (k_run argv w)) = k_names w.
Proof.
  unfold k_run. destruct argv as [|a0 [|a1 [|a2 [|a3 [|a4 [|a5 [|a6 [|a7 r]]]]]]]]; try done.
  - by destruct (_ && _).
  - destruct (negb _); [done|]. destruct (String.eqb a1 "add"); by destruct (forallb _ _).
Qed.

#[export] Instance kernel_laws : NftLaws kernel.
Proof.
  refine {| elems := k_elems; consistent := k_consistent; ready := k_ready; owner_shown := k_shown |}.
  - intros w w' Hc. cbn [run kernel_host k_run]. change (String.eqb "-f" "-f" && _) with true. cbn iota.
    intros [= <-]. done.
  - intros w s e [_ Hc] _ He. by apply Hc in He as [? _].
  - intros w n. unfold k_shown. destruct (List.find _ _) as [[m u]|]; eauto.
  - intros argv w. unfold k_shown. by rewrite k_run_names.
  - intros w s [Hl _] _. cbn [listed kernel_host]. unfold k_listed. rewrite Hl. eexists. split; [done|]. reflexivity.
  - intros w s es [Hl Hc] _ Hne Hin.
    assert (Hpl : Forall (fun e => has_char "," e = false) es).
    { apply Forall_forall. intros t Ht. apply Hin in Ht.
      apply list_elem_of_fmap in Ht as (e & -> & He). by apply Hc in He as [_ ?]. }
    eexists. cbn [run kernel_host]. unfold filter_delete_command. rewrite k_command_loaded by done.
    change (String.eqb "delete" "add") with false. cbn iota.
    rewrite (proj2 (forallb_forall _ _)).
    2: { intros t Ht%list_elem_of_In. by apply bool_decide_eq_true, Hin. }
    split_and!; [done|split; [done|]|by rewrite k_put_same|intros; by rewrite k_put_other].
    apply k_put_consistent; [done|]. intros e [_ He]%list_elem_of_filter. by apply (Hc s).
  - intros w s es w' [Hl Hc] _ Hpl. cbn [run kernel_host]. destruct es as [|e0 es].
    { intros H. exfalso. unfold element_command, NFT_TABLE, k_run in H. cbn [app] in H.
      rewrite Hl in H. change (unbrace (braces [])) with [""] in H. by vm_compute in H. }
    rewrite k_command_loaded by done. change (String.eqb "add" "add") with true. cbn iota.
    destruct (forallb accepts (e0 :: es)) eqn:Ha; [|done]. intros [= <-].
    destruct (add_elements_spec (e0 :: es) (k_elems w s) Ha) as [H1 H2]; [apply Hc|].
    split_and!; [split; [done|by apply k_put_consistent]|by rewrite k_put_same|intros; by rewrite k_put_other].
  - intros w name m. done.
Defined.

End Kernel.
Import Kernel.

(** ** Witnesses *)

Definition sample_config : table :=
  [("vm", TTab [("network", TTab [("allow", TArr [TTab [("address", TStr "192.0.2.7:5432"); ("reason", TStr "db")]])])])].

(** A machine on which an allow entry of an earlier configuration is armed, with the
    accounts nft can name. *)
Definition stale (names : list (Z * string)) : Kernel.kernel :=
  Kernel.mkKernel names true [("wl_allow4", [Kernel.parse_element "10001 . 192.0.2.9 . 22"])] [].

Definition sample_sub := VM (fun _ => Raise OSError) 80 443 (fun s => s).
Definition sample_pwd (u : string) : option Z := if String.eqb u "_wl-web" then Some 10001 else None.

Lemma stale_consistent names : consistent (stale names).
Proof.
  intros s e. unfold Kernel.k_elems, stale. cbn. repeat case_decide; [|by intros ?%not_elem_of_nil].
  intros ->%list_elem_of_singleton. split; [by eexists _, _|reflexivity].
Qed.

(** Printed as a number the old element is gone; printed as a name it stays. *)
Lemma armed_state_is_configuration_witness :
  (exists w', up sample_sub sample_pwd (fun _ => Ok sample_config) "web" (stale []) = (w', Ok 0) /\
    "10001 . 192.0.2.9 . 22" ∉ texts w' "wl_allow4") /\
  (exists w', up sample_sub sample_pwd (fun _ => Ok sample_config) "web" (stale [(10001, "_wl-web")]) = (w', Ok 0) /\
    "10001 . 192.0.2.9 . 22" ∈ texts w' "wl_allow4").
Proof.
  assert (Hown : owned_by 10001 "10001 . 192.0.2.9 . 22") by (right; by exists "192.0.2.9 . 22").
  assert (Hs : "wl_allow4" ∈ NFT_SETS) by (apply list_elem_of_In; cbn; auto).
  split; (eexists; split; [vm_compute; reflexivity|]);
  match goal with |- context [texts ?w' _] =>
    match w' with context [Kernel.mkKernel ?names _ _ _] =>
    destruct (armed_state_is_configuration sample_sub sample_pwd (fun _ => Ok sample_config) "web"
      (stale names) w' 0 (stale_consistent names) eq_refl) as (uid & config & net & ex & Hu & Hl & Hn & Hx & H) end end;
  vm_compute in Hu; injection Hu as <-; injection Hl as <-; vm_compute in Hn; injection Hn as <-;
  vm_compute in Hx; injection Hx as <-; cbv iota in H;
  (destruct H as (els & Hels & Ht);
   [intros els Hels; vm_compute in Hels; injection Hels as <-;
    intros s t (es & Hin & Ht); apply list_elem_of_In in Hin, Ht;
    destruct Hin as [[= <- <-]|[[= <- <-]|[]]]; destruct Ht as [<-|[]]; reflexivity|]);
  destruct (Ht "wl_allow4" "10001 . 192.0.2.9 . 22" Hs) as [H1 _]; rewrite (H1 Hown);
  vm_compute in Hels; injection Hels as <-.
  - intros [(es & Hin & Hx)|[Hx _]]; [|by vm_compute in Hx]. apply list_elem_of_In in Hin, Hx.
    destruct Hin as [[=]|[[= <-]|[]]]. destruct Hx as [[=]|[]].
  - right. split; [reflexivity|]. apply list_elem_of_In. vm_compute. auto.
Defined.

Lemma down_clears_witness :
  exists w', down sample_pwd "web" (stale []) = (w', Ok 0) /\ texts w' "wl_allow4" = [].
Proof.
  destruct (down_clears sample_pwd "web" (stale [])) as (w' & Hd & _ & _).
  - split; [reflexivity|]. apply stale_consistent.
  - exists w'. split; [exact Hd|]. vm_compute in Hd. injection Hd as <-. reflexivity.
Defined.

(** ** Owners shown by name *)

(** [purge_uid_elements] relies on nft printing the owner as a number: an
    element whose owner is printed as a user name is not seen as the workload's,
    while the reader of the internal exemptions matches both forms. *)
Lemma named_owner_not_purged uid user addr port :
  user <> "" ->
  owned_elements uid [json_element [TStr user; addr; port]] = Ok [] /\
  internal_ok_owned uid user (json_element [TStr user; addr]) = Ok (Some (user +:+ " . " +:+ py_str addr)) /\
  internal_ok_owned uid user (json_element [TInt uid; addr]) = Ok (Some (str_Z uid +:+ " . " +:+ py_str addr)).
Proof.
  intros Hu. split_and!; [done| |].
  - cbn [internal_ok_owned json_element assoc]. rewrite decide_True by done.
    unfold wanted_owner. cbn [hashable negb mbind res_bind].
    rewrite (proj2 (String.eqb_neq user "") Hu), String.eqb_refl. by rewrite orb_true_r.
  - cbn [internal_ok_owned json_element assoc]. rewrite decide_True by done.
    unfold wanted_owner. cbn [hashable negb mbind res_bind eq_int]. by rewrite Z.eqb_refl.
Qed.
