(* ===== verification/PcapFile.v ===== *)
(** * Classic pcap files: [lib/pcap_file.py]

    Reading, counting and shifting the records of a capture.  A file is the list
    of its bytes; [handle.tell() + captured > size] is "more is announced than is
    left".  The shift's [delta] in seconds is given as the number of ticks
    [round(delta * ticks)].

    [encode] is the writer's side of the same table of magic numbers.  The last
    section reads a capture as tcpdump and QEMU write it on a little-endian
    machine. *)
From S2P Require Import Prelude.
Local Open Scope Z_scope.

Inductive endian := LE | BE.

#[export] Instance endian_eq_dec : EqDecision endian.
Proof. solve_decision. Defined.

(** [_PCAP_MAGICS]. *)
Definition PCAP_MAGICS : list (list Z * (endian * Z)) :=
  [([0xa1; 0xb2; 0xc3; 0xd4], (LE, 1000000));
   ([0xd4; 0xc3; 0xb2; 0xa1], (BE, 1000000));
   ([0xa1; 0xb2; 0x3c; 0x4d], (LE, 1000000000));
   ([0x4d; 0x3c; 0xb2; 0xa1], (BE, 1000000000))].
Definition PCAPNG_MAGIC : list Z := [0x0a; 0x0d; 0x0d; 0x0a].
Definition PCAP_GLOBAL_HEADER_LEN : nat := 24.
Definition PCAP_RECORD_HEADER_LEN : nat := 16.

Fixpoint find_magic (m : list Z) (l : list (list Z * (endian * Z))) : option (endian * Z) :=
  match l with
  | [] => None
  | (k, v) :: l => if decide (k = m) then Some v else find_magic m l
  end.

(** [_read_pcap_header]; [PcapFormatError] is a [ValueError]. *)
Definition read_pcap_header (file : list Z) : res (endian * Z) :=
  let magic := take 4 file in
  if decide (magic = PCAPNG_MAGIC) then Raise ValueError
  else match find_magic magic PCAP_MAGICS with Some v => Ok v | None => Raise ValueError end.

(** One [I] of a struct format. *)
Definition u32 (e : endian) (b : list Z) : Z :=
  match b with
  | [a; b; c; d] => match e with
                    | LE => a + 256 * (b + 256 * (c + 256 * d))
                    | BE => d + 256 * (c + 256 * (b + 256 * a))
                    end
  | _ => 0
  end.

Definition put32 (e : endian) (n : Z) : list Z :=
  let bytes := [n mod 256; n / 256 mod 256; n / 65536 mod 256; n / 16777216 mod 256] in
  match e with LE => bytes | BE => reverse bytes end.

Record header := mkHeader { h_seconds : Z; h_fraction : Z; h_captured : Z; h_original : Z }.

Definition unpack (e : endian) (b : list Z) : header :=
  mkHeader (u32 e (take 4 b)) (u32 e (take 4 (drop 4 b)))
    (u32 e (take 4 (drop 8 b))) (u32 e (take 4 (drop 12 b))).

(** [record.pack]: a field that does not fit 32 bits is an error. *)
Definition fits32 (n : Z) : bool := (0 <=? n) && (n <? 2 ^ 32).
Definition pack (e : endian) (h : header) : res (list Z) :=
  if fits32 (h_seconds h) && fits32 (h_fraction h) && fits32 (h_captured h) && fits32 (h_original h)
  then Ok (put32 e (h_seconds h) ++ put32 e (h_fraction h) ++ put32 e (h_captured h) ++ put32 e (h_original h))
  else Raise StructError.

(** The loop of both readers: the whole records of the bytes that are left.  Each
    record takes at least its header, so the number of bytes is enough fuel. *)
Fixpoint scan (fuel : nat) (e : endian) (rest : list Z) : list (header * list Z) :=
  match fuel with
  | O => []
  | S fuel =>
      if Nat.ltb (length rest) PCAP_RECORD_HEADER_LEN then []
      else
        let h := unpack e (take PCAP_RECORD_HEADER_LEN rest) in
        let body := drop PCAP_RECORD_HEADER_LEN rest in
        if Z.of_nat (length body) <? h_captured h then []
        else (h, take (Z.to_nat (h_captured h)) body)
               :: scan fuel e (drop (Z.to_nat (h_captured h)) body)
  end.

Definition records (e : endian) (rest : list Z) : list (header * list Z) := scan (length rest) e rest.

Definition pcap_packet_count (file : list Z) : res Z :=
  '(e, _) ← read_pcap_header file;
  Ok (Z.of_nat (length (records e (drop PCAP_GLOBAL_HEADER_LEN file)))).

(** The seconds and the fraction with its ticks, of which the code returns
    [seconds + fraction / ticks]. *)
Definition pcap_first_timestamp (file : list Z) : res (option (Z * Z * Z)) :=
  '(e, ticks) ← read_pcap_header file;
  let rest := drop PCAP_GLOBAL_HEADER_LEN file in
  if Nat.ltb (length rest) PCAP_RECORD_HEADER_LEN then Ok None
  else let h := unpack e (take PCAP_RECORD_HEADER_LEN rest) in
       Ok (Some (h_seconds h, h_fraction h, ticks)).

Definition shift_header (ticks delta : Z) (h : header) : header :=
  let shifted := Z.max 0 (h_seconds h * ticks + h_fraction h + delta) in
  mkHeader (shifted / ticks) (shifted mod ticks) (h_captured h) (h_original h).

Definition write_record (e : endian) (ticks delta : Z) (r : header * list Z) : res (list Z) :=
  b ← pack e (shift_header ticks delta (fst r)); Ok (b ++ snd r).

(** The bytes written to the destination, and the number of records. *)
Definition pcap_shift_timestamps (file : list Z) (delta_ticks : Z -> Z) : res (list Z * Z) :=
  '(e, ticks) ← read_pcap_header file;
  let rs := records e (drop PCAP_GLOBAL_HEADER_LEN file) in
  bs ← mapM_res (write_record e ticks (delta_ticks ticks)) rs;
  Ok (take PCAP_GLOBAL_HEADER_LEN file ++ concat bs, Z.of_nat (length rs)).

(** ** Writing *)

Definition is_byte (b : Z) : Prop := 0 <= b < 256.

(** A record that can be written: its fields fit, and its payload is as long as it says. *)
Definition record_ok (r : header * list Z) : Prop :=
  0 <= h_seconds (fst r) < 2 ^ 32 /\ 0 <= h_fraction (fst r) < 2 ^ 32 /\
  0 <= h_original (fst r) < 2 ^ 32 /\ h_captured (fst r) = Z.of_nat (length (snd r)) /\
  h_captured (fst r) < 2 ^ 32.

Definition encode_record (e : endian) (r : header * list Z) : list Z :=
  put32 e (h_seconds (fst r)) ++ put32 e (h_fraction (fst r)) ++ put32 e (h_captured (fst r))
  ++ put32 e (h_original (fst r)) ++ snd r.

Definition encode_records (e : endian) (rs : list (header * list Z)) : list Z :=
  concat (map (encode_record e) rs).

(** A capture: the magic, the rest of the header, the records and what was left
    of the last one when the writer stopped. *)
Definition encode (magic head : list Z) (e : endian) (rs : list (header * list Z)) (torn : list Z) : list Z :=
  magic ++ head ++ encode_records e rs ++ torn.

(** ** Lemmas *)

Lemma length_put32 e n : length (put32 e n) = 4%nat.
Proof. by destruct e. Qed.

Lemma u32_put32 e n : 0 <= n < 2 ^ 32 -> u32 e (put32 e n) = n.
Proof.
  intros Hn.
  assert (H : n mod 256 + 256 * (n / 256 mod 256 + 256 * (n / 65536 mod 256 + 256 * (n / 16777216 mod 256))) = n).
  { assert (n / 256 / 256 = n / 65536) as H1 by (rewrite Z.div_div by lia; done).
    assert (n / 65536 / 256 = n / 16777216) as H2 by (rewrite Z.div_div by lia; done).
    pose proof (Z.div_mod n 256). pose proof (Z.div_mod (n / 256) 256).
    pose proof (Z.div_mod (n / 65536) 256). pose proof (Z.div_mod (n / 16777216) 256).
    assert (n / 16777216 / 256 = 0) by (rewrite Z.div_div by lia; apply Z.div_small; lia). lia. }
  destruct e; cbn [put32 u32]; [exact H|].
  change (reverse [?a; ?b; ?c; ?d]) with [d; c; b; a]. exact H.
Qed.

Lemma length_encode_record e r : length (encode_record e r) = (16 + length (snd r))%nat.
Proof. unfold encode_record. rewrite !length_app, !length_put32. lia. Qed.

Lemma unpack_encode e r rest : record_ok r ->
  unpack e (take 16 (encode_record e r ++ rest)) = fst r /\
  drop 16 (encode_record e r ++ rest) = snd r ++ rest.
Proof.
  intros (H1 & H2 & H3 & H4 & H5). unfold encode_record.
  assert (Hb : forall n, length (put32 e n) = 4%nat) by apply length_put32.
  set (a := put32 e (h_seconds (fst r))) in *. set (b := put32 e (h_fraction (fst r))) in *.
  set (c := put32 e (h_captured (fst r))) in *. set (d := put32 e (h_original (fst r))) in *.
  assert (Hg : (a ++ b ++ c ++ d ++ snd r) ++ rest = (a ++ b ++ c ++ d) ++ (snd r ++ rest))
    by (by rewrite <- !app_assoc).
  assert (Hl : length (a ++ b ++ c ++ d) = 16%nat) by (unfold a, b, c, d; rewrite !length_app, !Hb; done).
  rewrite Hg. clear Hg.
  split.
  - rewrite take_app_length' by done. unfold unpack.
    rewrite take_app_length' by (symmetry; apply Hb). rewrite drop_app_length' by (symmetry; apply Hb).
    rewrite take_app_length' by (symmetry; apply Hb).
    assert (drop 8 (a ++ b ++ c ++ d) = c ++ d) as ->.
    { rewrite app_assoc. apply drop_app_length'. unfold a, b. rewrite length_app, !Hb. done. }
    assert (drop 12 (a ++ b ++ c ++ d) = d) as ->.
    { rewrite !app_assoc. apply drop_app_length'. unfold a, b, c. rewrite !length_app, !Hb. done. }
    rewrite take_app_length' by (symmetry; apply Hb).
    rewrite (take_ge d) by (unfold d; rewrite Hb; done).
    unfold a, b, c, d. rewrite !u32_put32 by lia. by destruct (fst r).
  - by apply drop_app_length'.
Qed.

(** The records of a file are those that were written, and no part of a torn one. *)
Lemma scan_encode fuel e rs torn :
  Forall record_ok rs -> (length (encode_records e rs ++ torn) <= fuel)%nat ->
  (forall fuel', scan fuel' e torn = []) ->
  scan fuel e (encode_records e rs ++ torn) = rs.
Proof.
  intros Hrs. revert fuel. induction Hrs as [|r rs Hr _ IH]; intros fuel Hf Ht; [apply Ht|].
  unfold encode_records in *. cbn [map concat] in *. rewrite <- app_assoc in *.
  set (rest := concat (map (encode_record e) rs) ++ torn) in *.
  destruct (unpack_encode e r rest Hr) as [Hu Hd].
  rewrite length_app, length_encode_record in Hf.
  destruct fuel as [|fuel]; [lia|]. cbn [scan].
  assert (Nat.ltb (length (encode_record e r ++ rest)) PCAP_RECORD_HEADER_LEN = false) as ->.
  { apply Nat.ltb_ge. rewrite length_app, length_encode_record. unfold PCAP_RECORD_HEADER_LEN. lia. }
  unfold PCAP_RECORD_HEADER_LEN. rewrite Hu, Hd. destruct Hr as (_ & _ & _ & Hc & _).
  rewrite Hc. assert (Z.of_nat (length (snd r ++ rest)) <? Z.of_nat (length (snd r)) = false) as ->.
  { apply Z.ltb_ge. rewrite length_app. lia. }
  rewrite Nat2Z.id, take_app_length, drop_app_length. destruct r as [h b]. cbn [fst snd] in *.
  f_equal. apply IH; [lia|done].
Qed.

(** A strict prefix of a record's bytes is not read as a record. *)
Lemma scan_torn e r torn fuel :
  record_ok r -> torn `prefix_of` encode_record e r -> torn <> encode_record e r -> scan fuel e torn = [].
Proof.
  intros Hr [k Hk] Hne. destruct fuel as [|fuel]; [done|]. cbn [scan].
  destruct (Nat.ltb_spec (length torn) PCAP_RECORD_HEADER_LEN) as [|Hlen]; [done|].
  destruct (unpack_encode e r [] Hr) as [Hu Hd]. rewrite app_nil_r in Hu, Hd.
  unfold PCAP_RECORD_HEADER_LEN in *.
  assert (take 16 torn = take 16 (encode_record e r)) as -> by (by rewrite Hk, take_app_le).
  rewrite Hu. destruct Hr as (_ & _ & _ & Hc & _).
  assert (Z.of_nat (length (drop 16 torn)) <? h_captured (fst r) = true) as ->; [|done].
  apply Z.ltb_lt. rewrite Hc. rewrite length_drop.
  pose proof (f_equal length Hk) as Hl. rewrite length_encode_record, length_app in Hl.
  destruct k as [|x k]; [rewrite app_nil_r in Hk; congruence|]. cbn [length] in Hl. lia.
Qed.

Lemma header_encode magic head e rs torn ticks :
  find_magic magic PCAP_MAGICS = Some (e, ticks) -> length head = 20%nat ->
  read_pcap_header (encode magic head e rs torn) = Ok (e, ticks) /\
  drop 24 (encode magic head e rs torn) = encode_records e rs ++ torn /\
  take 24 (encode magic head e rs torn) = magic ++ head.
Proof.
  intros Hm Hh. unfold encode.
  assert (Hmag : length magic = 4%nat /\ magic <> PCAPNG_MAGIC).
  { cbn in Hm. repeat case_decide; subst; done. }
  destruct Hmag as [Hl Hng]. split_and!.
  - unfold read_pcap_header. rewrite take_app_length' by done. rewrite decide_False by done. by rewrite Hm.
  - rewrite app_assoc. apply drop_app_length'. rewrite length_app. lia.
  - rewrite app_assoc. apply take_app_length'. rewrite length_app. lia.
Qed.

(** The tail after the last whole record: nothing, or a part of one more. *)
Definition tail_ok (e : endian) (torn : list Z) : Prop :=
  torn = [] \/ exists r, record_ok r /\ torn `prefix_of` encode_record e r /\ torn <> encode_record e r.

Lemma scan_tail e torn fuel : tail_ok e torn -> scan fuel e torn = [].
Proof.
  intros [->|(r & Hr & Hp & Hne)]; [by destruct fuel|]. by eapply scan_torn.
Qed.

Lemma records_encode magic head e rs torn ticks :
  find_magic magic PCAP_MAGICS = Some (e, ticks) -> length head = 20%nat ->
  Forall record_ok rs -> tail_ok e torn ->
  records e (drop PCAP_GLOBAL_HEADER_LEN (encode magic head e rs torn)) = rs.
Proof.
  intros Hm Hh Hrs Ht. destruct (header_encode magic head e rs torn ticks Hm Hh) as (_ & Hd & _).
  unfold records, PCAP_GLOBAL_HEADER_LEN. rewrite Hd. apply scan_encode; [done|done|].
  intros fuel. by apply scan_tail.
Qed.

(** ** Counting *)

(** The count of a capture is the number of whole records written: a
    record cut short by the end of the capture is not counted, wherever it was
    cut, and the scan ends. *)
Theorem pcap_packet_count_spec magic head e rs torn ticks :
  find_magic magic PCAP_MAGICS = Some (e, ticks) -> length head = 20%nat ->
  Forall record_ok rs -> tail_ok e torn ->
  pcap_packet_count (encode magic head e rs torn) = Ok (Z.of_nat (length rs)).
Proof.
  intros Hm Hh Hrs Ht. unfold pcap_packet_count.
  destruct (header_encode magic head e rs torn ticks Hm Hh) as (-> & _). cbn [mbind res_bind].
  by rewrite (records_encode magic head e rs torn ticks).
Qed.

Definition sample_head : list Z := repeat 0 20.
Definition sample_record : header * list Z := (mkHeader 1700000000 500000 3 60, [1; 2; 3]).

Lemma sample_record_ok : record_ok sample_record.
Proof. unfold record_ok. cbn. lia. Qed.

Lemma pcap_packet_count_spec_witness :
  pcap_packet_count (encode [0xa1; 0xb2; 0xc3; 0xd4] sample_head LE [sample_record; sample_record] [7; 7]) = Ok 2.
Proof.
  apply (pcap_packet_count_spec _ _ LE [sample_record; sample_record] [7; 7] 1000000);
    [reflexivity|reflexivity|repeat constructor; apply sample_record_ok|].
  right. exists (mkHeader 1799 0 0 0, []). split; [unfold record_ok; cbn; lia|].
  split; [by eexists|vm_compute; discriminate].
Defined.

(** ** Shifting *)

(** The instant of a record, in ticks. *)
Definition instant (ticks : Z) (h : header) : Z := h_seconds h * ticks + h_fraction h.

Definition shift_record (ticks delta : Z) (r : header * list Z) : header * list Z :=
  (shift_header ticks delta (fst r), snd r).

(** The shifted record still fits the format. *)
Definition shift_fits (ticks delta : Z) (r : header * list Z) : Prop :=
  Z.max 0 (instant ticks (fst r) + delta) < 2 ^ 32 * ticks.

Lemma shift_header_instant ticks delta h :
  0 < ticks ->
  instant ticks (shift_header ticks delta h) = Z.max 0 (instant ticks h + delta) /\
  0 <= h_fraction (shift_header ticks delta h) < ticks.
Proof.
  intros Ht. unfold instant, shift_header. cbn [h_seconds h_fraction].
  set (x := Z.max 0 _). pose proof (Z.div_mod x ticks). pose proof (Z.mod_pos_bound x ticks). lia.
Qed.

Lemma shift_record_ok ticks delta r :
  0 < ticks <= 2 ^ 32 -> record_ok r -> shift_fits ticks delta r -> record_ok (shift_record ticks delta r).
Proof.
  intros Ht (H1 & H2 & H3 & H4 & H5) Hf. unfold record_ok, shift_record, shift_header, shift_fits, instant in *.
  cbn [fst snd h_seconds h_fraction h_captured h_original]. set (x := Z.max 0 _) in *.
  pose proof (Z.mod_pos_bound x ticks). assert (0 <= x) by (unfold x; lia).
  assert (0 <= x / ticks) by (apply Z.div_pos; lia).
  assert (x / ticks < 2 ^ 32) by (apply Z.div_lt_upper_bound; lia). lia.
Qed.

Lemma pack_ok e r : record_ok r -> (b ← pack e (fst r); Ok (b ++ snd r)) = Ok (encode_record e r).
Proof.
  intros (H1 & H2 & H3 & H4 & H5). unfold pack, fits32.
  assert ((0 <=? h_seconds (fst r)) && (h_seconds (fst r) <? 2 ^ 32) &&
          ((0 <=? h_fraction (fst r)) && (h_fraction (fst r) <? 2 ^ 32)) &&
          ((0 <=? h_captured (fst r)) && (h_captured (fst r) <? 2 ^ 32)) &&
          ((0 <=? h_original (fst r)) && (h_original (fst r) <? 2 ^ 32)) = true) as -> by lia.
  unfold encode_record. cbn [mbind res_bind]. by rewrite <- !app_assoc.
Qed.

Lemma magic_ticks magic e ticks :
  find_magic magic PCAP_MAGICS = Some (e, ticks) -> ticks = 1000000 \/ ticks = 1000000000.
Proof. cbn. repeat case_decide; naive_solver. Qed.

Lemma write_records e ticks delta rs :
  0 < ticks <= 2 ^ 32 -> Forall record_ok rs -> Forall (shift_fits ticks delta) rs ->
  mapM_res (write_record e ticks delta) rs = Ok (map (encode_record e) (map (shift_record ticks delta) rs)).
Proof.
  intros Ht Hrs Hf. induction Hrs as [|r rs Hr _ IH]; [done|]. inversion Hf as [|? ? Hf1 Hf2]; subst.
  pose proof (shift_record_ok ticks delta r Ht Hr Hf1) as Hok.
  assert (Hw : write_record e ticks delta r = Ok (encode_record e (shift_record ticks delta r)))
    by exact (pack_ok e _ Hok).
  cbn [mapM_res map]. rewrite Hw. cbn [mbind res_bind]. by rewrite IH.
Qed.

(** Shifting rewrites a capture as a capture: the same header, the same
    records in the same order with their payloads and lengths, each at its
    instant plus the shift (but not before the epoch), with a fraction below one
    second; a torn last record is dropped.  Nothing is rounded. *)
Theorem pcap_shift_spec magic head e rs torn ticks delta :
  find_magic magic PCAP_MAGICS = Some (e, ticks) -> length head = 20%nat ->
  Forall record_ok rs -> tail_ok e torn -> Forall (shift_fits ticks delta) rs ->
  pcap_shift_timestamps (encode magic head e rs torn) (fun _ => delta) =
    Ok (encode magic head e (map (shift_record ticks delta) rs) [], Z.of_nat (length rs)) /\
  Forall (fun r => instant ticks (fst (shift_record ticks delta r)) = Z.max 0 (instant ticks (fst r) + delta) /\
                   0 <= h_fraction (fst (shift_record ticks delta r)) < ticks /\
                   snd (shift_record ticks delta r) = snd r) rs.
Proof.
  intros Hm Hh Hrs Ht Hf. assert (Hticks : 0 < ticks <= 2 ^ 32) by (destruct (magic_ticks _ _ _ Hm); lia).
  split.
  - unfold pcap_shift_timestamps.
    destruct (header_encode magic head e rs torn ticks Hm Hh) as (-> & _ & Htake). cbn [mbind res_bind].
    rewrite (records_encode magic head e rs torn ticks) by done.
    rewrite write_records by done. cbn [mbind res_bind]. unfold PCAP_GLOBAL_HEADER_LEN. rewrite Htake.
    unfold encode, encode_records. by rewrite app_nil_r, <- app_assoc.
  - apply Forall_forall. intros r _. unfold shift_record. cbn [fst snd].
    destruct (shift_header_instant ticks delta (fst r)) as [H1 H2]; [lia|]. done.
Qed.

Lemma pcap_shift_spec_witness :
  pcap_shift_timestamps (encode [0xa1; 0xb2; 0xc3; 0xd4] sample_head LE [sample_record] []) (fun _ => 700000)
  = Ok (encode [0xa1; 0xb2; 0xc3; 0xd4] sample_head LE [(mkHeader 1700000001 200000 3 60, [1; 2; 3])] [], 1).
Proof.
  refine (proj1 (pcap_shift_spec _ _ LE [sample_record] [] 1000000 700000 _ _ _ _ _)).
  - reflexivity.
  - reflexivity.
  - repeat constructor. all: vm_compute; intuition discriminate.
  - by left.
  - repeat constructor.
Defined.

(** ** Captures of a little-endian machine *)

(** What tcpdump and QEMU write on a little-endian machine: the number
    0xa1b2c3d4, and every other field, with the low byte first. *)
Definition little_endian_capture (rs : list (header * list Z)) : list Z :=
  put32 LE 0xa1b2c3d4 ++ sample_head ++ encode_records LE rs.

(** The table of magic numbers names the byte order the wrong way round:
    the magic of a little-endian writer selects big-endian fields, and a capture
    with one packet is reported to have none. *)
Theorem little_endian_captures_misread :
  read_pcap_header (little_endian_capture [sample_record]) = Ok (BE, 1000000) /\
  pcap_packet_count (little_endian_capture [sample_record]) = Ok 0 /\
  records LE (drop 24 (little_endian_capture [sample_record])) = [sample_record].
Proof. vm_compute. auto. Qed.
