(* ===== verification/Seccomp.v ===== *)
(** * Seccomp profiles: [lib/workload_seccomp.py]

    A workload that asks for more system calls than the baseline gets a derived
    profile: the names are taken out of every rule and allowed by one rule of
    their own.  A profile is its list of rules; the other keys of the JSON are
    copied. *)
From Stdlib Require Import Sorted.
From S2P Require Import Prelude PyStr Toml WorkloadConfig.
Local Open Scope Z_scope.

Definition is_syscall_head (c : ascii) : bool := is_lower c || Ascii.eqb c "_".
Definition is_syscall_char (c : ascii) : bool := is_lower c || is_dec c || Ascii.eqb c "_".
(** [SYSCALL_NAME.match]. *)
Definition syscall_name (s : string) : bool := match_anchored (re_head_star is_syscall_head is_syscall_char) s.

(** A rule: the names it is for and the rest of the entry, of which the action. *)
Record rule := mkRule { r_names : list string; r_action : string }.

Definition SCMP_ACT_ALLOW : string := "SCMP_ACT_ALLOW".

(** [sorted] of strings, by code points. *)
Fixpoint str_leb (a b : string) : bool :=
  match a, b with
  | EmptyString, _ => true
  | String _ _, EmptyString => false
  | String c a, String d b => if code c <? code d then true else if code d <? code c then false else str_leb a b
  end.

Fixpoint insert_sorted (x : string) (l : list string) : list string :=
  match l with
  | [] => [x]
  | y :: l' => if str_leb x y then x :: l else y :: insert_sorted x l'
  end.
Definition py_sorted (l : list string) : list string := foldr insert_sorted [] l.

(** [sorted(set(names))]. *)
Definition seccomp_names (names : list string) : list string := py_sorted (remove_dups names).

Lemma elem_of_insert_sorted x y l : x ∈ insert_sorted y l -> x = y \/ x ∈ l.
Proof.
  induction l as [|z l IH]; cbn [insert_sorted]; [by intros ?%list_elem_of_singleton; left|].
  destruct (str_leb y z); rewrite !elem_of_cons; tauto.
Qed.

Lemma elem_of_py_sorted x l : x ∈ py_sorted l -> x ∈ l.
Proof.
  unfold py_sorted. induction l as [|y l IH]; cbn [foldr]; [done|]. intros [->|H]%elem_of_insert_sorted; [left|right; auto].
Qed.

Lemma insert_sorted_perm x l : insert_sorted x l ≡ₚ x :: l.
Proof. induction l as [|y l IH]; cbn [insert_sorted]; [done|]. destruct (str_leb x y); [done|]. rewrite IH. apply Permutation_swap. Qed.

Lemma py_sorted_perm l : py_sorted l ≡ₚ l.
Proof. unfold py_sorted. induction l as [|x l IH]; cbn [foldr]; [done|]. by rewrite insert_sorted_perm, IH. Qed.

Lemma str_leb_total a b : str_leb a b = false -> str_leb b a = true.
Proof.
  revert b. induction a as [|c a IH]; intros [|d b]; cbn; try done. destruct (Z.ltb_spec (code c) (code d)); [done|].
  destruct (Z.ltb_spec (code d) (code c)); [done|]. apply IH.
Qed.

Lemma str_leb_trans a b c : str_leb a b = true -> str_leb b c = true -> str_leb a c = true.
Proof.
  revert b c. induction a as [|x a IH]; intros [|y b] [|z c]; cbn; try done.
  destruct (Z.ltb_spec (code x) (code y)), (Z.ltb_spec (code y) (code x)), (Z.ltb_spec (code y) (code z)), (Z.ltb_spec (code z) (code y)),
    (Z.ltb_spec (code x) (code z)), (Z.ltb_spec (code z) (code x)); try done; try lia. apply IH.
Qed.

Lemma py_sorted_sorted l : StronglySorted (fun a b => str_leb a b = true) (py_sorted l).
Proof.
  unfold py_sorted. induction l as [|x l IH]; cbn [foldr]; [constructor|]. induction (foldr insert_sorted [] l) as [|y m IHm]; cbn [insert_sorted].
  - repeat constructor.
  - inversion IH as [|? ? Hm Hy]; subst. destruct (str_leb x y) eqn:E.
    + constructor; [done|]. constructor; [done|]. eapply Forall_impl; [exact Hy|]. cbn. intros z Hz. by eapply str_leb_trans.
    + constructor; [by apply IHm|]. rewrite insert_sorted_perm. constructor; [by apply str_leb_total|done].
Qed.

Lemma sorted_app {A} (R : A -> A -> Prop) l m x y : StronglySorted R (l ++ m) -> x ∈ l -> y ∈ m -> R x y.
Proof.
  induction l as [|z l IH]; cbn [app]; intros Hs Hx Hy; [by apply elem_of_nil in Hx|]. inversion Hs as [|? ? Hs' Hf]; subst.
  apply elem_of_cons in Hx as [->|Hx]; [|by apply IH]. rewrite Forall_forall in Hf. apply Hf, elem_of_app. by right.
Qed.

(** The rules kept of the baseline: without the names, and not empty. *)
Definition strip_rule (names : list string) (r : rule) : option rule :=
  match filter (fun n => n ∉ names) (r_names r) with
  | [] => None
  | kept => Some (mkRule kept (r_action r))
  end.

Definition derived_profile (baseline : list rule) (names : list string) : list rule :=
  omap (strip_rule names) baseline ++
  match names with [] => [] | _ => [mkRule (seccomp_names names) SCMP_ACT_ALLOW] end.

Inductive seccomp_error :=
  | SeContainer (i : nat) | SeVm | SeShape | SePrivileged | SeReplaced (site : option nat).

(** [sec.get("security_opt", [])] has a string that starts with "seccomp=". *)
Definition names_profile (sec : tv) : res bool :=
  o ← get_or sec "security_opt" (TArr []); l ← iter o;
  Ok (existsb (fun v => match v with TStr s => starts_with "seccomp=" s | _ => false end) l).

(** [config.get("containers") or []]. *)
Definition containers_of (config : table) : res (list tv) :=
  match assoc "containers" config with
  | Some v => if truthy v then iter v else Ok []
  | None => Ok []
  end.

Definition container_sets_allow (i : nat) (c : tv) : res (list seccomp_error) :=
  match c with
  | TTab t => s ← get_or c "security" (TTab []); b ← contains_key "seccomp_allow" s;
              Ok (if (b : bool) then [SeContainer i] else [])
  | _ => Ok []
  end.

Definition replaced_in (i : nat) (c : tv) : res (list seccomp_error) :=
  match c with
  | TTab t => s ← get_or c "security" (TTab []); b ← names_profile s;
              Ok (if (b : bool) then [SeReplaced (Some i)] else [])
  | _ => Ok []
  end.

Definition validate_seccomp_allow (config : table) (k : kind) : res (list seccomp_error) :=
  security ← get_or (TTab config) "security" (TTab []);
  names ← get security "seccomp_allow";
  cs ← containers_of config;
  per ← mapM_res (fun x => x) (imap container_sets_allow cs);
  let errors := concat per in
  match names with
  | None => Ok errors
  | Some v =>
      if decide (k = KVm) then Ok (errors ++ [SeVm])
      else
        match v with
        | TArr l =>
            if negb (forallb (fun n => match n with TStr s => syscall_name s | _ => false end) l)
            then Ok (errors ++ [SeShape])
            else
              priv ← get security "privileged";
              top ← names_profile security;
              rep ← mapM_res (fun x => x) (imap replaced_in cs);
              Ok (errors ++ (if match priv with Some p => truthy p | None => false end then [SePrivileged] else [])
                  ++ (if (top : bool) then [SeReplaced None] else []) ++ concat rep)
        | _ => Ok (errors ++ [SeShape])
        end
  end.

(** ** What a profile does to a name *)

(** The actions of the rules that name a system call, in order. *)
Definition actions (profile : list rule) (n : string) : list string :=
  map r_action (List.filter (fun r => existsb (String.eqb n) (r_names r)) profile).

Lemma existsb_elem n l : existsb (String.eqb n) l = true <-> n ∈ l.
Proof.
  rewrite existsb_exists, list_elem_of_In. split.
  - by intros (x & Hx & ->%String.eqb_eq).
  - intros H. exists n. by rewrite String.eqb_refl.
Qed.

Lemma elem_insert_sorted n x l : n ∈ insert_sorted x l <-> n = x \/ n ∈ l.
Proof. induction l as [|y l IH]; cbn; [set_solver|]. case_match; set_solver. Qed.

Lemma elem_seccomp_names n names : n ∈ seccomp_names names <-> n ∈ names.
Proof.
  unfold seccomp_names, py_sorted. etrans; [|apply elem_of_remove_dups].
  induction (remove_dups names) as [|x l IH]; cbn; [done|]. rewrite elem_insert_sorted. set_solver.
Qed.

Lemma stripped_actions names baseline n :
  actions (omap (strip_rule names) baseline) n = if decide (n ∈ names) then [] else actions baseline n.
Proof.
  unfold actions. induction baseline as [|r baseline IH]; [by case_decide|].
  cbn [omap list_omap List.filter]. unfold strip_rule at 1.
  set (kept := filter (fun n => n ∉ names) (r_names r)).
  assert (Hk : n ∈ kept <-> n ∈ r_names r /\ n ∉ names) by (unfold kept; rewrite list_elem_of_filter; tauto).
  assert (Hb : existsb (String.eqb n) kept = existsb (String.eqb n) (r_names r) && negb (bool_decide (n ∈ names))).
  { apply eq_true_iff_eq. rewrite andb_true_iff, !existsb_elem, negb_true_iff, bool_decide_eq_false. tauto. }
  destruct kept as [|x l] eqn:Ek.
  - rewrite IH. cbn [existsb] in Hb. case_decide as Hd; [done|].
    rewrite bool_decide_eq_false_2, andb_true_r in Hb by done. by rewrite <- Hb.
  - cbn [List.filter r_names]. rewrite Hb. case_decide as Hd.
    + rewrite bool_decide_eq_true_2, andb_false_r by done. exact IH.
    + rewrite bool_decide_eq_false_2, andb_true_r by done.
      destruct (existsb (String.eqb n) (r_names r)); cbn [map r_action]; by rewrite IH.
Qed.

(** In a derived profile a requested name is allowed by exactly one rule
    and mentioned by no other; every other name has the rules of the baseline,
    in their order. *)
Theorem derived_profile_spec baseline names n :
  actions (derived_profile baseline names) n =
  if decide (n ∈ names) then [SCMP_ACT_ALLOW] else actions baseline n.
Proof.
  unfold derived_profile, actions. rewrite List.filter_app, map_app.
  fold (actions (omap (strip_rule names) baseline) n). rewrite stripped_actions.
  destruct names as [|x names]; [by rewrite app_nil_r|]. cbn [List.filter r_names].
  set (names' := x :: names).
  assert (Hb : existsb (String.eqb n) (seccomp_names names') = bool_decide (n ∈ names')).
  { apply eq_true_iff_eq. by rewrite existsb_elem, bool_decide_eq_true, elem_seccomp_names. }
  rewrite Hb. case_decide as Hd.
  - by rewrite bool_decide_eq_true_2.
  - rewrite bool_decide_eq_false_2 by done. cbn. by rewrite app_nil_r.
Qed.
