(* ===== verification/Validation.v ===== *)
(** * Validation of a container workload: [lib/validation.py], and the plain
    environment arguments of [lib/container_run_args.py]

    The checks of a whole configuration for the container kinds: control
    characters and tokens anywhere in it, the containers, the mode, the network
    table, seccomp, dependencies and the user namespace.  (The VM branch hands
    over to [vm_validate], which is not part of this file.) *)
From S2P Require Import Prelude PyStr PyRe Toml WorkloadNames WorkloadConfig SecretsTemplate.
From S2P Require Import NetworkConfig ContainerValidate Seccomp.
Local Open Scope Z_scope.

Inductive config_error :=
  | CfControlChar (path : string)
  | CfUnknownToken (path token : string) | CfUnexpandedToken (path token : string)
  | CfBothForms | CfContainersArray | CfNoName (i : nat) | CfBadName (i : nat)
  | CfDuplicateName (name : string) | CfNoImage (name : string) | CfContainerNetwork (name : string)
  | CfContainerPort (name : string) (e : net_error) | CfLiftedTwice (name key : string)
  | CfMode | CfNetwork (e : net_error) | CfSeccomp (e : seccomp_error)
  | CfModeNeedsContainers | CfModeIsSingle
  | CfDepsType (key : string) | CfDepName (key n : string)
  | CfHostUserns.

(** ** Walks over the whole configuration *)

Definition is_control (c : ascii) : bool := ((code c <? 32) && negb (code c =? 9)) || (code c =? 127).

(** [_control_char_in(value) is not None]. *)
Definition control_char_in (s : string) : bool := any_char is_control s.

Definition child_path (path k : string) : string := if String.eqb path "" then k else path +:+ "." +:+ k.
Definition item_path (path : string) (i : nat) : string := path +:+ "[" +:+ str_Z (Z.of_nat i) +:+ "]".

(** Apply a check to every string of a value, with its path. *)
Fixpoint walk {E} (check : string -> string -> list E) (path : string) (node : tv) : list E :=
  match node with
  | TStr s => check path s
  | TTab t => concat (map (fun '(k, v) => walk check (child_path path k) v) t)
  | TArr l => (fix go (i : nat) (l : list tv) : list E :=
                 match l with
                 | [] => []
                 | v :: l => walk check (item_path path i) v ++ go (S i) l
                 end) O l
  | _ => []
  end.

Definition check_control (path s : string) : list config_error :=
  if control_char_in s then [CfControlChar path] else [].

Definition reject_control_chars (node : tv) : list config_error := walk check_control "" node.

Definition WORKLOAD_TOKEN_NAMES : list string :=
  ["WORKLOAD_NAME"; "WORKLOAD_INSTANCE_DIR"; "WORKLOAD_ROOT_DIR"; "WORKLOAD_STATE_DIR"; "WORKLOAD_DATA_DIR"].

(** [security\.security_opt\[\d+\]] over a whole string. *)
Definition security_opt_item (s : string) : bool :=
  starts_with "security.security_opt[" s &&
  match span is_dec (str_drop 22 s) with
  | (EmptyString, _) => false
  | (_, r) => String.eqb r "]"
  end.

(** [_TOKEN_EXPANDING_PATH.search]: at the start, or after a dot. *)
Fixpoint token_path_from (boundary : bool) (s : string) : bool :=
  (boundary && match_anchored security_opt_item s) ||
  match s with
  | EmptyString => false
  | String c s => token_path_from (Ascii.eqb c ".") s
  end.
Definition token_expanding_path (path : string) : bool := token_path_from true path.

Definition check_tokens (path s : string) : list config_error :=
  omap (fun token =>
    if negb (bool_decide (token ∈ WORKLOAD_TOKEN_NAMES)) then Some (CfUnknownToken path token)
    else if negb (token_expanding_path path) then Some (CfUnexpandedToken path token) else None)
    (re_matches token_matcher s).

Definition reject_bad_workload_tokens (node : tv) : list config_error := walk check_tokens "" node.

(** ** Names *)

Definition MAX_CONTAINER_NAME_LENGTH : nat := 27.

(** [len(name)] and the pattern on a value that should be a string. *)
Definition validate_container_name (v : tv) : res unit :=
  match v with
  | TStr s => if Nat.ltb MAX_CONTAINER_NAME_LENGTH (String.length s) then Raise ValueError
              else if negb (name_pattern s) then Raise ValueError else Ok tt
  | TArr l => if Nat.ltb MAX_CONTAINER_NAME_LENGTH (length l) then Raise ValueError else Raise TypeError
  | TTab t => if Nat.ltb MAX_CONTAINER_NAME_LENGTH (length t) then Raise ValueError else Raise TypeError
  | _ => Raise TypeError
  end.

Definition validate_workload_name (s : string) : res unit :=
  if Nat.ltb MAX_NAME_LENGTH (String.length s) then Raise ValueError
  else if negb (name_pattern s) then Raise ValueError else Ok tt.

(** ** [[containers]] *)

(** [x in seen], then [seen.add(x)]: an unhashable value raises. *)
Definition seen_name (v : tv) : res string :=
  match v with TStr s => Ok s | _ => Raise TypeError end.

Definition lifted_twice (c : tv) (name : string) (key : string) : res (list config_error) :=
  b1 ← contains_key key c;
  if negb b1 then Ok []
  else inner ← get_or c "container" (TTab []); b2 ← contains_key key inner;
       Ok (if (b2 : bool) then [CfLiftedTwice name key] else []).

(** The checks of one container after its name. *)
Definition validate_container_body (c : tv) (name : string) : res (list config_error) :=
  has ← contains_key "container" c;
  image ← (if negb has then Ok false
           else inner ← get_or c "container" (TTab []); contains_key "image" inner);
  cnet ← get_or c "network" (TTab []);
  lifted ← mapM_res (lifted_twice c name) LIFTED_CONTAINER_KEYS;
  Ok ((if (image : bool) then [] else [CfNoImage name]) ++
      match cnet with
      | TTab t => map (CfContainerPort name) (validate_publish_ports (assoc "ports" t))
      | _ => [CfContainerNetwork name]
      end ++ concat lifted).

Definition validate_container_entry (i : nat) (seen : list string) (c : tv)
    : res (list string * list config_error) :=
  named ← contains_key "name" c;
  if negb named then Ok (seen, [CfNoName i])
  else
    v ← index c "name";
    bad ← match validate_container_name v with
          | Ok _ => Ok []
          | Raise ValueError => Ok [CfBadName i]
          | Raise e => Raise e
          end;
    name ← seen_name v;
    body ← validate_container_body c name;
    Ok (name :: seen,
        bad ++ (if decide (name ∈ seen) then [CfDuplicateName name] else []) ++ body).

Fixpoint validate_container_entries (i : nat) (seen : list string) (l : list tv) : res (list config_error) :=
  match l with
  | [] => Ok []
  | c :: l =>
      '(seen, errs) ← validate_container_entry i seen c;
      rest ← validate_container_entries (S i) seen l; Ok (errs ++ rest)
  end.

Definition validate_containers (config : table) : res (list config_error) :=
  match assoc "containers" config with
  | None => Ok []
  | Some (TArr (c :: l)) => validate_container_entries O [] (c :: l)
  | Some _ => Ok [CfContainersArray]
  end.

(** ** User namespaces *)

Definition HOST_USERNS_OPT_IN : string := "unsafe_host_userns".

Definition userns_of (owner : tv) : res (option tv) :=
  s ← get_or owner "security" (TTab []); get s "userns".

Definition uses_host_userns (config : table) : res bool :=
  if decide (infer_workload_kind config = KVm) then Ok false
  else match infer_workload_mode config with
       | Raise ValueError => Ok false
       | Raise e => Raise e
       | Ok MBridge =>
           cs ← normalize_containers config;
           vs ← mapM_res (fun c => userns_of (TTab c)) cs;
           Ok (existsb (fun v => is_the_str v "host") vs)
       | Ok _ => v ← userns_of (TTab config); Ok (is_the_str v "host")
       end.

Definition host_userns_acknowledged (config : table) : res bool :=
  s ← get_or (TTab config) "security" (TTab []);
  v ← get s HOST_USERNS_OPT_IN; Ok (match v with Some v => truthy v | None => false end).

(** [valid_userns_mode]; [None] stands for a rejected parameter. *)
Fixpoint userns_params (seen : list string) (l : list string) : option (list string) :=
  match l with
  | [] => Some seen
  | p :: l =>
      match cut "=" p with
      | None => None
      | Some (key, value) =>
          if negb (bool_decide (key ∈ ["uid"; "gid"])) || bool_decide (key ∈ seen) || negb (isdigit value)
          then None else userns_params (key :: seen) l
      end
  end.

Definition valid_userns_mode (mode : string) : bool :=
  if String.eqb mode "keep-id" || String.eqb mode "host" then true
  else if negb (starts_with "keep-id:" mode) then false
  else match userns_params [] (split_on "," (str_drop 8 mode)) with
       | Some seen => nonempty seen
       | None => false
       end.

(** ** The configuration *)

Definition explicit_mode (config : table) : res (option tv) :=
  w ← get_or (TTab config) "workload" (TTab []); get w "mode".

Definition check_mode (config : table) : res (list config_error) :=
  m ← explicit_mode config;
  let has := has_key "containers" config in
  Ok ((if (is_the_str m "pod" || is_the_str m "bridge") && negb has then [CfModeNeedsContainers] else []) ++
      (if is_the_str m "single" && has then [CfModeIsSingle] else [])).

Definition check_deps (config : table) (key : string) : res (list config_error) :=
  w ← get_or (TTab config) "workload" (TTab []);
  v ← get w key;
  Ok (match v with
      | None => []
      | Some (TArr l) =>
          if negb (forallb is_str l) then [CfDepsType key]
          else omap (fun n => match n with
                              | TStr s => if is_ok (validate_workload_name s) then None else Some (CfDepName key s)
                              | _ => None
                              end) l
      | Some _ => [CfDepsType key]
      end).

Section validate.
Variable patterns_overlap : string -> string -> bool.
Variable hostname_match : string -> list string -> bool.

(** [validate_workload_config] of a configuration without [vm]. *)
Definition validate_container_config (config : table) : res (list config_error) :=
  let walks := reject_control_chars (TTab config) ++ reject_bad_workload_tokens (TTab config) in
  let both := if has_key "container" config && has_key "containers" config then [CfBothForms] else [] in
  ctrs ← validate_containers config;
  mode ← match infer_workload_mode config with
         | Ok _ => Ok []
         | Raise ValueError => Ok [CfMode]
         | Raise e => Raise e
         end;
  net ← get_or (TTab config) "network" (TTab []);
  network ← validate_container_network patterns_overlap hostname_match net (Some config);
  seccomp ← validate_seccomp_allow config KContainer;
  explicit ← check_mode config;
  requires ← check_deps config "requires";
  after ← check_deps config "after";
  host ← uses_host_userns config;
  ack ← host_userns_acknowledged config;
  Ok (walks ++ both ++ ctrs ++ mode ++ map CfNetwork network ++ map CfSeccomp seccomp ++ explicit ++
      requires ++ after ++ (if (host : bool) && negb ack then [CfHostUserns] else [])).
End validate.

(** ** The environment arguments of a container *)

(** One variable; a key that is not a variable name is skipped, and so is a
    value that refers to a secret. *)
Definition env_arg (kv : string * tv) : option string :=
  let '(key, value) := kv in
  if negb (validate_env_key key) then None
  else if secret_search (py_str value) then None
  else Some ("--env " +:+ key +:+ "=" +:+ dq (py_str value)).

Definition build_plain_env_args (container : table) : res (list string) :=
  c ← get_or (TTab container) "container" (TTab []);
  e ← get_or c "environment" (TTab []);
  t ← items e;
  Ok (omap env_arg (t : list (string * tv))).

(** ** Every string of a value *)

Section tv_induction.
Variable P : tv -> Prop.
Hypothesis HStr : forall s, P (TStr s).
Hypothesis HInt : forall n, P (TInt n).
Hypothesis HBool : forall b, P (TBool b).
Hypothesis HOther : forall a b c d, P (TOther a b c d).
Hypothesis HArr : forall l, Forall P l -> P (TArr l).
Hypothesis HTab : forall t, Forall (fun kv => P (snd kv)) t -> P (TTab t).

(** Induction through arrays and tables. *)
Fixpoint tv_nested_ind (v : tv) : P v :=
  match v with
  | TStr s => HStr s
  | TInt n => HInt n
  | TBool b => HBool b
  | TOther a b c d => HOther a b c d
  | TArr l => HArr l ((fix go l : Forall P l :=
                         match l with [] => Forall_nil_2 _ | v :: l => Forall_cons_2 _ _ _ (tv_nested_ind v) (go l) end) l)
  | TTab t => HTab t ((fix go t : Forall (fun kv => P (snd kv)) t :=
                         match t with [] => Forall_nil_2 _ | kv :: t => Forall_cons_2 _ _ _ (tv_nested_ind (snd kv)) (go t) end) t)
  end.
End tv_induction.

Definition strings_of (v : tv) : list string := walk (fun _ s => [s]) "" v.

(** A walk without errors has checked every string. *)
Lemma walk_clean {E} (check : string -> string -> list E) v :
  forall p q, walk check p v = [] -> forall s, s ∈ walk (fun _ s => [s]) q v -> exists r, check r s = [].
Proof.
  induction v as [s|n|b|a b c d|l IH|t IH] using tv_nested_ind; intros p q Hw x Hx;
    try (by apply not_elem_of_nil in Hx).
  - cbn in Hw, Hx. apply list_elem_of_singleton in Hx as ->. eauto.
  - cbn [walk] in Hw, Hx. revert Hw Hx. generalize O at 1. generalize O.
    induction IH as [|v l Hv _ IHl]; intros i j Hw Hx; [by apply not_elem_of_nil in Hx|].
    apply app_eq_nil in Hw as [H1 H2]. apply elem_of_app in Hx as [Hx|Hx]; [by eapply Hv|by eapply IHl].
  - cbn [walk] in Hw, Hx. induction IH as [|[k v] t Hv _ IHt]; [by apply not_elem_of_nil in Hx|].
    cbn [map concat snd] in *. apply app_eq_nil in Hw as [H1 H2].
    apply elem_of_app in Hx as [Hx|Hx]; [by eapply Hv|by apply IHt].
Qed.

(** ** The names of the containers *)

Lemma validate_container_name_Ok v :
  is_ok (validate_container_name v) = true ->
  exists n, v = TStr n /\ (String.length n <= 27)%nat /\ name_pattern n = true.
Proof.
  destruct v as [s| | | |l|t]; cbn [validate_container_name]; try done; [|by case_match..].
  destruct (Nat.ltb_spec MAX_CONTAINER_NAME_LENGTH (String.length s)); [done|].
  destruct (name_pattern s) eqn:E; [|done]. unfold MAX_CONTAINER_NAME_LENGTH in *. eauto.
Qed.

Lemma validate_container_entry_clean i seen c seen' :
  validate_container_entry i seen c = Ok (seen', []) ->
  exists n, index c "name" = Ok (TStr n) /\ (String.length n <= 27)%nat /\ name_pattern n = true /\
    n ∉ seen /\ seen' = n :: seen.
Proof.
  unfold validate_container_entry. intros (named & _ & H)%bind_Ok_inv.
  destruct named; cbn [negb] in H; [|done]. inv_ok.
  match goal with H : _ ++ _ = [] |- _ => rename H into Happ end. apply app_eq_nil in Happ as [-> Happ].
  match goal with H : context [validate_container_name ?v] |- _ =>
    destruct (validate_container_name_Ok v) as (n & -> & Hlen & Hpat); [|]
  end.
  { destruct (validate_container_name _) as [|[]]; done. }
  match goal with H : seen_name _ = Ok _ |- _ => injection H as <- end.
  apply app_eq_nil in Happ as [Hdup _]. case_decide; [done|]. eauto 10.
Qed.

Lemma validate_container_entries_names i seen l :
  validate_container_entries i seen l = Ok [] ->
  exists names, Forall2 (fun c n => index c "name" = Ok (TStr n)) l names /\ NoDup names /\
    Forall (fun n => (String.length n <= 27)%nat /\ name_pattern n = true) names /\
    Forall (fun n => n ∉ seen) names.
Proof.
  revert i seen. induction l as [|c l IH]; intros i seen H; cbn [validate_container_entries] in H.
  { exists []. split_and!; constructor. }
  inv_ok. destruct x as [seen' errs]. inv_ok. apply app_eq_nil in H as [-> ->].
  match goal with H : validate_container_entry _ _ _ = _ |- _ =>
    apply validate_container_entry_clean in H as (n & Hi & Hlen & Hpat & Hnew & ->) end.
  match goal with H : validate_container_entries _ _ _ = _ |- _ =>
    apply IH in H as (names & H1 & H2 & H3 & H4) end.
  exists (n :: names). split_and!; constructor; try done.
  - intros Hin. rewrite Forall_forall in H4. specialize (H4 n Hin). set_solver.
  - eapply Forall_impl; [exact H4|]. set_solver.
Qed.

(** ** What an accepted configuration guarantees *)

Lemma no_control_no_lf s : control_char_in s = false -> has_char LF s = false.
Proof.
  unfold control_char_in, has_char. induction s as [|c s IH]; [done|]. cbn [any_char].
  intros [E1 E2]%orb_false_elim. rewrite IH by done. unfold is_char. destruct (Ascii.eqb_spec LF c) as [<-|]; done.
Qed.

Lemma control_free_no_lf v s : reject_control_chars v = [] -> s ∈ strings_of v -> has_char LF s = false.
Proof.
  intros Hw Hs. destruct (walk_clean _ _ _ "" Hw s Hs) as [r Hr]. unfold check_control in Hr.
  apply no_control_no_lf. by destruct (control_char_in s).
Qed.

Section accepted.
Variable patterns_overlap : string -> string -> bool.
Variable hostname_match : string -> list string -> bool.
Variable config : table.

Lemma accepted_walks :
  validate_container_config patterns_overlap hostname_match config = Ok [] ->
  reject_control_chars (TTab config) = [] /\ reject_bad_workload_tokens (TTab config) = [] /\
  validate_containers config = Ok [] /\
  (exists host ack, uses_host_userns config = Ok host /\ host_userns_acknowledged config = Ok ack /\
     (host = true -> ack = true)).
Proof.
  unfold validate_container_config. intros H. inv_ok.
  repeat match goal with
  | H : _ ++ _ = [] |- _ => apply app_eq_nil in H as [? ?]
  end.
  subst. split_and!; try done. eexists _, _. split; [done|]. split; [done|].
  intros ->. match goal with H : (if true && negb ?a then _ else _) = [] |- _ => destruct a; done end.
Qed.

Lemma accepted_single :
  validate_container_config patterns_overlap hostname_match config = Ok [] ->
  infer_workload_mode config = Ok MSingle -> assoc "containers" config = None.
Proof.
  intros H Hm. assert (He : check_mode config = Ok []).
  { unfold validate_container_config in H. inv_ok.
    repeat match goal with H : _ ++ _ = [] |- _ => apply app_eq_nil in H as [? ?] end. by subst. }
  unfold check_mode, explicit_mode, infer_workload_mode, has_key in *. clear H.
  destruct (get_or (TTab config) "workload" (TTab [])) as [w|]; [|done]. cbn [mbind res_bind] in *.
  destruct (get w "mode") as [[v|]|]; [| |done]; cbn [mbind res_bind] in *;
    destruct (assoc "containers" config); try done.
  destruct v as [mo| | | | |]; try done. cbn in *. rewrite andb_false_r, andb_true_r in He.
  destruct (String.eqb mo "single"); [done|]. destruct (String.eqb mo "pod"); [done|]. by destruct (String.eqb mo "bridge").
Qed.

(** No string of an accepted configuration, at any depth, holds a
    newline or another control character than a tab; and every workload token
    in it expands. *)
Theorem accepted_strings_clean dir name s :
  validate_container_config patterns_overlap hostname_match config = Ok [] ->
  s ∈ strings_of (TTab config) ->
  control_char_in s = false /\ has_char LF s = false /\
  exists r, expand_workload_tokens dir s name = Ok r.
Proof.
  intros (Hc & Ht & _)%accepted_walks Hs.
  destruct (walk_clean _ _ _ "" Hc s Hs) as [r1 H1]. destruct (walk_clean _ _ _ "" Ht s Hs) as [r2 H2].
  unfold check_control in H1. destruct (control_char_in s) eqn:E; [done|]. split; [done|]. split.
  - by apply no_control_no_lf.
  - unfold check_tokens, re_matches in H2. apply omap_nil in H2. unfold expand_workload_tokens.
    apply render_tokens_Ok. induction (re_tokens token_matcher None O s) as [|[c|k] l IH];
      cbn [omap list_omap] in *; [constructor|constructor; auto|].
    apply Forall_cons in H2 as [Hk Hl]. constructor; [|auto].
    destruct (bool_decide (k ∈ WORKLOAD_TOKEN_NAMES)) eqn:Ek; [|done].
    apply bool_decide_eq_true in Ek. unfold token_value, workload_tokens. apply list_elem_of_In in Ek.
    destruct Ek as [<-|[<-|[<-|[<-|[<-|[]]]]]]; cbn [assoc]; repeat case_decide; eauto; done.
Qed.

(** The containers of an accepted [[containers]] array have names, which are pairwise
    distinct, at most 27 characters long and of the name pattern; and where
    [uses_host_userns] finds the host's user namespace, the configuration acknowledges
    it. *)
Theorem accepted_containers l :
  validate_container_config patterns_overlap hostname_match config = Ok [] ->
  assoc "containers" config = Some (TArr l) ->
  (exists names, Forall2 (fun c n => index c "name" = Ok (TStr n)) l names /\ NoDup names /\
     Forall (fun n => (String.length n <= 27)%nat /\ name_pattern n = true) names) /\
  (uses_host_userns config = Ok true -> host_userns_acknowledged config = Ok true).
Proof.
  intros (_ & _ & Hc & host & ack & Hh & Ha & Himp)%accepted_walks Hl. split.
  - unfold validate_containers in Hc. rewrite Hl in Hc. destruct l as [|c l]; [done|].
    apply validate_container_entries_names in Hc as (names & H1 & H2 & H3 & _). eauto.
  - intros H. rewrite Hh in H. injection H as ->. by rewrite Ha, Himp.
Qed.
End accepted.

(** ** Environment arguments *)

Lemma has_char_replace c d r s :
  has_char c r = false -> c <> d -> has_char c (replace_char d r s) = has_char c s.
Proof.
  intros Hr Hd. induction s as [|a s IH]; [done|]. rewrite replace_char_cons, has_char_app, IH.
  unfold has_char at 3. cbn [any_char]. fold (has_char c s). f_equal.
  destruct (Ascii.eqb_spec a d) as [->|]; [|apply orb_false_r].
  rewrite Hr. unfold is_char. by destruct (Ascii.eqb_spec c d).
Qed.

Lemma has_char_dq_lf s : has_char LF (dq s) = has_char LF s.
Proof.
  unfold dq, quote_with, esc_dquote, esc_bslash. rewrite !has_char_app, !has_char_replace by done.
  apply orb_false_r.
Qed.

(** An environment argument spans a line exactly when its key or its value has a
    newline, and a key has one only as its last character. *)
Lemma env_arg_lf k v a :
  env_arg (k, v) = Some a ->
  has_char LF a = has_char LF k || has_char LF (py_str v) /\
  (re_head_star is_var_head is_var_char k = true \/
   exists t, k = t +:+ chr LF /\ re_head_star is_var_head is_var_char t = true).
Proof.
  unfold env_arg. destruct (validate_env_key k) eqn:E; [|done]. cbn [negb].
  destruct (secret_search (py_str v)); [done|]. intros H. assert (a = "--env " +:+ (k +:+ ("=" +:+ dq (py_str v)))) as -> by congruence. clear H.
  split; [|by apply match_anchored_spec]. by rewrite !has_char_app, has_char_dq_lf.
Qed.

Definition sample_container (env : table) : table :=
  [("workload", TTab [("requires", TArr [TStr "db"])]);
   ("container", TTab [("image", TStr "img"); ("environment", TTab env)]);
   ("security", TTab [("security_opt", TArr [TStr "label=${WORKLOAD_NAME}"])])].

(** A configuration whose variable name ends in a newline is accepted, and the
    argument built from it breaks the line of the unit. *)
Theorem newline_key_reaches_the_unit :
  let config := sample_container [("FOO" +:+ chr LF, TStr "x")] in
  validate_container_config same_pattern same_match config = Ok [] /\
  build_plain_env_args config = Ok ["--env FOO" +:+ chr LF +:+ "=" +:+ dq "x"].
Proof. vm_compute. done. Qed.

Lemma accepted_strings_clean_witness :
  exists r, expand_workload_tokens "/d" "label=${WORKLOAD_NAME}" "web" = Ok r.
Proof.
  refine (proj2 (proj2 (accepted_strings_clean same_pattern same_match (sample_container [("FOO", TStr "x")])
    "/d" "web" "label=${WORKLOAD_NAME}" _ _))).
  - vm_compute. reflexivity.
  - apply list_elem_of_In. vm_compute. tauto.
Defined.

Definition sample_pod : table :=
  [("security", TTab [("userns", TStr "host"); (HOST_USERNS_OPT_IN, TBool true)]);
   ("containers", TArr [TTab [("name", TStr "app"); ("container", TTab [("image", TStr "a")])];
                        TTab [("name", TStr "side"); ("container", TTab [("image", TStr "b")])]])].

Lemma accepted_containers_witness :
  uses_host_userns sample_pod = Ok true /\ host_userns_acknowledged sample_pod = Ok true.
Proof.
  split; [vm_compute; reflexivity|].
  refine (proj2 (accepted_containers same_pattern same_match sample_pod _ _ _) _);
    vm_compute; reflexivity.
Defined.
