(* ===== verification/BrokerConfig.v ===== *)
(** * The broker instance: [lib/broker_config.py]

    Which workloads get a broker, the command line it is started with, the
    addresses it may reach, and the commands that give a workload its listener
    addresses.  [read_broker] is the reader's side of the command line: flags and
    values in turn, and a value [key=rest] cut at its first equals sign.

    Parameter: the resolver. *)
From S2P Require Import Prelude PyStr PyPath Toml Ipaddr WorkloadAddr WorkloadConfig SecretsTemplate.
From S2P Require Import CredentialEntries NetworkConfig.
Local Open Scope Z_scope.

Definition BROKER_BIN : string := "/usr/libexec/moatery/moat-broker".
Definition BROKER_INSTANCE_PORT : Z := 8081.
Definition CREDSTORE_DIR : pypath := path_of "/etc/credstore.encrypted".

(** ** Who has a broker *)

Definition vm_credential_entries (net : table) : list credential := parse_credential_entries net.

Definition vm_uses_credentials (config : table) : res bool :=
  b ← vm_uses_inspect config;
  if negb b then Ok false
  else n ← vm_network config;
       Ok (match n with TTab net => nonempty (vm_credential_entries net) | _ => false end).

(** [config.get("network", {}) or {}]. *)
Definition container_network (config : table) : tv :=
  match assoc "network" config with Some v => or_empty v | None => TTab [] end.

Definition container_uses_credentials (config : table) : res bool :=
  b ← container_uses_inspect config;
  Ok (if negb b then false
      else match container_network config with
           | TTab net => nonempty (container_credential_entries net)
           | _ => false
           end).

Definition broker_credential (name credential : string) : res (pypath * string) :=
  credential_path CREDSTORE_DIR ("broker/" +:+ name +:+ "/" +:+ credential).

(** The variables a guest sees: a later block of the same variable wins. *)
Definition vm_credential_env (config : table) : res (list (string * string)) :=
  n ← vm_network config;
  Ok (match n with
      | TTab net => foldl (fun d c => assoc_set (cr_env c) (cr_placeholder c) d) [] (vm_credential_entries net)
      | _ => []
      end).

(** [[(e.host, e.credential) for e in entries if e.credential]]. *)
Definition credential_hosts (entries : list policy_entry) : list (string * string) :=
  omap (fun e => match pe_credential e with
                 | Some c => if String.eqb c "" then None else Some (pe_host e, c)
                 | None => None
                 end) entries.

Definition vm_broker_hosts (config : table) : res (list (string * string)) :=
  n ← vm_network config;
  Ok (match n with TTab net => credential_hosts (vm_policy_entries net) | _ => [] end).

Definition container_broker_hosts (config : table) : list (string * string) :=
  match container_network config with
  | TTab net => credential_hosts (container_policy_entries net)
  | _ => []
  end.

(** ** The command line *)

(** [_credential_named]. *)
Definition credential_named (credentials : list credential) (name : string) : option credential :=
  List.find (fun c => String.eqb (cr_name c) name) credentials.

Fixpoint host_flags (name : string) (seen selected : list string) (hosts : list (string * string))
    : res (list string * list string) :=
  match hosts with
  | [] => Ok ([], selected)
  | (host, credential) :: hosts =>
      if decide (host ∈ seen) then host_flags name seen selected hosts
      else
        '(_, cred_id) ← broker_credential name credential;
        '(cmd, selected) ← host_flags name (seen ++ [host])
          (if decide (credential ∈ selected) then selected else selected ++ [credential]) hosts;
        Ok (["--host"; host +:+ "=" +:+ cred_id] ++ cmd, selected)
  end.

(** [if value: cmd += [flag, f"{cred_id}={value}"]]. *)
Definition optional_flag (flag cred_id : string) (value : option string) : list string :=
  match value with
  | Some v => if String.eqb v "" then [] else [flag; cred_id +:+ "=" +:+ v]
  | None => []
  end.

Fixpoint credential_flags (name : string) (credentials : list credential) (selected : list string)
    : res (list string) :=
  match selected with
  | [] => Ok []
  | c :: selected =>
      match credential_named credentials c with
      | None => credential_flags name credentials selected
      | Some cred =>
          '(_, cred_id) ← broker_credential name c;
          rest ← credential_flags name credentials selected;
          Ok (["--placeholder"; cred_id +:+ "=" +:+ cr_placeholder cred]
              ++ optional_flag "--auth-header" cred_id (cr_auth_header cred)
              ++ optional_flag "--auth-format" cred_id (cr_auth_format cred) ++ rest)
      end
  end.

Definition broker_command (name : string) (uid : Z) (hosts : list (string * string))
    (credentials : list credential) : res (list string) :=
  listen ← broker_listen_address uid;
  '(hs, selected) ← host_flags name [] [] hosts;
  cs ← credential_flags name credentials selected;
  Ok ([BROKER_BIN; "--name"; name; "--listen"; listen +:+ ":" +:+ str_Z BROKER_INSTANCE_PORT;
       "--caller-uid"; str_Z uid] ++ hs ++ cs).

(** [config["workload"]["name"]].  A name that is not a string fails here, not
    where the unit quotes the command. *)
Definition config_name (config : table) : res string :=
  w ← index (TTab config) "workload"; n ← index w "name";
  match n with TStr s => Ok s | _ => Raise TypeError end.

Definition vm_broker_command (config : table) (uid : Z) : res (list string) :=
  n ← vm_network config; name ← config_name config; hosts ← vm_broker_hosts config;
  broker_command name uid hosts (match n with TTab net => vm_credential_entries net | _ => [] end).

Definition container_broker_command (config : table) (uid : Z) : res (list string) :=
  name ← config_name config;
  broker_command name uid (container_broker_hosts config)
    (match container_network config with TTab net => container_credential_entries net | _ => [] end).

(** ** Addresses *)

(** [if addr not in seen: seen.append(addr)]. *)
Definition add_once (seen : list string) (a : string) : list string :=
  if decide (a ∈ seen) then seen else seen ++ [a].

Section upstream.
Variable getaddrinfo : string -> res (list string).

Fixpoint add_infos (seen : list string) (infos : list string) : res (list string) :=
  match infos with
  | [] => Ok seen
  | i :: infos => a ← parse_addr i; add_infos (add_once seen (ip_str a)) infos
  end.

Fixpoint upstream_from (seen : list string) (hosts : list (string * string)) : res (list string) :=
  match hosts with
  | [] => Ok seen
  | (host, _) :: hosts =>
      match getaddrinfo host with
      | Raise OSError => upstream_from seen hosts
      | Raise e => Raise e
      | Ok infos => seen ← add_infos seen infos; upstream_from seen hosts
      end
  end.

Definition broker_upstream_addresses (hosts : list (string * string)) : res (list string) := upstream_from [] hosts.
Definition vm_broker_upstream_addresses (config : table) : res (list string) :=
  hosts ← vm_broker_hosts config; broker_upstream_addresses hosts.
Definition container_broker_upstream_addresses (config : table) : res (list string) :=
  broker_upstream_addresses (container_broker_hosts config).
End upstream.

(** The address of a [nameserver] line, without its scope. *)
Definition nameserver_address (line : string) : option string :=
  match words line with
  | key :: value :: _ =>
      if String.eqb key "nameserver" then
        ip_str <$> ip_address (hd "" (split_on "%" value))
      else None
  | _ => None
  end.

(** [None]: the file cannot be read. *)
Definition host_resolver_addresses (resolv_conf : option string) : list string :=
  match resolv_conf with
  | None => []
  | Some text => foldl add_once [] (omap nameserver_address (splitlines text))
  end.

(** ** Listener addresses *)

Definition inspect_link_address_commands (uid : Z) : res (list (list string)) :=
  a ← inspect_address uid;
  Ok [[IP_BIN; "addr"; "add"; v4 a +:+ "/32"; "dev"; ADVERTISED_IFACE];
      [IP_BIN; "addr"; "add"; v6 a +:+ "/128"; "dev"; ADVERTISED_IFACE; "nodad"]].

Definition inspect_link_delete_commands (uid : Z) : res (list (list string)) :=
  a ← inspect_address uid;
  Ok [[IP_BIN; "addr"; "del"; v4 a +:+ "/32"; "dev"; ADVERTISED_IFACE];
      [IP_BIN; "addr"; "del"; v6 a +:+ "/128"; "dev"; ADVERTISED_IFACE]].

(** ** Reading the command line back *)

(** Flags and values in turn. *)
Fixpoint flag_pairs (argv : list string) : option (list (string * string)) :=
  match argv with
  | [] => Some []
  | f :: v :: argv => l ← flag_pairs argv; Some ((f, v) :: l)
  | _ => None
  end.

Definition values (flag : string) (ps : list (string * string)) : list string :=
  omap (fun '(f, v) => if String.eqb f flag then Some v else None) ps.

(** The values [key=rest] of a flag. *)
Definition keyed (flag : string) (ps : list (string * string)) : list (string * string) :=
  omap (cut "=") (values flag ps).

Record broker := mkBroker {
  b_name : list string; b_listen : list string; b_caller : list string;
  b_hosts : list (string * string);
  b_placeholders : list (string * string);
  b_headers : list (string * string);
  b_formats : list (string * string) }.

Definition read_broker (argv : list string) : option broker :=
  match argv with
  | bin :: argv =>
      ps ← flag_pairs argv;
      Some (mkBroker (values "--name" ps) (values "--listen" ps) (values "--caller-uid" ps)
              (keyed "--host" ps) (keyed "--placeholder" ps) (keyed "--auth-header" ps) (keyed "--auth-format" ps))
  | [] => None
  end.

Lemma flag_pairs_app a b pa pb :
  flag_pairs a = Some pa -> flag_pairs b = Some pb -> flag_pairs (a ++ b) = Some (pa ++ pb).
Proof.
  revert a pa. fix IH 1. intros [|f [|v a]] pa Ha Hb; cbn in Ha; [by simplify_eq/=|done|].
  destruct (flag_pairs a) as [l|] eqn:E; [|done]. cbn in Ha. injection Ha as <-.
  cbn. by rewrite (IH a l E Hb).
Qed.

Lemma keyed_app f a b : keyed f (a ++ b) = keyed f a ++ keyed f b.
Proof. unfold keyed, values. by rewrite !omap_app. Qed.

(** The name a workload's credential is sealed under. *)
Definition seal (name c : string) : string := "broker-" +:+ name +:+ "-" +:+ c.

Lemma segment_no_char s c :
  segment_ok s = true -> is_cred_char c = false -> c <> LF -> has_char c s = false.
Proof.
  intros H Hc Hlf. unfold segment_ok in H. apply match_anchored_spec in H as [H|(t & -> & H)];
    apply andb_prop in H as [_ H]; rewrite ?has_char_app, (all_chars_no_char is_cred_char) by done; [done|].
  unfold has_char, is_char. cbn. by destruct (Ascii.eqb_spec c LF).
Qed.

Lemma broker_credential_Ok name c f id :
  broker_credential name c = Ok (f, id) ->
  id = seal name c /\ segment_ok name = true /\ segment_ok c = true.
Proof.
  unfold broker_credential, credential_path.
  replace (split_on "/" _) with ("broker" :: split_on "/" name ++ split_on "/" c).
  2: { change ("broker/" +:+ name +:+ "/" +:+ c) with ("broker" +:+ String "/" (name +:+ String "/" c)).
       by rewrite split_on_app, split_on_sep. }
  destruct (split_on "/" name) as [|n ns] eqn:En; [by apply split_on_nonempty in En|].
  destruct (split_on "/" c) as [|d ds] eqn:Ed; [by apply split_on_nonempty in Ed|]. cbn [app String.eqb negb].
  destruct ns as [|? [|]]; cbn [app]; [|by destruct ds|done]. destruct ds; [|done].
  apply split_single in En as [-> _]. apply split_single in Ed as [-> _].
  destruct (segment_ok "broker" && _ && _) eqn:E; [|done]. intros [= <- <-].
  apply andb_prop in E as [[_ ?]%andb_prop ?]. done.
Qed.

Lemma seal_no_eq name c : segment_ok name = true -> segment_ok c = true -> has_char "=" (seal name c) = false.
Proof. intros Hn Hc. unfold seal. by rewrite !has_char_app, !segment_no_char. Qed.

Lemma seal_inj name c c' : seal name c = seal name c' -> c = c'.
Proof. unfold seal. intros H. by do 3 apply app_inj_l_str in H. Qed.

(** The hosts that get a flag: the first entry of each host. *)
Fixpoint first_hosts (seen : list string) (hosts : list (string * string)) : list (string * string) :=
  match hosts with
  | [] => []
  | (h, c) :: hosts => if decide (h ∈ seen) then first_hosts seen hosts else (h, c) :: first_hosts (seen ++ [h]) hosts
  end.

Lemma elem_first_hosts seen hosts h c :
  (h, c) ∈ first_hosts seen hosts <-> h ∉ seen /\ assoc h hosts = Some c.
Proof.
  revert seen. induction hosts as [|[h' c'] hosts IH]; intros seen; cbn [first_hosts assoc]; [set_solver|].
  destruct (decide (h' ∈ seen)) as [Hs|Hs]; rewrite ?elem_of_cons, IH; case_decide; set_solver.
Qed.

Lemma NoDup_first_hosts seen hosts : NoDup (map fst (first_hosts seen hosts)).
Proof.
  revert seen. induction hosts as [|[h c] hosts IH]; intros seen; cbn [first_hosts map]; [constructor|].
  case_decide; [done|]. cbn [map fst]. constructor; [|done].
  intros ([h' c'] & Heq & Hin)%list_elem_of_fmap. cbn in Heq. subst. apply elem_first_hosts in Hin. set_solver.
Qed.

Lemma host_flags_spec name seen selected hosts cmd sel :
  host_flags name seen selected hosts = Ok (cmd, sel) ->
  flag_pairs cmd = Some (map (fun '(h, c) => ("--host", h +:+ String "=" (seal name c))) (first_hosts seen hosts)) /\
  (forall c, c ∈ sel <-> c ∈ selected \/ c ∈ map snd (first_hosts seen hosts)) /\
  (NoDup selected -> NoDup sel) /\
  Forall (fun hc => has_char "=" (seal name (snd hc)) = false) (first_hosts seen hosts).
Proof.
  revert seen selected cmd. induction hosts as [|[h c] hosts IH]; intros seen selected cmd; cbn [host_flags first_hosts].
  { intros [= <- <-]. split_and!; try done. set_solver. }
  destruct (decide (h ∈ seen)) as [Hs|Hs]; [apply IH|]. intros ([f id] & Hb & H)%bind_Ok_inv.
  apply broker_credential_Ok in Hb as (-> & Hn & Hc).
  apply bind_Ok_inv in H as ([cmd' sel'] & H & [= <- <-]). apply IH in H as (H1 & H2 & H3 & H4).
  split_and!.
  - cbn. by rewrite H1.
  - intros c'. rewrite H2. cbn [map snd]. case_decide; set_solver.
  - intros Hd. apply H3. case_decide; [done|]. apply NoDup_app. set_solver by eauto using NoDup_singleton.
  - constructor; [by apply seal_no_eq|done].
Qed.

(** What the command says of the credential [c] under a flag. *)
Definition told (name : string) (creds : list credential) (get : credential -> option string) (c : string)
    : option (string * string) :=
  cred ← credential_named creds c; v ← get cred; Some (seal name c, v).

(** A value that is absent when it is empty. *)
Definition present (v : option string) : option string :=
  v ← v; if String.eqb v "" then None else Some v.

Lemma told_None name creds get c : credential_named creds c = None -> told name creds get c = None.
Proof. unfold told. by intros ->. Qed.

Lemma told_Some name creds get c cred :
  credential_named creds c = Some cred -> told name creds get c = pair (seal name c) <$> get cred.
Proof. unfold told. intros ->. cbn. by destruct (get cred). Qed.

Lemma optional_flag_pairs flag id v :
  flag_pairs (optional_flag flag id v) =
  Some (match present v with Some x => [(flag, id +:+ String "=" x)] | None => [] end).
Proof. destruct v as [v|]; [|done]. cbn. by destruct (String.eqb v ""). Qed.

(** The pairs of a flag and a value, by flag. *)
Lemma keyed_cons flag f k v ps :
  has_char "=" k = false ->
  keyed flag ((f, k +:+ String "=" v) :: ps) = (if String.eqb f flag then [(k, v)] else []) ++ keyed flag ps.
Proof.
  intros Hk. unfold keyed, values. cbn [omap list_omap]. destruct (String.eqb f flag); [|done].
  cbn [omap list_omap]. by rewrite cut_app.
Qed.

Lemma credential_flags_spec name creds selected cmd :
  credential_flags name creds selected = Ok cmd ->
  exists ps, flag_pairs cmd = Some ps /\
    keyed "--placeholder" ps = omap (told name creds (fun c => Some (cr_placeholder c))) selected /\
    keyed "--auth-header" ps = omap (told name creds (fun c => present (cr_auth_header c))) selected /\
    keyed "--auth-format" ps = omap (told name creds (fun c => present (cr_auth_format c))) selected /\
    keyed "--host" ps = [] /\ values "--name" ps = [] /\ values "--listen" ps = [] /\ values "--caller-uid" ps = [].
Proof.
  revert cmd. induction selected as [|c selected IH]; intros cmd; cbn [credential_flags].
  { intros [= <-]. exists []. done. }
  cbn [omap list_omap]. destruct (credential_named creds c) as [cred|] eqn:E;
    [|rewrite !told_None by done; apply IH].
  intros ([f id] & Hb & H)%bind_Ok_inv. apply broker_credential_Ok in Hb as (-> & Hn & Hc).
  apply bind_Ok_inv in H as (rest & (ps & H1 & H2 & H3 & H4 & H5 & H6 & H7 & H8)%IH & <-%Ok_inj).
  pose proof (seal_no_eq _ _ Hn Hc) as Hs. rewrite !(told_Some _ _ _ _ _ E).
  pose proof (optional_flag_pairs "--auth-header" (seal name c) (cr_auth_header cred)) as Hh.
  pose proof (optional_flag_pairs "--auth-format" (seal name c) (cr_auth_format cred)) as Hf.
  revert Hs Hh Hf. generalize (seal name c). intros k Hs Hh Hf.
  eexists (("--placeholder", k +:+ String "=" (cr_placeholder cred)) :: _ ++ _ ++ _). split.
  { cbn [flag_pairs app]. by rewrite (flag_pairs_app _ _ _ _ Hh (flag_pairs_app _ _ _ _ Hf H1)). }
  rewrite !keyed_cons, !keyed_app by done. unfold values in *. cbn [omap list_omap String.eqb Ascii.eqb Bool.eqb].
  rewrite !omap_app. destruct (present (cr_auth_header cred)), (present (cr_auth_format cred));
    rewrite ?keyed_cons by done; cbn; rewrite ?H2, ?H3, ?H4, ?H5, ?H6, ?H7, ?H8; done.
Qed.

Lemma keyed_hosts name fh :
  Forall (fun hc => has_char "=" (fst hc) = false) fh ->
  keyed "--host" (map (fun '(h, c) => ("--host", h +:+ String "=" (seal name c))) fh) =
  map (fun '(h, c) => (h, seal name c)) fh.
Proof.
  induction 1 as [|[h c] fh Hh _ IH]; [done|]. cbn [map]. by rewrite keyed_cons, IH.
Qed.

Lemma values_hosts flag name (fh : list (string * string)) :
  String.eqb "--host" flag = false ->
  values flag (map (fun '(h, c) => ("--host", h +:+ String "=" (seal name c))) fh) = [].
Proof. intros Hf. unfold values. induction fh as [|[h c] fh IH]; [done|]. cbn [map omap list_omap]. by rewrite Hf. Qed.

Lemma first_hosts_incl seen hosts hc : hc ∈ first_hosts seen hosts -> hc ∈ hosts.
Proof.
  revert seen. induction hosts as [|[h c] hosts IH]; intros seen; cbn [first_hosts]; [done|].
  case_decide; set_solver.
Qed.

(** The flags about credentials: each selected one that has a value, once. *)
Lemma told_elem name creds get (selected : list string) id v :
  (id, v) ∈ omap (told name creds get) selected <->
  exists c cred, c ∈ selected /\ credential_named creds c = Some cred /\ id = seal name c /\ get cred = Some v.
Proof.
  rewrite list_elem_of_omap. split.
  - intros (c & Hc & H). unfold told in H. destruct (credential_named creds c) as [cred|] eqn:E; [|done].
    cbn in H. destruct (get cred) eqn:Eg; [|done]. cbn in H. simplify_eq. eauto 10.
  - intros (c & cred & Hc & E & -> & Eg). exists c. split; [done|]. rewrite (told_Some _ _ _ _ _ E). by rewrite Eg.
Qed.

Lemma told_key name creds get c id v : told name creds get c = Some (id, v) -> id = seal name c.
Proof. intros (cred & _ & (x & _ & H)%bind_Some)%bind_Some. congruence. Qed.

Lemma told_NoDup name creds get selected : NoDup selected -> NoDup (map fst (omap (told name creds get) selected)).
Proof.
  induction 1 as [|c sel Hc _ IH]; cbn [omap list_omap]; [constructor|].
  destruct (told name creds get c) as [[id v]|] eqn:E; [|done]. cbn [map fst]. constructor; [|done].
  intros ([id' v'] & Heq & (c' & cred & Hc' & _ & -> & _)%told_elem)%list_elem_of_fmap. cbn in Heq. subst id.
  by apply told_key, seal_inj in E as ->.
Qed.

Lemma told_selected name creds get (hosts : list (string * string)) (sel : list string) :
  (forall c, c ∈ sel <-> exists h, assoc h hosts = Some c) ->
  forall id v, (id, v) ∈ omap (told name creds get) sel <->
    exists h c cred, assoc h hosts = Some c /\ credential_named creds c = Some cred /\
      id = seal name c /\ get cred = Some v.
Proof. intros H id v. rewrite told_elem. setoid_rewrite H. naive_solver. Qed.

(** The record the broker reads, and the credentials selected. *)
Lemma broker_command_view name uid hosts creds cmd :
  broker_command name uid hosts creds = Ok cmd ->
  Forall (fun hc => has_char "=" (fst hc) = false) hosts ->
  exists addr sel, broker_listen_address uid = Ok addr /\ NoDup sel /\
    (forall c, c ∈ sel <-> exists h, assoc h hosts = Some c) /\
    read_broker cmd = Some (mkBroker [name] [addr +:+ ":8081"] [str_Z uid]
      (map (fun '(h, c) => (h, seal name c)) (first_hosts [] hosts))
      (omap (told name creds (fun c => Some (cr_placeholder c))) sel)
      (omap (told name creds (fun c => present (cr_auth_header c))) sel)
      (omap (told name creds (fun c => present (cr_auth_format c))) sel)).
Proof.
  unfold broker_command. intros (addr & Ha & H)%bind_Ok_inv Heq.
  apply bind_Ok_inv in H as ([hs sel] & (P1 & Hsel & Hnd & _)%host_flags_spec & H).
  apply bind_Ok_inv in H as (cs & (ps & P2 & K1 & K2 & K3 & K4 & V1 & V2 & V3)%credential_flags_spec & <-%Ok_inj).
  assert (Hfh : Forall (fun hc => has_char "=" (fst hc) = false) (first_hosts [] hosts)).
  { rewrite Forall_forall in *. intros hc Hin%first_hosts_incl. by apply Heq. }
  exists addr, sel. split_and!; [done|apply Hnd; constructor| |].
  - intros c. rewrite Hsel, list_elem_of_fmap. split.
    + intros [?|([h c'] & -> & [_ ?]%elem_first_hosts)]; [set_solver|eauto].
    + intros [h Hh]. right. exists (h, c). split; [done|]. apply elem_first_hosts. set_solver.
  - cbn [read_broker app flag_pairs]. rewrite (flag_pairs_app _ _ _ _ P1 P2). cbn [mbind option_bind].
    set (hp := map _ (first_hosts [] hosts)) in *.
    assert (Hp : forall f l, String.eqb "--host" f = false -> values f (hp ++ l) = values f l).
    { intros f l Hf. pose proof (values_hosts f name (first_hosts [] hosts) Hf) as E.
      fold hp in E. unfold values in *. by rewrite omap_app, E. }
    assert (Hh : keyed "--host" (hp ++ ps) = map (fun '(h, c) => (h, seal name c)) (first_hosts [] hosts)).
    { rewrite keyed_app, K4, app_nil_r. by apply keyed_hosts. }
    unfold keyed in *. unfold values at 1 2 3 4 5 6 7. cbn [omap list_omap String.eqb Ascii.eqb Bool.eqb].
    fold (values "--name" (hp ++ ps)) (values "--listen" (hp ++ ps)) (values "--caller-uid" (hp ++ ps))
      (values "--host" (hp ++ ps)) (values "--placeholder" (hp ++ ps)) (values "--auth-header" (hp ++ ps))
      (values "--auth-format" (hp ++ ps)).
    rewrite Hh, !Hp by done. by rewrite V1, V2, V3, K1, K2, K3.
Qed.

(** The broker reads from its command line what the configuration says:
    its name, caller and listener; each host once, with the credential of its
    first policy entry; and for each credential that serves a host, under the
    name its file is sealed with, the placeholder, header and format of its block,
    once. *)
Theorem broker_command_reads_back name uid hosts creds cmd :
  broker_command name uid hosts creds = Ok cmd ->
  Forall (fun hc => has_char "=" (fst hc) = false) hosts ->
  exists b addr, read_broker cmd = Some b /\ broker_listen_address uid = Ok addr /\
    b_name b = [name] /\ b_listen b = [addr +:+ ":8081"] /\ b_caller b = [str_Z uid] /\
    NoDup (map fst (b_hosts b)) /\
    (forall h id, (h, id) ∈ b_hosts b <-> exists c, assoc h hosts = Some c /\ id = seal name c) /\
    Forall (fun '(table, get) =>
        NoDup (map fst table) /\
        forall id v, (id, v) ∈ table <->
          exists h c cred, assoc h hosts = Some c /\ credential_named creds c = Some cred /\
            id = seal name c /\ get cred = Some v)
      [(b_placeholders b, fun c => Some (cr_placeholder c));
       (b_headers b, fun c => present (cr_auth_header c));
       (b_formats b, fun c => present (cr_auth_format c))].
Proof.
  intros Hc Heq. destruct (broker_command_view _ _ _ _ _ Hc Heq) as (addr & sel & Ha & Hnd & Hsel & Hr).
  eexists _, addr. split; [exact Hr|]. cbn [b_name b_listen b_caller b_hosts b_placeholders b_headers b_formats].
  split_and!; try done.
  - rewrite map_map. erewrite map_ext; [apply (NoDup_first_hosts [] hosts)|]. by intros [].
  - intros h id. rewrite list_elem_of_fmap. split.
    + intros ([h' c] & [= -> ->] & [_ ?]%elem_first_hosts). eauto.
    + intros (c & Hh & ->). exists (h, c). split; [done|]. apply elem_first_hosts. set_solver.
  - repeat constructor; try (by apply told_NoDup);
      by apply told_selected.
Qed.

Definition sample_credentials : list credential :=
  [mkCred "api" "PLACEHOLDER-1" "API_KEY" (Some "x-api-key") None; mkCred "git" "PLACEHOLDER-2" "GIT" None None].

Lemma broker_command_reads_back_witness :
  exists b, NoDup (map fst (b_hosts b)) /\ ("api.example", "broker-web-api") ∈ b_hosts b.
Proof.
  pose proof (broker_command_reads_back "web" 10003
    [("api.example", "api"); ("git.example", "git"); ("api.example", "git")] sample_credentials) as H.
  edestruct H as (b & addr & _ & _ & _ & _ & _ & Hnd & Hh & _).
  - vm_compute. reflexivity.
  - repeat constructor.
  - exists b. split; [exact Hnd|]. apply Hh. exists "api". split; reflexivity.
Defined.

(** The command exists for every workload uid, when the names are those the
    validators let through. *)
Theorem broker_command_total name uid hosts creds :
  UID_MIN <= uid <= UID_MAX -> segment_ok name = true ->
  Forall (fun hc => segment_ok (snd hc) = true) hosts ->
  exists cmd, broker_command name uid hosts creds = Ok cmd.
Proof.
  intros Hu Hn Hh.
  assert (Hb : forall c, segment_ok c = true -> exists f, broker_credential name c = Ok (f, seal name c)).
  { intros c Hc. unfold broker_credential, credential_path.
    change ("broker/" +:+ name +:+ "/" +:+ c) with ("broker" +:+ String "/" (name +:+ String "/" c)).
    destruct (segment_plain _ Hn) as [Sn _]. destruct (segment_plain _ Hc) as [Sc _].
    rewrite !split_on_app, split_on_no_char by done. cbn [String.eqb Ascii.eqb Bool.eqb negb].
    rewrite Hn, Hc. eexists. reflexivity. }
  assert (Hhost : forall seen sel, Forall (fun c => segment_ok c = true) sel ->
    exists cmd sel', host_flags name seen sel hosts = Ok (cmd, sel') /\ Forall (fun c => segment_ok c = true) sel').
  { induction Hh as [|[h c] hosts Hc _ IH]; intros seen sel Hsel; cbn [host_flags]; [eauto|].
    case_decide; [by apply IH|]. destruct (Hb c Hc) as [f ->]. cbn [mbind res_bind snd].
    edestruct IH as (cmd & sel' & -> & Hs'); [|cbn; eauto].
    case_decide; [done|]. apply Forall_app. split; [done|]. by repeat constructor. }
  destruct (Hhost [] []) as (hs & sel & E1 & Hsel); [constructor|].
  assert (Hcred : exists cs, credential_flags name creds sel = Ok cs).
  { clear E1. induction Hsel as [|c sel Hc _ [cs IH]]; cbn [credential_flags]; [eauto|].
    destruct (credential_named creds c); [|eauto]. destruct (Hb c Hc) as [f ->]. cbn. rewrite IH. cbn. eauto. }
  destruct Hcred as [cs E2]. unfold broker_command, broker_listen_address, uid_derived_value.
  replace ((uid <? UID_MIN) || (UID_MAX <? uid)) with false by lia.
  cbn [mbind res_bind]. rewrite E1. cbn [mbind res_bind]. rewrite E2. cbn. eauto.
Qed.

(** ** Addresses *)

Lemma add_once_elem seen a x : x ∈ add_once seen a <-> x ∈ seen \/ x = a.
Proof. unfold add_once. case_decide; set_solver. Qed.

Lemma add_once_NoDup seen a : NoDup seen -> NoDup (add_once seen a).
Proof. unfold add_once. intros H. case_decide; [done|]. apply NoDup_app. set_solver by eauto using NoDup_singleton. Qed.

Lemma add_infos_spec seen infos l :
  add_infos seen infos = Ok l ->
  (NoDup seen -> NoDup l) /\
  forall x, x ∈ l <-> x ∈ seen \/ exists i a, i ∈ infos /\ parse_addr i = Ok a /\ x = ip_str a.
Proof.
  revert seen. induction infos as [|i infos IH]; intros seen; cbn [add_infos].
  { intros [= <-]. split; [done|]. set_solver. }
  intros (a & Ha & H)%bind_Ok_inv. apply IH in H as [H1 H2]. split.
  - intros Hs. apply H1. by apply add_once_NoDup.
  - intros x. rewrite H2, add_once_elem. setoid_rewrite elem_of_cons. split.
    + intros [[Hx|Hx]|(i' & a' & Hi & Hp & Hx)]; eauto 10.
    + intros [Hx|(i' & a' & [->|Hi] & Hp & Hx)]; eauto 10.
      rewrite Ha in Hp. injection Hp as <-. auto.
Qed.

Lemma upstream_from_spec getaddrinfo seen hosts l :
  upstream_from getaddrinfo seen hosts = Ok l ->
  (NoDup seen -> NoDup l) /\
  forall x, x ∈ l <-> x ∈ seen \/ exists h c infos i a, (h, c) ∈ hosts /\ getaddrinfo h = Ok infos /\
    i ∈ infos /\ parse_addr i = Ok a /\ x = ip_str a.
Proof.
  revert seen. induction hosts as [|[h c] hosts IH]; intros seen; cbn [upstream_from].
  { intros [= <-]. split; [done|]. set_solver. }
  setoid_rewrite elem_of_cons.
  destruct (getaddrinfo h) as [infos|[]] eqn:E; try done.
  - intros (seen' & [A1 A2]%add_infos_spec & [H1 H2]%IH)%bind_Ok_inv. split; [auto|].
    intros x. rewrite H2, A2. split.
    + intros [[Hx|(i & a & Hi)]|(h' & c' & infos' & i & a & Hin & Hr)]; [auto|..]; right.
      * exists h, c, infos, i, a. split; [by left|tauto].
      * exists h', c', infos', i, a. tauto.
    + intros [Hx|(h' & c' & infos' & i & a & [Hin|Hin] & Hr)]; [auto|..].
      * injection Hin as -> ->. destruct Hr as [Hg Hr]. rewrite E in Hg. injection Hg as ->. left. right. by exists i, a.
      * right. exists h', c', infos', i, a. tauto.
  - intros [H1 H2]%IH. split; [done|]. intros x. rewrite H2. split.
    + intros [Hx|(h' & c' & infos' & i & a & Hin & Hr)]; [auto|]. right. exists h', c', infos', i, a. tauto.
    + intros [Hx|(h' & c' & infos' & i & a & [Hin|Hin] & Hr & Hr')]; [auto|congruence|].
      right. exists h', c', infos', i, a. tauto.
Qed.

(** The addresses a broker may open are exactly the resolved addresses of
    its hosts, each once; a host that does not resolve contributes none. *)
Theorem broker_upstream_addresses_spec getaddrinfo hosts l :
  broker_upstream_addresses getaddrinfo hosts = Ok l ->
  NoDup l /\
  forall x, x ∈ l <-> exists h c infos i a, (h, c) ∈ hosts /\ getaddrinfo h = Ok infos /\
    i ∈ infos /\ parse_addr i = Ok a /\ x = ip_str a.
Proof.
  intros [H1 H2]%upstream_from_spec. split; [apply H1; constructor|]. intros x. rewrite H2. set_solver.
Qed.

Definition sample_resolver (h : string) : res (list string) :=
  if String.eqb h "api.example" then Ok ["192.0.2.7"; "192.0.2.7"; "2001:db8::7"] else Raise OSError.

Lemma broker_upstream_addresses_spec_witness :
  NoDup ["192.0.2.7"; "2001:db8::7"].
Proof.
  refine (proj1 (broker_upstream_addresses_spec sample_resolver
    [("gone.example", "api"); ("api.example", "api")] ["192.0.2.7"; "2001:db8::7"] _)).
  vm_compute. reflexivity.
Defined.

(** The resolvers of the host, each once and each an address. *)
Lemma host_resolver_addresses_spec text :
  NoDup (host_resolver_addresses (Some text)) /\
  forall x, x ∈ host_resolver_addresses (Some text) <->
    exists line, line ∈ splitlines text /\ nameserver_address line = Some x.
Proof.
  cbn [host_resolver_addresses]. setoid_rewrite <- list_elem_of_omap.
  assert (G : forall l seen, (NoDup seen -> NoDup (foldl add_once seen l)) /\
    forall x, x ∈ foldl add_once seen l <-> x ∈ seen \/ x ∈ l).
  { induction l as [|a l IH]; intros seen; cbn [foldl]; [set_solver|].
    destruct (IH (add_once seen a)) as [I1 I2]. split; [auto using add_once_NoDup|].
    intros x. rewrite I2, add_once_elem. set_solver. }
  destruct (G (omap nameserver_address (splitlines text)) []) as [G1 G2].
  split; [apply G1; constructor|]. intros x. rewrite G2. set_solver.
Qed.
