(* ===== verification/InspectArm.v ===== *)
(** * Arming the inspector: [lib/inspect_arm.py], [lib/svcaddr_arm.py] and the
    listener and exemption steps of [lib/nft.py]

    [ArmHost] is what the step needs of the machine: running a command (its
    return code, its output decoded as JSON, its error text), replacing the policy
    document and clearing the status file.  [ArmLaws] states the documented
    behaviour of nft and ip on the inspector's sets and maps: [tx] gives the
    elements of a set as the code writes them, [shown] those of an exemption set
    as nft prints them, the owner as a number or as an account name.  A command
    is a transaction: it has its effect or none.

    The theorems: a successful [up] leaves the workload's redirect armed and its
    exemptions exactly those of its configuration; and whatever [up] did, also
    when it failed half way, [down] leaves nothing of the workload and has not
    touched any other. *)
From S2P Require Import Prelude PyStr Toml Ipaddr WorkloadAddr WorkloadConfig NetworkConfig.
From S2P Require Import NftElements FilterArm BrokerConfig.
Local Open Scope Z_scope.

(** ** The machine *)

(** [CompletedProcess]; the output is [None] when it is not JSON. *)
Record completed := mkDone { rc : Z; out : option tv; err : string }.

Class ArmHost (W : Type) := {
  exec : list string -> W -> W * completed;
  put_policy : string -> inspect_policy -> W -> W * res unit;
  clear_status : string -> W -> W * res unit }.

Definition INTERNAL_SETS : list string := [fp_v4 NFT_PAIR_INTERNAL_OK; fp_v6 NFT_PAIR_INTERNAL_OK].

Section code.
Context {W : Type} `{ArmHost W}.

(** [run(argv, check=True)], and [run(argv)] with the result ignored. *)
Definition exec_checked (argv : list string) : io W unit := fun w =>
  let '(w', r) := exec argv w in (w', if rc r =? 0 then Ok tt else Raise CalledProcessError).
Definition exec_loose (argv : list string) : io W unit := fun w => (fst (exec argv w), Ok tt).

(** [add_listener_addresses]: an address that is there already is no error. *)
Definition add_listener (argv : list string) : io W unit := fun w =>
  let '(w', r) := exec argv w in
  (w', if negb (rc r =? 0) && negb (contains "xist" (err r)) && negb (contains "assigned" (err r))
       then Raise RuntimeError else Ok tt).

Definition add_listener_addresses (uid : Z) : io W unit :=
  cmds ← pure (inspect_link_address_commands uid); for_io add_listener cmds.

Definition remove_listener_addresses (uid : Z) : io W unit :=
  cmds ← pure (inspect_link_delete_commands uid); for_io exec_loose cmds.

(** One set of [purge_internal_exemptions]. *)
Definition purge_internal (uid : Z) (name : string) (step : list string * string) : io W unit := fun w =>
  let '(argv, set_name) := step in
  let '(w', r) := exec argv w in
  if negb (rc r =? 0) then (w', Ok tt)
  else match out r with
       | None => (w', Ok tt)
       | Some payload =>
           (entries ← pure (internal_ok_uid_elements uid (Some payload) ("_wl-" +:+ name));
            for_io exec_loose (internal_ok_delete_commands set_name entries)) w'
       end.

Definition purge_internal_exemptions (uid : Z) (name : string) : io W unit :=
  for_io (purge_internal uid name) (zip internal_ok_list_commands INTERNAL_SETS).

Definition advertise : io W unit :=
  ensure_advertised_interface (fun w argv => let '(w', r) := exec argv w in (w', (rc r, err r))).

(** ** The two substrates *)

Record Substrate := mkSub {
  sub_network : table -> res tv;
  sub_applies : table -> res bool;
  sub_policy : tv -> res inspect_policy;
  sub_internal_hosts : tv -> res (list string);
  sub_resolve : string -> res (list ip);
  sub_uses_credentials : table -> res bool }.

Section substrates.
Variable getaddrinfo : string -> res (list string).
Variable tls_default : string.

Definition vm_internal_resolve (host : string) : res (list ip) := resolve_name getaddrinfo host.
Definition container_internal_resolve (host : string) : res (list ip) := resolve_name getaddrinfo host.

(** The document and the hosts are read from a table. *)
Definition of_table {A} (f : table -> A) (net : tv) : res A :=
  match net with TTab t => Ok (f t) | _ => Raise AttributeError end.

Definition VM : Substrate := {|
  sub_network := fun config =>
    v ← get_or (TTab config) "vm" (TTab []); n ← get_or v "network" (TTab []); Ok (or_empty n);
  sub_applies := vm_uses_inspect;
  sub_policy := of_table (vm_inspect_policy tls_default);
  sub_internal_hosts := of_table internal_hosts;
  sub_resolve := vm_internal_resolve;
  sub_uses_credentials := vm_uses_credentials |}.

Definition CONTAINER : Substrate := {|
  sub_network := fun config => n ← get_or (TTab config) "network" (TTab []); Ok (or_empty n);
  sub_applies := container_uses_inspect;
  sub_policy := of_table container_inspect_policy;
  sub_internal_hosts := of_table (fun net => map hr_host (container_internal_entries net));
  sub_resolve := container_internal_resolve;
  sub_uses_credentials := container_uses_credentials |}.
End substrates.

(** ** [up] and [down] *)

Section arm.
Variable planes : list (Z * Z).
Variable sub : Substrate.
Variable getpwnam : string -> option Z.
Variable load_workload_config : string -> res table.

(** The addresses to exempt: of every internal host in turn, and the broker's
    own when there is one. *)
Definition exempt_addresses (config : table) (net : tv) (uid : Z) : res (list ip) :=
  hosts ← sub_internal_hosts sub net;
  l ← mapM_res (sub_resolve sub) hosts;
  uses ← sub_uses_credentials sub config;
  broker ← (if (uses : bool) then b ← broker_listen_address uid; a ← parse_addr b; Ok [a] else Ok []);
  Ok (concat l ++ broker).

(** [len(net.get('hosts', []) or [])], for the log. *)
Definition hosts_length (net : tv) : res nat :=
  h ← get_or net "hosts" (TArr []);
  if negb (truthy h) then Ok O
  else match h with
       | TStr s => Ok (String.length s)
       | TArr l => Ok (length l)
       | TTab t => Ok (length t)
       | _ => Raise TypeError
       end.

(** The exemptions: cleared, then added anew. *)
Definition arm_exemptions (name : string) (config : table) (net : tv) (uid : Z) : io W unit :=
  _ ← purge_internal_exemptions uid name;
  addresses ← pure (exempt_addresses config net uid);
  commands ← pure (internal_ok_commands uid addresses "add");
  for_io exec_checked commands.

(** The redirect: the maps and guard sets, deleted and added anew. *)
Definition arm_redirect (uid : Z) : io W unit :=
  deletes ← pure (inspect_element_commands planes uid "delete");
  _ ← for_io exec_loose deletes;
  adds ← pure (inspect_element_commands planes uid "add");
  for_io exec_checked adds.

Definition up (name : string) : io W Z :=
  config ← pure (load_workload_config name);
  net ← pure (sub_network sub config);
  applies ← pure (sub_applies sub config);
  if negb (applies : bool) then mret 0
  else
    uid ← pure (workload_uid getpwnam name);
    doc ← pure (sub_policy sub net);
    _ ← put_policy name doc;
    _ ← clear_status name;
    _ ← advertise;
    _ ← exec_checked [NFT_BIN; "-f"; NFT_PROXY_SKELETON];
    _ ← exec_checked [NFT_BIN; "-f"; NFT_SKELETON];
    _ ← add_listener_addresses uid;
    _ ← arm_redirect uid;
    _ ← arm_exemptions name config net uid;
    _ ← pure (hosts_length net);
    mret 0.

(** The exceptions [down] only logs. *)
Definition tolerated (m : io W unit) : io W unit := fun w =>
  match m w with
  | (w', Raise ValueError) | (w', Raise OSError) | (w', Raise FileNotFoundError) | (w', Raise PermissionError) =>
      (w', Ok tt)
  | r => r
  end.

Definition down (name : string) : io W Z :=
  match getpwnam ("_wl-" +:+ name) with
  | None => mret 0
  | Some uid =>
      deletes ← pure (inspect_element_commands planes uid "delete");
      _ ← for_io exec_loose deletes;
      _ ← tolerated (purge_internal_exemptions uid name);
      _ ← remove_listener_addresses uid;
      mret 0
  end.
End arm.

(** ** [svcaddr_arm]: a listener address without an inspector *)

Definition svcaddr_up (getpwnam : string -> option Z) (name : string) : io W Z :=
  uid ← pure (workload_uid getpwnam name); _ ← advertise; _ ← add_listener_addresses uid; mret 0.

Definition svcaddr_down (getpwnam : string -> option Z) (name : string) : io W Z :=
  uid ← pure (workload_uid getpwnam name); _ ← remove_listener_addresses uid; mret 0.
End code.

(** ** What nft and ip promise *)

Definition INSPECT_SETS : list string :=
  [fp_v4 NFT_PAIR_INSPECT_MAP; fp_v6 NFT_PAIR_INSPECT_MAP; fp_v4 NFT_PAIR_INSPECT_DST; fp_v6 NFT_PAIR_INSPECT_DST;
   fp_v4 NFT_PAIR_INSPECT_SELF; fp_v6 NFT_PAIR_INSPECT_SELF; fp_v4 NFT_PAIR_INSPECT_LIVE; fp_v6 NFT_PAIR_INSPECT_LIVE].
Definition ARM_SETS : list string := INSPECT_SETS ++ INTERNAL_SETS.

(** The table a set or map is in. *)
Definition table_of (s : string) : list string :=
  if decide (s ∈ [fp_v4 NFT_PAIR_INSPECT_MAP; fp_v6 NFT_PAIR_INSPECT_MAP]) then NFT_PROXY_TABLE else NFT_TABLE.

Definition list_command (s : string) : list string := [NFT_BIN; "-j"; "list"; "set"] ++ NFT_TABLE ++ [s].

(** An exemption as nft prints it: owner and address. *)
Definition printed := (tv * string)%type.
Definition json_pair (p : printed) : tv := TTab [("concat", TArr [fst p; TStr (snd p)])].
Definition print_pair (p : printed) : string := py_str (fst p) +:+ " . " +:+ snd p.

(** The uid an owner stands for. *)
Definition owner_num (getpwnam : string -> option Z) (o : tv) : option Z :=
  match o with
  | TInt n => Some n
  | TStr s => if re_plus is_dec s then None else getpwnam s
  | _ => None
  end.

(** Commands that are not about elements. *)
Definition other_command (argv : list string) : Prop :=
  (exists rest, argv = IP_BIN :: rest) \/ (exists f, argv = [NFT_BIN; "-f"; f]).

Class ArmLaws (W : Type) `{ArmHost W} (getpwnam : string -> option Z) := {
  sound : W -> Prop;
  tx : W -> string -> list string;
  shown : W -> string -> list printed;
  (** The element an exemption stands for. *)
  canon : printed -> string;
  (** Accounts have uids of their own. *)
  arm_accounts s s' n : getpwnam s = Some n -> getpwnam s' = Some n -> s = s';
  arm_shown w s : sound w -> s ∈ INTERNAL_SETS ->
    tx w s = map canon (shown w s) /\
    Forall (fun p => exists n rest, owner_num getpwnam (fst p) = Some n /\
                       canon p = str_Z n +:+ " . " +:+ rest) (shown w s);
  (** A listing fails only when the set does not exist. *)
  arm_list w s : sound w -> s ∈ INTERNAL_SETS ->
    let '(w', r) := exec (list_command s) w in
    w' = w /\ ((rc r <> 0 /\ shown w s = []) \/
               (rc r = 0 /\ exists p, out r = Some p /\ nft_set_elements (Some p) = Ok (map json_pair (shown w s))));
  arm_add w s es : sound w -> s ∈ ARM_SETS -> Forall plain es ->
    let '(w', r) := exec (element_command "add" (table_of s) s es) w in
    sound w' /\ (forall s', s' ∈ ARM_SETS -> s' <> s -> tx w' s' = tx w s') /\
    forall t, t ∈ tx w' s <-> t ∈ tx w s \/ (rc r = 0 /\ t ∈ es);
  (** Deleting an element that is not there deletes nothing. *)
  arm_delete w s es : sound w -> s ∈ ARM_SETS -> Forall plain es ->
    let '(w', r) := exec (element_command "delete" (table_of s) s es) w in
    sound w' /\ (forall s', s' ∈ ARM_SETS -> s' <> s -> tx w' s' = tx w s') /\
    forall t, t ∈ tx w' s <-> t ∈ tx w s /\ ~ ((forall x, x ∈ es -> x ∈ tx w s) /\ t ∈ es);
  (** Exemptions can be deleted the way they are printed. *)
  arm_delete_shown w s l : sound w -> s ∈ INTERNAL_SETS -> l <> [] -> (forall p, p ∈ l -> p ∈ shown w s) ->
    let '(w', r) := exec (filter_delete_command s (map print_pair l)) w in
    sound w' /\ (forall s', s' ∈ ARM_SETS -> s' <> s -> tx w' s' = tx w s') /\
    forall t, t ∈ tx w' s <-> t ∈ tx w s /\ t ∉ map canon l;
  arm_other w argv : sound w -> other_command argv ->
    sound (fst (exec argv w)) /\ forall s, s ∈ ARM_SETS -> tx (fst (exec argv w)) s = tx w s;
  arm_policy w name doc : sound w ->
    sound (fst (put_policy name doc w)) /\ forall s, s ∈ ARM_SETS -> tx (fst (put_policy name doc w)) s = tx w s;
  arm_status w name : sound w ->
    sound (fst (clear_status name w)) /\ forall s, s ∈ ARM_SETS -> tx (fst (clear_status name w)) s = tx w s }.

(** ** The inspector's elements of a uid *)

(** Each set with the elements [uid] has in it. *)
Definition inspect_groups (planes : list (Z * Z)) (uid : Z) (a : VmInspectAddress) : elements :=
  let u := str_Z uid +:+ " . " in
  both_families NFT_PAIR_INSPECT_MAP a (fun a =>
    map (fun '(g, i) => str_Z uid +:+ " . " +:+ str_Z g +:+ " : " +:+ a +:+ " . " +:+ str_Z i) planes)
  ++ both_families NFT_PAIR_INSPECT_DST a (fun a =>
    map (fun '(_, i) => str_Z uid +:+ " . " +:+ a +:+ " . " +:+ str_Z i) planes)
  ++ both_families NFT_PAIR_INSPECT_SELF a (fun a => [str_Z uid +:+ " . " +:+ a])
  ++ both_families NFT_PAIR_INSPECT_LIVE a (fun a => [a]).

Lemma inspect_commands_groups planes uid a action :
  inspect_address uid = Ok a -> check_action action = Ok tt ->
  inspect_element_commands planes uid action =
  Ok (map (fun '(s, es) => element_command action (table_of s) s es) (inspect_groups planes uid a)).
Proof.
  intros Ha Hc. unfold inspect_element_commands, inspect_map_elements, inspect_dst_elements,
    inspect_self_elements, inspect_live_elements. rewrite Hc, Ha. reflexivity.
Qed.

Lemma groups_sets planes uid a : map fst (inspect_groups planes uid a) = INSPECT_SETS.
Proof. reflexivity. Qed.

Lemma groups_NoDup : NoDup INSPECT_SETS.
Proof. apply NoDup_ListNoDup. repeat constructor; cbn; intuition discriminate. Qed.

Lemma inspect_address_plain uid a :
  inspect_address uid = Ok a -> has_char "," (v4 a) = false /\ has_char "," (v6 a) = false.
Proof.
  intros Ha.
  assert (H4 : derived_address INSPECT4 uid = Ok (v4 a)) by (cbn [derived_address]; by rewrite Ha).
  assert (H6 : derived_address INSPECT6 uid = Ok (v6 a)) by (cbn [derived_address]; by rewrite Ha).
  apply derived_address_Ok in H4 as [Hr ->], H6 as [_ ->]. split; [by apply v4_str_chars|].
  rewrite kind_ip_str_inspect6 by done. rewrite has_char_app, hex16_no_char; [done|done|].
  unfold UID_MIN, UID_MAX in Hr. unfold UID_MIN. lia.
Qed.

Lemma groups_plain planes uid a s es :
  inspect_address uid = Ok a -> (s, es) ∈ inspect_groups planes uid a -> Forall plain es.
Proof.
  intros [H4 H6]%inspect_address_plain Hin.
  assert (G : forall (f : Z * Z -> string), (forall g i, plain (f (g, i))) -> Forall plain (map f planes)).
  { intros f Hf. apply Forall_forall. intros t ([g i] & -> & _)%list_elem_of_fmap. apply Hf. }
  assert (One : forall t, plain t -> Forall plain [t]) by (intros; by constructor).
  assert (F : Forall (fun g => Forall plain (snd g)) (inspect_groups planes uid a)).
  { unfold inspect_groups, both_families. rewrite !Forall_app, !Forall_cons, !Forall_nil. cbn [snd].
    split_and!; try done; (apply G || apply One); intros; unfold plain;
      rewrite ?has_char_app, ?str_Z_no_char, ?H4, ?H6 by done; done. }
  rewrite Forall_forall in F. by apply F in Hin.
Qed.

(** ** Reasoning *)

Lemma owned_by_pair uid n rest : owned_by uid (str_Z n +:+ " . " +:+ rest) <-> n = uid.
Proof. exact (owned_by_text uid n [TStr rest]). Qed.

Lemma internal_table s : s ∈ INTERNAL_SETS -> table_of s = NFT_TABLE.
Proof. intros [<-|[<-|[]]]%list_elem_of_In; reflexivity. Qed.

Section proofs.
Context {W : Type} `{ArmLaws W getpwnam}.
Variables (planes : list (Z * Z)) (name : string) (uid : Z) (a : VmInspectAddress).
Hypothesis Huid : getpwnam ("_wl-" +:+ name) = Some uid.
Hypothesis Haddr : inspect_address uid = Ok a.

Let groups := inspect_groups planes uid a.

(** The elements that are the workload's. *)
Definition mine (s t : string) : Prop :=
  (s ∈ INTERNAL_SETS /\ owned_by uid t) \/ has_element groups s t.

(** Each inspector set holds all the workload's elements or none of them. *)
Definition whole (w : W) : Prop :=
  forall s es, (s, es) ∈ groups -> (forall x, x ∈ es -> x ∈ tx w s) \/ (forall x, x ∈ es -> x ∉ tx w s).

Definition others (w0 w : W) : Prop :=
  forall s t, s ∈ ARM_SETS -> ~ mine s t -> t ∈ tx w s <-> t ∈ tx w0 s.

Definition kept (w0 w : W) : Prop := sound w /\ whole w /\ others w0 w.

Definition present (l : elements) (w : W) : Prop :=
  forall s t, s ∈ ARM_SETS -> has_element l s t -> t ∈ tx w s.
Definition absent (l : elements) (w : W) : Prop :=
  forall s t, s ∈ ARM_SETS -> has_element l s t -> t ∉ tx w s.
Definition exempt (l : elements) (w : W) : Prop :=
  forall s t, s ∈ INTERNAL_SETS -> owned_by uid t -> t ∈ tx w s <-> has_element l s t.

Lemma group_set s es : (s, es) ∈ groups -> s ∈ INSPECT_SETS.
Proof. intros Hin. rewrite <- (groups_sets planes uid a). apply list_elem_of_fmap. by exists (s, es). Qed.

Lemma group_fun s es es' : (s, es) ∈ groups -> (s, es') ∈ groups -> es = es'.
Proof.
  intros H1 H2. pose proof groups_NoDup as Hnd. rewrite <- (groups_sets planes uid a) in Hnd. fold groups in Hnd.
  induction groups as [|[s' e] l IH]; [set_solver|]. cbn [map fst] in Hnd. apply NoDup_cons in Hnd as [Hni Hnd].
  assert (forall e, (s', e) ∉ l) by (intros e' He; apply Hni, list_elem_of_fmap; by exists (s', e')).
  apply elem_of_cons in H1 as [H1|H1], H2 as [H2|H2]; simplify_eq; try done; [naive_solver..|auto].
Qed.

Lemma inspect_internal s : s ∈ INSPECT_SETS -> s ∉ INTERNAL_SETS.
Proof.
  intros H1 H2. apply list_elem_of_In in H1, H2. cbn in H1, H2. intuition congruence.
Qed.

Lemma inspect_arm_sets s : s ∈ INSPECT_SETS -> s ∈ ARM_SETS.
Proof. unfold ARM_SETS. set_solver. Qed.
Lemma internal_arm_sets s : s ∈ INTERNAL_SETS -> s ∈ ARM_SETS.
Proof. unfold ARM_SETS. set_solver. Qed.

(** *** Steps that touch no element *)

Definition quiet {A} (m : io W A) : Prop :=
  forall w, sound w -> sound (fst (m w)) /\ forall s, s ∈ ARM_SETS -> tx (fst (m w)) s = tx w s.

Lemma quiet_ret {A} (x : A) : quiet (mret x).
Proof. by intros w Hw. Qed.
Lemma quiet_pure {A} (m : res A) : quiet (pure m).
Proof. by intros w Hw. Qed.

Lemma quiet_bind {A B} (m : io W A) (f : A -> io W B) : quiet m -> (forall x, quiet (f x)) -> quiet (x ← m; f x).
Proof.
  intros Hm Hf w Hw. specialize (Hm w Hw). cbv [mbind io_bind]. destruct (m w) as [w' [x|e]]; cbn in *; [|done].
  destruct Hm as [Hs Ht]. destruct (Hf x w' Hs) as [Hs' Ht']. split; [done|]. intros s Hin. by rewrite Ht', Ht.
Qed.

Lemma quiet_for {A} (f : A -> io W unit) l : (forall x, x ∈ l -> quiet (f x)) -> quiet (for_io f l).
Proof.
  induction l as [|x l IH]; intros Hf; [apply quiet_ret|]. cbn [for_io].
  apply quiet_bind; [apply Hf; by left|]. intros _. apply IH. intros y Hy. apply Hf. by right.
Qed.

Lemma quiet_exec {A} (f : completed -> res A) argv :
  other_command argv -> quiet (fun w => let '(w', r) := exec argv w in (w', f r)).
Proof. intros Ho w Hw. pose proof (arm_other w argv Hw Ho). by destruct (exec argv w). Qed.

Lemma quiet_advertise : quiet advertise.
Proof.
  unfold advertise, ensure_advertised_interface. intros w Hw.
  pose proof (arm_other w [IP_BIN; "link"; "add"; ADVERTISED_IFACE; "type"; "dummy"] Hw) as H1.
  destruct (exec _ w) as [w1 r1]. destruct H1 as [Hs1 Ht1]; [left; by eexists|]. cbn [fst snd].
  destruct (negb (rc r1 =? 0) && _); [done|].
  pose proof (arm_other w1 [IP_BIN; "link"; "set"; ADVERTISED_IFACE; "up"] Hs1) as H2.
  destruct (exec _ w1) as [w2 r2]. destruct H2 as [Hs2 Ht2]; [left; by eexists|]. cbn [fst snd] in *.
  assert (forall s, s ∈ ARM_SETS -> tx w2 s = tx w s) by (intros s Hin; by rewrite Ht2, Ht1).
  by destruct (negb (rc r2 =? 0)).
Qed.

Lemma quiet_add_listeners : quiet (add_listener_addresses uid).
Proof.
  intros w Hw. unfold add_listener_addresses, inspect_link_address_commands. rewrite Haddr.
  apply (quiet_for add_listener); [|done]. intros argv Hin. apply list_elem_of_In in Hin.
  destruct Hin as [<-|[<-|[]]]; apply quiet_exec; left; by eexists.
Qed.

Lemma quiet_remove_listeners : quiet (remove_listener_addresses uid).
Proof.
  intros w Hw. unfold remove_listener_addresses, inspect_link_delete_commands. rewrite Haddr.
  apply (quiet_for exec_loose); [|done]. intros argv Hin w1 Hw1. apply list_elem_of_In in Hin.
  destruct Hin as [<-|[<-|[]]]; apply arm_other; [done|left; by eexists|done|left; by eexists].
Qed.

(** What depends on the elements alone survives a quiet step. *)
Lemma quiet_keeps {A} (I : W -> Prop) (m : io W A) :
  quiet m -> (forall w, I w -> sound w) ->
  (forall w w', I w -> sound w' -> (forall s, s ∈ ARM_SETS -> tx w' s = tx w s) -> I w') -> keeps I m.
Proof. intros Hq Hs HI w Hw. destruct (Hq w (Hs w Hw)). by eapply HI. Qed.

Lemma kept_quiet {A} w0 (m : io W A) : quiet m -> keeps (kept w0) m.
Proof.
  intros Hq. apply quiet_keeps; [done|by intros w []|]. intros w w' (Hs & Hw & Ho) Hs' Ht. split_and!; [done| |].
  - intros s es Hin. rewrite Ht by (by eapply inspect_arm_sets, group_set). by apply Hw.
  - intros s t Hin Hm. rewrite Ht by done. by apply Ho.
Qed.

(** *** The inspector's sets *)

Lemma groups_element s es t : (s, es) ∈ groups -> t ∈ es -> has_element groups s t.
Proof. intros. by exists es. Qed.

(** A transaction on one inspector set that adds or removes the workload's
    elements there. *)
Lemma kept_group w0 w w' s es :
  (s, es) ∈ groups -> kept w0 w -> sound w' ->
  (forall s', s' ∈ ARM_SETS -> s' <> s -> tx w' s' = tx w s') ->
  (forall t, t ∉ es -> t ∈ tx w' s <-> t ∈ tx w s) ->
  (forall x, x ∈ es -> x ∈ tx w' s) \/ (forall x, x ∈ es -> x ∉ tx w' s) -> kept w0 w'.
Proof.
  intros Hin (Hs & Hw & Ho) Hs' Hf Ht He. split_and!; [done| |].
  - intros s1 es1 Hin1. destruct (decide (s1 = s)) as [->|Hne].
    + by rewrite (group_fun _ _ _ Hin1 Hin).
    + rewrite Hf by (eauto using inspect_arm_sets, group_set). by apply Hw.
  - intros s1 t Hs1 Hm. destruct (decide (s1 = s)) as [->|Hne]; [|rewrite Hf by done; by apply Ho].
    rewrite Ht; [by apply Ho|]. intros Hes. apply Hm. right. by eapply groups_element.
Qed.

Lemma has_element_snoc l s es s' t :
  has_element (l ++ [(s, es)]) s' t <-> has_element l s' t \/ (s' = s /\ t ∈ es).
Proof.
  rewrite has_element_app. unfold has_element at 2. split.
  - intros [?|(es' & Heq%list_elem_of_singleton & Ht)]; [auto|]. right. simplify_eq. done.
  - intros [?|[-> Ht]]; [auto|]. right. exists es. split; [by apply list_elem_of_singleton|done].
Qed.

Lemma delete_group w0 done s es :
  (s, es) ∈ groups ->
  triple (fun w => kept w0 w /\ absent done w) (exec_loose (element_command "delete" (table_of s) s es))
    (fun w r => r = Ok tt /\ kept w0 w /\ absent (done ++ [(s, es)]) w).
Proof.
  intros Hin w [Hk Ha]. unfold exec_loose. pose proof Hk as (Hs & Hw & Ho).
  pose proof (arm_delete w s es Hs (inspect_arm_sets _ (group_set _ _ Hin)) (groups_plain _ _ _ _ _ Haddr Hin)) as HL.
  destruct (exec _ w) as [w' r]. destruct HL as (Hs' & Hf & Ht). cbn [fst snd]. split; [done|].
  assert (Hgone : forall x, x ∈ es -> x ∉ tx w' s).
  { intros x Hx. rewrite Ht. intros [Hx1 Hx2]. destruct (Hw s es Hin) as [Hall|Hnone]; [by apply Hx2|by apply (Hnone x)]. }
  split.
  - apply (kept_group w0 w w' s es); auto. intros t Hni. rewrite Ht. naive_solver.
  - intros s1 t Hs1 [Hd|[-> He]]%has_element_snoc; [|by apply Hgone].
    destruct (decide (s1 = s)) as [->|Hne]; [|rewrite Hf by done; by apply Ha].
    rewrite Ht. intros [Hx _]. by apply (Ha s t).
Qed.

Lemma add_group w0 done s es :
  (s, es) ∈ groups ->
  triple (fun w => kept w0 w /\ present done w) (exec_checked (element_command "add" (table_of s) s es))
    (fun w r => kept w0 w /\ (r = Ok tt -> present (done ++ [(s, es)]) w)).
Proof.
  intros Hin w [Hk Hp]. unfold exec_checked. pose proof Hk as (Hs & Hw & Ho).
  pose proof (arm_add w s es Hs (inspect_arm_sets _ (group_set _ _ Hin)) (groups_plain _ _ _ _ _ Haddr Hin)) as HL.
  destruct (exec _ w) as [w' r]. destruct HL as (Hs' & Hf & Ht). cbn [fst snd]. split.
  - apply (kept_group w0 w w' s es); auto.
    + intros t Hni. rewrite Ht. naive_solver.
    + destruct (decide (rc r = 0)) as [E|E].
      * left. intros x Hx. apply Ht. auto.
      * destruct (Hw s es Hin) as [Hall|Hnone]; [left|right]; intros x Hx; rewrite Ht; naive_solver.
  - destruct (Z.eqb_spec (rc r) 0) as [E|]; [|done]. intros _ s1 t Hs1 [Hd|[-> He]]%has_element_snoc.
    + destruct (decide (s1 = s)) as [->|Hne]; [|rewrite Hf by done; by apply Hp]. apply Ht. left. by apply Hp.
    + apply Ht. auto.
Qed.

Lemma absent_nil w : absent [] w.
Proof. intros s t _ (? & ?%not_elem_of_nil & _). done. Qed.
Lemma present_nil w : present [] w.
Proof. intros s t _ (? & ?%not_elem_of_nil & _). done. Qed.

Definition group_commands (action : string) (l : elements) : list (list string) :=
  map (fun '(s, es) => element_command action (table_of s) s es) l.

Lemma delete_groups w0 l done :
  (forall g, g ∈ l -> g ∈ groups) ->
  triple (fun w => kept w0 w /\ absent done w) (for_io exec_loose (group_commands "delete" l))
    (fun w r => r = Ok tt /\ kept w0 w /\ absent (done ++ l) w).
Proof.
  revert done. induction l as [|[s es] l IH]; intros done Hl; cbn [group_commands map for_io].
  { intros w Hw. rewrite app_nil_r. done. }
  eapply triple_bind; [apply (delete_group w0 done s es), Hl; by left| |by intros w e [? _]].
  intros []. eapply triple_weaken; [apply (IH (done ++ [(s, es)])); set_solver|tauto|].
  intros w r. by rewrite <- app_assoc.
Qed.

Lemma add_groups w0 l done :
  (forall g, g ∈ l -> g ∈ groups) ->
  triple (fun w => kept w0 w /\ present done w) (for_io exec_checked (group_commands "add" l))
    (fun w r => kept w0 w /\ (r = Ok tt -> present (done ++ l) w)).
Proof.
  revert done. induction l as [|[s es] l IH]; intros done Hl; cbn [group_commands map for_io].
  { intros w [Hk Hp]. rewrite app_nil_r. done. }
  eapply triple_bind; [apply (add_group w0 done s es), Hl; by left| |by intros w e [? _]].
  intros []. eapply triple_weaken; [apply (IH (done ++ [(s, es)])); set_solver|naive_solver|].
  intros w r. by rewrite <- app_assoc.
Qed.

(** *** The exemptions *)

Definition owns (p : printed) : bool := bool_decide (owner_num getpwnam (fst p) = Some uid).

(** The reader finds the printed exemptions of the workload, in either form. *)
Lemma wanted_owner_spec o n :
  owner_num getpwnam o = Some n -> wanted_owner uid ("_wl-" +:+ name) o = Ok (bool_decide (n = uid)).
Proof.
  intros Ho. destruct o as [s|m|b| | |]; cbn [owner_num] in Ho; try done; unfold wanted_owner; cbn [hashable negb].
  - destruct (re_plus is_dec s) eqn:Es; [done|]. f_equal.
    assert (String.eqb s (str_Z uid) = false) as ->.
    { apply String.eqb_neq. intros ->. pose proof (derived_address_Ok INSPECT4 uid (v4 a)) as [Hr _].
      cbn [derived_address] in Hr. rewrite Haddr in Hr. destruct (Hr eq_refl) as [Hr' _].
      assert (Hpos : 0 <= uid) by (unfold UID_MIN in Hr'; lia).
      unfold re_plus in Es. rewrite all_digits_str_Z in Es by done.
      rewrite bool_decide_eq_false_2 in Es by (by apply str_Z_nonempty). done. }
    cbn [orb negb String.eqb]. change (String.eqb ("_wl-" +:+ name) "") with false. cbn [negb andb].
    destruct (String.eqb_spec s ("_wl-" +:+ name)) as [->|Hne].
    + rewrite Huid in Ho. injection Ho as <-. by rewrite bool_decide_eq_true_2.
    + rewrite bool_decide_eq_false_2; [done|]. intros ->. apply Hne. by eapply arm_accounts.
  - injection Ho as ->. cbn [eq_int]. f_equal. destruct (Z.eqb_spec n uid); [by rewrite bool_decide_eq_true_2|].
    by rewrite bool_decide_eq_false_2.
Qed.

Lemma owned_entries l :
  Forall (fun p => exists n rest, owner_num getpwnam (fst p) = Some n /\ canon p = str_Z n +:+ " . " +:+ rest) l ->
  (l ← mapM_res (internal_ok_owned uid ("_wl-" +:+ name)) (map json_pair l); Ok (somes l)) =
  Ok (map print_pair (List.filter owns l)).
Proof.
  induction 1 as [|[o addr] l (n & rest & Ho & _) _ IH]; [done|]. cbn [map mapM_res]. cbn [fst] in Ho.
  change (internal_ok_owned uid ?u (json_pair (o, addr))) with
    (b ← wanted_owner uid u o; Ok (if (b : bool) then Some (print_pair (o, addr)) else None)).
  rewrite (wanted_owner_spec o n Ho). cbn [mbind res_bind].
  destruct (mapM_res _ (map json_pair l)) as [es|e] eqn:E; [|done]. cbn [mbind res_bind] in IH |- *.
  injection IH as IH. unfold owns at 1. cbn [List.filter fst]. rewrite Ho.
  destruct (decide (n = uid)) as [->|Hne].
  - rewrite !bool_decide_eq_true_2 by done. cbn [somes omap list_omap map]. unfold somes in IH. by rewrite IH.
  - rewrite !bool_decide_eq_false_2 by congruence. cbn [somes omap list_omap]. unfold somes in IH. by rewrite IH.
Qed.

(** One set of the purge. *)
Lemma purge_internal_spec w s :
  sound w -> s ∈ INTERNAL_SETS ->
  exists w', purge_internal uid name (list_command s, s) w = (w', Ok tt) /\ sound w' /\
    (forall s', s' ∈ ARM_SETS -> s' <> s -> tx w' s' = tx w s') /\
    forall t, t ∈ tx w' s <-> t ∈ tx w s /\ ~ owned_by uid t.
Proof.
  intros Hs Hin. unfold purge_internal. pose proof (arm_list w s Hs Hin) as HL.
  destruct (arm_shown w s Hs Hin) as [Htx Hsh].
  destruct (exec (list_command s) w) as [w1 r]. destruct HL as [-> [[Hrc Hnil]|[Hrc (p & Hout & Hel)]]].
  - rewrite (proj2 (Z.eqb_neq _ _) Hrc). cbn [negb]. exists w. split_and!; try done.
    intros t. rewrite Htx, Hnil. cbn. set_solver.
  - rewrite Hrc, Hout. change (negb (0 =? 0)) with false. cbn iota.
    unfold internal_ok_uid_elements. rewrite Hel. cbn [mbind res_bind]. rewrite (owned_entries _ Hsh).
    cbv [mbind io_bind pure].
    assert (Hkey : forall t, t ∈ tx w s -> t ∈ map canon (List.filter owns (shown w s)) <-> owned_by uid t).
    { intros t Ht. rewrite Htx in Ht. rewrite list_elem_of_fmap. split.
      - intros (q & -> & Hq). apply list_elem_of_In, List.filter_In in Hq as [Hq Ho].
        rewrite Forall_forall in Hsh. apply list_elem_of_In in Hq. destruct (Hsh q Hq) as (n & rest & Hn & ->).
        unfold owns in Ho. apply bool_decide_eq_true in Ho. apply owned_by_pair. congruence.
      - apply list_elem_of_fmap in Ht as (q & -> & Hq). intros Hown. exists q. split; [done|].
        rewrite Forall_forall in Hsh. destruct (Hsh q Hq) as (n & rest & Hn & Hc).
        rewrite Hc, owned_by_pair in Hown. subst n.
        apply list_elem_of_In, List.filter_In. split; [by apply list_elem_of_In|]. by apply bool_decide_eq_true. }
    destruct (List.filter owns (shown w s)) as [|q l] eqn:E; cbn [map internal_ok_delete_commands].
    + exists w. cbn [for_io]. split_and!; try done. intros t. split; [|by intros [? _]].
      intros Ht. split; [done|]. rewrite <- Hkey by done. cbn. set_solver.
    + cbn [for_io]. cbv [mbind io_bind]. unfold exec_loose.
      change (print_pair q :: map print_pair l) with (map print_pair (q :: l)).
      pose proof (arm_delete_shown w s (q :: l) Hs Hin ltac:(done)) as HD.
      destruct (exec _ w) as [w' r']. cbn [fst]. exists w'. destruct HD as (Hs' & Hf & Ht).
      { intros x Hx. rewrite <- E in Hx. apply list_elem_of_In, List.filter_In in Hx as [Hx _]. by apply list_elem_of_In. }
      split_and!; try done. intros t. rewrite Ht. specialize (Hkey t). naive_solver.
Qed.

(** A step that changes one exemption set, within the workload's own elements. *)
Lemma kept_internal w0 w w' s :
  s ∈ INTERNAL_SETS -> kept w0 w -> sound w' ->
  (forall s', s' ∈ ARM_SETS -> s' <> s -> tx w' s' = tx w s') ->
  (forall t, ~ owned_by uid t -> t ∈ tx w' s <-> t ∈ tx w s) ->
  kept w0 w' /\ (forall l, (forall s' t, has_element l s' t -> s' ∈ INSPECT_SETS) -> present l w -> present l w') /\
  (absent groups w -> absent groups w').
Proof.
  intros Hin (Hs & Hw & Ho) Hs' Hf Ht.
  assert (Hins : forall s', s' ∈ INSPECT_SETS -> tx w' s' = tx w s').
  { intros s' Hs1. apply Hf; [by apply inspect_arm_sets|]. intros ->. by apply (inspect_internal s). }
  split; [split; [done|split]|split].
  - intros s1 es Hg. rewrite Hins by (by eapply group_set). by apply Hw.
  - intros s1 t Hs1 Hm. destruct (decide (s1 = s)) as [->|Hne]; [|rewrite Hf by done; by apply Ho].
    rewrite Ht; [by apply Ho|]. intros Hown. apply Hm. by left.
  - intros l Hl Hp s1 t Hs1 He. rewrite Hins by (by eapply Hl). by apply Hp.
  - intros Ha s1 t Hs1 He. pose proof He as (es & Hg & _). rewrite Hins by (by eapply group_set). by apply Ha.
Qed.

(** No exemption of the workload in the sets [l]. *)
Definition cleared (l : list string) (w : W) : Prop := forall s t, s ∈ l -> owned_by uid t -> t ∉ tx w s.

Lemma purge_step w0 s l (I : W -> Prop) :
  s ∈ INTERNAL_SETS -> (forall s', s' ∈ l -> s' ∈ INTERNAL_SETS) ->
  (I = present groups \/ I = absent groups) ->
  triple (fun w => kept w0 w /\ I w /\ cleared l w) (purge_internal uid name (list_command s, s))
    (fun w r => r = Ok tt /\ kept w0 w /\ I w /\ cleared (s :: l) w).
Proof.
  intros Hin Hl HI w (Hk & Hi & Hc). destruct (purge_internal_spec w s (proj1 Hk) Hin) as (w' & Hp & Hs' & Hf & Ht).
  rewrite Hp. cbn [fst snd]. split; [done|].
  destruct (kept_internal w0 w w' s Hin Hk Hs' Hf) as (Hk' & Hpr & Hab); [intros t Hn; rewrite Ht; tauto|].
  split_and!; [done| |].
  - destruct HI as [->| ->]; [|by apply Hab]. apply Hpr; [|done]. intros s' t (es & Hg & _). by eapply group_set.
  - intros s1 t Hs1 Hown. destruct (decide (s1 = s)) as [->|Hne]; [rewrite Ht; tauto|].
    apply elem_of_cons in Hs1 as [?|Hs1]; [done|]. rewrite Hf by (eauto using internal_arm_sets). by apply Hc.
Qed.

Lemma purge_exemptions w0 (I : W -> Prop) :
  (I = present groups \/ I = absent groups) ->
  triple (fun w => kept w0 w /\ I w) (purge_internal_exemptions uid name)
    (fun w r => r = Ok tt /\ kept w0 w /\ I w /\ cleared INTERNAL_SETS w).
Proof.
  intros HI. unfold purge_internal_exemptions.
  change (zip internal_ok_list_commands INTERNAL_SETS) with
    [(list_command (fp_v4 NFT_PAIR_INTERNAL_OK), fp_v4 NFT_PAIR_INTERNAL_OK);
     (list_command (fp_v6 NFT_PAIR_INTERNAL_OK), fp_v6 NFT_PAIR_INTERNAL_OK)]. cbn [for_io].
  eapply triple_bind.
  { eapply triple_weaken; [apply (purge_step w0 (fp_v4 NFT_PAIR_INTERNAL_OK) [] I); [by left|set_solver|done]| |].
    - intros w [Hk Hi]. split_and!; [done..|]. intros s t Hs. set_solver.
    - intros w r Hr. exact Hr. }
  2: { by intros w e [? _]. }
  intros []. eapply triple_bind.
  { eapply triple_weaken; [apply (purge_step w0 (fp_v6 NFT_PAIR_INTERNAL_OK) [fp_v4 NFT_PAIR_INTERNAL_OK] I)| |].
    - right. by left.
    - intros s' ->%list_elem_of_singleton. by left.
    - done.
    - tauto.
    - intros w r Hr. exact Hr. }
  2: { by intros w e [? _]. }
  intros []. intros w (_ & Hk & Hi & Hc). cbn. split_and!; try done.
  intros s t Hs. apply Hc. unfold INTERNAL_SETS in Hs. set_solver.
Qed.

(** Adding exemptions. *)
Lemma add_exempt w0 done s es :
  s ∈ INTERNAL_SETS -> Forall plain es -> (forall t, t ∈ es -> owned_by uid t) ->
  triple (fun w => kept w0 w /\ present groups w /\ exempt done w) (exec_checked (element_command "add" NFT_TABLE s es))
    (fun w r => kept w0 w /\ (r = Ok tt -> present groups w /\ exempt (done ++ [(s, es)]) w)).
Proof.
  intros Hin Hpl Hown w (Hk & Hp & He). unfold exec_checked. pose proof Hk as (Hs & _ & _).
  pose proof (arm_add w s es Hs (internal_arm_sets _ Hin) Hpl) as HL. rewrite internal_table in HL by done.
  destruct (exec _ w) as [w' r]. destruct HL as (Hs' & Hf & Ht). cbn [fst snd].
  destruct (kept_internal w0 w w' s Hin Hk Hs' Hf) as (Hk' & Hpr & _); [intros t Hn; rewrite Ht; naive_solver|].
  split; [done|]. destruct (Z.eqb_spec (rc r) 0) as [E|]; [|done]. intros _. split.
  - apply Hpr; [|done]. intros s' t (es' & Hg & _). by eapply group_set.
  - intros s1 t Hs1 Ho. rewrite has_element_snoc. destruct (decide (s1 = s)) as [->|Hne].
    + rewrite Ht, (He s t) by done. naive_solver.
    + rewrite Hf, (He s1 t) by (eauto using internal_arm_sets). naive_solver.
Qed.

Lemma add_exempts w0 l done :
  (forall s es, (s, es) ∈ l -> s ∈ INTERNAL_SETS /\ Forall plain es /\ forall t, t ∈ es -> owned_by uid t) ->
  triple (fun w => kept w0 w /\ present groups w /\ exempt done w)
    (for_io exec_checked (element_commands "add" NFT_TABLE l))
    (fun w r => kept w0 w /\ (r = Ok tt -> present groups w /\ exempt (done ++ l) w)).
Proof.
  revert done. induction l as [|[s es] l IH]; intros done Hl; cbn [element_commands map for_io].
  { intros w (Hk & Hp & He). rewrite app_nil_r. done. }
  destruct (Hl s es) as (H1 & H2 & H3); [by left|].
  eapply triple_bind; [by apply (add_exempt w0 done s es)| |by intros w e [? _]].
  intros []. eapply triple_weaken; [apply (IH (done ++ [(s, es)]))| |].
  - intros s' es' Hin. apply Hl. by right.
  - intros w [Hk Hx]. by destruct (Hx eq_refl).
  - intros w r. by rewrite <- app_assoc.
Qed.

(** *** The whole step *)

Section step.
Variables (sub : Substrate) (load : string -> res table) (config : table) (net : tv).
Hypothesis Hload : load name = Ok config.
Hypothesis Hnet : sub_network sub config = Ok net.
Hypothesis Happlies : sub_applies sub config = Ok true.
(** No address text ends an element. *)
Hypothesis Hplain : forall addrs ad, exempt_addresses sub config net uid = Ok addrs -> ad ∈ addrs -> plain (ip_str ad).

Lemma internal_exempt_spec addrs ex :
  internal_exempt uid addrs = Ok ex -> ex = map (fun ad => (ad, str_Z uid +:+ " . " +:+ ip_str ad)) addrs.
Proof.
  revert ex. induction addrs as [|ad addrs IH]; intros ex; cbn [internal_exempt map]; [by intros [= <-]|].
  intros (r & _ & H1)%bind_Ok_inv. destruct r; [done|]. apply bind_Ok_inv in H1 as (rest & H1 & <-%Ok_inj).
  by rewrite (IH rest).
Qed.

Lemma exempt_elements_shape addrs els s es :
  exempt_addresses sub config net uid = Ok addrs -> internal_ok_elements uid addrs = Ok els -> (s, es) ∈ els ->
  s ∈ INTERNAL_SETS /\ Forall plain es /\ forall t, t ∈ es -> owned_by uid t.
Proof.
  intros Ha (ex & Hex & <-%Ok_inj)%bind_Ok_inv Hin. apply internal_exempt_spec in Hex as ->.
  unfold split_by_family in Hin. apply list_elem_of_In, List.filter_In in Hin as [Hin _].
  assert (Hes : forall t, t ∈ es -> exists ad, ad ∈ addrs /\ t = str_Z uid +:+ " . " +:+ ip_str ad).
  { assert (G : forall nm t, t ∈ omap (fun '(x, e) => if String.eqb (fp_of NFT_PAIR_INTERNAL_OK (ip_version x)) nm
        then Some e else None) (map (fun ad => (ad, str_Z uid +:+ " . " +:+ ip_str ad)) addrs) ->
        exists ad, ad ∈ addrs /\ t = str_Z uid +:+ " . " +:+ ip_str ad).
    { intros nm t. rewrite list_elem_of_omap. intros ([x e] & Hx & Ht).
      apply list_elem_of_fmap in Hx as (ad & Heq & Had). simplify_eq. case_match; [|done]. simplify_eq. eauto. }
    intros t Ht. destruct Hin as [Hin|[Hin|[]]]; injection Hin as _ <-; by eapply G. }
  split_and!.
  - destruct Hin as [Hin|[Hin|[]]]; injection Hin as <- _; [by left|by right; left].
  - apply Forall_forall. intros t (ad & Had & ->)%Hes. unfold plain.
    rewrite !has_char_app, str_Z_no_char, (Hplain addrs ad) by done. done.
  - intros t (ad & _ & ->)%Hes. by apply owned_by_pair.
Qed.

(** What a successful [up] has armed. *)
Definition armed (w : W) : Prop :=
  present groups w /\ exists addrs els, exempt_addresses sub config net uid = Ok addrs /\
    internal_ok_elements uid addrs = Ok els /\ exempt els w.

Lemma kept_bind_quiet {A B} w0 (m : io W A) (f : A -> io W B) Q :
  quiet m -> (forall x, triple (kept w0) (f x) (fun w r => kept w0 w /\ Q w r)) ->
  (forall w e, Q w (Raise e)) -> triple (kept w0) (x ← m; f x) (fun w r => kept w0 w /\ Q w r).
Proof.
  intros Hq Hf HQ. eapply triple_bind; [by apply kept_quiet|exact Hf|]. intros w e Hk. split; [exact Hk|apply HQ].
Qed.

Lemma redirect_triple w0 :
  triple (kept w0) (arm_redirect planes uid) (fun w r => kept w0 w /\ (r = Ok tt -> present groups w)).
Proof.
  unfold arm_redirect. rewrite (inspect_commands_groups planes uid a "delete" Haddr eq_refl).
  apply triple_pure_bind; [|done]. intros ? <-%Ok_inj.
  eapply (triple_bind _ _ _ (fun w _ => kept w0 w)).
  { eapply triple_weaken; [by apply (delete_groups w0 groups [])|intros w Hk; split; [exact Hk|]|
      intros w r (_ & Hk & _); exact Hk]. apply absent_nil. }
  2: { intros w e Hk. split; [exact Hk|done]. }
  intros []. rewrite (inspect_commands_groups planes uid a "add" Haddr eq_refl).
  apply triple_pure_bind; [|done]. intros ? <-%Ok_inj.
  eapply triple_weaken; [by apply (add_groups w0 groups [])|intros w Hk; split; [exact Hk|]|intros w r Hr; exact Hr].
  apply present_nil.
Qed.

Lemma exemptions_triple w0 :
  triple (fun w => kept w0 w /\ present groups w) (arm_exemptions sub name config net uid)
    (fun w r => kept w0 w /\ (r = Ok tt -> armed w)).
Proof.
  unfold arm_exemptions. eapply triple_bind; [apply (purge_exemptions w0 (present groups)); by left| |by intros w e [? _]].
  intros []. apply triple_pure_bind; [intros addrs Hadd|by intros w e (_ & Hk & _)].
  unfold internal_ok_commands. cbn [check_action String.eqb Ascii.eqb Bool.eqb orb mbind res_bind].
  apply triple_pure_bind; [|by intros w e (_ & Hk & _)]. intros cmds (els & Hels & <-%Ok_inj)%bind_Ok_inv.
  eapply triple_weaken; [apply (add_exempts w0 els [])| |].
  - intros s es. by apply (exempt_elements_shape addrs).
  - intros w (_ & Hk & Hp & Hc). split_and!; [exact Hk|exact Hp|].
    intros s t Hs Ho. split; [by intros ?%Hc|]. intros (? & ?%not_elem_of_nil & _). done.
  - intros w r [Hk Hx]. split; [exact Hk|]. intros [Hp He]%Hx. split; [exact Hp|]. by exists addrs, els.
Qed.

Lemma up_triple w0 :
  triple (kept w0) (up planes sub getpwnam load name)
    (fun w r => kept w0 w /\ forall z, r = Ok z -> z = 0 /\ armed w).
Proof.
  unfold up, workload_uid. rewrite Hload. apply triple_pure_bind; [|done]. intros ? <-%Ok_inj.
  rewrite Hnet. apply triple_pure_bind; [|done]. intros ? <-%Ok_inj.
  rewrite Happlies. apply triple_pure_bind; [|done]. intros ? <-%Ok_inj. cbn [negb].
  rewrite Huid. apply triple_pure_bind; [|done]. intros ? <-%Ok_inj.
  apply kept_bind_quiet; [apply quiet_pure|intros doc|done].
  apply kept_bind_quiet; [intros w Hw; by apply arm_policy|intros _|done].
  apply kept_bind_quiet; [intros w Hw; by apply arm_status|intros _|done].
  apply kept_bind_quiet; [apply quiet_advertise|intros _|done].
  apply kept_bind_quiet; [apply quiet_exec; right; by eexists|intros _|done].
  apply kept_bind_quiet; [apply quiet_exec; right; by eexists|intros _|done].
  apply kept_bind_quiet; [apply quiet_add_listeners|intros _|done].
  eapply triple_bind; [apply redirect_triple| |by intros w e [Hk _]]. intros [].
  eapply triple_bind; [eapply triple_weaken; [apply exemptions_triple|naive_solver|intros w r Hr; exact Hr]
                      | |by intros w e [Hk _]]. intros [].
  apply triple_pure_bind; [intros k _|by intros w e [Hk _]].
  intros w [Hk Hx]. cbn. split; [exact Hk|]. intros z [= <-]. auto.
Qed.
End step.

Lemma down_triple w0 :
  triple (kept w0) (down planes getpwnam name)
    (fun w r => r = Ok 0 /\ kept w0 w /\ absent groups w /\ cleared INTERNAL_SETS w).
Proof.
  unfold down. rewrite Huid, (inspect_commands_groups planes uid a "delete" Haddr eq_refl).
  apply triple_pure_bind; [|done]. intros ? <-%Ok_inj. eapply triple_bind.
  { eapply triple_weaken; [by apply (delete_groups w0 groups [])|intros w Hk; split; [exact Hk|]|intros w r Hr; exact Hr].
    apply absent_nil. }
  2: { by intros w e [? _]. }
  intros []. cbn [app].
  apply (triple_bind _ _ _ (fun w r => r = Ok tt /\ kept w0 w /\ absent groups w /\ cleared INTERNAL_SETS w)).
  { intros w (_ & Hk & Ha). unfold tolerated.
    pose proof (purge_exemptions w0 (absent groups) (or_intror eq_refl) w (conj Hk Ha)) as Hp.
    destruct (purge_internal_exemptions uid name w) as [w' r]. cbn [fst snd] in Hp. destruct Hp as [-> Hp].
    exact (conj (eq_refl (Ok tt)) Hp). }
  2: { by intros w e [? _]. }
  intros [] w (_ & Hk & Ha & Hc). cbv [mbind io_bind].
  destruct (quiet_remove_listeners w (proj1 Hk)) as [Hs Ht].
  pose proof (kept_quiet w0 _ quiet_remove_listeners w Hk) as Hk'.
  assert (Hr : snd (remove_listener_addresses uid w) = Ok tt).
  { unfold remove_listener_addresses, inspect_link_delete_commands. by rewrite Haddr. }
  destruct (remove_listener_addresses uid w) as [w' r]. cbn [fst snd] in *. subst r. cbn. split_and!; [done|exact Hk'| |].
  - intros s t Hin He. rewrite Ht by done. by apply Ha.
  - intros s t Hin Ho. rewrite Ht by (by apply internal_arm_sets). by apply Hc.
Qed.

(** C8.  After a successful [up] the redirect and the guard sets hold every
    element of the workload, and its exemptions are exactly the resolved addresses
    of its internal hosts and its broker's, whatever was armed before: an
    exemption for an address a name no longer has is gone.  Nothing of another
    workload changes. *)
Theorem inspector_armed_from_configuration sub load config net w w' r :
  load name = Ok config -> sub_network sub config = Ok net -> sub_applies sub config = Ok true ->
  (forall addrs ad, exempt_addresses sub config net uid = Ok addrs -> ad ∈ addrs -> plain (ip_str ad)) ->
  sound w -> whole w -> up planes sub getpwnam load name w = (w', Ok r) ->
  (forall s t, s ∈ ARM_SETS -> has_element (inspect_groups planes uid a) s t -> t ∈ tx w' s) /\
  (exists addrs els, exempt_addresses sub config net uid = Ok addrs /\ internal_ok_elements uid addrs = Ok els /\
     forall s t, s ∈ INTERNAL_SETS -> owned_by uid t -> t ∈ tx w' s <-> has_element els s t) /\
  (forall s t, s ∈ ARM_SETS -> ~ mine s t -> t ∈ tx w' s <-> t ∈ tx w s).
Proof.
  intros Hl Hn Ha Hpl Hs Hw Hup.
  destruct (up_triple sub load config net Hl Hn Ha Hpl w w) as [(_ & _ & Ho) Hx]; [by split_and!|].
  rewrite Hup in Ho, Hx. destruct (Hx r eq_refl) as [_ [Hp He]]. done.
Qed.

(** Whatever [up] did -- also when a name did not resolve, a command failed
    or an address could not be added half way through -- [down] afterwards returns
    and leaves no element of the workload, and the two together have changed
    nothing of any other. *)
Theorem up_then_down_clears sub load config net w :
  load name = Ok config -> sub_network sub config = Ok net -> sub_applies sub config = Ok true ->
  (forall addrs ad, exempt_addresses sub config net uid = Ok addrs -> ad ∈ addrs -> plain (ip_str ad)) ->
  sound w -> whole w ->
  let w1 := fst (up planes sub getpwnam load name w) in
  exists w2, down planes getpwnam name w1 = (w2, Ok 0) /\ sound w2 /\ whole w1 /\ whole w2 /\
    forall s t, s ∈ ARM_SETS -> t ∈ tx w2 s <-> t ∈ tx w s /\ ~ mine s t.
Proof.
  intros Hl Hn Ha Hpl Hs Hw w1.
  destruct (up_triple sub load config net Hl Hn Ha Hpl w w) as [Hk _]; [by split_and!|]. fold w1 in Hk.
  destruct (down_triple w w1 Hk) as (Hr & (Hs2 & Hw2 & Ho2) & Hab & Hcl).
  destruct (down planes getpwnam name w1) as [w2 r]. cbn [fst snd] in *. subst r.
  exists w2. split_and!; [done|done|apply Hk|done|]. intros s t Hin.
  assert (Hgone : mine s t -> t ∉ tx w2 s) by (intros [[Hi Hown]|He]; [by apply Hcl|by apply Hab]).
  split.
  - intros Ht. assert (Hm : ~ mine s t) by (intros Hm; by apply Hgone in Hm). split; [by apply Ho2|done].
  - intros [Ht Hm]. by apply Ho2.
Qed.
End proofs.

(** ** A machine that satisfies the laws *)

Module Host.

(** The sets, by name; links and files leave no trace. *)
Definition world := list (string * list string).

Definition h_tx (w : world) (s : string) : list string := match assoc s w with Some l => l | None => [] end.

(** An exemption's text, read back as it is printed: the owner as a number. *)
Definition parse_pair (t : string) : printed :=
  match cut " " t with Some (o, r) => (TInt (int_of o), str_drop 2 r) | None => (TInt 0, "") end.

Definition h_accepts (s t : string) : bool :=
  negb (String.eqb t "") && negb (has_char "," t) &&
  (negb (bool_decide (s ∈ INTERNAL_SETS)) || String.eqb (print_pair (parse_pair t)) t).

Definition h_done : completed := mkDone 0 None "".
Definition h_failed : completed := mkDone 1 None "Error".

Definition h_exec (argv : list string) (w : world) : world * completed :=
  match argv with
  | [bin; action; verb; f; x; s; body] =>
      if negb (String.eqb bin NFT_BIN) then (w, h_done)
      else if String.eqb action "-j" then
        (w, mkDone 0 (Some (TTab [("nftables",
               TArr [TTab [("set", TTab [("elem", TArr (map json_pair (map parse_pair (h_tx w body))))])]])])) "")
      else
        let es := Kernel.unbrace body in
        if String.eqb action "add" then
          if forallb (h_accepts s) es then (assoc_set s (h_tx w s ++ es) w, h_done) else (w, h_failed)
        else if forallb (fun t => bool_decide (t ∈ h_tx w s)) es
        then (assoc_set s (filter (fun t => t ∉ es) (h_tx w s)) w, h_done) else (w, h_failed)
  | _ => (w, h_done)
  end.

#[export] Instance host : ArmHost world := {|
  exec := h_exec;
  put_policy := fun _ _ w => (w, Ok tt);
  clear_status := fun _ w => (w, Ok tt) |}.

Definition h_sound (w : world) : Prop := forall s t, t ∈ h_tx w s -> h_accepts s t = true.

Lemma h_put_same s l (w : world) : h_tx (assoc_set s l w) s = l.
Proof. unfold h_tx. by rewrite assoc_set_same. Qed.
Lemma h_put_other s s' l (w : world) : s' <> s -> h_tx (assoc_set s l w) s' = h_tx w s'.
Proof. intros Hne. unfold h_tx. by rewrite assoc_set_other. Qed.

Lemma h_put_sound s l w : h_sound w -> (forall t, t ∈ l -> h_accepts s t = true) -> h_sound (assoc_set s l w).
Proof.
  intros Hw Hl s' t. destruct (decide (s' = s)) as [->|Hne]; [rewrite h_put_same; apply Hl|].
  rewrite h_put_other by done. apply Hw.
Qed.

Lemma h_accepts_empty s : h_accepts s "" = false.
Proof. done. Qed.

(** The empty list of elements is written like one empty element. *)
Lemma unbrace_plain es : Forall plain es -> Kernel.unbrace (braces es) = match es with [] => [""] | _ => es end.
Proof. intros Hpl. destruct es as [|e es]; [done|]. by apply Kernel.unbrace_braces. Qed.

Lemma h_add w tab s es :
  h_sound w -> Forall plain es -> length tab = 2%nat ->
  let '(w', r) := h_exec (element_command "add" tab s es) w in
  h_sound w' /\ (forall s', s' <> s -> h_tx w' s' = h_tx w s') /\
  forall t, t ∈ h_tx w' s <-> t ∈ h_tx w s \/ (rc r = 0 /\ t ∈ es).
Proof.
  intros Hw Hpl Htab. destruct tab as [|t1 [|t2 [|]]]; try done. unfold element_command, h_exec. cbn [app].
  change (negb (String.eqb NFT_BIN NFT_BIN)) with false. change (String.eqb "add" "-j") with false. change (String.eqb "add" "add") with true. cbn iota zeta.
  rewrite unbrace_plain by done. destruct es as [|e es].
  { change (forallb (h_accepts s) [""]) with (h_accepts s "" && true). rewrite h_accepts_empty. cbn. set_solver. }
  destruct (forallb (h_accepts s) (e :: es)) eqn:E.
  - split_and!.
    + apply h_put_sound; [done|]. rewrite forallb_forall in E.
      intros t [Ht|Ht]%elem_of_app; [by apply Hw|by apply E, list_elem_of_In].
    + intros. by rewrite h_put_other.
    + intros t. rewrite h_put_same, elem_of_app. cbn. naive_solver.
  - split_and!; try done. intros t. cbn. naive_solver.
Qed.

Lemma h_delete w tab s es :
  h_sound w -> Forall plain es -> length tab = 2%nat ->
  let '(w', r) := h_exec (element_command "delete" tab s es) w in
  h_sound w' /\ (forall s', s' <> s -> h_tx w' s' = h_tx w s') /\
  forall t, t ∈ h_tx w' s <-> t ∈ h_tx w s /\ ~ ((forall x, x ∈ es -> x ∈ h_tx w s) /\ t ∈ es).
Proof.
  intros Hw Hpl Htab. destruct tab as [|t1 [|t2 [|]]]; try done. unfold element_command, h_exec. cbn [app].
  change (negb (String.eqb NFT_BIN NFT_BIN)) with false. change (String.eqb "delete" "-j") with false. change (String.eqb "delete" "add") with false. cbn iota zeta.
  rewrite unbrace_plain by done. destruct es as [|e es].
  { cbn [forallb]. rewrite bool_decide_eq_false_2 by (intros Hx%Hw; done). cbn. set_solver. }
  destruct (forallb _ (e :: es)) eqn:E.
  - assert (Hall : forall x, x ∈ e :: es -> x ∈ h_tx w s).
    { rewrite forallb_forall in E. intros x Hx%list_elem_of_In. by apply E, bool_decide_eq_true in Hx. }
    split_and!.
    + apply h_put_sound; [done|]. intros t [_ Ht]%list_elem_of_filter. by apply Hw.
    + intros. by rewrite h_put_other.
    + intros t. rewrite h_put_same, list_elem_of_filter. naive_solver.
  - assert (Hno : ~ forall x, x ∈ e :: es -> x ∈ h_tx w s).
    { intros Hall. rewrite (proj2 (forallb_forall _ _)) in E; [done|].
      intros x Hx%list_elem_of_In. by apply bool_decide_eq_true, Hall. }
    split_and!; try done. naive_solver.
Qed.

Lemma parse_pair_int t : exists n, fst (parse_pair t) = TInt n.
Proof. unfold parse_pair. destruct (cut " " t) as [[? ?]|]; eauto. Qed.

Lemma h_shown w s : h_sound w -> s ∈ INTERNAL_SETS -> h_tx w s = map print_pair (map parse_pair (h_tx w s)).
Proof.
  intros Hw Hs. specialize (Hw s). induction (h_tx w s) as [|t l IH]; [done|]. cbn [map]. f_equal.
  - assert (Ha : h_accepts s t = true) by (apply Hw; by left). unfold h_accepts in Ha.
    apply andb_prop in Ha as [_ Ha]. rewrite bool_decide_eq_true_2 in Ha by done. cbn [negb orb] in Ha.
    by apply String.eqb_eq in Ha.
  - apply IH. intros x Hx. apply Hw. by right.
Qed.

Lemma h_sound_plain w s l : h_sound w -> (forall t, t ∈ l -> t ∈ h_tx w s) -> Forall plain l.
Proof.
  intros Hw Hl. apply Forall_forall. intros t Ht%Hl%Hw. unfold h_accepts in Ht.
  apply andb_prop in Ht as [[_ Ht]%andb_prop _]. by apply negb_true_iff in Ht.
Qed.

(** The one account of the machine. *)
Definition web_account (u : string) : option Z := if String.eqb u "_wl-web" then Some 10001 else None.

Lemma table_of_length s : length (table_of s) = 2%nat.
Proof. unfold table_of. by case_decide. Qed.

#[export] Instance host_laws : ArmLaws world web_account.
Proof.
  refine {| sound := h_sound; tx := h_tx; shown := fun w s => map parse_pair (h_tx w s); canon := print_pair |}.
  - intros s s' n. unfold web_account. destruct (String.eqb_spec s "_wl-web"), (String.eqb_spec s' "_wl-web"); congruence.
  - intros w s Hw Hs. split; [by apply h_shown|]. apply Forall_forall. intros p (t & -> & _)%list_elem_of_fmap.
    destruct (parse_pair_int t) as [n Hn]. exists n, (snd (parse_pair t)). unfold print_pair. by rewrite Hn.
  - intros w s Hw Hs. cbn. split; [done|]. right. split; [done|]. eexists. split; [done|]. cbn.
    destruct (map json_pair _) eqn:E; [done|]. done.
  - intros w s es Hw Hs Hpl. pose proof (h_add w (table_of s) s es Hw Hpl (table_of_length s)) as HL.
    cbn [exec host]. destruct (h_exec _ w) as [w' r]. naive_solver.
  - intros w s es Hw Hs Hpl. pose proof (h_delete w (table_of s) s es Hw Hpl (table_of_length s)) as HL.
    cbn [exec host]. destruct (h_exec _ w) as [w' r]. naive_solver.
  - intros w s l Hw Hs Hne Hl.
    assert (Hin : forall t, t ∈ map print_pair l -> t ∈ h_tx w s).
    { intros t (p & -> & Hp%Hl)%list_elem_of_fmap. rewrite (h_shown w s) by done. by apply list_elem_of_fmap; eauto. }
    pose proof (h_delete w NFT_TABLE s (map print_pair l) Hw (h_sound_plain w s _ Hw Hin) eq_refl) as HL.
    cbn [exec host]. unfold filter_delete_command. destruct (h_exec _ w) as [w' r]. destruct HL as (H1 & H2 & H3).
    split_and!; [done|intros; by apply H2|]. intros t. rewrite H3. naive_solver.
  - intros w argv Hw [[rest ->]|[f ->]]; [|done]. cbn [exec host].
    assert (fst (h_exec (IP_BIN :: rest) w) = w) as ->; [|done].
    unfold h_exec. do 7 (destruct rest as [|? rest]; [done|]). done.
  - done.
  - done.
Defined.
End Host.
Import Host.

(** ** Witnesses *)

(** A container with an internal host, on a machine where another workload is
    armed and an exemption of an earlier configuration is left. *)
Definition inspected : table :=
  [("workload", TTab [("name", TStr "web")]);
   ("network", TTab [("hosts", TArr [TStr "git.example"]);
                     ("internal", TArr [TTab [("host", TStr "git.example"); ("reason", TStr "forge")]])])].

Definition inspected_sub : Substrate :=
  CONTAINER (fun h => if String.eqb h "git.example" then Ok ["10.1.2.3"] else Raise OSError).

Definition busy : world :=
  [("wl_internal_ok4", ["10001 . 10.9.9.9"; "10002 . 10.9.9.9"]);
   ("wl_inspect_self", ["10002 . 198.18.1.2"])].

Definition sample_planes : list (Z * Z) := [(80, 10080); (443, 10443)].
Definition web_address : VmInspectAddress := mkInspect "198.18.1.1" "2001:2::c612:101".

Lemma busy_sound : h_sound busy.
Proof.
  intros s t. unfold h_tx, busy. cbn [assoc]. repeat case_decide; subst; [..|by intros ?%not_elem_of_nil];
    intros Ht%list_elem_of_In; destruct Ht as [<-|Ht]; try destruct Ht as [<-|[]]; try destruct Ht; reflexivity.
Qed.

Lemma inspected_plain addrs ad :
  exempt_addresses inspected_sub inspected (match assoc "network" inspected with Some n => n | None => TTab [] end) 10001
  = Ok addrs -> ad ∈ addrs -> plain (ip_str ad).
Proof.
  intros Ha Hin. vm_compute in Ha. injection Ha as <-. apply list_elem_of_singleton in Hin as ->. reflexivity.
Qed.

Lemma busy_whole : whole (getpwnam := web_account) sample_planes 10001 web_address busy.
Proof.
  intros s es Hin. right. intros x Hx Ht. apply list_elem_of_In in Hin, Hx, Ht. cbn in Hin.
  repeat (destruct Hin as [Hin|Hin]; [injection Hin as <- <-; vm_compute in Ht, Hx; intuition congruence|]).
  destruct Hin.
Qed.

Lemma inspector_armed_from_configuration_witness :
  exists w', up sample_planes inspected_sub web_account (fun _ => Ok inspected) "web" busy = (w', Ok 0) /\
    "10001 . 10.9.9.9" ∉ h_tx w' "wl_internal_ok4" /\ "10002 . 10.9.9.9" ∈ h_tx w' "wl_internal_ok4".
Proof.
  eexists. split; [vm_compute; reflexivity|].
  match goal with |- _ ∉ h_tx ?w' _ /\ _ =>
    destruct (inspector_armed_from_configuration (getpwnam := web_account) sample_planes "web" 10001 web_address
      eq_refl ltac:(vm_compute; reflexivity) inspected_sub (fun _ => Ok inspected) inspected
      (match assoc "network" inspected with Some n => n | None => TTab [] end) busy w' 0)
      as (_ & (addrs & els & Ha & He & Hx) & Ho) end.
  - reflexivity.
  - reflexivity.
  - vm_compute. reflexivity.
  - exact inspected_plain.
  - exact busy_sound.
  - exact busy_whole.
  - vm_compute. reflexivity.
  - split.
    + cbn [tx host_laws] in Hx. rewrite Hx by (try (by left); right; by exists "10.9.9.9").
      vm_compute in Ha. injection Ha as <-. vm_compute in He. injection He as <-.
      intros (es & Hin%list_elem_of_In & Ht%list_elem_of_In). destruct Hin as [[= <-]|[]]. destruct Ht as [[=]|[]].
    + apply Ho; [unfold ARM_SETS; apply elem_of_app; right; by left| |vm_compute; by right; left].
      intros [[_ [Hm|[r Hm]]]|(es & Hin%list_elem_of_In & _)]; [discriminate Hm|discriminate Hm|].
      cbn in Hin. intuition discriminate.
Defined.

Lemma up_then_down_clears_witness :
  exists w2, down sample_planes web_account "web"
    (fst (up sample_planes inspected_sub web_account (fun _ => Ok inspected) "web" busy)) = (w2, Ok 0) /\
    "10001 . 10.1.2.3" ∉ h_tx w2 "wl_internal_ok4".
Proof.
  destruct (up_then_down_clears (getpwnam := web_account) sample_planes "web" 10001 web_address
      eq_refl ltac:(vm_compute; reflexivity) inspected_sub (fun _ => Ok inspected) inspected
      (match assoc "network" inspected with Some n => n | None => TTab [] end) busy) as (w2 & Hd & _ & _ & _ & Ht).
  - reflexivity.
  - reflexivity.
  - vm_compute. reflexivity.
  - exact inspected_plain.
  - exact busy_sound.
  - exact busy_whole.
  - exists w2. split; [exact Hd|]. cbn [tx host_laws] in Ht.
    rewrite Ht by (unfold ARM_SETS; apply elem_of_app; right; by left).
    intros [_ Hm]. apply Hm. left. split; [by left|]. right. by exists "10.1.2.3".
Defined.
