(* ===== verification/VmEgressValidate.v ===== *)
(** * Validation of a VM's egress rules: [lib/vm_egress_validate.py]

    The rules of [vm.network] on egress, one definition per block of the source
    and a constructor of [eg_error] for each message.  Parameters, all of the
    inspector's package: [patterns_overlap], [hostname_match],
    [normalize_hostname], the TLS modes, and the two redirected ports.

    The theorems: on a table without errors the lenient accessors that the
    generators, the broker and the arm step use return exactly what was validated,
    every allow entry can be armed, and for every host name at most one credential
    can be attached, whichever policy entry matches first. *)
From S2P Require Import Prelude PyStr Toml Ipaddr WorkloadConfig CredentialEntries NetworkConfig ContainerValidate.
From S2P Require Import BrokerConfig Seccomp.
Local Open Scope Z_scope.

Inductive path_error :=
  | PeNotString | PeEmpty | PePadded | PeUrl | PeRelative | PeQuery.

Inductive eg_error :=
  | EgMode
  | EgAllowType | EgAllow (e : vm_allow_error)
  | EgHostsType | EgHosts (e : host_pattern_error)
  | EgTlsUnbuilt | EgTlsValue | EgTlsNoReason | EgTlsReasonUnused
  | EgHrType (key : string) | EgHrItem (key : string) | EgHrUnknown (key : string) (keys : list string)
  | EgHrNoHost (key : string) | EgHrPattern (key : string) (e : host_pattern_error) | EgHrReason (key host : string)
  | EgSpliceUncovered (host : string)
  | EgHttp2
  | EgCred (e : cred_error)
  | EgPolicyType | EgPolicyItem | EgPolicyMisplaced (key : string) | EgPolicyUnknown (keys : list string)
  | EgPolicyNoHost | EgPolicyPattern (e : host_pattern_error)
  | EgMethodsType (host : string) | EgMethodType (host : string) | EgMethodSpace (host token : string)
  | EgMethodRefused (host token : string) | EgMethodUnknown (host token : string) | EgMethodsEmpty (host : string)
  | EgPathsType (host : string) | EgPath (host : string) (e : path_error) | EgPathsEmpty (host : string)
  | EgPolicyCredType (host : string) | EgPolicyCredUndeclared (host cred : string)
  | EgPolicyCredWildcard (host cred : string)
  | EgCredUnselected (name : string)
  | EgCredSpliceMode | EgPolicySpliceMode | EgPolicyOpen
  | EgPolicySpliced (host spliced : string) | EgCredSpliced (host spliced : string)
  | EgPolicyOverlap (host sibling : string) (missing : list string)
  | EgCredDisagree (host other : string) | EgCredUnbrokered (host other : string)
  | EgPolicyTwice (host : string)
  | EgApex (key apex : string)
  | EgInternalUnlisted (host : string)
  | EgBridged (key : string)
  | EgNothing | EgHostsOpen | EgOpen (key : string)
  | EgResolverNone (named : list string).

Definition EGRESS_MODES : list string := ["filtered"; "open"].
Definition EGRESS_DEFAULT : string := "filtered".
(** [TLS_UNBUILT], which has no entry. *)
Definition TLS_UNBUILT : list string := [].

(** ** [internal] and [splice] *)

Definition validate_hr_item (key : string) (item : tv) : list string * list eg_error :=
  match item with
  | TTab t =>
      let unknown := filter (fun k => k ∉ ["host"; "reason"]) (map fst t) in
      let e0 := if nonempty unknown then [EgHrUnknown key (py_sorted unknown)] else [] in
      match assoc "host" t with
      | None => ([], e0 ++ [EgHrNoHost key])
      | Some h =>
          match validate_host_pattern h with
          | [] => let host := match h with TStr s => strip s | _ => "" end in
                  ([host], e0 ++ (if has_reason t then [] else [EgHrReason key host]))
          | problems => ([], e0 ++ map (EgHrPattern key) problems)
          end
      end
  | _ => ([], [EgHrItem key])
  end.

Definition validate_host_reason_entries (net : table) (key : string) : list string * list eg_error :=
  match assoc key net with
  | None => ([], [])
  | Some (TArr l) => let rs := map (validate_hr_item key) l in
                     (concat (map fst rs), concat (map snd rs))
  | Some _ => ([], [EgHrType key])
  end.

(** ** [policy] *)

Definition validate_policy_path (pattern : tv) : list path_error :=
  match pattern with
  | TStr s =>
      if negb (nonblank s) then [PeEmpty]
      else if negb (String.eqb s (strip s)) then [PePadded]
      else if contains "://" s then [PeUrl]
      else if negb (starts_with "/" s) then [PeRelative]
      else if has_char "?" s || has_char "#" s then [PeQuery]
      else []
  | _ => [PeNotString]
  end.

Definition validate_policy_method (host : string) (token : tv) : option string * list eg_error :=
  match token with
  | TStr s =>
      if negb (String.eqb s (strip s)) || any_char is_space s then (None, [EgMethodSpace host s])
      else let name := upper s in
           if bool_decide (name ∈ POLICY_METHODS_REFUSED) then (None, [EgMethodRefused host s])
           else if negb (bool_decide (name ∈ POLICY_METHODS)) then (None, [EgMethodUnknown host s])
           else (Some name, [])
  | _ => (None, [EgMethodType host])
  end.

Definition validate_policy_methods (host : string) (value : option tv) : option (list string) * list eg_error :=
  match value with
  | None => (None, [])
  | Some (TArr l) =>
      let rs := map (validate_policy_method host) l in
      let out := omap fst rs in
      let errors := concat (map snd rs) in
      (Some out, errors ++ (if negb (nonempty out) && negb (nonempty errors) then [EgMethodsEmpty host] else []))
  | Some _ => (Some [], [EgMethodsType host])
  end.

(** The block on [paths]: every string is kept, whatever is wrong with it. *)
Definition validate_policy_paths (host : string) (value : option tv) : option (list string) * list eg_error :=
  match value with
  | None => (None, [])
  | Some (TArr l) =>
      (Some (omap as_str l),
       concat (map (fun p => map (EgPath host) (validate_policy_path p)) l)
       ++ (if nonempty l then [] else [EgPathsEmpty host]))
  | Some _ => (Some [], [EgPathsType host])
  end.

Definition validate_policy_cred (names : list string) (host : string) (t : table) : option string * list eg_error :=
  match assoc "credential" t with
  | None => (None, [])
  | Some _ =>
      match stripped_str t "credential" with
      | None => (None, [EgPolicyCredType host])
      | Some c => (Some c,
                   (if bool_decide (c ∈ names) then [] else [EgPolicyCredUndeclared host c]) ++
                   (if has_char "*" host then [EgPolicyCredWildcard host c] else []))
      end
  end.

Definition POLICY_MISPLACED : list string := ["placeholder"].

Definition validate_policy_item (names : list string) (item : tv) : option policy_entry * list eg_error :=
  match item with
  | TTab t =>
      let keys := map fst t in
      let misplaced := filter (fun k => k ∈ POLICY_MISPLACED) keys in
      let unknown := filter (fun k => k ∉ POLICY_KEYS /\ k ∉ POLICY_MISPLACED) keys in
      let e0 := map EgPolicyMisplaced misplaced
                ++ (if nonempty unknown then [EgPolicyUnknown (py_sorted unknown)] else []) in
      match assoc "host" t with
      | None => (None, e0 ++ [EgPolicyNoHost])
      | Some h =>
          match validate_host_pattern h with
          | [] =>
              let host := match h with TStr s => strip s | _ => "" end in
              let '(methods, e1) := validate_policy_methods host (assoc "methods" t) in
              let '(paths, e2) := validate_policy_paths host (assoc "paths" t) in
              let '(credential, e3) := validate_policy_cred names host t in
              (Some (mkPolicy host methods paths credential), e0 ++ e1 ++ e2 ++ e3)
          | problems => (None, e0 ++ map EgPolicyPattern problems)
          end
      end
  | _ => (None, [EgPolicyItem])
  end.

Section validate.
Variable patterns_overlap : string -> string -> bool.
Variable hostname_match : string -> list string -> bool.
Variable normalize_hostname : string -> string.
Variable tls_modes : list string.
Variables cleartext_port tls_port : Z.

Definition overlap (e o : policy_entry) : bool := patterns_overlap (pe_host e) (pe_host o).

(** The first splice entry a policy entry shares hosts with. *)
Definition spliced_with (splice : list string) (e : policy_entry) : option string :=
  List.find (patterns_overlap (pe_host e)) splice.

Definition check_spliced (splice : list string) (policy : list policy_entry) : list eg_error :=
  omap (fun e => EgPolicySpliced (pe_host e) <$> spliced_with splice e) policy.

Definition check_cred_spliced (splice : list string) (policy : list policy_entry) : list eg_error :=
  omap (fun e => match pe_credential e with
                 | Some _ => EgCredSpliced (pe_host e) <$> spliced_with splice e
                 | None => None
                 end) policy.

Definition check_overlap_keys (policy : list policy_entry) : list eg_error :=
  omap (fun x => x) (imap (fun i e =>
    match siblings patterns_overlap policy i e with
    | [] => None
    | s :: _ => if nonempty (missing_keys e)
                then Some (EgPolicyOverlap (pe_host e) (pe_host s) (missing_keys e)) else None
    end) policy).

(** The later entries that overlap with another credential. *)
Definition disagreeing (policy : list policy_entry) (i : nat) (e : policy_entry) : list policy_entry :=
  omap (fun x => x) (imap (fun j o =>
    if Nat.ltb i j && overlap e o &&
       match pe_credential o, pe_credential e with Some c, Some d => negb (String.eqb c d) | _, _ => false end
    then Some o else None) policy).

Definition check_overlap_credentials (policy : list policy_entry) : list eg_error :=
  concat (imap (fun i e =>
    match siblings patterns_overlap policy i e with
    | [] => []
    | sibs =>
        match disagreeing policy i e with
        | [] => []
        | o :: _ => [EgCredDisagree (pe_host e) (pe_host o)]
        end ++
        match pe_credential e, List.filter (fun o => bool_decide (pe_credential o = None)) sibs with
        | Some _, o :: _ => [EgCredUnbrokered (pe_host e) (pe_host o)]
        | _, _ => []
        end
    end) policy).

(** [tuple(sorted(set(l)))]. *)
Definition sorted_set (l : option (list string)) : option (list string) := (fun l => py_sorted (remove_dups l)) <$> l.

Definition policy_key (e : policy_entry) : string * option (list string) * option (list string) * option string :=
  (normalize_hostname (pe_host e), sorted_set (pe_methods e), sorted_set (pe_paths e), pe_credential e).

Fixpoint check_twice (seen : list (string * option (list string) * option (list string) * option string))
    (policy : list policy_entry) : list eg_error :=
  match policy with
  | [] => []
  | e :: policy =>
      (if decide (policy_key e ∈ seen) then [EgPolicyTwice (pe_host e)] else [])
      ++ check_twice (policy_key e :: seen) policy
  end.

Definition validate_policy (net : table) (splice : list string) (egress : string) (tls : option tv)
    (credentials : list credential) : list policy_entry * list eg_error :=
  match assoc "policy" net with
  | Some (TArr raw) =>
      let rs := map (validate_policy_item (map cr_name credentials)) raw in
      let entries := omap fst rs in
      let unselected := concat (map (fun c =>
        if existsb (fun e => bool_decide (pe_credential e = Some (cr_name c))) entries
        then [] else [EgCredUnselected (cr_name c)]) credentials) in
      let errors := concat (map snd rs) ++ unselected in
      if negb (nonempty entries) then (entries, errors)
      else (entries, errors ++
        (if is_the_str tls "splice" && existsb (fun e => negb (bool_decide (pe_credential e = None))) entries
         then [EgCredSpliceMode] else []) ++
        (if is_the_str tls "splice" then [EgPolicySpliceMode] else []) ++
        (if negb (String.eqb egress "filtered") then [EgPolicyOpen] else []) ++
        check_spliced splice entries ++ check_cred_spliced splice entries ++
        check_overlap_keys entries ++ check_overlap_credentials entries ++ check_twice [] entries)
  | Some _ => ([], [EgPolicyType])
  | None => ([], concat (map (fun c => [EgCredUnselected (cr_name c)]) credentials))
  end.

(** ** Apexes *)

Definition literal_hosts (hosts : list tv) : list string :=
  omap (fun h => match h with TStr s => if nonblank s then Some (strip s) else None | _ => None end) hosts.

Definition validate_apex_coverage (hosts : list tv) (entries : list string) (key : string) (self_allowlisting : bool)
    : list eg_error :=
  let literal := literal_hosts hosts in
  let named := List.filter (fun e => negb (String.eqb e "")) entries in
  omap (fun apex =>
    let wildcard := "*." +:+ apex in
    if negb (existsb (fun e => String.eqb (normalize_hostname e) (normalize_hostname wildcard)) named) then None
    else if negb self_allowlisting && negb (existsb (patterns_overlap wildcard) literal) then None
    else if existsb (fun e => hostname_match apex [e]) named then None
    else Some (EgApex key apex)) literal.

(** ** The whole *)

(** [any(patterns_overlap(host, pattern) for pattern in hosts if isinstance(pattern, str))]. *)
Definition on_hosts (host : string) (hosts : list tv) : bool :=
  existsb (fun p => match p with TStr s => patterns_overlap host s | _ => false end) hosts.

Definition validate_tls (tls tls_reason : option tv) : res (list eg_error) :=
  let has_reason := match tls_reason with Some (TStr s) => nonblank s | _ => false end in
  value ← match tls with
          | None => Ok []
          | Some v =>
              if negb (hashable v) then Raise TypeError
              else Ok (match v with
                       | TStr s => if bool_decide (s ∈ TLS_UNBUILT) then [EgTlsUnbuilt]
                                   else if negb (bool_decide (s ∈ tls_modes)) then [EgTlsValue] else []
                       | _ => [EgTlsValue]
                       end)
          end;
  Ok (value ++
      if is_the_str tls "splice" && negb has_reason then [EgTlsNoReason]
      else match tls_reason with
           | Some _ => if negb (is_the_str tls "splice") then [EgTlsReasonUnused] else []
           | None => []
           end).

Definition BRIDGE_KEYS : list string :=
  ["egress"; "allow"; "tls"; "tls_reason"; "internal"; "splice"; "policy"; "credential"].

Definition check_keys (f : string -> eg_error) (keys : list string) (net : table) : list eg_error :=
  map f (List.filter (fun k => has_key k net) keys).

(** The rules on a table whose VM is not bridged. *)
Definition check_reach (net : table) (egress : string) (allow hosts : list tv) (allow_entries : list vm_allow)
    (internal splice policy_hosts : list string) : list eg_error :=
  let filtered := String.eqb egress "filtered" in
  (if filtered && negb (nonempty allow) && negb (nonempty hosts) && negb (nonempty policy_hosts)
   then [EgNothing] else []) ++
  (if String.eqb egress "open" && nonempty hosts then [EgHostsOpen] else []) ++
  (if negb filtered then check_keys EgOpen ["tls"; "tls_reason"; "internal"; "splice"] net else []) ++
  (if filtered && is_the_str (assoc "resolver" net) "none" then
     let named :=
       (if nonempty hosts then [".hosts"] else []) ++ (if nonempty internal then [".internal"] else []) ++
       (if nonempty splice then [".splice"] else []) ++ (if nonempty policy_hosts then [".policy"] else []) ++
       (if existsb (fun e => match va_host e with Some h => negb (String.eqb h "") | None => false end) allow_entries
        then ["an .allow entry written by name"] else []) in
     if nonempty named then [EgResolverNone named] else []
   else []).

(** [net.get("egress", EGRESS_DEFAULT)], and what is used when it is no mode. *)
Definition egress_mode (net : table) : string * list eg_error :=
  match assoc "egress" net with
  | None => (EGRESS_DEFAULT, [])
  | Some (TStr s) => if bool_decide (s ∈ EGRESS_MODES) then (s, []) else (EGRESS_DEFAULT, [EgMode])
  | Some _ => (EGRESS_DEFAULT, [EgMode])
  end.

Definition array_of (net : table) (key : string) (e : eg_error) : list tv * list eg_error :=
  match assoc key net with
  | None => ([], [])
  | Some (TArr l) => (l, [])
  | Some _ => ([], [e])
  end.

Definition validate_egress (net : table) : res (list eg_error) :=
  let '(egress, egress_errors) := egress_mode net in
  let '(allow, allow_type) := array_of net "allow" EgAllowType in
  let parsed := map (parse_vm_allow cleartext_port tls_port (String.eqb egress "filtered")) allow in
  let allow_entries := omap (fun r => match r with inr e => Some e | inl _ => None end) parsed in
  let allow_errors := omap (fun r => match r with inl e => Some (EgAllow e) | inr _ => None end) parsed in
  let '(hosts, hosts_type) := array_of net "hosts" EgHostsType in
  let hosts_errors := map EgHosts (concat (map validate_host_pattern hosts)) in
  let tls := assoc "tls" net in
  tls_errors ← validate_tls tls (assoc "tls_reason" net);
  let '(internal, internal_errors) := validate_host_reason_entries net "internal" in
  let '(splice, splice_errors) := validate_host_reason_entries net "splice" in
  let uncovered := concat (map (fun h => if on_hosts h hosts then [] else [EgSpliceUncovered h]) splice) in
  let http2 := if has_key "http2" net then [EgHttp2] else [] in
  let '(credentials, credential_errors) := validate_credential_entries RESERVED_GUEST_ENV net in
  let '(policy, policy_errors) := validate_policy net splice egress tls credentials in
  let policy_hosts := map pe_host policy in
  let apex := validate_apex_coverage hosts splice "splice" false ++ validate_apex_coverage hosts policy_hosts "policy" true in
  let unlisted := concat (map (fun h => if on_hosts h hosts || existsb (patterns_overlap h) policy_hosts
                                        then [] else [EgInternalUnlisted h]) internal) in
  let errors := egress_errors ++ allow_type ++ allow_errors ++ hosts_type ++ hosts_errors ++ tls_errors ++
    internal_errors ++ splice_errors ++ uncovered ++ http2 ++ map EgCred credential_errors ++ policy_errors ++
    apex ++ unlisted in
  if has_key "bridge" net then
    Ok (errors ++ check_keys EgBridged BRIDGE_KEYS net ++ check_keys EgBridged ["hosts"] net)
  else Ok (errors ++ check_reach net egress allow hosts allow_entries internal splice policy_hosts).
End validate.

(** ** Tables without errors *)

Ltac split_nil :=
  repeat match goal with
  | H : _ ++ _ = [] |- _ => apply app_nil in H as [? ?]
  end.

Lemma validate_policy_method_clean host v o :
  validate_policy_method host v = (o, []) -> exists s, v = TStr s /\ o = Some (upper s).
Proof.
  destruct v as [s| | | | |]; cbn [validate_policy_method]; try discriminate.
  repeat case_match; intros [= <-]. eauto.
Qed.

Lemma validate_policy_methods_clean host v m :
  validate_policy_methods host v = (m, []) -> normalise_policy_list v true = m.
Proof.
  destruct v as [[| | | |l|]|]; cbn [validate_policy_methods normalise_policy_list]; try discriminate;
    [|by intros [= <-]].
  intros H. injection H as <- H. apply app_nil in H as [H _]. f_equal. symmetry.
  apply (clean_items (validate_policy_method host) upper); [apply validate_policy_method_clean|done].
Qed.

Lemma validate_policy_paths_clean host v m :
  validate_policy_paths host v = (m, []) -> normalise_policy_list v false = m.
Proof.
  destruct v as [[| | | |l|]|]; cbn [validate_policy_paths normalise_policy_list]; try discriminate;
    by intros [= <-].
Qed.

Lemma validate_policy_cred_clean names host t c :
  validate_policy_cred names host t = (c, []) ->
  stripped_str t "credential" = c /\ (forall x, c = Some x -> x ∈ names /\ has_char "*" host = false).
Proof.
  unfold validate_policy_cred. destruct (assoc "credential" t) eqn:E.
  - destruct (stripped_str t "credential") as [x|] eqn:Es; [|discriminate].
    intros H. injection H as <- H. split; [done|]. intros y [= <-].
    destruct (bool_decide (x ∈ names)) eqn:Ex; [|discriminate].
    destruct (has_char "*" host); [discriminate|]. apply bool_decide_eq_true in Ex. done.
  - intros [= <-]. unfold stripped_str. by rewrite E.
Qed.

Definition selects_declared (names : list string) (e : policy_entry) : Prop :=
  forall x, pe_credential e = Some x -> x ∈ names /\ has_char "*" (pe_host e) = false.

Lemma validate_policy_item_parsed names item o :
  validate_policy_item names item = (o, []) ->
  exists e, o = Some e /\ parse_policy_entry item = Some e /\ selects_declared names e.
Proof.
  destruct item as [| | | | |t]; try discriminate. cbn [validate_policy_item].
  set (e0 := map _ _ ++ _). destruct (assoc "host" t) as [h|] eqn:Eh.
  2: { intros H. injection H as _ H. by apply app_nil in H as [_ H]. }
  destruct (validate_host_pattern h) as [|p ps] eqn:Ep.
  2: { intros H. injection H as _ H. by apply app_nil in H as [_ H]. }
  destruct (pattern_ok_stripped t h Eh Ep) as (s & -> & Hs).
  destruct (validate_policy_methods (strip s) (assoc "methods" t)) as [m e1] eqn:E1.
  destruct (validate_policy_paths (strip s) (assoc "paths" t)) as [p e2] eqn:E2.
  destruct (validate_policy_cred names (strip s) t) as [c e3] eqn:E3.
  intros H. injection H as <- H. apply app_nil in H as [_ [-> [-> ->]%app_nil]%app_nil].
  apply validate_policy_methods_clean in E1. apply validate_policy_paths_clean in E2.
  apply validate_policy_cred_clean in E3 as [E3 Hc].
  eexists. split; [done|]. split; [|exact Hc]. cbn [parse_policy_entry]. by rewrite Hs, E1, E2, E3.
Qed.

Lemma vm_policy_items_clean names l :
  concat (map snd (map (validate_policy_item names) l)) = [] ->
  omap fst (map (validate_policy_item names) l) = omap parse_policy_entry l /\
  length (omap parse_policy_entry l) = length l /\ Forall (selects_declared names) (omap parse_policy_entry l).
Proof.
  induction l as [|v l IH]; [by repeat split|]. cbn [map concat]. intros [H1 H2]%app_nil.
  destruct (IH H2) as (I1 & I2 & I3). destruct (validate_policy_item names v) as [o e] eqn:E.
  cbn [snd] in H1. subst e. apply validate_policy_item_parsed in E as (e & -> & Hp & Hc).
  cbn [omap list_omap fst]. rewrite Hp, I1. cbn [length]. split_and!; [done|by rewrite I2|by constructor].
Qed.

Lemma hr_entries_clean net key hs :
  validate_host_reason_entries net key = (hs, []) ->
  hs = host_reason_hosts net key /\ length hs = length (arr_at net key).
Proof.
  unfold validate_host_reason_entries, host_reason_hosts, arr_at.
  destruct (assoc key net) as [[| | | |l|]|]; try discriminate; [|by intros [= <-]].
  intros H. injection H as <- H. induction l as [|v l IH]; [done|].
  cbn [map concat] in *. apply app_nil in H as [H1 H2]. destruct (IH H2) as [I1 I2].
  destruct v as [| | | | |t]; try discriminate. cbn [validate_hr_item] in *.
  destruct (assoc "host" t) as [h|] eqn:Eh; [|by apply app_nil in H1 as [_ H1]].
  destruct (validate_host_pattern h) as [|p ps] eqn:Ep; [|by apply app_nil in H1 as [_ H1]].
  destruct (pattern_ok_stripped t h Eh Ep) as (s & -> & Hs). cbn [omap list_omap fst app length].
  rewrite Eh. unfold nonblank. unfold stripped_str in Hs. rewrite Eh in Hs.
  destruct (String.eqb (strip s) ""); [done|]. cbn [negb]. by rewrite I1, <- I2, I1.
Qed.

(** *** Entries that match one host *)

Lemma elem_selected {A B} (f : nat -> A -> option B) l x :
  x ∈ omap (fun y => y) (imap f l) <-> exists i y, l !! i = Some y /\ f i y = Some x.
Proof.
  rewrite list_elem_of_omap. setoid_rewrite elem_of_lookup_imap. naive_solver.
Qed.

Section accepted.
Variable patterns_overlap : string -> string -> bool.
Variable hostname_match : string -> list string -> bool.
Variable normalize_hostname : string -> string.
Variable tls_modes : list string.
Variables ct tt : Z.
Variable net : table.

Let valid := validate_egress patterns_overlap hostname_match normalize_hostname tls_modes ct tt net.

Lemma elem_siblings policy i e o :
  o ∈ siblings patterns_overlap policy i e <->
  exists j, policy !! j = Some o /\ j <> i /\ patterns_overlap (pe_host e) (pe_host o) = true.
Proof.
  unfold siblings. rewrite elem_selected. split.
  - intros (j & y & Hj & H). destruct (Nat.eqb_spec j i), (patterns_overlap _ _) eqn:E; simplify_eq/=. eauto.
  - intros (j & Hj & Hne & Ho). exists j, o. rewrite Ho. by destruct (Nat.eqb_spec j i).
Qed.

(** Entries that overlap both ways have the same credential. *)
Lemma overlap_same_credential policy i j e o :
  check_overlap_credentials patterns_overlap policy = [] ->
  policy !! i = Some e -> policy !! j = Some o ->
  patterns_overlap (pe_host e) (pe_host o) = true -> patterns_overlap (pe_host o) (pe_host e) = true ->
  pe_credential e = pe_credential o.
Proof.
  unfold check_overlap_credentials. rewrite concat_imap_nil. intros Hc Hi Hj Heo Hoe.
  destruct (decide (i = j)) as [->|Hne]; [congruence|].
  assert (Hone : forall i j e o, policy !! i = Some e -> policy !! j = Some o -> i <> j ->
    patterns_overlap (pe_host e) (pe_host o) = true ->
    (pe_credential e <> None -> pe_credential o <> None) /\
    ((i < j)%nat -> forall c d, pe_credential e = Some c -> pe_credential o = Some d -> c = d)).
  { clear - Hc. intros i j e o Hi Hj Hne Ho. specialize (Hc i e Hi). cbn beta in Hc.
    assert (Hs : o ∈ siblings patterns_overlap policy i e) by (apply elem_siblings; eauto).
    destruct (siblings patterns_overlap policy i e) as [|s sibs]; [set_solver|].
    apply app_nil in Hc as [Hd Hu]. split.
    - intros He Hn. destruct (pe_credential e) as [c|]; [|done].
      destruct (List.filter _ (s :: sibs)) as [|x l] eqn:E; [|done].
      assert (Hin : In o (List.filter (fun o => bool_decide (pe_credential o = None)) (s :: sibs))).
      { apply List.filter_In. split; [by apply list_elem_of_In|by apply bool_decide_eq_true]. }
      by rewrite E in Hin.
    - intros Hlt c d Hc Hd'. destruct (decide (c = d)) as [|Hcd]; [done|]. exfalso.
      assert (Hin : o ∈ disagreeing patterns_overlap policy i e).
      { unfold disagreeing. apply elem_selected. exists j, o. split; [done|].
        rewrite (proj2 (Nat.ltb_lt i j) Hlt). unfold overlap. rewrite Ho, Hc, Hd'. cbn [andb].
        by rewrite (proj2 (String.eqb_neq d c)) by congruence. }
      destruct (disagreeing _ _ _ _); [set_solver|done]. }
  destruct (Hone i j e o Hi Hj Hne Heo) as [H1 H2].
  destruct (Hone j i o e Hj Hi (not_eq_sym Hne) Hoe) as [H3 H4].
  destruct (pe_credential e) as [c|] eqn:Ec, (pe_credential o) as [d|] eqn:Ed; try done.
  - f_equal. assert ((i < j)%nat \/ (j < i)%nat) as [Hl|Hl] by lia; [by apply H2|symmetry; by apply H4].
  - exfalso. by apply H1.
  - exfalso. by apply H3.
Qed.

(** What an accepted table satisfies, block by block. *)
Record accepted_table : Prop := {
  at_creds : validate_credential_entries RESERVED_GUEST_ENV net = (vm_credential_entries net, []);
  at_policy : length (vm_policy_entries net) = length (arr_at net "policy");
  at_declared : Forall (selects_declared (map cr_name (vm_credential_entries net))) (vm_policy_entries net);
  at_selected : forall c, c ∈ vm_credential_entries net ->
    exists e, e ∈ vm_policy_entries net /\ pe_credential e = Some (cr_name c);
  at_internal : length (internal_hosts net) = length (arr_at net "internal");
  at_splice : length (splice_hosts net) = length (arr_at net "splice");
  at_allow : Forall (fun spec => exists e,
    parse_vm_allow ct tt (String.eqb (fst (egress_mode net)) "filtered") spec = inr e) (arr_at net "allow");
  at_credentials : check_overlap_credentials patterns_overlap (vm_policy_entries net) = [];
  at_spliced : check_spliced patterns_overlap (splice_hosts net) (vm_policy_entries net) = [];
  at_tls : vm_policy_entries net <> [] ->
    is_the_str (assoc "tls" net) "splice" = false /\ fst (egress_mode net) = "filtered" }.

Lemma policy_block splice creds policy :
  validate_policy patterns_overlap normalize_hostname net splice (fst (egress_mode net)) (assoc "tls" net) creds
    = (policy, []) ->
  policy = vm_policy_entries net /\ length policy = length (arr_at net "policy") /\
  Forall (selects_declared (map cr_name creds)) policy /\
  (forall c, c ∈ creds -> exists e, e ∈ policy /\ pe_credential e = Some (cr_name c)) /\
  check_overlap_credentials patterns_overlap policy = [] /\ check_spliced patterns_overlap splice policy = [] /\
  (policy <> [] -> is_the_str (assoc "tls" net) "splice" = false /\ fst (egress_mode net) = "filtered").
Proof.
  unfold validate_policy, vm_policy_entries, parse_policy_entries, arr_at.
  destruct (assoc "policy" net) as [[| | | |l|]|]; try discriminate.
  2: { intros H. injection H as <- H. split_and!; try done. destruct creds; [set_solver|done]. }
  set (rs := map _ l). set (unselected := concat (map _ creds)). intros H.
  assert (Hb : concat (map snd rs) = [] /\ unselected = [] /\ policy = omap fst rs /\
    (policy <> [] -> is_the_str (assoc "tls" net) "splice" = false /\ fst (egress_mode net) = "filtered") /\
    check_overlap_credentials patterns_overlap policy = [] /\ check_spliced patterns_overlap splice policy = []).
  { destruct (nonempty (omap fst rs)) eqn:En; cbn [negb] in H; injection H as <- H.
    - split_nil. split_and!; try done. intros _. split; [by destruct (is_the_str _ _)|].
      destruct (String.eqb_spec (fst (egress_mode net)) "filtered"); done.
    - split_nil. destruct (omap fst rs); [|done]. by split_and!. }
  destruct Hb as (H1 & H2 & -> & H3 & H4 & H5). unfold rs in *.
  destruct (vm_policy_items_clean _ _ H1) as (E & Hlen & Hdecl). rewrite E in *. split_and!; try done.
  unfold unselected in H2. rewrite concat_map_nil, Forall_forall in H2. intros c Hc%H2.
  match type of Hc with context [existsb ?f ?l] => destruct (existsb f l) eqn:Ex end; [|done]. apply existsb_exists in Ex as (e & He & Hx).
  rewrite E in He. exists e. split; [by apply list_elem_of_In|by apply bool_decide_eq_true in Hx].
Qed.

Lemma accepted_blocks : valid = Ok [] -> accepted_table.
Proof.
  unfold valid, validate_egress. destruct (egress_mode net) as [egress ee] eqn:Em.
  destruct (array_of net "allow" EgAllowType) as [allow ae] eqn:Ea.
  destruct (array_of net "hosts" EgHostsType) as [hosts he].
  intros (tls_errors & _ & H)%bind_Ok_inv.
  destruct (validate_host_reason_entries net "internal") as [internal e1] eqn:E1.
  destruct (validate_host_reason_entries net "splice") as [splice e2] eqn:E2.
  destruct (validate_credential_entries RESERVED_GUEST_ENV net) as [creds e3] eqn:E3.
  destruct (validate_policy _ _ _ _ _ _ _) as [policy e4] eqn:E4.
  assert (Hnil : ae = [] /\ e1 = [] /\ e2 = [] /\ e3 = [] /\ e4 = [] /\
    omap (fun r => match r with inl e => Some (EgAllow e) | inr _ => None end)
      (map (parse_vm_allow ct tt (String.eqb egress "filtered")) allow) = []).
  { destruct (has_key "bridge" net); apply Ok_inj in H; split_nil; split_and!; try done;
      by destruct e3. }
  destruct Hnil as (-> & -> & -> & -> & -> & Hallow). clear H.
  pose proof (validated_parsed_eq _ _ _ E3) as Hcreds. fold (vm_credential_entries net) in Hcreds. subst creds.
  apply hr_entries_clean in E1 as [-> L1]. apply hr_entries_clean in E2 as [-> L2].
  replace egress with (fst (egress_mode net)) in E4 by (by rewrite Em).
  apply policy_block in E4 as (-> & L3 & D & S & O & P & T).
  constructor; try done.
  rewrite Em. cbn [fst]. apply omap_nil in Hallow. rewrite Forall_map in Hallow.
  unfold array_of in Ea. unfold arr_at. destruct (assoc "allow" net) as [[| | | |l|]|]; try discriminate; [|constructor].
  injection Ea as ->. eapply Forall_impl; [exact Hallow|]. intros x Hx. cbn beta in Hx.
  destruct (parse_vm_allow _ _ _ x); [done|eauto].
Qed.

(** On a VM table the validator accepts, what the generators, the broker
    and the arm step read is what was validated: every policy, splice and internal
    item becomes an entry, the credentials are those declared, each selected by an
    entry for one exact host and each selection declared; and the allow entries of
    a filtered VM are all resolved at arm time, unless a name has no address. *)
Theorem accepted_vm_tables getaddrinfo :
  valid = Ok [] ->
  length (vm_policy_entries net) = length (arr_at net "policy") /\
  length (internal_hosts net) = length (arr_at net "internal") /\
  length (splice_hosts net) = length (arr_at net "splice") /\
  (forall e c, e ∈ vm_policy_entries net -> pe_credential e = Some c ->
     c ∈ map cr_name (vm_credential_entries net) /\ has_char "*" (pe_host e) = false) /\
  (forall c, c ∈ vm_credential_entries net ->
     exists e, e ∈ vm_policy_entries net /\ pe_credential e = Some (cr_name c)) /\
  (fst (egress_mode net) = "filtered" -> (forall h, exists l, resolve_name getaddrinfo h = Ok l) ->
     exists r, vm_allow_resolved ct tt getaddrinfo (arr_at net "allow") = Ok r).
Proof.
  intros A%accepted_blocks. split_and!; try apply A.
  - intros e c He. pose proof (at_declared A) as D. rewrite Forall_forall in D. by apply (D e He).
  - intros Hf Hres. pose proof (at_allow A) as Hal. rewrite Hf in Hal.
    change (String.eqb "filtered" "filtered") with true in Hal. unfold vm_allow_resolved.
    induction Hal as [|spec l (e & He) _ (r & IH)]; cbn [mapM_res]; [eauto|]. rewrite He.
    destruct (va_address e); cbn [mbind res_bind]; [rewrite IH; cbn; eauto|].
    edestruct Hres as [l' ->]. cbn [mbind res_bind]. rewrite IH. cbn. eauto.
Qed.

(** In an accepted table the credential attached to a request is a function
    of the host alone: all the policy entries that match a host name select the
    same one, or none; and a host with a policy entry is never spliced, so that
    the request can be read.  The overlap test of the inspector's package is
    assumed complete: patterns with a common name overlap. *)
Theorem accepted_vm_credential h e o :
  (forall p q, hostname_match h [p] = true -> hostname_match h [q] = true -> patterns_overlap p q = true) ->
  valid = Ok [] ->
  e ∈ vm_policy_entries net -> hostname_match h [pe_host e] = true ->
  (o ∈ vm_policy_entries net -> hostname_match h [pe_host o] = true -> pe_credential e = pe_credential o) /\
  (forall s, s ∈ splice_hosts net -> hostname_match h [s] = false) /\
  is_the_str (assoc "tls" net) "splice" = false /\ fst (egress_mode net) = "filtered".
Proof.
  intros Hcomplete A%accepted_blocks He Hhe. split_and!.
  - intros Ho Hho. apply list_elem_of_lookup in He as [i Hi], Ho as [j Hj].
    eapply (overlap_same_credential (vm_policy_entries net) i j); eauto. apply A.
  - intros s Hs. destruct (hostname_match h [s]) eqn:E; [|done]. exfalso.
    pose proof (at_spliced A) as Hsp. unfold check_spliced in Hsp. rewrite omap_nil, Forall_forall in Hsp.
    specialize (Hsp e He). unfold spliced_with in Hsp.
    destruct (List.find _ _) eqn:Ef; [done|]. apply list_elem_of_In in Hs.
    pose proof (find_none _ _ Ef s Hs) as Hn. by rewrite Hcomplete in Hn.
  - apply (at_tls A). intros E. rewrite E in He. set_solver.
  - apply (at_tls A). intros E. rewrite E in He. set_solver.
Qed.
End accepted.

(** Exact names only: a pattern function for which overlap is complete. *)
Definition vm_sample : table :=
  [("hosts", TArr [TStr "cdn.example"]);
   ("splice", TArr [TTab [("host", TStr "cdn.example"); ("reason", TStr "pinned")]]);
   ("credential", TArr [TTab [("name", TStr "api"); ("placeholder", TStr "PLACEHOLDER-1"); ("env", TStr "API_KEY")]]);
   ("policy", TArr [TTab [("host", TStr "api.example"); ("methods", TArr [TStr "get"]); ("paths", TArr [TStr "/v1/*"]);
                          ("credential", TStr "api")];
                    TTab [("host", TStr "api.example"); ("methods", TArr [TStr "post"]); ("paths", TArr [TStr "/v2"]);
                          ("credential", TStr "api")]]);
   ("allow", TArr [TTab [("address", TStr "192.0.2.7:5432"); ("reason", TStr "db")]])].

Lemma accepted_vm_tables_witness :
  exists r, vm_allow_resolved 80 443 (fun _ => Ok ["192.0.2.1"]) (arr_at vm_sample "allow") = Ok r.
Proof.
  destruct (accepted_vm_tables same_pattern same_match (fun s => s) ["inspect"; "splice"] 80 443 vm_sample
    (fun _ => Ok ["192.0.2.1"])) as (_ & _ & _ & _ & _ & Hr).
  - vm_compute. reflexivity.
  - apply Hr; [reflexivity|]. intros h. eexists. vm_compute. reflexivity.
Defined.

Definition sample_entry (method path : string) : policy_entry :=
  mkPolicy "api.example" (Some [method]) (Some [path]) (Some "api").

Lemma accepted_vm_credential_witness :
  pe_credential (sample_entry "POST" "/v2") = pe_credential (sample_entry "GET" "/v1/*") /\
  same_match "api.example" ["cdn.example"] = false.
Proof.
  destruct (accepted_vm_credential same_pattern same_match (fun s => s) ["inspect"; "splice"] 80 443 vm_sample
    "api.example" (sample_entry "POST" "/v2") (sample_entry "GET" "/v1/*")) as (Hc & Hs & _).
  - intros p q Hp Hq. unfold same_match, same_pattern in *. cbn [existsb] in *. rewrite orb_false_r in *.
    apply String.eqb_eq in Hp, Hq. subst. apply String.eqb_refl.
  - vm_compute. reflexivity.
  - apply list_elem_of_In. vm_compute. tauto.
  - reflexivity.
  - split; [apply Hc; [apply list_elem_of_In; vm_compute; tauto|reflexivity]|].
    apply Hs, list_elem_of_In. vm_compute. tauto.
Defined.
