(* ===== verification/VmValidate.v ===== *)
(** * Validation of a VM: [lib/vm_validate.py] and the parsers of [lib/vm_defs.py],
    and the whole of [validate_workload_config] of [lib/validation.py]

    Memory sizes and port specifications, the checks of [vm] and [vm.network],
    their warnings, and the top-level validator with both of its branches.

    The theorems: a port specification is read back as it was written, and no
    port of an accepted VM binds an address of this design. *)
From S2P Require Import Prelude PyStr PyRe Toml Ipaddr WorkloadAddr WorkloadNames WorkloadConfig SecretsTemplate.
From S2P Require Import CredentialEntries NetworkConfig ContainerValidate Seccomp Validation VmEgressValidate.
Local Open Scope Z_scope.

(** ** Memory *)

(** [s[:-1]] and [s[-1]] of a nonempty string. *)
Definition but_last (s : string) : string := str_take (String.length s - 1) s.
Definition last_char (s : string) : string := str_drop (String.length s - 1) s.

Definition parse_memory_mib (value : tv) : res Z :=
  match as_int value with
  | Some n => Ok n
  | None =>
      let s := strip (py_str value) in
      if String.eqb s "" then Raise ValueError
      else
        let suffix := upper (last_char s) in
        if isdigit suffix then int_res s
        else
          n ← int_res (but_last s);
          if String.eqb suffix "M" then Ok n
          else if String.eqb suffix "G" then Ok (n * 1024)
          else if String.eqb suffix "K" then Ok (Z.max 1 (n / 1024))
          else Raise ValueError
  end.

(** ** Ports *)

(** [(?P<host>\d+)(?::(?P<guest>\d+))?(?:/(?P<proto>tcp|udp))?$] on a stripped text. *)
Definition match_ports (s : string) : option (string * option string * option string) :=
  let '(body, proto) := match cut "/" s with
                        | Some (b, p) => (b, Some p)
                        | None => (s, None)
                        end in
  let ok_proto := match proto with Some p => String.eqb p "tcp" || String.eqb p "udp" | None => true end in
  if negb ok_proto then None
  else match cut ":" body with
       | Some (host, guest) =>
           if all_digits host && all_digits guest then Some (host, Some guest, proto) else None
       | None => if all_digits body then Some (body, None, proto) else None
       end.

(** The address group of [PORT_RE], brackets included, and what follows its colon. *)
Definition match_bind (s : string) : option (string * string) :=
  match s with
  | String c rest =>
      if Ascii.eqb c "[" then
        match span is_hex_colon rest with
        | (v6, String d1 (String d2 r)) =>
            if negb (String.eqb v6 "") && Ascii.eqb d1 "]" && Ascii.eqb d2 ":" then Some ("[" +:+ v6 +:+ "]", r) else None
        | _ => None
        end
      else
        match cut ":" s with
        | Some (v4, r) =>
            match split_on "." v4 with
            | [a; b; c; d] => if octet_shape a && octet_shape b && octet_shape c && octet_shape d
                              then Some (v4, r) else None
            | _ => None
            end
        | None => None
        end
  | EmptyString => None
  end.

Definition match_port_spec (s : string) : option (option string * string * option string * option string) :=
  match match_bind s with
  | Some (a, r) => '(h, g, p) ← match_ports r; Some (Some a, h, g, p)
  | None => '(h, g, p) ← match_ports s; Some (None, h, g, p)
  end.

Definition is_bracket (c : ascii) : bool := Ascii.eqb c "[" || Ascii.eqb c "]".

Definition parse_vm_port (spec : string) : res (option string * Z * Z * string) :=
  match match_port_spec (strip spec) with
  | None => Raise ValueError
  | Some (addr, h, g, p) =>
      let host := int_of h in
      let guest := match g with Some g => int_of g | None => host end in
      if negb ((1 <=? host) && (host <=? 65535)) || negb ((1 <=? guest) && (guest <=? 65535)) then Raise ValueError
      else
        let proto := match p with Some p => p | None => "tcp" end in
        match addr with
        | None => Ok (None, host, guest, proto)
        | Some a =>
            let a := strip_by is_bracket a in
            match ip_address a with
            | Some _ => Ok (Some a, host, guest, proto)
            | None => Raise ValueError
            end
        end
  end.

(** ** [vm.network] *)

Inductive vm_error :=
  | VmNetNotTable | VmBridgeType | VmBridgeName
  | VmPortsType | VmPortType | VmPortSpec (spec : string) | VmPortReserved (spec : string) | VmPortsBridged
  | VmBrokerRemoved
  | VmOutboundType | VmOutboundName | VmOutboundBridged
  | VmResolver | VmEgress (e : eg_error) | VmRemoved (key : string)
  | VmAndContainer | VmNoSource | VmManySources | VmNoChecksum | VmChecksumForm
  | VmMemoryLow (mib : Z) | VmMemoryForm | VmVcpus | VmRollback | VmRestart
  | VmCloudInit | VmUserData | VmSeedType | VmSeedRetired (entry : string) | VmSeedUnknown (entries : list string)
  | VmTemplateVars | VmTemplateVar (key : string)
  | VmDiskSize (key : string) | VmBalloon
  | VmVolumesType | VmVolumeType | VmVolumePaths (spec : string)
  | VmMountsType | VmMountType | VmMountPath (p : string) | VmSubmounts.

Definition is_iface_char (c : ascii) : bool := is_alnum c || Ascii.eqb c "_" || Ascii.eqb c "-".

Definition iface_ok (p : ascii -> bool) (s : string) : bool :=
  match_anchored (re_plus p) s && Nat.leb (String.length s) 15.

Definition check_bridge (net : table) : list vm_error :=
  match assoc "bridge" net with
  | None => []
  | Some (TStr s) => if String.eqb s "" then [VmBridgeType]
                     else if negb (iface_ok is_iface_char s) then [VmBridgeName] else []
  | Some _ => [VmBridgeType]
  end.

Definition check_port (spec : tv) : list vm_error :=
  match spec with
  | TStr s =>
      match parse_vm_port s with
      | Raise _ => [VmPortSpec s]
      | Ok (bind_addr, host_port, _, _) =>
          match bind_addr with
          | Some a => if String.eqb a "" then []
                      else match reserved_range a (Some host_port) with Some _ => [VmPortReserved s] | None => [] end
          | None => []
          end
      end
  | _ => [VmPortType]
  end.

Definition check_ports (net : table) : list vm_error :=
  let ports := match assoc "ports" net with Some v => v | None => TArr [] end in
  match ports with TArr l => concat (map check_port l) | _ => [VmPortsType] end ++
  (if truthy ports && has_key "bridge" net then [VmPortsBridged] else []).

Definition check_outbound (net : table) : list vm_error :=
  match assoc "outbound_if" net with
  | None => []
  | Some (TStr s) =>
      if String.eqb s "" then [VmOutboundType]
      else if negb (iface_ok (fun c => is_iface_char c || Ascii.eqb c ".") s) then [VmOutboundName]
      else if has_key "bridge" net then [VmOutboundBridged] else []
  | Some _ => [VmOutboundType]
  end.

Section validate.
Variable patterns_overlap : string -> string -> bool.
Variable hostname_match : string -> list string -> bool.
Variable normalize_hostname : string -> string.
Variable tls_modes : list string.
Variables cleartext_port tls_port : Z.

Definition validate_vm_network (net : tv) : res (list vm_error) :=
  match net with
  | TTab net =>
      egress ← validate_egress patterns_overlap hostname_match normalize_hostname tls_modes cleartext_port tls_port net;
      Ok (check_bridge net ++ check_ports net ++
          (if has_key "broker" net then [VmBrokerRemoved] else []) ++ check_outbound net ++
          match assoc "resolver" net with
          | None => []
          | Some (TStr s) => if bool_decide (s ∈ ["host"; "none"]) then [] else [VmResolver]
          | Some _ => [VmResolver]
          end ++ map VmEgress egress ++
          map VmRemoved (List.filter (fun k => has_key k net) ["subnet"; "dns"]))
  | _ => Ok [VmNetNotTable]
  end.

(** ** [vm] *)

Definition check_sources (vm : table) : list vm_error :=
  match List.filter (truthy_at vm) ["image"; "cloud_image_url"; "local_image"] with
  | [] => [VmNoSource]
  | [_] => []
  | _ => [VmManySources]
  end ++ (if truthy_at vm "cloud_image_url" && negb (truthy_at vm "cloud_image_checksum") then [VmNoChecksum] else []).

Definition check_checksum (vm : table) : res (list vm_error) :=
  match assoc "cloud_image_checksum" vm with
  | None => Ok []
  | Some v => if negb (truthy v) then Ok []
              else match v with
                   | TStr s => Ok (if starts_with "sha256:" s then [] else [VmChecksumForm])
                   | _ => Raise AttributeError
                   end
  end.

Definition check_memory (vm : table) : list vm_error :=
  match assoc "memory" vm with
  | None => []
  | Some v => if negb (truthy v) then []
              else match parse_memory_mib v with
                   | Ok m => if m <? 256 then [VmMemoryLow m] else []
                   | Raise _ => [VmMemoryForm]
                   end
  end.

Definition check_positive (vm : table) (k : string) (e : vm_error) : list vm_error :=
  match assoc k vm with
  | None => []
  | Some v => match as_int v with Some n => if n <? 1 then [e] else [] | None => [e] end
  end.

Definition SEED_PROVIDES_CHOICES : list string := ["ca"; "mounts"; "home_context"].
Definition SEED_PROVIDES_RETIRED : list string := ["proxy"].

Definition check_seed (ci : table) : list vm_error :=
  match assoc "seed_provides" ci with
  | None => []
  | Some (TArr l) =>
      if negb (forallb is_str l) then [VmSeedType]
      else
        let sp := py_sorted (remove_dups (omap as_str l)) in
        map VmSeedRetired (filter (fun x => x ∈ SEED_PROVIDES_RETIRED) sp) ++
        match filter (fun x => x ∉ SEED_PROVIDES_CHOICES /\ x ∉ SEED_PROVIDES_RETIRED) sp with
        | [] => []
        | unknown => [VmSeedUnknown unknown]
        end
  | Some _ => [VmSeedType]
  end.

(** [isinstance(v, (str, int, float, bool))]. *)
Definition is_scalar (v : tv) : bool :=
  match v with
  | TStr _ | TInt _ | TBool _ => true
  | TOther n _ _ _ => String.eqb n "float"
  | _ => false
  end.

Definition check_cloud_init (vm : table) : list vm_error :=
  match assoc "cloud_init" vm with
  | None => []
  | Some v =>
      if negb (truthy v) then []
      else match v with
           | TTab ci =>
               match assoc "user_data_file" ci with
               | None | Some (TStr _) => []
               | Some _ => [VmUserData]
               end ++ check_seed ci ++
               match assoc "template_vars" ci with
               | None => []
               | Some (TTab t) => omap (fun '(k, v) => if is_scalar v then None else Some (VmTemplateVar k)) t
               | Some _ => [VmTemplateVars]
               end
           | _ => [VmCloudInit]
           end
  end.

(** [\d+(\.\d+)?[KkMmGgTtPp]i?B?] over a whole string. *)
Definition is_unit (c : ascii) : bool :=
  existsb (Ascii.eqb c) ["K"; "k"; "M"; "m"; "G"; "g"; "T"; "t"; "P"; "p"]%char.

Definition size_tail (s : string) : bool :=
  match s with
  | String c r => is_unit c && (String.eqb r "" || String.eqb r "i" || String.eqb r "B" || String.eqb r "iB")
  | EmptyString => false
  end.

Definition disk_size (s : string) : bool :=
  match span is_dec s with
  | (EmptyString, _) => false
  | (_, String c r) =>
      if Ascii.eqb c "." then
        match span is_dec r with
        | (EmptyString, _) => false
        | (_, r) => size_tail r
        end
      else size_tail (String c r)
  | _ => false
  end.

Definition check_disk (vm : table) (k : string) : list vm_error :=
  match assoc k vm with
  | None => []
  | Some (TStr s) => if match_anchored disk_size s then [] else [VmDiskSize k]
  | Some _ => [VmDiskSize k]
  end.

Definition check_bool (vm : table) (k : string) (e : vm_error) : list vm_error :=
  match assoc k vm with None | Some (TBool _) => [] | Some _ => [e] end.

Definition check_volume (v : tv) : list vm_error :=
  match v with
  | TStr s => let '(host, guest, _) := parse_volume_spec s in
              if String.eqb host "" || String.eqb guest "" then [VmVolumePaths s] else []
  | _ => [VmVolumeType]
  end.

Definition check_mount (v : tv) : list vm_error :=
  match v with
  | TStr p =>
      if String.eqb p "" then [VmMountType]
      else if starts_with "/" p || starts_with "./" p || starts_with "@/" p
              || bool_decide (hd "" (split_max "/" 1 p) ∈ ["data"; "state"]) then []
      else [VmMountPath p]
  | _ => [VmMountType]
  end.

Definition check_array (vm : table) (k : string) (check : tv -> list vm_error) (e : vm_error) : list vm_error :=
  match assoc k vm with
  | None => []
  | Some (TArr l) => concat (map check l)
  | Some _ => [e]
  end.

Definition validate_vm_config (config : table) : res (list vm_error) :=
  v ← get_or (TTab config) "vm" (TTab []);
  vm ← items v;
  checksum ← check_checksum vm;
  network ← validate_vm_network (match assoc "network" vm with Some n => n | None => TTab [] end);
  Ok ((if has_key "container" config || has_key "containers" config then [VmAndContainer] else []) ++
      check_sources vm ++ checksum ++ check_memory vm ++
      check_positive vm "vcpus" VmVcpus ++ check_positive vm "rollback_keep" VmRollback ++
      match assoc "restart" vm with
      | None => []
      | Some (TStr s) => if bool_decide (s ∈ ["always"; "on-failure"; "on-reboot"]) then [] else [VmRestart]
      | Some _ => [VmRestart]
      end ++ network ++ check_cloud_init vm ++
      check_disk vm "system_disk_size" ++ check_disk vm "data_disk_size" ++ check_bool vm "balloon" VmBalloon ++
      check_array vm "volumes" check_volume VmVolumesType ++ check_array vm "after_mounts" check_mount VmMountsType ++
      check_bool vm "announce_submounts" VmSubmounts).

(** ** The whole validator *)

Inductive workload_error :=
  | WeWalk (e : config_error) | WeVm (e : vm_error) | WeSeccomp (e : seccomp_error) | WeContainer (e : config_error).

(** A VM's configuration without [vm.cloud_init.template_vars]. *)
Definition vm_scannable (config : table) : res table :=
  v ← get_or (TTab config) "vm" (TTab []);
  ci ← get v "cloud_init";
  match ci, v with
  | Some (TTab ci), TTab vm =>
      if has_key "template_vars" ci
      then Ok (assoc_set "vm" (TTab (assoc_set "cloud_init" (TTab (assoc_del "template_vars" ci)) vm)) config)
      else Ok config
  | _, _ => Ok config
  end.

Definition validate_workload_config (config : table) : res (list workload_error) :=
  match infer_workload_kind config with
  | KVm =>
      scan ← vm_scannable config;
      vm ← validate_vm_config config;
      seccomp ← validate_seccomp_allow config KVm;
      Ok (map WeWalk (reject_control_chars (TTab scan) ++ reject_bad_workload_tokens (TTab scan)) ++
          map WeVm vm ++ map WeSeccomp seccomp)
  | KContainer =>
      errors ← validate_container_config patterns_overlap hostname_match config; Ok (map WeContainer errors)
  end.
End validate.

(** ** Ports *)

Lemma all_digits_no_char c s : all_digits s = true -> is_dec c = false -> has_char c s = false.
Proof. intros [_ H]%andb_prop Hc. by apply (all_chars_no_char is_dec). Qed.

Lemma match_ports_full h g p :
  all_digits h = true -> all_digits g = true -> p = "tcp" \/ p = "udp" ->
  match_ports (h +:+ ":" +:+ g +:+ "/" +:+ p) = Some (h, Some g, Some p).
Proof.
  intros Hh Hg Hp. unfold match_ports.
  replace (h +:+ ":" +:+ g +:+ "/" +:+ p) with ((h +:+ String ":" g) +:+ String "/" p)
    by (rewrite app_assoc_str; reflexivity).
  rewrite cut_app.
  2: { change (String ":" g) with (":" +:+ g). rewrite !has_char_app.
       by rewrite (all_digits_no_char _ h), (all_digits_no_char _ g). }
  assert (String.eqb p "tcp" || String.eqb p "udp" = true) as -> by (by destruct Hp as [->| ->]).
  cbn [negb]. rewrite cut_app by (by apply all_digits_no_char). by rewrite Hh, Hg.
Qed.

Lemma match_bind_v4 n rest : match_bind (v4_str n +:+ ":" +:+ rest) = Some (v4_str n, rest).
Proof.
  unfold match_bind. destruct (v4_str_head n) as (c & r & Hv & Hc).
  assert (Hcut : cut ":" (v4_str n +:+ ":" +:+ rest) = Some (v4_str n, rest)).
  { change (":" +:+ rest) with (String ":" rest). apply cut_app. by apply v4_str_chars. }
  assert (Hs : split_on "." (v4_str n)
    = [str_Z (octet n 3); str_Z (octet n 2); str_Z (octet n 1); str_Z (octet n 0)]).
  { unfold v4_str. change "."%string with (chr ".").
    rewrite split_on_join; [done|done|repeat constructor; apply str_Z_no_dot, octet_bound]. }
  rewrite Hv in *. change (String c r +:+ ":" +:+ rest) with (String c (r +:+ ":" +:+ rest)) in *.
  cbv beta iota. rewrite Hc, Hcut, Hs.
  assert (Ho : forall i, octet_shape (str_Z (octet n i)) = true)
    by (intros i; apply octet_shape_str; pose proof (octet_bound n i); lia).
  by rewrite !Ho.
Qed.

Lemma parse_vm_port_full n h g p :
  0 <= n < 2 ^ 32 -> 1 <= h <= 65535 -> 1 <= g <= 65535 -> p = "tcp" \/ p = "udp" ->
  parse_vm_port (v4_str n +:+ ":" +:+ str_Z h +:+ ":" +:+ str_Z g +:+ "/" +:+ p) = Ok (Some (v4_str n), h, g, p).
Proof.
  intros Hn Hh Hg Hp. unfold parse_vm_port. set (spec := v4_str n +:+ _).
  assert (Hs : strip spec = spec).
  { apply strip_by_id. unfold spec, v4_str. cbn [join]. rewrite !all_chars_app.
    rewrite !no_space_str_Z by (apply octet_bound || lia). by destruct Hp as [->| ->]. }
  rewrite Hs. unfold match_port_spec, spec. rewrite match_bind_v4.
  rewrite match_ports_full by (done || apply str_Z_digits; lia). cbn [mbind option_bind].
  unfold int_of. rewrite !py_int_str_Z by lia.
  replace (negb _ || negb _) with false by lia.
  assert (strip_by is_bracket (v4_str n) = v4_str n) as ->.
  { apply strip_by_id. assert (Ho : forall i, all_chars (fun c => negb (is_bracket c)) (str_Z (octet n i)) = true).
    { intros i. apply (all_chars_impl is_dec); [|apply all_digits_str_Z, octet_bound].
      intros c Hc. destruct (is_bracket c) eqn:E; [|done]. unfold is_bracket in E.
      apply orb_prop in E as [->%Ascii.eqb_eq| ->%Ascii.eqb_eq]; done. }
    unfold v4_str. cbn [join]. by rewrite !all_chars_app, !Ho. }
  by rewrite ip_address_v4_str.
Qed.

Lemma match_ports_proto s h g p : match_ports s = Some (h, g, Some p) -> p = "tcp" \/ p = "udp".
Proof.
  unfold match_ports. destruct (cut "/" s) as [[b q]|]; cbn;
    [destruct (String.eqb q "tcp") eqn:E1; [|destruct (String.eqb q "udp") eqn:E2; [|done]]|];
    cbn; repeat case_match; intros Hm; simplify_eq; rewrite ?String.eqb_eq in *; auto.
Qed.

Lemma match_port_spec_proto s a h g p : match_port_spec s = Some (a, h, g, Some p) -> p = "tcp" \/ p = "udp".
Proof.
  unfold match_port_spec. destruct (match_bind s) as [[b r]|];
    [destruct (match_ports r) as [[[h' g'] p']|] eqn:E|destruct (match_ports s) as [[[h' g'] p']|] eqn:E];
    cbn; intros H; simplify_eq; by apply match_ports_proto in E.
Qed.

Lemma parse_vm_port_inv spec a h g p :
  parse_vm_port spec = Ok (a, h, g, p) ->
  1 <= h <= 65535 /\ 1 <= g <= 65535 /\ (p = "tcp" \/ p = "udp") /\ (forall s, a = Some s -> ip_address s <> None).
Proof.
  unfold parse_vm_port. destruct (match_port_spec _) as [[[[a' h'] g'] p']|] eqn:E; [|done].
  destruct (negb _ || negb _) eqn:B; [done|]. apply orb_false_elim in B as [B1 B2].
  assert (Hp : let q := match p' with Some q => q | None => "tcp" end in q = "tcp" \/ q = "udp").
  { destruct p'; [by apply match_port_spec_proto in E|by left]. }
  cbn zeta in Hp. destruct a' as [a'|]; [destruct (ip_address _) eqn:Ea; [|done]|]; intros H%Ok_inj;
    injection H as <- <- <- <-; repeat split; try lia; try done; intros s Hs; simplify_eq; congruence.
Qed.

(** A port specification with an IPv4 bind address, two ports and a
    protocol is read back as it was written, and whatever is accepted has ports
    between 1 and 65535, a protocol passt knows and a bind address that is one. *)
Theorem parse_vm_port_roundtrip n h g p :
  0 <= n < 2 ^ 32 -> 1 <= h <= 65535 -> 1 <= g <= 65535 -> p = "tcp" \/ p = "udp" ->
  parse_vm_port (v4_str n +:+ ":" +:+ str_Z h +:+ ":" +:+ str_Z g +:+ "/" +:+ p) = Ok (Some (v4_str n), h, g, p) /\
  forall spec a h' g' p', parse_vm_port spec = Ok (a, h', g', p') ->
    1 <= h' <= 65535 /\ 1 <= g' <= 65535 /\ (p' = "tcp" \/ p' = "udp") /\
    (forall s, a = Some s -> ip_address s <> None).
Proof. intros. split; [by apply parse_vm_port_full|apply parse_vm_port_inv]. Qed.

Lemma parse_vm_port_roundtrip_witness :
  parse_vm_port "127.0.0.1:8080:80/udp" = Ok (Some "127.0.0.1", 8080, 80, "udp") /\
  forall spec a h' g' p', parse_vm_port spec = Ok (a, h', g', p') ->
    1 <= h' <= 65535 /\ 1 <= g' <= 65535 /\ (p' = "tcp" \/ p' = "udp") /\
    (forall s, a = Some s -> ip_address s <> None).
Proof. apply (parse_vm_port_roundtrip 2130706433 8080 80 "udp"); try lia. by right. Defined.

(** A bind address outside the reserved ranges is no address of the design. *)
Lemma unreserved_not_derived a port ip k uid :
  reserved_range a port = None -> ip_address a = Some ip -> UID_MIN <= uid <= UID_MAX -> ip <> kind_ip k uid.
Proof.
  unfold reserved_range. intros H E Hu ->. rewrite E in H.
  pose proof (find_none _ _ H _ (kind_range_In k)) as F. unfold range_covers in F.
  rewrite kind_range_network, (kind_ip_in_network k uid Hu) in F. by destruct k.
Qed.

Lemma check_port_nil spec :
  check_port spec = [] ->
  exists s a h g p, spec = TStr s /\ parse_vm_port s = Ok (a, h, g, p) /\
    forall b ip, a = Some b -> ip_address b = Some ip ->
    forall k uid, UID_MIN <= uid <= UID_MAX -> ip <> kind_ip k uid.
Proof.
  destruct spec as [s| | | | |]; try done. cbn. destruct (parse_vm_port s) as [[[[a h] g] p]|] eqn:E; [|done].
  intros H. exists s, a, h, g, p. split; [done|]. split; [done|]. intros b ip -> Hip k uid Hu.
  destruct (String.eqb b "") eqn:Eb.
  - apply String.eqb_eq in Eb as ->. by vm_compute in Hip.
  - destruct (reserved_range b (Some h)) eqn:R; [done|]. by eapply unreserved_not_derived.
Qed.

(** ** An accepted VM *)

Section accepted.
Variable patterns_overlap : string -> string -> bool.
Variable hostname_match : string -> list string -> bool.
Variable normalize_hostname : string -> string.
Variable tls_modes : list string.
Variables ct tt : Z.
Variable config : table.

Local Abbreviation valid :=
  (validate_workload_config patterns_overlap hostname_match normalize_hostname tls_modes ct tt config).
Local Abbreviation egress net :=
  (validate_egress patterns_overlap hostname_match normalize_hostname tls_modes ct tt net).

Lemma accepted_network net :
  validate_vm_network patterns_overlap hostname_match normalize_hostname tls_modes ct tt net = Ok [] ->
  exists t, net = TTab t /\ check_ports t = [] /\ egress t = Ok [].
Proof.
  destruct net as [| | | | |t]; try done. cbn [validate_vm_network]. intros H. inv_ok.
  repeat match goal with E : _ ++ _ = [] |- _ => apply app_eq_nil in E as [? ?] end.
  exists t. split_and!; try done.
  match goal with E : map VmEgress ?l = [] |- _ => apply map_eq_nil in E; by subst end.
Qed.

Lemma accepted_vm_blocks vm :
  assoc "vm" config = Some (TTab vm) -> valid = Ok [] ->
  check_sources vm = [] /\ check_memory vm = [] /\
  (exists net, match assoc "network" vm with Some n => n | None => TTab [] end = TTab net /\
     check_ports net = [] /\ egress net = Ok []) /\
  has_key "container" config = false /\ has_key "containers" config = false /\
  exists scan, vm_scannable config = Ok scan /\ reject_control_chars (TTab scan) = [].
Proof.
  intros Hvm. unfold validate_workload_config, infer_workload_kind, has_key at 1. rewrite Hvm.
  intros H. inv_ok. apply app_eq_nil in H as [Hw Hv]. apply app_eq_nil in Hv as [Hv _].
  apply map_eq_nil in Hw, Hv. apply app_eq_nil in Hw as [Hw _]. subst.
  unfold validate_vm_config, get_or in H1. rewrite Hvm in H1. cbn [items] in H1. inv_ok.
  repeat match goal with E : _ ++ _ = [] |- _ => apply app_eq_nil in E as [? ?] end.
  match goal with E : (if ?b then [VmAndContainer] else []) = [] |- _ =>
    destruct b eqn:Eb; [discriminate E|]; apply orb_false_elim in Eb as [? ?] end.
  match goal with E : items _ = Ok _ |- _ => injection E as <- end.
  subst. split_and!; try done; [|eauto].
  match goal with E : validate_vm_network _ _ _ _ _ _ _ = _ |- _ => by apply accepted_network in E end.
Qed.

(** C33.  An accepted VM has exactly one image source that is not empty; its memory, 2048 if
    none is given, parses to at least 256 MiB unless it is falsy (the empty string and
    zero pass the check: see [empty_memory_is_accepted]); its network table's egress part
    is accepted; each of its ports is a string that parses, and the address a port names,
    if it names one, is none this design derives for a workload; a bridged VM publishes no
    port; and no string value of its configuration outside
    [vm.cloud_init.template_vars], keys apart, holds a line feed. *)
Theorem accepted_vm vm :
  assoc "vm" config = Some (TTab vm) -> valid = Ok [] ->
  (exists k, List.filter (truthy_at vm) ["image"; "cloud_image_url"; "local_image"] = [k]) /\
  (truthy (default (TInt 2048) (assoc "memory" vm)) = true ->
     exists m, parse_memory_mib (default (TInt 2048) (assoc "memory" vm)) = Ok m /\ 256 <= m) /\
  (exists net, match assoc "network" vm with Some n => n | None => TTab [] end = TTab net /\
     egress net = Ok [] /\
     (forall spec, In spec (arr_at net "ports") ->
        exists s a h g p, spec = TStr s /\ parse_vm_port s = Ok (a, h, g, p) /\
          forall b ip, a = Some b -> ip_address b = Some ip ->
          forall k uid, UID_MIN <= uid <= UID_MAX -> ip <> kind_ip k uid) /\
     (has_key "bridge" net = true -> arr_at net "ports" = [])) /\
  exists scan, vm_scannable config = Ok scan /\
    forall s, s ∈ strings_of (TTab scan) -> has_char LF s = false.
Proof.
  intros Hvm Hok. destruct (accepted_vm_blocks vm Hvm Hok) as (Hs & Hm & (net & Hn & Hp & He) & _ & _ & scan & Hc & Hw).
  split_and!.
  - unfold check_sources in Hs. apply app_eq_nil in Hs as [Hs _].
    destruct (List.filter _ _) as [|k [|]]; [done|eauto|done].
  - unfold check_memory in Hm. destruct (assoc "memory" vm) as [v|]; cbn [default]; intros Ht; [|by exists 2048].
    unfold id in *. rewrite Ht in Hm. cbn [negb] in Hm. destruct (parse_memory_mib v) as [m|]; [|done]. exists m. split; [done|]. destruct (m <? 256) eqn:E; [done|lia].
  - exists net. split; [done|]. split; [done|]. unfold check_ports in Hp. apply app_eq_nil in Hp as [Hp Hb].
    unfold arr_at. destruct (assoc "ports" net) as [[| | | |l|]|]; try done.
    split.
    + intros spec Hin. apply check_port_nil. rewrite concat_map_nil, List.Forall_forall in Hp. by apply Hp.
    + intros Hbr. rewrite Hbr in Hb. destruct l; done.
  - exists scan. split; [done|]. intros s Hin. by eapply control_free_no_lf.
Qed.
End accepted.

Definition sample_vm : table :=
  [("vm", TTab [("image", TStr "quay.io/a/b"); ("memory", TStr "4G");
                ("network", TTab (("ports", TArr [TStr "127.0.0.1:8080:80"]) :: vm_sample))])].

Definition tab_of (v : option tv) : table := match v with Some (TTab t) => t | _ => [] end.

Definition sample_valid (config : table) : res (list workload_error) :=
  validate_workload_config same_pattern same_match (fun s => s) ["inspect"; "splice"] 80 443 config.

Lemma accepted_vm_witness :
  sample_valid sample_vm = Ok [] /\
  (exists k, List.filter (truthy_at (tab_of (assoc "vm" sample_vm))) ["image"; "cloud_image_url"; "local_image"] = [k]) /\
  (exists m, parse_memory_mib (TStr "4G") = Ok m /\ 256 <= m) /\
  (exists a h g p, parse_vm_port "127.0.0.1:8080:80" = Ok (a, h, g, p) /\
     forall b ip, a = Some b -> ip_address b = Some ip -> forall k uid, UID_MIN <= uid <= UID_MAX -> ip <> kind_ip k uid) /\
  forall s, s ∈ strings_of (TTab sample_vm) -> has_char LF s = false.
Proof.
  assert (Hok : sample_valid sample_vm = Ok []) by (vm_compute; reflexivity).
  destruct (accepted_vm same_pattern same_match (fun s => s) ["inspect"; "splice"] 80 443 sample_vm (tab_of (assoc "vm" sample_vm)) eq_refl Hok)
    as (Hi & Hm & (net & Hn & _ & Hp & _) & scan & Hs & Hl).
  split_and!; [exact Hok|exact Hi|by apply Hm| |].
  - injection Hn as <-. destruct (Hp (TStr "127.0.0.1:8080:80")) as (s & a & h & g & p & E & H); [by left|]. injection E as <-. by exists a, h, g, p.
  - assert (Ok scan = Ok sample_vm) as [= ->]; [|exact Hl]. rewrite <- Hs. vm_compute. reflexivity.
Defined.

(** An empty memory is accepted, and no unit can be generated from it. *)
Theorem empty_memory_is_accepted :
  let vm memory := [("vm", TTab [("image", TStr "quay.io/a/b"); ("memory", memory); ("network", TTab vm_sample)])] in
  sample_valid (vm (TStr "")) = Ok [] /\ parse_memory_mib (TStr "") = Raise ValueError /\
  sample_valid (vm (TInt 0)) = Ok [] /\ parse_memory_mib (TInt 0) = Ok 0.
Proof. split_and!; vm_compute; reflexivity. Qed.
