(* ===== verification/VmDisk.v ===== *)
(** * VM disks: [lib/vm_disk_generations.py], [lib/vm_disk_build.py],
    [lib/vm_image_fetch.py] and the rollback of [lib/substrate_vm.py]

    An update renames the live system disk to a numbered generation, builds a new
    one and puts the old one back when the build fails; a rollback swaps a
    generation in; cloud images go through a cache of verified downloads.

    The host is behind the interface [DiskHost], with [DiskLaws] saying what
    renames, removals and the tools promise; every operation may fail at any time.
    [files] are the files of the workload's state directory by name, [cache] those
    of its image cache. *)
From stdpp Require Import sorting.
From S2P Require Import Prelude PyStr PyPath Toml WorkloadNames WorkloadConfig.
Local Open Scope Z_scope.

Create HintDb disk.

(** ** Generations *)

Definition SYSTEM_DISK : string := "system.qcow2".
Definition GEN_PREFIX : string := "system.qcow2.gen-".
Definition gen_name (n : Z) : string := GEN_PREFIX +:+ str_Z n.

(** [Path(name).suffix]. *)
Definition path_suffix (name : string) : string :=
  match rev (split_on "." name) with
  | last :: (_ :: _) as init =>
      if String.eqb last "" || String.eqb (join "." (rev (tail init))) "" then "" else "." +:+ last
  | _ => ""
  end.

(** The number of a file of [glob("system.qcow2.gen-*")], when its suffix has one. *)
Definition gen_number (name : string) : res (option Z) :=
  if starts_with GEN_PREFIX name then
    let s := str_drop 5 (path_suffix name) in
    if isdigit s then n ← int_res s; Ok (Some n) else Ok None
  else Ok None.

Definition generation_numbers (exclude : option Z) (names : list string) : res (list Z) :=
  ns ← mapM_res gen_number names;
  Ok (merge_sort Z.le (filter (fun n => Some n <> exclude) (omap (fun x => x) ns))).

(** [l[:n]]. *)
Definition list_slice_to {A} (n : Z) (l : list A) : list A :=
  if n <? 0 then take (length l - Z.to_nat (- n)) l else take (Z.to_nat n) l.

(** [(max(gens) + 1) if gens else 1], of a sorted list. *)
Definition next_generation (gens : list Z) : Z :=
  match gens with [] => 1 | n :: l => foldl Z.max n l + 1 end.

Definition names_of (fs : gmap string string) : list string := map fst (map_to_list fs).

(** ** The host *)

(** The response of a URL: what is read before the end or the error. *)
Record response := mkResponse { rs_chunks : list string; rs_error : option exn }.

Class DiskHost (W : Type) := {
  files : W -> gmap string string;
  cache : W -> gmap string string;
  path_exists : string -> W -> bool;
  which : string -> W -> bool;
  glob_qcow2 : string -> W -> list string;
  mkdir : string -> io W unit;
  rename : string -> string -> io W unit;
  unlink : string -> io W unit;
  run : list string -> io W Z;
  run_output : list string -> io W string;
  copy2 : string -> string -> io W unit;
  chown : string -> string -> io W unit;
  cache_exists : string -> W -> bool;
  cache_read : string -> io W string;
  cache_unlink : string -> io W unit;
  cache_rename : string -> string -> io W unit;
  cache_write : string -> string -> io W unit;
  cache_temp : io W string;
  urlopen : string -> io W response
}.

Section disk.
Context {W : Type} `{DiskHost W}.
Variable sha256 : string -> string.
Variable json_loads : string -> res tv.
Variable load_workload_config : string -> res table.

Definition look {A} (f : W -> A) : io W A := fun w => (w, Ok (f w)).

(** [subprocess.run(cmd, check=True)]. *)
Definition run_checked (cmd : list string) : io W unit :=
  code ← run cmd; if code =? 0 then mret tt else pure (Raise CalledProcessError).

(** ** Rotation *)

(** [len(all_gens) > keep] raises when [keep] is no number, after the rename; no
    other number than an integer is a validated [keep]. *)
Definition to_prune (keep : tv) (all_gens : list Z) : res (list Z) :=
  match as_int keep with
  | Some k => Ok (if k <? Z.of_nat (length all_gens) then list_slice_to (- k) all_gens else [])
  | None => Raise TypeError
  end.

Definition rotate_generations (keep : tv) : io W (option string) :=
  fs ← look files;
  match fs !! SYSTEM_DISK with
  | None => mret None
  | Some _ =>
      gens ← pure (generation_numbers None (names_of fs));
      let next_gen := next_generation gens in
      _ ← rename SYSTEM_DISK (gen_name next_gen);
      fs ← look files;
      all_gens ← pure (generation_numbers (Some next_gen) (names_of fs));
      old ← pure (to_prune keep all_gens);
      _ ← for_io (fun n => unlink (gen_name n)) old;
      mret (Some (gen_name next_gen))
  end.

(** ** Cloud images *)

Definition expected_hash (checksum : string) : res string :=
  let '(algo, expected) := match cut ":" checksum with Some p => p | None => (checksum, "") end in
  if String.eqb algo "sha256" then Ok (lower expected) else Raise ValueError.

Definition verify_checksum (file checksum : string) : io W unit :=
  expected ← pure (expected_hash checksum);
  content ← cache_read file;
  if String.eqb (sha256 content) expected then mret tt else pure (Raise ValueError).

Definition image_filename (url : string) : string :=
  let f := hd "" (split_on "?" (List.last (split_on "/" url) "")) in
  if String.eqb f "" then "cloud-image.qcow2" else f.

(** The body of the download: the temporary file is [None] until it exists. *)
Definition fetch (url : string) : io W (option string * option exn) :=
  fun w =>
  match urlopen url w with
  | (w, Raise e) => (w, Ok (None, Some e))
  | (w, Ok resp) =>
      match cache_temp w with
      | (w, Raise e) => (w, Ok (None, Some e))
      | (w, Ok tmp) =>
          match for_io (cache_write tmp) (rs_chunks resp) w with
          | (w, Raise e) => (w, Ok (Some tmp, Some e))
          | (w, Ok _) => (w, Ok (Some tmp, rs_error resp))
          end
      end
  end.

Definition download (url checksum cached : string) : io W string :=
  '(tmp, failure) ← fetch url;
  match failure, tmp with
  | Some URLError, Some tmp => _ ← cache_unlink tmp; pure (Raise RuntimeError)
  | Some URLError, None => pure (Raise RuntimeError)
  | Some e, _ => pure (Raise e)
  | None, None => pure (Raise TypeError)
  | None, Some tmp =>
      _ ← verify_checksum tmp checksum;
      _ ← cache_rename tmp cached;
      mret cached
  end.

Definition download_cloud_image (url checksum home : string) : io W string :=
  _ ← mkdir (path_under home [".image-cache"]);
  let cached := image_filename url in
  present ← look (cache_exists cached);
  valid ← if present : bool
          then try_io (_ ← verify_checksum cached checksum; mret true)
                 (fun e => bool_decide (e = ValueError)) (fun _ => _ ← cache_unlink cached; mret false)
          else mret false;
  if valid : bool then mret cached else download url checksum cached.

(** ** Building *)

Definition any_exception (_ : exn) : bool := true.

Definition probe_image_format (path : string) : io W (option tv) :=
  try_io (out ← run_output ["qemu-img"; "info"; "--output=json"; path];
          info ← pure (json_loads out);
          pure (get info "format"))
    any_exception (fun _ => mret None).

(** [cp --reflink=auto], and [shutil.copy2] when it fails. *)
Definition copy_reflink (src dst : string) : io W unit :=
  try_io (run_checked ["cp"; "--reflink=auto"; src; dst])
    (fun e => bool_decide (e = CalledProcessError)) (fun _ => copy2 src dst).

(** [["-f", src_format]] when the format is truthy. *)
Definition format_flag (format : option tv) : res (list string) :=
  match format with
  | Some v => if negb (truthy v) then Ok []
              else match v with TStr f => Ok ["-f"; f] | _ => Raise TypeError end
  | None => Ok []
  end.

Definition build_from_cloud_image (url checksum home system_disk : string) : io W unit :=
  cached ← download_cloud_image url checksum home;
  let source := path_under home [".image-cache"; cached] in
  if String.eqb (path_suffix cached) ".qcow2" then copy_reflink source system_disk
  else
    format ← probe_image_format source;
    flag ← pure (format_flag format);
    run_checked (["qemu-img"; "convert"] ++ flag ++ ["-O"; "qcow2"; source; system_disk]).

Definition build_from_local_image (local_path system_disk : string) : io W unit :=
  present ← look (path_exists local_path);
  if present : bool then copy_reflink (path_str (path_of local_path)) system_disk
  else pure (Raise FileNotFoundError).

Definition build_from_bootc_image (image_ref home system_disk : string) : io W unit :=
  installed ← look (which "bootc-image-builder");
  if negb (installed : bool) then pure (Raise RuntimeError)
  else
    let build_dir := path_under home [".bib-build"] in
    _ ← mkdir build_dir;
    code ← run ["bootc-image-builder"; "--type"; "qcow2"; "--output"; build_dir; image_ref];
    if negb (code =? 0) then pure (Raise RuntimeError)
    else
      candidates ← look (glob_qcow2 build_dir);
      match candidates with
      | [] => pure (Raise RuntimeError)
      | built :: _ => copy_reflink built system_disk
      end.

(** A value of the configuration used as a text. *)
Definition text (v : tv) : res string := match v with TStr s => Ok s | _ => Raise TypeError end.

Definition create_data_disk (data_dir : string) (size : tv) : io W unit :=
  _ ← mkdir data_dir;
  let data_disk := path_under data_dir ["data.qcow2"] in
  present ← look (path_exists data_disk);
  if present : bool then mret tt
  else size ← pure (text size); run_checked ["qemu-img"; "create"; "-f"; "qcow2"; data_disk; size].

Definition build_system_disk (vm : table) (home system_disk : string) : io W unit :=
  if truthy_at vm "cloud_image_url" then
    url ← pure (v ← index (TTab vm) "cloud_image_url"; text v);
    checksum ← pure (v ← index (TTab vm) "cloud_image_checksum"; text v);
    build_from_cloud_image url checksum home system_disk
  else if truthy_at vm "local_image" then
    path ← pure (v ← index (TTab vm) "local_image"; text v);
    build_from_local_image path system_disk
  else if truthy_at vm "image" then
    ref ← pure (v ← index (TTab vm) "image"; text v);
    build_from_bootc_image ref home system_disk
  else pure (Raise ValueError).

(** [vm_cfg.get("rollback_keep", 2)]. *)
Definition rollback_keep (vm : table) : tv := match assoc "rollback_keep" vm with Some v => v | None => TInt 2 end.

(** A user that does not exist and a filesystem without owners are no errors. *)
Definition chown_to_workload (path name : string) : io W unit :=
  try_io (chown path (workload_username name)) (fun e => bool_decide (e = KeyError) || is_oserror e) (fun _ => mret tt).

(** The disk put back after a failed build. *)
Definition restore (rotated_to : option string) : io W unit :=
  _ ← unlink SYSTEM_DISK;
  match rotated_to with
  | None => mret tt
  | Some gen => fs ← look files;
                if fs !! gen then rename gen SYSTEM_DISK else mret tt
  end.

(** The branch of [build_disks] that builds a system disk. *)
Definition replace_system_disk (name : string) (vm : table) (update : bool) (home system_disk : string) : io W unit :=
  fs ← look files;
  rotated_to ← if update && bool_decide (is_Some (fs !! SYSTEM_DISK))
               then rotate_generations (rollback_keep vm)
               else mret None;
  _ ← try_io (build_system_disk vm home system_disk) any_exception
        (fun e => _ ← restore rotated_to; pure (Raise e));
  _ ← chown_to_workload system_disk name;
  match assoc "system_disk_size" vm with
  | Some v => if truthy v then size ← pure (text v); run_checked ["qemu-img"; "resize"; system_disk; size]
              else mret tt
  | None => mret tt
  end.

Definition build_disks (name : string) (update : bool) : io W unit :=
  config ← pure (load_workload_config name);
  vm ← pure (v ← get_or (TTab config) "vm" (TTab []); items v);
  let home := path_str (workload_state_dir name) in
  _ ← mkdir home;
  let system_disk := path_under home [SYSTEM_DISK] in
  fs ← look files;
  _ ← if bool_decide (is_Some (fs !! SYSTEM_DISK)) && negb update then mret tt
      else replace_system_disk name vm update home system_disk;
  match assoc "data_disk_size" vm with
  | Some v => if truthy v then
                let data_dir := path_str (workload_data_dir name) in
                _ ← create_data_disk data_dir v;
                chown_to_workload (path_under data_dir ["data.qcow2"]) name
              else mret tt
  | None => mret tt
  end.

(** ** Rollback *)

Definition prune_generations (keep : tv) (exempt : Z) : io W unit :=
  fs ← look files;
  gens ← pure (generation_numbers (Some exempt) (names_of fs));
  old ← pure (match as_int keep with
              | Some k => Ok (if 0 <? k then list_slice_to (- k) gens else gens)
              | None => Raise TypeError
              end);
  for_io (fun n => unlink (gen_name n)) old.

(** [rollback_to] between the stop and the start of the service. *)
Definition swap_generation (vm : table) (gen : Z) : io W unit :=
  fs ← look files;
  rotated ← match fs !! SYSTEM_DISK with
            | None => mret None
            | Some _ => existing ← pure (generation_numbers None (names_of fs));
                        let g := next_generation existing in
                        _ ← rename SYSTEM_DISK (gen_name g); mret (Some g)
            end;
  _ ← try_io (rename (gen_name gen) SYSTEM_DISK) is_oserror
        (fun _ => fs ← look files;
                  _ ← match rotated, fs !! SYSTEM_DISK with
                      | Some g, None => rename (gen_name g) SYSTEM_DISK
                      | _, _ => mret tt
                      end;
                  pure (Raise LifecycleError));
  match rotated with Some g => prune_generations (rollback_keep vm) g | None => mret tt end.

Definition rollback_to (name : string) (vm : table) (gen : Z) : io W unit :=
  _ ← run ["systemctl"; "stop"; workload_service_name name];
  _ ← swap_generation vm gen;
  run_checked ["systemctl"; "start"; workload_service_name name].
End disk.

(** ** What the host promises *)

(** The system and the data disk of a workload, as paths. *)
Definition disk_path (name : string) : string := path_under (path_str (workload_state_dir name)) [SYSTEM_DISK].
Definition data_path (name : string) : string := path_under (path_str (workload_data_dir name)) ["data.qcow2"].
Definition bib_dir (name : string) : string := path_under (path_str (workload_state_dir name)) [".bib-build"].

(** The commands that write no file of the state directory itself. *)
Inductive quiet_command (name : string) : list string -> Prop :=
  | quiet_create size : quiet_command name ["qemu-img"; "create"; "-f"; "qcow2"; data_path name; size]
  | quiet_builder ref :
      quiet_command name ["bootc-image-builder"; "--type"; "qcow2"; "--output"; bib_dir name; ref].

(** The commands that write the system disk and no other; a running guest writes
    its disk until it is stopped. *)
Inductive disk_command (name : string) : list string -> Prop :=
  | disk_cp src : disk_command name ["cp"; "--reflink=auto"; src; disk_path name]
  | disk_convert flag src :
      disk_command name (["qemu-img"; "convert"] ++ flag ++ ["-O"; "qcow2"; src; disk_path name])
  | disk_resize size : disk_command name ["qemu-img"; "resize"; disk_path name; size]
  | disk_service verb : disk_command name ["systemctl"; verb; workload_service_name name].

Section laws.
Context {W : Type} `{DiskHost W}.

(** The files did not change. *)
Definition quiet {A} (m : io W A) : Prop := forall w, files (fst (m w)) = files w.
(** No other file than the system disk changed. *)
Definition disk_only {A} (m : io W A) : Prop :=
  forall w k, k <> SYSTEM_DISK -> files (fst (m w)) !! k = files w !! k.

Class DiskLaws (name : string) : Prop := {
  rename_law a b w :
    match rename a b w with
    | (w', Ok _) => exists c, files w !! a = Some c /\ files w' = <[b := c]> (delete a (files w))
    | (w', Raise e) => is_oserror e = true /\ files w' = files w
    end;
  unlink_law a w :
    match unlink a w with
    | (w', Ok _) => files w' = delete a (files w)
    | (w', Raise _) => files w' = files w
    end;
  run_quiet cmd : quiet_command name cmd -> quiet (run cmd);
  run_disk cmd : disk_command name cmd -> disk_only (run cmd);
  copy2_disk src : disk_only (copy2 src (disk_path name));
  mkdir_quiet p : quiet (mkdir p);
  chown_quiet p u : quiet (chown p u);
  output_quiet cmd : quiet (run_output cmd);
  cache_temp_quiet : quiet cache_temp;
  cache_unlink_quiet f : quiet (cache_unlink f);
  cache_rename_quiet a b : quiet (cache_rename a b);
  cache_write_quiet f s : quiet (cache_write f s);
  urlopen_quiet u : quiet (urlopen u);
  cache_read_law f w :
    files (fst (cache_read f w)) = files w /\
    match cache_read f w with
    | (w', Ok c) => cache w' = cache w /\ cache w !! f = Some c
    | (w', Raise e) => True
    end;
  cache_rename_law a b w :
    match cache_rename a b w with
    | (w', Ok _) => exists c, cache w !! a = Some c /\ cache w' = <[b := c]> (delete a (cache w))
    | (w', Raise _) => True
    end
}.
End laws.

(** ** Names and numbers *)

Lemma path_suffix_gen n : 0 <= n -> path_suffix (gen_name n) = ".gen-" +:+ str_Z n.
Proof.
  intros Hn. unfold path_suffix, gen_name, GEN_PREFIX.
  replace ("system.qcow2.gen-" +:+ str_Z n) with (join "." ["system"; "qcow2"; "gen-" +:+ str_Z n]) by done.
  change "." with (chr ".") at 2. rewrite split_on_join; [|done|].
  - cbn [rev app]. cbn [tail rev app]. by destruct (String.eqb ("gen-" +:+ str_Z n) "") eqn:E.
  - repeat constructor. change ("gen-" +:+ str_Z n) with ("gen-" +:+ str_Z n). rewrite has_char_app.
    by rewrite (str_Z_no_char ".").
Qed.

Lemma isdigit_str_Z n : 0 <= n -> isdigit (str_Z n) = true.
Proof.
  intros Hn. unfold isdigit. apply andb_true_intro. split.
  - apply negb_true_iff, bool_decide_eq_false. by apply str_Z_nonempty.
  - apply (all_chars_impl is_dec); [|by apply all_digits_str_Z]. intros c Hc. unfold is_pydigit. by rewrite Hc.
Qed.

Lemma gen_number_gen n : 0 <= n -> gen_number (gen_name n) = Ok (Some n).
Proof.
  intros Hn. unfold gen_number. rewrite path_suffix_gen by done.
  replace (starts_with GEN_PREFIX (gen_name n)) with true by (unfold gen_name, GEN_PREFIX; by destruct (str_Z n)).
  change (str_drop 5 (".gen-" +:+ str_Z n)) with (str_Z n).
  rewrite isdigit_str_Z by done. unfold int_res. by rewrite py_int_str_Z.
Qed.

Lemma gen_name_inj m n : 0 <= m -> 0 <= n -> gen_name m = gen_name n -> m = n.
Proof. intros Hm Hn E. apply gen_number_gen in Hm, Hn. rewrite E in Hm. congruence. Qed.

Lemma gen_name_not_disk n : gen_name n <> SYSTEM_DISK.
Proof. by destruct (str_Z n) eqn:E; unfold gen_name; rewrite E. Qed.

(** ** The list of generations *)

Definition number_of (name : string) : option Z := match gen_number name with Ok n => n | Raise _ => None end.

Lemma number_of_gen n : 0 <= n -> number_of (gen_name n) = Some n.
Proof. intros Hn. unfold number_of. by rewrite gen_number_gen. Qed.

Lemma int_digits_nonneg s acc b n : 0 <= acc -> int_digits acc b s = Some n -> 0 <= n.
Proof.
  revert acc b. induction s as [|c s IH]; intros acc b Ha Hs; cbn in Hs.
  - destruct b; simplify_eq. done.
  - destruct (is_dec c) eqn:Hc.
    + eapply IH; [|done]. unfold is_dec, in_range in Hc. unfold digit_val. lia.
    + destruct (_ && b); [|done]. by eapply IH.
Qed.

Lemma number_of_nonneg name n : number_of name = Some n -> 0 <= n.
Proof.
  unfold number_of, gen_number. destruct (starts_with _ _); [|done].
  set (s := str_drop 5 _). destruct (isdigit s) eqn:Hd; [|done]. unfold int_res.
  destruct (py_int s) as [m|] eqn:Hm; [|done]. intros [= <-]. unfold py_int in Hm.
  assert (Hs : all_chars is_pydigit (strip s) = true).
  { apply all_chars_strip_by. by apply andb_prop in Hd as [_ Hd]. }
  destruct (strip s) as [|c r]; [done|]. cbn in Hs. apply andb_prop in Hs as [Hc _].
  destruct (Ascii.eqb_spec c "-"); [by subst|].
  destruct (Ascii.eqb_spec c "+"); [by subst|]. by eapply int_digits_nonneg in Hm.
Qed.

Lemma mapM_numbers names ns : mapM_res gen_number names = Ok ns -> omap (fun x => x) ns = omap number_of names.
Proof.
  intros Hm%mapM_res_Forall2. induction Hm as [|x y xs ys Hxy _ IH]; [done|].
  cbn. unfold number_of at 1. rewrite Hxy. by destruct y; rewrite IH.
Qed.

Lemma generation_numbers_Ok ex names l :
  generation_numbers ex names = Ok l ->
  Sorted Z.le l /\ l ≡ₚ filter (fun n => Some n <> ex) (omap number_of names).
Proof.
  unfold generation_numbers. intros (ns & Hm & <-%Ok_inj)%bind_Ok_inv.
  rewrite (mapM_numbers _ _ Hm). split; [apply Sorted_merge_sort; apply _|apply merge_sort_Permutation].
Qed.

Lemma names_of_elem fs x : x ∈ names_of fs <-> is_Some (fs !! x).
Proof.
  unfold names_of. rewrite list_elem_of_In, in_map_iff. split.
  - intros ([k c] & <- & Hin). exists c. by apply elem_of_map_to_list, list_elem_of_In.
  - intros [c Hc]. exists (x, c). split; [done|]. by apply list_elem_of_In, elem_of_map_to_list.
Qed.

Lemma mapM_res_is_ok {A B} (f : A -> res B) l :
  (exists l', mapM_res f l = Ok l') <-> Forall (fun x => is_ok (f x) = true) l.
Proof.
  induction l as [|x l IH]; cbn; [split; eauto|]. rewrite Forall_cons, <- IH.
  destruct (f x) as [y|]; cbn; split; [intros [l' (ys & Hm & _)%bind_Ok_inv]; eauto|..].
  - intros [_ [ys ->]]. eauto.
  - by intros [? ?].
  - by intros [? _].
Qed.

Lemma foldl_max_above l a : a <= foldl Z.max a l /\ Forall (fun n => n <= foldl Z.max a l) l.
Proof.
  revert a. induction l as [|x l IH]; intros a; cbn; [split; [lia|constructor]|].
  destruct (IH (Z.max a x)) as [H1 H2]. split; [lia|]. constructor; [lia|done].
Qed.

Lemma next_generation_above gens n : n ∈ gens -> n < next_generation gens.
Proof.
  destruct gens as [|x l]; [by intros ?%not_elem_of_nil|]. destruct (foldl_max_above l x) as [H1 H2].
  rewrite Forall_forall in H2. cbn. intros [->|Hin]%elem_of_cons; [lia|]. specialize (H2 n Hin). lia.
Qed.

Section generations.
Variables (fs : gmap string string) (d : string) (gens : list Z).
Hypothesis Hdisk : fs !! SYSTEM_DISK = Some d.
Hypothesis Hgens : generation_numbers None (names_of fs) = Ok gens.
Let g := next_generation gens.

Lemma gens_elem x n : is_Some (fs !! x) -> number_of x = Some n -> n ∈ gens.
Proof.
  intros Hx Hn. destruct (generation_numbers_Ok _ _ _ Hgens) as [_ ->].
  apply list_elem_of_filter. split; [done|]. apply list_elem_of_omap. exists x. by rewrite names_of_elem.
Qed.

Lemma gens_nonneg : Forall (fun n => 0 <= n) gens.
Proof.
  destruct (generation_numbers_Ok _ _ _ Hgens) as [_ Hp]. rewrite Hp. apply Forall_forall. intros n Hn.
  apply list_elem_of_filter in Hn as [_ (x & _ & Hx)%list_elem_of_omap]. by eapply number_of_nonneg.
Qed.

Lemma next_positive : 0 < g.
Proof.
  pose proof gens_nonneg as Hn. unfold g. destruct gens as [|x l]; [done|].
  apply Forall_cons in Hn as [Hx _]. cbn. destruct (foldl_max_above l x). lia.
Qed.

Lemma next_fresh : fs !! gen_name g = None.
Proof.
  destruct (fs !! gen_name g) eqn:E; [|done]. pose proof next_positive.
  assert (g ∈ gens) by (eapply gens_elem; [by rewrite E|apply number_of_gen; lia]).
  pose proof (next_generation_above gens g). unfold g in *. exfalso. intuition lia.
Qed.

(** After the rename the other generations are numbered as before. *)
Lemma gens_after_rename :
  generation_numbers (Some g) (names_of (<[gen_name g := d]> (delete SYSTEM_DISK fs))) = Ok gens.
Proof.
  pose proof next_positive as Hg. pose proof next_fresh as Hf.
  assert (Hf' : delete SYSTEM_DISK fs !! gen_name g = None) by (rewrite lookup_delete_ne; [done|]; intros E; by apply (gen_name_not_disk g)).
  assert (Hp : names_of (<[gen_name g := d]> (delete SYSTEM_DISK fs)) ≡ₚ gen_name g :: names_of (delete SYSTEM_DISK fs)).
  { unfold names_of. rewrite map_to_list_insert by done. done. }
  assert (Hq : names_of fs ≡ₚ SYSTEM_DISK :: names_of (delete SYSTEM_DISK fs)).
  { unfold names_of. by rewrite <- (map_to_list_delete fs SYSTEM_DISK d Hdisk). }
  assert (Hok : exists l, mapM_res gen_number (names_of (<[gen_name g := d]> (delete SYSTEM_DISK fs))) = Ok l).
  { apply mapM_res_is_ok. rewrite Hp. constructor; [rewrite gen_number_gen by lia; done|].
    assert (Ha : exists l, mapM_res gen_number (names_of fs) = Ok l)
      by (unfold generation_numbers in Hgens; apply bind_Ok_inv in Hgens as (ns & Hns & _); eauto).
    apply mapM_res_is_ok in Ha. rewrite Hq in Ha. by apply Forall_cons in Ha as [_ Ha]. }
  destruct Hok as [ns Hns].
  destruct (generation_numbers (Some g) (names_of (<[gen_name g := d]> (delete SYSTEM_DISK fs)))) as [l|] eqn:El;
    [|unfold generation_numbers in El; by rewrite Hns in El].
  f_equal. destruct (generation_numbers_Ok _ _ _ El) as [Hs1 Hp1], (generation_numbers_Ok _ _ _ Hgens) as [Hs2 Hp2].
  apply (Sorted_unique Z.le); try done. rewrite Hp1, Hp, Hp2. cbn [omap list_omap].
  rewrite number_of_gen by lia. rewrite filter_cons_False by (intros E; by apply E).
  rewrite Hq. cbn [omap list_omap]. change (number_of SYSTEM_DISK) with (@None Z). cbn iota.
  rewrite !filter_all_id; [done|by apply Forall_true|]. apply Forall_forall. intros n Hn [= ->].
  apply list_elem_of_omap in Hn as (x & Hx%names_of_elem & Hn). apply lookup_delete_is_Some in Hx as [_ Hx].
  pose proof (next_generation_above gens g (gens_elem x g Hx Hn)). unfold g in *. lia.
Qed.
End generations.

(** ** Rotation *)

Section proofs.
Context {W : Type} `{!DiskHost W}.
Variable name : string.
Context `{!DiskLaws (W := W) name}.

(** Removing generations touches nothing else. *)
Lemma unlink_all l w w' r :
  for_io (fun n => unlink (gen_name n)) l w = (w', r) ->
  (forall k, k ∉ map gen_name l -> files w' !! k = files w !! k) /\
  (forall k, files w !! k = None -> files w' !! k = None) /\
  (r = Ok tt -> forall n, n ∈ l -> files w' !! gen_name n = None).
Proof.
  revert w. induction l as [|n l IH]; intros w; cbn [for_io].
  { intros [= <- <-]. split_and!; [done|done|]. intros _ n Hn. by apply not_elem_of_nil in Hn. }
  cbv [mbind io_bind]. pose proof (unlink_law (name := name) (gen_name n) w) as Hu.
  destruct (unlink (gen_name n) w) as [w1 [[]|e]].
  - intros Hf. apply IH in Hf as (H1 & H2 & H3). rewrite Hu in *. split_and!.
    + intros k Hk. cbn in Hk. apply not_elem_of_cons in Hk as [Hne Hk]. rewrite H1 by done. by apply lookup_delete_ne.
    + intros k Hk. apply H2. destruct (decide (k = gen_name n)) as [->|Hne];
        [apply lookup_delete_eq|by rewrite lookup_delete_ne].
    + intros Hr m [->|Hm]%elem_of_cons; [|by apply H3]. apply H2, lookup_delete_eq.
  - intros [= <- <-]. rewrite Hu. done.
Qed.

Lemma to_prune_split keep (gens old : list Z) :
  to_prune keep gens = Ok old -> exists kept, gens = old ++ kept.
Proof.
  unfold to_prune. destruct (as_int keep) as [k|]; [|done]. intros <-%Ok_inj.
  destruct (k <? _); [|by exists gens]. unfold list_slice_to. case_match; eexists; symmetry; apply take_drop.
Qed.

Lemma to_prune_length k (gens old kept : list Z) :
  1 <= k -> to_prune (TInt k) gens = Ok old -> gens = old ++ kept ->
  Z.of_nat (length kept) = Z.min k (Z.of_nat (length gens)).
Proof.
  intros Hk Hp E. unfold to_prune in Hp. cbn [as_int] in Hp. apply Ok_inj in Hp.
  assert (Hl : length gens = (length old + length kept)%nat) by (rewrite E; apply length_app).
  destruct (k <? Z.of_nat (length gens)) eqn:Ek.
  - unfold list_slice_to in Hp. replace (- k <? 0) with true in Hp by lia. rewrite Z.opp_involutive in Hp.
    rewrite <- Hp, length_take in Hl. lia.
  - subst old. cbn in Hl. lia.
Qed.

Lemma gen_names_ne l m : Forall (fun n => 0 <= n) l -> 0 <= m -> m ∉ l -> gen_name m ∉ map gen_name l.
Proof.
  intros Hl Hm Hn (n & E & Hin)%list_elem_of_In%in_map_iff. apply list_elem_of_In in Hin.
  rewrite Forall_forall in Hl. apply gen_name_inj in E; [by subst|by apply Hl|done].
Qed.

Lemma disk_not_gen l : SYSTEM_DISK ∉ map gen_name l.
Proof. intros (n & E & _)%list_elem_of_In%in_map_iff. by apply (gen_name_not_disk n). Qed.

(** What a rotation leaves, on every outcome. *)
Lemma rotate_outcome keep w w' r d gens :
  files w !! SYSTEM_DISK = Some d -> generation_numbers None (names_of (files w)) = Ok gens ->
  rotate_generations keep w = (w', r) ->
  let g := next_generation gens in
  (files w' = files w /\ is_ok r = false) \/
  (files w' !! SYSTEM_DISK = None /\ files w' !! gen_name g = Some d /\
   (forall old, to_prune keep gens = Ok old ->
      (forall k, k <> SYSTEM_DISK -> k <> gen_name g -> k ∉ map gen_name old -> files w' !! k = files w !! k) /\
      (is_ok r = true -> r = Ok (Some (gen_name g)) /\ forall n, n ∈ old -> files w' !! gen_name n = None)) /\
   (is_ok r = true -> is_ok (to_prune keep gens) = true)).
Proof.
  intros Hd Hg. unfold rotate_generations. cbv [mbind io_bind look pure mret io_ret].
  rewrite Hd, Hg. set (g := next_generation gens).
  pose proof (rename_law (name := name) SYSTEM_DISK (gen_name g) w) as Hr.
  destruct (rename SYSTEM_DISK (gen_name g) w) as [w1 [[]|e]]; [|intros [= <- <-]; by left; destruct Hr].
  destruct Hr as (c & Hc & H1). assert (c = d) as -> by congruence.
  rewrite H1, (gens_after_rename _ d gens) by done.
  pose proof (next_positive _ _ Hg) as Hpos. fold g in Hpos.
  assert (Hdd : files w1 !! SYSTEM_DISK = None)
    by (rewrite H1, lookup_insert_ne by apply gen_name_not_disk; apply lookup_delete_eq).
  assert (Hgd : files w1 !! gen_name g = Some d) by (rewrite H1; apply lookup_insert_eq).
  assert (Hk1 : forall k, k <> SYSTEM_DISK -> k <> gen_name g -> files w1 !! k = files w !! k)
    by (intros; by rewrite H1, lookup_insert_ne, lookup_delete_ne by done).
  destruct (to_prune keep gens) as [old|e] eqn:Ep; [|intros [= <- <-]; right; by split_and!].
  destruct (for_io _ old w1) as [w2 r2] eqn:Ef. apply unlink_all in Ef as (H2 & H3 & H4).
  destruct (to_prune_split _ _ _ Ep) as [kept Eg].
  assert (Hng : gen_name g ∉ map gen_name old).
  { apply gen_names_ne; [|lia|].
    - pose proof (gens_nonneg _ _ Hg) as Hn. rewrite Eg in Hn. by apply Forall_app in Hn as [? _].
    - intros Hin. pose proof (next_generation_above gens g) as Hlt.
      assert (g ∈ gens) as Hi by (rewrite Eg; apply elem_of_app; by left). specialize (Hlt Hi). unfold g in *. lia. }
  intros E. right. assert (w' = w2 /\ (is_ok r = true -> r = Ok (Some (gen_name g)) /\ r2 = Ok tt)) as [-> Hr]
    by (destruct r2 as [[]|]; by inversion E).
  split_and!; [by apply H3|by rewrite H2| |done]. intros o [= <-]. split.
  - intros k K1 K2 K3. rewrite H2 by done. by apply Hk1.
  - intros Ho. destruct (Hr Ho) as [-> ->]. by split; [|apply H4].
Qed.

(** A rotation renames the system disk to a generation that did not exist,
    keeps the [keep] newest of the others and removes the rest, and touches no
    other file. *)
Theorem rotation_keeps_newest keep w w' t d gens :
  1 <= keep -> files w !! SYSTEM_DISK = Some d ->
  generation_numbers None (names_of (files w)) = Ok gens ->
  rotate_generations (TInt keep) w = (w', Ok t) ->
  let g := gen_name (next_generation gens) in
  t = Some g /\ files w !! g = None /\
  exists old kept, gens = old ++ kept /\ Sorted Z.le gens /\
    Z.of_nat (length kept) = Z.min keep (Z.of_nat (length gens)) /\
    forall k, files w' !! k =
      if decide (k = g) then Some d
      else if decide (k = SYSTEM_DISK \/ k ∈ map gen_name old) then None else files w !! k.
Proof.
  intros Hk Hd Hg Hrot g. destruct (rotate_outcome _ _ _ _ _ _ Hd Hg Hrot) as [[_ ?]|(H1 & H2 & H3 & H4)]; [done|].
  destruct (to_prune (TInt keep) gens) as [old|] eqn:Ep; [|by specialize (H4 eq_refl)].
  destruct (H3 old eq_refl) as [H5 H6]. destruct (H6 eq_refl) as [Ht H7]. apply Ok_inj in Ht.
  destruct (to_prune_split _ _ _ Ep) as [kept Eg]. split; [done|]. split; [by eapply next_fresh|].
  exists old, kept. split_and!; [done|by eapply generation_numbers_Ok|by eapply to_prune_length|].
  intros k. repeat case_decide; subst; [done| |].
  - destruct H0 as [->|(n & <- & Hin)%list_elem_of_In%in_map_iff]; [done|]. by apply H7, list_elem_of_In.
  - apply H5; tauto.
Qed.

(** ** Builds write the system disk only *)

Local Opaque path_under path_str workload_state_dir workload_data_dir.

Lemma quiet_disk {A} (m : io W A) : quiet m -> disk_only m.
Proof. intros Hq w k _. by rewrite Hq. Qed.

Lemma disk_only_bind {A B} (m : io W A) (f : A -> io W B) :
  disk_only m -> (forall a, disk_only (f a)) -> disk_only (x ← m; f x).
Proof.
  intros Hm Hf w k Hk. cbv [mbind io_bind]. specialize (Hm w k Hk).
  destruct (m w) as [w1 [a|e]]; cbn in *; [by rewrite Hf|done].
Qed.

Lemma disk_only_try {A} (m : io W A) p (h : exn -> io W A) :
  disk_only m -> (forall e, disk_only (h e)) -> disk_only (try_io m p h).
Proof.
  intros Hm Hh w k Hk. unfold try_io. specialize (Hm w k Hk).
  destruct (m w) as [w1 [a|e]]; cbn in *; [done|]. destruct (p e); [by rewrite Hh|done].
Qed.

Lemma still_pure {A} (m : res A) : quiet (pure m : io W A).
Proof. done. Qed.
Lemma still_ret {A} (a : A) : quiet (mret a : io W A).
Proof. done. Qed.
Lemma still_look {A} (f : W -> A) : quiet (look f).
Proof. done. Qed.

Lemma still_bind {A B} (m : io W A) (f : A -> io W B) :
  quiet m -> (forall a, quiet (f a)) -> quiet (x ← m; f x).
Proof.
  intros Hm Hf w. cbv [mbind io_bind]. specialize (Hm w).
  destruct (m w) as [w1 [a|e]]; cbn in *; [by rewrite Hf|done].
Qed.

Lemma still_try {A} (m : io W A) p (h : exn -> io W A) :
  quiet m -> (forall e, quiet (h e)) -> quiet (try_io m p h).
Proof.
  intros Hm Hh w. unfold try_io. specialize (Hm w).
  destruct (m w) as [w1 [a|e]]; cbn in *; [done|]. destruct (p e); [by rewrite Hh|done].
Qed.

Lemma still_for {A} (f : A -> io W unit) l : (forall x, quiet (f x)) -> quiet (for_io f l).
Proof. intros Hf. induction l as [|x l IH]; [apply still_ret|]. by apply still_bind. Qed.

Hint Resolve quiet_disk still_pure still_ret still_look : disk.
Hint Extern 2 (quiet _) =>
  first [apply (mkdir_quiet (name := name)) | apply (chown_quiet (name := name)) | apply (output_quiet (name := name))
        | apply (cache_unlink_quiet (name := name)) | apply (cache_rename_quiet (name := name))] : disk.
Hint Extern 2 (disk_only _) => apply (copy2_disk (name := name)) : disk.

(** Split a program into its operations. *)
Ltac frame :=
  repeat first
    [ progress auto with disk
    | apply still_bind; [|intros ?] | apply still_try; [|intros ?]
    | apply disk_only_bind; [|intros ?] | apply disk_only_try; [|intros ?]
    | case_match ].

Lemma verify_checksum_quiet sha256 f c : quiet (verify_checksum sha256 f c).
Proof.
  unfold verify_checksum. apply still_bind; [done|]. intros e. apply still_bind; [|intros; by case_match].
  intros w. apply (cache_read_law (name := name)).
Qed.

Lemma fetch_quiet url : quiet (fetch url).
Proof.
  intros w. unfold fetch. pose proof (urlopen_quiet (name := name) url w) as H1.
  destruct (urlopen url w) as [w1 [resp|e]]; cbn in *; [|done].
  pose proof (cache_temp_quiet (name := name) w1) as H2. destruct (cache_temp w1) as [w2 [tmp|e]]; cbn in *; [|congruence].
  pose proof (still_for (cache_write tmp) (rs_chunks resp) (cache_write_quiet (name := name) tmp) w2) as H3.
  destruct (for_io _ _ w2) as [w3 [[]|e]]; cbn in *; congruence.
Qed.

Lemma download_quiet sha256 url c home : quiet (download_cloud_image sha256 url c home).
Proof.
  pose proof verify_checksum_quiet. pose proof fetch_quiet. unfold download_cloud_image, download. frame.
Qed.

Lemma run_checked_disk cmd : disk_command name cmd -> disk_only (run_checked cmd).
Proof. intros Hc. unfold run_checked. apply disk_only_bind; [by apply run_disk|]. intros c. frame. Qed.

Lemma copy_reflink_disk src : disk_only (copy_reflink src (disk_path name)).
Proof. apply disk_only_try; [apply run_checked_disk; constructor|]. auto with disk. Qed.

Lemma build_system_disk_only sha256 json_loads vm :
  disk_only (build_system_disk sha256 json_loads vm (path_str (workload_state_dir name)) (disk_path name)).
Proof.
  pose proof copy_reflink_disk. pose proof download_quiet.
  assert (forall cmd, quiet_command name cmd -> disk_only (run cmd))
    by (intros; by apply quiet_disk, (run_quiet (name := name))).
  unfold build_system_disk, build_from_cloud_image, build_from_local_image, build_from_bootc_image, probe_image_format.
  frame.
  - apply (run_disk (name := name)). constructor.
  - apply H1. apply (quiet_builder name).
Qed.

Lemma chown_to_workload_quiet p n : quiet (chown_to_workload p n).
Proof. unfold chown_to_workload. frame. Qed.

(** ** Updates *)

Section build.
Variable sha256 : string -> string.
Variable json_loads : string -> res tv.
Variable load_workload_config : string -> res table.

(** Putting a generation back: the disk ends in one of the two places. *)
Lemma restore_outcome g d w w' r :
  files w !! gen_name g = Some d -> restore (Some (gen_name g)) w = (w', r) ->
  files w' !! gen_name g = Some d \/ files w' !! SYSTEM_DISK = Some d.
Proof.
  intros Hg. unfold restore. cbv [mbind io_bind look mret io_ret].
  pose proof (unlink_law (name := name) SYSTEM_DISK w) as Hu.
  destruct (unlink SYSTEM_DISK w) as [w1 [[]|e]]; [|intros [= <- <-]; left; by rewrite Hu].
  assert (Hg1 : files w1 !! gen_name g = Some d)
    by (rewrite Hu, lookup_delete_ne; [done|]; intros E; by apply (gen_name_not_disk g)).
  rewrite Hg1. pose proof (rename_law (name := name) (gen_name g) SYSTEM_DISK w1) as Hr.
  destruct (rename (gen_name g) SYSTEM_DISK w1) as [w2 [[]|e]]; intros [= <- <-].
  - right. destruct Hr as (c & Hc & ->). rewrite lookup_insert_eq. congruence.
  - left. by destruct Hr as [_ ->].
Qed.

(** The end of [replace_system_disk] writes the system disk only. *)
Lemma finish_disk_only vm p :
  disk_only (_ ← chown_to_workload p name;
    match assoc "system_disk_size" vm with
    | Some v => if truthy v then size ← pure (text v); run_checked ["qemu-img"; "resize"; disk_path name; size]
                else mret tt
    | None => mret tt
    end : io W unit).
Proof.
  pose proof chown_to_workload_quiet. apply disk_only_bind; [auto with disk|]. intros _.
  repeat case_match; auto with disk. apply disk_only_bind; [auto with disk|]. intros size.
  apply run_checked_disk. constructor.
Qed.

Lemma replace_outcome vm w w' r d :
  files w !! SYSTEM_DISK = Some d ->
  replace_system_disk sha256 json_loads name vm true (path_str (workload_state_dir name)) (disk_path name) w = (w', r) ->
  (files w' !! SYSTEM_DISK = Some d /\ is_ok r = false) \/
  exists n, files w !! gen_name n = None /\ files w' !! gen_name n = Some d.
Proof.
  intros Hd. unfold replace_system_disk. unfold mbind at 1, io_bind at 1, look at 1.
  rewrite Hd, bool_decide_eq_true_2 by done. cbn [andb]. unfold mbind at 1, io_bind at 1.
  destruct (rotate_generations (rollback_keep vm) w) as [w1 r1] eqn:Er.
  destruct (generation_numbers None (names_of (files w))) as [gens|e] eqn:Eg.
  2: { unfold rotate_generations in Er. cbv [mbind io_bind look pure] in Er. rewrite Hd, Eg in Er.
       injection Er as <- <-. intros [= <- <-]. by left. }
  destruct (rotate_outcome _ _ _ _ _ _ Hd Eg Er) as [[Hs Hr]|(_ & Hg & Hp & Hk)].
  { destruct r1; [done|]. intros [= <- <-]. left. by rewrite Hs. }
  pose proof (next_fresh _ _ Eg) as Hf. set (g := next_generation gens) in *.
  destruct r1 as [t|e]; [|intros [= <- <-]; right; by exists g].
  destruct (to_prune (rollback_keep vm) gens) as [old|] eqn:Ep; [|by specialize (Hk eq_refl)].
  destruct (Hp old eq_refl) as [_ Hp']. destruct (Hp' eq_refl) as [->%Ok_inj _].
  unfold mbind at 1, io_bind at 1, try_io.
  pose proof (build_system_disk_only sha256 json_loads vm w1 (gen_name g) (gen_name_not_disk g)) as Hb.
  destruct (build_system_disk _ _ _ _ _ w1) as [w2 [[]|e]]; cbn [fst] in Hb.
  - intros E. right. exists g. split; [done|].
    pose proof (finish_disk_only vm (disk_path name) w2 (gen_name g) (gen_name_not_disk g)) as Hfin.
    rewrite E in Hfin. cbn [fst] in Hfin. congruence.
  - cbn [any_exception]. unfold mbind at 1, io_bind at 1.
    destruct (restore (Some (gen_name g)) w2) as [w3 r3] eqn:Ers.
    apply (restore_outcome g d) in Ers; [|congruence].
    intros E. assert (w' = w3 /\ is_ok r = false) as [-> Hr] by (destruct r3; by inversion E).
    destruct Ers as [Ers|Ers]; [right; by exists g|by left].
Qed.

(** The end of [build_disks], on the data disk, writes nothing here. *)
Lemma data_disk_quiet vm :
  quiet (match assoc "data_disk_size" vm with
    | Some v => if truthy v then
                  let data_dir := path_str (workload_data_dir name) in
                  _ ← create_data_disk data_dir v;
                  chown_to_workload (path_under data_dir ["data.qcow2"]) name
                else mret tt
    | None => mret tt
    end : io W unit).
Proof.
  pose proof chown_to_workload_quiet. repeat case_match; auto with disk. cbn zeta.
  apply still_bind; [|auto]. unfold create_data_disk, run_checked. frame.
  apply (run_quiet (name := name)). apply (quiet_create name).
Qed.

(** C7.  Whatever fails during an update, the disk the VM had is still there: it is
    the live disk, or it is a generation that did not exist before, and the
    latter after every successful update.  Without [update] an existing disk
    is not touched at all, whatever happens. *)
Theorem update_never_loses_disk w d :
  files w !! SYSTEM_DISK = Some d ->
  (forall w' r, build_disks sha256 json_loads load_workload_config name true w = (w', r) ->
     (files w' !! SYSTEM_DISK = Some d /\ is_ok r = false) \/
     exists n, files w !! gen_name n = None /\ files w' !! gen_name n = Some d) /\
  files (fst (build_disks sha256 json_loads load_workload_config name false w)) = files w.
Proof.
  intros Hd. unfold build_disks, mbind, io_bind, pure.
  destruct (load_workload_config name) as [config|e]; [|split; [|done]; intros w' r [= <- <-]; by left].
  destruct (match get_or (TTab config) "vm" (TTab []) with Ok a => items a | Raise e => Raise e end) as [vm|e] eqn:Ev;
    cbv [res_bind] in *; rewrite Ev; [|split; [|done]; intros w' r [= <- <-]; by left].
  pose proof (mkdir_quiet (name := name) (path_str (workload_state_dir name)) w) as Hm.
  destruct (mkdir _ w) as [w1 [[]|e]]; cbn [fst] in Hm;
    [|split; [|done]; intros w' r [= <- <-]; left; by rewrite Hm].
  unfold look. rewrite Hm, Hd, bool_decide_eq_true_2 by done. cbn [andb negb]. split.
  - intros w' r. rewrite <- Hm in Hd. fold (disk_path name).
    destruct (replace_system_disk _ _ _ _ _ _ _ w1) as [w2 r2] eqn:Er.
    apply (replace_outcome vm w1 w2 r2 d Hd) in Er. rewrite Hm in Er.
    destruct r2 as [[]|e]; [|by intros [= <- <-]]. destruct Er as [[_ ?]|(n & Hn & Hn')]; [done|].
    intros E. right. exists n. split; [done|]. pose proof (data_disk_quiet vm w2) as Hq.
    unfold mbind, io_bind in Hq. rewrite E in Hq. cbn [fst] in Hq. by rewrite Hq.
  - rewrite <- Hm. apply data_disk_quiet.
Qed.

(** ** Verified downloads *)

Lemma verify_checksum_Ok f c w w' :
  verify_checksum sha256 f c w = (w', Ok tt) ->
  cache w' = cache w /\ exists content, cache w !! f = Some content /\ expected_hash c = Ok (sha256 content).
Proof.
  unfold verify_checksum. intros (w1 & h & Hh & Hr)%io_bind_Ok. injection Hh as <- Hh.
  apply io_bind_Ok in Hr as (w2 & content & Hc & Hr). pose proof (cache_read_law (name := name) f w) as [_ Hl].
  rewrite Hc in Hl. destruct Hl as [Hl Hf]. destruct (String.eqb_spec (sha256 content) h) as [E|]; [|done].
  injection Hr as <-. split; [done|]. exists content. by rewrite E.
Qed.

Lemma download_Ok url c f w w' r :
  download sha256 url c f w = (w', Ok r) ->
  r = f /\ exists content, cache w' !! f = Some content /\ expected_hash c = Ok (sha256 content).
Proof.
  unfold download. intros (w1 & [tmp failure] & _ & Hr)%io_bind_Ok.
  destruct failure as [[]|], tmp as [tmp|]; try done.
  { by apply io_bind_Ok in Hr as (w2 & [] & _ & Hr). }
  apply io_bind_Ok in Hr as (w2 & [] & Hv & Hr). apply verify_checksum_Ok in Hv as (Hw & content & Hc & He).
  apply io_bind_Ok in Hr as (w3 & [] & Hm & Hr). injection Hr as -> <-. split; [done|].
  pose proof (cache_rename_law (name := name) tmp f w2) as Hl. rewrite Hm in Hl. destruct Hl as (c' & Hc' & ->).
  exists content. split; [|done]. rewrite lookup_insert_eq. congruence.
Qed.

(** An image that is used has the checksum of the configuration: what
    [download_cloud_image] returns is a file of the cache whose content hashes to
    it, also when the cache held another file of that name. *)
Theorem image_is_verified url c home w w' f :
  download_cloud_image sha256 url c home w = (w', Ok f) ->
  f = image_filename url /\
  exists content, cache w' !! f = Some content /\ expected_hash c = Ok (sha256 content).
Proof.
  unfold download_cloud_image. intros (w1 & [] & _ & Hr)%io_bind_Ok.
  apply io_bind_Ok in Hr as (w2 & present & _ & Hr). apply io_bind_Ok in Hr as (w3 & valid & Hv & Hr).
  destruct valid; [|apply download_Ok in Hr as [-> Hr]; by split]. injection Hr as <- <-. split; [done|].
  destruct present; [|done]. unfold try_io in Hv.
  destruct ((_ ← verify_checksum sha256 (image_filename url) c; mret true) w2) as [w4 [b|e]] eqn:E.
  - apply io_bind_Ok in E as (w5 & [] & Hc & E). injection E as -> <-. injection Hv as ->.
    apply verify_checksum_Ok in Hc as (Hw & content & H1 & H2). exists content. by rewrite Hw.
  - destruct (bool_decide _); [|done]. by apply io_bind_Ok in Hv as (w5 & [] & _ & Hv).
Qed.
End build.

(** ** Rollbacks *)

Lemma prune_outcome keep g w w' r :
  0 <= g -> prune_generations keep g w = (w', r) ->
  files w' !! SYSTEM_DISK = files w !! SYSTEM_DISK /\ files w' !! gen_name g = files w !! gen_name g.
Proof.
  intros Hg. unfold prune_generations, mbind, io_bind, look, pure.
  destruct (generation_numbers (Some g) (names_of (files w))) as [gens|e] eqn:Eg; [|by intros [= <- <-]].
  destruct (as_int keep) as [k|]; [|by intros [= <- <-]].
  set (old := if 0 <? k then list_slice_to (- k) gens else gens).
  assert (Hold : forall n, n ∈ old -> n ∈ gens).
  { intros n. unfold old, list_slice_to.
    repeat case_match; try done; intros (i & Hi & _)%elem_of_take; by eapply list_elem_of_lookup_2. }
  destruct (generation_numbers_Ok _ _ _ Eg) as [_ Hp].
  intros (H1 & _ & _)%unlink_all. split; [apply H1, disk_not_gen|]. apply H1, gen_names_ne; [|done|].
  - apply Forall_forall. intros n Hn%Hold. rewrite Hp in Hn.
    apply list_elem_of_filter in Hn as [_ (x & _ & Hx)%list_elem_of_omap]. by eapply number_of_nonneg.
  - intros Hn%Hold. rewrite Hp in Hn. by apply list_elem_of_filter in Hn as [Hn _].
Qed.

(** A rollback loses neither disk, whatever fails: the disk the VM had is the live
    one or the newest generation, and the generation chosen is still itself or is
    the live one; after a success the latter is live and the former is kept. *)
Theorem rollback_is_reversible vm gen w w' r d c gens :
  files w !! SYSTEM_DISK = Some d -> files w !! gen_name gen = Some c -> 0 <= gen ->
  generation_numbers None (names_of (files w)) = Ok gens ->
  swap_generation vm gen w = (w', r) ->
  let g := gen_name (next_generation gens) in
  files w !! g = None /\
  (files w' !! SYSTEM_DISK = Some d /\ files w' !! gen_name gen = Some c /\ is_ok r = false \/
   files w' !! SYSTEM_DISK = Some c /\ files w' !! g = Some d \/
   files w' !! SYSTEM_DISK = None /\ files w' !! g = Some d /\ files w' !! gen_name gen = Some c /\ is_ok r = false).
Proof.
  intros Hd Hc Hgen Hg. pose proof (next_fresh _ _ Hg) as Hf. pose proof (next_positive _ _ Hg) as Hpos.
  pose proof (next_generation_above gens gen (gens_elem _ _ Hg _ _ (ex_intro _ _ Hc) (number_of_gen gen Hgen))) as Hlt.
  unfold swap_generation, mbind, io_bind, look, pure, mret, io_ret. rewrite Hd, Hg. cbn zeta.
  set (g := next_generation gens) in *. intros E. split; [done|]. revert E.
  pose proof (gen_name_not_disk g) as Ng. pose proof (gen_name_not_disk gen) as Ngen.
  assert (Hne : gen_name g <> gen_name gen) by (intros ?%gen_name_inj; lia).
  pose proof (rename_law (name := name) SYSTEM_DISK (gen_name g) w) as Hr.
  destruct (rename SYSTEM_DISK (gen_name g) w) as [w1 [[]|e]].
  2: { intros [= <- <-]. left. destruct Hr as [_ ->]. done. }
  destruct Hr as (d' & Hd' & H1). assert (d' = d) as -> by congruence.
  assert (G1 : files w1 !! gen_name g = Some d) by (rewrite H1; apply lookup_insert_eq).
  assert (C1 : files w1 !! gen_name gen = Some c) by (rewrite H1, lookup_insert_ne, lookup_delete_ne; congruence).
  assert (S1 : files w1 !! SYSTEM_DISK = None) by (rewrite H1, lookup_insert_ne by done; apply lookup_delete_eq).
  unfold try_io. pose proof (rename_law (name := name) (gen_name gen) SYSTEM_DISK w1) as Hr.
  destruct (rename (gen_name gen) SYSTEM_DISK w1) as [w2 [[]|e]].
  - destruct Hr as (c' & Hc' & H2). assert (c' = c) as -> by congruence.
    intros [P1 P2]%prune_outcome; [|lia]. right; left. rewrite P1, P2, H2. split; [apply lookup_insert_eq|].
    rewrite lookup_insert_ne, lookup_delete_ne; congruence.
  - destruct Hr as [He H2]. rewrite He, H2, S1.
    pose proof (rename_law (name := name) (gen_name g) SYSTEM_DISK w2) as Hr.
    destruct (rename (gen_name g) SYSTEM_DISK w2) as [w3 [[]|e']]; intros [= <- <-].
    + destruct Hr as (d' & Hd3 & H3). rewrite H2 in Hd3, H3. assert (d' = d) as -> by congruence.
      left. rewrite H3. split_and!; [apply lookup_insert_eq| |done]. rewrite lookup_insert_ne, lookup_delete_ne; congruence.
    + right; right. destruct Hr as [_ ->]. by rewrite H2.
Qed.
End proofs.

(** ** A host *)

(** A directory on which copies fail half way; it satisfies the laws. *)
Module Directory.
Record world := mkWorld { w_files : gmap string string; w_cache : gmap string string }.

Definition move (a b : string) (fs : gmap string string) : res (gmap string string) :=
  match fs !! a with Some c => Ok (<[b := c]> (delete a fs)) | None => Raise FileNotFoundError end.

Definition on_files (f : gmap string string -> res (gmap string string)) : io world unit := fun w =>
  match f (w_files w) with Ok fs => (mkWorld fs (w_cache w), Ok tt) | Raise e => (w, Raise e) end.
Definition on_cache (f : gmap string string -> res (gmap string string)) : io world unit := fun w =>
  match f (w_cache w) with Ok fs => (mkWorld (w_files w) fs, Ok tt) | Raise e => (w, Raise e) end.

Definition is_copy (cmd : list string) : bool := bool_decide (hd "" cmd = "cp").

#[global] Instance directory : DiskHost world := {|
  files := w_files;
  cache := w_cache;
  path_exists _ _ := true;
  which _ _ := true;
  glob_qcow2 _ _ := [];
  mkdir _ := mret tt;
  rename a b := on_files (move a b);
  unlink a := on_files (fun fs => Ok (delete a fs));
  run cmd := fun w =>
    if is_copy cmd then (mkWorld (<[SYSTEM_DISK := "half"]> (w_files w)) (w_cache w), Ok 1) else (w, Ok 0);
  run_output _ := mret "{}";
  copy2 _ _ := pure (Raise OSError);
  chown _ _ := mret tt;
  cache_exists f w := bool_decide (is_Some (w_cache w !! f));
  cache_read f := fun w => match w_cache w !! f with Some c => (w, Ok c) | None => (w, Raise FileNotFoundError) end;
  cache_unlink f := on_cache (fun fs => Ok (delete f fs));
  cache_rename a b := on_cache (move a b);
  cache_write f s := on_cache (fun fs => Ok (<[f := match fs !! f with Some c => c +:+ s | None => s end]> fs));
  cache_temp := mret "t.tmp";
  urlopen _ := mret (mkResponse ["new "; "image"] None)
|}.

#[global] Instance directory_laws name : DiskLaws (W := world) name.
Proof.
  assert (Hq : forall f, quiet (on_cache f)) by (intros f w; unfold on_cache; by destruct (f _)).
  constructor; try done; try (intros; apply Hq).
  - intros a b w. cbn. unfold on_files, move. destruct (w_files w !! a) eqn:E; cbn; eauto.
  - intros cmd Hc w. by destruct Hc.
  - intros cmd Hc w k Hk. cbn. destruct (is_copy cmd); [|done]. by apply lookup_insert_ne.
  - intros f w. cbn. by destruct (w_cache w !! f).
  - intros a b w. cbn. unfold on_cache, move. destruct (w_cache w !! a) eqn:E; cbn; eauto.
Qed.

Definition config : table := [("vm", TTab [("local_image", TStr "/img.qcow2"); ("rollback_keep", TInt 1)])].
Definition no_json (_ : string) : res tv := Raise ValueError.
Definition load (_ : string) : res table := Ok config.
Definition length_hash (s : string) : string := str_Z (Z.of_nat (String.length s)).

Definition w0 : world :=
  mkWorld {["system.qcow2" := "v4"; "system.qcow2.gen-9" := "v2"; "system.qcow2.gen-10" := "v3";
            "system.qcow2.gen-2" := "v1"; "qemu.log" := "x"]} {["a.qcow2" := "rotten"]}.
End Directory.

Lemma w0_disk : files Directory.w0 !! SYSTEM_DISK = Some "v4".
Proof. vm_compute. reflexivity. Qed.

Lemma w0_generations : generation_numbers None (names_of (files Directory.w0)) = Ok [2; 9; 10].
Proof. vm_compute. reflexivity. Qed.

Lemma rotation_keeps_newest_witness :
  exists w', rotate_generations (TInt 1) Directory.w0 = (w', Ok (Some "system.qcow2.gen-11")) /\
    files w' !! "system.qcow2.gen-9" = None /\ files w' !! "system.qcow2.gen-10" = Some "v3".
Proof.
  assert (E : rotate_generations (TInt 1) Directory.w0
    = (fst (rotate_generations (TInt 1) Directory.w0), Ok (Some "system.qcow2.gen-11"))) by (vm_compute; reflexivity).
  exists (fst (rotate_generations (TInt 1) Directory.w0)). split; [exact E|]. revert E.
  generalize (fst (rotate_generations (TInt 1) Directory.w0)). intros w' E.
  pose proof (rotation_keeps_newest "vm" 1 Directory.w0 w' _ "v4" [2; 9; 10] ltac:(lia) w0_disk w0_generations E) as (_ & _ & old & kept & Hs & _ & Hl & Hk).
  assert (old = [2; 9]) as ->.
  { destruct old as [|x [|y [|z [|]]]]; cbn in Hs; try (injection Hs as <-); try (injection Hs as <- <-); subst; try done. }
  rewrite !Hk. split; vm_compute; reflexivity.
Defined.

(** The copy fails half way: the old disk is back. *)
Lemma update_never_loses_disk_witness :
  exists w', build_disks Directory.length_hash Directory.no_json Directory.load "vm" true Directory.w0 = (w', Raise OSError)
    /\ files w' !! SYSTEM_DISK = Some "v4".
Proof.
  assert (E : build_disks Directory.length_hash Directory.no_json Directory.load "vm" true Directory.w0 = (fst (build_disks Directory.length_hash Directory.no_json Directory.load "vm" true Directory.w0), Raise OSError)) by (vm_compute; reflexivity).
  exists (fst (build_disks Directory.length_hash Directory.no_json Directory.load "vm" true Directory.w0)). split; [exact E|]. revert E.
  generalize (fst (build_disks Directory.length_hash Directory.no_json Directory.load "vm" true Directory.w0)). intros w' E.
  destruct (proj1 (update_never_loses_disk "vm" Directory.length_hash Directory.no_json Directory.load Directory.w0 "v4" w0_disk) w' _ E) as [[Hd _]|_]; [done|].
  assert (Hw : w' = fst (w', @Raise unit OSError)) by done. rewrite Hw, <- E. vm_compute. reflexivity.
Defined.

Lemma image_is_verified_witness :
  exists w', download_cloud_image Directory.length_hash "http://h/a.qcow2?x=1" "sha256:9" "/s" Directory.w0 = (w', Ok "a.qcow2")
    /\ exists c, cache w' !! "a.qcow2" = Some c /\ Directory.length_hash c = "9".
Proof.
  assert (E : download_cloud_image Directory.length_hash "http://h/a.qcow2?x=1" "sha256:9" "/s" Directory.w0 = (fst (download_cloud_image Directory.length_hash "http://h/a.qcow2?x=1" "sha256:9" "/s" Directory.w0), Ok "a.qcow2")) by (vm_compute; reflexivity).
  exists (fst (download_cloud_image Directory.length_hash "http://h/a.qcow2?x=1" "sha256:9" "/s" Directory.w0)). split; [exact E|]. revert E.
  generalize (fst (download_cloud_image Directory.length_hash "http://h/a.qcow2?x=1" "sha256:9" "/s" Directory.w0)). intros w' E.
  destruct (image_is_verified "vm" _ _ _ _ _ _ _ E) as [_ (c & Hc & Hh)]. exists c. split; [done|].
  assert (expected_hash "sha256:9" = Ok "9") by reflexivity. congruence.
Defined.

Lemma rollback_is_reversible_witness :
  exists w', swap_generation [("rollback_keep", TInt 1)] 9 Directory.w0 = (w', Ok tt) /\
    files w' !! SYSTEM_DISK = Some "v2" /\ files w' !! "system.qcow2.gen-11" = Some "v4".
Proof.
  assert (E : swap_generation [("rollback_keep", TInt 1)] 9 Directory.w0 = (fst (swap_generation [("rollback_keep", TInt 1)] 9 Directory.w0), Ok tt)) by (vm_compute; reflexivity).
  exists (fst (swap_generation [("rollback_keep", TInt 1)] 9 Directory.w0)). split; [exact E|]. revert E.
  generalize (fst (swap_generation [("rollback_keep", TInt 1)] 9 Directory.w0)). intros w' E.
  destruct (rollback_is_reversible "vm" [("rollback_keep", TInt 1)] 9 Directory.w0 w' _ "v4" "v2" [2; 9; 10] w0_disk
    ltac:(vm_compute; reflexivity) ltac:(lia) w0_generations E) as [_ [(_ & _ & ?)|[Hr|(_ & _ & _ & ?)]]];
    [done|done|done].
Defined.
