(* ===== verification/Clean.v ===== *)
(** * Values without line feeds

    A generated unit is a sequence of lines, so what matters of a configuration
    is that no text of it holds a line feed.  [clean_tv] says this of a parsed value:
    its strings, its keys and the texts of its other scalars.  [okp] carries such a
    property through the computations that read a configuration, and the hint
    database [clean] closes it under the operations that build lines. *)
From S2P Require Import Prelude PyStr PyPath PyRe Toml WorkloadNames Validation.

Definition clean (s : string) : bool := negb (has_char LF s).

Fixpoint clean_tv (v : tv) : bool :=
  match v with
  | TStr s => clean s
  | TInt _ | TBool _ => true
  | TOther _ text repr _ => clean text && clean repr
  | TArr l => forallb clean_tv l
  | TTab t => forallb (fun '(k, v) => clean k && clean_tv v) t
  end.

(** The part of it no validator checks: keys, dates and floats. *)
Fixpoint clean_keys (v : tv) : bool :=
  match v with
  | TStr _ | TInt _ | TBool _ => true
  | TOther _ text repr _ => clean text && clean repr
  | TArr l => forallb clean_keys l
  | TTab t => forallb (fun '(k, v) => clean k && clean_keys v) t
  end.

(** The result of a computation, when it has one, is in [P]. *)
Definition okp {A} (P : A -> Prop) (m : res A) : Prop :=
  match m with Ok a => P a | Raise _ => True end.

Definition cleans (l : list string) : Prop := Forall (fun s => clean s = true) l.
Definition clean_tab (t : table) : Prop := clean_tv (TTab t) = true.

(** ** Strings *)

Lemma clean_app s t : clean (s +:+ t) = clean s && clean t.
Proof. unfold clean. by rewrite has_char_app, negb_orb. Qed.

Lemma clean_app_2 s t : clean s = true -> clean t = true -> clean (s +:+ t) = true.
Proof. intros Hs Ht. by rewrite clean_app, Hs, Ht. Qed.

Lemma clean_map_chars f s :
  (forall c, Ascii.eqb LF c = false -> clean (f c) = true) -> clean s = true -> clean (map_chars f s) = true.
Proof.
  intros Hf. unfold clean, has_char, is_char. induction s as [|c s IH]; [done|]. cbn [any_char map_chars].
  rewrite negb_orb. intros [Hc Hs]%andb_prop. apply negb_true_iff in Hc.
  change (clean (f c +:+ map_chars f s) = true). apply clean_app_2; [by apply Hf|by apply IH].
Qed.

Lemma clean_chr c : Ascii.eqb LF c = false -> clean (chr c) = true.
Proof. intros H. unfold clean, has_char, chr. cbn [any_char]. unfold is_char. by rewrite H. Qed.

Lemma clean_replace_char a r s : clean r = true -> clean s = true -> clean (replace_char a r s) = true.
Proof.
  intros Hr. apply clean_map_chars. intros c Hc. destruct (Ascii.eqb c a); [done|by apply clean_chr].
Qed.

Lemma clean_join sep l : clean sep = true -> cleans l -> clean (join sep l) = true.
Proof.
  intros Hs H. induction H as [|x l Hx Hl IH]; [done|]. cbn. destruct l; [done|].
  apply clean_app_2; [done|]. by apply clean_app_2.
Qed.

Lemma clean_dq s : clean s = true -> clean (dq s) = true.
Proof.
  intros Hs. unfold dq, quote_with. repeat first [done | apply clean_app_2 | apply clean_replace_char].
  all: try (unfold esc_dquote, esc_bslash; repeat apply clean_replace_char; done).
Qed.

Lemma clean_uq s : clean s = true -> clean (uq s) = true.
Proof.
  intros Hs. unfold uq, quote_with. repeat first [done | apply clean_app_2 | apply clean_replace_char].
  all: try (unfold esc_dquote, esc_bslash; repeat apply clean_replace_char; done).
Qed.

Lemma clean_str_Z n : clean (str_Z n) = true.
Proof. unfold clean. by rewrite str_Z_no_char. Qed.

(** Lemmas for particular functions are added to this database. *)
Create HintDb clean.

(** ** Values *)

Lemma clean_repr_str s : clean s = true -> clean (repr_str s) = true.
Proof.
  intros Hs. unfold repr_str. set (q := if _ : bool then DQUOTE else _).
  assert (Hq : Ascii.eqb LF q = false) by (unfold q; by destruct (_ && _)).
  apply clean_app_2; [by apply clean_chr|]. apply clean_app_2; [|by apply clean_chr].
  apply clean_map_chars; [|done]. intros c Hc. unfold repr_char.
  assert (Hb : forall t, clean t = true -> clean (String "092" t) = true)
    by (intros t Ht; change (String "092" t) with (chr "092" +:+ t); by apply clean_app_2).
  destruct (_ || _); [apply Hb; by apply clean_chr|]. repeat case_match; try done; [by apply clean_chr|].
  apply Hb. clear. destruct c as [[] [] [] [] [] [] [] []]; reflexivity.
Qed.

Lemma clean_py_repr v : clean_tv v = true -> clean (py_repr v) = true.
Proof.
  induction v as [s|n|b|a t r d|l IH|t IH] using tv_nested_ind; cbn [clean_tv py_repr]; intros Hc.
  - by apply clean_repr_str.
  - apply clean_str_Z.
  - by destruct b.
  - by apply andb_prop in Hc as [_ ?].
  - apply clean_app_2; [done|]. apply clean_app_2; [|done]. apply clean_join; [done|].
    unfold cleans. rewrite Forall_map. apply Forall_forall. intros x Hx. rewrite Forall_forall in IH.
    apply IH; [done|]. rewrite forallb_forall in Hc. by apply Hc, list_elem_of_In.
  - apply clean_app_2; [done|]. apply clean_app_2; [|done]. apply clean_join; [done|].
    unfold cleans. rewrite Forall_map. apply Forall_forall. intros [k x] Hx. rewrite Forall_forall in IH.
    rewrite forallb_forall in Hc. apply list_elem_of_In in Hx as Hx'. specialize (Hc _ Hx'). cbn in Hc.
    apply andb_prop in Hc as [Hk Hc]. apply clean_app_2; [by apply clean_repr_str|].
    apply clean_app_2; [done|]. by apply (IH (k, x)).
Qed.

Lemma clean_py_str v : clean_tv v = true -> clean (py_str v) = true.
Proof.
  intros Hc. destruct v; try done; try by apply clean_py_repr. cbn in *. by apply andb_prop in Hc as [? _].
Qed.

Lemma clean_assoc k t v : clean_tab t -> assoc k t = Some v -> clean_tv v = true.
Proof.
  unfold clean_tab. cbn. rewrite forallb_forall. intros Hc Ha%assoc_In%list_elem_of_In.
  specialize (Hc _ Ha). by apply andb_prop in Hc as [_ ?].
Qed.

#[export] Hint Resolve clean_assoc : clean.

(** ** Computations *)

Lemma okp_bind {A B} (P : A -> Prop) (Q : B -> Prop) (m : res A) (f : A -> res B) :
  okp P m -> (forall a, P a -> okp Q (f a)) -> okp Q (x ← m; f x).
Proof. destruct m; cbn; auto. Qed.

(** Nothing is known of the result. *)
Lemma okp_bind_any {A B} (Q : B -> Prop) (m : res A) (f : A -> res B) :
  (forall a, okp Q (f a)) -> okp Q (x ← m; f x).
Proof. destruct m; cbn; auto. Qed.

Lemma okp_mapM {A B} (P : A -> Prop) (Q : B -> Prop) (f : A -> res B) l :
  Forall P l -> (forall a, P a -> okp Q (f a)) -> okp (Forall Q) (mapM_res f l).
Proof.
  intros Hl Hf. induction Hl as [|x l Hx Hl IH]; cbn; [constructor|].
  apply (okp_bind Q); [by apply Hf|]. intros y Hy. apply (okp_bind (Forall Q)); [done|]. intros ys Hys. by constructor.
Qed.

Lemma okp_get v k : clean_tv v = true -> okp (fun o => forall x, o = Some x -> clean_tv x = true) (get v k).
Proof. destruct v; try done. cbn [get okp]. intros Hc x. by apply clean_assoc. Qed.

Lemma okp_get_or v k d : clean_tv v = true -> clean_tv d = true -> okp (fun x => clean_tv x = true) (get_or v k d).
Proof.
  destruct v; try done. cbn [get_or okp]. intros Hc Hd. destruct (assoc k t) eqn:E; [by eapply clean_assoc|done].
Qed.

Lemma okp_index v k : clean_tv v = true -> okp (fun x => clean_tv x = true) (index v k).
Proof.
  destruct v; try done. cbn [index]. intros Hc. destruct (assoc k t) eqn:E; [by eapply clean_assoc|done].
Qed.

Lemma okp_items v : clean_tv v = true -> okp clean_tab (items v).
Proof. by destruct v. Qed.

Lemma clean_chars s : clean s = true -> Forall (fun c => Ascii.eqb LF c = false) (String.list_ascii_of_string s).
Proof.
  unfold clean, has_char. induction s as [|c s IH]; [constructor|]. cbn [any_char String.list_ascii_of_string].
  rewrite negb_orb. intros [Hc Hs]%andb_prop. constructor; [by apply negb_true_iff in Hc|by apply IH].
Qed.

Lemma okp_iter v : clean_tv v = true -> okp (Forall (fun x => clean_tv x = true)) (iter v).
Proof.
  destruct v as [s| | | |l|t]; try done; cbn [iter okp clean_tv]; intros Hc.
  - rewrite Forall_map. eapply Forall_impl; [by apply clean_chars|]. intros c Hl. by apply clean_chr.
  - apply Forall_forall. intros x Hx. rewrite forallb_forall in Hc. by apply Hc, list_elem_of_In.
  - rewrite Forall_map. apply Forall_forall. intros [k x] Hx. rewrite forallb_forall in Hc.
    apply list_elem_of_In in Hx. specialize (Hc _ Hx). by apply andb_prop in Hc as [? _].
Qed.

(** Strings checked by the validator and clean keys make a clean value. *)
Lemma walk_clean_tv v p : walk check_control p v = [] -> clean_keys v = true -> clean_tv v = true.
Proof.
  revert p. induction v as [s|n|b|a t r d|l IH|t IH] using tv_nested_ind; intros p; cbn [walk clean_keys clean_tv]; try done.
  - unfold check_control. destruct (control_char_in s) eqn:E; [done|]. intros _ _.
    unfold clean. by rewrite no_control_no_lf.
  - generalize O. induction IH as [|x l Hx _ IH]; intros i; [done|]. cbn [forallb].
    intros [H1 H2]%app_eq_nil [K1 K2]%andb_prop. apply andb_true_intro. split; [by eapply Hx|by eapply IH].
  - induction IH as [|[k x] t Hx _ IH]; [done|]. cbn [map concat forallb].
    intros [H1 H2]%app_eq_nil [K1 K2]%andb_prop. apply andb_prop in K1 as [K0 K1].
    rewrite K0. apply andb_true_intro. split; [by eapply Hx|by apply IH].
Qed.

Lemma accepted_clean config :
  reject_control_chars (TTab config) = [] -> clean_keys (TTab config) = true -> clean_tab config.
Proof. apply walk_clean_tv. Qed.

(** ** Parts of a clean string *)

Lemma clean_cons c s : clean (String c s) = negb (Ascii.eqb LF c) && clean s.
Proof. unfold clean, has_char. cbn [any_char]. by rewrite negb_orb. Qed.

Lemma clean_take n s : clean s = true -> clean (str_take n s) = true.
Proof.
  revert n. induction s as [|c s IH]; intros [|n]; try done. rewrite clean_cons. intros [Hc Hs]%andb_prop.
  cbn [str_take]. rewrite clean_cons, Hc. by apply IH.
Qed.

Lemma clean_drop n s : clean s = true -> clean (str_drop n s) = true.
Proof.
  revert n. induction s as [|c s IH]; intros [|n]; try done. rewrite clean_cons. intros [Hc Hs]%andb_prop.
  cbn [str_drop]. by apply IH.
Qed.

Lemma clean_cut c s a b : cut c s = Some (a, b) -> clean s = true -> clean a = true /\ clean b = true.
Proof.
  revert a. induction s as [|x s IH]; intros a; [done|]. cbn [cut]. rewrite clean_cons.
  destruct (Ascii.eqb x c); [intros [= <- <-] [_ ?]%andb_prop; done|].
  destruct (cut c s) as [[l r]|]; [|done]. intros E [Hx Hs]%andb_prop. injection E as <- <-.
  destruct (IH l eq_refl Hs). split; [|done]. by rewrite clean_cons, Hx.
Qed.

Lemma clean_split_on c s : clean s = true -> cleans (split_on c s).
Proof.
  induction s as [|x s IH]; [by repeat constructor|]. rewrite clean_cons. intros [Hx Hs]%andb_prop.
  specialize (IH Hs). cbn [split_on]. destruct (Ascii.eqb x c); [by constructor|].
  destruct IH as [|h t Hh Ht]; [repeat constructor; apply clean_chr; by apply negb_true_iff|].
  constructor; [by rewrite clean_cons, Hx|done].
Qed.

Lemma clean_split_max c n s : clean s = true -> cleans (split_max c n s).
Proof.
  revert s. induction n as [|n IH]; intros s Hs; cbn [split_max]; [by repeat constructor|].
  destruct (cut c s) as [[l r]|] eqn:E; [|by repeat constructor].
  destruct (clean_cut _ _ _ _ E Hs). constructor; [done|by apply IH].
Qed.

Lemma clean_hd l : cleans l -> clean (hd "" l) = true.
Proof. by destruct 1. Qed.

Lemma clean_lstrip p s : clean s = true -> clean (lstrip_by p s) = true.
Proof.
  induction s as [|c s IH]; [done|]. cbn [lstrip_by]. intros H. destruct (p c); [|done].
  rewrite clean_cons in H. apply andb_prop in H as [_ ?]. auto.
Qed.

Lemma clean_rstrip p s : clean s = true -> clean (rstrip_by p s) = true.
Proof.
  induction s as [|c s IH]; [done|]. rewrite clean_cons. intros [Hc Hs]%andb_prop. specialize (IH Hs).
  cbn [rstrip_by]. destruct (rstrip_by p s).
  - destruct (p c); [done|]. apply clean_chr. by apply negb_true_iff.
  - by rewrite clean_cons, Hc.
Qed.

Lemma clean_strip s : clean s = true -> clean (strip s) = true.
Proof. intros Hs. by apply clean_lstrip, clean_rstrip. Qed.

Lemma clean_span p s : clean s = true -> clean (fst (span p s)) = true /\ clean (snd (span p s)) = true.
Proof.
  induction s as [|c s IH]; [done|]. intros H. pose proof H as H'. rewrite clean_cons in H'.
  apply andb_prop in H' as [Hc Hs]. cbn [span]. destruct (p c); [|done].
  destruct (span p s) as [r t]; cbn [fst snd] in *. destruct (IH Hs). split; [by rewrite clean_cons, Hc|done].
Qed.

(** ** Paths *)

Definition clean_path (p : pypath) : Prop := clean (root p) = true /\ cleans (parts p).

Lemma clean_path_of s : clean s = true -> clean_path (path_of s).
Proof.
  intros Hs. split; cbn [path_of root parts].
  - unfold root_of. by repeat case_match.
  - unfold parts_of. pose proof (clean_split_on "/" s Hs) as Hl. unfold cleans in *. rewrite Forall_forall in *.
    intros x Hx. apply list_elem_of_In, List.filter_In in Hx as [Hx _]. by apply Hl, list_elem_of_In.
Qed.

Lemma clean_path_div p s : clean_path p -> clean s = true -> clean_path (path_div p s).
Proof.
  intros [Hr Hp] Hs. destruct (clean_path_of s Hs) as [Hr' Hp']. unfold path_div. case_decide; split; try done.
  by apply Forall_app.
Qed.

Lemma clean_path_str p : clean_path p -> clean (path_str p) = true.
Proof. intros [Hr Hp]. unfold path_str. case_decide; [done|]. apply clean_app_2; [done|]. by apply clean_join. Qed.

Lemma clean_path_under base segs : clean base = true -> cleans segs -> clean (path_under base segs) = true.
Proof.
  intros Hb Hs. apply clean_path_str. generalize (clean_path_of base Hb). generalize (path_of base).
  induction Hs as [|x l Hx _ IH]; intros p Hp; [done|]. cbn [foldl]. by apply IH, clean_path_div.
Qed.

Lemma clean_root_dir name : clean name = true -> clean_path (workload_root_dir name).
Proof. intros Hn. apply clean_path_div; [by apply clean_path_of|done]. Qed.

Lemma clean_state_dir name : clean name = true -> clean_path (workload_state_dir name).
Proof. intros Hn. apply clean_path_div; [by apply clean_root_dir|done]. Qed.

Lemma clean_data_dir name : clean name = true -> clean_path (workload_data_dir name).
Proof. intros Hn. apply clean_path_div; [by apply clean_root_dir|done]. Qed.

#[export] Hint Resolve clean_path_str clean_root_dir clean_state_dir clean_data_dir clean_path_under : clean.

(** ** Lists of lines *)

Lemma cleans_nil : cleans [].
Proof. constructor. Qed.

Lemma cleans_cons s l : clean s = true -> cleans l -> cleans (s :: l).
Proof. by constructor. Qed.

Lemma cleans_app l k : cleans l -> cleans k -> cleans (l ++ k).
Proof. intros. by apply Forall_app. Qed.

Lemma cleans_concat ls : Forall cleans ls -> cleans (concat ls).
Proof. induction 1; cbn; [constructor|by apply cleans_app]. Qed.

Lemma cleans_map {A} (f : A -> string) l : Forall (fun x => clean (f x) = true) l -> cleans (map f l).
Proof. intros Hl. by apply Forall_map. Qed.

(** ** Automation *)

(** The goal [clean s = true], by the shape of [s]. *)
Ltac clean_str :=
  lazymatch goal with
  | |- clean (_ +:+ _) = true => apply clean_app_2; clean_str
  | |- clean (dq _) = true => apply clean_dq; clean_str
  | |- clean (uq _) = true => apply clean_uq; clean_str
  | |- clean (str_Z _) = true => apply clean_str_Z
  | |- clean (replace_char _ _ _) = true => apply clean_replace_char; clean_str
  | |- clean (path_under _ _) = true => apply clean_path_under; [clean_str|clean_list]
  | |- clean (py_str _) = true => apply clean_py_str; clean_str
  | |- clean (if ?b then _ else _) = true => destruct b; clean_str
  | |- clean (match ?x with _ => _ end) = true => destruct x eqn:?; clean_str
  | |- clean (join _ _) = true => apply clean_join; [clean_str|clean_list]
  | |- _ => first [assumption | reflexivity | solve [eauto 3 with clean]]
  end
with clean_list :=
  lazymatch goal with
  | |- cleans (_ ++ _) => apply cleans_app; clean_list
  | |- cleans [] => apply cleans_nil
  | |- cleans (_ :: _) => apply cleans_cons; [clean_str|clean_list]
  | |- cleans (if ?b then _ else _) => destruct b eqn:?; clean_list
  | |- cleans (map _ (_ :: _)) => cbn [map]; clean_list
  | |- cleans (map _ []) => apply cleans_nil
  | |- cleans (map _ ?l) =>
      apply cleans_map;
      first [apply Forall_true; intros ?; clean_str
            |eapply Forall_impl; [eassumption|]; intros ? ?; cbn beta in *; clean_str]
  | |- cleans (match ?x with _ => _ end) => destruct x eqn:?; clean_list
  | |- _ => first [assumption | solve [eauto 3 with clean]]
  end.

(** A computation that reads a clean configuration. *)
Ltac okp_leaf :=
  lazymatch goal with
  | |- okp _ (get_or _ _ _) => apply okp_get_or; first [assumption | reflexivity]
  | |- okp _ (get _ _) => apply okp_get; assumption
  | |- okp _ (index _ _) => apply okp_index; assumption
  | |- okp _ (iter _) => apply okp_iter; assumption
  | |- okp _ (items _) => apply okp_items; assumption
  | |- _ => first [assumption | solve [eauto 3 with clean]]
  end.

Ltac okp_step :=
  lazymatch goal with
  | |- okp _ (mbind _ _) =>
      first [eapply okp_bind; [okp_leaf|]; intros ? ?
            |apply (okp_bind cleans); [solve [okp_auto]|]; intros ? ?
            |apply okp_bind_any; intros ?]
  | |- okp _ (let '_ := ?x in _) => destruct x eqn:?
  | |- okp _ (if ?b then _ else _) => destruct b eqn:?
  | |- okp _ (match ?x with _ => _ end) => destruct x eqn:?
  | |- okp _ (Ok _) => cbn [okp]
  | |- okp _ (Raise _) => exact I
  end
with okp_auto := repeat okp_step; first [exact I | clean_str | clean_list | okp_leaf | idtac].
