(* ===== verification/RunArgs.v ===== *)
(** * The podman command line: [lib/container_run_args.py]

    [RunSpec] and the builders that turn one normalised container into the
    arguments of [podman run] or [podman create], and the user-namespace flags a
    pod shares with them.  An argument is one element of the list, which
    [gen_container] joins with spaces; values an author writes freely go through
    [dq].

    Parameters: the group database ([getgrnam]), the resolution of symbolic
    links and the kind of a host path ([resolve_path], [path_kind]), the division
    and printing of a float ([float_percent]), and of the inspector's package the
    place of the certificate ([ca_cert_path]). *)
From S2P Require Import Prelude PyStr PyPath PyRe Ipaddr Toml WorkloadAddr WorkloadNames WorkloadConfig SecretsTemplate.
From S2P Require Import CredentialEntries NetworkConfig ContainerValidate Seccomp Validation BrokerConfig Clean.
Local Open Scope Z_scope.

(** ** Python *)

(** [s.replace(old, new)], [old] not empty. *)
Fixpoint replace_from (old new : string) (skip : nat) (s : string) : string :=
  match s with
  | EmptyString => EmptyString
  | String c r =>
      match skip with
      | S k => replace_from old new k r
      | O => if starts_with old s then new +:+ replace_from old new (String.length old - 1) r
             else String c (replace_from old new O r)
      end
  end.
Definition replace_sub (old new s : string) : string := replace_from old new O s.

(** [s.partition(c)]. *)
Definition partition (c : ascii) (s : string) : string * string :=
  match cut c s with Some p => p | None => (s, "") end.

(** [s.split(None, 1)]. *)
Definition split_ws1 (s : string) : list string :=
  let s := lstrip_by is_space s in
  let '(w, r) := span (fun c => negb (is_space c)) s in
  if String.eqb w "" then []
  else match lstrip_by is_space r with EmptyString => [w] | r => [w; r] end.

(** A method of [str] called on a value of the configuration. *)
Definition as_text (v : tv) : res string := match v with TStr s => Ok s | _ => Raise AttributeError end.

(** [t.get(a, {}).get(b, d)]. *)
Definition get2 (t : table) (a b : string) (d : tv) : res tv := v ← get_or (TTab t) a (TTab []); get_or v b d.

(** ** User namespaces *)

Section userns.
Variable getgrnam : string -> option Z.

(** [userns_mode] as [build_userns_args] and [pod_member_user] decide it. *)
Definition userns_mode (security : tv) : res string :=
  m ← get_or security "userns" (TStr "keep-id");
  if is_the_str (Some m) "keep-id" || is_the_str (Some m) "host" then as_text m
  else s ← as_text m; Ok (if valid_userns_mode s then s else "keep-id").

Definition needs_auto_maps (security : tv) (mode : string) (extra_groups : tv) : res bool :=
  if negb (starts_with "keep-id" mode) then Ok false
  else if truthy extra_groups then Ok true
  else u ← get security "extra_uidmaps"; g ← get security "extra_gidmaps";
       let t o := match o with Some v => truthy v | None => false end in Ok (t u || t g).

Fixpoint keep_id_params (ids : Z * Z) (l : list string) : res (Z * Z) :=
  match l with
  | [] => Ok ids
  | param :: l =>
      let '(key, value) := partition "=" param in
      ids ← (if String.eqb key "uid" then n ← int_res value; Ok (n, snd ids)
             else if String.eqb key "gid" then n ← int_res value; Ok (fst ids, n)
             else Ok ids);
      keep_id_params ids l
  end.

Definition keep_id_ids (mode : string) (uid : Z) : res (Z * Z) :=
  if starts_with "keep-id:" mode then keep_id_params (uid, uid) (split_on "," (str_drop 8 mode))
  else Ok (uid, uid).

(** One [--gidmap] for each group that exists and is not mapped yet. *)
Fixpoint group_maps (mapped : list Z) (groups : list tv) : res (list string) :=
  match groups with
  | [] => Ok []
  | g :: groups =>
      name ← match g with TStr s => Ok s | _ => Raise TypeError end;
      match getgrnam name with
      | Some gid =>
          if bool_decide (gid ∈ mapped) then group_maps mapped groups
          else rest ← group_maps (gid :: mapped) groups;
               Ok (("--gidmap +" +:+ str_Z gid +:+ ":@" +:+ str_Z gid +:+ ":1") :: rest)
      | None => group_maps mapped groups
      end
  end.

(** [{UID}] and [{GID}] in a map of the configuration. *)
Definition fill_ids (uid : Z) (m : tv) : res string :=
  s ← as_text m; Ok (replace_sub "{GID}" (str_Z uid) (replace_sub "{UID}" (str_Z uid) s)).

Definition explicit_maps (security : tv) (key flag : string) (uid : Z) : res (list string) :=
  v ← get_or security key (TArr []); l ← iter v;
  mapM_res (fun m => s ← fill_ids uid m; Ok (flag +:+ " " +:+ s)) l.

Definition build_userns_args (security : tv) (uid : Z) (extra_groups : tv) : res (list string) :=
  mode ← userns_mode security;
  auto ← needs_auto_maps security mode extra_groups;
  if auto : bool then
    '(u, g) ← keep_id_ids mode uid;
    groups ← iter extra_groups;
    gmaps ← group_maps [uid] groups;
    us ← explicit_maps security "extra_uidmaps" "--uidmap" uid;
    gs ← explicit_maps security "extra_gidmaps" "--gidmap" uid;
    Ok (["--uidmap +" +:+ str_Z u +:+ ":@" +:+ str_Z uid +:+ ":1";
         "--gidmap +" +:+ str_Z g +:+ ":@" +:+ str_Z uid +:+ ":1"] ++ gmaps ++ us ++ gs)
  else Ok ["--userns=" +:+ mode].

Definition pod_member_user (security : tv) (uid : Z) (extra_groups : tv) : res (option string) :=
  mode ← userns_mode security;
  if negb (starts_with "keep-id" mode) then Ok None
  else auto ← needs_auto_maps security mode extra_groups;
       if auto : bool then Ok None
       else '(u, g) ← keep_id_ids mode uid; Ok (Some (str_Z u +:+ ":" +:+ str_Z g)).
End userns.

(** ** The spec *)

Record RunSpec := mkSpec {
  rs_workload : table;
  rs_container : table;
  rs_uid : Z;
  rs_name : string;
  rs_container_name : string;
  rs_mode : mode }.

Definition home_dir (s : RunSpec) : string := path_str (workload_state_dir (rs_name s)).

Definition pull_policy (s : RunSpec) : res tv :=
  c ← index (TTab (rs_container s)) "container"; get_or c "pull" (TStr "missing").

Definition privileged (s : RunSpec) : res tv := get2 (rs_workload s) "security" "privileged" (TBool false).
Definition extra_groups (s : RunSpec) : res tv := get2 (rs_workload s) "security" "extra_groups" (TArr []).

Definition has_secret_env_vars (s : RunSpec) : res bool :=
  e ← get2 (rs_container s) "container" "environment" (TTab []);
  t ← items e;
  Ok (existsb (fun kv => secret_search (py_str (snd kv))) t).

(** ** The builders *)

Definition gpu_device_args (gpu_vendor gpu_spec : string) : list string :=
  if String.eqb gpu_vendor "amd" then ["--device /dev/kfd"; "--volume /dev/dri:/dev/dri"]
  else if String.eqb gpu_vendor "nvidia" then
    if negb (String.eqb gpu_spec "") then ["--device=nvidia.com/gpu=" +:+ gpu_spec]
    else ["--device=nvidia.com/gpu=all"; "--volume /dev/dri:/dev/dri"]
  else if String.eqb gpu_vendor "intel" || String.eqb gpu_vendor "nouveau" then ["--volume /dev/dri:/dev/dri"]
  else [].

(** [f"{flag}{t[key]}"] when the key is there. *)
Definition flag_of (t : table) (key flag : string) : list string :=
  match assoc key t with Some v => [flag +:+ py_str v] | None => [] end.

(** [dq] of a value: its methods are those of [str]. *)
Definition dq_tv (v : tv) : res string := s ← as_text v; Ok (dq s).

Definition health_check_args (container : table) : res (list string) :=
  h ← get2 container "container" "health" (TTab []);
  cmd ← get_or h "cmd" (TStr "");
  if negb (truthy cmd) then Ok []
  else
    c ← dq_tv cmd;
    t ← items h;
    Ok (["--health-cmd " +:+ c] ++ flag_of t "interval" "--health-interval=" ++ flag_of t "timeout" "--health-timeout="
        ++ flag_of t "retries" "--health-retries=" ++ flag_of t "start_period" "--health-start-period="
        ++ ["--health-on-failure=" +:+ match assoc "on_failure" t with Some v => py_str v | None => "none" end]).

Definition secret_mount (service : string) (file_spec : tv) : res (list string) :=
  cred ← get file_spec "credential";
  path ← get file_spec "path";
  match cred, path with
  | Some cred, Some path =>
      if negb (truthy cred) || negb (truthy path) then Ok []
      else
        mode ← get_or file_spec "mode" (TStr "ro");
        let m := if is_the_str (Some mode) "ro" || is_the_str (Some mode) "rw" then py_str mode else "ro" in
        p ← dq_tv path;
        Ok ["--volume " +:+ dq ("/run/credentials/" +:+ service +:+ "/" +:+ py_str cred) +:+ ":" +:+ p +:+ ":" +:+ m]
  | _, _ => Ok []
  end.

Definition secret_mount_args (s : RunSpec) : res (list string) :=
  files ← get2 (rs_container s) "secrets" "files" (TArr []);
  l ← iter files;
  r ← mapM_res (secret_mount (rs_container_name s +:+ ".service")) l; Ok (concat r).

Definition base_run_args (s : RunSpec) (service_type : string) (wl_lifecycle : string) (systemd_mode : option string)
    : res (list string) :=
  pull ← pull_policy s;
  let cattle := String.eqb wl_lifecycle "cattle" in
  Ok ([if cattle then "/usr/bin/podman run" else "/usr/bin/podman create";
       "--name " +:+ dq (rs_container_name s)] ++
      (if bool_decide (rs_mode s = MPod) then [] else ["--hostname " +:+ dq (rs_name s)]) ++
      (if cattle then ["--rm"; "--replace"] else []) ++
      [match systemd_mode with None => "--init" | Some m => "--systemd=" +:+ m end;
       "--sdnotify=" +:+ (if String.eqb service_type "notify" then "conmon" else "ignore");
       "--pull=" +:+ py_str pull; "--log-driver=passthrough"]).

(** [f"{flag}{x}"] for each [x] of a list of the configuration. *)
Definition flags_of (flag : string) (v : tv) : res (list string) :=
  l ← iter v; Ok (map (fun x => flag +:+ py_str x) l).

(** The names of [security.seccomp_allow], sorted; a list of anything else than
    strings does not pass the validator. *)
Definition seccomp_allow (config : table) : res (list string) :=
  v ← get2 config "security" "seccomp_allow" (TArr []);
  if negb (truthy v) then Ok []
  else l ← iter v; names ← mapM_res (fun x => match x with TStr s => Ok s | _ => Raise TypeError end) l;
       Ok (seccomp_names names).

Definition SECCOMP_BASELINE : string := "/usr/share/containers/seccomp-workload-baseline.json".
Definition derived_profile_name (name : string) : string := "workload-" +:+ name +:+ ".seccomp.json".
Definition RUN_SYSTEMD_SYSTEM : string := "/run/systemd/system".

(** The options with their tokens expanded, without those that have none. *)
Definition expand_opts (config_dir name : string) (opts : list tv) : res (list string) :=
  l ← mapM_res (fun o => s ← match o with TStr s => Ok s | _ => Raise TypeError end;
                         match expand_workload_tokens config_dir s name with
                         | Ok e => Ok [e]
                         | Raise ValueError => Ok []
                         | Raise e => Raise e
                         end) opts;
  Ok (concat l).

Section args.
Variable config_dir : string.
Variable getgrnam : string -> option Z.
Variable float_percent : string -> option string.
Variable ca_cert_path : string -> string.

Definition user_args (s : RunSpec) : res (list string) :=
  u ← get2 (rs_container s) "container" "user" (TStr "");
  if truthy u then Ok ["--user=" +:+ py_str u]
  else if bool_decide (rs_mode s = MPod) then
    sec ← get_or (TTab (rs_workload s)) "security" (TTab []);
    groups ← extra_groups s;
    m ← pod_member_user sec (rs_uid s) groups;
    Ok (match m with Some m => ["--user=" +:+ m] | None => [] end)
  else Ok [].

Definition seccomp_args (s : RunSpec) (priv : tv) (opts : list string) : res (list string) :=
  if truthy priv || existsb (starts_with "seccomp=") opts then Ok []
  else allowed ← seccomp_allow (rs_workload s);
       Ok ["--security-opt=seccomp=" +:+
           if nonempty allowed then path_under RUN_SYSTEMD_SYSTEM [derived_profile_name (rs_name s)] else SECCOMP_BASELINE].

Definition security_args (s : RunSpec) : res (list string) :=
  priv ← privileged s;
  groups ← extra_groups s;
  user ← user_args s;
  caps ← get2 (rs_container s) "security" "capabilities" (TArr []);
  caps ← flags_of "--cap-add=" caps;
  opts ← get2 (rs_container s) "security" "security_opt" (TArr []);
  opts ← iter opts;
  opts ← expand_opts config_dir (rs_name s) opts;
  selinux ← (sec ← get_or (TTab (rs_workload s)) "security" (TTab []); get sec "selinux_policy");
  seccomp ← seccomp_args s priv opts;
  Ok (user ++ caps ++ map (fun o => "--security-opt=" +:+ o) opts ++
      match selinux with
      | Some v => if truthy v then ["--security-opt=label=type:" +:+ selinux_type_name (rs_name s)] else []
      | None => []
      end ++ seccomp ++
      (if truthy priv then ["--privileged"] else []) ++
      (if truthy groups then ["--group-add=keep-groups"] else [])).

Definition device_args (s : RunSpec) : res (list string) :=
  d ← get_or (TTab (rs_container s)) "devices" (TTab []);
  generic ← get_or d "devices" (TArr []);
  generic ← flags_of "--device " generic;
  t ← items d;
  let on k := truthy_at t k in
  let run := "/run/user/" +:+ str_Z (rs_uid s) in
  Ok (generic ++
      (if on "input" then ["--volume /dev/input:/dev/input"; "--device /dev/uinput"] else []) ++
      (if on "audio" then
         "--volume /dev/snd:/dev/snd" ::
         map (fun x => "--volume " +:+ run +:+ "/" +:+ x +:+ ":" +:+ run +:+ "/" +:+ x +:+ ":ro") ["pulse"; "pipewire-0"]
       else []) ++
      (if on "virtualization" then ["--device /dev/kvm"; "--device /dev/vhost-net"; "--device /dev/vhost-vsock"] else [])).

(** [flag=device:limit] for each pair of words. *)
Definition bandwidth_args (t : table) (key flag : string) : res (list string) :=
  l ← iter (match assoc key t with Some v => v | None => TArr [] end);
  r ← mapM_res (fun x => s ← as_text x; Ok (match split_ws1 s with
                                             | [a; b] => [flag +:+ a +:+ ":" +:+ b]
                                             | _ => []
                                             end)) l;
  Ok (concat r).

(** [cpu_quota] as [--cpus]; what is no percentage is skipped. *)
Definition cpus_args (t : table) : list string :=
  match assoc "cpu_quota" t with
  | Some (TStr q) => match float_percent (rstrip_by (is_char "%") q) with
                     | Some c => ["--cpus=" +:+ c]
                     | None => []
                     end
  | _ => []
  end.

Definition cgroup_args (s : RunSpec) : res (list string) :=
  r ← get_or (TTab (rs_container s)) "resources" (TTab []);
  t ← items r;
  (* the warning about [memory_high] names the container *)
  _ ← (if has_key "memory_high" t && negb (bool_decide (rs_mode s = MSingle))
       then index (TTab (rs_container s)) "name" else Ok (TBool true));
  reads ← bandwidth_args t "io_read_bandwidth_max" "--device-read-bps=";
  writes ← bandwidth_args t "io_write_bandwidth_max" "--device-write-bps=";
  Ok ((if truthy_at t "shm_size" then flag_of t "shm_size" "--shm-size=" else []) ++
      (if truthy_at t "tasks_max" then flag_of t "tasks_max" "--pids-limit=" else []) ++
      flag_of t "memory_max" "--memory=" ++ cpus_args t ++ flag_of t "cpu_weight" "--cpu-shares=" ++
      reads ++ writes).

Definition container_network_mode_arg (workload : table) (uid : Z) : res tv :=
  mode ← get2 workload "network" "mode" (TStr "pasta");
  resolves ← container_uses_resolve workload;
  if negb (resolves : bool) then Ok mode
  else
    addr ← resolve_address uid;
    colon ← contains_key ":" mode;
    Ok (TStr (py_str mode +:+ (if colon : bool then "," else ":") +:+ "--dns-host," +:+ addr)).

Definition network_args (s : RunSpec) : res (list string) :=
  match rs_mode s with
  | MSingle =>
      net ← get_or (TTab (rs_workload s)) "network" (TTab []);
      mode ← get_or net "mode" (TStr "pasta");
      arg ← container_network_mode_arg (rs_workload s) (rs_uid s);
      arg ← dq_tv arg;
      ports ← (if is_the_str (Some mode) "host" || is_the_str (Some mode) "none" then Ok []
               else p ← get_or net "ports" (TArr []); flags_of "--publish " p);
      Ok (("--network=" +:+ arg) :: ports)
  | MPod => Ok ["--pod=" +:+ dq ("workload-" +:+ rs_name s)]
  | MBridge =>
      n ← index (TTab (rs_container s)) "name"; alias ← dq_tv n;
      p ← get2 (rs_container s) "network" "ports" (TArr []);
      ports ← flags_of "--publish " p;
      Ok (["--network=" +:+ dq ("workload-" +:+ rs_name s +:+ "-net"); "--network-alias=" +:+ alias] ++ ports)
  end.

Definition env_args (s : RunSpec) : res (list string) :=
  plain ← build_plain_env_args (rs_container s);
  secret ← has_secret_env_vars s;
  Ok ("--env HOST_IP=${HOST_IP}" :: plain ++
      (if secret : bool then ["--env-file " +:+ dq ("/run/workload-env/" +:+ rs_container_name s +:+ ".secrets")] else [])).

(** [workload.get("network", {}) or {}], where a table. *)
Definition network_of (workload : table) : table :=
  match assoc "network" workload with Some (TTab t) => t | _ => [] end.

Definition container_credential_env_args (s : RunSpec) : res (list string) :=
  uses ← container_uses_credentials (rs_workload s);
  Ok (if negb (uses : bool) then []
      else map (fun c => "--env " +:+ cr_env c +:+ "=" +:+ dq (cr_placeholder c))
             (container_credential_entries (network_of (rs_workload s)))).

Definition CA_BUNDLE_PATH : string := "/usr/local/share/ca-certificates/egress-ca.crt".
Definition CA_ENV_VARS : list string :=
  ["SSL_CERT_FILE"; "NODE_EXTRA_CA_CERTS"; "REQUESTS_CA_BUNDLE"; "GIT_SSL_CAINFO"; "PIP_CERT"].

Definition container_ca_delivery_args (s : RunSpec) : res (list string) :=
  uses ← container_uses_inspect (rs_workload s);
  if negb (uses : bool) then Ok []
  else
    let net := network_of (rs_workload s) in
    let cert := ca_cert_path (path_str (workload_state_dir (rs_name s))) in
    match container_ca_delivery net with
    | None => Ok []
    | Some d =>
        if String.eqb d "image" then Ok []
        else if String.eqb d "mount" then
          Ok (match container_ca_mount_path net with
              | Some dest => ["--volume " +:+ dq cert +:+ ":" +:+ dq dest +:+ ":ro"]
              | None => []
              end)
        else Ok (("--volume " +:+ dq cert +:+ ":" +:+ dq CA_BUNDLE_PATH +:+ ":ro") ::
                 map (fun v => "--env " +:+ v +:+ "=" +:+ dq CA_BUNDLE_PATH) CA_ENV_VARS)
    end.

(** The image's command: one argument, or a list of them. *)
Definition command_args (command : option tv) : res (list string) :=
  match command with
  | None => Ok []
  | Some v => if negb (truthy v) then Ok []
              else match v with
                   | TArr l => mapM_res dq_tv l
                   | _ => c ← dq_tv v; Ok [c]
                   end
  end.

Definition podman_run_args (s : RunSpec) (service_type wl_lifecycle : string) (systemd_mode : option string)
    (gpu_vendor gpu_spec : string) (volume_flags : list string) (image : tv) (command : option tv)
    : res (list string) :=
  base ← base_run_args s service_type wl_lifecycle systemd_mode;
  csec ← get_or (TTab (rs_container s)) "security" (TTab []);
  userns ← (if bool_decide (rs_mode s = MPod) then
              u ← get csec "userns";
              match u with Some _ => _ ← index (TTab (rs_container s)) "name"; Ok [] | None => Ok [] end
            else groups ← extra_groups s; build_userns_args getgrnam csec (rs_uid s) groups);
  security ← security_args s;
  devices ← device_args s;
  cgroups ← cgroup_args s;
  network ← network_args s;
  ca ← container_ca_delivery_args s;
  creds ← container_credential_env_args s;
  secrets ← secret_mount_args s;
  env ← env_args s;
  health ← health_check_args (rs_container s);
  img ← dq_tv image;
  cmd ← command_args command;
  Ok (base ++ userns ++ security ++ gpu_device_args gpu_vendor gpu_spec ++ devices ++ cgroups ++ network ++
      volume_flags ++ ca ++ creds ++ secrets ++ env ++ health ++ [img] ++ cmd).
End args.

(** ** Volumes *)

Inductive path_type := PathAbsent | PathDirectory | PathFile | PathSpecial.

Section volumes.
(** [str(Path(p).resolve())]; [None] when it raises. *)
Variable resolve_path : string -> option string.
Variable path_kind : string -> path_type.

Definition external_host_path (host_path name : string) : option string :=
  match resolve_path host_path with
  | None => None
  | Some resolved =>
      let root := path_str (workload_root_dir name) in
      if String.eqb resolved root || starts_with (root +:+ "/") resolved then None else Some resolved
  end.

Definition rw_path_is_bindable (resolved : string) : bool :=
  match path_kind resolved with PathSpecial => false | _ => true end.

Definition add_unique (x : string) (l : list string) : list string := if bool_decide (x ∈ l) then l else l ++ [x].

Fixpoint volume_loop (home name : string) (vols : list tv) (external external_rw : list string)
    : res (list string * list string * list string) :=
  match vols with
  | [] => Ok ([], external, external_rw)
  | v :: vols =>
      spec ← as_text v;
      expanded ← expand_volume_path spec home;
      if has_char ":" expanded then
        let parts := split_max ":" 2 expanded in
        let host := hd "" parts in
        let opts := match parts with [_; _; o] => split_on "," o | _ => [] end in
        let '(external, external_rw) :=
          match external_host_path host name with
          | None => (external, external_rw)
          | Some r => (add_unique r external,
                       if negb (bool_decide ("ro" ∈ opts)) && rw_path_is_bindable r then add_unique r external_rw else external_rw)
          end in
        '(args, external, external_rw) ← volume_loop home name vols external external_rw;
        Ok (("--volume " +:+ join ":" (map dq parts)) :: args, external, external_rw)
      else
        '(args, external, external_rw) ← volume_loop home name vols external external_rw;
        Ok (("--volume " +:+ dq expanded) :: args, external, external_rw)
  end.

Definition volume_args (s : RunSpec) : res (list string * list string * list string) :=
  v ← get2 (rs_container s) "storage" "volumes" (TArr []);
  l ← iter v;
  volume_loop (home_dir s) (rs_name s) l [] [].
End volumes.

(** ** Every argument is one line *)

Lemma okp_get2 t a b d : clean_tab t -> clean_tv d = true -> okp (fun x => clean_tv x = true) (get2 t a b d).
Proof. intros Ht Hd. unfold get2. eapply okp_bind; [by apply okp_get_or|]. intros v Hv. by apply okp_get_or. Qed.

Lemma okp_as_text v : clean_tv v = true -> okp (fun s => clean s = true) (as_text v).
Proof. by destruct v. Qed.

Lemma okp_dq_tv v : clean_tv v = true -> okp (fun s => clean s = true) (dq_tv v).
Proof. destruct v; try done. cbn. apply clean_dq. Qed.

Lemma cleans_flag_of t k f : clean_tab t -> clean f = true -> cleans (flag_of t k f).
Proof.
  intros Ht Hf. unfold flag_of. destruct (assoc k t) eqn:E; [|constructor].
  repeat constructor. apply clean_app_2; [done|]. eapply clean_py_str, clean_assoc; done.
Qed.

Lemma okp_flags_of f v : clean f = true -> clean_tv v = true -> okp cleans (flags_of f v).
Proof.
  intros Hf Hv. unfold flags_of. eapply okp_bind; [by apply okp_iter|]. intros l Hl. apply cleans_map.
  eapply Forall_impl; [done|]. intros x Hx. apply clean_app_2; [done|]. by apply clean_py_str.
Qed.

#[export] Hint Resolve okp_get2 okp_as_text okp_dq_tv cleans_flag_of okp_flags_of : clean.
#[export] Hint Extern 0 (clean_tv _ = true) => reflexivity : clean.
#[export] Hint Extern 0 (clean _ = true) => reflexivity : clean.

Section clean_userns.
Variable getgrnam : string -> option Z.

Lemma okp_userns_mode security : clean_tv security = true -> okp (fun s => clean s = true) (userns_mode security).
Proof. intros Hs. unfold userns_mode. okp_auto. Qed.

Lemma clean_replace_from old new k s : clean new = true -> clean s = true -> clean (replace_from old new k s) = true.
Proof.
  intros Hn. revert k. induction s as [|c s IH]; intros k Hs; [done|]. rewrite clean_cons in Hs.
  apply andb_prop in Hs as [Hc Hs]. cbn [replace_from]. destruct k as [|k]; [|by apply IH].
  destruct (starts_with old (String c s)); [apply clean_app_2; auto|]. rewrite clean_cons, Hc. by apply IH.
Qed.

Lemma okp_fill_ids uid m : clean_tv m = true -> okp (fun s => clean s = true) (fill_ids uid m).
Proof.
  intros Hm. unfold fill_ids, replace_sub. okp_step. cbn [okp].
  repeat apply clean_replace_from; auto using clean_str_Z.
Qed.

Lemma explicit_maps_clean security key flag uid :
  clean_tv security = true -> clean flag = true -> okp cleans (explicit_maps security key flag uid).
Proof.
  intros Hs Hf. unfold explicit_maps. okp_step. okp_step.
  eapply okp_mapM; [done|]. intros m Hm. eapply okp_bind; [by apply okp_fill_ids|]. intros t Ht. cbn [okp]. clean_str.
Qed.

Lemma group_maps_clean mapped groups : okp cleans (group_maps getgrnam mapped groups).
Proof.
  revert mapped. induction groups as [|g groups IH]; intros mapped; cbn [group_maps]; [constructor|]. okp_auto.
Qed.

Hint Resolve okp_userns_mode group_maps_clean explicit_maps_clean : clean.

Lemma build_userns_args_clean security uid groups :
  clean_tv security = true -> clean_tv groups = true -> okp cleans (build_userns_args getgrnam security uid groups).
Proof. intros Hs Hg. unfold build_userns_args. okp_auto. Qed.

Lemma pod_member_user_clean security uid groups :
  okp (fun o => forall u, o = Some u -> clean u = true) (pod_member_user security uid groups).
Proof. unfold pod_member_user. repeat okp_step; try done. intros u <-%(inj Some). clean_str. Qed.
End clean_userns.

Lemma gpu_device_args_clean v g : clean g = true -> cleans (gpu_device_args v g).
Proof. intros Hg. unfold gpu_device_args. clean_list. Qed.

Lemma health_check_args_clean c : clean_tab c -> okp cleans (health_check_args c).
Proof. intros Hc. unfold health_check_args. okp_auto. Qed.

Lemma secret_mount_clean service f :
  clean service = true -> clean_tv f = true -> okp cleans (secret_mount service f).
Proof.
  intros Hs Hf. unfold secret_mount. okp_auto.
Qed.

Lemma okp_concat {A} (P : A -> Prop) (f : A -> res (list string)) l :
  Forall P l -> (forall a, P a -> okp cleans (f a)) -> okp cleans (r ← mapM_res f l; Ok (concat r)).
Proof.
  intros Hl Hf. eapply okp_bind; [by eapply okp_mapM|]. intros r Hr. by apply cleans_concat.
Qed.

Section clean_args.
Variable config_dir : string.
Variable getgrnam : string -> option Z.
Variable float_percent : string -> option string.
Variable ca_cert_path : string -> string.
Hypothesis Hdir : clean config_dir = true.
Hypothesis Hfloat : forall s c, float_percent s = Some c -> clean c = true.
Hypothesis Hcert : forall s, clean s = true -> clean (ca_cert_path s) = true.

Variable s : RunSpec.
Hypothesis Hw : clean_tab (rs_workload s).
Hypothesis Hc : clean_tab (rs_container s).
Hypothesis Hn : clean (rs_name s) = true.
Hypothesis Hcn : clean (rs_container_name s) = true.

Lemma secret_mount_args_clean : okp cleans (secret_mount_args s).
Proof.
  unfold secret_mount_args. okp_step. okp_step. eapply okp_concat; [done|].
  intros f Hf. apply secret_mount_clean; [|done]. by apply clean_app_2.
Qed.

Lemma okp_pull_policy : okp (fun v => clean_tv v = true) (pull_policy s).
Proof. unfold pull_policy. eapply okp_bind; [by apply okp_index|]. intros c Hcc. by apply okp_get_or. Qed.

Lemma okp_extra_groups : okp (fun v => clean_tv v = true) (extra_groups s).
Proof. by apply okp_get2. Qed.

Hint Resolve okp_pull_policy okp_extra_groups : clean.

Lemma base_run_args_clean st l sm :
  (forall m, sm = Some m -> clean m = true) -> okp cleans (base_run_args s st l sm).
Proof. intros Hm. unfold base_run_args. okp_auto. Qed.

Lemma user_args_clean : okp cleans (user_args s).
Proof.
  pose proof pod_member_user_clean. unfold user_args. okp_auto.
Qed.

Lemma clean_render_tokens {A} (f : A -> res string) l :
  (forall k, okp (fun v => clean v = true) (f k)) ->
  Forall (fun t => match t with inl c => Ascii.eqb LF c = false | inr _ => True end) l ->
  okp (fun v => clean v = true) (render_tokens f l).
Proof.
  intros Hf Hl. induction Hl as [|t l Ht _ IH]; [done|]. destruct t as [c|k]; cbn [render_tokens].
  - okp_step. cbn [okp]. by rewrite clean_cons, Ht.
  - eapply okp_bind; [apply Hf|]. intros x Hx. okp_step. cbn [okp]. clean_str.
Qed.

Lemma clean_tokens {A} (m : option ascii -> string -> option (A * nat)) prev k t :
  clean t = true ->
  Forall (fun t => match t with inl c => Ascii.eqb LF c = false | inr _ => True end) (re_tokens m prev k t).
Proof.
  revert prev k. induction t as [|c t IH]; intros prev k; [constructor|]. rewrite clean_cons.
  intros [Hx Ht]%andb_prop. apply negb_true_iff in Hx. cbn [re_tokens]. destruct k; [|by apply IH].
  destruct (m prev (String c t)) as [[a n]|]; constructor; auto.
Qed.

Lemma okp_expand_tokens v : clean v = true -> okp (fun x => clean x = true) (expand_workload_tokens config_dir v (rs_name s)).
Proof.
  intros Hv. apply clean_render_tokens; [|by apply clean_tokens]. intros k. unfold token_value.
  destruct (assoc k _) as [x|] eqn:E; [|done]. apply assoc_In in E. cbn [okp]. unfold workload_tokens in E.
  assert (Hd : clean_path (path_div (path_of config_dir) (rs_name s))) by (apply clean_path_div; [by apply clean_path_of|done]).
  repeat (apply elem_of_cons in E as [E|E]; [injection E as _ ->; clean_str|]). by apply not_elem_of_nil in E.
Qed.

Lemma expand_opts_clean opts :
  Forall (fun x => clean_tv x = true) opts -> okp cleans (expand_opts config_dir (rs_name s) opts).
Proof.
  intros Ho. unfold expand_opts. eapply okp_concat; [done|]. intros o Hoo. cbn beta.
  apply (okp_bind (fun s => clean s = true)); [by destruct o|]. intros t Ht.
  pose proof (okp_expand_tokens t Ht) as Hx. destruct (expand_workload_tokens _ _ _) as [e|[]]; try done; by repeat constructor.
Qed.

Lemma okp_security_opts : okp cleans (v ← get2 (rs_container s) "security" "security_opt" (TArr []); l ← iter v;
                                      expand_opts config_dir (rs_name s) l).
Proof. pose proof expand_opts_clean. okp_auto. Qed.

Lemma clean_selinux_type : clean (selinux_type_name (rs_name s)) = true.
Proof. unfold selinux_type_name, selinux_module_name. clean_str. Qed.

Lemma seccomp_args_clean priv opts : okp cleans (seccomp_args s priv opts).
Proof.
  unfold seccomp_args, derived_profile_name. okp_auto.
Qed.

Lemma security_args_clean : okp cleans (security_args config_dir s).
Proof.
  pose proof user_args_clean. pose proof expand_opts_clean. pose proof clean_selinux_type. pose proof seccomp_args_clean.
  unfold security_args. okp_auto.
Qed.

Lemma device_args_clean : okp cleans (device_args s).
Proof. unfold device_args. okp_auto. Qed.

Lemma bandwidth_args_clean t key flag :
  clean_tab t -> clean flag = true -> okp cleans (bandwidth_args t key flag).
Proof.
  intros Ht Hf. unfold bandwidth_args. apply (okp_bind (Forall (fun x => clean_tv x = true))).
  { apply okp_iter. destruct (assoc key t) eqn:E; [by eapply clean_assoc|done]. }
  intros l Hl. eapply okp_concat; [done|]. intros x Hx. cbn beta. okp_step.
  assert (Hws : cleans (split_ws1 a)).
  { unfold split_ws1. assert (Ha : clean (lstrip_by is_space a) = true) by (by apply clean_lstrip).
    pose proof (clean_span (fun c => negb (is_space c)) _ Ha) as [H1 H2].
    destruct (span _ _) as [w r]. cbn [fst snd] in *. destruct (String.eqb w ""); [constructor|].
    pose proof (clean_lstrip is_space r H2). destruct (lstrip_by is_space r); by repeat constructor. }
  cbn [okp]. destruct Hws as [|u [|v [|]] Hu Hv]; try constructor; [|constructor].
  inversion Hv; subst. clean_str.
Qed.

Lemma cgroup_args_clean : okp cleans (cgroup_args float_percent s).
Proof.
  pose proof bandwidth_args_clean. unfold cgroup_args, cpus_args. okp_auto.
Qed.

Lemma clean_v4 n : clean (v4_str n) = true.
Proof. unfold clean. by rewrite v4_str_chars. Qed.

Lemma okp_network_mode_arg : okp (fun v => clean_tv v = true) (container_network_mode_arg (rs_workload s) (rs_uid s)).
Proof.
  unfold container_network_mode_arg. okp_step. okp_step. destruct (negb _); [done|].
  apply (okp_bind (fun x => clean x = true)); [unfold resolve_address; okp_auto; apply clean_v4|].
  intros addr Ha. apply okp_bind_any. intros colon. cbn [okp clean_tv]. clean_str.
Qed.

Lemma network_args_clean : okp cleans (network_args s).
Proof. pose proof okp_network_mode_arg. unfold network_args. okp_auto. Qed.

Lemma clean_env_arg t : clean_tab t -> cleans (omap env_arg (t : list (string * tv))).
Proof.
  unfold clean_tab. cbn [clean_tv]. induction t as [|[k v] t IH]; [constructor|]. cbn [forallb omap list_omap].
  intros [[Hk Hv]%andb_prop Ht]%andb_prop. unfold env_arg at 1.
  destruct (negb _); [by apply IH|]. destruct (secret_search _); [by apply IH|].
  apply cleans_cons; [clean_str|by apply IH].
Qed.

Lemma env_args_clean : okp cleans (env_args s).
Proof. pose proof clean_env_arg. unfold env_args, build_plain_env_args. okp_auto. Qed.

Lemma clean_stripped_str t k x : clean_tab t -> stripped_str t k = Some x -> clean x = true.
Proof.
  intros Ht. unfold stripped_str. destruct (assoc k t) as [[v| | | | |]|] eqn:E; try done.
  destruct (String.eqb _ _); [done|]. intros <-%(inj Some). apply clean_strip. exact (clean_assoc _ _ _ Ht E).
Qed.

Lemma clean_network_of w : clean_tab w -> clean_tab (network_of w).
Proof.
  intros Ht. unfold network_of. destruct (assoc "network" w) as [[]|] eqn:E; try done. exact (clean_assoc _ _ _ Ht E).
Qed.

Lemma clean_credentials net :
  clean_tab net -> Forall (fun c => clean (cr_env c) = true /\ clean (cr_placeholder c) = true) (parse_credential_entries net).
Proof.
  intros Ht. unfold parse_credential_entries. destruct (assoc "credential" net) as [[]|] eqn:E; try constructor.
  apply (clean_assoc _ _ _ Ht) in E. cbn [clean_tv] in E. rewrite forallb_forall in E.
  apply Forall_forall. intros c (x & Hx & Hp)%list_elem_of_omap. apply list_elem_of_In, E in Hx.
  destruct x as [| | | | |t]; try done. cbn [parse_credential] in Hp.
  destruct (stripped_str t "name") eqn:E1, (stripped_str t "placeholder") eqn:E2, (stripped_str t "env") eqn:E3; try done.
  apply (inj Some) in Hp as <-. split; by eapply clean_stripped_str.
Qed.

Lemma credential_env_args_clean : okp cleans (container_credential_env_args s).
Proof.
  unfold container_credential_env_args, container_credential_entries. apply okp_bind_any. intros uses. cbn [okp].
  destruct (negb uses); [constructor|]. apply cleans_map.
  eapply Forall_impl; [apply clean_credentials, clean_network_of, Hw|]. intros c [He Hp]. cbn beta. clean_str.
Qed.

Lemma ca_delivery_args_clean : okp cleans (container_ca_delivery_args ca_cert_path s).
Proof.
  unfold container_ca_delivery_args. apply okp_bind_any. intros uses.
  assert (Hce : clean (ca_cert_path (path_str (workload_state_dir (rs_name s)))) = true) by (apply Hcert; clean_str).
  pose proof (clean_network_of _ Hw) as Hnet. destruct (negb uses); [constructor|]. cbv zeta.
  destruct (container_ca_delivery _); [|constructor]. repeat case_match; cbn [okp]; try clean_list.
  - apply cleans_cons; [|constructor]. assert (clean s1 = true) by (by eapply clean_stripped_str). clean_str.
  - unfold CA_ENV_VARS. clean_list.
Qed.

Lemma command_args_clean command :
  (forall v, command = Some v -> clean_tv v = true) -> okp cleans (command_args command).
Proof.
  intros Hv. unfold command_args. destruct command as [v|]; [|constructor]. specialize (Hv v eq_refl).
  destruct (negb (truthy v)); [constructor|].
  destruct v as [| | | |l|]; try (eapply okp_bind; [by apply okp_dq_tv|]; intros; repeat constructor; done).
  eapply okp_mapM; [|exact okp_dq_tv]. apply Forall_forall. intros x Hx. cbn in Hv. rewrite forallb_forall in Hv.
  by apply Hv, list_elem_of_In.
Qed.

Lemma podman_run_args_clean st l sm vendor gpu vols image command :
  (forall m, sm = Some m -> clean m = true) -> clean gpu = true -> cleans vols -> clean_tv image = true ->
  (forall v, command = Some v -> clean_tv v = true) ->
  okp cleans (podman_run_args config_dir getgrnam float_percent ca_cert_path s st l sm vendor gpu vols image command).
Proof.
  intros Hsm Hg Hv Hi Hcm.
  pose proof (base_run_args_clean st l sm Hsm). pose proof security_args_clean. pose proof device_args_clean.
  pose proof cgroup_args_clean. pose proof network_args_clean. pose proof ca_delivery_args_clean.
  pose proof credential_env_args_clean. pose proof secret_mount_args_clean. pose proof env_args_clean.
  pose proof (health_check_args_clean _ Hc). pose proof (command_args_clean command Hcm).
  pose proof (gpu_device_args_clean vendor gpu Hg). pose proof (build_userns_args_clean getgrnam).
  unfold podman_run_args. okp_step. okp_step.
  apply (okp_bind cleans); [|intros; repeat okp_step; clean_list].
  okp_auto.
Qed.
End clean_args.

Section clean_volumes.
Variable resolve_path : string -> option string.
Variable path_kind : string -> path_type.
Hypothesis Hres : forall p q, clean p = true -> resolve_path p = Some q -> clean q = true.

Lemma clean_data_root home : clean home = true -> clean (data_root home) = true.
Proof.
  intros Hh. destruct (clean_path_of home Hh) as [Hr Hp]. apply clean_path_str, clean_path_div; [|done].
  split; [done|]. cbn [path_parent parts]. clear -Hp. induction Hp as [|a l Ha Hl IH]; [constructor|]. cbn [removelast].
  destruct l; [constructor|by constructor].
Qed.

Lemma expand_anchor_clean host home :
  clean host = true -> clean home = true -> okp (fun x => clean x = true) (expand_anchor host home).
Proof.
  intros Hh Hho. pose proof (clean_data_root home Hho) as Hd.
  assert (Hs : clean (state_vol_root home) = true) by (by apply clean_app_2).
  unfold expand_anchor.
  assert (Ha : Forall (fun p => clean (snd p) = true) (anchors home)) by (by repeat constructor).
  assert (Ht : forall l, Forall (fun p => clean (snd p) = true) l ->
            match try_anchors host l with Some r => okp (fun x => clean x = true) r | None => True end).
  { induction 1 as [|[prefix root] l Hx _ IH]; [done|]. cbn [try_anchors]. unfold strip_prefix.
    destruct (starts_with prefix host); [|done]. unfold safe_anchor_subpath. destruct (_ || _); [done|].
    cbn [mbind res_bind okp]. case_decide; [done|]. cbn [snd] in Hx.
    repeat (apply clean_app_2; [done|]). by apply clean_drop. }
  specialize (Ht _ Ha). destruct (try_anchors host (anchors home)); [done|]. by repeat case_decide.
Qed.

Lemma expand_volume_path_clean v home :
  clean v = true -> clean home = true -> okp (fun x => clean x = true) (expand_volume_path v home).
Proof.
  intros Hv Hh. unfold expand_volume_path, parse_volume_spec. pose proof (clean_split_max ":" 2 v Hv) as Hl.
  assert (Hb : forall h g o, clean h = true -> clean g = true -> clean o = true ->
    okp (fun x => clean x = true)
      (x ← expand_anchor h home;
       Ok (match count_char ":" v with O => x | 1%nat => x +:+ ":" +:+ g | _ => x +:+ ":" +:+ g +:+ ":" +:+ o end))).
  { intros h g o H1 H2 H3. eapply okp_bind; [by apply expand_anchor_clean|]. intros x Hx. cbn [okp]. clean_str. }
  destruct Hl as [|h l H1 Hl]; [by apply Hb|]. destruct Hl as [|g l H2 Hl]; [by apply Hb|].
  destruct Hl as [|o l H3 Hl]; by apply Hb.
Qed.

Definition clean_volumes (r : list string * list string * list string) : Prop :=
  cleans (fst (fst r)) /\ cleans (snd (fst r)) /\ cleans (snd r).

Lemma cleans_add_unique x l : clean x = true -> cleans l -> cleans (add_unique x l).
Proof. intros. unfold add_unique. destruct (bool_decide _); [done|]. apply cleans_app; [done|by repeat constructor]. Qed.

Lemma volume_loop_clean home name vols ext extrw :
  clean home = true -> Forall (fun v => clean_tv v = true) vols -> cleans ext -> cleans extrw ->
  okp clean_volumes (volume_loop resolve_path path_kind home name vols ext extrw).
Proof.
  intros Hh Hv. revert ext extrw. induction Hv as [|v vols Hv _ IH]; intros ext extrw He Hr; cbn [volume_loop].
  { by repeat split; try constructor. }
  eapply okp_bind; [by apply okp_as_text|]. intros spec Hs.
  eapply okp_bind; [by apply expand_volume_path_clean|]. cbv beta. intros x Hx. pose proof (clean_split_max ":" 2 x Hx) as Hp.
  destruct (has_char ":" x).
  - assert (Hd : forall r, external_host_path resolve_path (hd "" (split_max ":" 2 x)) name = Some r -> clean r = true).
    { unfold external_host_path. intros r. destruct (resolve_path _) eqn:E; [|done].
      destruct (_ || _); [done|]. intros <-%(inj Some). eapply Hres; [|done]. by apply clean_hd. }
    destruct (external_host_path _ _ _) as [r|].
    + eapply okp_bind; [apply IH; [by apply cleans_add_unique; auto|destruct (_ && _); auto using cleans_add_unique]|].
      intros [[args e] er] (H1 & H2 & H3). split; [|done]. apply cleans_cons; [|done].
      apply clean_app_2; [done|]. apply clean_join; [done|]. apply cleans_map. eapply Forall_impl; [done|]. intros; by apply clean_dq.
    + eapply okp_bind; [by apply IH|].
      intros [[args e] er] (H1 & H2 & H3). split; [|done]. apply cleans_cons; [|done].
      apply clean_app_2; [done|]. apply clean_join; [done|]. apply cleans_map. eapply Forall_impl; [done|]. intros; by apply clean_dq.
  - eapply okp_bind; [by apply IH|]. intros [[args e] er] (H1 & H2 & H3). split; [|done].
    apply cleans_cons; [clean_str|done].
Qed.

Lemma volume_args_clean s :
  clean_tab (rs_container s) -> clean (rs_name s) = true -> okp clean_volumes (volume_args resolve_path path_kind s).
Proof.
  intros Hc Hn. unfold volume_args. eapply okp_bind; [by apply okp_get2|]. intros v Hv.
  eapply okp_bind; [by apply okp_iter|]. intros l Hl. apply volume_loop_clean; try done; try constructor.
  unfold home_dir. auto with clean.
Qed.
End clean_volumes.

(** ** User namespaces *)

Lemma userns_mode_valid security m :
  userns_mode security = Ok m ->
  valid_userns_mode m = true /\
  (m = "host" -> exists v, get_or security "userns" (TStr "keep-id") = Ok v /\ v = TStr "host").
Proof.
  unfold userns_mode. intros (v & Hv & H)%bind_Ok_inv.
  destruct (_ || _) eqn:E.
  - destruct v as [t| | | | |]; try done. cbn [as_text] in H. apply Ok_inj in H as ->.
    split; [|intros ->; eauto]. unfold is_the_str in E. unfold valid_userns_mode. by rewrite E.
  - destruct v as [t| | | | |]; try done. cbn [as_text mbind res_bind] in H. apply Ok_inj in H as <-.
    destruct (valid_userns_mode t) eqn:Et; [|done]. split; [done|]. intros ->. eauto.
Qed.

Definition map_flag (a : string) : bool := starts_with "--uidmap " a || starts_with "--gidmap " a.

Lemma group_maps_flags getgrnam mapped groups : okp (Forall (fun a => map_flag a = true)) (group_maps getgrnam mapped groups).
Proof.
  revert mapped. induction groups as [|g groups IH]; intros mapped; cbn [group_maps]; [constructor|].
  apply okp_bind_any. intros n. destruct (getgrnam n); [|apply IH]. destruct (bool_decide _); [apply IH|].
  eapply okp_bind; [apply IH|]. intros rest Hr. by constructor.
Qed.

Lemma explicit_maps_flags security key flag uid :
  flag = "--uidmap" \/ flag = "--gidmap" -> okp (Forall (fun a => map_flag a = true)) (explicit_maps security key flag uid).
Proof.
  intros Hf. unfold explicit_maps. apply okp_bind_any. intros v. apply okp_bind_any. intros l.
  eapply (okp_mapM (fun _ => True)); [by apply Forall_true|]. intros m _. apply okp_bind_any. intros t.
  by destruct Hf as [-> | ->].
Qed.

Lemma userns_args_shape getgrnam security uid groups args :
  build_userns_args getgrnam security uid groups = Ok args ->
  ((exists m, args = ["--userns=" +:+ m] /\ valid_userns_mode m = true) \/
   (exists u g rest,
      args = ("--uidmap +" +:+ str_Z u +:+ ":@" +:+ str_Z uid +:+ ":1") ::
             ("--gidmap +" +:+ str_Z g +:+ ":@" +:+ str_Z uid +:+ ":1") :: rest /\
      Forall (fun a => map_flag a = true) rest)) /\
  ("--userns=host" ∈ args -> get_or security "userns" (TStr "keep-id") = Ok (TStr "host")).
Proof.
  unfold build_userns_args. intros (m & Hm & H)%bind_Ok_inv. apply bind_Ok_inv in H as (auto & Ha & H).
  apply userns_mode_valid in Hm as [Hv Hh]. destruct auto.
  - apply bind_Ok_inv in H as ([u g] & _ & H). apply bind_Ok_inv in H as (gr & _ & H).
    apply bind_Ok_inv in H as (gm & Hg & H). apply bind_Ok_inv in H as (us & Hus & H).
    apply bind_Ok_inv in H as (gs & Hgs & H). apply Ok_inj in H as <-.
    pose proof (group_maps_flags getgrnam [uid] gr) as F1. rewrite Hg in F1.
    pose proof (explicit_maps_flags security "extra_uidmaps" "--uidmap" uid (or_introl eq_refl)) as F2. rewrite Hus in F2.
    pose proof (explicit_maps_flags security "extra_gidmaps" "--gidmap" uid (or_intror eq_refl)) as F3. rewrite Hgs in F3.
    assert (Hf : Forall (fun a => map_flag a = true) (gm ++ us ++ gs)) by (repeat apply Forall_app_2; done).
    split; [right; eauto 6|]. intros Hin. exfalso. rewrite Forall_forall in Hf.
    repeat (apply elem_of_cons in Hin as [Hin|Hin]; [discriminate|]). by apply Hf in Hin.
  - apply Ok_inj in H as <-. split; [left; eauto|]. intros Hin%list_elem_of_singleton.
    destruct Hh as (v & Hv' & ->); [|done]. by injection Hin as <-.
Qed.

(** podman takes either [--userns] or identity maps, never both: the
    arguments are one [--userns=] of a valid mode, or maps only, the first two of which
    give the workload's user and group its place in the container; and
    [--userns=host] appears only when the [security] table says "host". *)
Theorem userns_args_exclusive getgrnam security uid groups args :
  build_userns_args getgrnam security uid groups = Ok args ->
  ((exists m, args = ["--userns=" +:+ m] /\ valid_userns_mode m = true) \/
   (exists u g rest,
      args = ("--uidmap +" +:+ str_Z u +:+ ":@" +:+ str_Z uid +:+ ":1") ::
             ("--gidmap +" +:+ str_Z g +:+ ":@" +:+ str_Z uid +:+ ":1") :: rest /\
      Forall (fun a => map_flag a = true) rest)) /\
  ("--userns=host" ∈ args -> get_or security "userns" (TStr "keep-id") = Ok (TStr "host")).
Proof. apply userns_args_shape. Qed.

Definition no_groups (_ : string) : option Z := None.

Lemma userns_args_exclusive_witness :
  exists args, build_userns_args no_groups (TTab [("userns", TStr "keep-id:uid=7,gid=8"); ("extra_uidmaps", TArr [TStr "0:{UID}:1"])])
    10001 (TArr []) = Ok args /\
  args = ["--uidmap +7:@10001:1"; "--gidmap +8:@10001:1"; "--uidmap 0:10001:1"] /\
  ((exists m, args = ["--userns=" +:+ m] /\ valid_userns_mode m = true) \/
   (exists u g rest,
      args = ("--uidmap +" +:+ str_Z u +:+ ":@" +:+ str_Z 10001 +:+ ":1") ::
             ("--gidmap +" +:+ str_Z g +:+ ":@" +:+ str_Z 10001 +:+ ":1") :: rest /\
      Forall (fun a => map_flag a = true) rest)).
Proof.
  eexists. split; [vm_compute; reflexivity|]. split; [vm_compute; reflexivity|].
  exact (proj1 (userns_args_exclusive no_groups
    (TTab [("userns", TStr "keep-id:uid=7,gid=8"); ("extra_uidmaps", TArr [TStr "0:{UID}:1"])])
    10001 (TArr []) ["--uidmap +7:@10001:1"; "--gidmap +8:@10001:1"; "--uidmap 0:10001:1"] eq_refl)).
Defined.

(** The [security] table that decides the user namespace of a container: the
    pod's in pod mode, else the container's own. *)
Definition userns_owner (m : mode) (config container : table) : res tv :=
  get_or (TTab (if bool_decide (m = MPod) then config else container)) "security" (TTab []).

Lemma single_security config cs c :
  normalize_containers config = Ok cs -> assoc "containers" config = None -> c ∈ cs ->
  exists v t, get_or (TTab config) "security" (TTab []) = Ok v /\ dict_of v = Ok t /\ assoc "security" c = Some (TTab t).
Proof.
  unfold normalize_containers. intros H Hc Hin. rewrite Hc in H.
  apply bind_Ok_inv in H as (w & _ & H). apply bind_Ok_inv in H as (n & _ & H). apply bind_Ok_inv in H as (ct & _ & H).
  apply bind_Ok_inv in H as (sec & Hsec & H). repeat apply bind_Ok_inv in H as (? & _ & H). apply Ok_inj in H as <-.
  apply list_elem_of_singleton in Hin as ->. apply bind_Ok_inv in Hsec as (v & Hv & Hsec).
  apply bind_Ok_inv in Hsec as (t & Ht & <-%Ok_inj). eauto.
Qed.

Lemma dict_of_userns v t : dict_of v = Ok t -> get_or (TTab t) "userns" (TStr "keep-id") = Ok (TStr "host") -> v = TTab t.
Proof. destruct v as [[]| | | |[]|]; try done; cbn; by intros [= <-]. Qed.

Lemma get_or_host v : get_or v "userns" (TStr "keep-id") = Ok (TStr "host") -> exists t, v = TTab t /\ assoc "userns" t = Some (TStr "host").
Proof. destruct v as [| | | | |t]; try done. cbn. destruct (assoc "userns" t) eqn:E; [|done]. intros ->%Ok_inj. eauto. Qed.

(** The namespace of a container is the host's only where [uses_host_userns]
    looked. *)
Lemma uses_host_userns_complete config m cs c owner :
  infer_workload_kind config = KContainer -> infer_workload_mode config = Ok m ->
  normalize_containers config = Ok cs -> c ∈ cs -> (m = MSingle -> assoc "containers" config = None) ->
  userns_owner m config c = Ok owner -> get_or owner "userns" (TStr "keep-id") = Ok (TStr "host") ->
  forall b, uses_host_userns config = Ok b -> b = true.
Proof.
  intros Hk Hm Hcs Hc Hs Ho Hh b Hb. unfold uses_host_userns in Hb. rewrite Hk, Hm in Hb.
  rewrite decide_False in Hb by done. destruct m; unfold userns_owner in Ho;
    [rewrite bool_decide_eq_false_2 in Ho by done|rewrite bool_decide_eq_true_2 in Ho by done|rewrite bool_decide_eq_false_2 in Ho by done];
    cbn [get_or] in Ho.
  - destruct (single_security _ _ _ Hcs (Hs eq_refl) Hc) as (v & t & H1 & H2 & H3). rewrite H3 in Ho.
    apply Ok_inj in Ho as <-. apply bind_Ok_inv in Hb as (w & Hw & Hb). unfold userns_of in Hw. rewrite H1 in Hw.
    pose proof (dict_of_userns _ _ H2 Hh) as ->. apply get_or_host in Hh as (t' & [= <-] & Ha).
    cbn in Hw. rewrite Ha in Hw. by simplify_eq.
  - apply get_or_host in Hh as (t & -> & Ha). unfold userns_of in Hb. apply Ok_inj in Ho. cbn [get_or] in Hb. rewrite Ho in Hb.
    cbn in Hb. rewrite Ha in Hb. by apply Ok_inj in Hb as <-.
  - rewrite Hcs in Hb. cbn in Hb. apply bind_Ok_inv in Hb as (vs & Hvs & Hb). apply Ok_inj in Hb as <-.
    apply mapM_res_Forall2 in Hvs. apply get_or_host in Hh as (t & -> & Ha).
    apply list_elem_of_lookup in Hc as [i Hi].
    destruct (Forall2_lookup_l _ _ _ _ _ Hvs Hi) as (v & Hv & Hu).
    apply existsb_exists. exists v. split; [by eapply list_elem_of_In, list_elem_of_lookup_2|].
    unfold userns_of in Hu. apply Ok_inj in Ho. cbn [get_or] in Hu. rewrite Ho in Hu. cbn in Hu. rewrite Ha in Hu.
    by apply Ok_inj in Hu as <-.
Qed.

Lemma acknowledged_is_set config :
  host_userns_acknowledged config = Ok true -> exists t, assoc "security" config = Some (TTab t) /\ truthy_at t "unsafe_host_userns" = true.
Proof.
  unfold host_userns_acknowledged, get_or, truthy_at. destruct (assoc "security" config) as [v|]; cbn [mbind res_bind]; [|done].
  destruct v; try done. cbn. intros H. exists t. split; [done|]. destruct (assoc HOST_USERNS_OPT_IN t) eqn:E; unfold HOST_USERNS_OPT_IN in E; rewrite E; congruence.
Qed.

(** C36.  In a container workload that is accepted, of whichever mode, the user namespace of a
    container is decided by the arguments [build_userns_args] builds from a [security]
    table: the workload's in pod mode, where they go to the pod, and else the
    container's, which of a single container is the workload's.  If these arguments
    hold [--userns=host], the workload's [security] table sets [unsafe_host_userns] to
    a value that is true. *)
Theorem host_userns_only_acknowledged patterns_overlap hostname_match getgrnam config m cs c owner uid groups args :
  validate_container_config patterns_overlap hostname_match config = Ok [] ->
  infer_workload_kind config = KContainer -> infer_workload_mode config = Ok m ->
  normalize_containers config = Ok cs -> c ∈ cs ->
  userns_owner m config c = Ok owner -> build_userns_args getgrnam owner uid groups = Ok args ->
  "--userns=host" ∈ args ->
  exists t, assoc "security" config = Some (TTab t) /\ truthy_at t "unsafe_host_userns" = true.
Proof.
  intros Hv Hk Hm Hcs Hc Ho Hb Hin. apply acknowledged_is_set. apply userns_args_shape in Hb as [_ Hh]. specialize (Hh Hin).
  pose proof (accepted_walks _ _ _ Hv) as (_ & _ & _ & host & ack & H1 & H2 & Himp).
  rewrite H2, Himp; [done|]. eapply uses_host_userns_complete; eauto. intros ->. by eapply accepted_single.
Qed.

(** In pod mode the workload's table decides; in bridge mode the container's own, while the
    acknowledgement is the workload's. *)
Definition sample_bridge : table :=
  [("workload", TTab [("name", TStr "web"); ("mode", TStr "bridge")]); ("security", TTab [("unsafe_host_userns", TBool true)]);
   ("containers", TArr [TTab [("name", TStr "app"); ("container", TTab [("image", TStr "a")]); ("security", TTab [("userns", TStr "host")])]])].

Lemma host_userns_only_acknowledged_witness :
  validate_container_config same_pattern same_match sample_pod = Ok [] /\
  validate_container_config same_pattern same_match sample_bridge = Ok [] /\
  (exists t, assoc "security" sample_pod = Some (TTab t) /\ truthy_at t "unsafe_host_userns" = true) /\
  (exists t, assoc "security" sample_bridge = Some (TTab t) /\ truthy_at t "unsafe_host_userns" = true).
Proof.
  split_and!; [vm_compute; reflexivity|vm_compute; reflexivity| |
    apply (host_userns_only_acknowledged same_pattern same_match no_groups sample_bridge MBridge
      [[("name", TStr "app"); ("container", TTab [("image", TStr "a")]); ("security", TTab [("userns", TStr "host")])]]
      [("name", TStr "app"); ("container", TTab [("image", TStr "a")]); ("security", TTab [("userns", TStr "host")])]
      (TTab [("userns", TStr "host")]) 10001 (TArr []) ["--userns=host"]);
    first [reflexivity | vm_compute; reflexivity | left]].
  apply (host_userns_only_acknowledged same_pattern same_match no_groups sample_pod MPod
    [[("name", TStr "app"); ("container", TTab [("image", TStr "a")])];
     [("name", TStr "side"); ("container", TTab [("image", TStr "b")])]]
    [("name", TStr "side"); ("container", TTab [("image", TStr "b")])]
    (TTab [("userns", TStr "host"); (HOST_USERNS_OPT_IN, TBool true)]) 10001 (TArr []) ["--userns=host"]);
    first [reflexivity | vm_compute; reflexivity | right; left | left].
Defined.

(** ** Confinement *)

Lemma privileged_only l :
  Forall (fun a => starts_with "--privileged" a = false) l -> "--privileged" ∉ l.
Proof. rewrite Forall_forall. intros H Hin. by apply H in Hin. Qed.

Lemma flags_not_privileged {A} p (f : A -> string) l :
  (forall t, starts_with "--privileged" (p +:+ t) = false) ->
  Forall (fun a => starts_with "--privileged" a = false) (map (fun x => p +:+ f x) l).
Proof. intros H. apply Forall_map. by apply Forall_true. Qed.

Lemma flags_of_not_privileged v :
  okp (Forall (fun a => starts_with "--privileged" a = false)) (flags_of "--cap-add=" v).
Proof. unfold flags_of. apply okp_bind_any. intros l. by apply flags_not_privileged. Qed.

Lemma user_args_not_privileged s :
  okp (Forall (fun a => starts_with "--privileged" a = false)) (user_args s).
Proof.
  unfold user_args. apply okp_bind_any. intros u. destruct (truthy u); [by repeat constructor|].
  destruct (bool_decide _); [|constructor]. repeat (apply okp_bind_any; intros ?).
  case_match; by repeat constructor.
Qed.

Definition seccomp_flag (a : string) : bool := starts_with "--security-opt=seccomp=" a.

Lemma seccomp_args_flags s priv opts l :
  seccomp_args s priv opts = Ok l ->
  Forall (fun a => seccomp_flag a = true) l /\
  (truthy priv = false -> Exists (fun a => seccomp_flag a = true) (map (fun o => "--security-opt=" +:+ o) opts ++ l)).
Proof.
  unfold seccomp_args. destruct (truthy priv); cbn [orb].
  { intros <-%Ok_inj. split; [constructor|done]. }
  destruct (existsb (starts_with "seccomp=") opts) eqn:E.
  - intros <-%Ok_inj. split; [constructor|]. intros _. rewrite app_nil_r.
    apply existsb_exists in E as (o & Hin & Ho). apply Exists_exists. exists ("--security-opt=" +:+ o).
    split; [by apply list_elem_of_In, in_map|]. unfold seccomp_flag. exact Ho.
  - intros (a & _ & <-%Ok_inj)%bind_Ok_inv. split; [by repeat constructor|].
    intros _. apply Exists_app. right. by left.
Qed.

(** A container is privileged exactly when the workload's [security]
    table says so, and otherwise runs under a seccomp profile: the one the author
    names in [security_opt], or the workload's derived profile, or the baseline. *)
Theorem confined_unless_privileged config_dir s priv args :
  security_args config_dir s = Ok args -> privileged s = Ok priv ->
  ("--privileged" ∈ args <-> truthy priv = true) /\
  (truthy priv = false -> Exists (fun a => seccomp_flag a = true) args).
Proof.
  unfold security_args. intros H Hp. rewrite Hp in H. cbn [mbind res_bind] in H.
  apply bind_Ok_inv in H as (groups & _ & H). apply bind_Ok_inv in H as (user & Hu & H).
  apply bind_Ok_inv in H as (cv & _ & H). apply bind_Ok_inv in H as (caps & Hcaps & H).
  apply bind_Ok_inv in H as (ov & _ & H). apply bind_Ok_inv in H as (ol & _ & H).
  apply bind_Ok_inv in H as (opts & _ & H). apply bind_Ok_inv in H as (sel & _ & H).
  apply bind_Ok_inv in H as (sc & Hsc & <-%Ok_inj).
  pose proof (user_args_not_privileged s) as Nu. rewrite Hu in Nu.
  pose proof (flags_of_not_privileged cv) as Nc. rewrite Hcaps in Nc.
  apply seccomp_args_flags in Hsc as [Fs Es]. split.
  - split; [|intros ->; rewrite !elem_of_app; do 5 right; left; by left].
    intros Hin. destruct (truthy priv) eqn:E; [done|]. exfalso. revert Hin. apply privileged_only.
    apply Forall_app_2; [done|]. apply Forall_app_2; [done|].
    apply Forall_app_2; [by apply (flags_not_privileged "--security-opt=" (fun o => o))|].
    apply Forall_app_2; [repeat case_match; by repeat constructor|].
    apply Forall_app_2; [|cbn [app]; case_match; by repeat constructor].
    eapply Forall_impl; [exact Fs|]. intros a (t & ->)%starts_with_spec. done.
  - intros E. specialize (Es E). apply Exists_app in Es as [Es|Es]; rewrite !Exists_app; tauto.
Qed.

Definition sample_spec : RunSpec :=
  mkSpec [("workload", TTab [("name", TStr "web")]); ("security", TTab [("seccomp_allow", TArr [TStr "mount"])])]
    [("name", TStr "web"); ("container", TTab [("image", TStr "img")])] 10001 "web" "workload-web" MSingle.

Lemma confined_unless_privileged_witness :
  security_args "/etc/workloads" sample_spec = Ok ["--security-opt=seccomp=/run/systemd/system/workload-web.seccomp.json"] /\
  Exists (fun a => seccomp_flag a = true) ["--security-opt=seccomp=/run/systemd/system/workload-web.seccomp.json"].
Proof.
  split; [vm_compute; reflexivity|].
  apply (confined_unless_privileged "/etc/workloads" sample_spec (TBool false)); vm_compute; reflexivity.
Defined.

(** ** Environment *)

Lemma env_arg_Some k v a :
  env_arg (k, v) = Some a <->
  validate_env_key k = true /\ secret_search (py_str v) = false /\ a = "--env " +:+ k +:+ "=" +:+ dq (py_str v).
Proof.
  unfold env_arg. destruct (validate_env_key k), (secret_search (py_str v)); cbn [negb]; split;
    try done; try (by intros (? & ? & ?)).
  - by intros <-%(inj Some).
  - by intros (_ & _ & ->).
Qed.

(** The environment arguments of a container are the host's address,
    one argument for each variable of [container.environment] that has a valid name
    and refers to no secret, and nothing else but the secrets file, which is
    there exactly when some variable refers to a secret: no secret value is
    written into the unit. *)
Theorem env_args_exact s env args :
  get2 (rs_container s) "container" "environment" (TTab []) = Ok (TTab env) -> env_args s = Ok args ->
  let file := "--env-file " +:+ dq ("/run/workload-env/" +:+ rs_container_name s +:+ ".secrets") in
  (forall a, a ∈ args <->
     a = "--env HOST_IP=${HOST_IP}" \/
     (exists k v, (k, v) ∈ env /\ validate_env_key k = true /\ secret_search (py_str v) = false /\
                  a = "--env " +:+ k +:+ "=" +:+ dq (py_str v)) \/
     (a = file /\ exists k v, (k, v) ∈ env /\ secret_search (py_str v) = true)).
Proof.
  intros He H file a. unfold env_args, build_plain_env_args, has_secret_env_vars in H.
  unfold get2 in He. apply bind_Ok_inv in He as (c & Hc & He).
  unfold get2 in H. rewrite Hc in H. cbn [mbind res_bind] in H. rewrite He in H. cbn [mbind res_bind items] in H.
  apply Ok_inj in H as <-. fold file. rewrite elem_of_cons, elem_of_app, list_elem_of_omap.
  assert (Hx : a ∈ (if existsb (fun kv : string * tv => secret_search (py_str (snd kv))) env then [file] else []) <->
               a = file /\ exists k v, (k, v) ∈ env /\ secret_search (py_str v) = true).
  { destruct (existsb _ _) eqn:E.
    - apply existsb_exists in E as ([k v] & Hin%list_elem_of_In & Hs). rewrite list_elem_of_singleton. naive_solver.
    - split; [by intros ?%not_elem_of_nil|]. intros (_ & k & v & Hin%list_elem_of_In & Hs).
      assert (existsb (fun kv : string * tv => secret_search (py_str (snd kv))) env = true) by (apply existsb_exists; eauto).
      congruence. }
  rewrite Hx. clear Hx He. split.
  - intros [?|[([k v] & Hin & Ha)|?]]; [by left| |by right; right].
    apply env_arg_Some in Ha as (? & ? & ?). right. left. by exists k, v.
  - intros [?|[(k & v & Hin & H1 & H2 & H3)|?]]; [by left| |by right; right].
    right. left. exists (k, v). split; [done|]. by apply env_arg_Some.
Qed.

Definition env_spec : RunSpec :=
  mkSpec [] [("name", TStr "web");
             ("container", TTab [("environment", TTab [("A", TStr "1"); ("B", TStr "${SECRET:tok}"); ("bad key", TStr "x")])])]
    10001 "web" "workload-web" MSingle.

Lemma env_args_exact_witness :
  env_args env_spec = Ok ["--env HOST_IP=${HOST_IP}"; "--env A=" +:+ dq "1"; "--env-file " +:+ dq "/run/workload-env/workload-web.secrets"] /\
  "--env A=" +:+ dq "1" ∈ ["--env HOST_IP=${HOST_IP}"; "--env A=" +:+ dq "1"; "--env-file " +:+ dq "/run/workload-env/workload-web.secrets"].
Proof.
  split; [vm_compute; reflexivity|].
  apply (env_args_exact env_spec [("A", TStr "1"); ("B", TStr "${SECRET:tok}"); ("bad key", TStr "x")]);
    [vm_compute; reflexivity|vm_compute; reflexivity|].
  right. left. exists "A", (TStr "1"). split; [by left|]. vm_compute. done.
Defined.
