(* ===== verification/UnitGen.v ===== *)
(** * Units as sequences of builder calls

    The generators ([lib/gen_*.py]) make a [Unit], call [set], [add], [comment]
    and [blank] on its sections and render it.  A generator is modelled as the
    list of its calls per section; [build] replays them on the builder of
    [UnitFile].

    A value is [plain] when it holds no line feed and does not end in an
    unescaped backslash; plain values are what the read-back theorem of
    [UnitFile] asks for, and the lemmas here close them under what the generators do
    with strings. *)
From S2P Require Import Prelude PyStr PyPath UnitFile Toml WorkloadNames Validation Clean.

(** ** Calls *)

Inductive call :=
  | CSet (key value : string)
  | CAdd (key value : string)
  | CComment (text : string)
  | CBlank.

Definition run_call (l : list uline) (c : call) : list uline :=
  match c with
  | CSet k v => sec_set k v l
  | CAdd k v => sec_add k v l
  | CComment t => sec_comment t l
  | CBlank => sec_blank l
  end.

Definition run_calls (l : list uline) (cs : list call) : list uline := foldl run_call l cs.

(** A unit: its comments, and the calls on each section in the order the
    sections are first asked for. *)
Definition build (comments : list string) (secs : list (string * list call)) : unit_file :=
  foldl (fun u '(n, cs) => unit_section n (fun l => run_calls l cs) u)
    (foldl (fun u t => unit_comment t u) empty_unit comments) secs.

(** ** Plain values *)

Definition plain (s : string) : bool := clean s && negb (continues s).

(** Whatever stands before it, the line does not go on. *)
Definition closes (s : string) : bool := negb (continues_from true s) && negb (continues_from false s).

Lemma plain_clean s : plain s = true -> clean s = true.
Proof. by intros [? _]%andb_prop. Qed.

Lemma plain_continues s : plain s = true -> continues s = false.
Proof. by intros [_ ?%negb_true_iff]%andb_prop. Qed.

Lemma continues_app s t : continues s = false -> continues t = false -> continues (s +:+ t) = false.
Proof. unfold continues. rewrite continues_from_app. by intros ->. Qed.

Lemma closes_app s t : closes t = true -> closes (s +:+ t) = true.
Proof.
  unfold closes. rewrite !continues_from_app. intros [H1 H2]%andb_prop.
  by destruct (continues_from true s), (continues_from false s); rewrite ?H1, ?H2.
Qed.

Lemma closes_continues s : closes s = true -> continues s = false.
Proof. by intros [_ ?%negb_true_iff]%andb_prop. Qed.

Lemma continues_no_bslash s : has_char BACKSLASH s = false -> continues s = false.
Proof.
  unfold continues. induction s as [|c s IH]; [done|]. cbn [continues_from has_char any_char].
  intros [Hc Hs]%orb_false_elim. unfold is_char in Hc. rewrite Ascii.eqb_sym in Hc. rewrite Hc. auto.
Qed.

Lemma continues_str_Z n : continues (str_Z n) = false.
Proof. apply continues_no_bslash. by rewrite str_Z_no_char. Qed.

Lemma closes_quoted a s : closes (a +:+ s +:+ chr DQUOTE) = true.
Proof. by apply closes_app, closes_app. Qed.

Lemma closes_dq s : closes (dq s) = true.
Proof. apply closes_quoted. Qed.

Lemma closes_uq s : closes (uq s) = true.
Proof. apply closes_quoted. Qed.

Lemma continues_join sep l : closes sep = true -> Forall (fun s => continues s = false) l -> continues (join sep l) = false.
Proof.
  intros Hs Hl. induction Hl as [|x l Hx Hl IH]; [done|]. cbn [join]. destruct l; [done|].
  apply continues_app; [done|]. apply continues_app; [by apply closes_continues|done].
Qed.

(** Only the last element decides. *)
Lemma continues_join_last sep l x : closes sep = true -> continues x = false -> continues (join sep (l ++ [x])) = false.
Proof.
  intros Hs Hx. induction l as [|y l IH]; [done|]. cbn [app join]. destruct (l ++ [x]) eqn:E; [by destruct l|].
  unfold continues in *. rewrite !continues_from_app. unfold closes in Hs. apply andb_prop in Hs as [H1%negb_true_iff H2%negb_true_iff].
  destruct (continues_from false y); rewrite ?H1, ?H2; by apply IH.
Qed.

(** ** Well-formed calls *)

Definition wf_call (c : call) : bool :=
  match c with
  | CSet k v | CAdd k v => wf_key k && plain v
  | CComment t => clean t
  | CBlank => true
  end.

Lemma continues_kv k v : continues (k +:+ "=" +:+ v) = continues v.
Proof. unfold continues. rewrite !continues_from_app. cbn. by destruct (continues_from false k). Qed.

Lemma wf_kv k v : wf_key k = true -> plain v = true -> wf_line (Kv k v) = true.
Proof.
  intros Hk [Hc Hv]%andb_prop. cbn [wf_line]. rewrite Hk, continues_kv, Hv, andb_true_r. exact Hc.
Qed.

Lemma sec_set_wf k v l : wf_line (Kv k v) = true -> forallb wf_line l = true -> forallb wf_line (sec_set k v l) = true.
Proof.
  intros Hk. induction l as [|x l IH]; [cbn [sec_set forallb]; by rewrite Hk|]. cbn [forallb]. intros [Hx Hl]%andb_prop.
  destruct x as [k' v'|t|]; cbn [sec_set forallb]; [|by rewrite Hx, IH..].
  destruct (decide (k' = k)); cbn [forallb]; [by rewrite Hk|by rewrite Hx, IH].
Qed.

Lemma run_calls_wf l cs : forallb wf_line l = true -> forallb wf_call cs = true -> forallb wf_line (run_calls l cs) = true.
Proof.
  revert l. induction cs as [|c cs IH]; intros l Hl; [done|]. cbn [forallb]. intros [Hc Hcs]%andb_prop.
  cbn [run_calls foldl]. apply IH; [|done].
  destruct c as [k v|k v|t|]; cbn [wf_call run_call] in *.
  - apply andb_prop in Hc as [? ?]. apply sec_set_wf; [by apply wf_kv|done].
  - apply andb_prop in Hc as [? ?]. unfold sec_add. rewrite forallb_app, Hl. cbn [forallb]. by rewrite wf_kv.
  - unfold sec_comment. rewrite forallb_app, Hl. cbn [forallb wf_line andb]. rewrite andb_true_r. exact Hc.
  - unfold sec_blank. by rewrite forallb_app, Hl.
Qed.

Definition wf_name (n : string) : bool := no_lf n && negb (has_char "]" n).

Definition wf_calls (secs : list (string * list call)) : bool :=
  forallb (fun '(n, cs) => wf_name n && forallb wf_call cs) secs.

Lemma on_section_wf n f l :
  wf_name n = true -> (forall b, forallb wf_line b = true -> forallb wf_line (f b) = true) ->
  forallb wf_section l = true -> forallb wf_section (on_section n f l) = true.
Proof.
  intros Hn Hf. induction l as [|[m b] l IH].
  - cbn. intros _. unfold wf_section. cbn [fst snd]. unfold wf_name in Hn. rewrite Hn, Hf by done. done.
  - cbn [forallb on_section]. intros [Hm Hl]%andb_prop. destruct (decide (m = n)) as [->|]; cbn [forallb].
    + rewrite Hl, andb_true_r. unfold wf_section in *. cbn [fst snd] in *. apply andb_prop in Hm as [Hm Hb].
      by rewrite Hm, Hf.
    + by rewrite Hm, IH.
Qed.

Lemma wf_unit_intro u :
  forallb wf_line (preamble u) = true -> omap kv_of (preamble u) = [] -> forallb wf_section (sections u) = true ->
  wf_unit u = true.
Proof.
  unfold wf_unit. intros -> Ho Hs. apply andb_true_intro. split.
  - cbn [andb]. clear Hs. induction (preamble u) as [|[] l IH]; cbn in *; auto; discriminate.
  - clear Ho. induction (sections u) as [|[n b] l IH]; [done|]. cbn [forallb] in *.
    apply andb_prop in Hs as [Hx Hs]. rewrite (IH Hs), andb_true_r. exact Hx.
Qed.

Lemma build_wf comments secs : cleans comments -> wf_calls secs = true -> wf_unit (build comments secs) = true.
Proof.
  intros Hc Hs. unfold build.
  assert (H0 : wf_unit (foldl (fun u t => unit_comment t u) empty_unit comments) = true).
  { assert (forall u, wf_unit u = true -> wf_unit (foldl (fun u t => unit_comment t u) u comments) = true) as Hf; [|by apply Hf].
    induction Hc as [|t l Ht _ IH]; intros u Hu; [done|]. cbn [foldl]. apply IH.
    apply wf_unit_spec in Hu as (H1 & H2 & H3). apply wf_unit_intro; cbn [unit_comment preamble sections]; [| |done].
    - rewrite forallb_app, H1. cbn [forallb wf_line andb]. rewrite andb_true_r. exact Ht.
    - by rewrite omap_app, H2. }
  revert H0. generalize (foldl (fun u t => unit_comment t u) empty_unit comments).
  induction secs as [|[n cs] secs IH]; intros u Hu; [done|]. cbn [foldl]. cbn [wf_calls forallb] in Hs.
  apply andb_prop in Hs as [[Hn Hcs]%andb_prop Hs]. apply IH; [done|].
  apply wf_unit_spec in Hu as (H1 & H2 & H3). apply wf_unit_intro; [done|done|].
  cbn [unit_section sections]. apply on_section_wf; [done| |done]. intros b Hb. by apply run_calls_wf.
Qed.

(** ** What a section ends up with *)

(** The values of a key the calls append, when none of them is a [set] of it. *)
Definition added (key : string) (cs : list call) : list string :=
  omap (fun c => match c with
                 | CSet k v | CAdd k v => if decide (k = key) then Some v else None
                 | _ => None
                 end) cs.

Definition sets (key : string) (cs : list call) : bool :=
  existsb (fun c => match c with CSet k _ => bool_decide (k = key) | _ => false end) cs.

Lemma values_app key l k : values key (l ++ k) = values key l ++ values key k.
Proof. apply omap_app. Qed.

Lemma run_calls_app l cs cs' : run_calls l (cs ++ cs') = run_calls (run_calls l cs) cs'.
Proof. apply foldl_app. Qed.

Lemma run_calls_values key l cs :
  sets key cs = false -> values key (run_calls l cs) = values key l ++ added key cs.
Proof.
  revert l. induction cs as [|c cs IH]; intros l Hs; [cbn; by rewrite app_nil_r|].
  unfold sets in Hs. cbn [existsb] in Hs. apply orb_false_elim in Hs as [Hc Hs].
  cbn [run_calls foldl]. fold (run_calls (run_call l c) cs). rewrite IH by done.
  unfold added. change (c :: cs) with ([c] ++ cs). rewrite omap_app, app_assoc. f_equal.
  destruct c as [k v|k v|t|]; cbn [run_call]; [|unfold sec_add, sec_comment, sec_blank; by rewrite values_app..].
  apply bool_decide_eq_false in Hc. destruct (sec_set_spec k v "" key l) as (_ & -> & _); [|done].
  cbn. rewrite decide_False by done. by rewrite app_nil_r.
Qed.

(** ** Plain configurations *)

(** No string of the value ends in an unescaped backslash, and its keys and its
    strings hold no line feed. *)
Fixpoint plain_tv (v : tv) : bool :=
  match v with
  | TStr s => plain s
  | TInt _ | TBool _ => true
  | TOther _ text repr _ => plain text && clean repr
  | TArr l => forallb plain_tv l
  | TTab t => forallb (fun '(k, v) => plain k && plain_tv v) t
  end.

Definition plain_tab (t : table) : Prop := plain_tv (TTab t) = true.

Lemma plain_tv_clean v : plain_tv v = true -> clean_tv v = true.
Proof.
  induction v as [s|n|b|a t r d|l IH|t IH] using tv_nested_ind; cbn [plain_tv clean_tv]; try done.
  - apply plain_clean.
  - intros [H ->]%andb_prop. by rewrite (plain_clean _ H).
  - rewrite !forallb_forall. rewrite Forall_forall in IH. intros H x Hx. apply IH; [by apply list_elem_of_In|auto].
  - rewrite !forallb_forall. rewrite Forall_forall in IH. intros H [k x] Hx. specialize (H _ Hx). cbn in H.
    apply andb_prop in H as [Hk Hv]. rewrite (plain_clean _ Hk). apply (IH (k, x)); [by apply list_elem_of_In|done].
Qed.

Lemma plain_tab_clean t : plain_tab t -> clean_tab t.
Proof. apply plain_tv_clean. Qed.

Lemma plain_intro s : clean s = true -> continues s = false -> plain s = true.
Proof. unfold plain. by intros -> ->. Qed.

Lemma plain_py_str v : plain_tv v = true -> plain (py_str v) = true.
Proof.
  intros H. destruct v as [s|n|b|a t r d|l|t]; try done.
  - apply plain_intro; [apply clean_str_Z|apply continues_str_Z].
  - by destruct b.
  - cbn in *. by apply andb_prop in H as [? _].
  - apply plain_intro; [by apply clean_py_str, plain_tv_clean|]. by apply closes_continues, closes_app, closes_app.
  - apply plain_intro; [by apply clean_py_str, plain_tv_clean|]. by apply closes_continues, closes_app, closes_app.
Qed.

Lemma plain_assoc k t v : plain_tab t -> assoc k t = Some v -> plain_tv v = true.
Proof.
  unfold plain_tab. cbn. rewrite forallb_forall. intros Hc Ha%assoc_In%list_elem_of_In.
  specialize (Hc _ Ha). by apply andb_prop in Hc as [_ ?].
Qed.

Lemma plain_get v k : plain_tv v = true -> okp (fun o => forall x, o = Some x -> plain_tv x = true) (get v k).
Proof. destruct v; try done. cbn [get okp]. intros Hc x. by apply plain_assoc. Qed.

Lemma plain_get_or v k d : plain_tv v = true -> plain_tv d = true -> okp (fun x => plain_tv x = true) (get_or v k d).
Proof.
  destruct v; try done. cbn [get_or okp]. intros Hc Hd. destruct (assoc k t) eqn:E; [by eapply plain_assoc|done].
Qed.

Lemma plain_index v k : plain_tv v = true -> okp (fun x => plain_tv x = true) (index v k).
Proof.
  destruct v; try done. cbn [index]. intros Hc. destruct (assoc k t) eqn:E; [by eapply plain_assoc|done].
Qed.

Lemma plain_items v : plain_tv v = true -> okp plain_tab (items v).
Proof. by destruct v. Qed.

Lemma Ok_okp {A} (P : A -> Prop) m a : okp P m -> m = Ok a -> P a.
Proof. by intros H ->. Qed.

(** Characters of a string, alone, may be a backslash; the elements of an array
    and the keys of a table are plain. *)
Lemma plain_iter v : plain_tv v = true -> (forall s, v <> TStr s) -> okp (Forall (fun x => plain_tv x = true)) (iter v).
Proof.
  destruct v as [s| | | |l|t]; try done; cbn [iter okp plain_tv]; intros Hc Hs.
  - by destruct (Hs s).
  - apply Forall_forall. intros x Hx. rewrite forallb_forall in Hc. by apply Hc, list_elem_of_In.
  - rewrite Forall_map. apply Forall_forall. intros [k x] Hx. rewrite forallb_forall in Hc.
    apply list_elem_of_In in Hx. specialize (Hc _ Hx). by apply andb_prop in Hc as [? _].
Qed.

Lemma plain_app s t : plain s = true -> plain t = true -> plain (s +:+ t) = true.
Proof.
  intros Hs Ht. apply plain_intro; [apply clean_app_2; by apply plain_clean|].
  apply continues_app; by apply plain_continues.
Qed.

Lemma plain_closes s : clean s = true -> closes s = true -> plain s = true.
Proof. intros Hc Hs. by apply plain_intro, closes_continues. Qed.

Lemma plain_str_Z n : plain (str_Z n) = true.
Proof. apply plain_intro; [apply clean_str_Z|apply continues_str_Z]. Qed.

Lemma plain_closed s t : clean s = true -> plain t = true -> closes t = true -> plain (s +:+ t) = true.
Proof. intros Hs Ht Hc. apply plain_closes; [|by apply closes_app]. apply clean_app_2; [done|by apply plain_clean]. Qed.

#[export] Hint Resolve plain_clean plain_tv_clean plain_tab_clean : clean.

(** [closes]: the string ends in a constant or a quoted part. *)
Ltac closes_tac :=
  lazymatch goal with
  | |- closes (_ +:+ _) = true => apply closes_app; closes_tac
  | |- closes (dq _) = true => apply closes_dq
  | |- closes (uq _) = true => apply closes_uq
  | |- closes (if ?b then _ else _) = true => destruct b; closes_tac
  | |- _ => first [assumption | reflexivity | solve [eauto 3 with clean]]
  end.

(** The goal [plain s = true]: either it closes and is clean, or its parts are
    plain. *)
Ltac plain_str :=
  first
    [ assumption | reflexivity | apply plain_str_Z
    | apply plain_closes; [solve [clean_str] | solve [closes_tac]]
    | lazymatch goal with
      | |- plain (_ +:+ ?t) = true =>
          apply plain_app; [plain_str|plain_str]
      | |- plain (py_str _) = true => apply plain_py_str; plain_str
      | |- plain (if ?b then _ else _) = true => destruct b; plain_str
      | |- plain_tv _ = true => first [assumption | reflexivity | solve [eauto 3 with clean]]
      end
    | solve [eauto 3 with clean] ].

(** The goal [forallb wf_call cs = true], by the shape of [cs]. *)
Lemma wf_calls_app cs cs' :
  forallb wf_call cs = true -> forallb wf_call cs' = true -> forallb wf_call (cs ++ cs') = true.
Proof. intros H1 H2. by rewrite forallb_app, H1, H2. Qed.

Lemma wf_calls_cons c cs : wf_call c = true -> forallb wf_call cs = true -> forallb wf_call (c :: cs) = true.
Proof. cbn [forallb]. by intros -> ->. Qed.

Lemma wf_call_kv k v : wf_key k = true -> plain v = true -> wf_call (CSet k v) = true /\ wf_call (CAdd k v) = true.
Proof. intros Hk Hv. cbn [wf_call]. by rewrite Hk, Hv. Qed.

Lemma wf_calls_map {A} (f : A -> call) l : Forall (fun x => wf_call (f x) = true) l -> forallb wf_call (map f l) = true.
Proof. induction 1 as [|x l Hx _ IH]; [done|]. cbn [map]. by apply wf_calls_cons. Qed.

Ltac wf_call_tac :=
  lazymatch goal with
  | |- wf_call CBlank = true => reflexivity
  | |- wf_call (CComment _) = true => cbn [wf_call]; clean_str
  | |- wf_call (CSet _ _) = true => apply wf_call_kv; [reflexivity|try plain_str]
  | |- wf_call (CAdd _ _) = true => apply wf_call_kv; [reflexivity|try plain_str]
  end.

Ltac wf_calls_tac :=
  lazymatch goal with
  | |- forallb wf_call (_ ++ _) = true => apply wf_calls_app; wf_calls_tac
  | |- forallb wf_call [] = true => reflexivity
  | |- forallb wf_call (_ :: _) = true => apply wf_calls_cons; [wf_call_tac|wf_calls_tac]
  | |- forallb wf_call (if ?b then _ else _) = true => destruct b eqn:?; wf_calls_tac
  | |- forallb wf_call (match ?x with _ => _ end) = true => destruct x eqn:?; wf_calls_tac
  | |- _ => first [assumption | solve [eauto 3 with clean] | idtac]
  end.
