(* ===== verification/GenCommon.v ===== *)
(** * What the generators share: [lib/run_files.py], [lib/gen_common.py]

    [workload_run_files] is the inventory of the files under /run that belong
    to a workload, with what the generator emits of it; [emitted_run_paths] is the
    generator's side of it.  The rest are the files that container and VM workloads
    have alike: the sysusers file, the drop-in of the user manager, the setup
    service, and the overrides of [resources].

    Parameters: the version the units are stamped with, and the directories the
    generator writes to. *)
From S2P Require Import Prelude PyStr PyPath UnitFile Toml WorkloadNames WorkloadConfig WorkloadUid.
From S2P Require Import NetworkConfig BrokerConfig Seccomp Validation Clean RunArgs UnitGen.
Local Open Scope Z_scope.

(** ** The inventory *)

Record WorkloadRunFile := mkRunFile { rf_path : pypath; rf_kind : string; rf_role : string; rf_emitted : bool }.

(** What the inventory reads of a workload: [WorkloadConfig] or the generator's
    [_RunFileConfig].  [vw_uid] is [None] where reading it raises
    [WorkloadUserNotFound], [vw_mode] where the mode is [None]. *)
Record RunFileConfig := mkView {
  vw_config : table;
  vw_name : string;
  vw_uid : option Z;
  vw_is_vm : bool;
  vw_mode : option mode }.

Definition container_names (vw : RunFileConfig) : res (list tv) :=
  match assoc "containers" (vw_config vw) with
  | Some cs => l ← iter cs; mapM_res (fun c => index c "name") l
  | None => Ok [TStr (vw_name vw)]
  end.

(** [virtiofs_tags] of a list of the configuration.  Its loop ends on every list
    short enough for its numbers to fit a tag ([virtiofs_tags_distinct]). *)
Definition volume_tags (v : tv) : res (list string) :=
  l ← iter v; specs ← mapM_res (fun x => match x with TStr s => Ok s | _ => Raise AttributeError end) l;
  match virtiofs_tags specs with Some tags => Ok tags | None => Raise RuntimeError end.

Section inventory.
Variable env_dir : string.

Definition run_unit (suffix role : string) (emitted : bool) : WorkloadRunFile :=
  mkRunFile (path_div (path_of RUN_SYSTEMD_SYSTEM) suffix) "unit" role emitted.

Definition vm_run_files (vw : RunFileConfig) : res (list WorkloadRunFile) :=
  let n := "workload-" +:+ vw_name vw in
  vm ← get_or (TTab (vw_config vw)) "vm" (TTab []);
  vols ← get_or vm "volumes" (TArr []);
  tags ← volume_tags vols;
  inspects ← vm_uses_inspect (vw_config vw);
  resolves ← vm_uses_resolve (vw_config vw);
  creds ← vm_uses_credentials (vw_config vw);
  Ok ([run_unit (n +:+ "-build.service") "build" true;
       run_unit (n +:+ "-clock.timer") "clock-timer" true;
       run_unit (n +:+ "-clock.service") "clock" true] ++
      map (fun tag => run_unit (n +:+ "-virtiofs-" +:+ tag +:+ ".service") "virtiofs" true) tags ++
      [run_unit (n +:+ "-proxy.service") "proxy" false;
       run_unit (n +:+ "-inspect.socket") "inspect-socket" inspects;
       run_unit (n +:+ "-inspect.service") "inspect" inspects;
       run_unit (n +:+ "-resolve.socket") "resolve-socket" resolves;
       run_unit (n +:+ "-resolve.service") "resolve" resolves;
       run_unit (n +:+ "-broker.service") "broker" creds]).

Definition container_run_files (vw : RunFileConfig) : res (list WorkloadRunFile) :=
  let n := "workload-" +:+ vw_name vw in
  names ← (if bool_decide (vw_mode vw = Some MSingle) then Ok [] else container_names vw);
  inspects ← container_uses_inspect (vw_config vw);
  resolves ← container_uses_resolve (vw_config vw);
  creds ← container_uses_credentials (vw_config vw);
  Ok (match vw_uid vw with
      | Some uid => [mkRunFile (path_div (path_div (path_of RUN_SYSTEMD_SYSTEM) ("user@" +:+ str_Z uid +:+ ".service.d"))
                                  "50-workload.conf") "dropin" "dropin" true]
      | None => []
      end ++
      [run_unit (n +:+ "-pod.service") "pod" (bool_decide (vw_mode vw = Some MPod));
       run_unit (n +:+ "-net.service") "net" (bool_decide (vw_mode vw = Some MBridge))] ++
      map (fun c => run_unit (n +:+ "-" +:+ py_str c +:+ ".service") "container" true) names ++
      [run_unit (n +:+ "-inspect.socket") "inspect-socket" inspects;
       run_unit (n +:+ "-inspect.service") "inspect" inspects;
       run_unit (n +:+ "-resolve.socket") "resolve-socket" resolves;
       run_unit (n +:+ "-resolve.service") "resolve" resolves;
       run_unit (n +:+ "-broker.service") "broker" creds]).

Definition env_file (suffix role : string) : WorkloadRunFile :=
  mkRunFile (path_div (path_of env_dir) suffix) "env-file" role false.

Definition workload_run_files (vw : RunFileConfig) : res (list WorkloadRunFile) :=
  let n := "workload-" +:+ vw_name vw in
  let run := path_of RUN_SYSTEMD_SYSTEM in
  files ← (if vw_is_vm vw then vm_run_files vw else container_run_files vw);
  seccomp ← (if vw_is_vm vw then Ok []
             else names ← seccomp_allow (vw_config vw);
                  Ok [mkRunFile (path_div run (derived_profile_name (vw_name vw))) "seccomp" "seccomp" (nonempty names)]);
  secrets ← (if bool_decide (vw_mode vw = Some MSingle) then Ok []
             else names ← container_names vw;
                  Ok (map (fun c => env_file (n +:+ "-" +:+ py_str c +:+ ".secrets") "secrets") names));
  Ok ([mkRunFile (path_div run (n +:+ ".conf")) "sysusers" "sysusers" true;
       run_unit (n +:+ "-setup.service") "setup" true;
       run_unit (n +:+ ".service") "main" true;
       mkRunFile (path_div (path_div run "multi-user.target.wants") (n +:+ ".service")) "wants-symlink" "main" true] ++
      files ++ seccomp ++ [env_file (n +:+ ".env") "env"; env_file (n +:+ ".secrets") "secrets"] ++ secrets).

(** The names of the units of the given roles, or of all. *)
Definition workload_service_units (vw : RunFileConfig) (roles : option (list string)) : res (list string) :=
  files ← workload_run_files vw;
  Ok (omap (fun rf => if String.eqb (rf_kind rf) "unit" && rf_emitted rf &&
                         match roles with None => true | Some l => bool_decide (rf_role rf ∈ l) end
                      then Some (List.last (parts (rf_path rf)) "") else None) (files : list WorkloadRunFile)).

(** ** Where the generator writes *)

Variable services_dir sysusers_dir : string.

(** [path.relative_to(base)], as the parts that follow it. *)
Fixpoint drop_prefix (base p : list string) : option (list string) :=
  match base, p with
  | [], p => Some p
  | b :: base, x :: p => if decide (b = x) then drop_prefix base p else None
  | _, [] => None
  end.

Definition relative_to (p base : pypath) : res (list string) :=
  if decide (root p = root base) then
    match drop_prefix (parts base) (parts p) with Some r => Ok r | None => Raise ValueError end
  else Raise ValueError.

Definition path_join (base : pypath) (segs : list string) : pypath := mkPath (root base) (parts base ++ segs).

Definition emitted_of (rf : WorkloadRunFile) : bool := rf_emitted rf && negb (String.eqb (rf_kind rf) "env-file").

(** The dictionary in insertion order: kind, role and path. *)
Definition emitted_run_paths (vw : RunFileConfig) : res (list (string * string * pypath)) :=
  files ← workload_run_files vw;
  mapM_res (fun rf =>
    r ← relative_to (rf_path rf) (path_of RUN_SYSTEMD_SYSTEM);
    let base := if String.eqb (rf_kind rf) "sysusers" then sysusers_dir else services_dir in
    Ok (rf_kind rf, rf_role rf, path_join (path_of base) r))
    (List.filter emitted_of files).

(** [paths.get((kind, role), [])]. *)
Definition dests (paths : list (string * string * pypath)) (kind role : string) : list pypath :=
  omap (fun '(k, r, p) => if String.eqb k kind && String.eqb r role then Some p else None) paths.

(** [paths[(kind, role)][0]]. *)
Definition dest (paths : list (string * string * pypath)) (kind role : string) : res pypath :=
  match dests paths kind role with p :: _ => Ok p | [] => Raise KeyError end.
End inventory.

(** ** The shared files *)

(** A list of group names; [render_sysusers_config] writes each as it is. *)
Definition group_names (config : table) : res (list string) :=
  v ← get2 config "security" "extra_groups" (TArr []); l ← iter v; Ok (map py_str l).

Definition generate_sysuser_config (config : table) (user_name : string) (uid : Z) : res string :=
  name ← config_name config;
  groups ← group_names config;
  Ok (render_sysusers_config name user_name uid (path_str (workload_state_dir name)) groups false).

Definition generate_sysuser_config_vm (config : table) (user_name : string) (uid : Z) : res string :=
  name ← config_name config;
  groups ← group_names config;
  Ok (render_sysusers_config name user_name uid (path_str (workload_state_dir name)) groups true).

Definition CGROUP_SCALAR_KEYS : list (string * string) :=
  [("cpu_quota", "CPUQuota"); ("cpu_weight", "CPUWeight"); ("memory_max", "MemoryMax");
   ("memory_high", "MemoryHigh"); ("memory_swap_max", "MemorySwapMax"); ("io_weight", "IOWeight");
   ("tasks_max", "TasksMax")].

Definition CGROUP_LIST_KEYS : list (string * string) :=
  [("io_read_bandwidth_max", "IOReadBandwidthMax"); ("io_write_bandwidth_max", "IOWriteBandwidthMax")].

Definition cgroup_directives (resources : tv) : res (list (string * string)) :=
  t ← items resources;
  lists ← mapM_res (fun '(key, directive) =>
            l ← iter (match assoc key t with Some v => v | None => TArr [] end);
            Ok (map (fun limit => (directive, py_str limit)) l)) CGROUP_LIST_KEYS;
  Ok (omap (fun '(key, directive) => match assoc key t with Some v => Some (directive, py_str v) | None => None end)
        CGROUP_SCALAR_KEYS ++ concat lists).

Definition slice_of (owner : table) : res string := v ← get2 owner "resources" "slice" (TStr "workloads.slice"); Ok (py_str v).

Section shared.
Variable version : string.
Variable services_dir : string.

Definition GENERATED_BY : string := "Generated by workload-generate (" +:+ version +:+ ")".

Definition generate_user_dropin (config : table) (uid : Z) : res string :=
  resources ← get_or (TTab config) "resources" (TTab []);
  slice_name ← get_or resources "slice" (TStr "workloads.slice");
  name ← config_name config;
  directives ← cgroup_directives resources;
  Ok (join (chr LF)
        (["# Workload " +:+ name +:+ ": redirect user@" +:+ str_Z uid +:+ " into " +:+ py_str slice_name +:+ " (ADR 001 option 1b)";
          "# " +:+ GENERATED_BY; ""; "[Service]"; "Slice=" +:+ py_str slice_name] ++
         map (fun '(d, v) => d +:+ "=" +:+ v) directives ++ [""])).

Definition generate_setup_service (config : table) : res unit_file :=
  name ← config_name config;
  Ok (build ["Setup service for " +:+ name +:+ " workload"; GENERATED_BY]
        [("Unit", [CSet "Description" ("Setup " +:+ name +:+ " workload user")]);
         ("Service", [CSet "Type" "oneshot"; CSet "RemainAfterExit" "yes";
                      CAdd "ExecStart" ("/usr/bin/systemd-sysusers " +:+ services_dir +:+ "/workload-" +:+ name +:+ ".conf");
                      CAdd "ExecStart" ("/usr/libexec/workloadctl/workload-ensure-user " +:+ name)])]).

(** A directive when the key is there. *)
Definition add_of (t : table) (key directive : string) : list call :=
  match assoc key t with Some v => [CAdd directive (py_str v)] | None => [] end.

Definition resource_overrides (resources : tv) : res (list call) :=
  t ← items resources;
  c ← get_or resources "custom_directives" (TTab []);
  custom ← items c;
  let directives := add_of t "timeout_start_sec" "TimeoutStartSec" ++ add_of t "timeout_stop_sec" "TimeoutStopSec" ++
                    map (fun '(d, v) => CAdd d (py_str v)) custom in
  Ok (match directives with
      | [] => []
      | _ => [CComment "Service-level overrides"] ++ directives ++ [CBlank]
      end).
End shared.
