(* ===== verification/GenEgress.v ===== *)
(** * The egress sidecars: [lib/gen_egress.py]

    The units of the inspector (socket and service), of the credential broker
    and of the DNS responder, which container and VM workloads share, with the
    paths and commands of [lib/egress_policy.py] and [lib/nft_elements.py] they name.

    Parameters: the version stamp; of the inspector's package the ports of its
    planes and the directories of its caches; and what resolv.conf says. *)
From S2P Require Import Prelude PyStr PyPath UnitFile Toml WorkloadAddr WorkloadNames NftElements.
From S2P Require Import BrokerConfig RunArgs UnitGen GenCommon.
Local Open Scope Z_scope.

Definition SOCKET_DIR : string := "/run/workload-vm".
Definition SIDECAR_SLICE : string := "workloads.slice".
Definition INSPECT_LISTENER_BIN : string := "/usr/libexec/moatery/moat-inspect".
Definition RESOLVE_LISTENER_BIN : string := "/usr/libexec/moatery/moat-resolve".
Definition RESOLVE_PORT : Z := 53.

(** ** Paths *)

Definition in_socket_dir (name file : string) : string := SOCKET_DIR +:+ "/" +:+ name +:+ "/" +:+ file.
Definition inspect_policy_path (name : string) : string := in_socket_dir name "inspect.json".
Definition resolve_static_path (name : string) : string := in_socket_dir name "resolve-static.json".
Definition inspect_status_path (name : string) : string := in_socket_dir name "inspect-status.json".
Definition resolve_status_path (name : string) : string := in_socket_dir name "resolve-status.json".

Definition INSPECT_RECORD_ROOT : pypath := path_of "/var/log/workloadctl/egress".
Definition LOG_BASE : pypath := path_of "/var/log".
Definition inspect_record_dir (name : string) : pypath := path_div INSPECT_RECORD_ROOT name.
Definition inspect_record_path (name : string) : pypath := path_div (inspect_record_dir name) "requests.log".

(** [str(dir.relative_to(LOG_BASE))]. *)
Definition inspect_logs_directory (name : string) : res string :=
  r ← relative_to (inspect_record_dir name) LOG_BASE; Ok (path_str (mkPath "" r)).

(** ** The inspector's control group *)

Definition inspect_cgroup (name : string) : string := SIDECAR_SLICE +:+ "/workload-" +:+ name +:+ "-inspect.service".

Definition cgroup_element (name : string) : string :=
  "{ " +:+ chr DQUOTE +:+ inspect_cgroup name +:+ chr DQUOTE +:+ " }".

Definition inspect_cgroup_command (name action : string) : list string :=
  [NFT_BIN; action; "element"] ++ NFT_PROXY_TABLE ++ ["wl_inspect_cg"; cgroup_element name].

Definition inspect_cgroup_filter_command (name action : string) : list string :=
  [NFT_BIN; action; "element"] ++ NFT_TABLE ++ ["wl_egress_cg"; cgroup_element name].

(** [" ".join(dq(a) for a in cmd)]. *)
Definition quoted (cmd : list string) : string := join " " (map dq cmd).

(** The binary and its arguments, options as they are and the rest quoted. *)
Definition listener_exec (cmd : list string) : string :=
  match cmd with
  | [] => ""
  | b :: args => join " " (b :: map (fun a => if starts_with "--" a then a else dq a) args)
  end.

Section egress.
Variable version : string.
Variable planes : list (Z * Z).
Variable leaf_dir denial_dir : string -> string.
Variable resolv_conf : option string.

Definition unit_of (name suffix : string) : string := "workload-" +:+ name +:+ suffix.

(** The [Unit] section of a sidecar's socket: up after setup, before the
    workload, down with it, and outside the dependencies of sockets.target. *)
Definition socket_deps (name description : string) : list call :=
  [CSet "Description" description;
   CSet "Requires" (unit_of name "-setup.service"); CSet "After" (unit_of name "-setup.service");
   CSet "Before" (unit_of name ".service"); CSet "PartOf" (unit_of name ".service");
   CSet "DefaultDependencies" "no"; CSet "Conflicts" "shutdown.target"; CAdd "Before" "shutdown.target"].

Definition generate_inspect_socket (config : table) (uid : Z) (arming_helper : string) : res unit_file :=
  name ← config_name config;
  addr ← inspect_address uid;
  let helper verb := "/usr/libexec/workloadctl/" +:+ arming_helper +:+ " " +:+ verb +:+ " " +:+ dq name in
  Ok (build ["egress inspector socket for " +:+ name; GENERATED_BY version]
        [("Unit", socket_deps name ("Transparent egress inspection socket for " +:+ name));
         ("Socket",
          [CAdd "ExecStartPre" ("+" +:+ helper "up"); CAdd "ExecStopPost" ("-+" +:+ helper "down")] ++
          concat (map (fun family_addr => map (fun '(_, port) => CAdd "ListenStream" (family_addr +:+ ":" +:+ str_Z port)) planes)
                    [v4 addr; "[" +:+ v6 addr +:+ "]"]) ++
          [CSet "Accept" "no"; CSet "TriggerLimitIntervalSec" "2s"; CSet "TriggerLimitBurst" "200"])]).

Definition harden_sidecar (name families : string) (tasks_max : Z) (memory_max : string) (extra_rw : list string) : list call :=
  [CSet "CapabilityBoundingSet" ""; CSet "AmbientCapabilities" "";
   CSet "ProtectSystem" "strict"; CSet "ProtectHome" "yes"; CSet "ProtectProc" "invisible"; CSet "PrivateTmp" "yes";
   CSet "ReadWritePaths" (join " " (uq (SOCKET_DIR +:+ "/" +:+ name) :: map uq extra_rw));
   CSet "RestrictAddressFamilies" families; CSet "TasksMax" (str_Z tasks_max); CSet "MemoryMax" memory_max].

Definition inspect_listener_command (name : string) (uid : Z) : res (list string) :=
  broker ← broker_listen_address uid;
  Ok [INSPECT_LISTENER_BIN; "--name"; name; "--policy"; inspect_policy_path name;
      "--state-dir"; path_str (workload_state_dir name); "--status"; inspect_status_path name;
      "--record"; path_str (inspect_record_path name); "--broker"; broker +:+ ":" +:+ str_Z BROKER_INSTANCE_PORT].

Definition generate_inspect_service (config : table) (user_name : string) (uid : Z) : res unit_file :=
  name ← config_name config;
  cmd ← inspect_listener_command name uid;
  logs ← inspect_logs_directory name;
  let state := path_str (workload_state_dir name) in
  Ok (build ["egress inspector service for " +:+ name; GENERATED_BY version]
        [("Unit",
          [CSet "Description" ("Transparent egress inspector for " +:+ name);
           CSet "Requires" (unit_of name "-setup.service"); CSet "After" (unit_of name "-setup.service");
           CSet "PartOf" (unit_of name ".service")]);
         ("Service",
          [CSet "User" user_name; CSet "Group" user_name; CSet "Slice" SIDECAR_SLICE;
           CAdd "ExecStartPre" ("+" +:+ quoted (inspect_cgroup_command name "add"));
           CAdd "ExecStartPre" ("+" +:+ quoted (inspect_cgroup_filter_command name "add"));
           CAdd "ExecStart" (listener_exec cmd);
           CAdd "ExecStopPost" ("-+" +:+ quoted (inspect_cgroup_command name "delete"));
           CAdd "ExecStopPost" ("-+" +:+ quoted (inspect_cgroup_filter_command name "delete"));
           CBlank] ++
          harden_sidecar name "AF_INET AF_INET6 AF_UNIX AF_NETLINK" 192 "512M" [leaf_dir state; denial_dir state] ++
          [CBlank; CAdd "StandardOutput" "journal"; CAdd "StandardError" "journal"; CBlank;
           CAdd "LogsDirectory" logs; CAdd "LogsDirectoryMode" "0700"; CBlank;
           CAdd "Restart" "on-failure"; CAdd "RestartSec" "5s"])]).

(** One [LoadCredentialEncrypted] for each credential, in the order of the hosts. *)
Fixpoint credential_loads (name : string) (seen : list string) (hosts : list (string * string)) : res (list call) :=
  match hosts with
  | [] => Ok []
  | (_, credential) :: hosts =>
      if bool_decide (credential ∈ seen) then credential_loads name seen hosts
      else '(path, cred_id) ← broker_credential name credential;
           rest ← credential_loads name (seen ++ [credential]) hosts;
           Ok (CAdd "LoadCredentialEncrypted" (cred_id +:+ ":" +:+ path_str path) :: rest)
  end.

Definition broker_hardening : list call :=
  [CSet "NoNewPrivileges" "yes"; CSet "CapabilityBoundingSet" ""; CSet "AmbientCapabilities" "";
   CSet "PrivateTmp" "yes"; CSet "PrivateDevices" "yes"; CSet "ProtectSystem" "strict"; CSet "ProtectHome" "yes";
   CSet "ProtectProc" "invisible"; CSet "ProtectClock" "yes"; CSet "ProtectHostname" "yes";
   CSet "ProtectKernelTunables" "yes"; CSet "ProtectKernelModules" "yes"; CSet "ProtectKernelLogs" "yes";
   CSet "ProtectControlGroups" "yes"; CSet "RestrictAddressFamilies" "AF_INET AF_INET6 AF_UNIX AF_NETLINK";
   CSet "RestrictNamespaces" "yes"; CSet "RestrictRealtime" "yes"; CSet "RestrictSUIDSGID" "yes";
   CSet "LockPersonality" "yes"; CSet "MemoryDenyWriteExecute" "yes"; CSet "SystemCallArchitectures" "native";
   CSet "SystemCallFilter" "@system-service"; CSet "SystemCallErrorNumber" "EPERM"; CSet "UMask" "0077";
   CSet "LimitCORE" "0"].

Definition generate_broker_service (config : table) (before : string) (hosts : list (string * string))
    (upstream command : list string) : res unit_file :=
  name ← config_name config;
  loads ← credential_loads name [] hosts;
  Ok (build ["credential broker instance for " +:+ name; GENERATED_BY version]
        [("Unit",
          [CSet "Description" ("Credential broker for " +:+ name);
           CSet "Documentation" "file:/usr/share/doc/workloadctl/agent-broker.md";
           CSet "Requires" (unit_of name "-setup.service"); CSet "After" (unit_of name "-setup.service");
           CSet "Before" before; CSet "PartOf" (unit_of name ".service")]);
         ("Service",
          [CSet "Type" "notify"; CAdd "ExecStart" (listener_exec command); CBlank] ++ loads ++
          [CBlank; CSet "DynamicUser" "yes"; CBlank] ++ broker_hardening ++
          [CBlank; CAdd "IPAddressAllow" "localhost"] ++
          map (CAdd "IPAddressAllow") (host_resolver_addresses resolv_conf) ++
          map (CAdd "IPAddressAllow") upstream ++
          [CAdd "IPAddressDeny" "any"; CBlank; CAdd "StandardOutput" "journal"; CAdd "StandardError" "journal"; CBlank;
           CAdd "Restart" "on-failure"; CAdd "RestartSec" "2"])]).

Definition generate_resolve_socket (config : table) (uid : Z) : res unit_file :=
  name ← config_name config;
  address ← resolve_address uid;
  let at_port := address +:+ ":" +:+ str_Z RESOLVE_PORT in
  Ok (build ["synthesising DNS responder socket for " +:+ name; GENERATED_BY version]
        [("Unit", socket_deps name ("Synthesising DNS responder socket for " +:+ name));
         ("Socket", [CAdd "ListenDatagram" at_port; CAdd "ListenStream" at_port; CSet "Accept" "no";
                     CSet "TriggerLimitIntervalSec" "2s"; CSet "TriggerLimitBurst" "200"])]).

Definition resolve_command (name : string) (uid : Z) : res (list string) :=
  addr ← inspect_address uid;
  Ok [RESOLVE_LISTENER_BIN; "--name"; name; "--address"; v4 addr; "--policy"; inspect_policy_path name;
      "--static"; resolve_static_path name; "--status"; resolve_status_path name].

Definition generate_resolve_service (config : table) (user_name : string) (uid : Z) : res unit_file :=
  name ← config_name config;
  cmd ← resolve_command name uid;
  Ok (build ["synthesising DNS responder service for " +:+ name; GENERATED_BY version]
        [("Unit",
          [CSet "Description" ("Synthesising DNS responder for " +:+ name);
           CSet "Requires" (unit_of name "-setup.service"); CSet "After" (unit_of name "-setup.service");
           CSet "StopPropagatedFrom" (unit_of name ".service")]);
         ("Service",
          [CSet "User" user_name; CSet "Group" user_name; CSet "Slice" SIDECAR_SLICE;
           CAdd "ExecStart" (listener_exec cmd); CBlank] ++
          harden_sidecar name "AF_INET AF_UNIX" 16 "128M" [] ++
          [CBlank; CAdd "StandardOutput" "journal"; CAdd "StandardError" "journal"; CBlank;
           CAdd "Restart" "on-failure"; CAdd "RestartSec" "5s"])]).
End egress.
