(* ===== verification/GenContainer.v ===== *)
(** * The units of a container workload: [lib/gen_container.py], [lib/gen_container_heads.py]

    One service per container, the service that creates the pod or the bridge
    network in front of them, the umbrella, and [generate_container_workload],
    which writes them where the inventory says.  A unit is the [unit_file] the
    generator renders; a write is a path and the text.

    Parameters: those of the files this one uses; the graphics cards of the host
    ([resolve_auto_gpu]'s reads), the integer part of a float, and the reading of the
    seccomp baseline. *)
From S2P Require Import Prelude PyStr PyPath UnitFile Toml WorkloadNames WorkloadConfig SecretsTemplate.
From S2P Require Import NetworkConfig BrokerConfig Seccomp Validation Clean RunArgs UnitGen GenCommon GenEgress.
Local Open Scope Z_scope.

(** ** The graphics card *)

Definition vendor_map : list (string * string) := [("0x10de", "nvidia"); ("0x1002", "amd"); ("0x8086", "intel")].

(** One card: the text of its [vendor] file and the name its [driver] link
    resolves to. *)
Record card := mkCard { card_vendor : res string; card_driver : res string }.

(** The cards of a known vendor, up to the first that cannot be read. *)
Fixpoint gpu_candidates (cards : list card) : res (list (string * card)) :=
  match cards with
  | [] => Ok []
  | c :: cards =>
      match card_vendor c with
      | Raise e => if is_oserror e then Ok [] else Raise e
      | Ok text =>
          rest ← gpu_candidates cards;
          Ok (match assoc (lower (strip text)) vendor_map with Some v => (v, c) :: rest | None => rest end)
      end
  end.

(** [cards] in the order of their paths; [override] is the environment's. *)
Definition resolve_auto_gpu (override : option string) (cards : list card) : res string :=
  match override with
  | Some (String a s) => Ok (String a s)
  | _ =>
      cs ← gpu_candidates cards;
      match cs with
      | [] => Ok "none"
      | (v, c) :: _ =>
          if String.eqb v "nvidia" then
            match card_driver c with
            | Ok d => Ok (if String.eqb d "nouveau" then "nouveau" else v)
            | Raise e => if is_oserror e then Ok v else Raise e
            end
          else Ok v
      end
  end.

(** ** The sections of a container's service *)

(** [" ".join(f"workload-{n}.service" for n in v)]. *)
Definition service_names (v : tv) : res string :=
  l ← iter v; Ok (join " " (map (fun n => "workload-" +:+ py_str n +:+ ".service") l)).

Definition add_dep (directive : string) (v : tv) : res (list call) :=
  if truthy v then s ← service_names v; Ok [CAdd directive s] else Ok [].

Definition unit_deps (workload : table) (m : mode) (name description gpu_vendor : string) (external : list string)
    : res (list call) :=
  let setup := unit_of name "-setup.service" in
  let dep := if bool_decide (m = MPod) then unit_of name "-pod.service" else unit_of name "-net.service" in
  requires ← get2 workload "workload" "requires" (TArr []);
  after ← get2 workload "workload" "after" (TArr []);
  wants ← add_dep "Wants" requires;
  afters ← add_dep "After" after;
  Ok ([CSet "Description" description] ++
      (if bool_decide (m = MSingle) then [CAdd "Requires" setup; CAdd "After" ("network.target " +:+ setup)]
       else [CAdd "Requires" dep; CAdd "After" dep; CAdd "BindsTo" dep; CAdd "PartOf" (unit_of name ".service")]) ++
      [CSet "StartLimitIntervalSec" "300"; CSet "StartLimitBurst" "5"] ++ wants ++ afters ++
      (if String.eqb gpu_vendor "nvidia"
       then [CAdd "Requires" "nvidia-cdi-generator.service"; CAdd "After" "nvidia-cdi-generator.service"] else []) ++
      (if nonempty external then [CAdd "RequiresMountsFor" (join " " (map uq external))] else [])).

Definition home_env (name : string) : string := chr DQUOTE +:+ "HOME=" +:+ path_str (workload_state_dir name) +:+ chr DQUOTE.

Definition service_identity (service_type slice_name : string) (systemd_mode : option string) (user_name name : string)
    : list call :=
  [CSet "Type" service_type; CSet "Slice" slice_name] ++
  (if String.eqb service_type "notify" then [CSet "NotifyAccess" "all"] else []) ++
  (if match systemd_mode with Some m => String.eqb m "always" || String.eqb m "true" | None => false end
   then [CSet "KillSignal" "SIGRTMIN+3"] else []) ++
  [CSet "User" user_name; CSet "Group" user_name; CSet "Environment" (home_env name);
   CSet "EnvironmentFile" ("-/run/workload-env/workload-" +:+ name +:+ ".env"); CBlank].

(** [sorted(credentials)]: the elements of a set of strings; what else
    [sorted] would order is refused. *)
Definition sorted_credentials (creds : list tv) : res (list string) :=
  names ← mapM_res (fun x => match x with TStr s => Ok s | _ => Raise TypeError end) creds; Ok (seccomp_names names).

Definition credential_load_calls (creds : list tv) : res (list call) :=
  match creds with
  | [] => Ok []
  | _ =>
      names ← sorted_credentials creds;
      Ok ([CComment "Load encrypted credentials (auto-decrypted to /run/credentials/{service}/)"] ++
          map (fun c => CAdd "LoadCredentialEncrypted" (c +:+ ":/etc/credstore.encrypted/" +:+ c)) names ++ [CBlank])
  end.

Definition rm_pause (uid : Z) : string :=
  "-/usr/bin/rm -f /run/user/" +:+ str_Z uid +:+ "/libpod/tmp/pause.pid /run/user/" +:+ str_Z uid +:+ "/libpod/tmp/ns_handles".

Definition CDI_CHECK : string :=
  "/bin/bash -c 'test -s /run/cdi/nvidia.yaml || { echo " +:+ chr DQUOTE +:+
  "NVIDIA CDI spec missing: check nvidia-cdi-generator.service" +:+ chr DQUOTE +:+ " >&2; exit 1; }'".

Definition exec_start_pre (m : mode) (name : string) (container : table) (has_secrets : bool) (gpu_vendor : string) (uid : Z)
    : res (list call) :=
  secrets ← (if negb has_secrets then Ok []
             else let write := "+/usr/libexec/workloadctl/workload-write-env " +:+ name in
                  if bool_decide (m = MSingle) then Ok [CAdd "ExecStartPre" write]
                  else c ← index (TTab container) "name"; Ok [CAdd "ExecStartPre" (write +:+ " " +:+ py_str c)]);
  Ok (secrets ++ (if String.eqb gpu_vendor "nvidia" then [CAdd "ExecStartPre" CDI_CHECK] else []) ++
      (if bool_decide (m = MSingle)
       then [CAdd "ExecStartPre" "-/usr/bin/podman system migrate"; CAdd "ExecStartPre" (rm_pause uid)] else []) ++
      [CBlank]).

Section container.
Variable version : string.
Variable planes : list (Z * Z).
Variable leaf_dir denial_dir : string -> string.
Variable resolv_conf : option string.
Variable getaddrinfo : string -> res (list string).
Variable config_dir env_dir services_dir sysusers_dir : string.
Variable getgrnam : string -> option Z.
Variable float_percent : string -> option string.
Variable float_trunc : string -> res Z.
Variable ca_cert_path : string -> string.
Variable resolve_path : string -> option string.
Variable path_kind : string -> path_type.
Variable gpu_override : option string.
Variable cards : list card.
Variable render_derived_profile : list string -> res string.

(** [int(v)]. *)
Definition int_of (v : tv) : res Z :=
  match v with
  | TInt n => Ok n
  | TBool b => Ok (Z.b2z b)
  | TStr s => int_res s
  | TOther ty text _ _ => if String.eqb ty "float" then float_trunc text else Raise TypeError
  | _ => Raise TypeError
  end.

(** podman's grace, five seconds less than systemd's. *)
Definition stop_timeout (resources : tv) : res Z :=
  g ← get resources "timeout_stop_sec";
  match g with
  | None => Ok 10
  | Some v => match int_of v with
              | Ok n => Ok (Z.max 1 (n - 5))
              | Raise TypeError | Raise ValueError => Ok 10
              | Raise e => Raise e
              end
  end.

Definition lifecycle_exec (wl_lifecycle podman_cmd container_name pull : string) (m : mode) (resources : tv)
    : res (list call) :=
  t ← stop_timeout resources;
  let q := dq container_name in
  let pet := String.eqb wl_lifecycle "pet" in
  Ok ((if pet then [CComment "Pet lifecycle: create-once + start (overlay survives stop/reboot)";
                    CAdd "ExecStartPre" ("-" +:+ podman_cmd); CBlank;
                    CAdd "ExecStart" ("/usr/bin/podman start -a " +:+ q)]
       else [CComment ("Image pulling handled by podman run --pull=" +:+ pull); CBlank; CAdd "ExecStart" podman_cmd]) ++
      [CBlank; CAdd "ExecStop" ("/usr/bin/podman stop -t " +:+ str_Z t +:+ " " +:+ q); CAdd "SuccessExitStatus" "143"] ++
      (if negb (bool_decide (m = MPod)) && negb pet
       then [CAdd "ExecStopPost" ("-/usr/bin/podman rm -f -t0 " +:+ q)] else []) ++ [CBlank]).

Definition logging (container_name : string) (resources : tv) : res (list call) :=
  custom ← get_or resources "custom_directives" (TTab []);
  interval ← contains_key "LogRateLimitIntervalSec" custom;
  burst ← contains_key "LogRateLimitBurst" custom;
  Ok ([CAdd "StandardOutput" "journal"; CAdd "StandardError" "journal"; CAdd "SyslogIdentifier" container_name] ++
      (if interval : bool then [] else [CAdd "LogRateLimitIntervalSec" "30"]) ++
      (if burst : bool then [] else [CAdd "LogRateLimitBurst" "250"]) ++ [CBlank]).

Definition hardening (name : string) (uid : Z) (resources : tv) (external_rw : list string) : res (list call) :=
  starts ← contains_key "timeout_start_sec" resources;
  stops ← contains_key "timeout_stop_sec" resources;
  let rw := (chr DQUOTE +:+ path_str (workload_root_dir name) +:+ chr DQUOTE) +:+ " /run/user/" +:+ str_Z uid in
  Ok ([CAdd "Restart" "on-failure"; CAdd "RestartSec" "5s"; CBlank;
       CComment "Filesystem hardening: restrict writes to workload home + podman runtime";
       CAdd "ProtectSystem" "strict"] ++
      (if nonempty external_rw
       then [CComment "Writable out-of-tree volumes: ProtectSystem=strict would";
             CComment "otherwise make podman's bind source read-only (EROFS in the";
             CComment "container, no denial logged)."] else []) ++
      [CAdd "ReadWritePaths" (rw +:+ (if nonempty external_rw then " " +:+ join " " (map uq external_rw) else ""));
       CAdd "PrivateTmp" "yes";
       CComment "Socket-family hardening: deny AF_ALG (CVE-2026-31431 LPE vector) and";
       CComment "AF_PACKET tree-wide, covering the host _wl- podman process too. Deny-list";
       CComment "(~) keeps AF_INET/AF_UNIX/AF_NETLINK for pasta networking + getaddrinfo.";
       CAdd "RestrictAddressFamilies" "~AF_ALG AF_PACKET"] ++
      (if starts : bool then [] else [CAdd "TimeoutStartSec" "300"]) ++
      (if stops : bool then [] else [CAdd "TimeoutStopSec" "30"])).

Definition container_egress_exec (name : string) : list call :=
  [CAdd "ExecStartPre" ("+/usr/libexec/workloadctl/workload-container-filter up " +:+ dq name);
   CAdd "ExecStopPost" ("-+/usr/libexec/workloadctl/workload-container-filter down " +:+ dq name)].

(** [u.add("Requires", x); u.add("After", x)] under a condition. *)
Definition require (b : bool) (x : string) : list call := if b then [CAdd "Requires" x; CAdd "After" x] else [].

Definition sidecar_deps (name : string) (inspect resolve creds : bool) : list call :=
  require inspect (unit_of name "-inspect.socket") ++ require resolve (unit_of name "-resolve.socket") ++
  require creds (unit_of name "-broker.service").

Definition VALID_SERVICE_TYPES : list string := ["simple"; "exec"; "forking"; "oneshot"; "dbus"; "notify"; "idle"].

Definition service_type_of (container : table) : res string :=
  v ← get2 container "resources" "service_type" (TStr "exec");
  Ok (match v with TStr s => if bool_decide (s ∈ VALID_SERVICE_TYPES) then s else "exec" | _ => "exec" end).

(** The [systemd] setting of a container; [None] for a value the generator refuses. *)
Definition systemd_mode_of (container : table) : res (option (option string)) :=
  c ← get_or (TTab container) "container" (TTab []);
  v ← get c "systemd";
  Ok (match v with
      | None => Some None
      | Some v => let m := lower (py_str v) in
                  if bool_decide (m ∈ ["always"; "true"; "false"]) then Some (Some m) else None
      end).

Definition lifecycle_of (workload : table) (m : mode) : res string :=
  w ← index (TTab workload) "workload";
  l ← get_or w "lifecycle" (TStr "cattle");
  Ok (if is_the_str (Some l) "pet" && negb (bool_decide (m = MSingle)) then "cattle" else py_str l).

(** Vendor and specification of [devices.gpu]. *)
Definition gpu_of (container : table) : res (string * string) :=
  g ← get2 container "devices" "gpu" (TStr "none");
  s ← (if is_the_str (Some g) "auto" then resolve_auto_gpu gpu_override cards else as_text g);
  Ok (partition ":" s).

(** What the sections of a container's service are made from. *)
Record service_parts := mkParts {
  sp_comment : string;
  sp_deps : list call;
  sp_identity : list call;
  sp_overrides : list call;
  sp_loads : list call;
  sp_pre : list call;
  sp_exec : list call;
  sp_logging : list call;
  sp_hardening : list call;
  sp_egress : list call }.

(** The sections in the order of the calls. *)
Definition service_sections (m : mode) (p : service_parts) : list (string * list call) :=
  [("Unit", sp_deps p);
   ("Service", sp_identity p ++ sp_overrides p ++ sp_loads p ++ sp_pre p ++ sp_exec p ++ sp_logging p ++
               sp_hardening p ++ sp_egress p)] ++
  (if bool_decide (m = MSingle) then [("Install", [CSet "WantedBy" "multi-user.target"])] else []).

Definition system_service_parts (workload container : table) (user_name : string) (uid : Z) (m : mode)
    : res (option service_parts) :=
  name ← config_name workload;
  cname ← (if bool_decide (m = MSingle) then Ok (TStr name) else index (TTab container) "name");
  let container_name := if bool_decide (m = MSingle) then "workload-" +:+ name else "workload-" +:+ name +:+ "-" +:+ py_str cname in
  c ← index (TTab container) "container";
  image ← index c "image";
  command ← get c "command";
  '(gpu_vendor, gpu_spec) ← gpu_of container;
  slice_name ← slice_of (if bool_decide (m = MSingle) then container else workload);
  let description := if bool_decide (m = MSingle) then name +:+ " rootless workload"
                     else name +:+ "/" +:+ py_str cname +:+ " container" in
  let comment := if bool_decide (m = MSingle) then "Rootless workload service for " +:+ name
                 else "Container service for " +:+ name +:+ "/" +:+ py_str cname in
  let spec := mkSpec workload container uid name container_name m in
  '(volume_flags, external, external_rw) ← volume_args resolve_path path_kind spec;
  deps ← unit_deps workload m name description gpu_vendor external;
  inspect ← (if bool_decide (m = MSingle) then container_uses_inspect workload else Ok false);
  resolve ← (if bool_decide (m = MSingle) then container_uses_resolve workload else Ok false);
  creds ← (if bool_decide (m = MSingle) then container_uses_credentials workload else Ok false);
  systemd ← systemd_mode_of container;
  match systemd with
  | None => Ok None
  | Some systemd_mode =>
      service_type ← service_type_of container;
      wl_lifecycle ← lifecycle_of workload m;
      args ← podman_run_args config_dir getgrnam float_percent ca_cert_path spec service_type wl_lifecycle systemd_mode
               gpu_vendor gpu_spec volume_flags image command;
      csec ← get_or (TTab container) "container" (TTab []);
      ssec ← get_or (TTab container) "secrets" (TTab []);
      credentials ← auto_detect_credentials [("container", csec); ("secrets", ssec)];
      resources ← get_or (TTab container) "resources" (TTab []);
      overrides ← resource_overrides resources;
      loads ← credential_load_calls credentials;
      has_secrets ← has_secret_env_vars spec;
      pre ← exec_start_pre m name container has_secrets gpu_vendor uid;
      pull ← pull_policy spec;
      exec ← lifecycle_exec wl_lifecycle (join " " args) container_name (py_str pull) m resources;
      logs ← logging container_name resources;
      hard ← hardening name uid resources external_rw;
      Ok (Some (mkParts comment (deps ++ sidecar_deps name inspect resolve creds)
                  (service_identity service_type slice_name systemd_mode user_name name)
                  overrides loads pre exec logs hard
                  (if (inspect : bool) then container_egress_exec name else [])))
  end.

Definition generate_system_service (workload container : table) (user_name : string) (uid : Z) (m : mode)
    : res (option unit_file) :=
  p ← system_service_parts workload container user_name uid m;
  Ok (match p with
      | None => None
      | Some p => Some (build [sp_comment p; GENERATED_BY version] (service_sections m p))
      end).

(** ** The heads *)

Definition head_unit (name user_name : string) (uid : Z) (slice_name header description create_cmd rm_cmd : string)
    (inspect creds resolve : bool) : unit_file :=
  build [header; GENERATED_BY version]
    [("Unit",
      [CSet "Description" description; CSet "Requires" (unit_of name "-setup.service");
       CSet "After" ("network.target " +:+ unit_of name "-setup.service"); CSet "PartOf" (unit_of name ".service")] ++
      sidecar_deps name inspect resolve creds);
     ("Service",
      [CSet "Type" "oneshot"; CSet "RemainAfterExit" "yes"; CSet "Slice" slice_name; CSet "User" user_name;
       CSet "Group" user_name; CSet "Environment" (home_env name);
       CSet "EnvironmentFile" ("-/run/workload-env/workload-" +:+ name +:+ ".env");
       CAdd "ExecStartPre" "-/usr/bin/podman system migrate"; CAdd "ExecStartPre" (rm_pause uid);
       CAdd "ExecStartPre" ("-" +:+ rm_cmd)] ++
      (if inspect then container_egress_exec name else []) ++
      [CSet "ExecStart" create_cmd; CSet "ExecStop" rm_cmd; CSet "StandardOutput" "journal"; CSet "StandardError" "journal"])].

Definition generate_pod_service (workload : table) (user_name : string) (uid : Z) : res unit_file :=
  name ← config_name workload;
  slice_name ← slice_of workload;
  net ← get_or (TTab workload) "network" (TTab []);
  mode ← get_or net "mode" (TStr "pasta");
  arg ← container_network_mode_arg workload uid;
  ports ← (if is_the_str (Some mode) "host" || is_the_str (Some mode) "none" then Ok []
           else p ← get_or net "ports" (TArr []); flags_of "--publish " p);
  security ← get_or (TTab workload) "security" (TTab []);
  groups ← get_or security "extra_groups" (TArr []);
  userns ← build_userns_args getgrnam security uid groups;
  inspect ← container_uses_inspect workload;
  creds ← container_uses_credentials workload;
  resolve ← container_uses_resolve workload;
  let args := ["--name=workload-" +:+ name; "--network=" +:+ py_str arg; "--share-parent=false"] ++ ports ++ userns in
  Ok (head_unit name user_name uid slice_name ("Pod-create service for " +:+ name) (name +:+ " pod")
        ("/usr/bin/podman pod create " +:+ join " " args) ("/usr/bin/podman pod rm -f --ignore workload-" +:+ name)
        inspect creds resolve).

Definition generate_net_service (workload : table) (user_name : string) (uid : Z) : res unit_file :=
  name ← config_name workload;
  slice_name ← slice_of workload;
  inspect ← container_uses_inspect workload;
  creds ← container_uses_credentials workload;
  resolve ← container_uses_resolve workload;
  let net_name := "workload-" +:+ name +:+ "-net" in
  Ok (head_unit name user_name uid slice_name ("Bridge-network service for " +:+ name) (name +:+ " bridge network")
        ("/usr/bin/podman network create " +:+ net_name) ("/usr/bin/podman network rm -f " +:+ net_name)
        inspect creds resolve).

Definition generate_umbrella_service (name : string) (containers : list string) (slice_name : string) (m : mode) : unit_file :=
  let helper := if bool_decide (m = MPod) then "pod" else "net" in
  let heads := unit_of name "-setup.service" +:+ " " +:+ unit_of name ("-" +:+ helper +:+ ".service") in
  let subs := join " " (map (fun c => unit_of name ("-" +:+ c +:+ ".service")) containers) in
  build ["Umbrella service for " +:+ name; GENERATED_BY version]
    [("Unit",
      [CSet "Description" (name +:+ " multi-container workload");
       CAdd "Requires" heads; CAdd "After" heads; CAdd "Requires" subs; CAdd "After" subs]);
     ("Service", [CSet "Type" "oneshot"; CSet "RemainAfterExit" "yes"; CSet "Slice" slice_name; CSet "ExecStart" "/bin/true"]);
     ("Install", [CSet "WantedBy" "multi-user.target"])].

Definition container_broker_before (config : table) (m : mode) : res string :=
  name ← config_name config;
  Ok (match m with
      | MPod => unit_of name "-pod.service"
      | MBridge => unit_of name "-net.service"
      | MSingle => unit_of name ".service"
      end).
End container.
