(* ===== verification/GenReadback.v ===== *)
(** * The units of a container workload read back

    Of a configuration whose strings hold no line feed and do not end in a
    continuation backslash, every directive the generators of
    [lib/gen_container.py] ask for is one line of the unit, and systemd reads the
    directives back as they were asked for. *)
From S2P Require Import Prelude PyStr PyPath PyRe UnitFile Toml WorkloadNames WorkloadConfig SecretsTemplate.
From S2P Require Import NetworkConfig BrokerConfig Seccomp Validation Clean RunArgs UnitGen GenCommon GenEgress GenContainer.
Local Open Scope Z_scope.

Lemma plain_get2 t a b d : plain_tab t -> plain_tv d = true -> okp (fun x => plain_tv x = true) (get2 t a b d).
Proof. intros Ht Hd. unfold get2. eapply okp_bind; [by apply plain_get_or|]. intros v Hv. by apply plain_get_or. Qed.

Lemma plain_config_name config : plain_tab config -> okp (fun n => plain n = true) (config_name config).
Proof.
  intros Hc. unfold config_name. eapply okp_bind; [by apply plain_index|]. intros w Hw.
  eapply okp_bind; [by apply plain_index|]. by intros [] Hn.
Qed.

Lemma plain_slice owner : plain_tab owner -> okp (fun s => plain s = true) (slice_of owner).
Proof. intros Ho. unfold slice_of. eapply okp_bind; [by apply plain_get2|]. intros v Hv. by apply plain_py_str. Qed.

(** ** The sections *)

Definition wf_list (cs : list call) : Prop := forallb wf_call cs = true.

Lemma service_names_clean v : clean_tv v = true -> okp (fun s => clean s = true) (service_names v).
Proof.
  intros Hv. unfold service_names. eapply okp_bind; [by apply okp_iter|]. intros l Hl. cbn [okp].
  apply clean_join; [done|]. apply cleans_map. eapply Forall_impl; [done|]. intros x Hx. cbn beta in *. clean_str.
Qed.

Lemma closes_join_services l :
  closes (join " " (map (fun n => "workload-" +:+ py_str n +:+ ".service") l)) = true \/ l = [].
Proof.
  induction l as [|x l IH]; [by right|left]. cbn [map join]. destruct IH as [IH| ->].
  - destruct (map _ l) eqn:E; [by apply closes_app, closes_app|]. apply closes_app, closes_app. exact IH.
  - by apply closes_app, closes_app.
Qed.

Lemma service_names_plain v : clean_tv v = true -> okp (fun s => plain s = true) (service_names v).
Proof.
  intros Hv. pose proof (service_names_clean v Hv) as Hc. unfold service_names in *. destruct (iter v) as [l|]; [|done].
  cbn in *. destruct (closes_join_services l) as [H| ->]; [by apply plain_closes|done].
Qed.

Lemma add_dep_wf d v : wf_key d = true -> clean_tv v = true -> okp wf_list (add_dep d v).
Proof.
  intros Hd Hv. unfold add_dep. destruct (truthy v); [|done]. eapply okp_bind; [by apply service_names_plain|].
  intros s Hs. cbn [okp]. apply wf_calls_cons; [|done]. by apply wf_call_kv.
Qed.

Lemma plain_uq_join l : cleans l -> l <> [] -> plain (join " " (map uq l)) = true.
Proof.
  intros Hl Hne. apply plain_intro.
  - apply clean_join; [done|]. apply cleans_map. eapply Forall_impl; [done|]. intros x Hx. by apply clean_uq.
  - apply continues_join; [done|]. apply Forall_map, Forall_true. intros x. apply closes_continues, closes_uq.
Qed.

Lemma closes_uq_join l : l <> [] -> closes (join " " (map uq l)) = true.
Proof.
  induction l as [|x l IH]; [done|]. intros _. cbn [map join]. destruct (map uq l) eqn:E; [apply closes_uq|].
  apply closes_app, closes_app. rewrite <- E in *. apply IH. by destruct l.
Qed.

Lemma unit_deps_wf workload m name description gpu external :
  clean_tab workload -> clean name = true -> plain description = true -> cleans external ->
  okp wf_list (unit_deps workload m name description gpu external).
Proof.
  intros Hw Hn Hd He. unfold unit_deps, unit_of. cbv zeta.
  eapply okp_bind; [by apply okp_get2|]. intros r Hr. eapply okp_bind; [by apply okp_get2|]. intros a Ha.
  eapply okp_bind; [by apply add_dep_wf|]. intros wants Hwants.
  eapply okp_bind; [by apply add_dep_wf|]. intros afters Hafters. cbn [okp]. unfold wf_list in *.
  wf_calls_tac. apply plain_uq_join; [done|]. by destruct external.
Qed.

Lemma home_env_plain name : clean name = true -> plain (home_env name) = true.
Proof. intros Hn. unfold home_env. plain_str. Qed.

#[local] Hint Resolve home_env_plain : clean.

Lemma service_identity_wf st slice sm user name :
  plain st = true -> plain slice = true -> plain user = true -> clean name = true ->
  wf_list (service_identity st slice sm user name).
Proof. intros Hst Hsl Hu Hn. unfold wf_list, service_identity. wf_calls_tac. Qed.

(** A key of [custom_directives] that is a directive's name. *)
Definition custom_keys_wf (resources : tv) : Prop :=
  okp (Forall (fun kv => wf_key (fst kv) = true))
    (c ← get_or resources "custom_directives" (TTab []); items c).

Lemma add_of_wf t k d : plain_tab t -> wf_key d = true -> wf_list (add_of t k d).
Proof.
  intros Ht Hd. unfold wf_list, add_of. destruct (assoc k t) eqn:E; [|done].
  apply wf_calls_cons; [|done]. apply wf_call_kv; [done|]. by eapply plain_py_str, plain_assoc.
Qed.

Lemma resource_overrides_wf resources :
  plain_tv resources = true -> custom_keys_wf resources -> okp wf_list (resource_overrides resources).
Proof.
  intros Hr Hk. unfold custom_keys_wf in Hk. unfold resource_overrides.
  eapply okp_bind; [by apply plain_items|]. intros t Ht.
  pose proof (plain_get_or resources "custom_directives" (TTab []) Hr eq_refl) as Hg.
  destruct (get_or resources "custom_directives" (TTab [])) as [c|]; [|done]. cbn [mbind res_bind okp] in *.
  pose proof (plain_items c Hg) as Hi. destruct (items c) as [custom|]; [|done]. cbn [mbind res_bind okp] in *.
  assert (Hw : wf_list (add_of t "timeout_start_sec" "TimeoutStartSec" ++ add_of t "timeout_stop_sec" "TimeoutStopSec" ++
                        map (fun '(d, v) => CAdd d (py_str v)) custom)).
  { apply wf_calls_app; [by apply add_of_wf|]. apply wf_calls_app; [by apply add_of_wf|]. apply wf_calls_map.
    rewrite Forall_forall in *. intros [d v] Hin. apply wf_call_kv; [by apply (Hk (d, v))|]. apply plain_py_str.
    unfold plain_tab in Hi. cbn in Hi. rewrite forallb_forall in Hi. apply list_elem_of_In in Hin.
    specialize (Hi _ Hin). cbn in Hi. by apply andb_prop in Hi as [_ ?]. }
  destruct (_ ++ _ ++ _); [done|]. apply wf_calls_cons; [done|]. by apply wf_calls_app.
Qed.

Lemma elem_of_seccomp_names x l : x ∈ seccomp_names l -> x ∈ l.
Proof. unfold seccomp_names. intros H. by apply elem_of_remove_dups, elem_of_py_sorted. Qed.

Lemma cred_name_plain n : re_plus is_cred_char n = true -> plain n = true.
Proof.
  intros [_ H]%andb_prop. apply plain_intro.
  - unfold clean. by rewrite (all_chars_no_char is_cred_char).
  - apply continues_no_bslash. by apply (all_chars_no_char is_cred_char).
Qed.

Lemma scan_env_plain env : okp (Forall (fun v => plain_tv v = true)) (scan_env env).
Proof.
  unfold scan_env. apply okp_bind_any. intros t. cbn [okp]. rewrite Forall_map. apply Forall_forall.
  intros n Hn. apply list_elem_of_In, in_concat in Hn as (l & Hl & Hn). apply in_map_iff in Hl as ([k v] & <- & _).
  apply list_elem_of_In, env_demand_name in Hn. by apply cred_name_plain.
Qed.

Lemma Forall_concat {A} (P : A -> Prop) ls : Forall (Forall P) ls -> Forall P (concat ls).
Proof. induction 1; cbn; [constructor|by apply Forall_app]. Qed.

Lemma files_credentials_plain owner :
  plain_tv owner = true -> okp (Forall (fun v => plain_tv v = true)) (files_credentials owner).
Proof.
  intros Ho. unfold files_credentials. eapply okp_bind; [by apply plain_get_or|]. intros s Hs.
  eapply okp_bind; [by apply plain_get_or|]. intros f Hf.
  assert (Hsp : forall spec, plain_tv spec = true -> okp (Forall (fun v => plain_tv v = true)) (file_credential spec)).
  { intros spec Hsp. unfold file_credential. apply okp_bind_any. intros [|]; [|constructor].
    eapply okp_bind; [by apply plain_index|]. intros v Hv. destruct (hashable v); [by repeat constructor|done]. }
  destruct f as [t| | | |l|t]; try done.
  - cbn [iter mbind res_bind].
    apply (okp_bind (Forall (fun l : list tv => l = []))).
    + eapply (okp_mapM (fun x => exists c, x = TStr c)); [apply Forall_map, Forall_true; eauto|].
      intros x (c & ->). unfold file_credential. cbn. by destruct (contains _ _).
    + intros ls Hls. cbn [okp]. induction Hls as [|? ? -> _ IH]; [constructor|exact IH].
  - apply (okp_bind (Forall (fun x => plain_tv x = true))); [by apply plain_iter|]. intros l' Hl.
    eapply okp_bind; [by eapply okp_mapM|]. intros ls Hls. by apply Forall_concat.
  - apply (okp_bind (Forall (fun x => plain_tv x = true))); [by apply plain_iter|]. intros l' Hl.
    eapply okp_bind; [by eapply okp_mapM|]. intros ls Hls. by apply Forall_concat.
Qed.

Lemma auto_detect_plain csec ssec :
  plain_tv csec = true -> plain_tv ssec = true ->
  okp (Forall (fun v => plain_tv v = true)) (auto_detect_credentials [("container", csec); ("secrets", ssec)]).
Proof.
  intros Hc Hs. unfold auto_detect_credentials. apply okp_bind_any. intros c. apply okp_bind_any. intros e.
  eapply okp_bind; [apply scan_env_plain|]. intros d1 H1. cbn [get_or assoc decide iter mbind res_bind].
  rewrite decide_False by done. rewrite decide_False by done. cbn [iter mbind res_bind mapM_res].
  eapply okp_bind.
  { apply files_credentials_plain. cbn [plain_tv forallb]. by rewrite Hc, Hs. }
  intros d3 H3. cbn [okp concat app]. by apply Forall_app.
Qed.

Lemma credential_load_wf creds :
  Forall (fun v => plain_tv v = true) creds -> okp wf_list (credential_load_calls creds).
Proof.
  intros Hc. unfold credential_load_calls. destruct creds as [|x l] eqn:E; [done|]. rewrite <- E in *. clear E x l.
  unfold sorted_credentials. eapply (okp_bind (Forall (fun s => plain s = true))).
  { eapply okp_bind; [eapply (okp_mapM _ (fun s => plain s = true)); [exact Hc|]; by intros [] ?|].
    intros names Hn. cbn [okp]. rewrite Forall_forall in *. intros x Hx. by apply Hn, elem_of_seccomp_names. }
  intros names Hn. cbn [okp]. apply wf_calls_cons; [done|]. apply wf_calls_app; [|done]. apply wf_calls_map.
  eapply Forall_impl; [exact Hn|]. intros x Hx. apply wf_call_kv; [done|]. plain_str.
Qed.

Lemma exec_start_pre_wf m name container secrets gpu uid :
  plain name = true -> plain_tab container -> okp wf_list (exec_start_pre m name container secrets gpu uid).
Proof.
  intros Hn Hc. unfold exec_start_pre. eapply (okp_bind wf_list).
  - destruct (negb secrets); [done|]. cbv zeta. destruct (bool_decide _).
    + cbn [okp]. unfold wf_list. wf_calls_tac.
    + eapply okp_bind; [by apply plain_index|]. intros c Hcc. cbn [okp]. unfold wf_list. wf_calls_tac.
  - intros l Hl. cbn [okp]. unfold wf_list, rm_pause in *. wf_calls_tac.
Qed.

Section service.
Variable float_trunc : string -> res Z.

Lemma lifecycle_exec_wf lc cmd cn pull m resources :
  plain cmd = true -> clean cn = true -> clean pull = true ->
  okp wf_list (lifecycle_exec float_trunc lc cmd cn pull m resources).
Proof.
  intros Hcmd Hcn Hp. unfold lifecycle_exec. apply okp_bind_any. intros t. cbn [okp]. unfold wf_list. wf_calls_tac.
Qed.
End service.

Lemma logging_wf cn resources : plain cn = true -> okp wf_list (logging cn resources).
Proof. intros Hc. unfold logging. repeat (apply okp_bind_any; intros ?). cbn [okp]. unfold wf_list. wf_calls_tac. Qed.

Lemma hardening_wf name uid resources external_rw :
  clean name = true -> cleans external_rw -> okp wf_list (hardening name uid resources external_rw).
Proof.
  intros Hn He. unfold hardening. repeat (apply okp_bind_any; intros ?). cbv zeta. cbn [okp]. unfold wf_list. wf_calls_tac.
  destruct external_rw as [|x l]; cbn [nonempty]; [plain_str|].
  apply plain_closed; [clean_str| |].
  - apply plain_app; [done|]. by apply plain_uq_join.
  - apply closes_app. by apply closes_uq_join.
Qed.

Lemma container_egress_exec_wf name : clean name = true -> wf_list (container_egress_exec name).
Proof. intros Hn. unfold wf_list, container_egress_exec. wf_calls_tac. Qed.

Lemma sidecar_deps_wf name i r c : clean name = true -> wf_list (sidecar_deps name i r c).
Proof. intros Hn. unfold wf_list, sidecar_deps, require, unit_of. wf_calls_tac. Qed.

(** ** The command *)

Definition closed_list (args : list string) : Prop := exists l x, args = l ++ [x] /\ closes x = true.

Lemma command_args_closed command :
  okp (fun l => l = [] \/ closed_list l) (command_args command).
Proof.
  unfold command_args. destruct command as [v|]; [|by left]. destruct (negb (truthy v)); [by left|].
  assert (Hd : forall x, okp (fun s => closes s = true) (dq_tv x)) by (intros []; try done; apply closes_dq).
  destruct v as [| | | |l|];
    try (eapply okp_bind; [apply Hd|]; intros y Hy; right; by exists [], y).
  assert (Hm : okp (Forall (fun s => closes s = true)) (mapM_res dq_tv l)).
  { eapply (okp_mapM (fun _ => True)); [by apply Forall_true|]. intros x _. apply Hd. }
  destruct (mapM_res dq_tv l) as [r|]; [|done]. cbn [okp] in *.
  destruct r as [|y r _] using rev_ind; [by left|right]. exists r, y. split; [done|].
  apply Forall_app in Hm as [_ Hm]. by inversion Hm.
Qed.

Lemma podman_args_closed config_dir getgrnam fp cert s st l sm v g vols image command args :
  podman_run_args config_dir getgrnam fp cert s st l sm v g vols image command = Ok args -> closed_list args.
Proof.
  unfold podman_run_args. intros H. do 12 apply bind_Ok_inv in H as (? & _ & H).
  apply bind_Ok_inv in H as (img & Hi & H). apply bind_Ok_inv in H as (cmd & Hc & <-%Ok_inj).
  pose proof (command_args_closed command) as Hcl. rewrite Hc in Hcl. cbn [okp] in Hcl.
  assert (closes img = true) as Hic.
  { destruct image; try done. cbn in Hi. apply Ok_inj in Hi as <-. apply closes_dq. }
  destruct Hcl as [->|(l' & y & -> & Hy)].
  - eexists _, img. split; [|done]. rewrite app_nil_r, !app_assoc. done.
  - eexists _, y. split; [|done]. by rewrite !app_assoc.
Qed.

Lemma plain_command args : cleans args -> closed_list args -> plain (join " " args) = true.
Proof.
  intros Hc (l & x & -> & Hx). apply plain_intro; [by apply clean_join|].
  apply continues_join_last; [done|]. by apply closes_continues.
Qed.

(** ** The service of a container *)

Section readback.
Variable version config_dir : string.
Variable getgrnam : string -> option Z.
Variable float_percent : string -> option string.
Variable float_trunc : string -> res Z.
Variable ca_cert_path : string -> string.
Variable resolve_path : string -> option string.
Variable path_kind : string -> path_type.
Variable gpu_override : option string.
Variable cards : list card.
Hypothesis Hversion : clean version = true.
Hypothesis Hdir : clean config_dir = true.
Hypothesis Hfloat : forall s c, float_percent s = Some c -> clean c = true.
Hypothesis Hcert : forall s, clean s = true -> clean (ca_cert_path s) = true.
Hypothesis Hres : forall p q, clean p = true -> resolve_path p = Some q -> clean q = true.
Hypothesis Hgpu : forall g, gpu_override = Some g -> clean g = true.

Lemma gpu_candidates_names : okp (Forall (fun p : string * card => clean (fst p) = true)) (gpu_candidates cards).
Proof.
  induction cards as [|c l IH]; cbn [gpu_candidates]; [constructor|].
  destruct (card_vendor c) as [text|e]; [|cbn; destruct (is_oserror e); [constructor|done]].
  eapply okp_bind; [exact IH|]. intros rest Hr. cbn [okp].
  destruct (assoc _ vendor_map) as [v|] eqn:E; [|done]. constructor; [|done]. apply assoc_In in E. unfold vendor_map in E.
  repeat (apply elem_of_cons in E as [E|E]; [apply (f_equal snd) in E; cbn [snd] in E; by subst v|]).
  by apply not_elem_of_nil in E.
Qed.

Lemma resolve_auto_gpu_clean : okp (fun s => clean s = true) (resolve_auto_gpu gpu_override cards).
Proof.
  unfold resolve_auto_gpu. destruct gpu_override as [[|a s]|] eqn:E; [|by apply (Hgpu (String a s))|];
    (eapply okp_bind; [apply gpu_candidates_names|]; intros l Hl; destruct Hl as [|[v c] l Hv _]; [done|];
     cbn [fst] in Hv; destruct (String.eqb v "nvidia"); [|done]; destruct (card_driver c) as [d|e];
     [cbn; by destruct (String.eqb d "nouveau")|by destruct (is_oserror e)]).
Qed.

Lemma clean_partition c s : clean s = true -> clean (fst (partition c s)) = true /\ clean (snd (partition c s)) = true.
Proof.
  intros Hs. unfold partition. destruct (cut c s) as [[a b]|] eqn:E; [by eapply clean_cut|done].
Qed.

Lemma gpu_of_clean container :
  clean_tab container -> okp (fun p => clean (fst p) = true /\ clean (snd p) = true) (gpu_of gpu_override cards container).
Proof.
  intros Hc. unfold gpu_of. eapply okp_bind; [by apply okp_get2|]. intros g Hg.
  apply (okp_bind (fun s => clean s = true)); [|intros s Hs; by apply clean_partition].
  destruct (is_the_str _ _); [apply resolve_auto_gpu_clean|by apply okp_as_text].
Qed.

Lemma service_type_plain container : okp (fun s => plain s = true) (service_type_of container).
Proof.
  unfold service_type_of. apply okp_bind_any. intros v. cbn [okp]. destruct v as [s| | | | |]; try done.
  destruct (bool_decide (s ∈ _)) eqn:E; [|done]. apply bool_decide_eq_true in E. unfold VALID_SERVICE_TYPES in E.
  repeat (apply elem_of_cons in E as [->|E]; [done|]). by apply not_elem_of_nil in E.
Qed.

Lemma systemd_mode_clean container :
  okp (fun o => forall sm m, o = Some sm -> sm = Some m -> clean m = true) (systemd_mode_of container).
Proof.
  unfold systemd_mode_of. apply okp_bind_any. intros c. apply okp_bind_any. intros v. cbn [okp].
  destruct v as [v|]; [|intros sm m <-%(inj Some); done]. cbv zeta.
  destruct (bool_decide (_ ∈ _)) eqn:E; [|done]. apply bool_decide_eq_true in E.
  intros sm m <-%(inj Some) <-%(inj Some).
  repeat (apply elem_of_cons in E as [->|E]; [done|]). by apply not_elem_of_nil in E.
Qed.

Definition parts_wf (m : mode) (p : service_parts) : Prop :=
  clean (sp_comment p) = true /\ wf_calls (service_sections m p) = true.

Lemma service_sections_wf m p :
  wf_list (sp_deps p) -> wf_list (sp_identity p) -> wf_list (sp_overrides p) -> wf_list (sp_loads p) -> wf_list (sp_pre p) ->
  wf_list (sp_exec p) -> wf_list (sp_logging p) -> wf_list (sp_hardening p) -> wf_list (sp_egress p) ->
  wf_calls (service_sections m p) = true.
Proof.
  unfold wf_list, wf_calls, service_sections. intros. cbn [forallb app wf_name].
  rewrite !forallb_app. repeat match goal with H : forallb wf_call _ = true |- _ => rewrite H; clear H end.
  by destruct (bool_decide (m = MSingle)).
Qed.

(** Every call the generator of a container's service makes is well formed. *)
Lemma system_service_parts_wf workload container user_name uid m :
  plain_tab workload -> plain_tab container -> plain user_name = true ->
  okp custom_keys_wf (get_or (TTab container) "resources" (TTab [])) ->
  okp (fun o => forall p, o = Some p -> parts_wf m p)
    (system_service_parts config_dir getgrnam float_percent float_trunc ca_cert_path resolve_path path_kind gpu_override
       cards workload container user_name uid m).
Proof.
  intros Hw Hc Hu Hk. pose proof (plain_tab_clean _ Hw) as Hwc. pose proof (plain_tab_clean _ Hc) as Hcc.
  unfold system_service_parts. eapply okp_bind; [by apply plain_config_name|]. intros name Hn.
  pose proof (plain_clean _ Hn) as Hnc.
  apply (okp_bind (fun v => plain_tv v = true)).
  { destruct (bool_decide _); [done|]. by apply plain_index. }
  intros cname Hcn. cbv zeta.
  set (container_name := if bool_decide (m = MSingle) then "workload-" +:+ name else _).
  assert (Hctn : plain container_name = true) by (unfold container_name; plain_str).
  eapply okp_bind; [by apply plain_index|]. intros c Hcon. eapply okp_bind; [by apply plain_index|]. intros image Him.
  eapply okp_bind; [by apply plain_get|]. intros command Hcmd.
  eapply okp_bind; [by apply gpu_of_clean|]. intros [gv gs] [Hgv Hgs]. cbn [fst snd] in Hgv, Hgs.
  apply (okp_bind (fun v => plain v = true)); [destruct (bool_decide _); by apply plain_slice|]. intros slice Hsl.
  eapply okp_bind; [by apply (volume_args_clean resolve_path path_kind Hres)|]. intros [[vols ext] extrw] (Hv & He & Her).
  cbn [fst snd] in Hv, He, Her. eapply okp_bind; [apply unit_deps_wf; [done|done|plain_str|done]|].
  intros deps Hdeps. apply okp_bind_any. intros inspect. apply okp_bind_any. intros resolve. apply okp_bind_any. intros creds.
  eapply okp_bind; [apply systemd_mode_clean|]. intros [sm|] Hsm; [|done]. specialize (fun x => Hsm sm x eq_refl).
  eapply okp_bind; [apply service_type_plain|]. intros st Hst. apply okp_bind_any. intros lc.
  apply (okp_bind (fun args => plain (join " " args) = true)).
  { pose proof (podman_run_args_clean config_dir getgrnam float_percent ca_cert_path Hdir Hfloat Hcert
      (mkSpec workload container uid name container_name m) Hwc Hcc Hnc (plain_clean _ Hctn)
      st lc sm gv gs vols image command Hsm Hgs Hv (plain_tv_clean _ Him)
      (fun v Hx => plain_tv_clean _ (Hcmd v Hx))) as Hpa.
    destruct (podman_run_args _ _ _ _ _ _ _ _ _ _ _ _ _) as [args|] eqn:E; [|done].
    apply plain_command; [exact Hpa|by eapply podman_args_closed]. }
  intros args Hargs. eapply okp_bind; [by apply plain_get_or|]. intros csec Hcs. eapply okp_bind; [by apply plain_get_or|].
  intros ssec Hss. eapply okp_bind; [by apply auto_detect_plain|]. intros credentials Hcred.
  pose proof (plain_get_or (TTab container) "resources" (TTab []) Hc eq_refl) as Hr.
  destruct (get_or (TTab container) "resources" (TTab [])) as [resources|]; [|done]. cbn [okp mbind res_bind] in Hk, Hr |- *.
  eapply okp_bind; [by apply resource_overrides_wf|]. intros overrides Hov.
  eapply okp_bind; [by apply credential_load_wf|]. intros loads Hlo. apply okp_bind_any. intros has.
  eapply okp_bind; [by apply exec_start_pre_wf|]. intros pre Hpre.
  eapply okp_bind; [by apply okp_pull_policy|]. intros pull Hpull. cbv beta in Hpull.
  eapply okp_bind; [apply lifecycle_exec_wf; [done|by apply plain_clean|by apply clean_py_str]|]. intros exec Hex.
  eapply okp_bind; [by apply logging_wf|]. intros logs Hlogs.
  eapply okp_bind; [by apply hardening_wf|]. intros hard Hhard. cbn [okp]. intros p <-%(inj Some). split.
  - cbn [sp_comment]. clean_str.
  - apply service_sections_wf; cbn; try done; [|by apply service_identity_wf|].
    + apply wf_calls_app; [done|by apply sidecar_deps_wf].
    + destruct inspect; [by apply container_egress_exec_wf|done].
Qed.

Lemma service_read_back workload container user_name uid m u :
  plain_tab workload -> plain_tab container -> plain user_name = true ->
  okp custom_keys_wf (get_or (TTab container) "resources" (TTab [])) ->
  generate_system_service version config_dir getgrnam float_percent float_trunc ca_cert_path resolve_path path_kind
    gpu_override cards workload container user_name uid m = Ok (Some u) ->
  parse_unit (render u) = Some (directives u).
Proof.
  intros Hw Hc Hu Hk H. unfold generate_system_service in H. apply bind_Ok_inv in H as (o & Ho & H).
  pose proof (Ok_okp _ _ _ (system_service_parts_wf workload container user_name uid m Hw Hc Hu Hk) Ho) as Hp.
  destruct o as [p|]; [|done].
  apply Ok_inj, (inj Some) in H as <-. destruct (Hp p eq_refl) as [Hcm Hs]. apply read_back, build_wf; [|done].
  apply cleans_cons; [done|]. apply cleans_cons; [|constructor]. unfold GENERATED_BY. clean_str.
Qed.

(** C10.  systemd reads a container's service as the directives the generator asked
    for, section by section and in order: no value adds, drops or joins directives.  The
    conditions: no string of the workload's and the container's tables, and not the
    user's name, holds a line feed or ends in a continuation backslash; the custom
    directives have directives' names; the version, the configuration directory, the
    GPU override, the CPU percentages and the path of the CA hold no line feed; and
    resolving a path without a line feed gives none, that is, no symbolic link of the host
    leads to a name that holds one.  (Where one does, the target adds directives:
    [link_target_adds_a_directive].) *)
Theorem container_service_reads_back workload container user_name uid m u :
  plain_tab workload -> plain_tab container -> plain user_name = true ->
  okp custom_keys_wf (get_or (TTab container) "resources" (TTab [])) ->
  generate_system_service version config_dir getgrnam float_percent float_trunc ca_cert_path resolve_path path_kind
    gpu_override cards workload container user_name uid m = Ok (Some u) ->
  parse_unit (render u) = Some (directives u).
Proof. apply service_read_back. Qed.
End readback.

(** A host for the witnesses: no groups, no graphics card, paths that resolve to
    themselves. *)
Module Sample.
Definition cert (state : string) : string := state +:+ "/egress/ca.crt".
Definition resolves (p : string) : option string := Some p.
Definition directory (_ : string) : path_type := PathDirectory.
Definition no_float (_ : string) : option string := None.
Definition no_trunc (_ : string) : res Z := Raise ValueError.

Definition config (resources : table) : table :=
  [("workload", TTab [("name", TStr "web")]);
   ("container", TTab [("image", TStr "docker.io/nginx"); ("command", TArr [TStr "run"; TStr "a b"]);
                       ("environment", TTab [("A", TStr "1"); ("B", TStr "${SECRET:tok}")])]);
   ("network", TTab [("hosts", TArr [TStr "example.com"])]);
   ("storage", TTab [("volumes", TArr [TStr "data:/data"; TStr "/srv/x:/x:ro"])]);
   ("resources", TTab resources)].

Definition container (resources : table) : table :=
  [("name", TStr "web");
   ("container", TTab [("image", TStr "docker.io/nginx"); ("command", TArr [TStr "run"; TStr "a b"]);
                       ("environment", TTab [("A", TStr "1"); ("B", TStr "${SECRET:tok}")])]);
   ("security", TTab []); ("storage", TTab [("volumes", TArr [TStr "data:/data"; TStr "/srv/x:/x:ro"])]);
   ("devices", TTab []); ("secrets", TTab []); ("resources", TTab resources)].

Definition service (config container : table) (m : mode) : res (option unit_file) :=
  generate_system_service "1.0" "/etc/workloads" no_groups no_float no_trunc cert resolves directory None []
    config container "_wl-web" 10001 m.

Definition unit_text (resources : table) : res (option string) :=
  o ← service (config resources) (container resources) MSingle; Ok (option_map render o).
End Sample.

Lemma sample_normalized : normalize_containers (Sample.config [("slice", TStr "web.slice")]) = Ok [Sample.container [("slice", TStr "web.slice")]].
Proof. vm_compute. reflexivity. Qed.

Lemma container_service_reads_back_witness :
  exists u, Sample.service (Sample.config [("slice", TStr "web.slice")]) (Sample.container [("slice", TStr "web.slice")]) MSingle = Ok (Some u) /\
            parse_unit (render u) = Some (directives u).
Proof.
  eexists. split; [vm_compute; reflexivity|].
  refine (container_service_reads_back "1.0" "/etc/workloads" no_groups Sample.no_float Sample.no_trunc Sample.cert
    Sample.resolves Sample.directory None [] eq_refl eq_refl _ _ _ _
    (Sample.config [("slice", TStr "web.slice")]) (Sample.container [("slice", TStr "web.slice")]) "_wl-web" 10001 MSingle _
    eq_refl eq_refl eq_refl _ _).
  - done.
  - intros s Hs. unfold Sample.cert. clean_str.
  - intros p q Hp Hq. unfold Sample.resolves in Hq. apply (inj Some) in Hq. by subst.
  - done.
  - vm_compute. constructor.
  - vm_compute. reflexivity.
Defined.

(** A path of the host that is a link to a name with a line feed. *)
Definition linked (p : string) : option string :=
  if String.eqb p "/srv/x" then Some ("/mnt/a" +:+ String LF "OnFailure=x.service") else Some p.

(** The resolved path of a volume is quoted and not checked: the service of an accepted
    configuration has one directive that nobody wrote. *)
Theorem link_target_adds_a_directive :
  exists u secs unit, generate_system_service "1.0" "/etc/workloads" no_groups Sample.no_float Sample.no_trunc Sample.cert linked
      Sample.directory None [] (Sample.config []) (Sample.container []) "_wl-web" 10001 MSingle = Ok (Some u) /\
    parse_unit (render u) = Some secs /\ assoc "Unit" secs = Some unit /\
    assoc "OnFailure" unit = Some ("x.service" +:+ chr DQUOTE) /\
    assoc "OnFailure" (default [] (assoc "Unit" (directives u))) = None.
Proof. eexists _, _, _. split_and!; [vm_compute; reflexivity..|]. vm_compute. reflexivity. Qed.
