(* ===== verification/GenConfined.v ===== *)
(** * What the units of a container workload guarantee

    The identity and the confinement of a container's service, whatever the
    custom directives say; the egress filter, which is armed before anything of an
    inspected workload runs and stops it when it cannot be; and two ways an
    accepted configuration gets a unit that does not do what it says. *)
From S2P Require Import Prelude PyStr PyPath Toml WorkloadNames WorkloadConfig ContainerValidate.
From S2P Require Import WorkloadAddr NftElements NetworkConfig BrokerConfig Validation Clean RunArgs UnitFile UnitGen GenCommon GenEgress GenContainer GenReadback.
Local Open Scope Z_scope.

(** The lines of a section. *)
Definition section_lines (u : unit_file) (name : string) : list uline :=
  match assoc name (sections u) with Some l => l | None => [] end.

Definition read_service (text : string) : list (string * string) :=
  match parse_unit text with Some secs => match assoc "Service" secs with Some l => l | None => [] end | None => [] end.

(** The values of a key among directives that were read. *)
Definition read_values (key : string) (l : list (string * string)) : list string :=
  omap (fun '(k, v) => if decide (k = key) then Some v else None) l.

Lemma assoc_map_snd {A B} (f : A -> B) n (l : list (string * A)) :
  assoc n (map (fun '(k, b) => (k, f b)) l) = option_map f (assoc n l).
Proof. induction l as [|[k b] l IH]; [done|]. cbn [map assoc]. by case_decide. Qed.

Lemma read_values_kv key l : read_values key (omap kv_of l) = map strip (values key l).
Proof.
  unfold read_values, values. induction l as [|x l IH]; [done|]. cbn [omap list_omap].
  destruct x as [k v| |]; cbn [kv_of omap list_omap]; [|exact IH..]. case_decide; cbn [map]; by rewrite <- IH.
Qed.

(** Of a text that reads back, the values are those asked for, stripped. *)
Lemma read_values_strip u key :
  parse_unit (render u) = Some (directives u) ->
  read_values key (read_service (render u)) = map strip (values key (section_lines u "Service")).
Proof.
  intros H. unfold read_service, section_lines, directives. rewrite H. unfold directives. rewrite assoc_map_snd.
  destruct (assoc "Service" (sections u)); [apply read_values_kv|done].
Qed.

Lemma last_map_strip l : last (map strip l) = strip <$> last l.
Proof. apply fmap_last. Qed.

(** The value systemd uses of a single-valued directive: the last. *)
Definition effective (key : string) (u : unit_file) (section : string) : option string :=
  last (values key (section_lines u section)).

Lemma build_sections comments secs :
  sections (build comments secs) = foldl (fun l '(n, cs) => on_section n (fun b => run_calls b cs) l) [] secs.
Proof.
  unfold build. assert (H0 : sections (foldl (fun u t => unit_comment t u) empty_unit comments) = []).
  { assert (forall u, sections (foldl (fun u t => unit_comment t u) u comments) = sections u) as Hc; [|by rewrite Hc].
    induction comments as [|t l IH]; intros u; [done|]. cbn [foldl]. by rewrite IH. }
  revert H0. generalize (foldl (fun u t => unit_comment t u) empty_unit comments).
  generalize (@nil (string * list uline)). induction secs as [|[n cs] secs IH]; intros l u Hu; [done|].
  cbn [foldl]. apply IH. cbn [unit_section sections]. by rewrite Hu.
Qed.

(** The two sections of a service with what they are asked for. *)
Lemma service_lines m p comments :
  section_lines (build comments (service_sections m p)) "Unit" = run_calls [] (sp_deps p) /\
  section_lines (build comments (service_sections m p)) "Service" =
    run_calls [] (sp_identity p ++ sp_overrides p ++ sp_loads p ++ sp_pre p ++ sp_exec p ++ sp_logging p ++
                  sp_hardening p ++ sp_egress p).
Proof.
  unfold section_lines. rewrite build_sections. unfold service_sections. cbn [app foldl on_section].
  rewrite decide_False by done. destruct (bool_decide (m = MSingle)); cbn [app foldl on_section];
    repeat (rewrite decide_False by done); cbn [assoc];
    repeat first [rewrite decide_True by done | rewrite decide_False by done]; done.
Qed.

Lemma last_values_app key l cs v :
  sets key cs = false -> last (added key cs) = Some v -> last (values key (run_calls l cs)) = Some v.
Proof. intros Hs Hl. rewrite run_calls_values by done. by rewrite last_app, Hl. Qed.

Lemma sets_app key cs cs' : sets key (cs ++ cs') = sets key cs || sets key cs'.
Proof. apply existsb_app. Qed.

Lemma added_app key cs cs' : added key (cs ++ cs') = added key cs ++ added key cs'.
Proof. apply omap_app. Qed.

(** The calls that only append: all of a service's but its identity. *)
Definition appends (cs : list call) : bool := forallb (fun c => match c with CSet _ _ => false | _ => true end) cs.

Lemma appends_sets cs : appends cs = true -> forall key, sets key cs = false.
Proof.
  intros H key. induction cs as [|c cs IH]; [done|]. cbn [appends forallb] in H. apply andb_prop in H as [Hc H].
  unfold sets. cbn [existsb]. fold (sets key cs). rewrite IH by done. by destruct c.
Qed.

Lemma appends_app cs cs' : appends (cs ++ cs') = appends cs && appends cs'.
Proof. apply forallb_app. Qed.

(** ** The parts of a service *)

Section parts.
Variable config_dir : string.
Variable getgrnam : string -> option Z.
Variable float_percent : string -> option string.
Variable float_trunc : string -> res Z.
Variable ca_cert_path : string -> string.
Variable resolve_path : string -> option string.
Variable path_kind : string -> path_type.
Variable gpu_override : option string.
Variable cards : list card.
Variables (workload container : table) (user_name : string) (uid : Z) (m : mode).

Notation parts := (system_service_parts config_dir getgrnam float_percent float_trunc ca_cert_path resolve_path path_kind
                     gpu_override cards workload container user_name uid m).

(** What the parts of a service are made by. *)
Record made_by (p : service_parts) (name : string) (r : tv) (inspect : bool) : Prop := {
  mb_name : config_name workload = Ok name;
  mb_resources : get_or (TTab container) "resources" (TTab []) = Ok r;
  mb_inspect : (if bool_decide (m = MSingle) then container_uses_inspect workload else Ok false) = Ok inspect;
  mb_deps : exists desc gv ext deps rs cr, unit_deps workload m name desc gv ext = Ok deps /\
              sp_deps p = deps ++ sidecar_deps name inspect rs cr;
  mb_identity : exists st sl sm, sp_identity p = service_identity st sl sm user_name name;
  mb_overrides : resource_overrides r = Ok (sp_overrides p);
  mb_loads : exists creds, credential_load_calls creds = Ok (sp_loads p);
  mb_pre : exists has gv, exec_start_pre m name container has gv uid = Ok (sp_pre p);
  mb_exec : exists lc cmd cn pull, lifecycle_exec float_trunc lc cmd cn pull m r = Ok (sp_exec p);
  mb_logging : exists cn, logging cn r = Ok (sp_logging p);
  mb_hardening : exists ext, hardening name uid r ext = Ok (sp_hardening p);
  mb_egress : sp_egress p = if inspect then container_egress_exec name else [] }.

Lemma parts_made p : parts = Ok (Some p) -> exists name r inspect, made_by p name r inspect.
Proof.
  unfold system_service_parts. intros H.
  apply bind_Ok_inv in H as (name & Hname & H). apply bind_Ok_inv in H as (cname & _ & H). cbv zeta in H.
  do 3 apply bind_Ok_inv in H as (? & _ & H). apply bind_Ok_inv in H as ([gv gs] & _ & H).
  apply bind_Ok_inv in H as (sl & _ & H). apply bind_Ok_inv in H as ([[vols ext] extrw] & _ & H).
  apply bind_Ok_inv in H as (deps & Hdeps & H). apply bind_Ok_inv in H as (inspect & Hin & H).
  apply bind_Ok_inv in H as (rs & _ & H). apply bind_Ok_inv in H as (cr & _ & H).
  apply bind_Ok_inv in H as ([sm|] & _ & H); [|done].
  apply bind_Ok_inv in H as (st & _ & H). apply bind_Ok_inv in H as (lc & _ & H). apply bind_Ok_inv in H as (args & _ & H).
  do 2 apply bind_Ok_inv in H as (? & _ & H). apply bind_Ok_inv in H as (creds & _ & H).
  apply bind_Ok_inv in H as (r & Hr & H). apply bind_Ok_inv in H as (ov & Hov & H). apply bind_Ok_inv in H as (lo & Hlo & H).
  apply bind_Ok_inv in H as (has & _ & H). apply bind_Ok_inv in H as (pre & Hpre & H).
  apply bind_Ok_inv in H as (pull & _ & H). apply bind_Ok_inv in H as (ex & Hex & H).
  apply bind_Ok_inv in H as (lg & Hlg & H). apply bind_Ok_inv in H as (hd & Hhd & H).
  apply Ok_inj, (inj Some) in H as <-. exists name, r, inspect. constructor;
    cbn [sp_deps sp_identity sp_overrides sp_loads sp_pre sp_exec sp_logging sp_hardening sp_egress];
    try done; repeat eexists; first [eassumption | reflexivity].
Qed.
End parts.

(** ** Which parts append *)

Ltac appends_tac := repeat first [rewrite appends_app | progress (cbn [appends forallb andb]) | case_match]; try done.

Lemma overrides_append r cs : resource_overrides r = Ok cs -> appends cs = true.
Proof.
  unfold resource_overrides. intros (t & _ & H)%bind_Ok_inv. apply bind_Ok_inv in H as (c & _ & H).
  apply bind_Ok_inv in H as (custom & _ & <-%Ok_inj).
  assert (Ha : appends (add_of t "timeout_start_sec" "TimeoutStartSec" ++ add_of t "timeout_stop_sec" "TimeoutStopSec" ++
                        map (fun '(d, v) => CAdd d (py_str v)) custom) = true).
  { rewrite !appends_app. unfold add_of. apply andb_true_intro. split; [by case_match|].
    apply andb_true_intro. split; [by case_match|]. by induction custom as [|[] custom IH]. }
  revert Ha. generalize (add_of t "timeout_start_sec" "TimeoutStartSec" ++ add_of t "timeout_stop_sec" "TimeoutStopSec" ++
                        map (fun '(d, v) => CAdd d (py_str v)) custom).
  intros [|c0 l] Ha; [done|]. rewrite !appends_app, Ha. done.
Qed.

Lemma loads_append creds cs : credential_load_calls creds = Ok cs -> appends cs = true.
Proof.
  unfold credential_load_calls. destruct creds; [by intros <-%Ok_inj|]. intros (names & _ & <-%Ok_inj)%bind_Ok_inv.
  rewrite !appends_app. cbn [appends forallb]. rewrite andb_true_r. cbn [andb]. by induction names.
Qed.

Lemma pre_append m name c has gv uid cs : exec_start_pre m name c has gv uid = Ok cs -> appends cs = true.
Proof.
  unfold exec_start_pre. intros (l & Hl & <-%Ok_inj)%bind_Ok_inv. rewrite !appends_app.
  assert (appends l = true) as ->; [|by repeat case_match].
  destruct has; [|by apply Ok_inj in Hl as <-]. cbn [negb] in Hl. destruct (bool_decide _); [by apply Ok_inj in Hl as <-|].
  apply bind_Ok_inv in Hl as (x & _ & <-%Ok_inj). done.
Qed.

Lemma exec_append ft lc cmd cn pull m r cs : lifecycle_exec ft lc cmd cn pull m r = Ok cs -> appends cs = true.
Proof.
  unfold lifecycle_exec. intros (t & _ & <-%Ok_inj)%bind_Ok_inv. rewrite !appends_app. by repeat case_match.
Qed.

Lemma logging_append cn r cs : logging cn r = Ok cs -> appends cs = true.
Proof.
  unfold logging. intros (a & _ & H)%bind_Ok_inv. apply bind_Ok_inv in H as (b & _ & H).
  apply bind_Ok_inv in H as (c & _ & <-%Ok_inj). rewrite !appends_app. by destruct b, c.
Qed.

Lemma hardening_append name uid r ext cs : hardening name uid r ext = Ok cs -> appends cs = true.
Proof.
  unfold hardening. intros (a & _ & H)%bind_Ok_inv. apply bind_Ok_inv in H as (b & _ & <-%Ok_inj).
  cbv zeta. rewrite !appends_app. by destruct (nonempty ext), a, b.
Qed.

(** ** Identity and confinement *)

(** The values [custom_directives] gives a directive. *)
Definition custom_values (key : string) (custom : table) : list string :=
  omap (fun '(k, v) => if decide (k = key) then Some (py_str v) else None) custom.

Lemma overrides_added key r cs custom :
  key <> "TimeoutStartSec" -> key <> "TimeoutStopSec" ->
  resource_overrides r = Ok cs -> (c ← get_or r "custom_directives" (TTab []); items c) = Ok custom ->
  added key cs = custom_values key custom.
Proof.
  intros H1 H2 H Hcu. unfold resource_overrides in H. apply bind_Ok_inv in H as (t & _ & H).
  apply bind_Ok_inv in Hcu as (c & Hc & Hi). rewrite Hc in H. cbn [mbind res_bind] in H. rewrite Hi in H.
  cbn [mbind res_bind] in H. apply Ok_inj in H as <-.
  assert (Ha : added key (add_of t "timeout_start_sec" "TimeoutStartSec" ++ add_of t "timeout_stop_sec" "TimeoutStopSec" ++
                        map (fun '(d, v) => CAdd d (py_str v)) custom) = custom_values key custom).
  { rewrite !added_app. unfold add_of.
    assert (Hn : forall d o, key <> d -> added key (match o with Some v => [CAdd d (py_str v)] | None => [] end) = []).
    { intros d [v|] Hd; [|done]. cbn. by rewrite decide_False. }
    rewrite !Hn by done. cbn [app]. unfold added, custom_values. clear. induction custom as [|[k v] custom IH]; [done|].
    cbn [map omap list_omap]. by rewrite IH. }
  revert Ha. generalize (add_of t "timeout_start_sec" "TimeoutStartSec" ++ add_of t "timeout_stop_sec" "TimeoutStopSec" ++
                        map (fun '(d, v) => CAdd d (py_str v)) custom).
  intros [|c0 l] Ha; [done|]. rewrite !added_app, Ha. cbn. by rewrite app_nil_r.
Qed.

Lemma added_loads key creds cs :
  key <> "LoadCredentialEncrypted" -> credential_load_calls creds = Ok cs -> added key cs = [].
Proof.
  intros Hk. unfold credential_load_calls. destruct creds; [by intros <-%Ok_inj|]. intros (names & _ & <-%Ok_inj)%bind_Ok_inv.
  rewrite !added_app. cbn [added omap list_omap app]. rewrite app_nil_r. induction names as [|n names IH]; [done|].
  cbn. by rewrite decide_False.
Qed.

(** The directives the middle of a service writes. *)
Definition MID_KEYS : list string :=
  ["ExecStartPre"; "ExecStart"; "ExecStop"; "SuccessExitStatus"; "ExecStopPost"; "StandardOutput"; "StandardError";
   "SyslogIdentifier"; "LogRateLimitIntervalSec"; "LogRateLimitBurst"].

Lemma added_mid key m name c has gv uid pre ft lc cmd cn pull r ex cn' lg :
  key ∉ MID_KEYS -> exec_start_pre m name c has gv uid = Ok pre -> lifecycle_exec ft lc cmd cn pull m r = Ok ex ->
  logging cn' r = Ok lg -> added key (pre ++ ex ++ lg) = [].
Proof.
  intros Hk Hp He Hl. unfold MID_KEYS in Hk. repeat (apply not_elem_of_cons in Hk as [? Hk]). rewrite !added_app.
  assert (added key pre = []) as ->.
  { unfold exec_start_pre in Hp. apply bind_Ok_inv in Hp as (l & Hl' & <-%Ok_inj). rewrite !added_app.
    assert (added key l = []) as ->.
    { destruct has; [|by apply Ok_inj in Hl' as <-]. cbn [negb] in Hl'.
      destruct (bool_decide _); [apply Ok_inj in Hl' as <-; cbn; by rewrite decide_False|].
      apply bind_Ok_inv in Hl' as (x & _ & <-%Ok_inj). cbn. by rewrite decide_False. }
    repeat case_match; cbn; by repeat (rewrite decide_False by done). }
  assert (added key ex = []) as ->.
  { unfold lifecycle_exec in He. apply bind_Ok_inv in He as (t & _ & <-%Ok_inj). cbv zeta.
    repeat case_match; cbn; by repeat (rewrite decide_False by done). }
  unfold logging in Hl. apply bind_Ok_inv in Hl as (x & _ & Hl). apply bind_Ok_inv in Hl as (a & _ & Hl).
  apply bind_Ok_inv in Hl as (b & _ & <-%Ok_inj). destruct a, b; cbn; by repeat (rewrite decide_False by done).
Qed.

Lemma added_hardening name uid r ext cs :
  hardening name uid r ext = Ok cs ->
  added "ProtectSystem" cs = ["strict"] /\ added "PrivateTmp" cs = ["yes"] /\
  added "RestrictAddressFamilies" cs = ["~AF_ALG AF_PACKET"] /\ added "User" cs = [] /\ added "Group" cs = [].
Proof.
  unfold hardening. intros (a & _ & H)%bind_Ok_inv. apply bind_Ok_inv in H as (b & _ & <-%Ok_inj).
  cbv zeta. destruct (nonempty ext), a, b; done.
Qed.

Lemma identity_values st sl sm user name :
  values "User" (run_calls [] (service_identity st sl sm user name)) = [user] /\
  values "Group" (run_calls [] (service_identity st sl sm user name)) = [user].
Proof. unfold service_identity. by destruct (String.eqb st "notify"), (match sm with Some _ => _ | None => _ end). Qed.

Lemma not_mid_user : "User" ∉ MID_KEYS.
Proof. by apply (bool_decide_eq_false_1 ("User" ∈ MID_KEYS)). Qed.

Lemma not_mid_group : "Group" ∉ MID_KEYS.
Proof. by apply (bool_decide_eq_false_1 ("Group" ∈ MID_KEYS)). Qed.

Section confined.
Variable version config_dir : string.
Variable getgrnam : string -> option Z.
Variable float_percent : string -> option string.
Variable float_trunc : string -> res Z.
Variable ca_cert_path : string -> string.
Variable resolve_path : string -> option string.
Variable path_kind : string -> path_type.
Variable gpu_override : option string.
Variable cards : list card.

Notation generate := (generate_system_service version config_dir getgrnam float_percent float_trunc ca_cert_path
                        resolve_path path_kind gpu_override cards).

Lemma generate_lines workload container user_name uid m u :
  generate workload container user_name uid m = Ok (Some u) ->
  exists p name r inspect,
    made_by float_trunc workload container user_name uid m p name r inspect /\
    section_lines u "Unit" = run_calls [] (sp_deps p) /\
    section_lines u "Service" =
      run_calls [] (sp_identity p ++ sp_overrides p ++ sp_loads p ++ sp_pre p ++ sp_exec p ++ sp_logging p ++
                    sp_hardening p ++ sp_egress p).
Proof.
  intros H. unfold generate_system_service in H. apply bind_Ok_inv in H as ([p|] & Hp & H); [|done].
  apply Ok_inj, (inj Some) in H as <-. apply parts_made in Hp as (name & r & i & Hm).
  exists p, name, r, i. split; [done|]. apply service_lines.
Qed.

(** The directives the generator asks for, whatever the custom directives say. *)
Lemma confined_lines workload container user_name uid m u custom :
  generate workload container user_name uid m = Ok (Some u) ->
  (r ← get_or (TTab container) "resources" (TTab []); c ← get_or r "custom_directives" (TTab []); items c) = Ok custom ->
  effective "ProtectSystem" u "Service" = Some "strict" /\
  effective "PrivateTmp" u "Service" = Some "yes" /\
  effective "RestrictAddressFamilies" u "Service" = Some "~AF_ALG AF_PACKET" /\
  values "User" (section_lines u "Service") = user_name :: custom_values "User" custom /\
  values "Group" (section_lines u "Service") = user_name :: custom_values "Group" custom.
Proof.
  intros (p & name & r & i & Hm & _ & Hl)%generate_lines Hcu.
  destruct Hm as [_ Hr _ _ (st & sl & sm & Hid) Hov (creds & Hlo) (has & gv & Hpre) (lc & cmd & cn & pull & Hex)
                  (cn' & Hlg) (ext & Hhd) Hegr].
  rewrite Hr in Hcu. cbn [mbind res_bind] in Hcu.
  assert (Ha : appends (sp_overrides p ++ sp_loads p ++ sp_pre p ++ sp_exec p ++ sp_logging p ++ sp_hardening p ++ sp_egress p) = true).
  { rewrite !appends_app. erewrite overrides_append, loads_append, pre_append, exec_append, logging_append, hardening_append by done.
    rewrite Hegr. by destruct i. }
  pose proof (added_hardening _ _ _ _ _ Hhd) as (P1 & P2 & P3 & P4 & P5).
  assert (Heg : forall key, key <> "ExecStartPre" -> key <> "ExecStopPost" -> added key (sp_egress p) = []).
  { intros key K1 K2. rewrite Hegr. destruct i; [|done]. cbn. by repeat (rewrite decide_False by done). }
  assert (Hv : forall key, values key (section_lines u "Service") =
             values key (run_calls [] (sp_identity p)) ++ added key (sp_overrides p) ++ added key (sp_loads p) ++
             added key (sp_pre p ++ sp_exec p ++ sp_logging p) ++ added key (sp_hardening p) ++ added key (sp_egress p)).
  { intros key. rewrite Hl, run_calls_app, run_calls_values by (by apply appends_sets).
    by rewrite !added_app, <- !app_assoc. }
  assert (Hlast : forall key v, key <> "ExecStartPre" -> key <> "ExecStopPost" -> added key (sp_hardening p) = [v] ->
             effective key u "Service" = Some v).
  { intros key v K1 K2 K3. unfold effective. rewrite Hv, Heg, K3, app_nil_r by done. by rewrite !app_assoc, last_snoc. }
  split_and!; [by apply Hlast..| |].
  - rewrite Hv, Hid, (proj1 (identity_values st sl sm user_name name)), Heg, P4 by done.
    rewrite (overrides_added "User" _ _ _ ltac:(done) ltac:(done) Hov Hcu), (added_loads "User" _ _ ltac:(done) Hlo).
    rewrite (added_mid "User" _ _ _ _ _ _ _ _ _ _ _ _ _ _ _ _ not_mid_user Hpre Hex Hlg).
    by rewrite !app_nil_r.
  - rewrite Hv, Hid, (proj2 (identity_values st sl sm user_name name)), Heg, P5 by done.
    rewrite (overrides_added "Group" _ _ _ ltac:(done) ltac:(done) Hov Hcu), (added_loads "Group" _ _ ltac:(done) Hlo).
    rewrite (added_mid "Group" _ _ _ _ _ _ _ _ _ _ _ _ _ _ _ _ not_mid_group Hpre Hex Hlg).
    by rewrite !app_nil_r.
Qed.

(** *** As systemd reads it *)

Hypothesis Hversion : clean version = true.
Hypothesis Hdir : clean config_dir = true.
Hypothesis Hfloat : forall s c, float_percent s = Some c -> clean c = true.
Hypothesis Hcert : forall s, clean s = true -> clean (ca_cert_path s) = true.
Hypothesis Hres : forall p q, clean p = true -> resolve_path p = Some q -> clean q = true.
Hypothesis Hgpu : forall g, gpu_override = Some g -> clean g = true.

(** C14.  A container's service is confined, in the text systemd reads, whatever its
    custom directives say: the last [ProtectSystem] of its [Service] section is
    "strict", the last [PrivateTmp] "yes" and the last [RestrictAddressFamilies]
    "~AF_ALG AF_PACKET"; the values of [User] and [Group] are the workload's user
    followed by those the custom directives give.  The conditions are those under which
    the text reads back: no string of the workload's and the container's tables, and not
    the user's name, holds a line feed or ends in a continuation backslash; the custom
    directives are a table with directives' names as keys; the version, the configuration
    directory, the GPU override, the CPU percentages, the path of the CA and the resolved
    paths hold no line feed.  (A backslash at the end of a value can take [User] away:
    [backslash_swallows_user].) *)
Theorem service_is_confined workload container user_name uid m u custom :
  plain_tab workload -> plain_tab container -> plain user_name = true ->
  okp custom_keys_wf (get_or (TTab container) "resources" (TTab [])) ->
  generate workload container user_name uid m = Ok (Some u) ->
  (r ← get_or (TTab container) "resources" (TTab []); c ← get_or r "custom_directives" (TTab []); items c) = Ok custom ->
  let service := read_service (render u) in
  last (read_values "ProtectSystem" service) = Some "strict" /\
  last (read_values "PrivateTmp" service) = Some "yes" /\
  last (read_values "RestrictAddressFamilies" service) = Some "~AF_ALG AF_PACKET" /\
  read_values "User" service = strip user_name :: map strip (custom_values "User" custom) /\
  read_values "Group" service = strip user_name :: map strip (custom_values "Group" custom).
Proof.
  intros Hw Hc Hu Hk Hg Hcu service.
  assert (Hrd : forall key, read_values key service = map strip (values key (section_lines u "Service"))).
  { intros key. apply read_values_strip. apply (service_read_back version config_dir getgrnam float_percent float_trunc
      ca_cert_path resolve_path path_kind gpu_override cards Hversion Hdir Hfloat Hcert Hres Hgpu workload container user_name uid m u
      Hw Hc Hu Hk Hg). }
  destruct (confined_lines workload container user_name uid m u custom Hg Hcu) as (H1 & H2 & H3 & H4 & H5).
  unfold effective in *. rewrite !Hrd, !last_map_strip, H1, H2, H3, H4, H5. done.
Qed.
End confined.

(** ** The egress filter *)

(** The commands systemd runs of a list: an empty value resets it. *)
Fixpoint commands (acc l : list string) : list string :=
  match l with
  | [] => acc
  | v :: l => commands (if String.eqb v "" then [] else acc ++ [v]) l
  end.

Lemma commands_app acc l k : commands acc (l ++ k) = commands (commands acc l) k.
Proof. revert acc. induction l as [|v l IH]; intros acc; [done|]. cbn [app commands]. apply IH. Qed.

Lemma commands_last acc l v : String.eqb v "" = false -> v ∈ commands acc (l ++ [v]).
Proof. intros Hv. rewrite commands_app. cbn [commands]. rewrite Hv. apply elem_of_app. right. by left. Qed.

(** Arming the filter, without the "-" that would let the start go on. *)
Definition filter_up (name : string) : string := "+/usr/libexec/workloadctl/workload-container-filter up " +:+ dq name.

(** The unit arms the filter before it starts anything, and waits for the
    inspector's socket. *)
Definition armed (u : unit_file) (name : string) : Prop :=
  filter_up name ∈ commands [] (values "ExecStartPre" (section_lines u "Service")) /\
  unit_of name "-inspect.socket" ∈ values "Requires" (section_lines u "Unit") /\
  unit_of name "-inspect.socket" ∈ values "After" (section_lines u "Unit").

(** The unit runs only while the other does. *)
Definition bound_to (u : unit_file) (other : string) : Prop :=
  other ∈ values "Requires" (section_lines u "Unit") /\ other ∈ values "After" (section_lines u "Unit") /\
  other ∈ values "BindsTo" (section_lines u "Unit").

Lemma add_dep_sets d v cs key : add_dep d v = Ok cs -> sets key cs = false.
Proof. unfold add_dep. destruct (truthy v); [intros (s & _ & <-%Ok_inj)%bind_Ok_inv; done|by intros <-%Ok_inj]. Qed.

(** The dependencies of a service, but for what the configuration asks for. *)
Lemma unit_deps_added workload m name desc gv ext cs key :
  key ∈ ["Requires"; "After"; "BindsTo"] -> unit_deps workload m name desc gv ext = Ok cs ->
  sets key cs = false /\
  (m <> MSingle -> (if bool_decide (m = MPod) then unit_of name "-pod.service" else unit_of name "-net.service") ∈ added key cs).
Proof.
  intros Hk H. unfold unit_deps in H. cbv zeta in H. do 2 apply bind_Ok_inv in H as (? & _ & H).
  apply bind_Ok_inv in H as (wants & Hw & H). apply bind_Ok_inv in H as (afters & Ha & <-%Ok_inj).
  pose proof (add_dep_sets _ _ _ key Hw) as Sw. pose proof (add_dep_sets _ _ _ key Ha) as Sa.
  rewrite !sets_app, Sw, Sa, !added_app. clear Hw Ha.
  repeat (apply elem_of_cons in Hk as [->|Hk]); [..|by apply not_elem_of_nil in Hk];
    (split; [by destruct (bool_decide (m = MSingle)), (String.eqb gv "nvidia"), (nonempty ext)|]);
    intros Hm; rewrite (bool_decide_eq_false_2 (m = MSingle)) by done;
    apply elem_of_app; right; apply elem_of_app; left; cbn; by left.
Qed.

Lemma sidecar_inspect name rs cr key :
  key ∈ ["Requires"; "After"; "BindsTo"] ->
  sets key (sidecar_deps name true rs cr) = false /\
  (key <> "BindsTo" -> unit_of name "-inspect.socket" ∈ added key (sidecar_deps name true rs cr)).
Proof.
  intros Hk. repeat (apply elem_of_cons in Hk as [->|Hk]); [..|by apply not_elem_of_nil in Hk];
    (split; [by destruct rs, cr|]); intros Hn; try done; unfold sidecar_deps, require; rewrite added_app;
    apply elem_of_app; left; cbn; by left.
Qed.

Lemma sidecar_sets name i rs cr key : sets key (sidecar_deps name i rs cr) = false.
Proof. by destruct i, rs, cr. Qed.

Lemma head_armed version name user uid sl header desc create rm cr rs :
  armed (head_unit version name user uid sl header desc create rm true cr rs) name.
Proof.
  unfold armed. split; [|split].
  - assert (He : values "ExecStartPre" (section_lines (head_unit version name user uid sl header desc create rm true cr rs) "Service")
                 = ["-/usr/bin/podman system migrate"; rm_pause uid; "-" +:+ rm; filter_up name]) by reflexivity.
    rewrite He. by apply (commands_last _ ["-/usr/bin/podman system migrate"; rm_pause uid; "-" +:+ rm]).
  - destruct cr, rs; cbn; by right; left.
  - destruct cr, rs; cbn; by right; left.
Qed.

Section filtered.
Variable version config_dir : string.
Variable getgrnam : string -> option Z.
Variable float_percent : string -> option string.
Variable float_trunc : string -> res Z.
Variable ca_cert_path : string -> string.
Variable resolve_path : string -> option string.
Variable path_kind : string -> path_type.
Variable gpu_override : option string.
Variable cards : list card.

Notation generate := (generate_system_service version config_dir getgrnam float_percent float_trunc ca_cert_path
                        resolve_path path_kind gpu_override cards).

Lemma single_armed workload container user_name uid name u :
  config_name workload = Ok name -> container_uses_inspect workload = Ok true ->
  generate workload container user_name uid MSingle = Ok (Some u) -> armed u name.
Proof.
  intros Hn Hi (p & name' & r & i & Hm & Hu & Hl)%generate_lines.
  destruct Hm as [Hn' _ Hin (desc & gv & ext & deps & rs & cr & Hd & Hdeps) (st & sl & sm & Hid) Hov (creds & Hlo)
                  (has & gv' & Hpre) (lc & cmd & cn & pull & Hex) (cn' & Hlg) (ext' & Hhd) Hegr].
  rewrite Hn in Hn'. apply Ok_inj in Hn' as <-.
  change (container_uses_inspect workload = Ok i) in Hin. rewrite Hi in Hin. apply Ok_inj in Hin as <-.
  split.
  - rewrite Hl, !app_assoc, run_calls_app, run_calls_values by (rewrite Hegr; done). rewrite Hegr.
    by apply commands_last.
  - rewrite Hu, Hdeps.
    assert (forall key, key ∈ ["Requires"; "After"; "BindsTo"] -> key <> "BindsTo" ->
              unit_of name "-inspect.socket" ∈ values key (run_calls [] (deps ++ sidecar_deps name true rs cr))) as Hk.
    { intros key K1 K2. destruct (unit_deps_added _ _ _ _ _ _ _ _ K1 Hd) as [S1 _].
      destruct (sidecar_inspect name rs cr key K1) as [S2 S3].
      rewrite run_calls_values by (by rewrite sets_app, S1, S2). rewrite added_app. apply elem_of_app. right.
      apply elem_of_app. right. by apply S3. }
    split; apply Hk; try done; [by left|right; by left].
Qed.

Lemma multi_bound workload container user_name uid name m u :
  m <> MSingle -> config_name workload = Ok name -> generate workload container user_name uid m = Ok (Some u) ->
  bound_to u (if bool_decide (m = MPod) then unit_of name "-pod.service" else unit_of name "-net.service").
Proof.
  intros Hm Hn (p & name' & r & i & Hmb & Hu & _)%generate_lines.
  destruct Hmb as [Hn' _ _ (desc & gv & ext & deps & rs & cr & Hd & Hdeps) _ _ _ _ _ _ _ _].
  rewrite Hn in Hn'. apply Ok_inj in Hn' as <-. unfold bound_to. rewrite Hu, Hdeps.
  assert (forall key, key ∈ ["Requires"; "After"; "BindsTo"] ->
            (if bool_decide (m = MPod) then unit_of name "-pod.service" else unit_of name "-net.service")
              ∈ values key (run_calls [] (deps ++ sidecar_deps name i rs cr))) as Hk.
  { intros key K1. destruct (unit_deps_added _ _ _ _ _ _ _ _ K1 Hd) as [S1 S2].
    rewrite run_calls_values by (by rewrite sets_app, S1, sidecar_sets). rewrite added_app. apply elem_of_app. right.
    apply elem_of_app. left. by apply S2. }
  split_and!; apply Hk; [by left|right; by left|right; right; by left].
Qed.

(** C2.  Nothing of an inspected workload runs unfiltered.  The unit that
    makes its network, which is the container's service itself, the pod's or the
    network's, arms the egress filter before it starts, without the "-" that would
    let it start when arming fails and after every custom directive that could
    reset the list; it waits for the inspector's socket; and a container of a pod or
    a bridge runs only while that unit does. *)
Theorem inspected_workload_is_filtered workload container user_name uid name m u :
  config_name workload = Ok name -> container_uses_inspect workload = Ok true ->
  generate workload container user_name uid m = Ok (Some u) ->
  match m with
  | MSingle => armed u name
  | MPod => bound_to u (unit_of name "-pod.service") /\
            forall h, generate_pod_service version getgrnam workload user_name uid = Ok h -> armed h name
  | MBridge => bound_to u (unit_of name "-net.service") /\
               forall h, generate_net_service version workload user_name uid = Ok h -> armed h name
  end.
Proof.
  intros Hn Hi Hg. destruct m; [by eapply single_armed|split..].
  - by apply (multi_bound workload container user_name uid name MPod).
  - unfold generate_pod_service. rewrite Hn, Hi. intros h H. cbn [mbind res_bind] in H.
    do 8 apply bind_Ok_inv in H as (? & _ & H). cbn [mbind res_bind] in H. do 2 apply bind_Ok_inv in H as (? & _ & H).
    cbv zeta in H. apply Ok_inj in H as <-. apply head_armed.
  - by apply (multi_bound workload container user_name uid name MBridge).
  - unfold generate_net_service. rewrite Hn, Hi. intros h H. cbn [mbind res_bind] in H.
    apply bind_Ok_inv in H as (? & _ & H). cbn [mbind res_bind] in H. do 2 apply bind_Ok_inv in H as (? & _ & H).
    cbv zeta in H. apply Ok_inj in H as <-. apply head_armed.
Qed.
End filtered.

Lemma service_is_confined_witness :
  let custom : table := [("ProtectSystem", TStr "no"); ("User", TStr "root")] in
  let r : table := [("custom_directives", TTab custom)] in
  exists u, Sample.service (Sample.config r) (Sample.container r) MSingle = Ok (Some u) /\
    last (read_values "ProtectSystem" (read_service (render u))) = Some "strict" /\
    read_values "User" (read_service (render u)) = ["_wl-web"; "root"].
Proof.
  cbv zeta. eexists. split; [vm_compute; reflexivity|].
  match goal with |- last (read_values _ (read_service (render ?u))) = _ /\ _ =>
    destruct (service_is_confined "1.0" "/etc/workloads" no_groups Sample.no_float Sample.no_trunc Sample.cert
      Sample.resolves Sample.directory None [] eq_refl eq_refl ltac:(done)
      ltac:(intros s Hs; unfold Sample.cert; clean_str)
      ltac:(intros p q Hp Hq; unfold Sample.resolves in Hq; apply (inj Some) in Hq; by subst) ltac:(done)
      (Sample.config [("custom_directives", TTab [("ProtectSystem", TStr "no"); ("User", TStr "root")])])
      (Sample.container [("custom_directives", TTab [("ProtectSystem", TStr "no"); ("User", TStr "root")])]) "_wl-web" 10001
      MSingle u [("ProtectSystem", TStr "no"); ("User", TStr "root")] eq_refl eq_refl eq_refl) as (H1 & _ & _ & H2 & _)
  end; [vm_compute; repeat constructor|vm_compute; reflexivity|vm_compute; reflexivity|].
  split; [exact H1|]. exact H2.
Defined.

Lemma inspected_workload_is_filtered_witness :
  exists u, Sample.service (Sample.config []) (Sample.container []) MSingle = Ok (Some u) /\ armed u "web".
Proof.
  eexists. split; [vm_compute; reflexivity|].
  exact (inspected_workload_is_filtered "1.0" "/etc/workloads" no_groups Sample.no_float Sample.no_trunc Sample.cert
    Sample.resolves Sample.directory None [] (Sample.config []) (Sample.container []) "_wl-web" 10001 "web" MSingle _
    eq_refl eq_refl eq_refl).
Defined.

(** ** Accepted configurations with a wrong unit *)

(** The directives of the [Service] section as systemd reads the text. *)
Definition backslash_config : table := Sample.config [("slice", TStr "web\")].

(** A value that ends in a backslash takes the next directive with it.
    The configuration whose [resources.slice] is "web\" is accepted, the generator
    asks for [User=_wl-web], and in the text it writes the reader finds no [User]:
    the line is the end of [Slice]'s value, so the service would run as root. *)
Theorem backslash_swallows_user :
  validate_container_config same_pattern same_match backslash_config = Ok [] /\
  exists c u, normalize_containers backslash_config = Ok [c] /\
    Sample.service backslash_config c MSingle = Ok (Some u) /\
    values "User" (section_lines u "Service") = ["_wl-web"] /\
    assoc "Slice" (read_service (render u)) = Some "web User=_wl-web" /\
    assoc "User" (read_service (render u)) = None.
Proof.
  split; [vm_compute; reflexivity|]. eexists _, _. split; [vm_compute; reflexivity|].
  split; [vm_compute; reflexivity|]. vm_compute. split_and!; reflexivity.
Qed.

Definition lifecycle_config (l : string) : table :=
  [("workload", TTab [("name", TStr "web"); ("lifecycle", TStr l)]);
   ("container", TTab [("image", TStr "docker.io/nginx")])].

(** A lifecycle that is neither "pet" nor "cattle" gets a service that never
    runs its container: the configuration is accepted, its only start command is
    [podman create], and no [podman start] follows. *)
Theorem unknown_lifecycle_never_starts :
  validate_container_config same_pattern same_match (lifecycle_config "Cattle") = Ok [] /\
  exists c u cmd, normalize_containers (lifecycle_config "Cattle") = Ok [c] /\
    Sample.service (lifecycle_config "Cattle") c MSingle = Ok (Some u) /\
    values "ExecStart" (section_lines u "Service") = [cmd] /\
    starts_with "/usr/bin/podman create " cmd = true /\
    forallb (fun v => negb (contains "podman start" v)) (values "ExecStartPre" (section_lines u "Service")) = true.
Proof.
  split; [vm_compute; reflexivity|]. eexists _, _, _. split; [vm_compute; reflexivity|].
  split; [vm_compute; reflexivity|]. split; [vm_compute; reflexivity|]. split; vm_compute; reflexivity.
Qed.

(** ** Where the sidecars listen *)

Lemma added_listen f (planes : list (Z * Z)) :
  added "ListenStream" (map (fun '(_, port) => CAdd "ListenStream" (f +:+ ":" +:+ str_Z port)) planes) =
  map (fun '(_, port) => f +:+ ":" +:+ str_Z port) planes.
Proof. induction planes as [|[g i] planes IH]; [done|]. cbn [map].
  rewrite <- IH. reflexivity.
Qed.

Lemma sets_listen key f (planes : list (Z * Z)) :
  sets key (map (fun '(_, port) => CAdd "ListenStream" (f +:+ ":" +:+ str_Z port)) planes) = false.
Proof. induction planes as [|[g i] planes IH]; [done|]. exact IH. Qed.

(** The streams of the inspector's socket. *)
Lemma inspect_socket_streams version planes config uid helper u a :
  generate_inspect_socket version planes config uid helper = Ok u -> inspect_address uid = Ok a ->
  values "ListenStream" (section_lines u "Socket") =
  map (fun '(_, port) => v4 a +:+ ":" +:+ str_Z port) planes ++ map (fun '(_, port) => ("[" +:+ v6 a +:+ "]") +:+ ":" +:+ str_Z port) planes.
Proof.
  unfold generate_inspect_socket. intros H Ha. apply bind_Ok_inv in H as (name & _ & H). rewrite Ha in H.
  cbn [mbind res_bind] in H. apply Ok_inj in H as <-. unfold section_lines. rewrite build_sections.
  cbn [foldl on_section]. rewrite decide_False by done. cbn [assoc]. rewrite decide_False by done. rewrite decide_True by done.
  cbn [map concat]. rewrite app_nil_r.
  rewrite run_calls_values.
  - rewrite !added_app, !added_listen. cbn. by rewrite app_nil_r.
  - by rewrite !sets_app, !sets_listen.
Qed.

(** What is redirected arrives.  For each plane, the redirect map sends
    the traffic of the workload's uid to an address and a port at which
    the inspector's socket listens, in both families, and the socket listens nowhere
    else. *)
Theorem redirected_traffic_is_listened_for version planes config uid helper u els :
  generate_inspect_socket version planes config uid helper = Ok u -> inspect_map_elements planes uid = Ok els ->
  exists a, inspect_address uid = Ok a /\
    els = [("wl_inspect4", map (fun '(g, i) => str_Z uid +:+ " . " +:+ str_Z g +:+ " : " +:+ v4 a +:+ " . " +:+ str_Z i) planes);
           ("wl_inspect6", map (fun '(g, i) => str_Z uid +:+ " . " +:+ str_Z g +:+ " : " +:+ v6 a +:+ " . " +:+ str_Z i) planes)] /\
    (forall s, s ∈ values "ListenStream" (section_lines u "Socket") <->
       exists g i, (g, i) ∈ planes /\ (s = v4 a +:+ ":" +:+ str_Z i \/ s = ("[" +:+ v6 a +:+ "]") +:+ ":" +:+ str_Z i)).
Proof.
  intros Hu He. unfold inspect_map_elements in He. apply bind_Ok_inv in He as (a & Ha & <-%Ok_inj).
  exists a. split; [done|]. split; [reflexivity|]. rewrite (inspect_socket_streams _ _ _ _ _ _ _ Hu Ha).
  intros s. rewrite elem_of_app, !list_elem_of_fmap. split.
  - intros [([g i] & -> & Hin)|([g i] & -> & Hin)]; exists g, i; auto.
  - intros (g & i & Hin & [->| ->]); [left|right]; by exists (g, i).
Qed.

Lemma redirected_traffic_is_listened_for_witness :
  exists u els a, generate_inspect_socket "1.0" [(443, 8443); (80, 8080)] (Sample.config []) 10001 "workload-container-inspect" = Ok u /\
    inspect_map_elements [(443, 8443); (80, 8080)] 10001 = Ok els /\ inspect_address 10001 = Ok a.
Proof.
  eexists _, _.
  destruct (redirected_traffic_is_listened_for "1.0" [(443, 8443); (80, 8080)] (Sample.config []) 10001
    "workload-container-inspect" _ _ eq_refl eq_refl) as (a & Ha & _).
  exists a. split; [reflexivity|]. split; [reflexivity|exact Ha].
Defined.
