(* ===== verification/GenFiles.v ===== *)
(** * Writing the files of a container workload: [generate_container_workload]

    The generator of [lib/gen_container.py] that puts the units of a workload
    where the inventory of [lib/run_files.py] says.  The world is the files under the
    output directories, by path; a write to a path that cannot be written raises
    [OSError]. *)
From S2P Require Import Prelude PyStr PyPath UnitFile Toml WorkloadNames WorkloadConfig ContainerValidate.
From S2P Require Import NetworkConfig BrokerConfig Validation RunArgs UnitGen GenCommon GenEgress GenContainer GenReadback.
Local Open Scope Z_scope.

Inductive entry := Text (s : string) | Link (target : string).
Notation files := (gmap string entry).

Section writes.
Variable writable : pypath -> bool.

Definition write_text (p : pypath) (text : string) : io files unit := fun w =>
  if writable p then (<[path_str p := Text text]> w, Ok tt) else (w, Raise OSError).

(** [unlink(missing_ok=True)]. *)
Definition unlink (p : pypath) : io files unit := fun w =>
  if writable p then (delete (path_str p) w, Ok tt) else (w, Raise OSError).

(** [symlink_to] after the path, if there is one, has been unlinked. *)
Definition relink (p : pypath) (target : string) : io files unit := fun w =>
  if writable p then (<[path_str p := Link target]> w, Ok tt) else (w, Raise OSError).

Definition write_unit (p : pypath) (u : unit_file) : io files unit := write_text p (render u).

Definition is_render_error (e : exn) : bool := is_oserror e || bool_decide (e = ValueError).
End writes.

Section generate.
Variable writable : pypath -> bool.
Variable version : string.
Variable planes : list (Z * Z).
Variable leaf_dir denial_dir : string -> string.
Variable resolv_conf : option string.
Variable getaddrinfo : string -> res (list string).
Variable config_dir env_dir services_dir sysusers_dir : string.
Variable getgrnam : string -> option Z.
Variable float_percent : string -> option string.
Variable float_trunc : string -> res Z.
Variable ca_cert_path : string -> string.
Variable resolve_path : string -> option string.
Variable path_kind : string -> path_type.
Variable gpu_override : option string.
Variable cards : list card.
Variable render_derived_profile : list string -> res string.

Notation service := (generate_system_service version config_dir getgrnam float_percent float_trunc ca_cert_path
                       resolve_path path_kind gpu_override cards).

(** [if dests: dests[0].write_text(content)]; the content is only made then. *)
Definition write_first (ds : list pypath) (content : res unit_file) : io files unit :=
  match ds with
  | [] => mret tt
  | p :: _ => u ← pure content; write_unit writable p u
  end.

(** The sidecars a workload has. *)
Definition write_sidecars (config : table) (user_name : string) (uid : Z) (m : mode)
    (paths : list (string * string * pypath)) : io files unit :=
  inspects ← pure (container_uses_inspect config);
  _ ← (if inspects : bool then
         _ ← write_first (dests paths "unit" "inspect-socket")
               (generate_inspect_socket version planes config uid "workload-container-inspect");
         write_first (dests paths "unit" "inspect") (generate_inspect_service version leaf_dir denial_dir config user_name uid)
       else mret tt);
  resolves ← pure (container_uses_resolve config);
  _ ← (if resolves : bool then
         _ ← write_first (dests paths "unit" "resolve-socket") (generate_resolve_socket version config uid);
         write_first (dests paths "unit" "resolve") (generate_resolve_service version config user_name uid)
       else mret tt);
  creds ← pure (container_uses_credentials config);
  if creds : bool then
    write_first (dests paths "unit" "broker")
      (before ← container_broker_before config m;
       upstream ← container_broker_upstream_addresses getaddrinfo config;
       command ← container_broker_command config uid;
       generate_broker_service version resolv_conf config before (container_broker_hosts config) upstream command)
  else mret tt.

(** The derived seccomp profile; [false] when it cannot be rendered or written. *)
Definition write_seccomp (config : table) (paths : list (string * string * pypath)) : io files bool :=
  allowed ← pure (seccomp_allow config);
  if negb (nonempty allowed) then mret true
  else p ← pure (dest paths "seccomp" "seccomp");
       try_io (text ← pure (render_derived_profile allowed); _ ← write_text writable p text; mret true)
         is_render_error (fun _ => _ ← unlink writable p; mret false).

(** [dict(zip(names, dests))[c['name']]]: the last of equal names wins. *)
Definition container_dest (names : list tv) (ds : list pypath) (n : tv) : res pypath :=
  match foldl (fun acc '(k, p) => if bool_decide (py_str k = py_str n) then Some p else acc) None (zip names ds) with
  | Some p => Ok p
  | None => Raise KeyError
  end.

(** One container's service; a container whose settings are refused is skipped. *)
Definition write_container (config : table) (user_name : string) (uid : Z) (m : mode) (names : list tv) (ds : list pypath)
    (c : table) : io files unit :=
  sc ← pure (service config c user_name uid m);
  match sc with
  | None => mret tt
  | Some u => n ← pure (index (TTab c) "name"); p ← pure (container_dest names ds n); write_unit writable p u
  end.

Definition write_services (config : table) (user_name : string) (uid : Z) (m : mode) (vw : RunFileConfig)
    (paths : list (string * string * pypath)) (containers : list table) : io files bool :=
  if bool_decide (m = MSingle) then
    match containers with
    | [] => pure (Raise IndexError)
    | c :: _ =>
        sc ← pure (service config c user_name uid MSingle);
        match sc with
        | None => mret false
        | Some u => p ← pure (dest paths "unit" "main"); _ ← write_unit writable p u; mret true
        end
    end
  else
    _ ← (if bool_decide (m = MPod) then
           u ← pure (generate_pod_service version getgrnam config user_name uid);
           p ← pure (dest paths "unit" "pod"); write_unit writable p u
         else
           _ ← pure (get2 config "network" "ports" (TArr []));
           u ← pure (generate_net_service version config user_name uid);
           p ← pure (dest paths "unit" "net"); write_unit writable p u);
    names ← pure (container_names vw);
    _ ← for_io (write_container config user_name uid m names (dests paths "unit" "container")) containers;
    slice_name ← pure (slice_of config);
    name ← pure (config_name config);
    cnames ← pure (mapM_res (fun c => index (TTab c) "name") containers);
    p ← pure (dest paths "unit" "main");
    _ ← write_unit writable p (generate_umbrella_service version name (map py_str cnames) slice_name m);
    mret true.

Definition generate_container_workload (config : table) (user_name : string) (uid : Z) : io files bool :=
  name ← pure (config_name config);
  m ← pure (infer_workload_mode config);
  let vw := mkView config name (Some uid) false (Some m) in
  paths ← pure (emitted_run_paths env_dir services_dir sysusers_dir vw);
  sysuser ← pure (generate_sysuser_config config user_name uid);
  p ← pure (dest paths "sysusers" "sysusers");
  _ ← write_text writable p sysuser;
  p ← pure (dest paths "dropin" "dropin");
  dropin ← pure (generate_user_dropin version config uid);
  _ ← write_text writable p dropin;
  setup ← pure (generate_setup_service version services_dir config);
  p ← pure (dest paths "unit" "setup");
  _ ← write_unit writable p setup;
  _ ← write_sidecars config user_name uid m paths;
  containers ← pure (normalize_containers config);
  ok ← write_seccomp config paths;
  if negb (ok : bool) then mret false
  else
    ok ← write_services config user_name uid m vw paths containers;
    if negb (ok : bool) then mret false
    else p ← pure (dest paths "wants-symlink" "main");
         _ ← relink writable p ("../workload-" +:+ name +:+ ".service");
         mret true.
End generate.

(** ** Only the inventory is written *)

(** The two worlds agree off a set of paths. *)
Definition agree_off (ps : list string) (w w' : files) : Prop := forall q, q ∉ ps -> w' !! q = w !! q.

Definition path_strings (paths : list (string * string * pypath)) : list string := map (fun x => path_str (snd x)) paths.

Lemma dests_in paths kind role p : p ∈ dests paths kind role -> path_str p ∈ path_strings paths.
Proof.
  unfold dests. intros ([[k r] p'] & Hin & H)%list_elem_of_omap. destruct (_ && _); [|done].
  apply (inj Some) in H as <-. apply list_elem_of_fmap. by exists (k, r, p').
Qed.

Lemma dest_in paths kind role p : dest paths kind role = Ok p -> path_str p ∈ path_strings paths.
Proof.
  unfold dest. destruct (dests paths kind role) eqn:E; [done|]. intros <-%Ok_inj. apply (dests_in _ kind role).
  rewrite E. by left.
Qed.

Section only.
Variable writable : pypath -> bool.
Variable ps : list string.
Variable w0 : files.

Lemma write_text_off p text : path_str p ∈ ps -> keeps (agree_off ps w0) (write_text writable p text).
Proof.
  intros Hp w Hw. unfold write_text. destruct (writable p); [|done]. cbn [fst snd]. intros q Hq.
  rewrite lookup_insert_ne by (intros <-; done). by apply Hw.
Qed.

Lemma unlink_off p : path_str p ∈ ps -> keeps (agree_off ps w0) (unlink writable p).
Proof.
  intros Hp w Hw. unfold unlink. destruct (writable p); [|done]. cbn [fst snd]. intros q Hq.
  rewrite lookup_delete_ne by (intros <-; done). by apply Hw.
Qed.

Lemma relink_off p target : path_str p ∈ ps -> keeps (agree_off ps w0) (relink writable p target).
Proof.
  intros Hp w Hw. unfold relink. destruct (writable p); [|done]. cbn [fst snd]. intros q Hq.
  rewrite lookup_insert_ne by (intros <-; done). by apply Hw.
Qed.
End only.

Lemma keeps_try {W A} (I : W -> Prop) (m : io W A) p (h : exn -> io W A) :
  keeps I m -> (forall e, keeps I (h e)) -> keeps I (try_io m p h).
Proof.
  intros Hm Hh w Hw. specialize (Hm w Hw). unfold try_io. destruct (m w) as [w' [a|e]]; [done|].
  destruct (p e); [by apply Hh|done].
Qed.

(** Steps of the generator: reads, then writes to destinations. *)
Ltac off_tac :=
  lazymatch goal with
  | |- keeps _ (mbind _ (pure _)) => apply keeps_pure_bind; intros ? ?; off_tac
  | |- keeps _ (mbind _ _) => apply keeps_bind; [off_tac|intros ?; off_tac]
  | |- keeps _ (mret _) => apply keeps_ret
  | |- keeps _ (pure _) => apply keeps_pure
  | |- keeps _ (if ?b then _ else _) => destruct b; off_tac
  | |- keeps _ (match ?x with _ => _ end) => destruct x eqn:?; off_tac
  | |- keeps _ (try_io _ _ _) => apply keeps_try; [off_tac|intros ?; off_tac]
  | |- keeps _ (write_unit _ _ _) => apply write_text_off; eauto using dest_in
  | |- keeps _ (write_text _ _ _) => apply write_text_off; eauto using dest_in
  | |- keeps _ (unlink _ _) => apply unlink_off; eauto using dest_in
  | |- keeps _ (relink _ _ _) => apply relink_off; eauto using dest_in
  | |- _ => idtac
  end.

Lemma container_dest_in names ds n p : container_dest names ds n = Ok p -> p ∈ ds.
Proof.
  unfold container_dest. intros H.
  assert (Hf : forall l (acc : option pypath) q,
    foldl (fun acc '(k, p) => if bool_decide (py_str k = py_str n) then Some p else acc) acc l = Some q ->
    acc = Some q \/ q ∈ map snd l).
  { induction l as [|[k x] l IH]; intros acc q Hq; [by left|]. cbn [foldl map] in *. apply IH in Hq as [Hq|Hq]; [|by right; right].
    destruct (bool_decide _); [|by left]. right. apply (inj Some) in Hq as <-. by left. }
  destruct (foldl _ _ _) as [q|] eqn:E; [|done]. apply Ok_inj in H as <-. apply Hf in E as [E|E]; [done|].
  apply list_elem_of_fmap in E as ([k x] & -> & Hin). cbn. by apply elem_of_zip_r in Hin.
Qed.

Section exact.
Variable writable : pypath -> bool.
Variable version : string.
Variable planes : list (Z * Z).
Variable leaf_dir denial_dir : string -> string.
Variable resolv_conf : option string.
Variable getaddrinfo : string -> res (list string).
Variable config_dir env_dir services_dir sysusers_dir : string.
Variable getgrnam : string -> option Z.
Variable float_percent : string -> option string.
Variable float_trunc : string -> res Z.
Variable ca_cert_path : string -> string.
Variable resolve_path : string -> option string.
Variable path_kind : string -> path_type.
Variable gpu_override : option string.
Variable cards : list card.
Variable render_derived_profile : list string -> res string.

Lemma write_first_off ps w0 paths kind role content :
  ps = path_strings paths -> keeps (agree_off ps w0) (write_first writable (dests paths kind role) content).
Proof.
  intros ->. unfold write_first. destruct (dests paths kind role) eqn:E; [apply keeps_ret|].
  apply keeps_pure_bind. intros u _. apply write_text_off, (dests_in _ kind role). rewrite E. by left.
Qed.

Lemma write_sidecars_off config user_name uid m paths w0 :
  keeps (agree_off (path_strings paths) w0)
    (write_sidecars writable version planes leaf_dir denial_dir resolv_conf getaddrinfo config user_name uid m paths).
Proof.
  pose proof (fun k r c => write_first_off _ w0 paths k r c eq_refl) as Hw. unfold write_sidecars. off_tac; apply Hw.
Qed.

Lemma write_seccomp_off config paths w0 :
  keeps (agree_off (path_strings paths) w0) (write_seccomp writable render_derived_profile config paths).
Proof. unfold write_seccomp. off_tac. Qed.

Lemma write_container_off config user_name uid m names paths c w0 :
  keeps (agree_off (path_strings paths) w0)
    (write_container writable version config_dir getgrnam float_percent float_trunc ca_cert_path resolve_path path_kind
       gpu_override cards config user_name uid m names (dests paths "unit" "container") c).
Proof. unfold write_container. off_tac. eapply dests_in, container_dest_in. eassumption. Qed.

Lemma write_services_off config user_name uid m vw paths cs w0 :
  keeps (agree_off (path_strings paths) w0)
    (write_services writable version config_dir getgrnam float_percent float_trunc ca_cert_path resolve_path path_kind
       gpu_override cards config user_name uid m vw paths cs).
Proof. unfold write_services. off_tac. apply keeps_for. intros c _. apply write_container_off. Qed.

Lemma container_workload_off config user_name uid name m paths w :
  config_name config = Ok name -> infer_workload_mode config = Ok m ->
  emitted_run_paths env_dir services_dir sysusers_dir (mkView config name (Some uid) false (Some m)) = Ok paths ->
  agree_off (path_strings paths) w
    (fst (generate_container_workload writable version planes leaf_dir denial_dir resolv_conf getaddrinfo config_dir env_dir
            services_dir sysusers_dir getgrnam float_percent float_trunc ca_cert_path resolve_path path_kind gpu_override
            cards render_derived_profile config user_name uid w)).
Proof.
  intros Hn Hm Hp. revert w. enough (forall w0, keeps (agree_off (path_strings paths) w0)
    (generate_container_workload writable version planes leaf_dir denial_dir resolv_conf getaddrinfo config_dir env_dir
       services_dir sysusers_dir getgrnam float_percent float_trunc ca_cert_path resolve_path path_kind gpu_override
       cards render_derived_profile config user_name uid)) as H by (intros w; by apply (H w w)).
  intros w0. unfold generate_container_workload. rewrite Hn, Hm. apply keeps_pure_bind. intros ? <-%Ok_inj.
  apply keeps_pure_bind. intros ? <-%Ok_inj. cbv zeta. rewrite Hp. apply keeps_pure_bind. intros ? <-%Ok_inj.
  off_tac; first [apply write_sidecars_off | apply write_seccomp_off | apply write_services_off].
Qed.

(** The generator writes nothing outside the inventory: whether it
    succeeds, gives up or raises half-way, every path that is not one of the
    workload's emitted files is as it was. *)
Theorem only_inventory_is_written config user_name uid name m paths w :
  config_name config = Ok name -> infer_workload_mode config = Ok m ->
  emitted_run_paths env_dir services_dir sysusers_dir (mkView config name (Some uid) false (Some m)) = Ok paths ->
  agree_off (path_strings paths) w
    (fst (generate_container_workload writable version planes leaf_dir denial_dir resolv_conf getaddrinfo config_dir env_dir
            services_dir sysusers_dir getgrnam float_percent float_trunc ca_cert_path resolve_path path_kind gpu_override
            cards render_derived_profile config user_name uid w)).
Proof. apply container_workload_off. Qed.
End exact.

(** ** All of the inventory is written *)

Definition present (p : pypath) (w : files) : Prop := is_Some (w !! path_str p).

Section present.
Variable writable : pypath -> bool.

Lemma write_text_present p q text : keeps (present q) (write_text writable p text).
Proof.
  intros w Hw. unfold write_text. destruct (writable p); [|done]. cbn [fst snd]. unfold present.
  destruct (decide (path_str p = path_str q)) as [->|Hn]; [rewrite lookup_insert_eq; eauto|by rewrite lookup_insert_ne].
Qed.

Lemma relink_present p q target : keeps (present q) (relink writable p target).
Proof.
  intros w Hw. unfold relink. destruct (writable p); [|done]. cbn [fst snd]. unfold present.
  destruct (decide (path_str p = path_str q)) as [->|Hn]; [rewrite lookup_insert_eq; eauto|by rewrite lookup_insert_ne].
Qed.

Lemma write_text_writes p text w w' : write_text writable p text w = (w', Ok tt) -> present p w'.
Proof.
  unfold write_text. destruct (writable p); [|done]. intros H. injection H as <-. unfold present.
  rewrite lookup_insert_eq. eauto.
Qed.

Lemma relink_writes p target w w' : relink writable p target w = (w', Ok tt) -> present p w'.
Proof.
  unfold relink. destruct (writable p); [|done]. intros H. injection H as <-. unfold present.
  rewrite lookup_insert_eq. eauto.
Qed.

Lemma write_first_present ds content q : keeps (present q) (write_first writable ds content).
Proof. unfold write_first. destruct ds; [apply keeps_ret|]. apply keeps_pure_bind. intros u _. apply write_text_present. Qed.

Lemma write_first_writes p ds content w w' : write_first writable (p :: ds) content w = (w', Ok tt) -> present p w'.
Proof.
  unfold write_first. intros (w1 & u & H1 & H)%io_bind_Ok. by eapply write_text_writes.
Qed.
End present.

Ltac present_tac :=
  lazymatch goal with
  | |- keeps _ (mbind _ (pure _)) => apply keeps_pure_bind; intros ? ?; present_tac
  | |- keeps _ (mbind _ _) => apply keeps_bind; [present_tac|intros ?; present_tac]
  | |- keeps _ (mret _) => apply keeps_ret
  | |- keeps _ (pure _) => apply keeps_pure
  | |- keeps _ (if ?b then _ else _) => destruct b; present_tac
  | |- keeps _ (match ?x with _ => _ end) => destruct x eqn:?; present_tac
  | |- keeps _ (write_unit _ _ _) => apply write_text_present
  | |- keeps _ (write_text _ _ _) => apply write_text_present
  | |- keeps _ (write_first _ _ _) => apply write_first_present
  | |- keeps _ (relink _ _ _) => apply relink_present
  | |- _ => idtac
  end.

Lemma keeps_step {W A} (I : W -> Prop) (m : io W A) w w' r : keeps I m -> m w = (w', r) -> I w -> I w'.
Proof. intros Hk Hm Hw. specialize (Hk w Hw). by rewrite Hm in Hk. Qed.

(** ** The inventory of a container workload *)

(** The destinations of a kind and a role are those of the emitted files of that
    kind and role. *)
Definition of_role (kind role : string) (rf : WorkloadRunFile) : bool :=
  emitted_of rf && (String.eqb (rf_kind rf) kind && String.eqb (rf_role rf) role).

Lemma dests_files env_dir services_dir sysusers_dir vw fs paths kind role :
  workload_run_files env_dir vw = Ok fs -> emitted_run_paths env_dir services_dir sysusers_dir vw = Ok paths ->
  length (dests paths kind role) = length (List.filter (of_role kind role) fs).
Proof.
  intros Hf. unfold emitted_run_paths. rewrite Hf. cbn [mbind res_bind]. intros H%mapM_res_Forall2. clear Hf.
  assert (He : List.filter (of_role kind role) fs =
               List.filter (fun rf => String.eqb (rf_kind rf) kind && String.eqb (rf_role rf) role) (List.filter emitted_of fs)).
  { clear. unfold of_role. induction fs as [|rf fs IH]; [done|]. cbn [List.filter].
    destruct (emitted_of rf); cbn [andb List.filter]; [by rewrite IH|done]. }
  rewrite He. clear He. induction H as [|rf [[k r] p] l paths Hx _ IH]; [done|]. cbn beta in Hx.
  apply bind_Ok_inv in Hx as (rel & _ & Hx). apply Ok_inj in Hx. injection Hx as <- <- _.
  unfold dests in *. cbn [omap list_omap List.filter]. destruct (_ && _); cbn [length]; lia.
Qed.

Lemma paths_in_dests paths k r p : (k, r, p) ∈ paths -> p ∈ dests paths k r.
Proof.
  intros H. unfold dests. apply list_elem_of_omap. exists (k, r, p). split; [done|]. by rewrite !String.eqb_refl.
Qed.

Lemma paths_role env_dir services_dir sysusers_dir vw fs paths k r p :
  workload_run_files env_dir vw = Ok fs -> emitted_run_paths env_dir services_dir sysusers_dir vw = Ok paths ->
  (k, r, p) ∈ paths -> exists rf, rf ∈ fs /\ emitted_of rf = true /\ rf_kind rf = k /\ rf_role rf = r.
Proof.
  intros Hf. unfold emitted_run_paths. rewrite Hf. cbn [mbind res_bind]. intros H%mapM_res_Forall2 Hin. clear Hf.
  apply list_elem_of_lookup in Hin as [i Hi]. destruct (Forall2_lookup_r _ _ _ _ _ H Hi) as (rf & Hrf & Hx).
  apply list_elem_of_lookup_2, list_elem_of_In, List.filter_In in Hrf as [Hin He].
  cbn beta in Hx. apply bind_Ok_inv in Hx as (rel & _ & Hx). apply Ok_inj in Hx. injection Hx as <- <- _.
  exists rf. by rewrite list_elem_of_In.
Qed.

Lemma filter_map_none {A B} (f : A -> B) (g : B -> bool) l : (forall x, g (f x) = false) -> List.filter g (map f l) = [].
Proof. intros H. induction l as [|x l IH]; [done|]. cbn. by rewrite H. Qed.

Lemma filter_map_all {A B} (f : A -> B) (g : B -> bool) l : (forall x, g (f x) = true) -> List.filter g (map f l) = map f l.
Proof. intros H. induction l as [|x l IH]; [done|]. cbn. by rewrite H, IH. Qed.

(** No two files of one kind and role: at most one is asked for. *)
Lemma role_unique fs k ro :
  NoDup (map (fun rf => (rf_kind rf, rf_role rf)) fs) -> (length (List.filter (of_role k ro) fs) <= 1)%nat.
Proof.
  induction fs as [|rf fs IH]; cbn [map List.filter]; [cbn; lia|]. intros [Hn Hd]%NoDup_cons. specialize (IH Hd).
  destruct (of_role k ro rf) eqn:E; [|done]. apply andb_prop in E as [_ [Ek%String.eqb_eq Er%String.eqb_eq]%andb_prop].
  assert (List.filter (of_role k ro) fs = []) as ->; [|cbn; lia].
  destruct (List.filter (of_role k ro) fs) as [|x l] eqn:F; [done|]. exfalso. apply Hn. apply list_elem_of_fmap. exists x.
  assert (Hx : In x (List.filter (of_role k ro) fs)) by (rewrite F; by left). apply List.filter_In in Hx as [Hx Hr].
  apply andb_prop in Hr as [_ [Rk%String.eqb_eq Rr%String.eqb_eq]%andb_prop]. split; [congruence|by apply list_elem_of_In].
Qed.

Section inventory.
Variables (env_dir services_dir sysusers_dir name : string) (config : table) (uid : Z) (m : mode).
Notation vw := (mkView config name (Some uid) false (Some m)).

(** The files that are always in the inventory, and those of a switch. *)
Definition fixed_roles : list (string * string) :=
  [("sysusers", "sysusers"); ("unit", "setup"); ("unit", "main"); ("wants-symlink", "main"); ("dropin", "dropin")].

Definition switched_roles : list (string * string) :=
  [("unit", "pod"); ("unit", "net"); ("unit", "inspect-socket"); ("unit", "inspect"); ("unit", "resolve-socket");
   ("unit", "resolve"); ("unit", "broker"); ("seccomp", "seccomp")].

Lemma container_inventory fs :
  workload_run_files env_dir vw = Ok fs ->
  exists names i r c allowed,
    (if bool_decide (m = MSingle) then Ok [] else container_names vw) = Ok names /\
    container_uses_inspect config = Ok i /\ container_uses_resolve config = Ok r /\ container_uses_credentials config = Ok c /\
    seccomp_allow config = Ok allowed /\
    (forall kr, kr ∈ fixed_roles ++ switched_roles -> (length (List.filter (of_role (fst kr) (snd kr)) fs) <= 1)%nat) /\
    length (List.filter (of_role "unit" "container") fs) = length names /\
    (forall rf, rf ∈ fs -> emitted_of rf = true ->
       (rf_kind rf, rf_role rf) ∈ fixed_roles \/ (rf_kind rf, rf_role rf) = ("unit", "container") \/
       (m = MPod /\ (rf_kind rf, rf_role rf) = ("unit", "pod")) \/ (m = MBridge /\ (rf_kind rf, rf_role rf) = ("unit", "net")) \/
       (i = true /\ (rf_kind rf, rf_role rf) ∈ [("unit", "inspect-socket"); ("unit", "inspect")]) \/
       (r = true /\ (rf_kind rf, rf_role rf) ∈ [("unit", "resolve-socket"); ("unit", "resolve")]) \/
       (c = true /\ (rf_kind rf, rf_role rf) = ("unit", "broker")) \/
       (nonempty allowed = true /\ (rf_kind rf, rf_role rf) = ("seccomp", "seccomp"))).
Proof.
  unfold workload_run_files, container_run_files. cbn [vw_is_vm vw_name vw_config vw_uid vw_mode]. intros H.
  apply bind_Ok_inv in H as (l & Hl & H). apply bind_Ok_inv in Hl as (names & Hn & Hl).
  apply bind_Ok_inv in Hl as (i & Hi & Hl). apply bind_Ok_inv in Hl as (r & Hr & Hl).
  apply bind_Ok_inv in Hl as (c & Hc & <-%Ok_inj). apply bind_Ok_inv in H as (sec & Hs & H).
  apply bind_Ok_inv in Hs as (allowed & Ha & <-%Ok_inj). apply bind_Ok_inv in H as (secrets & Hsec & <-%Ok_inj).
  assert (Hse : forall k ro, List.filter (of_role k ro) secrets = []).
  { intros k ro. destruct (bool_decide _); [by apply Ok_inj in Hsec as <-|].
    apply bind_Ok_inv in Hsec as (x & _ & <-%Ok_inj). by apply filter_map_none. }
  assert (Hs0 : forall rf, rf ∈ secrets -> emitted_of rf = false).
  { intros rf Hin. destruct (bool_decide _); [apply Ok_inj in Hsec as <-; by apply not_elem_of_nil in Hin|].
    apply bind_Ok_inv in Hsec as (x & _ & <-%Ok_inj). by apply list_elem_of_fmap in Hin as (y & -> & _). }
  assert (Hmap : forall k ro, (k, ro) <> ("unit", "container") ->
    List.filter (of_role k ro) (map (fun x => run_unit (("workload-" +:+ name) +:+ "-" +:+ py_str x +:+ ".service") "container" true) names) = []).
  { intros k ro Hk. apply filter_map_none. intros x. unfold of_role, run_unit. cbn [emitted_of rf_emitted rf_kind rf_role].
    destruct (String.eqb_spec "unit" k) as [<-|]; [|by rewrite andb_false_r].
    destruct (String.eqb_spec "container" ro) as [<-|]; [done|by rewrite andb_false_r]. }
  exists names, i, r, c, allowed. split_and!; try done.
  { destruct (bool_decide_reflect (Some m = Some MSingle)) as [E|E].
    - injection E as ->. by rewrite bool_decide_eq_true_2.
    - rewrite bool_decide_eq_false_2 by congruence. done. }
  { intros [k ro] Hk. cbn [fst snd]. rewrite !List.filter_app, Hse, Hmap.
    - cbn [app]. rewrite !app_nil_r, <- !List.filter_app. apply role_unique. by apply (bool_decide_eq_true_1 (NoDup _)).
    - intros [= -> ->]. revert Hk. by apply (bool_decide_eq_false_1 (("unit", "container") ∈ fixed_roles ++ switched_roles)). }
  { rewrite !List.filter_app, Hse, !length_app.
    assert (List.filter (of_role "unit" "container")
      (map (fun x => run_unit (("workload-" +:+ name) +:+ "-" +:+ py_str x +:+ ".service") "container" true) names) =
      map (fun x => run_unit (("workload-" +:+ name) +:+ "-" +:+ py_str x +:+ ".service") "container" true) names) as ->
      by (by apply filter_map_all).
    rewrite length_map. cbn [List.filter app].
    repeat match goal with |- context [of_role ?k ?ro ?x] =>
      replace (of_role k ro x) with false by (symmetry; apply andb_false_r) end. cbn [length]. lia. }
  intros rf Hin He. rewrite !elem_of_app in Hin.
  destruct Hin as [Hin|[[Hin|[Hin|[Hin|Hin]]]|[Hin|[Hin|Hin]]]]; [..|by rewrite (Hs0 _ Hin) in He].
  - left. unfold fixed_roles. repeat (apply elem_of_cons in Hin as [->|Hin]; [cbn; set_solver|]). by apply not_elem_of_nil in Hin.
  - left. apply list_elem_of_singleton in Hin as ->. cbn. set_solver.
  - right. right. repeat (apply elem_of_cons in Hin as [->|Hin]); [..|by apply not_elem_of_nil in Hin]; cbn in He.
    + left. destruct m; try done.
    + right. left. by destruct m.
  - right. left. by apply list_elem_of_fmap in Hin as (x & -> & _).
  - right. right. right. right.
    repeat (apply elem_of_cons in Hin as [->|Hin]); [..|by apply not_elem_of_nil in Hin]; apply andb_prop in He as [He _]; cbn [rf_emitted run_unit] in He; subst.
    + left. split; [done|]. by left.
    + left. split; [done|]. right. by left.
    + right. left. split; [done|]. by left.
    + right. left. split; [done|]. right. by left.
    + right. right. by left.
  - apply list_elem_of_singleton in Hin as ->. apply andb_prop in He as [He _]. cbn [rf_emitted] in He. by do 7 right.
  - repeat (apply elem_of_cons in Hin as [->|Hin]; [done|]). by apply not_elem_of_nil in Hin.
Qed.
End inventory.

(** ** The names of the containers *)

Lemma lift_keys_name keys n c : "name" ∉ keys ->
  assoc "name" (fst (foldl (fun nc key => lift_key key nc) (n, c) keys)) = assoc "name" n.
Proof.
  revert n c. induction keys as [|k keys IH]; intros n c Hk; [done|]. apply not_elem_of_cons in Hk as [Hn Hk].
  cbn [foldl lift_key]. destruct (assoc k n); rewrite IH by done; [by rewrite assoc_del_other|done].
Qed.

Lemma normalize_entry_name e c : normalize_entry e = Ok c -> forall n, index e "name" = Ok n -> index (TTab c) "name" = Ok n.
Proof.
  unfold normalize_entry. intros (t & Ht & H)%bind_Ok_inv n Hn. apply bind_Ok_inv in H as (cv & _ & H).
  apply bind_Ok_inv in H as (ct & _ & H).
  destruct (foldl (fun nc key => lift_key key nc) (t, ct) LIFTED_CONTAINER_KEYS) as [n' c'] eqn:E.
  apply Ok_inj in H as <-. cbn [index]. rewrite assoc_set_other by done.
  pose proof (lift_keys_name LIFTED_CONTAINER_KEYS t ct (bool_decide_eq_false_1 ("name" ∈ LIFTED_CONTAINER_KEYS) eq_refl)) as Hl.
  rewrite E in Hl. cbn [fst] in Hl. rewrite Hl. destruct e as [| | | | |t']; try done. cbn in Ht. apply Ok_inj in Ht as <-.
  exact Hn.
Qed.

(** The normalised containers have the names of the inventory, in its order. *)
Lemma normalized_names config name uid m cs names :
  config_name config = Ok name -> normalize_containers config = Ok cs ->
  container_names (mkView config name uid false m) = Ok names ->
  Forall2 (fun c n => index (TTab c) "name" = Ok n) cs names.
Proof.
  unfold normalize_containers, container_names. cbn [vw_config vw_name]. intros Hn Hc Hl.
  destruct (assoc "containers" config) as [v|].
  - apply bind_Ok_inv in Hc as (l & Hi & Hc). rewrite Hi in Hl. cbn [mbind res_bind] in Hl.
    apply mapM_res_Forall2 in Hc, Hl. clear Hi. revert names Hl. induction Hc as [|e c l cs He _ IH]; intros names Hl;
      inversion Hl; subst; constructor; [by eapply normalize_entry_name|auto].
  - apply Ok_inj in Hl as <-. unfold config_name in Hn. apply bind_Ok_inv in Hn as (w & Hw & Hn).
    apply bind_Ok_inv in Hn as (nv & Hnv & Hn). rewrite Hw in Hc. cbn [mbind res_bind] in Hc. rewrite Hnv in Hc.
    cbn [mbind res_bind] in Hc. repeat apply bind_Ok_inv in Hc as (? & _ & Hc). apply Ok_inj in Hc as <-.
    constructor; [|constructor]. destruct nv; try done. apply Ok_inj in Hn as <-. done.
Qed.

(** With distinct names each container has its own destination. *)
Lemma container_dest_lookup names ds i n p :
  NoDup (map py_str names) -> names !! i = Some n -> ds !! i = Some p -> container_dest names ds n = Ok p.
Proof.
  intros Hnd Hn Hp. unfold container_dest.
  assert (Hf : forall (l : list (tv * pypath)) acc, NoDup (map (fun x => py_str (fst x)) l) ->
    (forall j, l !! j = Some (n, p) ->
       foldl (fun acc '(k, p) => if bool_decide (py_str k = py_str n) then Some p else acc) acc l = Some p)).
  { intros l acc. revert acc. induction l as [|[k x] l IH]; intros acc Hd j Hj; [done|]. cbn [map fst] in Hd.
    apply NoDup_cons in Hd as [Hk Hd]. destruct j as [|j]; cbn [foldl].
    - injection Hj as -> ->. rewrite bool_decide_eq_true_2 by done. clear IH.
      assert (Hno : forall (l : list (tv * pypath)) acc, py_str n ∉ map (fun x => py_str (fst x)) l ->
        foldl (fun acc '(k, p) => if bool_decide (py_str k = py_str n) then Some p else acc) acc l = acc).
      { clear. induction l as [|[k x] l IH]; intros acc Hk; [done|]. cbn [map fst] in Hk.
        apply not_elem_of_cons in Hk as [Hne Hk]. cbn [foldl]. rewrite bool_decide_eq_false_2 by congruence. by apply IH. }
      by rewrite Hno.
    - by apply (IH _ Hd j). }
  assert (Hz : zip names ds !! i = Some (n, p)) by (apply lookup_zip_Some; done).
  erewrite Hf; [done| |exact Hz].
  clear -Hnd. revert ds. induction names as [|x names IH]; intros [|d ds]; cbn [zip zip_with map fst]; try constructor.
  - cbn [map] in Hnd. apply NoDup_cons in Hnd as [Hx _]. intros Hin. apply Hx.
    apply list_elem_of_fmap in Hin as ([k y] & Hk & Hin). apply elem_of_zip_l in Hin. cbn [fst] in Hk. rewrite Hk.
    by apply list_elem_of_fmap_2.
  - apply IH. cbn [map] in Hnd. by apply NoDup_cons in Hnd as [_ ?].
Qed.

Section complete.
Variable writable : pypath -> bool.
Variable version : string.
Variable planes : list (Z * Z).
Variable leaf_dir denial_dir : string -> string.
Variable resolv_conf : option string.
Variable getaddrinfo : string -> res (list string).
Variable config_dir env_dir services_dir sysusers_dir : string.
Variable getgrnam : string -> option Z.
Variable float_percent : string -> option string.
Variable float_trunc : string -> res Z.
Variable ca_cert_path : string -> string.
Variable resolve_path : string -> option string.
Variable path_kind : string -> path_type.
Variable gpu_override : option string.
Variable cards : list card.
Variable render_derived_profile : list string -> res string.

Notation service := (generate_system_service version config_dir getgrnam float_percent float_trunc ca_cert_path
                       resolve_path path_kind gpu_override cards).
Notation services := (write_services writable version config_dir getgrnam float_percent float_trunc ca_cert_path resolve_path
                        path_kind gpu_override cards).
Notation sidecars := (write_sidecars writable version planes leaf_dir denial_dir resolv_conf getaddrinfo).
Notation generate := (generate_container_workload writable version planes leaf_dir denial_dir resolv_conf getaddrinfo
                        config_dir env_dir services_dir sysusers_dir getgrnam float_percent float_trunc ca_cert_path
                        resolve_path path_kind gpu_override cards render_derived_profile).

Lemma sidecars_present config user_name uid m paths q : keeps (present q) (sidecars config user_name uid m paths).
Proof. unfold write_sidecars. present_tac. Qed.

Lemma container_present config user_name uid m names ds c q :
  keeps (present q) (write_container writable version config_dir getgrnam float_percent float_trunc ca_cert_path resolve_path
    path_kind gpu_override cards config user_name uid m names ds c).
Proof. unfold write_container. present_tac. Qed.

Lemma services_present config user_name uid m vw paths cs q : keeps (present q) (services config user_name uid m vw paths cs).
Proof. unfold write_services. present_tac. apply keeps_for. intros c _. apply container_present. Qed.

Lemma seccomp_present config paths q w w' :
  write_seccomp writable render_derived_profile config paths w = (w', Ok true) -> present q w -> present q w'.
Proof.
  unfold write_seccomp. intros (w1 & allowed & H1 & H)%io_bind_Ok Hq. injection H1 as <- _.
  destruct (negb _); [by injection H as <-|]. apply io_bind_Ok in H as (w2 & p & H2 & H). injection H2 as <- _.
  unfold try_io in H. destruct ((text ← pure _; _) w) as [w3 [b|e]] eqn:E.
  - injection H as <- ->. revert E Hq. apply keeps_step. present_tac.
  - destruct (is_render_error e); [|done]. apply io_bind_Ok in H as (? & ? & _ & H). done.
Qed.

Lemma seccomp_writes config paths allowed p w w' :
  seccomp_allow config = Ok allowed -> nonempty allowed = true -> dest paths "seccomp" "seccomp" = Ok p ->
  write_seccomp writable render_derived_profile config paths w = (w', Ok true) -> present p w'.
Proof.
  intros Ha Hne Hp. unfold write_seccomp. rewrite Ha. intros (w1 & al & H1 & H)%io_bind_Ok. injection H1 as <- <-.
  rewrite Hne in H. cbn [negb] in H. apply io_bind_Ok in H as (w2 & p' & H2 & H). rewrite Hp in H2. injection H2 as <- <-.
  unfold try_io in H. destruct ((text ← pure _; _) w) as [w3 [b|e]] eqn:E.
  - injection H as <- ->. apply io_bind_Ok in E as (w4 & text & H4 & E). injection H4 as <- _.
    apply io_bind_Ok in E as (w5 & [] & H5 & E). injection E as <-. by eapply write_text_writes.
  - destruct (is_render_error e); [|done]. apply io_bind_Ok in H as (? & ? & _ & H). done.
Qed.

(** What the sidecars of a workload write, when all goes well. *)
Lemma sidecars_write config user_name uid m paths i r c w w' :
  container_uses_inspect config = Ok i -> container_uses_resolve config = Ok r -> container_uses_credentials config = Ok c ->
  sidecars config user_name uid m paths w = (w', Ok tt) ->
  (forall role p ds, i = true -> role ∈ ["inspect-socket"; "inspect"] -> dests paths "unit" role = p :: ds -> present p w') /\
  (forall role p ds, r = true -> role ∈ ["resolve-socket"; "resolve"] -> dests paths "unit" role = p :: ds -> present p w') /\
  (forall p ds, c = true -> dests paths "unit" "broker" = p :: ds -> present p w').
Proof.
  intros Hi Hr Hc H. unfold write_sidecars in H. rewrite Hi, Hr, Hc in H.
  apply io_bind_Ok in H as (? & ? & E & H). injection E as <- <-. apply io_bind_Ok in H as (w1 & [] & H1 & H).
  apply io_bind_Ok in H as (? & ? & E & H). injection E as <- <-. apply io_bind_Ok in H as (w2 & [] & H2 & H).
  apply io_bind_Ok in H as (? & ? & E & H). injection E as <- <-.
  assert (K2 : forall q, present q w1 -> present q w2) by (intros q; revert H2; apply keeps_step; destruct r; present_tac).
  assert (K3 : forall q, present q w2 -> present q w') by (intros q; revert H; apply keeps_step; destruct c; present_tac).
  split_and!.
  - intros role p ds -> Hin Hd. apply K3, K2. apply io_bind_Ok in H1 as (w3 & [] & H3 & H1).
    repeat (apply elem_of_cons in Hin as [->|Hin]); [..|by apply not_elem_of_nil in Hin]; rewrite Hd in *.
    + apply write_first_writes in H3. revert H1 H3. apply keeps_step, write_first_present.
    + by apply write_first_writes in H1.
  - intros role p ds -> Hin Hd. apply K3. apply io_bind_Ok in H2 as (w3 & [] & H3 & H2).
    repeat (apply elem_of_cons in Hin as [->|Hin]); [..|by apply not_elem_of_nil in Hin]; rewrite Hd in *.
    + apply write_first_writes in H3. revert H2 H3. apply keeps_step, write_first_present.
    + by apply write_first_writes in H2.
  - intros p ds -> Hd. rewrite Hd in H. by apply write_first_writes in H.
Qed.

Lemma for_writes {A} (f : A -> io files unit) l x p w w' :
  (forall y q, keeps (present q) (f y)) -> x ∈ l -> (forall w w', f x w = (w', Ok tt) -> present p w') ->
  for_io f l w = (w', Ok tt) -> present p w'.
Proof.
  intros Hk Hin Hx. revert w. induction l as [|y l IH]; intros w; [by apply not_elem_of_nil in Hin|].
  cbn [for_io]. intros (w1 & [] & H1 & H)%io_bind_Ok. apply elem_of_cons in Hin as [->|Hin]; [|by eapply IH].
  apply Hx in H1. revert H H1. apply keeps_step. apply keeps_for. intros z _. apply Hk.
Qed.

Lemma container_writes config user_name uid m names ds c n p u w w' :
  service config c user_name uid m = Ok (Some u) -> index (TTab c) "name" = Ok n -> container_dest names ds n = Ok p ->
  write_container writable version config_dir getgrnam float_percent float_trunc ca_cert_path resolve_path
    path_kind gpu_override cards config user_name uid m names ds c w = (w', Ok tt) -> present p w'.
Proof.
  intros Hs Hn Hd. unfold write_container. rewrite Hs, Hn. intros (? & ? & E & H)%io_bind_Ok. injection E as <- <-.
  apply io_bind_Ok in H as (? & ? & E & H). injection E as <- <-. rewrite Hd in H.
  apply io_bind_Ok in H as (? & ? & E & H). injection E as <- <-. by eapply write_text_writes.
Qed.

(** What the services of a workload write. *)
Lemma services_write config user_name uid m vw paths cs names w w' :
  services config user_name uid m vw paths cs w = (w', Ok true) -> container_names vw = Ok names ->
  Forall2 (fun c n => index (TTab c) "name" = Ok n) cs names -> NoDup (map py_str names) ->
  Forall (fun c => exists u, service config c user_name uid m = Ok (Some u)) cs ->
  length (dests paths "unit" "container") = (if bool_decide (m = MSingle) then O else length names) ->
  (forall p, dest paths "unit" "main" = Ok p -> present p w') /\
  (forall p, m = MPod -> dest paths "unit" "pod" = Ok p -> present p w') /\
  (forall p, m = MBridge -> dest paths "unit" "net" = Ok p -> present p w') /\
  (forall p, p ∈ dests paths "unit" "container" -> present p w').
Proof.
  unfold write_services. intros H Hn Hcn Hnd Hs Hlen. destruct (bool_decide_reflect (m = MSingle)) as [->|Hm].
  - destruct cs as [|c cs]; [done|]. apply io_bind_Ok in H as (w1 & sc & _ & H).
    destruct sc as [u|]; [|done]. apply io_bind_Ok in H as (w2 & p0 & E & H). injection E as <- E.
    apply io_bind_Ok in H as (w3 & [] & H3 & H). injection H as <-. split_and!; try done.
    + intros p Hp. rewrite Hp in E. injection E as ->. by eapply write_text_writes.
    + intros p Hp. destruct (dests paths "unit" "container"); [by apply not_elem_of_nil in Hp|done].
  - apply io_bind_Ok in H as (w1 & [] & H1 & H). apply io_bind_Ok in H as (? & ? & E & H). rewrite Hn in E. injection E as <- <-.
    apply io_bind_Ok in H as (w2 & [] & H2 & H).
    apply io_bind_Ok in H as (? & ? & E & H). injection E as <- _. apply io_bind_Ok in H as (? & ? & E & H). injection E as <- _.
    apply io_bind_Ok in H as (? & ? & E & H). injection E as <- _. apply io_bind_Ok in H as (? & pm & E & H). injection E as <- E.
    apply io_bind_Ok in H as (w3 & [] & H3 & H). injection H as <-.
    assert (K2 : forall q, present q w1 -> present q w2).
    { intros q. revert H2. apply keeps_step, keeps_for. intros c _. apply container_present. }
    assert (K3 : forall q, present q w2 -> present q w3) by (intros q; revert H3; apply keeps_step, write_text_present).
    split_and!.
    + intros p Hp. rewrite Hp in E. injection E as ->. by eapply write_text_writes.
    + intros p -> Hp. apply K3, K2. rewrite bool_decide_eq_true_2 in H1 by done.
      apply io_bind_Ok in H1 as (? & ? & F & H1). injection F as <- _. apply io_bind_Ok in H1 as (? & ? & F & H1).
      rewrite Hp in F. injection F as <- <-. by eapply write_text_writes.
    + intros p -> Hp. apply K3, K2. rewrite bool_decide_eq_false_2 in H1 by done.
      apply io_bind_Ok in H1 as (? & ? & F & H1). injection F as <- _. apply io_bind_Ok in H1 as (? & ? & F & H1). injection F as <- _.
      apply io_bind_Ok in H1 as (? & ? & F & H1). rewrite Hp in F. injection F as <- <-. by eapply write_text_writes.
    + intros p Hp. apply K3. apply list_elem_of_lookup in Hp as [j Hj].
      assert (Hlt : (j < length names)%nat) by (rewrite <- Hlen; by eapply lookup_lt_Some).
      apply lookup_lt_is_Some_2 in Hlt as [n Hnj].
      destruct (Forall2_lookup_r _ _ _ _ _ Hcn Hnj) as (c & Hc & Hcname).
      rewrite Forall_forall in Hs. destruct (Hs c) as [u Hu]; [by eapply list_elem_of_lookup_2|].
      eapply for_writes; [intros y q; apply container_present| |intros ? ?|exact H2]; [by eapply list_elem_of_lookup_2|].
      eapply container_writes; [exact Hu|exact Hcname|]. by eapply container_dest_lookup.
Qed.

(** Membership in a list of constants. *)
Ltac in_list := unfold fixed_roles, switched_roles; cbn [app]; repeat first [left; reflexivity | right].

Lemma dest_of_dests paths k r p ds : dests paths k r = p :: ds -> dest paths k r = Ok p.
Proof. unfold dest. by intros ->. Qed.

(** The one destination of a role. *)
Lemma single_dest paths k r p : p ∈ dests paths k r -> (length (dests paths k r) <= 1)%nat -> dests paths k r = [p].
Proof.
  destruct (dests paths k r) as [|x [|y l]]; cbn; [by intros ?%not_elem_of_nil|by intros ->%list_elem_of_singleton|lia].
Qed.

(** A run that succeeds: the fixed files, the sidecars, the profile, the
    services, the link. *)
Lemma generation_trace config user_name uid name m paths cs w w' :
  config_name config = Ok name -> infer_workload_mode config = Ok m ->
  emitted_run_paths env_dir services_dir sysusers_dir (mkView config name (Some uid) false (Some m)) = Ok paths ->
  normalize_containers config = Ok cs -> generate config user_name uid w = (w', Ok true) ->
  exists w3 w4 w5 w6,
    (forall k r p, (k, r) ∈ [("sysusers", "sysusers"); ("dropin", "dropin"); ("unit", "setup")] -> dest paths k r = Ok p -> present p w3) /\
    sidecars config user_name uid m paths w3 = (w4, Ok tt) /\
    write_seccomp writable render_derived_profile config paths w4 = (w5, Ok true) /\
    services config user_name uid m (mkView config name (Some uid) false (Some m)) paths cs w5 = (w6, Ok true) /\
    (forall p, dest paths "wants-symlink" "main" = Ok p -> present p w') /\ (forall q, present q w6 -> present q w').
Proof.
  intros Hn Hm Hp Hcs H. unfold generate_container_workload in H. rewrite Hn, Hm in H.
  apply io_bind_Ok in H as (? & ? & E & H). injection E as <- <-. apply io_bind_Ok in H as (? & ? & E & H). injection E as <- <-.
  cbv zeta in H. rewrite Hp in H. apply io_bind_Ok in H as (? & ? & E & H). injection E as <- <-.
  apply io_bind_Ok in H as (? & ? & E & H). injection E as <- _.
  apply io_bind_Ok in H as (? & p1 & E & H). injection E as <- E1. apply io_bind_Ok in H as (w1 & [] & W1 & H).
  apply io_bind_Ok in H as (? & p2 & E & H). injection E as <- E2. apply io_bind_Ok in H as (? & ? & E & H). injection E as <- _.
  apply io_bind_Ok in H as (w2 & [] & W2 & H). apply io_bind_Ok in H as (? & ? & E & H). injection E as <- _.
  apply io_bind_Ok in H as (? & p3 & E & H). injection E as <- E3. apply io_bind_Ok in H as (w3 & [] & W3 & H).
  apply io_bind_Ok in H as (w4 & [] & W4 & H). apply io_bind_Ok in H as (? & ? & E & H). rewrite Hcs in E. injection E as <- <-.
  apply io_bind_Ok in H as (w5 & ok & W5 & H). destruct ok; [|done]. cbn [negb] in H.
  apply io_bind_Ok in H as (w6 & ok & W6 & H). destruct ok; [|done]. cbn [negb] in H.
  apply io_bind_Ok in H as (? & p7 & E & H). injection E as <- E7. apply io_bind_Ok in H as (w7 & [] & W7 & H). injection H as <-.
  exists w3, w4, w5, w6. split_and!; try done.
  - assert (K1 : forall q, present q w1 -> present q w2) by (intros q; revert W2; apply keeps_step, write_text_present).
    assert (K2 : forall q, present q w2 -> present q w3) by (intros q; revert W3; apply keeps_step, write_text_present).
    intros k r p Hx Hd. repeat (apply elem_of_cons in Hx as [Hx|Hx]); [..|by apply not_elem_of_nil in Hx]; injection Hx as -> ->.
    + rewrite E1 in Hd. apply Ok_inj in Hd as ->. apply K2, K1. by eapply write_text_writes.
    + rewrite E2 in Hd. apply Ok_inj in Hd as ->. apply K2. by eapply write_text_writes.
    + rewrite E3 in Hd. apply Ok_inj in Hd as ->. by eapply write_text_writes.
  - intros p Hd. rewrite E7 in Hd. apply Ok_inj in Hd as ->. by eapply relink_writes.
  - intros q. revert W7. apply keeps_step, relink_present.
Qed.

(** C13.  A generation that succeeds has written the whole inventory: when
    [generate_container_workload] returns true, the containers have distinct names
    and none of them was skipped, every file the inventory lists as emitted
    exists: users, drop-in, setup, sidecars, seccomp profile, the head and the
    containers of a pod or a bridge, the workload's service and the link
    that starts it. *)
Theorem whole_inventory_is_written config user_name uid name m paths cs names w w' :
  config_name config = Ok name -> infer_workload_mode config = Ok m ->
  emitted_run_paths env_dir services_dir sysusers_dir (mkView config name (Some uid) false (Some m)) = Ok paths ->
  normalize_containers config = Ok cs ->
  container_names (mkView config name (Some uid) false (Some m)) = Ok names -> NoDup (map py_str names) ->
  Forall (fun c => exists u, service config c user_name uid m = Ok (Some u)) cs ->
  generate config user_name uid w = (w', Ok true) ->
  forall k r p, (k, r, p) ∈ paths -> present p w'.
Proof.
  intros Hn Hm Hp Hcs Hnames Hnd Hs H k r p Hin.
  destruct (generation_trace _ _ _ _ _ _ _ _ _ Hn Hm Hp Hcs H) as (w3 & w4 & w5 & w6 & SF & W4 & W5 & W6 & SL & K6).
  assert (K3 : forall q, present q w3 -> present q w4) by (intros q; revert W4; apply keeps_step, sidecars_present).
  assert (K4 : forall q, present q w4 -> present q w5) by (intros q Hq; by eapply seccomp_present).
  assert (K5 : forall q, present q w5 -> present q w6) by (intros q; revert W6; apply keeps_step, services_present).
  destruct (workload_run_files env_dir (mkView config name (Some uid) false (Some m))) as [fs|] eqn:Hf;
    [|unfold emitted_run_paths in Hp; by rewrite Hf in Hp].
  destruct (container_inventory env_dir name config uid m fs Hf)
    as (nm & i & rs & c & allowed & Hnm & Hi & Hr & Hc & Ha & Hone & Hcont & Hroles).
  destruct (sidecars_write _ _ _ _ _ _ _ _ _ _ Hi Hr Hc W4) as (SI & SR & SB).
  assert (Hlen : length (dests paths "unit" "container") = if bool_decide (m = MSingle) then O else length names).
  { rewrite (dests_files _ _ _ _ _ _ "unit" "container" Hf Hp), Hcont. destruct (bool_decide _); [by injection Hnm as <-|].
    rewrite Hnames in Hnm. by injection Hnm as <-. }
  destruct (services_write _ _ _ _ _ _ _ _ _ _ W6 Hnames (normalized_names _ _ _ _ _ _ Hn Hcs Hnames) Hnd Hs Hlen)
    as (SM & SP & SN & SC).
  assert (Hd : (k, r) ∈ fixed_roles ++ switched_roles -> dests paths k r = [p]).
  { intros Hkr. apply single_dest; [by apply paths_in_dests|]. rewrite (dests_files _ _ _ _ _ _ k r Hf Hp). exact (Hone (k, r) Hkr). }
  destruct (paths_role _ _ _ _ _ _ _ _ _ Hf Hp Hin) as (rf & Hrf & He & Hk & Hro). specialize (Hroles rf Hrf He).
  rewrite Hk, Hro in Hroles. clear Hrf He Hk Hro.
  destruct Hroles as [Hx|[Hx|[[-> Hx]|[[-> Hx]|[[-> Hx]|[[-> Hx]|[[-> Hx]|[Hx1 Hx]]]]]]]].
  - specialize (Hd (proj2 (elem_of_app _ _ _) (or_introl Hx))). unfold fixed_roles in Hx.
    repeat (apply elem_of_cons in Hx as [Hx|Hx]); [..|by apply not_elem_of_nil in Hx]; injection Hx as -> ->;
      apply dest_of_dests in Hd; try (apply K6, K5, K4, K3; eapply SF; [|exact Hd]; solve [in_list]); [by apply K6, SM|by apply SL].
  - injection Hx as -> ->. by apply K6, SC, paths_in_dests.
  - injection Hx as -> ->. apply K6, SP; [done|]. apply (dest_of_dests _ _ _ _ []), Hd. in_list.
  - injection Hx as -> ->. apply K6, SN; [done|]. apply (dest_of_dests _ _ _ _ []), Hd. in_list.
  - apply K6, K5, K4. repeat (apply elem_of_cons in Hx as [Hx|Hx]); [..|by apply not_elem_of_nil in Hx]; injection Hx as -> ->;
      (eapply SI; [done| |apply Hd]; in_list).
  - apply K6, K5, K4. repeat (apply elem_of_cons in Hx as [Hx|Hx]); [..|by apply not_elem_of_nil in Hx]; injection Hx as -> ->;
      (eapply SR; [done| |apply Hd]; in_list).
  - injection Hx as -> ->. apply K6, K5, K4. eapply SB; [done|]. apply Hd. in_list.
  - injection Hx as -> ->. apply K6, K5. eapply seccomp_writes; [exact Ha|exact Hx1| |exact W5].
    apply (dest_of_dests _ _ _ _ []), Hd. in_list.
Qed.
End complete.

(** ** A pod *)

Module Pod.
Definition entry (n : string) : tv := TTab [("name", TStr n); ("container", TTab [("image", TStr "docker.io/nginx")])].

Definition config (names : list string) : table :=
  [("workload", TTab [("name", TStr "web")]); ("network", TTab [("hosts", TArr [TStr "example.com"])]);
   ("containers", TArr (map entry names))].

Definition everywhere (_ : pypath) : bool := true.
Definition dir (_ : string) : string := "/cache".
Definition no_profile (_ : list string) : res string := Raise OSError.
Definition no_addresses (_ : string) : res (list string) := Ok [].

Definition generate (config : table) : io files bool :=
  generate_container_workload everywhere "1.0" [(443, 8443)] dir dir None no_addresses "/etc/workloads" "/run/workload-env"
    "/out" "/out" no_groups Sample.no_float Sample.no_trunc Sample.cert Sample.resolves Sample.directory None [] no_profile
    config "_wl-web" 10001.

Definition inventory (config : table) : res (list (string * string * pypath)) :=
  emitted_run_paths "/run/workload-env" "/out" "/out" (mkView config "web" (Some 10001) false (Some MPod)).
End Pod.

Lemma only_inventory_is_written_witness :
  fst (Pod.generate (Pod.config ["app"; "db"]) {["/out/other.service" := Text "x"]}) !! "/out/other.service" = Some (Text "x").
Proof.
  destruct (Pod.inventory (Pod.config ["app"; "db"])) as [paths|] eqn:E; [|vm_compute in E; discriminate].
  assert (Hq : "/out/other.service" ∉ path_strings paths).
  { vm_compute in E. apply Ok_inj in E as <-. by apply (bool_decide_eq_false_1 ("/out/other.service" ∈ _)). }
  exact (only_inventory_is_written Pod.everywhere "1.0" [(443, 8443)] Pod.dir Pod.dir None Pod.no_addresses "/etc/workloads"
    "/run/workload-env" "/out" "/out" no_groups Sample.no_float Sample.no_trunc Sample.cert Sample.resolves Sample.directory
    None [] Pod.no_profile (Pod.config ["app"; "db"]) "_wl-web" 10001 "web" MPod paths
    {["/out/other.service" := Text "x"]} eq_refl eq_refl E "/out/other.service" Hq).
Defined.

Lemma pod_generated : snd (Pod.generate (Pod.config ["app"; "db"]) ∅) = Ok true.
Proof. vm_compute. reflexivity. Qed.

Lemma pod_inventory :
  (fun paths => dests paths "unit" "container") <$> Pod.inventory (Pod.config ["app"; "db"]) =
  Ok [path_of "/out/workload-web-app.service"; path_of "/out/workload-web-db.service"].
Proof. vm_compute. reflexivity. Qed.

Lemma in_dests paths k r p : p ∈ dests paths k r -> (k, r, p) ∈ paths.
Proof.
  unfold dests. intros ([[k' r'] p'] & Hin & H)%list_elem_of_omap. destruct (_ && _) eqn:E; [|done].
  apply (inj Some) in H as <-. by apply andb_prop in E as [->%String.eqb_eq ->%String.eqb_eq].
Qed.

Lemma pod_names_distinct : NoDup (map py_str [TStr "app"; TStr "db"]).
Proof. apply NoDup_cons. split; [by intros ?%list_elem_of_singleton|]. apply NoDup_singleton. Qed.

Definition pod_services_rendered : bool :=
  match normalize_containers (Pod.config ["app"; "db"]) with
  | Ok cs => forallb (fun c => match Sample.service (Pod.config ["app"; "db"]) c MPod with Ok (Some _) => true | _ => false end) cs
  | Raise _ => false
  end.

Lemma whole_inventory_is_written_witness :
  present (path_of "/out/workload-web-db.service") (fst (Pod.generate (Pod.config ["app"; "db"]) ∅)).
Proof.
  pose proof pod_inventory as Hi. destruct (Pod.inventory (Pod.config ["app"; "db"])) as [paths|] eqn:E; [|discriminate].
  apply Ok_inj in Hi.
  apply (whole_inventory_is_written Pod.everywhere "1.0" [(443, 8443)] Pod.dir Pod.dir None Pod.no_addresses "/etc/workloads"
    "/run/workload-env" "/out" "/out" no_groups Sample.no_float Sample.no_trunc Sample.cert Sample.resolves Sample.directory
    None [] Pod.no_profile (Pod.config ["app"; "db"]) "_wl-web" 10001 "web" MPod paths
    [[("name", TStr "app"); ("container", TTab [("image", TStr "docker.io/nginx")])];
     [("name", TStr "db"); ("container", TTab [("image", TStr "docker.io/nginx")])]] [TStr "app"; TStr "db"] ∅
    (fst (Pod.generate (Pod.config ["app"; "db"]) ∅))
    eq_refl eq_refl E eq_refl eq_refl pod_names_distinct) with (k := "unit") (r := "container").
  - assert (Hb : pod_services_rendered = true) by (vm_compute; reflexivity).
    unfold pod_services_rendered in Hb. change (normalize_containers (Pod.config ["app"; "db"])) with
      (Ok [[("name", TStr "app"); ("container", TTab [("image", TStr "docker.io/nginx")])];
           [("name", TStr "db"); ("container", TTab [("image", TStr "docker.io/nginx")])]]) in Hb.
    apply Forall_forall. intros c Hc. rewrite forallb_forall in Hb. apply list_elem_of_In, Hb in Hc.
    unfold Sample.service in Hc. destruct (generate_system_service _ _ _ _ _ _ _ _ _ _ _ _ _ _ _) as [[u|]|]; [by exists u|done|done].
  - change (Pod.generate (Pod.config ["app"; "db"]) ∅ = (fst (Pod.generate (Pod.config ["app"; "db"]) ∅), Ok true)).
    rewrite <- pod_generated. apply surjective_pairing.
  - apply in_dests. rewrite Hi. right. by left.
Defined.

Definition container_pod : table := [("name", TStr "pod"); ("container", TTab [("image", TStr "docker.io/nginx")])].

(** Units of different workloads can have one name.  The pod web with a container foo is
    accepted, and the container's unit is the main unit of the workload web-foo. *)
Theorem container_takes_anothers_main_unit :
  let foo : table := [("workload", TTab [("name", TStr "web-foo")]); ("container", TTab [("image", TStr "docker.io/nginx")])] in
  validate_container_config same_pattern same_match (Pod.config ["app"; "foo"]) = Ok [] /\
  validate_container_config same_pattern same_match foo = Ok [] /\
  (fun paths => dests paths "unit" "container") <$> Pod.inventory (Pod.config ["app"; "foo"]) =
    Ok [path_of "/out/workload-web-app.service"; path_of "/out/workload-web-foo.service"] /\
  (fun paths => dests paths "unit" "main") <$> emitted_run_paths "/run/workload-env" "/out" "/out" (mkView foo "web-foo" (Some 10002) false (Some MSingle)) =
    Ok [path_of "/out/workload-web-foo.service"] /\
  fst (Pod.generate (Pod.config ["app"; "foo"]) {["/out/workload-web-foo.service" := Text "x"]}) !! "/out/workload-web-foo.service" <> Some (Text "x").
Proof. split_and!; try (vm_compute; reflexivity). by vm_compute. Qed.

(** A container whose name is one of the generator's own suffixes takes its
    unit.  The pod with a container named "pod" is accepted and generated, its inventory lists
    one path twice, and the file under it is the container's service: the unit
    that creates the pod, which the container waits for, does not exist. *)
Theorem container_named_pod_loses_the_pod :
  validate_container_config same_pattern same_match (Pod.config ["app"; "pod"]) = Ok [] /\
  normalize_entry (Pod.entry "pod") = Ok container_pod /\
  (fun paths => (dests paths "unit" "pod", dests paths "unit" "container")) <$> Pod.inventory (Pod.config ["app"; "pod"]) =
    Ok ([path_of "/out/workload-web-pod.service"],
        [path_of "/out/workload-web-app.service"; path_of "/out/workload-web-pod.service"]) /\
  snd (Pod.generate (Pod.config ["app"; "pod"]) ∅) = Ok true /\
  fst (Pod.generate (Pod.config ["app"; "pod"]) ∅) !! "/out/workload-web-pod.service" =
    match Sample.service (Pod.config ["app"; "pod"]) container_pod MPod with
    | Ok (Some u) => Some (Text (render u))
    | _ => None
    end.
Proof. split_and!; vm_compute; reflexivity. Qed.
