(* ===== verification/GenVm.v ===== *)
(** * The units of a VM workload: [lib/gen_vm.py]

    The virtiofsd sidecars, the network device, the clock keeper, the build
    service, the service that runs qemu, and [generate_vm_workload], with what of
    [lib/vm_defs.py] they use.

    Parameters: those of the shared files; the MD5 digest, which of the firmware
    files exist, and the resolution of paths. *)
From S2P Require Import Prelude PyStr PyPath Toml WorkloadAddr WorkloadNames WorkloadConfig NetworkConfig BrokerConfig.
From S2P Require Import VmValidate RunArgs UnitFile UnitGen GenCommon GenEgress GenContainer GenReadback GenConfined GenFiles.
Local Open Scope Z_scope.

(** ** [lib/vm_defs.py] *)

Definition VM_GUEST_UID : Z := 1000.
Definition VM_GUEST_AGENT_PORT : string := "org.qemu.guest_agent.0".
Definition VM_REBOOT_EXIT_CODE : Z := 133.
Definition MGMT_SSH_PORT : Z := 2222.
Definition CLOCK_KEEPER_PERIOD_SECONDS : Z := 60.
Definition VM_CLOCK_KEEPER_BIN : string := "/usr/libexec/workloadctl/workload-vm-clock".

Definition vm_guest_agent_socket (name : string) : string := path_under SOCKET_DIR [name; "ga.sock"].

Definition OVMF_CODE_CANDIDATES : list string :=
  ["/usr/share/edk2/ovmf/OVMF_CODE.fd"; "/usr/share/OVMF/OVMF_CODE.fd";
   "/usr/share/edk2-ovmf/x64/OVMF_CODE.fd"; "/usr/share/ovmf/OVMF.fd"].

Definition find_ovmf_code (exists_ : string -> bool) : option string := find exists_ OVMF_CODE_CANDIDATES.

(** [f"{b:02x}"] of a byte. *)
Definition hex2 (b : Z) : string := String (hexd (b / 16)) (chr (hexd (b mod 16))).

(** Locally administered, unicast; the digest has sixteen bytes. *)
Definition mac_bytes (h : list Z) : list Z :=
  match h with
  | b0 :: rest => Z.lor (Z.land b0 254) 2 :: take 5 rest
  | [] => []
  end.

Definition mac_address (md5 : string -> list Z) (name : string) : string :=
  join ":" (map hex2 (mac_bytes (md5 ("wl-vm-" +:+ name)))).

(** ** virtiofsd *)

(** One [--translate-*] rule: the guest's ids from [from], [count] of them. *)
Record id_rule := mkRule { ir_squash : bool; ir_from : Z; ir_host : Z; ir_count : Z }.

Definition id_rules (uid : Z) : list id_rule :=
  [mkRule false VM_GUEST_UID uid 1; mkRule true 0 uid VM_GUEST_UID;
   mkRule true (VM_GUEST_UID + 1) uid (Z.shiftl 1 32 - 1 - (VM_GUEST_UID + 1))].

Definition id_rule_arg (kind : string) (r : id_rule) : string :=
  "--translate-" +:+ kind +:+ "=" +:+ (if ir_squash r then "squash-guest" else "map") +:+ ":" +:+ str_Z (ir_from r) +:+ ":" +:+
  str_Z (ir_host r) +:+ ":" +:+ str_Z (ir_count r).

Definition idmap (uid : Z) : string := join " " (concat (map (fun kind => map (id_rule_arg kind) (id_rules uid)) ["uid"; "gid"])).

Section vm.
Variable version : string.
Variable services_dir : string.
Variable resolve_path : string -> option string.

Definition under (dirs : list string) (p : string) : bool :=
  existsb (fun d => String.eqb p d || starts_with (d +:+ "/") p) dirs.

Definition virtiofsd_cmd (socket_path host_path : string) (uid : Z) (announce_submounts : bool) : string :=
  "/usr/libexec/virtiofsd --socket-path=" +:+ socket_path +:+ " --shared-dir=" +:+ dq host_path +:+ " " +:+ idmap uid +:+
  " --cache=auto --sandbox=none --inode-file-handles=never" +:+
  (if announce_submounts then " --announce-submounts" else " --no-announce-submounts").

Definition generate_virtiofs_service (name tag host_path user_name : string) (uid : Z) (after_mounts : list string)
    (announce_submounts : bool) : unit_file :=
  let runtime_dir := "/run/workload-vm/" +:+ name in
  let socket_path := runtime_dir +:+ "/virtiofs-" +:+ tag +:+ ".sock" in
  let protect_home := negb (under ["/home"; "/root"; "/run/user"] host_path) in
  let setup := unit_of name "-setup.service" in
  build ["virtiofsd sidecar for " +:+ name +:+ "/" +:+ tag; GENERATED_BY version]
    [("Unit",
      [CSet "Description" ("virtiofsd for " +:+ name +:+ "/" +:+ tag);
       CSet "Requires" (setup +:+ " " +:+ unit_of name ".service"); CSet "After" setup;
       CSet "Before" (unit_of name ".service"); CSet "PartOf" (unit_of name ".service")] ++
      match external_host_path resolve_path host_path name with Some p => [CAdd "RequiresMountsFor" (uq p)] | None => [] end ++
      map (fun p => CAdd "After" (systemd_escape_path p +:+ ".mount")) after_mounts);
     ("Service",
      [CSet "Type" "exec"; CSet "User" user_name; CSet "Group" user_name; CSet "CapabilityBoundingSet" "";
       CSet "AmbientCapabilities" ""; CSet "ProtectSystem" "strict"] ++
      (if protect_home then [CSet "ProtectHome" "yes"] else []) ++
      [CSet "ProtectProc" "invisible"; CSet "PrivateTmp" "yes"; CSet "ReadWritePaths" (uq host_path +:+ " " +:+ uq runtime_dir);
       CSet "LimitNOFILE" "1000000"; CSet "Environment" (home_env name);
       CAdd "ExecStartPre" ("/bin/rm -f " +:+ dq socket_path +:+ " " +:+ dq (socket_path +:+ ".pid"));
       CSet "ExecStart" (virtiofsd_cmd socket_path host_path uid announce_submounts);
       CSet "ExecStartPost" ("/bin/sh -c 'until test -S " +:+ socket_path +:+ "; do sleep 0.1; done'");
       CSet "StandardOutput" "journal"; CSet "StandardError" "journal"])].

(** ** The network device *)

(** The forwards of the configuration: tcp and udp. *)
Fixpoint port_forwards (specs : list tv) : res (list string * list string) :=
  match specs with
  | [] => Ok ([], [])
  | v :: specs =>
      s ← as_text v;
      '(bind_addr, host_port, guest_port, proto) ← parse_vm_port s;
      '(tcp, udp) ← port_forwards specs;
      let forward := (match bind_addr with Some a => if String.eqb a "" then "" else a +:+ "/" | None => "" end) +:+
                     str_Z host_port +:+ ":" +:+ str_Z guest_port in
      Ok (if String.eqb proto "udp" then (tcp, forward :: udp) else (forward :: tcp, udp))
  end.

Definition build_passt_netdev (uid : Z) (net_cfg : tv) (mac : string) : res string :=
  mgmt ← management_address uid;
  ports ← get_or net_cfg "ports" (TArr []);
  l ← iter ports;
  '(tcp, udp) ← port_forwards l;
  outbound ← get net_cfg "outbound_if";
  let flags opt l := concat (map (fun spec => ["param=" +:+ opt; "param=" +:+ spec]) l) in
  Ok ("-netdev " +:+ join ","
        (["passt,id=net0,mac=" +:+ mac] ++ flags "-t" ((mgmt +:+ "/" +:+ str_Z MGMT_SSH_PORT +:+ ":22") :: tcp) ++
         flags "-u" udp ++ ["map-host-loopback=none"; "search=none"] ++
         match outbound with
         | Some v => if truthy v then ["outbound-if4=" +:+ py_str v; "outbound-if6=" +:+ py_str v] else []
         | None => []
         end ++ ["${WL_PASST_DNS}"])).

(** ** The clock keeper and the build *)

Definition generate_vm_clock_timer (config : table) : res unit_file :=
  name ← config_name config;
  let period := str_Z CLOCK_KEEPER_PERIOD_SECONDS +:+ "s" in
  Ok (build ["clock keeper timer for " +:+ name; GENERATED_BY version]
        [("Unit", [CSet "Description" ("Clock keeper timer for " +:+ name); CSet "PartOf" (unit_of name ".service");
                   CSet "After" (unit_of name ".service")]);
         ("Timer", [CSet "OnActiveSec" period; CSet "OnUnitActiveSec" period; CSet "AccuracySec" "5s"])]).

Definition generate_vm_clock_service (config : table) (user_name : string) : res unit_file :=
  name ← config_name config;
  Ok (build ["clock keeper service for " +:+ name; GENERATED_BY version]
        [("Unit", [CSet "Description" ("Clock keeper for " +:+ name); CSet "PartOf" (unit_of name ".service");
                   CSet "After" (unit_of name ".service"); CSet "ConditionPathExists" (vm_guest_agent_socket name)]);
         ("Service",
          [CSet "Type" "oneshot"; CSet "User" user_name; CSet "Group" user_name; CSet "Slice" SIDECAR_SLICE;
           CAdd "ExecStart" (VM_CLOCK_KEEPER_BIN +:+ " " +:+ dq name); CBlank] ++
          harden_sidecar name "AF_UNIX" 8 "64M" [] ++
          [CBlank; CAdd "StandardOutput" "journal"; CAdd "StandardError" "journal"])]).

Definition generate_vm_build_service (config : table) : res unit_file :=
  name ← config_name config;
  let system_disk := path_str (workload_state_dir name) +:+ "/system.qcow2" in
  let setup := unit_of name "-setup.service" in
  Ok (build ["Build service for " +:+ name +:+ " VM workload"; GENERATED_BY version]
        [("Unit", [CSet "Description" ("Build system disk for " +:+ name +:+ " VM"); CSet "Requires" setup; CSet "After" setup;
                   CSet "ConditionPathExists" ("!" +:+ system_disk)]);
         ("Service", [CSet "Type" "oneshot"; CSet "RemainAfterExit" "yes"; CSet "TimeoutStartSec" "3600";
                      CSet "ExecStart" ("/usr/libexec/workloadctl/workload-vm-build-disk " +:+ name);
                      CSet "StandardOutput" "journal"; CSet "StandardError" "journal"])]).
End vm.

(** ** The VM's service *)

Definition BSLASH_LF : string := String BACKSLASH (chr LF).

(** [" \\\n        ".join(args)]. *)
Definition continued (args : list string) : string := join (" " +:+ BSLASH_LF +:+ "        ") args.

(** What the service reads of the configuration. *)
Record vm_settings := mkVm {
  vs_name : string;
  vs_memory : Z;
  vs_vcpus : tv;
  vs_slice : string;
  vs_tags : list string;
  vs_net : tv;
  vs_bridge : option tv;
  vs_data_disk : bool;
  vs_balloon : bool;
  vs_restart : option tv;
  vs_resources : tv;
  vs_inspect : bool;
  vs_resolve : bool;
  vs_creds : bool }.

Definition truthy_opt (o : option tv) : bool := match o with Some v => truthy v | None => false end.

(** [if bridge_name]. *)
Definition bridged (s : vm_settings) : bool := truthy_opt (vs_bridge s).

Definition vm_settings_of (config : table) (vfs_tags : option (list string)) : res vm_settings :=
  name ← config_name config;
  vm_cfg ← get_or (TTab config) "vm" (TTab []);
  memory ← get_or vm_cfg "memory" (TInt 2048);
  memory_mib ← parse_memory_mib memory;
  vcpus ← get_or vm_cfg "vcpus" (TInt 2);
  slice_name ← slice_of config;
  volumes ← get_or vm_cfg "volumes" (TArr []);
  tags ← match vfs_tags with Some t => Ok t | None => volume_tags volumes end;
  net_cfg ← get_or vm_cfg "network" (TTab []);
  bridge ← get net_cfg "bridge";
  inspect ← vm_uses_inspect config;
  resolve ← vm_uses_resolve config;
  creds ← vm_uses_credentials config;
  disk ← get vm_cfg "data_disk_size";
  balloon ← get_or vm_cfg "balloon" (TBool true);
  restart ← get vm_cfg "restart";
  resources ← get_or (TTab config) "resources" (TTab []);
  Ok (mkVm name memory_mib vcpus slice_name tags net_cfg bridge (truthy_opt disk) (truthy balloon) restart resources
        inspect resolve creds).

Definition prereqs (s : vm_settings) : list string :=
  let u := unit_of (vs_name s) in
  [u "-setup.service"; u "-build.service"] ++ map (fun tag => u ("-virtiofs-" +:+ tag +:+ ".service")) (vs_tags s) ++
  (if vs_inspect s then [u "-inspect.socket"] else []) ++ (if vs_resolve s then [u "-resolve.socket"] else []) ++
  (if vs_creds s then [u "-broker.service"] else []).

Definition qemu_args (s : vm_settings) (ovmf_code mac netdev : string) : list string :=
  let home := path_str (workload_state_dir (vs_name s)) in
  let data := path_str (workload_data_dir (vs_name s)) in
  let sock := "/run/workload-vm/" +:+ vs_name s in
  let mem := str_Z (vs_memory s) in
  ["/usr/bin/qemu-system-x86_64"; "-machine q35,accel=kvm"; "-cpu host"] ++
  (if nonempty (vs_tags s)
   then ["-object memory-backend-memfd,id=spare,size=1M";
         "-object memory-backend-memfd,id=mem,size=" +:+ mem +:+ "M,share=on"; "-m " +:+ mem; "-numa node,memdev=mem"]
   else ["-m " +:+ mem]) ++
  ["-smp " +:+ py_str (vs_vcpus s);
   "-drive if=pflash,format=raw,readonly=on,file=" +:+ ovmf_code;
   "-drive if=pflash,format=raw,file=" +:+ home +:+ "/nvram.fd";
   "-drive file=" +:+ home +:+ "/system.qcow2,if=virtio,format=qcow2,id=system"] ++
  (if vs_data_disk s then ["-drive file=" +:+ data +:+ "/data.qcow2,if=virtio,format=qcow2,id=data"] else []) ++
  ["-drive file=" +:+ sock +:+ "/cloud-init.iso,if=virtio,format=raw,readonly=on,media=cdrom,id=cloudinit";
   netdev; "-device virtio-net-pci,netdev=net0,mac=" +:+ mac] ++
  concat (map (fun tag => ["-chardev socket,id=chr-vfs-" +:+ tag +:+ ",path=" +:+ sock +:+ "/virtiofs-" +:+ tag +:+ ".sock";
                           "-device vhost-user-fs-pci,chardev=chr-vfs-" +:+ tag +:+ ",tag=" +:+ tag]) (vs_tags s)) ++
  (if vs_balloon s then ["-device virtio-balloon-pci,free-page-reporting=on"] else []) ++
  ["-device virtio-serial-pci"; "-chardev socket,id=chr-qga,path=" +:+ sock +:+ "/ga.sock,server=on,wait=off";
   "-device virtserialport,chardev=chr-qga,name=" +:+ VM_GUEST_AGENT_PORT;
   "-serial unix:" +:+ sock +:+ "/console.sock,server=on,wait=off"; "-qmp unix:" +:+ sock +:+ "/qmp.sock,server=on,wait=off";
   "-qmp unix:" +:+ sock +:+ "/qmp-metrics.sock,server=on,wait=off"] ++
  (if is_the_str (vs_restart s) "on-reboot" then ["-qmp unix:" +:+ sock +:+ "/qmp-notify.sock,server=on,wait=off"] else []) ++
  ["-nographic"; "-no-reboot"; "-name " +:+ vs_name s].

(** A helper's call, run as root. *)
Definition helper (prog verb name : string) : string := "/usr/libexec/workloadctl/" +:+ prog +:+ verb +:+ " " +:+ dq name.

Section vm_service.
Variable version : string.
Variable services_dir sysusers_dir env_dir : string.
Variable md5 : string -> list Z.
Variable file_exists : string -> bool.
Variable resolve_path : string -> option string.
Variable planes : list (Z * Z).
Variable leaf_dir denial_dir : string -> string.
Variable resolv_conf : option string.
Variable getaddrinfo : string -> res (list string).
Variable writable : pypath -> bool.

Definition vm_unit_calls (s : vm_settings) : list call :=
  let pre := join " " (prereqs s) in
  [CSet "Description" (vs_name s +:+ " VM workload"); CSet "Requires" pre] ++
  (if bridged s then [CSet "After" pre]
   else [CSet "Wants" "network-online.target"; CSet "After" (pre +:+ " network-online.target")]) ++
  [CAdd "Wants" (unit_of (vs_name s) "-clock.timer"); CSet "StartLimitIntervalSec" "300"; CSet "StartLimitBurst" "3"].

Definition vm_identity (s : vm_settings) (user_name : string) : list call :=
  [CSet "Type" "notify"; CSet "NotifyAccess" "all"; CSet "Slice" (vs_slice s); CSet "User" user_name; CSet "Group" user_name;
   CAdd "Environment" (home_env (vs_name s)); CAdd "EnvironmentFile" ("-/run/workload-env/workload-" +:+ vs_name s +:+ ".env")] ++
  (if bridged s then [] else [CAdd "EnvironmentFile" ("-/run/workload-env/workload-" +:+ vs_name s +:+ ".passt")]) ++
  [CSet "RuntimeDirectory" ("workload-vm/" +:+ vs_name s); CSet "RuntimeDirectoryMode" "0750"; CSet "RuntimeDirectoryPreserve" "yes"].

(** The network of a VM that is not on a bridge: its device, its filter and its
    addresses, each of which fails the start. *)
Definition vm_egress_exec (s : vm_settings) : list call :=
  if bridged s then []
  else [CAdd "ExecStartPre" ("+" +:+ helper "workload-vm-netdev" "" (vs_name s));
        CAdd "ExecStartPre" ("+" +:+ helper "workload-vm-filter" " up" (vs_name s));
        CAdd "ExecStopPost" ("-+" +:+ helper "workload-vm-filter" " down" (vs_name s));
        CAdd "ExecStartPre" ("+" +:+ helper "workload-vm-svcaddr" " up" (vs_name s));
        CAdd "ExecStopPost" ("-+" +:+ helper "workload-vm-svcaddr" " down" (vs_name s))].

Definition vm_restart (s : vm_settings) : string :=
  let mode := match vs_restart s with Some v => v | None => TStr "always" end in
  if is_the_str (Some mode) "on-failure" || is_the_str (Some mode) "on-reboot" then "on-failure" else "always".

(** The service's section up to its network, and from the start of qemu on. *)
Definition vm_head (s : vm_settings) (user_name : string) (directives : list (string * string)) (overrides : list call)
    : list call :=
  vm_identity s user_name ++
  (if nonempty directives then CBlank :: map (fun '(d, v) => CAdd d v) directives else []) ++
  [CBlank] ++ overrides ++
  (if is_the_str (vs_restart s) "on-reboot"
   then [CAdd "Environment" ("WORKLOADCTL_VM_REBOOT_EXIT=" +:+ str_Z VM_REBOOT_EXIT_CODE)] else []).

Definition vm_tail (s : vm_settings) (qemu_cmd : string) (starts stops : bool) : list call :=
  [CAdd "ExecStart" (helper "workload-vm-notify" "" (vs_name s) +:+ " " +:+ BSLASH_LF +:+ "    " +:+ qemu_cmd); CBlank;
   CAdd "ExecStop" (helper "workload-vm-shutdown" "" (vs_name s)); CBlank;
   CAdd "StandardOutput" "journal"; CAdd "StandardError" "journal"; CBlank;
   CAdd "Restart" (vm_restart s); CAdd "RestartSec" "10s"] ++
  (if starts then [] else [CAdd "TimeoutStartSec" "300"]) ++
  (if stops then [] else [CAdd "TimeoutStopSec" "90"]).

Definition vm_service_calls (s : vm_settings) (user_name qemu_cmd : string) : res (list call) :=
  directives ← cgroup_directives (vs_resources s);
  overrides ← resource_overrides (vs_resources s);
  starts ← contains_key "timeout_start_sec" (vs_resources s);
  stops ← contains_key "timeout_stop_sec" (vs_resources s);
  Ok (vm_head s user_name directives overrides ++ vm_egress_exec s ++ vm_tail s qemu_cmd starts stops).

Definition generate_vm_service (config : table) (user_name : string) (uid : Z) (vfs_tags : option (list string)) : res unit_file :=
  s ← vm_settings_of config vfs_tags;
  let ovmf := match find_ovmf_code file_exists with Some p => p | None => "/usr/share/edk2/ovmf/OVMF_CODE.fd" end in
  let mac := mac_address md5 (vs_name s) in
  netdev ← (if bridged s
            then Ok ("-netdev bridge,id=net0,br=" +:+ match vs_bridge s with Some b => py_str b | None => "" end)
            else build_passt_netdev uid (vs_net s) mac);
  calls ← vm_service_calls s user_name (continued (qemu_args s ovmf mac netdev));
  Ok (build ["VM workload service for " +:+ vs_name s; GENERATED_BY version]
        [("Unit", vm_unit_calls s); ("Service", calls); ("Install", [CSet "WantedBy" "multi-user.target"])]).

(** ** [generate_vm_workload] *)

Definition write_vm_sidecars (config : table) (user_name : string) (uid : Z) (paths : list (string * string * pypath))
    : io files unit :=
  inspects ← pure (vm_uses_inspect config);
  _ ← (if inspects : bool then
         _ ← write_first writable (dests paths "unit" "inspect-socket")
               (generate_inspect_socket version planes config uid "workload-vm-inspect");
         write_first writable (dests paths "unit" "inspect")
           (generate_inspect_service version leaf_dir denial_dir config user_name uid)
       else mret tt);
  creds ← pure (vm_uses_credentials config);
  _ ← (if creds : bool then
         write_first writable (dests paths "unit" "broker")
           (name ← config_name config;
            hosts ← vm_broker_hosts config;
            upstream ← vm_broker_upstream_addresses getaddrinfo config;
            command ← vm_broker_command config uid;
            generate_broker_service version resolv_conf config (unit_of name ".service") hosts upstream command)
       else mret tt);
  resolves ← pure (vm_uses_resolve config);
  if resolves : bool then
    _ ← write_first writable (dests paths "unit" "resolve-socket") (generate_resolve_socket version config uid);
    write_first writable (dests paths "unit" "resolve") (generate_resolve_service version config user_name uid)
  else mret tt.

(** [expand_volume_path(p, home).split(":", 2)[0]]. *)
Definition host_part (home : string) (spec : string) : res string :=
  e ← expand_volume_path spec home; Ok (hd "" (split_max ":" 2 e)).

Definition write_virtiofs (name user_name : string) (uid : Z) (home : string) (after_mounts : list string) (announce : bool)
    (x : string * tv * pypath) : io files unit :=
  let '(tag, vol_spec, p) := x in
  spec ← pure (as_text vol_spec);
  let '(host_raw, _, _) := parse_volume_spec spec in
  host_path ← pure (host_part home host_raw);
  write_unit writable p (generate_virtiofs_service version resolve_path name tag host_path user_name uid after_mounts announce).

Definition generate_vm_workload (config : table) (user_name : string) (uid : Z) : io files string :=
  name ← pure (config_name config);
  let home := path_str (workload_state_dir name) in
  vm_cfg ← pure (get_or (TTab config) "vm" (TTab []));
  volumes ← pure (get_or vm_cfg "volumes" (TArr []));
  paths ← pure (emitted_run_paths env_dir services_dir sysusers_dir (mkView config name (Some uid) true None));
  sysuser ← pure (generate_sysuser_config_vm config user_name uid);
  p ← pure (dest paths "sysusers" "sysusers");
  _ ← write_text writable p sysuser;
  setup ← pure (generate_setup_service version services_dir config);
  p ← pure (dest paths "unit" "setup");
  _ ← write_unit writable p setup;
  _ ← write_vm_sidecars config user_name uid paths;
  p ← pure (dest paths "unit" "clock-timer");
  timer ← pure (generate_vm_clock_timer version config);
  _ ← write_unit writable p timer;
  p ← pure (dest paths "unit" "clock");
  clock ← pure (generate_vm_clock_service version config user_name);
  _ ← write_unit writable p clock;
  tags ← pure (volume_tags volumes);
  mounts ← pure (get_or vm_cfg "after_mounts" (TArr []));
  mounts ← pure (iter mounts);
  after_mounts ← pure (mapM_res (fun m => s ← as_text m; host_part home s) mounts);
  announce ← pure (get_or vm_cfg "announce_submounts" (TBool true));
  vols ← pure (iter volumes);
  _ ← for_io (write_virtiofs name user_name uid home after_mounts (truthy announce)) (zip (zip tags vols) (dests paths "unit" "virtiofs"));
  build_unit ← pure (generate_vm_build_service version config);
  p ← pure (dest paths "unit" "build");
  _ ← write_unit writable p build_unit;
  main ← pure (generate_vm_service config user_name uid (Some tags));
  p ← pure (dest paths "unit" "main");
  _ ← write_unit writable p main;
  p ← pure (dest paths "wants-symlink" "main");
  _ ← relink writable p ("../workload-" +:+ name +:+ ".service");
  mret name.
End vm_service.

(** ** Identities *)

(** Whether a rule speaks of a guest's id, and the host's id it gives it. *)
Definition covers (g : Z) (r : id_rule) : bool := (ir_from r <=? g) && (g <? ir_from r + ir_count r).
Definition translate (r : id_rule) (g : Z) : Z := if ir_squash r then ir_host r else ir_host r + (g - ir_from r).

(** Whatever id the guest uses, the files of a shared volume belong to
    the workload's user: of the ids below 2^32 - 1 (the last is no id) each is
    covered by exactly one of the rules virtiofsd is given, and becomes the workload's
    uid.  No guest id, root's included, reaches another id of the host. *)
Theorem guest_ids_become_the_workload uid g :
  0 <= g < 2 ^ 32 - 1 ->
  exists r, List.filter (covers g) (id_rules uid) = [r] /\ translate r g = uid.
Proof.
  intros Hg. unfold id_rules, VM_GUEST_UID. change (Z.shiftl 1 32) with (2 ^ 32). cbn [List.filter].
  unfold covers. cbn [ir_from ir_count].
  assert (Hc : g = 1000 \/ g < 1000 \/ 1000 < g) by lia.
  destruct ((1000 <=? g) && (g <? 1000 + 1)) eqn:E1, ((0 <=? g) && (g <? 0 + 1000)) eqn:E2,
    ((1000 + 1 <=? g) && (g <? 1000 + 1 + (2 ^ 32 - 1 - (1000 + 1)))) eqn:E3; try lia;
    eexists; (split; [reflexivity|]); unfold translate; cbn [ir_squash ir_host ir_from]; lia.
Qed.

Lemma guest_ids_become_the_workload_witness :
  exists r, List.filter (covers 0) (id_rules 10001) = [r] /\ translate r 0 = 10001.
Proof. apply (guest_ids_become_the_workload 10001 0). lia. Defined.

(** The address of a VM's network card is one a host may choose: of six
    bytes, locally administered and not a group address, whatever the digest. *)
Theorem mac_is_local_unicast h :
  Forall (fun b => 0 <= b < 256) h -> (6 <= length h)%nat ->
  exists b0 rest, mac_bytes h = b0 :: rest /\ length (mac_bytes h) = 6%nat /\ Forall (fun b => 0 <= b < 256) (mac_bytes h) /\
    Z.testbit b0 0 = false /\ Z.testbit b0 1 = true.
Proof.
  intros Hb Hl. destruct h as [|b h]; [cbn in Hl; lia|]. apply Forall_cons in Hb as [Hb Hh]. cbn [length] in Hl.
  exists (Z.lor (Z.land b 254) 2), (take 5 h). cbn [mac_bytes]. split; [done|]. split; [cbn [length]; rewrite length_take; lia|].
  split; [|rewrite !Z.lor_spec, !Z.land_spec; change (Z.testbit 254 0) with false; change (Z.testbit 2 0) with false;
            change (Z.testbit 2 1) with true; by rewrite andb_false_r, orb_true_r].
  constructor; [|by apply Forall_take]. split; [apply Z.lor_nonneg; split; [apply Z.land_nonneg; lia|lia]|].
  change 256 with (2 ^ 8). destruct (Z.eq_dec (Z.lor (Z.land b 254) 2) 0) as [->|Hz]; [lia|].
  assert (0 <= Z.lor (Z.land b 254) 2) by (apply Z.lor_nonneg; split; [apply Z.land_nonneg; lia|lia]).
  apply Z.log2_lt_pow2; [lia|]. rewrite Z.log2_lor by (try apply Z.land_nonneg; lia).
  apply Z.max_lub_lt; [|done].
  eapply Z.le_lt_trans; [apply Z.log2_land; lia|]. apply Z.min_lt_iff. right. done.
Qed.

Lemma mac_is_local_unicast_witness :
  exists b0 rest, mac_bytes [255; 1; 2; 3; 4; 5; 6] = b0 :: rest /\ length (mac_bytes [255; 1; 2; 3; 4; 5; 6]) = 6%nat /\
    Forall (fun b => 0 <= b < 256) (mac_bytes [255; 1; 2; 3; 4; 5; 6]) /\ Z.testbit b0 0 = false /\ Z.testbit b0 1 = true.
Proof. apply mac_is_local_unicast; [repeat constructor; lia|cbn; lia]. Defined.

(** ** The service's filter *)

(** The three commands that make the network of a VM that is not on a bridge. *)
Definition vm_network_up (name : string) : list string :=
  ["+" +:+ helper "workload-vm-netdev" "" name; "+" +:+ helper "workload-vm-filter" " up" name;
   "+" +:+ helper "workload-vm-svcaddr" " up" name].

Lemma commands_plain acc l : forallb (fun v => negb (String.eqb v "")) l = true -> commands acc l = acc ++ l.
Proof.
  revert acc. induction l as [|v l IH]; intros acc H; [by rewrite app_nil_r|]. cbn [forallb] in H. apply andb_prop in H as [Hv H].
  cbn [commands]. destruct (String.eqb v ""); [done|]. by rewrite IH, <- app_assoc.
Qed.

Lemma vm_service_lines s comments calls :
  let u := build comments [("Unit", vm_unit_calls s); ("Service", calls); ("Install", [CSet "WantedBy" "multi-user.target"])] in
  section_lines u "Unit" = run_calls [] (vm_unit_calls s) /\ section_lines u "Service" = run_calls [] calls.
Proof.
  cbv zeta. unfold section_lines. rewrite build_sections. cbn [foldl on_section].
  repeat (rewrite decide_False by done). cbn [assoc].
  repeat first [rewrite decide_True by done | rewrite decide_False by done]. done.
Qed.

Lemma cgroup_calls_sets key (ds : list (string * string)) : sets key (map (fun '(d, v) => CAdd d v) ds) = false.
Proof. apply appends_sets. induction ds as [|[d v] ds IH]; [done|]. done. Qed.

Lemma vm_head_sets s user ds ov : appends ov = true -> sets "ExecStartPre" (vm_head s user ds ov) = false.
Proof.
  intros Hov. unfold vm_head, vm_identity. rewrite !sets_app, (appends_sets ov) by done.
  assert (sets "ExecStartPre" (if nonempty ds then CBlank :: map (fun '(d, v) => CAdd d v) ds else []) = false) as ->.
  { destruct (nonempty ds); [|done]. apply (cgroup_calls_sets _ ds). }
  destruct (bridged s), (is_the_str (vs_restart s) "on-reboot"); reflexivity.
Qed.

Lemma vm_tail_pre s qemu a b : sets "ExecStartPre" (vm_tail s qemu a b) = false /\ added "ExecStartPre" (vm_tail s qemu a b) = [].
Proof. unfold vm_tail. split; destruct a, b; reflexivity. Qed.

Lemma vm_unit_requires s : values "Requires" (run_calls [] (vm_unit_calls s)) = [join " " (prereqs s)].
Proof. unfold vm_unit_calls. by destruct (bridged s). Qed.

Lemma vm_settings_inspect config tags s :
  vm_settings_of config tags = Ok s -> vm_uses_inspect config = Ok true -> vs_inspect s = true.
Proof.
  unfold vm_settings_of. intros H Hi. rewrite Hi in H. do 10 apply bind_Ok_inv in H as (? & _ & H). cbn [mbind res_bind] in H.
  do 6 apply bind_Ok_inv in H as (? & _ & H). by apply Ok_inj in H as <-.
Qed.

(** C3.  A VM that is not on a bridge never runs unfiltered.  Whatever the
    custom directives are, the last things its service does before qemu are to make
    the network device, to arm the egress filter and to add the service addresses,
    none with the "-" that would let qemu start after a failure; and the service
    requires, with the other units it needs, the socket of the inspector when the
    configuration selects one. *)
Theorem vm_service_is_filtered version md5 file_exists config user_name uid tags s u :
  generate_vm_service version md5 file_exists config user_name uid tags = Ok u ->
  vm_settings_of config tags = Ok s -> bridged s = false ->
  (exists before, commands [] (values "ExecStartPre" (section_lines u "Service")) = before ++ vm_network_up (vs_name s)) /\
  values "Requires" (section_lines u "Unit") = [join " " (prereqs s)] /\
  (vm_uses_inspect config = Ok true -> unit_of (vs_name s) "-inspect.socket" ∈ prereqs s).
Proof.
  unfold generate_vm_service. intros H Hs Hb. rewrite Hs in H. cbn [mbind res_bind] in H.
  apply bind_Ok_inv in H as (nd & _ & H). apply bind_Ok_inv in H as (calls & Hc & <-%Ok_inj).
  destruct (vm_service_lines s ["VM workload service for " +:+ vs_name s; GENERATED_BY version] calls) as [-> ->].
  split; [|split; [apply vm_unit_requires|]].
  - unfold vm_service_calls in Hc. apply bind_Ok_inv in Hc as (ds & _ & Hc). apply bind_Ok_inv in Hc as (ov & Hov & Hc).
    do 2 apply bind_Ok_inv in Hc as (? & _ & Hc). apply Ok_inj in Hc as <-. apply overrides_append in Hov.
    exists (commands [] (added "ExecStartPre" (vm_head s user_name ds ov))).
    pose proof (vm_head_sets s user_name ds ov Hov) as S1.
    match goal with |- context [vm_tail s ?q ?a ?b] => destruct (vm_tail_pre s q a b) as [S2 A] end.
    rewrite run_calls_values by (rewrite !sets_app, S1, S2; unfold vm_egress_exec; by rewrite Hb).
    rewrite !added_app, A, app_nil_r. cbn [values omap list_omap app]. rewrite commands_app.
    unfold vm_egress_exec. rewrite Hb. by apply commands_plain.
  - intros Hi. unfold prereqs. rewrite (vm_settings_inspect _ _ _ Hs Hi).
    apply elem_of_app; right. apply elem_of_app; right. apply elem_of_app; left. by left.
Qed.

(** ** Only the inventory is written *)

Section exact.
Variable version services_dir sysusers_dir env_dir : string.
Variable md5 : string -> list Z.
Variable file_exists : string -> bool.
Variable resolve_path : string -> option string.
Variable planes : list (Z * Z).
Variable leaf_dir denial_dir : string -> string.
Variable resolv_conf : option string.
Variable getaddrinfo : string -> res (list string).
Variable writable : pypath -> bool.

Notation generate := (generate_vm_workload version services_dir sysusers_dir env_dir md5 file_exists resolve_path planes
                        leaf_dir denial_dir resolv_conf getaddrinfo writable).

Lemma write_vm_sidecars_off config user_name uid paths w0 :
  keeps (agree_off (path_strings paths) w0)
    (write_vm_sidecars version planes leaf_dir denial_dir resolv_conf getaddrinfo writable config user_name uid paths).
Proof.
  pose proof (fun k r c => write_first_off writable _ w0 paths k r c eq_refl) as Hw. unfold write_vm_sidecars. off_tac; apply Hw.
Qed.

Lemma write_virtiofs_off paths name user_name uid home mounts announce l w0 :
  keeps (agree_off (path_strings paths) w0)
    (for_io (write_virtiofs version resolve_path writable name user_name uid home mounts announce)
       (zip l (dests paths "unit" "virtiofs"))).
Proof.
  apply keeps_for. intros [[tag v] p] Hin. unfold write_virtiofs. off_tac.
  eapply dests_in, elem_of_zip_r. eassumption.
Qed.

Lemma vm_workload_off config user_name uid name paths w :
  config_name config = Ok name ->
  emitted_run_paths env_dir services_dir sysusers_dir (mkView config name (Some uid) true None) = Ok paths ->
  agree_off (path_strings paths) w (fst (generate config user_name uid w)).
Proof.
  intros Hn Hp. revert w. enough (forall w0, keeps (agree_off (path_strings paths) w0) (generate config user_name uid)) as H
    by (intros w; by apply (H w w)).
  intros w0. unfold generate_vm_workload. rewrite Hn. apply keeps_pure_bind. intros ? <-%Ok_inj. cbv zeta.
  do 2 (apply keeps_pure_bind; intros ? _). rewrite Hp. apply keeps_pure_bind. intros ? <-%Ok_inj.
  off_tac; first [apply write_vm_sidecars_off | apply write_virtiofs_off].
Qed.

(** The generator of a VM's units writes nothing outside the inventory:
    however it ends, every path that is not one of the workload's emitted files is
    as it was. *)
Theorem vm_writes_only_inventory config user_name uid name paths w :
  config_name config = Ok name ->
  emitted_run_paths env_dir services_dir sysusers_dir (mkView config name (Some uid) true None) = Ok paths ->
  agree_off (path_strings paths) w (fst (generate config user_name uid w)).
Proof. apply vm_workload_off. Qed.
End exact.

(** ** A concrete VM *)

Module Vm.
Definition config : table :=
  [("workload", TTab [("name", TStr "box")]);
   ("vm", TTab [("memory", TStr "2G"); ("volumes", TArr [TStr "data:/srv"]);
                ("network", TTab [("ports", TArr [TStr "8080:80"]);
                                  ("policy", TArr [TTab [("host", TStr "example.org"); ("reason", TStr "updates")]])])]);
   ("resources", TTab [("custom_directives", TTab [("ExecStartPre", TStr "")])])].

Definition digest (_ : string) : list Z := [255; 1; 2; 3; 4; 5; 6].
Definition everywhere (_ : pypath) : bool := true.
Definition exists_ (_ : string) : bool := true.
Definition same (p : string) : option string := Some p.
Definition dir (_ : string) : string := "/run/x".
Definition addrs (_ : string) : res (list string) := Ok [].
End Vm.

Lemma vm_service_is_filtered_witness :
  exists u, generate_vm_service "1.0" Vm.digest Vm.exists_ Vm.config "_wl-box" 10001 None = Ok u /\
    exists before, commands [] (values "ExecStartPre" (section_lines u "Service")) = before ++ vm_network_up "box".
Proof.
  destruct (generate_vm_service "1.0" Vm.digest Vm.exists_ Vm.config "_wl-box" 10001 None) as [u|e] eqn:E;
    [|vm_compute in E; discriminate E].
  destruct (vm_settings_of Vm.config None) as [s|e] eqn:Es; [|vm_compute in Es; discriminate Es].
  exists u. split; [done|].
  destruct (vm_service_is_filtered "1.0" Vm.digest Vm.exists_ Vm.config "_wl-box" 10001 None s u E Es) as [H _];
    [vm_compute in Es; apply Ok_inj in Es as <-; reflexivity|].
  vm_compute in Es. apply Ok_inj in Es as <-. exact H.
Defined.

Lemma vm_writes_only_inventory_witness :
  fst (generate_vm_workload "1.0" "/run/systemd/system" "/run/systemd/system" "/run/workload-env" Vm.digest Vm.exists_ Vm.same
         [(80, 8080)] Vm.dir Vm.dir None Vm.addrs Vm.everywhere Vm.config "_wl-box" 10001 {["/etc/passwd" := Text "root"]})
    !! "/etc/passwd" = Some (Text "root").
Proof.
  transitivity (({["/etc/passwd" := Text "root"]} : files) !! "/etc/passwd"); [|reflexivity].
  destruct (emitted_run_paths "/run/workload-env" "/run/systemd/system" "/run/systemd/system"
              (mkView Vm.config "box" (Some 10001) true None)) as [paths|e] eqn:E; [|vm_compute in E; discriminate E].
  apply (vm_writes_only_inventory "1.0" "/run/systemd/system" "/run/systemd/system" "/run/workload-env" Vm.digest Vm.exists_
           Vm.same [(80, 8080)] Vm.dir Vm.dir None Vm.addrs Vm.everywhere Vm.config "_wl-box" 10001 "box" paths
           {["/etc/passwd" := Text "root"]} eq_refl E).
  apply (bool_decide_eq_false_1 ("/etc/passwd" ∈ path_strings paths)). vm_compute in E. apply Ok_inj in E as <-.
  vm_compute. reflexivity.
Defined.
