(* ===== verification/PasstDns.v ===== *)
(** * The resolver of a VM's guest: [lib/passt_dns_fragment.py],
    [lib/passt_dns_host.py], [lib/vm_netdev.py] and [libexec/workload-vm-netdev]

    The properties of the passt network device that decide which nameserver the
    guest is told of and where its queries go, and the environment file that hands
    them to the VM's service.

    Parameters: the output of [ip route], the text of /etc/resolv.conf, the password
    database, the loading of a configuration, and which writes succeed. *)
From S2P Require Import Prelude PyStr PyPath Toml Ipaddr WorkloadAddr WorkloadNames WorkloadConfig NetworkConfig GenFiles.
Local Open Scope Z_scope.

(** ** What the guest is told *)

Definition NO_RESOLVER : string := "dhcp-dns=off".

(** What is logged about a fragment. *)
Inductive note :=
  | NoV4Route | ToldResponder (gateway responder : string) | DeadV6
  | NoRoute (family : Z) | Told (family : Z) (gateway resolver : string) | NoneUsable | ResolverNone.

(** [d.get(k)] of a dict of strings, with the empty string falsy. *)
Definition some_text (o : option string) : option string :=
  match o with Some s => if String.eqb s "" then None else Some s | None => None end.

Definition build_synthesis_fragment (gateways : gmap Z string) (responder : string) : string * list note :=
  match some_text (gateways !! 4) with
  | None => (NO_RESOLVER, [NoV4Route])
  | Some gateway =>
      let props := ["dns-forward=" +:+ gateway; "dns=" +:+ gateway; "dns-host=" +:+ responder] in
      let params := ["param=--dns"; "param=::1"] in
      (join "," (props ++ params), [ToldResponder gateway responder; DeadV6])
  end.

(** The state of the loop over the families. *)
Record fragment := mkFragment { fr_notes : list note; fr_props : list string; fr_params : list string; fr_native : bool }.

Definition add_family (gateways resolvers : gmap Z string) (s : fragment) (family : Z) : fragment :=
  match some_text (gateways !! family), some_text (resolvers !! family) with
  | Some gateway, Some resolver =>
      let '(props, params) :=
        if negb (fr_native s)
        then (fr_props s ++ ["dns-forward=" +:+ gateway; "dns=" +:+ gateway; "dns-host=" +:+ resolver], fr_params s)
        else (fr_props s, fr_params s ++ ["param=--dns-forward"; "param=" +:+ gateway; "param=--dns"; "param=" +:+ gateway;
                                          "param=--dns-host"; "param=" +:+ resolver]) in
      mkFragment (fr_notes s ++ [Told family gateway resolver]) props params true
  | None, Some _ => mkFragment (fr_notes s ++ [NoRoute family]) (fr_props s) (fr_params s) (fr_native s)
  | _, None => s
  end.

Definition build_dns_fragment (gateways resolvers : gmap Z string) : string * list note :=
  let s := foldl (add_family gateways resolvers) (mkFragment [] [] [] false) [4; 6] in
  match fr_props s with
  | [] => (NO_RESOLVER, fr_notes s ++ [NoneUsable])
  | _ => (join "," (fr_props s ++ fr_params s), fr_notes s)
  end.

(** ** What the host has *)

(** The address an IPv4-mapped IPv6 address stands for. *)
Definition ipv4_mapped (n : Z) : option Z := if n / 2 ^ 32 =? 65535 then Some (n mod 2 ^ 32) else None.

Definition v4_link_local (n : Z) : bool := n / 2 ^ 16 =? 43518.  (* 169.254.0.0/16 *)

Definition is_link_local (a : ip) : bool :=
  match a with
  | IPv4 n => v4_link_local n
  | IPv6 n _ => match ipv4_mapped n with
                | Some m => v4_link_local m
                | None => n / 2 ^ 118 =? 1018  (* fe80::/10 *)
                end
  end.

(** [fields[fields.index("via") + 1]]: the word after the first "via". *)
Fixpoint after_via (fields : list string) : option (res string) :=
  match fields with
  | [] => None
  | f :: fields =>
      if String.eqb f "via" then Some (match fields with w :: _ => Ok w | [] => Raise IndexError end)
      else after_via fields
  end.

(** The first usable gateway of the lines. *)
Fixpoint first_gateway (lines : list string) : res (option string) :=
  match lines with
  | [] => Ok None
  | line :: lines =>
      match after_via (words line) with
      | None => first_gateway lines
      | Some (Raise e) => Raise e
      | Some (Ok candidate) =>
          match ip_address candidate with
          | Some addr => if is_link_local addr then first_gateway lines else Ok (Some (ip_str addr))
          | None => first_gateway lines
          end
      end
  end.

(** The address of a resolv.conf line: a [nameserver] followed by one word. *)
Definition resolver_of_line (line : string) : option ip :=
  let line := strip (hd "" (split_on ";" (hd "" (split_on "#" line)))) in
  if starts_with "nameserver" line then
    let rest := str_drop (String.length "nameserver") line in
    let word := lstrip_by is_space rest in
    if negb (String.eqb word rest) && re_plus (fun c => negb (is_space c)) word
    then ip_address (hd "" (split_on "%" word)) else None
  else None.

(** [d.setdefault(k, v)]. *)
Definition setdefault (d : gmap Z string) (k : Z) (v : string) : gmap Z string :=
  match d !! k with Some _ => d | None => <[k := v]> d end.

Section host.
(** [ip -4|-6 route show default]: its exit status and output, or an exception
    of running it. *)
Variable ip_route : Z -> option (Z * string).
Variable resolv_conf : option string.

Definition add_gateway (gateways : gmap Z string) (family : Z) : res (gmap Z string) :=
  match ip_route family with
  | None => Ok gateways
  | Some (code, out) =>
      if negb (code =? 0) then Ok gateways
      else g ← first_gateway (splitlines out);
           Ok (match g with Some a => <[family := a]> gateways | None => gateways end)
  end.

Definition default_gateways : res (gmap Z string) := g ← add_gateway ∅ 4; add_gateway g 6.

Definition add_resolver (d : gmap Z string) (line : string) : gmap Z string :=
  match resolver_of_line line with
  | Some addr => setdefault d (ip_version addr) (ip_str addr)
  | None => d
  end.

Definition host_resolvers : gmap Z string :=
  match resolv_conf with Some text => foldl add_resolver ∅ (splitlines text) | None => ∅ end.

(** ** One VM *)

Variable load_workload_config : string -> res table.
Variable getpwnam : string -> option Z.

Definition workload_config (name : string) : res table :=
  match load_workload_config name with
  | Ok c => Ok c
  | Raise e => if is_oserror e || bool_decide (e = ValueError) then Ok [] else Raise e
  end.

Definition resolver_mode (config : table) : res string :=
  vm ← get_or (TTab config) "vm" (TTab []);
  net ← get_or (or_empty vm) "network" (TTab []);
  m ← get_or net "resolver" (TStr "host");
  Ok (match m with TStr s => if bool_decide (s ∈ ["host"; "none"]) then s else "host" | _ => "host" end).

Definition responder_address (name : string) : res string :=
  match getpwnam ("_wl-" +:+ name) with Some uid => resolve_address uid | None => Raise KeyError end.

Definition passt_dns (name : string) : res (string * list note) :=
  config ← workload_config name;
  m ← resolver_mode config;
  if String.eqb m "none" then Ok (NO_RESOLVER, [ResolverNone])
  else
    uses ← vm_uses_resolve config;
    if uses : bool then
      match responder_address name with
      | Ok responder => gateways ← default_gateways; Ok (build_synthesis_fragment gateways responder)
      | Raise e => if bool_decide (e ∈ [KeyError; ValueError]) then Ok (NO_RESOLVER, []) else Raise e
      end
    else gateways ← default_gateways; Ok (build_dns_fragment gateways host_resolvers).

(** ** The environment file *)

Variable env_dir : string.
Variable writable : pypath -> bool.

Definition passt_env_file (name : string) : pypath := path_div (path_of env_dir) ("workload-" +:+ name +:+ ".passt").

(** [os.replace(src, dst)]. *)
Definition replace_file (src dst : pypath) : io files unit := fun w =>
  match w !! path_str src with
  | Some e => if writable dst then (<[path_str dst := e]> (delete (path_str src) w), Ok tt) else (w, Raise OSError)
  | None => (w, Raise FileNotFoundError)
  end.

Definition write_passt_env (name fragment : string) : io files unit :=
  let env_file := passt_env_file name in
  let tmp := path_div (path_of env_dir) ("workload-" +:+ name +:+ ".passt.tmp") in
  _ ← write_text writable tmp ("WL_PASST_DNS=" +:+ fragment +:+ chr LF);
  replace_file tmp env_file.

(** [libexec/workload-vm-netdev] on one name: its exit status is always 0. *)
Definition netdev_main (name : string) : io files unit :=
  try_io ('(fragment, _) ← pure (passt_dns name); write_passt_env name fragment) (fun _ => true)
    (fun _ => try_io (write_passt_env name NO_RESOLVER) (fun _ => true) (fun _ => mret tt)).
End host.

(** ** The fragment as QEMU and passt read it *)

(** The properties of the netdev as options of passt: "opt=value" is an option,
    and "param=--opt", "param=value" are two words of the command line. *)
Fixpoint passt_options (props : list string) : list (string * string) :=
  match props with
  | [] => []
  | p :: props =>
      match cut "=" p with
      | Some (k, v) =>
          if String.eqb k "param" then
            match props with
            | q :: props' => (str_drop 2 v, str_drop 6 q) :: passt_options props'
            | [] => [(str_drop 2 v, "")]
            end
          else (k, v) :: passt_options props
      | None => (p, "") :: passt_options props
      end
  end.

Definition read_fragment (s : string) : list (string * string) := passt_options (split_on "," s).

(** The family of an address, as inet_pton tells them apart. *)
Definition of_family (family : Z) (o : string * string) : bool := Bool.eqb (has_char ":" (snd o)) (family =? 6).

Definition dns_option (family : Z) (o : string * string) : bool :=
  existsb (String.eqb (fst o)) ["dns-forward"; "dns"; "dns-host"] && of_family family o.

Definition dns_options (family : Z) (s : string) : list (string * string) :=
  List.filter (dns_option family) (read_fragment s).

(** ** Printed addresses *)

Lemma has_char_join c sep l :
  has_char c sep = false -> Forall (fun s => has_char c s = false) l -> has_char c (join sep l) = false.
Proof.
  intros Hs H. induction H as [|s l Hc Hl IH]; [done|]. destruct l as [|s' l]; [done|].
  change (join sep (s :: s' :: l)) with (s +:+ sep +:+ join sep (s' :: l)). by rewrite !has_char_app, Hc, Hs, IH.
Qed.

Lemma hextets_no_char c n : is_hexdigit c = false -> Forall (fun s => has_char c s = false) (hextets n).
Proof.
  intros Hc. unfold hextets. apply Forall_map, Forall_true. intros i. apply hex16_no_char; [done|].
  apply Z.mod_pos_bound. lia.
Qed.

Lemma compress_no_char c l :
  Forall (fun s => has_char c s = false) l -> Forall (fun s => has_char c s = false) (compress_hextets l).
Proof.
  intros H. unfold compress_hextets. destruct (zero_runs _ _ _ _) as [st n]. destruct (1 <? n)%nat; [|done].
  repeat apply Forall_app_2; repeat case_match; repeat constructor; auto using Forall_take, Forall_drop.
Qed.

Lemma compress_length l : (2 <= length l)%nat -> (2 <= length (compress_hextets l))%nat.
Proof.
  intros H. unfold compress_hextets. destruct (zero_runs _ _ _ _) as [st n]. destruct (1 <? n)%nat; [|done].
  rewrite !length_app, length_take. destruct (Nat.eqb_spec st 0); cbn [length]; lia.
Qed.

Lemma join_has_sep c l : (2 <= length l)%nat -> has_char c (join (chr c) l) = true.
Proof.
  destruct l as [|s [|s' l]]; cbn [length]; [lia..|]. intros _.
  change (join (chr c) (s :: s' :: l)) with (s +:+ chr c +:+ join (chr c) (s' :: l)). rewrite !has_char_app.
  unfold has_char at 2, is_char. cbn [chr any_char]. rewrite Ascii.eqb_refl. by rewrite orb_true_r.
Qed.

Lemma v6_str_chars n c : is_hexdigit c = false -> Ascii.eqb c ":" = false -> has_char c (v6_str n) = false.
Proof.
  intros Hc Hs. unfold v6_str. apply has_char_join; [unfold has_char, is_char; cbn [any_char]; by rewrite Hs|]. by apply compress_no_char, hextets_no_char.
Qed.

Lemma v6_str_colon n : has_char ":" (v6_str n) = true.
Proof. apply (join_has_sep ":"), compress_length. cbn. lia. Qed.

(** An address that is not empty, has no comma and is of the family. *)
Definition address_of (family : Z) (s : string) : Prop :=
  s <> "" /\ has_char "," s = false /\ has_char ":" s = (family =? 6).

Lemma ip_str_address a :
  (forall n scope, a = IPv6 n (Some scope) -> has_char "," scope = false) -> address_of (ip_version a) (ip_str a).
Proof.
  intros Hs. unfold address_of. destruct a as [n|n [scope|]]; cbn [ip_str ip_version].
  - split_and!; [|by apply v4_str_chars..]. intros H. pose proof (v4_str_head n) as (c & r & E & _). by rewrite H in E.
  - rewrite !has_char_app, (v6_str_chars n ","), v6_str_colon, (Hs n scope eq_refl) by done. split_and!; try done.
    intros H. pose proof (v6_str_colon n) as E. by destruct (v6_str n).
  - rewrite v6_str_chars, v6_str_colon by done. split_and!; try done.
    intros H. pose proof (v6_str_colon n) as E. by rewrite H in E.
Qed.

(** A scope is a part of the text. *)
Lemma parsed_scope c s n scope : has_char c s = false -> ip_address s = Some (IPv6 n (Some scope)) -> has_char c scope = false.
Proof.
  unfold ip_address, parse_v6. intros Hc. destruct (parse_v4 s); [done|]. destruct (has_char "/" s); [done|].
  destruct (cut "%" s) as [[a sc]|] eqn:E; [|by destruct (parse_v6_parts _)].
  destruct (_ || _); [done|]. destruct (parse_v6_parts _); [|done]. cbn. intros [= _ <-].
  apply cut_Some in E as [-> _]. rewrite has_char_app in Hc. apply orb_false_elim in Hc as [_ Hc].
  unfold has_char in *. cbn [any_char] in Hc. by apply orb_false_elim in Hc as [_ Hc].
Qed.

(** ** All three or none *)

Definition addresses (m : gmap Z string) : Prop := forall f s, m !! f = Some s -> address_of f s.

Lemma some_text_address f s : address_of f s -> some_text (Some s) = Some s.
Proof. intros [H _]. cbn. by destruct (String.eqb_spec s ""). Qed.

Lemma read_join l :
  l <> [] -> Forall (fun s => has_char "," s = false) l -> read_fragment (join "," l) = passt_options l.
Proof. intros H1 H2. unfold read_fragment. change "," with (chr ","). by rewrite split_on_join. Qed.

(** One family's options, through the properties and through the command line. *)
Definition native (g r : string) : list string := ["dns-forward=" +:+ g; "dns=" +:+ g; "dns-host=" +:+ r].
Definition escaped (g r : string) : list string :=
  ["param=--dns-forward"; "param=" +:+ g; "param=--dns"; "param=" +:+ g; "param=--dns-host"; "param=" +:+ r].
Definition three (g r : string) : list (string * string) := [("dns-forward", g); ("dns", g); ("dns-host", r)].

Lemma native_options g r l : passt_options (native g r ++ l) = three g r ++ passt_options l.
Proof. reflexivity. Qed.

Lemma escaped_options g r l : passt_options (escaped g r ++ l) = three g r ++ passt_options l.
Proof. reflexivity. Qed.

Lemma has_comma_app p s : has_char "," p = false -> has_char "," s = false -> has_char "," (p +:+ s) = false.
Proof. intros Hp Hs. by rewrite has_char_app, Hp, Hs. Qed.

Lemma no_commas f g r : address_of f g -> address_of f r -> Forall (fun s => has_char "," s = false) (native g r ++ escaped g r).
Proof. intros (_ & Hg & _) (_ & Hr & _). repeat constructor; by apply has_comma_app. Qed.

Lemma three_filter f f' g r :
  f ∈ [4; 6] -> f' ∈ [4; 6] -> address_of f' g -> address_of f' r ->
  List.filter (dns_option f) (three g r) = if f =? f' then three g r else [].
Proof.
  intros Hf Hf' (_ & _ & Hg) (_ & _ & Hr). unfold three. cbn [List.filter]. unfold dns_option, of_family. cbn [fst snd].
  cbn [existsb]. rewrite Hg, Hr. clear Hg Hr.
  repeat (apply elem_of_cons in Hf as [->|Hf]); repeat (apply elem_of_cons in Hf' as [->|Hf']); try done;
    by apply not_elem_of_nil in Hf || by apply not_elem_of_nil in Hf'.
Qed.

Lemma options_of_blocks f l :
  l <> [] -> Forall (fun s => has_char "," s = false) l ->
  dns_options f (join "," l) = List.filter (dns_option f) (passt_options l).
Proof. intros H1 H2. unfold dns_options. by rewrite read_join. Qed.

(** The gateway and the resolver of a family that has both. *)
Definition both (gateways resolvers : gmap Z string) (f : Z) : option (string * string) :=
  match gateways !! f, resolvers !! f with Some g, Some r => Some (g, r) | _, _ => None end.

Lemma families_spec gateways resolvers :
  addresses gateways -> addresses resolvers ->
  let s := foldl (add_family gateways resolvers) (mkFragment [] [] [] false) [4; 6] in
  match both gateways resolvers 4, both gateways resolvers 6 with
  | Some (g, r), Some (g', r') => fr_props s = native g r /\ fr_params s = escaped g' r'
  | Some (g, r), None | None, Some (g, r) => fr_props s = native g r /\ fr_params s = []
  | None, None => fr_props s = []
  end.
Proof.
  intros Hg Hr. cbn [foldl]. unfold add_family, both. cbn [fr_notes fr_props fr_params fr_native].
  assert (E : forall m (H : addresses m) k, some_text (m !! k) = m !! k).
  { intros m H k. destruct (m !! k) as [s|] eqn:Em; [|done]. by eapply some_text_address, H. }
  rewrite !E by done.
  destruct (gateways !! 4), (resolvers !! 4), (gateways !! 6), (resolvers !! 6); done.
Qed.

Lemma both_address gateways resolvers f g r :
  addresses gateways -> addresses resolvers -> both gateways resolvers f = Some (g, r) -> address_of f g /\ address_of f r.
Proof.
  intros Hg Hr. unfold both. destruct (gateways !! f) as [g'|] eqn:G; [|done]. destruct (resolvers !! f) as [r'|] eqn:R; [|done].
  intros E. apply (inj Some) in E. inversion E; subst. split; [by apply Hg|by apply Hr].
Qed.

(** A family on its own is the native one. *)
Lemma one_family f f' g r notes :
  f ∈ [4; 6] -> f' ∈ [4; 6] -> address_of f' g -> address_of f' r ->
  dns_options f (fst (match native g r with [] => (NO_RESOLVER, notes ++ [NoneUsable]) | _ => (join "," (native g r ++ []), notes) end))
  = if f =? f' then three g r else [].
Proof.
  intros Hf Hf' P Q. cbn [native fst]. fold (native g r). pose proof (no_commas _ _ _ P Q) as [N _]%Forall_app.
  rewrite options_of_blocks by (done || by apply Forall_app_2). rewrite native_options, List.filter_app, (three_filter f f') by done.
  cbn [passt_options List.filter]. by rewrite app_nil_r.
Qed.

Lemma dns_fragment_options gateways resolvers f :
  addresses gateways -> addresses resolvers -> f ∈ [4; 6] ->
  dns_options f (fst (build_dns_fragment gateways resolvers)) =
  match both gateways resolvers f with Some (g, r) => three g r | None => [] end.
Proof.
  intros Hg Hr Hf. pose proof (families_spec gateways resolvers Hg Hr) as Hs. cbv zeta in Hs. unfold build_dns_fragment.
  set (s := foldl _ _ _) in *. clearbody s.
  assert (In4 : 4 ∈ [4; 6]) by by left. assert (In6 : 6 ∈ [4; 6]) by (right; by left).
  pose proof (fun g r => both_address gateways resolvers 4 g r Hg Hr) as A4.
  pose proof (fun g r => both_address gateways resolvers 6 g r Hg Hr) as A6.
  assert (Hcase : both gateways resolvers f = if f =? 4 then both gateways resolvers 4 else both gateways resolvers 6).
  { repeat (apply elem_of_cons in Hf as [->|Hf]); try done. by apply not_elem_of_nil in Hf. }
  rewrite Hcase. clear Hcase.
  destruct (both gateways resolvers 4) as [[g r]|] eqn:B4; destruct (both gateways resolvers 6) as [[g' r']|] eqn:B6.
  - destruct (A4 _ _ eq_refl) as [P Q], (A6 _ _ eq_refl) as [P' Q']. destruct Hs as [-> ->]. cbn [native fst]. fold (native g r).
    pose proof (no_commas _ _ _ P Q) as [N _]%Forall_app. pose proof (no_commas _ _ _ P' Q') as [_ N']%Forall_app.
    rewrite options_of_blocks by (done || by apply Forall_app_2). rewrite native_options, <- (app_nil_r (escaped _ _)), escaped_options.
    rewrite !List.filter_app, (three_filter f 4), (three_filter f 6) by done.
    repeat (apply elem_of_cons in Hf as [->|Hf]); [done..|by apply not_elem_of_nil in Hf].
  - destruct (A4 _ _ eq_refl) as [P Q]. destruct Hs as [-> ->]. rewrite (one_family f 4) by done. by destruct (f =? 4).
  - destruct (A6 _ _ eq_refl) as [P' Q']. destruct Hs as [-> ->]. rewrite (one_family f 6) by done.
    repeat (apply elem_of_cons in Hf as [->|Hf]); [done..|by apply not_elem_of_nil in Hf].
  - rewrite Hs. repeat (apply elem_of_cons in Hf as [->|Hf]); [done..|by apply not_elem_of_nil in Hf].
Qed.

(** ** The host's addresses *)

Lemma addresses_empty : addresses ∅.
Proof. intros f s H. by rewrite lookup_empty in H. Qed.

Lemma addresses_insert m f s : addresses m -> address_of f s -> addresses (<[f := s]> m).
Proof. intros Hm Hs f' s'. rewrite lookup_insert_Some. intros [[<- <-]|[_ H]]; [done|by apply Hm]. Qed.

Lemma hd_split_no_char c s : has_char c (hd "" (split_on c s)) = false.
Proof. pose proof (split_on_Forall c s) as H. destruct H; done. Qed.

Lemma resolver_line_address line a : resolver_of_line line = Some a -> address_of (ip_version a) (ip_str a).
Proof.
  unfold resolver_of_line. cbv zeta. repeat case_match; try done. intros Hp. apply ip_str_address.
  intros n scope ->. unfold ip_address, parse_v6 in Hp. destruct (parse_v4 _); [done|]. destruct (has_char "/" _); [done|].
  match type of Hp with context [cut "%" (hd "" (split_on "%" ?x))] =>
    assert (cut "%" (hd "" (split_on "%" x)) = None) as Hc by apply cut_None, hd_split_no_char end.
  rewrite Hc in Hp. by destruct (parse_v6_parts _).
Qed.

Lemma host_resolvers_addresses resolv_conf : addresses (host_resolvers resolv_conf).
Proof.
  unfold host_resolvers. destruct resolv_conf as [text|]; [|apply addresses_empty].
  assert (G : forall l m, addresses m -> addresses (foldl add_resolver m l)); [|apply G, addresses_empty].
  induction l as [|line l IH]; intros m Hm; [done|]. cbn [foldl]. apply IH. unfold add_resolver, setdefault.
  destruct (resolver_of_line line) as [a|] eqn:E; [|done]. destruct (m !! ip_version a); [done|].
  apply addresses_insert; [done|]. by apply resolver_line_address in E.
Qed.

(** What [ip -4|-6 route show default] promises: its gateways are addresses of
    the family it was asked for, written without commas. *)
Definition routes_of_family (ip_route : Z -> option (Z * string)) : Prop :=
  forall f code out line candidate a,
    ip_route f = Some (code, out) -> line ∈ splitlines out -> after_via (words line) = Some (Ok candidate) ->
    ip_address candidate = Some a -> ip_version a = f /\ has_char "," candidate = false.

Lemma first_gateway_Some lines g :
  first_gateway lines = Ok (Some g) ->
  exists line candidate a, line ∈ lines /\ after_via (words line) = Some (Ok candidate) /\ ip_address candidate = Some a /\
    is_link_local a = false /\ g = ip_str a.
Proof.
  induction lines as [|line lines IH]; [done|]. cbn [first_gateway].
  assert (Hrec : first_gateway lines = Ok (Some g) -> exists line' candidate a, line' ∈ line :: lines /\
    after_via (words line') = Some (Ok candidate) /\ ip_address candidate = Some a /\ is_link_local a = false /\ g = ip_str a).
  { intros (l & c & a & Hl & H)%IH. exists l, c, a. split; [by right|done]. }
  destruct (after_via (words line)) as [[candidate|e]|] eqn:V; [|done|done].
  destruct (ip_address candidate) as [a|] eqn:A; [|done]. destruct (is_link_local a) eqn:L; [done|].
  intros E%Ok_inj. apply (inj Some) in E as <-. exists line, candidate, a. split; [by left|done].
Qed.

Lemma add_gateway_addresses ip_route m m' f :
  routes_of_family ip_route -> addresses m -> add_gateway ip_route m f = Ok m' -> addresses m'.
Proof.
  intros Hr Hm. unfold add_gateway. destruct (ip_route f) as [[code out]|] eqn:E; [|by intros <-%Ok_inj].
  destruct (negb _); [by intros <-%Ok_inj|]. intros (g & Hg & <-%Ok_inj)%bind_Ok_inv. destruct g as [g|]; [|done].
  apply first_gateway_Some in Hg as (line & c & a & Hl & Hv & Ha & _ & ->). destruct (Hr f code out line c a) as [Hf Hc]; [done..|].
  apply addresses_insert; [done|]. rewrite <- Hf. apply ip_str_address. intros n scope ->. by eapply parsed_scope.
Qed.

Lemma default_gateways_addresses ip_route m :
  routes_of_family ip_route -> default_gateways ip_route = Ok m -> addresses m.
Proof.
  intros Hr. unfold default_gateways. intros (m1 & H1 & H2)%bind_Ok_inv.
  apply (add_gateway_addresses ip_route m1 m 6); [done| |done]. by apply (add_gateway_addresses ip_route ∅ m1 4).
Qed.

(** ** What a guest is told *)

Section told.
Variable ip_route : Z -> option (Z * string).
Variable load_workload_config : string -> res table.
Variable getpwnam : string -> option Z.

(** A guest that is handed the host's resolvers is handed whole families:
    for IPv4 and for IPv6, passt gets either the three options that intercept the
    guest's queries, with the gateway of that family and the host's first resolver of
    it, or none of them, and none exactly when one of the two is missing. *)
Theorem dns_all_three_or_none resolv_conf name config fragment notes f :
  load_workload_config name = Ok config -> resolver_mode config = Ok "host" -> vm_uses_resolve config = Ok false ->
  routes_of_family ip_route -> f ∈ [4; 6] ->
  passt_dns ip_route resolv_conf load_workload_config getpwnam name = Ok (fragment, notes) ->
  exists gateways, default_gateways ip_route = Ok gateways /\
    dns_options f fragment =
    match gateways !! f, host_resolvers resolv_conf !! f with
    | Some g, Some r => [("dns-forward", g); ("dns", g); ("dns-host", r)]
    | _, _ => []
    end.
Proof.
  intros Hl Hm Hu Hr Hf. unfold passt_dns, workload_config. rewrite Hl. cbn [mbind res_bind]. rewrite Hm. cbn [mbind res_bind].
  rewrite Hu. cbn [mbind res_bind String.eqb]. intros (gateways & Hg & H%Ok_inj)%bind_Ok_inv. exists gateways. split; [done|].
  apply (f_equal fst) in H. cbn [fst] in H. rewrite <- H.
  rewrite dns_fragment_options by eauto using default_gateways_addresses, host_resolvers_addresses.
  unfold both. by destruct (gateways !! f), (host_resolvers resolv_conf !! f).
Qed.

(** A filtered guest never hears of the host's resolvers.  What it is
    told does not depend on /etc/resolv.conf at all; it is no resolver, or, in
    this order, the host's IPv4 gateway with the queries sent to the workload's own
    responder, and the guest's own loopback for IPv6; and it is no resolver when the
    workload has no user or its uid has no responder. *)
Theorem filtered_guest_dns resolv_conf resolv_conf' name config :
  load_workload_config name = Ok config -> vm_uses_resolve config = Ok true -> routes_of_family ip_route ->
  passt_dns ip_route resolv_conf load_workload_config getpwnam name =
    passt_dns ip_route resolv_conf' load_workload_config getpwnam name /\
  forall fragment notes, passt_dns ip_route resolv_conf load_workload_config getpwnam name = Ok (fragment, notes) ->
    fragment = NO_RESOLVER \/
    exists uid responder gateways g, getpwnam ("_wl-" +:+ name) = Some uid /\ resolve_address uid = Ok responder /\
      default_gateways ip_route = Ok gateways /\ gateways !! 4 = Some g /\
      read_fragment fragment = [("dns-forward", g); ("dns", g); ("dns-host", responder); ("dns", "::1")].
Proof.
  intros Hl Hu Hr. unfold passt_dns, workload_config. rewrite Hl. cbn [mbind res_bind].
  destruct (resolver_mode config) as [m|e]; [|split; done]. cbn [mbind res_bind].
  destruct (String.eqb m "none"); [split; [done|]; intros ? ? H%Ok_inj; left; congruence|].
  rewrite Hu. cbn [mbind res_bind]. split; [done|]. intros fragment notes. unfold responder_address.
  destruct (getpwnam _) as [uid|] eqn:Ep; [|intros H%Ok_inj; left; congruence].
  destruct (resolve_address uid) as [responder|e] eqn:Er;
    [|destruct (bool_decide _); [|done]; intros H%Ok_inj; left; congruence].
  intros (gateways & Hg & H%Ok_inj)%bind_Ok_inv. apply (f_equal fst) in H. cbn [fst] in H. rewrite <- H.
  pose proof (default_gateways_addresses _ _ Hr Hg) as Ha. unfold build_synthesis_fragment.
  destruct (gateways !! 4) as [g|] eqn:E4; [|by left]. rewrite (some_text_address 4) by (by apply Ha).
  right. exists uid, responder, gateways, g. split_and!; try done. cbn [fst].
  destruct (Ha _ _ E4) as (_ & Hc & _). unfold resolve_address in Er. apply bind_Ok_inv in Er as (n & _ & <-%Ok_inj).
  rewrite read_join; [done..|]. cbn [app]. repeat apply Forall_cons_2; try done; apply has_comma_app; try done.
  by apply v4_str_chars.
Qed.
End told.

(** ** The file is always there *)

Lemma fragment_nonempty ip_route resolv_conf load getpwnam name fragment notes :
  passt_dns ip_route resolv_conf load getpwnam name = Ok (fragment, notes) -> fragment <> "".
Proof.
  assert (Hs : forall g r, fst (build_synthesis_fragment g r) <> "").
  { intros g r. unfold build_synthesis_fragment. by destruct (some_text _). }
  assert (Hd : forall g r, fst (build_dns_fragment g r) <> "").
  { intros g r. unfold build_dns_fragment. cbn [foldl]. unfold add_family.
    destruct (some_text (g !! 4)), (some_text (r !! 4)), (some_text (g !! 6)), (some_text (r !! 6)); done. }
  unfold passt_dns. intros (config & _ & H)%bind_Ok_inv. apply bind_Ok_inv in H as (m & _ & H).
  destruct (String.eqb m "none"); [apply Ok_inj in H; apply (f_equal fst) in H; cbn [fst] in H; by rewrite <- H|].
  apply bind_Ok_inv in H as (u & _ & H). destruct u.
  - destruct (responder_address _ _) as [r|e].
    + apply bind_Ok_inv in H as (g & _ & H%Ok_inj). apply (f_equal fst) in H. cbn [fst] in H. rewrite <- H. apply Hs.
    + destruct (bool_decide _); [|done]. apply Ok_inj in H. apply (f_equal fst) in H. cbn [fst] in H. by rewrite <- H.
  - apply bind_Ok_inv in H as (g & _ & H%Ok_inj). apply (f_equal fst) in H. cbn [fst] in H. rewrite <- H. apply Hd.
Qed.

Lemma write_passt_env_writes env_dir writable name fragment w :
  (forall p, writable p = true) ->
  exists w', write_passt_env env_dir writable name fragment w = (w', Ok tt) /\
    w' !! path_str (passt_env_file env_dir name) = Some (Text ("WL_PASST_DNS=" +:+ fragment +:+ chr LF)).
Proof.
  intros Hw. unfold write_passt_env, write_text, replace_file, mbind, io_bind. rewrite !Hw. rewrite lookup_insert_eq.
  eexists. split; [done|]. by rewrite lookup_insert_eq.
Qed.

(** The VM's service always gets a value for the variable in its network
    device: when the directory can be written, then whatever else fails (the
    configuration, the password database, [ip route]) the helper ends without an
    error and has written one, never empty; it is the fragment that was decided, or
    no resolver when none could be. *)
Theorem netdev_always_defined ip_route resolv_conf load getpwnam env_dir writable name w :
  (forall p, writable p = true) ->
  exists w' fragment, netdev_main ip_route resolv_conf load getpwnam env_dir writable name w = (w', Ok tt) /\
    w' !! path_str (passt_env_file env_dir name) = Some (Text ("WL_PASST_DNS=" +:+ fragment +:+ chr LF)) /\ fragment <> "" /\
    fragment = match passt_dns ip_route resolv_conf load getpwnam name with Ok (f, _) => f | Raise _ => NO_RESOLVER end.
Proof.
  intros Hw. unfold netdev_main, try_io, mbind, io_bind, pure.
  destruct (passt_dns ip_route resolv_conf load getpwnam name) as [[fragment notes]|e] eqn:E.
  - destruct (write_passt_env_writes env_dir writable name fragment w Hw) as (w' & -> & Hf).
    exists w', fragment. split_and!; try done. by eapply fragment_nonempty.
  - destruct (write_passt_env_writes env_dir writable name NO_RESOLVER w Hw) as (w' & -> & Hf). by exists w', NO_RESOLVER.
Qed.

(** ** A concrete host *)

Module Dns.
Definition routes (f : Z) : option (Z * string) :=
  if f =? 4 then Some (0, "default via 192.168.1.1 dev eth0 proto dhcp")
  else if f =? 6 then Some (0, "default via 2001:db8::1 dev eth0") else None.
Definition resolv : string := "# local" +:+ chr LF +:+ "nameserver 127.0.0.53" +:+ chr LF +:+ "nameserver fe80::1%eth0".
Definition open_vm : table := [("vm", TTab [("network", TTab [("egress", TStr "open")])])].
Definition filtered_vm : table := [("vm", TTab [("network", TTab [])])].
Definition getpwnam (_ : string) : option Z := Some 10001.
Definition everywhere (_ : pypath) : bool := true.
Definition no_config (_ : string) : res table := Raise FileNotFoundError.

Lemma routes_family : routes_of_family routes.
Proof.
  intros f code out line candidate a H Hl Hv Ha. unfold routes in H.
  destruct (Z.eqb_spec f 4) as [->|Hf]; [|destruct (Z.eqb_spec f 6) as [->|]; [|done]]; apply (inj Some) in H;
    apply (f_equal snd) in H; cbn [snd] in H; subst out;
    (apply elem_of_cons in Hl as [->|Hl]; [|by apply not_elem_of_nil in Hl]);
    vm_compute in Hv; apply (inj Some), Ok_inj in Hv as <-; vm_compute in Ha; by apply (inj Some) in Ha as <-.
Qed.
End Dns.

Lemma dns_all_three_or_none_witness :
  exists fragment notes, passt_dns Dns.routes (Some Dns.resolv) (fun _ => Ok Dns.open_vm) Dns.getpwnam "box" = Ok (fragment, notes) /\
    dns_options 4 fragment = [("dns-forward", "192.168.1.1"); ("dns", "192.168.1.1"); ("dns-host", "127.0.0.53")] /\
    dns_options 6 fragment = [("dns-forward", "2001:db8::1"); ("dns", "2001:db8::1"); ("dns-host", "fe80::1")].
Proof.
  destruct (passt_dns Dns.routes (Some Dns.resolv) (fun _ => Ok Dns.open_vm) Dns.getpwnam "box") as [[fragment notes]|e] eqn:E;
    [|vm_compute in E; discriminate E].
  exists fragment, notes. split; [done|].
  pose proof (fun f Hf => dns_all_three_or_none Dns.routes (fun _ => Ok Dns.open_vm) Dns.getpwnam (Some Dns.resolv) "box" Dns.open_vm
                fragment notes f eq_refl eq_refl eq_refl Dns.routes_family Hf E) as H.
  destruct (H 4) as (gw & Hg & H4); [by left|]. destruct (H 6) as (gw' & Hg' & H6); [right; by left|].
  rewrite H4, H6. vm_compute in Hg, Hg'. apply Ok_inj in Hg as <-, Hg' as <-. split; reflexivity.
Defined.

Lemma filtered_guest_dns_witness :
  exists fragment notes, passt_dns Dns.routes (Some Dns.resolv) (fun _ => Ok Dns.filtered_vm) Dns.getpwnam "box" = Ok (fragment, notes) /\
    fragment <> NO_RESOLVER /\
    exists uid responder gateways g, Dns.getpwnam ("_wl-" +:+ "box") = Some uid /\ resolve_address uid = Ok responder /\
      default_gateways Dns.routes = Ok gateways /\ gateways !! 4 = Some g /\
      read_fragment fragment = [("dns-forward", g); ("dns", g); ("dns-host", responder); ("dns", "::1")].
Proof.
  destruct (filtered_guest_dns Dns.routes (fun _ => Ok Dns.filtered_vm) Dns.getpwnam (Some Dns.resolv) None "box" Dns.filtered_vm
              eq_refl eq_refl Dns.routes_family) as [_ H].
  destruct (passt_dns Dns.routes (Some Dns.resolv) (fun _ => Ok Dns.filtered_vm) Dns.getpwnam "box") as [[fragment notes]|e] eqn:E;
    [|vm_compute in E; discriminate E].
  exists fragment, notes. split; [done|].
  assert (fragment <> NO_RESOLVER) as Hn
    by (vm_compute in E; apply Ok_inj in E; apply (f_equal fst) in E; cbn [fst] in E; by rewrite <- E).
  split; [done|]. destruct (H fragment notes eq_refl) as [->|H']; [done|exact H'].
Defined.

Lemma netdev_always_defined_witness :
  snd (netdev_main Dns.routes None Dns.no_config Dns.getpwnam "/run/workload-env" Dns.everywhere "box" ∅) = Ok tt.
Proof.
  destruct (netdev_always_defined Dns.routes None Dns.no_config Dns.getpwnam "/run/workload-env" Dns.everywhere "box" ∅
              (fun _ => eq_refl)) as (w' & f & -> & _). reflexivity.
Defined.
