(* ===== verification/SecretsEnv.v ===== *)
(** * The secrets file of a container: [lib/secrets_env.py]

    [workload-write-env] resolves the secret references of one container's
    environment and writes them to the file its podman command line names with
    [--env-file], or removes the file when there are none.

    Parameters: the loading of a configuration, the credentials systemd has
    decrypted, the password database, and which operations on files succeed. *)
From S2P Require Import Prelude PyStr PyPath Toml WorkloadNames WorkloadConfig SecretsTemplate NetworkConfig Validation RunArgs.
Local Open Scope Z_scope.

Definition env_file_name (name : string) (container : option string) : string :=
  match container with
  | None => "workload-" +:+ name +:+ ".secrets"
  | Some c => "workload-" +:+ name +:+ "-" +:+ c +:+ ".secrets"
  end.

Definition select_container (config : table) (container : option string) : res table :=
  containers ← normalize_containers config;
  match container with
  | None => match containers with [c] => Ok c | _ => Raise EnvFileError end
  | Some n =>
      match List.filter (fun c => is_the_str (assoc "name" c) n) containers with
      | c :: _ => Ok c
      | [] => Raise EnvFileError
      end
  end.

Definition declares_secrets (entry : table) : res bool :=
  c ← get_or (TTab entry) "container" (TTab []);
  e ← get_or c "environment" (TTab []);
  t ← items e;
  Ok (existsb (fun kv => secret_search (py_str (snd kv))) t).

(** One [KEY=VALUE] line. *)
Definition env_line (kv : string * string) : res string :=
  let '(key, value) := kv in
  if negb (validate_env_key key) then Raise EnvFileError
  else if has_char LF value then Raise EnvFileError
  else Ok (key +:+ "=" +:+ value).

(** A file: its text, its permissions and its owner. *)
Record env_file := mkEnvFile { ef_text : string; ef_mode : Z; ef_owner : Z * Z }.
Notation env_files := (gmap string env_file).

Section write.
Variable env_dir : string.
Variable load_workload_config : string -> res table.
(** [$CREDENTIALS_DIRECTORY], and the credentials of a directory. *)
Variable creds_dir : option string.
Variable credentials : string -> string -> option string.
(** [pwd.getpwnam]: uid and gid. *)
Variable getpwnam : string -> option (Z * Z).
Variable can_unlink can_open can_chown : string -> bool.

Definition remove_stale (path : string) : io env_files unit := fun w =>
  if can_unlink path then (delete path w, Ok tt) else (w, Ok tt).

Definition secret_lines (entry : table) : res (list string) :=
  c ← get_or (TTab entry) "container" (TTab []);
  s ← get_or (TTab entry) "secrets" (TTab []);
  demanded ← auto_detect_credentials [("container", c); ("secrets", s)];
  if nonempty demanded && match creds_dir with Some d => String.eqb d "" | None => true end then Raise EnvFileError
  else
    c ← index (TTab entry) "container";
    resolved ← catch (resolve_secret_env_vars (credentials (default "" creds_dir)) [("container", c)]) FileNotFoundError
                 (Raise EnvFileError);
    mapM_res env_line resolved.

Definition file_text (lines : list string) : string := if nonempty lines then join (chr LF) lines +:+ chr LF else "".

(** [open(O_WRONLY | O_CREAT | O_TRUNC, 0o600)] by root and the write, then [chown]. *)
Definition write_env_file (path : string) (lines : list string) (name : string) : io env_files unit := fun w =>
  if can_open path then
    let '(mode, owner) := match w !! path with Some f => (ef_mode f, ef_owner f) | None => (384, (0, 0)) end in
    let w' := <[path := mkEnvFile (file_text lines) mode owner]> w in
    match getpwnam (workload_username name) with
    | None => (w', Ok tt)
    | Some ids => if can_chown path then (<[path := mkEnvFile (file_text lines) mode ids]> w', Ok tt) else (w', Raise OSError)
    end
  else (w, Raise OSError).

Definition env_path (name : string) (container : option string) : string :=
  path_str (path_div (path_of env_dir) (env_file_name name container)).

Definition write_secrets_env (name : string) (container : option string) : io env_files unit :=
  config ← pure (load_workload_config name);
  entry ← pure (select_container config container);
  declares ← pure (declares_secrets entry);
  if negb (declares : bool) then remove_stale (env_path name container)
  else lines ← pure (secret_lines entry); write_env_file (env_path name container) lines name.
End write.

(** ** The file as podman reads it *)

Definition read_env_line (line : string) : string * string :=
  match cut "=" line with Some (k, v) => (k, v) | None => (line, "") end.

Definition read_env_file (text : string) : list (string * string) :=
  map read_env_line (List.filter (fun l => negb (String.eqb l "")) (split_on LF text)).

Lemma env_key_plain k : has_char LF k = false -> validate_env_key k = true -> k <> "" /\ has_char "=" k = false.
Proof.
  intros Hlf. unfold validate_env_key. rewrite match_anchored_no_lf by done. unfold re_head_star. destruct k as [|c k]; [done|].
  intros [Hc Hk]%andb_prop. split; [done|]. unfold has_char. cbn [any_char].
  assert (is_char "=" c = false) as ->.
  { unfold is_char. destruct (Ascii.eqb_spec "=" c) as [<-|]; done. }
  by apply (all_chars_no_char is_var_char).
Qed.

Lemma env_line_Ok k v line :
  env_line (k, v) = Ok line <-> validate_env_key k = true /\ has_char LF v = false /\ line = k +:+ "=" +:+ v.
Proof.
  unfold env_line. destruct (validate_env_key k), (has_char LF v); cbn [negb]; split; try done; try by intros (? & ? & ?).
  - by intros <-%Ok_inj.
  - by intros (_ & _ & ->).
Qed.

(** Each line is read as the pair it was written from. *)
Lemma read_file_text kvs lines :
  Forall (fun kv => has_char LF (fst kv) = false) kvs -> mapM_res env_line kvs = Ok lines ->
  read_env_file (file_text lines) = kvs.
Proof.
  intros Hk Hl%mapM_res_Forall2.
  assert (Hp : Forall (fun l => has_char LF l = false) lines /\ Forall (fun l => String.eqb l "" = false) lines /\
               map read_env_line lines = kvs).
  { induction Hl as [|[k v] l kvs lines H Hl IH]; [done|]. apply Forall_cons in Hk as [Hk1 Hk]. destruct (IH Hk) as (H1 & H2 & H3).
    cbn [fst] in Hk1. apply env_line_Ok in H as (Hv & Hlf & ->). destruct (env_key_plain k Hk1 Hv) as [Hne Heq].
    split_and!.
    - constructor; [|done]. by rewrite !has_char_app, Hk1, Hlf.
    - constructor; [|done]. by destruct k.
    - cbn [map]. rewrite H3. f_equal. unfold read_env_line. change ("=" +:+ v) with (String "=" v). by rewrite cut_app. }
  destruct Hp as (H1 & H2 & H3). unfold read_env_file, file_text. destruct lines as [|l lines]; [by rewrite <- H3|].
  cbn [nonempty]. change (chr LF) with (String LF "") at 2. rewrite split_on_sep, (split_on_join LF) by done. rewrite List.filter_app, forallb_filter_id.
  - change (List.filter _ (split_on LF "")) with (@nil string). by rewrite app_nil_r.
  - apply forallb_forall. intros x Hx%list_elem_of_In. rewrite Forall_forall in H2. by rewrite H2.
Qed.

(** ** The file and the command line *)

(** The name podman gives a container: [container_name] of the generator. *)
Definition podman_name (name : string) (container : option string) : string :=
  match container with None => "workload-" +:+ name | Some c => "workload-" +:+ name +:+ "-" +:+ c end.

Lemma env_path_spec name container :
  has_char "/" name = false -> (forall c, container = Some c -> has_char "/" c = false) ->
  env_path "/run/workload-env" name container = "/run/workload-env/" +:+ podman_name name container +:+ ".secrets".
Proof.
  intros Hn Hc. unfold env_path. rewrite path_div_segment.
  - unfold env_file_name, podman_name. by destruct container as [c|]; rewrite !app_assoc_str.
  - unfold env_file_name. destruct container as [c|]; rewrite !has_char_app, Hn; [|done]. by rewrite (Hc c eq_refl).
  - unfold env_file_name. by destruct container.
Qed.

Lemma declares_has_secret s : declares_secrets (rs_container s) = has_secret_env_vars s.
Proof.
  unfold declares_secrets, has_secret_env_vars, get2. destruct (get_or _ "container" _); [|done]. cbn [mbind res_bind].
  by destruct (get_or _ _ _).
Qed.

(** Whether a variable refers to a secret, and whether an argument names a file of variables. *)
Definition refers_to_secret (kv : string * tv) : bool := secret_search (py_str (snd kv)).

Definition names_env_file (a : string) : bool := starts_with "--env-file " a.

Lemma filter_nonempty {A} (p : A -> bool) l : existsb p l = nonempty (List.filter p l).
Proof. induction l as [|x l IH]; [done|]. cbn. by destruct (p x). Qed.

Lemma declares_secrets_env s env :
  get2 (rs_container s) "container" "environment" (TTab []) = Ok (TTab env) ->
  has_secret_env_vars s = Ok (nonempty (List.filter refers_to_secret env)).
Proof. intros He. unfold has_secret_env_vars. rewrite He. cbn [mbind res_bind items]. f_equal. apply filter_nonempty. Qed.

(** The one argument of the command line that names a file. *)
Lemma env_files_of s env args :
  get2 (rs_container s) "container" "environment" (TTab []) = Ok (TTab env) -> env_args s = Ok args ->
  List.filter names_env_file args =
  if nonempty (List.filter refers_to_secret env) then ["--env-file " +:+ dq ("/run/workload-env/" +:+ rs_container_name s +:+ ".secrets")] else [].
Proof.
  intros He. unfold env_args. rewrite (declares_secrets_env s env He). intros (plain & Hp & H)%bind_Ok_inv. cbn [mbind res_bind] in H.
  apply Ok_inj in H as <-. cbn [List.filter]. assert (names_env_file "--env HOST_IP=${HOST_IP}" = false) as -> by reflexivity.
  rewrite List.filter_app. assert (List.filter names_env_file plain = []) as ->; [|by destruct (nonempty _)].
  unfold build_plain_env_args in Hp. unfold get2 in He. apply bind_Ok_inv in He as (c & Hc & He). rewrite Hc in Hp. cbn [mbind res_bind] in Hp.
  rewrite He in Hp. cbn [mbind res_bind items] in Hp. apply Ok_inj in Hp as <-. clear. induction env as [|[k v] env IH]; [done|].
  cbn [omap list_omap]. destruct (env_arg (k, v)) as [a|] eqn:E; [|done]. apply env_arg_Some in E as (_ & _ & ->). by cbn.
Qed.

Lemma resolve_of_env s env c creds r :
  get2 (rs_container s) "container" "environment" (TTab []) = Ok (TTab env) -> index (TTab (rs_container s)) "container" = Ok c ->
  resolve_secret_env_vars creds [("container", c)] = r <-> resolve_env creds env = r.
Proof.
  intros He Hi. unfold resolve_secret_env_vars, get2, get_or in *. cbn [assoc] in *. rewrite decide_True by done. cbn [mbind res_bind].
  unfold index in Hi. destruct (assoc "container" (rs_container s)) as [x|]; [|done]. injection Hi as ->. cbn [mbind res_bind] in He. by rewrite He.
Qed.

Lemma resolve_env_entries creds env r :
  resolve_env creds env = Ok r ->
  Forall2 (fun kv x => fst x = fst kv /\ resolve_env_value creds (py_str (snd kv)) = Ok (snd x)) (List.filter refers_to_secret env) r.
Proof.
  revert r. induction env as [|[k v] env IH]; intros r; cbn [resolve_env List.filter]; [by intros [= <-]|].
  unfold refers_to_secret at 1. cbn [snd]. destruct (secret_search (py_str v)); [|apply IH].
  intros (x & Hx & (rest & Hr & H)%bind_Ok_inv)%bind_Ok_inv. apply Ok_inj in H as <-. constructor; [done|by apply IH].
Qed.

Section agree.
Variable load_workload_config : string -> res table.
Variable creds_dir : option string.
Variable credentials : string -> string -> option string.
Variable getpwnam : string -> option (Z * Z).
Variable can_unlink can_open can_chown : string -> bool.

Notation write := (write_secrets_env "/run/workload-env" load_workload_config creds_dir credentials getpwnam can_unlink can_open can_chown).

(** The file of another container is not touched. *)
Lemma write_elsewhere name container config s w w' :
  has_char "/" name = false -> (forall c, container = Some c -> has_char "/" c = false) ->
  load_workload_config name = Ok config -> select_container config container = Ok (rs_container s) ->
  rs_container_name s = podman_name name container -> write name container w = (w', Ok tt) ->
  forall p, p <> "/run/workload-env/" +:+ rs_container_name s +:+ ".secrets" -> w' !! p = w !! p.
Proof.
  intros Hn Hc Hl Hs Hname H p Hp. unfold write_secrets_env, mbind, io_bind, pure in H. rewrite Hl, Hs in H.
  rewrite declares_has_secret in H. rewrite env_path_spec in H by done. rewrite <- Hname in H. set (path := "/run/workload-env/" +:+ _) in *.
  destruct (has_secret_env_vars s) as [[]|]; [| |done]; cbn [negb] in H.
  - destruct (secret_lines _ _ _) as [lines|]; [|done]. unfold write_env_file in H. destruct (can_open path); [|done].
    destruct (match w !! path with Some f => _ | None => _ end) as [mode owner]. destruct (getpwnam _); [destruct (can_chown path); [|done]|];
      injection H as <-; by rewrite !lookup_insert_ne.
  - unfold remove_stale in H. destruct (can_unlink path); injection H as <-; [by rewrite lookup_delete_ne|done].
Qed.

Lemma write_removes name container config s w w' :
  has_char "/" name = false -> (forall c, container = Some c -> has_char "/" c = false) ->
  load_workload_config name = Ok config -> select_container config container = Ok (rs_container s) ->
  rs_container_name s = podman_name name container -> write name container w = (w', Ok tt) ->
  has_secret_env_vars s = Ok false ->
  can_unlink ("/run/workload-env/" +:+ rs_container_name s +:+ ".secrets") = true ->
  w' !! ("/run/workload-env/" +:+ rs_container_name s +:+ ".secrets") = None.
Proof.
  intros Hn Hc Hl Hs Hname H Hno Hu. unfold write_secrets_env, mbind, io_bind, pure in H. rewrite Hl, Hs in H.
  rewrite declares_has_secret, Hno, env_path_spec in H by done. rewrite <- Hname in H. cbn [negb] in H. unfold remove_stale in H. rewrite Hu in H.
  injection H as <-. by rewrite lookup_delete_eq.
Qed.

Lemma write_writes name container config s w w' :
  has_char "/" name = false -> (forall c, container = Some c -> has_char "/" c = false) ->
  load_workload_config name = Ok config -> select_container config container = Ok (rs_container s) ->
  rs_container_name s = podman_name name container -> write name container w = (w', Ok tt) ->
  has_secret_env_vars s = Ok true ->
  let path := "/run/workload-env/" +:+ rs_container_name s +:+ ".secrets" in
  exists f c resolved, w' !! path = Some f /\ index (TTab (rs_container s)) "container" = Ok c /\
    resolve_secret_env_vars (credentials (default "" creds_dir)) [("container", c)] = Ok resolved /\
    (Forall (fun kv => has_char LF (fst kv) = false) resolved -> read_env_file (ef_text f) = resolved) /\
    (forall ids, getpwnam (workload_username name) = Some ids -> ef_owner f = ids) /\
    (w !! path = None -> ef_mode f = 384).
Proof.
  intros Hn Hc Hl Hs Hname H Hyes path. unfold write_secrets_env, mbind, io_bind, pure in H. rewrite Hl, Hs in H.
  rewrite declares_has_secret, Hyes, env_path_spec in H by done. rewrite <- Hname in H. fold path in H. cbn [negb] in H.
  destruct (secret_lines _ _ _) as [lines|e] eqn:El; [|done]. unfold secret_lines in El.
  do 3 apply bind_Ok_inv in El as (? & _ & El). destruct (_ && _); [done|]. apply bind_Ok_inv in El as (c & Hci & El).
  apply bind_Ok_inv in El as (resolved & Hr & El).
  unfold write_env_file in H. destruct (can_open path); [|done].
  assert (Hres : resolve_secret_env_vars (credentials (default "" creds_dir)) [("container", c)] = Ok resolved).
  { unfold catch in Hr. destruct (resolve_secret_env_vars _ _) as [r|e]; [done|]. by destruct (decide _). }
  destruct (match w !! path with Some f => _ | None => _ end) as [mode owner] eqn:Em.
  assert (exists ow, (w' = <[path := mkEnvFile (file_text lines) mode ow]> w) /\
            forall ids, getpwnam (workload_username name) = Some ids -> ow = ids) as (ow & -> & How).
  { destruct (getpwnam _) as [ids|]; [|exists owner; by inversion H].
    destruct (can_chown path); [|done]. exists ids. inversion H. rewrite insert_insert_eq. split; [done|]. by intros ? [= ->]. }
  exists (mkEnvFile (file_text lines) mode ow), c, resolved. rewrite lookup_insert_eq. cbn [ef_text ef_owner ef_mode].
  split_and!; try done. { intros Hk. by apply read_file_text. } intros Hw. rewrite Hw in Em. congruence.
Qed.

(** C31.  The secrets file is what the container's command line expects, when the names of
    the workload and of the container hold no slash, its environment is a table, the
    arguments of the environment are built for it under the name podman is to give it,
    and the helper, which selects the same container, succeeds.  If no variable of the environment refers to a
    secret, the command line has no [--env-file] and the file is gone, unless it could
    not be removed.  Otherwise the command line has one [--env-file], and it names a file
    that, if no name of a variable holds a line feed, reads line by line as exactly the
    variables that refer to a secret, in order, each with its resolved value: no value
    adds a variable.  The file is owned by the workload's user if there is one, and is
    private if it was not there before.  No other file is touched.  (A name may end in a
    line feed and still be valid.) *)
Theorem secrets_file_matches_command name container config s env args w w' :
  has_char "/" name = false -> (forall c, container = Some c -> has_char "/" c = false) ->
  load_workload_config name = Ok config -> select_container config container = Ok (rs_container s) ->
  rs_container_name s = podman_name name container ->
  get2 (rs_container s) "container" "environment" (TTab []) = Ok (TTab env) -> env_args s = Ok args ->
  write name container w = (w', Ok tt) ->
  let path := "/run/workload-env/" +:+ rs_container_name s +:+ ".secrets" in
  (forall p, p <> path -> w' !! p = w !! p) /\
  match List.filter refers_to_secret env with
  | [] => (forall a, a ∈ args -> names_env_file a = false) /\ (can_unlink path = true -> w' !! path = None)
  | secret =>
      List.filter names_env_file args = ["--env-file " +:+ dq path] /\
      exists f, w' !! path = Some f /\
        (Forall (fun kv => has_char LF (fst kv) = false) secret ->
           Forall2 (fun kv r => fst r = fst kv /\ resolve_env_value (credentials (default "" creds_dir)) (py_str (snd kv)) = Ok (snd r))
             secret (read_env_file (ef_text f))) /\
        (forall ids, getpwnam (workload_username name) = Some ids -> ef_owner f = ids) /\
        (w !! path = None -> ef_mode f = 384)
  end.
Proof.
  intros Hn Hc Hl Hs Hname He Ha H path. split; [by eapply write_elsewhere|]. pose proof (declares_secrets_env s env He) as Hd.
  pose proof (env_files_of s env args He Ha) as Hf. fold path in Hf. destruct (List.filter refers_to_secret env) as [|kv secret] eqn:Es.
  - split; [|by eapply write_removes]. intros a Hin. destruct (names_env_file a) eqn:E; [|done].
    assert (Hx : a ∈ List.filter names_env_file args) by (by apply list_elem_of_In, filter_In; split; [apply list_elem_of_In|]).
    rewrite Hf in Hx. by apply elem_of_nil in Hx.
  - split; [done|]. destruct (write_writes name container config s w w') as (f & c & resolved & Hw & Hi & Hr & Ht & Ho & Hm); try done.
    exists f. split_and!; [done| |done|done]. intros Hk. rewrite (resolve_of_env s env c _ _ He Hi) in Hr.
    pose proof (resolve_env_entries _ _ _ Hr) as H2. rewrite Es in H2. rewrite Ht; [done|].
    clear -Hk H2. revert Hk. induction H2 as [|x y l k [E _] _ IH]; intros Hk; [done|]. apply Forall_cons in Hk as [H1 H2']. constructor; [by rewrite E|by apply IH].
Qed.
End agree.

Module Token.
Definition config : table :=
  [("workload", TTab [("name", TStr "web")]);
   ("container", TTab [("image", TStr "docker.io/nginx");
                       ("environment", TTab [("PLAIN", TStr "1"); ("TOKEN", TStr "x-${SECRET:tok}")])])].
Definition entry : table := match normalize_containers config with Ok [c] => c | _ => [] end.
Definition spec : RunSpec := mkSpec config entry 10001 "web" "workload-web" MSingle.
Definition credentials (dir n : string) : option string := if String.eqb n "tok" then Some "abc" else None.
Definition getpwnam (_ : string) : option (Z * Z) := Some (10001, 10001).
Definition possible (_ : string) : bool := true.
End Token.

Lemma secrets_file_matches_command_witness :
  exists w' f, write_secrets_env "/run/workload-env" (fun _ => Ok Token.config) (Some "/run/credentials/x") Token.credentials
      Token.getpwnam Token.possible Token.possible Token.possible "web" None ∅ = (w', Ok tt) /\
    List.filter names_env_file ["--env HOST_IP=${HOST_IP}"; "--env PLAIN=" +:+ dq "1"; "--env-file " +:+ dq "/run/workload-env/workload-web.secrets"]
      = ["--env-file " +:+ dq "/run/workload-env/workload-web.secrets"] /\
    w' !! "/run/workload-env/workload-web.secrets" = Some f /\ read_env_file (ef_text f) = [("TOKEN", "x-abc")] /\
    ef_mode f = 384 /\ ef_owner f = (10001, 10001).
Proof.
  destruct (write_secrets_env "/run/workload-env" (fun _ => Ok Token.config) (Some "/run/credentials/x") Token.credentials
      Token.getpwnam Token.possible Token.possible Token.possible "web" None ∅) as [w' r] eqn:E.
  destruct r as [[]|e]; [|vm_compute in E; discriminate E].
  destruct (secrets_file_matches_command (fun _ => Ok Token.config) (Some "/run/credentials/x") Token.credentials Token.getpwnam
              Token.possible Token.possible Token.possible "web" None Token.config Token.spec
              [("PLAIN", TStr "1"); ("TOKEN", TStr "x-${SECRET:tok}")]
              ["--env HOST_IP=${HOST_IP}"; "--env PLAIN=" +:+ dq "1"; "--env-file " +:+ dq "/run/workload-env/workload-web.secrets"] ∅ w') as (_ & H);
    [reflexivity|done|reflexivity|reflexivity|reflexivity|vm_compute; reflexivity|vm_compute; reflexivity|exact E|].
  destruct H as (Ha & f & Hf & Ht & Ho & Hm). exists w', f. split_and!; [done|exact Ha|exact Hf| |by apply Hm|by apply Ho].
  assert (Hk : Forall2 (fun (kv : string * tv) (r : string * string) => fst r = fst kv /\
    resolve_env_value (Token.credentials "/run/credentials/x") (py_str (snd kv)) = Ok (snd r)) [("TOKEN", TStr "x-${SECRET:tok}")] (read_env_file (ef_text f)))
    by (apply Ht; by constructor).
  inversion Hk as [|? [k v] ? l [E1 E2] H2 ]; subst. inversion H2; subst. cbn in E1. subst k. vm_compute in E2. injection E2 as <-. reflexivity.
Defined.
