(* ===== verification/GenRun.v ===== *)
(** * One run of the generator: [lib/gen_run.py]

    The command line, the loop over the bundles with the checks each passes before
    anything is written for it, the uid its user has or is given, and the starts
    enqueued at the end.

    The substrates' generators and the validator are behind the interface [Emitters],
    whose law [EmitterLaws] says where the generators write; the instance at the
    end is that of the other files.  Parameters: the bundles found, the
    password database, the lock file, what the allocator of uids reads, and the
    outcome of [systemctl]. *)
From S2P Require Import Prelude PyStr PyPath Toml WorkloadUid WorkloadNames WorkloadConfig NetworkConfig BrokerConfig.
From S2P Require Import ContainerValidate VmValidate RunArgs GenCommon GenContainer GenReadback GenFiles GenVm.
Local Open Scope Z_scope.

Definition LIVE_SERVICES_DIR : string := "/run/systemd/system".

(** ** The command line *)

Fixpoint parse_args_from (only : option string) (no_start : bool) (positional : list string) (args : list string)
    : option string * option string * bool :=
  match args with
  | [] => (head positional, only, no_start)
  | a :: rest =>
      let other := if starts_with "--workload=" a then parse_args_from (Some (str_drop 11 a)) no_start positional rest
                   else if String.eqb a "--no-start" then parse_args_from only true positional rest
                   else parse_args_from only no_start (positional ++ [a]) rest in
      if String.eqb a "--workload" then
        match rest with
        | n :: rest' => parse_args_from (Some n) no_start positional rest'
        | [] => other
        end
      else other
  end.

(** Output directory, workload, no start. *)
Definition parse_args (args : list string) : option string * option string * bool := parse_args_from None false [] args.

(** ** The world of a run *)

(** The files written, the uids this process has handed out, and the commands run. *)
Record gen_world := mkGen { gw_files : files; gw_alloc : gset Z; gw_ran : list (list string) }.

Definition on_files {A} (m : io files A) : io gen_world A := fun w =>
  let '(f, r) := m (gw_files w) in (mkGen f (gw_alloc w) (gw_ran w), r).

(** A bundle: its directory's name, its marker, and its configuration as read. *)
Record bundle := mkBundle { b_dir : string; b_enabled : bool; b_toml : res table }.

(** What the loop calls, given the output directories. *)
Class Emitters := {
  emit_vm : string -> string -> table -> string -> Z -> io files string;
  emit_container : string -> string -> table -> string -> Z -> io files bool;
  validate_config : table -> res (list workload_error) }.

Section run.
Context `{Emitters}.
Variable env_dir : string.
Variable writable : pypath -> bool.
Variable config_dir_exists can_mkdir : bool.
Variable bundles : list bundle.
Variable getpwnam : string -> option Z.
Variable lock_file : open_outcome.
Variable uid_host : files -> host.
(** The exit status, or [None] when the call raises. *)
Variable systemctl : list string -> option Z.

(** ** References between workloads *)

Definition enabled_name (b : bundle) : option tv :=
  if b_enabled b then
    match (config ← b_toml b; w ← get_or (TTab config) "workload" (TTab []); get_or w "name" (TStr "")) with
    | Ok n => if truthy n && match n with TArr _ | TTab _ => false | _ => true end then Some n else None
    | Raise _ => None
    end
  else None.

Definition enabled_workload_names : list tv := omap enabled_name bundles.

(** The references a warning is logged for; a list or a table is not hashable. *)
Definition unknown_refs (names : list tv) (meta : tv) (dep_key : string) : res (list tv) :=
  v ← get_or meta dep_key (TArr []);
  deps ← iter v;
  found ← mapM_res (fun d => match d with
                             | TArr _ | TTab _ => Raise TypeError
                             | _ => Ok (d, existsb (fun n => String.eqb (py_repr n) (py_repr d)) names)
                             end) deps;
  Ok (map fst (List.filter (fun x => negb (snd x)) found)).

(** ** Uids *)

Section dirs.
Variable services_dir sysusers_dir : string.

Definition pin_uid_file (config : table) (name user_name : string) (uid : Z) (is_vm : bool) : io files unit :=
  paths ← pure (emitted_run_paths env_dir services_dir sysusers_dir (mkView config name (Some uid) is_vm None));
  p ← pure (dest paths "sysusers" "sysusers");
  content ← pure (if is_vm then generate_sysuser_config_vm config user_name uid else generate_sysuser_config config user_name uid);
  write_text writable p content.

Definition claim (name : string) : io gen_world Z := fun w =>
  match claim_uid (gw_alloc w) (uid_host (gw_files w)) name with
  | Ok (uid, _, al) => (mkGen (gw_files w) al (gw_ran w), Ok uid)
  | Raise e => (w, Raise e)
  end.

Definition resolve_workload_uid (config : table) (name user_name : string) (is_vm : bool) : io gen_world Z :=
  match getpwnam user_name with
  | Some uid => mret uid
  | None =>
      _ ← pure (subid_lock_enter lock_file (mkLock 0 false));
      uid ← claim name;
      _ ← on_files (pin_uid_file config name user_name uid is_vm);
      mret uid
  end.

(** ** One bundle *)

(** What is done for a bundle that passed the checks. *)
Definition emit_workload (config : table) (name : string) : io gen_world (option string) :=
  let is_vm := bool_decide (infer_workload_kind config = KVm) in
  let user_name := workload_username name in
  uid ← resolve_workload_uid config name user_name is_vm;
  if is_vm then
    _ ← on_files (emit_vm services_dir sysusers_dir config user_name uid); mret (Some name)
  else
    ok ← on_files (emit_container services_dir sysusers_dir config user_name uid);
    mret (if ok : bool then Some name else None).

Definition generate_workload (names : list tv) (b : bundle) : io gen_world (option string) :=
  config ← pure (b_toml b);
  if negb (b_enabled b) then mret None
  else
    named ← pure (if negb (has_key "workload" config) then Ok false
                  else w ← get_or (TTab config) "workload" (TTab []); contains_key "name" w);
    if negb (named : bool) then mret None
    else
      meta ← pure (index (TTab config) "workload");
      n ← pure (index meta "name");
      if negb (is_the_str (Some n) (b_dir b)) then mret None
      else
        let name := b_dir b in
        errors ← pure (validate_config config);
        if nonempty errors then mret None
        else
          _ ← pure (unknown_refs names meta "requires");
          _ ← pure (unknown_refs names meta "after");
          emit_workload config name.

(** The loop: a bundle that raises is logged and the next one is processed. *)
Fixpoint process (names : list tv) (bs : list bundle) (written : list string) : io gen_world (list string) :=
  match bs with
  | [] => mret written
  | b :: bs =>
      n ← try_io (generate_workload names b) (fun _ => true) (fun _ => mret None);
      process names bs (match n with Some n => if String.eqb n "" then written else written ++ [n] | None => written end)
  end.

(** ** Starts *)

Definition ran (cmd : list string) : io gen_world (option Z) := fun w =>
  (mkGen (gw_files w) (gw_alloc w) (gw_ran w ++ [cmd]), Ok (systemctl cmd)).

Definition start_command (units : list string) : list string := ["systemctl"; "start"; "--no-block"] ++ units.

Definition enqueue_starts (names : list string) : io gen_world unit :=
  let units := map (fun n => "workload-" +:+ n +:+ ".service") names in
  if negb (nonempty units) then mret tt
  else
    rc ← ran (start_command units);
    if bool_decide (rc = Some 0) then mret tt
    else for_io (fun u => _ ← ran (start_command [u]); mret tt) units.

Definition selected (only : option string) : list bundle :=
  match only with
  | Some n => if String.eqb n "" then bundles else List.filter (fun b => String.eqb (b_dir b) n) bundles
  | None => bundles
  end.

Definition generate_all (only : option string) (no_start : bool) : io gen_world unit :=
  if negb config_dir_exists then mret tt
  else
    _ ← pure (if can_mkdir then Ok tt else Raise OSError);
    let names := enabled_workload_names in
    written ← process names (selected only) [];
    if bool_decide (path_of services_dir = path_of LIVE_SERVICES_DIR) && nonempty written && negb no_start then
      _ ← ran ["systemctl"; "daemon-reload"];
      enqueue_starts written
    else mret tt.
End dirs.

(** The whole run; [sysusers_env] is $SYSUSERS_DIR. *)
Definition run (sysusers_env : option string) (args : list string) : io gen_world Z :=
  let '(output_dir, only, no_start) := parse_args args in
  let services := default LIVE_SERVICES_DIR output_dir in
  let sysusers := match sysusers_env with Some d => if String.eqb d "" then services else d | None => services end in
  _ ← try_io (generate_all services sysusers only no_start) (fun _ => true) (fun _ => mret tt);
  mret 0.
End run.

(** ** Where a run writes *)

(** What the generators of a workload write: its sysusers file and its inventory. *)
Definition workload_view (config : table) (name : string) (uid : Z) : res RunFileConfig :=
  if bool_decide (infer_workload_kind config = KVm) then Ok (mkView config name (Some uid) true None)
  else m ← infer_workload_mode config; Ok (mkView config name (Some uid) false (Some m)).

Definition sysusers_conf (sysusers_dir name : string) : pypath :=
  path_join (path_of sysusers_dir) (parts_of ("workload-" +:+ name +:+ ".conf")).

Definition inventory (env_dir services_dir sysusers_dir : string) (config : table) (name : string) (uid : Z) : list string :=
  path_str (sysusers_conf sysusers_dir name) ::
  match (vw ← workload_view config name uid; emitted_run_paths env_dir services_dir sysusers_dir vw) with
  | Ok paths => path_strings paths
  | Raise _ => []
  end.

(** What the generators promise. *)
Class EmitterLaws `{Emitters} (env_dir : string) : Prop := {
  emit_vm_local services sysusers config user_name uid name w :
    config_name config = Ok name -> infer_workload_kind config = KVm ->
    agree_off (inventory env_dir services sysusers config name uid) w (fst (emit_vm services sysusers config user_name uid w));
  emit_container_local services sysusers config user_name uid name w :
    config_name config = Ok name -> infer_workload_kind config <> KVm ->
    agree_off (inventory env_dir services sysusers config name uid) w (fst (emit_container services sysusers config user_name uid w)) }.

Lemma drop_prefix_app l k : drop_prefix l (l ++ k) = Some k.
Proof. induction l as [|x l IH]; [done|]. cbn [app drop_prefix]. by rewrite decide_True. Qed.

Lemma pin_dest env_dir services sysusers vw paths :
  emitted_run_paths env_dir services sysusers vw = Ok paths ->
  dest paths "sysusers" "sysusers" = Ok (sysusers_conf sysusers (vw_name vw)).
Proof.
  unfold emitted_run_paths, workload_run_files. intros (fs & H & Hp)%bind_Ok_inv.
  do 3 apply bind_Ok_inv in H as (? & _ & H). apply Ok_inj in H as <-. cbn [app List.filter emitted_of] in Hp.
  match type of Hp with context [if ?b then _ else _] => change b with true in Hp end.
  cbn [mapM_res] in Hp. apply bind_Ok_inv in Hp as (y & Hy & Hp). apply bind_Ok_inv in Hp as (ys & _ & <-%Ok_inj).
  apply bind_Ok_inv in Hy as (r & Hr & <-%Ok_inj). unfold dest, dests. cbn [rf_kind rf_role omap list_omap].
  change (String.eqb "sysusers" "sysusers") with true. cbn [andb]. unfold sysusers_conf. repeat f_equal.
  unfold relative_to in Hr. cbn [rf_path] in Hr. unfold path_div in Hr.
  destruct (decide (root (path_of (("workload-" +:+ vw_name vw) +:+ ".conf")) = "")) as [_|Hn];
    [|by destruct Hn; apply root_of_no_slash]. cbn [root parts] in Hr. rewrite decide_True in Hr by done.
  rewrite drop_prefix_app in Hr. apply Ok_inj in Hr as <-. cbn [path_of parts]. by rewrite app_assoc_str.
Qed.

(** Agreement except at the paths of a property. *)
Definition agree_unless (P : string -> Prop) (w w' : files) : Prop := forall q, ~ P q -> w' !! q = w !! q.

Section proofs.
Context `{EmitterLaws}.
Variable writable : pypath -> bool.
Variable config_dir_exists can_mkdir : bool.
Variable bundles : list bundle.
Variable getpwnam : string -> option Z.
Variable lock_file : open_outcome.
Variable uid_host : files -> host.
Variable systemctl : list string -> option Z.
Variable services sysusers : string.

(** A bundle the generator may write for, and its configuration. *)
Record eligible (b : bundle) (config : table) : Prop := {
  el_enabled : b_enabled b = true;
  el_toml : b_toml b = Ok config;
  el_name : config_name config = Ok (b_dir b);
  el_valid : validate_config config = Ok [] }.

(** The paths of the eligible bundles of a list. *)
Definition owned (bs : list bundle) (p : string) : Prop :=
  exists b config uid, b ∈ bs /\ eligible b config /\ p ∈ inventory env_dir services sysusers config (b_dir b) uid.

Variable P : string -> Prop.
Variable f0 : files.
Variable ran0 : list (list string).

Definition safe (w : gen_world) : Prop := agree_unless P f0 (gw_files w) /\ gw_ran w = ran0.

Lemma on_files_safe {A} (m : io files A) (ps : list string) :
  (forall w, agree_off ps w (fst (m w))) -> (forall p, p ∈ ps -> P p) -> keeps safe (on_files m).
Proof.
  intros Hm Hp w [Hw Hr]. unfold on_files. specialize (Hm (gw_files w)). destruct (m (gw_files w)) as [f r]. cbn [fst snd] in *.
  split; [|done]. intros q Hq. cbn [gw_files]. rewrite Hm; [by apply Hw|]. intros Hin. by apply Hq, Hp.
Qed.

Lemma pin_local config name user_name uid is_vm w :
  agree_off [path_str (sysusers_conf sysusers name)] w
    (fst (pin_uid_file env_dir writable services sysusers config name user_name uid is_vm w)).
Proof.
  unfold pin_uid_file, mbind, io_bind, pure.
  destruct (emitted_run_paths _ _ _ _) as [paths|] eqn:E; [|done]. rewrite (pin_dest _ _ _ _ _ E). cbn [vw_name].
  destruct (if is_vm then _ else _) as [text|]; [|done]. unfold write_text. destruct (writable _); [|done].
  intros q Hq. cbn [fst]. apply lookup_insert_ne. intros <-. apply Hq. by left.
Qed.

Lemma claim_safe name : keeps safe (claim uid_host name).
Proof. intros w Hw. unfold claim. by destruct (claim_uid _ _ _) as [[[uid ?] al]|e]. Qed.

Lemma resolve_safe config name is_vm :
  P (path_str (sysusers_conf sysusers name)) ->
  keeps safe (resolve_workload_uid env_dir writable getpwnam lock_file uid_host services sysusers config name
                (workload_username name) is_vm).
Proof.
  intros Hp. unfold resolve_workload_uid. destruct (getpwnam _); [apply keeps_ret|].
  apply keeps_pure_bind. intros _ _. apply keeps_bind; [apply claim_safe|]. intros uid.
  apply keeps_bind; [|intros _; apply keeps_ret]. eapply on_files_safe; [intros w; apply pin_local|].
  intros p ->%list_elem_of_singleton. done.
Qed.

(** A bundle that is not eligible is left alone; for an eligible one the files are
    made, unless one of its references cannot be read. *)
Lemma generate_workload_cases names b w :
  (exists r, generate_workload env_dir writable getpwnam lock_file uid_host services sysusers names b w = (w, r) /\
             forall n, r <> Ok (Some n)) \/
  exists config, eligible b config /\
    generate_workload env_dir writable getpwnam lock_file uid_host services sysusers names b w =
    emit_workload env_dir writable getpwnam lock_file uid_host services sysusers config (b_dir b) w.
Proof.
  unfold generate_workload, mbind, io_bind, pure.
  destruct (b_toml b) as [config|e] eqn:Et; [|left; by eexists]. destruct (b_enabled b) eqn:Ee; cbn [negb]; [|left; by eexists].
  destruct (if negb _ then _ else _) as [named|e]; [|left; by eexists]. destruct named; cbn [negb]; [|left; by eexists].
  destruct (index (TTab config) "workload") as [meta|e] eqn:Em; [|left; by eexists].
  destruct (index meta "name") as [n|e] eqn:En; [|left; by eexists].
  destruct (is_the_str (Some n) (b_dir b)) eqn:Ed; cbn [negb]; [|left; by eexists].
  destruct (validate_config config) as [errors|e] eqn:Ev; [|left; by eexists].
  destruct errors as [|er errors]; cbn [nonempty]; [|left; by eexists].
  destruct (unknown_refs names meta "requires"); [|left; by eexists].
  destruct (unknown_refs names meta "after"); [|left; by eexists].
  right. exists config. split; [|done]. split; try done. unfold config_name. rewrite Em. cbn [mbind res_bind]. rewrite En.
  cbn [mbind res_bind]. destruct n as [x| | | | |]; cbn [is_the_str] in Ed; try done. by apply String.eqb_eq in Ed as ->.
Qed.

Lemma emit_workload_safe config name :
  config_name config = Ok name -> (forall uid p, p ∈ inventory env_dir services sysusers config name uid -> P p) ->
  keeps safe (emit_workload env_dir writable getpwnam lock_file uid_host services sysusers config name).
Proof.
  intros Hn HP. unfold emit_workload. cbv zeta. apply keeps_bind.
  { apply resolve_safe, (HP 0). by left. }
  intros uid. destruct (bool_decide (infer_workload_kind config = KVm)) eqn:Ek.
  - apply bool_decide_eq_true in Ek. apply keeps_bind; [|intros _; apply keeps_ret].
    eapply on_files_safe; [|apply (HP uid)]. intros w. by apply emit_vm_local.
  - apply bool_decide_eq_false in Ek. apply keeps_bind; [|intros ok; apply keeps_ret].
    eapply on_files_safe; [|apply (HP uid)]. intros w. by apply emit_container_local.
Qed.

Lemma emit_workload_name config name w w' n :
  emit_workload env_dir writable getpwnam lock_file uid_host services sysusers config name w = (w', Ok (Some n)) -> n = name.
Proof.
  unfold emit_workload. cbv zeta. intros (w1 & uid & _ & H1)%io_bind_Ok. destruct (bool_decide _).
  - apply io_bind_Ok in H1 as (w2 & ? & _ & H1). inversion H1. done.
  - apply io_bind_Ok in H1 as (w2 & ok & _ & H1). destruct ok; by inversion H1.
Qed.

(** ** The loop *)

(** What a bundle's step answered: the name it wrote, if it did. *)
Definition answered (r : res (option string)) : option string :=
  match r with Ok (Some n) => if String.eqb n "" then None else Some n | _ => None end.

(** Each bundle was processed, in some world of the run, and gave this answer. *)
Definition processed (names : list tv) (b : bundle) (o : option string) : Prop :=
  exists w w' r, generate_workload env_dir writable getpwnam lock_file uid_host services sysusers names b w = (w', r) /\
    o = answered r /\ (forall n, o = Some n -> n = b_dir b /\ exists config, eligible b config).

Lemma step_safe names b w :
  (forall p, owned [b] p -> P p) -> safe w ->
  let '(w', r) := generate_workload env_dir writable getpwnam lock_file uid_host services sysusers names b w in
  safe w' /\ processed names b (answered r).
Proof.
  intros HP Hw. destruct (generate_workload _ _ _ _ _ _ _ _ _ _) as [w' r] eqn:E.
  destruct (generate_workload_cases names b w) as [(r' & E' & Hr)|(config & He & E')]; rewrite E in E'.
  - inversion E'; subst w' r'. split; [done|]. exists w, w, r. split_and!; [done..|]. intros n Hn.
    destruct r as [[m|]|]; try done. by destruct (Hr m).
  - symmetry in E'. destruct He as [H1 H2 H3 H4]. pose proof (Build_eligible b config H1 H2 H3 H4) as He.
    pose proof (emit_workload_safe config (b_dir b) H3) as Hs.
    assert (safe w') as Hw'.
    { specialize (Hs (fun uid p Hp => HP p (ex_intro _ b (ex_intro _ config (ex_intro _ uid
        (conj (list_elem_of_here _ _) (conj He Hp)))))) w Hw). by rewrite E' in Hs. }
    split; [done|]. exists w, w', r. split_and!; [done..|]. intros n Hn. destruct r as [[m|]|]; try done.
    apply emit_workload_name in E' as ->. cbn [answered] in Hn. destruct (String.eqb _ ""); [done|].
    apply (inj Some) in Hn as <-. eauto.
Qed.

(** The loop keeps off every path of other bundles, and its answer is the list of
    its bundles' answers. *)
Lemma process_safe names bs written w :
  (forall p, owned bs p -> P p) -> safe w ->
  exists w' os, process env_dir writable getpwnam lock_file uid_host services sysusers names bs written w =
    (w', Ok (written ++ omap id os)) /\ safe w' /\ Forall2 (processed names) bs os.
Proof.
  revert written w. induction bs as [|b bs IH]; intros written w HP Hw.
  { exists w, []. cbn [omap list_omap]. rewrite app_nil_r. split_and!; [done..|constructor]. }
  pose proof (step_safe names b w) as Hs. destruct (generate_workload _ _ _ _ _ _ _ _ _ _) as [w1 r] eqn:E.
  destruct Hs as [Hw1 Hb]; [|done|].
  { intros p (b' & config & uid & ->%list_elem_of_singleton & Hp). apply HP. exists b, config, uid. split; [by left|done]. }
  set (o := answered r) in *.
  set (next := match (match r with Ok o => o | Raise _ => None end) with
               | Some n => if String.eqb n "" then written else written ++ [n] | None => written end).
  destruct (IH next w1) as (w' & os & Ep & Hw' & Hos); [|done|].
  { intros p (b' & config & uid & Hin & Hp). apply HP. exists b', config, uid. split; [by right|done]. }
  exists w', (o :: os). split_and!; [|done|by constructor].
  assert (Hn : next = written ++ omap id [o]).
  { unfold next, o, answered. destruct r as [[n|]|]; cbn [omap list_omap]; try by rewrite app_nil_r.
    destruct (String.eqb n ""); cbn; [by rewrite app_nil_r|done]. }
  cbn [process]. unfold mbind, io_bind, try_io. rewrite E.
  assert (Hgoal : process env_dir writable getpwnam lock_file uid_host services sysusers names bs next w1 =
                  (w', Ok (written ++ omap id (o :: os)))).
  { rewrite Ep, Hn. change (o :: os) with ([o] ++ os). by rewrite omap_app, app_assoc. }
  destruct r as [a|e]; exact Hgoal.
Qed.
End proofs.

(** ** The whole run *)

Definition unit_names (names : list string) : list string := map (fun n => "workload-" +:+ n +:+ ".service") names.

(** The commands of [enqueue_starts]. *)
Definition start_commands (systemctl : list string -> option Z) (names : list string) : list (list string) :=
  let batch := start_command (unit_names names) in
  if negb (nonempty names) then []
  else batch :: (if bool_decide (systemctl batch = Some 0) then [] else map (fun u => start_command [u]) (unit_names names)).

Definition add_ran (w : gen_world) (cmds : list (list string)) : gen_world := mkGen (gw_files w) (gw_alloc w) (gw_ran w ++ cmds).

Lemma add_ran_ran w a b : add_ran (add_ran w a) b = add_ran w (a ++ b).
Proof. unfold add_ran. cbn [gw_files gw_alloc gw_ran]. by rewrite app_assoc. Qed.

Lemma io_step {W A B} (m : io W A) (f : A -> io W B) w w1 a : m w = (w1, Ok a) -> (x ← m; f x) w = f a w1.
Proof. intros Hm. unfold mbind, io_bind. by rewrite Hm. Qed.

Lemma ran_step systemctl cmd w : ran systemctl cmd w = (add_ran w [cmd], Ok (systemctl cmd)).
Proof. done. Qed.

Lemma for_ran systemctl units w :
  for_io (fun u => _ ← ran systemctl (start_command [u]); mret tt) units w =
  (add_ran w (map (fun u => start_command [u]) units), Ok tt).
Proof.
  revert w. induction units as [|u units IH]; intros w.
  { unfold add_ran. cbn [map for_io]. rewrite app_nil_r. by destruct w. }
  cbn [for_io map]. rewrite (io_step _ _ _ (add_ran w [start_command [u]]) tt) by done. by rewrite IH, add_ran_ran.
Qed.

Lemma enqueue_starts_ran systemctl names w :
  enqueue_starts systemctl names w = (add_ran w (start_commands systemctl names), Ok tt).
Proof.
  unfold enqueue_starts, start_commands. destruct names as [|n names]; cbn [nonempty negb].
  { unfold add_ran. cbn. rewrite app_nil_r. by destruct w. }
  cbn [map nonempty negb]. fold (unit_names names).
  change (("workload-" +:+ n +:+ ".service") :: unit_names names) with (unit_names (n :: names)).
  rewrite (io_step _ _ _ _ _ (ran_step systemctl (start_command (unit_names (n :: names))) w)).
  destruct (bool_decide _); [done|]. by rewrite for_ran, add_ran_ran.
Qed.

Section whole.
Context `{EmitterLaws}.
Variable writable : pypath -> bool.
Variable bundles : list bundle.
Variable getpwnam : string -> option Z.
Variable lock_file : open_outcome.
Variable uid_host : files -> host.
Variable systemctl : list string -> option Z.

Notation generate := (generate_all env_dir writable true true bundles getpwnam lock_file uid_host systemctl).

Definition live_start (services : string) (no_start : bool) : bool :=
  bool_decide (path_of services = path_of LIVE_SERVICES_DIR) && negb no_start.

Lemma generate_all_outcome services sysusers only no_start w :
  exists w1 os,
    Forall2 (processed (env_dir := env_dir) writable getpwnam lock_file uid_host services sysusers (enabled_workload_names bundles))
      (selected bundles only) os /\
    agree_unless (owned (env_dir := env_dir) services sysusers (selected bundles only)) (gw_files w) (gw_files w1) /\ gw_ran w1 = gw_ran w /\
    generate services sysusers only no_start w =
    (add_ran w1 (if live_start services no_start && nonempty (omap id os)
                 then ["systemctl"; "daemon-reload"] :: start_commands systemctl (omap id os) else []), Ok tt).
Proof.
  destruct (process_safe writable getpwnam lock_file uid_host services sysusers
              (owned (env_dir := env_dir) services sysusers (selected bundles only)) (gw_files w) (gw_ran w) (enabled_workload_names bundles)
              (selected bundles only) [] w) as (w1 & os & Ep & [Ha Hr] & Hos); [done|by split|].
  exists w1, os. split_and!; [done..|]. unfold generate_all. cbn [negb]. cbv zeta.
  rewrite (io_step _ _ _ w tt), (io_step _ _ _ _ _ Ep) by done. cbn [app]. unfold live_start.
  rewrite <- andb_assoc, (andb_comm (nonempty _)), andb_assoc.
  destruct (_ && nonempty (omap id os)).
  - by rewrite (io_step _ _ _ _ _ (ran_step systemctl _ w1)), enqueue_starts_ran, add_ran_ran.
  - unfold add_ran. rewrite app_nil_r. by destruct w1.
Qed.

(** The bundles a command line asks for: all, or the one it names. *)
Definition asked (only : option string) (b : bundle) : bool :=
  match only with Some n => String.eqb n "" || String.eqb (b_dir b) n | None => true end.

Lemma selected_asked only : selected bundles only = List.filter (asked only) bundles.
Proof.
  assert (Hall : forall l, List.filter (fun _ : bundle => true) l = l) by (intros l; induction l; cbn; by f_equal).
  unfold asked. destruct only as [n|]; cbn [selected]; [|by rewrite Hall].
  destruct (String.eqb n ""); cbn [orb]; [by rewrite Hall|done].
Qed.

(** The directories and the options of a command line. *)
Definition services_of (args : list string) : string := default LIVE_SERVICES_DIR (fst (fst (parse_args args))).
Definition sysusers_of (sysusers_env : option string) (args : list string) : string :=
  match sysusers_env with Some d => if String.eqb d "" then services_of args else d | None => services_of args end.
Definition only_of (args : list string) : option string := snd (fst (parse_args args)).
Definition no_start_of (args : list string) : bool := snd (parse_args args).

Notation run_generator := (run env_dir writable true true bundles getpwnam lock_file uid_host systemctl).

Lemma run_outcome env args w :
  let services := services_of args in let sysusers := sysusers_of env args in let only := only_of args in
  exists w1 os,
    Forall2 (processed (env_dir := env_dir) writable getpwnam lock_file uid_host services sysusers (enabled_workload_names bundles))
      (selected bundles only) os /\
    agree_unless (owned (env_dir := env_dir) services sysusers (selected bundles only)) (gw_files w) (gw_files w1) /\ gw_ran w1 = gw_ran w /\
    run_generator env args w =
    (add_ran w1 (if live_start services (no_start_of args) && nonempty (omap id os)
                 then ["systemctl"; "daemon-reload"] :: start_commands systemctl (omap id os) else []), Ok 0).
Proof.
  cbv zeta. destruct (generate_all_outcome (services_of args) (sysusers_of env args) (only_of args) (no_start_of args) w)
    as (w1 & os & Hos & Ha & Hr & E).
  exists w1, os. split_and!; [done..|]. unfold run, sysusers_of, services_of, only_of, no_start_of in *.
  destruct (parse_args args) as [[output only] no_start]. cbn [fst snd] in *.
  erewrite io_step; [reflexivity|]. unfold try_io. by rewrite E.
Qed.

(** C5.  A run touches only what it was asked to.  Whatever fails, every path under
    which a file changes is in the inventory (for some uid) of a bundle that is enabled,
    whose configuration has no errors and names the bundle's own directory, and, when
    one workload is asked for, that is the bundle of this name.  Jobs are started for
    such bundles only, and none at all with --no-start or when the output is not the
    live directory.  (Two workloads' inventories can share a path, so this does not say
    that another workload's units stay: [container_takes_anothers_main_unit].) *)
Theorem run_touches_only_selected env args w w' r :
  run_generator env args w = (w', r) ->
  let services := services_of args in let sysusers := sysusers_of env args in
  (forall p, ~ owned (env_dir := env_dir) services sysusers (List.filter (asked (only_of args)) bundles) p -> gw_files w' !! p = gw_files w !! p) /\
  exists cmds, gw_ran w' = gw_ran w ++ cmds /\
    (live_start services (no_start_of args) = false -> cmds = []) /\
    Forall (fun c => c = ["systemctl"; "daemon-reload"] \/
              exists names, c = start_command (unit_names names) /\
                Forall (fun n => exists b config, b ∈ List.filter (asked (only_of args)) bundles /\ b_dir b = n /\ eligible b config) names) cmds.
Proof.
  intros E services sysusers. destruct (run_outcome env args w) as (w1 & os & Hos & Ha & Hr & E').
  rewrite selected_asked in Hos, Ha.
  rewrite E in E'. inversion E'; subst w' r. clear E E'. split; [exact Ha|]. cbn [add_ran gw_ran]. rewrite Hr.
  eexists. split; [reflexivity|]. fold services. split; [by intros ->|].
  assert (Hn : Forall (fun n => exists b config, b ∈ List.filter (asked (only_of args)) bundles /\ b_dir b = n /\ eligible b config) (omap id os)).
  { apply Forall_forall. intros n (o & Ho & Hid)%list_elem_of_omap. destruct o as [m|]; [|done]. apply (inj Some) in Hid as ->.
    apply list_elem_of_lookup in Ho as [i Hi]. destruct (Forall2_lookup_r _ _ _ _ _ Hos Hi) as (b & Hb & w2 & w3 & r' & _ & _ & Hp).
    destruct (Hp n eq_refl) as [-> [config He]]. exists b, config. split_and!; [by eapply list_elem_of_lookup_2|done..]. }
  destruct (_ && _); [|constructor]. constructor; [by left|]. unfold start_commands. destruct (nonempty (omap id os)); [|constructor].
  cbn [negb]. constructor; [right; by eexists|]. destruct (bool_decide _); [constructor|]. apply Forall_map, Forall_map.
  eapply Forall_impl; [exact Hn|]. intros n Hx. right. exists [n]. split; [done|]. by constructor.
Qed.

(** No bundle keeps another from being generated: the run always ends
    with status 0, every selected bundle is processed whatever happened to the
    others, and in the live directory each one that answered with its name has a start
    enqueued with those of all the others, and once more on its own when the
    common request was refused. *)
Theorem every_bundle_is_processed env args w :
  exists w' os, run_generator env args w = (w', Ok 0) /\
    Forall2 (processed (env_dir := env_dir) writable getpwnam lock_file uid_host (services_of args) (sysusers_of env args) (enabled_workload_names bundles))
      (List.filter (asked (only_of args)) bundles) os /\
    (live_start (services_of args) (no_start_of args) = true -> forall n, Some n ∈ os ->
       start_command (unit_names (omap id os)) ∈ gw_ran w' /\
       (systemctl (start_command (unit_names (omap id os))) <> Some 0 -> start_command (unit_names [n]) ∈ gw_ran w')).
Proof.
  destruct (run_outcome env args w) as (w1 & os & Hos & _ & _ & E).
  rewrite selected_asked in Hos. eexists _, os. split; [exact E|]. split; [done|].
  intros Hl n Hn. rewrite Hl. assert (Hin : n ∈ omap id os) by (apply list_elem_of_omap; by exists (Some n)).
  destruct (nonempty (omap id os)) eqn:En; [|destruct (omap id os); [by apply not_elem_of_nil in Hin|done]].
  cbn [andb add_ran gw_ran]. unfold start_commands. rewrite En. cbn [negb]. split.
  - apply elem_of_app. right. right. by left.
  - intros Hs. rewrite bool_decide_eq_false_2 by done. apply elem_of_app. right. right. right.
    apply list_elem_of_fmap. exists ("workload-" +:+ n +:+ ".service"). split; [done|].
    apply list_elem_of_fmap. by exists n.
Qed.
End whole.

(** ** The generators are emitters *)

Section emitters.
Variable writable : pypath -> bool.
Variable version : string.
Variable planes : list (Z * Z).
Variable leaf_dir denial_dir : string -> string.
Variable resolv_conf : option string.
Variable getaddrinfo : string -> res (list string).
Variable config_dir env_dir : string.
Variable getgrnam : string -> option Z.
Variable float_percent : string -> option string.
Variable float_trunc : string -> res Z.
Variable ca_cert_path : string -> string.
Variable resolve_path : string -> option string.
Variable path_kind : string -> path_type.
Variable gpu_override : option string.
Variable cards : list card.
Variable render_derived_profile : list string -> res string.
Variable md5 : string -> list Z.
Variable file_exists : string -> bool.
Variable validate : table -> res (list workload_error).

Definition generators : Emitters := {|
  emit_vm services sysusers := generate_vm_workload version services sysusers env_dir md5 file_exists resolve_path planes leaf_dir
                                 denial_dir resolv_conf getaddrinfo writable;
  emit_container services sysusers := generate_container_workload writable version planes leaf_dir denial_dir resolv_conf getaddrinfo
                                        config_dir env_dir services sysusers getgrnam float_percent float_trunc ca_cert_path
                                        resolve_path path_kind gpu_override cards render_derived_profile;
  validate_config := validate |}.

Lemma agree_off_cons p ps w w' : agree_off ps w w' -> agree_off (p :: ps) w w'.
Proof. intros H q Hq. apply H. intros Hin. apply Hq. by right. Qed.

#[export] Instance generator_laws : @EmitterLaws generators env_dir.
Proof.
  split; intros services sysusers config user_name uid name w Hn Hk; apply agree_off_cons; cbn [emit_vm emit_container generators];
    unfold workload_view.
  - rewrite bool_decide_eq_true_2 by done. cbn [mbind res_bind].
    destruct (emitted_run_paths _ _ _ _) as [paths|e] eqn:E; [by apply (vm_workload_off _ _ _ _ _ _ _ _ _ _ _ _ _ _ _ _ name)|].
    unfold generate_vm_workload, mbind, io_bind, pure. rewrite Hn, E. by repeat destruct (get_or _ _ _).
  - rewrite bool_decide_eq_false_2 by done. destruct (infer_workload_mode config) as [m|e] eqn:Em; cbn [mbind res_bind].
    + destruct (emitted_run_paths _ _ _ _) as [paths|e] eqn:E;
        [by apply (container_workload_off _ _ _ _ _ _ _ _ _ _ _ _ _ _ _ _ _ _ _ _ _ _ _ name m)|].
      unfold generate_container_workload, mbind, io_bind, pure. by rewrite Hn, Em, E.
    + unfold generate_container_workload, mbind, io_bind, pure. by rewrite Hn, Em.
Qed.
End emitters.

(** ** A concrete run *)

Module Boot.
Definition web : bundle := mkBundle "web" true (Ok (Sample.config [])).
Definition broken : bundle := mkBundle "broken" true (Raise ValueError).
Definition nobody (_ : string) : option Z := None.
Definition host (_ : files) : WorkloadUid.host := mkHost (Some []) [] (fun _ => None) (fun _ => None).
Definition accepts (_ : list string) : option Z := Some 0.
Definition validate : table -> res (list workload_error) :=
  validate_workload_config same_pattern same_match (fun s => s) ["inspect"; "splice"] 80 443.

#[global] Instance emitters : Emitters :=
  generators Pod.everywhere "1.0" [(443, 8443)] Pod.dir Pod.dir None Pod.no_addresses "/etc/workloads" "/run/workload-env" no_groups
    Sample.no_float Sample.no_trunc Sample.cert Sample.resolves Sample.directory None [] Pod.no_profile Vm.digest Vm.exists_ validate.

#[global] Instance laws : EmitterLaws "/run/workload-env".
Proof. apply generator_laws. Qed.

Definition go (args : list string) : io gen_world Z :=
  run "/run/workload-env" Pod.everywhere true true [broken; web] nobody Opened host accepts None args.

Definition w0 : gen_world := mkGen {["/etc/passwd" := Text "root"]} ∅ [].
End Boot.

(** The bundle that can be read is generated and started, after one that cannot. *)
Lemma boot_starts_web : gw_ran (fst (Boot.go [] Boot.w0)) =
  [["systemctl"; "daemon-reload"]; ["systemctl"; "start"; "--no-block"; "workload-web.service"]].
Proof. vm_compute. reflexivity. Qed.

(** One virtual machine is selected: its unit is written, and that of a workload with
    a longer name stays as it was. *)
Definition box_config : table :=
  [("workload", TTab [("name", TStr "box")]);
   ("vm", TTab [("memory", TStr "2G"); ("image", TStr "quay.io/containerdisks/fedora:42");
                ("network", TTab [("egress", TStr "open")])])].
Definition box_bundle : bundle := mkBundle "box" true (Ok box_config).
Definition box_world : gen_world := mkGen {[LIVE_SERVICES_DIR +:+ "/workload-box2.service" := Text "other"]} ∅ [].

Lemma run_touches_only_selected_witness :
  let w' := fst (run "/run/workload-env" Pod.everywhere true true [box_bundle; Boot.web] Boot.nobody Opened Boot.host Boot.accepts
                   None ["--workload"; "box"; "--no-start"] box_world) in
  gw_files w' !! (LIVE_SERVICES_DIR +:+ "/workload-box.service") <> None /\
  gw_files w' !! (LIVE_SERVICES_DIR +:+ "/workload-web.service") = None /\
  gw_files w' !! (LIVE_SERVICES_DIR +:+ "/workload-box2.service") = Some (Text "other").
Proof.
  cbv zeta. destruct (run _ _ _ _ _ _ _ _ _ _ _ _) as [w' r] eqn:E. cbn [fst].
  assert (Hoff : forall q, bool_decide (q ∈ inventory "/run/workload-env" LIVE_SERVICES_DIR LIVE_SERVICES_DIR
      box_config "box" 0) = false ->
    gw_files w' !! q = gw_files box_world !! q).
  { intros q Hq. apply (proj1 (run_touches_only_selected (env_dir := "/run/workload-env") Pod.everywhere [box_bundle; Boot.web]
      Boot.nobody Opened Boot.host Boot.accepts None ["--workload"; "box"; "--no-start"] box_world w' r E)).
    intros (b & config & uid & Hb & He & Hin). apply list_elem_of_In in Hb. destruct Hb as [<-|[]].
    destruct He as [_ [= <-] _ _]. by apply bool_decide_eq_false_1 in Hq. }
  split_and!; [|by rewrite Hoff by (vm_compute; reflexivity)..].
  vm_compute in E. injection E as <- _. by vm_compute.
Defined.

Lemma every_bundle_is_processed_witness : snd (Boot.go [] Boot.w0) = Ok 0.
Proof.
  destruct (every_bundle_is_processed (env_dir := "/run/workload-env") Pod.everywhere [Boot.broken; Boot.web] Boot.nobody Opened
              Boot.host Boot.accepts None [] Boot.w0) as (w' & os & E & _).
  change (Boot.go [] Boot.w0) with (run "/run/workload-env" Pod.everywhere true true [Boot.broken; Boot.web] Boot.nobody Opened
    Boot.host Boot.accepts None [] Boot.w0). rewrite E. reflexivity.
Defined.
