(* ===== verification/Qmp.v ===== *)
(** * The QMP client: [lib/qmp.py]

    One JSON message per line over a stream socket: connecting, reading a line from
    whatever pieces arrive, negotiating, executing a command past the events that
    come before its reply.

    Parameters: JSON, and what the other end does: which attempts to connect
    succeed, what each [recv] returns and which sends fail. *)
From S2P Require Import Prelude PyStr Toml.
Local Open Scope Z_scope.

(** One attempt to connect: the other end is there, or it is not, before or after
    the deadline. *)
Inductive attempt := Connected | Refused (late : bool).

(** What one [recv] gives: a piece of the stream (empty: the end), a timeout, or
    an error. *)
Inductive recv_event := Chunk (s : string) | Silence | Broken (e : exn).

(** A client: the socket's state, the bytes not yet read as lines, what is still to
    be received, the failures of the sends to come, and what was sent. *)
Record conn := mkConn {
  cn_open : bool; cn_buf : string; cn_attempts : list attempt; cn_in : list recv_event;
  cn_faults : list (option exn); cn_sent : list tv }.

Definition set_open (b : bool) (c : conn) : conn := mkConn b (cn_buf c) (cn_attempts c) (cn_in c) (cn_faults c) (cn_sent c).

Section client.
Variable json_loads : string -> res tv.

(** The attempts made up to the deadline; none is left when it has passed. *)
Fixpoint connect_from (l : list attempt) : list attempt * res unit :=
  match l with
  | [] => ([], Raise TimeoutError)
  | Connected :: l => (l, Ok tt)
  | Refused late :: l => if late then (l, Raise TimeoutError) else connect_from l
  end.

Definition connect : io conn unit := fun c =>
  let '(l, r) := connect_from (cn_attempts c) in
  (mkConn (match r with Ok _ => true | Raise _ => cn_open c end) (cn_buf c) l (cn_in c) (cn_faults c) (cn_sent c), r).

(** The loop of [_readline]: the line, with the rest of the buffer and of the stream. *)
Fixpoint readline_from (buf : string) (ins : list recv_event) : string * list recv_event * res string :=
  match cut LF buf with
  | Some (line, rest) => (rest, ins, Ok line)
  | None =>
      match ins with
      | [] => (buf, [], Raise ConnectionError)
      | Chunk s :: ins' => if String.eqb s "" then (buf, ins', Raise ConnectionError) else readline_from (buf +:+ s) ins'
      | Silence :: ins' => (buf, ins', Raise TimeoutError)
      | Broken e :: ins' => (buf, ins', Raise e)
      end
  end.

Definition raw_line : io conn string := fun c =>
  if has_char LF (cn_buf c) || cn_open c then
    let '(buf, ins, r) := readline_from (cn_buf c) (cn_in c) in
    (mkConn (cn_open c) buf (cn_attempts c) ins (cn_faults c) (cn_sent c), r)
  else (c, Raise AssertionError).

Definition readline : io conn tv := line ← raw_line; pure (json_loads line).

Definition send (obj : tv) : io conn unit := fun c =>
  if cn_open c then
    let c' := mkConn (cn_open c) (cn_buf c) (cn_attempts c) (cn_in c) (tail (cn_faults c)) in
    match head (cn_faults c) with
    | Some (Some e) => (c' (cn_sent c), Raise e)
    | _ => (c' (cn_sent c ++ [obj]), Ok tt)
    end
  else (c, Raise AssertionError).

Definition negotiate : io conn unit :=
  _ ← readline;
  _ ← send (TTab [("execute", TStr "qmp_capabilities")]);
  _ ← readline;
  mret tt.

(** The first of at most [n] messages that is a reply. *)
Fixpoint await_reply (n : nat) : io conn tv :=
  match n with
  | O => pure (Raise ConnectionError)
  | S n =>
      msg ← readline;
      ret ← pure (contains_key "return" msg);
      if ret : bool then mret msg
      else err ← pure (contains_key "error" msg);
           if err : bool then mret msg else await_reply n
  end.

Definition command (name : string) (arguments : table) : tv :=
  TTab (("execute", TStr name) :: (if match arguments with [] => false | _ => true end then [("arguments", TTab arguments)] else [])).

Definition execute (name : string) (arguments : table) (max_events : nat) : io conn tv :=
  _ ← send (command name arguments); await_reply max_events.

Definition next_message : io conn (option tv) :=
  try_io (m ← readline; mret (Some m)) (fun e => bool_decide (e = TimeoutError)) (fun _ => mret None).

Definition close : io conn unit := fun c => (set_open false c, Ok tt).
End client.

(** ** Pieces of the stream *)

Lemma cut_app_l c s t l r : cut c s = Some (l, r) -> cut c (s +:+ t) = Some (l, r +:+ t).
Proof. intros [-> H]%cut_Some. rewrite app_assoc_str. change (String c r +:+ t) with (String c (r +:+ t)). by apply cut_app. Qed.

(** The text still to be read as lines, up to the first thing that is not a piece. *)
Fixpoint pieces (ins : list recv_event) : string :=
  match ins with Chunk s :: ins => s +:+ pieces ins | _ => "" end.

(** Only pieces of the stream, none of them its end. *)
Definition flowing (ins : list recv_event) : Prop := Forall (fun i => exists s, i = Chunk s /\ s <> "") ins.

(** A line is read from the text, wherever it was cut into pieces. *)
Lemma readline_pieces buf ins line rest :
  flowing ins -> cut LF (buf +:+ pieces ins) = Some (line, rest) ->
  exists buf' ins', readline_from buf ins = (buf', ins', Ok line) /\ flowing ins' /\ buf' +:+ pieces ins' = rest.
Proof.
  intros Hf. revert buf. induction Hf as [|i ins (s & -> & Hs) Hf IH]; intros buf Hc; cbn [readline_from pieces] in *.
  - rewrite app_nil_r_str in Hc. rewrite Hc. exists rest, []. rewrite app_nil_r_str. split_and!; [done|constructor|done].
  - destruct (cut LF buf) as [[l r]|] eqn:E.
    + rewrite (cut_app_l _ _ _ _ _ E) in Hc. apply (inj Some) in Hc. inversion Hc; subst.
      exists r, (Chunk s :: ins). split_and!; [done| |done]. constructor; [by exists s|done].
    + destruct (String.eqb_spec s ""); [done|]. apply IH. by rewrite app_assoc_str.
Qed.

(** [n] lines, one after the other. *)
Fixpoint read_lines (n : nat) (buf : string) (ins : list recv_event) : res (list string) :=
  match n with
  | O => Ok []
  | S n => let '(buf, ins, r) := readline_from buf ins in
           l ← r; ls ← read_lines n buf ins; Ok (l :: ls)
  end.

(** The text of some messages. *)
Definition stream (ls : list string) : string := join "" (map (fun l => l +:+ chr LF) ls).

Lemma stream_cons l ls : stream (l :: ls) = l +:+ String LF (stream ls).
Proof.
  unfold stream. destruct ls as [|l' ls]; cbn [map join]; [by rewrite ?app_nil_r_str|].
  by rewrite app_assoc_str.
Qed.

(** How the stream is cut into pieces does not matter: whatever pieces the
    kernel hands out, as many messages as were sent are read, each as it was sent
    and in order. *)
Theorem chunking_is_invisible ls ins :
  Forall (fun l => has_char LF l = false) ls -> flowing ins -> pieces ins = stream ls ->
  read_lines (length ls) "" ins = Ok ls.
Proof.
  intros Hl Hf Hp.
  enough (G : forall buf, flowing ins -> buf +:+ pieces ins = stream ls -> read_lines (length ls) buf ins = Ok ls) by by apply G.
  clear Hf Hp. revert ins. induction Hl as [|l ls Hl Hls IH]; intros ins buf Hf Hp; [done|].
  rewrite stream_cons in Hp. destruct (readline_pieces buf ins l (stream ls) Hf) as (buf' & ins' & E & Hf' & Hr).
  { rewrite Hp. by apply cut_app. }
  cbn [length read_lines]. rewrite E. cbn [mbind res_bind]. by rewrite (IH ins' buf').
Qed.

Lemma chunking_is_invisible_witness :
  read_lines 2 "" [Chunk "{}"; Chunk (chr LF +:+ "[1"); Chunk ("]" +:+ chr LF)] = Ok ["{}"; "[1]"].
Proof.
  apply (chunking_is_invisible ["{}"; "[1]"]); [by repeat constructor| |reflexivity].
  repeat constructor; by eexists.
Defined.
