(* ===== verification/VmNotify.v ===== *)
(** * The supervisor of qemu: [lib/vm_notify.py]

    [supervise] starts qemu, tells systemd when the guest runs, and ends with an exit
    status that says whether the guest reset or powered off; with the service's
    [Restart] directive that decides whether the VM comes back.

    Parameters: JSON, what qemu's two sockets deliver ([conn]), whether qemu has ended
    at each poll, and its own exit status.  Not modelled: the thread that watches cloud-init and the
    forwarding of signals. *)
From S2P Require Import Prelude PyStr Toml NetworkConfig Qmp GenVm.
Local Open Scope Z_scope.

Section notify.
Variable json_loads : string -> res tv.

(** ** Readiness *)

(** As many polls as the deadline leaves time for. *)
Fixpoint wait_running (polls : nat) : io conn unit :=
  match polls with
  | O => pure (Raise TimeoutError)
  | S polls =>
      reply ← execute json_loads "query-status" [] 20;
      ret ← pure (get_or reply "return" (TTab []));
      running ← pure (get_or ret "running" (TBool false));
      if truthy running then mret tt else wait_running polls
  end.

(** What systemd is told. *)
Inductive notice := Ready | TimedOut | Degraded.

Definition await_guest (polls : nat) : io conn unit :=
  _ ← connect; _ ← negotiate json_loads; wait_running polls.

(** The start of the supervision: the notices, and the closed socket. *)
Definition announce (polls : nat) (c : conn) : list notice * conn :=
  let '(c', r) := await_guest polls c in
  (match r with
   | Ok _ => [Ready]
   | Raise e => if bool_decide (e = TimeoutError) then [TimedOut] else [Degraded; Ready]
   end, set_open false c').

(** ** Why the guest stopped *)

(** The loop over the monitor's messages; [exited] says of the polls of the process, in
    order, whether it has ended.  [None]: the fuel is spent. *)
Fixpoint monitor_loop (fuel : nat) (exited : list bool) (c : conn) : option (res (option tv)) :=
  match fuel with
  | O => None
  | S fuel =>
      match next_message json_loads c with
      | (_, Raise e) => Some (if bool_decide (e = ConnectionError) then Ok None else Raise e)
      | (c', Ok None) => if hd false exited then Some (Ok None) else monitor_loop fuel (tail exited) c'
      | (c', Ok (Some msg)) =>
          match get msg "event" with
          | Raise e => Some (Raise e)
          | Ok ev =>
              if is_the_str ev "SHUTDOWN" then
                Some (d ← get_or msg "data" (TTab []); get d "reason")
              else monitor_loop fuel exited c'
          end
      end
  end.

(** The bytes and the events a client can still read. *)
Definition event_weight (i : recv_event) : nat := match i with Chunk s => S (String.length s) | _ => 1%nat end.
Definition weight (c : conn) : nat := (String.length (cn_buf c) + list_sum (map event_weight (cn_in c)))%nat.

(** Every exception is the answer "unknown". *)
Definition monitor_shutdown_reason (exited : list bool) (c : conn) : option tv :=
  match (_ ← connect; negotiate json_loads) c with
  | (_, Raise _) => None
  | (c', Ok _) => match monitor_loop (S (weight c')) exited c' with Some (Ok r) => r | _ => None end
  end.

(** ** The exit status *)

(** [rc] is the status of qemu, [reboot_exit] the variable of the unit. *)
Definition supervise (polls : nat) (reboot_exit : option string) (qmp monitor : conn) (exited : list bool) (rc : Z) : list notice * res Z :=
  let '(notices, _) := announce polls qmp in
  (notices,
   match reboot_exit with
   | Some v =>
       if String.eqb v "" then Ok rc
       else let reason := monitor_shutdown_reason exited monitor in
            if is_the_str reason "guest-reset" then int_res v
            else if is_the_str reason "guest-shutdown" then Ok 0
            else Ok rc
   | None => Ok rc
   end).
End notify.

(** ** The loop ends *)

Lemma length_cut c s l r : cut c s = Some (l, r) -> (String.length r < String.length s)%nat.
Proof. intros [-> _]%cut_Some. rewrite length_app_str. cbn. lia. Qed.

(** A line or a timeout uses up some of the input. *)
Lemma readline_weight buf ins buf' ins' r :
  readline_from buf ins = (buf', ins', r) ->
  let total b i := (String.length b + list_sum (map event_weight i))%nat in
  (total buf' ins' <= total buf ins)%nat /\ (is_ok r = true \/ r = Raise TimeoutError -> (total buf' ins' < total buf ins)%nat).
Proof.
  cbv zeta. revert buf. induction ins as [|i ins IH]; intros buf; cbn [readline_from].
  - destruct (cut LF buf) as [[l t]|] eqn:E; intros H; inversion H; subst; [|split; [lia|]; intros [?|?]; done].
    apply length_cut in E. cbn. lia.
  - destruct (cut LF buf) as [[l t]|] eqn:E.
    { intros H; inversion H; subst. apply length_cut in E. cbn [map list_sum]. lia. }
    cbn [map]. change (list_sum (?a :: ?l)) with (a + list_sum l)%nat.
    destruct i as [s| |e]; [destruct (String.eqb s "")|..].
    + intros H; inversion H; subst. cbn [event_weight]. split; [lia|]. intros _. lia.
    + intros [H1 H2]%IH. rewrite length_app_str in *. cbn [event_weight]. split; [lia|]. intros Hr. specialize (H2 Hr). lia.
    + intros H; inversion H; subst. cbn [event_weight]. lia.
    + intros H; inversion H; subst. cbn [event_weight]. lia.
Qed.

Lemma next_message_weight json_loads c c' o :
  next_message json_loads c = (c', Ok o) -> (weight c' < weight c)%nat.
Proof.
  unfold next_message, try_io, readline, raw_line, mbind, io_bind, pure.
  destruct (has_char LF (cn_buf c) || cn_open c); [|done].
  destruct (readline_from (cn_buf c) (cn_in c)) as [[buf ins] r] eqn:E. apply readline_weight in E as [_ Hw].
  unfold weight. destruct r as [line|e].
  - destruct (json_loads line) as [m|e]; [|destruct (bool_decide _)]; intros H; inversion H; subst; apply Hw; by left.
  - destruct (bool_decide (e = TimeoutError)) eqn:Ee; intros H; inversion H; subst. apply bool_decide_eq_true in Ee as ->.
    apply Hw. by right.
Qed.

(** Fuel for the input that is left is enough. *)
Lemma monitor_loop_ends json_loads fuel exited c : (weight c < fuel)%nat -> monitor_loop json_loads fuel exited c <> None.
Proof.
  revert exited c. induction fuel as [|fuel IH]; intros exited c Hf; [lia|]. cbn [monitor_loop].
  destruct (next_message json_loads c) as [c' [[msg|]|e]] eqn:E; [| |done]; apply next_message_weight in E.
  - destruct (get msg "event"); [|done]. destruct (is_the_str _ _); [done|]. apply IH. lia.
  - destruct (hd false exited); [done|]. apply IH. lia.
Qed.

(** ** The reason is found *)

(** Pieces and timeouts, no error and no end before the last event. *)
Definition alive_flow (ins : list recv_event) : Prop :=
  Forall (fun i => match i with Chunk s => s <> "" | Silence => True | Broken _ => False end) ins.

Fixpoint contents (ins : list recv_event) : string :=
  match ins with [] => "" | Chunk s :: ins => s +:+ contents ins | _ :: ins => contents ins end.

(** The text a client can still read. *)
Definition text_of (c : conn) : string := cn_buf c +:+ contents (cn_in c).

Lemma readline_flow buf ins :
  alive_flow ins ->
  exists buf' ins' r, readline_from buf ins = (buf', ins', r) /\ alive_flow ins' /\
    match r with
    | Ok line => cut LF (buf +:+ contents ins) = Some (line, buf' +:+ contents ins')
    | Raise e => buf' +:+ contents ins' = buf +:+ contents ins /\
                 (e = TimeoutError \/ e = ConnectionError /\ cut LF (buf +:+ contents ins) = None)
    end.
Proof.
  intros Hf. revert buf. induction Hf as [|i ins Hi Hf IH]; intros buf; cbn [readline_from].
  - destruct (cut LF buf) as [[l t]|] eqn:E; eexists _, _, _; (split; [reflexivity|]); (split; [constructor|]); cbn [contents];
      rewrite !app_nil_r_str; [done|]. split; [done|]. by right.
  - destruct (cut LF buf) as [[l t]|] eqn:E.
    { eexists _, _, _. split; [reflexivity|]. split; [by constructor|]. by apply cut_app_l. }
    destruct i as [s| |e]; [|eexists _, _, _; split; [reflexivity|]; split; [done|]; cbn [contents]; split; [done|by left]|done].
    destruct (String.eqb_spec s ""); [done|]. destruct (IH (buf +:+ s)) as (buf' & ins' & r & Er & Hf' & Hr).
    exists buf', ins', r. split; [done|]. split; [done|]. cbn [contents]. by rewrite app_assoc_str in Hr.
Qed.

(** The answer in the messages: the reason of the first shutdown. *)
Fixpoint first_reason (msgs : list tv) : res (option tv) :=
  match msgs with
  | [] => Ok None
  | m :: msgs =>
      ev ← get m "event";
      if is_the_str ev "SHUTDOWN" then d ← get_or m "data" (TTab []); get d "reason" else first_reason msgs
  end.

Section found.
Variable json_loads : string -> res tv.

Lemma next_message_flow c :
  cn_open c = true -> alive_flow (cn_in c) ->
  exists c', cn_open c' = true /\ alive_flow (cn_in c') /\
    ((exists line, cut LF (text_of c) = Some (line, text_of c') /\
        next_message json_loads c = match json_loads line with
                                    | Ok m => (c', Ok (Some m))
                                    | Raise e => if bool_decide (e = TimeoutError) then (c', Ok None) else (c', Raise e)
                                    end) \/
     (next_message json_loads c = (c', Ok None) /\ text_of c' = text_of c) \/
     (next_message json_loads c = (c', Raise ConnectionError) /\ cut LF (text_of c) = None)).
Proof.
  intros Ho Hf. destruct (readline_flow (cn_buf c) (cn_in c) Hf) as (buf & ins & r & E & Hf' & Hr).
  exists (mkConn true buf (cn_attempts c) ins (cn_faults c) (cn_sent c)). split; [done|]. split; [done|].
  unfold next_message, try_io, readline, raw_line, mbind, io_bind, pure. rewrite Ho, orb_true_r, E.
  destruct r as [line|e].
  - left. exists line. split; [done|]. by destruct (json_loads line).
  - destruct Hr as [Ht [->|[-> Hc]]]; right; [left|right]; done.
Qed.

(** Whatever the pieces and however long the silences, while qemu runs the loop
    answers with the reason of the first shutdown among the messages. *)
Lemma monitor_flow fuel exited ls msgs c :
  (weight c < fuel)%nat -> Forall (fun b => b = false) exited -> cn_open c = true -> alive_flow (cn_in c) ->
  Forall (fun l => has_char LF l = false) ls -> Forall2 (fun l m => json_loads l = Ok m) ls msgs -> text_of c = stream ls ->
  monitor_loop json_loads fuel exited c = Some (first_reason msgs).
Proof.
  revert exited ls msgs c. induction fuel as [|fuel IH]; intros exited ls msgs c Hw Hx Ho Hf Hl Hm Ht; [lia|].
  destruct (next_message_flow c Ho Hf) as (c' & Ho' & Hf' & Hc). cbn [monitor_loop].
  destruct Hc as [(line & Hcut & En)|[(En & Et)|(En & Hcut)]].
  - destruct Hm as [|l m ls msgs Hj Hm]; [rewrite Ht in Hcut; done|]. apply Forall_cons in Hl as [Hl Hls].
    rewrite Ht, stream_cons, cut_app in Hcut by done. apply (inj Some) in Hcut. inversion Hcut; subst line. rewrite Hj in En.
    rewrite En. apply next_message_weight in En. cbn [first_reason]. destruct (get m "event") as [ev|e]; [|done]. cbn [mbind res_bind].
    destruct (is_the_str ev "SHUTDOWN"); [done|]. apply (IH exited ls); try done; lia.
  - rewrite En. apply next_message_weight in En.
    assert (hd false exited = false) as Hh by (destruct Hx as [|b l Hb Hx]; done). rewrite Hh.
    apply (IH (tail exited) ls); try done; [lia|by destruct Hx|congruence].
  - rewrite En, bool_decide_eq_true_2 by done. destruct Hm as [|l m ls msgs Hj Hm]; [done|].
    apply Forall_cons in Hl as [Hl _]. rewrite Ht, stream_cons, cut_app in Hcut by done. discriminate.
Qed.
End found.

(** ** Whether the VM comes back *)

(** systemd.service(5): whether the service is restarted after this status. *)
Definition restarts (policy : string) (status : Z) : bool :=
  String.eqb policy "always" || (String.eqb policy "on-failure" && negb (status =? 0)).

Definition on_reboot (s : vm_settings) : bool := is_the_str (vs_restart s) "on-reboot".

(** The variable the service's unit sets. *)
Definition reboot_variable (s : vm_settings) : option string := if on_reboot s then Some (str_Z VM_REBOOT_EXIT_CODE) else None.

(** A monitor that can be talked to: its greeting and its answer, then the
    messages, in pieces and with silences, until it is closed. *)
Record monitored (json_loads : string -> res tv) (c : conn) (msgs : list tv) : Prop := {
  mo_connects : snd (connect_from (cn_attempts c)) = Ok tt;
  mo_buf : cn_buf c = "";
  mo_sends : head (cn_faults c) = None;
  mo_stream : exists ins1 ins2 g a pre ls, cn_in c = ins1 ++ ins2 /\ flowing ins1 /\ alive_flow ins2 /\
    pieces ins1 = stream [g; a] +:+ pre /\ pre +:+ contents ins2 = stream ls /\
    has_char LF g = false /\ has_char LF a = false /\ is_ok (json_loads g) = true /\ is_ok (json_loads a) = true /\
    Forall (fun l => has_char LF l = false) ls /\ Forall2 (fun l m => json_loads l = Ok m) ls msgs }.

Lemma readline_app buf ins more buf' ins' line :
  readline_from buf ins = (buf', ins', Ok line) -> readline_from buf (ins ++ more) = (buf', ins' ++ more, Ok line).
Proof.
  revert buf. induction ins as [|i ins IH]; intros buf; cbn [readline_from app].
  - destruct (cut LF buf) as [[l t]|] eqn:E; intros H; inversion H; subst. destruct more; cbn [readline_from]; by rewrite E.
  - destruct (cut LF buf) as [[l t]|] eqn:E; [by intros H; inversion H|].
    destruct i as [s| |e]; [|done..]. destruct (String.eqb s ""); [done|]. apply IH.
Qed.

Lemma flowing_alive ins : flowing ins -> alive_flow ins.
Proof. intros H. eapply Forall_impl; [exact H|]. by intros i (s & -> & Hs). Qed.

Lemma contents_app ins more : flowing ins -> contents (ins ++ more) = pieces ins +:+ contents more.
Proof.
  intros H. induction H as [|i ins (s & -> & Hs) H IH]; [done|]. cbn [app contents pieces]. by rewrite IH, app_assoc_str.
Qed.

(** One line of a conversation that flows. *)
Lemma readline_conn json_loads c ins more line rest :
  cn_open c = true -> cn_in c = ins ++ more -> flowing ins -> cut LF (cn_buf c +:+ pieces ins) = Some (line, rest) ->
  exists buf ins', readline json_loads c =
      (mkConn true buf (cn_attempts c) (ins' ++ more) (cn_faults c) (cn_sent c), json_loads line) /\
    flowing ins' /\ buf +:+ pieces ins' = rest.
Proof.
  intros Ho Hi Hf Hc. destruct (readline_pieces _ _ _ _ Hf Hc) as (buf & ins' & E & Hf' & Hr).
  exists buf, ins'. split; [|done]. unfold readline, raw_line, mbind, io_bind, pure. rewrite Ho, orb_true_r, Hi.
  by rewrite (readline_app _ _ more _ _ _ E).
Qed.

Lemma negotiated json_loads c msgs :
  monitored json_loads c msgs ->
  exists c' ls, (_ ← connect; negotiate json_loads) c = (c', Ok tt) /\ cn_open c' = true /\ alive_flow (cn_in c') /\
    text_of c' = stream ls /\ Forall (fun l => has_char LF l = false) ls /\ Forall2 (fun l m => json_loads l = Ok m) ls msgs.
Proof.
  intros [Hc Hb Hs (ins1 & ins2 & g & a & pre & ls & Hi & Hf1 & Hf2 & Hp & Ht & Hg & Ha & Jg & Ja & Hl & Hm)].
  unfold connect, mbind, io_bind. destruct (connect_from (cn_attempts c)) as [at' r]. cbn [snd] in Hc. subst r.
  rewrite !stream_cons in Hp. change (stream []) with "" in Hp.
  destruct (readline_conn json_loads (mkConn true (cn_buf c) at' (cn_in c) (cn_faults c) (cn_sent c)) ins1 ins2 g
              (a +:+ String LF pre)) as (b1 & i1 & E1 & F1 & R1); [done..| |].
  { cbn [cn_buf]. rewrite Hb, Hp. change ("" +:+ ?x) with x. rewrite !app_assoc_str. cbn [String.append]. rewrite app_assoc_str.
    by apply cut_app. }
  unfold negotiate, mbind, io_bind. rewrite E1. destruct (json_loads g) as [jg|]; [|done]. cbn [cn_attempts cn_faults cn_sent].
  unfold send. cbn [cn_open cn_faults]. rewrite Hs.
  destruct (readline_conn json_loads (mkConn true b1 at' (i1 ++ ins2) (tail (cn_faults c))
              (cn_sent c ++ [TTab [("execute", TStr "qmp_capabilities")]])) i1 ins2 a pre) as (b2 & i2 & E2 & F2 & R2); [done..| |].
  { cbn [cn_buf]. rewrite R1. by apply cut_app. }
  cbn [cn_buf cn_attempts cn_in cn_sent]. rewrite E2. destruct (json_loads a) as [ja|]; [|done].
  eexists _, ls. split; [reflexivity|]. cbn [cn_open cn_in]. split_and!; try done.
  - apply Forall_app_2; [by apply flowing_alive|done].
  - unfold text_of. cbn [cn_buf cn_in]. by rewrite contents_app, <- app_assoc_str, R2.
Qed.

Lemma reason_found json_loads c msgs exited :
  monitored json_loads c msgs -> Forall (fun b => b = false) exited ->
  monitor_shutdown_reason json_loads exited c = match first_reason msgs with Ok r => r | Raise _ => None end.
Proof.
  intros Hm Hx. destruct (negotiated _ _ _ Hm) as (c' & ls & E & Ho & Hf & Ht & Hl & Hj).
  unfold monitor_shutdown_reason. rewrite E. rewrite (monitor_flow json_loads (S (weight c')) exited ls msgs); try done. lia.
Qed.

(** C30.  A VM comes back when its configuration says so.  With
    restart = "on-reboot" it is restarted after the guest's reset and stays down after
    the guest's power-off, although qemu's status is 0 for both, and otherwise
    follows qemu's status; the reason is found in the messages of the monitor however they
    are cut into pieces and however long it is silent.  With "on-failure" it
    follows qemu's status, and with any other value it always comes back. *)
Theorem restart_follows_guest json_loads polls s qmp monitor exited msgs rc :
  monitored json_loads monitor msgs -> Forall (fun b => b = false) exited ->
  exists status, snd (supervise json_loads polls (reboot_variable s) qmp monitor exited rc) = Ok status /\
    restarts (vm_restart s) status =
    (if on_reboot s then
       match first_reason msgs with
       | Ok r => if is_the_str r "guest-reset" then true else if is_the_str r "guest-shutdown" then false else negb (rc =? 0)
       | Raise _ => negb (rc =? 0)
       end
     else if is_the_str (vs_restart s) "on-failure" then negb (rc =? 0) else true).
Proof.
  intros Hm Hx. unfold supervise. destruct (announce _ _ _) as [notices c']. cbn [snd]. unfold reboot_variable, on_reboot, vm_restart.
  destruct (vs_restart s) as [v|]; [|by exists rc].
  destruct (is_the_str (Some v) "on-reboot") eqn:E.
  - change (String.eqb (str_Z VM_REBOOT_EXIT_CODE) "") with false. rewrite orb_true_r. cbv zeta.
    rewrite (reason_found _ _ _ _ Hm Hx). destruct (first_reason msgs) as [r|e]; [|by exists rc].
    destruct (is_the_str r "guest-reset"); [by exists 133|]. destruct (is_the_str r "guest-shutdown"); [by exists 0|]. by exists rc.
  - exists rc. split; [done|]. rewrite orb_false_r. by destruct (is_the_str (Some v) "on-failure").
Qed.

Module Guest.
Definition loads (s : string) : res tv :=
  Ok (if String.eqb s "S" then TTab [("event", TStr "SHUTDOWN"); ("data", TTab [("reason", TStr "guest-reset")])] else TTab []).
Definition monitor : conn :=
  mkConn false "" [Refused false; Connected] ([Chunk ("G" +:+ chr LF +:+ "A"); Chunk (chr LF +:+ "E")] ++
    [Silence; Chunk (chr LF); Silence; Chunk ("S" +:+ chr LF)]) [] [].
Definition messages : list tv := match loads "S" with Ok m => [TTab []; m] | Raise _ => [] end.
Definition settings : vm_settings :=
  mkVm "box" 2048 (TInt 2) "workloads.slice" [] (TTab []) None false true (Some (TStr "on-reboot")) (TTab []) false false false.

Lemma is_monitored : monitored loads monitor messages.
Proof.
  split; [reflexivity..|].
  exists [Chunk ("G" +:+ chr LF +:+ "A"); Chunk (chr LF +:+ "E")], [Silence; Chunk (chr LF); Silence; Chunk ("S" +:+ chr LF)],
    "G", "A", "E", ["E"; "S"].
  split_and!; try done.
  - apply Forall_cons_2; [by eexists|]. apply Forall_cons_2; [by eexists|]. apply Forall_nil_2.
  - repeat apply Forall_cons_2; done.
  - repeat apply Forall_cons_2; done.
  - repeat apply Forall2_cons_2; done.
Qed.
End Guest.

Lemma restart_follows_guest_witness :
  exists status, snd (supervise Guest.loads 3 (reboot_variable Guest.settings) Guest.monitor Guest.monitor [false; false] 0) = Ok status /\
    restarts (vm_restart Guest.settings) status = true.
Proof.
  exact (restart_follows_guest Guest.loads 3 Guest.settings Guest.monitor Guest.monitor [false; false] Guest.messages 0
           Guest.is_monitored (Forall_cons_2 _ _ _ eq_refl (Forall_cons_2 _ _ _ eq_refl (Forall_nil_2 _)))).
Defined.
