(* ===== verification/Disable.v ===== *)
(** * Disabling a workload: [lib/cmd_disable.py], with the teardown of the substrates

    The verb takes a workload apart step by step, each step attempted whatever
    the others did, and reports the failures together.  The world is the files of
    the host by path, the uid of the workload's user, the commands run and the
    failures collected; a directory exists when a file is below it.  Any command
    may be impossible to run, any file to remove, and a tree may be removed in
    part only. *)
From S2P Require Import Prelude PyStr PyPath Toml WorkloadNames WorkloadConfig NetworkConfig BrokerConfig Validation RunArgs.
From S2P Require Import WorkloadUid GenCommon GenEgress GenReadback GenFiles GenVm GenRun PasstDns.
Local Open Scope Z_scope.

(** ** The world *)

Inductive step_label :=
  | StopUnit (unit_name : string) | ResetUnit (unit_name : string) | HostTeardown | SelinuxModule | Fcontext | Marker
  | RunFiles | SubstrateTeardown | Reload | StopManager | Sessions | EnvFiles | RemoveUser | SubidEntries | RuntimeDir
  | FilterElements | RedirectElements.

Inductive failure :=
  | FailedStep (label : step_label) (e : exn)
  | NotRemoved (p : pypath) (e : exn)
  | UserRemains (username : string)
  | TreeRemains (d : pypath) (e : exn).

Record dhost := mkHost' { dh_files : files; dh_uid : option Z; dh_ran : list (list string); dh_failed : list failure }.

Definition set_files (f : files) (w : dhost) : dhost := mkHost' f (dh_uid w) (dh_ran w) (dh_failed w).
Definition record_failure (x : failure) : io dhost unit := fun w =>
  (mkHost' (dh_files w) (dh_uid w) (dh_ran w) (dh_failed w ++ [x]), Ok tt).

(** [attempt(label, fn)] *)
Definition attempt (label : step_label) (fn : io dhost unit) : io dhost unit :=
  try_io fn (fun _ => true) (fun e => record_failure (FailedStep label e)).

(** ** Files and trees *)

(** Where a symbolic link at [p] leads. *)
Fixpoint climb (base segs : list string) : list string :=
  match segs with
  | [] => base
  | s :: segs => if String.eqb s ".." then climb (removelast base) segs else climb (base ++ [s]) segs
  end.

Definition link_dest (p : pypath) (target : string) : pypath :=
  let t := path_of target in
  if String.eqb (root t) "" then mkPath (root p) (climb (parts (path_parent p)) (parts t)) else t.

(** [Path.exists()], which follows links; the kernel follows at most forty. *)
Fixpoint exists_from (n : nat) (f : files) (p : pypath) : bool :=
  match f !! path_str p, n with
  | Some (Text _), _ => true
  | Some (Link t), S n => exists_from n f (link_dest p t)
  | _, _ => false
  end.

Definition file_exists (f : files) (p : pypath) : bool := exists_from 40 f p.

Definition under (d : pypath) (p : string) : bool := String.prefix (path_str d +:+ "/") p.
Definition dir_exists (f : files) (d : pypath) : bool := existsb (fun '(p, _) => under d p) (map_to_list f).

Definition WORKLOAD_BUNDLES_DIR : string := "/usr/share/workloadctl/workloads".
Definition ENABLED_MARKER_NAME : string := ".enabled".
Definition subid_files : list pypath := [path_of "/etc/subuid"; path_of "/etc/subgid"].
Definition socket_dir (name : string) : pypath := path_div (path_of SOCKET_DIR) name.

(** [path.name] *)
Definition file_name (p : pypath) : string := List.last (parts p) "".

Section disable.
Variable config_dir env_dir : string.
(** Parsing a workload's file, with the refusal of a masked or a missing one. *)
Variable read_toml : string -> res table.
(** Running a command: its exit status, or [None] when it cannot be run. *)
Variable spawn : list string -> option Z.
(** What [semodule -l] prints, and the tools found on the host. *)
Variable modules : string.
Variable selinux_available semanage_found : bool.
(** The names of the CA's directories below the state, from the inspector's package. *)
Variable pki_dirs : list string.
(** Control files on disk. *)
Variable on_disk : pypath -> bool.
(** Whether a file can be removed or replaced, and what is left of a tree
    whose removal fails. *)
Variable removable : pypath -> bool.
Variable tree_left : pypath -> option (string -> bool).
(** Whether [userdel] succeeds. *)
Variable userdel_works : bool.

Definition exec (cmd : list string) : io dhost Z := fun w =>
  (mkHost' (dh_files w) (dh_uid w) (dh_ran w ++ [cmd]) (dh_failed w),
   match spawn cmd with Some rc => Ok rc | None => Raise FileNotFoundError end).

(** [subprocess.run(cmd, check=False)], the status ignored. *)
Definition exec_ (cmd : list string) : io dhost unit := _ ← exec cmd; mret tt.

(** [path.unlink(missing_ok=True)] *)
Definition unlink_path (p : pypath) : io dhost unit := fun w =>
  match dh_files w !! path_str p with
  | None => (w, Ok tt)
  | Some _ => if removable p then (set_files (delete (path_str p) (dh_files w)) w, Ok tt) else (w, Raise OSError)
  end.

Definition rmtree (d : pypath) : io dhost unit := fun w =>
  match tree_left d with
  | None => (set_files (filter (fun '(p, _) => under d p = false) (dh_files w)) w, Ok tt)
  | Some stays => (set_files (filter (fun '(p, _) => under d p && negb (stays p) = false) (dh_files w)) w, Raise OSError)
  end.

Definition look {A} (f : dhost -> A) : io dhost A := fun w => (w, Ok (f w)).

(** ** The configuration: [WorkloadConfig] *)

Definition load_config (name : string) : res table :=
  config ← read_toml name;
  w ← index (TTab config) "workload";
  n ← index w "name";
  if negb (is_the_str (Some n) name) then Raise ValueError
  else _ ← validate_workload_name name; Ok config.

Definition is_vm (config : table) : bool := bool_decide (infer_workload_kind config = KVm).

Definition bundle (config : table) (name : string) : res tv :=
  v ← get2 config "workload" "bundle" (TStr ""); Ok (if truthy v then v else TStr name).

Definition bundle_dir (config : table) (name : string) : res pypath :=
  b ← bundle config name;
  match b with
  | TStr s => _ ← validate_workload_name s; Ok (path_div (path_of WORKLOAD_BUNDLES_DIR) s)
  | _ => Raise TypeError
  end.

Definition resolve_control_file (config : table) (name relpath : string) : res pypath :=
  let p := path_of relpath in
  if negb (String.eqb (root p) "") then Ok p
  else if bool_decide (".." ∈ parts p) then Raise ValueError
  else let override := path_div (path_div (path_of config_dir) name) relpath in
       if on_disk override then Ok override
       else d ← bundle_dir config name; Ok (path_div d relpath).

Definition workload_enabled_marker (name : string) : pypath :=
  path_div (path_div (path_of config_dir) name) ENABLED_MARKER_NAME.

(** The run files of the workload, for the uid the user has. *)
Definition run_files (config : table) (name : string) (uid : option Z) : res (list WorkloadRunFile) :=
  m ← infer_workload_mode config;
  workload_run_files env_dir (mkView config name uid (is_vm config) (Some m)).

Definition is_env_file (rf : WorkloadRunFile) : bool := String.eqb (rf_kind rf) "env-file".
Definition is_unit (rf : WorkloadRunFile) : bool := String.eqb (rf_kind rf) "unit".

(** ** The steps *)

(** [run_host_setup]; the environment of the script is computed, and may raise,
    before it runs. *)
Definition run_host_setup (config : table) (name action : string) : io dhost unit :=
  setup ← pure (get2 config "host" "setup" (TStr ""));
  if negb (truthy setup) then mret tt
  else
    script ← pure (match setup with TStr s => resolve_control_file config name s | _ => Raise TypeError end);
    if negb (on_disk script) then mret tt
    else
      _ ← pure (bundle_dir config name);
      rc ← exec [path_str script; action];
      if negb (rc =? 0) && String.eqb action "enable" then pure (Raise LifecycleError) else mret tt.

(** [apply_selinux_policy(config, "disable")] *)
Definition remove_selinux_policy (config : table) (name : string) : io dhost unit :=
  policy ← pure (get2 config "security" "selinux_policy" (TBool false));
  if negb (truthy policy) || negb selinux_available then mret tt
  else
    _ ← exec ["semodule"; "-l"];
    let m := selinux_module_name name in
    if bool_decide (m ∈ words modules) then exec_ ["semodule"; "-r"; m] else mret tt.

Definition pki_fcontext_patterns (name : string) : list string :=
  map (fun d => path_str (workload_root_dir name) +:+ "/state/" +:+ d +:+ "(/.*)?") pki_dirs.

Definition fcontext_pattern (name : string) : string := path_str (workload_root_dir name) +:+ "(/.*)?".

(** [apply_vm_fcontext(config, "disable")] *)
Definition remove_vm_fcontext (config : table) (name : string) : io dhost unit :=
  inspected ← pure (if is_vm config then Ok true else container_uses_inspect config);
  if negb (inspected : bool) || negb semanage_found then mret tt
  else
    _ ← for_io (fun p => exec_ ["semanage"; "fcontext"; "-d"; p]) (pki_fcontext_patterns name);
    if is_vm config then exec_ ["semanage"; "fcontext"; "-d"; fcontext_pattern name] else mret tt.

(** [_remove_run_files] *)
Definition remove_run_files (rfs : list WorkloadRunFile) : io dhost unit :=
  for_io (fun rf => if is_env_file rf then mret tt
                    else try_io (unlink_path (rf_path rf)) is_oserror (fun e => record_failure (NotRemoved (rf_path rf) e))) rfs.

(** [_remove_runtime_env_files] *)
Definition remove_runtime_env_files (rfs : list WorkloadRunFile) : io dhost unit :=
  for_io (fun rf => if negb (is_env_file rf) then mret tt
                    else there ← look (fun w => file_exists (dh_files w) (rf_path rf));
                         if there : bool then unlink_path (rf_path rf) else mret tt) rfs.

(** [_stop_user_manager] *)
Definition stop_user_manager : io dhost unit :=
  uid ← look dh_uid;
  match uid with
  | None => mret tt
  | Some u => _ ← exec_ ["loginctl"; "terminate-user"; str_Z u]; exec_ ["loginctl"; "disable-linger"; str_Z u]
  end.

(** One subid file. *)
Definition clear_subids (username : string) (p : pypath) : io dhost unit := fun w =>
  match dh_files w !! path_str p with
  | Some (Text t) =>
      match remove_subid_entries username (Some t) with
      | (Some t', true) => if removable p then (set_files (<[path_str p := Text t']> (dh_files w)) w, Ok tt) else (w, Raise OSError)
      | _ => (w, Ok tt)
      end
  | _ => (w, Ok tt)
  end.

(** [remove_subid_entries]: both files under the lock. *)
Definition remove_subids (username : string) : io dhost unit := for_io (clear_subids username) subid_files.

(** [if d.exists(): try: rmtree(d) except OSError] *)
Definition remove_tree (d : pypath) (report : exn -> failure) : io dhost unit :=
  there ← look (fun w => dir_exists (dh_files w) d);
  if there : bool then try_io (rmtree d) is_oserror (fun e => record_failure (report e)) else mret tt.

(** [ContainerSubstrate.teardown]; the empty drop-in directory is not a file. *)
Definition container_teardown (name : string) (purge : bool) : io dhost unit :=
  if negb purge then mret tt
  else
    _ ← attempt SubidEntries (remove_subids (workload_username name));
    remove_tree (socket_dir name) (TreeRemains (socket_dir name)).

(** [VMSubstrate.teardown] *)
Definition vm_teardown (name : string) (purge : bool) : io dhost unit :=
  if negb purge then mret tt
  else
    _ ← attempt RuntimeDir (there ← look (fun w => dir_exists (dh_files w) (socket_dir name));
                            if there : bool then try_io (rmtree (socket_dir name)) (fun _ => true) (fun _ => mret tt) else mret tt);
    _ ← attempt FilterElements (exec_ ["/usr/libexec/workloadctl/workload-vm-filter"; "down"; name]);
    attempt RedirectElements (exec_ ["/usr/libexec/workloadctl/workload-vm-inspect"; "down"; name]).

Definition teardown (config : table) (name : string) (purge : bool) : io dhost unit :=
  if is_vm config then vm_teardown name purge else container_teardown name purge.

(** [userdel] and the look whether the user is gone. *)
Definition remove_user (username : string) : io dhost unit := fun w =>
  match exec ["userdel"; "-f"; username] w with
  | (w1, Ok _) =>
      let w2 := mkHost' (dh_files w1) (if userdel_works then None else dh_uid w1) (dh_ran w1) (dh_failed w1) in
      match dh_uid w2 with Some _ => record_failure (UserRemains username) w2 | None => (w2, Ok tt) end
  | (w1, Raise e) => (w1, Raise e)
  end.

Definition kill_sessions (uid : Z) : io dhost unit :=
  _ ← stop_user_manager; exec_ ["pkill"; "-KILL"; "-u"; str_Z uid].

(** The part of the verb under [if purge]. *)
Definition purge_workload (config : table) (name : string) : io dhost unit :=
  uid ← look dh_uid;
  _ ← (match uid with Some u => attempt Sessions (kill_sessions u) | None => mret tt end);
  _ ← attempt EnvFiles (u ← look dh_uid; rfs ← pure (run_files config name u); remove_runtime_env_files rfs);
  _ ← (match uid with Some _ => attempt RemoveUser (remove_user (workload_username name)) | None => mret tt end);
  _ ← remove_tree (workload_root_dir name) (TreeRemains (workload_root_dir name));
  remove_tree (inspect_record_dir name) (TreeRemains (inspect_record_dir name)).

Definition helper_services (name : string) (rfs : list WorkloadRunFile) : list string :=
  omap (fun rf => let n := file_name (rf_path rf) in
                  if is_unit rf && negb (String.eqb n (workload_service_name name)) then Some n else None) rfs.

(** What is left to do once the units to stop are known. *)
Definition take_apart (config : table) (name : string) (purge : bool) (helpers : list string) : io dhost unit :=
  _ ← for_io (fun svc => _ ← attempt (StopUnit svc) (exec_ ["systemctl"; "stop"; svc]);
                         attempt (ResetUnit svc) (exec_ ["systemctl"; "reset-failed"; svc])) helpers;
  _ ← attempt HostTeardown (run_host_setup config name "disable");
  _ ← attempt SelinuxModule (remove_selinux_policy config name);
  _ ← attempt Fcontext (remove_vm_fcontext config name);
  _ ← attempt Marker (unlink_path (workload_enabled_marker name));
  _ ← attempt RunFiles (u ← look dh_uid; rfs ← pure (run_files config name u); remove_run_files rfs);
  _ ← attempt SubstrateTeardown (teardown config name purge);
  _ ← attempt Reload (exec_ ["systemctl"; "daemon-reload"]);
  if purge then purge_workload config name else attempt StopManager stop_user_manager.

(** ** The plan of a dry run: [_disable_plan] *)

Inductive plan_line :=
  | PlStop (units : list string) | PlRunFiles (ps : list pypath) | PlHook (script : string) | PlModule (name : string)
  | PlMarker (p : pypath) | PlEnvFiles (ps : list pypath) | PlUser (username : string) | PlNoUser (username : string)
  | PlDestroy (d : pypath) | PlStopManager (username : string) | PlKeep (username : string)
  | PlSubids (ps : list pypath) | PlRuntimeDir (d : pypath) | PlElements.

Definition subid_files_with_entries (f : files) (username : string) : list pypath :=
  List.filter (fun p => match f !! path_str p with Some (Text t) => subid_file_has_entry username (Some t) | _ => false end) subid_files.

Definition teardown_plan (config : table) (name : string) (purge : bool) (w : dhost) : list plan_line :=
  let f := dh_files w in
  when purge
    (if is_vm config then when (dir_exists f (socket_dir name)) [PlRuntimeDir (socket_dir name)] ++ [PlElements]
     else let subids := subid_files_with_entries f (workload_username name) in
          when (nonempty subids) [PlSubids subids] ++ when (dir_exists f (socket_dir name)) [PlRuntimeDir (socket_dir name)]).

Definition disable_plan (config : table) (name : string) (purge : bool) (w : dhost) : res (list plan_line) :=
  let f := dh_files w in
  rfs ← run_files config name (dh_uid w);
  let there p := map rf_path (List.filter (fun rf => Bool.eqb (is_env_file rf) p && file_exists f (rf_path rf)) (rfs : list WorkloadRunFile)) in
  setup ← get2 config "host" "setup" (TStr "");
  let user := workload_username name in
  Ok ([PlStop (workload_service_name name :: helper_services name rfs)] ++
      when (nonempty (there false)) [PlRunFiles (there false)] ++
      when (truthy setup) [PlHook (py_str setup)] ++
      [PlModule name; PlMarker (workload_enabled_marker name)] ++
      (if purge then
         when (nonempty (there true)) [PlEnvFiles (there true)] ++
         [match dh_uid w with Some _ => PlUser user | None => PlNoUser user end] ++
         when (dir_exists f (workload_root_dir name)) [PlDestroy (workload_root_dir name)]
       else match dh_uid w with Some _ => [PlStopManager user] | None => [] end ++ [PlKeep user]) ++
      teardown_plan config name purge w).

(** The paths a line of the plan names. *)
Definition names_path (l : plan_line) (p : string) : Prop :=
  match l with
  | PlRunFiles ps | PlEnvFiles ps | PlSubids ps => p ∈ map path_str ps
  | PlMarker q => p = path_str q
  | PlDestroy d | PlRuntimeDir d => under d p = true
  | _ => False
  end.

Definition listed (plan : list plan_line) (p : string) : Prop := exists l, l ∈ plan /\ names_path l p.

(** ** The verb *)

(** [failures: list[str] = []] *)
Definition no_failures : io dhost unit := fun w => (mkHost' (dh_files w) (dh_uid w) (dh_ran w) [], Ok tt).

(** [cmd_disable]: the exit status, and the plan of a dry run. *)
Definition cmd_disable (is_root : bool) (name : string) (purge dry_run : bool) : io dhost (Z * list plan_line) :=
  _ ← pure (if is_root then Ok tt else Raise NotRoot);
  config ← pure (load_config name);
  if dry_run then plan ← ((fun w => (w, disable_plan config name purge w)) : io dhost (list plan_line)); mret (0, plan)
  else
    _ ← no_failures;
    _ ← attempt (StopUnit (workload_service_name name)) (exec_ ["systemctl"; "stop"; workload_service_name name]);
    u ← look dh_uid;
    rfs ← pure (run_files config name u);
    _ ← take_apart config name purge (helper_services name rfs);
    failed ← look dh_failed;
    mret (if nonempty failed then 1 else 0, []).

(** ** Steps only take away *)

(** What the steps of a teardown may do to a world: remove files, rewrite a subid
    file without the user's entries, delete the user, report failures. *)
Record later (user : string) (w w' : dhost) : Prop := mkLater {
  lt_files p : dh_files w' !! p = dh_files w !! p \/ dh_files w' !! p = None \/
    exists t t', dh_files w !! p = Some (Text t) /\ dh_files w' !! p = Some (Text t') /\ subid_file_has_entry user (Some t') = false;
  lt_failed : exists l, dh_failed w' = dh_failed w ++ l;
  lt_uid : dh_uid w' = dh_uid w \/ dh_uid w' = None }.

#[local] Instance later_preorder user : PreOrder (later user).
Proof.
  split.
  - intros w. split; [by left|exists []; by rewrite app_nil_r|by left].
  - intros w1 w2 w3 [Hf1 [l1 Hl1] Hu1] [Hf2 [l2 Hl2] Hu2]. split.
    + intros p. destruct (Hf2 p) as [->|[->|(t & t' & E & -> & Ht)]]; [apply Hf1|by right; left|].
      right; right. destruct (Hf1 p) as [E1|[E1|(t1 & t1' & E1 & _)]]; [|congruence|].
      * exists t, t'. split; [congruence|done].
      * by exists t1, t'.
    + exists (l1 ++ l2). by rewrite Hl2, Hl1, app_assoc.
    + destruct Hu2 as [->| ->]; [done|by right].
Qed.

(** The user is still the one it was. *)
Definition same_uid (w w' : dhost) : Prop := dh_uid w' = dh_uid w.
#[local] Instance same_uid_preorder : PreOrder same_uid.
Proof. split; [done|]. intros w1 w2 w3 E1 E2. unfold same_uid in *. congruence. Qed.

Lemma unfailing_attempt label fn : unfailing (attempt label fn).
Proof. by apply unfailing_try. Qed.

Lemma within_look {A} R `{!PreOrder R} (f : dhost -> A) : within R (look f).
Proof. intros w. cbn. reflexivity. Qed.

(** The relations the steps stay within, and the operations that touch the world. *)
Class Noting (R : relation dhost) : Prop := {
  td_preorder :: PreOrder R;
  td_fail x : within R (record_failure x);
  td_exec cmd : within R (exec cmd) }.

Class Teardown (R : relation dhost) : Prop := {
  td_noting :: Noting R;
  td_unlink p : within R (unlink_path p);
  td_rmtree d : within R (rmtree d) }.

Ltac stays :=
  repeat first
    [ progress intros
    | match goal with H : _ |- within _ _ => solve [apply H] end
    | apply within_bind | apply within_try | apply within_for | apply within_pure | apply within_ret | apply within_look
    | apply td_preorder | apply td_fail | apply td_exec | apply td_unlink | apply td_rmtree
    | match goal with |- within _ (match ?x with _ => _ end) => destruct x end ].

Lemma within_attempt R `{!Noting R} label fn : within R fn -> within R (attempt label fn).
Proof. intros H. unfold attempt. stays. Qed.

Lemma within_exec_ R `{!Noting R} cmd : within R (exec_ cmd).
Proof. unfold exec_. stays. Qed.

(** Removing a file or a tree is a step of this kind. *)
Lemma later_set_files user w f :
  (forall p, f !! p = dh_files w !! p \/ f !! p = None) -> later user w (set_files f w).
Proof.
  intros Hf. split; cbn; [|exists []; by rewrite app_nil_r|by left].
  intros p. destruct (Hf p); auto.
Qed.

Lemma filter_lookup_cases (P : string * entry -> Prop) `{!forall x, Decision (P x)} (f : files) p :
  filter P f !! p = f !! p \/ filter P f !! p = None.
Proof.
  destruct (f !! p) as [e|] eqn:E.
  - destruct (decide (P (p, e))); [left; by apply map_lookup_filter_Some|right].
    apply map_lookup_filter_None. right. intros e' E'. congruence.
  - left. apply map_lookup_filter_None. by left.
Qed.

Lemma delete_cases (f : files) q p : delete q f !! p = f !! p \/ delete q f !! p = None.
Proof. destruct (decide (p = q)) as [->|]; [right; by rewrite lookup_delete_eq|left; by rewrite lookup_delete_ne]. Qed.

#[local] Instance later_noting user : Noting (later user).
Proof.
  split; [apply _| |].
  - intros x w. split; cbn; [by left|by eexists|by left].
  - intros cmd w. split; cbn; [by left|exists []; by rewrite app_nil_r|by left].
Qed.

#[local] Instance later_teardown user : Teardown (later user).
Proof.
  split; [apply _| |].
  - intros p w. unfold unlink_path. destruct (_ !! _); [|reflexivity]. destruct (removable p); [|reflexivity].
    apply later_set_files. apply delete_cases.
  - intros d w. unfold rmtree. destruct (tree_left d); apply later_set_files; intros p; apply filter_lookup_cases.
Qed.

#[local] Instance same_uid_noting : Noting same_uid.
Proof. split; [apply _|done|done]. Qed.

#[local] Instance same_uid_teardown : Teardown same_uid.
Proof.
  split; [apply _| |].
  - intros p w. unfold unlink_path. destruct (_ !! _); [|done]. by destruct (removable p).
  - intros d w. unfold rmtree. by destruct (tree_left d).
Qed.

Lemma remove_subid_entries_clears user t :
  match remove_subid_entries user (Some t) with
  | (Some t', changed) => subid_file_has_entry user (Some t') = false /\ changed = subid_file_has_entry user (Some t) /\
                          (changed = false -> t' = t)
  | (None, _) => False
  end.
Proof.
  pose proof (remove_subid_entries_spec user t) as H. destruct (remove_subid_entries user (Some t)) as [o c].
  destruct H as (u & -> & _ & Hu & _ & Hc & Hn). done.
Qed.

Lemma later_subid_file user p : within (later user) (clear_subids user p).
Proof.
  intros w. unfold clear_subids. destruct (dh_files w !! path_str p) as [[t|]|] eqn:E; [|reflexivity..].
  pose proof (remove_subid_entries_clears user t) as Hs. destruct (remove_subid_entries user (Some t)) as [[t'|] []]; [|reflexivity..].
  destruct (removable p); [|reflexivity]. split; cbn; [|exists []; by rewrite app_nil_r|by left].
  intros q. destruct (decide (q = path_str p)) as [->|]; [|left; by rewrite lookup_insert_ne].
  right; right. exists t, t'. rewrite lookup_insert_eq. by destruct Hs as [Hs _].
Qed.

Lemma later_remove_subids user : within (later user) (remove_subids user).
Proof. apply within_for; [apply _|]. intros p _. apply later_subid_file. Qed.

Lemma same_uid_remove_subids user : within same_uid (remove_subids user).
Proof.
  apply within_for; [apply _|]. intros p _ w. unfold clear_subids. destruct (dh_files w !! path_str p) as [[]|]; [|done..].
  destruct (remove_subid_entries user _) as [[] []]; [|done..]. by destruct (removable p).
Qed.

Lemma later_remove_user user username : within (later user) (remove_user username).
Proof.
  intros w. unfold remove_user. pose proof (td_exec (R := later user) ["userdel"; "-f"; username] w) as He.
  destruct (exec ["userdel"; "-f"; username] w) as [w1 [rc|e]]; cbn [fst] in *; [|done]. etrans; [exact He|].
  assert (H : later user w1 (mkHost' (dh_files w1) (if userdel_works then None else dh_uid w1) (dh_ran w1) (dh_failed w1))).
  { split; cbn; [by left|exists []; by rewrite app_nil_r|destruct userdel_works; auto]. }
  cbv zeta. destruct (dh_uid (mkHost' _ _ _ _)); [|exact H]. etrans; [exact H|apply (td_fail (R := later user))].
Qed.

Lemma unfailing_remove_tree d report : unfailing (remove_tree d report).
Proof.
  intros w. unfold remove_tree, look. cbv [mbind io_bind]. destruct (dir_exists _ _); [|done].
  unfold try_io, rmtree. by destruct (tree_left d).
Qed.

(** The composite steps. *)
Section composite.
Variable config : table.
Variable name : string.
Notation user := (workload_username name).

(** The steps that only run commands. *)
Lemma commands_stay R `{!Noting R} :
  (forall action, within R (run_host_setup config name action)) /\ within R (remove_selinux_policy config name) /\
  within R (remove_vm_fcontext config name) /\ within R stop_user_manager /\ (forall u, within R (kill_sessions u)) /\
  (forall helpers, within R (for_io (fun svc => _ ← attempt (StopUnit svc) (exec_ ["systemctl"; "stop"; svc]);
                                               attempt (ResetUnit svc) (exec_ ["systemctl"; "reset-failed"; svc])) helpers)).
Proof.
  unfold run_host_setup, remove_selinux_policy, remove_vm_fcontext, kill_sessions, stop_user_manager, attempt, exec_.
  split_and!; stays.
Qed.

Lemma steps_stay R `{!Teardown R} :
  (forall rfs, within R (remove_run_files rfs)) /\ (forall rfs, within R (remove_runtime_env_files rfs)) /\
  (forall d report, within R (remove_tree d report)) /\
  (within R (remove_subids user) -> forall purge, within R (teardown config name purge)).
Proof.
  unfold remove_run_files, remove_runtime_env_files, remove_tree, teardown, vm_teardown, container_teardown, attempt, exec_.
  split_and!; stays.
Qed.

Lemma later_purge : within (later user) (purge_workload config name).
Proof.
  destruct (steps_stay (later user)) as (_ & He & Ht & _). destruct (commands_stay (later user)) as (_ & _ & _ & _ & Hk & _).
  pose proof (later_remove_user user user) as Hu. unfold purge_workload, attempt. stays.
Qed.

Lemma unfailing_look_bind {A} (f : dhost -> A) (k : A -> io dhost unit) : (forall a, unfailing (k a)) -> unfailing (x ← look f; k x).
Proof. intros H w. apply H. Qed.

Lemma unfailing_purge : unfailing (purge_workload config name).
Proof.
  apply unfailing_look_bind. intros u.
  repeat apply unfailing_bind; try apply unfailing_attempt; try apply unfailing_remove_tree;
    destruct u; (apply unfailing_attempt || apply unfailing_ret).
Qed.

(** ** What each step reaches *)

(** [G], or a failure with its own cause that has been reported. *)
Definition gone_or (cause : Prop) (G : dhost -> Prop) (w : dhost) : Prop := G w \/ (cause /\ dh_failed w <> []).

Definition settled (Q : dhost -> Prop) : Prop := forall w w', later user w w' -> Q w -> Q w'.

Lemma settled_gone_or cause G : settled G -> settled (gone_or cause G).
Proof.
  intros HG w w' Hl [Hw|[Hc Hf]]; [left; by eapply HG|right]. split; [done|]. destruct (lt_failed _ _ _ Hl) as [l ->].
  intros E. apply app_eq_nil in E as [E _]. done.
Qed.

Lemma settled_keeps Q {A} (m : io dhost A) : settled Q -> within (later user) m -> keeps Q m.
Proof. intros HQ Hm w Hw. exact (HQ _ _ (Hm w) Hw). Qed.

Definition absent (p : string) (w : dhost) : Prop := dh_files w !! p = None.
Definition tree_gone (d : pypath) (w : dhost) : Prop := forall p, under d p = true -> absent p w.
Definition no_entries (w : dhost) : Prop :=
  forall p t, p ∈ subid_files -> dh_files w !! path_str p = Some (Text t) -> subid_file_has_entry user (Some t) = false.

Lemma settled_absent p : settled (absent p).
Proof. intros w w' Hl Hw. unfold absent in *. destruct (lt_files _ _ _ Hl p) as [->|[->|(t & t' & E & _)]]; congruence. Qed.

Lemma settled_tree d : settled (tree_gone d).
Proof. intros w w' Hl Hw p Hp. exact (settled_absent p _ _ Hl (Hw p Hp)). Qed.

Lemma settled_user : settled (fun w => dh_uid w = None).
Proof. intros w w' Hl Hw. destruct (lt_uid _ _ _ Hl); congruence. Qed.

Lemma settled_entries : settled no_entries.
Proof.
  intros w w' Hl Hw p t Hp E. destruct (lt_files _ _ _ Hl (path_str p)) as [E'|[E'|(t1 & t2 & _ & E2 & H)]]; [|congruence|].
  - eapply Hw; [done|]. by rewrite <- E'.
  - by assert (t = t2) as -> by congruence.
Qed.

Lemma settled_exists p : settled (fun w => file_exists (dh_files w) p = false).
Proof.
  intros w w' Hl. unfold file_exists. generalize 40%nat. intros n. revert p.
  induction n as [|n IH]; intros p; cbn [exists_from]; destruct (lt_files _ _ _ Hl (path_str p)) as [->|[->|(t & t' & -> & _)]]; try done.
  destruct (dh_files w !! path_str p) as [[]|]; [done|apply IH|done].
Qed.

Lemma attempt_reaches P label fn cause G :
  triple P fn (fun w r => match r with Ok _ => gone_or cause G w | Raise _ => cause end) ->
  triple P (attempt label fn) (fun w _ => gone_or cause G w).
Proof.
  intros H w Hw. specialize (H w Hw). unfold attempt, try_io. destruct (fn w) as [w1 [[]|e]]; cbn in *; [done|].
  right. split; [done|]. intros E. by apply app_eq_nil in E as [_ ?].
Qed.

(** A loop that reaches a settled property for each of its elements, or stops for a cause. *)
Lemma loop_reaches {A} (f : A -> io dhost unit) (Q : A -> dhost -> Prop) (cause : Prop) l :
  (forall x, settled (Q x)) -> (forall x, within (later user) (f x)) ->
  (forall x, x ∈ l -> triple (fun _ => True) (f x) (fun w r => match r with Ok _ => Q x w | Raise _ => cause end)) ->
  triple (fun _ => True) (for_io f l) (fun w r => match r with Ok _ => forall x, x ∈ l -> Q x w | Raise _ => cause end).
Proof.
  intros HQ Hf. induction l as [|x l IH]; intros Hx w _; cbn [for_io]; [by intros y ?%not_elem_of_nil|].
  pose proof (Hx x ltac:(by left) w I) as H1. cbv [mbind io_bind]. destruct (f x w) as [w1 [[]|e]]; cbn [fst snd] in *; [|done].
  assert (Hl : within (later user) (for_io f l)) by (apply within_for; [apply _|auto]).
  specialize (IH ltac:(intros y Hy; apply Hx; by right) w1 I). specialize (Hl w1).
  destruct (for_io f l w1) as [w2 [[]|e]]; cbn [fst snd] in *; [|done].
  intros y [->|Hy]%elem_of_cons; [by eapply HQ|by apply IH].
Qed.

Lemma unlink_reaches p :
  triple (fun _ => True) (unlink_path p) (fun w r => match r with Ok _ => absent (path_str p) w | Raise _ => removable p = false end).
Proof.
  intros w _. unfold unlink_path, absent. destruct (dh_files w !! path_str p) eqn:E; [|done].
  destruct (removable p) eqn:Er; cbn; [by rewrite lookup_delete_eq|done].
Qed.

Lemma unlink_raises_oserror p w e : snd (unlink_path p w) = Raise e -> is_oserror e = true.
Proof. unfold unlink_path. destruct (_ !! _); [|done]. destruct (removable p); [done|]. by intros [=<-]. Qed.

Definition file_gone (rf : WorkloadRunFile) : dhost -> Prop :=
  gone_or (removable (rf_path rf) = false) (absent (path_str (rf_path rf))).

Lemma remove_run_files_reaches rfs :
  triple (fun _ => True) (remove_run_files rfs)
    (fun w r => match r with Ok _ => forall rf, rf ∈ rfs -> is_env_file rf = false -> file_gone rf w | Raise _ => False end).
Proof.
  apply (loop_reaches _ (fun rf w => is_env_file rf = false -> file_gone rf w)).
  - intros rf w w' Hl Hw He. eapply settled_gone_or; [apply settled_absent|done|by apply Hw].
  - intros rf. stays.
  - intros rf _ w _. destruct (is_env_file rf); [done|]. pose proof (unlink_reaches (rf_path rf) w I) as H1.
    pose proof (unlink_raises_oserror (rf_path rf) w) as H2. unfold try_io.
    destruct (unlink_path (rf_path rf) w) as [w1 [[]|e]]; cbn in *; [intros _; left; exact H1|]. rewrite (H2 e) by done.
    cbn. intros _. right. split; [done|]. cbn. intros E. by apply app_eq_nil in E as [_ ?].
Qed.

Lemma env_files_reach rfs :
  triple (fun _ => True) (remove_runtime_env_files rfs)
    (fun w r => match r with
     | Ok _ => forall rf, rf ∈ rfs -> is_env_file rf = true -> file_exists (dh_files w) (rf_path rf) = false
     | Raise _ => exists rf, rf ∈ rfs /\ is_env_file rf = true /\ removable (rf_path rf) = false
     end).
Proof.
  apply (loop_reaches _ (fun rf w => is_env_file rf = true -> file_exists (dh_files w) (rf_path rf) = false)).
  - intros rf w w' Hl Hw He. eapply settled_exists; [done|by apply Hw].
  - intros rf. stays.
  - intros rf Hrf w _. destruct (is_env_file rf) eqn:He; [|done]. cbn [negb]. cbv [look mbind io_bind].
    destruct (file_exists (dh_files w) (rf_path rf)) eqn:Ee; [|cbn; intros _; exact Ee]. pose proof (unlink_reaches (rf_path rf) w I) as H1.
    destruct (unlink_path (rf_path rf) w) as [w1 [[]|e]]; cbn in *; [|by exists rf].
    intros _. unfold absent in H1. unfold file_exists. cbn [exists_from]. by rewrite H1.
Qed.

Lemma subids_reach :
  triple (fun _ => True) (remove_subids user)
    (fun w r => match r with Ok _ => no_entries w | Raise _ => exists p, p ∈ subid_files /\ removable p = false end).
Proof.
  apply (triple_weaken (fun _ => True) _ _ (fun w r => match r with
    | Ok _ => forall p, p ∈ subid_files -> forall t, dh_files w !! path_str p = Some (Text t) -> subid_file_has_entry user (Some t) = false
    | Raise _ => exists p, p ∈ subid_files /\ removable p = false
    end)); [|done|intros w [[]|e] H; [intros p t Hp E; by eapply H|exact H]].
  apply (loop_reaches _ (fun p w => forall t, dh_files w !! path_str p = Some (Text t) -> subid_file_has_entry user (Some t) = false)).
  - intros p w w' Hl Hw t E. destruct (lt_files _ _ _ Hl (path_str p)) as [E'|[E'|(t1 & t2 & _ & E2 & H)]]; [|congruence|].
    + apply Hw. by rewrite <- E'.
    + by assert (t = t2) as -> by congruence.
  - intros p. apply later_subid_file.
  - intros p Hp w _. unfold clear_subids. destruct (dh_files w !! path_str p) as [[t|]|] eqn:E; cbn [fst snd]; [|intros; congruence..].
    pose proof (remove_subid_entries_clears user t) as Hs. destruct (remove_subid_entries user (Some t)) as [[t'|] c]; [|done].
    destruct Hs as (Hn & Hc & Hu). destruct c; cbn.
    + destruct (removable p) eqn:Er; cbn; [|by exists p]. intros t1. rewrite lookup_insert_eq. by intros [= <-].
    + rewrite E. intros t1 [= <-]. by rewrite <- (Hu eq_refl).
Qed.

Lemma dir_exists_false f d : dir_exists f d = false -> forall p, under d p = true -> f !! p = None.
Proof.
  intros H p Hp. destruct (f !! p) as [e|] eqn:E; [|done]. apply not_true_iff_false in H. destruct H.
  apply existsb_exists. exists (p, e). split; [by apply list_elem_of_In, elem_of_map_to_list|done].
Qed.

Lemma remove_tree_reaches d report :
  triple (fun _ => True) (remove_tree d report) (fun w _ => gone_or (tree_left d <> None) (tree_gone d) w).
Proof.
  intros w _. unfold remove_tree. cbv [look mbind io_bind]. destruct (dir_exists (dh_files w) d) eqn:E; cbn [fst].
  - unfold try_io, rmtree. destruct (tree_left d) as [left|] eqn:El; cbn.
    + right. split; [done|]. cbn. intros H. by apply app_eq_nil in H as [_ ?].
    + left. intros p Hp. unfold absent. cbn. apply map_lookup_filter_None. right. intros e _. by rewrite Hp.
  - left. intros p. by apply dir_exists_false.
Qed.

Definition userdel_cause : Prop := userdel_works = false \/ spawn ["userdel"; "-f"; user] = None.

Lemma remove_user_reaches :
  triple (fun _ => True) (remove_user user)
    (fun w r => match r with Ok _ => gone_or userdel_cause (fun w => dh_uid w = None) w | Raise _ => userdel_cause end).
Proof.
  intros w _. unfold remove_user, exec, userdel_cause, gone_or. destruct (spawn _); cbn; [|by right].
  destruct userdel_works; cbn; [by left|]. destruct (dh_uid w); cbn; [right|by left]. split; [by left|].
  intros E. by apply app_eq_nil in E as [_ ?].
Qed.

(** ** The whole teardown *)

Ltac calm :=
  let H := fresh in pose proof (steps_stay (later user)) as H;
  let Ht := fresh in destruct H as (? & ? & ? & Ht);
  let Hc := fresh in pose proof (commands_stay (later user)) as Hc; destruct Hc as (? & ? & ? & ? & ? & ?);
  specialize (Ht (later_remove_subids user)); pose proof later_purge; pose proof (later_remove_user user user);
  unfold attempt, exec_; stays.

Ltac settles := apply settled_keeps; [|calm].

Ltac hush := repeat first [apply unfailing_bind | apply unfailing_attempt | apply unfailing_for; intros | apply unfailing_ret | apply unfailing_remove_tree | apply unfailing_purge].

(** The steps before the user is removed leave the user as it is. *)
Ltac uid_stays :=
  let H := fresh in pose proof (steps_stay same_uid) as H;
  let Ht := fresh in destruct H as (? & ? & ? & Ht);
  let Hc := fresh in pose proof (commands_stay same_uid) as Hc; destruct Hc as (? & ? & ? & ? & ? & ?);
  specialize (Ht (same_uid_remove_subids user));
  let w := fresh in let E := fresh in intros w E; etrans; [|exact E];
  match goal with |- dh_uid (fst (?m _)) = _ => assert (within same_uid m) as Hx by (unfold attempt, exec_; stays); exact (Hx w) end.

Ltac skip := apply reach_then; [by hush|by uid_stays|].

Section whole.
Variable u0 : option Z.
Variable purge : bool.
Variable rfs : list WorkloadRunFile.
Variable helpers : list string.
Hypothesis Hrfs : run_files config name u0 = Ok rfs.
Notation start := (fun w => dh_uid w = u0).

Lemma marker_reached :
  triple start (take_apart config name purge helpers)
    (fun w _ => gone_or (removable (workload_enabled_marker name) = false) (absent (path_str (workload_enabled_marker name))) w).
Proof.
  unfold take_apart. do 4 skip. apply reach_first; [by hush| |settles; apply settled_gone_or, settled_absent].
  apply attempt_reaches. intros w _. pose proof (unlink_reaches (workload_enabled_marker name) w I) as H.
  destruct (snd _); [by left|done].
Qed.

Lemma run_files_reached :
  triple start (take_apart config name purge helpers)
    (fun w _ => forall rf, rf ∈ rfs -> is_env_file rf = false -> file_gone rf w).
Proof.
  unfold take_apart. do 5 skip. apply reach_first; [by hush| |].
  - intros w Hw. cbv [attempt try_io look mbind io_bind pure]. rewrite Hw, Hrfs.
    pose proof (remove_run_files_reaches rfs w I) as H. by destruct (remove_run_files rfs w) as [w1 [[]|e]].
  - settles. intros w w' Hl Hw rf Hrf He. eapply settled_gone_or; [apply settled_absent|done|by apply Hw].
Qed.

Lemma triple_look {A B} (P : dhost -> Prop) (f : dhost -> A) a (k : A -> io dhost B) Q :
  (forall w, P w -> f w = a) -> triple P (k a) Q -> triple P (x ← look f; k x) Q.
Proof. intros Hf Hk w Hw. cbv [look mbind io_bind]. rewrite (Hf w Hw). by apply Hk. Qed.

Lemma attempt_unfailing P Q label fn : unfailing fn -> triple P fn (fun w _ => Q w) -> triple P (attempt label fn) (fun w _ => Q w).
Proof.
  intros Hq H w Hw. specialize (H w Hw). specialize (Hq w). unfold attempt, try_io. destruct (fn w) as [w1 r]. cbn in *. by subst r.
Qed.

Ltac pass := apply reach_then; [by hush|by intros ? _|].

Definition subid_cause : Prop := exists p, p ∈ subid_files /\ removable p = false.

Lemma teardown_reached :
  purge = true -> is_vm config = false ->
  triple start (take_apart config name purge helpers)
    (fun w _ => gone_or subid_cause no_entries w /\ gone_or (tree_left (socket_dir name) <> None) (tree_gone (socket_dir name)) w).
Proof.
  intros Hp Hv. unfold take_apart. do 6 skip. apply reach_first; [by hush| |].
  - unfold teardown, container_teardown. rewrite Hp, Hv. apply attempt_unfailing; [by hush|].
    cbn [negb]. intros w _. split.
    + apply (reach_first (fun _ => True) (gone_or subid_cause no_entries)); [by hush| |settles; apply settled_gone_or, settled_entries|done].
      apply attempt_reaches. intros w1 _. pose proof (subids_reach w1 I) as H. by destruct (snd _); [left|].
    + apply (reach_then (fun _ => True) (gone_or (tree_left (socket_dir name) <> None) (tree_gone (socket_dir name))));
        [by hush|done|apply remove_tree_reaches|done].
  - settles. intros w w' Hl [H1 H2]. split; (eapply settled_gone_or; [|done|done]); [apply settled_entries|apply settled_tree].
Qed.

Definition env_cause : Prop := exists rf, rf ∈ rfs /\ is_env_file rf = true /\ removable (rf_path rf) = false.
Definition env_gone (w : dhost) : Prop :=
  forall rf, rf ∈ rfs -> is_env_file rf = true -> file_exists (dh_files w) (rf_path rf) = false.

Lemma env_reached : triple start (purge_workload config name) (fun w _ => gone_or env_cause env_gone w).
Proof.
  apply (triple_look _ _ u0); [done|]. apply reach_then; [by destruct u0; hush|destruct u0; [uid_stays|by intros w Hw]|].
  apply reach_first; [by hush| |].
  - apply attempt_reaches. apply (triple_look _ _ u0); [done|]. intros w _. cbv [mbind io_bind pure]. rewrite Hrfs.
    pose proof (env_files_reach rfs w I) as H. by destruct (snd (remove_runtime_env_files rfs w)); [left|].
  - settles. apply settled_gone_or. intros w w' Hl Hw rf Hrf He. eapply settled_exists; [done|by apply Hw].
Qed.

Lemma user_reached : triple start (purge_workload config name) (fun w _ => gone_or userdel_cause (fun w => dh_uid w = None) w).
Proof.
  clear Hrfs. apply (triple_look _ _ u0); [done|]. destruct u0 as [u|].
  - skip. skip. apply reach_first; [by hush| |settles; apply settled_gone_or, settled_user].
    apply attempt_reaches. intros w _. apply remove_user_reaches. exact I.
  - intros w Hw. left. apply (settled_user w); [|done]. match goal with |- later _ _ (fst (?m _)) => assert (Hl : within (later user) m) by calm end.
    apply Hl.
Qed.

Lemma trees_reached d :
  d ∈ [workload_root_dir name; inspect_record_dir name] ->
  triple start (purge_workload config name) (fun w _ => gone_or (tree_left d <> None) (tree_gone d) w).
Proof.
  clear Hrfs. intros Hd. apply (triple_look _ _ u0); [done|].
  eapply triple_weaken with (P := fun _ => True); [|done|intros w r H; exact H].
  apply reach_then; [by destruct u0; hush|by intros w _|]. pass. apply reach_then; [by destruct u0; hush|by intros w _|].
  apply elem_of_cons in Hd as [->|Hd]; [apply reach_first|apply list_elem_of_singleton in Hd as ->; apply reach_then];
    [by hush|apply remove_tree_reaches|settles; apply settled_gone_or, settled_tree|by hush|by intros w _|apply remove_tree_reaches].
Qed.

Lemma purge_reached Q :
  purge = true -> triple start (purge_workload config name) (fun w _ => Q w) -> triple start (take_apart config name purge helpers) (fun w _ => Q w).
Proof. intros Hp HQ. unfold take_apart. do 8 skip. by rewrite Hp. Qed.

Lemma unfailing_take_apart : unfailing (take_apart config name purge helpers).
Proof. unfold take_apart. hush. by destruct purge; hush. Qed.
End whole.
End composite.

(** The verb runs to its end once the workload's files can be listed. *)
Lemma cmd_disable_runs name config purge rfs w :
  load_config name = Ok config -> run_files config name (dh_uid w) = Ok rfs ->
  exists w1 w', dh_files w1 = dh_files w /\ dh_uid w1 = dh_uid w /\ later (workload_username name) w1 w' /\
    fst (take_apart config name purge (helper_services name rfs) w1) = w' /\
    cmd_disable true name purge false w = (w', Ok (if nonempty (dh_failed w') then 1 else 0, [])).
Proof.
  intros Hc Hr. unfold cmd_disable. cbv [mbind io_bind pure no_failures look]. rewrite Hc. cbn [fst snd].
  set (w0 := mkHost' _ _ _ _). pose proof (unfailing_attempt (StopUnit (workload_service_name name)) (exec_ ["systemctl"; "stop"; workload_service_name name]) w0) as Hq.
  set (m := attempt _ _) in *. assert (Hm : dh_files (fst (m w0)) = dh_files w /\ dh_uid (fst (m w0)) = dh_uid w).
  { subst m w0. unfold attempt, try_io, exec_, exec. cbv [mbind io_bind]. by destruct (spawn _). }
  destruct (m w0) as [w1 r]. cbn in Hq, Hm. subst r. destruct Hm as [Hf Hu]. rewrite Hu, Hr.
  pose proof (unfailing_take_apart config name purge (helper_services name rfs) w1) as Ht.
  assert (Hl : within (later (workload_username name)) (take_apart config name purge (helper_services name rfs))).
  { destruct (steps_stay config name (later (workload_username name))) as (? & ? & ? & Htd).
    destruct (commands_stay config name (later (workload_username name))) as (? & ? & ? & ? & ? & ?).
    specialize (Htd (later_remove_subids _)). pose proof (later_purge config name). unfold take_apart, attempt, exec_. stays. }
  specialize (Hl w1). destruct (take_apart config name purge (helper_services name rfs) w1) as [w' r] eqn:Et. cbn in Ht, Hl. subst r.
  exists w1, w'. split_and!; [exact Hf|exact Hu|exact Hl|by rewrite Et|reflexivity].
Qed.

Lemma leftovers name config purge rfs w :
  load_config name = Ok config -> run_files config name (dh_uid w) = Ok rfs ->
  exists w' st, cmd_disable true name purge false w = (w', Ok (st, [])) /\
    let unless (cause gone : Prop) := gone \/ (cause /\ st = 1) in
    let marker := workload_enabled_marker name in
    (forall rf, rf ∈ rfs -> is_env_file rf = false ->
       unless (removable (rf_path rf) = false) (dh_files w' !! path_str (rf_path rf) = None)) /\
    unless (removable marker = false) (dh_files w' !! path_str marker = None) /\
    (purge = true ->
       unless (env_cause rfs) (env_gone rfs w') /\ unless (userdel_cause name) (dh_uid w' = None) /\
       (forall d, d ∈ [workload_root_dir name; inspect_record_dir name] -> unless (tree_left d <> None) (tree_gone d w')) /\
       (is_vm config = false ->
          unless subid_cause (no_entries name w') /\ unless (tree_left (socket_dir name) <> None) (tree_gone (socket_dir name) w'))).
Proof.
  intros Hc Hr. destruct (cmd_disable_runs name config purge rfs w Hc Hr) as (w1 & w' & _ & Hu & _ & Ew & E).
  exists w', (if nonempty (dh_failed w') then 1 else 0). split; [exact E|]. cbv zeta.
  assert (Hx : forall cause G, gone_or cause G w' -> G w' \/ (cause /\ (if nonempty (dh_failed w') then 1 else 0) = 1)).
  { intros cause G [H|[H1 H2]]; [by left|right]. split; [done|]. by destruct (dh_failed w'). }
  rewrite <- Hu in Hr. rewrite <- Ew in Hx |- *. split_and!.
  - intros rf Hrf He. apply (Hx _ (absent (path_str (rf_path rf)))). exact (run_files_reached config name _ purge rfs _ Hr w1 eq_refl rf Hrf He).
  - apply (Hx _ (absent (path_str (workload_enabled_marker name)))). exact (marker_reached config name _ purge _ w1 eq_refl).
  - intros Hp. split_and!.
    + apply (Hx _ (env_gone rfs)). exact (purge_reached config name _ purge _ _ Hp (env_reached config name _ rfs Hr) w1 eq_refl).
    + apply (Hx _ (fun w => dh_uid w = None)). exact (purge_reached config name _ purge _ _ Hp (user_reached config name _) w1 eq_refl).
    + intros d Hd. apply (Hx _ (tree_gone d)). exact (purge_reached config name _ purge _ _ Hp (trees_reached config name _ d Hd) w1 eq_refl).
    + intros Hv. destruct (teardown_reached config name _ purge (helper_services name rfs) Hp Hv w1 eq_refl) as [H1 H2].
      split; [by apply (Hx _ (no_entries name))|by apply (Hx _ (tree_gone (socket_dir name)))].
Qed.

(** A workload whose files cannot be listed: the verb ends in the exception, after
    the stop of the service and with every file as it was. *)
Lemma cmd_disable_unlisted name config purge e w :
  load_config name = Ok config -> run_files config name (dh_uid w) = Raise e ->
  exists w', cmd_disable true name purge false w = (w', Raise e) /\ dh_files w' = dh_files w /\ dh_uid w' = dh_uid w.
Proof.
  intros Hc Hr. unfold cmd_disable. cbv [mbind io_bind pure no_failures look]. rewrite Hc. cbn [fst snd].
  set (w0 := mkHost' _ _ _ _). pose proof (unfailing_attempt (StopUnit (workload_service_name name)) (exec_ ["systemctl"; "stop"; workload_service_name name]) w0) as Hq.
  set (m := attempt _ _) in *. assert (Hm : dh_files (fst (m w0)) = dh_files w /\ dh_uid (fst (m w0)) = dh_uid w).
  { subst m w0. unfold attempt, try_io, exec_, exec. cbv [mbind io_bind]. by destruct (spawn _). }
  destruct (m w0) as [w1 r]. cbn in Hq, Hm. subst r. destruct Hm as [Hf Hu]. rewrite Hu, Hr. by exists w1.
Qed.

(** C6.  What a disable, with or without a purge, leaves, for root and a configuration that
    loads.  If the workload's run files can be listed, the verb ends whatever commands
    cannot be run: every file of the list that is no env file, the enabled marker, and
    on a purge the listed env files, the user, the workload's root and record trees and,
    for a container, its runtime directory and subid entries are gone, unless that very
    thing could not be removed, and then the exit status is 1.  If they cannot be listed
    the verb ends in that exception with every file, the marker included, and the user
    still there.  (A VM's passt file is not in the list and stays:
    [netdev_file_survives_purge].) *)
Theorem every_leftover_has_its_cause name config purge w :
  load_config name = Ok config ->
  match run_files config name (dh_uid w) with
  | Raise e => exists w', cmd_disable true name purge false w = (w', Raise e) /\
                 dh_files w' = dh_files w /\ dh_uid w' = dh_uid w
  | Ok rfs =>
    exists w' st, cmd_disable true name purge false w = (w', Ok (st, [])) /\
      let unless (cause gone : Prop) := gone \/ (cause /\ st = 1) in
      let marker := workload_enabled_marker name in
      (forall rf, rf ∈ rfs -> is_env_file rf = false ->
         unless (removable (rf_path rf) = false) (dh_files w' !! path_str (rf_path rf) = None)) /\
      unless (removable marker = false) (dh_files w' !! path_str marker = None) /\
      (purge = true ->
         unless (env_cause rfs) (env_gone rfs w') /\ unless (userdel_cause name) (dh_uid w' = None) /\
         (forall d, d ∈ [workload_root_dir name; inspect_record_dir name] -> unless (tree_left d <> None) (tree_gone d w')) /\
         (is_vm config = false ->
            unless subid_cause (no_entries name w') /\ unless (tree_left (socket_dir name) <> None) (tree_gone (socket_dir name) w')))
  end.
Proof.
  intros Hc. destruct (run_files config name (dh_uid w)) as [rfs|e] eqn:E.
  - by apply leftovers.
  - by eapply cmd_disable_unlisted.
Qed.

(** ** What a teardown touches *)

(** The paths of [D] may change in any way, a subid file only by losing the
    user's entries, and nothing else changes. *)
Definition footprint (user : string) (D : string -> Prop) (S : Prop) (w w' : dhost) : Prop := forall p,
  dh_files w' !! p = dh_files w !! p \/ D p \/
  (S /\ p ∈ map path_str subid_files /\ exists t t', dh_files w !! p = Some (Text t) /\ subid_file_has_entry user (Some t) = true /\
     dh_files w' !! p = Some (Text t') /\ subid_file_has_entry user (Some t') = false).

#[local] Instance footprint_noting user D S : Noting (footprint user D S).
Proof.
  split; [split| |].
  - intros w p. by left.
  - intros w1 w2 w3 H1 H2 p. destruct (H2 p) as [->|[?|(HS & Hp & t & t' & E & Ht & E' & Ht')]]; [apply H1|by right; left|].
    destruct (H1 p) as [E1|[?|(_ & _ & t1 & t1' & _ & _ & E1 & Ht1)]]; [|by right; left|].
    + right; right. rewrite <- E1. eauto 10.
    + assert (t = t1') by congruence. congruence.
  - intros x w p. by left.
  - intros cmd w p. by left.
Qed.

Section touched.
Variable user : string.
Variable D : string -> Prop.
Variable S : Prop.
Notation R := (footprint user D S).

Lemma touch_unlink p : D (path_str p) -> within R (unlink_path p).
Proof.
  intros HD w q. unfold unlink_path. destruct (_ !! path_str p); [|by left]. destruct (removable p); [|by left]. cbn.
  destruct (decide (q = path_str p)) as [->|]; [by right; left|left; by rewrite lookup_delete_ne].
Qed.

Lemma touch_rmtree d : (forall q, under d q = true -> D q) -> within R (rmtree d).
Proof.
  intros HD w q. unfold rmtree. destruct (under d q) eqn:E; [right; left; by apply HD|left].
  assert (Hk : forall (P : string * entry -> Prop) `{!forall x, Decision (P x)}, (forall e, P (q, e)) -> filter P (dh_files w) !! q = dh_files w !! q).
  { intros P HP HPq. destruct (dh_files w !! q) as [e|] eqn:Ew; [by apply map_lookup_filter_Some|]. apply map_lookup_filter_None. by left. }
  destruct (tree_left d); cbn; apply Hk; intros e; by rewrite E.
Qed.

Lemma touch_subids : S -> within R (remove_subids user).
Proof.
  intros HS. apply within_for; [apply _|]. intros p Hp w q. unfold clear_subids.
  destruct (dh_files w !! path_str p) as [[t|]|] eqn:E; [|by left..]. pose proof (remove_subid_entries_clears user t) as Hs.
  destruct (remove_subid_entries user (Some t)) as [[t'|] c]; [|by left]. destruct c; [|by left]. destruct (removable p); [|by left]. cbn [fst set_files dh_files].
  destruct (decide (q = path_str p)) as [->|]; [|left; by rewrite lookup_insert_ne].
  right; right. rewrite lookup_insert_eq. split_and!; [done|by apply (list_elem_of_fmap_2 path_str)|]. exists t, t'. by destruct Hs as (? & <- & _).
Qed.

Lemma touch_user username : within R (remove_user username).
Proof.
  intros w. unfold remove_user, exec. destruct (spawn _); cbn; [|intros p; by left].
  destruct (if userdel_works then None else dh_uid w); intros p; by left.
Qed.
End touched.

Ltac hush := repeat first [apply unfailing_bind | apply unfailing_attempt | apply unfailing_for; intros | apply unfailing_ret | apply unfailing_remove_tree | apply unfailing_purge].

Section plan.
Variable config : table.
Variable name : string.
Variable purge : bool.
Variable w0 : dhost.
Variable rfs : list WorkloadRunFile.
Hypothesis Hrfs : run_files config name (dh_uid w0) = Ok rfs.
Notation user := (workload_username name).

(** The paths a disable may remove. *)
Definition own_path (p : string) : Prop :=
  p = path_str (workload_enabled_marker name) \/
  (exists rf, rf ∈ rfs /\ p = path_str (rf_path rf) /\ is_env_file rf = false) \/
  (purge = true /\ ((exists rf, rf ∈ rfs /\ p = path_str (rf_path rf) /\ is_env_file rf = true /\ file_exists (dh_files w0) (rf_path rf) = true) \/
                    under (workload_root_dir name) p = true \/ under (inspect_record_dir name) p = true \/
                    under (socket_dir name) p = true)).

Notation R := (footprint user own_path (purge = true /\ is_vm config = false)).
Definition on_track (w : dhost) : Prop := R w0 w /\ later user w0 w.
Definition with_user (w : dhost) : Prop := on_track w /\ dh_uid w = dh_uid w0.

Lemma on_track_keeps {A} (m : io dhost A) : within R m -> within (later user) m -> keeps on_track m.
Proof. intros H1 H2 w [Hr Hl]. split; (etrans; [eassumption|]); [apply H1|apply H2]. Qed.

Lemma with_user_keeps {A} (m : io dhost A) : within R m -> within (later user) m -> within same_uid m -> keeps with_user m.
Proof. intros H1 H2 H3 w [Ht Hu]. split; [by apply (on_track_keeps m H1 H2)|]. etrans; [apply H3|exact Hu]. Qed.

Lemma touch_run_files : within R (remove_run_files rfs).
Proof.
  apply within_for; [apply _|]. intros rf Hrf. destruct (is_env_file rf) eqn:He; [apply within_ret, _|].
  apply within_try; [apply _| |intros; apply td_fail]. apply touch_unlink. right; left. by exists rf.
Qed.

Lemma touch_env_files : purge = true -> keeps on_track (remove_runtime_env_files rfs).
Proof.
  intros Hp. apply keeps_for. intros rf Hrf. destruct (is_env_file rf) eqn:He; [|by intros w Hw]. cbn [negb]. intros w Hw. cbv [look mbind io_bind].
  destruct (file_exists (dh_files w) (rf_path rf)) eqn:Ee; [|done]. refine (on_track_keeps _ _ (td_unlink _) w Hw).
  apply touch_unlink. right; right. split; [done|]. left. exists rf. split_and!; [done..|].
  destruct (file_exists (dh_files w0) (rf_path rf)) eqn:E0; [done|]. by rewrite (settled_exists name _ w0 w (proj2 Hw) E0) in Ee.
Qed.

Lemma touch_teardown : within R (teardown config name purge).
Proof.
  assert (Ht : purge = true -> within R (rmtree (socket_dir name))).
  { intros Hp. apply touch_rmtree. intros q Hq. right; right. tauto. }
  assert (Hs : purge = true -> is_vm config = false -> within R (remove_subids user)) by (intros; by apply touch_subids).
  assert (HN : Noting R) by apply _. revert Ht Hs HN. generalize R. intros R' Ht Hs HN.
  unfold teardown, vm_teardown, container_teardown, remove_tree, attempt, exec_.
  destruct purge, (is_vm config); cbn [negb]; try specialize (Ht eq_refl); try specialize (Hs eq_refl eq_refl); stays.
Qed.

Lemma touch_tree d report :
  purge = true -> d ∈ [workload_root_dir name; inspect_record_dir name] -> within R (remove_tree d report).
Proof.
  intros Hp Hd. assert (Ht : within R (rmtree d)); [|unfold remove_tree; by stays]. apply touch_rmtree. intros q Hq. right; right.
  split; [done|]. apply elem_of_cons in Hd as [->|Hd]; [tauto|]. apply list_elem_of_singleton in Hd as ->. tauto.
Qed.

Lemma keeps_look {A} (I : dhost -> Prop) (f : dhost -> A) a (k : A -> io dhost unit) :
  (forall w, I w -> f w = a) -> keeps I (k a) -> keeps I (x ← look f; k x).
Proof. intros Hf Hk w Hw. cbv [look mbind io_bind]. rewrite (Hf w Hw). by apply Hk. Qed.

Lemma keeps_attempt (I : dhost -> Prop) label fn :
  (forall x, keeps I (record_failure x)) -> keeps I fn -> keeps I (attempt label fn).
Proof.
  intros Hr Hf w Hw. specialize (Hf w Hw). unfold attempt, try_io. destruct (fn w) as [w1 [[]|e]]; [done|by apply Hr].
Qed.

Lemma on_track_attempt label fn : keeps on_track fn -> keeps on_track (attempt label fn).
Proof. apply keeps_attempt. intros x. apply on_track_keeps; apply td_fail. Qed.

Lemma with_user_attempt label fn : keeps with_user fn -> keeps with_user (attempt label fn).
Proof. apply keeps_attempt. intros x. apply with_user_keeps; apply td_fail. Qed.

Lemma env_files_with_user : purge = true -> keeps with_user (remove_runtime_env_files rfs).
Proof.
  intros Hp w [Ht Hu]. split; [by apply touch_env_files|]. destruct (steps_stay config name same_uid) as (_ & He & _). etrans; [apply He|done].
Qed.

Lemma on_track_purge : purge = true -> triple with_user (purge_workload config name) (fun w _ => on_track w).
Proof.
  intros Hp. apply (triple_look _ _ (dh_uid w0)); [by intros w []|].
  destruct (commands_stay config name R) as (_ & _ & _ & _ & Hk & _).
  destruct (commands_stay config name (later user)) as (_ & _ & _ & _ & Hk' & _).
  destruct (commands_stay config name same_uid) as (_ & _ & _ & _ & Hk'' & _).
  destruct (steps_stay config name (later user)) as (_ & _ & Ht & _).
  apply reach_then; [by destruct (dh_uid w0); hush|destruct (dh_uid w0); [apply with_user_attempt, with_user_keeps; auto|by intros w ?]|].
  apply reach_then; [by hush| |].
  { apply with_user_attempt, (keeps_look _ _ (dh_uid w0)); [by intros w []|]. intros w Hw. cbv [mbind io_bind pure]. rewrite Hrfs.
    by apply env_files_with_user. }
  apply (triple_weaken on_track _ _ (fun w _ => on_track w)); [|by intros w []|done].
  apply keeps_bind; [|intros _; apply keeps_bind; [|intros _]].
  - destruct (dh_uid w0); [|by intros w ?]. apply on_track_attempt, on_track_keeps; [apply touch_user|apply later_remove_user].
  - apply on_track_keeps; [apply touch_tree; [done|by left]|apply Ht].
  - apply on_track_keeps; [apply touch_tree; [done|by right; left]|apply Ht].
Qed.

Lemma on_track_take_apart helpers : triple with_user (take_apart config name purge helpers) (fun w _ => on_track w).
Proof.
  destruct (commands_stay config name R) as (H1 & H2 & H3 & H4 & _ & H5).
  destruct (commands_stay config name (later user)) as (L1 & L2 & L3 & L4 & _ & L5).
  destruct (commands_stay config name same_uid) as (U1 & U2 & U3 & U4 & _ & U5).
  destruct (steps_stay config name (later user)) as (Lr & _ & _ & Lt). destruct (steps_stay config name same_uid) as (Ur & _ & _ & Ut).
  unfold take_apart. apply reach_then; [by hush|by apply with_user_keeps|].
  do 3 (apply reach_then; [by hush|by apply with_user_attempt, with_user_keeps|]).
  apply reach_then; [by hush|apply with_user_attempt, with_user_keeps; [apply touch_unlink; by left|apply td_unlink..]|].
  apply reach_then; [by hush| |].
  { apply with_user_attempt, (keeps_look _ _ (dh_uid w0)); [by intros w []|]. apply keeps_pure_bind. intros l Hl.
    assert (l = rfs) as -> by congruence. apply with_user_keeps; [apply touch_run_files|apply Lr|apply Ur]. }
  apply reach_then; [by hush|apply with_user_attempt, with_user_keeps; [apply touch_teardown|apply Lt, later_remove_subids|apply Ut, same_uid_remove_subids]|].
  apply reach_then; [by hush|apply with_user_attempt, with_user_keeps; apply within_exec_, _|].
  assert (Hp : purge = true \/ purge = false) by (destruct purge; auto).
  destruct Hp as [Hp|Hp]; (match goal with |- context [if purge then ?a else ?b] =>
    first [replace (if purge then a else b) with a by (by rewrite Hp) | replace (if purge then a else b) with b by (by rewrite Hp)] end).
  - by apply on_track_purge.
  - apply (triple_weaken on_track _ _ (fun w _ => on_track w)); [|by intros w []|done]. by apply on_track_attempt, on_track_keeps.
Qed.

Lemma in_when {A} b (x : A) : b = true -> x ∈ when b [x].
Proof. intros ->. by left. Qed.

Lemma nonempty_elem {A} (x : A) l : x ∈ l -> nonempty l = true.
Proof. intros H. destruct l; [by apply not_elem_of_nil in H|done]. Qed.

Lemma listed_there (f : files) (b : bool) rf :
  rf ∈ rfs -> is_env_file rf = b -> file_exists f (rf_path rf) = true ->
  let there := map rf_path (List.filter (fun rf => Bool.eqb (is_env_file rf) b && file_exists f (rf_path rf)) rfs) in
  nonempty there = true /\ path_str (rf_path rf) ∈ map path_str there.
Proof.
  intros Hrf Hb He. cbv zeta. assert (Hin : rf_path rf ∈ map rf_path (List.filter (fun rf => Bool.eqb (is_env_file rf) b && file_exists f (rf_path rf)) rfs)).
  { apply (list_elem_of_fmap_2 rf_path). apply list_elem_of_In, filter_In. split; [by apply list_elem_of_In|]. by rewrite Hb, He, eqb_reflx. }
  split; [by eapply nonempty_elem|by apply (list_elem_of_fmap_2 path_str)].
Qed.

Lemma dir_there f d p : under d p = true -> f !! p <> None -> dir_exists f d = true.
Proof. intros Hp Hf. destruct (dir_exists f d) eqn:E; [done|]. by rewrite (dir_exists_false f d E p Hp) in Hf. Qed.

(** Whatever may go is in the plan, but for the record of the inspector and for
    dangling links among the run files. *)
Lemma plan_lists plan p :
  disable_plan config name purge w0 = Ok plan -> own_path p -> dh_files w0 !! p <> None ->
  listed plan p \/ (purge = true /\ under (inspect_record_dir name) p = true) \/
  (exists rf, rf ∈ rfs /\ p = path_str (rf_path rf) /\ file_exists (dh_files w0) (rf_path rf) = false).
Proof.
  unfold disable_plan. rewrite Hrfs. cbn [mbind res_bind]. intros (setup & _ & <-%Ok_inj)%bind_Ok_inv HD Hf. unfold listed.
  destruct HD as [->|[(rf & Hrf & -> & He)|[Hp HD]]].
  - left. exists (PlMarker (workload_enabled_marker name)). split; [|done]. set_solver.
  - destruct (file_exists (dh_files w0) (rf_path rf)) eqn:Ee; [left|right; right; by exists rf].
    destruct (listed_there _ _ rf Hrf He Ee) as [Hn Hin]. eexists (PlRunFiles _). split; [|exact Hin]. rewrite !elem_of_app. right; left. by apply in_when.
  - rewrite Hp. destruct HD as [(rf & Hrf & -> & He & Ee)|[H|[H|H]]]; [left|left|by right; left|left].
    + destruct (listed_there _ _ rf Hrf He Ee) as [Hn Hin]. eexists (PlEnvFiles _). split; [|exact Hin]. rewrite !elem_of_app. do 4 right. left. left. by apply in_when.
    + exists (PlDestroy (workload_root_dir name)). split; [|done]. rewrite !elem_of_app. do 4 right. left. right; right. by apply in_when, (dir_there _ _ p).
    + exists (PlRuntimeDir (socket_dir name)). split; [|done]. rewrite !elem_of_app. do 5 right. unfold teardown_plan. cbn [when].
      destruct (is_vm config); rewrite elem_of_app; [left|right]; by apply in_when, (dir_there _ _ p).
Qed.

Lemma subids_listed plan p t :
  disable_plan config name purge w0 = Ok plan -> purge = true -> is_vm config = false ->
  p ∈ map path_str subid_files -> dh_files w0 !! p = Some (Text t) -> subid_file_has_entry user (Some t) = true -> listed plan p.
Proof.
  unfold disable_plan. rewrite Hrfs. cbn [mbind res_bind]. intros (setup & _ & <-%Ok_inj)%bind_Ok_inv Hp Hv Hin Hf Ht.
  apply (list_elem_of_fmap_1 path_str) in Hin as (q & -> & Hq). set (subids := subid_files_with_entries (dh_files w0) user).
  assert (Hs : q ∈ subids).
  { apply list_elem_of_In, filter_In. split; [by apply list_elem_of_In|]. by rewrite Hf. }
  exists (PlSubids subids). split; [|by apply (list_elem_of_fmap_2 path_str)]. rewrite !elem_of_app. do 5 right. unfold teardown_plan. rewrite Hp, Hv. cbn [when].
  rewrite elem_of_app. left. by apply in_when, (nonempty_elem q).
Qed.
End plan.

Lemma disable_touches name config purge rfs w w' r :
  load_config name = Ok config -> run_files config name (dh_uid w) = Ok rfs -> cmd_disable true name purge false w = (w', r) ->
  footprint (workload_username name) (own_path name purge w rfs) (purge = true /\ is_vm config = false) w w'.
Proof.
  intros Hc Hrf Hrun p. destruct (cmd_disable_runs name config purge rfs w Hc Hrf) as (w1 & w2 & Hf & Hu & Hl & Ew & E).
  assert (w2 = w') as -> by congruence. assert (Hr1 : run_files config name (dh_uid w1) = Ok rfs) by congruence.
  destruct (on_track_take_apart config name purge w1 rfs Hr1 (helper_services name rfs) w1) as [Hfoot _].
  { split; [split; reflexivity|done]. }
  rewrite Ew in Hfoot. specialize (Hfoot p). unfold own_path in *. by rewrite Hf in Hfoot.
Qed.

Lemma cmd_disable_dry name purge w plan :
  cmd_disable true name purge true w = (w, Ok (0, plan)) ->
  exists config, load_config name = Ok config /\ disable_plan config name purge w = Ok plan.
Proof.
  unfold cmd_disable. cbv [mbind io_bind pure]. destruct (load_config name) as [config|]; [|discriminate].
  destruct (disable_plan config name purge w) as [plan'|] eqn:Hpl; [|discriminate].
  intros H. exists config. split; [done|]. rewrite Hpl. injection H as ->. done.
Qed.

(** A dry run changes nothing and says what the real run will take away: every
    file that a disable changes is named by the plan, but for the inspector's record
    of requests, which a purge removes unannounced, and for run files that are dangling
    links. *)
Theorem plan_names_what_goes name purge w plan w' r :
  cmd_disable true name purge true w = (w, Ok (0, plan)) -> cmd_disable true name purge false w = (w', r) ->
  forall p, dh_files w' !! p <> dh_files w !! p ->
    listed plan p \/ (purge = true /\ under (inspect_record_dir name) p = true) \/
    (exists rf t, dh_files w !! path_str (rf_path rf) = Some (Link t) /\ p = path_str (rf_path rf) /\ file_exists (dh_files w) (rf_path rf) = false).
Proof.
  intros Hdry Hrun p Hp. destruct (cmd_disable_dry name purge w plan Hdry) as (config & Hc & Hpl).
  assert (Hrf : exists rfs, run_files config name (dh_uid w) = Ok rfs) by (unfold disable_plan in Hpl; destruct (run_files config name (dh_uid w)); [eauto|discriminate Hpl]).
  destruct Hrf as [rfs Hrf]. pose proof (disable_touches name config purge rfs w w' r Hc Hrf Hrun p) as Hfoot.
  assert (Hne : dh_files w !! p <> None).
  { destruct (cmd_disable_runs name config purge rfs w Hc Hrf) as (w1 & w2 & Hf & _ & Hl & _ & E). assert (w2 = w') as -> by congruence.
    rewrite <- Hf in Hp |- *. destruct (lt_files _ _ _ Hl p) as [?|[?|(t & ? & -> & _)]]; [done| |done]. intros ?; congruence. }
  destruct Hfoot as [?|[HD|(HS & Hin & t & t' & Ef & Ht & _)]]; [done| |].
  - destruct (plan_lists config name purge w rfs Hrf plan p Hpl HD Hne) as [?|[?|(rf & _ & -> & Hex)]]; [by left|by right; left|right; right].
    destruct (dh_files w !! path_str (rf_path rf)) as [[t|t]|] eqn:Ex; [|by exists rf, t|done].
    unfold file_exists in Hex. cbn [exists_from] in Hex. by rewrite Ex in Hex.
  - left. by eapply (subids_listed config name purge w rfs Hrf plan p t Hpl (proj1 HS) (proj2 HS)).
Qed.

(** ** What was generated goes *)

Lemma relative_join p base r : relative_to p base = Ok r -> path_join base r = p.
Proof.
  unfold relative_to. case_decide as Hr; [|done]. destruct (drop_prefix (parts base) (parts p)) as [k|] eqn:E; [|done]. intros <-%Ok_inj.
  assert (H : forall b q k, drop_prefix b q = Some k -> q = b ++ k).
  { intros b. induction b as [|x b IH]; intros q k'; cbn [drop_prefix]; [by intros [= ->]|]. destruct q as [|y q]; [done|].
    case_decide as Hx; [|done]. intros ->%IH. by subst. }
  unfold path_join. rewrite <- (H _ _ _ E), <- Hr. by destruct p.
Qed.

(** In the live directories the paths of the generator are those of the inventory. *)
Lemma emitted_paths_are_run_files vw paths rfs p :
  emitted_run_paths env_dir RUN_SYSTEMD_SYSTEM RUN_SYSTEMD_SYSTEM vw = Ok paths -> workload_run_files env_dir vw = Ok rfs ->
  p ∈ path_strings paths -> exists rf, rf ∈ rfs /\ is_env_file rf = false /\ p = path_str (rf_path rf).
Proof.
  unfold emitted_run_paths. intros H Hr. rewrite Hr, bind_Ok in H. intros ([[k r] q] & -> & Hq)%list_elem_of_fmap. cbn [snd].
  apply mapM_res_Forall2 in H. apply list_elem_of_lookup in Hq as [i Hi]. destruct (Forall2_lookup_r _ _ _ _ _ H Hi) as (rf & Hrf & Hq).
  apply list_elem_of_lookup_2 in Hrf.
  apply list_elem_of_In, filter_In in Hrf as [Hin He']. exists rf. apply list_elem_of_In in Hin. apply bind_Ok_inv in Hq as (rel & Hrel & Hq).
  apply andb_prop in He' as [_ He']. apply negb_true_iff in He'. split_and!; [done|done|].
  f_equal. rewrite <- (relative_join _ _ _ Hrel). apply Ok_inj in Hq. injection Hq as _ _ <-. by destruct (String.eqb _ _).
Qed.

(** The mode of a VM's view only decides which env files are listed. *)
Lemma vm_mode_irrelevant config name u m1 m2 l1 l2 rf :
  workload_run_files env_dir (mkView config name u true m1) = Ok l1 -> workload_run_files env_dir (mkView config name u true m2) = Ok l2 ->
  rf ∈ l1 -> is_env_file rf = false -> rf ∈ l2.
Proof.
  unfold workload_run_files. change (vm_run_files (mkView config name u true m2)) with (vm_run_files (mkView config name u true m1)).
  cbn [vw_is_vm vw_name vw_mode vw_config]. intros (fs & Hf & H1)%bind_Ok_inv. rewrite Hf, !bind_Ok. cbn [mbind res_bind] in H1.
  apply bind_Ok_inv in H1 as (s1 & Hs1 & <-%Ok_inj). intros (s2 & Hs2 & <-%Ok_inj)%bind_Ok_inv. rewrite !elem_of_app.
  intros [H|[H|[H|[H|H]]]] He; [tauto..|]. exfalso. destruct (bool_decide _); [apply Ok_inj in Hs1 as <-; by apply not_elem_of_nil in H|].
  apply bind_Ok_inv in Hs1 as (names & _ & <-%Ok_inj). apply list_elem_of_fmap in H as (c & -> & _). discriminate.
Qed.

Lemma inventory_is_run_files config name uid rfs p :
  run_files config name (Some uid) = Ok rfs -> p ∈ inventory env_dir RUN_SYSTEMD_SYSTEM RUN_SYSTEMD_SYSTEM config name uid ->
  exists rf, rf ∈ rfs /\ is_env_file rf = false /\ p = path_str (rf_path rf).
Proof.
  intros (m & Hm & Hr)%bind_Ok_inv. unfold inventory. intros [->|Hp]%elem_of_cons.
  - unfold workload_run_files in Hr. do 3 apply bind_Ok_inv in Hr as (? & _ & Hr). apply Ok_inj in Hr as <-. eexists. split; [left|]. split; [done|].
    reflexivity.
  - destruct (workload_view config name uid) as [vw|] eqn:Ev; cbn [mbind res_bind] in Hp; [|by apply not_elem_of_nil in Hp].
    destruct (emitted_run_paths _ _ _ vw) as [paths|] eqn:Ep; [|by apply not_elem_of_nil in Hp].
    assert (Hl : exists l, workload_run_files env_dir vw = Ok l) by (unfold emitted_run_paths in Ep; apply bind_Ok_inv in Ep as (l & ? & _); eauto).
    destruct Hl as [l Hl]. destruct (emitted_paths_are_run_files _ _ _ _ Ep Hl Hp) as (rf & Hrf & He & ->). exists rf. split_and!; [|done..].
    unfold workload_view in Ev. unfold is_vm in Hr. destruct (bool_decide _).
    + apply Ok_inj in Ev as <-. by eapply vm_mode_irrelevant.
    + rewrite Hm in Ev. apply Ok_inj in Ev as <-. congruence.
Qed.

Section roundtrip.
Context `{Emitters} `{!EmitterLaws env_dir}.

(** The generators on a workload, in the live directories. *)
Definition emit (config : table) (name : string) (uid : Z) (f : files) : files :=
  if is_vm config then fst (emit_vm RUN_SYSTEMD_SYSTEM RUN_SYSTEMD_SYSTEM config (workload_username name) uid f)
  else fst (emit_container RUN_SYSTEMD_SYSTEM RUN_SYSTEMD_SYSTEM config (workload_username name) uid f).

(** C11.  Disabling a workload undoes its generation: from a tree without files of the
    workload, whatever the generators wrote, a disable that reports success
    leaves the tree as it was, without the enabled marker. *)
Theorem disable_undoes_generation name config uid rfs f w w' :
  load_config name = Ok config -> run_files config name (Some uid) = Ok rfs ->
  (forall rf, rf ∈ rfs -> is_env_file rf = false -> f !! path_str (rf_path rf) = None) ->
  dh_files w = emit config name uid f -> dh_uid w = Some uid ->
  cmd_disable true name false false w = (w', Ok (0, [])) ->
  dh_files w' = delete (path_str (workload_enabled_marker name)) f.
Proof.
  intros Hc Hr Hfresh Hw Hu Hrun. rewrite <- Hu in Hr.
  assert (Hn : config_name config = Ok name).
  { unfold load_config in Hc. apply bind_Ok_inv in Hc as (c & _ & Hc). apply bind_Ok_inv in Hc as (t & Ht & Hc).
    apply bind_Ok_inv in Hc as (n & Hn & Hc). unfold is_the_str in Hc. destruct n as [n| | | | |]; try discriminate. cbn in Hc.
    destruct (String.eqb n name) eqn:En; [|discriminate]. apply bind_Ok_inv in Hc as (_ & _ & <-%Ok_inj).
    apply String.eqb_eq in En as ->. unfold config_name. rewrite Ht, bind_Ok, Hn. done. }
  assert (Hgen : agree_off (inventory env_dir RUN_SYSTEMD_SYSTEM RUN_SYSTEMD_SYSTEM config name uid) f (dh_files w)).
  { rewrite Hw. unfold emit, is_vm. case_bool_decide as Hk; [by apply emit_vm_local|by apply emit_container_local]. }
  destruct (leftovers name config false rfs w Hc Hr) as (w2 & st & E & Hfiles & Hmarker & _).
  rewrite Hrun in E. assert (w2 = w') as -> by congruence. assert (st = 0) as -> by congruence.
  apply map_eq. intros p. destruct (decide (p = path_str (workload_enabled_marker name))) as [->|Hp].
  { rewrite lookup_delete_eq. by destruct Hmarker as [?|[_ ?]]. }
  rewrite lookup_delete_ne by done. destruct (decide (Exists (fun rf => is_env_file rf = false /\ p = path_str (rf_path rf)) rfs)) as [Hin|Hout].
  - apply Exists_exists in Hin as (rf & Hrf & He & ->). rewrite (Hfresh rf Hrf He). by destruct (Hfiles rf Hrf He) as [?|[_ ?]].
  - destruct (disable_touches name config false rfs w w' _ Hc Hr Hrun p) as [->|[HD|([? _] & _)]]; [|exfalso|done].
    + apply Hgen. intros Hin. rewrite Hu in Hr. destruct (inventory_is_run_files _ _ _ _ _ Hr Hin) as (rf & Hrf & He & ->).
      apply Hout, Exists_exists. eauto.
    + destruct HD as [?|[(rf & Hrf & -> & He)|[? _]]]; [done| |done]. apply Hout, Exists_exists. eauto.
Qed.
End roundtrip.
End disable.

(** ** Concrete hosts *)

Module Teardown.
Definition toml (c : table) (_ : string) : res table := Ok c.
Definition runs (_ : list string) : option Z := Some 0.
Definition nowhere (_ : pypath) : bool := false.
Definition anything (_ : pypath) : bool := true.
Definition whole (_ : pypath) : option (string -> bool) := None.

Definition disable (c : table) (name : string) (purge dry_run : bool) : io dhost (Z * list plan_line) :=
  cmd_disable "/etc/workloads" "/run/workload-env" (toml c) runs "" false false [] nowhere anything whole true true name purge dry_run.

Definition marker : string := "/etc/workloads/web/.enabled".
Definition record : string := "/var/log/workloadctl/egress/web/requests.log".
Definition f0 : files := {["/etc/passwd" := Text "root"; marker := Text ""]}.
Definition web : table := Sample.config [].

(** The host after the generators have run. *)
Definition generated : dhost :=
  mkHost' (@emit Boot.emitters web "web" 10001 f0) (Some 10001) [] [].

(** A host with one unit of the workload. *)
Definition simple : dhost := mkHost' (<["/run/systemd/system/workload-web.service" := Text "[Unit]"]> f0) (Some 10001) [] [].

(** A host with an inspector's record. *)
Definition recorded : dhost := mkHost' (<[record := Text "{}"]> f0) (Some 10001) [] [].

(** A pod one of whose containers has lost its name. *)
Definition nameless : table :=
  [("workload", TTab [("name", TStr "web")]); ("containers", TArr [TTab [("container", TTab [("image", TStr "nginx")])]])].

(** A host on which a VM has been started. *)
Definition vm : table := [("workload", TTab [("name", TStr "web")]); ("vm", TTab [])].
Definition started : dhost := mkHost' (<["/run/workload-env/workload-web.passt" := Text ""]> f0) (Some 10001) [] [].
End Teardown.

(** With everything removable the marker goes; with the marker's directory read-only it
    stays and the status is 1. *)
Lemma every_leftover_has_its_cause_witness :
  (exists w', Teardown.disable Teardown.web "web" true false Teardown.simple = (w', Ok (0, [])) /\
     dh_files w' !! Teardown.marker = None) /\
  exists w' st, cmd_disable "/etc/workloads" "/run/workload-env" (Teardown.toml Teardown.web) Teardown.runs "" false false []
      Teardown.nowhere (fun _ => false) Teardown.whole true true "web" true false Teardown.simple = (w', Ok (st, [])) /\
    dh_files w' !! Teardown.marker <> None /\ st = 1.
Proof.
  split.
  - pose proof (every_leftover_has_its_cause "/etc/workloads" "/run/workload-env" (Teardown.toml Teardown.web) Teardown.runs "" false false []
              Teardown.nowhere Teardown.anything Teardown.whole true "web" Teardown.web true Teardown.simple eq_refl) as H.
    destruct (run_files "/run/workload-env" Teardown.web "web" (dh_uid Teardown.simple)) as [rfs|e] eqn:Er; [|vm_compute in Er; discriminate Er].
    destruct H as (w' & st & E & _ & [H|[H _]] & _); [|discriminate H]. exists w'. split; [|exact H].
    unfold Teardown.disable. rewrite E. vm_compute in E. by injection E as _ <-.
  - pose proof (every_leftover_has_its_cause "/etc/workloads" "/run/workload-env" (Teardown.toml Teardown.web) Teardown.runs "" false false []
              Teardown.nowhere (fun _ => false) Teardown.whole true "web" Teardown.web true Teardown.simple eq_refl) as H.
    destruct (run_files "/run/workload-env" Teardown.web "web" (dh_uid Teardown.simple)) as [rfs|e] eqn:Er; [|vm_compute in Er; discriminate Er].
    destruct H as (w' & st & E & _ & H & _). exists w', st. split; [exact E|].
    assert (Hm : dh_files w' !! Teardown.marker <> None) by (vm_compute in E; injection E as <- _; by vm_compute).
    split; [exact Hm|]. destruct H as [H|[_ H]]; [by destruct Hm|exact H].
Defined.

Lemma plan_names_what_goes_witness :
  exists plan, Teardown.disable Teardown.web "web" false true Teardown.simple = (Teardown.simple, Ok (0, plan)) /\
    listed plan "/run/systemd/system/workload-web.service".
Proof.
  unfold Teardown.disable. eexists. split; [vm_compute; reflexivity|].
  destruct (plan_names_what_goes "/etc/workloads" "/run/workload-env" (Teardown.toml Teardown.web) Teardown.runs "" false false []
              Teardown.nowhere Teardown.anything Teardown.whole true "web" false Teardown.simple _ _ _
              ltac:(vm_compute; reflexivity) ltac:(vm_compute; reflexivity) "/run/systemd/system/workload-web.service")
    as [H|[[H _]|(rf & t & Hl & Hp & _)]]; [vm_compute; discriminate|exact H|discriminate H|rewrite <- Hp in Hl; vm_compute in Hl; discriminate Hl].
Defined.

Lemma disable_undoes_generation_witness :
  dh_files (fst (Teardown.disable Teardown.web "web" false false Teardown.generated)) !! "/etc/passwd" = Some (Text "root").
Proof.
  unfold Teardown.disable.
  match goal with |- dh_files (fst ?m) !! _ = _ => assert (Hr : snd m = Ok (0, [])) by (vm_compute; reflexivity); destruct m as [w' r] eqn:E end.
  cbn [fst snd] in *. subst r.
  set (rfs := match run_files "/run/workload-env" Teardown.web "web" (Some 10001) with Ok l => l | Raise _ => [] end).
  assert (Hf : forallb (fun rf => is_env_file rf || bool_decide (Teardown.f0 !! path_str (rf_path rf) = None)) rfs = true)
    by (vm_compute; reflexivity).
  rewrite (@disable_undoes_generation "/etc/workloads" "/run/workload-env" (Teardown.toml Teardown.web) Teardown.runs "" false false []
    Teardown.nowhere Teardown.anything Teardown.whole true Boot.emitters Boot.laws "web" Teardown.web 10001
    rfs Teardown.f0 Teardown.generated w');
    [reflexivity|vm_compute; reflexivity|vm_compute; reflexivity| |reflexivity|reflexivity|exact E].
  intros rf Hrf He. apply list_elem_of_In in Hrf. pose proof (proj1 (forallb_forall _ _) Hf rf Hrf) as H. cbv beta in H. rewrite He in H.
  by apply bool_decide_eq_true in H.
Defined.

(** A configuration whose run files cannot be listed stops the verb in the
    middle: when a container of a pod has lost its name, the service has been
    stopped, the exception is not among the collected failures, and the
    enabled marker is still there, so that the next boot starts the workload again. *)
Theorem unlistable_workload_stays_enabled :
  exists w', Teardown.disable Teardown.nameless "web" true false Teardown.simple = (w', Raise KeyError) /\
    dh_ran w' = [["systemctl"; "stop"; "workload-web.service"]] /\ dh_files w' !! Teardown.marker = Some (Text "").
Proof. eexists. split; [vm_compute; reflexivity|]. split; reflexivity. Qed.

(** The plan of a purge does not name the inspector's record, which the purge removes. *)
Theorem record_removed_unannounced :
  exists plan w', Teardown.disable Teardown.web "web" true true Teardown.recorded = (Teardown.recorded, Ok (0, plan)) /\
    ~ listed plan Teardown.record /\
    Teardown.disable Teardown.web "web" true false Teardown.recorded = (w', Ok (0, [])) /\
    dh_files Teardown.recorded !! Teardown.record = Some (Text "{}") /\ dh_files w' !! Teardown.record = None.
Proof.
  eexists _, _. split; [vm_compute; reflexivity|]. split; [|split; [vm_compute; reflexivity|split; reflexivity]].
  intros (l & Hl & Hn). apply list_elem_of_In in Hl.
  repeat (destruct Hl as [<-|Hl]; [vm_compute in Hn; first [discriminate Hn|exact Hn]|]). exact Hl.
Qed.

(** The file of a VM's resolver options survives its purge. *)
Lemma netdev_file_survives_purge :
  exists w', Teardown.disable Teardown.vm "web" true false Teardown.started = (w', Ok (0, [])) /\
    dh_files w' !! path_str (passt_env_file "/run/workload-env" "web") = Some (Text "").
Proof. eexists. split; [vm_compute; reflexivity|]. vm_compute. reflexivity. Qed.
