(* ===== verification/Drift.v ===== *)
(** * Drift: [lib/cmd_drift.py], with the scans of [lib/run_files.py]

    The verb runs the generator into a scratch directory and compares, kind by
    kind, what it wrote with the live tree, in both directions; then it compares
    the policy documents on disk with what the configuration renders.  Files are a
    map by absolute path, as in [GenFiles]; running the generator and the JSON
    encoder are parameters. *)
From S2P Require Import Prelude PyStr PyPath PyRe Toml WorkloadNames WorkloadConfig NetworkConfig RunArgs.
From S2P Require Import GenCommon GenEgress GenFiles InspectArm Disable.
Local Open Scope Z_scope.

(** ** Texts *)

(** [GENERATED_BY_RE]: at the start of a line, "#", blanks, the words, and the
    build in parentheses if there is one. *)
Definition STAMP : string := "Generated by workload-generate".

Definition build_len (s : string) : nat :=
  if starts_with " (" s then
    match span (fun c => negb (Ascii.eqb c ")")) (str_drop 2 s) with
    | (v, String _ _) => 3 + String.length v
    | _ => 0
    end
  else 0%nat.

Definition stamp_matcher (prev : option ascii) (s : string) : option (unit * nat) :=
  if match prev with None => true | Some c => Ascii.eqb c LF end then
    match s with
    | String c s' =>
        if Ascii.eqb c "#" then
          let '(blanks, rest) := span is_space s' in
          if starts_with STAMP rest then
            Some (tt, (String.length blanks + String.length STAMP + build_len (str_drop (String.length STAMP) rest))%nat)
          else None
        else None
    | EmptyString => None
    end
  else None.

Definition literal_matcher (old : string) (_ : option ascii) (s : string) : option (unit * nat) :=
  if starts_with old s then Some (tt, (String.length old - 1)%nat) else None.

Fixpoint put_tokens (r : string) (l : list (ascii + unit)) : string :=
  match l with
  | [] => EmptyString
  | inl c :: l => String c (put_tokens r l)
  | inr _ :: l => r +:+ put_tokens r l
  end.

Definition replace_all (old new s : string) : string := put_tokens new (re_tokens (literal_matcher old) None 0 s).

(** ** Files *)

(** [read_text()], which follows links. *)
Fixpoint read_from (n : nat) (f : files) (p : pypath) : option string :=
  match f !! path_str p, n with
  | Some (Text t), _ => Some t
  | Some (Link t), S n => read_from n f (link_dest p t)
  | _, _ => None
  end.

Definition read_text (f : files) (p : pypath) : res string :=
  match read_from 40 f p with Some t => Ok t | None => Raise FileNotFoundError end.

Definition is_symlink (f : files) (p : pypath) : bool := match f !! path_str p with Some (Link _) => true | _ => false end.

(** [os.readlink(p) if p.is_symlink() else ""] *)
Definition link_target (f : files) (p : pypath) : string := match f !! path_str p with Some (Link t) => t | _ => "" end.

(** One component of a glob with at most one star. *)
Definition ends_with (suffix s : string) : bool :=
  Nat.leb (String.length suffix) (String.length s) &&
  String.eqb (str_drop (String.length s - String.length suffix) s) suffix.

Definition glob_part (pat s : string) : bool :=
  match cut "*" pat with
  | None => String.eqb pat s
  | Some (a, b) => Nat.leb (String.length a + String.length b) (String.length s) && starts_with a s && ends_with b s
  end.

Fixpoint glob_match (pat rel : list string) : bool :=
  match pat, rel with
  | [], [] => true
  | p :: pat, r :: rel => glob_part p r && glob_match pat rel
  | _, _ => false
  end.

(** The order of paths. *)
Fixpoint parts_leb (a b : list string) : bool :=
  match a, b with
  | [], _ => true
  | _ :: _, [] => false
  | x :: a, y :: b => if String.eqb x y then parts_leb a b else String.leb x y
  end.

Fixpoint insert_rel (r : list string) (l : list (list string)) : list (list string) :=
  match l with
  | [] => [r]
  | x :: l => if parts_leb r x then r :: x :: l else x :: insert_rel r l
  end.

(** [sorted(dir.glob(pat))], each relative to [dir]. *)
Definition rel_of (dir : pypath) (pat : list string) (k : string) : option (list string) :=
  match relative_to (path_of k) dir with
  | Ok rel => if glob_match pat rel then Some rel else None
  | Raise _ => None
  end.

Definition glob_files (f : files) (dir : pypath) (pat : list string) : list (list string) :=
  foldr insert_rel [] (omap (rel_of dir pat) (map fst (map_to_list f))).

(** ** The scans *)

Record RunTreeScan := mkScan { sc_kind : string; sc_glob : list string; sc_content : bool; sc_name_filtered : bool }.

Definition RUN_TREE_SCANS : list RunTreeScan :=
  [mkScan "unit" ["workload-*.service"] true true;
   mkScan "unit" ["workload-*.socket"] true true;
   mkScan "sysusers" ["workload-*.conf"] true true;
   mkScan "seccomp" ["workload-*.seccomp.json"] true true;
   mkScan "wants-symlink" ["multi-user.target.wants"; "workload-*.service"] false true;
   mkScan "dropin" ["user@*.service.d"; "50-workload.conf"] true false].

(** [rel.stem]: the last component without its last suffix. *)
Definition stem_of (s : string) : string :=
  match rev (split_on "." s) with
  | last :: ((_ :: _) as before) =>
      let init := join "." (rev before) in
      if String.eqb init "" || String.eqb last "" then s else init
  | _ => s
  end.

Definition stem (rel : list string) : string := stem_of (List.last rel "").

Definition in_scope (workload : option string) (rel : list string) (scan : RunTreeScan) : bool :=
  match workload with
  | None => true
  | Some n =>
      if String.eqb n "" || negb (sc_name_filtered scan) then true
      else String.eqb (stem rel) ("workload-" +:+ n) || starts_with ("workload-" +:+ n +:+ "-") (stem rel)
  end.

(** A difference: the path, the live text and the generated one. *)
Definition diff : Type := string * string * string.

Section drift.
Variable tmpdir : string.

Definition normalize (text : string) : string :=
  replace_all (tmpdir +:+ "/") (RUN_SYSTEMD_SYSTEM +:+ "/")
    (put_tokens "# Generated by workload-generate" (re_tokens stamp_matcher None 0 text)).

Notation live_dir := (path_of RUN_SYSTEMD_SYSTEM).
Notation gen_dir := (path_of tmpdir).

Definition rel_str (rel : list string) : string := path_str (mkPath "" rel).

(** One generated file against the live tree. *)
Definition forward_diff (scan : RunTreeScan) (f : files) (rel : list string) : res (list diff) :=
  let gen_file := path_join gen_dir rel in
  let live_file := path_join live_dir rel in
  if sc_content scan then
    g ← read_text f gen_file;
    l ← (if file_exists f live_file then t ← read_text f live_file; Ok (normalize t) else Ok "");
    Ok (if String.eqb (normalize g) l then [] else [(rel_str rel, l, normalize g)])
  else Ok (if file_exists f live_file || is_symlink f live_file then []
           else [(rel_str rel, "", "# missing enablement symlink -> " +:+ link_target f gen_file +:+ chr LF)]).

(** One live file that was not generated. *)
Definition orphan_diff (scan : RunTreeScan) (f : files) (rel : list string) : res (list diff) :=
  let live_file := path_join live_dir rel in
  if sc_content scan then t ← read_text f live_file; Ok [(rel_str rel, t, "")]
  else Ok [(rel_str rel, "# orphaned enablement symlink -> " +:+ link_target f live_file +:+ chr LF, "")].

Variable workload : option string.

Definition scan_diffs (f : files) (scan : RunTreeScan) : res (list diff) :=
  let scope := List.filter (fun rel => in_scope workload rel scan) in
  let gen_rels := scope (glob_files f gen_dir (sc_glob scan)) in
  forward ← mapM_res (forward_diff scan f) gen_rels;
  orphans ← mapM_res (orphan_diff scan f)
              (List.filter (fun rel => negb (bool_decide (rel ∈ gen_rels))) (scope (glob_files f live_dir (sc_glob scan))));
  Ok (concat forward ++ concat orphans).

(** The generator, run into the scratch directory: the files afterwards and
    its exit status; [None] when it is not installed. *)
Variable generate : string -> files -> option (files * Z).

Definition collect_drift (f : files) : res (list diff) :=
  match generate tmpdir f with
  | None => Raise RuntimeError
  | Some (f', rc) =>
      if negb (rc =? 0) then Raise RuntimeError
      else ds ← mapM_res (scan_diffs f') RUN_TREE_SCANS; Ok (concat ds)
  end.

(** ** What is reported *)

(** A relative path has a file below a directory. *)
Definition in_tree (f : files) (dir : pypath) (rel : list string) : Prop :=
  exists k e, f !! k = Some e /\ relative_to (path_of k) dir = Ok rel.

Lemma elem_of_insert_rel r x l : r ∈ insert_rel x l <-> r = x \/ r ∈ l.
Proof.
  induction l as [|y l IH]; cbn [insert_rel]; [by rewrite list_elem_of_singleton, elem_of_nil; tauto|].
  destruct (parts_leb x y); rewrite !elem_of_cons, ?IH; tauto.
Qed.

Lemma elem_of_glob_files f dir pat rel : rel ∈ glob_files f dir pat <-> in_tree f dir rel /\ glob_match pat rel = true.
Proof.
  unfold glob_files. transitivity (rel ∈ omap (rel_of dir pat) (map fst (map_to_list f))).
  { induction (omap _ _) as [|x l IH]; [done|]. cbn [foldr]. by rewrite elem_of_insert_rel, IH, elem_of_cons. }
  rewrite list_elem_of_omap. unfold rel_of. split.
  - intros (k & Hk & Hr). apply (list_elem_of_fmap_1 fst) in Hk as ([k' e] & -> & Hk%elem_of_map_to_list). cbn [fst] in Hr.
    destruct (relative_to (path_of k') dir) as [rel'|] eqn:E; [|done]. destruct (glob_match pat rel') eqn:Eg; [|done].
    apply (inj Some) in Hr as ->. split; [by exists k', e|done].
  - intros [(k & e & Hk & E) Hg]. exists k. rewrite E, Hg. split; [|done].
    apply elem_of_map_to_list in Hk. by apply (list_elem_of_fmap_2 fst) in Hk.
Qed.

(** What the comparison sees of a live file. *)
Definition live_text (f : files) (rel : list string) : string :=
  if file_exists f (path_join live_dir rel) then match read_text f (path_join live_dir rel) with Ok t => normalize t | Raise _ => "" end else "".

(** The two trees disagree on a path of a scan. *)
Definition out_of_sync (f : files) (scan : RunTreeScan) (rel : list string) : Prop :=
  (in_tree f gen_dir rel /\
   if sc_content scan then forall t, read_text f (path_join gen_dir rel) = Ok t -> normalize t <> live_text f rel
   else file_exists f (path_join live_dir rel) = false /\ is_symlink f (path_join live_dir rel) = false) \/
  (in_tree f live_dir rel /\ ~ in_tree f gen_dir rel).

Lemma mapM_concat {A B} (g : A -> res (list B)) l ls x :
  mapM_res g l = Ok ls -> x ∈ concat ls <-> exists a r, a ∈ l /\ g a = Ok r /\ x ∈ r.
Proof.
  revert ls. induction l as [|a l IH]; intros ls; cbn [mapM_res].
  - intros <-%Ok_inj. cbn. rewrite elem_of_nil. split; [done|]. intros (a & r & Ha & _). by apply not_elem_of_nil in Ha.
  - intros (y & Hy & (ys & Hys & <-%Ok_inj)%bind_Ok_inv)%bind_Ok_inv. cbn [concat]. rewrite elem_of_app, (IH _ Hys). split.
    + intros [H|(b & r & Hb & Hr & H)]; [exists a, y; split_and!; [by left|done..]|exists b, r; split_and!; [by right|done..]].
    + intros (b & r & [->|Hb]%elem_of_cons & Hr & H); [left; congruence|right; eauto].
Qed.

Lemma mapM_has {A B} (g : A -> res B) l ls a : mapM_res g l = Ok ls -> a ∈ l -> exists r, g a = Ok r.
Proof.
  intros H%mapM_res_Forall2 [i Hi]%list_elem_of_lookup. destruct (Forall2_lookup_l _ _ _ _ _ H Hi) as (r & _ & Hr). by exists r.
Qed.

Lemma forward_diff_spec scan f rel r :
  forward_diff scan f rel = Ok r -> in_tree f gen_dir rel ->
  (forall x, x ∈ r -> x.1.1 = rel_str rel) /\
  (r <> [] <-> if sc_content scan then forall t, read_text f (path_join gen_dir rel) = Ok t -> normalize t <> live_text f rel
              else file_exists f (path_join live_dir rel) = false /\ is_symlink f (path_join live_dir rel) = false).
Proof.
  unfold forward_diff. intros H Hin. destruct (sc_content scan).
  - apply bind_Ok_inv in H as (g & Hg & H). apply bind_Ok_inv in H as (l & Hl & <-%Ok_inj).
    assert (El : l = live_text f rel).
    { unfold live_text. destruct (file_exists _ _); [|by apply Ok_inj in Hl as <-]. by apply bind_Ok_inv in Hl as (t & -> & <-%Ok_inj). }
    rewrite <- El, Hg. destruct (String.eqb_spec (normalize g) l) as [E|E].
    + split; [by intros x ?%not_elem_of_nil|]. split; [done|]. intros Hx. by destruct (Hx g eq_refl).
    + split; [by intros x ->%list_elem_of_singleton|]. split; [|done]. intros _ t [= <-]. done.
  - apply Ok_inj in H as <-. destruct (file_exists _ _), (is_symlink _ _); cbn [orb];
      (split; [first [by intros x ?%not_elem_of_nil|by intros x ->%list_elem_of_singleton]|]); split; try done; by intros [].
Qed.

Lemma orphan_diff_spec scan f rel r :
  orphan_diff scan f rel = Ok r -> r <> [] /\ forall x, x ∈ r -> x.1.1 = rel_str rel.
Proof.
  unfold orphan_diff. intros H. destruct (sc_content scan).
  - apply bind_Ok_inv in H as (t & _ & <-%Ok_inj). split; [done|]. by intros x ->%list_elem_of_singleton.
  - apply Ok_inj in H as <-. split; [done|]. by intros x ->%list_elem_of_singleton.
Qed.

Lemma elem_of_scope (P : list string -> bool) l rel : rel ∈ List.filter P l <-> rel ∈ l /\ P rel = true.
Proof. rewrite !list_elem_of_In. apply filter_In. Qed.

Definition covered (scan : RunTreeScan) (rel : list string) : Prop :=
  glob_match (sc_glob scan) rel = true /\ in_scope workload rel scan = true.

Lemma named {r : list diff} {s : string} : (exists l g, (s, l, g) ∈ r) <-> exists x, x ∈ r /\ x.1.1 = s.
Proof. split; [intros (l & g & H); by exists (s, l, g)|intros ([[s' l] g] & H & <-); eauto]. Qed.

Lemma first_of (r : list diff) : r <> [] -> exists x, x ∈ r.
Proof. destruct r as [|x r]; [done|]. exists x. by left. Qed.

Lemma scan_diffs_spec f scan ds s :
  scan_diffs f scan = Ok ds ->
  (exists l g, (s, l, g) ∈ ds) <-> exists rel, s = rel_str rel /\ covered scan rel /\ out_of_sync f scan rel.
Proof.
  unfold scan_diffs. intros (fw & Hfw & (orph & Horph & <-%Ok_inj)%bind_Ok_inv)%bind_Ok_inv. rewrite named. split.
  - intros (x & [Hx|Hx]%elem_of_app & <-).
    + apply (mapM_concat _ _ _ _ Hfw) in Hx as (rel & r & Hrel & Hr & Hx). apply elem_of_scope in Hrel as [[Hin Hg]%elem_of_glob_files Hs].
      destruct (forward_diff_spec _ _ _ _ Hr Hin) as [Hn Hd]. exists rel. split_and!; [by apply Hn|done|]. left. split; [done|].
      apply Hd. intros ->. by apply not_elem_of_nil in Hx.
    + apply (mapM_concat _ _ _ _ Horph) in Hx as (rel & r & Hrel & Hr & Hx). apply elem_of_scope in Hrel as [Hrel Hno].
      apply elem_of_scope in Hrel as [[Hin Hg]%elem_of_glob_files Hs]. destruct (orphan_diff_spec _ _ _ _ Hr) as [_ Hn]. exists rel.
      split_and!; [by apply Hn|done|]. right. split; [done|]. intros Hgen. apply negb_true_iff, bool_decide_eq_false in Hno. apply Hno.
      apply elem_of_scope. split; [|done]. by apply elem_of_glob_files.
  - intros (rel & -> & [Hg Hs] & Ho).
    assert (Hscope : forall dir, in_tree f dir rel -> rel ∈ List.filter (fun rel => in_scope workload rel scan) (glob_files f dir (sc_glob scan))).
    { intros dir Hin. apply elem_of_scope. split; [|done]. by apply elem_of_glob_files. }
    destruct Ho as [[Hin Hd]|[Hin Hno]].
    + destruct (mapM_has _ _ _ rel Hfw) as [r Hr]; [by apply Hscope|]. destruct (forward_diff_spec _ _ _ _ Hr Hin) as [Hn Hd'].
      destruct (first_of r) as [x Hx]; [by apply Hd'|]. exists x. split; [|by apply Hn]. apply elem_of_app. left. apply (mapM_concat _ _ _ _ Hfw). exists rel, r. split_and!; [by apply Hscope|done..].
    + assert (Hrel : rel ∈ List.filter (fun rel => negb (bool_decide (rel ∈ List.filter (fun rel => in_scope workload rel scan) (glob_files f gen_dir (sc_glob scan)))))
                             (List.filter (fun rel => in_scope workload rel scan) (glob_files f live_dir (sc_glob scan)))).
      { apply elem_of_scope. split; [by apply Hscope|]. apply negb_true_iff, bool_decide_eq_false. intros [[? _]%elem_of_glob_files _]%elem_of_scope. done. }
      destruct (mapM_has _ _ _ rel Horph Hrel) as [r Hr]. destruct (orphan_diff_spec _ _ _ _ Hr) as [Hne Hn].
      destruct (first_of r Hne) as [x Hx]. exists x. split; [|by apply Hn]. apply elem_of_app. right. apply (mapM_concat _ _ _ _ Horph). by exists rel, r.
Qed.

Lemma report_exact f f' ds s :
  generate tmpdir f = Some (f', 0) -> collect_drift f = Ok ds ->
  (exists l g, (s, l, g) ∈ ds) <->
  exists scan rel, scan ∈ RUN_TREE_SCANS /\ s = rel_str rel /\ covered scan rel /\ out_of_sync f' scan rel.
Proof.
  unfold collect_drift. intros ->. cbn [negb Z.eqb]. intros (dss & Hds & <-%Ok_inj)%bind_Ok_inv. rewrite named. split.
  - intros (x & Hx & <-). apply (mapM_concat _ _ _ _ Hds) in Hx as (scan & r & Hscan & Hr & Hx). exists scan.
    destruct (proj1 (scan_diffs_spec f' scan r x.1.1 Hr)) as (rel & ? & ? & ?); [by apply named; eauto|]. by exists rel.
  - intros (scan & rel & Hscan & -> & Hc & Ho). destruct (mapM_has _ _ _ scan Hds Hscan) as [r Hr].
    destruct (proj2 (scan_diffs_spec f' scan r (rel_str rel) Hr)) as (l & g & Hx); [by exists rel|]. exists (rel_str rel, l, g). split; [|done].
    apply (mapM_concat _ _ _ _ Hds). by exists scan, r.
Qed.

(** C12.  A drift report is exact.  Once the generator has run, a path is
    reported if and only if a scan covers it and the two trees disagree on it: the
    generated text differs from the live one, up to the build that wrote them, or
    a file is missing on one side.  In particular an empty report means that
    the trees agree on every path the scans cover. *)
Theorem drift_report_is_exact f f' ds s :
  generate tmpdir f = Some (f', 0) -> collect_drift f = Ok ds ->
  (exists l g, (s, l, g) ∈ ds) <->
  exists scan rel, scan ∈ RUN_TREE_SCANS /\ s = rel_str rel /\ covered scan rel /\ out_of_sync f' scan rel.
Proof. apply report_exact. Qed.
End drift.

(** ** Policy documents *)

Section policy.
Variable workload : option string.
Variable config_of : string -> option (res table).
Variable tls_default : string.
Variable dumps : inspect_policy -> string.

Definition INSPECT_POLICY_FILE : string := "inspect.json".

(** [container_inspect_policy_text] and [vm_inspect_policy_text] of a network table. *)
Definition policy_text (policy : tv -> res inspect_policy) (net : tv) : res string :=
  doc ← policy net; Ok (dumps doc +:+ chr LF).

Definition rendered_policy (name : string) : res string :=
  match config_of name with
  | None => Ok ""
  | Some (Raise _) => Raise RuntimeError
  | Some (Ok config) =>
      inspected ← container_uses_inspect config;
      if inspected : bool then
        n ← get_or (TTab config) "network" (TTab []); policy_text (of_table container_inspect_policy) (or_empty n)
      else
        inspected ← vm_uses_inspect config;
        if negb (inspected : bool) then Ok ""
        else v ← get_or (TTab config) "vm" (TTab []); n ← get_or v "network" (TTab []);
             policy_text (of_table (vm_inspect_policy tls_default)) (or_empty n)
  end.

Definition policy_diff (f : files) (rel : list string) : res (list diff) :=
  match rel with
  | [name; _] =>
      if match workload with Some n => negb (String.eqb n "") && negb (String.eqb name n) | None => false end then Ok []
      else
        live ← (match read_text f (path_join (path_of SOCKET_DIR) rel) with Ok t => Ok t | Raise _ => Raise RuntimeError end);
        gen ← rendered_policy name;
        Ok (if String.eqb live gen then [] else [(name +:+ "/" +:+ INSPECT_POLICY_FILE, live, gen)])
  | _ => Ok []
  end.

Definition collect_policy_drift (f : files) : res (list diff) :=
  ds ← mapM_res (policy_diff f) (glob_files f (path_of SOCKET_DIR) ["*"; INSPECT_POLICY_FILE]); Ok (concat ds).

(** [cmd_drift]: what it prints, and its exit status. *)
Definition cmd_drift (tmpdir : string) (generate : string -> files -> option (files * Z)) (f : files) : res (list diff * list diff * Z) :=
  match (d ← collect_drift tmpdir workload generate f; p ← collect_policy_drift f; Ok (d, p)) with
  | Ok (d, p) => Ok (d, p, if nonempty d || nonempty p then 1 else 0)
  | Raise RuntimeError => Ok ([], [], 1)
  | Raise e => Raise e
  end.
End policy.

(** ** The build that wrote a unit does not matter *)

Lemma last_char a c : last (String.list_ascii_of_string (a +:+ chr c)) = Some c.
Proof. induction a as [|d a IH]; [done|]. cbn. rewrite last_cons. cbn in IH. by rewrite IH. Qed.

Lemma all_not_char c s : has_char c s = false -> all_chars (fun d => negb (Ascii.eqb d c)) s = true.
Proof.
  unfold has_char. induction s as [|d s IH]; [done|]. cbn [any_char all_chars]. intros [Hd Hs]%orb_false_elim. rewrite IH by done.
  unfold is_char in Hd. by rewrite Ascii.eqb_sym, Hd.
Qed.

Definition stamped (build rest : string) : string := "# " +:+ STAMP +:+ " (" +:+ build +:+ ")" +:+ rest.

Lemma stamped_tokens build rest :
  has_char ")" build = false ->
  re_tokens stamp_matcher None 0 (stamped build rest) = inr tt :: re_tokens stamp_matcher (Some ")"%char) 0 rest.
Proof.
  intros Hb. set (u := " " +:+ STAMP +:+ " (" +:+ build +:+ chr ")").
  assert (Hl : build_len (" (" +:+ build +:+ ")" +:+ rest) = (3 + String.length build)%nat).
  { unfold build_len. change (str_drop 2 (" (" +:+ build +:+ ")" +:+ rest)) with (build +:+ String ")" rest).
    rewrite span_app; [done| |done]. by apply all_not_char. }
  assert (Hu : stamped build rest = String "#" (u +:+ rest)) by (unfold stamped, u; by rewrite !app_assoc_str).
  assert (Hm : stamp_matcher None (stamped build rest) = Some (tt, String.length u)).
  { set (x := " (" +:+ build +:+ ")" +:+ rest) in *. change (stamped build rest) with (String "#" (String " " (STAMP +:+ x))).
    unfold stamp_matcher. change (Ascii.eqb "#" "#") with true. cbv iota.
    change (span is_space (String " " (STAMP +:+ x))) with (" ", STAMP +:+ x). cbv iota beta.
    rewrite starts_with_app, str_drop_app, Hl. unfold u. rewrite !length_app_str. cbn [String.length chr]. do 2 f_equal. lia. }
  rewrite Hu in *. cbn [re_tokens]. rewrite Hm, re_tokens_skip. unfold u. by rewrite <- !app_assoc_str, last_char.
Qed.

(** A new build is not drift: units that differ only in the build their
    stamp names are the same to the comparison. *)
Theorem build_is_not_drift tmpdir build build' rest :
  has_char ")" build = false -> has_char ")" build' = false ->
  normalize tmpdir (stamped build rest) = normalize tmpdir (stamped build' rest).
Proof. intros H H'. unfold normalize. by rewrite !stamped_tokens. Qed.

(** ** What the scans do not see *)

Lemma ends_with_spec suffix s : ends_with suffix s = true -> exists pre, s = pre +:+ suffix.
Proof.
  intros [_ H%String.eqb_eq]%andb_prop. exists (str_take (String.length s - String.length suffix) s).
  rewrite <- H at 2. by rewrite str_take_drop.
Qed.

Definition final_char (s : string) : option ascii := last (String.list_ascii_of_string s).

Lemma final_char_app a b : b <> "" -> final_char (a +:+ b) = final_char b.
Proof.
  intros Hb. unfold final_char. induction a as [|c a IH]; [done|]. change (String c a +:+ b) with (String c (a +:+ b)).
  cbn [String.list_ascii_of_string]. rewrite last_cons, IH. destruct b as [|d b]; [done|]. cbn [String.list_ascii_of_string].
  rewrite last_cons. by destruct (last (String.list_ascii_of_string b)).
Qed.

Lemma final_char_ends suffix s : suffix <> "" -> ends_with suffix s = true -> final_char s = final_char suffix.
Proof. intros Hs [pre ->]%ends_with_spec. by apply final_char_app. Qed.

Lemma join_last sep rel : rel <> [] -> exists pre, join sep rel = pre +:+ List.last rel "".
Proof.
  induction rel as [|x rel IH]; [done|]. intros _. destruct rel as [|y rel]; [by exists ""|].
  destruct IH as [pre Hp]; [done|]. exists (x +:+ sep +:+ pre). change (List.last (x :: y :: rel) "") with (List.last (y :: rel) "").
  change (join sep (x :: y :: rel)) with (x +:+ sep +:+ join sep (y :: rel)). by rewrite Hp, !app_assoc_str.
Qed.

(** The path of a match ends as the last component of its pattern does. *)
Lemma glob_final pat rel c :
  pat <> [] -> glob_match pat rel = true -> (exists a b, cut "*" (List.last pat "") = Some (a, b) /\ b <> "" /\ final_char b = Some c) \/
  (cut "*" (List.last pat "") = None /\ final_char (List.last pat "") = Some c) -> final_char (rel_str rel) = Some c.
Proof.
  intros Hp Hm Hc. assert (H : rel <> [] /\ glob_part (List.last pat "") (List.last rel "") = true).
  { clear Hc. revert rel Hm. induction pat as [|p pat IH]; [done|]. intros [|r rel]; cbn [glob_match]; [done|]. intros [H1 H2]%andb_prop.
    split; [done|]. destruct pat as [|p' pat], rel as [|r' rel]; [done|done|done|]. by apply (IH ltac:(done) (r' :: rel)). }
  destruct H as [Hne Hg]. assert (Hl : final_char (List.last rel "") = Some c).
  { unfold glob_part in Hg. destruct Hc as [(a & b & Hcut & Hb & Hf)|[Hcut Hf]]; rewrite Hcut in Hg.
    - apply andb_prop in Hg as [_ Hg]. by rewrite (final_char_ends b).
    - by apply String.eqb_eq in Hg as <-. }
  unfold rel_str, path_str. rewrite decide_False by (intros [_ ?]; done). cbn [root parts]. change ("" +:+ join "/" rel) with (join "/" rel).
  destruct (join_last "/" rel Hne) as [pre ->]. rewrite final_char_app; [done|]. intros E. by rewrite E in Hl.
Qed.

(** Every path a scan covers ends in one of four letters. *)
Lemma covered_final workload scan rel :
  scan ∈ RUN_TREE_SCANS -> covered workload scan rel -> exists c, final_char (rel_str rel) = Some c /\ c ∈ ["e"; "t"; "f"; "n"]%char.
Proof.
  intros Hs [Hg _]. unfold RUN_TREE_SCANS in Hs. repeat (apply elem_of_cons in Hs as [->|Hs]); [..|by apply not_elem_of_nil in Hs]; cbn [sc_glob] in Hg.
  all: eexists; split; [eapply glob_final; [|exact Hg|]; [discriminate|first [left; eexists _, _; split; [vm_compute; reflexivity|split; [discriminate|vm_compute; reflexivity]]
    | right; split; vm_compute; reflexivity]]|set_solver].
Qed.

(** Every VM has a timer among the units the generator emits, and no drift of
    it is ever reported: whatever the two trees hold, no path of a report ends as a timer's
    does, since no scan covers timers. *)
Theorem timer_drift_is_never_reported tmpdir workload generate f f' ds s l g :
  generate tmpdir f = Some (f', 0) -> collect_drift tmpdir workload generate f = Ok ds -> (s, l, g) ∈ ds ->
  ends_with ".timer" s = false /\
  forall env_dir vw rfs, vw_is_vm vw = true -> workload_run_files env_dir vw = Ok rfs ->
    exists rf, rf ∈ rfs /\ rf_emitted rf = true /\ rf_kind rf = "unit" /\
      rf_path rf = path_div (path_of RUN_SYSTEMD_SYSTEM) ("workload-" +:+ vw_name vw +:+ "-clock.timer").
Proof.
  intros Hg Hc Hin. split.
  - apply not_true_iff_false. intros He. destruct (proj1 (report_exact tmpdir workload generate f f' ds s Hg Hc)) as (scan & rel & Hs & -> & Hcov & _); [eauto|].
    destruct (covered_final workload scan rel Hs Hcov) as (c & Hf & Hc'). rewrite (final_char_ends ".timer") in Hf by done.
    apply (inj Some) in Hf as <-. by repeat (apply elem_of_cons in Hc' as [?|Hc']; [done|]); apply not_elem_of_nil in Hc'.
  - intros env_dir vw rfs Hv Hr. unfold workload_run_files in Hr. rewrite Hv in Hr. apply bind_Ok_inv in Hr as (fs & Hfs & Hr).
    do 2 apply bind_Ok_inv in Hr as (? & _ & Hr). apply Ok_inj in Hr as <-. unfold vm_run_files in Hfs.
    do 6 apply bind_Ok_inv in Hfs as (? & _ & Hfs). apply Ok_inj in Hfs as <-. eexists. rewrite !elem_of_app. split; [right; left; left; right; left|].
    split_and!; [done..|]. cbn [rf_path run_unit]. by rewrite <- app_assoc_str.
Qed.

(** ** Concrete trees *)

Module Trees.
Definition profile : files :=
  {["/tmp/d/workload-web.seccomp.json" := Text "{1}"; "/run/systemd/system/workload-web.seccomp.json" := Text "{2}"]}.
Definition neighbour : files :=
  {["/tmp/d/workload-web-foo.service" := Text "new"; "/run/systemd/system/workload-web-foo.service" := Text "old"]}.
Definition written (_ : string) (f : files) : option (files * Z) := Some (f, 0).
Definition drift (workload : option string) : files -> res (list diff) := collect_drift "/tmp/d" workload written.
End Trees.

Lemma drift_report_is_exact_witness : exists l g, ("workload-web-foo.service", l, g) ∈ [("workload-web-foo.service", "old", "new")].
Proof.
  apply (drift_report_is_exact "/tmp/d" None Trees.written Trees.neighbour Trees.neighbour); [reflexivity|vm_compute; reflexivity|].
  exists (mkScan "unit" ["workload-*.service"] true true), ["workload-web-foo.service"]. split_and!; [by left|reflexivity|by split|].
  left. split; [by exists "/tmp/d/workload-web-foo.service", (Text "new")|]. cbn [sc_content]. intros t Ht. vm_compute in Ht. injection Ht as <-.
  vm_compute. discriminate.
Defined.

Lemma build_is_not_drift_witness : normalize "/tmp/d" (stamped "1.0" "x") = normalize "/tmp/d" (stamped "2.0" "x").
Proof. apply build_is_not_drift; reflexivity. Defined.

Lemma timer_drift_is_never_reported_witness : ends_with ".timer" "workload-web-foo.service" = false.
Proof.
  apply (proj1 (timer_drift_is_never_reported "/tmp/d" None Trees.written Trees.neighbour Trees.neighbour [("workload-web-foo.service", "old", "new")]
    "workload-web-foo.service" "old" "new" eq_refl ltac:(vm_compute; reflexivity) ltac:(by left))).
Defined.

(** Narrowed to one workload, the report misses the workload's system-call profile,
    which it reports otherwise, and includes the units of a workload whose name
    continues with a dash. *)
Theorem named_drift_scope_is_wrong :
  Trees.drift None Trees.profile = Ok [("workload-web.seccomp.json", "{2}", "{1}")] /\ Trees.drift (Some "web") Trees.profile = Ok [] /\
  Trees.drift (Some "web") Trees.neighbour = Ok [("workload-web-foo.service", "old", "new")].
Proof. split_and!; vm_compute; reflexivity. Qed.
