(* ===== verification/DataTree.v ===== *)
(** * Data trees and mounts

    The file trees a backup copies and a restore lays down, [shutil.copytree] as the
    code calls it, the mount table ([mount_points] of [lib/workload_lib.py]), the
    boundary callback of [lib/backup.py] and the guards of [lib/cmd_backup.py].

    Parameters: the device an entry is on ([lstat]) and the resolution of symbolic
    links. *)
From S2P Require Import Prelude PyStr PyPath Toml WorkloadNames.
Local Open Scope Z_scope.

(** ** Trees *)

(** A file with its contents, a link with its target, a directory with its entries.  Owner,
    group, mode and times are not part of a node: copytree and tar's "data" filter change
    them, and no theorem speaks of them. *)
Inductive node := File (text : string) | Symlink (target : string) | Folder (entries : list (string * node)).

Notation entries := (list (string * node)).

(** The entry at a relative path; links are not followed. *)
Fixpoint find_node (n : node) (rel : list string) : option node :=
  match rel with
  | [] => Some n
  | x :: rel => match n with
                | Folder es => match assoc x es with Some c => find_node c rel | None => None end
                | _ => None
                end
  end.

Definition child (p : pypath) (x : string) : pypath := mkPath (root p) (parts p ++ [x]).

Definition descend (p : pypath) (rel : list string) : pypath := mkPath (root p) (parts p ++ rel).

(** [os.walk(root, followlinks=False)]: every entry below, with its path. *)
Fixpoint walk (p : pypath) (n : node) : list (pypath * node) :=
  match n with
  | Folder es =>
      (fix go (es : entries) : list (pypath * node) :=
         match es with
         | [] => []
         | (x, c) :: es => (child p x, c) :: walk (child p x) c ++ go es
         end) es
  | _ => []
  end.

(** [shutil.copytree(src, dst, symlinks=True, ignore=...)] with no [dst] before. *)
Fixpoint copytree (ignore : pypath -> string -> bool) (src : pypath) (n : node) : node :=
  match n with
  | Folder es =>
      Folder ((fix go (es : entries) : entries :=
                 match es with
                 | [] => []
                 | (x, c) :: es => if ignore src x then go es else (x, copytree ignore (child src x) c) :: go es
                 end) es)
  | _ => n
  end.

(** What merging a tree meets: an entry that could not be copied, or one that was
    written through a link, to wherever it leads. *)
Inductive merge_event := NotCopied (rel : list string) | WrittenThrough (rel : list string) (target : string).

Section merging.
(** Whether the link at a path of the destination leads to a directory. *)
Variable leads_to_dir : list string -> bool.

(** [shutil.copytree(src, dst, symlinks=True, dirs_exist_ok=True)]: the entry [src], at
    [rel] and of base name [x], over what is there.  A file replaces a file and goes
    inside a directory; a link is only made where there is nothing; a directory is
    merged into a directory.  A file over a link goes through it, and a directory over
    a link to a directory. *)
Fixpoint merge (rel : list string) (x : string) (src : node) (dst : option node) : option node * list merge_event :=
  match src with
  | File t =>
      match dst with
      | None | Some (File _) => (Some (File t), [])
      | Some (Symlink to) => (dst, [WrittenThrough rel to])
      | Some (Folder es) =>
          match assoc x es with
          | None | Some (File _) => (Some (Folder (assoc_set x (File t) es)), [])
          | Some (Symlink to) => (dst, [WrittenThrough (rel ++ [x]) to])
          | Some (Folder _) => (dst, [NotCopied rel])
          end
      end
  | Symlink to => match dst with None => (Some (Symlink to), []) | Some _ => (dst, [NotCopied rel]) end
  | Folder ss =>
      let into := fix go (ss es : entries) : entries * list merge_event :=
        match ss with
        | [] => (es, [])
        | (y, c) :: ss =>
            let '(r, ev) := merge (rel ++ [y]) y c (assoc y es) in
            let '(es', ev') := go ss (match r with Some c' => assoc_set y c' es | None => es end) in
            (es', ev ++ ev')
        end in
      match dst with
      | None => let '(es, ev) := into ss [] in (Some (Folder es), ev)
      | Some (Folder es) => let '(es, ev) := into ss es in (Some (Folder es), ev)
      | Some (Symlink to) => (dst, [if leads_to_dir rel then WrittenThrough rel to else NotCopied rel])
      | Some (File _) => (dst, [NotCopied rel])
      end
  end.

(** The entries of a directory over those of another. *)
Fixpoint merge_into (rel : list string) (ss es : entries) : entries * list merge_event :=
  match ss with
  | [] => (es, [])
  | (y, c) :: ss =>
      let '(r, ev) := merge (rel ++ [y]) y c (assoc y es) in
      let '(es', ev') := merge_into rel ss (match r with Some c' => assoc_set y c' es | None => es end) in
      (es', ev ++ ev')
  end.
End merging.

(** ** The mount table *)

(** A path as code points: a mount point may hold any of them. *)
Definition code_path : Type := list Z * list (list Z).

Definition codes_of (p : pypath) : code_path := (code_points (root p), map code_points (parts p)).

Fixpoint split_codes (cs : list Z) : list (list Z) :=
  match cs with
  | [] => [[]]
  | c :: cs => if c =? 47 then [] :: split_codes cs
               else match split_codes cs with h :: t => (c :: h) :: t | [] => [[c]] end
  end.

(** [Path] of a text of code points. *)
Definition path_of_codes (cs : list Z) : code_path :=
  (match cs with
   | 47 :: 47 :: 47 :: _ => [47]
   | 47 :: 47 :: _ => [47; 47]
   | 47 :: _ => [47]
   | _ => []
   end, List.filter (fun p => negb (bool_decide (p = []) || bool_decide (p = [46]))) (split_codes cs)).

(** One line of mountinfo: its fifth field. *)
Definition mount_point (line : string) : res (list code_path) :=
  match split_on " " line with
  | _ :: _ :: _ :: _ :: f :: _ => cs ← unescape_mountinfo f; Ok [path_of_codes cs]
  | _ => Ok []
  end.

(** [mount_points], on the text of mountinfo when it can be read. *)
Definition mount_points (mountinfo : option string) : res (list code_path) :=
  match mountinfo with
  | None => Ok []
  | Some text => ps ← mapM_res mount_point (splitlines text); Ok (concat ps)
  end.

(** [p.is_relative_to(q)] *)
Definition is_relative_to (p q : code_path) : bool := bool_decide (fst p = fst q) && bool_decide (snd q `prefix_of` snd p).

(** ** Boundaries *)

Section boundaries.
Variable dev : pypath -> option Z.
Variable resolve : pypath -> pypath.

(** The callback of [_ignore_mount_points]: an entry on another device, or a mount
    point of the directory it is listed in. *)
Definition ignore_mount_points (root_dev : Z) (mounts : list code_path) (src : pypath) (x : string) : bool :=
  match dev (child src x) with
  | None => false
  | Some d => negb (d =? root_dev) || bool_decide (codes_of (child (resolve src) x) ∈ mounts)
  end.

(** [_assert_no_escaping_symlinks] *)
Definition link_stays (base : pypath) (e : pypath * node) : bool :=
  match snd e with
  | Symlink to => is_relative_to (codes_of (resolve (path_div (path_parent (fst e)) to))) (codes_of base)
  | _ => true
  end.

Definition assert_no_escaping_symlinks (at_ : pypath) (n : node) : res unit :=
  if forallb (link_stays (resolve at_)) (walk at_ n) then Ok tt else Raise ValueError.

(** [_assert_no_mounts_under]: the mount table, then the devices of the entries. *)
Definition assert_no_mounts_under (mountinfo : option string) (at_ : pypath) (n : node) : res unit :=
  mounts ← mount_points mountinfo;
  let base := codes_of (resolve at_) in
  if existsb (fun p => negb (bool_decide (p = base)) && is_relative_to p base) mounts then Raise ValueError
  else
    root_dev ← (match dev at_ with Some d => Ok d | None => Raise FileNotFoundError end);
    if existsb (fun e => match dev (fst e) with Some d => negb (d =? root_dev) | None => false end) (walk at_ n)
    then Raise ValueError else Ok tt.

(** [_assert_data_dir_is_not_a_mount] *)
Definition assert_data_dir_is_not_a_mount (mountinfo : option string) (at_ : pypath) : res unit :=
  mounts ← mount_points mountinfo;
  let on_a_mount := bool_decide (codes_of (resolve at_) ∈ mounts)
                    || match dev at_, dev (path_parent at_) with Some a, Some b => negb (a =? b) | _, _ => false end in
  if on_a_mount then Raise ValueError else Ok tt.
End boundaries.

(** ** Walking and copying *)

(** Induction on trees. *)
Lemma node_tree_ind (P : node -> Prop) :
  (forall t, P (File t)) -> (forall t, P (Symlink t)) ->
  (forall es, Forall (fun e => P (snd e)) es -> P (Folder es)) -> forall n, P n.
Proof.
  intros Hf Hs Hd. fix IH 1. intros [t|t|es]; [apply Hf|apply Hs|apply Hd].
  induction es as [|[x c] es IHes]; constructor; [apply IH|exact IHes].
Qed.

Lemma descend_cons p x rel : descend p (x :: rel) = descend (child p x) rel.
Proof. unfold descend, child. cbn. by rewrite <- app_assoc. Qed.

Lemma descend_nil p : descend p [] = p.
Proof. destruct p. unfold descend. cbn. by rewrite app_nil_r. Qed.

Lemma walk_entry p es x c : assoc x es = Some c -> (child p x, c) ∈ walk p (Folder es) /\ walk (child p x) c ⊆ walk p (Folder es).
Proof.
  cbn [walk]. induction es as [|[y d] es IH]; [done|]. cbn [assoc]. case_decide as E.
  - intros [= ->]. subst y. set_solver.
  - intros H%IH. set_solver.
Qed.

(** Every entry of a tree is walked. *)
Lemma walk_find p n rel c : rel <> [] -> find_node n rel = Some c -> (descend p rel, c) ∈ walk p n.
Proof.
  revert p n. induction rel as [|x rel IH]; [done|]. intros p [t|t|es] _; [done|done|]. cbn [find_node].
  destruct (assoc x es) as [d|] eqn:E; [|done]. destruct (walk_entry p es x d E) as [Hx Hsub]. rewrite descend_cons.
  destruct rel as [|y rel]; [intros [= <-]; by rewrite descend_nil|]. intros H. by apply Hsub, IH.
Qed.

(** Whether the way down crosses an entry that is left out. *)
Fixpoint crosses (ignore : pypath -> string -> bool) (p : pypath) (rel : list string) : bool :=
  match rel with [] => false | x :: rel => ignore p x || crosses ignore (child p x) rel end.

Lemma copytree_entries ignore p es x :
  find_node (copytree ignore p (Folder es)) [x] =
  (if ignore p x then None else copytree ignore (child p x) <$> assoc x es).
Proof.
  cbn [copytree find_node]. induction es as [|[y c] es IH]; [by destruct (ignore p x)|]. cbn [assoc].
  destruct (ignore p y) eqn:Ey.
  - rewrite IH. case_decide as E; [|done]. subst. by rewrite Ey.
  - cbn [assoc]. case_decide as E; [|done]. subst. by rewrite Ey.
Qed.

Lemma find_node_cons n x rel : find_node n (x :: rel) = (find_node n [x] ≫= fun c => find_node c rel).
Proof. destruct n as [t|t|es]; [done|done|]. cbn. by destruct (assoc x es). Qed.

(** The copy holds what the tree holds, up to the boundaries. *)
Lemma copytree_find ignore p n rel :
  find_node (copytree ignore p n) rel =
  if crosses ignore p rel then None else copytree ignore (descend p rel) <$> find_node n rel.
Proof.
  revert p n. induction rel as [|x rel IH]; intros p n; [by rewrite descend_nil|].
  rewrite descend_cons. cbn [crosses]. destruct n as [t|t|es]; [by destruct (_ || _)..|].
  rewrite (find_node_cons (copytree _ _ _)), copytree_entries. destruct (ignore p x); [done|]. cbn [orb find_node].
  destruct (assoc x es) as [c|]; cbn; [apply IH|by destruct (crosses _ _ _)].
Qed.

(** No directory lists a name twice. *)
Definition names_once (n : node) : Prop := forall rel es, find_node n rel = Some (Folder es) -> NoDup es.*1.

Lemma names_once_child es x c : names_once (Folder es) -> assoc x es = Some c -> names_once c.
Proof. intros H E rel ds Hd. apply (H (x :: rel) ds). cbn. by rewrite E. Qed.

Lemma assoc_elem {A} x (c : A) es : NoDup es.*1 -> (x, c) ∈ es -> assoc x es = Some c.
Proof.
  induction es as [|[y d] es IH]; [by intros _ ?%elem_of_nil|]. cbn [assoc fmap list_fmap fst].
  intros [Hy Hnd]%NoDup_cons [[= -> ->]|Hin]%elem_of_cons; [by rewrite decide_True|].
  rewrite decide_False; [by apply IH|]. intros ->. apply Hy, list_elem_of_fmap. by exists (x, c).
Qed.

Lemma assoc_absent {A} x (es : list (string * A)) : x ∉ es.*1 -> assoc x es = None.
Proof.
  intros H. destruct (assoc x es) as [c|] eqn:E; [|done]. destruct H. apply list_elem_of_fmap. exists (x, c). split; [done|].
  by apply assoc_In.
Qed.

(** A tree without boundaries is copied as it is. *)
Lemma copytree_all ignore p n :
  (forall rel x c, find_node n (rel ++ [x]) = Some c -> ignore (descend p rel) x = false) ->
  names_once n -> copytree ignore p n = n.
Proof.
  revert p. induction n as [t|t|es IH] using node_tree_ind; intros p H Hw; [done|done|]. cbn [copytree]. f_equal.
  pose proof (Hw [] es eq_refl) as Hnd.
  assert (Ha : forall x c, (x, c) ∈ es -> assoc x es = Some c) by (intros; by apply assoc_elem).
  assert (Hi : forall x c, (x, c) ∈ es -> ignore p x = false).
  { intros x c Hin. rewrite <- (descend_nil p). apply (H [] x c). cbn. by rewrite (Ha x c). }
  assert (Hc : forall x c, (x, c) ∈ es -> copytree ignore (child p x) c = c).
  { intros x c Hin. rewrite Forall_forall in IH. apply (IH (x, c) Hin).
    - intros rel y d Hd. rewrite <- descend_cons. apply (H (x :: rel) y d). cbn. by rewrite (Ha x c).
    - eapply names_once_child; [exact Hw|by apply Ha]. }
  clear H Hw Hnd IH Ha. induction es as [|[x c] es IHes]; [done|].
  rewrite (Hi x c) by set_solver. rewrite (Hc x c) by set_solver. f_equal. apply IHes; set_solver.
Qed.

(** ** Merging *)

Section merge_lemmas.
Variable leads_to_dir : list string -> bool.
Notation merge := (merge leads_to_dir).
Notation merge_into := (merge_into leads_to_dir).

Lemma merge_folder rel x ss dst :
  merge rel x (Folder ss) dst =
  match dst with
  | None => let '(es, ev) := merge_into rel ss [] in (Some (Folder es), ev)
  | Some (Folder es) => let '(es, ev) := merge_into rel ss es in (Some (Folder es), ev)
  | Some (Symlink to) => (dst, [if leads_to_dir rel then WrittenThrough rel to else NotCopied rel])
  | Some (File _) => (dst, [NotCopied rel])
  end.
Proof.
  assert (H : forall es, (fix go (ss es : entries) : entries * list merge_event :=
    match ss with
    | [] => (es, [])
    | (y, c) :: ss =>
        let '(r, ev) := merge (rel ++ [y]) y c (assoc y es) in
        let '(es', ev') := go ss (match r with Some c' => assoc_set y c' es | None => es end) in
        (es', ev ++ ev')
    end) ss es = merge_into rel ss es).
  { induction ss as [|[y c] ss IH]; intros es; [done|]. cbn [DataTree.merge_into].
    destruct (merge (rel ++ [y]) y c (assoc y es)) as [r ev]. by rewrite IH. }
  destruct dst as [[t|t|es]|]; cbn [DataTree.merge]; by rewrite ?H.
Qed.

(** Merging entries one by one is merging each over what was there. *)
Lemma merge_into_lookup rel ss es :
  NoDup ss.*1 ->
  (forall y c, (y, c) ∈ ss -> exists d, merge (rel ++ [y]) y c (assoc y es) = (Some d, [])) ->
  exists es', merge_into rel ss es = (es', []) /\
    forall y, assoc y es' = match assoc y ss with Some c => fst (merge (rel ++ [y]) y c (assoc y es)) | None => assoc y es end.
Proof.
  revert es. induction ss as [|[z c] ss IH]; intros es Hnd Hok; [by exists es|].
  cbn [fmap list_fmap fst] in Hnd. apply NoDup_cons in Hnd as [Hz Hnd].
  destruct (Hok z c) as [d Hd]; [set_solver|]. cbn [DataTree.merge_into]. rewrite Hd.
  assert (Hkeep : forall y e, (y, e) ∈ ss -> assoc y (assoc_set z d es) = assoc y es).
  { intros y e Hin. apply assoc_set_other. intros ->. apply Hz, list_elem_of_fmap. by exists (y, e). }
  destruct (IH (assoc_set z d es) Hnd) as (es' & He & Hl).
  { intros y e Hin. rewrite (Hkeep y e Hin). apply Hok. set_solver. }
  rewrite He. exists es'. split; [done|]. intros y. rewrite Hl. cbn [assoc]. case_decide as E.
  - subst y. rewrite (assoc_absent z ss) by done. rewrite assoc_set_same, Hd. done.
  - destruct (assoc y ss) as [e|] eqn:Ey; [|by rewrite assoc_set_other].
    by rewrite (Hkeep y e (assoc_In _ _ _ Ey)).
Qed.

(** Over nothing, a tree is laid down as it is. *)
Lemma merge_into_fresh rel ss es :
  NoDup ss.*1 -> (forall y, y ∈ ss.*1 -> y ∉ es.*1) ->
  (forall y c, (y, c) ∈ ss -> merge (rel ++ [y]) y c None = (Some c, [])) ->
  merge_into rel ss es = (es ++ ss, []).
Proof.
  revert es. induction ss as [|[z c] ss IH]; intros es Hnd Hnew Hok; [by rewrite app_nil_r|].
  cbn [fmap list_fmap fst] in Hnd, Hnew. apply NoDup_cons in Hnd as [Hz Hnd].
  cbn [DataTree.merge_into]. rewrite (assoc_absent z es), (Hok z c) by set_solver.
  assert (Hs : assoc_set z c es = es ++ [(z, c)]).
  { assert (Hze : z ∉ es.*1) by set_solver. clear -Hze. induction es as [|[y d] es IHes]; [done|]. cbn [assoc_set].
    rewrite decide_False by set_solver. cbn. rewrite IHes; [done|set_solver]. }
  rewrite Hs, IH; [by rewrite <- app_assoc|done| |set_solver].
  intros y Hy. rewrite fmap_app. set_solver.
Qed.

Lemma merge_fresh src rel x : names_once src -> merge rel x src None = (Some src, []).
Proof.
  revert rel x. induction src as [t|t|ss IH] using node_tree_ind; intros rel x Hw; [done|done|]. rewrite merge_folder.
  rewrite (merge_into_fresh rel ss []); [done|by apply (Hw [] ss)|set_solver|].
  intros y c Hin. rewrite Forall_forall in IH. apply (IH (y, c) Hin).
  eapply names_once_child; [exact Hw|]. apply assoc_elem; [by apply (Hw [] ss)|done].
Qed.

(** Where both trees have an entry, both have a file or both a directory. *)
Definition agree (src dst : node) : Prop :=
  forall rel a b, find_node src rel = Some a -> find_node dst rel = Some b ->
    match a, b with File _, File _ | Folder _, Folder _ => True | _, _ => False end.

(** The file or link at a path. *)
Definition leaf (n : node) (rel : list string) : option node :=
  match find_node n rel with Some (Folder _) => None | o => o end.

Definition overlays (src : node) (dst : option node) (res : node) : Prop :=
  forall r, leaf res r = match leaf src r with Some l => Some l | None => dst ≫= fun d => leaf d r end.

Lemma leaf_cons es x r : leaf (Folder es) (x :: r) = (assoc x es ≫= fun c => leaf c r).
Proof. unfold leaf. cbn [find_node]. by destruct (assoc x es). Qed.

(** What is written through a link goes through one that the destination had. *)
Lemma merge_into_through rel ss es r to :
  NoDup ss.*1 ->
  (forall y c dst, (y, c) ∈ ss -> WrittenThrough r to ∈ snd (merge (rel ++ [y]) y c dst) ->
     exists r' d, r = (rel ++ [y]) ++ r' /\ dst = Some d /\ find_node d r' = Some (Symlink to)) ->
  WrittenThrough r to ∈ snd (merge_into rel ss es) ->
  exists y r' d, y ∈ ss.*1 /\ r = (rel ++ [y]) ++ r' /\ assoc y es = Some d /\ find_node d r' = Some (Symlink to).
Proof.
  revert es. induction ss as [|[z c] ss IH]; intros es Hnd Hone; [by intros ?%elem_of_nil|]. apply NoDup_cons in Hnd as [Hz Hnd].
  cbn [DataTree.merge_into]. specialize (Hone z c (assoc z es) ltac:(by left)) as Hhead. destruct (merge (rel ++ [z]) z c (assoc z es)) as [o ev].
  specialize (IH (match o with Some c' => assoc_set z c' es | None => es end) Hnd ltac:(intros y d dst Hy; apply Hone; by right)).
  destruct (merge_into rel ss _) as [es' ev'] eqn:Em. cbn [snd] in *. intros [He|He]%elem_of_app.
  - destruct (Hhead He) as (r' & d & -> & Hd & Hf). exists z, r', d. split_and!; [by left|done|done|done].
  - destruct (IH He) as (y & r' & d & Hy & -> & Hd & Hf). exists y, r', d. split_and!; [by right|done| |done].
    destruct o; [|done]. rewrite assoc_set_other in Hd; [done|]. intros ->. by apply Hz.
Qed.

Lemma merge_through src rel x dst r to :
  names_once src -> WrittenThrough r to ∈ snd (merge rel x src dst) ->
  exists r' d, r = rel ++ r' /\ dst = Some d /\ find_node d r' = Some (Symlink to).
Proof.
  revert rel x dst. induction src as [t|t|ss IH] using node_tree_ind; intros rel x dst Hw.
  - cbn [DataTree.merge]. destruct dst as [[t'|to'|es]|]; cbn [snd]; [by intros ?%elem_of_nil| | |by intros ?%elem_of_nil].
    + intros [= -> ->]%list_elem_of_singleton. exists [], (Symlink to'). by rewrite app_nil_r.
    + destruct (assoc x es) as [[t'|to'|es']|] eqn:E; cbn [snd]; try (by intros ?%elem_of_nil); try (by intros ?%list_elem_of_singleton).
      intros [= -> ->]%list_elem_of_singleton. exists [x], (Folder es). cbn. by rewrite E.
  - cbn [DataTree.merge]. destruct dst; cbn [snd]; [by intros ?%list_elem_of_singleton|by intros ?%elem_of_nil].
  - rewrite merge_folder.
    assert (Hin : forall es, WrittenThrough r to ∈ snd (merge_into rel ss es) ->
      exists r', r = rel ++ r' /\ find_node (Folder es) r' = Some (Symlink to)).
    { intros es H. apply merge_into_through in H as (y & r' & d & _ & -> & Hd & Hf).
      - exists (y :: r'). rewrite <- app_assoc. split; [done|]. cbn. by rewrite Hd.
      - by apply (Hw [] ss).
      - intros y c dst' Hy. rewrite Forall_forall in IH. apply (IH _ Hy). eapply names_once_child; [exact Hw|].
        apply assoc_elem; [by apply (Hw [] ss)|done]. }
    destruct dst as [[t'|to'|es]|].
    + by intros ?%list_elem_of_singleton.
    + destruct (leads_to_dir rel); cbn [snd]; [|by intros ?%list_elem_of_singleton]. intros [= -> ->]%list_elem_of_singleton.
      exists [], (Symlink to'). by rewrite app_nil_r.
    + specialize (Hin es). destruct (merge_into rel ss es) as [es' ev]. cbn [snd] in *. intros H. destruct (Hin H) as (r' & -> & Hf). by exists r', (Folder es).
    + specialize (Hin []). destruct (merge_into rel ss []) as [es' ev]. cbn [snd] in *. intros H. destruct (Hin H) as (r' & -> & Hf). by destruct r'.
Qed.

(** Trees that agree merge without a fault: the archive's leaves win, the others stay. *)
Lemma merge_overlay src dst rel x :
  names_once src -> agree src dst -> exists res, merge rel x src (Some dst) = (Some res, []) /\ overlays src (Some dst) res.
Proof.
  revert dst rel x. induction src as [t|t|ss IH] using node_tree_ind; intros dst rel x Hw Hag.
  - pose proof (Hag [] _ _ eq_refl eq_refl) as H. destruct dst as [t'| |]; [|done|done].
    exists (File t). split; [done|]. by intros [|y r].
  - pose proof (Hag [] _ _ eq_refl eq_refl) as H. by destruct dst.
  - pose proof (Hag [] _ _ eq_refl eq_refl) as H. destruct dst as [| |es]; [done|done|]. clear H.
    assert (Hnd : NoDup ss.*1) by by apply (Hw [] ss).
    assert (Hone : forall y c, assoc y ss = Some c -> exists d,
              merge (rel ++ [y]) y c (assoc y es) = (Some d, []) /\ overlays c (assoc y es) d).
    { intros y c Ec. pose proof (names_once_child _ _ _ Hw Ec) as Hwc. destruct (assoc y es) as [d|] eqn:Ed.
      - rewrite Forall_forall in IH. apply (IH (y, c)); [by apply assoc_In|done|].
        intros r a b Ha Hb. apply (Hag (y :: r)); cbn; [by rewrite Ec|by rewrite Ed].
      - exists c. split; [by apply merge_fresh|]. intros r. by destruct (leaf c r). }
    destruct (merge_into_lookup rel ss es Hnd) as (es' & He & Hl).
    { intros y c Hin. destruct (Hone y c) as (d & Hd & _); [by apply assoc_elem|]. eauto. }
    exists (Folder es'). rewrite merge_folder, He. split; [done|]. intros [|y r]; [done|].
    rewrite !leaf_cons, Hl. cbn [mbind option_bind]. rewrite leaf_cons.
    destruct (assoc y ss) as [c|] eqn:Ec; [|done]. destruct (Hone y c Ec) as (d & Hd & Ho). rewrite Hd. cbn. rewrite (Ho r). done.
Qed.
End merge_lemmas.

(** The files and links of a copy are those of the tree, up to the boundaries. *)
Lemma copytree_leaf ignore p n rel : leaf (copytree ignore p n) rel = if crosses ignore p rel then None else leaf n rel.
Proof.
  unfold leaf. rewrite copytree_find. destruct (crosses _ _ _); [done|]. by destruct (find_node n rel) as [[| |]|].
Qed.

(** ** Guards *)

Section guards.
Variable dev : pypath -> option Z.
Variable resolve : pypath -> pypath.

(** An entry below a directory is a boundary: it is on another device, or the mount
    table has it. *)
Definition boundary (root_dev : Z) (mounts : list code_path) (at_ : pypath) (rel : list string) : Prop :=
  (exists d, dev (descend at_ rel) = Some d /\ d <> root_dev) \/ codes_of (descend (resolve at_) rel) ∈ mounts.

Lemma codes_of_descend p rel : codes_of (descend p rel) = (fst (codes_of p), snd (codes_of p) ++ map code_points rel).
Proof. unfold codes_of, descend. cbn. by rewrite map_app. Qed.

Lemma no_mounts_sound mountinfo at_ n :
  assert_no_mounts_under dev resolve mountinfo at_ n = Ok tt ->
  exists mounts root_dev, mount_points mountinfo = Ok mounts /\ dev at_ = Some root_dev /\
    forall rel c, rel <> [] -> find_node n rel = Some c -> ~ boundary root_dev mounts at_ rel.
Proof.
  unfold assert_no_mounts_under. destruct (mount_points mountinfo) as [mounts|e]; [|done]. rewrite bind_Ok.
  destruct (existsb _ mounts) eqn:Em; [done|]. destruct (dev at_) as [root_dev|]; [|done]. rewrite bind_Ok.
  destruct (existsb _ (walk at_ n)) eqn:Ew; [done|]. intros _. exists mounts, root_dev. split_and!; [done|done|].
  intros rel c Hrel Hc [(d & Hd & Hne)|Hin].
  - apply not_true_iff_false in Ew. apply Ew, existsb_exists. exists (descend at_ rel, c). split.
    + apply list_elem_of_In. by apply walk_find.
    + cbn. rewrite Hd. by apply negb_true_iff, Z.eqb_neq.
  - apply not_true_iff_false in Em. apply Em, existsb_exists. eexists. split; [by apply list_elem_of_In|].
    rewrite codes_of_descend. apply andb_true_intro. split.
    + apply negb_true_iff, bool_decide_eq_false. intros E. destruct (codes_of (resolve at_)) as [r ps]. cbn in E.
      apply (f_equal (length ∘ snd)) in E. cbn in E. rewrite length_app, length_map in E. destruct rel; [done|cbn in E; lia].
    + unfold is_relative_to. cbn. rewrite !bool_decide_eq_true_2; [done| |done]. by apply prefix_app_r.
Qed.

Lemma not_a_mount_sound mountinfo at_ :
  assert_data_dir_is_not_a_mount dev resolve mountinfo at_ = Ok tt ->
  exists mounts, mount_points mountinfo = Ok mounts /\ codes_of (resolve at_) ∉ mounts /\
    forall a b, dev at_ = Some a -> dev (path_parent at_) = Some b -> a = b.
Proof.
  unfold assert_data_dir_is_not_a_mount. destruct (mount_points mountinfo) as [mounts|e]; [|done]. rewrite bind_Ok.
  destruct (_ || _) eqn:E; [done|]. intros _. apply orb_false_elim in E as [E1%bool_decide_eq_false E2].
  exists mounts. split_and!; [done|done|]. intros a b Ha Hb. rewrite Ha, Hb in E2.
  by apply negb_false_iff, Z.eqb_eq in E2.
Qed.

(** Where a link of the tree leads. *)
Definition link_target (at_ : pypath) (rel : list string) (to : string) : code_path :=
  codes_of (resolve (path_div (path_parent (descend at_ rel)) to)).

Lemma links_stay_sound at_ n rel to :
  assert_no_escaping_symlinks resolve at_ n = Ok tt -> rel <> [] -> find_node n rel = Some (Symlink to) ->
  is_relative_to (link_target at_ rel to) (codes_of (resolve at_)) = true.
Proof.
  unfold assert_no_escaping_symlinks. destruct (forallb _ _) eqn:E; [|done]. intros _ Hrel Hf.
  apply walk_find with (p := at_) in Hf; [|done]. rewrite forallb_forall in E.
  by specialize (E _ (proj1 (list_elem_of_In _ _) Hf)).
Qed.
End guards.

(** ** Boundaries on the way down *)

Lemma crosses_prefix ignore p rel :
  crosses ignore p rel = true <-> exists pre x, pre ++ [x] `prefix_of` rel /\ ignore (descend p pre) x = true.
Proof.
  revert p. induction rel as [|y rel IH]; intros p; cbn [crosses].
  - split; [done|]. intros (pre & x & [k Hk] & _). by destruct pre.
  - rewrite orb_true_iff, IH. split.
    + intros [H|(pre & x & [k ->] & Hx)].
      * exists [], y. rewrite descend_nil. split; [by exists rel|done].
      * exists (y :: pre), x. rewrite descend_cons. split; [by exists k|done].
    + intros ([|z pre] & x & [k Hk] & Hx); injection Hk as -> Hk.
      * left. by rewrite descend_nil in Hx.
      * right. exists pre, x. rewrite <- descend_cons. split; [by exists k|done].
Qed.

Lemma find_node_app n pre rel : find_node n (pre ++ rel) = (find_node n pre ≫= fun c => find_node c rel).
Proof.
  revert n. induction pre as [|x pre IH]; intros n; [done|]. cbn [app]. rewrite find_node_cons, (find_node_cons n x pre).
  destruct (find_node n [x]); cbn; [apply IH|done].
Qed.

(** The entries below a directory whose subdirectories are where their paths say, and
    which can all be looked at. *)
Record in_place (dev : pypath -> option Z) (resolve : pypath -> pypath) (at_ : pypath) (n : node) : Prop := {
  in_place_dirs rel es : find_node n rel = Some (Folder es) -> resolve (descend at_ rel) = descend (resolve at_) rel;
  in_place_devs rel c : find_node n rel = Some c -> is_Some (dev (descend at_ rel)) }.

(** What the callback leaves out is what is beyond a boundary. *)
Lemma crosses_boundary dev resolve root_dev mounts at_ n rel c :
  in_place dev resolve at_ n -> find_node n rel = Some c ->
  crosses (ignore_mount_points dev resolve root_dev mounts) at_ rel = true <->
  exists pre, pre <> [] /\ pre `prefix_of` rel /\ boundary dev resolve root_dev mounts at_ pre.
Proof.
  intros [Hd Hv] Hc. rewrite crosses_prefix.
  assert (Hx : forall pre x, pre ++ [x] `prefix_of` rel ->
            ignore_mount_points dev resolve root_dev mounts (descend at_ pre) x = true <-> boundary dev resolve root_dev mounts at_ (pre ++ [x])).
  { intros pre x [k ->]. rewrite <- app_assoc, find_node_app in Hc. destruct (find_node n pre) as [d|] eqn:Ed; [|done].
    cbn in Hc. destruct d as [t|t|es]; [done|done|]. cbn [find_node app] in Hc.
    assert (E : forall p, child (descend p pre) x = descend p (pre ++ [x])) by (intros p; unfold child, descend; cbn; by rewrite app_assoc).
    unfold ignore_mount_points, boundary. rewrite (Hd pre es Ed), !E.
    destruct (assoc x es) as [c'|] eqn:Ex; [|done].
    destruct (Hv (pre ++ [x]) c') as [v Hv']; [rewrite find_node_app, Ed; cbn; by rewrite Ex|]. rewrite Hv', orb_true_iff, bool_decide_eq_true.
    apply or_iff_compat_r. rewrite negb_true_iff, Z.eqb_neq. split; [eauto|]. by intros (? & [= <-] & ?). }
  split.
  - intros (pre & x & Hp & Hi). exists (pre ++ [x]). split_and!; [by destruct pre|done|by apply Hx].
  - intros (pre & Hne & Hp & Hb). destruct (exists_last Hne) as (q & x & ->). exists q, x. split; [done|by apply Hx].
Qed.

(** ** Reading the mount table *)

Lemma split_codes_points s : split_codes (code_points s) = map code_points (split_on "/" s).
Proof.
  induction s as [|c s IH]; [done|]. change (code_points (String c s)) with (code c :: code_points s).
  cbn [split_codes split_on]. rewrite IH. replace (code c =? 47) with (Ascii.eqb c "/").
  - destruct (Ascii.eqb c "/"); [done|]. by destruct (split_on "/" s).
  - change 47 with (code "/"). destruct (Ascii.eqb_spec c "/") as [->|Hne]; [done|].
    symmetry. apply Z.eqb_neq. contradict Hne. by apply code_inj.
Qed.

Lemma code_points_nil s : code_points s = [] <-> s = "".
Proof. by destruct s. Qed.

Lemma code_points_inj s t : code_points s = code_points t -> s = t.
Proof.
  revert t. induction s as [|c s IH]; intros [|d t]; cbn; try done. intros [= Hc%code_inj Ht]. subst. f_equal. by apply IH.
Qed.

Lemma root_codes s :
  code_points (root_of s) =
  match code_points s with 47 :: 47 :: 47 :: _ => [47] | 47 :: 47 :: _ => [47; 47] | 47 :: _ => [47] | _ => [] end.
Proof.
  assert (Hc : forall c, code c = 47 \/ (Ascii.eqb "/" c = false /\ forall A (a b : A), match code c with 47 => a | _ => b end = b)).
  { intros c. destruct (Ascii.eqb_spec "/" c) as [<-|Hne]; [by left|]. right. split; [done|]. intros A a b.
    assert (code c <> 47) by (intros H; apply Hne, code_inj; by rewrite H).
    destruct (code c) as [|q|q]; [done| |done]. by do 6 (destruct q as [q|q|]; try done). }
  assert (Hs : forall c, code c = 47 -> c = "/"%char) by (intros c H; by apply code_inj).
  unfold root_of. destruct s as [|c s]; [done|]. cbn [code_points String.list_ascii_of_string map starts_with].
  destruct (Hc c) as [->%Hs|[E H]]; [|by rewrite E, (H _ _ [])].
  destruct s as [|d s]; [done|]. cbn [String.list_ascii_of_string map starts_with].
  destruct (Hc d) as [->%Hs|[E H]]; [|rewrite E; cbn; by rewrite (H _ _ [47])].
  destruct s as [|e s]; [done|]. cbn [String.list_ascii_of_string map starts_with].
  destruct (Hc e) as [->%Hs|[E H]]; [done|]. rewrite E. cbn. by rewrite (H _ _ [47; 47]).
Qed.

(** The path of a text is the path of its code points. *)
Lemma path_of_code_points s : path_of_codes (code_points s) = codes_of (path_of s).
Proof.
  unfold path_of_codes, codes_of, path_of. cbn [root parts]. rewrite root_codes, split_codes_points. f_equal.
  unfold parts_of. induction (split_on "/" s) as [|w ws IH]; [done|]. cbn [map List.filter].
  replace (negb (bool_decide (code_points w = []) || bool_decide (code_points w = [46]))) with (is_part w).
  - rewrite IH. by destruct (is_part w).
  - unfold is_part. do 2 f_equal.
    + destruct (String.eqb_spec w "") as [->|Hne]; [done|]. by rewrite bool_decide_eq_false_2 by by rewrite code_points_nil.
    + destruct (String.eqb_spec w ".") as [->|Hne]; [done|]. rewrite bool_decide_eq_false_2; [done|].
      change [46] with (code_points "."). by intros ?%code_points_inj.
Qed.

(** A line as the kernel writes it: four fields, the mount point with its blanks
    escaped, and the rest. *)
Definition mount_line (m : string * list string * string) : string :=
  let '(point, before, after) := m in join " " (before ++ [mangle_path point; after]).

Definition line_ok (m : string * list string * string) : Prop :=
  let '(point, before, after) := m in
  length before = 4%nat /\ Forall (fun f => has_char " " f = false) before /\ no_break (mount_line m) = true.

Lemma mangle_no_space s : has_char " " (mangle_path s) = false.
Proof.
  induction s as [|c s IH]; [done|]. unfold mangle_path in *. cbn [map_chars]. rewrite has_char_app, IH, orb_false_r.
  unfold mangle_char. destruct (kernel_escapes c) eqn:E.
  - by apply kernel_escapes_inv in E as [->|[->|[->|[->| ->]]]].
  - unfold kernel_escapes in E. rewrite !orb_false_iff in E. unfold has_char, chr. cbn. unfold is_char.
    rewrite orb_false_r. destruct E as [[[[E _] _] _] _]. first [exact E|by rewrite Ascii.eqb_sym].
Qed.

Lemma mount_point_line m : line_ok m -> mount_point (mount_line m) = Ok [codes_of (path_of (fst (fst m)))].
Proof.
  destruct m as [[point before] after]. intros (Hlen & Hb & _). unfold mount_point, mount_line.
  destruct before as [|a [|b [|c [|d [|? ?]]]]]; try done. cbn [app join fst].
  repeat match goal with H : Forall _ (_ :: _) |- _ => apply Forall_cons in H as [? H] end.
  assert (Hs : forall f t, has_char " " f = false -> split_on " " (f +:+ " " +:+ t) = f :: split_on " " t)
    by (intros f t; apply split_on_app).
  rewrite !Hs by first [done|apply mangle_no_space].
  rewrite mountinfo_roundtrip, bind_Ok, path_of_code_points. done.
Qed.

(** The text of mountinfo for a list of mounts. *)
Definition mount_table (ms : list (string * list string * string)) : string :=
  join "" (map (fun m => mount_line m +:+ chr LF) ms).

(** The mount table is read back as the kernel wrote it, point by point and in order,
    whatever blanks, backslashes or non-ASCII characters a mount point has. *)
Lemma mount_table_read ms :
  Forall line_ok ms ->
  mount_points (Some (mount_table ms)) = Ok (map (fun m => codes_of (path_of (fst (fst m)))) ms).
Proof.
  intros H. unfold mount_points, mount_table. rewrite <- (map_map mount_line (fun l => l +:+ chr LF)), splitlines_join.
  - assert (E : mapM_res mount_point (map mount_line ms) = Ok (map (fun m => [codes_of (path_of (fst (fst m)))]) ms)).
    { induction H as [|m ms Hm Hms IH]; [done|]. cbn [map mapM_res]. rewrite (mount_point_line m Hm), bind_Ok, IH. done. }
    rewrite E, bind_Ok. f_equal. clear. induction ms as [|m ms IH]; [done|]. cbn. by rewrite IH.
  - apply Forall_map. eapply Forall_impl; [exact H|]. by intros [[? ?] ?] (? & ? & ?).
Qed.

(** A mount point whose name starts with a vertical tab, which the kernel does not escape and at which
    [splitlines] breaks its line, is not in the table that is read, and the guard
    passes over it. *)
Theorem mount_with_line_boundary_is_missed :
  let point := "/srv/data/" +:+ String "011" "b" in
  let table := mount_line (point, ["90"; "22"; "8:1"; "/srv"], "rw - xfs /dev/sda1 rw") +:+ chr LF in
  let tree := Folder [(String "011" "b", Folder [("f", File "x")])] in
  (exists ms, mount_points (Some table) = Ok ms /\ codes_of (path_of point) ∉ ms) /\
  assert_no_mounts_under (fun _ => Some 1) id (Some table) (path_of "/srv/data") tree = Ok tt.
Proof.
  split; [|by vm_compute]. eexists. split; [by vm_compute|]. apply (bool_decide_unpack _). by vm_compute.
Qed.
