(* ===== verification/Backup.v ===== *)
(** * Archives: [lib/backup.py], [lib/service_runtime.py], the backup verb of [lib/cmd_backup.py]

    Capturing a workload: quiesce it (stop its service, or pause its vCPUs over QMP),
    stage its file, its credentials and its data, write the archive, and put the
    workload back in motion.  The world is the state of the service, the QMP
    connection, the commands run and the archive with its mode.

    Parameters: what is on disk, which steps fail, how each command ends after those
    run before it, JSON, the replies of the monitor and the outcome of the guest
    clock's resynchronisation. *)
From S2P Require Import Prelude PyStr PyPath Toml WorkloadNames SecretsTemplate BrokerConfig Seccomp UnitGen.
From S2P Require Import GenContainer Qmp DataTree.
Local Open Scope Z_scope.

(** ** The world *)

Record archive := mkArchive { ar_toml : string; ar_credentials : list (string * string); ar_data : node }.

Record bhost := mkB {
  bh_active : bool; bh_conn : conn; bh_ran : list (list string);
  (** The archive at the destination and its mode, and its mode at each write of tar. *)
  bh_archive : option archive; bh_mode : option Z; bh_writes : list Z }.

(** The steps of the capture that may fail. *)
Inductive bstep := AtStaging | AtToml | AtCredentialDir | AtCredential (n : string) | AtData | AtParent | AtOpen | AtTar | AtChmod | AtStat.

Definition set_active (b : bool) (w : bhost) : bhost := mkB b (bh_conn w) (bh_ran w) (bh_archive w) (bh_mode w) (bh_writes w).

Definition set_output (a : option archive) (m : option Z) (w : bhost) : bhost := mkB (bh_active w) (bh_conn w) (bh_ran w) a m (bh_writes w).

Definition on_conn {A} (m : io conn A) : io bhost A := fun w =>
  let '(c, r) := m (bh_conn w) in (mkB (bh_active w) c (bh_ran w) (bh_archive w) (bh_mode w) (bh_writes w), r).

Definition look {A} (f : bhost -> A) : io bhost A := fun w => (w, Ok (f w)).

Definition change_to (f : bhost -> bhost) : io bhost unit := fun w => (f w, Ok tt).

Section capture.
Variable name : string.
Variable config : table.
(** The workload's file, the credential store, the data directory. *)
Variable toml : string.
Variable credstore : pypath -> option string.
Variable data : option node.
Variable dev : pypath -> option Z.
Variable resolve : pypath -> pypath.
Variable mountinfo : option string.
Variable fault : bstep -> option exn.
(** A command after those run before it: its status, or [None] when it cannot be run. *)
Variable answers : list (list string) -> list string -> option Z.
(** The state a job that fails leaves the service in. *)
Variable left : list (list string) -> bool.
Variable uid : option Z.
(** Whether the user manager and its runtime directory are there. *)
Variable manager_up : list (list string) -> bool.
Variable json_loads : string -> res tv.
Variable sock_exists : bool.
Variable resync : res unit.

Notation service_name := (workload_service_name name).

Definition step (s : bstep) : io bhost unit := pure (match fault s with Some e => Raise e | None => Ok tt end).

(** [subprocess.run(cmd).returncode] *)
Definition run_cmd (cmd : list string) : io bhost Z := fun w =>
  (mkB (bh_active w) (bh_conn w) (bh_ran w ++ [cmd]) (bh_archive w) (bh_mode w) (bh_writes w),
   match answers (bh_ran w) cmd with Some rc => Ok rc | None => Raise FileNotFoundError end).

(** ** The service: [service_runtime.py] *)

(** [systemctl is-active]: the state of the service. *)
Definition is_active : io bhost bool := _ ← run_cmd ["systemctl"; "is-active"; "--quiet"; service_name]; look bh_active.

(** A job of the service that succeeds leaves it in the state asked for. *)
Definition systemctl (action : string) (state : bool) : io bhost Z :=
  rc ← run_cmd ["systemctl"; action; service_name];
  _ ← change_to (fun w => set_active (if rc =? 0 then state else left (bh_ran w)) w);
  mret rc.

(** [check=True] *)
Definition check_rc (rc : Z) : io bhost unit := if rc =? 0 then mret tt else pure (Raise CalledProcessError).

(** [ensure_runtime_dir]: what it does about a manager that is not up; nothing it
    meets is raised. *)
Definition ensure_runtime_dir (u : Z) : io bhost unit := fun w =>
  if manager_up (bh_ran w) then (w, Ok tt)
  else try_io (_ ← run_cmd ["loginctl"; "enable-linger"; str_Z u];
               _ ← run_cmd ["systemctl"; "start"; "user@" +:+ str_Z u +:+ ".service"]; mret tt) (fun _ => true) (fun _ => mret tt) w.

Fixpoint restart_from (u : Z) (action : string) (retries : nat) : io bhost unit :=
  rc ← systemctl action true;
  if rc =? 0 then mret tt
  else match retries with
       | O => pure (Raise CalledProcessError)
       | S retries =>
           _ ← run_cmd ["systemctl"; "reset-failed"; service_name];
           _ ← ensure_runtime_dir u;
           restart_from u action retries
       end.

Definition restart_workload_service (u : Z) (action : string) (retries : nat) : io bhost unit :=
  _ ← ensure_runtime_dir u; restart_from u action retries.

(** ** [backup_impl] *)

(** The base name of a credential's path; a name of the store itself has that of the
    store. *)
Definition base_name (p : pypath) : string := List.last (parts p) "".

Fixpoint stage_credentials (names : list string) (staged : list (string * string)) : io bhost (list (string * string)) :=
  match names with
  | [] => mret staged
  | n :: names =>
      let p := path_div CREDSTORE_DIR n in
      match credstore p with
      | Some blob => _ ← step (AtCredential n); stage_credentials names (assoc_set (base_name p) blob staged)
      | None => stage_credentials names staged
      end
  end.

Definition stage_data : io bhost node :=
  match data with
  | Some n =>
      root_dev ← pure (match dev (workload_data_dir name) with Some d => Ok d | None => Raise OSError end);
      mounts ← pure (mount_points mountinfo);
      _ ← step AtData;
      mret (copytree (ignore_mount_points dev resolve root_dev mounts) (workload_data_dir name) n)
  | None => _ ← step AtData; mret (Folder [])
  end.

Definition stage : io bhost archive :=
  _ ← step AtStaging;
  _ ← step AtToml;
  creds ← pure (auto_detect_credentials config);
  blobs ← (match creds with
           | [] => mret []
           | _ => _ ← step AtCredentialDir; names ← pure (sorted_credentials creds); stage_credentials names []
           end);
  d ← stage_data;
  mret (mkArchive toml blobs d).

(** The archive is created private, written by tar, and made private again. *)
Definition PRIVATE : Z := 384.

Definition open_archive : io bhost unit :=
  _ ← step AtOpen; change_to (fun w => set_output None (Some (default PRIVATE (bh_mode w))) w).

Definition run_tar (a : archive) : io bhost unit :=
  _ ← change_to (fun w => mkB (bh_active w) (bh_conn w) (bh_ran w) (bh_archive w) (bh_mode w) (bh_writes w ++ option_list (bh_mode w)));
  _ ← step AtTar;
  change_to (fun w => set_output (Some a) (bh_mode w) w).

Definition protect : io bhost unit := _ ← step AtChmod; change_to (fun w => set_output (bh_archive w) (Some PRIVATE) w).

Definition write_archive (a : archive) : io bhost unit :=
  _ ← step AtParent; _ ← open_archive; _ ← run_tar a; protect.

Definition start_again (vm : bool) : io bhost unit :=
  if vm then _ ← systemctl "start" true; mret tt
  else match uid with
       | None => pure (Raise WorkloadUserNotFound)
       | Some u => try_io (restart_workload_service u "start" 1) (fun e => bool_decide (e = CalledProcessError)) (fun _ => mret tt)
       end.

Definition copy_out : io bhost unit := a ← stage; write_archive a.

Definition backup_impl (no_stop vm : bool) : io bhost unit :=
  was ← is_active;
  let cold := was && negb no_stop in
  _ ← (if cold then rc ← systemctl "stop" false; check_rc rc else mret tt);
  finally copy_out (if cold then start_again vm else mret tt).

(** ** The substrates' [capture] *)

Definition backup_vm : io bhost unit := _ ← backup_impl false true; step AtStat.

Definition monitor_fault (e : exn) : bool := is_oserror e || bool_decide (e = ValueError).

Definition or_backup_error {A} (m : io bhost A) : io bhost A := try_io m monitor_fault (fun _ => pure (Raise BackupError)).

(** The [finally] of the copy: resume the vCPUs, then set the guest's clock. *)
Definition resume : io bhost unit :=
  _ ← try_io (reply ← on_conn (execute json_loads "cont" [] 20); _ ← pure (contains_key "error" reply); mret tt)
        monitor_fault (fun _ => mret tt);
  try_io (pure resync) (fun _ => true) (fun _ => mret tt).

Definition pause_and_copy : io bhost unit :=
  _ ← or_backup_error (_ ← on_conn connect; on_conn (negotiate json_loads));
  reply ← or_backup_error (on_conn (execute json_loads "stop" [] 20));
  refused ← pure (contains_key "error" reply);
  if refused : bool then pure (Raise BackupError)
  else finally (backup_impl true true) resume.

Definition backup_vm_crash : io bhost unit :=
  was ← is_active;
  if negb was then backup_vm
  else if negb sock_exists then pure (Raise BackupError)
  else _ ← finally pause_and_copy (on_conn close); step AtStat.

Definition capture (vm : bool) (consistency : string) : io bhost unit :=
  let crash := String.eqb consistency "crash" in
  if vm then if crash then backup_vm_crash else backup_vm
  else _ ← backup_impl crash false; step AtStat.

(** ** The service comes back *)

Notation cmd a := ["systemctl"; a; service_name].

(** The copy runs nothing and changes nothing but the archive. *)
Definition same_service (w w' : bhost) : Prop := bh_active w' = bh_active w /\ bh_conn w' = bh_conn w /\ bh_ran w' = bh_ran w.

#[local] Instance same_service_preorder : PreOrder same_service.
Proof. split; [by intros w|]. intros a b c (? & ? & ?) (? & ? & ?). split_and!; congruence. Qed.

Lemma step_same s : within same_service (step s).
Proof. apply within_pure, _. Qed.

Lemma change_output_same f g h : within same_service (change_to (fun w => mkB (bh_active w) (bh_conn w) (bh_ran w) (f w) (g w) (h w))).
Proof. by intros w. Qed.

Ltac same :=
  repeat first [apply step_same | apply change_output_same | apply within_pure, _ | apply within_ret, _
               | apply within_bind; [exact _| |intros ?]].

Lemma stage_credentials_same names staged : within same_service (stage_credentials names staged).
Proof.
  revert staged. induction names as [|n names IH]; intros staged; cbn [stage_credentials]; [same|].
  destruct (credstore _); [|apply IH]. same. apply IH.
Qed.

Lemma copy_out_same : within same_service copy_out.
Proof.
  unfold copy_out, stage, stage_data, write_archive, open_archive, run_tar, protect. same.
  - match goal with l : list tv |- _ => destruct l end; same. apply stage_credentials_same.
  - destruct data; same.
Qed.

Lemma run_eq c w rc : answers (bh_ran w) c = Some rc ->
  run_cmd c w = (mkB (bh_active w) (bh_conn w) (bh_ran w ++ [c]) (bh_archive w) (bh_mode w) (bh_writes w), Ok rc).
Proof. intros H. unfold run_cmd. by rewrite H. Qed.

(** The job that starts the service: it can be run, and it succeeds, if need be once
    the failures so far are cleared. *)
Record startable (vm : bool) : Prop := {
  start_runs h : is_Some (answers h (cmd "start"));
  reset_runs h : is_Some (answers h (cmd "reset-failed"));
  start_works h : vm = true \/ cmd "reset-failed" ∈ h -> answers h (cmd "start") = Some 0;
  start_user : vm = true \/ is_Some uid }.

Lemma ensure_grows u w : exists h, bh_ran (fst (ensure_runtime_dir u w)) = bh_ran w ++ h /\ snd (ensure_runtime_dir u w) = Ok tt.
Proof.
  unfold ensure_runtime_dir. destruct (manager_up _); [exists []; by rewrite app_nil_r|]. unfold try_io, run_cmd. cbv [mbind io_bind].
  destruct (answers (bh_ran w) _); cbn; [|eauto].
  destruct (answers (_ ++ _) _); cbn; rewrite <- app_assoc; eauto.
Qed.

Lemma systemctl_eq action state w rc :
  answers (bh_ran w) (cmd action) = Some rc ->
  exists w', systemctl action state w = (w', Ok rc) /\ bh_ran w' = bh_ran w ++ [cmd action] /\ (rc = 0 -> bh_active w' = state).
Proof.
  intros H. unfold systemctl. cbv [mbind io_bind]. rewrite (run_eq _ _ _ H). eexists. split_and!; [done|done|].
  intros ->. done.
Qed.

Lemma restart_from_reset vm u retries w :
  startable vm -> cmd "reset-failed" ∈ bh_ran w ->
  exists w', restart_from u "start" retries w = (w', Ok tt) /\ bh_active w' = true.
Proof.
  intros Hs Hr. destruct (systemctl_eq "start" true w 0) as (w' & E & _ & Ha); [apply (start_works _ Hs); by right|].
  exists w'. split; [|by apply Ha]. destruct retries; cbn [restart_from]; cbv [mbind io_bind]; by rewrite E.
Qed.

Lemma restart_ends_active u w :
  startable false -> exists w', restart_workload_service u "start" 1 w = (w', Ok tt) /\ bh_active w' = true.
Proof.
  intros Hs. unfold restart_workload_service. cbv [mbind io_bind]. destruct (ensure_grows u w) as (h & _ & He).
  destruct (ensure_runtime_dir u w) as [w1 r1]. cbn in He. subst r1.
  destruct (start_runs _ Hs (bh_ran w1)) as [rc Hrc]. destruct (systemctl_eq "start" true w1 rc Hrc) as (w2 & E2 & Hr2 & Ha2).
  cbn [restart_from]. cbv [mbind io_bind]. rewrite E2. destruct (Z.eqb_spec rc 0) as [->|_]; [eauto|].
  destruct (reset_runs _ Hs (bh_ran w2)) as [rc' Hrc']. rewrite (run_eq _ _ _ Hrc').
  set (w3 := mkB _ _ _ _ _ _). destruct (ensure_grows u w3) as (h' & Hg & He'). destruct (ensure_runtime_dir u w3) as [w4 r4].
  cbn in Hg, He'. subst r4. apply (restart_from_reset false u 0 w4 Hs). rewrite Hg. set_solver.
Qed.

Lemma start_again_active vm w : startable vm -> exists w', start_again vm w = (w', Ok tt) /\ bh_active w' = true.
Proof.
  intros Hs. unfold start_again. destruct vm.
  - destruct (systemctl_eq "start" true w 0) as (w' & E & _ & Ha); [apply (start_works _ Hs); by left|].
    cbv [mbind io_bind]. rewrite E. exists w'. split; [done|by apply Ha].
  - destruct (start_user _ Hs) as [?|[u ->]]; [done|]. destruct (restart_ends_active u w Hs) as (w' & E & Ha).
    unfold try_io. rewrite E. eauto.
Qed.

(** A cold backup, whatever fails in it, leaves the service as it found it. *)
Lemma service_is_restored no_stop vm w :
  (forall h, answers h (cmd "stop") = Some 0) -> startable vm ->
  bh_active (fst (backup_impl no_stop vm w)) = bh_active w.
Proof.
  intros Hstop Hs. unfold backup_impl, is_active. cbv [mbind io_bind]. unfold run_cmd.
  destruct (answers (bh_ran w) _); [|done]. cbn [look]. unfold look. cbn [bh_active]. set (w0 := mkB _ _ _ _ _ _).
  destruct (bh_active w && negb no_stop) eqn:Ecold.
  - destruct (systemctl_eq "stop" false w0 0 (Hstop _)) as (w1 & E & _ & _). unfold mbind, io_bind. rewrite E.
    cbn. unfold finally. destruct (copy_out w1) as [w2 r2].
    destruct (start_again_active vm w2 Hs) as (w3 & E3 & Ha). rewrite E3. cbn. rewrite Ha. by destruct (bh_active w).
  - unfold finally. cbn. destruct (copy_out_same w0) as (Ha & _). destruct (copy_out w0) as [w2 r2]. exact Ha.
Qed.

Definition same_active (w w' : bhost) : Prop := bh_active w' = bh_active w.

#[local] Instance same_active_preorder : PreOrder same_active.
Proof. split; [by intros w|]. unfold same_active. intros a b c. congruence. Qed.

Lemma on_conn_active {A} (m : io conn A) : within same_active (on_conn m).
Proof. intros w. unfold on_conn, same_active. by destruct (m (bh_conn w)). Qed.

Lemma run_active c : within same_active (run_cmd c).
Proof. by intros w. Qed.

Ltac active :=
  repeat first [match goal with H : context [within same_active _] |- _ => apply H end | apply on_conn_active | apply run_active | apply within_pure, _ | apply within_ret, _
               | apply within_bind; [exact _| |intros ?] | apply within_try; [exact _| |intros ?]
               | apply within_finally; [exact _| |]].

(** Every way of capturing a workload. *)
Lemma capture_keeps_service vm consistency w :
  (forall h, answers h (cmd "stop") = Some 0) -> startable vm ->
  bh_active (fst (capture vm consistency w)) = bh_active w.
Proof.
  intros Hstop Hs. assert (Hb : forall no_stop, within same_active (backup_impl no_stop vm)).
  { intros no_stop w'. by apply service_is_restored. }
  assert (Hl : within same_active (look bh_active)) by by intros w'.
  revert w. change (within same_active (capture vm consistency)). unfold capture.
  destruct vm; [destruct (String.eqb _ _)|].
  - unfold backup_vm_crash, is_active. active. destruct (negb _); [unfold backup_vm; active|].
    destruct (negb _); active. unfold pause_and_copy, or_backup_error. active.
    match goal with |- within _ (if ?b then _ else _) => destruct b end; active.
  - unfold backup_vm. active.
  - active.
Qed.

(** ** The vCPUs *)

Definition same_conn (w w' : bhost) : Prop := bh_conn w' = bh_conn w.

#[local] Instance same_conn_preorder : PreOrder same_conn.
Proof. split; [by intros w|]. unfold same_conn. intros a b c. congruence. Qed.

Lemma same_service_conn {A} (m : io bhost A) : within same_service m -> within same_conn m.
Proof. intros H w. apply (H w). Qed.

Lemma run_conn c : within same_conn (run_cmd c).
Proof. by intros w. Qed.

Lemma change_conn f : (forall w, bh_conn (f w) = bh_conn w) -> within same_conn (change_to f).
Proof. intros H w. apply H. Qed.

Ltac conn_kept :=
  repeat first [match goal with H : context [within same_conn _] |- _ => apply H end | apply run_conn | apply within_pure, _ | apply within_ret, _ | apply change_conn; done
               | apply within_bind; [exact _| |intros ?] | apply within_try; [exact _| |intros ?]
               | apply within_finally; [exact _| |]].

Lemma ensure_conn u : within same_conn (ensure_runtime_dir u).
Proof.
  intros w. unfold ensure_runtime_dir. destruct (manager_up _); [done|]. revert w. change (within same_conn
    (try_io (_ ← run_cmd ["loginctl"; "enable-linger"; str_Z u];
             _ ← run_cmd ["systemctl"; "start"; "user@" +:+ str_Z u +:+ ".service"]; mret tt) (fun _ => true) (fun _ => mret tt))). conn_kept.
Qed.

Lemma restart_conn u action retries : within same_conn (restart_from u action retries).
Proof.
  induction retries as [|n IH]; cbn [restart_from]; conn_kept; destruct (_ =? 0); conn_kept; first [apply ensure_conn|apply IH].
Qed.

Lemma backup_impl_conn no_stop vm : within same_conn (backup_impl no_stop vm).
Proof.
  pose proof (same_service_conn _ copy_out_same) as Hc. pose proof ensure_conn as He. pose proof restart_conn as Hr.
  assert (Hl : within same_conn (look bh_active)) by by intros w.
  unfold backup_impl, is_active. conn_kept.
  - destruct (_ && _); unfold systemctl; conn_kept. unfold check_rc. destruct (_ =? 0); conn_kept.
  - destruct (_ && _); conn_kept. unfold start_again. destruct vm; [unfold systemctl; conn_kept|].
    destruct uid; conn_kept.
Qed.

(** Reading replies sends nothing. *)
Definition same_wire (c c' : conn) : Prop := cn_open c' = cn_open c /\ cn_sent c' = cn_sent c /\ cn_faults c' = cn_faults c.

#[local] Instance same_wire_preorder : PreOrder same_wire.
Proof. split; [by intros c|]. intros a b c (? & ? & ?) (? & ? & ?). split_and!; congruence. Qed.

Lemma readline_wire : within same_wire (readline json_loads).
Proof.
  apply within_bind; [exact _| |intros ?; apply within_pure, _]. intros c. unfold raw_line.
  destruct (_ || _); [|done]. by destruct (readline_from _ _) as [[buf ins] r].
Qed.

Lemma await_wire n : within same_wire (await_reply json_loads n).
Proof.
  induction n as [|n IH]; cbn [await_reply]; [apply within_pure, _|].
  apply within_bind; [exact _|apply readline_wire|]. intros msg. apply within_bind; [exact _|apply within_pure, _|].
  intros []; [apply within_ret, _|]. apply within_bind; [exact _|apply within_pure, _|].
  intros []; [apply within_ret, _|apply IH].
Qed.

(** The next message is delivered. *)
Definition delivers (c : conn) : Prop := cn_open c = true /\ match head (cn_faults c) with Some (Some _) => False | _ => True end.

Lemma execute_sends n c : delivers c -> cn_sent (fst (execute json_loads n [] 20 c)) = cn_sent c ++ [command n []].
Proof.
  intros [Ho Hf]. unfold execute. cbv [mbind io_bind]. unfold send. rewrite Ho.
  destruct (head (cn_faults c)) as [[e|]|]; [done| |]; apply await_wire.
Qed.

Lemma execute_open n c c' reply : execute json_loads n [] 20 c = (c', Ok reply) -> cn_open c' = true.
Proof.
  unfold execute. cbv [mbind io_bind]. unfold send. destruct (cn_open c) eqn:Ho; [|done].
  destruct (head (cn_faults c)) as [[e|]|]; [done| |]; intros E;
    match type of E with await_reply _ _ ?d = _ => destruct (await_wire 20 d) as (Hk & _) end; rewrite E in Hk; exact Hk.
Qed.

Lemma on_conn_eq {A} (m : io conn A) w c r :
  m (bh_conn w) = (c, r) -> on_conn m w = (mkB (bh_active w) c (bh_ran w) (bh_archive w) (bh_mode w) (bh_writes w), r).
Proof. intros H. unfold on_conn. by rewrite H. Qed.

Lemma resume_sends w : delivers (bh_conn w) -> cn_sent (bh_conn (fst (resume w))) = cn_sent (bh_conn w) ++ [command "cont" []].
Proof.
  intros Hd. unfold resume. cbv [mbind io_bind]. unfold try_io.
  pose proof (execute_sends "cont" (bh_conn w) Hd) as Hs. destruct (execute json_loads "cont" [] 20 (bh_conn w)) as [c r] eqn:E.
  cbn in Hs. rewrite (on_conn_eq _ _ _ _ E). unfold pure. destruct r as [reply|e].
  - destruct (contains_key "error" reply) as [b|e]; [by destruct resync|]. destruct (monitor_fault e); by destruct resync.
  - destruct (monitor_fault e); by destruct resync.
Qed.

(** The session up to the reply to "stop". *)
Record pausing (w : bhost) (c1 c2 : conn) (r : res tv) : Prop := {
  pausing_active : bh_active w = true;
  pausing_looked : is_Some (answers (bh_ran w) ["systemctl"; "is-active"; "--quiet"; service_name]);
  pausing_sock : sock_exists = true;
  pausing_greeted : (_ ← connect; negotiate json_loads) (bh_conn w) = (c1, Ok tt);
  pausing_stop : execute json_loads "stop" [] 20 c1 = (c2, r) }.

Lemma crash_from_pause w c1 c2 r :
  pausing w c1 c2 r ->
  exists w2, bh_conn w2 = c2 /\ bh_archive w2 = bh_archive w /\ bh_active w2 = true /\
    backup_vm_crash w = (_ ← finally (fun w2 =>
      match r with
      | Raise e => (w2, Raise (if monitor_fault e then BackupError else e))
      | Ok reply =>
          match contains_key "error" reply with
          | Raise e => (w2, Raise e)
          | Ok true => (w2, Raise BackupError)
          | Ok false => finally (backup_impl true true) resume w2
          end
      end) (on_conn close); step AtStat) w2.
Proof.
  intros [Ha [rc Hl] Hk Hg Hst]. unfold backup_vm_crash, is_active. cbv [mbind io_bind]. rewrite (run_eq _ _ _ Hl).
  unfold look. cbn [bh_active]. rewrite Ha, Hk. cbn [negb].
  exists (mkB true c2 (bh_ran w ++ [["systemctl"; "is-active"; "--quiet"; service_name]]) (bh_archive w) (bh_mode w) (bh_writes w)).
  split_and!; [done..|]. unfold pause_and_copy, or_backup_error. cbv [mbind io_bind] in *. unfold finally, try_io.
  unfold on_conn at 1. cbn [bh_conn]. destruct (connect (bh_conn w)) as [c0 [[]|e]]; [|done]. rewrite (on_conn_eq _ _ c1 (Ok tt)) by exact Hg.
  rewrite (on_conn_eq _ _ c2 r) by exact Hst. cbn [bh_active bh_ran bh_archive bh_mode bh_writes].
  destruct r as [reply|e]; [|by destruct (monitor_fault e)]. unfold pure.
  by destruct (contains_key "error" reply) as [[]|e].
Qed.

(** Once "stop" is granted, "cont" is the last message of the session, whatever fails
    in between. *)
Lemma guest_resumed w c1 c2 reply :
  pausing w c1 c2 (Ok reply) -> contains_key "error" reply = Ok false -> delivers c2 ->
  cn_sent (bh_conn (fst (backup_vm_crash w))) = cn_sent c2 ++ [command "cont" []].
Proof.
  intros Hp Hr Hd. destruct (crash_from_pause _ _ _ _ Hp) as (w2 & Hc & _ & _ & ->). rewrite Hr. cbv [mbind io_bind].
  unfold finally at 1 2. pose proof (backup_impl_conn true true w2) as Hb. destruct (backup_impl true true w2) as [w3 r3].
  cbn in Hb. unfold same_conn in Hb. rewrite Hc in Hb.
  pose proof (resume_sends w3) as Hs. rewrite Hb in Hs. specialize (Hs Hd). destruct (resume w3) as [w4 [[]|e]]; cbn in *.
  - destruct r3 as [[]|e]; [|exact Hs]. unfold step, pure. by destruct (fault AtStat).
  - exact Hs.
Qed.

(** A "stop" whose reply does not come. *)
Lemma guest_abandoned w c1 c2 e :
  pausing w c1 c2 (Raise e) -> monitor_fault e = true -> delivers c1 ->
  snd (backup_vm_crash w) = Raise BackupError /\ cn_sent (bh_conn (fst (backup_vm_crash w))) = cn_sent c1 ++ [command "stop" []].
Proof.
  intros Hp He Hd. pose proof (execute_sends "stop" c1 Hd) as Hs. rewrite (pausing_stop _ _ _ _ Hp) in Hs.
  destruct (crash_from_pause _ _ _ _ Hp) as (w2 & Hc & _ & _ & ->). rewrite He. cbv [mbind io_bind]. unfold finally, on_conn, close. cbn.
  split; [done|]. by rewrite Hc.
Qed.

(** A "stop" that is refused. *)
Lemma guest_refused w c1 c2 reply :
  pausing w c1 c2 (Ok reply) -> contains_key "error" reply = Ok true ->
  snd (backup_vm_crash w) = Raise BackupError /\ cn_sent (bh_conn (fst (backup_vm_crash w))) = cn_sent c2 /\ bh_archive (fst (backup_vm_crash w)) = bh_archive w.
Proof.
  intros Hp Hr. destruct (crash_from_pause _ _ _ _ Hp) as (w2 & Hc & Har & _ & ->). rewrite Hr. cbv [mbind io_bind]. unfold finally, on_conn, close. cbn.
  split_and!; [done|by rewrite Hc|done].
Qed.

(** ** The archive *)

(** What a capture that ends well wrote: the archive, private, and written at the mode
    the file had, or privately. *)
Definition wrote (w w' : bhost) (a : archive) : Prop :=
  bh_archive w' = Some a /\ bh_mode w' = Some PRIVATE /\ bh_writes w' = bh_writes w ++ [default PRIVATE (bh_mode w)].

Definition same_output (w w' : bhost) : Prop := bh_archive w' = bh_archive w /\ bh_mode w' = bh_mode w /\ bh_writes w' = bh_writes w.

#[local] Instance same_output_preorder : PreOrder same_output.
Proof. split; [by intros w|]. intros a b c (? & ? & ?) (? & ? & ?). split_and!; congruence. Qed.

Lemma run_output c : within same_output (run_cmd c).
Proof. by intros w. Qed.

Lemma change_active_output f : within same_output (change_to (fun w => set_active (f w) w)).
Proof. by intros w. Qed.

Ltac output_kept :=
  repeat first [match goal with H : context [within same_output _] |- _ => apply H end | apply run_output
               | apply within_pure, _ | apply within_ret, _ | apply change_active_output
               | apply within_bind; [exact _| |intros ?] | apply within_try; [exact _| |intros ?]
               | apply within_finally; [exact _| |]].

Lemma start_again_output vm : within same_output (start_again vm).
Proof.
  assert (He : forall u, within same_output (ensure_runtime_dir u)).
  { intros u w. unfold ensure_runtime_dir. destruct (manager_up _); [done|]. unfold try_io, run_cmd. cbv [mbind io_bind].
    destruct (answers _ _); [|done]. by destruct (answers _ _). }
  assert (Hr : forall u action n, within same_output (restart_from u action n)).
  { intros u action n. induction n as [|n IH]; cbn [restart_from]; unfold systemctl; output_kept; destruct (_ =? 0); output_kept. }
  unfold start_again. destruct vm; [unfold systemctl; output_kept|]. destruct uid; output_kept.
Qed.

Lemma stage_credentials_output names staged : within same_output (stage_credentials names staged).
Proof.
  revert staged. induction names as [|n names IH]; intros staged; cbn [stage_credentials]; [output_kept|].
  destruct (credstore _); [|apply IH]. unfold step. output_kept.
Qed.

Lemma stage_output : within same_output stage.
Proof.
  pose proof stage_credentials_output as Hc. unfold stage, stage_data, step. output_kept.
  - match goal with l : list tv |- _ => destruct l end; output_kept.
  - destruct data; output_kept.
Qed.

Lemma copy_out_wrote w w' : copy_out w = (w', Ok tt) -> exists w1 a, stage w = (w1, Ok a) /\ wrote w w' a.
Proof.
  unfold copy_out. intros H. apply io_bind_Ok in H as (w1 & a & Hs & H). exists w1, a. split; [done|].
  pose proof (stage_output w) as (_ & Hm & Hw). rewrite Hs in Hm, Hw. cbn in Hm, Hw.
  unfold write_archive, open_archive, run_tar, protect, step, pure, change_to in H. cbv [mbind io_bind] in H.
  destruct (fault AtParent), (fault AtOpen), (fault AtTar), (fault AtChmod); try done. injection H as <-.
  split_and!; [done|done|]. cbn. by rewrite Hw, Hm.
Qed.

Lemma backup_impl_wrote no_stop vm w w' :
  backup_impl no_stop vm w = (w', Ok tt) -> exists w1 w2 a, stage w1 = (w2, Ok a) /\ wrote w w' a.
Proof.
  unfold backup_impl. intros H. apply io_bind_Ok in H as (w1 & was & H1 & H). apply io_bind_Ok in H as (w2 & [] & H2 & H).
  assert (E1 : same_output w w1).
  { assert (Hi : within same_output is_active) by (unfold is_active; output_kept; by intros ?).
    specialize (Hi w). by rewrite H1 in Hi. }
  assert (E2 : same_output w1 w2).
  { assert (Hi : within same_output (if was && negb no_stop then rc ← systemctl "stop" false; check_rc rc else mret tt)).
    { destruct (_ && _); unfold systemctl; output_kept. unfold check_rc. destruct (_ =? 0); output_kept. }
    specialize (Hi w1). by rewrite H2 in Hi. }
  unfold finally in H. destruct (copy_out w2) as [w3 [[]|e]] eqn:E; [|by repeat case_match].
  destruct (copy_out_wrote _ _ E) as (w4 & a & Hst & Ha & Hm & Hw). exists w2, w4, a. split; [done|].
  assert (E3 : same_output w3 w').
  { assert (Hi : within same_output (if was && negb no_stop then start_again vm else mret tt)).
    { destruct (_ && _); [apply start_again_output|output_kept]. }
    specialize (Hi w3). by repeat case_match; simplify_eq; cbn in Hi. }
  destruct E1 as (_ & M1 & W1), E2 as (_ & M2 & W2), E3 as (A3 & M3 & W3).
  split_and!; [congruence|congruence|]. rewrite W3, Hw, W2, W1, M2, M1. done.
Qed.

Lemma stage_result w w' a :
  stage w = (w', Ok a) ->
  ar_toml a = toml /\
  forall n, data = Some n -> exists root_dev mounts,
    dev (workload_data_dir name) = Some root_dev /\ mount_points mountinfo = Ok mounts /\
    ar_data a = copytree (ignore_mount_points dev resolve root_dev mounts) (workload_data_dir name) n.
Proof.
  unfold stage. intros H. do 4 (apply io_bind_Ok in H as (? & ? & _ & H)). apply io_bind_Ok in H as (w1 & d' & Hd & H).
  injection H as _ <-. split; [done|]. intros n Hn. cbn [ar_data].
  unfold stage_data in Hd. rewrite Hn in Hd. apply io_bind_Ok in Hd as (? & rd & Hrd & Hd).
  apply io_bind_Ok in Hd as (? & mounts & Hm & Hd). apply io_bind_Ok in Hd as (? & [] & _ & Hd). unfold pure in Hrd, Hm.
  destruct (dev (workload_data_dir name)) as [d|]; [|done]. injection Hrd as _ <-. injection Hm as _ Hm. injection Hd as _ <-. eauto.
Qed.

(** A workload that is not paused over QMP, or is. *)
Lemma capture_wrote vm consistency w w' :
  capture vm consistency w = (w', Ok tt) -> exists w1 w2 a, stage w1 = (w2, Ok a) /\ wrote w w' a.
Proof.
  assert (Hstat : forall w w', step AtStat w = (w', Ok tt) -> w' = w).
  { intros v v'. unfold step, pure. by destruct (fault AtStat); intros [= ?]. }
  assert (Hoc : forall A (m : io conn A), within same_output (on_conn m)).
  { intros A m v. unfold on_conn. by destruct (m (bh_conn v)). }
  assert (Hcold : forall no_stop v v', (_ ← backup_impl no_stop vm; step AtStat) v = (v', Ok tt) ->
            exists w1 w2 a, stage w1 = (w2, Ok a) /\ wrote v v' a).
  { intros no_stop v v' H. apply io_bind_Ok in H as (v1 & [] & H1 & ->%Hstat). by apply (backup_impl_wrote no_stop vm). }
  unfold capture. destruct vm; [destruct (String.eqb _ _)|]; [|apply Hcold..].
  unfold backup_vm_crash. intros H. apply io_bind_Ok in H as (w1 & was & H1 & H).
  assert (Hi : within same_output is_active) by (unfold is_active; output_kept; by intros ?). specialize (Hi w). rewrite H1 in Hi. cbn in Hi.
  assert (Hlift : forall v v' a, same_output v v' -> wrote v' w' a -> wrote v w' a).
  { intros v v' a (_ & M & W) (? & ? & Hw). split_and!; [done|done|]. by rewrite Hw, W, M. }
  destruct (negb was).
  { destruct (Hcold false _ _ H) as (x & y & a & ? & ?). exists x, y, a. split; [done|by eapply Hlift]. }
  destruct (negb sock_exists); [done|]. apply io_bind_Ok in H as (w2 & [] & H2 & ->%Hstat).
  unfold finally in H2 at 1. destruct (pause_and_copy w1) as [w3 [[]|e]] eqn:E; [|by repeat case_match].
  assert (E3 : same_output w3 w2) by (specialize (Hoc _ close w3); by destruct (on_conn close w3) as [? [?|?]]; simplify_eq).
  unfold pause_and_copy, or_backup_error in E. apply io_bind_Ok in E as (w4 & [] & E4 & E).
  apply io_bind_Ok in E as (w5 & reply & E5 & E). apply io_bind_Ok in E as (w6 & refused & E6 & E).
  assert (S4 : same_output w1 w4).
  { match type of E4 with ?m _ = _ => assert (Hm : within same_output m) by output_kept end. specialize (Hm w1). by rewrite E4 in Hm. }
  assert (S5 : same_output w4 w5).
  { match type of E5 with ?m _ = _ => assert (Hm : within same_output m) by output_kept end. specialize (Hm w4). by rewrite E5 in Hm. }
  assert (S6 : same_output w5 w6) by (unfold pure in E6; by injection E6 as <- _).
  destruct refused; [done|]. unfold finally in E. destruct (backup_impl true true w6) as [w7 [[]|e]] eqn:E7; [|by repeat case_match].
  assert (S7 : same_output w7 w3).
  { assert (Hm : within same_output resume) by (unfold resume; output_kept). specialize (Hm w7). by destruct (resume w7) as [? [?|?]]; simplify_eq. }
  destruct (backup_impl_wrote _ _ _ _ E7) as (x & y & a & Hst & Ha & Hmo & Hw). exists x, y, a. split; [done|].
  eapply Hlift; [etrans; [exact Hi|]; etrans; [exact S4|]; etrans; [exact S5|exact S6]|].
  assert (S : same_output w7 w2) by (by etrans). destruct S as (SA & SM & SW). split_and!; congruence.
Qed.

(** ** What a capture raises *)

Definition raises_only {A} (P : exn -> Prop) (m : io bhost A) : Prop :=
  forall w, match snd (m w) with Ok _ => True | Raise e => P e end.

Section raising.
Variable P : exn -> Prop.

Lemma raises_pure {A} (m : res A) : match m with Ok _ => True | Raise e => P e end -> raises_only P (pure m).
Proof. by intros H w. Qed.

Lemma raises_ret {A} (a : A) : raises_only P (mret a).
Proof. by intros w. Qed.

Lemma raises_bind {A B} (m : io bhost A) (f : A -> io bhost B) :
  raises_only P m -> (forall a, raises_only P (f a)) -> raises_only P (x ← m; f x).
Proof.
  intros Hm Hf w. specialize (Hm w). cbv [mbind io_bind]. destruct (m w) as [w1 [a|e]]; [apply Hf|done].
Qed.

Lemma raises_known {A B} (a : A) (f : A -> io bhost B) : raises_only P (f a) -> raises_only P (x ← pure (Ok a); f x).
Proof. intros H w. exact (H w). Qed.

Lemma raises_try {A} (m : io bhost A) p h : raises_only P m -> (forall e, raises_only P (h e)) -> raises_only P (try_io m p h).
Proof.
  intros Hm Hh w. specialize (Hm w). unfold try_io. destruct (m w) as [w1 [a|e]]; [done|]. destruct (p e); [apply Hh|done].
Qed.

Lemma raises_finally {A} (m : io bhost A) fin : raises_only P m -> raises_only P fin -> raises_only P (finally m fin).
Proof.
  intros Hm Hf w. unfold finally. specialize (Hm w). destruct (m w) as [w1 r]. specialize (Hf w1).
  by destruct (fin w1) as [w2 [?|?]].
Qed.

Hypothesis Pnf : P FileNotFoundError.
Hypothesis Pcp : P CalledProcessError.
Hypothesis Pos : P OSError.
(** The steps that fail do so with such exceptions; the workload's credentials can be
    listed, the mount table read, and the user is there. *)
Hypothesis Hfault : forall s e, fault s = Some e -> P e.
Hypothesis Hcreds : exists l names, auto_detect_credentials config = Ok l /\ sorted_credentials l = Ok names.
Hypothesis Hmounts : is_ok (mount_points mountinfo) = true.
Hypothesis Huser : is_Some uid.

Lemma raises_step s : raises_only P (step s).
Proof. apply raises_pure. destruct (fault s) eqn:E; [by eapply Hfault|done]. Qed.

Lemma raises_run c : raises_only P (run_cmd c).
Proof. intros w. unfold run_cmd. cbn. by destruct (answers _ _). Qed.

Ltac raising :=
  repeat first [match goal with H : context [raises_only P _] |- _ => apply H end | apply raises_step | apply raises_run
               | apply raises_ret | by intros ? | apply raises_bind; [|intros ?] | apply raises_try; [|intros ?] | apply raises_finally].

Lemma raises_restart u action n : raises_only P (restart_workload_service u action n).
Proof.
  assert (He : forall u, raises_only P (ensure_runtime_dir u)).
  { intros v w. destruct (ensure_grows v w) as (h & _ & ->). done. }
  unfold restart_workload_service. raising. induction n as [|n IH]; cbn [restart_from]; unfold systemctl; raising;
    destruct (_ =? 0); raising.
Qed.

Lemma raises_stage : raises_only P stage.
Proof.
  destruct Hcreds as (l & names & El & En).
  assert (Hsc : forall ns st, raises_only P (stage_credentials ns st)).
  { induction ns as [|n ns IH]; intros st; cbn [stage_credentials]; [raising|]. destruct (credstore _); raising. }
  unfold stage. rewrite El. do 2 (apply raises_bind; [apply raises_step|intros _]). apply raises_known. raising.
  - destruct l; [raising|]. rewrite En. apply raises_bind; [raising|intros _]. apply raises_known. raising.
  - unfold stage_data. destruct data; [|raising]. destruct (mount_points mountinfo) as [ms|]; [|done].
    apply raises_bind; [apply raises_pure; by destruct (dev _)|intros d]. apply raises_known. raising.
Qed.

(** A capture with the service stopped, or with a container left running. *)
Lemma raises_cold vm consistency : vm = false \/ consistency <> "crash" -> raises_only P (capture vm consistency).
Proof.
  intros Hc. assert (Hb : forall no_stop vm, raises_only P (backup_impl no_stop vm)).
  { intros no_stop v. pose proof raises_stage as Hst. pose proof raises_restart as Hr. unfold backup_impl, is_active. raising.
    - destruct (_ && _); unfold systemctl, check_rc; raising; destruct (_ =? 0); raising; by apply raises_pure.
    - destruct (_ && _); raising. unfold start_again. destruct v; [unfold systemctl; raising|]. destruct Huser as [u ->]. raising. }
  unfold capture. destruct vm; [|raising]. destruct (String.eqb_spec consistency "crash"); [by destruct Hc|]. unfold backup_vm. raising.
Qed.
End raising.

(** ** Theorems *)

(** C26.  Whatever fails in a capture, cold or not, the service is afterwards in the state it
    was found in, as long as it can be stopped and can be started, if need be once its
    failures are cleared. *)
Theorem capture_leaves_service vm consistency w :
  (forall h, answers h (cmd "stop") = Some 0) -> startable vm ->
  bh_active (fst (capture vm consistency w)) = bh_active w.
Proof. apply capture_keeps_service. Qed.

(** C27.  What is said to a running machine whose monitor was reached and asked to stop its
    vCPUs, by the answer to that "stop".  If it is granted and the connection still takes
    a message, "cont" is said after it and is the last thing said, whatever fails in the
    copy.  If it is refused with an error, the backup fails, nothing more is said, and
    no archive is written.  If a "stop" that was delivered gets no answer that can be
    read (late, cut off, or no JSON), the backup fails and "stop" is the last thing
    said: such a machine, which may be paused, is not told to go on. *)
Theorem paused_guest_is_resumed w c1 c2 r :
  pausing w c1 c2 r ->
  match r with
  | Ok reply =>
      (contains_key "error" reply = Ok false -> delivers c2 ->
       cn_sent (bh_conn (fst (backup_vm_crash w))) = cn_sent c2 ++ [command "cont" []]) /\
      (contains_key "error" reply = Ok true ->
       snd (backup_vm_crash w) = Raise BackupError /\ cn_sent (bh_conn (fst (backup_vm_crash w))) = cn_sent c2 /\
       bh_archive (fst (backup_vm_crash w)) = bh_archive w)
  | Raise e => monitor_fault e = true -> delivers c1 ->
      snd (backup_vm_crash w) = Raise BackupError /\
      cn_sent (bh_conn (fst (backup_vm_crash w))) = cn_sent c1 ++ [command "stop" []]
  end.
Proof.
  destruct r as [reply|e]; intros Hp; [|by eapply guest_abandoned].
  split; [by eapply guest_resumed|by eapply guest_refused].
Qed.

(** A machine that got the "stop" and whose reply is late or cut off is given up on
    without a "cont". *)
Theorem late_stop_leaves_guest_paused w c1 c2 e :
  pausing w c1 c2 (Raise e) -> monitor_fault e = true -> delivers c1 ->
  snd (backup_vm_crash w) = Raise BackupError /\ cn_sent (bh_conn (fst (backup_vm_crash w))) = cn_sent c1 ++ [command "stop" []].
Proof. apply guest_abandoned. Qed.

(** The archive of a capture that ends well holds the workload's file and, of its data,
    exactly the files and links with no mount point and no other device on the way to
    them. *)
Theorem archive_is_the_data vm consistency w w' n :
  capture vm consistency w = (w', Ok tt) -> data = Some n -> in_place dev resolve (workload_data_dir name) n ->
  exists a root_dev mounts,
    bh_archive w' = Some a /\ ar_toml a = toml /\
    dev (workload_data_dir name) = Some root_dev /\ mount_points mountinfo = Ok mounts /\
    forall rel l, leaf (ar_data a) rel = Some l <->
      leaf n rel = Some l /\
      forall pre, pre <> [] -> pre `prefix_of` rel -> ~ boundary dev resolve root_dev mounts (workload_data_dir name) pre.
Proof.
  intros (w1 & w2 & a & Hst & Ha & _)%capture_wrote Hn Hp. destruct (stage_result _ _ _ Hst) as [Ht Hd].
  destruct (Hd n Hn) as (rd & mounts & Hrd & Hm & E). exists a, rd, mounts. split_and!; [done..|]. intros rel l.
  rewrite E, copytree_leaf. destruct (find_node n rel) as [c|] eqn:Ec; [|unfold leaf; rewrite Ec; destruct (crosses _ _ _); (split; [done|by intros []])].
  pose proof (crosses_boundary dev resolve rd mounts _ n rel c Hp Ec) as Hb. destruct (crosses _ _ _).
  - split; [done|]. intros [_ H]. destruct (proj1 Hb eq_refl) as (pre & ? & ? & ?). by destruct (H pre).
  - split; [|by intros []]. intros H. split; [done|]. intros pre Hne Hpre Hbd. by assert (false = true) by (apply Hb; eauto).
Qed.

(** The archive of a capture that ends well is private at the end; tar wrote it at the
    mode the file had before, or privately when there was none. *)
Theorem archive_mode vm consistency w w' :
  capture vm consistency w = (w', Ok tt) ->
  bh_mode w' = Some PRIVATE /\ bh_writes w' = bh_writes w ++ [default PRIVATE (bh_mode w)].
Proof. by intros (w1 & w2 & a & _ & _ & Hm & Hw)%capture_wrote. Qed.
End capture.

(** ** The verb *)

(** [_backup_one]: faults of the copy become [BackupError]. *)
Definition copy_fault (e : exn) : bool := bool_decide (e = CalledProcessError) || is_oserror e.

Definition backup_one {W} (capture : io W unit) : io W unit := try_io capture copy_fault (fun _ => pure (Raise BackupError)).

Definition BACKUP_DIR : pypath := path_div (path_of WORKLOADS_BASE) "backups".

(** An option of the command line that is given and not empty. *)
Definition given (o : option string) : option string := match o with Some s => if String.eqb s "" then None else Some s | None => None end.

(** Where the archive of a workload goes. *)
Definition output_of (is_dir : pypath -> bool) (all : bool) (output : option string) (timestamp name : string) : pypath :=
  let file := name +:+ "-" +:+ timestamp +:+ ".tar.zst" in
  match given output with
  | None => path_div BACKUP_DIR file
  | Some o => if all || is_dir (path_of o) then path_div (path_of o) file else path_of o
  end.

Section verb.
Context {W C : Type}.
Variable name_of : C -> string.
Variable capture_of : C -> pypath -> io W unit.
(** The workloads there are, and one by its name. *)
Variable all_configs : list C.
Variable load : string -> res C.
Variable path_exists is_dir : pypath -> bool.
Variable timestamp : string.

(** The loop: the workloads backed up, with their archives, and those that failed. *)
Fixpoint backup_all (all : bool) (output : option string) (cs : list C) (backups : list (C * pypath)) (failed : list C)
    : io W (list (C * pypath) * list C) :=
  match cs with
  | [] => mret (backups, failed)
  | c :: cs =>
      let out := output_of is_dir all output timestamp (name_of c) in
      ok ← try_io (_ ← backup_one (capture_of c out); mret true) (fun e => bool_decide (e = BackupError)) (fun _ => mret false);
      if ok : bool then backup_all all output cs (backups ++ [(c, out)]) failed else backup_all all output cs backups (failed ++ [c])
  end.

(** The workloads of a run; [None] when there is none to report about. *)
Definition backup_configs (all : bool) (workload : option string) : res (option (list C)) :=
  if all then Ok (match all_configs with [] => None | cs => Some cs end)
  else match given workload with
       | None => Raise SystemExit
       | Some n => c ← load n; Ok (Some [c])
       end.

(** [cmd_backup]: what it reports and its exit status. *)
Definition cmd_backup (is_root all : bool) (workload output : option string) : io W (list (C * pypath) * list C * Z) :=
  if negb is_root then pure (Raise NotRoot)
  else
    configs ← pure (backup_configs all workload);
    match configs with
    | None => mret ([], [], 0)
    | Some cs =>
        if all && match given output with Some o => path_exists (path_of o) && negb (is_dir (path_of o)) | None => false end
        then pure (Raise SystemExit)
        else
          '(backups, failed) ← backup_all all output cs [] [];
          mret (backups, failed, match failed with [] => 0 | _ => 1 end)
    end.
End verb.

(** ** A run over several workloads *)

Section isolation.
Context {W C : Type}.
Variable name_of : C -> string.
Variable capture_of : C -> pypath -> io W unit.
Variable all_configs : list C.
Variable load : string -> res C.
Variable path_exists is_dir : pypath -> bool.
Variable timestamp : string.
Variable output : option string.

Notation out c := (output_of is_dir true output timestamp (name_of c)).
Notation run_all := (cmd_backup name_of capture_of all_configs load path_exists is_dir timestamp true true None output).

(** Each workload with whether its capture ended well, every one in the world those
    before it left. *)
Fixpoint outcomes (cs : list C) (w : W) : list (C * bool) * W :=
  match cs with
  | [] => ([], w)
  | c :: cs => let '(w1, r) := capture_of c (out c) w in let '(l, w2) := outcomes cs w1 in ((c, is_ok r) :: l, w2)
  end.

Definition ended_well (l : list (C * bool)) : list C := map fst (List.filter snd l).

Definition ended_badly (l : list (C * bool)) : list C := map fst (List.filter (negb ∘ snd) l).

(** A capture raises nothing but the faults of a copy. *)
Definition isolated (c : C) : Prop :=
  forall w, match snd (capture_of c (out c) w) with Ok _ => True | Raise e => copy_fault e = true \/ e = BackupError end.

Lemma backup_all_outcomes cs w backups failed :
  (forall c, c ∈ cs -> isolated c) ->
  backup_all name_of capture_of is_dir timestamp true output cs backups failed w =
  (snd (outcomes cs w),
   Ok (backups ++ map (fun c => (c, out c)) (ended_well (fst (outcomes cs w))), failed ++ ended_badly (fst (outcomes cs w)))).
Proof.
  revert w backups failed. unfold ended_well, ended_badly. induction cs as [|c cs IH]; intros w backups failed H; [cbn; by rewrite !app_nil_r|].
  cbn [backup_all outcomes]. cbv [mbind io_bind]. unfold try_io, backup_one, try_io.
  pose proof (H c ltac:(by left) w) as Hc. destruct (capture_of c _ w) as [w1 [[]|e]]; cbn [snd] in Hc.
  - cbn. rewrite IH by (intros; apply H; by right). destruct (outcomes cs w1) as [l w2]. cbn. by rewrite <- app_assoc.
  - assert (He : e = BackupError \/ copy_fault e = true) by tauto. destruct (copy_fault e) eqn:Ef.
    + unfold pure. rewrite bool_decide_eq_true_2 by done. cbn. rewrite IH by (intros; apply H; by right).
      destruct (outcomes cs w1) as [l w2]. cbn. by rewrite <- app_assoc.
    + destruct He as [->|?]; [|done]. rewrite bool_decide_eq_true_2 by done. cbn. rewrite IH by (intros; apply H; by right).
      destruct (outcomes cs w1) as [l w2]. cbn. by rewrite <- app_assoc.
Qed.

Lemma outcomes_all cs w : map fst (fst (outcomes cs w)) = cs.
Proof.
  revert w. induction cs as [|c cs IH]; intros w; [done|]. cbn [outcomes].
  destruct (capture_of c _ w) as [w1 r]. specialize (IH w1). destruct (outcomes cs w1). cbn in *. by rewrite IH.
Qed.

(** Archives of differently named workloads have different paths. *)
Lemma output_inj n m :
  has_char "/" n = false -> has_char "/" m = false -> has_char "/" timestamp = false ->
  output_of is_dir true output timestamp n = output_of is_dir true output timestamp m -> n = m.
Proof.
  intros Hn Hm Ht. set (suf := "-" +:+ timestamp +:+ ".tar.zst").
  assert (Hs : forall k, has_char "/" k = false -> has_char "/" (k +:+ suf) = false /\ is_part (k +:+ suf) = true).
  { intros k Hk. split; [unfold suf; by rewrite !has_char_app, Hk, Ht|]. unfold is_part. apply negb_true_iff, orb_false_intro.
    - destruct (String.eqb_spec (k +:+ suf) "") as [E|]; [|done]. by destruct k.
    - destruct (String.eqb_spec (k +:+ suf) ".") as [E|]; [|done]. destruct k as [|c [|]]; done. }
  assert (Hd : forall p, path_div p (n +:+ suf) = path_div p (m +:+ suf) -> n = m).
  { intros p. rewrite !path_div_segment by (by apply Hs). intros [= E%app_inv_head]. injection E as E. by apply app_inj_r_str in E. }
  unfold output_of. destruct (given output); [cbn [orb]|]; apply Hd.
Qed.

(** A run over all workloads captures every one, whatever happens to the others: the
    reports are those whose capture ended well, each with an archive of its own, and
    those whose did not, and the status is 0 exactly when there is none of these. *)
Theorem backup_isolates_workloads w :
  all_configs <> [] -> (forall c, c ∈ all_configs -> isolated c) ->
  match given output with Some o => path_exists (path_of o) = true -> is_dir (path_of o) = true | None => True end ->
  exists l status,
    run_all w = (snd (outcomes all_configs w), Ok (map (fun c => (c, out c)) (ended_well l), ended_badly l, status)) /\
    l = fst (outcomes all_configs w) /\ map fst l = all_configs /\ (status = 0 <-> ended_badly l = []) /\
    forall c d, c ∈ all_configs -> d ∈ all_configs -> has_char "/" timestamp = false ->
      has_char "/" (name_of c) = false -> has_char "/" (name_of d) = false -> out c = out d -> name_of c = name_of d.
Proof.
  intros Hne H Ho. exists (fst (outcomes all_configs w)).
  eexists (match ended_badly (fst (outcomes all_configs w)) with [] => 0 | _ => 1 end). split_and!.
  - unfold cmd_backup, backup_configs. cbn [negb]. cbv [mbind io_bind pure].
    assert (Hd : forall A (a b : A), match all_configs with [] => a | _ => b end = b) by (intros; by destruct all_configs). rewrite Hd.
    assert (Ho' : match given output with Some o => path_exists (path_of o) && negb (is_dir (path_of o)) | None => false end = false).
    { destruct (given output) as [o|]; [|done]. destruct (path_exists _); [by rewrite Ho|done]. }
    rewrite Ho'. cbn [andb]. rewrite backup_all_outcomes by done. done.
  - done.
  - apply outcomes_all.
  - by destruct (ended_badly _).
  - intros c d _ _ Ht Hc Hd. by apply output_inj.
Qed.

(** A workload whose capture raises anything else ends the whole run: those after it
    are not captured. *)
Theorem malformed_workload_aborts_run c cs w w1 e backups failed :
  capture_of c (out c) w = (w1, Raise e) -> copy_fault e = false -> e <> BackupError ->
  backup_all name_of capture_of is_dir timestamp true output (c :: cs) backups failed w = (w1, Raise e).
Proof.
  intros H Hf Hb. cbn [backup_all]. cbv [mbind io_bind]. unfold try_io, backup_one, try_io.
  rewrite H, Hf, bool_decide_eq_false_2 by done. done.
Qed.
End isolation.

(** ** Samples *)

Module Nightly.
Definition files : node := Folder [("a", File "x"); ("l", Symlink "a"); ("mnt", Folder [("b", File "y")])].

Definition mountinfo : string :=
  "22 1 8:1 / / rw - xfs /dev/sda1 rw" +:+ chr LF +:+
  "90 22 8:1 /srv /var/lib/workloads/web/data/mnt rw - xfs /dev/sda1 rw" +:+ chr LF.

Definition same_disk (p : pypath) : option Z := Some 1.

Definition quiet_conn : conn := mkConn false "" [] [] [] [].

Definition world (active : bool) (c : conn) (mode : option Z) : bhost := mkB active c [] None mode [].

(** The first attempt to start fails until the failures are cleared. *)
Definition limited (h : list (list string)) (c : list string) : option Z :=
  if bool_decide (c = ["systemctl"; "start"; "workload-web.service"]) && negb (bool_decide (["systemctl"; "reset-failed"; "workload-web.service"] ∈ h))
  then Some 1 else Some 0.

Definition json (s : string) : res tv :=
  if String.eqb s "r" then Ok (TTab [("return", TTab [])]) else if String.eqb s "q" then Ok (TTab [("QMP", TTab [])]) else Raise ValueError.

Definition live (ins : list recv_event) : bhost := world true (mkConn false "" [Connected] ins [] []) None.

Definition capturing (config : table) (fault : bstep -> option exn) : bool -> string -> io bhost unit :=
  capture "web" config "[workload]" (fun _ => None) (Some files) same_disk id (Some mountinfo) fault limited (fun _ => false) (Some 60001) (fun _ => true)
    json true (Ok tt).

Definition tar_fails (s : bstep) : option exn := match s with AtTar => Some CalledProcessError | _ => None end.

Definition crashing (fault : bstep -> option exn) : io bhost unit :=
  backup_vm_crash "web" [] "[workload]" (fun _ => None) (Some files) same_disk id (Some mountinfo) fault limited (fun _ => false) None (fun _ => true)
    json true (Ok tt).

Definition greeted (ins : list recv_event) : conn := fst ((_ ← connect; negotiate json) (bh_conn (live ins))).

Definition prompt : list recv_event := [Chunk ("q" +:+ chr LF +:+ "r" +:+ chr LF); Chunk ("r" +:+ chr LF); Chunk ("r" +:+ chr LF)].

Definition late : list recv_event := [Chunk ("q" +:+ chr LF +:+ "r" +:+ chr LF); Silence].

Lemma startable_web : startable "web" limited (Some 60001) false.
Proof.
  split; [intros h; unfold limited; by case_match|intros h; unfold limited; by case_match| |right; by eexists].
  intros h [?|H]; [done|]. unfold limited. by rewrite (bool_decide_eq_true_2 (_ ∈ h)), andb_false_r.
Qed.

Lemma files_in_place : in_place same_disk id (workload_data_dir "web") files.
Proof. split; [done|]. intros rel c _. by eexists. Qed.
End Nightly.

Lemma capture_leaves_service_witness :
  bh_active (fst (Nightly.capturing [] Nightly.tar_fails false "cold" (Nightly.world true Nightly.quiet_conn None))) = true.
Proof.
  apply (capture_leaves_service "web" [] "[workload]" (fun _ => None) (Some Nightly.files) Nightly.same_disk id (Some Nightly.mountinfo)
    Nightly.tar_fails Nightly.limited (fun _ => false) (Some 60001) (fun _ => true) Nightly.json true (Ok tt) false "cold").
  - done.
  - exact Nightly.startable_web.
Defined.

(** tar fails while the machine is paused; and a reply that comes late. *)
Lemma paused_guest_is_resumed_witness :
  cn_sent (bh_conn (fst (Nightly.crashing Nightly.tar_fails (Nightly.live Nightly.prompt)))) =
    [TTab [("execute", TStr "qmp_capabilities")]; command "stop" []; command "cont" []] /\
  cn_sent (bh_conn (fst (Nightly.crashing Nightly.tar_fails (Nightly.live Nightly.late)))) =
    [TTab [("execute", TStr "qmp_capabilities")]; command "stop" []].
Proof.
  assert (H := fun conn => paused_guest_is_resumed "web" [] "[workload]" (fun _ => None) (Some Nightly.files) Nightly.same_disk id (Some Nightly.mountinfo)
    Nightly.tar_fails Nightly.limited (fun _ => false) None (fun _ => true) Nightly.json true (Ok tt) (Nightly.live conn)
    (Nightly.greeted conn) (fst (execute Nightly.json "stop" [] 20 (Nightly.greeted conn)))). split.
  - apply (H Nightly.prompt (Ok (TTab [("return", TTab [])]))); [by split|done|done].
  - apply (H Nightly.late (Raise TimeoutError)); [by split|done|done].
Defined.

Lemma late_stop_leaves_guest_paused_witness :
  snd (Nightly.crashing (fun _ => None) (Nightly.live Nightly.late)) = Raise BackupError /\
  cn_sent (bh_conn (fst (Nightly.crashing (fun _ => None) (Nightly.live Nightly.late)))) =
  [TTab [("execute", TStr "qmp_capabilities")]; command "stop" []].
Proof.
  apply (late_stop_leaves_guest_paused "web" [] "[workload]" (fun _ => None) (Some Nightly.files) Nightly.same_disk id (Some Nightly.mountinfo)
    (fun _ => None) Nightly.limited (fun _ => false) None (fun _ => true) Nightly.json true (Ok tt) (Nightly.live Nightly.late)
    (Nightly.greeted Nightly.late) (fst (execute Nightly.json "stop" [] 20 (Nightly.greeted Nightly.late))) TimeoutError).
  - by split.
  - done.
  - done.
Defined.

Lemma archive_is_the_data_witness :
  exists a root_dev mounts,
    bh_archive (fst (Nightly.capturing [] (fun _ => None) false "cold" (Nightly.world true Nightly.quiet_conn None))) = Some a /\
    ar_toml a = "[workload]" /\ Nightly.same_disk (workload_data_dir "web") = Some root_dev /\ mount_points (Some Nightly.mountinfo) = Ok mounts /\
    forall rel l, leaf (ar_data a) rel = Some l <->
      leaf Nightly.files rel = Some l /\
      forall pre, pre <> [] -> pre `prefix_of` rel -> ~ boundary Nightly.same_disk id root_dev mounts (workload_data_dir "web") pre.
Proof.
  apply (archive_is_the_data "web" [] "[workload]" (fun _ => None) (Some Nightly.files) Nightly.same_disk id (Some Nightly.mountinfo)
    (fun _ => None) Nightly.limited (fun _ => false) (Some 60001) (fun _ => true) Nightly.json true (Ok tt) false "cold"
    (Nightly.world true Nightly.quiet_conn None)).
  - vm_compute. reflexivity.
  - done.
  - exact Nightly.files_in_place.
Defined.

Lemma archive_mode_witness :
  let w := Nightly.world true Nightly.quiet_conn (Some 420) in
  let w' := fst (Nightly.capturing [] (fun _ => None) false "cold" w) in
  bh_mode w' = Some 384 /\ bh_writes w' = [420].
Proof.
  apply (archive_mode "web" [] "[workload]" (fun _ => None) (Some Nightly.files) Nightly.same_disk id (Some Nightly.mountinfo)
    (fun _ => None) Nightly.limited (fun _ => false) (Some 60001) (fun _ => true) Nightly.json true (Ok tt) false "cold"
    (Nightly.world true Nightly.quiet_conn (Some 420))).
  vm_compute. reflexivity.
Defined.

Lemma backup_isolates_workloads_witness :
  let cs := [("db", Nightly.tar_fails); ("web", fun _ => None)] in
  let captures c (_ : pypath) := Nightly.capturing [] (snd c) false "cold" in
  let w := Nightly.world true Nightly.quiet_conn None in
  exists l status,
    cmd_backup fst captures cs (fun _ => Raise OSError) (fun _ => false) (fun _ => false) "20260101-000000" true true None None w =
      (snd (outcomes fst captures (fun _ => false) "20260101-000000" None cs w),
       Ok (map (fun c => (c, output_of (fun _ => false) true None "20260101-000000" (fst c))) (ended_well l), ended_badly l, status)) /\
    l = fst (outcomes fst captures (fun _ => false) "20260101-000000" None cs w) /\ map fst l = cs /\ (status = 0 <-> ended_badly l = []) /\
    forall c d, c ∈ cs -> d ∈ cs -> has_char "/" "20260101-000000" = false ->
      has_char "/" (fst c) = false -> has_char "/" (fst d) = false ->
      output_of (fun _ => false) true None "20260101-000000" (fst c) = output_of (fun _ => false) true None "20260101-000000" (fst d) -> fst c = fst d.
Proof.
  apply (backup_isolates_workloads fst (fun c (_ : pypath) => Nightly.capturing [] (snd c) false "cold") [("db", Nightly.tar_fails); ("web", fun _ => None)]
    (fun _ => Raise OSError) (fun _ => false) (fun _ => false) "20260101-000000" None (Nightly.world true Nightly.quiet_conn None)).
  - done.
  - intros c Hc w. apply (raises_cold "web" [] "[workload]" (fun _ => None) (Some Nightly.files) Nightly.same_disk id (Some Nightly.mountinfo)
      (snd c) Nightly.limited (fun _ => false) (Some 60001) (fun _ => true) Nightly.json true (Ok tt) (fun e => copy_fault e = true \/ e = BackupError));
      [by left|by left|by left| |by exists [], []|by vm_compute|by eexists|by left].
    intros s e. apply list_elem_of_In in Hc as [<-|[<-|[]]]; [|done]. destruct s; try done. intros [= <-]. by left.
  - done.
Defined.

Lemma malformed_workload_aborts_run_witness :
  let captures (b : bool) (_ : pypath) := Nightly.capturing (if b then [] else [("container", TStr "web")]) (fun _ => None) false "cold" in
  let w := Nightly.world false Nightly.quiet_conn None in
  backup_all (fun _ => "web") captures (fun _ => false) "now" true None [false; true] [] [] w =
    (fst (captures false (path_of "/") w), Raise AttributeError).
Proof.
  apply (malformed_workload_aborts_run (fun _ => "web")
    (fun (b : bool) (_ : pypath) => Nightly.capturing (if b then [] else [("container", TStr "web")]) (fun _ => None) false "cold")
    (fun _ => false) "now" None false [true] (Nightly.world false Nightly.quiet_conn None)); [vm_compute; reflexivity|done|done].
Defined.
