(* ===== verification/Restore.v ===== *)
(** * The restore verb of [lib/cmd_backup.py]

    Reading an archive back: the name in it decides where its parts go, so it is
    checked first; then the service is stopped, the file and the credentials are
    written, and the data is laid down, in place of what is there or merged into it,
    once the links of the archive and the mounts of the host have been looked at.

    Parameters: the extracted archive, TOML, the directory of the workloads' files, the
    device an entry is on, the resolution of links, the mount table, which steps fail
    and what a tree is left like when removing or copying it fails half-way. *)
From S2P Require Import Prelude PyStr PyPath Toml WorkloadNames BrokerConfig Seccomp Validation DataTree Backup.
Local Open Scope Z_scope.

(** ** The world *)

(** Files, directories and directory trees by path, and the services running. *)
Record rhost := mkR {
  rh_files : gmap string string; rh_dirs : gset string; rh_trees : gmap string entries; rh_active : gset string;
  rh_through : list merge_event; rh_ran : list (list string) }.

(** What the archive is extracted to; a credential that is not a file has no text. *)
Record staging := mkStaging {
  st_toml : option string; st_credentials : option (list (string * option string)); st_data : option entries }.

(** The steps that may fail. *)
Inductive rstep := AtConfigDir | AtConfigFile | AtCredStore | AtCred (n : string) | AtRemove | AtCopy.

Definition set_files (f : gmap string string) (w : rhost) : rhost := mkR f (rh_dirs w) (rh_trees w) (rh_active w) (rh_through w) (rh_ran w).

Definition set_tree (p : string) (t : option entries) (w : rhost) : rhost :=
  mkR (rh_files w) (rh_dirs w) (partial_alter (fun _ => t) p (rh_trees w)) (rh_active w) (rh_through w) (rh_ran w).

Definition add_dir (p : string) (w : rhost) : rhost := mkR (rh_files w) ({[p]} ∪ rh_dirs w) (rh_trees w) (rh_active w) (rh_through w) (rh_ran w).

Definition set_stopped (s : string) (w : rhost) : rhost := mkR (rh_files w) (rh_dirs w) (rh_trees w) (rh_active w ∖ {[s]}) (rh_through w) (rh_ran w).

Definition add_through (l : list merge_event) (w : rhost) : rhost := mkR (rh_files w) (rh_dirs w) (rh_trees w) (rh_active w) (rh_through w ++ l) (rh_ran w).

Definition add_ran (c : list string) (w : rhost) : rhost := mkR (rh_files w) (rh_dirs w) (rh_trees w) (rh_active w) (rh_through w) (rh_ran w ++ [c]).

Definition rlook {A} (f : rhost -> A) : io rhost A := fun w => (w, Ok (f w)).

Definition rchange (f : rhost -> rhost) : io rhost unit := fun w => (f w, Ok tt).

Section restore.
Variable is_root archive_exists : bool.
Variable extracted : res staging.
Variable toml_loads : string -> res table.
Variable config_dir staging_dir : pypath.
Variable dev : pypath -> option Z.
Variable resolve : pypath -> pypath.
Variable mountinfo : option string.
Variable leads_to_dir : list string -> bool.
Variable fault : rstep -> option exn.
(** The tree left when removing it, or copying over it, fails. *)
Variable wreck : option entries -> option entries.
(** Whether a command can be run, and whether the service could be stopped. *)
Variable runs : list string -> option Z.

(** ** The name in the archive *)

(** [validate_workload_name] of a value read from the file. *)
Definition validate_name_value (v : tv) : res string :=
  match v with
  | TStr s => _ ← validate_workload_name s; Ok s
  | TArr l => if Nat.ltb MAX_NAME_LENGTH (length l) then Raise ValueError else Raise TypeError
  | TTab t => if Nat.ltb MAX_NAME_LENGTH (length t) then Raise ValueError else Raise TypeError
  | _ => Raise TypeError
  end.

(** From the archive to its name; what the verb reports ends it with [SystemExit]. *)
Definition opened : res staging :=
  if negb archive_exists then Raise SystemExit
  else match extracted with
       | Raise e => Raise (if bool_decide (e = TarError) || bool_decide (e = RuntimeError) || is_oserror e then SystemExit else e)
       | r => r
       end.

Definition archive_name (st : staging) : res string :=
  match st_toml st with
  | None => Raise SystemExit
  | Some text =>
      config ← toml_loads text;
      t ← get_or (TTab config) "workload" (TTab []);
      v ← get_or t "name" (TStr "");
      if negb (truthy v) then Raise SystemExit else catch (validate_name_value v) ValueError (Raise SystemExit)
  end.

(** ** Writing *)

Definition rstep_ (s : rstep) : io rhost unit := pure (match fault s with Some e => Raise e | None => Ok tt end).

Definition config_parent (nm : string) : pypath := path_div config_dir nm.

Definition config_path (nm : string) : pypath := path_div (config_parent nm) "workload.toml".

Definition stop_service (nm : string) : io rhost unit := fun w =>
  let cmd := ["systemctl"; "stop"; workload_service_name nm] in
  match runs cmd with
  | None => (add_ran cmd w, Raise FileNotFoundError)
  | Some rc => (if rc =? 0 then set_stopped (workload_service_name nm) (add_ran cmd w) else add_ran cmd w, Ok tt)
  end.

Definition write_file (p : pypath) (text : string) : io rhost unit := rchange (fun w => set_files (<[path_str p := text]> (rh_files w)) w).

Definition restore_config (nm text : string) : io rhost unit :=
  _ ← rstep_ AtConfigDir;
  _ ← rchange (add_dir (path_str (config_parent nm)));
  _ ← rstep_ AtConfigFile;
  write_file (config_path nm) text.

Definition restore_credential (force : bool) (creds : list (string * option string)) (n : string) : io rhost unit :=
  let p := path_div CREDSTORE_DIR n in
  there ← rlook (fun w => bool_decide (is_Some (rh_files w !! path_str p)));
  if there && negb force then mret tt
  else match assoc n creds with
       | Some (Some blob) => _ ← rstep_ (AtCred n); write_file p blob
       | _ => pure (Raise OSError)
       end.

Definition restore_credentials (force : bool) (st : staging) : io rhost unit :=
  match st_credentials st with
  | None => mret tt
  | Some creds => _ ← rstep_ AtCredStore; for_io (restore_credential force creds) (py_sorted (map fst creds))
  end.

(** A refusal is reported and ends the verb. *)
Definition refusing (m : res unit) : io rhost unit := pure (catch m ValueError (Raise SystemExit)).

Definition is_failure (e : merge_event) : bool := match e with NotCopied _ => true | WrittenThrough _ _ => false end.

(** [copytree] of the staged data over what is at the destination. *)
Definition lay_down (p : string) (ss : entries) : io rhost unit := fun w =>
  let dst := rh_trees w !! p in
  match fault AtCopy with
  | Some e => (set_tree p (wreck dst) w, Raise e)
  | None =>
      let '(r, ev) := merge leads_to_dir [] "" (Folder ss) (Folder <$> dst) in
      let t := match r with Some (Folder es) => Some es | _ => dst end in
      (add_through (List.filter (negb ∘ is_failure) ev) (set_tree p t w), if existsb is_failure ev then Raise OSError else Ok tt)
  end.

Definition remove_tree (p : string) : io rhost unit := fun w =>
  match fault AtRemove with
  | Some e => (set_tree p (wreck (rh_trees w !! p)) w, Raise e)
  | None => (set_tree p None w, Ok tt)
  end.

(** Both paths look below the directory; only the one that removes it looks at it. *)
Definition data_guards (force : bool) (dest : pypath) (es : entries) : res unit :=
  _ ← assert_no_mounts_under dev resolve mountinfo dest (Folder es);
  if force then assert_data_dir_is_not_a_mount dev resolve mountinfo dest else Ok tt.

Definition restore_data (force : bool) (nm : string) (st : staging) : io rhost unit :=
  match st_data st with
  | None => mret tt
  | Some ss =>
      let dest := workload_data_dir nm in
      _ ← refusing (assert_no_escaping_symlinks resolve (child staging_dir "data") (Folder ss));
      there ← rlook (fun w => rh_trees w !! path_str dest);
      _ ← (match there with
           | None => mret tt
           | Some es =>
               _ ← refusing (data_guards force dest es);
               if force then remove_tree (path_str dest) else mret tt
           end);
      lay_down (path_str dest) ss
  end.

(** ** [cmd_restore] *)

Definition restore_named (force enable : bool) (nm text : string) (st : staging) : io rhost unit :=
  exists_ ← rlook (fun w => bool_decide (path_str (config_parent nm) ∈ rh_dirs w));
  if exists_ && negb force then pure (Raise SystemExit)
  else
    _ ← stop_service nm;
    _ ← restore_config nm text;
    _ ← restore_credentials force st;
    _ ← restore_data force nm st;
    if enable then
      _ ← rchange (add_ran ["workloadctl"; "enable"; nm]);
      pure (match runs ["workloadctl"; "enable"; nm] with Some _ => Ok tt | None => Raise FileNotFoundError end)
    else mret tt.

Definition cmd_restore (force enable : bool) : io rhost unit :=
  if negb is_root then pure (Raise NotRoot)
  else
    st ← pure opened;
    nm ← pure (archive_name st);
    restore_named force enable nm (default "" (st_toml st)) st.

(** ** What each part touches *)

Definition same_trees (w w' : rhost) : Prop := rh_trees w' = rh_trees w /\ rh_through w' = rh_through w.

#[local] Instance same_trees_preorder : PreOrder same_trees.
Proof. split; [by intros w|]. intros a b c (? & ?) (? & ?). split; congruence. Qed.

(** The files at other paths than those of a list stay. *)
Definition files_off (ps : list string) (w w' : rhost) : Prop := forall p, p ∉ ps -> rh_files w' !! p = rh_files w !! p.

#[local] Instance files_off_preorder ps : PreOrder (files_off ps).
Proof. split; [by intros w p|]. intros a b c H1 H2 p Hp. by rewrite H2, H1. Qed.

(** The trees at other paths than one stay. *)
Definition trees_off (q : string) (w w' : rhost) : Prop := forall p, p <> q -> rh_trees w' !! p = rh_trees w !! p.

#[local] Instance trees_off_preorder q : PreOrder (trees_off q).
Proof. split; [by intros w p|]. intros a b c H1 H2 p Hp. by rewrite H2, H1. Qed.

Lemma same_trees_off q {A} (m : io rhost A) : within same_trees m -> within (trees_off q) m.
Proof. intros H w p _. by destruct (H w) as [-> _]. Qed.

Lemma io_keeps_then {A B} (m : io rhost A) (f : A -> io rhost B) w :
  within same_trees m -> (forall w1 a, same_trees w w1 -> same_trees w1 (fst (f a w1))) -> same_trees w (fst ((x ← m; f x) w)).
Proof.
  intros Hm Hf. specialize (Hm w). cbv [mbind io_bind]. destruct (m w) as [w1 [a|e]]; [|done]. cbn in Hm. etrans; [exact Hm|by apply Hf].
Qed.

Lemma stop_trees nm : within same_trees (stop_service nm).
Proof. intros w. unfold stop_service. destruct (runs _) as [rc|]; [|done]. by destruct (rc =? 0). Qed.

Lemma stop_files ps nm : within (files_off ps) (stop_service nm).
Proof. intros w p Hp. unfold stop_service. destruct (runs _) as [rc|]; [|done]. by destruct (rc =? 0). Qed.

Lemma write_file_off ps p text : path_str p ∈ ps -> within (files_off ps) (write_file p text).
Proof. intros H w q Hq. cbn. apply lookup_insert_ne. by intros <-. Qed.

Ltac parts R :=
  repeat first [apply (within_pure R) | apply (within_ret R) | by intros ? | apply (within_bind R); [|intros ?]].

Lemma config_trees nm text : within same_trees (restore_config nm text).
Proof. unfold restore_config, rstep_, write_file. parts same_trees. Qed.

Lemma config_files ps nm text : path_str (config_path nm) ∈ ps -> within (files_off ps) (restore_config nm text).
Proof. intros H. unfold restore_config, rstep_. parts (files_off ps). by apply write_file_off. Qed.

Lemma credentials_trees force st : within same_trees (restore_credentials force st).
Proof.
  unfold restore_credentials. destruct (st_credentials st) as [creds|]; parts same_trees. apply (within_for same_trees). intros n _.
  unfold restore_credential, rstep_, write_file. parts same_trees. destruct (_ && _); parts same_trees.
  destruct (assoc n creds) as [[]|]; parts same_trees.
Qed.

Definition credential_paths (st : staging) : list string :=
  map (fun n => path_str (path_div CREDSTORE_DIR n)) (map fst (default [] (st_credentials st))).

Lemma credentials_files force st : within (files_off (credential_paths st)) (restore_credentials force st).
Proof.
  unfold restore_credentials, credential_paths. destruct (st_credentials st) as [creds|]; cbn [default]; [|apply within_ret, _].
  match goal with |- within (files_off ?l) _ => set (ps := l) end.
  apply (within_bind (files_off ps)); [apply within_pure, _|intros _]. apply (within_for (files_off ps)). intros n Hn.
  unfold restore_credential, rstep_. parts (files_off ps). destruct (_ && _); parts (files_off ps).
  destruct (assoc n creds) as [[]|] eqn:E; parts (files_off ps). apply write_file_off. apply assoc_In in E.
  apply list_elem_of_fmap. exists n. split; [done|]. apply list_elem_of_fmap. by eexists (_, _).
Qed.

(** ** Mounts *)

(** The data directory of a workload cannot be replaced: something is mounted below it,
    or it is itself mounted and would be removed. *)
Definition mounted (force : bool) (dest : pypath) (es : entries) : Prop :=
  exists mounts root_dev, mount_points mountinfo = Ok mounts /\ dev dest = Some root_dev /\
    ((exists rel c, rel <> [] /\ find_node (Folder es) rel = Some c /\ boundary dev resolve root_dev mounts dest rel) \/
     (force = true /\ (codes_of (resolve dest) ∈ mounts \/ exists b, dev (path_parent dest) = Some b /\ root_dev <> b))).

Lemma mounted_refused force dest es :
  mounted force dest es -> data_guards force dest es = Raise ValueError.
Proof.
  unfold data_guards. intros (mounts & rd & Hm & Hd & H). destruct (assert_no_mounts_under _ _ _ _ _) as [[]|e] eqn:E.
  - rewrite bind_Ok. destruct (no_mounts_sound _ _ _ _ _ E) as (ms & rd' & Hm' & Hd' & Hno). rewrite Hm in Hm'. rewrite Hd in Hd'. simplify_eq.
    destruct H as [(rel & c & Hne & Hf & Hb)|[-> H]]; [by destruct (Hno rel c Hne Hf)|].
    unfold assert_data_dir_is_not_a_mount. rewrite Hm, bind_Ok, Hd.
    destruct H as [Hin|(b & Hb & Hne)]; [by rewrite bool_decide_eq_true_2|].
    rewrite Hb, (proj2 (Z.eqb_neq _ _) Hne), orb_true_r. done.
  - unfold assert_no_mounts_under in E. rewrite Hm, bind_Ok, Hd, bind_Ok in E.
    destruct (existsb _ mounts); [by injection E as <-|]. destruct (existsb _ (walk _ _)); [by injection E as <-|done].
Qed.

Lemma restore_data_mounted force nm st w es :
  rh_trees w !! path_str (workload_data_dir nm) = Some es -> mounted force (workload_data_dir nm) es ->
  fst (restore_data force nm st w) = w /\ (is_Some (st_data st) -> snd (restore_data force nm st w) = Raise SystemExit).
Proof.
  intros Ht Hm. unfold restore_data. destruct (st_data st) as [ss|]; [|by split; [|intros []]].
  unfold refusing. cbv [mbind io_bind pure rlook].
  unfold assert_no_escaping_symlinks. destruct (forallb _ _); [|done]. cbn [catch]. rewrite Ht.
  by rewrite (mounted_refused _ _ _ Hm).
Qed.

(** The same from the mounts of the kernel: [ms] are the mounts of the table mountinfo shows.
    Something is mounted on an entry below the directory, or the entry is on another device;
    or, when the directory would be removed, this is true of the directory itself. *)
Definition mounted_by (ms : list (string * list string * string)) (force : bool) (dest : pypath) (es : entries) : Prop :=
  exists root_dev, dev dest = Some root_dev /\
    ((exists rel c, rel <> [] /\ find_node (Folder es) rel = Some c /\
        ((exists m, m ∈ ms /\ path_of (fst (fst m)) = descend (resolve dest) rel) \/
         exists d, dev (descend dest rel) = Some d /\ d <> root_dev)) \/
     (force = true /\ ((exists m, m ∈ ms /\ path_of (fst (fst m)) = resolve dest) \/
                       exists b, dev (path_parent dest) = Some b /\ root_dev <> b))).

Lemma mounted_by_seen ms force dest es :
  mountinfo = Some (mount_table ms) -> Forall line_ok ms -> mounted_by ms force dest es -> mounted force dest es.
Proof.
  intros Hm Hok (rd & Hd & H). exists (map (fun m => codes_of (path_of (fst (fst m)))) ms), rd. rewrite Hm.
  split_and!; [by apply mount_table_read|done|].
  assert (Hin : forall p, (exists m, m ∈ ms /\ path_of (fst (fst m)) = p) -> codes_of p ∈ map (fun m => codes_of (path_of (fst (fst m)))) ms).
  { intros p (m & Hin & <-). apply list_elem_of_fmap. by exists m. }
  destruct H as [(rel & c & Hne & Hf & Hb)|[Hf Hb]].
  - left. exists rel, c. split_and!; [done..|]. destruct Hb as [Hb|Hb]; [right; by apply Hin|by left].
  - right. split; [done|]. destruct Hb as [Hb|Hb]; [left; by apply Hin|by right].
Qed.

(** ** Names *)

Lemma name_pattern_segment s : name_pattern s = true -> has_char "/" s = false /\ is_part s = true.
Proof.
  assert (Hcore : forall t u, re_head_star is_lower is_name_char t = true -> has_char "/" u = false ->
            has_char "/" (t +:+ u) = false /\ is_part (t +:+ u) = true).
  { intros [|c t] u; [done|]. cbn [re_head_star]. intros [Hc Ht]%andb_prop Hu. split.
    - rewrite has_char_app, Hu, orb_false_r. apply (all_chars_no_char is_name_char); [done|]. cbn [all_chars].
      unfold is_name_char at 1. by rewrite Hc, Ht.
    - unfold is_part. apply negb_true_iff, orb_false_intro; [done|].
      destruct (String.eqb_spec (String c t +:+ u) ".") as [E|]; [|done]. injection E as -> _. done. }
  intros [H|(t & -> & H)]%match_anchored_spec; [rewrite <- (app_nil_r_str s)|]; by apply Hcore.
Qed.

Lemma archive_name_valid st nm : archive_name st = Ok nm -> name_pattern nm = true.
Proof.
  unfold archive_name. destruct (st_toml st); [|done]. intros (config & _ & (t & _ & (v & _ & H)%bind_Ok_inv)%bind_Ok_inv)%bind_Ok_inv.
  destruct (negb (truthy v)); [done|]. destruct v; try (cbn in H; by repeat case_match).
  unfold validate_name_value, validate_workload_name in H. destruct (Nat.ltb _ _); [cbv in H; done|].
  destruct (name_pattern s0) eqn:E; [|cbv in H; done]. by injection H as <-.
Qed.

(** The places an archive's name leads to. *)
Lemma named_paths st nm :
  archive_name st = Ok nm ->
  workload_data_dir nm = mkPath "/" ["var"; "lib"; "workloads"; nm; "data"] /\
  config_path nm = mkPath (root config_dir) (parts config_dir ++ [nm; "workload.toml"]).
Proof.
  intros [Hs Hp]%archive_name_valid%name_pattern_segment. unfold workload_data_dir, workload_root_dir, config_path, config_parent.
  rewrite !(path_div_segment _ nm) by done. split; [done|]. rewrite path_div_segment by done. cbn [root parts]. by rewrite <- app_assoc.
Qed.

(** ** Where the data goes *)

Lemma lay_down_off p ss : within (trees_off p) (lay_down p ss).
Proof.
  intros w q Hq. unfold lay_down. destruct (fault AtCopy); [by apply lookup_partial_alter_ne|].
  destruct (merge _ _ _ _ _) as [r ev]. cbn. by apply lookup_partial_alter_ne.
Qed.

Lemma lay_down_files ps p ss : within (files_off ps) (lay_down p ss).
Proof. intros w q Hq. unfold lay_down. destruct (fault AtCopy); [done|]. by destruct (merge _ _ _ _ _). Qed.

Lemma remove_tree_off p : within (trees_off p) (remove_tree p).
Proof. intros w q Hq. unfold remove_tree. destruct (fault AtRemove); by apply lookup_partial_alter_ne. Qed.

Lemma remove_tree_files ps p : within (files_off ps) (remove_tree p).
Proof. intros w q Hq. unfold remove_tree. by destruct (fault AtRemove). Qed.

Lemma restore_data_off force nm st : within (trees_off (path_str (workload_data_dir nm))) (restore_data force nm st).
Proof.
  set (R := trees_off _). unfold restore_data, refusing. destruct (st_data st) as [ss|]; [|parts R]. parts R; [|apply lay_down_off].
  match goal with |- within _ (match ?o with _ => _ end) => destruct o end; parts R. destruct force; [apply remove_tree_off|parts R].
Qed.

Lemma restore_data_files ps force nm st : within (files_off ps) (restore_data force nm st).
Proof.
  set (R := files_off ps). unfold restore_data, refusing. destruct (st_data st) as [ss|]; [|parts R]. parts R; [|apply lay_down_files].
  match goal with |- within _ (match ?o with _ => _ end) => destruct o end; parts R. destruct force; [apply remove_tree_files|parts R].
Qed.

(** A run of the verb changes nothing, or goes through its parts for a named workload
    that it may write. *)
Lemma cmd_restore_cases force enable w :
  (exists e, cmd_restore force enable w = (w, Raise e)) \/
  exists st nm, is_root = true /\ opened = Ok st /\ archive_name st = Ok nm /\
    (path_str (config_parent nm) ∈ rh_dirs w -> force = true) /\
    cmd_restore force enable w =
      (_ ← stop_service nm; _ ← restore_config nm (default "" (st_toml st)); _ ← restore_credentials force st; _ ← restore_data force nm st;
       if enable then
         _ ← rchange (add_ran ["workloadctl"; "enable"; nm]);
         pure (match runs ["workloadctl"; "enable"; nm] with Some _ => Ok tt | None => Raise FileNotFoundError end)
       else mret tt) w.
Proof.
  unfold cmd_restore, restore_named. cbv [mbind io_bind pure rlook].
  destruct is_root; cbn [negb]; [|left; by eexists]. destruct opened as [st|e] eqn:Eo; [|left; by exists e].
  destruct (archive_name st) as [nm|e] eqn:En; [|left; by exists e].
  destruct (bool_decide _ && negb force) eqn:E; [left; by eexists|]. right. exists st, nm. split_and!; [done..| |done].
  intros Hin. rewrite bool_decide_eq_true_2 in E by done. by destruct force.
Qed.

(** ** Laying the data down *)

(** Over nothing, or in place of what was there. *)
Lemma restore_data_fresh force nm st ss w w' :
  st_data st = Some ss -> names_once (Folder ss) ->
  force = true \/ rh_trees w !! path_str (workload_data_dir nm) = None ->
  restore_data force nm st w = (w', Ok tt) ->
  rh_trees w' !! path_str (workload_data_dir nm) = Some ss /\ rh_through w' = rh_through w /\
  assert_no_escaping_symlinks resolve (child staging_dir "data") (Folder ss) = Ok tt.
Proof.
  intros Hs Hw Hf. unfold restore_data. rewrite Hs. intros H. apply io_bind_Ok in H as (w1 & [] & H1 & H).
  unfold refusing, pure in H1. injection H1 as <- Hg. apply io_bind_Ok in H as (w1 & there & H1 & H). injection H1 as <- <-.
  apply io_bind_Ok in H as (w2 & [] & H2 & H).
  assert (E : rh_trees w2 !! path_str (workload_data_dir nm) = None /\ rh_through w2 = rh_through w).
  { destruct (rh_trees w !! _) as [es|] eqn:Et; [|by injection H2 as <-]. destruct Hf as [->|?]; [|done].
    apply io_bind_Ok in H2 as (w3 & [] & H3 & H2). injection H3 as <- _. unfold remove_tree in H2.
    destruct (fault AtRemove); [done|]. injection H2 as <-. split; [|done]. cbn. apply lookup_partial_alter_eq. }
  destruct E as [Et Eth]. unfold lay_down in H. rewrite Et in H. destruct (fault AtCopy); [done|]. cbn [fmap option_fmap option_map] in H.
  rewrite merge_fresh in H by done. injection H as <-. split_and!.
  - cbn. apply lookup_partial_alter_eq.
  - cbn. by rewrite app_nil_r.
  - unfold assert_no_escaping_symlinks in *. by destruct (forallb _ _).
Qed.

(** Merged into what is there, when the two agree. *)
Lemma restore_data_merged nm st ss es w w' :
  st_data st = Some ss -> names_once (Folder ss) -> agree (Folder ss) (Folder es) ->
  rh_trees w !! path_str (workload_data_dir nm) = Some es ->
  restore_data false nm st w = (w', Ok tt) ->
  exists res, rh_trees w' !! path_str (workload_data_dir nm) = Some res /\ rh_through w' = rh_through w /\
    overlays (Folder ss) (Some (Folder es)) (Folder res).
Proof.
  intros Hs Hw Hag Ht. unfold restore_data. rewrite Hs. intros H. apply io_bind_Ok in H as (w1 & [] & H1 & H). injection H1 as <- _.
  apply io_bind_Ok in H as (w1 & there & H1 & H). injection H1 as <- <-. rewrite Ht in H.
  apply io_bind_Ok in H as (w2 & [] & H2 & H). apply io_bind_Ok in H2 as (w3 & [] & H3 & H2). injection H3 as <- _. injection H2 as <-.
  unfold lay_down in H. rewrite Ht in H. destruct (fault AtCopy); [done|]. cbn [fmap option_fmap option_map] in H.
  destruct (merge_overlay leads_to_dir _ _ [] "" Hw Hag) as (res & Em & Ho). rewrite Em in H. rewrite merge_folder in Em.
  destruct (merge_into leads_to_dir [] ss es) as [res' ev] eqn:Ei. injection Em as <- ->. injection H as <-. exists res'. split_and!; [|by cbn; rewrite app_nil_r|done].
  cbn. apply lookup_partial_alter_eq.
Qed.

(** The parts of a run that ended well. *)
Lemma cmd_restore_parts force enable w w' st nm :
  cmd_restore force enable w = (w', Ok tt) -> opened = Ok st -> archive_name st = Ok nm ->
  exists w1 w2 w3 w4, stop_service nm w = (w1, Ok tt) /\ restore_config nm (default "" (st_toml st)) w1 = (w2, Ok tt) /\
    restore_credentials force st w2 = (w3, Ok tt) /\ restore_data force nm st w3 = (w4, Ok tt) /\
    same_trees w w3 /\ same_trees w4 w' /\ files_off [] w4 w'.
Proof.
  intros H Ho Hn. destruct (cmd_restore_cases force enable w) as [[e E]|(st' & nm' & _ & Ho' & Hn' & _ & E)]; rewrite E in H; [done|].
  rewrite Ho in Ho'. injection Ho' as <-. rewrite Hn in Hn'. injection Hn' as <-.
  apply io_bind_Ok in H as (w1 & [] & H1 & H). apply io_bind_Ok in H as (w2 & [] & H2 & H). apply io_bind_Ok in H as (w3 & [] & H3 & H).
  apply io_bind_Ok in H as (w4 & [] & H4 & H). exists w1, w2, w3, w4. split_and!; [done..| | |].
  - pose proof (stop_trees nm w) as S1. pose proof (config_trees nm (default "" (st_toml st)) w1) as S2.
    pose proof (credentials_trees force st w2) as S3. rewrite H1 in S1. rewrite H2 in S2. rewrite H3 in S3. etrans; [exact S1|]. by etrans.
  - destruct enable; [apply io_bind_Ok in H as (w5 & [] & H5 & H); injection H5 as <-|]; by injection H as <-.
  - destruct enable; [apply io_bind_Ok in H as (w5 & [] & H5 & H); injection H5 as <-|]; by injection H as <-.
Qed.

Lemma config_written nm text w w' : restore_config nm text w = (w', Ok tt) -> rh_files w' !! path_str (config_path nm) = Some text.
Proof.
  unfold restore_config. intros H. apply io_bind_Ok in H as (? & [] & _ & H). apply io_bind_Ok in H as (? & [] & _ & H).
  apply io_bind_Ok in H as (? & [] & _ & H). injection H as <-. apply lookup_insert_eq.
Qed.

Lemma restored_fresh force enable w w' st nm ss :
  cmd_restore force enable w = (w', Ok tt) -> opened = Ok st -> archive_name st = Ok nm ->
  st_data st = Some ss -> names_once (Folder ss) ->
  force = true \/ rh_trees w !! path_str (workload_data_dir nm) = None ->
  path_str (config_path nm) ∉ credential_paths st ->
  rh_trees w' !! path_str (workload_data_dir nm) = Some ss /\ rh_through w' = rh_through w /\
  rh_files w' !! path_str (config_path nm) = Some (default "" (st_toml st)) /\
  forall rel to, rel <> [] -> find_node (Folder ss) rel = Some (Symlink to) ->
    is_relative_to (link_target resolve (child staging_dir "data") rel to) (codes_of (resolve (child staging_dir "data"))) = true.
Proof.
  intros H Ho Hn Hs Hw Hf Hc. destruct (cmd_restore_parts _ _ _ _ _ _ H Ho Hn) as (w1 & w2 & w3 & w4 & H1 & H2 & H3 & H4 & [S1 T1] & [S2 T2] & F).
  destruct (restore_data_fresh force nm st ss w3 w4 Hs Hw) as (Hd & Ht & Hg); [by rewrite S1|done|]. split_and!.
  - by rewrite S2.
  - by rewrite T2, Ht.
  - rewrite F by apply not_elem_of_nil. pose proof (restore_data_files [] force nm st w3) as F4. rewrite H4 in F4. cbn in F4.
    rewrite F4 by apply not_elem_of_nil. pose proof (credentials_files force st w2) as F3. rewrite H3 in F3. cbn in F3. rewrite F3 by done.
    by eapply config_written.
  - intros rel to Hne Hrel. by eapply links_stay_sound.
Qed.

(** ** Theorems *)

(** What was written through links between [w] and [w'] went through links the data
    directory at [p] held in [w], and none did with --force. *)
Definition through_own_links (force : bool) (p : string) (w w' : rhost) : Prop :=
  exists l, rh_through w' = rh_through w ++ l /\
    forall rel to, WrittenThrough rel to ∈ l ->
      force = false /\ exists es, rh_trees w !! p = Some es /\ find_node (Folder es) rel = Some (Symlink to).

Lemma lay_down_through p ss w :
  names_once (Folder ss) -> exists l, rh_through (fst (lay_down p ss w)) = rh_through w ++ l /\
    forall rel to, WrittenThrough rel to ∈ l -> exists es, rh_trees w !! p = Some es /\ find_node (Folder es) rel = Some (Symlink to).
Proof.
  intros Hw. unfold lay_down. destruct (fault AtCopy); [exists []; rewrite app_nil_r; split; [done|by intros ? ? ?%elem_of_nil]|].
  pose proof (fun r to => merge_through leads_to_dir (Folder ss) [] "" (Folder <$> rh_trees w !! p) r to Hw) as Hm.
  destruct (merge leads_to_dir [] "" (Folder ss) (Folder <$> rh_trees w !! p)) as [r ev]. cbn [snd] in Hm.
  exists (List.filter (negb ∘ is_failure) ev). split; [done|]. intros rel to [Hin _]%list_elem_of_In%List.filter_In.
  apply list_elem_of_In, Hm in Hin as (r' & d & -> & Hd & Hf). destruct (rh_trees w !! p) as [es|]; [|done]. injection Hd as <-. by exists es.
Qed.

Lemma restore_data_through force nm st w :
  (forall ss, st_data st = Some ss -> names_once (Folder ss)) ->
  through_own_links force (path_str (workload_data_dir nm)) w (fst (restore_data force nm st w)).
Proof.
  intros Hw. set (p := path_str (workload_data_dir nm)).
  assert (Hnone : through_own_links force p w w) by (exists []; rewrite app_nil_r; split; [done|by intros ? ? ?%elem_of_nil]).
  unfold restore_data. destruct (st_data st) as [ss|]; [|done]. unfold refusing. cbv [mbind io_bind pure rlook].
  destruct (catch (assert_no_escaping_symlinks _ _ _) _ _) as [[]|]; [|done]. fold p. destruct (rh_trees w !! p) as [es|] eqn:Et.
  - destruct (catch (data_guards _ _ _) _ _) as [[]|]; [|done]. destruct force.
    + unfold remove_tree. destruct (fault AtRemove); [done|]. destruct (lay_down_through p ss (set_tree p None w) (Hw ss eq_refl)) as (l & Hl & Hin).
      exists l. split; [by rewrite Hl|]. intros rel to H. destruct (Hin rel to H) as (es' & He & _). cbn in He. by rewrite lookup_partial_alter_eq in He.
    + cbn [mret io_ret]. unfold io_ret. destruct (lay_down_through p ss w (Hw ss eq_refl)) as (l & Hl & Hin). exists l. split; [done|]. intros rel to H. split; [done|by apply Hin].
  - cbn [mret io_ret]. unfold io_ret. destruct (lay_down_through p ss w (Hw ss eq_refl)) as (l & Hl & Hin). exists l. split; [done|].
    intros rel to H. destruct (Hin rel to H) as (es & He & _). congruence.
Qed.


(** C22.  Mounted data is left alone.  Let mountinfo be the kernel's table of the mounts [ms],
    none of whose lines holds a character at which [splitlines] breaks a line, and let the
    archive be readable and name the workload [nm], whose data directory is there and can be
    looked at.  If an entry below it is one of these mount points or is on another device, or,
    with --force, the directory itself is one of them or on another device than its parent,
    the restore leaves every data directory as it is and writes nothing through a link,
    however it ends.  (A mount point with a vertical tab is not seen:
    [mount_with_line_boundary_is_missed].) *)
Theorem mounted_data_is_left_alone force enable w st nm es ms :
  opened = Ok st -> archive_name st = Ok nm -> mountinfo = Some (mount_table ms) -> Forall line_ok ms ->
  rh_trees w !! path_str (workload_data_dir nm) = Some es -> mounted_by ms force (workload_data_dir nm) es ->
  same_trees w (fst (cmd_restore force enable w)).
Proof.
  intros Ho Hn Hmi Hok Ht Hm%(mounted_by_seen ms); [|done..]. destruct (cmd_restore_cases force enable w) as [[e ->]|(st' & nm' & _ & Ho' & Hn' & _ & ->)]; [done|].
  rewrite Ho in Ho'. injection Ho' as <-. rewrite Hn in Hn'. injection Hn' as <-.
  apply io_keeps_then; [apply stop_trees|]. intros w1 _ H1.
  apply io_keeps_then; [apply config_trees|]. intros w2 _ H2.
  apply io_keeps_then; [apply credentials_trees|]. intros w3 _ H3.
  assert (Ht3 : rh_trees w3 !! path_str (workload_data_dir nm) = Some es).
  { destruct H1 as [E1 _], H2 as [E2 _], H3 as [E3 _]. by rewrite E3, E2, E1. }
  destruct (restore_data_mounted force nm st w3 es Ht3 Hm) as [Hw _]. cbv [mbind io_bind].
  destruct (restore_data force nm st w3) as [w4 [[]|e]]; cbn in Hw; subst w4; [|done]. by destruct enable.
Qed.

(** A restore that ends well onto nothing, or with --force, leaves the data directory
    with exactly the tree of the archive, none of whose links leads out of it, and the
    workload's file with the text of the archive. *)
Theorem restored_data_is_the_archives force enable w w' st nm ss :
  cmd_restore force enable w = (w', Ok tt) -> opened = Ok st -> archive_name st = Ok nm ->
  st_data st = Some ss -> names_once (Folder ss) ->
  force = true \/ rh_trees w !! path_str (workload_data_dir nm) = None ->
  path_str (config_path nm) ∉ credential_paths st ->
  rh_trees w' !! path_str (workload_data_dir nm) = Some ss /\ rh_through w' = rh_through w /\
  rh_files w' !! path_str (config_path nm) = Some (default "" (st_toml st)) /\
  forall rel to, rel <> [] -> find_node (Folder ss) rel = Some (Symlink to) ->
    is_relative_to (link_target resolve (child staging_dir "data") rel to) (codes_of (resolve (child staging_dir "data"))) = true.
Proof. apply restored_fresh. Qed.

(** A restore without --force onto data that agrees with the archive keeps what only
    one of the two has and takes the rest from the archive. *)
Theorem merge_keeps_both enable w w' st nm ss es :
  cmd_restore false enable w = (w', Ok tt) -> opened = Ok st -> archive_name st = Ok nm ->
  st_data st = Some ss -> names_once (Folder ss) -> agree (Folder ss) (Folder es) ->
  rh_trees w !! path_str (workload_data_dir nm) = Some es ->
  exists res, rh_trees w' !! path_str (workload_data_dir nm) = Some res /\ rh_through w' = rh_through w /\
    forall rel, leaf (Folder res) rel = match leaf (Folder ss) rel with Some l => Some l | None => leaf (Folder es) rel end.
Proof.
  intros H Ho Hn Hs Hw Hag Ht. destruct (cmd_restore_parts _ _ _ _ _ _ H Ho Hn) as (w1 & w2 & w3 & w4 & _ & _ & _ & H4 & [S1 T1] & [S2 T2] & _).
  destruct (restore_data_merged nm st ss es w3 w4 Hs Hw Hag) as (res & Hr & Hth & Hov); [by rewrite S1|done|].
  exists res. split_and!; [by rewrite S2|by rewrite T2, Hth|exact Hov].
Qed.

(** A restore that refuses to touch mounted data has by then stopped the service and
    replaced the workload's file. *)
Theorem refused_restore_has_written enable w st nm es :
  is_root = true -> opened = Ok st -> archive_name st = Ok nm -> is_Some (st_data st) -> st_credentials st = None ->
  rh_trees w !! path_str (workload_data_dir nm) = Some es -> mounted true (workload_data_dir nm) es ->
  (forall s, fault s = None) -> (forall c, runs c = Some 0) ->
  exists w', cmd_restore true enable w = (w', Raise SystemExit) /\
    rh_files w' !! path_str (config_path nm) = Some (default "" (st_toml st)) /\
    workload_service_name nm ∉ rh_active w' /\ rh_trees w' = rh_trees w.
Proof.
  intros Hroot Ho Hn Hs Hc Ht Hm Hf Hr. unfold cmd_restore. rewrite Hroot, Ho. cbn [negb]. cbv [mbind io_bind pure]. rewrite Hn.
  unfold restore_named, rlook, stop_service, restore_config, rstep_, restore_credentials, rchange, write_file.
  cbv [mbind io_bind pure rchange]. rewrite Hr, !Hf, Hc, andb_false_r. cbn [Z.eqb mret io_ret]. unfold mret, io_ret.
  match goal with |- context [restore_data true nm st ?v] => set (w3 := v) end.
  destruct (restore_data_mounted true nm st w3 es) as [Hw He]; [exact Ht|exact Hm|]. specialize (He Hs).
  destruct (restore_data true nm st w3) as [w4 r]. cbn in Hw, He. subst w4 r. exists w3. split_and!; [done| | |done].
  - apply lookup_insert_eq.
  - cbn. set_solver.
Qed.
End restore.

(** ** Backing up and restoring *)

(** What extracting an archive gives: tar's own reading and writing are outside. *)
Definition staging_of (a : archive) : staging :=
  mkStaging (Some (ar_toml a)) (match ar_credentials a with [] => None | l => Some (map (fun c => (fst c, Some (snd c))) l) end)
    (match ar_data a with Folder es => Some es | _ => None end).

Section roundtrip.
(** The host backed up. *)
Variable name : string.
Variable config : table.
Variable toml : string.
Variable credstore : pypath -> option string.
Variable es : entries.
Variable dev : pypath -> option Z.
Variable resolve : pypath -> pypath.
Variable mountinfo : option string.
Variable bfault : bstep -> option exn.
Variable answers : list (list string) -> list string -> option Z.
Variable left : list (list string) -> bool.
Variable uid : option Z.
Variable manager_up : list (list string) -> bool.
Variable json_loads : string -> res tv.
Variable sock_exists : bool.
Variable resync : res unit.

(** The host restored to. *)
Variable toml_loads : string -> res table.
Variable config_dir staging_dir : pypath.
Variable dev' : pypath -> option Z.
Variable resolve' : pypath -> pypath.
Variable mountinfo' : option string.
Variable leads_to_dir : list string -> bool.
Variable wreck : option entries -> option entries.
Variable runs : list string -> option Z.

Notation capture := (capture name config toml credstore (Some (Folder es)) dev resolve mountinfo bfault answers left uid manager_up json_loads sock_exists resync).
Notation restore a := (cmd_restore true true (Ok (staging_of a)) toml_loads config_dir staging_dir dev' resolve' mountinfo' leads_to_dir
                         (fun _ => None) wreck runs).
Notation data_dir := (workload_data_dir name).

(** Nothing is mounted below the data directory. *)
Definition unmounted : Prop :=
  forall root_dev mounts, dev data_dir = Some root_dev -> mount_points mountinfo = Ok mounts ->
  forall rel c, rel <> [] -> find_node (Folder es) rel = Some c -> ~ boundary dev resolve root_dev mounts data_dir rel.

Lemma captured_whole vm consistency w w' a :
  capture vm consistency w = (w', Ok tt) -> bh_archive w' = Some a -> names_once (Folder es) ->
  in_place dev resolve data_dir (Folder es) -> unmounted ->
  ar_toml a = toml /\ ar_data a = Folder es.
Proof.
  intros (w1 & w2 & a' & Hst & Ha & _)%capture_wrote Ea Hw Hp Hu. rewrite Ha in Ea. injection Ea as <-.
  destruct (stage_result _ _ _ _ _ _ _ _ _ _ _ _ Hst) as [Ht Hd]. split; [done|].
  destruct (Hd _ eq_refl) as (rd & ms & Hrd & Hm & ->). apply copytree_all; [|done].
  intros rel x c Hf. apply not_true_iff_false. intros Hi.
  assert (Hc : crosses (ignore_mount_points dev resolve rd ms) data_dir (rel ++ [x]) = true) by (apply crosses_prefix; by exists rel, x).
  apply (crosses_boundary dev resolve rd ms _ _ _ _ Hp Hf) in Hc as (pre & Hne & [k Hk] & Hb).
  rewrite Hk, find_node_app in Hf. destruct (find_node (Folder es) pre) as [d|] eqn:Ed; [|done]. by apply (Hu rd ms Hrd Hm pre d).
Qed.

Lemma staged_credential a n :
  n ∈ py_sorted (map fst (default [] (st_credentials (staging_of a)))) ->
  exists blob, assoc n (default [] (st_credentials (staging_of a))) = Some (Some blob).
Proof.
  intros H%elem_of_py_sorted. unfold staging_of in *. cbn [st_credentials] in *. destruct (ar_credentials a) as [|c l]; [by apply elem_of_nil in H|].
  revert H. generalize (c :: l). clear. intros l. cbn [from_option]. unfold id. induction l as [|[m b] l IH]; [by intros ?%elem_of_nil|].
  cbn [map fst snd assoc]. destruct (decide (m = n)); [eauto|]. intros [?|H]%elem_of_cons; [done|]. by apply IH.
Qed.

Lemma credentials_succeed a force w : exists w',
  restore_credentials (fun _ => None) force (staging_of a) w = (w', Ok tt).
Proof.
  unfold restore_credentials. pose proof (staged_credential a) as Hs. destruct (st_credentials (staging_of a)) as [creds|]; [|by eexists].
  cbn [from_option] in Hs. unfold id in Hs. cbv [mbind io_bind rstep_ pure]. revert w. induction (py_sorted (map fst creds)) as [|n ns IH]; intros w; [by eexists|].
  cbn [for_io]. cbv [mbind io_bind].
  assert (E : exists w1, restore_credential (fun _ => None) force creds n w = (w1, Ok tt)).
  { destruct (Hs n) as [blob Hb]; [by left|]. unfold restore_credential. rewrite Hb. cbv [mbind io_bind rlook rstep_ pure].
    destruct (_ && _); by eexists. }
  destruct E as [w1 ->]. apply IH. intros m Hm. apply Hs. by right.
Qed.

(** C23.  Backing up and restoring gives the data back.  Conditions: the backup ended well; no
    directory of the data names an entry twice, its entries are where their paths say, can be
    looked at, and none of them is a mount point the backup's host shows or on another device;
    the archive's text names the workload; no link of the data leads out of it (the restore
    refuses others); no credential of the archive has the path of the workload's file; the
    host restored to has neither a directory for the workload's file nor its data directory,
    every command there can be run and every write succeeds.  Then a restore without --force
    ends well, the data directory has the same tree of names, file contents and link targets
    (owners, modes and times are not part of it), and the workload's file has its text. *)
Theorem backup_then_restore vm consistency bw bw' a enable w :
  capture vm consistency bw = (bw', Ok tt) -> bh_archive bw' = Some a ->
  names_once (Folder es) -> in_place dev resolve data_dir (Folder es) -> unmounted ->
  archive_name toml_loads (staging_of a) = Ok name ->
  assert_no_escaping_symlinks resolve' (child staging_dir "data") (Folder es) = Ok tt ->
  path_str (config_path config_dir name) ∉ credential_paths (staging_of a) ->
  path_str (config_parent config_dir name) ∉ rh_dirs w -> rh_trees w !! path_str data_dir = None -> (forall c, is_Some (runs c)) ->
  exists w', restore a false enable w = (w', Ok tt) /\
    rh_trees w' !! path_str data_dir = Some es /\ rh_files w' !! path_str (config_path config_dir name) = Some toml.
Proof.
  intros Hb Ha Hw Hp Hu Hn Hl Hc Hdir Ht Hr. destruct (captured_whole _ _ _ _ _ Hb Ha Hw Hp Hu) as [Et Ed].
  assert (Hs : st_data (staging_of a) = Some es) by (unfold staging_of; cbn; by rewrite Ed).
  assert (Hok : exists w', restore a false enable w = (w', Ok tt)).
  { unfold cmd_restore, restore_named. cbv [mbind io_bind pure rlook opened]. cbn [negb]. rewrite Hn, bool_decide_eq_false_2 by done. cbn [andb].
    unfold stop_service. destruct (Hr ["systemctl"; "stop"; workload_service_name name]) as [rc ->].
    match goal with |- context [restore_config _ _ _ _ ?v] => set (w1 := v) end.
    unfold restore_config, rstep_, write_file, rchange. cbv [mbind io_bind pure rchange]. set (w2 := set_files _ _).
    destruct (credentials_succeed a false w2) as [w3 E3]. rewrite E3.
    assert (T3 : rh_trees w3 !! path_str data_dir = None).
    { destruct (credentials_trees (fun _ => None) false (staging_of a) w2) as [T _]. rewrite E3 in T. cbn [fst] in T. rewrite T.
      unfold w2, w1. cbn. by destruct (rc =? 0). }
    unfold restore_data. rewrite Hs. cbv [mbind io_bind rlook refusing pure]. rewrite Hl. cbn [catch]. rewrite T3.
    cbn [mret io_ret]. unfold lay_down, io_ret. rewrite T3. cbn [fmap option_fmap option_map]. rewrite merge_fresh by done. cbn.
    destruct enable; [|by eexists]. destruct (Hr ["workloadctl"; "enable"; name]) as [rc' ->]. by eexists. }
  destruct Hok as [w' E]. exists w'. split; [done|].
  destruct (restored_fresh _ _ _ _ _ _ _ _ _ _ _ _ _ _ _ _ _ _ _ _ E eq_refl Hn Hs Hw (or_intror Ht) Hc) as (Hd & _ & Hf & _).
  split; [done|]. rewrite Hf. cbn. by rewrite Et.
Qed.
End roundtrip.

(** ** Samples *)

Module Recovery.
Definition loads (text : string) : res table := Ok [("workload", TTab [("name", TStr "web")])].

Definition etc : pypath := path_of "/etc/workloads".

Definition tmp : pypath := path_of "/tmp/restore".

Definition data_path : string := "/var/lib/workloads/web/data".

(** The archive of an older state of the sample's data, with a link inside it. *)
Definition old_data : entries := [("a", File "old"); ("l", Symlink "a"); ("sub", Folder [("c", File "z")])].

Definition old_archive : staging := mkStaging (Some "[workload]") None (Some old_data).

Definition files_entries : entries := match Nightly.files with Folder es => es | _ => [] end.

Definition host (es : option entries) (dirs : gset string) : rhost :=
  mkR ∅ dirs (match es with Some es => {[data_path := es]} | None => ∅ end) {["workload-web.service"]} [] [].

Definition mounts : list code_path := match mount_points (Some Nightly.mountinfo) with Ok l => l | Raise _ => [] end.

Definition restoring (st : staging) (mountinfo : option string) : bool -> bool -> io rhost unit :=
  cmd_restore true true (Ok st) loads etc tmp Nightly.same_disk id mountinfo (fun _ => true) (fun _ => None) id (fun _ => Some 0).

(** The mounts behind the sample's table. *)
Definition kernel_mounts : list (string * list string * string) := [(data_path +:+ "/mnt", ["90"; "22"; "8:1"; "/srv"], "rw - xfs /dev/sda1 rw")].

Lemma mounted_web force : mounted Nightly.same_disk id (Some Nightly.mountinfo) force (workload_data_dir "web") files_entries.
Proof.
  exists mounts, 1. split_and!; [vm_compute; reflexivity|done|]. left. exists ["mnt"], (Folder [("b", File "y")]). split_and!; [done|done|].
  right. apply (bool_decide_unpack _). vm_compute. exact I.
Qed.

Lemma once (es : entries) : Forall (fun e => match snd e with Folder cs => NoDup cs.*1 /\ Forall (fun c => match snd c with Folder _ => False | _ => True end) cs | _ => True end) es ->
  NoDup es.*1 -> names_once (Folder es).
Proof.
  intros H Hnd [|x [|y [|z rel]]] ds; cbn [find_node]; [by intros [= <-]| | |].
  - destruct (assoc x es) as [c|] eqn:E; [|done]. intros [= ->]. apply assoc_In in E. rewrite Forall_forall in H. by apply (H _ E).
  - destruct (assoc x es) as [[| |cs]|] eqn:E; try done. apply assoc_In in E. rewrite Forall_forall in H. destruct (H _ E) as [_ Hc].
    destruct (assoc y cs) as [d|] eqn:Ey; [|done]. apply assoc_In in Ey. rewrite Forall_forall in Hc. intros [= ->]. by destruct (Hc _ Ey).
  - destruct (assoc x es) as [[| |cs]|] eqn:E; try done. apply assoc_In in E. rewrite Forall_forall in H. destruct (H _ E) as [_ Hc].
    destruct (assoc y cs) as [[| |]|] eqn:Ey; try done. apply assoc_In in Ey. rewrite Forall_forall in Hc. by destruct (Hc _ Ey).
Qed.

Lemma old_once : names_once (Folder old_data).
Proof.
  apply once; [repeat constructor; set_solver|]. apply (bool_decide_unpack _). vm_compute. exact I.
Qed.
End Recovery.

Lemma mounted_data_is_left_alone_witness :
  same_trees (Recovery.host (Some Recovery.files_entries) ∅)
    (fst (Recovery.restoring Recovery.old_archive (Some (mount_table Recovery.kernel_mounts)) true false (Recovery.host (Some Recovery.files_entries) ∅))).
Proof.
  apply (mounted_data_is_left_alone true true (Ok Recovery.old_archive) Recovery.loads Recovery.etc Recovery.tmp Nightly.same_disk id
    (Some (mount_table Recovery.kernel_mounts)) (fun _ => true) (fun _ => None) id (fun _ => Some 0) true false _ Recovery.old_archive "web"
    Recovery.files_entries Recovery.kernel_mounts).
  - reflexivity.
  - vm_compute. reflexivity.
  - reflexivity.
  - constructor; [|constructor]. split_and!; [reflexivity|repeat constructor|vm_compute; reflexivity].
  - vm_compute. reflexivity.
  - exists 1. split; [reflexivity|]. left. exists ["mnt"], (Folder [("b", File "y")]). split_and!; [discriminate|reflexivity|].
    left. eexists. split; [left; reflexivity|]. vm_compute. reflexivity.
Defined.


Lemma restored_data_is_the_archives_witness :
  let w := Recovery.host (Some Recovery.files_entries) {["/etc/workloads/web"]} in
  let w' := fst (Recovery.restoring Recovery.old_archive None true false w) in
  rh_trees w' !! path_str (workload_data_dir "web") = Some Recovery.old_data /\ rh_through w' = [] /\
  rh_files w' !! path_str (config_path Recovery.etc "web") = Some "[workload]" /\
  forall rel to, rel <> [] -> find_node (Folder Recovery.old_data) rel = Some (Symlink to) ->
    is_relative_to (link_target id (child Recovery.tmp "data") rel to) (codes_of (child Recovery.tmp "data")) = true.
Proof.
  apply (restored_data_is_the_archives true true (Ok Recovery.old_archive) Recovery.loads Recovery.etc Recovery.tmp Nightly.same_disk id
    None (fun _ => true) (fun _ => None) id (fun _ => Some 0) true false
    (Recovery.host (Some Recovery.files_entries) {["/etc/workloads/web"]})
    (fst (Recovery.restoring Recovery.old_archive None true false (Recovery.host (Some Recovery.files_entries) {["/etc/workloads/web"]})))
    Recovery.old_archive "web" Recovery.old_data).
  - vm_compute. reflexivity.
  - reflexivity.
  - vm_compute. reflexivity.
  - reflexivity.
  - exact Recovery.old_once.
  - by left.
  - apply not_elem_of_nil.
Defined.

(** Data that agrees with the archive's: a file it has too, and one of its own. *)
Lemma merge_keeps_both_witness :
  let es := [("a", File "new"); ("own", File "kept")] in
  let w := Recovery.host (Some es) ∅ in
  exists res, rh_trees (fst (Recovery.restoring Recovery.old_archive None false false w)) !! path_str (workload_data_dir "web") = Some res /\
    rh_through (fst (Recovery.restoring Recovery.old_archive None false false w)) = [] /\
    forall rel, leaf (Folder res) rel =
      match leaf (Folder Recovery.old_data) rel with Some l => Some l | None => leaf (Folder es) rel end.
Proof.
  apply (merge_keeps_both true true (Ok Recovery.old_archive) Recovery.loads Recovery.etc Recovery.tmp Nightly.same_disk id
    None (fun _ => true) (fun _ => None) id (fun _ => Some 0) false
    (Recovery.host (Some [("a", File "new"); ("own", File "kept")]) ∅)
    (fst (Recovery.restoring Recovery.old_archive None false false (Recovery.host (Some [("a", File "new"); ("own", File "kept")]) ∅)))
    Recovery.old_archive "web" Recovery.old_data).
  - vm_compute. reflexivity.
  - reflexivity.
  - vm_compute. reflexivity.
  - reflexivity.
  - exact Recovery.old_once.
  - intros [|x [|y rel]] a b; cbn [find_node Recovery.old_data assoc]; [by intros [= <-] [= <-]| |]; repeat case_decide; subst; try done;
      by intros [= <-] [= <-].
  - vm_compute. reflexivity.
Defined.

Lemma refused_restore_has_written_witness :
  exists w', Recovery.restoring Recovery.old_archive (Some Nightly.mountinfo) true false (Recovery.host (Some Recovery.files_entries) ∅) = (w', Raise SystemExit) /\
    rh_files w' !! path_str (config_path Recovery.etc "web") = Some "[workload]" /\
    workload_service_name "web" ∉ rh_active w' /\ rh_trees w' = rh_trees (Recovery.host (Some Recovery.files_entries) ∅).
Proof.
  apply (refused_restore_has_written true true (Ok Recovery.old_archive) Recovery.loads Recovery.etc Recovery.tmp Nightly.same_disk id
    (Some Nightly.mountinfo) (fun _ => true) (fun _ => None) id (fun _ => Some 0) false _ Recovery.old_archive "web" Recovery.files_entries).
  - reflexivity.
  - reflexivity.
  - vm_compute. reflexivity.
  - by eexists.
  - reflexivity.
  - vm_compute. reflexivity.
  - apply Recovery.mounted_web.
  - done.
  - done.
Defined.

Lemma backup_then_restore_witness :
  exists w', cmd_restore true true (Ok (staging_of (mkArchive "[workload]" [] (Folder Recovery.old_data)))) Recovery.loads Recovery.etc Recovery.tmp
      Nightly.same_disk id None (fun _ => true) (fun _ => None) id (fun _ => Some 0) false true (Recovery.host None ∅) = (w', Ok tt) /\
    rh_trees w' !! path_str (workload_data_dir "web") = Some Recovery.old_data /\
    rh_files w' !! path_str (config_path Recovery.etc "web") = Some "[workload]".
Proof.
  apply (backup_then_restore "web" [] "[workload]" (fun _ => None) Recovery.old_data Nightly.same_disk id None (fun _ => None) Nightly.limited
    (fun _ => false) (Some 60001) (fun _ => true) Nightly.json true (Ok tt) Recovery.loads Recovery.etc Recovery.tmp Nightly.same_disk id None
    (fun _ => true) id (fun _ => Some 0) false "cold" (Nightly.world true Nightly.quiet_conn None)
    (fst (capture "web" [] "[workload]" (fun _ => None) (Some (Folder Recovery.old_data)) Nightly.same_disk id None (fun _ => None) Nightly.limited
      (fun _ => false) (Some 60001) (fun _ => true) Nightly.json true (Ok tt) false "cold" (Nightly.world true Nightly.quiet_conn None)))).
  - vm_compute. reflexivity.
  - vm_compute. reflexivity.
  - exact Recovery.old_once.
  - split; [done|]. intros rel c _. by eexists.
  - intros rd ms [= <-] [= <-] rel c _ _ [(d & [= <-] & ?)|H]; [done|]. by apply elem_of_nil in H.
  - vm_compute. reflexivity.
  - vm_compute. reflexivity.
  - apply not_elem_of_nil.
  - apply not_elem_of_empty.
  - vm_compute. reflexivity.
  - by eexists.
Defined.

(** Data that holds a link where the archive has a directory: a restore without --force
    ends well, having written what the directory holds to where the link leads. *)
Theorem merge_writes_through_a_link :
  let w := Recovery.host (Some [("sub", Symlink "/etc")]) ∅ in
  let r := Recovery.restoring Recovery.old_archive None false false w in
  snd r = Ok tt /\ rh_through (fst r) = [WrittenThrough ["sub"] "/etc"].
Proof. by vm_compute. Qed.
