(* ===== verification/EgressQuery.v ===== *)
(** * Reading the request record: [lib/egress_record_query.py]

    The record of a workload's requests, one JSON object per line in a live file and
    its rotated generations: the filters an operator gives, the generations in order,
    the ones that need not be read, the selection and its grouping by connection.

    Parameters: JSON, ISO-8601 times, the clock and the local midnight, the order of
    Python values, and of the inspector's package the names of two fields, the drop
    reasons and the matcher of host names. *)
From stdpp Require Import sorting.
From S2P Require Import Prelude PyStr Toml WorkloadConfig.
Local Open Scope Z_scope.

(** ** Times, in microseconds *)

Definition SECOND : Z := 1000000.

(** [datetime.min] and the longest [timedelta]. *)
Definition MIN_TIME : Z := -62135596800 * SECOND.
Definition MAX_DELTA : Z := 86400 * 1000000000 * SECOND - 1.

Definition unit_seconds (c : ascii) : option Z :=
  if Ascii.eqb c "s" then Some 1 else if Ascii.eqb c "m" then Some 60 else if Ascii.eqb c "h" then Some 3600
  else if Ascii.eqb c "d" then Some 86400 else if Ascii.eqb c "w" then Some 604800 else None.

Fixpoint span_digits (s : string) : string * string :=
  match s with
  | String c s' => if is_dec c then let '(d, r) := span_digits s' in (String c d, r) else (EmptyString, s)
  | EmptyString => (EmptyString, EmptyString)
  end.

(** After the unit: nothing, or blanks and "ago". *)
Definition ago_ok (s : string) : bool :=
  match s with
  | EmptyString => true
  | String c _ => is_space c && String.eqb (lower (lstrip_by is_space s)) "ago"
  end.

(** [_RELATIVE_RE]: the number and the seconds of the unit. *)
Definition match_relative (raw : string) : option (Z * Z) :=
  let body := match raw with String c s => if Ascii.eqb c "-" then s else raw | EmptyString => raw end in
  let '(ds, r) := span_digits body in
  match py_int ds, lstrip_by is_space r with
  | Some n, String u rest =>
      match unit_seconds (lower_char u) with
      | Some k => if ago_ok rest then Some (n, k) else None
      | None => None
      end
  | _, _ => None
  end.

Section query.
Variable json_loads : string -> res tv.
(** A time and whether it has an offset. *)
Variable fromisoformat : string -> option (Z * bool).
(** A naive time read as local time. *)
Variable as_local : Z -> Z.
Variable now midnight : Z.
Variable LOG_ID_FIELD LOG_REQ_FIELD : string.
Variable DROP_REASONS : list string.
Variable hostname_match : string -> list string -> bool.
(** [<] on two values. *)
Variable lt : tv -> tv -> res bool.

(** [parse_when] *)
Definition parse_when (text : string) : res Z :=
  let raw := strip text in
  if String.eqb (lower raw) "now" then Ok now
  else if String.eqb (lower raw) "today" then Ok midnight
  else match match_relative raw with
       | Some (n, k) =>
           let delta := n * k * SECOND in
           if (MAX_DELTA <? delta) || (now - delta <? MIN_TIME) then Raise OverflowError else Ok (now - delta)
       | None =>
           match fromisoformat (replace_char "Z" "+00:00" raw) with
           | Some (t, aware) => Ok (if aware then t else as_local t)
           | None => Raise EgressUsage
           end
       end.

(** [record_time]: a naive time of a record is UTC. *)
Definition record_time (r : table) : option Z :=
  match assoc "ts" r with
  | Some (TStr s) => match fromisoformat (replace_char "Z" "+00:00" s) with Some (t, _) => Some t | None => None end
  | _ => None
  end.

(** ** Filter values *)

(** [casefold] on Latin-1. *)
Definition casefold (s : string) : string := map_chars (fun c => if code c =? 223 then "ss" else chr (lower_char c)) s.

Definition resolve_reason (value : string) : res string :=
  let raw := strip value in
  if bool_decide (raw ∈ DROP_REASONS) then Ok raw
  else match List.filter (fun r => contains (casefold raw) (casefold r)) DROP_REASONS with
       | [r] => Ok r
       | _ => Raise EgressUsage
       end.

Definition is_hex (c : ascii) : bool := is_dec c || in_range 97 102 c || in_range 65 70 c.

Definition resolve_id (value : string) : res string :=
  let raw := strip value in
  let pre := LOG_ID_FIELD +:+ "=" in
  let bare := if starts_with pre raw then str_drop (String.length pre) raw else raw in
  if re_plus is_hex bare then Ok (lower bare) else Raise EgressUsage.

(** A class of statuses, or one. *)
Inductive status_filter := StatusClass (n : Z) | StatusExact (n : Z).

Definition match_class (raw : string) : option Z :=
  match raw with
  | String c rest => if in_range 49 53 c && String.eqb (lower rest) "xx" then Some (code c - 48) else None
  | EmptyString => None
  end.

Definition resolve_status (value : string) : res status_filter :=
  let raw := strip value in
  match match_class raw with
  | Some n => Ok (StatusClass n)
  | None => match py_int raw with Some n => Ok (StatusExact n) | None => Raise EgressUsage end
  end.

Record args := mkArgs {
  a_decision : list string; a_mode : list string; a_plane : list string; a_reason : list string; a_id : list string;
  a_host : list string; a_status : list string; a_method : list string; a_since : option string; a_until : option string }.

Record filters := mkFilters {
  f_decision : list string; f_mode : list string; f_plane : list string; f_reason : list string; f_id : list string;
  f_host : list string; f_status : list status_filter; f_method : list string; f_since : option Z; f_until : option Z }.

(** An option that is given and not empty. *)
Definition parse_bound (o : option string) : res (option Z) :=
  match o with
  | Some s => if String.eqb s "" then Ok None else t ← parse_when s; Ok (Some t)
  | None => Ok None
  end.

Definition build_filters (a : args) : res filters :=
  reasons ← mapM_res resolve_reason (a_reason a);
  ids ← mapM_res resolve_id (a_id a);
  statuses ← mapM_res resolve_status (a_status a);
  since ← parse_bound (a_since a);
  until ← parse_bound (a_until a);
  Ok (mkFilters (a_decision a) (a_mode a) (a_plane a) reasons ids (a_host a) statuses (map upper (a_method a)) since until).

(** ** Generations *)

(** A file of the record: its name, its modification time, the lines that can be read
    and what reading ends with. *)
Record generation := mkGen { g_name : string; g_mtime : option Z; g_lines : list string; g_end : option exn }.

Definition ends_gz (s : string) : bool := (3 <=? String.length s)%nat && String.eqb (str_drop (String.length s - 3) s) ".gz".

(** The number of a rotated file. *)
Definition rotation (live : string) (name : string) : res (option Z) :=
  let pre := live +:+ "." in
  if negb (starts_with pre name) then Ok None
  else
    let suffix := str_drop (String.length pre) name in
    let suffix := if ends_gz suffix then str_take (String.length suffix - 3) suffix else suffix in
    if negb (isdigit suffix) then Ok None else n ← int_res suffix; Ok (Some n).

Fixpoint rotated (live : string) (l : list generation) : res (list (Z * generation)) :=
  match l with
  | [] => Ok []
  | g :: l => o ← rotation live (g_name g); rest ← rotated live l; Ok (match o with Some n => (n, g) :: rest | None => rest end)
  end.

(** [sorted(rotated, key=lambda item: -item[0])], which keeps the order of equals. *)
Fixpoint insert_gen (x : Z * generation) (l : list (Z * generation)) : list (Z * generation) :=
  match l with
  | [] => [x]
  | y :: l' => if fst y <=? fst x then x :: l else y :: insert_gen x l'
  end.

Definition sort_gens (l : list (Z * generation)) : list (Z * generation) := foldr insert_gen [] l.

(** [generations]: of the directory's files, when it can be listed, and the live one. *)
Definition generations (listing : option (list generation)) (live : string) (live_file : option generation) : res (list generation) :=
  r ← rotated live (default [] listing);
  Ok (map snd (sort_gens r) ++ option_list live_file).

(** ** Reading *)

(** One line: nothing, a record, or a line that cannot be read. *)
Inductive parsed := Blank | Torn | Record_ (r : table).

Definition parse_line (line : string) : res parsed :=
  let line := strip line in
  if String.eqb line "" then Ok Blank
  else match json_loads line with
       | Ok (TTab r) => Ok (Record_ r)
       | Ok _ => Ok Torn
       | Raise e => if bool_decide (e = ValueError) then Ok Torn else Raise e
       end.

(** [_first_record_time] *)
Fixpoint first_time (lines : list string) (end_ : option exn) : res (option Z) :=
  match lines with
  | [] => match end_ with
          | Some e => if is_oserror e then Ok None else Raise e
          | None => Ok None
          end
  | line :: lines =>
      p ← parse_line line;
      match p with
      | Blank => first_time lines end_
      | Torn => Ok None
      | Record_ r => Ok (record_time r)
      end
  end.

Definition first_record_time (g : generation) : res (option Z) := first_time (g_lines g) (g_end g).

(** [_skip_generation] *)
Definition skip_generation (since until : option Z) (g : generation) : res bool :=
  if match since, g_mtime g with Some s, Some m => m <? s | _, _ => false end then Ok true
  else match until with
       | None => Ok false
       | Some u => first ← first_record_time g; Ok (match first with Some t => u <? t | None => false end)
       end.

Fixpoint read_lines (lines : list string) : res (list table * Z) :=
  match lines with
  | [] => Ok ([], 0)
  | line :: lines =>
      p ← parse_line line;
      '(rs, n) ← read_lines lines;
      Ok (match p with Blank => (rs, n) | Torn => (rs, n + 1) | Record_ r => (r :: rs, n) end)
  end.

(** A generation; one that ends in the middle counts with what was read of it. *)
Definition read_generation (g : generation) : res (list table * Z) :=
  r ← read_lines (g_lines g);
  match g_end g with
  | Some e => if is_oserror e || bool_decide (e = EOFError) then Ok r else Raise e
  | None => Ok r
  end.

(** [read_records] over the generations: the records, the torn lines, the files read. *)
Fixpoint read_records (gens : list generation) (since until : option Z) : res (list table * Z * list generation) :=
  match gens with
  | [] => Ok ([], 0, [])
  | g :: gens =>
      skip ← skip_generation since until g;
      if skip : bool then read_records gens since until
      else
        '(rs, n) ← read_generation g;
        '(rs', n', gs) ← read_records gens since until;
        Ok (rs ++ rs', n + n', g :: gs)
  end.

(** ** Selecting *)

(** [record.get(k) not in wanted] when there is anything wanted. *)
Definition in_filter (wanted : list string) (v : option tv) : res bool :=
  match wanted with
  | [] => Ok true
  | _ => match v with
         | Some (TStr s) => Ok (bool_decide (s ∈ wanted))
         | Some (TArr _) | Some (TTab _) => Raise TypeError
         | _ => Ok false
         end
  end.

(** [str(record.get(k) or "")] *)
Definition text_at (r : table) (k : string) : string := match assoc k r with Some v => if truthy v then py_str v else "" | None => "" end.

Definition matches_status (r : table) (wanted : list status_filter) : bool :=
  match assoc "status" r with
  | Some v => match as_int v with
              | Some n => existsb (fun w => match w with StatusExact m => n =? m | StatusClass c => n / 100 =? c end) wanted
              | None => false
              end
  | None => false
  end.

Definition in_window (r : table) (since until : option Z) : bool :=
  match since, until with
  | None, None => true
  | _, _ =>
      match record_time r with
      | None => false
      | Some t => match since with Some s => s <=? t | None => true end && match until with Some u => t <=? u | None => true end
      end
  end.

Definition unset {A} (l : list A) : bool := match l with [] => true | _ => false end.

Definition keep_record (f : filters) (r : table) : res bool :=
  a ← in_filter (f_decision f) (assoc "decision" r);
  if negb a then Ok false else
  b ← in_filter (f_mode f) (assoc "mode" r);
  if negb b then Ok false else
  c ← in_filter (f_plane f) (assoc "plane" r);
  if negb c then Ok false else
  d ← in_filter (f_reason f) (assoc "reason" r);
  if negb d then Ok false else
  Ok ((unset (f_id f) || bool_decide (lower (text_at r LOG_ID_FIELD) ∈ f_id f)) &&
      (unset (f_method f) || bool_decide (upper (text_at r "method") ∈ f_method f)) &&
      (unset (f_status f) || matches_status r (f_status f)) &&
      (unset (f_host f) || match assoc "host" r with Some (TStr h) => hostname_match h (f_host f) | _ => false end) &&
      in_window r (f_since f) (f_until f)).

Fixpoint select (f : filters) (rs : list table) : res (list table) :=
  match rs with
  | [] => Ok []
  | r :: rs => k ← keep_record f r; l ← select f rs; Ok (if k : bool then r :: l else l)
  end.

(** ** Grouping *)

Definition is_none (v : option tv) : bool := match v with None => true | Some (TOther t _ _ _) => String.eqb t "NoneType" | _ => false end.

(** The key of a connection: [None] for a record that names none; no list or table is
    a key. *)
Definition group_key (r : table) : res (option tv) :=
  match assoc LOG_ID_FIELD r with
  | Some v => if truthy v then match v with TArr _ | TTab _ => Raise TypeError | _ => Ok (Some v) end else Ok None
  | None => Ok None
  end.

(** Equality of keys; a float is equal to no integer. *)
Definition same_key (a b : tv) : bool :=
  match as_int a, as_int b with
  | Some x, Some y => x =? y
  | None, None => match a, b with
                  | TStr x, TStr y => String.eqb x y
                  | TOther t _ x _, TOther t' _ y _ => String.eqb t t' && String.eqb x y
                  | _, _ => false
                  end
  | _, _ => false
  end.

Notation group := (option tv * list table)%type.

(** [groups.setdefault(key, []).append(record)] *)
Fixpoint add_to (k : tv) (r : table) (gs : list group) : list group :=
  match gs with
  | [] => [(Some k, [r])]
  | (Some k', rs) :: gs => if same_key k' k then (Some k', rs ++ [r]) :: gs else (Some k', rs) :: add_to k r gs
  | g :: gs => g :: add_to k r gs
  end.

Fixpoint group_records (rs : list table) (gs : list group) : res (list group) :=
  match rs with
  | [] => Ok gs
  | r :: rs =>
      k ← group_key r;
      group_records rs (match k with Some v => add_to v r gs | None => gs ++ [(None, [r])] end)
  end.

(** The order of the records of a connection: the one without a request first. *)
Definition req_lt (a b : table) : res bool :=
  match is_none (assoc LOG_REQ_FIELD a), is_none (assoc LOG_REQ_FIELD b) with
  | true, true => Ok false
  | true, false => Ok true
  | false, true => Ok false
  | false, false =>
      let value r := match assoc LOG_REQ_FIELD r with Some v => if truthy v then v else TInt 0 | None => TInt 0 end in
      lt (value a) (value b)
  end.

Fixpoint insert_req (x : table) (l : list table) : res (list table) :=
  match l with
  | [] => Ok [x]
  | y :: l' => b ← req_lt y x; if b : bool then r ← insert_req x l'; Ok (y :: r) else Ok (x :: l)
  end.

(** [items.sort(key=...)] *)
Fixpoint sort_reqs (l : list table) : res (list table) :=
  match l with
  | [] => Ok []
  | x :: l => r ← sort_reqs l; insert_req x r
  end.

Definition group_by_connection (rs : list table) : res (list group) :=
  gs ← group_records rs [];
  mapM_res (fun g => items ← sort_reqs (snd g); Ok (fst g, items)) gs.

(** [group_is_partial] *)
Definition group_is_partial (items : list table) : bool :=
  let seqs := map (fun r => assoc LOG_REQ_FIELD r) items in
  if existsb is_none seqs then false
  else match omap (fun v => v ≫= as_int) seqs with
       | [] => false
       | n :: ns => negb (foldl Z.min n ns =? 1)
       end.

(** The selection [cmd_egress] reports, with at most [limit] of its last records. *)
Definition last_records (limit : Z) (l : list table) : list table :=
  if limit =? 0 then l else drop (length l - Z.to_nat limit) l.

Definition report (gens : list generation) (f : filters) (limit : Z) : res (list table * Z * bool) :=
  if limit <? 0 then Raise EgressUsage
  else
    '(rs, torn, _) ← read_records gens (f_since f) (f_until f);
    l ← select f rs;
    Ok (last_records limit l, torn, negb (limit =? 0) && (Z.to_nat limit <? length l)%nat).

(** ** Reading and selecting, generation by generation *)

Lemma select_app f a b : select f (a ++ b) = (l ← select f a; l' ← select f b; Ok (l ++ l')).
Proof.
  induction a as [|r a IH]; [cbn; by destruct (select f b)|]. cbn [app select]. rewrite IH.
  destruct (keep_record f r) as [[]|]; [| |done]; rewrite ?bind_Ok; destruct (select f a); rewrite ?bind_Ok; try done;
    destruct (select f b); by rewrite ?bind_Ok.
Qed.

Lemma keep_in_window f r : keep_record f r = Ok true -> in_window r (f_since f) (f_until f) = true.
Proof.
  unfold keep_record. intros (a & _ & H)%bind_Ok_inv. destruct a; [|done]. apply bind_Ok_inv in H as (b & _ & H). destruct b; [|done].
  apply bind_Ok_inv in H as (c & _ & H). destruct c; [|done]. apply bind_Ok_inv in H as (d & _ & H). destruct d; [|done].
  cbn [negb] in H. injection H as H. by apply andb_prop in H as [_ H].
Qed.

(** Records outside of the window are never selected. *)
Lemma select_outside f rs l :
  (forall r, r ∈ rs -> in_window r (f_since f) (f_until f) = false) -> select f rs = Ok l -> l = [].
Proof.
  revert l. induction rs as [|r rs IH]; intros l Hout; [by intros [= <-]|]. cbn [select].
  intros (k & Hk & (l' & Hl & H)%bind_Ok_inv)%bind_Ok_inv. destruct k.
  - apply keep_in_window in Hk. by rewrite Hout in Hk by by left.
  - injection H as <-. apply (IH l'); [|done]. intros r' Hr. apply Hout. by right.
Qed.

(** What the rotation keeps: no record of a file is later than the file, nor earlier
    than the file's first. *)
Definition well_kept (g : generation) : Prop :=
  forall rs n r t, read_lines (g_lines g) = Ok (rs, n) -> r ∈ rs -> record_time r = Some t ->
    (forall m, g_mtime g = Some m -> t <= m) /\ (forall t0, first_record_time g = Ok (Some t0) -> t0 <= t).

Lemma skipped_outside f g rs n :
  well_kept g -> skip_generation (f_since f) (f_until f) g = Ok true -> read_lines (g_lines g) = Ok (rs, n) ->
  forall r, r ∈ rs -> in_window r (f_since f) (f_until f) = false.
Proof.
  intros Hk Hs Hr r Hin. unfold in_window. destruct (record_time r) as [t|] eqn:Et.
  - destruct (Hk rs n r t Hr Hin Et) as [Hm Hf]. unfold skip_generation in Hs.
    destruct (f_since f) as [s|], (f_until f) as [u|]; cbn in Hs |- *.
    + destruct (g_mtime g) as [m|]; [destruct (Z.ltb_spec m s)|];
        [specialize (Hm m eq_refl); apply andb_false_intro1; lia| |];
        (apply bind_Ok_inv in Hs as ([t0|] & H0 & Hs); [|done]; apply Ok_inj in Hs; specialize (Hf t0 H0); apply andb_false_intro2; lia).
    + destruct (g_mtime g) as [m|]; [|done]. destruct (Z.ltb_spec m s); [|done]. specialize (Hm m eq_refl). apply andb_false_intro1. lia.
    + apply bind_Ok_inv in Hs as ([t0|] & H0 & Hs); [|done]. apply Ok_inj in Hs. specialize (Hf t0 H0). lia.
    + done.
  - unfold skip_generation in Hs. by destruct (f_since f), (f_until f); cbn in Hs.
Qed.

Lemma read_generation_lines g rs n : read_generation g = Ok (rs, n) -> read_lines (g_lines g) = Ok (rs, n).
Proof.
  unfold read_generation. intros ([rs1 n1] & -> & H)%bind_Ok_inv. destruct (g_end g); [destruct (_ || _); [|done]|]; exact H.
Qed.

(** A compressed file that ends in the middle, before its first record. *)
Definition cut_before_first (g : generation) : Prop :=
  g_end g = Some EOFError /\ Forall (fun line => parse_line line = Ok Blank) (g_lines g).

(** Of a file that can be read, only the time of the first record of such a one cannot. *)
Lemma first_time_raises g r e : read_generation g = Ok r -> first_record_time g = Raise e -> e = EOFError /\ cut_before_first g.
Proof.
  unfold read_generation, first_record_time, cut_before_first. intros ([rs n] & Hl & He)%bind_Ok_inv Hf.
  assert (Hb : match g_end g with Some x => is_oserror x = false /\ e = x | None => False end /\ Forall (fun line => parse_line line = Ok Blank) (g_lines g)).
  { clear He. revert rs n Hl Hf. induction (g_lines g) as [|line lines IH]; intros rs n; cbn [read_lines first_time].
    - intros _. destruct (g_end g) as [x|]; [|done]. destruct (is_oserror x) eqn:Eo; [done|]. by intros [= <-].
    - intros (p & Hp & ([rs' n'] & Hl & _)%bind_Ok_inv)%bind_Ok_inv. rewrite Hp, bind_Ok. destruct p; [|done|done].
      intros Hf. destruct (IH _ _ Hl Hf) as [H1 H2]. split; [done|by constructor]. }
  destruct Hb as [Hb Hl']. destruct (g_end g) as [x|]; [|done]. destruct Hb as [Ho ->]. rewrite Ho in He. cbn [orb] in He.
  case_bool_decide as Hx; [|done]. by subst x.
Qed.

(** A window only changes which files are read, or meets such a file. *)
Lemma read_windowed f gens rs n gs l :
  Forall well_kept gens -> read_records gens None None = Ok (rs, n, gs) -> select f rs = Ok l ->
  (exists rs' n' gs', read_records gens (f_since f) (f_until f) = Ok (rs', n', gs') /\ select f rs' = Ok l) \/
  (is_Some (f_until f) /\ (exists g, g ∈ gens /\ cut_before_first g) /\ read_records gens (f_since f) (f_until f) = Raise EOFError).
Proof.
  intros Hk. revert rs n gs l. induction Hk as [|g gens Hg Hk IH]; intros rs n gs l H Hs.
  - injection H as <- <- <-. left. by exists [], 0, [].
  - cbn [read_records] in H |- *. change (skip_generation None None g) with (Ok false) in H. rewrite bind_Ok in H.
    apply bind_Ok_inv in H as ([rs1 n1] & H1 & H). apply bind_Ok_inv in H as ([[rs2 n2] gs2] & H2 & H). injection H as <- <- <-.
    rewrite select_app in Hs. apply bind_Ok_inv in Hs as (l1 & Hl1 & Hs). apply bind_Ok_inv in Hs as (l2 & Hl2 & Hs). injection Hs as <-.
    destruct (skip_generation (f_since f) (f_until f) g) as [b|e] eqn:Hb; rewrite ?bind_Ok.
    + destruct (IH rs2 n2 gs2 l2 H2 Hl2) as [(rs' & n' & gs' & Hr & Hsel)|(Hu & (g' & Hin & Hc) & Hr)]; destruct b.
      * left. exists rs', n', gs'. split; [done|]. rewrite (select_outside f rs1 l1); [done| |done].
        eapply skipped_outside; [done|done|by apply read_generation_lines].
      * left. rewrite H1, bind_Ok, Hr, bind_Ok. do 3 eexists. split; [done|]. by rewrite select_app, Hl1, bind_Ok, Hsel.
      * right. split_and!; [done| |done]. exists g'. split; [by right|done].
      * right. split_and!; [done| |]; [exists g'; split; [by right|done]|]. by rewrite H1, bind_Ok, Hr.
    + right. unfold skip_generation in Hb. destruct (match f_since f with Some _ => _ | None => _ end); [done|]. destruct (f_until f); [|done].
      destruct (first_record_time g) as [|e'] eqn:Ef; [done|]. injection Hb as <-. destruct (first_time_raises g _ _ H1 Ef) as [-> Hc].
      split_and!; [by eexists| |done]. exists g. split; [by left|done].
Qed.

(** ** The generations *)

Lemma insert_gen_perm x l : insert_gen x l ≡ₚ x :: l.
Proof.
  induction l as [|y l IH]; [done|]. cbn [insert_gen]. destruct (_ <=? _); [done|]. rewrite IH. apply Permutation_swap.
Qed.

Lemma sort_gens_perm l : sort_gens l ≡ₚ l.
Proof. induction l as [|x l IH]; [done|]. cbn. by rewrite insert_gen_perm, IH. Qed.

Definition newer (x y : Z * generation) : Prop := fst y <= fst x.

Lemma insert_gen_sorted x l : StronglySorted newer l -> StronglySorted newer (insert_gen x l).
Proof.
  induction 1 as [|y l Hl IH Hy]; [by repeat constructor|]. cbn [insert_gen]. destruct (Z.leb_spec (fst y) (fst x)).
  - constructor; [by constructor|]. constructor; [done|]. eapply Forall_impl; [exact Hy|]. unfold newer. intros z Hz. lia.
  - constructor; [done|]. rewrite insert_gen_perm. constructor; [unfold newer; lia|done].
Qed.

Lemma sort_gens_sorted l : StronglySorted newer (sort_gens l).
Proof. induction l as [|x l IH]; [constructor|]. by apply insert_gen_sorted. Qed.

(** ** Grouping *)

(** A group is of one connection, or one record that names none. *)
Definition one_connection (g : option tv * list table) : Prop :=
  match fst g with
  | None => exists r, snd g = [r] /\ group_key r = Ok None
  | Some k => Forall (fun r => exists v, group_key r = Ok (Some v) /\ same_key k v = true) (snd g)
  end.

Lemma same_key_refl r k : group_key r = Ok (Some k) -> same_key k k = true.
Proof.
  unfold group_key. destruct (assoc LOG_ID_FIELD r) as [v|]; [|done]. destruct (truthy v); [|done].
  destruct v; try done; intros [= <-]; unfold same_key; cbn; by rewrite ?Z.eqb_refl, ?String.eqb_refl.
Qed.

Lemma add_to_perm k r gs : concat (map snd (add_to k r gs)) ≡ₚ r :: concat (map snd gs).
Proof.
  induction gs as [|[[k'|] rs] gs IH]; [done| |].
  - cbn [add_to]. destruct (same_key k' k); cbn [map concat snd].
    + rewrite <- app_assoc. symmetry. apply Permutation_middle.
    + rewrite IH. symmetry. apply Permutation_middle.
  - cbn [add_to map concat snd]. rewrite IH. symmetry. apply Permutation_middle.
Qed.

Lemma add_to_one k r gs : group_key r = Ok (Some k) -> Forall one_connection gs -> Forall one_connection (add_to k r gs).
Proof.
  intros Hr. induction 1 as [|[[k'|] rs] gs Hg Hgs IH]; cbn [add_to].
  - repeat constructor. exists k. split; [done|by eapply same_key_refl].
  - destruct (same_key k' k) eqn:E; constructor; try done. cbn. apply Forall_app. split; [done|]. repeat constructor. eauto.
  - by constructor.
Qed.

Lemma group_records_spec rs gs gs' :
  group_records rs gs = Ok gs' -> Forall one_connection gs ->
  concat (map snd gs') ≡ₚ concat (map snd gs) ++ rs /\ Forall one_connection gs'.
Proof.
  revert gs. induction rs as [|r rs IH]; intros gs; [intros [= <-]; by rewrite app_nil_r|]. cbn [group_records].
  intros (k & Hk & H)%bind_Ok_inv Hg. destruct (IH _ H) as [Hp Ho].
  - destruct k as [v|]; [by apply add_to_one|]. apply Forall_app. split; [done|]. constructor; [|done]. by exists r.
  - split; [|done]. rewrite Hp. destruct k as [v|].
    + rewrite add_to_perm. cbn. apply Permutation_middle.
    + rewrite map_app, concat_app. cbn. by rewrite <- app_assoc.
Qed.

Lemma insert_req_perm x l l' : insert_req x l = Ok l' -> l' ≡ₚ x :: l.
Proof.
  revert l'. induction l as [|y l IH]; intros l'; cbn [insert_req]; [by intros [= <-]|]. intros ([] & _ & H)%bind_Ok_inv.
  - apply bind_Ok_inv in H as (r & Hr & [= <-]). rewrite (IH r Hr). apply Permutation_swap.
  - by injection H as <-.
Qed.

Lemma sort_reqs_perm l l' : sort_reqs l = Ok l' -> l' ≡ₚ l.
Proof.
  revert l'. induction l as [|x l IH]; intros l'; cbn [sort_reqs]; [by intros [= <-]|]. intros (r & Hr & H)%bind_Ok_inv.
  by rewrite (insert_req_perm _ _ _ H), (IH r Hr).
Qed.

(** The request of a record, when it has one: these come after the record of the
    connection, in ascending order. *)
Definition req_rank (r : table) (o : option Z) : Prop :=
  match o with None => is_none (assoc LOG_REQ_FIELD r) = true | Some n => assoc LOG_REQ_FIELD r = Some (TInt n) end.

Definition in_turn (a b : table) : Prop :=
  exists x y, req_rank a x /\ req_rank b y /\ match x, y with None, _ => True | Some m, Some n => m <= n | Some _, None => False end.

Lemma req_rank_inj r x y : req_rank r x -> req_rank r y -> x = y.
Proof. destruct x, y; cbn; try done; destruct (assoc LOG_REQ_FIELD r) as [[]|]; cbn; intros H1 H2; congruence. Qed.

Lemma req_lt_rank a b x y :
  (forall m n, lt (TInt m) (TInt n) = Ok (m <? n)) -> req_rank a x -> req_rank b y ->
  req_lt a b = Ok (match x, y with None, Some _ => true | Some m, Some n => m <? n | _, None => false end).
Proof.
  intros Hlt Ha Hb. unfold req_lt. destruct x as [m|], y as [n|]; cbn in Ha, Hb; rewrite Ha, ?Hb; cbn; try done.
  destruct (Z.eqb_spec m 0), (Z.eqb_spec n 0); subst; cbn; by rewrite Hlt.
Qed.

Lemma insert_req_sorted x l l' :
  (forall m n, lt (TInt m) (TInt n) = Ok (m <? n)) -> (exists o, req_rank x o) -> Forall (fun r => exists o, req_rank r o) l ->
  StronglySorted in_turn l -> insert_req x l = Ok l' -> StronglySorted in_turn l'.
Proof.
  intros Hlt [o Ho] Hr Hs. revert l'. induction Hs as [|y l Hl IH Hy]; intros l'; cbn [insert_req]; [intros [= <-]; by repeat constructor|].
  apply Forall_cons in Hr as [[p Hp] Hr]. rewrite (req_lt_rank y x p o Hlt Hp Ho), bind_Ok.
  destruct (match p with Some _ => _ | None => _ end) eqn:E.
  - intros (r & Hi & H)%bind_Ok_inv. injection H as <-. constructor; [by apply IH|].
    rewrite (insert_req_perm _ _ _ Hi). constructor; [|done]. exists p, o. split_and!; [done|done|]. destruct p, o; try done. lia.
  - intros [= <-]. constructor; [by constructor|]. assert (Hxy : in_turn x y).
    { exists o, p. split_and!; [done|done|]. destruct p, o; try done. lia. }
    constructor; [done|]. eapply Forall_impl; [exact Hy|]. intros z (p' & q & Hp' & Hq & Hle). rewrite (req_rank_inj y p' p Hp' Hp) in Hle.
    exists o, q. split_and!; [done|done|]. destruct o, p, q; try done; lia.
Qed.

(** The records of a connection come in the order of its requests. *)
Lemma requests_in_turn l l' :
  (forall m n, lt (TInt m) (TInt n) = Ok (m <? n)) -> Forall (fun r => exists o, req_rank r o) l ->
  sort_reqs l = Ok l' -> StronglySorted in_turn l'.
Proof.
  intros Hlt Hr. revert l'. induction Hr as [|x l Hx Hl IH]; intros l'; cbn [sort_reqs]; [intros [= <-]; constructor|].
  intros (r & Hs & H)%bind_Ok_inv. eapply insert_req_sorted; [done|done| |by apply IH|exact H].
  by rewrite (sort_reqs_perm _ _ Hs).
Qed.

(** ** Theorems *)

(** C37.  When the whole record can be read and selected from, and no record of a file is later
    than the file's time or earlier than its first record, a read with --since and
    --until, which leaves files unopened, selects exactly the same records, whatever the
    other filters; except that with --until, and only if there is a compressed file
    that is cut off before its first record, it may end with an EOFError instead. *)
Theorem pruning_is_invisible f gens rs n gs l :
  Forall well_kept gens -> read_records gens None None = Ok (rs, n, gs) -> select f rs = Ok l ->
  (exists rs' n' gs', read_records gens (f_since f) (f_until f) = Ok (rs', n', gs') /\ select f rs' = Ok l) \/
  (is_Some (f_until f) /\ (exists g, g ∈ gens /\ cut_before_first g) /\ read_records gens (f_since f) (f_until f) = Raise EOFError).
Proof. apply read_windowed. Qed.

(** The files are read oldest first: every rotated file, by descending number, then the
    live one. *)
Theorem generations_oldest_first listing live live_file gs :
  generations listing live live_file = Ok gs ->
  exists r s, rotated live (default [] listing) = Ok r /\ s ≡ₚ r /\ StronglySorted newer s /\ gs = map snd s ++ option_list live_file.
Proof.
  unfold generations. intros (r & Hr & H)%bind_Ok_inv. injection H as <-. exists r, (sort_gens r).
  split_and!; [done|apply sort_gens_perm|apply sort_gens_sorted|done].
Qed.

(** Grouping neither drops nor invents a record, and no group mixes connections. *)
Theorem grouping_is_a_partition rs gs :
  group_by_connection rs = Ok gs -> concat (map snd gs) ≡ₚ rs /\ Forall one_connection gs.
Proof.
  unfold group_by_connection. intros (gs0 & H0 & H)%bind_Ok_inv. destruct (group_records_spec rs [] gs0 H0) as [Hp Ho]; [constructor|].
  apply mapM_res_Forall2 in H. rewrite <- Hp. clear Hp H0. induction H as [|[k items] g gs0 gs Hg Hgs IH]; [done|].
  apply bind_Ok_inv in Hg as (items' & Hi & [= <-]). apply sort_reqs_perm in Hi. apply Forall_cons in Ho as [Hk Ho].
  destruct (IH Ho) as [IH1 IH2]. split; [cbn; by rewrite Hi, IH1|]. constructor; [|done]. unfold one_connection in *. cbn in *.
  destruct k; [by rewrite Hi|]. destruct Hk as (r & -> & Hr). apply Permutation_singleton_r in Hi as ->. eauto.
Qed.

(** A compressed file cut off before its first record, which a plain read passes over,
    ends a read with --until. *)
Theorem cut_off_file_ends_windowed_read name mtime u :
  let g := mkGen name mtime [] (Some EOFError) in
  read_records [g] None None = Ok ([], 0, [g]) /\ read_records [g] None (Some u) = Raise EOFError.
Proof. done. Qed.

(** A file that may not be read is taken for an empty one. *)
Theorem unreadable_file_reads_as_empty name mtime f :
  f_since f = None -> f_until f = None ->
  report [mkGen name mtime [] (Some PermissionError)] f 0 = Ok ([], 0, false).
Proof. intros Hs Hu. unfold report. rewrite Hs, Hu. done. Qed.
End query.

(** ** Samples *)

Module Requests.
(** Lines are times. *)
Definition loads (s : string) : res tv := match py_int s with Some n => Ok (TTab [("ts", TStr (str_Z n)); ("id", TStr "c"); ("req", TInt n)]) | None => Raise ValueError end.

Definition iso (s : string) : option (Z * bool) := match py_int s with Some n => Some (n, true) | None => None end.

Definition gens : list generation :=
  [mkGen "requests.log.2.gz" (Some 5) ["1"; "torn"; "4"] None; mkGen "requests.log.1" (Some 9) ["5"; ""; "8"] (Some OSError); mkGen "requests.log" (Some 20) ["12"] None].

Definition window : filters := mkFilters [] [] [] [] [] [] [] [] (Some 6) (Some 10).

Definition lt (a b : tv) : res bool := match a, b with TInt m, TInt n => Ok (m <? n) | _, _ => Raise TypeError end.

Lemma kept : Forall (well_kept loads iso) gens.
Proof.
  unfold gens. rewrite !Forall_cons. split_and!; [..|by apply Forall_nil]; intros rs n r t H Hin Ht; vm_compute in H; injection H as <- <-;
    apply list_elem_of_In in Hin; cbn in Hin;
    (split; [intros m [= <-]|intros t0 H0; vm_compute in H0; injection H0 as <-]);
    repeat match goal with Hx : _ \/ _ |- _ => destruct Hx as [<-|Hx] | Hx : False |- _ => destruct Hx end;
    vm_compute in Ht; injection Ht as <-; lia.
Qed.
End Requests.

Lemma pruning_is_invisible_witness :
  exists rs n gs, read_records Requests.loads Requests.iso Requests.gens (Some 6) (Some 10) = Ok (rs, n, gs) /\
    select Requests.iso "id" (fun _ _ => true) Requests.window rs = Ok [[("ts", TStr "8"); ("id", TStr "c"); ("req", TInt 8)]].
Proof.
  destruct (pruning_is_invisible Requests.loads Requests.iso "id" (fun _ _ => true) Requests.window Requests.gens
    (match read_records Requests.loads Requests.iso Requests.gens None None with Ok (rs, _, _) => rs | _ => [] end) 1 Requests.gens
    [[("ts", TStr "8"); ("id", TStr "c"); ("req", TInt 8)]]) as [H|(_ & _ & H)].
  - exact Requests.kept.
  - vm_compute. reflexivity.
  - vm_compute. reflexivity.
  - exact H.
  - vm_compute in H. discriminate H.
Defined.

Lemma grouping_is_a_partition_witness :
  let rs := [[("id", TStr "c"); ("req", TInt 2)]; [("id", TStr "d")]; [("host", TStr "x")]; [("id", TStr "c"); ("req", TInt 1)]] in
  let gs := [(Some (TStr "c"), [[("id", TStr "c"); ("req", TInt 1)]; [("id", TStr "c"); ("req", TInt 2)]]); (Some (TStr "d"), [[("id", TStr "d")]]);
             (None, [[("host", TStr "x")]])] in
  concat (map snd gs) ≡ₚ rs /\ Forall (one_connection "id") gs.
Proof.
  apply (grouping_is_a_partition "id" "req" Requests.lt [[("id", TStr "c"); ("req", TInt 2)]; [("id", TStr "d")]; [("host", TStr "x")]; [("id", TStr "c"); ("req", TInt 1)]]).
  vm_compute. reflexivity.
Defined.

Lemma unreadable_file_reads_as_empty_witness :
  report Requests.loads Requests.iso "id" (fun _ _ => true) [mkGen "requests.log" None [] (Some PermissionError)] (mkFilters [] [] [] [] [] [] [] [] None None) 0 = Ok ([], 0, false).
Proof. by apply unreadable_file_reads_as_empty. Defined.
