(* ===== verification/Oplog.v ===== *)
(** * The operations log: [lib/oplog.py]

    One line per operation in a file beside the workload: who is recorded as its
    author, which results are recorded, where the line goes, and how it is read back.

    Parameters: JSON, the password database, the process's identity, which workloads
    have a configuration and which steps fail. *)
From S2P Require Import Prelude PyStr PyPath Toml WorkloadNames.
Local Open Scope Z_scope.

Definition OPLOG_NAME : string := "operations.log".

Definition RECORDED_RESULTS : list string :=
  ["enabled"; "already-running"; "disabled"; "started"; "stopped"; "restarted"; "recreated"; "rebooted"; "built"; "updated";
   "rolled-back"; "failed"; "created"; "duplicated"; "installed"; "edited"; "backed-up"; "restored"; "copied"].

Definition IGNORED_RESULTS : list string := ["dry-run"; "listed"; "unchanged"; "skipped"; "purged"].

Definition LOGINUID_NONE : Z := 4294967295.

(** The logs by the directory they are in, the directories there are, and the warning
    given, of which there is at most one. *)
Inductive warning := UnclassifiedResult (v : option tv) | NoSuchWorkload (name : string) | NotCreated (root : string) | NotWritten (root : string).

Record ohost := mkO { oh_logs : gmap string string; oh_roots : gset string; oh_warned : option warning }.

Definition warn_once (x : warning) (w : ohost) : ohost :=
  mkO (oh_logs w) (oh_roots w) (match oh_warned w with Some y => Some y | None => Some x end).

Section oplog.
Variable dumps : table -> string.
Variable loads : string -> res tv.
Variable getpwuid : Z -> option string.
Variable loginuid sudo_user : option string.
Variable uid : Z.
Variable has_config : string -> bool.
Variable mkdir_fault write_fault : string -> bool.
Variable ts : string.

(** ** The author *)

Definition uid_name (n : Z) : string := default (str_Z n) (getpwuid n).

Definition login_uid : option Z :=
  match loginuid with
  | Some raw => match py_int (strip raw) with Some n => if n =? LOGINUID_NONE then None else Some n | None => None end
  | None => None
  end.

Definition invoker : string * string :=
  match login_uid with
  | Some n => (uid_name n, "login")
  | None => match sudo_user with
            | Some who => if String.eqb who "" then (uid_name uid, "system") else (who, "sudo")
            | None => (uid_name uid, "system")
            end
  end.

(** ** Writing *)

Definition root_of_workload (name : string) : string := path_str (workload_root_dir name).

(** [_log_root] *)
Definition log_root (name : string) (w : ohost) : ohost * option string :=
  let r := root_of_workload name in
  if bool_decide (r ∈ oh_roots w) then (w, Some r)
  else if negb (has_config name) then (warn_once (NoSuchWorkload name) w, None)
  else if mkdir_fault r then (warn_once (NotCreated r) w, None)
  else (mkO (oh_logs w) ({[r]} ∪ oh_roots w) (oh_warned w), Some r).

(** [entry.update(row)] *)
Definition entry_of (command : tv) (ok : bool) (row : table) : table :=
  foldl (fun e kv => assoc_set (fst kv) (snd kv) e)
    [("ts", TStr ts); ("command", command); ("ok", TBool ok); ("user", TStr (fst invoker)); ("user_source", TStr (snd invoker))] row.

Definition in_results (v : option tv) (l : list string) : res bool :=
  match v with
  | Some (TStr s) => Ok (bool_decide (s ∈ l))
  | Some (TArr _) | Some (TTab _) => Raise TypeError
  | _ => Ok false
  end.

Definition append_line (r line : string) (w : ohost) : ohost :=
  if write_fault r then warn_once (NotWritten r) w
  else mkO (<[r := default "" (oh_logs w !! r) +:+ line +:+ chr LF]> (oh_logs w)) (oh_roots w) (oh_warned w).

Definition record_row (command : tv) (ok : bool) (row : table) : io ohost unit := fun w =>
  match assoc "workload" row with
  | None => (w, Ok tt)
  | Some v =>
      if negb (truthy v) then (w, Ok tt)
      else match in_results (assoc "result" row) IGNORED_RESULTS, in_results (assoc "result" row) RECORDED_RESULTS with
           | Ok true, _ => (w, Ok tt)
           | Ok false, Ok known =>
               let w := if known : bool then w else warn_once (UnclassifiedResult (assoc "result" row)) w in
               match v with
               | TStr name =>
                   match log_root name w with
                   | (w, Some r) => (append_line r (dumps (entry_of command ok row)) w, Ok tt)
                   | (w, None) => (w, Ok tt)
                   end
               | _ => (w, Raise TypeError)
               end
           | Raise e, _ | _, Raise e => (w, Raise e)
           end
  end.

Definition record (command : tv) (ok : bool) (rows : list table) : io ohost unit := for_io (record_row command ok) rows.

(** ** Reading *)

Definition read_entries (text : string) : res (list tv) :=
  ls ← mapM_res (fun line =>
         let line := strip line in
         if String.eqb line "" then Ok []
         else match loads line with Ok v => Ok [v] | Raise e => if bool_decide (e = ValueError) then Ok [] else Raise e end) (splitlines text);
  Ok (concat ls).

(** [entries[-limit:] if limit else entries] *)
Definition last_entries {A} (limit : option Z) (l : list A) : list A :=
  match limit with
  | None => l
  | Some n => if n =? 0 then l else if 0 <? n then drop (length l - Z.to_nat n) l else drop (Z.to_nat (- n)) l
  end.

Definition read (name : string) (limit : option Z) (w : ohost) : res (list tv) :=
  match oh_logs w !! root_of_workload name with
  | None => Ok []
  | Some text => es ← read_entries text; Ok (last_entries limit es)
  end.

(** ** Lines *)

(** JSON as it is written here: on one line, without blanks around it, and read back. *)
Record json_ok (e : table) : Prop := {
  dumps_line : no_break (dumps e) = true;
  dumps_strip : strip (dumps e) = dumps e;
  dumps_some : dumps e <> "";
  dumps_loads : loads (dumps e) = Ok (TTab e) }.

(** A log every line of which is ended. *)
Definition whole (text : string) : Prop := exists ls, Forall (fun l => no_break l = true) ls /\ text = join "" (map (fun l => l +:+ chr LF) ls).

Lemma join_snoc ls l : join "" (map (fun l => l +:+ chr LF) (ls ++ [l])) = join "" (map (fun l => l +:+ chr LF) ls) +:+ l +:+ chr LF.
Proof.
  induction ls as [|x ls IH]; [done|]. cbn [app map]. destruct ls as [|y ls]; [done|].
  cbn [app map join] in *. rewrite IH. by rewrite !app_assoc_str.
Qed.

Lemma whole_append text line : whole text -> no_break line = true -> whole (text +:+ line +:+ chr LF).
Proof.
  intros (ls & Hl & ->) Hn. exists (ls ++ [line]). split; [by apply Forall_app; split; [|constructor]|]. by rewrite join_snoc.
Qed.

Lemma mapM_res_app {A B} (f : A -> res B) a b : mapM_res f (a ++ b) = (x ← mapM_res f a; y ← mapM_res f b; Ok (x ++ y)).
Proof.
  induction a as [|z a IH]; cbn [app mapM_res]; [by destruct (mapM_res f b)|]. destruct (f z); [|done]. rewrite !bind_Ok, IH.
  destruct (mapM_res f a); [|done]. rewrite !bind_Ok. by destruct (mapM_res f b).
Qed.

(** A line added to a whole log is one more entry. *)
Lemma read_append text e es :
  json_ok e -> whole text -> read_entries text = Ok es -> read_entries (text +:+ dumps e +:+ chr LF) = Ok (es ++ [TTab e]).
Proof.
  intros Hj (ls & Hl & ->). unfold read_entries. rewrite <- join_snoc, !splitlines_join.
  - intros (x & Hx & [= <-])%bind_Ok_inv. rewrite mapM_res_app, Hx, bind_Ok. cbn [mapM_res].
    rewrite (dumps_strip _ Hj). destruct (String.eqb_spec (dumps e) "") as [E|_]; [by destruct (dumps_some _ Hj)|].
    rewrite (dumps_loads _ Hj), !bind_Ok. by rewrite concat_app.
  - apply Forall_app. split; [done|]. by constructor; [apply (dumps_line _ Hj)|].
  - done.
Qed.

(** ** Rows *)

(** A row as the verbs report it: a plain name and a result. *)
Definition row_ok (row : table) : Prop :=
  exists n r, assoc "workload" row = Some (TStr n) /\ has_char "/" n = false /\ is_part n = true /\ assoc "result" row = Some (TStr r).

(** Whether the row is one of the log of a workload. *)
Definition belongs (name : string) (row : table) : bool :=
  match assoc "workload" row, assoc "result" row with
  | Some (TStr n), Some (TStr r) => String.eqb n name && negb (bool_decide (r ∈ IGNORED_RESULTS))
  | _, _ => false
  end.

Lemma root_of_plain n : has_char "/" n = false -> is_part n = true -> root_of_workload n = "/var/lib/workloads/" +:+ n.
Proof. intros Hs Hp. unfold root_of_workload, workload_root_dir. by rewrite path_div_segment. Qed.

Lemma root_inj n m :
  has_char "/" n = false -> is_part n = true -> has_char "/" m = false -> is_part m = true ->
  root_of_workload n = root_of_workload m -> n = m.
Proof. intros. rewrite !root_of_plain in * by done. by eapply app_inj_l_str. Qed.

Lemma warn_logs x w : oh_logs (warn_once x w) = oh_logs w.
Proof. done. Qed.

(** One row changes the log of its workload and no other. *)
Lemma record_row_effect command ok row w n :
  row_ok row -> assoc "workload" row = Some (TStr n) ->
  (forall r, mkdir_fault r = false) -> (forall r, write_fault r = false) -> has_config n = true ->
  exists w', record_row command ok row w = (w', Ok tt) /\
    oh_logs w' = if belongs n row
                 then <[root_of_workload n := default "" (oh_logs w !! root_of_workload n) +:+ dumps (entry_of command ok row) +:+ chr LF]> (oh_logs w)
                 else oh_logs w.
Proof.
  intros (n' & r & En & Hs & Hp & Er) En' Hm Hf Hc. rewrite En in En'. injection En' as ->.
  unfold record_row, belongs. rewrite En, Er. cbn [truthy in_results]. rewrite String.eqb_refl.
  assert (Hne : String.eqb n "" = false) by (destruct n; [done|done]). rewrite Hne. cbn [negb andb].
  destruct (bool_decide (r ∈ IGNORED_RESULTS)); [by eexists|]. cbn [negb].
  set (w0 := if bool_decide (r ∈ RECORDED_RESULTS) then w else _).
  assert (E0 : oh_logs w0 = oh_logs w) by (unfold w0; by destruct (bool_decide _)). unfold log_root.
  destruct (bool_decide (_ ∈ oh_roots w0)); [|rewrite Hc, Hm; cbn [negb]]; unfold append_line; rewrite Hf; eexists; (split; [done|]); cbn; by rewrite E0.
Qed.

Notation log w n := (default "" (oh_logs w !! root_of_workload n)).

Lemma read_log name w es : whole (log w name) -> read name None w = Ok es -> read_entries (log w name) = Ok es.
Proof.
  unfold read. destruct (oh_logs w !! root_of_workload name) as [text|]; [|by intros _ [= <-]]. intros _ (x & Hx & [= <-])%bind_Ok_inv. exact Hx.
Qed.

Lemma log_read name w es : read_entries (log w name) = Ok es -> read name None w = Ok es.
Proof.
  unfold read. destruct (oh_logs w !! root_of_workload name) as [text|]; intros H; [|exact H].
  change (read_entries text = Ok es) in H. by rewrite H.
Qed.

(** The operations reported about a workload are the next entries of its log, one each
    and in order; those that changed nothing and those of other workloads are not. *)
Theorem operations_are_read_back command ok rows name w es :
  Forall (fun row => row_ok row /\ json_ok (entry_of command ok row)) rows ->
  (forall r, mkdir_fault r = false) -> (forall r, write_fault r = false) -> (forall n, has_config n = true) -> has_char "/" name = false -> is_part name = true -> whole (log w name) -> read name None w = Ok es ->
  exists w', record command ok rows w = (w', Ok tt) /\
    read name None w' = Ok (es ++ map (fun row => TTab (entry_of command ok row)) (List.filter (belongs name) rows)).
Proof.
  intros Hr Hm Hf Hc Hs Hp Hw He. apply read_log in He; [|done]. revert w es Hw He.
  induction Hr as [|row rows [Hrow Hj] Hrows IH]; intros w es Hw He.
  { exists w. split; [done|]. cbn. rewrite app_nil_r. by apply log_read. }
  destruct Hrow as (n & r & En & Hns & Hnp & Er).
  destruct (record_row_effect command ok row w n) as (w1 & E1 & Hl); [by exists n, r|done..|].
  assert (Hb : belongs name row = (String.eqb n name && belongs n row)).
  { unfold belongs. rewrite En, Er, String.eqb_refl. done. }
  unfold record. cbn [for_io]. cbv [mbind io_bind]. rewrite E1. cbn [List.filter]. rewrite Hb.
  destruct (String.eqb_spec n name) as [->|Hne]; cbn [andb].
  - destruct (belongs name row).
    + destruct (IH w1 (es ++ [TTab (entry_of command ok row)])) as (w' & Ew & Hread).
      * rewrite Hl, lookup_insert_eq. cbn. by apply whole_append; [|apply (dumps_line _ Hj)].
      * rewrite Hl, lookup_insert_eq. cbn. by apply read_append.
      * exists w'. split; [done|]. by rewrite Hread, <- app_assoc.
    + apply IH; by rewrite Hl.
  - assert (Hk : log w1 name = log w name).
    { rewrite Hl. destruct (belongs n row); [|done]. rewrite lookup_insert_ne; [done|]. intros E. by apply Hne, root_inj. }
    apply IH; by rewrite Hk.
Qed.

(** An entry written after a line that was cut off is on that line, and is not read. *)
Theorem entry_after_a_torn_line_is_lost command ok row name w torn :
  json_ok (entry_of command ok row) -> (forall r, mkdir_fault r = false) -> (forall r, write_fault r = false) -> has_config name = true ->
  row_ok row -> belongs name row = true -> no_break torn = true -> oh_logs w !! root_of_workload name = Some torn ->
  strip (torn +:+ dumps (entry_of command ok row)) <> "" ->
  loads (strip (torn +:+ dumps (entry_of command ok row))) = Raise ValueError ->
  exists w', record command ok [row] w = (w', Ok tt) /\ read name None w' = Ok [].
Proof.
  intros Hj Hm Hf Hc Hrow Hb Ht Hl Hne Hx. assert (En : assoc "workload" row = Some (TStr name)).
  { unfold belongs in Hb. destruct (assoc "workload" row) as [[n| | | | |]|]; try done. destruct (assoc "result" row) as [[]|]; try done.
    apply andb_prop in Hb as [Hb _]. by apply String.eqb_eq in Hb as ->. }
  destruct (record_row_effect command ok row w name Hrow En Hm Hf Hc) as (w1 & E1 & H1). rewrite Hb, Hl in H1. cbn [default from_option] in H1.
  exists w1. split; [unfold record; cbn [for_io]; cbv [mbind io_bind]; by rewrite E1|].
  apply log_read. rewrite H1, lookup_insert_eq. cbn [default from_option]. unfold id, read_entries. rewrite <- app_assoc_str.
  set (l := torn +:+ dumps (entry_of command ok row)). change (l +:+ chr LF) with (join "" (map (fun l => l +:+ chr LF) [l])).
  rewrite splitlines_join.
  - cbn [mapM_res]. fold l in Hne, Hx. destruct (String.eqb_spec (strip l) ""); [done|]. rewrite Hx. done.
  - constructor; [|done]. unfold l, no_break. rewrite all_chars_app. apply andb_true_intro. split; [exact Ht|apply (dumps_line _ Hj)].
Qed.

(** The login session is the author before the environment is asked, and no name is
    taken from an environment that has none. *)
Lemma invoker_source :
  match snd invoker with
  | "login" => is_Some login_uid
  | "sudo" => login_uid = None /\ sudo_user = Some (fst invoker) /\ fst invoker <> ""
  | _ => login_uid = None /\ fst invoker = uid_name uid
  end.
Proof.
  unfold invoker. destruct login_uid as [n|]; [by eexists|]. destruct sudo_user as [who|]; [|done].
  destruct (String.eqb_spec who ""); [done|]. by split_and!.
Qed.
End oplog.

(** ** Samples *)

Module Operations.
Definition row : table := [("workload", TStr "web"); ("result", TStr "updated")].

Definition other : table := [("workload", TStr "db"); ("result", TStr "unchanged")].

Definition line : string := "{updated}".

Definition entry : table := entry_of (fun _ => Some "ben") (Some "1000") None 0 "t" (TStr "update") true row.

Definition other_entry : table := entry_of (fun _ => Some "ben") (Some "1000") None 0 "t" (TStr "update") true other.

Definition loads (s : string) : res tv := if String.eqb s line then Ok (TTab entry) else if String.eqb s "{}" then Ok (TTab other_entry) else Raise ValueError.

Definition dumps (e : table) : string := if match assoc "workload" e with Some (TStr n) => String.eqb n "web" | _ => false end then line else "{}".

Definition host (log : string) : ohost := mkO {["/var/lib/workloads/web" := log]} {["/var/lib/workloads/web"]} None.
End Operations.

Lemma operations_are_read_back_witness :
  exists w', record Operations.dumps (fun _ => Some "ben") (Some "1000") None 0 (fun _ => true) (fun _ => false) (fun _ => false) "t" (TStr "update") true
      [Operations.other; Operations.row] (Operations.host "") = (w', Ok tt) /\
    read Operations.loads "web" None w' = Ok [TTab Operations.entry].
Proof.
  apply (operations_are_read_back Operations.dumps Operations.loads (fun _ => Some "ben") (Some "1000") None 0 (fun _ => true) (fun _ => false) (fun _ => false) "t"
    (TStr "update") true [Operations.other; Operations.row] "web" (Operations.host "") []).
  - constructor; [|constructor; [|constructor]].
    + split; [by exists "db", "unchanged"|]. by split.
    + split; [by exists "web", "updated"|]. by split.
  - done.
  - done.
  - done.
  - done.
  - done.
  - by exists [].
  - reflexivity.
Defined.

Lemma entry_after_a_torn_line_is_lost_witness :
  exists w', record Operations.dumps (fun _ => Some "ben") (Some "1000") None 0 (fun _ => true) (fun _ => false) (fun _ => false) "t" (TStr "update") true
      [Operations.row] (Operations.host "{upda") = (w', Ok tt) /\
    read Operations.loads "web" None w' = Ok [].
Proof.
  apply (entry_after_a_torn_line_is_lost Operations.dumps Operations.loads (fun _ => Some "ben") (Some "1000") None 0 (fun _ => true) (fun _ => false) (fun _ => false) "t"
    (TStr "update") true Operations.row "web" (Operations.host "{upda") "{upda").
  - by split.
  - done.
  - done.
  - done.
  - by exists "web", "updated".
  - reflexivity.
  - reflexivity.
  - vm_compute. reflexivity.
  - done.
  - reflexivity.
Defined.
