(* ===== verification/Update.v ===== *)
(** * Updates: [lib/cmd_update.py] and the images of [lib/substrate_container.py]

    Updating a container workload: pull or transfer each image, keep the one it had
    under a tag of its own, restart, look at the health of the containers and, when
    they are not well, put the kept images back and restart again.  With it the rollback
    on request, the snapshots of a pet and the verb over all workloads.

    A restart runs each container as its unit does: [podman run --pull=<policy>], which
    takes the image the reference has in the workload's store or, by the policy, what the
    registry serves; a pet keeps the container it has until that is removed
    ([ExecStartPre=-podman create]).

    Parameters: what [podman run] runs under a policy ([pull_rules]), what a registry and root's store hold, which calls fail, the health
    podman reports at each look, which units are active.  The store answers at once: the
    retries for a store that is still coming up, the waits and the temporary file of a
    transfer are not modelled; the retries of a restart are in [Backup]. *)
From S2P Require Import Prelude PyStr Toml Seccomp.
Local Open Scope Z_scope.

(** ** The world of one workload *)

(** Image references with the id they have, the container of a pet with the image it
    was made from, the image each container runs, and the tags of the snapshots. *)
Record uhost := mkU {
  us_store : gmap string string; us_pet : option string; us_running : gmap string string; us_snaps : list string }.

(** The calls that may fail. *)
Inductive ucall := CInspect (ref : string) | CTag (dst : string) | CPull (ref : string) | CTransfer (ref : string) | CRestart
  | CCommit | CListSnaps | CRemoveSnap (tag : string) | CRemovePet.

(** A workload: its name, whether it has a [containers] list, its lifecycle, how many
    snapshots it keeps, and its containers with their images and pull policies. *)
Record wl := mkWl {
  u_name : string; u_multi : bool; u_pet : bool; u_keep : Z; u_specs : list (string * string * string);
  (** The containers with a health check: local name, podman's name, the block. *)
  u_health : list (string * string * table); u_units : list string }.

Definition set_store (s : gmap string string) (w : uhost) : uhost := mkU s (us_pet w) (us_running w) (us_snaps w).

Definition set_pet (p : option string) (w : uhost) : uhost := mkU (us_store w) p (us_running w) (us_snaps w).

Definition set_snaps (l : list string) (w : uhost) : uhost := mkU (us_store w) (us_pet w) (us_running w) l.

Definition ulook {A} (f : uhost -> A) : io uhost A := fun w => (w, Ok (f w)).

Definition uchange (f : uhost -> uhost) : io uhost unit := fun w => (f w, Ok tt).

(** [container_image]: of the first container with that name. *)
Definition image_of (c : wl) (n : string) : res string :=
  match List.find (fun s => String.eqb (fst (fst s)) n) (u_specs c) with Some s => Ok (snd (fst s)) | None => Raise KeyError end.

Definition container_images (c : wl) : res (list (string * string)) :=
  mapM_res (fun s => i ← image_of c (fst (fst s)); Ok (fst (fst s), i)) (u_specs c).

(** [rollback_tag] *)
Definition rollback_tag (name : string) (container : option string) : string :=
  "localhost/workload-rollback/" +:+ name +:+ match container with Some c => if String.eqb c "" then "" else "-" +:+ c | None => "" end +:+ ":latest".

Definition tag_of (c : wl) (n : string) : string := rollback_tag (u_name c) (if u_multi c then Some n else None).

(** What the documentation of the schema says of the policies: [missing] and [never] use
    the image the store has, [newer] and [always] pull again on every start, and get what
    the registry serves. *)
Record pull_rules (registry : string -> option string) (resolve : string -> string -> uhost -> option string) : Prop := {
  pulls_missing pull image w id : pull = "missing" \/ pull = "never" -> us_store w !! image = Some id -> resolve pull image w = Some id;
  pulls_again pull image w id : pull = "newer" \/ pull = "always" -> registry image = Some id -> resolve pull image w = Some id }.

Section update.
(** The image [podman run --pull=<policy>] runs for a reference. *)
Variable resolve : string -> string -> uhost -> option string.
Variable registry root_store : string -> option string.
Variable is_buildable : string -> string -> bool.
Variable fault : ucall -> option exn.
(** Whether a command whose exit status is looked at, or ignored, succeeds. *)
Variable exit_ok : ucall -> bool.
Variable user_exists : bool.
(** The health of a container at the [n]-th look, and whether a unit is active. *)
Variable health : nat -> string -> option string.
Variable unit_active : string -> bool.
Variable timestamp : string.

Definition call (x : ucall) : io uhost unit := pure (match fault x with Some e => Raise e | None => Ok tt end).

(** ** Podman *)

(** [image_id]: empty for a reference the store does not have. *)
Definition image_id (ref : string) : io uhost string :=
  _ ← call (CInspect ref); ulook (fun w => default "" (us_store w !! ref)).

(** [tag] of an id, and of what a reference has. *)
Definition tag_id (id dst : string) : io uhost unit := _ ← call (CTag dst); uchange (fun w => set_store (<[dst := id]> (us_store w)) w).

Definition tag_ref (src dst : string) : io uhost unit :=
  _ ← call (CTag dst);
  o ← ulook (fun w => us_store w !! src);
  match o with Some id => uchange (fun w => set_store (<[dst := id]> (us_store w)) w) | None => pure (Raise PodmanError) end.

Definition pull_image (ref : string) : io uhost unit :=
  _ ← call (CPull ref);
  match registry ref with
  | Some id => uchange (fun w => set_store (<[ref := id]> (us_store w)) w)
  | None => pure (Raise PodmanError)
  end.

(** ** The service *)

Definition start_one (pet : bool) (w : uhost) (s : string * string * string) : uhost :=
  let '(n, image, pull) := s in
  match (if pet then us_pet w else None) with
  | Some id => mkU (us_store w) (us_pet w) (<[n := id]> (us_running w)) (us_snaps w)
  | None =>
      match resolve pull image w with
      | Some id => mkU (<[image := id]> (us_store w)) (if pet then Some id else us_pet w) (<[n := id]> (us_running w)) (us_snaps w)
      | None => mkU (us_store w) (us_pet w) (delete n (us_running w)) (us_snaps w)
      end
  end.

Definition started (c : wl) (w : uhost) : uhost := foldl (start_one (u_pet c && negb (u_multi c))) w (u_specs c).

(** [restart_workload_service] *)
Definition restart_service (c : wl) : io uhost unit := _ ← call CRestart; uchange (started c).

(** [_restart_or_fail] *)
Definition restart_or_fail (c : wl) : io uhost unit :=
  try_io (restart_service c) (fun e => bool_decide (e = CalledProcessError)) (fun _ => pure (Raise ProvisionFailed)).

(** ** Snapshots of a pet *)

(** [snapshot_keep], of the value in the [workload] table. *)
Definition snapshot_keep (v : option tv) : Z := match v with Some (TInt k) => if k <? 1 then 3 else k | _ => 3 end.

(** [tags[:-keep] if len(tags) > keep else []], for the [keep] of [snapshot_keep]. *)
Definition stale_tags (keep : Z) (tags : list string) : list string :=
  if keep <? Z.of_nat (length tags) then take (length tags - Z.to_nat keep) tags else [].

(** An image that cannot be removed stays, and the next is tried. *)
Definition prune_pet_snapshots (keep : Z) : io uhost unit :=
  try_io
    (_ ← call CListSnaps;
     if negb (exit_ok CListSnaps) then mret tt
     else
       tags ← ulook (fun w => py_sorted (us_snaps w));
       for_io (fun t => _ ← call (CRemoveSnap t);
                        if exit_ok (CRemoveSnap t) then uchange (fun w => set_snaps (filter (fun u => u <> t) (us_snaps w)) w) else mret tt)
         (stale_tags keep tags))
    (fun _ => true) (fun _ => mret tt).

(** [podman commit] under a tag the repository has already moves it. *)
Definition pet_snapshot_and_remove (keep : Z) : io uhost unit :=
  committed ← try_io (_ ← call CCommit;
                      _ ← uchange (fun w => set_snaps (filter (fun u => u <> timestamp) (us_snaps w) ++ [timestamp]) w); mret true)
                (fun _ => true) (fun _ => mret false);
  _ ← (if committed : bool then prune_pet_snapshots keep else mret tt);
  _ ← call CRemovePet;
  if exit_ok CRemovePet then uchange (set_pet None) else mret tt.

(** ** [transfer_one_image] *)

Definition transfer_one_image (n image pull : string) : io uhost bool :=
  if negb (is_buildable n pull) then mret false
  else
    user_id ← image_id image;
    match root_store image with
    | None => if String.eqb user_id "" && String.eqb pull "never" then pure (Raise ImageTransferError) else mret false
    | Some root_id =>
        if String.eqb root_id user_id then mret true
        else _ ← call (CTransfer image); _ ← uchange (fun w => set_store (<[image := root_id]> (us_store w)) w); mret true
    end.

(** ** [reprovision] *)

Definition only {A} (e : exn) (e' : exn) (m : io uhost A) : io uhost A := try_io m (fun x => bool_decide (x = e)) (fun _ => pure (Raise e')).

(** One container: the id its image had, and whether that changed. *)
Definition fetch_one (s : string * string * string) : io uhost (string * bool) :=
  let '(n, image, pull) := s in
  old_id ← image_id image;
  handled ← only ImageTransferError ProvisionFailed (transfer_one_image n image pull);
  if negb handled && String.eqb pull "never" then mret (old_id, false)
  else
    _ ← (if handled : bool then mret tt else only PodmanError ProvisionFailed (pull_image image));
    new_id ← image_id image;
    mret (old_id, negb (String.eqb old_id new_id)).

Fixpoint fetch_all (specs : list (string * string * string)) (old_ids : list (string * string)) (changed : bool)
    : io uhost (list (string * string) * bool) :=
  match specs with
  | [] => mret (old_ids, changed)
  | s :: specs => '(old_id, ch) ← fetch_one s; fetch_all specs (assoc_set (fst (fst s)) old_id old_ids) (changed || ch)
  end.

Definition keep_old (c : wl) (old_ids : list (string * string)) : io uhost unit :=
  for_io (fun s => match assoc (fst (fst s)) old_ids with
                   | Some id => if String.eqb id "" then mret tt else tag_id id (tag_of c (fst (fst s)))
                   | None => mret tt
                   end) (u_specs c).

(** The old ids when something was restarted, for the verification. *)
Definition reprovision (c : wl) (force recreate : bool) : io uhost (option (list (string * string))) :=
  let pet := u_pet c && negb (u_multi c) in
  if recreate then
    _ ← (if pet && user_exists then pet_snapshot_and_remove (u_keep c) else mret tt);
    _ ← restart_or_fail c; mret None
  else if forallb (fun s => String.eqb (snd s) "never") (u_specs c) then pure (Raise NotApplicable)
  else if negb user_exists then mret None
  else
    '(old_ids, changed) ← fetch_all (u_specs c) [] false;
    if negb changed && negb force then mret None
    else
      _ ← keep_old c old_ids;
      _ ← (if pet then pet_snapshot_and_remove (u_keep c) else mret tt);
      _ ← restart_or_fail c;
      mret (Some old_ids).

(** ** Rolling back *)

(** [_do_rollback] *)
Definition do_rollback (c : wl) : io uhost unit :=
  images ← pure (container_images c);
  _ ← for_io (fun ci => t ← image_id (tag_of c (fst ci)); if String.eqb t "" then mret tt else tag_ref (tag_of c (fst ci)) (snd ci)) images;
  restart_service c.

(** [rollback_targets]: the containers with a kept image. *)
Fixpoint rollback_targets (c : wl) (l : list (string * string)) : io uhost (list (string * string)) :=
  match l with
  | [] => mret []
  | ci :: l =>
      t ← image_id (tag_of c (fst ci));
      if String.eqb t "" then rollback_targets c l
      else _ ← image_id (snd ci); r ← rollback_targets c l; mret (ci :: r)
  end.

(** [_has_any_rollback_tag] *)
Fixpoint has_any_rollback_tag (c : wl) (l : list (string * string)) : io uhost bool :=
  match l with
  | [] => mret false
  | ci :: l => t ← image_id (tag_of c (fst ci)); if String.eqb t "" then has_any_rollback_tag c l else mret true
  end.

(** [ContainerSubstrate.rollback]: whether it restarted the service. *)
Definition rollback (c : wl) : io uhost bool :=
  images ← pure (container_images c);
  targets ← rollback_targets c images;
  any ← match targets with [] => has_any_rollback_tag c images | _ => mret true end;
  if negb any then pure (Raise LifecycleError)
  else match targets with
       | [] => mret false
       | _ =>
           _ ← for_io (fun ci => only PodmanError LifecycleError (tag_ref (tag_of c (fst ci)) (snd ci))) targets;
           _ ← restart_service c; mret true
       end.

(** ** Verification *)

(** [_parse_duration] *)
Definition parse_duration (v : tv) : res Z :=
  match v with
  | TStr s =>
      let s := strip s in
      let n k := i ← int_res (str_take (String.length s - 1) s); Ok (i * k) in
      if ends_with_char "s" s then n 1 else if ends_with_char "m" s then n 60 else if ends_with_char "h" s then n 3600 else int_res s
  | _ => Raise AttributeError
  end.

(** [_health_wait_seconds] *)
Definition health_wait_seconds (c : wl) : res Z :=
  waits ← mapM_res (fun h => a ← parse_duration (default (TStr "0s") (assoc "start_period" (snd h)));
                             b ← parse_duration (default (TStr "30s") (assoc "interval" (snd h))); Ok (a + b)) (u_health c);
  Ok (match waits with [] => 0 | n :: ns => foldl Z.max n ns end).

(** [time.sleep] *)
Definition sleep_res (n : Z) : res unit := if n <? 0 then Raise ValueError else Ok tt.

Inductive verdict := Healthy | Active | Unhealthy | Crashed.

Definition statuses (n : nat) (c : wl) : list (string * string) := map (fun h => (fst (fst h), default "" (health n (snd (fst h))))) (u_health c).

Definition all_healthy (l : list (string * string)) : bool := forallb (fun s => String.eqb (snd s) "healthy") l.

(** One updated workload: its verdict and whether it was rolled back. *)
Definition verify_one (c : wl) (old_ids : list (string * string)) : io uhost (verdict * bool) :=
  let have_old := existsb (fun p => negb (String.eqb (snd p) "")) old_ids in
  match u_health c with
  | [] =>
      if forallb unit_active (u_units c) then mret (Active, false)
      else if have_old then _ ← do_rollback c; mret (Crashed, true)
      else mret (Crashed, false)
  | _ =>
      let first := statuses 0 c in
      if all_healthy first then mret (Healthy, false)
      else if existsb (fun s => String.eqb (snd s) "starting") first && have_old then
        _ ← pure (ds ← mapM_res (fun h => parse_duration (default (TStr "30s") (assoc "interval" (snd h))))
                         (List.filter (fun h => String.eqb (default "" (health 0 (snd (fst h)))) "starting") (u_health c));
                  sleep_res (foldl Z.max (default 0 (head ds)) ds));
        if all_healthy (statuses 1 c) then mret (Healthy, false)
        else _ ← do_rollback c; mret (Unhealthy, true)
      else if have_old then _ ← do_rollback c; mret (Unhealthy, true)
      else mret (Unhealthy, false)
  end.

(** ** Effects on the store *)

(** Only the references of a list may change. *)
Definition store_off (refs : list string) (w w' : uhost) : Prop := forall r, r ∉ refs -> us_store w' !! r = us_store w !! r.

Lemma store_off_trans refs w1 w2 w3 : store_off refs w1 w2 -> store_off refs w2 w3 -> store_off refs w1 w3.
Proof. intros H1 H2 r Hr. by rewrite H2, H1. Qed.

Lemma store_off_sub refs refs' w w' : (forall r, r ∈ refs -> r ∈ refs') -> store_off refs w w' -> store_off refs' w w'.
Proof. intros Hs H r Hr. apply H. intros Hin. by apply Hr, Hs. Qed.

Lemma call_Ok x w w' : call x w = (w', Ok tt) -> w' = w.
Proof. unfold call, pure. by destruct (fault x); intros [= ?]. Qed.

Lemma image_id_Ok r w w' x : image_id r w = (w', Ok x) -> w' = w /\ x = default "" (us_store w !! r).
Proof. unfold image_id. intros (w1 & [] & ->%call_Ok & H)%io_bind_Ok. by injection H as <- <-. Qed.

Lemma tag_id_Ok id dst w w' : tag_id id dst w = (w', Ok tt) -> w' = set_store (<[dst := id]> (us_store w)) w.
Proof. unfold tag_id. intros (w1 & [] & ->%call_Ok & H)%io_bind_Ok. by injection H as <-. Qed.

Lemma tag_ref_Ok src dst id w w' :
  us_store w !! src = Some id -> tag_ref src dst w = (w', Ok tt) -> w' = set_store (<[dst := id]> (us_store w)) w.
Proof.
  intros Hs. unfold tag_ref. intros (w1 & [] & ->%call_Ok & H)%io_bind_Ok. apply io_bind_Ok in H as (w2 & o & H2 & H). injection H2 as <- <-.
  rewrite Hs in H. by injection H as <-.
Qed.

Lemma set_store_off r id w refs : r ∈ refs -> store_off refs w (set_store (<[r := id]> (us_store w)) w).
Proof. intros Hr q Hq. cbn. apply lookup_insert_ne. by intros <-. Qed.

Lemma only_Ok {A} e e' (m : io uhost A) w w' a : only e e' m w = (w', Ok a) -> m w = (w', Ok a).
Proof. unfold only, try_io. destruct (m w) as [w1 [b|x]]; [done|]. by destruct (bool_decide _). Qed.

Lemma transfer_off n image pull w w' b : transfer_one_image n image pull w = (w', Ok b) -> store_off [image] w w'.
Proof.
  unfold transfer_one_image. destruct (negb _); [by intros [= <- _] r|]. intros (w1 & uid & [-> _]%image_id_Ok & H)%io_bind_Ok.
  destruct (root_store image) as [rid|]; [|destruct (_ && _); by injection H as <- _].
  destruct (String.eqb rid uid); [by injection H as <- _|]. apply io_bind_Ok in H as (w2 & [] & ->%call_Ok & H).
  apply io_bind_Ok in H as (w3 & [] & H3 & H). injection H3 as <-. injection H as <- _. apply set_store_off. by left.
Qed.

Lemma pull_off ref w w' : pull_image ref w = (w', Ok tt) -> store_off [ref] w w'.
Proof.
  unfold pull_image. intros (w1 & [] & ->%call_Ok & H)%io_bind_Ok. destruct (registry ref); [|done]. injection H as <-.
  apply set_store_off. by left.
Qed.

(** Fetching an image changes no other, and gives the id it had. *)
Lemma fetch_one_Ok n image pull w w' old ch :
  fetch_one (n, image, pull) w = (w', Ok (old, ch)) -> old = default "" (us_store w !! image) /\ store_off [image] w w'.
Proof.
  unfold fetch_one. intros (w1 & o & [-> ->]%image_id_Ok & H)%io_bind_Ok. apply io_bind_Ok in H as (w2 & handled & H2%only_Ok%transfer_off & H).
  destruct (negb handled && _) eqn:E; [by injection H as <- <- _|]. apply io_bind_Ok in H as (w3 & [] & H3 & H).
  apply io_bind_Ok in H as (w4 & new & [-> _]%image_id_Ok & H). injection H as <- <- _. split; [done|].
  destruct handled; [by injection H3 as <-|]. eapply store_off_trans; [exact H2|]. by apply pull_off, (only_Ok _ _ _ _ _ _ H3).
Qed.

Notation names specs := (map (fun s : string * string * string => fst (fst s)) specs).
Notation images specs := (map (fun s : string * string * string => snd (fst s)) specs).

Lemma fetch_all_Ok specs ids0 ch0 w w' ids ch :
  NoDup (names specs) -> NoDup (images specs) -> fetch_all specs ids0 ch0 w = (w', Ok (ids, ch)) ->
  (forall n, n ∉ names specs -> assoc n ids = assoc n ids0) /\
  (forall s, s ∈ specs -> assoc (fst (fst s)) ids = Some (default "" (us_store w !! snd (fst s)))) /\ store_off (images specs) w w'.
Proof.
  revert ids0 ch0 w. induction specs as [|[[n i] p] specs IH]; intros ids0 ch0 w Hn Hi; cbn [fetch_all].
  { intros [= <- <- <-]. split_and!; [done|by intros s ?%elem_of_nil|by intros r]. }
  cbn [map fst snd] in Hn, Hi. apply NoDup_cons in Hn as [Hn1 Hn], Hi as [Hi1 Hi].
  intros (w1 & [old c1] & [-> H1]%fetch_one_Ok & H)%io_bind_Ok. cbn [fst snd] in H. destruct (IH _ _ _ Hn Hi H) as (Ha & Hs & Ho). split_and!.
  - cbn [map fst]. intros m Hm. rewrite Ha by set_solver. apply assoc_set_other. set_solver.
  - intros s [->|Hin]%elem_of_cons; cbn [fst snd].
    + rewrite Ha by done. apply assoc_set_same.
    + rewrite (Hs s Hin), H1; [done|]. intros Heq%list_elem_of_singleton. apply Hi1. rewrite <- Heq. apply list_elem_of_fmap. eauto.
  - cbn [map snd fst]. eapply store_off_trans; [eapply store_off_sub; [|exact H1]|eapply store_off_sub; [|exact Ho]]; set_solver.
Qed.

(** ** The kept images *)

Definition tags (c : wl) : list string := map (fun s => tag_of c (fst (fst s))) (u_specs c).

(** Tagging a list of containers with the ids they had. *)
Lemma keep_specs c ids specs w w' :
  NoDup (map (fun s => tag_of c (fst (fst s))) specs) ->
  (forall s, s ∈ specs -> exists id, assoc (fst (fst s)) ids = Some id /\ id <> "") ->
  for_io (fun s : string * string * string => match assoc (fst (fst s)) ids with
                   | Some id => if String.eqb id "" then mret tt else tag_id id (tag_of c (fst (fst s)))
                   | None => mret tt
                   end) specs w = (w', Ok tt) ->
  (forall s, s ∈ specs -> us_store w' !! tag_of c (fst (fst s)) = assoc (fst (fst s)) ids) /\
  store_off (map (fun s => tag_of c (fst (fst s))) specs) w w'.
Proof.
  revert w. induction specs as [|s specs IH]; intros w Hnd Hids; cbn [for_io].
  { intros [= <-]. split; [by intros s ?%elem_of_nil|by intros r]. }
  cbn [map] in Hnd. apply NoDup_cons in Hnd as [Hs Hnd]. destruct (Hids s) as (id & Ea & Hne); [by left|]. rewrite Ea.
  destruct (String.eqb_spec id "") as [|_]; [done|]. intros (w1 & [] & H1%tag_id_Ok & H)%io_bind_Ok.
  destruct (IH w1 Hnd) as [Ht Ho]; [intros t Ht; apply Hids; by right|done|]. split.
  - intros t [->|Hin]%elem_of_cons; [|by apply Ht]. rewrite (Ho _ Hs), Ea, H1. apply lookup_insert_eq.
  - cbn [map]. eapply store_off_trans; [|eapply store_off_sub; [|exact Ho]; set_solver]. rewrite H1. apply set_store_off. by left.
Qed.

(** Putting the kept images back. *)
Lemma untag_specs c (l : list (string * string)) w w' :
  NoDup (map snd l) -> (forall ci, ci ∈ l -> exists id, us_store w !! tag_of c (fst ci) = Some id /\ id <> "") ->
  (forall ci cj, ci ∈ l -> cj ∈ l -> tag_of c (fst ci) <> snd cj) ->
  for_io (fun ci => t ← image_id (tag_of c (fst ci)); if String.eqb t "" then mret tt else tag_ref (tag_of c (fst ci)) (snd ci)) l w = (w', Ok tt) ->
  (forall ci, ci ∈ l -> us_store w' !! snd ci = us_store w !! tag_of c (fst ci)) /\ store_off (map snd l) w w'.
Proof.
  revert w. induction l as [|ci l IH]; intros w Hnd Hids Hdis; cbn [for_io].
  { intros [= <-]. split; [by intros s ?%elem_of_nil|by intros r]. }
  cbn [map] in Hnd. apply NoDup_cons in Hnd as [Hs Hnd]. destruct (Hids ci) as (v & Ea & Hne); [by left|].
  intros (w1 & [] & H1 & H)%io_bind_Ok. apply io_bind_Ok in H1 as (w2 & t & [-> ->]%image_id_Ok & H1). rewrite Ea in H1. cbn in H1. unfold id in H1.
  destruct (String.eqb_spec v "") as [|_]; [done|]. apply (tag_ref_Ok _ _ _ _ _ Ea) in H1.
  assert (Hk : forall cj, cj ∈ l -> us_store w1 !! tag_of c (fst cj) = us_store w !! tag_of c (fst cj)).
  { intros cj Hj. rewrite H1. cbn. apply lookup_insert_ne. intros E. apply (Hdis cj ci); [by right|by left|done]. }
  destruct (IH w1 Hnd) as [Ht Ho].
  - intros cj Hj. rewrite (Hk cj Hj). apply Hids. by right.
  - intros cj ck Hj Hk'. apply Hdis; by right.
  - done.
  - split.
    + intros cj [->|Hj]%elem_of_cons; [|by rewrite (Ht cj Hj), Hk]. rewrite (Ho _ Hs), Ea, H1. apply lookup_insert_eq.
    + cbn [map]. eapply store_off_trans; [|eapply store_off_sub; [|exact Ho]; set_solver]. rewrite H1. apply set_store_off. by left.
Qed.

(** ** Restarting *)

(** The policy takes the image from the store when the store has it. *)
Definition local_policy (s : string * string * string) : Prop := snd s = "missing" \/ snd s = "never".

Hypothesis rules : pull_rules registry resolve.

Lemma resolve_local s w id : local_policy s -> us_store w !! snd (fst s) = Some id -> resolve (snd s) (snd (fst s)) w = Some id.
Proof. intros H. by apply rules. Qed.

(** Containers that are not a pet's and are started from the store run what their
    references have. *)
Lemma start_local specs w :
  NoDup (names specs) -> (forall s, s ∈ specs -> local_policy s /\ is_Some (us_store w !! snd (fst s))) ->
  us_store (foldl (start_one false) w specs) = us_store w /\
  (forall n, n ∉ names specs -> us_running (foldl (start_one false) w specs) !! n = us_running w !! n) /\
  (forall s, s ∈ specs -> us_running (foldl (start_one false) w specs) !! fst (fst s) = us_store w !! snd (fst s)).
Proof.
  revert w. induction specs as [|[[m i] p] specs IH]; intros w Hnd Hl; [split_and!; [done|done|by intros s ?%elem_of_nil]|].
  cbn [map fst] in Hnd. apply NoDup_cons in Hnd as [Hm Hnd]. destruct (Hl (m, i, p)) as [Hp [v Hv]]; [by left|]. cbn [fst snd] in Hv.
  cbn [foldl]. assert (Hres := resolve_local (m, i, p) w v Hp Hv). cbn [fst snd] in Hres.
  assert (E : start_one false w (m, i, p) = mkU (us_store w) (us_pet w) (<[m := v]> (us_running w)) (us_snaps w)).
  { unfold start_one. by rewrite Hres, (insert_id _ _ _ Hv). }
  rewrite E.
  destruct (IH (mkU (us_store w) (us_pet w) (<[m := v]> (us_running w)) (us_snaps w)) Hnd) as (Hs & Ho & Hr); [intros s Hin; apply Hl; by right|].
  cbn [us_store us_running] in Hs, Ho, Hr. split_and!; [done| |].
  - cbn [map fst]. intros n Hn. rewrite Ho by set_solver. apply lookup_insert_ne. set_solver.
  - intros s [->|Hin]%elem_of_cons; [|by apply Hr]. cbn [fst snd]. rewrite Ho by done. by rewrite lookup_insert_eq.
Qed.

Lemma started_local c w :
  u_pet c && negb (u_multi c) = false -> NoDup (names (u_specs c)) ->
  (forall s, s ∈ u_specs c -> local_policy s /\ is_Some (us_store w !! snd (fst s))) ->
  us_store (started c w) = us_store w /\ forall s, s ∈ u_specs c -> us_running (started c w) !! fst (fst s) = us_store w !! snd (fst s).
Proof. intros Hp Hnd Hl. unfold started. rewrite Hp. by destruct (start_local _ w Hnd Hl) as (? & _ & ?). Qed.

(** A start changes no other reference. *)
Lemma started_off c w : store_off (images (u_specs c)) w (started c w).
Proof.
  unfold started. generalize (u_pet c && negb (u_multi c)). intros pet. revert w. induction (u_specs c) as [|[[n i] p] specs IH]; intros w; [by intros r|].
  cbn [foldl map fst snd]. eapply store_off_trans; [|eapply store_off_sub; [|apply IH]; set_solver]. unfold start_one.
  destruct (if pet then us_pet w else None); [by intros r|]. destruct (resolve p i w); [|by intros r].
  intros r Hr. cbn. apply lookup_insert_ne. set_solver.
Qed.

Lemma restart_Ok c w w' : restart_service c w = (w', Ok tt) -> w' = started c w.
Proof. unfold restart_service. intros (w1 & [] & ->%call_Ok & H)%io_bind_Ok. by injection H as <-. Qed.

Lemma restart_or_fail_Ok c w w' : restart_or_fail c w = (w', Ok tt) -> w' = started c w.
Proof.
  unfold restart_or_fail, try_io. destruct (restart_service c w) as [w1 [[]|e]] eqn:E; [intros [= <-]; by apply restart_Ok|].
  by destruct (bool_decide _).
Qed.

Lemma container_images_specs c :
  NoDup (names (u_specs c)) -> container_images c = Ok (map (fun s => (fst (fst s), snd (fst s))) (u_specs c)).
Proof.
  intros Hnd. unfold container_images, image_of.
  assert (H : forall s, s ∈ u_specs c -> List.find (fun t => String.eqb (fst (fst t)) (fst (fst s))) (u_specs c) = Some s).
  { revert Hnd. induction (u_specs c) as [|t l IH]; intros Hnd s Hin; [by apply elem_of_nil in Hin|]. cbn [map] in Hnd. apply NoDup_cons in Hnd as [Ht Hnd].
    cbn [List.find]. apply elem_of_cons in Hin as [->|Hin]; [by rewrite String.eqb_refl|].
    destruct (String.eqb_spec (fst (fst t)) (fst (fst s))) as [E|_]; [|by apply IH]. destruct Ht. rewrite E. apply list_elem_of_fmap. eauto. }
  assert (H' : forall l, (forall s, s ∈ l -> s ∈ u_specs c) ->
    mapM_res (fun s => i ← match List.find (fun t => String.eqb (fst (fst t)) (fst (fst s))) (u_specs c) with Some t => Ok (snd (fst t)) | None => Raise KeyError end; Ok (fst (fst s), i)) l
    = Ok (map (fun s => (fst (fst s), snd (fst s))) l)).
  { induction l as [|s l IH]; intros Hl; [done|]. cbn [mapM_res map]. rewrite H by (apply Hl; by left). rewrite !bind_Ok, IH; [done|].
    intros t Ht. apply Hl. by right. }
  by apply H'.
Qed.

(** ** Theorems *)

(** A workload whose containers have names, images and kept tags of their own, every
    image of which was there, whose units do not pull again, and which is not a pet. *)
Record undoable (c : wl) (w : uhost) : Prop := {
  und_cattle : u_pet c && negb (u_multi c) = false;
  und_names : NoDup (names (u_specs c));
  und_images : NoDup (images (u_specs c));
  und_tags : NoDup (tags c);
  und_apart s t : s ∈ u_specs c -> t ∈ u_specs c -> tag_of c (fst (fst s)) <> snd (fst t);
  und_there s : s ∈ u_specs c -> exists id, us_store w !! snd (fst s) = Some id /\ id <> "";
  und_local s : s ∈ u_specs c -> local_policy s }.

(** An update that is rolled back leaves every reference with the image it had, and
    every container running it. *)
Lemma failed_update_is_undone c force w w1 ids w2 :
  undoable c w -> reprovision c force false w = (w1, Ok (Some ids)) -> do_rollback c w1 = (w2, Ok tt) ->
  forall s, s ∈ u_specs c ->
    us_store w2 !! snd (fst s) = us_store w !! snd (fst s) /\ us_running w2 !! fst (fst s) = us_store w !! snd (fst s).
Proof.
  intros [Hp Hn Hi Ht Hap Hth Hlo] Hre Hro. unfold reprovision in Hre. rewrite Hp in Hre. destruct (forallb _ _); [done|].
  destruct (negb user_exists); [done|]. apply io_bind_Ok in Hre as (wa & [ids' ch] & Hf & Hre).
  destruct (fetch_all_Ok _ _ _ _ _ _ _ Hn Hi Hf) as (_ & Hids & Hoff). destruct (negb ch && negb force); [done|].
  apply io_bind_Ok in Hre as (wb & [] & Hk & Hre). apply io_bind_Ok in Hre as (wc & [] & Hx & Hre). injection Hx as <-.
  apply io_bind_Ok in Hre as (wd & [] & ->%restart_or_fail_Ok & Hre). injection Hre as <- _.
  destruct (keep_specs c ids' (u_specs c) wa wb Ht) as [Hkt Hko]; [|exact Hk|].
  { intros s Hs. destruct (Hth s Hs) as (id & Eid & Hne). exists id. by rewrite (Hids s Hs), Eid. }
  unfold do_rollback in Hro. rewrite container_images_specs in Hro by done. apply io_bind_Ok in Hro as (we & im & Him & Hro).
  injection Him as <- <-. apply io_bind_Ok in Hro as (wf & [] & Hu & ->%restart_Ok).
  assert (Hst : forall s, s ∈ u_specs c -> us_store (started c wb) !! tag_of c (fst (fst s)) = us_store w !! snd (fst s)).
  { intros s Hs. rewrite (started_off c wb), (Hkt s Hs), (Hids s Hs); [by destruct (Hth s Hs) as (id & -> & _)|].
    intros (t & Et & Hin)%list_elem_of_fmap. by apply (Hap s t). }
  destruct (untag_specs c (map (fun s => (fst (fst s), snd (fst s))) (u_specs c)) (started c wb) wf) as [Hut _]; [| | |exact Hu|].
  - rewrite map_map. exact Hi.
  - intros ci (s & -> & Hs)%list_elem_of_fmap. cbn [fst]. rewrite (Hst s Hs). by apply Hth.
  - intros ci cj (s & -> & Hs)%list_elem_of_fmap (t & -> & Ht')%list_elem_of_fmap. by apply Hap.
  - assert (E : forall s, s ∈ u_specs c -> us_store wf !! snd (fst s) = us_store w !! snd (fst s)).
    { intros s Hs. etrans; [apply (Hut (fst (fst s), snd (fst s))); apply list_elem_of_fmap; eauto|by apply Hst]. }
    destruct (started_local c wf Hp Hn) as [Es Er].
    { intros s Hs. split; [by apply Hlo|]. rewrite (E s Hs). destruct (Hth s Hs) as (id & -> & _). by eexists. }
    intros s Hs. by rewrite Es, (Er s Hs), (E s Hs).
Qed.

(** ** Verdicts *)

Definition had_images (ids : list (string * string)) : bool := existsb (fun p => negb (String.eqb (snd p) "")) ids.

(** Whether an updated workload is well: its containers are healthy at the first look,
    or at the second when one was still starting; without health checks, its units are
    active. *)
Definition well (c : wl) : bool :=
  match u_health c with
  | [] => forallb unit_active (u_units c)
  | _ => all_healthy (statuses 0 c) || (existsb (fun s => String.eqb (snd s) "starting") (statuses 0 c) && all_healthy (statuses 1 c))
  end.

Lemma verify_one_Ok c ids w w' v back :
  verify_one c ids w = (w', Ok (v, back)) ->
  (back = false /\ w' = w /\ (had_images ids = true -> well c = true)) \/
  (back = true /\ had_images ids = true /\ well c = false /\ do_rollback c w = (w', Ok tt)).
Proof.
  unfold verify_one, well, had_images. set (ho := existsb _ ids).
  assert (Hroll : forall x, (_ ← do_rollback c; mret (x, true)) w = (w', Ok (v, back)) -> back = true /\ do_rollback c w = (w', Ok tt)).
  { intros x (w1 & [] & H1 & H)%io_bind_Ok. by injection H as <- _ <-. }
  destruct (u_health c) as [|h hs] eqn:Eh.
  - destruct (forallb _ _); [intros [= <- _ <-]; by left|]. destruct ho; [|intros [= <- _ <-]; by left].
    intros [-> H]%Hroll. right. done.
  - rewrite <- Eh. destruct (all_healthy (statuses 0 c)) eqn:E0; [intros [= <- _ <-]; by left|]. cbn [orb].
    destruct (existsb _ (statuses 0 c)); destruct ho; cbn [andb].
    + intros (w1 & ds & Hd & H)%io_bind_Ok. injection Hd as <- _. destruct (all_healthy (statuses 1 c)); [injection H as <- _ <-; by left|].
      apply Hroll in H as [-> H]. by right.
    + intros [= <- _ <-]. by left.
    + intros [-> H]%Hroll. by right.
    + intros [= <- _ <-]. by left.
Qed.

(** An updated workload is rolled back exactly when it is not well and has an image to
    go back to; otherwise the verification changes nothing. *)
Theorem rolled_back_iff_unwell c ids w w' v back :
  verify_one c ids w = (w', Ok (v, back)) ->
  (back = true <-> had_images ids = true /\ well c = false) /\ (back = false -> w' = w).
Proof.
  intros [(-> & -> & H)|(-> & H1 & H2 & _)]%verify_one_Ok; (split; [|done]); [|done]. split; [done|]. intros [Ho Hw]. by rewrite H in Hw.
Qed.

(** ** An update that changed nothing, and one that had images *)

Definition same_running (w w' : uhost) : Prop := us_running w' = us_running w.

#[local] Instance same_running_preorder : PreOrder same_running.
Proof. split; [done|]. intros x y z H1 H2. unfold same_running in *. by rewrite H2. Qed.

Lemma within_ulook {A} (f : uhost -> A) : within same_running (ulook f).
Proof. done. Qed.

Lemma within_store f : within same_running (uchange (fun w => set_store (f w) w)).
Proof. done. Qed.

Ltac steady := repeat first
  [ assumption | apply within_ulook | apply within_store | apply within_pure, _ | apply within_ret, _
  | apply within_bind; [exact _| |intros ?] | apply within_try; [exact _| |intros ?] | case_match ].

Lemma within_image_id r : within same_running (image_id r).
Proof. unfold image_id, call. steady. Qed.

Lemma within_transfer n image pull : within same_running (transfer_one_image n image pull).
Proof. pose proof (within_image_id image). unfold transfer_one_image, call. steady. Qed.

Lemma within_fetch_one s : within same_running (fetch_one s).
Proof.
  destruct s as [[n i] p]. pose proof (within_image_id i). pose proof (within_transfer n i p). unfold fetch_one, only, pull_image, call. steady.
Qed.

Lemma within_fetch_all specs ids ch : within same_running (fetch_all specs ids ch).
Proof.
  revert ids ch. induction specs as [|s specs IH]; intros ids ch; cbn [fetch_all]; [apply within_ret, _|].
  apply within_bind; [exact _|apply within_fetch_one|]. by intros [o c].
Qed.

Lemma unchanged_runs_on c force w w' : reprovision c force false w = (w', Ok None) -> us_running w' = us_running w.
Proof.
  unfold reprovision. destruct (forallb _ _); [done|]. destruct (negb user_exists); [by intros [= <-]|].
  intros (w1 & [ids ch] & H1 & H)%io_bind_Ok. destruct (negb ch && negb force).
  - injection H as <-. pose proof (within_fetch_all (u_specs c) [] false w) as Hw. by rewrite H1 in Hw.
  - repeat (apply io_bind_Ok in H as (? & ? & _ & H)). by injection H.
Qed.

Lemma updated_had_images c force w w' ids :
  undoable c w -> reprovision c force false w = (w', Ok (Some ids)) -> had_images ids = true.
Proof.
  intros [_ Hn Hi _ _ Hth _]. unfold reprovision. destruct (u_specs c) as [|s specs] eqn:Es; [done|]. rewrite <- Es in *.
  destruct (forallb _ _); [done|]. destruct (negb user_exists); [done|]. intros (w1 & [ids' ch] & H1 & H)%io_bind_Ok.
  destruct (negb ch && negb force); [done|]. repeat (apply io_bind_Ok in H as (? & ? & _ & H)). injection H as _ <-.
  destruct (fetch_all_Ok _ _ _ _ _ _ _ Hn Hi H1) as (_ & Hids & _). assert (Hin : s ∈ u_specs c) by (rewrite Es; by left).
  specialize (Hids s Hin). destruct (Hth s Hin) as (v & Ev & Hne). rewrite Ev in Hids. cbn in Hids. unfold id in Hids.
  apply existsb_exists. exists (fst (fst s), v). split; [apply list_elem_of_In; by apply assoc_In|]. cbn. by destruct (String.eqb_spec v "").
Qed.

(** ** Rolling back under a policy that pulls, and of a pet *)

Lemma start_registry pet specs w n image pull id :
  pet = false -> NoDup (names specs) -> (n, image, pull) ∈ specs -> pull = "newer" \/ pull = "always" -> registry image = Some id ->
  us_running (foldl (start_one pet) w specs) !! n = Some id.
Proof.
  intros -> Hnd Hin Hpull Hreg. revert w.
  assert (Hoff : forall l v m, m ∉ names l -> us_running (foldl (start_one false) v l) !! m = us_running v !! m).
  { induction l as [|[[m' i'] p'] l IH]; intros v m Hm; [done|]. cbn [foldl map fst] in *. apply not_elem_of_cons in Hm as [Hm1 Hm2].
    rewrite (IH _ _ Hm2). unfold start_one. destruct (resolve p' i' v); cbn; [apply lookup_insert_ne|apply lookup_delete_ne]; congruence. }
  induction specs as [|[[m i] p] specs IH]; intros w; [by apply elem_of_nil in Hin|]. cbn [map fst] in Hnd. apply NoDup_cons in Hnd as [Hm Hnd].
  apply elem_of_cons in Hin as [[= <- <- <-]|Hin]; cbn [foldl]; [|by apply IH]. rewrite Hoff by done.
  assert (Er : resolve pull image w = Some id) by (by eapply (pulls_again registry)).
  unfold start_one. rewrite Er. cbn. by rewrite lookup_insert_eq.
Qed.

(** A container whose policy is [newer] or [always] runs, after the rollback, what the
    registry serves: the image that was just found to fail. *)
Theorem rollback_runs_what_the_registry_serves c w w' n image pull id :
  u_pet c && negb (u_multi c) = false -> NoDup (names (u_specs c)) -> (n, image, pull) ∈ u_specs c ->
  pull = "newer" \/ pull = "always" -> registry image = Some id -> do_rollback c w = (w', Ok tt) ->
  us_running w' !! n = Some id.
Proof.
  intros Hp Hnd Hin Hpull Hreg. unfold do_rollback. intros (w1 & im & _ & H)%io_bind_Ok.
  apply io_bind_Ok in H as (w2 & [] & _ & ->%restart_Ok). unfold started. by eapply start_registry.
Qed.

Lemma retag_keeps_pet c l w w' :
  for_io (fun ci => t ← image_id (tag_of c (fst ci)); if String.eqb t "" then mret tt else tag_ref (tag_of c (fst ci)) (snd ci)) l w = (w', Ok tt) ->
  us_pet w' = us_pet w.
Proof.
  revert w. induction l as [|ci l IH]; intros w; cbn [for_io]; [by intros [= <-]|]. intros (w1 & [] & H1 & H)%io_bind_Ok. rewrite (IH _ H).
  apply io_bind_Ok in H1 as (w2 & t & [-> ->]%image_id_Ok & H1). destruct (String.eqb_spec (default "" (us_store w !! tag_of c (fst ci))) "") as [|Hne];
    [by injection H1 as <-|].
  destruct (us_store w !! tag_of c (fst ci)) as [id|] eqn:E; [|done]. by rewrite (tag_ref_Ok _ _ _ _ _ E H1).
Qed.

(** A pet's container is not removed by a rollback, so it stays on the image it was
    made from. *)
Theorem pet_keeps_its_image c w w' n image pull id :
  u_pet c = true -> u_multi c = false -> u_specs c = [(n, image, pull)] -> us_pet w = Some id ->
  do_rollback c w = (w', Ok tt) -> us_running w' !! n = Some id.
Proof.
  intros Hp Hm Es Hpet. unfold do_rollback. intros (w1 & im & H1 & H)%io_bind_Ok. injection H1 as <- _.
  apply io_bind_Ok in H as (w2 & [] & H2%retag_keeps_pet & ->%restart_Ok). rewrite Hpet in H2. unfold started. rewrite Hp, Hm, Es. cbn.
  rewrite H2. cbn. by rewrite lookup_insert_eq.
Qed.

(** ** Rolling back on request *)

Lemma no_targets_no_tag c l w w1 w2 b :
  rollback_targets c l w = (w1, Ok []) -> has_any_rollback_tag c l w1 = (w2, Ok b) -> w1 = w /\ b = false.
Proof.
  revert w. induction l as [|ci l IH]; intros w; cbn [rollback_targets has_any_rollback_tag]; [by intros [= <-] [= _ <-]|].
  intros (w3 & t & [-> ->]%image_id_Ok & H)%io_bind_Ok (w4 & t' & [-> ->]%image_id_Ok & H')%io_bind_Ok.
  destruct (String.eqb_spec (default "" (us_store w !! tag_of c (fst ci))) "") as [E|E].
  - assert (w1 = w) as ->.
    { clear -H. revert H. generalize (@nil (string * string)). induction l as [|cj l IH]; intros r; cbn [rollback_targets]; [by intros [= <-]|].
      intros (w3 & t & [-> _]%image_id_Ok & H)%io_bind_Ok. destruct (String.eqb t ""); [by eapply IH|].
      apply io_bind_Ok in H as (w4 & t' & [-> _]%image_id_Ok & H). apply io_bind_Ok in H as (w5 & r' & H5 & H). injection H as <- _. by eapply IH. }
    rewrite E in H'. cbn in H'. by apply (IH w).
  - apply io_bind_Ok in H as (w4 & t & _ & H). apply io_bind_Ok in H as (w5 & r & _ & H). by injection H.
Qed.

(** A rollback that succeeds has restarted the service: the branch for a workload that
    already runs its kept images is never taken. *)
Theorem rollback_restarts c w w' b : rollback c w = (w', Ok b) -> b = true.
Proof.
  unfold rollback. intros (w1 & im & H1 & H)%io_bind_Ok. unfold pure in H1. apply (f_equal fst) in H1 as E1. cbn in E1. subst w1. clear H1. apply io_bind_Ok in H as (w2 & targets & Ht & H).
  apply io_bind_Ok in H as (w3 & any & Ha & H). destruct targets as [|t ts].
  - destruct (no_targets_no_tag _ _ _ _ _ _ Ht Ha) as [_ ->]. done.
  - injection Ha as <- <-. cbn in H. apply io_bind_Ok in H as (w4 & [] & _ & H). apply io_bind_Ok in H as (w5 & [] & _ & H). by injection H as _ <-.
Qed.
End update.

(** ** The snapshots that remain *)

Section snapshots.
Variable fault : ucall -> option exn.
Variable exit_ok : ucall -> bool.

Lemma prune_Ok tags w :
  (forall t, t ∈ tags -> fault (CRemoveSnap t) = None /\ exit_ok (CRemoveSnap t) = true) ->
  for_io (fun t => _ ← call fault (CRemoveSnap t);
                   if exit_ok (CRemoveSnap t) then uchange (fun w => set_snaps (filter (fun u => u <> t) (us_snaps w)) w) else mret tt) tags w
  = (set_snaps (filter (fun u => u ∉ tags) (us_snaps w)) w, Ok tt).
Proof.
  revert w. induction tags as [|t tags IH]; intros w Hok; cbn [for_io].
  - replace (filter (fun u => u ∉ []) (us_snaps w)) with (us_snaps w); [by destruct w|].
    induction (us_snaps w) as [|x l IHl]; [done|]. rewrite filter_cons, decide_True by (by intros ?%elem_of_nil). by f_equal.
  - destruct (Hok t) as [Hf He]; [by left|].
    assert (Ec : call fault (CRemoveSnap t) = pure (Ok tt)) by (unfold call; by rewrite Hf). rewrite Ec, He. cbv [mbind io_bind pure uchange].
    rewrite IH by (intros; apply Hok; by right). unfold set_snaps. cbn. repeat f_equal.
    induction (us_snaps w) as [|x l IHl]; [done|]. rewrite !filter_cons. destruct (decide (x <> t)) as [Hx|Hx].
    + rewrite filter_cons, IHl. destruct (decide (x ∉ tags)), (decide (x ∉ t :: tags)); set_solver.
    + rewrite IHl. destruct (decide (x ∉ t :: tags)); set_solver.
Qed.

(** When every command succeeds no more than [keep] snapshots remain, and each that
    remains is at least as new as each that was removed. *)
Theorem newest_snapshots_remain keep w :
  1 <= keep -> NoDup (us_snaps w) -> (forall x, fault x = None) -> (forall x, exit_ok x = true) ->
  exists w', prune_pet_snapshots fault exit_ok keep w = (w', Ok tt) /\ Z.of_nat (length (us_snaps w')) = Z.min keep (Z.of_nat (length (us_snaps w))) /\
    (forall t, t ∈ us_snaps w' -> t ∈ us_snaps w) /\
    forall old new, old ∈ us_snaps w -> old ∉ us_snaps w' -> new ∈ us_snaps w' -> str_leb old new = true.
Proof.
  intros Hk Hnd Hf He. set (tags := stale_tags keep (py_sorted (us_snaps w))).
  exists (set_snaps (filter (fun u => u ∉ tags) (us_snaps w)) w). split.
  { assert (Ec : call fault CListSnaps = pure (Ok tt)) by (unfold call; by rewrite Hf).
    unfold prune_pet_snapshots, try_io. rewrite Ec, He. cbv [mbind io_bind pure ulook]. cbn [negb]. fold tags. by rewrite prune_Ok. }
  cbn [us_snaps set_snaps]. pose proof (py_sorted_perm (us_snaps w)) as Hperm. pose proof (Permutation_length Hperm) as Hlen.
  assert (Hnd' : NoDup (py_sorted (us_snaps w))) by (by rewrite Hperm).
  set (k := (length (py_sorted (us_snaps w)) - Z.to_nat keep)%nat).
  assert (Et : tags = take k (py_sorted (us_snaps w))).
  { unfold tags, stale_tags. destruct (Z.ltb_spec keep (Z.of_nat (length (py_sorted (us_snaps w))))); [done|].
    subst k. by replace (_ - _)%nat with 0%nat by lia. }
  assert (Hrest : filter (fun u => u ∉ tags) (us_snaps w) ≡ₚ drop k (py_sorted (us_snaps w))).
  { rewrite <- (take_drop k (py_sorted (us_snaps w))) in Hnd'. apply NoDup_app in Hnd' as (_ & Hdis & Hd).
    apply NoDup_Permutation; [by apply NoDup_filter|done|]. intros x. rewrite list_elem_of_filter, Et.
    assert (Hx : x ∈ us_snaps w <-> x ∈ take k (py_sorted (us_snaps w)) \/ x ∈ drop k (py_sorted (us_snaps w)))
      by (by rewrite <- elem_of_app, take_drop, Hperm). rewrite Hx. specialize (Hdis x). tauto. }
  split_and!.
  - rewrite (Permutation_length Hrest), length_drop. lia.
  - intros t. rewrite list_elem_of_filter. tauto.
  - intros old new Ho Hno Hn. rewrite Hrest in Hn. rewrite Hrest in Hno.
    assert (Ho' : old ∈ take k (py_sorted (us_snaps w)) ++ drop k (py_sorted (us_snaps w))) by (by rewrite take_drop, Hperm). clear Ho. rename Ho' into Ho.
    apply elem_of_app in Ho as [Ho|Ho]; [|done]. pose proof (py_sorted_sorted (us_snaps w)) as Hs.
    rewrite <- (take_drop k (py_sorted (us_snaps w))) in Hs. exact (sorted_app _ _ _ _ _ Hs Ho Hn).
Qed.
End snapshots.

(** ** The verb *)

Record row := mkRow { r_name : string; r_vm : bool; r_result : string; r_verify : option verdict }.

Definition set_verify (v : verdict) (back : bool) (r : row) : row :=
  mkRow (r_name r) (r_vm r) (if back then "rolled-back" else r_result r) (Some v).

Section verb.
(** One workload's update and verification, on its own store; the update of a VM. *)
Variable reprovision_of : wl -> bool -> io uhost (option (list (string * string))).
Variable verify_of : wl -> list (string * string) -> io uhost (verdict * bool).
Variable wait_of : wl -> res Z.
Variable vm_reprovision : wl -> res unit.
Variable is_vm : wl -> bool.

Notation hosts := (gmap string uhost).

Definition on_host {A} (n : string) (m : io uhost A) : io hosts A := fun W =>
  let '(u, r) := m (default (mkU ∅ None ∅ []) (W !! n)) in (<[n := u]> W, r).

(** [_reprovision_one] *)
Definition reprovision_one (c : wl) (force : bool) : io hosts (row * option (list (string * string))) :=
  let row r := mkRow (u_name c) (is_vm c) r None in
  try_io (if is_vm c then _ ← pure (vm_reprovision c); mret (row "updated", None)
          else o ← on_host (u_name c) (reprovision_of c force);
               mret (row (match o with Some _ => "updated" | None => "unchanged" end), o))
    (fun e => bool_decide (e = NotApplicable) || bool_decide (e = ProvisionFailed))
    (fun e => mret (row (if bool_decide (e = NotApplicable) then "skipped" else "failed"), None)).

Fixpoint reprovision_all (cs : list wl) (force : bool) : io hosts (list row * list (wl * list (string * string))) :=
  match cs with
  | [] => mret ([], [])
  | c :: cs =>
      '(r, o) ← reprovision_one c force;
      '(rows, updated) ← reprovision_all cs force;
      mret (r :: rows, match o with Some ids => (c, ids) :: updated | None => updated end)
  end.

(** [_verify_all]: after the wait, each workload in turn. *)
Fixpoint verify_each (updated : list (wl * list (string * string))) : io hosts (list (string * (verdict * bool))) :=
  match updated with
  | [] => mret []
  | (c, ids) :: updated => v ← on_host (u_name c) (verify_of c ids); vs ← verify_each updated; mret ((u_name c, v) :: vs)
  end.

Definition verify_all (updated : list (wl * list (string * string))) : io hosts (list (string * (verdict * bool))) :=
  match updated with
  | [] => mret []
  | _ => _ ← pure (mapM_res (fun p => wait_of (fst p)) updated); verify_each updated
  end.

(** [_apply_verdicts]; of two verdicts under one name the later counts. *)
Definition apply_verdicts (vs : list (string * (verdict * bool))) (rows : list row) : list row :=
  map (fun r => match assoc (r_name r) (rev vs) with Some (v, back) => set_verify v back r | None => r end) rows.

Definition tally (result : string) (rows : list row) : nat := length (List.filter (fun r => String.eqb (r_result r) result) rows).

(** [cmd_update --all]: the rows and the exit status. *)
Definition update_all (cs : list wl) (force : bool) : io hosts (list row * Z) :=
  '(rows, updated) ← reprovision_all cs force;
  vs ← verify_all updated;
  let rows := apply_verdicts vs rows in
  mret (rows, if (0 <? tally "failed" rows)%nat then 1 else 0).

(** [cmd_update] of one workload. *)
Definition update_one (c : wl) (force : bool) : io hosts (row * Z) :=
  '(r, o) ← reprovision_one c force;
  if String.eqb (r_result r) "skipped" || String.eqb (r_result r) "failed" then mret (r, 1)
  else
    vs ← (match o with Some ids => verify_all [(c, ids)] | None => mret [] end);
    mret (default r (head (apply_verdicts vs [r])), 0).

(** ** Rows *)

Lemma reprovision_one_name c force W W' r o : reprovision_one c force W = (W', Ok (r, o)) -> r_name r = u_name c.
Proof.
  unfold reprovision_one, try_io. destruct (is_vm c).
  - cbv [mbind io_bind pure]. destruct (vm_reprovision c) as [[]|e]; [by intros [= _ <- _]|]. destruct (_ || _); [by intros [= _ <- _]|done].
  - cbv [mbind io_bind]. destruct (on_host _ _ W) as [W1 [x|e]]; [by intros [= _ <- _]|]. destruct (_ || _); [by intros [= _ <- _]|done].
Qed.

Lemma reprovision_all_rows cs force W W' rows updated :
  reprovision_all cs force W = (W', Ok (rows, updated)) -> map r_name rows = map u_name cs.
Proof.
  revert W W' rows updated. induction cs as [|c cs IH]; intros W W' rows updated; cbn [reprovision_all]; [by intros [= _ <- _]|].
  intros (W1 & [r o] & H1%reprovision_one_name & H)%io_bind_Ok. apply io_bind_Ok in H as (W2 & [rs us] & H2 & H). injection H as _ <- _.
  cbn [map]. f_equal; [done|by eapply IH].
Qed.

(** Every workload has one row, in order, and the status is 1 exactly when the update of
    one failed. *)
Theorem every_workload_has_a_row cs force W W' rows status :
  update_all cs force W = (W', Ok (rows, status)) ->
  map r_name rows = map u_name cs /\ (status = 1 <-> exists r, r ∈ rows /\ r_result r = "failed").
Proof.
  unfold update_all. intros (W1 & [rs us] & H1%reprovision_all_rows & H)%io_bind_Ok. apply io_bind_Ok in H as (W2 & vs & _ & H).
  injection H as _ <- <-. split.
  - rewrite <- H1. unfold apply_verdicts. rewrite map_map. apply map_ext. intros r. by destruct (assoc _ _) as [[v b]|].
  - set (l := apply_verdicts vs rs). unfold tally. destruct (List.filter _ l) as [|r f] eqn:Ef; cbn [length].
    + split; [done|]. intros (r & Hin & Hr). assert (Hf : In r (List.filter (fun r => String.eqb (r_result r) "failed") l)).
      { apply filter_In. split; [by apply list_elem_of_In|]. by rewrite Hr. }
      by rewrite Ef in Hf.
    + split; [|done]. intros _. exists r. assert (Hf : In r (List.filter (fun r => String.eqb (r_result r) "failed") l)) by (rewrite Ef; by left).
      apply filter_In in Hf as [Hin Hr]. split; [by apply list_elem_of_In|by apply String.eqb_eq].
Qed.
End verb.

(** ** One workload, whole *)

Section one.
Variable resolve : string -> string -> uhost -> option string.
Variable registry root_store : string -> option string.
Variable is_buildable : string -> string -> bool.
Variable fault : ucall -> option exn.
Variable exit_ok : ucall -> bool.
Variable user_exists : bool.
Variable health : nat -> string -> option string.
Variable unit_active : string -> bool.
Variable timestamp : string.
Variable vm_reprovision : wl -> res unit.
Variable is_vm : wl -> bool.

Definition fetch_and_restart (c : wl) (force : bool) : io uhost (option (list (string * string))) :=
  reprovision resolve registry root_store is_buildable fault exit_ok user_exists timestamp c force false.

Definition verify_workload : wl -> list (string * string) -> io uhost (verdict * bool) := verify_one resolve fault health unit_active.

Definition update_workload : wl -> bool -> io (gmap string uhost) (row * Z) :=
  update_one fetch_and_restart verify_workload health_wait_seconds vm_reprovision is_vm.

Definition host_of (W : gmap string uhost) (n : string) : uhost := default (mkU ∅ None ∅ []) (W !! n).

Lemma on_host_Ok {A} n (m : io uhost A) W W' a :
  on_host n m W = (W', Ok a) -> exists u, m (host_of W n) = (u, Ok a) /\ host_of W' n = u.
Proof.
  unfold on_host, host_of. destruct (m _) as [u r]. intros [= <- ->]. exists u. split; [done|]. by rewrite lookup_insert_eq.
Qed.

Lemma verify_all_one c ids W W' vs :
  verify_all verify_workload health_wait_seconds [(c, ids)] W = (W', Ok vs) ->
  exists v back, vs = [(u_name c, (v, back))] /\ verify_workload c ids (host_of W (u_name c)) = (host_of W' (u_name c), Ok (v, back)).
Proof.
  unfold verify_all. intros (W1 & ? & H1 & H)%io_bind_Ok. injection H1 as <- _. cbn [verify_each] in H.
  apply io_bind_Ok in H as (W2 & [v b] & H2 & H). apply io_bind_Ok in H as (W3 & ? & H3 & H). injection H3 as <- <-. injection H as <- <-.
  apply on_host_Ok in H2 as (u & H2 & <-). eauto.
Qed.

Lemma reprovision_one_cases c force W W' r o :
  is_vm c = false -> reprovision_one fetch_and_restart vm_reprovision is_vm c force W = (W', Ok (r, o)) ->
  match o with Some _ => r_result r = "updated" | None => r_result r = "unchanged" end /\
    fetch_and_restart c force (host_of W (u_name c)) = (host_of W' (u_name c), Ok o)
  \/ (r_result r = "skipped" \/ r_result r = "failed").
Proof.
  intros Hv. unfold reprovision_one, try_io. rewrite Hv. cbv [mbind io_bind].
  destruct (on_host (u_name c) _ W) as [W1 [o1|e]] eqn:E.
  - intros [= <- <- <-]. left. apply on_host_Ok in E as (u & E & <-). split; [by destruct o1|done].
  - destruct (_ || _); [|done]. intros [= _ <- _]. right. cbn. destruct (bool_decide _); [by left|by right].
Qed.

Lemma verdict_of_row v back r d : default d (head (apply_verdicts [(r_name r, (v, back))] [r])) = set_verify v back r.
Proof. unfold apply_verdicts. cbn [map rev app assoc]. by rewrite decide_True by done. Qed.

(** C28.  How [workloadctl update <name>] of a container workload ends when it returns (a
    rollback that fails raises instead), with podman following its pull policies.
    "updated", status 0: if the workload is undoable, it is well at its checks.
    "rolled-back", status 0: it was not well; if it is undoable, every reference of its
    specs has the image it had and every container runs that image; but a container
    whose policy is newer or always runs what the registry serves, if the workload is
    no single-container pet and its names are distinct.  "unchanged", status 0: the
    containers run what they ran.  "skipped" or "failed": status 1.  Undoable: no
    single-container pet; names, images and kept tags distinct, no tag an image of its
    own; every image in the store, with an id; every policy missing or never. *)
Theorem update_ends_well c force W W' r status :
  pull_rules registry resolve -> is_vm c = false -> update_workload c force W = (W', Ok (r, status)) ->
  (r_result r = "updated" /\ status = 0 /\ (undoable c (host_of W (u_name c)) -> well health unit_active c = true)) \/
  (r_result r = "rolled-back" /\ status = 0 /\ well health unit_active c = false /\
     (undoable c (host_of W (u_name c)) -> forall s, s ∈ u_specs c ->
        us_store (host_of W' (u_name c)) !! snd (fst s) = us_store (host_of W (u_name c)) !! snd (fst s) /\
        us_running (host_of W' (u_name c)) !! fst (fst s) = us_store (host_of W (u_name c)) !! snd (fst s)) /\
     (u_pet c && negb (u_multi c) = false -> NoDup (map (fun s => fst (fst s)) (u_specs c)) ->
        forall n image pull id, (n, image, pull) ∈ u_specs c -> pull = "newer" \/ pull = "always" -> registry image = Some id ->
        us_running (host_of W' (u_name c)) !! n = Some id)) \/
  (r_result r = "unchanged" /\ status = 0 /\ us_running (host_of W' (u_name c)) = us_running (host_of W (u_name c))) \/
  ((r_result r = "skipped" \/ r_result r = "failed") /\ status = 1).
Proof.
  intros Hrules Hv. unfold update_workload, update_one. intros (W1 & [r1 o] & H1 & H)%io_bind_Ok.
  assert (Hname := reprovision_one_name _ _ _ _ _ _ _ _ _ H1).
  apply (reprovision_one_cases _ _ _ _ _ _ Hv) in H1 as [[Hr H1]|Hr]; cycle 1.
  { do 3 right. destruct Hr as [Hr|Hr]; rewrite Hr in H; cbn in H; injection H as <- <- <-; auto. }
  destruct o as [ids|]; rewrite Hr in H; cbn [orb String.eqb Ascii.eqb Bool.eqb] in H; cycle 1.
  { cbn in H. injection H as <- <- <-. right; right; left. split_and!; [done|done|]. by eapply unchanged_runs_on. }
  apply io_bind_Ok in H as (W2 & vs & (v & back & -> & H2)%verify_all_one & H).
  assert (E := verdict_of_row v back r1 r1). rewrite Hname in E. rewrite E in H. injection H as <- <- <-. cbn [set_verify r_result].
  apply verify_one_Ok in H2 as [(-> & _ & Hw)|(-> & _ & Hsick & Hb)].
  - left. split_and!; [done|done|]. intros Hu. apply Hw. by eapply updated_had_images.
  - right; left. split_and!; [done|done|done| |].
    + intros Hu. by eapply failed_update_is_undone.
    + intros Hp Hn n image pull id Hs Hpull Hreg. by eapply rollback_runs_what_the_registry_serves.
Qed.
End one.

(** ** Samples *)

Module Fleet.
Definition reg (ref : string) : option string := if String.eqb ref "quay.io/app:1" then Some "new" else None.

(** What [podman run] runs under each policy. *)
Definition run_image (pull image : string) (w : uhost) : option string :=
  let local := us_store w !! image in
  if String.eqb pull "always" then reg image
  else if String.eqb pull "newer" then match reg image with Some i => Some i | None => local end
  else if String.eqb pull "never" then local
  else match local with Some i => Some i | None => reg image end.

Lemma run_image_rules : pull_rules reg run_image.
Proof. split; intros pull image w id [-> | ->] H; unfold run_image; cbn; by rewrite H. Qed.

Definition none (x : ucall) : option exn := None.

Definition succeeds (x : ucall) : bool := true.

(** Every container is unhealthy at every look; every unit is active. *)
Definition sick (n : nat) (c : string) : option string := Some "unhealthy".

Definition up (u : string) : bool := true.

Definition web (pull : string) (pet : bool) : wl :=
  mkWl "web" false pet 3 [("web", "quay.io/app:1", pull)] [("web", "workload-web", [])] ["web.service"].

(** Two containers of one image. *)
Definition pair : wl :=
  mkWl "web" true false 3 [("front", "quay.io/app:1", "missing"); ("back", "quay.io/app:1", "missing")]
    [("front", "web-front", []); ("back", "web-back", [])] ["web-front.service"; "web-back.service"].

Definition host (cs : list string) (pet : option string) : uhost :=
  mkU {[ "quay.io/app:1" := "old" ]} pet (list_to_map (map (fun c => (c, "old")) cs)) [].

Definition update (fault : ucall -> option exn) (c : wl) (h : uhost) : gmap string uhost * res (row * Z) :=
  update_workload run_image reg (fun _ => None) (fun _ _ => false) fault succeeds true sick up "20260101T000000Z" (fun _ => Ok tt) (fun _ => false) c false
    {[ "web" := h ]}.

(** The result of the row and what the containers run. *)
Definition outcome (o : gmap string uhost * res (row * Z)) (cs : list string) : option string * list (option string) :=
  (match snd o with Ok (r, _) => Some (r_result r) | Raise _ => None end, map (fun c => us_running (host_of (fst o) "web") !! c) cs).

Lemma web_undoable : undoable (web "missing" false) (host ["web"] None).
Proof.
  assert (Hone : forall x : string, NoDup [x]) by (intros x; apply NoDup_singleton). split; [done|apply Hone..| | |].
  - by intros s t ->%list_elem_of_singleton ->%list_elem_of_singleton.
  - intros s ->%list_elem_of_singleton. by exists "old".
  - intros s ->%list_elem_of_singleton. by left.
Qed.

(** Under [missing] the workload is back on the image it had. *)
Lemma missing_is_undone : outcome (update none (web "missing" false) (host ["web"] None)) ["web"] = (Some "rolled-back", [Some "old"]).
Proof. vm_compute. reflexivity. Qed.

(** Under [newer], for a pet and for two containers of one image the row says the same,
    and a container runs the image that failed. *)
Lemma reported_back_but_running_new :
  outcome (update none (web "newer" false) (host ["web"] None)) ["web"] = (Some "rolled-back", [Some "new"]) /\
  outcome (update none (web "missing" true) (host ["web"] (Some "old"))) ["web"] = (Some "rolled-back", [Some "new"]) /\
  outcome (update none pair (host ["front"; "back"] None)) ["front"; "back"] = (Some "rolled-back", [Some "new"; Some "new"]).
Proof. split_and!; vm_compute; reflexivity. Qed.

(** Two workloads of which both are sick; the image of the first cannot be retagged. *)
Definition api : wl := mkWl "api" false false 3 [("api", "quay.io/app:1", "missing")] [("api", "workload-api", [])] ["api.service"].

Definition jammed (x : ucall) : option exn := match x with CTag "quay.io/app:1" => Some PodmanError | _ => None end.

Definition update_both : gmap string uhost * res (list row * Z) :=
  let fault_of (c : wl) := if String.eqb (u_name c) "api" then jammed else none in
  update_all (fun c => fetch_and_restart run_image reg (fun _ => None) (fun _ _ => false) (fault_of c) succeeds true "20260101T000000Z" c)
    (fun c => verify_workload run_image (fault_of c) sick up c) health_wait_seconds (fun _ => Ok tt) (fun _ => false) [api; web "missing" false] false
    {[ "api" := host ["api"] None; "web" := host ["web"] None ]}.

(** A rollback that fails ends the run: no row is reported, and the workload after it is
    left on the image that failed. *)
Lemma failed_rollback_ends_the_run :
  snd update_both = Raise PodmanError /\ us_running (host_of (fst update_both) "web") !! "web" = Some "new".
Proof. split; vm_compute; reflexivity. Qed.

Definition shots : uhost := mkU ∅ None ∅ ["20260103"; "20260101"; "20260104"; "20260102"].
End Fleet.

(** A new image that is sick: under [missing] the container is back on the old one, under
    [newer] it is reported so and runs the new one. *)
Lemma update_ends_well_witness :
  let W : gmap string uhost := {[ "web" := Fleet.host ["web"] None ]} in
  let after pull := host_of (fst (Fleet.update Fleet.none (Fleet.web pull false) (Fleet.host ["web"] None))) "web" in
  us_running (after "missing") !! "web" = Some "old" /\ us_running (after "newer") !! "web" = Some "new".
Proof.
  intros W after.
  assert (H := fun pull => update_ends_well Fleet.run_image Fleet.reg (fun _ => None) (fun _ _ => false) Fleet.none Fleet.succeeds true Fleet.sick Fleet.up
           "20260101T000000Z" (fun _ => Ok tt) (fun _ => false) (Fleet.web pull false) false W
           (fst (Fleet.update Fleet.none (Fleet.web pull false) (Fleet.host ["web"] None)))
           (mkRow "web" false "rolled-back" (Some Unhealthy)) 0 Fleet.run_image_rules eq_refl).
  split.
  - destruct (H "missing") as [[H1 _]|[(_ & _ & _ & Hb & _)|[[H1 _]|[[H1|H1] _]]]]; [vm_compute; reflexivity|discriminate H1| |discriminate H1..].
    destruct (Hb Fleet.web_undoable ("web", "quay.io/app:1", "missing")) as [_ Hr]; [by left|exact Hr].
  - destruct (H "newer") as [[H1 _]|[(_ & _ & _ & _ & Hb)|[[H1 _]|[[H1|H1] _]]]]; [vm_compute; reflexivity|discriminate H1| |discriminate H1..].
    apply (Hb eq_refl ltac:(apply NoDup_singleton) "web" "quay.io/app:1" "newer" "new"); [by left|by left|reflexivity].
Defined.

Lemma rollback_runs_what_the_registry_serves_witness :
  us_running (fst (do_rollback Fleet.run_image Fleet.none (Fleet.web "newer" false) (Fleet.host ["web"] None))) !! "web" = Some "new".
Proof.
  apply (rollback_runs_what_the_registry_serves Fleet.run_image Fleet.reg Fleet.none Fleet.run_image_rules (Fleet.web "newer" false)
           (Fleet.host ["web"] None) _ "web" "quay.io/app:1" "newer").
  - reflexivity.
  - apply NoDup_singleton.
  - by left.
  - by left.
  - reflexivity.
  - vm_compute. reflexivity.
Defined.

Lemma newest_snapshots_remain_witness :
  exists w', prune_pet_snapshots Fleet.none Fleet.succeeds 3 Fleet.shots = (w', Ok tt) /\ Z.of_nat (length (us_snaps w')) = 3 /\
    (forall t, t ∈ us_snaps w' -> t ∈ us_snaps Fleet.shots) /\
    forall old new, old ∈ us_snaps Fleet.shots -> old ∉ us_snaps w' -> new ∈ us_snaps w' -> str_leb old new = true.
Proof.
  apply (newest_snapshots_remain Fleet.none Fleet.succeeds 3 Fleet.shots).
  - lia.
  - apply (bool_decide_unpack _). vm_compute. exact I.
  - reflexivity.
  - reflexivity.
Defined.

Lemma rollback_restarts_witness : snd (rollback Fleet.run_image Fleet.none (Fleet.web "missing" false)
    (mkU {[ "quay.io/app:1" := "new"; "localhost/workload-rollback/web:latest" := "old" ]} None ∅ [])) = Ok true.
Proof. vm_compute. reflexivity. Qed.
