(* ===== verification/TomlText.v ===== *)
(** * TOML text: [toml_string] of [lib/workloadctl_core.py] and a reader

    The literal the commands write into a configuration, and a reader of the part of
    TOML they write: a line is blank, a comment, a header of one bare name at the
    first column or a bare key with a basic string, a boolean, a canonical decimal
    or an array of basic strings; tables and keys are defined once.  The reader
    refuses what TOML refuses there (control characters in a string, a name defined
    twice) and gives nothing for the rest of TOML.  The commands load a declaration with
    [tomllib], a parameter of [Create]; that it agrees with this reader on the texts
    this reader reads is the hypothesis of the theorems on what is loaded. *)
From S2P Require Import Prelude PyStr PyRe Toml.
Local Open Scope Z_scope.

(** ** [toml_string] *)

Definition TAB : ascii := "009"%char.
Definition DEL : ascii := "127"%char.

(** [\u%04x] *)
Definition u_escape (c : ascii) : string := "\u00" +:+ String (hexd (code c / 16)) (chr (hexd (code c mod 16))).

Definition toml_string (value : string) : string :=
  let r := replace_char DQUOTE (String "\" (chr DQUOTE)) (replace_char "\" "\\" value) in
  let r := replace_char TAB "\t" (replace_char CR "\r" (replace_char LF "\n" r)) in
  let r := map_chars (fun c => if code c <? 0x20 then u_escape c else chr c) r in
  chr DQUOTE +:+ r +:+ chr DQUOTE.

(** ** The reader *)

(** What a basic string may not hold as it is. *)
Definition is_control (c : ascii) : bool := (code c <? 0x20) && negb (Ascii.eqb c TAB) || Ascii.eqb c DEL.

Definition escape_of (c : ascii) : option ascii :=
  if Ascii.eqb c "b" then Some "008"%char else if Ascii.eqb c "t" then Some TAB else if Ascii.eqb c "n" then Some LF
  else if Ascii.eqb c "f" then Some "012"%char else if Ascii.eqb c "r" then Some CR
  else if Ascii.eqb c DQUOTE then Some DQUOTE else if Ascii.eqb c "\" then Some "\"%char else None.

Definition hex_val (c : ascii) : option Z :=
  if is_dec c then Some (code c - 48) else if in_range 97 102 c then Some (code c - 87) else if in_range 65 70 c then Some (code c - 55) else None.

(** Four hexadecimal digits, of a character below 256. *)
Definition unicode_of (a b c d : ascii) : option ascii :=
  a ← hex_val a; b ← hex_val b; c ← hex_val c; d ← hex_val d;
  if (a =? 0) && (b =? 0) then Some (ascii_of_N (Z.to_N (c * 16 + d))) else None.

Definition cons_read (c : ascii) (o : option (string * string)) : option (string * string) :=
  match o with Some (s, r) => Some (String c s, r) | None => None end.

(** What follows the opening quote: the string and what is after the closing one. *)
Fixpoint read_basic (s : string) : option (string * string) :=
  match s with
  | EmptyString => None
  | String c s =>
      if Ascii.eqb c DQUOTE then Some (EmptyString, s)
      else if Ascii.eqb c "\" then
        match s with
        | EmptyString => None
        | String e s =>
            match escape_of e with
            | Some x => cons_read x (read_basic s)
            | None =>
                match s with
                | String a (String b (String c (String d s))) =>
                    if Ascii.eqb e "u" then match unicode_of a b c d with Some x => cons_read x (read_basic s) | None => None end else None
                | _ => None
                end
            end
        end
      else if is_control c then None else cons_read c (read_basic s)
  end.

Definition is_blank (c : ascii) : bool := Ascii.eqb c " " || Ascii.eqb c TAB.

Definition is_bare (c : ascii) : bool := is_alnum c || Ascii.eqb c "_" || Ascii.eqb c "-".

(** The elements of an array, after its bracket. *)
Fixpoint read_elems (n : nat) (s : string) : option (list tv * string) :=
  match n with
  | O => None
  | S n =>
      match lstrip_by is_blank s with
      | String q s =>
          if Ascii.eqb q "]" then Some ([], s)
          else if Ascii.eqb q DQUOTE then
            '(x, s) ← read_basic s;
            match lstrip_by is_blank s with
            | String c s =>
                if Ascii.eqb c "]" then Some ([TStr x], s)
                else if Ascii.eqb c "," then '(l, s) ← read_elems n s; Some (TStr x :: l, s)
                else None
            | EmptyString => None
            end
          else None
      | EmptyString => None
      end
  end.

Definition read_scalar (w : string) : option tv :=
  if String.eqb w "true" then Some (TBool true) else if String.eqb w "false" then Some (TBool false)
  else n ← py_int w; if String.eqb (str_Z n) w then Some (TInt n) else None.

Definition read_value (s : string) : option (tv * string) :=
  match s with
  | String c s' =>
      if Ascii.eqb c DQUOTE then '(x, r) ← read_basic s'; Some (TStr x, r)
      else if Ascii.eqb c "[" then '(l, r) ← read_elems (String.length s') s'; Some (TArr l, r)
      else let '(w, r) := span is_bare s in v ← read_scalar w; Some (v, r)
  | EmptyString => None
  end.

Inductive toml_line := LBlank | LHeader (n : string) | LKey (k : string) (v : tv).

(** Blanks, and a comment. *)
Definition read_end (s : string) : bool :=
  match lstrip_by is_blank s with
  | EmptyString => true
  | String c s => Ascii.eqb c "#" && all_chars (fun c => negb (is_control c)) s
  end.

Definition read_header (s : string) : option toml_line :=
  match span is_bare s with
  | (EmptyString, _) => None
  | (n, String c r) => if Ascii.eqb c "]" && read_end r then Some (LHeader n) else None
  | _ => None
  end.

Definition read_key (s : string) : option toml_line :=
  match span is_bare (lstrip_by is_blank s) with
  | (EmptyString, _) => None
  | (k, r) =>
      match lstrip_by is_blank r with
      | String c r =>
          if Ascii.eqb c "=" then '(v, r) ← read_value (lstrip_by is_blank r); if read_end r then Some (LKey k v) else None else None
      | EmptyString => None
      end
  end.

Definition read_line (s : string) : option toml_line :=
  if read_end s then Some LBlank
  else if starts_with "[" s then read_header (str_drop 1 s) else read_key s.

(** The tables that are closed and the one that is open. *)
Definition toml_state : Type := table * option (string * table).

Definition close (st : toml_state) : table := match snd st with Some (n, t) => fst st ++ [(n, TTab t)] | None => fst st end.

Definition add_line (st : toml_state) (l : toml_line) : option toml_state :=
  match l with
  | LBlank => Some st
  | LHeader n => if has_key n (close st) then None else Some (close st, Some (n, []))
  | LKey k v =>
      match st with
      | (done, Some (n, t)) => if has_key k t then None else Some (done, Some (n, t ++ [(k, v)]))
      | (done, None) => if has_key k done then None else Some (done ++ [(k, v)], None)
      end
  end.

Fixpoint read_lines (st : toml_state) (lines : list string) : option toml_state :=
  match lines with
  | [] => Some st
  | s :: lines => l ← read_line s; st ← add_line st l; read_lines st lines
  end.

Definition read_toml (text : string) : option table := close <$> read_lines ([], None) (split_on LF text).

(** ** A literal is read back *)

(** The literal of a character. *)
Definition toml_char (c : ascii) : string :=
  if Ascii.eqb c "\" then "\\" else if Ascii.eqb c DQUOTE then String "\" (chr DQUOTE)
  else if Ascii.eqb c LF then "\n" else if Ascii.eqb c CR then "\r" else if Ascii.eqb c TAB then "\t"
  else if code c <? 0x20 then u_escape c else chr c.

Lemma toml_string_map s : toml_string s = String DQUOTE (map_chars toml_char s +:+ chr DQUOTE).
Proof.
  unfold toml_string, replace_char. rewrite !map_chars_map_chars. cbn [chr]. f_equal. f_equal. apply map_chars_ext.
  intros [[] [] [] [] [] [] [] []]; reflexivity.
Qed.

Lemma read_toml_char c t : c <> DEL -> read_basic (toml_char c +:+ t) = cons_read c (read_basic t).
Proof. intros H. destruct c as [[] [] [] [] [] [] [] []]; first [reflexivity|by destruct H]. Qed.

Lemma read_toml_string s r : has_char DEL s = false -> read_basic (map_chars toml_char s +:+ String DQUOTE r) = Some (s, r).
Proof.
  unfold has_char. induction s as [|c s IH]; cbn [map_chars any_char]; [done|]. intros [Hc Hs]%orb_false_elim.
  rewrite app_assoc_str, read_toml_char, IH; [done|done|]. intros ->. discriminate.
Qed.

Lemma toml_string_no_lf s : has_char LF (toml_string s) = false.
Proof.
  rewrite toml_string_map. cbn. unfold has_char. rewrite any_char_app, orb_false_r.
  induction s as [|c s IH]; cbn [map_chars any_char]; [done|]. rewrite any_char_app, IH, orb_false_r.
  destruct c as [[] [] [] [] [] [] [] []]; reflexivity.
Qed.

(** ** Values *)

Definition render_value (v : tv) : string :=
  match v with
  | TStr s => toml_string s
  | TBool b => if b then "true" else "false"
  | TInt n => str_Z n
  | TArr l => "[" +:+ join ", " (map (fun x => match x with TStr s => toml_string s | _ => "" end) l) +:+ "]"
  | _ => ""
  end.

Definition plain (s : string) : bool := negb (has_char DEL s).

(** The values the commands write. *)
Definition writable (v : tv) : bool :=
  match v with
  | TStr s => plain s
  | TBool _ => true
  | TInt n => 0 <=? n
  | TArr l => forallb (fun x => match x with TStr s => plain s | _ => false end) l
  | _ => false
  end.

Lemma read_quoted s r : plain s = true -> exists t, toml_string s +:+ r = String DQUOTE t /\ read_basic t = Some (s, r).
Proof.
  intros H%negb_true_iff. rewrite toml_string_map. eexists. split; [reflexivity|]. rewrite app_assoc_str. by apply read_toml_string.
Qed.

Lemma read_elems_join l n r :
  forallb plain l = true -> (length l < n)%nat ->
  read_elems n (join ", " (map toml_string l) +:+ String "]" r) = Some (map TStr l, r).
Proof.
  revert n. induction l as [|x l IH]; intros [|n] Hp Hn; try (cbn in Hn; lia); [reflexivity|].
  cbn [forallb] in Hp. apply andb_prop in Hp as [Hx Hp]. cbn [map]. destruct l as [|y l].
  - cbn [join map]. destruct (read_quoted x (String "]" r) Hx) as (t & -> & Ht). cbn [read_elems lstrip_by is_blank]. cbn. by rewrite Ht.
  - cbn [length] in Hn. change (join ", " (toml_string x :: map toml_string (y :: l))) with (toml_string x +:+ ", " +:+ join ", " (map toml_string (y :: l))).
    rewrite !app_assoc_str. assert (Hrest := IH n Hp ltac:(cbn; lia)). remember (join ", " (map toml_string (y :: l)) +:+ String "]" r) as rest.
    destruct (read_quoted x (", " +:+ rest) Hx) as (t & -> & Ht). cbn. rewrite Ht. cbn.
    assert (E : read_elems n (String " " rest) = read_elems n rest) by (by destruct n). by rewrite E, Hrest.
Qed.

Lemma length_join_literals l : (length l <= String.length (join ", " (map toml_string l)))%nat.
Proof.
  induction l as [|x l IH]; [done|]. assert (Hx : (2 <= String.length (toml_string x))%nat).
  { rewrite toml_string_map. cbn. rewrite length_app_str. cbn. lia. }
  cbn [map]. destruct l as [|y l]; [cbn; lia|].
  change (join ", " (toml_string x :: map toml_string (y :: l))) with (toml_string x +:+ ", " +:+ join ", " (map toml_string (y :: l))).
  rewrite !length_app_str. cbn [length] in *. lia.
Qed.

Lemma span_all p s : all_chars p s = true -> span p s = (s, EmptyString).
Proof. induction s as [|c s IH]; cbn; [done|]. intros [-> Hs]%andb_prop. by rewrite IH. Qed.

Lemma strings_of l :
  forallb (fun x => match x with TStr s => plain s | _ => false end) l = true -> exists ls, l = map TStr ls /\ forallb plain ls = true.
Proof.
  induction l as [|[s| | | | |] l IH]; cbn; try done; [by exists []|]. intros [Hs H]%andb_prop. destruct (IH H) as (ls & -> & Hl).
  exists (s :: ls). cbn. by rewrite Hs, Hl.
Qed.

Lemma dec_is_bare c : is_dec c = true -> is_bare c = true.
Proof. unfold is_bare, is_alnum. intros ->. by rewrite orb_true_r. Qed.

Lemma read_value_render v : writable v = true -> read_value (render_value v) = Some (v, EmptyString).
Proof.
  destruct v as [s|n|b| |l|]; cbn [writable render_value]; try done.
  - intros Hs. destruct (read_quoted s EmptyString Hs) as (t & Et & Ht). rewrite app_nil_r_str in Et. rewrite Et. cbn. by rewrite Ht.
  - intros Hn%Z.leb_le. pose proof (all_digits_str_Z n Hn) as Hd. pose proof (py_int_str_Z n Hn) as Hi.
    assert (Hs : span is_bare (str_Z n) = (str_Z n, EmptyString)) by (apply span_all; by eapply all_chars_impl; [exact dec_is_bare|]).
    assert (Hr : read_scalar (str_Z n) = Some (TInt n)).
    { unfold read_scalar. destruct (String.eqb_spec (str_Z n) "true") as [E|]; [rewrite E in Hd; discriminate|].
      destruct (String.eqb_spec (str_Z n) "false") as [E|]; [rewrite E in Hd; discriminate|]. rewrite Hi. cbn. by rewrite String.eqb_refl. }
    destruct (str_Z n) as [|c r] eqn:E; [by apply str_Z_nonempty in E|]. unfold read_value. cbn in Hd. apply andb_prop in Hd as [Hc _].
    destruct (Ascii.eqb_spec c DQUOTE) as [->|]; [discriminate|]. destruct (Ascii.eqb_spec c "[") as [->|]; [discriminate|]. rewrite Hs, Hr. done.
  - by destruct b.
  - intros (ls & -> & Hl)%strings_of. rewrite map_map. change (map (fun x => toml_string x) ls) with (map toml_string ls).
    assert (E : forall n, (length ls < n)%nat -> read_elems n (join ", " (map toml_string ls) +:+ "]") = Some (map TStr ls, EmptyString))
      by (intros n Hn; by apply read_elems_join).
    unfold read_value. cbn -[read_elems join]. rewrite E; [done|]. rewrite length_app_str. cbn. pose proof (length_join_literals ls). lia.
Qed.

(** ** Lines and documents *)

(** A name that needs no quotes. *)
Definition bare (k : string) : bool := re_plus is_bare k.

Definition header_line (n : string) : string := "[" +:+ n +:+ "]".
Definition key_line (k : string) (v : tv) : string := k +:+ " = " +:+ render_value v.

Lemma bare_not_blank c : is_bare c = true -> is_blank c = false /\ Ascii.eqb c "#" = false /\ Ascii.eqb c "[" = false.
Proof. destruct c as [[] [] [] [] [] [] [] []]; cbn; intros H; first [done|discriminate H]. Qed.

Lemma bare_head k : bare k = true -> exists c r, k = String c r /\ is_bare c = true /\ all_chars is_bare k = true.
Proof.
  unfold bare, re_plus. intros [Hne%negb_true_iff H]%andb_prop. apply bool_decide_eq_false in Hne. destruct k as [|c r]; [done|]. exists c, r.
  split_and!; [done| |done]. cbn in H. by apply andb_prop in H as [-> _].
Qed.

Lemma read_header_line n : bare n = true -> read_line (header_line n) = Some (LHeader n).
Proof.
  intros (c & r & -> & Hc & Ha)%bare_head. unfold read_line, header_line. cbn -[read_header]. unfold read_header.
  change (String c (r +:+ "]")) with (String c r +:+ String "]" EmptyString). by rewrite (span_app is_bare (String c r) "]" EmptyString Ha).
Qed.

Lemma read_key_line k v : bare k = true -> writable v = true -> read_line (key_line k v) = Some (LKey k v).
Proof.
  intros (c & r & -> & Hc & Ha)%bare_head Hv. destruct (bare_not_blank c Hc) as (Hb & Hh & Hx). unfold read_line, key_line.
  assert (E1 : read_end (String c r +:+ " = " +:+ render_value v) = false) by (unfold read_end; cbn; by rewrite Hb, Hh).
  assert (E2 : starts_with "[" (String c r +:+ " = " +:+ render_value v) = false)
    by (change (Ascii.eqb "[" c && true = false); by rewrite Ascii.eqb_sym, Hx).
  rewrite E1, E2. unfold read_key.
  assert (E3 : lstrip_by is_blank (String c r +:+ " = " +:+ render_value v) = String c r +:+ String " " ("= " +:+ render_value v)) by (cbn; by rewrite Hb).
  rewrite E3, (span_app is_bare (String c r) " " _ Ha) by done. cbn -[read_value].
  assert (E4 : lstrip_by is_blank (render_value v) = render_value v).
  { pose proof (read_value_render v Hv) as Hr. destruct (render_value v) as [|a t] eqn:Ev; [done|]. cbn. destruct (is_blank a) eqn:Ea; [|done].
    destruct v as [s|n|b| |l|]; cbn [render_value] in Ev; try done.
    - rewrite toml_string_map in Ev. injection Ev as <- _. discriminate.
    - cbn in Hv. apply Z.leb_le in Hv. pose proof (all_digits_str_Z n Hv) as Hd. rewrite Ev in Hd. cbn in Hd. apply andb_prop in Hd as [Hd%dec_is_bare _].
      by destruct (bare_not_blank a Hd) as [? _]; congruence.
    - destruct b; injection Ev as <- _; discriminate.
    - injection Ev as <- _. discriminate. }
  rewrite E4, (read_value_render v Hv). done.
Qed.

Definition section_lines (sec : string * table) : list string := header_line (fst sec) :: map (fun p => key_line (fst p) (snd p)) (snd sec).

(** Sections with a blank line between them. *)
Definition render_doc (secs : list (string * table)) : list string :=
  match secs with [] => [] | sec :: secs => section_lines sec ++ concat (map (fun sec => "" :: section_lines sec) secs) end.

Definition doc_text (lines : list string) : string := join (chr LF) lines +:+ chr LF.

Definition doc_table (secs : list (string * table)) : table := map (fun sec => (fst sec, TTab (snd sec))) secs.

Record section_ok (sec : string * table) : Prop := {
  so_name : bare (fst sec) = true;
  so_keys : NoDup (map fst (snd sec));
  so_values p : p ∈ snd sec -> bare (fst p) = true /\ writable (snd p) = true }.

Lemma has_key_absent {A} k (l : list (string * A)) : k ∉ map fst l -> has_key k l = false.
Proof.
  unfold has_key. induction l as [|[k' v] l IH]; [done|]. cbn [map fst assoc]. intros [Hne Hin]%not_elem_of_cons.
  rewrite decide_False by congruence. by apply IH.
Qed.

Lemma has_key_here {A} k (l : list (string * A)) : k ∈ map fst l -> has_key k l = true.
Proof.
  unfold has_key. induction l as [|[k' v] l IH]; [by intros ?%elem_of_nil|]. cbn [map fst assoc]. intros [->|Hin]%elem_of_cons; (case_decide; [done|]); [done|by apply IH].
Qed.

Lemma read_keys done n t0 t rest :
  NoDup (map fst (t0 ++ t)) -> (forall p, p ∈ t -> bare (fst p) = true /\ writable (snd p) = true) ->
  read_lines (done, Some (n, t0)) (map (fun p => key_line (fst p) (snd p)) t ++ rest) = read_lines (done, Some (n, t0 ++ t)) rest.
Proof.
  revert t0. induction t as [|[k v] t IH]; intros t0 Hnd Hok; [by rewrite app_nil_r|]. cbn [map app read_lines fst snd].
  destruct (Hok (k, v)) as [Hk Hv]; [by left|]. cbn [fst snd] in Hk, Hv. rewrite (read_key_line k v Hk Hv). cbn [mbind option_bind add_line].
  rewrite map_app, NoDup_app in Hnd. destruct Hnd as (H0 & Hdis & H1). rewrite has_key_absent by (intros Hin; apply (Hdis k Hin); by left).
  cbn [mbind option_bind]. replace (t0 ++ (k, v) :: t) with ((t0 ++ [(k, v)]) ++ t) by (by rewrite <- app_assoc). apply IH.
  - rewrite <- app_assoc, map_app, NoDup_app. done.
  - intros p Hp. apply Hok. by right.
Qed.

Lemma read_section st sec rest :
  section_ok sec -> fst sec ∉ map fst (close st) ->
  read_lines st (section_lines sec ++ rest) = read_lines (close st, Some sec) rest.
Proof.
  intros [Hn Hk Hv] Hnew. destruct sec as [n t]. cbn [fst snd] in *. unfold section_lines. cbn [fst snd app read_lines].
  rewrite (read_header_line n Hn). cbn [mbind option_bind add_line]. rewrite has_key_absent by done. cbn [mbind option_bind].
  by rewrite (read_keys _ n [] t rest).
Qed.

Lemma read_sections st secs :
  (forall sec, sec ∈ secs -> section_ok sec) -> NoDup (map fst (close st) ++ map fst secs) ->
  close <$> read_lines st (concat (map (fun sec => "" :: section_lines sec) secs) ++ [""]) = Some (close st ++ doc_table secs).
Proof.
  revert st. induction secs as [|sec secs IH]; intros st Hok Hnd.
  - cbn. by rewrite app_nil_r.
  - assert (E : read_lines st (concat (map (fun sec => "" :: section_lines sec) (sec :: secs)) ++ [""])
        = read_lines st (section_lines sec ++ concat (map (fun sec => "" :: section_lines sec) secs) ++ [""])) by (by rewrite app_assoc).
    rewrite E. cbn [map] in Hnd. rewrite NoDup_app in Hnd. destruct Hnd as (H0 & Hdis & H1).
    rewrite read_section; [|apply Hok; by left|intros Hin; apply (Hdis _ Hin); by left]. destruct sec as [n t].
    rewrite IH.
    + unfold close at 1. cbn [fst snd]. unfold doc_table. cbn [map]. by rewrite <- app_assoc.
    + intros s Hs. apply Hok. by right.
    + unfold close at 1. cbn [fst snd]. rewrite map_app, <- app_assoc. cbn [map app fst]. rewrite NoDup_app. split_and!; [done|exact Hdis|done].
Qed.

Lemma render_value_no_lf v : writable v = true -> has_char LF (render_value v) = false.
Proof.
  destruct v as [s|n|b| |l|]; cbn [writable render_value]; try done.
  - intros _. apply toml_string_no_lf.
  - intros _. by apply str_Z_no_char.
  - by destruct b.
  - intros (ls & -> & _)%strings_of. rewrite map_map. change (map (fun x => toml_string x) ls) with (map toml_string ls).
    assert (H : has_char LF (join ", " (map toml_string ls)) = false); [|by rewrite !has_char_app, H].
    induction ls as [|x ls IH]; [done|]. cbn [map]. destruct ls as [|y ls]; [apply toml_string_no_lf|].
    change (join ", " (toml_string x :: map toml_string (y :: ls))) with (toml_string x +:+ ", " +:+ join ", " (map toml_string (y :: ls))).
    by rewrite !has_char_app, toml_string_no_lf, IH.
Qed.

Lemma bare_no_lf k : bare k = true -> has_char LF k = false.
Proof. intros (c & r & -> & _ & Ha)%bare_head. by apply (all_chars_no_char is_bare). Qed.

Lemma section_lines_no_lf sec : section_ok sec -> Forall (fun s => has_char LF s = false) (section_lines sec).
Proof.
  intros [Hn _ Hv]. constructor.
  - unfold header_line. by rewrite !has_char_app, (bare_no_lf _ Hn).
  - apply Forall_forall. intros s (p & -> & Hp)%list_elem_of_fmap. destruct (Hv p Hp) as [Hk Hw]. unfold key_line.
    by rewrite !has_char_app, (bare_no_lf _ Hk), (render_value_no_lf _ Hw).
Qed.

(** A document of sections is read back. *)
Lemma doc_reads_back secs :
  secs <> [] -> (forall sec, sec ∈ secs -> section_ok sec) -> NoDup (map fst secs) ->
  read_toml (doc_text (render_doc secs)) = Some (doc_table secs).
Proof.
  intros Hne Hok Hnd. destruct secs as [|sec secs]; [done|]. unfold read_toml, doc_text.
  assert (Hlf : Forall (fun s => has_char LF s = false) (render_doc (sec :: secs))).
  { cbn [render_doc]. apply Forall_app. split; [apply section_lines_no_lf, Hok; by left|]. apply Forall_concat, Forall_forall.
    intros l (s & -> & Hs)%list_elem_of_fmap. constructor; [done|]. apply section_lines_no_lf, Hok. by right. }
  rewrite (split_on_sep LF _ EmptyString : split_on LF (_ +:+ chr LF) = _), split_on_join by done. cbn [split_on render_doc]. rewrite <- app_assoc.
  cbn [map] in Hnd. apply NoDup_cons in Hnd as [Hnew Hnd]. rewrite read_section; [|apply Hok; by left|by intros ?%elem_of_nil].
  rewrite read_sections.
  - destruct sec as [n t]. done.
  - intros s Hs. apply Hok. by right.
  - destruct sec as [n t]. cbn. apply NoDup_cons. done.
Qed.
