(* ===== verification/Create.v ===== *)
(** * New workloads: [lib/cmd_create.py] and the copies of [lib/cmd_catalog.py]

    The three ways a declaration comes to be: from the options of [create], from a
    bundle of the catalog, from another workload.  Each writes the text of a
    [workload.toml] into a directory of its own.  What a copy holds is stated on the
    lines of its text; what is loaded from a text that [TomlText] reads, on tables.

    The host is the directories of the workloads and the declarations in them.
    Parameters: [tomllib], the templates of the catalog, and the checks of
    [validate_single]. *)
From S2P Require Import Prelude PyStr PyRe Toml WorkloadNames NetworkConfig Validation Disable TomlText.
Local Open Scope Z_scope.

(** ** The options *)

Record create_args := mkArgs {
  a_name : string; a_image : string; a_systemd : option string; a_groups : list string;
  a_device : list string; a_gpu : option string; a_input : bool; a_audio : bool; a_virtualization : bool;
  a_network : option string; a_ports : list string; a_volumes : list string;
  a_shm_size : option string; a_cpu_quota : option string; a_cpu_weight : option Z; a_memory_max : option string;
  a_memory_high : option string; a_memory_swap_max : option string; a_io_weight : option Z; a_tasks_max : option Z }.

(** An option that was given, and is not empty or zero. *)
Definition given (o : option string) : bool := match o with Some s => negb (String.eqb s "") | None => false end.
Definition given_n (o : option Z) : bool := match o with Some n => negb (n =? 0) | None => false end.

(** ** The text *)

Definition str_line (k : string) (v : string) : string := k +:+ " = " +:+ toml_string v.
Definition int_line (k : string) (n : Z) : string := k +:+ " = " +:+ str_Z n.
Definition list_line (k : string) (l : list string) : string := k +:+ " = [" +:+ join ", " (map toml_string l) +:+ "]".

Definition opt_line (k : string) (o : option string) : list string := when (given o) [str_line k (default "" o)].
Definition opt_int_line (k : string) (o : option Z) : list string := when (given_n o) [int_line k (default 0 o)].

Definition has_devices (a : create_args) : bool :=
  nonempty (a_device a) || given (a_gpu a) || a_input a || a_audio a || a_virtualization a.

Definition has_resources (a : create_args) : bool :=
  given (a_cpu_quota a) || given_n (a_cpu_weight a) || given (a_memory_max a) || given (a_memory_high a)
  || given (a_memory_swap_max a) || given_n (a_io_weight a) || given_n (a_tasks_max a) || given (a_shm_size a).

(** The network's mode, when ports or a mode are given. *)
Definition mode_of_args (a : create_args) : string := if given (a_network a) then default "" (a_network a) else "pasta".

Definition takes_ports (mode : string) : bool := negb (String.eqb mode "host" || String.eqb mode "none").

Definition device_lines (a : create_args) : list string :=
  when (nonempty (a_device a)) [list_line "devices" (a_device a)] ++ opt_line "gpu" (a_gpu a) ++
  when (a_input a) ["input = true"] ++ when (a_audio a) ["audio = true"] ++ when (a_virtualization a) ["virtualization = true"].

Definition network_lines (a : create_args) : list string :=
  [str_line "mode" (mode_of_args a)] ++ when (nonempty (a_ports a) && takes_ports (mode_of_args a)) [list_line "ports" (a_ports a)].

Definition resource_lines (a : create_args) : list string :=
  opt_line "shm_size" (a_shm_size a) ++ opt_line "cpu_quota" (a_cpu_quota a) ++ opt_int_line "cpu_weight" (a_cpu_weight a) ++
  opt_line "memory_max" (a_memory_max a) ++ opt_line "memory_high" (a_memory_high a) ++ opt_line "memory_swap_max" (a_memory_swap_max a) ++
  opt_int_line "io_weight" (a_io_weight a) ++ opt_int_line "tasks_max" (a_tasks_max a).

Definition config_lines (a : create_args) : list string :=
  ["[workload]"; str_line "name" (a_name a)] ++
  ["" ; "[container]"; str_line "image" (a_image a)] ++ opt_line "systemd" (a_systemd a) ++
  when (nonempty (a_groups a)) [""; "[security]"; list_line "extra_groups" (a_groups a)] ++
  when (has_devices a) (["" ; "[devices]"] ++ device_lines a) ++
  when (given (a_network a) || nonempty (a_ports a)) (["" ; "[network]"] ++ network_lines a) ++
  when (nonempty (a_volumes a)) ["" ; "[storage]"; list_line "volumes" (a_volumes a)] ++
  when (has_resources a) (["" ; "[resources]"] ++ resource_lines a).

Definition config_content (a : create_args) : string := doc_text (config_lines a).

(** ** The configuration the options say *)

Definition strs (l : list string) : tv := TArr (map TStr l).
Definition opt_key (k : string) (o : option string) : table := when (given o) [(k, TStr (default "" o))].
Definition opt_int_key (k : string) (o : option Z) : table := when (given_n o) [(k, TInt (default 0 o))].
Definition flag_key (k : string) (b : bool) : table := when b [(k, TBool true)].

Definition asked_sections (a : create_args) : list (string * table) :=
  [("workload", [("name", TStr (a_name a))]); ("container", ("image", TStr (a_image a)) :: opt_key "systemd" (a_systemd a))] ++
  when (nonempty (a_groups a)) [("security", [("extra_groups", strs (a_groups a))])] ++
  when (has_devices a)
    [("devices", when (nonempty (a_device a)) [("devices", strs (a_device a))] ++ opt_key "gpu" (a_gpu a) ++
                 flag_key "input" (a_input a) ++ flag_key "audio" (a_audio a) ++ flag_key "virtualization" (a_virtualization a))] ++
  when (given (a_network a) || nonempty (a_ports a))
    [("network", ("mode", TStr (mode_of_args a)) :: when (nonempty (a_ports a) && takes_ports (mode_of_args a)) [("ports", strs (a_ports a))])] ++
  when (nonempty (a_volumes a)) [("storage", [("volumes", strs (a_volumes a))])] ++
  when (has_resources a)
    [("resources", opt_key "shm_size" (a_shm_size a) ++ opt_key "cpu_quota" (a_cpu_quota a) ++ opt_int_key "cpu_weight" (a_cpu_weight a) ++
                   opt_key "memory_max" (a_memory_max a) ++ opt_key "memory_high" (a_memory_high a) ++
                   opt_key "memory_swap_max" (a_memory_swap_max a) ++ opt_int_key "io_weight" (a_io_weight a) ++
                   opt_int_key "tasks_max" (a_tasks_max a))].

Definition asked_config (a : create_args) : table := doc_table (asked_sections a).

(** ** The text says what was asked *)

Lemma map_when {A B} (f : A -> B) b l : map f (when b l) = when b (map f l).
Proof. by destruct b. Qed.

Lemma concat_when {A} b (l : list (list A)) : concat (when b l) = when b (concat l).
Proof. by destruct b. Qed.

Lemma list_line_key k l : list_line k l = key_line k (strs l).
Proof. unfold list_line, key_line, strs. cbn [render_value]. by rewrite map_map. Qed.

Lemma opt_line_key k o : opt_line k o = map (fun p => key_line (fst p) (snd p)) (opt_key k o).
Proof. unfold opt_line, opt_key. by rewrite map_when. Qed.

Lemma opt_int_line_key k o : opt_int_line k o = map (fun p => key_line (fst p) (snd p)) (opt_int_key k o).
Proof. unfold opt_int_line, opt_int_key. by rewrite map_when. Qed.

Lemma config_lines_render a : config_lines a = render_doc (asked_sections a).
Proof.
  unfold config_lines, asked_sections, device_lines, network_lines, resource_lines, flag_key. rewrite !list_line_key, !opt_line_key, !opt_int_line_key.
  cbn [app render_doc map concat]. rewrite !map_app, !concat_app, !map_when, !concat_when.
  unfold section_lines. cbn [fst snd map concat app]. rewrite !map_app, !map_when, !app_nil_r. cbn [map fst snd app]. rewrite ?map_when, ?app_assoc. reflexivity.
Qed.

Definition plain_opt (o : option string) : bool := match o with Some s => plain s | None => true end.
Definition nonneg_opt (o : option Z) : bool := match o with Some n => 0 <=? n | None => true end.

(** No option holds a DEL, and no number is negative. *)
Record args_plain (a : create_args) : Prop := {
  ap_strings : forallb plain [a_name a; a_image a] = true;
  ap_options : forallb plain_opt [a_systemd a; a_gpu a; a_network a; a_shm_size a; a_cpu_quota a; a_memory_max a; a_memory_high a; a_memory_swap_max a] = true;
  ap_lists : forallb (forallb plain) [a_groups a; a_device a; a_ports a; a_volumes a] = true;
  ap_numbers : forallb nonneg_opt [a_cpu_weight a; a_io_weight a; a_tasks_max a] = true }.

Lemma when_sublist {A} b (l : list A) : when b l `sublist_of` l.
Proof. destruct b; [done|apply sublist_nil_l]. Qed.

Definition writable_key (p : string * tv) : bool := bare (fst p) && writable (snd p).

Lemma writable_when b l : forallb writable_key l = true -> forallb writable_key (when b l) = true.
Proof. by destruct b. Qed.

Lemma writable_opt k o : bare k = true -> plain_opt o = true -> forallb writable_key (opt_key k o) = true.
Proof. intros Hk Ho. destruct o as [s|]; [|done]. apply writable_when. change (bare k && plain s && true = true). by rewrite Hk, (Ho : plain s = true). Qed.

Lemma writable_opt_int k o : bare k = true -> nonneg_opt o = true -> forallb writable_key (opt_int_key k o) = true.
Proof. intros Hk Ho. destruct o as [n|]; [|done]. apply writable_when. change (bare k && (0 <=? n) && true = true). by rewrite Hk, (Ho : (0 <=? n) = true). Qed.

Lemma writable_strs l : forallb plain l = true -> writable (strs l) = true.
Proof. intros H. cbn. induction l as [|x l IH]; [done|]. cbn in *. apply andb_prop in H as [-> H]. by apply IH. Qed.

Lemma section_ok_of n t ks :
  bare n = true -> NoDup ks -> map fst t `sublist_of` ks -> forallb writable_key t = true -> section_ok (n, t).
Proof.
  intros Hn Hnd Hs Hw. split; [done|by eapply sublist_NoDup|]. intros p Hp. rewrite forallb_forall in Hw.
  specialize (Hw p (proj1 (list_elem_of_In _ _) Hp)). by apply andb_prop in Hw.
Qed.

Lemma writable_cons k v l : bare k = true -> writable v = true -> forallb writable_key l = true -> forallb writable_key ((k, v) :: l) = true.
Proof. intros Hb Hv Hl. change (bare k && writable v && forallb writable_key l = true). by rewrite Hb, Hv, Hl. Qed.

Lemma writable_app l m : forallb writable_key l = true -> forallb writable_key m = true -> forallb writable_key (l ++ m) = true.
Proof. intros Hl Hm. by rewrite forallb_app, Hl, Hm. Qed.

Lemma keys_opt k o : map fst (opt_key k o) `sublist_of` [k].
Proof. unfold opt_key. rewrite map_when. apply when_sublist. Qed.

Lemma keys_opt_int k o : map fst (opt_int_key k o) `sublist_of` [k].
Proof. unfold opt_int_key. rewrite map_when. apply when_sublist. Qed.

Lemma keys_when b k v : map fst (when b [(k, v)] : table) `sublist_of` [k].
Proof. rewrite map_when. apply when_sublist. Qed.

Lemma keys_app (l m : table) ks ks' : map fst l `sublist_of` ks -> map fst m `sublist_of` ks' -> map fst (l ++ m) `sublist_of` ks ++ ks'.
Proof. intros Hl Hm. rewrite map_app. by apply sublist_app. Qed.

Create HintDb sections.
Hint Resolve writable_cons writable_app writable_opt writable_opt_int writable_when writable_strs keys_opt keys_opt_int keys_when keys_app
  sublist_skip : sections.

Lemma mode_plain a : plain_opt (a_network a) = true -> plain (mode_of_args a) = true.
Proof. intros H. unfold mode_of_args. destruct (given (a_network a)); [by destruct (a_network a)|done]. Qed.

Lemma asked_sections_ok a sec : args_plain a -> sec ∈ asked_sections a -> section_ok sec.
Proof.
  intros [Hs Ho Hl Hn]. cbn [forallb] in Hs, Ho, Hl, Hn.
  repeat match goal with H : _ && _ = true |- _ => apply andb_prop in H as [? ?] end.
  assert (Hin : forall b (s : string * table), sec ∈ when b [s] -> sec = s) by (intros [] s; [apply list_elem_of_singleton|by intros ?%elem_of_nil]).
  assert (Hmode : plain (mode_of_args a) = true) by (by apply mode_plain).
  unfold asked_sections. rewrite !elem_of_app, !elem_of_cons.
  intros [Hsec|[Hsec|[Hsec|[Hsec|[Hsec|Hsec]]]]]; [destruct Hsec as [->|[->|?%elem_of_nil]]; [| |done]|apply Hin in Hsec; subst sec..].
  - apply (section_ok_of _ _ ["name"]); [done|by apply (bool_decide_unpack _)|done|]. auto with sections.
  - apply (section_ok_of _ _ ["image"; "systemd"]); [done|by apply (bool_decide_unpack _)|apply sublist_skip, keys_opt|]. auto with sections.
  - apply (section_ok_of _ _ ["extra_groups"]); [done|by apply (bool_decide_unpack _)|done|]. auto with sections.
  - apply (section_ok_of _ _ (["devices"] ++ ["gpu"] ++ ["input"] ++ ["audio"] ++ ["virtualization"])); [done|by apply (bool_decide_unpack _)| |].
    + unfold flag_key. repeat apply keys_app; auto with sections.
    + unfold flag_key. repeat apply writable_app; auto with sections.
  - apply (section_ok_of _ _ ["mode"; "ports"]); [done|by apply (bool_decide_unpack _)|apply sublist_skip, keys_when|]. auto with sections.
  - apply (section_ok_of _ _ ["volumes"]); [done|by apply (bool_decide_unpack _)|done|]. auto with sections.
  - apply (section_ok_of _ _ (["shm_size"] ++ ["cpu_quota"] ++ ["cpu_weight"] ++ ["memory_max"] ++ ["memory_high"] ++ ["memory_swap_max"] ++ ["io_weight"] ++ ["tasks_max"]));
      [done|by apply (bool_decide_unpack _)| |].
    + repeat apply keys_app; auto with sections.
    + repeat apply writable_app; auto with sections.
Qed.

Lemma asked_names a : NoDup (map fst (asked_sections a)).
Proof.
  apply (sublist_NoDup _ (["workload"; "container"] ++ ["security"] ++ ["devices"] ++ ["network"] ++ ["storage"] ++ ["resources"]));
    [by apply (bool_decide_unpack _)|].
  unfold asked_sections. rewrite !map_app, !map_when. repeat apply sublist_app; [done|apply when_sublist..].
Qed.

(** The file says what was asked: the text of the options is read back as the
    configuration they say, section by section and key by key. *)
Lemma content_reads_back a : args_plain a -> read_toml (config_content a) = Some (asked_config a).
Proof.
  intros Ha. unfold config_content. rewrite config_lines_render. apply doc_reads_back; [done|by intros sec; apply asked_sections_ok|apply asked_names].
Qed.

(** ** The host *)

(** The workloads with a directory, and their declarations. *)
Record chost := mkC { ch_dirs : gset string; ch_text : gmap string string }.

Definition clook {A} (f : chost -> A) : io chost A := fun w => (w, Ok (f w)).

Definition make_dir (n : string) : io chost unit := fun w => (mkC ({[ n ]} ∪ ch_dirs w) (ch_text w), Ok tt).

Definition write_text (n text : string) : io chost unit := fun w => (mkC (ch_dirs w) (<[n := text]> (ch_text w)), Ok tt).

Definition unlink_text (n : string) : io chost unit := fun w => (mkC (ch_dirs w) (delete n (ch_text w)), Ok tt).

Section tomllib.
(** [tomllib.loads]; [None] when it refuses the text.  Of its behaviour some theorems use
    that it agrees with [read_toml] on the texts that one reads, a part of TOML. *)
Variable loads : string -> option table.
Hypothesis reads : forall text config, read_toml text = Some config -> loads text = Some config.

(** [WorkloadConfig(name)] *)
Definition parse_text (o : option string) : res table :=
  match o with
  | None => Raise FileNotFoundError
  | Some text => match loads text with Some config => Ok config | None => Raise ValueError end
  end.

Definition config_of (w : chost) (n : string) : res table := load_config (fun n => parse_text (ch_text w !! n)) n.

Definition not_exit (e : exn) : bool := bool_decide (e <> SystemExit).

Section create.
Variable is_root : bool.
(** Whether [validate_single] passes. *)
Variable check : table -> res bool.

(** [cmd_create], up to the optional enable. *)
Definition cmd_create (a : create_args) : io chost unit :=
  let n := a_name a in
  _ ← pure (if is_root then Ok tt else Raise NotRoot);
  _ ← pure (match validate_workload_name n with Ok _ => Ok tt | Raise _ => Raise SystemExit end);
  there ← clook (fun w => bool_decide (n ∈ ch_dirs w));
  if there : bool then pure (Raise SystemExit)
  else
    _ ← make_dir n;
    _ ← write_text n (config_content a);
    try_io
      (config ← (fun w => (w, config_of w n));
       passed ← pure (check config);
       if passed : bool then mret tt else pure (Raise SystemExit))
      not_exit (fun _ => _ ← unlink_text n; pure (Raise SystemExit)).

Lemma asked_name a w : validate_workload_name (a_name a) = Ok tt -> ch_text w !! a_name a = Some (config_content a) -> args_plain a ->
  config_of w (a_name a) = Ok (asked_config a).
Proof.
  intros Hn Ht Ha. unfold config_of, load_config, parse_text. rewrite Ht, (reads _ _ (content_reads_back a Ha)). cbn [mbind res_bind].
  assert (E : index (TTab (asked_config a)) "workload" = Ok (TTab [("name", TStr (a_name a))])) by reflexivity. rewrite E. cbn [mbind res_bind].
  assert (E2 : index (TTab [("name", TStr (a_name a))]) "name" = Ok (TStr (a_name a))) by reflexivity. rewrite E2. cbn [mbind res_bind].
  cbn [is_the_str]. rewrite String.eqb_refl. cbn [negb]. by rewrite Hn.
Qed.

(** A workload that is created has the configuration that was asked for, in a
    directory of its own, and nothing else has changed. *)
Theorem created_as_asked a w :
  args_plain a -> is_root = true -> validate_workload_name (a_name a) = Ok tt -> a_name a ∉ ch_dirs w -> check (asked_config a) = Ok true ->
  exists w', cmd_create a w = (w', Ok tt) /\ config_of w' (a_name a) = Ok (asked_config a) /\
    ch_dirs w' = {[ a_name a ]} ∪ ch_dirs w /\ forall n, n <> a_name a -> ch_text w' !! n = ch_text w !! n.
Proof.
  intros Ha Hr Hn Hd Hc. set (w1 := mkC ({[ a_name a ]} ∪ ch_dirs w) (<[a_name a := config_content a]> (ch_text w))).
  assert (Hcfg : config_of w1 (a_name a) = Ok (asked_config a)) by (apply asked_name; [done|apply lookup_insert_eq|done]).
  exists w1. split_and!; [|done|done|by intros n ?; apply lookup_insert_ne].
  unfold cmd_create. rewrite Hr, Hn. cbv [mbind io_bind pure clook make_dir write_text try_io]. rewrite bool_decide_eq_false_2 by done.
  fold w1. cbn [ch_dirs ch_text]. fold w1. rewrite Hcfg, Hc. done.
Qed.

(** A creation whose check raises takes its file back and leaves the directory, which
    refuses every later creation of the name. *)
Theorem failed_create_blocks_retry a w e :
  is_root = true -> validate_workload_name (a_name a) = Ok tt -> a_name a ∉ ch_dirs w -> e <> SystemExit ->
  (config ← config_of (mkC ({[ a_name a ]} ∪ ch_dirs w) (<[a_name a := config_content a]> (ch_text w))) (a_name a); check config) = Raise e ->
  exists w', cmd_create a w = (w', Raise SystemExit) /\ ch_text w' !! a_name a = None /\
    forall b, a_name b = a_name a -> cmd_create b w' = (w', Raise SystemExit).
Proof.
  intros Hr Hn Hd He Hc. set (w1 := mkC ({[ a_name a ]} ∪ ch_dirs w) (<[a_name a := config_content a]> (ch_text w))) in *.
  exists (mkC (ch_dirs w1) (delete (a_name a) (ch_text w1))). split_and!.
  - unfold cmd_create. rewrite Hr, Hn. cbv [mbind io_bind pure clook make_dir write_text try_io unlink_text]. rewrite bool_decide_eq_false_2 by done.
    cbn [ch_dirs ch_text]. fold w1. cbv [mbind res_bind] in Hc. assert (Hx : not_exit e = true) by (by apply bool_decide_eq_true_2).
    destruct (config_of w1 (a_name a)) as [config|e']; [destruct (check config) as [[]|e']|]; try discriminate Hc; injection Hc as ->; by rewrite Hx.
  - apply lookup_delete_eq.
  - intros b Hb. unfold cmd_create. rewrite Hr, Hb, Hn. cbv [mbind io_bind pure clook]. rewrite bool_decide_eq_true_2; [done|].
    cbn. apply elem_of_union_l. by apply elem_of_singleton.
Qed.
End create.

(** ** [_set_workload_field] *)

Definition lines_text (lines : list string) : string := foldr (fun s r => s +:+ String LF r) EmptyString lines.

(** [^\[workload\][^\n]*\n]: the first line that begins so and is ended. *)
Fixpoint find_section (lines : list string) : option (list string * string * list string) :=
  match lines with
  | h :: (_ :: _) as rest =>
      if starts_with "[workload]" h then Some ([], h, rest)
      else match find_section rest with Some (b, x, r) => Some (h :: b, x, r) | None => None end
  | _ => None
  end.

(** The lines up to the next that begins with a bracket. *)
Fixpoint section_body (lines : list string) : list string * list string :=
  match lines with
  | [] => ([], [])
  | s :: r => if starts_with "[" s then ([], lines) else let '(b, t) := section_body r in (s :: b, t)
  end.

Fixpoint rest_of_line (s : string) : string :=
  match s with EmptyString => EmptyString | String c r => if Ascii.eqb c LF then s else rest_of_line r end.

(** [[ \t]*field\s*=[^\n]*] at the head of a string: what follows the match. *)
Definition field_at (field s : string) : option string :=
  let s := lstrip_by is_blank s in
  if starts_with field s then
    match lstrip_by is_space (str_drop (String.length field) s) with
    | String c r => if Ascii.eqb c "=" then Some (rest_of_line r) else None
    | EmptyString => None
    end
  else None.

(** The search for it at the beginnings of lines: what is before and after. *)
Fixpoint search_field (field : string) (bol : bool) (s : string) : option (string * string) :=
  match (if bol then field_at field s else None) with
  | Some r => Some (EmptyString, r)
  | None =>
      match s with
      | EmptyString => None
      | String c s => match search_field field (Ascii.eqb c LF) s with Some (p, r) => Some (String c p, r) | None => None end
      end
  end.

(** The replacement of [re.sub]: an escaped backslash is one, the escapes of a line
    break, a return and a tab are those characters, a letter or a digit raises, and
    any other pair stays. *)
Fixpoint expand_template (s : string) : res string :=
  match s with
  | EmptyString => Ok EmptyString
  | String c r =>
      if Ascii.eqb c "\" then
        match r with
        | String e r =>
            t ← expand_template r;
            if Ascii.eqb e "\" then Ok (String "\" t) else if Ascii.eqb e "n" then Ok (String LF t)
            else if Ascii.eqb e "r" then Ok (String CR t) else if Ascii.eqb e "t" then Ok (String TAB t)
            else if is_alnum e then Raise ValueError else Ok (String "\" (String e t))
        | EmptyString => Raise ValueError
        end
      else t ← expand_template r; Ok (String c t)
  end.

Definition field_line (field value : string) : string := field +:+ " = " +:+ value.

Definition new_body (field value text : string) : res string :=
  match search_field field true text with
  | Some (p, r) => t ← expand_template (field_line field value); Ok (p +:+ t +:+ r)
  | None => Ok (field_line field value +:+ String LF text)
  end.

Definition set_workload_field (content field value : string) : res string :=
  match find_section (split_on LF content) with
  | None =>
      Ok (content +:+ (if ends_with_char LF content then EmptyString else chr LF) +:+ "[workload]" +:+ String LF (field_line field value +:+ chr LF))
  | Some (before, header, rest) =>
      let '(body, tail) := section_body rest in
      text ← new_body field value (match tail with [] => join (chr LF) body | _ => lines_text body end);
      Ok (lines_text (before ++ [header]) +:+ text +:+ join (chr LF) tail)
  end.

(** ** Where the field is *)

(** The end of a text, or of a line. *)
Definition at_end (t : string) : Prop := t = EmptyString \/ exists r, t = String LF r.

Lemma lstrip_app p s t : lstrip_by p (s +:+ t) = if String.eqb (lstrip_by p s) "" then lstrip_by p t else lstrip_by p s +:+ t.
Proof. induction s as [|c s IH]; [done|]. cbn. destruct (p c); [exact IH|]. done. Qed.

Lemma lstrip_end t : at_end t -> lstrip_by is_blank t = t.
Proof. by intros [-> | [r ->]]. Qed.

Lemma not_at_bare f t c r : bare f = true -> t = String c r -> is_bare c = false -> starts_with f t = false.
Proof.
  intros (d & g & -> & Hd & _)%bare_head -> Hc. change (Ascii.eqb d c && starts_with g r = false). destruct (Ascii.eqb_spec d c) as [->|]; [|done]. congruence.
Qed.

(** A blank line does not hold the field. *)
Lemma field_at_blank f s t : bare f = true -> read_end s = true -> at_end t -> field_at f (s +:+ t) = None.
Proof.
  intros Hf Hs Ht. unfold field_at. rewrite lstrip_app, (lstrip_end t Ht). unfold read_end in Hs. destruct (lstrip_by is_blank s) as [|c r].
  - cbn [String.eqb]. destruct Ht as [-> | [r ->]]; [by destruct (bare_head f Hf) as (d & g & -> & _)|]. by rewrite (not_at_bare f _ LF r).
  - apply andb_prop in Hs as [->%Ascii.eqb_eq _]. change (String.eqb (String "#" r) "") with false. cbn iota.
    by rewrite (not_at_bare f _ "#"%char (r +:+ t)).
Qed.

Lemma bare_not_space c : is_bare c = true -> is_space c = false /\ Ascii.eqb c "=" = false.
Proof. destruct c as [[] [] [] [] [] [] [] []]; cbn; intros H; first [done|discriminate H]. Qed.

(** What a key line is made of. *)
Lemma read_key_parts s k v : read_key s = Some (LKey k v) ->
  bare k = true /\ exists r x, lstrip_by is_blank s = k +:+ r /\ lstrip_by is_blank r = String "=" x.
Proof.
  unfold read_key. destruct (span_spec is_bare (lstrip_by is_blank s)) as [E Ha]. destruct (span is_bare _) as [k' r]. cbn [fst snd] in *.
  destruct k' as [|c k']; [done|]. destruct (lstrip_by is_blank r) as [|d x] eqn:Er; [done|]. destruct (Ascii.eqb_spec d "=") as [->|]; [|done].
  destruct (read_value _) as [[v' r']|]; [|done]. cbn. destruct (read_end r'); [|done]. intros [= <- <-].
  split; [|eauto]. unfold bare, re_plus. by rewrite bool_decide_eq_false_2, Ha.
Qed.

Lemma starts_with_bare f k X : bare f = true -> all_chars is_bare k = true -> (forall c r, X = String c r -> is_bare c = false) ->
  starts_with f (k +:+ X) = true -> exists k', k = f +:+ k'.
Proof.
  intros (d & g & -> & _ & Hf)%bare_head. revert Hf. generalize (String d g). intros f. revert k.
  induction f as [|a f IH]; intros k Hf Hk HX; [by exists k|]. cbn [all_chars] in Hf. apply andb_prop in Hf as [Ha Hf]. destruct k as [|b k].
  - destruct X as [|c r]; [done|]. intros [<-%Ascii.eqb_eq _]%andb_prop. by rewrite (HX a r eq_refl) in Ha.
  - cbn [all_chars] in Hk. apply andb_prop in Hk as [_ Hk]. intros [<-%Ascii.eqb_eq H]%andb_prop. destruct (IH k Hf Hk HX H) as [k' ->]. by exists k'.
Qed.

Lemma rest_of_line_end s t : has_char LF s = false -> at_end t -> rest_of_line (s +:+ t) = t.
Proof.
  unfold has_char. induction s as [|c s IH]; intros Hs Ht; [by destruct Ht as [-> | [r ->]]|]. cbn [any_char] in Hs. apply orb_false_elim in Hs as [Hc Hs].
  change (rest_of_line (String c s +:+ t)) with (if Ascii.eqb c LF then String c (s +:+ t) else rest_of_line (s +:+ t)).
  unfold is_char in Hc. rewrite Ascii.eqb_sym, Hc. by apply IH.
Qed.

(** A key line holds the field exactly when the key is the field. *)
Lemma field_at_key f s k v t :
  bare f = true -> read_key s = Some (LKey k v) -> has_char LF s = false -> at_end t ->
  field_at f (s +:+ t) = if String.eqb k f then Some t else None.
Proof.
  intros Hf (Hk & r & x & Es & Er)%read_key_parts Hlf Ht. destruct (bare_head k Hk) as (d & g & Ek & Hd & Ha).
  assert (HX : forall c y, r +:+ t = String c y -> is_bare c = false).
  { intros c y E. destruct r as [|b r]; [done|]. injection E as <- _. cbn in Er. destruct (is_blank b) eqn:Eb.
    - destruct (is_bare b) eqn:Ebb; [|done]. destruct (bare_not_blank b Ebb) as [? _]. congruence.
    - injection Er as -> _. done. }
  unfold field_at. rewrite lstrip_app, Es. assert (Hne : String.eqb (k +:+ r) "" = false) by (by rewrite Ek). rewrite Hne, app_assoc_str.
  destruct (String.eqb_spec k f) as [->|Hkf].
  - rewrite starts_with_app, str_drop_app.
    assert (Hsp : lstrip_by is_space (r +:+ t) = String "=" (x +:+ t)).
    { clear -Er. induction r as [|b r IH]; [done|]. cbn in Er. change (lstrip_by is_space (String b r +:+ t)) with (if is_space b then lstrip_by is_space (r +:+ t) else String b (r +:+ t)).
      destruct (is_blank b) eqn:Eb; [|by injection Er as -> ->]. assert (is_space b = true) as ->; [|by apply IH].
      unfold is_blank in Eb. apply orb_prop in Eb as [Eb|Eb]; apply Ascii.eqb_eq in Eb as ->; done. }
    rewrite Hsp. cbn. f_equal. apply rest_of_line_end; [|done].
    assert (Hall : forall u, has_char LF (lstrip_by is_blank u) = true -> has_char LF u = true).
    { unfold has_char. induction u as [|c u IH]; [done|]. cbn. destruct (is_blank c); [|done]. intros H%IH. by rewrite H, orb_true_r. }
    destruct (has_char LF x) eqn:Ex; [|done]. rewrite <- Hlf. symmetry. apply Hall. rewrite Es, has_char_app. apply orb_true_iff. right.
    apply Hall. rewrite Er. unfold has_char in *. cbn. by rewrite Ex.
  - destruct (starts_with f (k +:+ r +:+ t)) eqn:Esw; [|done]. destruct (starts_with_bare f k (r +:+ t) Hf Ha HX Esw) as [k' ->].
    rewrite app_assoc_str, str_drop_app. destruct k' as [|c k']; [by rewrite app_nil_r_str in Hkf|]. rewrite all_chars_app in Ha. apply andb_prop in Ha as [_ Ha].
    cbn in Ha. apply andb_prop in Ha as [Hc _]. destruct (bare_not_space c Hc) as [Hsp Heq]. cbn. by rewrite Hsp, Heq.
Qed.

Definition misses (f s : string) : Prop := has_char LF s = false /\ forall t, at_end t -> field_at f (s +:+ t) = None.

Definition prefixed (b : string) (o : option (string * string)) : option (string * string) :=
  match o with Some (p, r) => Some (b +:+ p, r) | None => None end.

Lemma search_true f s :
  search_field f true s = match field_at f s with
                          | Some r => Some (EmptyString, r)
                          | None => match s with EmptyString => None | String c s => prefixed (chr c) (search_field f (Ascii.eqb c LF) s) end
                          end.
Proof. destruct s; cbn; [done|]. by destruct (field_at f _); [|destruct (search_field _ _ _) as [[]|]]. Qed.

Lemma search_inner f s rest :
  has_char LF s = false -> search_field f false (s +:+ String LF rest) = prefixed (s +:+ chr LF) (search_field f true rest).
Proof.
  unfold has_char. induction s as [|c s IH]; [reflexivity|]. cbn [any_char]. intros [Hc Hs]%orb_false_elim.
  unfold is_char in Hc. rewrite Ascii.eqb_sym in Hc.
  change (search_field f false (String c s +:+ String LF rest)) with (prefixed (chr c) (search_field f (Ascii.eqb c LF) (s +:+ String LF rest))).
  rewrite Hc, IH by done. by destruct (search_field f true rest) as [[]|].
Qed.

Lemma search_inner_end f s : has_char LF s = false -> search_field f false s = None.
Proof.
  unfold has_char. induction s as [|c s IH]; [done|]. cbn [any_char]. intros [Hc Hs]%orb_false_elim. unfold is_char in Hc. rewrite Ascii.eqb_sym in Hc.
  change (search_field f false (String c s)) with (prefixed (chr c) (search_field f (Ascii.eqb c LF) s)). by rewrite Hc, IH.
Qed.

Lemma search_miss f s rest : misses f s -> search_field f true (s +:+ String LF rest) = prefixed (s +:+ chr LF) (search_field f true rest).
Proof.
  intros [Hlf Hm]. rewrite search_true, Hm by (right; eauto). destruct s as [|c s]; [done|].
  change (prefixed (chr c) (search_field f (Ascii.eqb c LF) (s +:+ String LF rest)) = prefixed (String c s +:+ chr LF) (search_field f true rest)).
  unfold has_char in Hlf. cbn [any_char] in Hlf. apply orb_false_elim in Hlf as [Hc Hs]. unfold is_char in Hc. rewrite Ascii.eqb_sym in Hc.
  rewrite Hc, search_inner by done. by destruct (search_field f true rest) as [[]|].
Qed.

Lemma search_miss_end f s : misses f s -> search_field f true s = None.
Proof.
  intros [Hlf Hm]. pose proof (Hm EmptyString (or_introl eq_refl)) as H0. rewrite app_nil_r_str in H0. rewrite search_true, H0. destruct s as [|c s]; [done|].
  unfold has_char in Hlf. cbn [any_char] in Hlf. apply orb_false_elim in Hlf as [Hc Hs]. unfold is_char in Hc. rewrite Ascii.eqb_sym in Hc.
  rewrite Hc. by rewrite search_inner_end.
Qed.

Lemma search_lines f b rest :
  (forall s, s ∈ b -> misses f s) -> search_field f true (lines_text b +:+ rest) = prefixed (lines_text b) (search_field f true rest).
Proof.
  induction b as [|s b IH]; intros Hb.
  { change (search_field f true rest = prefixed EmptyString (search_field f true rest)). by destruct (search_field f true rest) as [[]|]. }
  cbn [lines_text foldr]. rewrite app_assoc_str.
  change (String LF (foldr (fun s r => s +:+ String LF r) EmptyString b) +:+ rest) with (String LF (lines_text b +:+ rest)).
  rewrite search_miss by (apply Hb; by left). rewrite IH by (intros; apply Hb; by right).
  destruct (search_field f true rest) as [[p r]|]; [|done]. cbn [prefixed]. by rewrite !app_assoc_str.
Qed.

Lemma search_nil f : bare f = true -> search_field f true EmptyString = None.
Proof. by intros (c & r & -> & _)%bare_head. Qed.

(** ** Texts as lines *)

Lemma join_lines l m : m <> [] -> join (chr LF) (l ++ m) = lines_text l +:+ join (chr LF) m.
Proof.
  intros Hm. induction l as [|s l IH]; [done|]. cbn [app lines_text foldr].
  assert (E : join (chr LF) (s :: l ++ m) = s +:+ String LF (join (chr LF) (l ++ m))) by (destruct (l ++ m) eqn:E; [by destruct l|done]).
  rewrite E, IH. by rewrite app_assoc_str.
Qed.

Lemma lines_text_app l m : lines_text (l ++ m) = lines_text l +:+ lines_text m.
Proof. induction l as [|s l IH]; [done|]. cbn [app lines_text foldr]. fold (lines_text (l ++ m)). by rewrite IH, app_assoc_str. Qed.

Lemma expand_plain s : has_char "\" s = false -> expand_template s = Ok s.
Proof.
  unfold has_char. induction s as [|c s IH]; [done|]. cbn [any_char expand_template]. intros [Hc Hs]%orb_false_elim. unfold is_char in Hc.
  rewrite Ascii.eqb_sym, Hc, (IH Hs). done.
Qed.

(** ** Reading the edited section *)

Lemma has_key_fst {A B} k (l : list (string * A)) (m : list (string * B)) : map fst l = map fst m -> has_key k l = has_key k m.
Proof.
  revert m. induction l as [|[a x] l IH]; intros [|[b y] m]; cbn [map fst]; try done. intros [= -> H]. unfold has_key in *. cbn [assoc].
  case_decide; [done|]. by apply IH.
Qed.

Lemma has_key_app {A} k (l m : list (string * A)) : has_key k (l ++ m) = has_key k l || has_key k m.
Proof. induction l as [|[a x] l IH]; [done|]. unfold has_key in *. cbn [app assoc]. case_decide; [done|]. exact IH. Qed.

Lemma has_key_cons {A} k a (x : A) l : has_key k ((a, x) :: l) = bool_decide (a = k) || has_key k l.
Proof. unfold has_key. cbn [assoc]. case_decide as H; [by rewrite bool_decide_eq_true_2|by rewrite bool_decide_eq_false_2]. Qed.

(** A line of the body: blank or a key. *)
Definition in_body (s : string) : Prop := has_char LF s = false /\ starts_with "[" s = false.

Lemma body_line s l : in_body s -> read_line s = Some l ->
  (l = LBlank /\ read_end s = true) \/ exists k v, l = LKey k v /\ read_key s = Some (LKey k v).
Proof.
  intros [_ Hs]. unfold read_line. destruct (read_end s); [intros [= <-]; by left|]. rewrite Hs. intros H. right. revert H. unfold read_key.
  destruct (span is_bare _) as [[|c k] r]; [done|]. destruct (lstrip_by is_blank r) as [|d x]; [done|]. destruct (Ascii.eqb d "="); [|done].
  destruct (read_value _) as [[v r']|]; [|done]. cbn. destruct (read_end r'); [|done]. intros [= <-]. eauto.
Qed.

Lemma line_misses f s l : bare f = true -> in_body s -> read_line s = Some l -> (forall v, l <> LKey f v) -> misses f s.
Proof.
  intros Hf Hb Hl Hne. split; [apply Hb|]. intros t Ht. destruct (body_line s l Hb Hl) as [[_ He]|(k & v & -> & Hk)]; [by apply field_at_blank|].
  rewrite (field_at_key f s k v t Hf Hk (proj1 Hb) Ht). destruct (String.eqb_spec k f) as [->|]; [|done]. by destruct (Hne v).
Qed.

Lemma line_hits f s v t : bare f = true -> in_body s -> read_line s = Some (LKey f v) -> at_end t -> field_at f (s +:+ t) = Some t.
Proof.
  intros Hf Hb Hl Ht. destruct (body_line s _ Hb Hl) as [[? _]|(k & v' & [= <- <-] & Hk)]; [done|].
  by rewrite (field_at_key f s f v t Hf Hk (proj1 Hb) Ht), String.eqb_refl.
Qed.

(** A body adds its keys to the open table, whatever values that has. *)
Lemma body_adds d n body t st :
  (forall s, s ∈ body -> in_body s) -> read_lines (d, Some (n, t)) body = Some st ->
  exists kvs, st = (d, Some (n, t ++ kvs)) /\
    forall u, (forall k, has_key k kvs = true -> has_key k u = has_key k t) -> read_lines (d, Some (n, u)) body = Some (d, Some (n, u ++ kvs)).
Proof.
  revert t. induction body as [|s body IH]; intros t Hb.
  { intros [= <-]. exists []. rewrite app_nil_r. split; [done|]. intros u _. by rewrite app_nil_r. }
  cbn [read_lines]. destruct (read_line s) as [l|] eqn:El; [|done]. cbn [mbind option_bind]. destruct (body_line s l) as [[-> _]|(k & v & -> & _)]; [apply Hb; by left|done|..].
  - cbn [add_line mbind option_bind]. apply IH. intros; apply Hb; by right.
  - cbn [add_line]. destruct (has_key k t) eqn:Ek; [done|]. cbn [mbind option_bind]. intros H. apply IH in H as (kvs & -> & Hu); [|intros; apply Hb; by right].
    exists ((k, v) :: kvs). rewrite <- app_assoc. split; [done|]. intros u Hk. rewrite (Hk k), Ek by (by rewrite has_key_cons, bool_decide_eq_true_2). cbn [mbind option_bind].
    rewrite Hu, <- app_assoc; [done|]. intros j Hj. rewrite !has_key_app. f_equal. apply Hk. rewrite has_key_cons, Hj. apply orb_true_r.
Qed.

(** A tail does not look at the values of the closed tables. *)
Lemma tail_adds d c ls d' c' :
  read_lines (d, c) ls = Some (d', c') -> exists x, d' = d ++ x /\ forall e, map fst e = map fst d -> read_lines (e, c) ls = Some (e ++ x, c').
Proof.
  revert d c. induction ls as [|s ls IH]; intros d c; cbn [read_lines].
  { intros [= <- <-]. exists []. rewrite app_nil_r. split; [done|]. intros e _. by rewrite app_nil_r. }
  destruct (read_line s) as [l|]; [|done]. cbn [mbind option_bind]. destruct l as [|h|k v]; cbn [add_line].
  - apply IH.
  - destruct (has_key h (close (d, c))) eqn:Eh; [done|]. cbn [mbind option_bind]. intros H. apply IH in H as (x & -> & Hx).
    assert (Hc : forall e, exists y, close (e, c) = e ++ y /\ forall e', close (e', c) = e' ++ y).
    { intros e. unfold close. cbn [fst snd]. destruct c as [[m t]|]; [by exists [(m, TTab t)]|]. exists []. rewrite app_nil_r. split; [done|]. intros. by rewrite app_nil_r. }
    destruct (Hc d) as (y & Ey & Hy). exists (y ++ x). rewrite Ey, app_assoc. split; [done|]. intros e He.
    assert (Hf : map fst (close (e, c)) = map fst (close (d, c))) by (rewrite Hy, Ey, !map_app; by rewrite He).
    rewrite (has_key_fst _ _ _ Hf), Eh. cbn [mbind option_bind]. etrans; [exact (Hx _ Hf)|]. by rewrite Hy, app_assoc.
  - destruct c as [[m t]|].
    + destruct (has_key k t); [done|]. cbn [mbind option_bind]. apply IH.
    + destruct (has_key k d) eqn:Ek; [done|]. cbn [mbind option_bind]. intros H. apply IH in H as (x & -> & Hx). exists ((k, v) :: x).
      rewrite <- app_assoc. split; [done|]. intros e He. rewrite (has_key_fst _ _ _ He), Ek. cbn [mbind option_bind].
      rewrite Hx, <- app_assoc; [done|]. rewrite !map_app. by rewrite He.
Qed.

(** A body without the field, or split at the line that has it. *)
Lemma body_edit f x d n body t kvs :
  bare f = true -> (forall s, s ∈ body -> in_body s) -> has_key f t = false ->
  read_lines (d, Some (n, t)) body = Some (d, Some (n, t ++ kvs)) ->
  ((forall s, s ∈ body -> misses f s) /\ has_key f kvs = false) \/
  exists b1 s b2 v, body = b1 ++ s :: b2 /\ (forall s, s ∈ b1 -> misses f s) /\ in_body s /\ read_line s = Some (LKey f v) /\ has_key f kvs = true /\
    forall L, read_line L = Some (LKey f x) -> read_lines (d, Some (n, t)) (b1 ++ L :: b2) = Some (d, Some (n, t ++ assoc_set f x kvs)).
Proof.
  intros Hf. revert t kvs. induction body as [|s body IH]; intros t kvs Hb Ht; cbn [read_lines].
  { intros [= E]. apply (f_equal length) in E. rewrite length_app in E. destruct kvs; [|cbn in E; lia]. left. split; [by intros s ?%elem_of_nil|done]. }
  assert (Hs : in_body s) by (apply Hb; by left). assert (Hb' : forall s, s ∈ body -> in_body s) by (intros; apply Hb; by right).
  destruct (read_line s) as [l|] eqn:El; [|done]. cbn [mbind option_bind]. destruct (body_line s l Hs El) as [[-> _]|(k & v & -> & _)]; cbn [add_line mbind option_bind].
  - intros H. destruct (IH t kvs Hb' Ht H) as [[Hm Hk]|(b1 & s' & b2 & v & -> & Hm & Hs' & El' & Hk & Hnew)].
    + left. split; [|done]. intros u [->|Hu]%elem_of_cons; [|by apply Hm]. by eapply line_misses.
    + right. exists (s :: b1), s', b2, v. split_and!; try done.
      * intros u [->|Hu]%elem_of_cons; [|by apply Hm]. by eapply line_misses.
      * intros L HL. cbn [app read_lines]. rewrite El. cbn [mbind option_bind add_line]. by apply Hnew.
  - destruct (has_key k t) eqn:Ek; [done|]. cbn [mbind option_bind]. intros H. destruct (body_adds _ _ _ _ _ Hb' H) as (kvs' & E & Hu).
    assert (Ekv : kvs = (k, v) :: kvs') by (injection E as E; by rewrite <- app_assoc in E; apply app_inv_head in E). subst kvs. clear E.
    destruct (decide (k = f)) as [->|Hne].
    + right. exists [], s, body, v. split_and!; try done; [by intros u ?%elem_of_nil|by rewrite has_key_cons, bool_decide_eq_true_2|].
      intros L HL. cbn [app read_lines]. rewrite HL. cbn [mbind option_bind add_line]. rewrite Ek. cbn [mbind option_bind assoc_set].
      rewrite decide_True by done. rewrite Hu, <- app_assoc; [done|]. intros j _. by rewrite !has_key_app, !has_key_cons.
    + assert (Ht' : has_key f (t ++ [(k, v)]) = false) by (rewrite has_key_app, Ht, has_key_cons, bool_decide_eq_false_2; done).
      assert (H' : read_lines (d, Some (n, t ++ [(k, v)])) body = Some (d, Some (n, (t ++ [(k, v)]) ++ kvs'))) by (rewrite H, <- app_assoc; done).
      destruct (IH _ _ Hb' Ht' H') as [[Hm Hk]|(b1 & s' & b2 & v' & -> & Hm & Hs' & El' & Hk & Hnew)].
      * left. split; [|by rewrite has_key_cons, bool_decide_eq_false_2]. intros u [->|Hu']%elem_of_cons; [|by apply Hm]. eapply line_misses; [done..|]. congruence.
      * right. exists (s :: b1), s', b2, v'. split_and!; try done; [|by rewrite has_key_cons, bool_decide_eq_false_2|].
        -- intros u [->|Hu']%elem_of_cons; [|by apply Hm]. eapply line_misses; [done..|]. congruence.
        -- intros L HL. cbn [app read_lines]. rewrite El. cbn [mbind option_bind add_line]. rewrite Ek. cbn [mbind option_bind].
           rewrite (Hnew L HL), <- app_assoc. cbn [app assoc_set]. by rewrite decide_False.
Qed.

(** ** The edited text *)

Lemma find_section_Some lines b h r :
  find_section lines = Some (b, h, r) -> lines = b ++ h :: r /\ r <> [] /\ starts_with "[workload]" h = true.
Proof.
  revert b h r. induction lines as [|x [|y lines] IH]; intros b h r; try done.
  change (find_section (x :: y :: lines)) with (if starts_with "[workload]" x then Some ([], x, y :: lines)
    else match find_section (y :: lines) with Some (b, z, r) => Some (x :: b, z, r) | None => None end).
  destruct (starts_with "[workload]" x) eqn:E; [by intros [= <- <- <-]|]. destruct (find_section (y :: lines)) as [[[b' h'] r']|] eqn:Ef; [|done].
  intros [= <- <- <-]. destruct (IH _ _ _ eq_refl) as (-> & Hr & Hh). done.
Qed.

Lemma section_body_spec rest b t :
  section_body rest = (b, t) -> rest = b ++ t /\ forall s, s ∈ b -> starts_with "[" s = false.
Proof.
  revert b t. induction rest as [|s rest IH]; intros b t; cbn [section_body]; [intros [= <- <-]; split; [done|by intros s ?%elem_of_nil]|].
  destruct (starts_with "[" s) eqn:E; [intros [= <- <-]; split; [done|by intros u ?%elem_of_nil]|].
  destruct (section_body rest) as [b' t'] eqn:Er. intros [= <- <-]. destruct (IH _ _ eq_refl) as [-> Hb]. split; [done|].
  intros u [->|Hu]%elem_of_cons; [done|by apply Hb].
Qed.

Lemma header_reads h l : starts_with "[workload]" h = true -> read_line h = Some l -> l = LHeader "workload".
Proof.
  intros [t ->]%starts_with_spec. unfold read_line.
  change (read_end ("[workload]" +:+ t)) with false. change (starts_with "[" ("[workload]" +:+ t)) with true.
  change (str_drop 1 ("[workload]" +:+ t)) with ("workload" +:+ String "]" t). cbn iota. unfold read_header. rewrite span_app by done.
  change (Ascii.eqb "]" "]") with true. cbn [andb]. by destruct (read_end t); intros [= <-].
Qed.

Definition body_text (body tail : list string) : string := match tail with [] => join (chr LF) body | _ => lines_text body end.

Lemma body_text_at b1 b2 tail : exists t, at_end t /\ forall s, body_text (b1 ++ s :: b2) tail = lines_text b1 +:+ s +:+ t.
Proof.
  destruct tail as [|h tail]; cbn [body_text].
  - exists (match b2 with [] => EmptyString | _ => String LF (join (chr LF) b2) end). split; [destruct b2; [by left|right; eauto]|].
    intros s. rewrite join_lines by done. destruct b2; cbn [join]; [by rewrite app_nil_r_str|done].
  - exists (String LF (lines_text b2)). split; [right; eauto|]. intros s. by rewrite lines_text_app.
Qed.

Lemma whole_text before header body tail :
  body ++ tail <> [] -> lines_text (before ++ [header]) +:+ body_text body tail +:+ join (chr LF) tail = join (chr LF) (before ++ header :: body ++ tail).
Proof.
  intros Hne. replace (before ++ header :: body ++ tail) with ((before ++ [header]) ++ body ++ tail) by (by rewrite <- app_assoc).
  rewrite (join_lines (before ++ [header])) by done. f_equal. destruct tail as [|h tail]; cbn [body_text].
  - by rewrite app_nil_r, app_nil_r_str.
  - by rewrite join_lines.
Qed.

(** The field after an edit: in its place, or first. *)
Definition put (k : string) (v : tv) (t : table) : table := if has_key k t then assoc_set k v t else (k, v) :: t.

Lemma new_body_spec f value d n body tail kvs v :
  bare f = true -> (forall s, s ∈ body -> in_body s) -> read_lines (d, Some (n, [])) body = Some (d, Some (n, kvs)) ->
  has_char "\" (field_line f value) = false -> read_line (field_line f value) = Some (LKey f v) -> body ++ tail <> [] ->
  exists body', new_body f value (body_text body tail) = Ok (body_text body' tail) /\
    (forall s, s ∈ body' -> s ∈ body \/ s = field_line f value) /\ body' <> [] /\
    read_lines (d, Some (n, [])) body' = Some (d, Some (n, put f v kvs)).
Proof.
  intros Hf Hb Hr Hbs HL Hne. unfold put, new_body. set (L := field_line f value) in *.
  destruct (body_edit f v d n body [] kvs Hf Hb eq_refl Hr) as [[Hm Hk]|(b1 & s & b2 & w & -> & Hm & Hs & El & Hk & Hnew)]; rewrite Hk.
  - assert (Hs : search_field f true (body_text body tail) = None).
    { destruct tail as [|h tail]; cbn [body_text].
      - destruct (exists_last (l := body)) as (b & s & ->); [by rewrite app_nil_r in Hne|]. rewrite join_lines by done. cbn [join].
        rewrite search_lines, search_miss_end; [done|apply Hm, elem_of_app; right; by left|intros u Hu; apply Hm, elem_of_app; by left].
      - rewrite <- (app_nil_r_str (lines_text body)), search_lines by done. by rewrite search_nil. }
    rewrite Hs. exists (L :: body). split_and!; [|intros u [->|?]%elem_of_cons; auto|done|].
    + f_equal. destruct tail as [|h tail]; cbn [body_text]; [|done]. rewrite app_nil_r in Hne. by destruct body.
    + cbn [read_lines]. rewrite HL. cbn [mbind option_bind add_line]. change (has_key f []) with false. cbn iota. cbn [mbind option_bind app].
      destruct (body_adds _ _ _ _ _ Hb Hr) as (kvs' & E & Hu). injection E as E. cbn in E. subst kvs'. rewrite Hu; [done|]. intros k Hk'.
      rewrite has_key_cons, bool_decide_eq_false_2; [done|]. intros <-. congruence.
  - destruct (body_text_at b1 b2 tail) as (t & Ht & Et). rewrite Et, search_lines by done.
    rewrite search_true, (line_hits f s w t Hf Hs El Ht). cbn [prefixed]. rewrite expand_plain by done. cbn [mbind res_bind].
    exists (b1 ++ L :: b2). split_and!; [by rewrite Et, app_nil_r_str|set_solver|by destruct b1|by apply Hnew].
Qed.

Lemma find_section_here before header rest :
  starts_with "[workload]" header = true -> rest <> [] -> find_section (before ++ header :: rest) <> None.
Proof.
  intros Hh Hr. induction before as [|x before IH]; cbn [app].
  - destruct rest as [|y rest]; [done|]. cbn [find_section]. by rewrite Hh.
  - destruct (before ++ header :: rest) as [|y l] eqn:E; [by destruct before|].
    change (find_section (x :: y :: l)) with (if starts_with "[workload]" x then Some ([], x, y :: l)
      else match find_section (y :: l) with Some (b, z, r) => Some (x :: b, z, r) | None => None end).
    destruct (starts_with "[workload]" x); [done|]. by destruct (find_section (y :: l)) as [[[]]|].
Qed.

Lemma tail_begins rest b t : section_body rest = (b, t) -> t = [] \/ exists h t', t = h :: t' /\ starts_with "[" h = true.
Proof.
  revert b t. induction rest as [|s rest IH]; intros b t; cbn [section_body]; [intros [= _ <-]; by left|].
  destruct (starts_with "[" s) eqn:E; [intros [= _ <-]; right; eauto|]. destruct (section_body rest) as [b' t'] eqn:Er. intros [= _ <-]. by eapply IH.
Qed.

Lemma bracket_is_header h l : starts_with "[" h = true -> read_line h = Some l -> exists m, l = LHeader m.
Proof.
  intros Hh. unfold read_line. assert (He : read_end h = false) by (apply starts_with_spec in Hh as [t ->]; reflexivity). rewrite He, Hh. unfold read_header.
  destruct (span _ _) as [[|c n] [|d r]]; try done. destruct (_ && _); [|done]. intros [= <-]. eauto.
Qed.

(** What follows the open table does not depend on what that holds. *)
Lemma tail_from D n t tail st :
  tail = [] \/ (exists h r, tail = h :: r /\ starts_with "[" h = true) -> read_lines (D, Some (n, t)) tail = Some st ->
  exists y, close st = D ++ (n, TTab t) :: y /\
    forall u, exists st', read_lines (D, Some (n, u)) tail = Some st' /\ close st' = D ++ (n, TTab u) :: y.
Proof.
  intros [->|(h & r & -> & Hh)].
  { intros [= <-]. exists []. split; [done|]. intros u. by eexists. }
  cbn [read_lines]. destruct (read_line h) as [l|] eqn:El; [|done]. destruct (bracket_is_header h l Hh El) as [m ->]. cbn [mbind option_bind add_line].
  assert (Hkey : forall u, has_key m (close (D, Some (n, u))) = has_key m (close (D, Some (n, t))))
    by (intros u; apply has_key_fst; unfold close; cbn [fst snd]; by rewrite !map_app).
  destruct (has_key m (close (D, Some (n, t)))) eqn:Em; [done|]. cbn [mbind option_bind]. destruct st as [d' c']. intros (x & -> & Hx)%tail_adds.
  exists (x ++ match c' with Some (k, u) => [(k, TTab u)] | None => [] end). split.
  - unfold close. cbn [fst snd]. destruct c' as [[k u]|]; by rewrite <- !app_assoc, ?app_nil_r.
  - intros u. rewrite Hkey. cbn [mbind option_bind]. eexists. split; [apply Hx; unfold close; cbn [fst snd]; by rewrite !map_app|].
    unfold close. cbn [fst snd]. destruct c' as [[k w]|]; by rewrite <- !app_assoc, ?app_nil_r.
Qed.

Lemma read_lines_app st l m : read_lines st (l ++ m) = (st ← read_lines st l; read_lines st m).
Proof.
  revert st. induction l as [|s l IH]; intros st; [done|]. cbn [app read_lines]. destruct (read_line s) as [x|]; [|done]. cbn [mbind option_bind].
  destruct (add_line st x); [|done]. cbn [mbind option_bind]. apply IH.
Qed.

Lemma assoc_at {A} k (v : A) l m : has_key k l = false -> assoc k (l ++ (k, v) :: m) = Some v.
Proof.
  induction l as [|[a x] l IH]; cbn [app assoc]; [by rewrite decide_True|]. rewrite has_key_cons. intros [Hne H]%orb_false_elim.
  rewrite decide_False by (by apply bool_decide_eq_false in Hne). by apply IH.
Qed.

Lemma assoc_set_at {A} k (v u : A) l m : has_key k l = false -> assoc_set k u (l ++ (k, v) :: m) = l ++ (k, u) :: m.
Proof.
  induction l as [|[a x] l IH]; cbn [app assoc_set]; [by rewrite decide_True|]. rewrite has_key_cons. intros [Hne H]%orb_false_elim.
  rewrite decide_False by (by apply bool_decide_eq_false in Hne). by rewrite IH.
Qed.

Lemma set_field_reads content config f v :
  read_toml content = Some config -> find_section (split_on LF content) <> None -> bare f = true -> plain v = true -> has_char "\" (toml_string v) = false ->
  exists text t, assoc "workload" config = Some (TTab t) /\ set_workload_field content f (toml_string v) = Ok text /\
    read_toml text = Some (assoc_set "workload" (TTab (put f (TStr v) t)) config) /\ find_section (split_on LF text) <> None.
Proof.
  intros Hread Hsec Hf Hv Hbs. unfold set_workload_field. destruct (find_section _) as [[[before header] rest]|] eqn:Ef; [clear Hsec|done].
  destruct (find_section_Some _ _ _ _ Ef) as (El & Hrest & Hh). destruct (section_body rest) as [body tail] eqn:Eb.
  destruct (section_body_spec _ _ _ Eb) as [-> Hbody]. pose proof (tail_begins _ _ _ Eb) as Htail.
  pose proof (split_on_Forall LF content) as Hlf. rewrite El in Hlf. unfold read_toml in Hread. rewrite El in Hread.
  destruct (read_lines ([], None) _) as [st|] eqn:Er; [|done]. injection Hread as <-. rewrite read_lines_app in Er.
  destruct (read_lines ([], None) before) as [st1|] eqn:E1; [|done]. cbn [mbind option_bind read_lines] in Er.
  destruct (read_line header) as [l|] eqn:Ehl; [|done]. assert (l = LHeader "workload") as -> by (by eapply header_reads). cbn [mbind option_bind add_line] in Er.
  destruct (has_key "workload" (close st1)) eqn:Ek; [done|]. cbn [mbind option_bind] in Er. rewrite read_lines_app in Er.
  destruct (read_lines (close st1, Some ("workload", [])) body) as [st2|] eqn:E2; [|done]. cbn [mbind option_bind] in Er.
  rewrite Forall_app, Forall_cons, Forall_app in Hlf. destruct Hlf as (Hl1 & Hl2 & Hl3 & Hl4). rewrite Forall_forall in Hl3.
  assert (Hin : forall s, s ∈ body -> in_body s) by (intros s Hs; split; [by apply Hl3|by apply Hbody]).
  destruct (body_adds _ _ _ _ _ Hin E2) as (kvs & -> & _). cbn [app] in *. destruct (tail_from _ _ _ _ _ Htail Er) as (y & -> & Hy).
  assert (HL : read_line (field_line f (toml_string v)) = Some (LKey f (TStr v))) by (by apply (read_key_line f (TStr v))).
  assert (HLbs : has_char "\" (field_line f (toml_string v)) = false).
  { unfold field_line. rewrite !has_char_app, Hbs. destruct (bare_head f Hf) as (c & r & -> & _ & Ha). by rewrite (all_chars_no_char is_bare). }
  destruct (new_body_spec f (toml_string v) _ _ body tail kvs (TStr v) Hf Hin E2 HLbs HL Hrest) as (body' & Hnb & Hsub & Hne & Hrb).
  fold (body_text body tail). rewrite Hnb. cbn [mbind res_bind]. rewrite whole_text by (by destruct body').
  assert (Hlf' : Forall (fun s => has_char LF s = false) (before ++ header :: body' ++ tail)).
  { apply Forall_app. split; [done|]. constructor; [done|]. apply Forall_app. split; [|done]. apply Forall_forall. intros s [Hs| ->]%Hsub; [by apply Hl3|].
    unfold field_line. by rewrite !has_char_app, (bare_no_lf f Hf), toml_string_no_lf. }
  exists (join (chr LF) (before ++ header :: body' ++ tail)), kvs. unfold read_toml. rewrite split_on_join; [|by destruct before|done]. split_and!; [by apply assoc_at|done| |].
  - rewrite read_lines_app, E1. cbn [mbind option_bind read_lines]. rewrite Ehl. cbn [mbind option_bind add_line]. rewrite Ek. cbn [mbind option_bind].
    rewrite read_lines_app, Hrb. cbn [mbind option_bind]. destruct (Hy (put f (TStr v) kvs)) as (st' & -> & Hc). cbn. rewrite Hc. by rewrite assoc_set_at.
  - apply find_section_here; [done|by destruct body'].
Qed.

(** ** The edit, line by line *)

(** A line that assigns a field, and one on which the field stands alone, where the
    pattern would look for the equals sign on the lines below: TOML has no such line. *)
Definition assigns (f s : string) : bool := match field_at f s with Some _ => true | None => false end.

Definition alone (f s : string) : bool :=
  let u := lstrip_by is_blank s in starts_with f u && String.eqb (lstrip_by is_space (str_drop (String.length f) u)) "".

Fixpoint replace_first (f line : string) (body : list string) : list string :=
  match body with [] => [] | s :: body => if assigns f s then line :: body else s :: replace_first f line body end.

(** The lines of a section in which a field is given a line: the first line that assigns
    it gives way, or the new line comes first. *)
Definition edit_lines (f line : string) (body : list string) : list string :=
  if existsb (assigns f) body then replace_first f line body else line :: body.

(** The lines of a text around the first header of [workload], and its section, which ends
    before the next line that begins with a bracket. *)
Record workload_section (lines before : list string) (header : string) (body tail : list string) : Prop := {
  ws_lines : lines = before ++ header :: body ++ tail;
  ws_before s : s ∈ before -> starts_with "[workload]" s = false;
  ws_header : starts_with "[workload]" header = true;
  ws_ended : body ++ tail <> [];
  ws_body s : s ∈ body -> starts_with "[" s = false;
  ws_tail : tail = [] \/ exists h r, tail = h :: r /\ starts_with "[" h = true }.

Lemma section_is_found lines before header body tail :
  workload_section lines before header body tail -> find_section lines = Some (before, header, body ++ tail) /\ section_body (body ++ tail) = (body, tail).
Proof using.
  intros [-> Hb Hh Hne Hbd Ht]. split.
  - clear Hbd Ht. induction before as [|x before IH]; cbn [app].
    + destruct (body ++ tail) as [|y l]; [done|]. cbn [find_section]. by rewrite Hh.
    + destruct (before ++ header :: body ++ tail) as [|y l] eqn:E; [by destruct before|].
      change (find_section (x :: y :: l)) with (if starts_with "[workload]" x then Some ([], x, y :: l)
        else match find_section (y :: l) with Some (b, z, r) => Some (x :: b, z, r) | None => None end).
      rewrite (Hb x) by (by left). rewrite IH; [done|]. intros z Hz. apply Hb. by right.
  - clear -Hbd Ht. induction body as [|s body IH]; cbn [app section_body].
    + destruct Ht as [->|(h & r & -> & Hh)]; [done|]. cbn [section_body]. by rewrite Hh.
    + rewrite (Hbd s) by (by left). rewrite IH; [done|]. intros z Hz. apply Hbd. by right.
Qed.

Lemma lstrip_no_char c p s : has_char c s = false -> has_char c (lstrip_by p s) = false.
Proof using.
  unfold has_char. induction s as [|d s IH]; [done|]. cbn [any_char lstrip_by]. intros [Hd Hs]%orb_false_elim.
  destruct (p d); [by apply IH|]. cbn [any_char]. by rewrite Hd, Hs.
Qed.

Lemma starts_with_end f u t : all_chars is_bare f = true -> at_end t -> starts_with f (u +:+ t) = starts_with f u.
Proof using.
  intros Hf Ht. revert u. induction f as [|a f IH]; intros u; [done|]. cbn [all_chars] in Hf. apply andb_prop in Hf as [Ha Hf]. destruct u as [|b u].
  - destruct Ht as [-> | [r ->]]; [done|]. change (Ascii.eqb a LF && starts_with f r = false). by destruct (Ascii.eqb_spec a LF) as [->|].
  - change (Ascii.eqb a b && starts_with f (u +:+ t) = Ascii.eqb a b && starts_with f u). by rewrite IH.
Qed.

(** On a line the field is found by the line alone. *)
Lemma field_at_line f s t :
  bare f = true -> has_char LF s = false -> alone f s = false -> at_end t -> field_at f (s +:+ t) = if assigns f s then Some t else None.
Proof using.
  intros Hf Hlf Hal Ht. destruct (bare_head f Hf) as (d & g & Ef & _ & Ha). unfold assigns, alone, field_at in *. rewrite lstrip_app, (lstrip_end t Ht).
  assert (Hu := lstrip_no_char LF is_blank s Hlf). set (u := lstrip_by is_blank s) in *. destruct (String.eqb_spec u "") as [->|Hne].
  - assert (starts_with f t = false) as ->; [|by rewrite Ef].
    change (starts_with f ("" +:+ t) = false). rewrite (starts_with_end f "" t Ha Ht). by rewrite Ef.
  - rewrite starts_with_end by done. destruct (starts_with f u) eqn:Es; [|done]. apply starts_with_spec in Es as [x Ex]. rewrite Ex in Hu, Hal |- *.
    rewrite app_assoc_str, !str_drop_app in *. cbn [andb] in Hal. rewrite has_char_app in Hu. apply orb_false_elim in Hu as [_ Hx].
    rewrite lstrip_app, Hal. assert (Hy := lstrip_no_char LF is_space x Hx). revert Hal Hy. destruct (lstrip_by is_space x) as [|c y]; intros Hal Hy; [done|].
    change (String c y +:+ t) with (String c (y +:+ t)). cbn iota. destruct (Ascii.eqb c "="); [|done]. rewrite rest_of_line_end; [done| |done].
    unfold has_char in *. cbn [any_char] in Hy. by apply orb_false_elim in Hy as [_ Hy].
Qed.

Lemma edit_cases f line body :
  ((forall s, s ∈ body -> assigns f s = false) /\ edit_lines f line body = line :: body) \/
  exists b1 s b2, body = b1 ++ s :: b2 /\ (forall s, s ∈ b1 -> assigns f s = false) /\ assigns f s = true /\ edit_lines f line body = b1 ++ line :: b2.
Proof using.
  unfold edit_lines. induction body as [|s body IH]; cbn [existsb replace_first].
  { left. split; [by intros s ?%elem_of_nil|done]. }
  destruct (assigns f s) eqn:Es; cbn [orb].
  { right. exists [], s, body. split_and!; [done|by intros ? ?%elem_of_nil|done|done]. }
  destruct IH as [[Hn E]|(b1 & x & b2 & -> & Hn & Hx & E)].
  - left. split; [intros u [->|Hu]%elem_of_cons; [done|by apply Hn]|]. destruct (existsb (assigns f) body) eqn:Ee; [|done].
    apply existsb_exists in Ee as (x & Hin & Hx). rewrite Hn in Hx; [done|by apply list_elem_of_In].
  - right. exists (s :: b1), x, b2. assert (Ee : existsb (assigns f) (b1 ++ x :: b2) = true).
    { apply existsb_exists. exists x. split; [apply list_elem_of_In, elem_of_app; right; by left|done]. }
    rewrite Ee in E |- *. split_and!; [done|intros u [->|Hu]%elem_of_cons; [done|by apply Hn]|done|]. cbn [app]. by rewrite E.
Qed.

(** The edit of the text is the edit of its lines. *)
Lemma new_body_lines f value body tail :
  bare f = true -> has_char "\" (field_line f value) = false -> body ++ tail <> [] ->
  (forall s, s ∈ body -> has_char LF s = false /\ alone f s = false) ->
  new_body f value (body_text body tail) = Ok (body_text (edit_lines f (field_line f value) body) tail).
Proof using.
  intros Hf Hbs Hne Hb. unfold new_body. destruct (edit_cases f (field_line f value) body) as [[Hm ->]|(b1 & s & b2 & -> & Hm & Hs & ->)].
  - assert (Hms : forall s, s ∈ body -> misses f s).
    { intros s Hin. destruct (Hb s Hin) as [Hlf Hal]. split; [done|]. intros t Ht. by rewrite field_at_line, Hm. }
    assert (Hs : search_field f true (body_text body tail) = None).
    { destruct tail as [|h tail]; cbn [body_text].
      - destruct (exists_last (l := body)) as (b & s & ->); [by rewrite app_nil_r in Hne|]. rewrite join_lines by done. cbn [join].
        rewrite search_lines, search_miss_end; [done|apply Hms, elem_of_app; right; by left|intros u Hu; apply Hms, elem_of_app; by left].
      - rewrite <- (app_nil_r_str (lines_text body)), search_lines by done. by rewrite search_nil. }
    rewrite Hs. f_equal. destruct tail as [|h tail]; cbn [body_text]; [|done]. rewrite app_nil_r in Hne. by destruct body.
  - destruct (body_text_at b1 b2 tail) as (t & Ht & Et). rewrite !Et, search_lines.
    + destruct (Hb s) as [Hlf Hal]; [apply elem_of_app; right; by left|]. rewrite search_true, field_at_line, Hs by done. cbn [prefixed].
      rewrite expand_plain by done. cbn [mbind res_bind]. by rewrite app_nil_r_str.
    + intros u Hu. destruct (Hb u) as [Hlf Hal]; [apply elem_of_app; by left|]. split; [done|]. intros t' Ht'. by rewrite field_at_line, Hm.
Qed.

(** What setting a field does to the lines of a text with a [workload] section. *)
Lemma set_field_lines content f value before header body tail :
  workload_section (split_on LF content) before header body tail -> bare f = true -> has_char LF value = false -> has_char "\" value = false ->
  (forall s, s ∈ body -> alone f s = false) ->
  exists text, set_workload_field content f value = Ok text /\
    workload_section (split_on LF text) before header (edit_lines f (field_line f value) body) tail.
Proof using.
  intros Hsec Hf Hlf Hbs Hal. destruct (section_is_found _ _ _ _ _ Hsec) as [Ef Eb]. unfold set_workload_field. rewrite Ef, Eb.
  destruct Hsec as [El Hb Hh Hne Hbd Ht]. pose proof (split_on_Forall LF content) as Hall. rewrite El, Forall_app, Forall_cons, Forall_app in Hall.
  destruct Hall as (Hl1 & Hl2 & Hl3 & Hl4). fold (body_text body tail). set (line := field_line f value).
  destruct (bare_head f Hf) as (d & g & Efd & Hd & Ha).
  assert (Hline : has_char LF line = false) by (unfold line, field_line; by rewrite !has_char_app, (bare_no_lf f Hf), Hlf).
  assert (Hbr : starts_with "[" line = false).
  { unfold line, field_line. rewrite Efd. change (Ascii.eqb "[" d && true = false). rewrite Ascii.eqb_sym. by destruct (bare_not_blank d Hd) as (_ & _ & ->). }
  assert (Hsub : forall s, s ∈ edit_lines f line body -> s ∈ body \/ s = line).
  { destruct (edit_cases f line body) as [[_ ->]|(b1 & s & b2 & -> & _ & _ & ->)]; intros u; rewrite ?elem_of_app, !elem_of_cons; tauto. }
  assert (Hne' : edit_lines f line body ++ tail <> []).
  { destruct (edit_cases f line body) as [[_ ->]|(b1 & s & b2 & -> & _ & _ & ->)]; [done|by destruct b1]. }
  rewrite Forall_forall in Hl3. rewrite (new_body_lines f value body tail); [|done| |done|].
  - cbn [mbind res_bind]. fold line. rewrite whole_text by done. eexists. split; [reflexivity|]. split; [|done|done|done| |done].
    + apply split_on_join; [by destruct before|]. apply Forall_app. split; [done|]. constructor; [done|]. apply Forall_app. split; [|done].
      apply Forall_forall. intros s [Hs| ->]%Hsub; [by apply Hl3|done].
    + intros s [Hs| ->]%Hsub; [by apply Hbd|done].
  - unfold field_line. rewrite !has_char_app, Hbs. by rewrite (all_chars_no_char is_bare).
  - intros s Hs. split; [by apply Hl3|by apply Hal].
Qed.

(** ** Copies *)

(** A string whose literal has no escape. *)
Definition unescaped (s : string) : bool := plain s && negb (has_char "\" (toml_string s)).

Lemma name_unescaped s : validate_workload_name s = Ok tt -> has_char LF s = false -> unescaped s = true.
Proof using.
  unfold validate_workload_name. destruct (Nat.ltb _ _); [done|]. destruct (name_pattern s) eqn:E; [|done]. intros _ Hlf.
  unfold name_pattern in E. rewrite match_anchored_no_lf in E by done. assert (Ha : all_chars is_name_char s = true).
  { destruct s as [|c s]; [done|]. cbn in *. apply andb_prop in E as [E1 E2]. rewrite E2, andb_true_r. clear -E1. unfold is_name_char. by rewrite E1. }
  unfold unescaped, plain. rewrite (all_chars_no_char is_name_char) by done. cbn [negb andb]. apply negb_true_iff. rewrite toml_string_map. cbn.
  unfold has_char. rewrite any_char_app, orb_false_r. clear -Ha. induction s as [|c s IH]; [done|]. cbn [map_chars any_char all_chars] in *.
  apply andb_prop in Ha as [Hc Ha]. rewrite any_char_app, (IH Ha), orb_false_r. revert Hc. clear.
  destruct c as [[] [] [] [] [] [] [] []]; intros H; first [reflexivity|discriminate H].
Qed.

Section copies.
Variable is_root : bool.
(** The templates of the catalog. *)
Variable template_of : string -> option string.

Definition root_only : io chost unit := pure (if is_root then Ok tt else Raise NotRoot).

(** A name that is not one ends the program. *)
Definition name_or_exit (n : string) : io chost unit := pure (match validate_workload_name n with Ok _ => Ok tt | Raise _ => Raise SystemExit end).

(** [_write_new] *)
Definition write_new (n text : string) : io chost unit :=
  there ← clook (fun w => bool_decide (is_Some (ch_text w !! n))); if there : bool then pure (Raise SystemExit) else write_text n text.

(** [toml_string] of a value of a configuration. *)
Definition toml_value (v : tv) : res string := match v with TStr s => Ok (toml_string s) | _ => Raise AttributeError end.

(** [cmd_init] of a bundle, as [name]. *)
Definition cmd_init (bundle name : string) : io chost unit :=
  _ ← root_only; _ ← name_or_exit bundle; _ ← name_or_exit name;
  match template_of bundle with
  | None => pure (Raise SystemExit)
  | Some template =>
      there ← clook (fun w => bool_decide (name ∈ ch_dirs w));
      if there : bool then pure (Raise SystemExit)
      else
        _ ← make_dir name;
        text ← pure (set_workload_field template "name" (toml_string name));
        text ← pure (if String.eqb name bundle then Ok text else set_workload_field text "bundle" (toml_string bundle));
        write_new name text
  end.

(** The bundle of the source, also of one that does not load. *)
Definition resolved_bundle (w : chost) (src : string) : res tv :=
  match (config ← config_of w src; bundle config src) with
  | Ok b => Ok b
  | Raise _ => config ← parse_text (ch_text w !! src); bundle config src
  end.

Definition cmd_duplicate (src new : string) : io chost unit :=
  _ ← root_only; _ ← name_or_exit src; _ ← name_or_exit new;
  source ← clook (fun w => ch_text w !! src);
  match source with
  | None => pure (Raise SystemExit)
  | Some source =>
      there ← clook (fun w => bool_decide (new ∈ ch_dirs w));
      if there : bool then pure (Raise SystemExit)
      else
        b ← (fun w => (w, resolved_bundle w src));
        text ← pure (set_workload_field source "name" (toml_string new));
        b ← pure (toml_value b);
        text ← pure (set_workload_field text "bundle" b);
        _ ← make_dir new;
        write_new new text
  end.

Lemma assoc_put_same k v t : assoc k (put k v t) = Some v.
Proof. unfold put. destruct (has_key k t); [apply assoc_set_same|]. cbn [assoc]. by rewrite decide_True. Qed.

Lemma assoc_put_other k j v t : k <> j -> assoc j (put k v t) = assoc j t.
Proof. intros Hne. unfold put. destruct (has_key k t); [by apply assoc_set_other|]. cbn [assoc]. by rewrite decide_False. Qed.

Lemma assoc_set_set {A} k (v u : A) l : assoc_set k u (assoc_set k v l) = assoc_set k u l.
Proof. induction l as [|[a x] l IH]; cbn [assoc_set]; [by rewrite decide_True|]. destruct (decide (a = k)); cbn [assoc_set]; [by rewrite decide_True|by rewrite decide_False, IH]. Qed.

(** The declaration with its name, and its bundle, replaced. *)
Definition renamed (config : table) (t : table) (new : string) (b : option string) : table :=
  assoc_set "workload" (TTab (match b with Some b => put "bundle" (TStr b) (put "name" (TStr new) t) | None => put "name" (TStr new) t end)) config.

Lemma unescaped_parts s : unescaped s = true -> plain s = true /\ has_char "\" (toml_string s) = false.
Proof using. intros [? ?%negb_true_iff]%andb_prop. done. Qed.

(** Both edits of a declaration. *)
Lemma edits_read source config new b :
  read_toml source = Some config -> find_section (split_on LF source) <> None -> unescaped new = true -> unescaped b = true ->
  exists one two t, assoc "workload" config = Some (TTab t) /\ set_workload_field source "name" (toml_string new) = Ok one /\
    set_workload_field one "bundle" (toml_string b) = Ok two /\
    read_toml one = Some (renamed config t new None) /\ read_toml two = Some (renamed config t new (Some b)).
Proof.
  intros Hr Hs [Hn1 Hn2]%unescaped_parts [Hb1 Hb2]%unescaped_parts.
  destruct (set_field_reads source config "name" new Hr Hs eq_refl Hn1 Hn2) as (one & t & Ht & E1 & R1 & S1).
  destruct (set_field_reads one _ "bundle" b R1 S1 eq_refl Hb1 Hb2) as (two & t' & Ht' & E2 & R2 & _).
  rewrite assoc_set_same in Ht'. injection Ht' as <-. exists one, two, t. split_and!; try done. rewrite R2, assoc_set_set. done.
Qed.

Lemma renamed_loads w n text config t b :
  validate_workload_name n = Ok tt -> ch_text w !! n = Some text -> read_toml text = Some (renamed config t n b) ->
  config_of w n = Ok (renamed config t n b).
Proof.
  intros Hn Ht Hr. unfold config_of, load_config, parse_text. rewrite Ht, (reads _ _ Hr). cbn [mbind res_bind].
  assert (Ei : index (TTab (renamed config t n b)) "workload" = Ok (TTab (match b with Some b => put "bundle" (TStr b) (put "name" (TStr n) t) | None => put "name" (TStr n) t end)))
    by (unfold renamed, index; by rewrite assoc_set_same).
  rewrite Ei. cbn [mbind res_bind].
  assert (E : assoc "name" (match b with Some b => put "bundle" (TStr b) (put "name" (TStr n) t) | None => put "name" (TStr n) t end) = Some (TStr n)).
  { destruct b; [rewrite assoc_put_other by done|]; apply assoc_put_same. }
  unfold index. rewrite E. cbn [mbind res_bind is_the_str]. by rewrite String.eqb_refl, Hn.
Qed.

(** A copy of a workload whose declaration [read_toml] reads is its source under the new
    name, with the bundle the source resolves to; every other table is the source's, and
    so is the bundle it resolves. *)
Theorem duplicate_reads_as_renamed w src new source config b :
  is_root = true -> validate_workload_name src = Ok tt -> validate_workload_name new = Ok tt -> has_char LF new = false ->
  ch_text w !! src = Some source -> find_section (split_on LF source) <> None -> read_toml source = Some config -> config_of w src = Ok config ->
  bundle config src = Ok (TStr b) -> unescaped b = true -> b <> "" -> new ∉ ch_dirs w -> ch_text w !! new = None ->
  exists w' t, cmd_duplicate src new w = (w', Ok tt) /\ assoc "workload" config = Some (TTab t) /\
    config_of w' new = Ok (renamed config t new (Some b)) /\ bundle (renamed config t new (Some b)) new = Ok (TStr b) /\
    forall n, n <> new -> ch_text w' !! n = ch_text w !! n.
Proof.
  intros Hroot Hs Hn Hlf Ht Hsec Hread Hc Hb Hu Hne Hd Hno.
  destruct (edits_read source config new b Hread Hsec (name_unescaped new Hn Hlf) Hu) as (one & two & t & Hw & E1 & E2 & _ & R2).
  exists (mkC ({[ new ]} ∪ ch_dirs w) (<[new := two]> (ch_text w))), t. split_and!; [|done| | |by intros n ?; apply lookup_insert_ne].
  - unfold cmd_duplicate, root_only, name_or_exit, write_new. rewrite Hroot, Hs, Hn. cbv [mbind io_bind pure clook make_dir write_text]. rewrite Ht.
    rewrite bool_decide_eq_false_2 by done. unfold resolved_bundle. rewrite Hc. cbn [mbind res_bind]. rewrite Hb, E1. cbn [toml_value]. rewrite E2.
    cbn [ch_text]. rewrite bool_decide_eq_false_2; [done|]. rewrite Hno. by intros [].
  - apply (renamed_loads _ _ two); [done|apply lookup_insert_eq|done].
  - unfold bundle, RunArgs.get2, renamed. cbn [get_or]. rewrite assoc_set_same. cbn [mbind res_bind get_or]. rewrite assoc_put_same. cbn [mbind res_bind truthy].
    by destruct (String.eqb_spec b "").
Qed.


(** A bundle that is instantiated is its template under the name of the workload. *)
Theorem init_is_the_template_renamed w bundle_ name template config :
  is_root = true -> validate_workload_name bundle_ = Ok tt -> validate_workload_name name = Ok tt -> has_char LF name = false -> has_char LF bundle_ = false ->
  template_of bundle_ = Some template -> find_section (split_on LF template) <> None -> read_toml template = Some config ->
  name ∉ ch_dirs w -> ch_text w !! name = None ->
  exists w' t, cmd_init bundle_ name w = (w', Ok tt) /\ assoc "workload" config = Some (TTab t) /\
    config_of w' name = Ok (renamed config t name (if String.eqb name bundle_ then None else Some bundle_)) /\
    forall n, n <> name -> ch_text w' !! n = ch_text w !! n.
Proof.
  intros Hroot Hb Hn Hlf Hlfb Ht Hsec Hr Hd Hno.
  destruct (edits_read template config name bundle_ Hr Hsec (name_unescaped name Hn Hlf) (name_unescaped bundle_ Hb Hlfb)) as (one & two & t & Hw & E1 & E2 & R1 & R2).
  exists (mkC ({[ name ]} ∪ ch_dirs w) (<[name := if String.eqb name bundle_ then one else two]> (ch_text w))), t.
  split_and!; [|done| |by intros n ?; apply lookup_insert_ne].
  - unfold cmd_init, root_only, name_or_exit, write_new. rewrite Hroot, Hb, Hn, Ht. cbv [mbind io_bind pure clook make_dir write_text].
    rewrite bool_decide_eq_false_2 by done. rewrite E1. destruct (String.eqb name bundle_); [|rewrite E2]; cbn [ch_text];
      (rewrite bool_decide_eq_false_2; [done|rewrite Hno; by intros []]).
  - destruct (String.eqb name bundle_); [apply (renamed_loads _ _ one)|apply (renamed_loads _ _ two)]; try done; apply lookup_insert_eq.
Qed.
End copies.
End tomllib.

(** ** Samples *)

Module Clerk.
Definition none_at_all : chost := mkC ∅ ∅.

Definition web : create_args :=
  mkArgs "web" "quay.io/app:1" None ["video"] [] (Some "amd") true false false None ["8080:80"; "8443:443"] ["data:/data"]
    (Some "256m") None (Some 200) None None None None (Some 64).

(** An image with a DEL in it. *)
Definition odd : create_args :=
  mkArgs "web" (String DEL "") None [] [] None false false false None [] [] None None None None None None None None.

Definition passes (config : table) : res bool := Ok true.

Definition shop_text : string := lines_text ["# the shop"; "[workload]"; "name = " +:+ toml_string "shop"; "lifecycle = " +:+ toml_string "pet"; ""; "[container]"; "image = " +:+ toml_string "quay.io/app:1"].

Definition shop : chost := mkC {[ "shop" ]} {[ "shop" := shop_text ]}.

Definition shop_config : table :=
  [("workload", TTab [("name", TStr "shop"); ("lifecycle", TStr "pet")]); ("container", TTab [("image", TStr "quay.io/app:1")])].

(** A declaration with dotted tables, an array of tables and an array over lines. *)
Definition quoted (s : string) : string := chr DQUOTE +:+ s +:+ chr DQUOTE.

Definition pod_body : list string :=
  ["name    = " +:+ quoted "pod"; "after   = ["; "  " +:+ quoted "db" +:+ ","; "]"; "# name = " +:+ quoted "old"; ""].

Definition pod_tail : list string :=
  ["[[containers]]"; "name = " +:+ quoted "app"; "[containers.container]"; "image = " +:+ quoted "quay.io/app:1"; "environment = { A = " +:+ quoted "1" +:+ " }"; ""].

Definition pod_text : string := join (chr LF) (["# a pod"; "[workload]"] ++ pod_body ++ pod_tail).

Definition pod_config : table := [("workload", TTab [("name", TStr "pod"); ("after", TArr [TStr "db"])])].

(** A reader of TOML that knows this text too. *)
Definition loads (text : string) : option table := if String.eqb text pod_text then Some pod_config else read_toml text.

Lemma pod_section : workload_section (split_on LF pod_text) ["# a pod"] "[workload]" pod_body pod_tail.
Proof.
  split; [vm_compute; reflexivity| |reflexivity|discriminate| |right; eexists _, _; split; [reflexivity|reflexivity]].
  - intros s ->%list_elem_of_singleton. reflexivity.
  - intros s Hs%list_elem_of_In. repeat destruct Hs as [<-|Hs]; [reflexivity..|done].
Qed.

Lemma web_plain : args_plain web.
Proof. split; reflexivity. Qed.

(** The declaration of [web]. *)
Lemma web_asked :
  asked_config web =
    [("workload", TTab [("name", TStr "web")]); ("container", TTab [("image", TStr "quay.io/app:1")]); ("security", TTab [("extra_groups", TArr [TStr "video"])]);
     ("devices", TTab [("gpu", TStr "amd"); ("input", TBool true)]);
     ("network", TTab [("mode", TStr "pasta"); ("ports", TArr [TStr "8080:80"; TStr "8443:443"])]);
     ("storage", TTab [("volumes", TArr [TStr "data:/data"])]);
     ("resources", TTab [("shm_size", TStr "256m"); ("cpu_weight", TInt 200); ("tasks_max", TInt 64)])].
Proof. reflexivity. Qed.

(** A literal with a DEL is not TOML. *)
Lemma del_is_not_read : read_toml (config_content odd) = None.
Proof. vm_compute. reflexivity. Qed.
End Clerk.

Lemma created_as_asked_witness :
  exists w', cmd_create read_toml true Clerk.passes Clerk.web Clerk.none_at_all = (w', Ok tt) /\ config_of read_toml w' "web" = Ok (asked_config Clerk.web) /\
    ch_dirs w' = {[ "web" ]} ∪ ch_dirs Clerk.none_at_all /\ forall n, n <> "web" -> ch_text w' !! n = ch_text Clerk.none_at_all !! n.
Proof.
  apply (created_as_asked read_toml (fun _ _ H => H) true Clerk.passes Clerk.web Clerk.none_at_all).
  - exact Clerk.web_plain.
  - reflexivity.
  - reflexivity.
  - apply not_elem_of_empty.
  - reflexivity.
Defined.

Lemma failed_create_blocks_retry_witness :
  exists w', cmd_create read_toml true Clerk.passes Clerk.odd Clerk.none_at_all = (w', Raise SystemExit) /\ ch_text w' !! "web" = None /\
    forall b, a_name b = "web" -> cmd_create read_toml true Clerk.passes b w' = (w', Raise SystemExit).
Proof.
  apply (failed_create_blocks_retry read_toml true Clerk.passes Clerk.odd Clerk.none_at_all ValueError).
  - reflexivity.
  - reflexivity.
  - apply not_elem_of_empty.
  - discriminate.
  - vm_compute. reflexivity.
Defined.

Lemma duplicate_reads_as_renamed_witness :
  exists w' t, cmd_duplicate read_toml true "shop" "kiosk" Clerk.shop = (w', Ok tt) /\ assoc "workload" Clerk.shop_config = Some (TTab t) /\
    config_of read_toml w' "kiosk" = Ok (renamed Clerk.shop_config t "kiosk" (Some "shop")) /\
    bundle (renamed Clerk.shop_config t "kiosk" (Some "shop")) "kiosk" = Ok (TStr "shop") /\
    forall n, n <> "kiosk" -> ch_text w' !! n = ch_text Clerk.shop !! n.
Proof.
  apply (duplicate_reads_as_renamed read_toml (fun _ _ H => H) true Clerk.shop "shop" "kiosk" Clerk.shop_text Clerk.shop_config "shop").
  - reflexivity.
  - reflexivity.
  - reflexivity.
  - reflexivity.
  - reflexivity.
  - vm_compute. discriminate.
  - vm_compute. reflexivity.
  - vm_compute. reflexivity.
  - reflexivity.
  - reflexivity.
  - discriminate.
  - intros H. by apply (elem_of_singleton (C := gset string) "kiosk" "shop") in H.
  - reflexivity.
Defined.

