(* ===== verification/Cleanup.v ===== *)
(** * Orphans: [lib/cmd_cleanup.py] and [lib/deployment.py]

    The sweep of users, directories and SELinux modules whose workload has no
    declaration, and the stamp by which the state of a workload says which
    deployment of the host provisioned it last.

    The host is its users, the entries of [/var/lib/workloads] and the loaded modules.
    A user's home is [state] below the root of its workload, as [ensure_user] makes it.
    Parameters: the declarations as [tomllib] reads them, the kernel's command line, the
    links and the deployments of the host, which commands fail and what they leave. *)
From S2P Require Import Prelude PyStr PyPath Toml WorkloadNames NetworkConfig RunArgs Seccomp.
Local Open Scope Z_scope.

(** ** The host *)

(** What an entry of the base directory is; a link to a directory is one too, a link to
    nothing is no entry. *)
Inductive entry_kind := RealDir | LinkedDir | NotDir.

#[export] Instance entry_kind_eq_dec : EqDecision entry_kind.
Proof. solve_decision. Defined.

(** An entry: the value of its [provenance.json], when that can be read as JSON, and
    the files below it. *)
Record root_entry := mkRoot { rt_kind : entry_kind; rt_marker : option tv; rt_files : gset string }.

Record khost := mkK { kh_users : list (string * Z); kh_roots : gmap string root_entry; kh_modules : list string; kh_ran : list (list string) }.

Definition klook {A} (f : khost -> A) : io khost A := fun w => (w, Ok (f w)).

Definition kchange (f : khost -> khost) : io khost unit := fun w => (f w, Ok tt).

Definition set_roots (r : gmap string root_entry) (w : khost) : khost := mkK (kh_users w) r (kh_modules w) (kh_ran w).

(** ** Deployments *)

Definition is_hex (c : ascii) : bool := is_dec c || in_range 97 102 c.

(** [_DEPLOYMENT_ID_RE]: 64 hexadecimal digits, a dot, a number. *)
Definition deployment_id (s : string) : bool :=
  (64 <? Z.of_nat (String.length s)) && all_chars is_hex (str_take 64 s) && starts_with "." (str_drop 64 s) && re_plus is_dec (str_drop 65 s).

Section deployments.
Variable cmdline : option string.
Variable readlink : string -> option string.
(** The directories [<stateroot>/deploy/<id>] below [/ostree/deploy], when that is one. *)
Variable deployed : option (list (string * string)).

Definition path_name (s : string) : string := default "" (last (parts (path_of s))).

Definition booted_deployment_id : option string :=
  match cmdline with
  | None => None
  | Some text =>
      match head (List.filter (starts_with "ostree=") (words text)) with
      | None => None
      | Some tok =>
          let link := str_drop 7 tok in
          if String.eqb link "" then None
          else match readlink link with
               | None => None
               | Some target => let ident := path_name target in if deployment_id ident then Some ident else None
               end
      end
  end.

Definition deployments_readable : bool := match deployed with Some _ => true | None => false end.

Definition deployment_exists (id : string) : bool :=
  if String.eqb id "" || negb (deployment_id id) then false
  else existsb (fun d => String.eqb (snd d) id) (default [] deployed).

Definition read_marker (r : option root_entry) : option table :=
  match r with Some e => match rt_marker e with Some (TTab t) => Some t | _ => None end | None => None end.

(** The payload, [None] as JSON's null. *)
Definition json_null : tv := TOther "NoneType" "None" "None" false.

Definition payload (name : string) : table :=
  [("name", TStr name); ("deployment", match booted_deployment_id with Some d => TStr d | None => json_null end)].

Definition is_null (v : option tv) : bool := match v with Some (TOther "NoneType" _ _ _) => true | _ => false end.

Definition is_payload (name : string) (t : table) : bool :=
  (Z.of_nat (length t) =? 2) && is_the_str (assoc "name" t) name &&
  match booted_deployment_id with Some d => is_the_str (assoc "deployment" t) d | None => is_null (assoc "deployment" t) end.

(** [write_marker], below the root of the workload: whether it wrote. *)
Definition write_marker (name : string) : io khost bool :=
  o ← klook (fun w => kh_roots w !! name);
  match o with
  | None => pure (Raise FileNotFoundError)
  | Some e =>
      if match read_marker (Some e) with Some t => is_payload name t | None => false end then mret false
      else _ ← kchange (fun w => set_roots (<[name := mkRoot (rt_kind e) (Some (TTab (payload name))) (rt_files e)]> (kh_roots w)) w); mret true
  end.

(** The deployment a root belongs to, when that is another that still exists. *)
Definition other_deployments_state (r : option root_entry) (name : string) : option string :=
  if negb deployments_readable then None
  else match read_marker r with
       | None => None
       | Some t =>
           if negb (is_the_str (assoc "name" t) name) then None
           else match assoc "deployment" t with
                | Some (TStr stamped) =>
                    if bool_decide (booted_deployment_id = Some stamped) then None
                    else if deployment_exists stamped then Some stamped else None
                | _ => None
                end
       end.
End deployments.

(** ** Declarations *)

(** The name a declaration adds, and the module it expects; [None] does not load. *)
Definition declared_name (o : option table) : option string :=
  match o with
  | None => None
  | Some config =>
      match get2 config "workload" "name" (TStr "") with
      | Ok (TStr n) => if String.eqb n "" then None else Some n
      | _ => None
      end
  end.

Definition declared_module (o : option table) : option string :=
  match declared_name o, o with
  | Some n, Some config =>
      match get2 config "security" "selinux_policy" (TBool false) with
      | Ok p => if truthy p then Some (selinux_module_name n) else None
      | Raise _ => None
      end
  | _, _ => None
  end.

Section cleanup.
Variable is_root : bool.
(** Every [workload.toml], as [tomllib] reads it. *)
Variable configs : list (option table).
Variable cmdline : option string.
Variable readlink : string -> option string.
Variable deployed : option (list (string * string)).
Variable semodule_there : bool.
Variable semodule_lists : bool.
(** Commands that cannot be run, [userdel] and [semodule] that fail, subid files that
    cannot be rewritten, and the files a removal leaves. *)
Variable spawn : list string -> option exn.
Variable userdel_works : string -> bool.
Variable semodule_removes : string -> bool.
Variable subid_fault : string -> option exn.
Variable stays : string -> string -> bool.

Definition configured_names : list string := omap declared_name configs.
Definition expected_modules : list string := omap declared_module configs.

Definition run_command (cmd : list string) : io khost unit := fun w =>
  (mkK (kh_users w) (kh_roots w) (kh_modules w) (kh_ran w ++ [cmd]), match spawn cmd with Some e => Raise e | None => Ok tt end).

(** ** What is an orphan *)

Definition belongs_elsewhere (w : khost) (name : string) : bool :=
  match other_deployments_state cmdline readlink deployed (kh_roots w !! name) name with Some _ => true | None => false end.

Definition orphaned_modules (w : khost) : list string :=
  if semodule_there && semodule_lists then
    py_sorted (filter (fun m => m ∉ expected_modules) (remove_dups (List.filter (starts_with "wl_") (map strip (kh_modules w)))))
  else [].

Definition sweepable (w : khost) (name : string) : bool := negb (bool_decide (name ∈ configured_names)) && negb (belongs_elsewhere w name).

(** The users with the prefix, by the name behind it, which is that of an entry: it is not
    empty and holds no slash, as [useradd] and [validate_workload_name] have it. *)
Definition workload_user (u : string * Z) : option (string * Z) :=
  if starts_with USERNAME_PREFIX (fst u) then Some (str_drop (String.length USERNAME_PREFIX) (fst u), snd u) else None.

Definition orphaned_users (w : khost) : list (string * Z) := List.filter (fun u => sweepable w (fst u)) (omap workload_user (kh_users w)).

Definition BACKUPS : string := "backups".

Definition is_directory (e : root_entry) : bool := match rt_kind e with NotDir => false | _ => true end.

Definition scanned_dir (w : khost) (p : string * root_entry) : bool :=
  let '(n, e) := p in
  is_directory e && negb (starts_with "." n) && negb (String.eqb n BACKUPS)
  && negb (bool_decide (workload_username n ∈ map fst (kh_users w))) && sweepable w n.

Definition orphaned_dirs (w : khost) : list string :=
  let scanned := map fst (List.filter (scanned_dir w) (map_to_list (kh_roots w))) in
  foldl (fun l u => if bool_decide (is_Some (kh_roots w !! fst u)) && negb (bool_decide (fst u ∈ l)) then l ++ [fst u] else l) scanned (orphaned_users w).

(** ** The sweep *)

Definition in_home (f : string) : bool := starts_with "state/" f.

(** [userdel -r]: the user and its home. *)
Definition userdel (name : string) : io khost unit :=
  _ ← run_command ["userdel"; "-r"; workload_username name];
  if userdel_works name then
    kchange (fun w => mkK (List.filter (fun u => negb (String.eqb (fst u) (workload_username name))) (kh_users w))
                        (alter (fun e => mkRoot (rt_kind e) (rt_marker e) (filter (fun f => in_home f = false) (rt_files e))) name (kh_roots w))
                        (kh_modules w) (kh_ran w))
  else mret tt.

Definition remove_user_state (u : string * Z) : io khost unit :=
  _ ← run_command ["loginctl"; "terminate-user"; str_Z (snd u)];
  _ ← run_command ["loginctl"; "disable-linger"; str_Z (snd u)];
  _ ← pure (match subid_fault (fst u) with Some e => Raise e | None => Ok tt end);
  userdel (fst u).

(** [shutil.rmtree(d, ignore_errors=True)]: of a link or a file, nothing. *)
Definition remove_root (n : string) : io khost unit :=
  kchange (fun w => set_roots (partial_alter (fun o =>
    match o with
    | Some e =>
        match rt_kind e with
        | RealDir =>
            let left := filter (fun f => stays n f = true) (rt_files e) in
            if bool_decide (left = ∅) && negb (stays n "provenance.json") then None
            else Some (mkRoot RealDir (if stays n "provenance.json" then rt_marker e else None) left)
        | _ => Some e
        end
    | None => None
    end) n (kh_roots w)) w).

Definition remove_module (m : string) : io khost unit :=
  _ ← run_command ["semodule"; "-r"; m];
  if semodule_removes m then kchange (fun w => mkK (kh_users w) (kh_roots w) (filter (fun x => strip x <> m) (kh_modules w)) (kh_ran w)) else mret tt.

(** [cmd_cleanup]: what is found, and removed with [--apply]. *)
Definition cmd_cleanup (apply : bool) : io khost (list (string * Z) * list string * list string) :=
  _ ← pure (if is_root then Ok tt else Raise NotRoot);
  users ← klook orphaned_users;
  dirs ← klook orphaned_dirs;
  modules ← klook orphaned_modules;
  _ ← (if apply then _ ← for_io remove_user_state users; _ ← for_io remove_root dirs; for_io remove_module modules else mret tt);
  mret (users, dirs, modules).

(** ** What is left alone *)

(** The root of a workload and its user are as they were. *)
Definition untouched (n : string) (w w' : khost) : Prop :=
  kh_roots w' !! n = kh_roots w !! n /\
  List.filter (fun u => String.eqb (fst u) (workload_username n)) (kh_users w') = List.filter (fun u => String.eqb (fst u) (workload_username n)) (kh_users w).

#[local] Instance untouched_preorder n : PreOrder (untouched n).
Proof. split; [done|]. intros x y z [H1 H2] [H3 H4]. split; by etrans. Qed.

Lemma username_inj a b : workload_username a = workload_username b -> a = b.
Proof. apply app_inj_l_str. Qed.

Lemma run_untouched n cmd : within (untouched n) (run_command cmd).
Proof. done. Qed.

Lemma filter_filter_other {A} (p q : A -> bool) l : (forall x, q x = true -> p x = true) -> List.filter q (List.filter p l) = List.filter q l.
Proof.
  intros H. induction l as [|x l IH]; [done|]. cbn. destruct (p x) eqn:Ep; cbn; [by rewrite IH|]. rewrite IH. destruct (q x) eqn:Eq; [|done].
  rewrite H in Ep by done. done.
Qed.

Lemma userdel_untouched n m : m <> n -> within (untouched n) (userdel m).
Proof.
  intros Hne. apply within_bind; [exact _|apply run_untouched|intros _]. destruct (userdel_works m); [|apply within_ret, _]. intros w. split; cbn.
  - by rewrite lookup_alter_ne.
  - apply filter_filter_other. intros u ->%String.eqb_eq. apply negb_true_iff, String.eqb_neq. by intros ->%username_inj.
Qed.

Lemma user_untouched n u : fst u <> n -> within (untouched n) (remove_user_state u).
Proof.
  intros Hne. unfold remove_user_state. do 3 (apply within_bind; [exact _|first [apply run_untouched|apply within_pure, _]|intros _]). by apply userdel_untouched.
Qed.

Lemma root_untouched n m : m <> n -> within (untouched n) (remove_root m).
Proof. intros Hne w. split; cbn; [by rewrite lookup_partial_alter_ne|done]. Qed.

Lemma module_untouched n m : within (untouched n) (remove_module m).
Proof. apply within_bind; [exact _|apply run_untouched|intros _]. by destruct (semodule_removes m). Qed.

Lemma elem_of_filter_bool {A} (p : A -> bool) l x : x ∈ List.filter p l <-> x ∈ l /\ p x = true.
Proof. by rewrite !list_elem_of_In, filter_In. Qed.

(** The roots of the users are added to those of the scan. *)
Lemma claimed_dirs w n us l :
  n ∈ foldl (fun l (u : string * Z) => if bool_decide (is_Some (kh_roots w !! fst u)) && negb (bool_decide (fst u ∈ l)) then l ++ [fst u] else l) l us <->
  n ∈ l \/ (n ∈ map fst us /\ is_Some (kh_roots w !! n)).
Proof.
  revert l. induction us as [|u us IH]; intros l; cbn [foldl map]; [rewrite elem_of_nil; tauto|]. rewrite IH, elem_of_cons. clear IH.
  destruct (bool_decide_reflect (is_Some (kh_roots w !! fst u))) as [Hs|Hs]; destruct (bool_decide_reflect (fst u ∈ l)) as [Hl|Hl]; cbn [andb negb].
  - split; [tauto|]. intros [?|[[->|?] ?]]; tauto.
  - rewrite elem_of_app, list_elem_of_singleton. split; [|tauto]. intros [[?| ->]|?]; tauto.
  - split; [tauto|]. intros [?|[[->|?] ?]]; tauto.
  - split; [tauto|]. intros [?|[[->|?] ?]]; tauto.
Qed.

Lemma user_sweepable w n : n ∈ map fst (orphaned_users w) -> sweepable w n = true.
Proof. intros (u & -> & Hu)%list_elem_of_fmap. by apply elem_of_filter_bool in Hu as [_ Hs]. Qed.

Lemma dir_sweepable w n : n ∈ orphaned_dirs w -> sweepable w n = true.
Proof.
  unfold orphaned_dirs. rewrite claimed_dirs. intros [Hn|[Hn _]]; [|by apply user_sweepable]. apply list_elem_of_fmap in Hn as ([m e] & -> & H).
  apply elem_of_filter_bool in H as [_ H]. cbn [scanned_dir fst] in *. by repeat (apply andb_prop in H as [H ?]).
Qed.

Lemma protected_untouched apply w n :
  n ∈ configured_names \/ belongs_elsewhere w n = true -> untouched n w (fst (cmd_cleanup apply w)).
Proof.
  intros Hn. assert (Hs : sweepable w n = false).
  { unfold sweepable. destruct Hn as [Hn| ->]; [by rewrite bool_decide_eq_true_2|by rewrite andb_false_r]. }
  unfold cmd_cleanup. destruct is_root; [|done]. cbv [mbind io_bind pure klook]. destruct apply; [|done].
  assert (H : within (untouched n) (_ ← for_io remove_user_state (orphaned_users w); _ ← for_io remove_root (orphaned_dirs w); for_io remove_module (orphaned_modules w))).
  { apply within_bind; [exact _| |intros _; apply within_bind; [exact _| |intros _]].
    - apply within_for; [exact _|]. intros u Hu. apply user_untouched. intros <-. assert (Hin : fst u ∈ map fst (orphaned_users w)) by (apply list_elem_of_fmap; eauto).
      apply user_sweepable in Hin. congruence.
    - apply within_for; [exact _|]. intros m Hm%dir_sweepable. apply root_untouched. intros ->. congruence.
    - apply within_for; [exact _|]. intros m _. apply module_untouched. }
  specialize (H w). cbv [mbind io_bind] in H. destruct (for_io remove_user_state _ w) as [w1 [[]|e]]; [|done].
  destruct (for_io remove_root _ w1) as [w2 [[]|e]]; [|done]. by destruct (for_io remove_module _ w2) as [w3 [[]|e]].
Qed.

(** Whatever fails, the sweep leaves alone a workload that has a declaration which
    loads, and the state of another deployment. *)
Theorem declared_and_foreign_are_kept apply w n :
  n ∈ configured_names \/ belongs_elsewhere w n = true -> untouched n w (fst (cmd_cleanup apply w)).
Proof. apply protected_untouched. Qed.

Theorem dry_run_changes_nothing w : fst (cmd_cleanup false w) = w.
Proof. unfold cmd_cleanup. by destruct is_root. Qed.

(** ** What is swept *)

Definition has_user (w : khost) (n : string) : bool := bool_decide (workload_username n ∈ map fst (kh_users w)).

(** A declaration of a workload: a [workload.toml] that reads as TOML and whose
    [workload.name] is the name. *)
Definition declares (c : table) (n : string) : Prop :=
  n <> "" /\ exists t, assoc "workload" c = Some (TTab t) /\ assoc "name" t = Some (TStr n).

Definition declared (n : string) : Prop := exists c, Some c ∈ configs /\ declares c n.

(** Such a declaration with a policy of its own, and the module of that policy. *)
Definition expects (c : table) (m : string) : Prop :=
  exists n t v, declares c n /\ m = selinux_module_name n /\
    assoc "security" c = Some (TTab t) /\ assoc "selinux_policy" t = Some v /\ truthy v = true.

(** The deployment the machine was booted from: the last name of what the link of the
    first [ostree=] word of the command line points to. *)
Definition booted_as (d : string) : Prop :=
  exists text before link after target,
    cmdline = Some text /\ words text = before ++ ("ostree=" +:+ link) :: after /\
    (forall x, x ∈ before -> starts_with "ostree=" x = false) /\
    link <> "" /\ readlink link = Some target /\ path_name target = d /\ deployment_id d = true.

(** State with the stamp of a deployment which is there and is not the booted one. *)
Definition foreign (w : khost) (n : string) : Prop :=
  exists e t d root l,
    kh_roots w !! n = Some e /\ rt_marker e = Some (TTab t) /\
    assoc "name" t = Some (TStr n) /\ assoc "deployment" t = Some (TStr d) /\
    deployed = Some l /\ (root, d) ∈ l /\ deployment_id d = true /\ ~ booted_as d.

(** An orphan has no declaration and is not another deployment's. *)
Definition orphan (w : khost) (n : string) : Prop := ~ declared n /\ ~ foreign w n.

(** A directory the sweep takes: an orphan's, and of those with no user neither the
    backups nor a hidden one. *)
Definition swept_dir (w : khost) (n : string) : Prop :=
  orphan w n /\ (has_user w n = true \/ (starts_with "." n = false /\ n <> BACKUPS)).

Lemma declared_name_iff c n : declared_name (Some c) = Some n <-> declares c n.
Proof.
  unfold declares, declared_name, get2, get_or. destruct (assoc "workload" c) as [v|]; cbn [mbind res_bind]; cycle 1.
  { split; [done|]. by intros (_ & t & ? & _). }
  destruct v; try (split; [done|by intros (_ & ? & ? & _)]). destruct (assoc "name" t) as [x|] eqn:Ex; cbn [mbind res_bind].
  - destruct x; try (split; [done|intros (_ & ? & [= <-] & ?); congruence]). destruct (String.eqb_spec s "") as [->|Hne].
    + split; [done|]. intros (Hn & t' & [= <-] & E). congruence.
    + split; [intros [= <-]; eauto|]. intros (_ & t' & [= <-] & E). congruence.
  - split; [done|]. intros (_ & t' & [= <-] & E). congruence.
Qed.

Lemma configured_iff n : n ∈ configured_names <-> declared n.
Proof using configs.
  unfold configured_names, declared. rewrite list_elem_of_omap. split.
  - intros ([c|] & Hc & E); [|done]. exists c. split; [done|]. by apply declared_name_iff.
  - intros (c & Hc & E%declared_name_iff). eauto.
Qed.

Lemma expected_iff m : m ∈ expected_modules <-> exists c, Some c ∈ configs /\ expects c m.
Proof using configs.
  unfold expected_modules, expects. rewrite list_elem_of_omap.
  assert (Hone : forall c, declared_module (Some c) = Some m <->
    exists n t v, declares c n /\ m = selinux_module_name n /\ assoc "security" c = Some (TTab t) /\ assoc "selinux_policy" t = Some v /\ truthy v = true).
  { intros c. unfold declared_module. split.
    - destruct (declared_name (Some c)) as [n|] eqn:En; [|done]. apply declared_name_iff in En. unfold get2, get_or.
      destruct (assoc "security" c) as [s|] eqn:Es; cbn [mbind res_bind]; [|done]. destruct s; try done.
      destruct (assoc "selinux_policy" t) as [v|] eqn:Ev; cbn [mbind res_bind]; [|done]. destruct (truthy v) eqn:Et; [|done]. intros [= <-]. by exists n, t, v.
    - intros (n & t & v & ->%declared_name_iff & -> & Es & Ev & Et). unfold get2, get_or. rewrite Es. cbn [mbind res_bind]. by rewrite Ev, Et. }
  split.
  - intros ([c|] & Hc & E); [|done]. exists c. split; [done|]. by apply Hone.
  - intros (c & Hc & E%Hone). eauto.
Qed.

Lemma filter_head_split {A} (p : A -> bool) l x :
  head (List.filter p l) = Some x <-> exists before after, l = before ++ x :: after /\ p x = true /\ forall y, y ∈ before -> p y = false.
Proof.
  split.
  - induction l as [|y l IH]; [done|]. cbn [List.filter]. destruct (p y) eqn:Ey.
    + cbn. intros [= ->]. exists [], l. split_and!; [done|done|]. by intros y ?%elem_of_nil.
    + intros (b & a & -> & Hx & Hb)%IH. exists (y :: b), a. split_and!; [done|done|]. intros z [->|Hz]%elem_of_cons; auto.
  - intros (b & a & -> & Hx & Hb). induction b as [|y b IH]; cbn [app List.filter]; [by rewrite Hx|].
    rewrite (Hb y ltac:(by left)). apply IH. intros z Hz. apply Hb. by right.
Qed.

Lemma booted_iff d : booted_deployment_id cmdline readlink = Some d <-> booted_as d.
Proof using cmdline readlink.
  unfold booted_deployment_id, booted_as. split.
  - destruct cmdline as [text|]; [|done]. destruct (head _) as [tok|] eqn:Eh; [|done]. apply filter_head_split in Eh as (b & a & Ew & Hp & Hb).
    apply starts_with_spec in Hp as [link ->]. change 7%nat with (String.length "ostree="). rewrite str_drop_app. destruct (String.eqb_spec link "") as [|Hne]; [done|].
    destruct (readlink link) as [target|] eqn:Er; [|done]. destruct (deployment_id (path_name target)) eqn:Ed; [|done]. intros [= <-]. by exists text, b, link, a, target.
  - intros (text & b & link & a & target & -> & Ew & Hb & Hne & Er & Hd & Hi).
    assert (head (List.filter (starts_with "ostree=") (words text)) = Some ("ostree=" +:+ link)) as ->.
    { apply filter_head_split. exists b, a. split_and!; [done|apply starts_with_app|done]. }
    change 7%nat with (String.length "ostree="). rewrite str_drop_app. destruct (String.eqb_spec link "") as [|_]; [done|]. by rewrite Er, Hd, Hi.
Qed.

Lemma deployment_id_nonempty d : deployment_id d = true -> d <> "".
Proof. by intros H ->. Qed.

Lemma deployment_exists_iff d :
  deployment_exists deployed d = true <-> deployment_id d = true /\ exists root l, deployed = Some l /\ (root, d) ∈ l.
Proof using deployed.
  unfold deployment_exists. split.
  - destruct (String.eqb_spec d "") as [|Hd]; [done|]. cbn [orb]. destruct (deployment_id d) eqn:Ei; [|done]. cbn [negb].
    destruct deployed as [l|]; [|done]. intros ([r x] & Hin & Ex%String.eqb_eq)%existsb_exists. cbn in Ex. subst x. split; [done|].
    exists r, l. split; [done|by apply list_elem_of_In].
  - intros (Hi & r & l & -> & Hin). rewrite Hi. destruct (String.eqb_spec d "") as [->|_]; [by apply deployment_id_nonempty in Hi|]. cbn.
    apply existsb_exists. exists (r, d). split; [by apply list_elem_of_In|]. apply String.eqb_refl.
Qed.

Lemma str_of_is_the_str v s : is_the_str v s = true -> v = Some (TStr s).
Proof. destruct v as [[] |]; try done. cbn. by intros ->%String.eqb_eq. Qed.

Lemma elsewhere_iff w n : belongs_elsewhere w n = true <-> foreign w n.
Proof using cmdline readlink deployed.
  unfold belongs_elsewhere, other_deployments_state, deployments_readable, foreign, read_marker. split.
  - destruct deployed as [l|] eqn:El; [|done]. cbn [negb]. destruct (kh_roots w !! n) as [e|]; [|done]. destruct (rt_marker e) as [[]|] eqn:Em; try done.
    destruct (is_the_str (assoc "name" t) n) eqn:En; [|done]. apply str_of_is_the_str in En. cbn [negb].
    destruct (assoc "deployment" t) as [[]|] eqn:Ed; try done. case_bool_decide as Hb; [done|]. rewrite <- El.
    destruct (deployment_exists deployed s) eqn:Ex; [|done]. intros _. apply deployment_exists_iff in Ex as (Hi & r & l' & El' & Hin).
    exists e, t, s, r, l'. split_and!; try done. by rewrite <- booted_iff.
  - intros (e & t & d & r & l & -> & -> & En & Ed & El & Hin & Hi & Hb). rewrite <- booted_iff in Hb.
    assert (Ex : deployment_exists deployed d = true) by (apply deployment_exists_iff; eauto). rewrite El in Ex |- *. rewrite En, Ed. cbn [negb is_the_str].
    rewrite String.eqb_refl. cbn [negb]. by rewrite bool_decide_eq_false_2, Ex.
Qed.

Lemma sweepable_iff w n : sweepable w n = true <-> orphan w n.
Proof using configs cmdline readlink deployed.
  unfold sweepable, orphan. rewrite andb_true_iff, !negb_true_iff, bool_decide_eq_false, configured_iff, <- elsewhere_iff, not_true_iff_false. done.
Qed.

Lemma kept_iff w n : sweepable w n = false <-> ~ orphan w n.
Proof using configs cmdline readlink deployed. rewrite <- sweepable_iff. symmetry. apply not_true_iff_false. Qed.

Lemma orphaned_user_iff w n : n ∈ map fst (orphaned_users w) <-> sweepable w n = true /\ has_user w n = true.
Proof.
  unfold has_user. rewrite bool_decide_eq_true. split.
  - intros H. split; [by apply user_sweepable|]. apply list_elem_of_fmap in H as (u & -> & Hu). apply elem_of_filter_bool in Hu as [Hu _].
    apply list_elem_of_omap in Hu as (v & Hv & E). unfold workload_user in E. destruct (starts_with USERNAME_PREFIX (fst v)) eqn:Ep; [|done]. injection E as <-.
    apply starts_with_spec in Ep as [t Et]. assert (Ed : str_drop (String.length USERNAME_PREFIX) (fst v) = t) by (rewrite Et; apply str_drop_app).
    apply list_elem_of_fmap. exists v. split; [|done]. by rewrite Et.
  - intros [Hs (v & Ev & Hv)%list_elem_of_fmap]. apply list_elem_of_fmap. exists (n, snd v). split; [done|]. apply elem_of_filter_bool. split; [|done].
    apply list_elem_of_omap. exists v. split; [done|]. unfold workload_user.
    assert (Ed : str_drop (String.length USERNAME_PREFIX) (fst v) = n) by (rewrite <- Ev; apply str_drop_app).
    rewrite Ed, <- Ev. by rewrite (starts_with_app USERNAME_PREFIX n : starts_with _ (workload_username n) = true).
Qed.

Lemma orphaned_dir_iff w n e : kh_roots w !! n = Some e -> rt_kind e = RealDir -> (n ∈ orphaned_dirs w <-> swept_dir w n).
Proof.
  intros He Hk. unfold orphaned_dirs, swept_dir. rewrite claimed_dirs, orphaned_user_iff, He, <- sweepable_iff.
  assert (Hsc : n ∈ map fst (List.filter (scanned_dir w) (map_to_list (kh_roots w))) <-> scanned_dir w (n, e) = true).
  { rewrite list_elem_of_fmap. split.
    - intros ([m f] & -> & [Hin Hf]%elem_of_filter_bool). apply elem_of_map_to_list in Hin. cbn [fst] in *. by rewrite He in Hin; injection Hin as ->.
    - intros Hs. exists (n, e). split; [done|]. apply elem_of_filter_bool. split; [by apply elem_of_map_to_list|done]. }
  rewrite Hsc. unfold scanned_dir, is_directory, has_user. rewrite Hk. destruct (sweepable w n), (bool_decide _), (starts_with _ _), (String.eqb_spec n BACKUPS); cbn; naive_solver.
Qed.

Section smooth.
Context (Hroot : is_root = true) (Hspawn : forall cmd, spawn cmd = None) (Huser : forall n, userdel_works n = true)
  (Hsubid : forall n, subid_fault n = None) (Hstays : forall n f, stays n f = false)
  (Hse : semodule_there && semodule_lists = true) (Hremoves : forall m, semodule_removes m = true).

Lemma run_smooth cmd w : run_command cmd w = (mkK (kh_users w) (kh_roots w) (kh_modules w) (kh_ran w ++ [cmd]), Ok tt).
Proof using All. unfold run_command. by rewrite Hspawn. Qed.

Definition same_kinds (w w' : khost) : Prop := forall n, rt_kind <$> kh_roots w' !! n = rt_kind <$> kh_roots w !! n.

Lemma user_smooth u w : exists w', remove_user_state u w = (w', Ok tt) /\ same_kinds w w' /\ kh_modules w' = kh_modules w /\
  kh_users w' = List.filter (fun v => negb (String.eqb (fst v) (workload_username (fst u)))) (kh_users w).
Proof using All.
  unfold remove_user_state, userdel. cbv [mbind io_bind]. rewrite !run_smooth, Hsubid. cbv [pure]. rewrite run_smooth, Huser. eexists. split_and!; [done| |done|done].
  intros n. cbn. destruct (decide (fst u = n)) as [->|Hne]; [rewrite lookup_alter_eq; by destruct (_ !! n)|by rewrite lookup_alter_ne].
Qed.

Lemma users_smooth us w : exists w', for_io remove_user_state us w = (w', Ok tt) /\ same_kinds w w' /\ kh_modules w' = kh_modules w /\
  (forall n, n ∉ map fst us -> untouched n w w') /\ (forall u, u ∈ us -> forall v, v ∈ kh_users w' -> fst v <> workload_username (fst u)).
Proof using All.
  revert w. induction us as [|u us IH]; intros w; cbn [for_io].
  { exists w. split_and!; [done|by intros n|done|done|by intros u ?%elem_of_nil]. }
  destruct (user_smooth u w) as (w1 & E1 & K1 & M1 & U1). destruct (IH w1) as (w2 & E2 & K2 & M2 & T2 & R2). exists w2. cbv [mbind io_bind]. rewrite E1. split_and!; [done| |congruence| |].
  - intros n. by rewrite (K2 n).
  - cbn [map]. intros n [Hu Hn]%not_elem_of_cons. etrans; [|by apply T2]. pose proof (user_untouched n u (not_eq_sym Hu) w) as H. by rewrite E1 in H.
  - intros x [->|Hx]%elem_of_cons v Hv Hx'; [|by eapply R2].
    destruct (decide (fst u ∈ map fst us)) as [Hin|Hin].
    + apply list_elem_of_fmap in Hin as (y & Ey & Hy). apply (R2 y Hy v Hv). by rewrite <- Ey.
    + destruct (T2 _ Hin) as [_ HT]. rewrite U1 in HT. assert (Hf : v ∈ List.filter (fun v => String.eqb (fst v) (workload_username (fst u))) (kh_users w2)).
      { apply elem_of_filter_bool. split; [done|]. by apply String.eqb_eq. }
      rewrite HT in Hf. apply elem_of_filter_bool in Hf as [Hf _]. apply elem_of_filter_bool in Hf as [_ Hf]. rewrite Hx', String.eqb_refl in Hf. done.
Qed.

Lemma roots_smooth ds w : exists w', for_io remove_root ds w = (w', Ok tt) /\ kh_users w' = kh_users w /\ kh_modules w' = kh_modules w /\
  forall n, kh_roots w' !! n = match kh_roots w !! n with
                               | Some e => if bool_decide (n ∈ ds) && bool_decide (rt_kind e = RealDir) then None else Some e
                               | None => None
                               end.
Proof using All.
  revert w. induction ds as [|d ds IH]; intros w; cbn [for_io].
  { exists w. split_and!; [done|done|done|]. intros n. rewrite bool_decide_eq_false_2 by (by intros ?%elem_of_nil). by destruct (_ !! n). }
  set (w1 := fst (remove_root d w)). destruct (IH w1) as (w2 & E2 & U2 & M2 & R2). exists w2. split_and!; [done|by rewrite U2|by rewrite M2|]. intros n. rewrite R2. clear R2.
  assert (Hleft : forall (s : gset string), filter (fun f => stays d f = true) s = ∅).
  { intros s. apply set_eq. intros f. rewrite elem_of_filter, Hstays. set_solver. }
  destruct (decide (d = n)) as [->|Hne].
  - subst w1. cbn. rewrite lookup_partial_alter_eq. destruct (kh_roots w !! n) as [e|]; [|done]. rewrite (bool_decide_eq_true_2 (n ∈ n :: ds)) by (by left).
    rewrite Hleft, Hstays. destruct (rt_kind e) eqn:Ek; cbn [andb negb].
    + by rewrite (bool_decide_eq_true_2 ((∅ : gset string) = ∅)).
    + by rewrite Ek, (bool_decide_eq_false_2 (LinkedDir = RealDir)), andb_false_r.
    + by rewrite Ek, (bool_decide_eq_false_2 (NotDir = RealDir)), andb_false_r.
  - subst w1. cbn. rewrite lookup_partial_alter_ne by done. destruct (kh_roots w !! n) as [e|]; [|done].
    assert (E : bool_decide (n ∈ d :: ds) = bool_decide (n ∈ ds)) by (apply bool_decide_ext; rewrite elem_of_cons; split; [intros [?|?]; congruence|tauto]). by rewrite E.
Qed.

Lemma modules_smooth ms w : exists w', for_io remove_module ms w = (w', Ok tt) /\ kh_roots w' = kh_roots w /\ kh_users w' = kh_users w /\
  forall x, x ∈ kh_modules w' <-> x ∈ kh_modules w /\ strip x ∉ ms.
Proof using All.
  revert w. induction ms as [|m ms IH]; intros w; cbn [for_io].
  { exists w. split_and!; [done..|]. intros x. rewrite elem_of_nil. tauto. }
  assert (H : exists w1, remove_module m w = (w1, Ok tt) /\ kh_roots w1 = kh_roots w /\ kh_users w1 = kh_users w /\
    kh_modules w1 = filter (fun x => strip x <> m) (kh_modules w)).
  { unfold remove_module. cbv [mbind io_bind]. rewrite run_smooth, Hremoves. by eexists. }
  destruct H as (w1 & E1 & R1 & U1 & M1). destruct (IH w1) as (w2 & E2 & R2 & U2 & M2). exists w2. cbv [mbind io_bind]. rewrite E1, R2, U2.
  split_and!; [done..|]. intros x. rewrite M2, M1, list_elem_of_filter, not_elem_of_cons. tauto.
Qed.

Lemma orphaned_module_iff w m :
  m ∈ orphaned_modules w <-> (exists x, x ∈ kh_modules w /\ m = strip x) /\ starts_with "wl_" m = true /\ ~ exists c, Some c ∈ configs /\ expects c m.
Proof using All.
  unfold orphaned_modules. rewrite Hse, py_sorted_perm, list_elem_of_filter, elem_of_remove_dups, elem_of_filter_bool, expected_iff, list_elem_of_fmap.
  naive_solver.
Qed.

(** A user is left exactly when its name is not swept. *)
Lemma user_left w w1 w3 n :
  (forall n, n ∉ map fst (orphaned_users w) -> untouched n w w1) ->
  (forall u, u ∈ orphaned_users w -> forall v, v ∈ kh_users w1 -> fst v <> workload_username (fst u)) ->
  kh_users w3 = kh_users w1 -> has_user w3 n = has_user w n && negb (sweepable w n).
Proof using All.
  intros T1 R1 U. destruct (decide (n ∈ map fst (orphaned_users w))) as [Hin|Hin].
  - pose proof (proj1 (orphaned_user_iff w n) Hin) as [-> ->]. cbn. apply bool_decide_eq_false. rewrite U. intros (v & Ev & Hv)%list_elem_of_fmap.
    apply list_elem_of_fmap in Hin as (u & -> & Hu). by apply (R1 u Hu v Hv).
  - destruct (T1 n Hin) as [_ HT]. assert (E : has_user w3 n = has_user w n).
    { unfold has_user. rewrite U. apply bool_decide_ext. rewrite !list_elem_of_fmap.
      assert (Hf : forall l, (exists u : string * Z, workload_username n = fst u /\ u ∈ l) <-> exists u, u ∈ List.filter (fun u => String.eqb (fst u) (workload_username n)) l).
      { intros l. split; intros (u & H).
        - destruct H as [Eu Hu]. exists u. apply elem_of_filter_bool. split; [done|by apply String.eqb_eq].
        - apply elem_of_filter_bool in H as [Hu Eu%String.eqb_eq]. eauto. }
      rewrite !Hf. by rewrite HT. }
    rewrite E. destruct (has_user w n) eqn:Eh; [|done]. destruct (sweepable w n) eqn:Es; [|done]. destruct Hin. by apply orphaned_user_iff.
Qed.

(** C29.  When root runs [cleanup --apply] and nothing fails (semodule is there, every command
    starts and works, the subid files can be rewritten, and a removal leaves no file),
    exactly this is removed: the user _wl-<name> of every name that is an orphan; the directory of every orphan
    that has a user or whose name is neither "backups" nor hidden; every loaded wl_
    module no declaration expects.  Every other _wl- user, directory and module stays.
    A name is an orphan when no [workload.toml] that reads as TOML gives it as its
    workload.name (a file that does not read declares nothing) and its state is not
    stamped by a deployment that is there and is not the booted one.  Links and files
    in place of a directory are not covered. *)
Theorem sweep_is_exact w :
  exists w' found, cmd_cleanup true w = (w', Ok found) /\
    (forall n e, kh_roots w !! n = Some e -> rt_kind e = RealDir ->
       (swept_dir w n -> kh_roots w' !! n = None) /\ (~ swept_dir w n -> kh_roots w' !! n = Some e)) /\
    (forall n, has_user w' n = true <-> has_user w n = true /\ ~ orphan w n) /\
    (forall x, x ∈ kh_modules w' <->
       x ∈ kh_modules w /\ (starts_with "wl_" (strip x) = false \/ exists c, Some c ∈ configs /\ expects c (strip x))).
Proof using All.
  destruct (users_smooth (orphaned_users w) w) as (w1 & E1 & K1 & M1 & T1 & R1). destruct (roots_smooth (orphaned_dirs w) w1) as (w2 & E2 & U2 & M2 & R2).
  destruct (modules_smooth (orphaned_modules w) w2) as (w3 & E3 & R3 & U3 & M3). exists w3. eexists. split_and!.
  - unfold cmd_cleanup. rewrite Hroot. cbv [mbind io_bind pure klook]. by rewrite E1, E2, E3.
  - intros n e He Hk. rewrite R3, R2. pose proof (orphaned_dir_iff w n e He Hk) as Hd. pose proof (K1 n) as Hkind. rewrite He in Hkind. cbn in Hkind.
    destruct (kh_roots w1 !! n) as [e1|] eqn:Ee; [|done]. injection Hkind as Hkind. rewrite (bool_decide_eq_true_2 (rt_kind e1 = RealDir)) by congruence. rewrite andb_true_r.
    split; intros Ho; [by rewrite bool_decide_eq_true_2 by (by apply Hd)|]. rewrite bool_decide_eq_false_2 by (by intros ?%Hd). rewrite <- Ee, <- He.
    apply T1. intros Hin. assert (n ∈ orphaned_dirs w) as H%Hd; [|done]. unfold orphaned_dirs. apply claimed_dirs. right. by rewrite He.
  - intros n. rewrite <- kept_iff, <- negb_true_iff, <- andb_true_iff. rewrite (user_left w w1 w3 n T1 R1); [done|congruence].
  - intros x. rewrite M3, M2, M1, orphaned_module_iff. destruct (decide (starts_with "wl_" (strip x) = true)) as [Hs|Hs].
    + rewrite Hs. split; [|naive_solver]. intros [Hx Hn]. split; [done|right].
      destruct (decide (strip x ∈ expected_modules)) as [He%expected_iff|He]; [done|]. destruct Hn. split_and!; [eauto|done|by rewrite <- expected_iff].
    + apply not_true_is_false in Hs. rewrite Hs. naive_solver.
Qed.
End smooth.
End cleanup.

(** ** Across a rollback *)

Lemma marker_stamps cmdline readlink name d w w' b :
  booted_deployment_id cmdline readlink = Some d -> write_marker cmdline readlink name w = (w', Ok b) ->
  exists t, read_marker (kh_roots w' !! name) = Some t /\ assoc "name" t = Some (TStr name) /\ assoc "deployment" t = Some (TStr d).
Proof.
  intros Hd. unfold write_marker. cbv [mbind io_bind klook]. destruct (kh_roots w !! name) as [e|] eqn:E; [|done].
  destruct (read_marker (Some e)) as [t|] eqn:Er; [destruct (is_payload cmdline readlink name t) eqn:Ep|].
  - intros [= <- _]. exists t. rewrite E, Er. unfold is_payload in Ep. rewrite Hd in Ep. apply andb_prop in Ep as [[_ Hn]%andb_prop Hdep]. by apply str_of_is_the_str in Hn, Hdep.
  - intros [= <- _]. exists (payload cmdline readlink name). cbn. rewrite lookup_insert_eq. unfold payload. by rewrite Hd.
  - intros [= <- _]. exists (payload cmdline readlink name). cbn. rewrite lookup_insert_eq. unfold payload. by rewrite Hd.
Qed.

(** State that was provisioned under a deployment which still exists is not swept from
    another one, whatever that declares and whatever fails. *)
Theorem stamped_state_survives_rollback is_root configs cmdline readlink cmdline' readlink' deployed sm sl spawn ud sr sf stays apply name d w w1 b :
  booted_deployment_id cmdline readlink = Some d -> write_marker cmdline readlink name w = (w1, Ok b) ->
  deployment_exists deployed d = true -> booted_deployment_id cmdline' readlink' <> Some d ->
  untouched name w1 (fst (cmd_cleanup is_root configs cmdline' readlink' deployed sm sl spawn ud sr sf stays apply w1)).
Proof.
  intros Hd Hw Hex Hb. destruct (marker_stamps _ _ _ _ _ _ _ Hd Hw) as (t & Ht & Hn & Hdep). apply protected_untouched. right.
  unfold belongs_elsewhere, other_deployments_state. rewrite Ht, Hn, Hdep. cbn [is_the_str]. rewrite String.eqb_refl, Hex. cbn [negb].
  rewrite bool_decide_eq_false_2 by done. destruct deployed; [done|]. unfold deployment_exists in Hex. by destruct (_ || _).
Qed.

(** ** Samples *)

Module Attic.
Definition csum : string := "4f46afe780e64f46afe780e64f46afe780e64f46afe780e64f46afe780e6a080".
Definition here : string := csum +:+ ".0".
Definition there : string := csum +:+ ".1".

Definition cmdline : option string := Some "root=/dev/sda ostree=/ostree/boot.1/default/b/0 quiet".
Definition link_to (id l : string) : option string := Some ("../../../deploy/default/deploy/" +:+ id).
Definition deployed : option (list (string * string)) := Some [("default", here); ("default", there)].

Definition config (n : string) : table := [("workload", TTab [("name", TStr n)])].

Definition shop (m : option tv) : root_entry := mkRoot RealDir m {[ "data/db"; "state/.bashrc" ]}.

Definition host : khost := mkK [("root", 0); ("_wl-shop", 990); ("_wl-web", 991)] {[ "shop" := shop None; "web" := shop None ]} ["wl_shop"] [].

(** With the state of a workload only the other deployment declares. *)
Definition two_deployments : khost :=
  mkK (kh_users host ++ [("_wl-blog", 992)])
    (<["blog" := shop (Some (TTab [("name", TStr "blog"); ("deployment", TStr there)]))]> (kh_roots host)) (kh_modules host) [].

Definition sweep (configs : list (option table)) (w : khost) : khost * res (list (string * Z) * list string * list string) :=
  cmd_cleanup true configs cmdline (link_to here) deployed true true (fun _ => None) (fun _ => true) (fun _ => true) (fun _ => None) (fun _ _ => false) true w.

Lemma booted_here : booted_deployment_id cmdline (link_to here) = Some here.
Proof. vm_compute. reflexivity. Qed.

(** A declaration that does not load protects nothing: the workload's user and its data
    are removed although its file is there. *)
Lemma unreadable_declaration_is_swept :
  (fun n => bool_decide (is_Some (kh_roots (fst (sweep [None; Some (config "web")] host)) !! n))) <$> ["shop"; "web"] = [false; true] /\
  map fst (kh_users (fst (sweep [None; Some (config "web")] host))) = ["root"; "_wl-web"].
Proof. split; vm_compute; reflexivity. Qed.

(** The scan leaves the directory of the backups out; the user of a workload called
    backups, once it has no declaration, brings it back in. *)
Lemma backups_are_swept :
  let archive := mkRoot RealDir None {[ "web-20260101.tar.zst" ]} in
  let before users := mkK users {[ "backups" := archive; "web" := shop None ]} [] [] in
  kh_roots (fst (sweep [Some (config "web")] (before [("_wl-web", 991)]))) !! "backups" = Some archive /\
  kh_roots (fst (sweep [Some (config "web")] (before [("_wl-web", 991); ("_wl-backups", 992)]))) !! "backups" = None.
Proof. split; vm_compute; reflexivity. Qed.
End Attic.

Lemma declared_and_foreign_are_kept_witness :
  untouched "web" Attic.host (fst (Attic.sweep [None; Some (Attic.config "web")] Attic.host)).
Proof.
  apply (declared_and_foreign_are_kept true [None; Some (Attic.config "web")] Attic.cmdline (Attic.link_to Attic.here) Attic.deployed true true
           (fun _ => None) (fun _ => true) (fun _ => true) (fun _ => None) (fun _ _ => false) true Attic.host "web").
  left. by left.
Defined.

(** The state of a workload without a declaration goes, directory, user and module; that of
    a declared one, and one stamped by the other deployment, stay. *)
Lemma sweep_is_exact_witness :
  exists w' found, Attic.sweep [Some (Attic.config "web")] Attic.two_deployments = (w', Ok found) /\
    kh_roots w' !! "shop" = None /\ has_user w' "shop" = false /\ "wl_shop" ∉ kh_modules w' /\
    kh_roots w' !! "web" = Some (Attic.shop None) /\ has_user w' "web" = true /\
    kh_roots w' !! "blog" = Some (Attic.shop (Some (TTab [("name", TStr "blog"); ("deployment", TStr Attic.there)]))).
Proof.
  destruct (sweep_is_exact true [Some (Attic.config "web")] Attic.cmdline (Attic.link_to Attic.here) Attic.deployed true true
           (fun _ => None) (fun _ => true) (fun _ => true) (fun _ => None) (fun _ _ => false) eq_refl (fun _ => eq_refl) (fun _ => eq_refl)
           (fun _ => eq_refl) (fun _ _ => eq_refl) eq_refl (fun _ => eq_refl) Attic.two_deployments) as (w' & found & E & Hd & Hu & Hm).
  exists w', found.
  assert (Hshop : orphan [Some (Attic.config "web")] Attic.cmdline (Attic.link_to Attic.here) Attic.deployed Attic.two_deployments "shop")
    by (refine (proj1 (sweepable_iff _ _ _ _ _ _) _); vm_compute; reflexivity).
  assert (Hkept : forall n, n = "web" \/ n = "blog" ->
    ~ orphan [Some (Attic.config "web")] Attic.cmdline (Attic.link_to Attic.here) Attic.deployed Attic.two_deployments n)
    by (intros n [-> | ->]; refine (proj1 (kept_iff _ _ _ _ _ _) _); vm_compute; reflexivity).
  split_and!; [exact E| | | | | |].
  - apply (Hd "shop" (Attic.shop None)); [reflexivity|reflexivity|]. split; [exact Hshop|left; vm_compute; reflexivity].
  - apply not_true_is_false. intros [_ H]%Hu. by apply H.
  - rewrite Hm. intros [_ [H|(c & Hc & n & t & v & _ & _ & Es & _)]]; [vm_compute in H; discriminate H|].
    apply list_elem_of_singleton in Hc. injection Hc as ->. vm_compute in Es. discriminate Es.
  - apply (Hd "web" (Attic.shop None)); [reflexivity|reflexivity|]. intros [H _]. revert H. apply Hkept. by left.
  - apply Hu. split; [vm_compute; reflexivity|apply Hkept; by left].
  - eapply (Hd "blog"); [reflexivity|reflexivity|]. intros [H _]. revert H. apply Hkept. by right.
Defined.

Lemma stamped_state_survives_rollback_witness :
  let w1 := fst (write_marker Attic.cmdline (Attic.link_to Attic.there) "shop" Attic.host) in
  untouched "shop" w1 (fst (Attic.sweep [] w1)).
Proof.
  intros w1.
  apply (stamped_state_survives_rollback true [] Attic.cmdline (Attic.link_to Attic.there) Attic.cmdline (Attic.link_to Attic.here) Attic.deployed true true
           (fun _ => None) (fun _ => true) (fun _ => true) (fun _ => None) (fun _ _ => false) true "shop" Attic.there Attic.host w1 true).
  - vm_compute. reflexivity.
  - reflexivity.
  - vm_compute. reflexivity.
  - rewrite Attic.booted_here. discriminate.
Defined.
