(* ===== verification/SafePaths.v ===== *)
(** * Root's work in a tree the workload owns: [lib/ensure_common.py], [lib/ensure_container.py], [lib/ensure_vm.py]

    Provisioning runs as root and creates and hands over directories and files below the
    root of a workload, while the workload's user may change what is below it at any
    moment.  The file system is a graph of inodes; before every system call of root the
    workload runs moves of its own, taken from a schedule over which the theorems
    quantify.

    A descriptor is the inode it was opened on.  The kernel's checks on a workload's move
    are those of ownership, the write bits, the sticky bit and
    [fs.protected_hardlinks]; what else it refuses is left out, so that the workload of
    the model can do more.  Parameters: where a link leads, and what [Path.resolve] says
    about a path of the tree as it is. *)
From S2P Require Import Prelude PyStr PyPath Toml WorkloadNames WorkloadConfig BrokerConfig RunArgs GenCommon.
Local Open Scope Z_scope.

(** ** Inodes *)

Inductive node := Dir (es : gmap string positive) | File | Link (to : string) | Fifo.

Record inode := mkInode { i_node : node; i_uid : Z; i_gid : Z; i_mode : Z }.

Notation fs := (gmap positive inode).

Definition child (f : fs) (d : positive) (n : string) : option positive :=
  match f !! d with Some (mkInode (Dir es) _ _ _) => es !! n | _ => None end.

Definition is_dir (x : inode) : bool := match i_node x with Dir _ => true | _ => false end.

Definition in_dir (g : gmap string positive -> gmap string positive) (x : inode) : inode :=
  match i_node x with Dir es => mkInode (Dir (g es)) (i_uid x) (i_gid x) (i_mode x) | _ => x end.

Definition add_entry (d : positive) (n : string) (i : positive) (f : fs) : fs := alter (in_dir (insert n i)) d f.
Definition del_entry (d : positive) (n : string) (f : fs) : fs := alter (in_dir (delete n)) d f.

(** The number of names of an inode. *)
Definition nlink (f : fs) (i : positive) : Z :=
  foldr (fun p acc => match i_node (snd p) with Dir es => Z.of_nat (size (filter (fun e => snd e = i) es)) + acc | _ => acc end) 0 (map_to_list f).

(** A new inode below [d]. *)
Definition new_at (d : positive) (n : string) (x : inode) (f : fs) : fs :=
  let i := fresh (dom f) in add_entry d n i (<[i := x]> f).

Definition attrs (f : fs) (i : positive) : option (Z * Z * Z) := (fun x => (i_uid x, i_gid x, i_mode x)) <$> f !! i.

Section tree.
(** The workload's user and the groups it is in, root's umask, and the inode of the
    workload's root. *)
Variable user : Z.
Variable groups : list Z.
Variable umask : Z.
Variable anchor : positive.

(** ** The workload *)

Definition may_write (x : inode) : bool :=
  (i_uid x =? user) || (bool_decide (i_gid x ∈ groups) && Z.testbit (i_mode x) 4) || Z.testbit (i_mode x) 1.

Definition writable (f : fs) (d : positive) : bool := match f !! d with Some x => is_dir x && may_write x | None => false end.

Definition owns (f : fs) (i : positive) : bool := match f !! i with Some x => i_uid x =? user | None => false end.

Definition sticky (f : fs) (d : positive) : bool := match f !! d with Some x => Z.testbit (i_mode x) 9 | None => false end.

(** Whether the workload may take the name of [i] out of [d]. *)
Definition may_unlink (f : fs) (d i : positive) : bool := writable f d && (negb (sticky f d) || owns f d || owns f i).

(** [fs.protected_hardlinks]: one's own inode, or a regular file one may write. *)
Definition may_link (f : fs) (i : positive) : bool :=
  match f !! i with
  | Some x => negb (is_dir x) && ((i_uid x =? user) || match i_node x with File => may_write x | _ => false end)
  | None => false
  end.

Inductive move :=
  | MkDir (d : positive) (n : string)
  | MkFile (d : positive) (n : string)
  | MkFifo (d : positive) (n : string)
  | Symlink (d : positive) (n : string) (to : string)
  | Unlink (d : positive) (n : string)
  | Rename (d : positive) (n : string) (d' : positive) (n' : string)
  | HardLink (i d : positive) (n : string)
  | Chmod (i : positive) (gid mode : Z).

Definition make (f : fs) (d : positive) (n : string) (x : node) : fs :=
  if writable f d && negb (bool_decide (is_Some (child f d n))) then new_at d n (mkInode x user user 511) f else f.

Definition empty_dir (f : fs) (i : positive) : bool :=
  match f !! i with Some (mkInode (Dir es) _ _ _) => bool_decide (es = ∅) | _ => true end.

Definition workload_move (m : move) (f : fs) : fs :=
  match m with
  | MkDir d n => make f d n (Dir ∅)
  | MkFile d n => make f d n File
  | MkFifo d n => make f d n Fifo
  | Symlink d n to => make f d n (Link to)
  | Unlink d n =>
      match child f d n with
      | Some i => if may_unlink f d i && empty_dir f i then del_entry d n f else f
      | None => f
      end
  | Rename d n d' n' =>
      match child f d n with
      | Some i =>
          if may_unlink f d i && writable f d' && match child f d' n' with Some j => may_unlink f d' j | None => true end
          then add_entry d' n' i (del_entry d n f) else f
      | None => f
      end
  | HardLink i d n =>
      if may_link f i && writable f d && negb (bool_decide (is_Some (child f d n))) then add_entry d n i f else f
  | Chmod i gid mode =>
      match f !! i with
      | Some x => if (i_uid x =? user) && ((i_gid x =? gid) || bool_decide (gid ∈ groups)) then <[i := mkInode (i_node x) (i_uid x) gid mode]> f else f
      | None => f
      end
  end.

(** ** Root's system calls *)

(** The moves the workload makes before each of the calls to come, and the number of
    descriptors that are open. *)
Record world := mkW { w_fs : fs; w_moves : list (list move); w_fds : Z }.

Definition sys {A} (call : fs -> fs * res A) : io world A := fun w =>
  let f := foldl (fun f m => workload_move m f) (w_fs w) (default [] (head (w_moves w))) in
  let '(f', r) := call f in (mkW f' (tail (w_moves w)) (w_fds w), r).

Definition count_fd (n : Z) : io world unit := fun w => (mkW (w_fs w) (w_moves w) (w_fds w + n), Ok tt).

Definition opened (m : io world positive) : io world positive := i ← m; _ ← count_fd 1; mret i.

Definition close (fd : positive) : io world unit := count_fd (-1).

(** [os.open(root_dir, O_RDONLY | O_DIRECTORY)] *)
Definition open_root : io world positive :=
  opened (sys (fun f => (f, match f !! anchor with Some x => if is_dir x then Ok anchor else Raise OSError | None => Raise FileNotFoundError end))).

(** [os.open(part, O_RDONLY | O_DIRECTORY | O_NOFOLLOW, dir_fd=fd)] *)
Definition open_dir (fd : positive) (part : string) : io world positive :=
  opened (sys (fun f => (f, match child f fd part with
                            | None => Raise FileNotFoundError
                            | Some i => match f !! i with Some x => if is_dir x then Ok i else Raise OSError | None => Raise FileNotFoundError end
                            end))).

(** [os.open(part, O_RDONLY | O_NOFOLLOW, dir_fd=fd)]; the opening of a FIFO that nothing
    writes to does not return, which is [TimeoutError] here. *)
Definition open_file (fd : positive) (part : string) : io world positive :=
  opened (sys (fun f => (f, match child f fd part with
                            | None => Raise FileNotFoundError
                            | Some i => match f !! i with
                                        | Some x => match i_node x with Link _ => Raise OSError | Fifo => Raise TimeoutError | _ => Ok i end
                                        | None => Raise FileNotFoundError
                                        end
                            end))).

(** A directory that has been removed takes no entries. *)
Definition removed (f : fs) (d : positive) : bool := negb (bool_decide (d = anchor)) && (nlink f d =? 0).

(** [os.mkdir(part, mode, dir_fd=fd)] *)
Definition mkdir_at (fd : positive) (part : string) (mode : Z) : io world unit :=
  sys (fun f =>
    if bool_decide (is_Some (child f fd part)) then (f, Raise FileExistsError)
    else if removed f fd then (f, Raise FileNotFoundError)
    else (new_at fd part (mkInode (Dir ∅) 0 0 (Z.land mode (Z.lnot umask))) f, Ok tt)).

Definition fchown (fd : positive) (uid gid : Z) : io world unit :=
  sys (fun f => (alter (fun x => mkInode (i_node x) uid gid (i_mode x)) fd f, Ok tt)).

Definition fchmod (fd : positive) (mode : Z) : io world unit :=
  sys (fun f => (alter (fun x => mkInode (i_node x) (i_uid x) (i_gid x) mode) fd f, Ok tt)).

(** [os.fstat]: whether it is a regular file, its links and its owner. *)
Definition fstat (fd : positive) : io world (bool * Z * Z * Z) :=
  sys (fun f => (f, match f !! fd with
                    | Some x => Ok (match i_node x with File => true | _ => false end, nlink f fd, i_uid x, i_gid x)
                    | None => Raise OSError
                    end)).

(** The result of a call, caught. *)
Definition attempted {A} (m : io world A) : io world (res A) := fun w => let '(w', r) := m w in (w', Ok r).

(** The [finally] of a block that goes on: only when it raises. *)
Definition on_error {A} (m : io world A) (fin : io world unit) : io world A :=
  try_io m (fun _ => true) (fun e => _ ← fin; pure (Raise e)).

(** ** The walks *)

(** One component of [_provision_dir_secure], at most [n] times; [None] refuses. *)
Fixpoint open_or_make (n : nat) (fd : positive) (part : string) (mode : Z) : io world (option positive) :=
  match n with
  | O => mret None
  | S n =>
      r ← attempted (open_dir fd part);
      match r with
      | Ok c => mret (Some c)
      | Raise FileNotFoundError =>
          _ ← try_io (mkdir_at fd part mode) (fun e => bool_decide (e = FileExistsError)) (fun _ => mret tt);
          open_or_make n fd part mode
      | Raise e => if is_oserror e then mret None else pure (Raise e)
      end
  end.

(** The descent of [_provision_dir_secure] from a descriptor; whichever descriptor is
    open when it ends is closed. *)
Fixpoint provision_walk (fd : positive) (ps : list string) (uid gid mode : Z) : io world bool :=
  match ps with
  | [] => finally (_ ← fchown fd uid gid; _ ← fchmod fd mode; mret true) (close fd)
  | p :: ps =>
      c ← on_error (open_or_make 2 fd p mode) (close fd);
      _ ← close fd;
      match c with Some c => provision_walk c ps uid gid mode | None => mret false end
  end.

Definition _provision_dir_secure (root_dir host_path : pypath) (uid gid mode : Z) : io world bool :=
  match relative_to host_path root_dir with
  | Raise _ => mret false
  | Ok ps =>
      if bool_decide (ps = []) || bool_decide (".." ∈ ps) then mret false
      else fd ← open_root; provision_walk fd ps uid gid mode
  end.

Fixpoint descend_from (fd : positive) (ps : list string) : io world (option positive) :=
  match ps with
  | [] => mret (Some fd)
  | p :: ps =>
      r ← attempted (open_dir fd p);
      _ ← close fd;
      match r with Ok c => descend_from c ps | Raise e => if is_oserror e then mret None else pure (Raise e) end
  end.

Definition _descend_nofollow (ps : list string) : io world (option positive) := fd ← open_root; descend_from fd ps.

Definition _chown_file_secure (root_dir host_path : pypath) (uid gid : Z) : io world bool :=
  match relative_to host_path root_dir with
  | Raise _ => mret false
  | Ok ps =>
      match last ps with
      | None => mret false
      | Some leaf =>
          if bool_decide (".." ∈ ps) then mret false
          else
            d ← _descend_nofollow (removelast ps);
            match d with
            | None => mret false
            | Some d =>
                finally (
                  r ← attempted (open_file d leaf);
                  match r with
                  | Raise FileNotFoundError => mret false
                  | Raise TimeoutError => pure (Raise TimeoutError)
                  | Raise e => if is_oserror e then mret false else pure (Raise e)
                  | Ok file =>
                      finally (
                        '(regular, links, u, g) ← fstat file;
                        if negb regular then mret false
                        else if negb (links =? 1) then mret false
                        else if (u =? uid) && (g =? gid) then mret true
                        else _ ← fchown file uid gid; mret true) (close file)
                  end) (close d)
            end
      end
  end.

(** ** The callers *)

Section callers.
(** Whether the path, resolved on the tree as it is, is below the root. *)
Variable resolves_below : fs -> pypath -> bool.
(** The user the workload runs as, and its group. *)
Variable uid : Z.
Variable gid : Z.

Definition text_of (v : tv) : res string := match v with TStr s => Ok s | _ => Raise AttributeError end.

Definition host_part (s : string) : string := fst (partition ":" s).

Definition listed (config : table) (a b : string) : res (list tv) := v ← get2 config a b (TArr []); iter v.

(** One volume: a directory below the root that is no required file is provisioned. *)
Definition setup_volume (root_dir : pypath) (state_dir : string) (required : list string) (spec : tv) : io world unit :=
  s ← pure (text_of spec);
  expanded ← pure (expand_volume_path s state_dir);
  let host := host_part expanded in
  if String.eqb host "" then mret tt
  else
    let host_path := path_of host in
    if bool_decide (path_str host_path ∈ required) then mret tt
    else
      below ← sys (fun f => (f, Ok (resolves_below f host_path)));
      if below : bool then _ ← _provision_dir_secure root_dir host_path uid gid 493; mret tt else mret tt.

(** The path of a required file, empty when it names none. *)
Definition required_path (state_dir : string) (entry : tv) : res string :=
  raw ← get_or entry "path" (TStr "");
  if truthy raw then s ← text_of raw; x ← expand_volume_path s state_dir; Ok (host_part x) else Ok "".

(** The paths are collected in a set; a list or a table is not one's member. *)
Definition required_member (state_dir : string) (entry : tv) : res string :=
  raw ← get_or entry "path" (TStr "");
  match raw with TArr [] | TTab [] => Raise TypeError | _ => required_path state_dir entry end.

Definition container_volumes (c : table) : res (list tv) := v ← get2 c "storage" "volumes" (TArr []); iter v.

(** The name, the paths of the required files and the volumes of every container. *)
Definition volume_plan (config : table) : res (string * list string * list tv) :=
  name ← config_name config;
  entries ← listed config "setup" "required_files";
  required ← mapM_res (required_member (path_str (workload_state_dir name))) entries;
  containers ← normalize_containers config;
  specs ← mapM_res container_volumes containers;
  Ok (name, required, concat specs).

Definition setup_volume_directories (config : table) : io world unit :=
  '(name, required, specs) ← pure (volume_plan config);
  for_io (setup_volume (workload_root_dir name) (path_str (workload_state_dir name)) required) specs.

Definition setup_vm_volume (root_dir : pypath) (state_dir : string) (spec : tv) : io world unit := setup_volume root_dir state_dir [] spec.

Definition setup_vm_volume_directories (config : table) : io world unit :=
  name ← pure (config_name config);
  specs ← pure (listed config "vm" "volumes");
  for_io (setup_vm_volume (workload_root_dir name) (path_str (workload_state_dir name))) specs.

Definition own_required_file (root_dir : pypath) (state_dir : string) (entry : tv) : io world unit :=
  host ← pure (required_path state_dir entry);
  if String.eqb host "" then mret tt
  else _ ← _chown_file_secure root_dir (path_of host) uid gid; mret tt.

Definition setup_required_file_ownership (config : table) : io world unit :=
  name ← pure (config_name config);
  entries ← pure (listed config "setup" "required_files");
  for_io (own_required_file (workload_root_dir name) (path_str (workload_state_dir name))) entries.
End callers.

(** ** By path *)

Section by_path.
(** Where a link in a directory leads. *)
Variable follow : fs -> positive -> string -> option positive.

Definition step_into (f : fs) (d : positive) (p : string) : option positive :=
  i ← child f d p;
  match f !! i with Some (mkInode (Link to) _ _ _) => follow f d to | Some _ => Some i | None => None end.

Fixpoint at_path (f : fs) (d : positive) (ps : list string) : option positive :=
  match ps with [] => Some d | p :: ps => c ← step_into f d p; at_path f c ps end.

Definition exists_path (ps : list string) : io world bool := sys (fun f => (f, Ok (bool_decide (is_Some (at_path f anchor ps))))).

(** [os.mkdir(path, mode)] *)
Definition os_mkdir (ps : list string) (mode : Z) : io world unit :=
  sys (fun f =>
    match at_path f anchor (removelast ps), last ps with
    | Some d, Some n =>
        if bool_decide (is_Some (child f d n)) then (f, Raise FileExistsError)
        else if match f !! d with Some x => is_dir x | None => false end && negb (removed f d)
             then (new_at d n (mkInode (Dir ∅) 0 0 (Z.land mode (Z.lnot umask))) f, Ok tt)
             else (f, Raise OSError)
    | None, _ => (f, Raise FileNotFoundError)
    | _, None => (f, Raise FileExistsError)
    end).

Definition is_dir_path (ps : list string) : io world bool :=
  sys (fun f => (f, Ok (match at_path f anchor ps with Some i => match f !! i with Some x => is_dir x | None => false end | None => false end))).

(** What is there already is no error when it is a directory. *)
Definition exist_ok (ps : list string) (e : exn) : io world unit := d ← is_dir_path ps; if d : bool then mret tt else pure (Raise e).

(** [path.mkdir(mode, exist_ok=True)] *)
Definition mkdir_once (ps : list string) (mode : Z) : io world unit :=
  try_io (os_mkdir ps mode) (fun e => negb (bool_decide (e = FileNotFoundError))) (exist_ok ps).

(** [path.mkdir(mode, parents=True, exist_ok=True)]: parents are made with the default mode. *)
Fixpoint mkdir_path (n : nat) (ps : list string) (mode : Z) : io world unit :=
  r ← attempted (os_mkdir ps mode);
  match r with
  | Ok _ => mret tt
  | Raise FileNotFoundError =>
      match n with S n => _ ← mkdir_path n (removelast ps) 511; mkdir_once ps mode | O => pure (Raise FileNotFoundError) end
  | Raise e => exist_ok ps e
  end.

Definition on_path (change : inode -> inode) (ps : list string) : io world unit :=
  sys (fun f => match at_path f anchor ps with Some i => (alter change i f, Ok tt) | None => (f, Raise FileNotFoundError) end).

Definition chown_path (ps : list string) (uid gid : Z) : io world unit := on_path (fun x => mkInode (i_node x) uid gid (i_mode x)) ps.
Definition chmod_path (ps : list string) (mode : Z) : io world unit := on_path (fun x => mkInode (i_node x) (i_uid x) (i_gid x) mode) ps.

(** One of the two directories of [setup_home_directory]. *)
Definition setup_home_subdir (sub : string) (uid gid : Z) : io world unit :=
  there ← exists_path [sub];
  _ ← (if there : bool then mret tt else mkdir_path 1 [sub] 511);
  _ ← chown_path [sub] uid gid;
  chmod_path [sub] 448.

Definition setup_home_directory (uid gid : Z) : io world unit :=
  _ ← setup_home_subdir STATE_SUBDIR uid gid; setup_home_subdir DATA_SUBDIR uid gid.

(** The directories of the egress PKI, by their names below the state directory, which
    the egress package chooses. *)
Variable pki_names : list string.

Definition provision_egress_pki_dirs (uid gid : Z) : io world unit :=
  for_io (fun d => _ ← mkdir_path 2 [STATE_SUBDIR; d] 448; chown_path [STATE_SUBDIR; d] uid gid) pki_names.
End by_path.

(** ** What the workload cannot reach *)

(** A set of the host's inodes, the workload's root among them, that the workload does
    not own, cannot link, and none of which is below the root or in a directory where
    the workload could take it away. *)
Record protected (P : gset positive) (f : fs) : Prop := {
  pr_root : anchor ∈ P;
  pr_known : P ⊆ dom f;
  pr_owner : forall i, i ∈ P -> owns f i = false /\ may_link f i = false;
  pr_entry : forall d n i, child f d n = Some i -> i ∈ P -> d ∈ P /\ d <> anchor /\ may_unlink f d i = false }.

Definition protectedb (P : gset positive) (f : fs) : bool :=
  bool_decide (anchor ∈ P) && bool_decide (P ⊆ dom f)
  && forallb (fun i => negb (owns f i) && negb (may_link f i)) (elements P)
  && forallb (fun p => match i_node (snd p) with
                       | Dir es => forallb (fun e => negb (bool_decide (snd e ∈ P)) ||
                                                     (bool_decide (fst p ∈ P) && negb (bool_decide (fst p = anchor)) && negb (may_unlink f (fst p) (snd e)))) (map_to_list es)
                       | _ => true
                       end) (map_to_list f).

Lemma protectedb_sound P f : protectedb P f = true -> protected P f.
Proof.
  unfold protectedb. intros [[[Hr Hk]%andb_prop Ho]%andb_prop He]%andb_prop. apply bool_decide_eq_true in Hr, Hk. rewrite forallb_forall in Ho, He. split; [done|done| |].
  - intros i Hi. specialize (Ho i). rewrite <- list_elem_of_In, elem_of_elements in Ho. apply Ho, andb_prop in Hi as [H1 H2]. by apply negb_true_iff in H1, H2.
  - intros d n i Hc Hi. unfold child in Hc. destruct (f !! d) as [[[es| | |] u g m]|] eqn:E; try done. apply elem_of_map_to_list, list_elem_of_In, He in E. cbn in E.
    rewrite forallb_forall in E. apply elem_of_map_to_list, list_elem_of_In, E in Hc. cbn in Hc. rewrite (bool_decide_eq_true_2 (i ∈ P)) in Hc by done. cbn in Hc.
    apply andb_prop in Hc as [[H1 H2]%andb_prop H3]. apply bool_decide_eq_true in H1. apply negb_true_iff, bool_decide_eq_false in H2. by apply negb_true_iff in H3.
Qed.

Definition same_attrs (P : gset positive) (f f' : fs) : Prop := forall i, i ∈ P -> attrs f' i = attrs f i.

Definition kind (x : inode) : Z := match i_node x with Dir _ => 0 | File => 1 | Link _ => 2 | Fifo => 3 end.

Definition sig (f : fs) (i : positive) : option (Z * (Z * Z * Z)) := (fun x => (kind x, (i_uid x, i_gid x, i_mode x))) <$> f !! i.

(** What is in [P] keeps its kind and attributes, and no new name leads into [P]. *)
Definition frame (P : gset positive) (f f' : fs) : Prop :=
  (forall i, i ∈ P -> sig f' i = sig f i) /\ (forall d n i, child f' d n = Some i -> i ∈ P -> child f d n = Some i).

#[local] Instance frame_preorder P : PreOrder (frame P).
Proof. split; [done|]. intros f g h [H1 H2] [H3 H4]. split; [intros i Hi; by rewrite H3, H1|eauto]. Qed.

Lemma frame_attrs P f f' : frame P f f' -> same_attrs P f f'.
Proof.
  intros [H _] i Hi. specialize (H i Hi). unfold sig, attrs in *. destruct (f !! i), (f' !! i); cbn in *; congruence.
Qed.

Lemma sig_checks f f' i : sig f' i = sig f i ->
  owns f' i = owns f i /\ may_link f' i = may_link f i /\ writable f' i = writable f i /\ sticky f' i = sticky f i.
Proof.
  unfold sig, owns, may_link, writable, sticky, is_dir, may_write. destruct (f !! i) as [[n u g m]|], (f' !! i) as [[n' u' g' m']|]; cbn; try done.
  intros [= Hk -> -> ->]. by destruct n, n'.
Qed.

Lemma frame_protected P f f' : protected P f -> frame P f f' -> protected P f'.
Proof.
  intros [Hr Hk Ho He] [Hs Hg]. split; [done| | |].
  - intros i Hi. apply elem_of_dom. specialize (Hs i Hi). apply Hk, elem_of_dom in Hi as [x Hx]. unfold sig in Hs. rewrite Hx in Hs. by destruct (f' !! i).
  - intros i Hi. destruct (sig_checks _ _ _ (Hs i Hi)) as (-> & -> & _). by apply Ho.
  - intros d n i Hc Hi. destruct (He d n i) as (Hd & Hne & Hu); [by apply Hg|done|]. split_and!; [done|done|]. unfold may_unlink in *.
    destruct (sig_checks _ _ _ (Hs i Hi)) as (-> & _). by destruct (sig_checks _ _ _ (Hs d Hd)) as (-> & _ & -> & ->).
Qed.

(** A change of the attributes of what is outside. *)
Lemma frame_alter P f i g : i ∉ P -> (forall x, i_node (g x) = i_node x) -> frame P f (alter g i f).
Proof.
  intros Hi Hg. split.
  - intros j Hj. unfold sig. by rewrite lookup_alter_ne by (by intros ->).
  - intros d n j. unfold child. destruct (decide (i = d)) as [->|Hne]; [|by rewrite lookup_alter_ne by done]. rewrite lookup_alter_eq.
    destruct (f !! d) as [x|]; cbn; [|done]. specialize (Hg x). by destruct x, (g _) as [n' ???]; cbn in *; subst n'.
Qed.

Lemma sig_in_dir f d g i : sig (alter (in_dir g) d f) i = sig f i.
Proof.
  unfold sig. destruct (decide (d = i)) as [->|Hne]; [|by rewrite lookup_alter_ne by done]. rewrite lookup_alter_eq. destruct (f !! i) as [[[] ? ? ?]|]; done.
Qed.

Lemma child_in_dir f d g d' n : child (alter (in_dir g) d f) d' n = if decide (d' = d) then match f !! d with Some (mkInode (Dir es) _ _ _) => g es !! n | _ => None end else child f d' n.
Proof.
  unfold child. destruct (decide (d' = d)) as [->|Hne]; [|by rewrite lookup_alter_ne by done]. rewrite lookup_alter_eq. by destruct (f !! d) as [[[] ? ? ?]|].
Qed.

Lemma frame_add P f d n i : i ∉ P -> frame P f (add_entry d n i f).
Proof.
  intros Hi. split; [intros; apply sig_in_dir|]. intros d' n' j. unfold add_entry. rewrite child_in_dir. case_decide as Hd; [subst d'|done].
  unfold child. destruct (f !! d) as [[[es| | |] ? ? ?]|]; try done. destruct (decide (n = n')) as [->|Hn]; [rewrite lookup_insert_eq; by intros [= ->]|by rewrite lookup_insert_ne].
Qed.

Lemma frame_del P f d n : frame P f (del_entry d n f).
Proof.
  split; [intros; apply sig_in_dir|]. intros d' n' j. unfold del_entry. rewrite child_in_dir. case_decide as Hd; [subst d'|done].
  unfold child. destruct (f !! d) as [[[es| | |] ? ? ?]|]; try done. intros [_ H]%lookup_delete_Some. done.
Qed.

Lemma frame_new P f d n x : P ⊆ dom f -> i_node x = Dir ∅ \/ is_dir x = false -> frame P f (new_at d n x f).
Proof.
  intros HP Hx. assert (Hf : fresh (dom f) ∉ P) by (intros H%HP; by apply is_fresh in H). unfold new_at. etrans; [|by apply frame_add]. split.
  - intros i Hi. unfold sig. by rewrite lookup_insert_ne by (by intros <-).
  - intros d' n' j. unfold child. destruct (decide (fresh (dom f) = d')) as [<-|Hne]; [|by rewrite lookup_insert_ne by done]. rewrite lookup_insert_eq.
    destruct x as [[es| | |] ? ? ?]; try done. destruct Hx as [[= ->]|]; [|done]. by rewrite lookup_empty.
Qed.

(** ** The workload cannot break out *)

Lemma frame_make P f d n x : protected P f -> x = Dir ∅ \/ is_dir (mkInode x 0 0 0) = false -> frame P f (make f d n x).
Proof. intros HP Hx. unfold make. destruct (_ && _); [|done]. apply frame_new; [apply HP|]. by destruct Hx as [->|]; [left|right]. Qed.

Lemma unlinkable_outside P f d n i : protected P f -> child f d n = Some i -> may_unlink f d i = true -> i ∉ P.
Proof. intros HP Hc Hm Hi. destruct (pr_entry _ _ HP d n i Hc Hi) as (_ & _ & H). congruence. Qed.

Lemma frame_move P f m : protected P f -> frame P f (workload_move m f).
Proof.
  intros HP. destruct m as [d n|d n|d n|d n to|d n|d n d' n'|i d n|i g m]; cbn [workload_move].
  - apply frame_make; [done|by left].
  - apply frame_make; [done|by right].
  - apply frame_make; [done|by right].
  - apply frame_make; [done|by right].
  - destruct (child f d n); [|done]. destruct (_ && _); [apply frame_del|done].
  - destruct (child f d n) as [i|] eqn:Ec; [|done]. destruct (may_unlink f d i) eqn:Eu; [|done]. destruct (_ && _); [|done].
    etrans; [apply frame_del|]. apply frame_add. by eapply unlinkable_outside.
  - destruct (may_link f i) eqn:El; [|done]. destruct (_ && _); [|done]. apply frame_add. intros Hi. destruct (pr_owner _ _ HP i Hi). congruence.
  - destruct (f !! i) as [x|] eqn:Ex; [|done]. destruct (i_uid x =? user) eqn:Eu; [|done]. destruct (_ || _); [|done]. cbn.
    assert (Hi : i ∉ P). { intros Hi. destruct (pr_owner _ _ HP i Hi) as [Ho _]. unfold owns in Ho. rewrite Ex in Ho. congruence. }
    assert (E : <[i:=mkInode (i_node x) (i_uid x) g m]> f = alter (fun y => mkInode (i_node y) (i_uid y) g m) i f).
    { apply map_eq. intros j. destruct (decide (i = j)) as [->|]; [by rewrite lookup_insert_eq, lookup_alter_eq, Ex|by rewrite lookup_insert_ne, lookup_alter_ne]. }
    rewrite E. by apply frame_alter.
Qed.

Lemma frame_moves P ms f : protected P f -> frame P f (foldl (fun f m => workload_move m f) f ms).
Proof.
  revert f. induction ms as [|m ms IH]; intros f HP; [done|]. cbn [foldl]. etrans; [by apply frame_move|]. apply IH. eapply frame_protected; [done|by apply frame_move].
Qed.

(** ** Neither can root be led out *)

(** From a protected world, [m] keeps to the outside of [P] whatever the workload does,
    and what it returns is in [Q]. *)
Definition confined {A} (P : gset positive) (m : io world A) (Q : A -> Prop) : Prop :=
  forall w, protected P (w_fs w) -> frame P (w_fs w) (w_fs (fst (m w))) /\ forall a, snd (m w) = Ok a -> Q a.

Definition anything {A} (_ : A) : Prop := True.

Section confined.
Context (P : gset positive).

Lemma confined_bind {A B} (m : io world A) (k : A -> io world B) Q Q' :
  confined P m Q -> (forall a, Q a -> confined P (k a) Q') -> confined P (x ← m; k x) Q'.
Proof.
  intros Hm Hk w Hw. destruct (Hm w Hw) as [Hf Hq]. cbv [mbind io_bind]. destruct (m w) as [w1 [a|e]]; cbn in *; [|by split].
  destruct (Hk a (Hq a eq_refl) w1) as [Hf' Hq']; [by eapply frame_protected|]. split; [by etrans|done].
Qed.

Lemma confined_ret {A} (a : A) (Q : A -> Prop) : Q a -> confined P (mret a) Q.
Proof. intros H w Hw. split; [done|]. by intros ? [= <-]. Qed.

Lemma confined_pure {A} (r : res A) (Q : A -> Prop) : (forall a, r = Ok a -> Q a) -> confined P (pure r) Q.
Proof. intros H w Hw. by split. Qed.

Lemma confined_weaken {A} (m : io world A) (Q Q' : A -> Prop) : confined P m Q -> (forall a, Q a -> Q' a) -> confined P m Q'.
Proof. intros Hm HQ w Hw. destruct (Hm w Hw) as [Hf Hq]. split; [done|]. eauto. Qed.

Lemma confined_sys {A} (call : fs -> fs * res A) (Q : A -> Prop) :
  (forall f, protected P f -> frame P f (fst (call f)) /\ forall a, snd (call f) = Ok a -> Q a) -> confined P (sys call) Q.
Proof.
  intros H w Hw. unfold sys. pose proof (frame_moves P (default [] (head (w_moves w))) _ Hw) as Hm. set (f := foldl _ _ _) in *.
  destruct (H f) as [Hf Hq]; [by eapply frame_protected|]. destruct (call f) as [f' r]. cbn in *. split; [by etrans|done].
Qed.

Lemma confined_look {A} (g : fs -> res A) (Q : A -> Prop) : (forall f a, protected P f -> g f = Ok a -> Q a) -> confined P (sys (fun f => (f, g f))) Q.
Proof. intros H. apply confined_sys. intros f Hf. split; [done|]. intros a. by apply H. Qed.

Lemma confined_count n : confined P (count_fd n) anything.
Proof. by intros w Hw. Qed.

Lemma confined_opened m Q : confined P m Q -> confined P (opened m) Q.
Proof. intros Hm. eapply confined_bind; [done|]. intros i Hi. eapply confined_bind; [apply confined_count|]. intros _ _. by apply confined_ret. Qed.

Lemma confined_attempted {A} (m : io world A) Q : confined P m Q -> confined P (attempted m) (fun r => forall a, r = Ok a -> Q a).
Proof. intros Hm w Hw. destruct (Hm w Hw) as [Hf Hq]. unfold attempted. destruct (m w) as [w1 r]. cbn in *. split; [done|]. by intros ? [= <-]. Qed.

Lemma confined_finally {A} (m : io world A) fin Q : confined P m Q -> confined P fin anything -> confined P (finally m fin) Q.
Proof.
  intros Hm Hfin w Hw. destruct (Hm w Hw) as [Hf Hq]. unfold finally. destruct (m w) as [w1 r]. cbn in *.
  destruct (Hfin w1) as [Hf' _]; [by eapply frame_protected|]. destruct (fin w1) as [w2 [?|?]]; cbn in *; (split; [by etrans|done]).
Qed.

Lemma confined_try {A} (m : io world A) p h Q : confined P m Q -> (forall e, confined P (h e) Q) -> confined P (try_io m p h) Q.
Proof.
  intros Hm Hh w Hw. destruct (Hm w Hw) as [Hf Hq]. unfold try_io. destruct (m w) as [w1 [a|e]]; cbn in *; [by split|]. destruct (p e); [|by split].
  destruct (Hh e w1) as [Hf' Hq']; [by eapply frame_protected|]. split; [by etrans|done].
Qed.

Lemma confined_for {A} (g : A -> io world unit) l : (forall x, confined P (g x) anything) -> confined P (for_io g l) anything.
Proof. intros H. induction l as [|x l IH]; cbn [for_io]; [by apply confined_ret|]. eapply confined_bind; [apply H|]. by intros _ _. Qed.

(** A descriptor of the walk: the root, or outside of [P]. *)
Definition inside (i : positive) : Prop := i = anchor \/ i ∉ P.

Lemma child_outside f d n i : protected P f -> inside d -> child f d n = Some i -> i ∉ P.
Proof. intros HP Hd Hc Hi. destruct (pr_entry _ _ HP d n i Hc Hi) as (HdP & Hne & _). by destruct Hd. Qed.

Lemma confined_open_root : confined P open_root inside.
Proof. apply confined_opened, confined_look. intros f a _. destruct (f !! anchor) as [x|]; [|done]. destruct (is_dir x); [|done]. intros [= <-]. by left. Qed.

Lemma confined_open_dir d n : inside d -> confined P (open_dir d n) (fun c => c ∉ P).
Proof.
  intros Hd. apply confined_opened, confined_look. intros f a Hf. destruct (child f d n) as [i|] eqn:Ec; [|done]. destruct (f !! i) as [x|]; [|done].
  destruct (is_dir x); [|done]. intros [= <-]. by eapply child_outside.
Qed.

Lemma confined_open_file d n : inside d -> confined P (open_file d n) (fun c => c ∉ P).
Proof.
  intros Hd. apply confined_opened, confined_look. intros f a Hf. destruct (child f d n) as [i|] eqn:Ec; [|done]. destruct (f !! i) as [x|]; [|done].
  destruct (i_node x); try done; intros [= <-]; by eapply child_outside.
Qed.

Lemma confined_mkdir d n mode : confined P (mkdir_at d n mode) anything.
Proof.
  apply confined_sys. intros f Hf. split; [|done]. destruct (bool_decide _); [done|]. destruct (removed f d); [done|]. apply frame_new; [apply Hf|by left].
Qed.

Lemma confined_alter i g : i ∉ P -> (forall x, i_node (g x) = i_node x) -> confined P (sys (fun f => (alter g i f, Ok tt))) anything.
Proof. intros Hi Hg. apply confined_sys. intros f Hf. split; [by apply frame_alter|done]. Qed.

Lemma confined_open_or_make k d n mode : inside d -> confined P (open_or_make k d n mode) (fun o => forall c, o = Some c -> c ∉ P).
Proof.
  intros Hd. induction k as [|k IH]; cbn [open_or_make]; [by apply confined_ret|]. eapply confined_bind; [apply confined_attempted; by apply confined_open_dir|].
  intros [c|e] Hc; [apply confined_ret; intros ? [= <-]; by apply Hc|].
  destruct e; try (apply confined_ret; done); try (apply confined_pure; done).
  eapply confined_bind; [apply confined_try; [apply confined_mkdir|intros _; by apply confined_ret]|]. by intros _ _.
Qed.

Lemma confined_provision_walk ps : forall d uid gid mode, (ps = [] -> d ∉ P) -> inside d -> confined P (provision_walk d ps uid gid mode) anything.
Proof.
  induction ps as [|p ps IH]; intros d uid gid mode Hd0 Hd; cbn [provision_walk].
  - apply confined_finally; [|apply confined_count]. eapply confined_bind; [apply confined_alter; [by apply Hd0|done]|]. intros _ _.
    eapply confined_bind; [apply confined_alter; [by apply Hd0|done]|]. intros _ _. by apply confined_ret.
  - eapply confined_bind.
    + apply confined_try; [by apply confined_open_or_make|]. intros e. eapply confined_bind; [apply confined_count|]. intros _ _. by apply confined_pure.
    + intros c Hc. eapply confined_bind; [apply confined_count|]. intros _ _. destruct c as [c|]; [|by apply confined_ret]. apply IH; [intros _|right]; by apply Hc.
Qed.

Lemma confined_provision root host uid gid mode : confined P (_provision_dir_secure root host uid gid mode) anything.
Proof.
  unfold _provision_dir_secure. destruct (relative_to host root) as [ps|]; [|by apply confined_ret]. destruct (bool_decide_reflect (ps = [])) as [|Hps]; [by apply confined_ret|].
  destruct (bool_decide _); [by apply confined_ret|]. cbn [orb]. eapply confined_bind; [apply confined_open_root|]. intros d Hd. by apply confined_provision_walk.
Qed.

Lemma confined_descend_from ps : forall d, inside d -> confined P (descend_from d ps) (fun o => forall c, o = Some c -> inside c).
Proof.
  induction ps as [|p ps IH]; intros d Hd; cbn [descend_from]; [apply confined_ret; by intros ? [= <-]|].
  eapply confined_bind; [apply confined_attempted; by apply confined_open_dir|]. intros r Hr. eapply confined_bind; [apply confined_count|]. intros _ _.
  destruct r as [c|e]; [apply IH; right; by apply Hr|]. destruct (is_oserror e); [by apply confined_ret|by apply confined_pure].
Qed.

Lemma confined_chown_file root host uid gid : confined P (_chown_file_secure root host uid gid) anything.
Proof.
  unfold _chown_file_secure. destruct (relative_to host root) as [ps|]; [|by apply confined_ret]. destruct (last ps) as [leaf|]; [|by apply confined_ret].
  destruct (bool_decide _); [by apply confined_ret|]. eapply confined_bind; [eapply confined_bind; [apply confined_open_root|intros; by apply confined_descend_from]|].
  intros [d|] Hd; [|by apply confined_ret]. apply confined_finally; [|apply confined_count].
  eapply confined_bind; [apply confined_attempted, confined_open_file; by apply Hd|]. intros [i|e] Hi.
  - apply confined_finally; [|apply confined_count]. eapply confined_bind; [by apply (confined_look _ anything)|]. intros [[[regular links] u] g] _.
    destruct regular; [|by apply confined_ret]. destruct (links =? 1); [|by apply confined_ret]. destruct (_ && _); [by apply confined_ret|]. cbn.
    eapply confined_bind; [apply confined_alter; [by apply Hi|done]|]. intros _ _. by apply confined_ret.
  - destruct e; try (apply confined_ret; done); apply confined_pure; done.
Qed.
End confined.

(** ** Descriptors *)

(** [m] takes over [c] open descriptors and leaves [n] of its result; none when it raises. *)
Definition balanced {A} (c : Z) (m : io world A) (n : A -> Z) : Prop :=
  forall w, w_fds (fst (m w)) + c = w_fds w + match snd (m w) with Ok a => n a | Raise _ => 0 end.

Definition none {A} (_ : A) : Z := 0.

Lemma balanced_bind {A B} c (m : io world A) (k : A -> io world B) n n' :
  balanced c m n -> (forall a, balanced (n a) (k a) n') -> balanced c (x ← m; k x) n'.
Proof.
  intros Hm Hk w. specialize (Hm w). cbv [mbind io_bind]. destruct (m w) as [w1 [a|e]]; cbn in *; [|done]. specialize (Hk a w1). lia.
Qed.

Lemma balanced_ret {A} (a : A) (n : A -> Z) : balanced (n a) (mret a) n.
Proof. done. Qed.

Lemma balanced_pure {A} (r : res A) : balanced 0 (pure r) none.
Proof. intros w. cbn. by destruct r. Qed.

Lemma balanced_sys {A} (call : fs -> fs * res A) : balanced 0 (sys call) none.
Proof. intros w. unfold sys. destruct (call _) as [f' [a|e]]; cbn; unfold none; lia. Qed.

Lemma balanced_opened m : balanced 0 m none -> balanced 0 (opened m) (fun _ => 1).
Proof. intros Hm w. specialize (Hm w). unfold opened. cbv [mbind io_bind]. destruct (m w) as [w1 [a|e]]; cbn in *; unfold none in *; lia. Qed.

Lemma balanced_close fd : balanced 1 (close fd) none.
Proof. intros w. cbn. unfold none. lia. Qed.

Lemma balanced_attempted {A} (m : io world A) n : balanced 0 m n -> balanced 0 (attempted m) (fun r => match r with Ok a => n a | Raise _ => 0 end).
Proof. intros Hm w. specialize (Hm w). unfold attempted. by destruct (m w). Qed.

Lemma balanced_finally {A} c (m : io world A) fin :
  balanced 0 m none -> balanced c fin none -> balanced c (finally m fin) none.
Proof.
  intros Hm Hf w. specialize (Hm w). unfold finally. destruct (m w) as [w1 r]. specialize (Hf w1). destruct (fin w1) as [w2 [?|?]]; cbn in *; destruct r; unfold none in *; lia.
Qed.

Lemma balanced_try {A} (m : io world A) p h n : balanced 0 m n -> (forall e, balanced 0 (h e) n) -> balanced 0 (try_io m p h) n.
Proof.
  intros Hm Hh w. specialize (Hm w). unfold try_io. destruct (m w) as [w1 [a|e]]; cbn in *; [done|]. destruct (p e); [|done]. specialize (Hh e w1). lia.
Qed.

(** More descriptors than a computation knows of are left alone. *)
Lemma balanced_frame {A} c (m : io world A) n : (forall w, exists a, snd (m w) = Ok a) -> balanced 0 m n -> balanced c m (fun a => n a + c).
Proof. intros Ht Hm w. specialize (Hm w). destruct (Ht w) as [a Ha]. rewrite Ha in *. lia. Qed.

Lemma balanced_for {A} (g : A -> io world unit) l : (forall x, balanced 0 (g x) none) -> balanced 0 (for_io g l) none.
Proof. intros H. induction l as [|x l IH]; cbn [for_io]; [apply (balanced_ret tt none)|]. eapply balanced_bind; [apply H|]. intros ?; exact IH. Qed.

Definition held (o : option positive) : Z := match o with Some _ => 1 | None => 0 end.

Lemma balanced_open_or_make k d p mode : balanced 0 (open_or_make k d p mode) held.
Proof.
  induction k as [|k IH]; cbn [open_or_make]; [apply (balanced_ret None held)|]. eapply balanced_bind; [apply balanced_attempted, balanced_opened, balanced_sys|].
  intros [c|e]; [apply (balanced_ret (Some c) held)|]. cbn beta iota. destruct e; try apply (balanced_ret None held); try (intros w; cbn; lia).
  eapply (balanced_bind 0 _ _ none); [apply balanced_try; [apply balanced_sys|intros ?; apply (balanced_ret tt none)]|]. intros ?; exact IH.
Qed.

Lemma balanced_provision_walk ps : forall d uid gid mode, balanced 1 (provision_walk d ps uid gid mode) none.
Proof.
  induction ps as [|p ps IH]; intros d uid gid mode; cbn [provision_walk].
  - apply balanced_finally; [|apply balanced_close]. eapply balanced_bind; [apply balanced_sys|]. intros ?. eapply balanced_bind; [apply balanced_sys|]. intros ?.
    apply (balanced_ret true none).
  - apply (balanced_bind 1 _ _ (fun o => held o + 1)).
    + intros w. pose proof (balanced_open_or_make 2 d p mode w) as H. unfold on_error, try_io.
      destruct (open_or_make 2 d p mode w) as [w1 [c|e]]; cbv [mbind io_bind close count_fd pure]; cbn [fst snd w_fds] in *; lia.
    + intros c. apply (balanced_bind (held c + 1) _ _ (fun _ => held c)); [intros w; cbn; lia|]. intros ?. destruct c as [c|]; [apply IH|apply (balanced_ret false none)].
Qed.

Lemma balanced_provision root host uid gid mode : balanced 0 (_provision_dir_secure root host uid gid mode) none.
Proof.
  unfold _provision_dir_secure. destruct (relative_to host root) as [ps|]; [|apply (balanced_ret false none)]. destruct (_ || _); [apply (balanced_ret false none)|].
  eapply balanced_bind; [apply balanced_opened, balanced_sys|]. intros d. apply balanced_provision_walk.
Qed.

Lemma balanced_descend ps : forall d, balanced 1 (descend_from d ps) held.
Proof.
  induction ps as [|p ps IH]; intros d; cbn [descend_from]; [apply (balanced_ret (Some d) held)|].
  apply (balanced_bind 1 _ _ (fun r => match r with Ok _ => 1 | Raise _ => 0 end + 1)).
  - apply balanced_frame; [intros w; unfold attempted; destruct (open_dir d p w); by eexists|]. apply balanced_attempted, balanced_opened, balanced_sys.
  - intros r. apply (balanced_bind _ _ _ (fun _ => match r with Ok _ => 1 | Raise _ => 0 end)); [intros w; cbn; destruct r; lia|]. intros ?.
    destruct r as [c|e]; [apply IH|]. destruct (is_oserror e); [apply (balanced_ret None held)|intros w; cbn; lia].
Qed.

Lemma balanced_chown_file root host uid gid : balanced 0 (_chown_file_secure root host uid gid) none.
Proof.
  pose proof (balanced_ret false none) as Hno. unfold _chown_file_secure. destruct (relative_to host root) as [ps|]; [|done]. destruct (last ps) as [leaf|]; [|done].
  destruct (bool_decide _); [done|]. apply (balanced_bind 0 _ _ held); [eapply balanced_bind; [apply balanced_opened, balanced_sys|intros; apply balanced_descend]|].
  intros [d|]; [|done]. apply balanced_finally; [|apply balanced_close]. eapply balanced_bind; [apply balanced_attempted, balanced_opened, balanced_sys|]. intros [i|e].
  - apply balanced_finally; [|apply balanced_close]. eapply balanced_bind; [apply balanced_sys|]. intros [[[regular links] u] g]. destruct regular; [|done].
    destruct (links =? 1); [|done]. destruct (_ && _); [apply (balanced_ret true none)|]. cbn. eapply balanced_bind; [apply balanced_sys|]. intros ?. apply (balanced_ret true none).
  - destruct e; try done; apply balanced_pure.
Qed.

Section promises.
Variable resolves_below : fs -> pypath -> bool.
Variable uid : Z.
Variable gid : Z.

Lemma confined_volume P root state required spec : confined P (setup_volume resolves_below uid gid root state required spec) anything.
Proof.
  unfold setup_volume. eapply confined_bind; [by apply (confined_pure _ _ anything)|]. intros s _. eapply confined_bind; [by apply (confined_pure _ _ anything)|]. intros x _.
  destruct (String.eqb _ _); [by apply confined_ret|]. destruct (bool_decide _); [by apply confined_ret|]. eapply confined_bind; [by apply (confined_look _ _ anything)|].
  intros [] _; [|by apply confined_ret]. eapply confined_bind; [apply confined_provision|]. intros _ _. by apply confined_ret.
Qed.

Lemma confined_required P root state entry : confined P (own_required_file uid gid root state entry) anything.
Proof.
  unfold own_required_file. eapply confined_bind; [by apply (confined_pure _ _ anything)|]. intros x _. destruct (String.eqb _ _); [by apply confined_ret|].
  eapply confined_bind; [apply confined_chown_file|]. intros _ _. by apply confined_ret.
Qed.

(** The steps of provisioning that work below the root, as [provision] runs them for
    each kind of workload. *)
Definition setup_tree (vm : bool) (config : table) : io world unit :=
  if vm then setup_vm_volume_directories resolves_below uid gid config
  else _ ← setup_volume_directories resolves_below uid gid config; setup_required_file_ownership uid gid config.

Lemma confined_setup_tree P vm config : confined P (setup_tree vm config) anything.
Proof.
  assert (Hp : forall {A} (r : res A), confined P (pure r) anything) by (intros; by apply confined_pure). unfold setup_tree. destruct vm.
  - unfold setup_vm_volume_directories. do 2 (eapply confined_bind; [apply Hp|intros ? _]). apply confined_for. intros. apply confined_volume.
  - eapply confined_bind.
    + unfold setup_volume_directories. eapply confined_bind; [apply Hp|intros [[? ?] ?] _]. apply confined_for. intros. apply confined_volume.
    + intros _ _. unfold setup_required_file_ownership. do 2 (eapply confined_bind; [apply Hp|intros ? _]). apply confined_for. intros. apply confined_required.
Qed.

(** However provisioning ends and whatever the workload does, every descriptor that was
    opened is closed. *)
Lemma descriptors_are_closed vm config w : w_fds (fst (setup_tree vm config w)) = w_fds w.
Proof.
  assert (Hp : forall {A} (r : res A), balanced 0 (pure r) none) by (intros; apply balanced_pure). pose proof (balanced_ret tt none) as Hr.
  assert (Hv : forall root state required spec, balanced 0 (setup_volume resolves_below uid gid root state required spec) none).
  { intros. unfold setup_volume. do 2 (eapply balanced_bind; [apply Hp|intros ?]). destruct (String.eqb _ _); [done|]. destruct (bool_decide _); [done|].
    eapply balanced_bind; [apply balanced_sys|]. intros []; [|done]. eapply balanced_bind; [apply balanced_provision|]. intros ?; exact Hr. }
  assert (H : balanced 0 (setup_tree vm config) none).
  { unfold setup_tree. destruct vm.
    - unfold setup_vm_volume_directories. do 2 (eapply balanced_bind; [apply Hp|intros ?]). apply balanced_for. intros. apply Hv.
    - eapply balanced_bind; [unfold setup_volume_directories; eapply balanced_bind; [apply Hp|intros [[? ?] ?]]; apply balanced_for; intros; apply Hv|]. intros ?.
      unfold setup_required_file_ownership. do 2 (eapply balanced_bind; [apply Hp|intros ?]). apply balanced_for. intros. unfold own_required_file.
      eapply balanced_bind; [apply Hp|intros ?]. destruct (String.eqb _ _); [done|]. eapply balanced_bind; [apply balanced_chown_file|]. intros ?; exact Hr. }
  specialize (H w). destruct (snd (setup_tree vm config w)); unfold none in H; lia.
Qed.

(** C15.  Provisioning of volumes and required files ([setup_volume_directories] and
    [setup_required_file_ownership] of a container, [setup_vm_volume_directories] of a VM)
    hands the workload nothing of the host.  Take any set of inodes, the workload's root
    among them, that the workload does not own and may not link, each named only in
    directories of the set other than the root, from which the workload may not unlink it.
    Whatever the configuration says, and whatever the workload does to the tree between any
    two system calls, these inodes keep their owner, group and mode, however the steps end.
    (The steps that go by path do not have this property: [pki_chown_follows_links].) *)
Theorem provisioning_is_confined P vm config w :
  protected P (w_fs w) -> same_attrs P (w_fs w) (w_fs (fst (setup_tree vm config w))).
Proof. intros HP. apply frame_attrs. by apply (confined_setup_tree P vm config). Qed.

(** ** What is provisioned *)

Definition dir_ino (f : fs) (i : positive) : bool := match f !! i with Some x => is_dir x | None => false end.

(** The components of a path that are there are directories. *)
Fixpoint way (f : fs) (d : positive) (ps : list string) : bool :=
  match ps with
  | [] => true
  | p :: ps => match child f d p with Some c => dir_ino f c && way f c ps | None => true end
  end.

Fixpoint dir_at (f : fs) (d : positive) (ps : list string) : option positive :=
  match ps with [] => Some d | p :: ps => c ← child f d p; dir_at f c ps end.

(** The directory at a path is the workload's. *)
Definition provisioned (f : fs) (ps : list string) : Prop :=
  exists i, dir_at f anchor ps = Some i /\ dir_ino f i = true /\ attrs f i = Some (uid, gid, 493).

(** Names are kept, new ones are those of new directories, and who loses an inode loses
    it to the workload. *)
Record extends (f f' : fs) : Prop := {
  ext_child : forall d n i, child f d n = Some i -> child f' d n = Some i;
  ext_dir : forall i, dir_ino f i = true -> dir_ino f' i = true;
  ext_new : forall d n i, child f' d n = Some i -> child f d n = Some i \/ (i ∉ dom f /\ dir_ino f' i = true);
  ext_dom : dom f ⊆ dom f';
  ext_attrs : forall i, i ∈ dom f -> attrs f' i = attrs f i \/ attrs f' i = Some (uid, gid, 493) }.

#[local] Instance extends_preorder : PreOrder extends.
Proof.
  split.
  - intros f. split; auto.
  - intros f g h [C1 D1 N1 M1 A1] [C2 D2 N2 M2 A2]. split; [auto|auto| |set_solver|].
    + intros d n i Hi. destruct (N2 d n i Hi) as [H|[H Hd]]; [|right; set_solver]. destruct (N1 d n i H) as [?|[? ?]]; [by left|right; auto].
    + intros i Hi. destruct (A2 i (M1 i Hi)) as [->|]; [|by right]. by apply A1.
Qed.

Lemma way_new f f' : extends f f' -> forall ps d, d ∉ dom f -> way f' d ps = true.
Proof.
  intros He. induction ps as [|p ps IH]; intros d Hd; [done|]. cbn [way]. destruct (child f' d p) as [c|] eqn:Ec; [|done].
  destruct (ext_new _ _ He d p c Ec) as [H|[H Hc]]; [|by rewrite Hc, IH]. unfold child in H. apply not_elem_of_dom in Hd. by rewrite Hd in H.
Qed.

Lemma way_extends f f' : extends f f' -> forall ps d, way f d ps = true -> way f' d ps = true.
Proof.
  intros He. induction ps as [|p ps IH]; intros d Hw; [done|]. cbn [way] in *. destruct (child f' d p) as [c|] eqn:Ec; [|done].
  destruct (ext_new _ _ He d p c Ec) as [H|[H Hc]].
  - rewrite H in Hw. apply andb_prop in Hw as [Hd Hw]. by rewrite (ext_dir _ _ He c Hd), IH.
  - rewrite Hc. by eapply way_new.
Qed.

Lemma dir_at_extends f f' : extends f f' -> forall ps d i, dir_at f d ps = Some i -> dir_at f' d ps = Some i.
Proof.
  intros He. induction ps as [|p ps IH]; intros d i H; [done|]. cbn [dir_at] in *. apply bind_Some in H as (c & Hc & H). apply (ext_child _ _ He) in Hc. rewrite Hc. cbn. by apply IH.
Qed.

Lemma dir_ino_dom f i : dir_ino f i = true -> i ∈ dom f.
Proof. unfold dir_ino. intros H. apply elem_of_dom. by destruct (f !! i). Qed.

Lemma provisioned_extends f f' ps : extends f f' -> provisioned f ps -> provisioned f' ps.
Proof.
  intros He (i & Hi & Hd & Ha). exists i. split_and!; [by eapply dir_at_extends|by eapply ext_dir|]. destruct (ext_attrs _ _ He i (dir_ino_dom _ _ Hd)) as [->|]; done.
Qed.

Lemma child_dir f d n i : child f d n = Some i -> dir_ino f d = true.
Proof. unfold child, dir_ino. by destruct (f !! d) as [[[] ? ? ?]|]. Qed.

(** ** Names keep an inode alive *)

Lemma nlink_nonneg l i : 0 <= foldr (fun (p : positive * inode) acc => match i_node (snd p) with Dir es => Z.of_nat (size (filter (fun e => snd e = i) es)) + acc | _ => acc end) 0 l.
Proof. induction l as [|[k x] l IH]; cbn [foldr snd]; [done|]. destruct (i_node x); lia. Qed.

Lemma named_alive f d n i : child f d n = Some i -> removed f i = false.
Proof.
  unfold child, removed. destruct (f !! d) as [[[es| | |] u g m]|] eqn:E; try done. intros He. apply andb_false_iff. right. apply Z.eqb_neq. unfold nlink.
  apply elem_of_map_to_list in E. induction (map_to_list f) as [|[k x] l IH]; [by apply elem_of_nil in E|]. cbn [foldr snd].
  pose proof (nlink_nonneg l i) as Hl. apply elem_of_cons in E as [[= <- <-]|E].
  - cbn [i_node]. assert (H : 0 < Z.of_nat (size (filter (fun e : string * positive => snd e = i) es))); [|lia].
    assert (Hne : filter (fun e : string * positive => snd e = i) es <> ∅).
    { intros H. assert (H' : filter (fun e : string * positive => snd e = i) es !! n = Some i) by (by apply map_lookup_filter_Some). by rewrite H, lookup_empty in H'. }
    apply map_size_non_empty_iff in Hne. lia.
  - specialize (IH E). destruct (i_node x); lia.
Qed.

(** ** While the workload is quiet *)

Lemma sys_quiet {A} (call : fs -> fs * res A) f k : sys call (mkW f [] k) = (mkW (fst (call f)) [] k, snd (call f)).
Proof. unfold sys. cbn. by destruct (call f). Qed.

Lemma child_new f d n x d' n' :
  dir_ino f d = true -> i_node x = Dir ∅ -> child (new_at d n x f) d' n' = if decide (d' = d /\ n' = n) then Some (fresh (dom f)) else child f d' n'.
Proof.
  intros Hd Hx. assert (Hne : fresh (dom f) <> d). { intros <-. by apply (is_fresh (dom f)), dir_ino_dom. }
  unfold new_at, add_entry. rewrite child_in_dir. unfold dir_ino in Hd. rewrite lookup_insert_ne by done. case_decide as H1; [subst d'|].
  - unfold child. destruct (f !! d) as [[[es| | |] ? ? ?]|]; try done. destruct (decide (n' = n)) as [->|Hn]; [rewrite lookup_insert_eq, decide_True by done; done|].
    rewrite lookup_insert_ne by done. rewrite decide_False; [done|]. by intros [_ ?].
  - rewrite (decide_False (P := d' = d /\ _)) by (by intros [? _]). unfold child. destruct (decide (fresh (dom f) = d')) as [<-|Hf]; [|by rewrite lookup_insert_ne].
    rewrite lookup_insert_eq. destruct x as [? ? ? ?]. cbn in Hx. subst. rewrite lookup_empty. pose proof (is_fresh (dom f)) as H. apply not_elem_of_dom in H. by rewrite H.
Qed.

Lemma lookup_new f d n x i : i ∈ dom f -> dir_ino (new_at d n x f) i = dir_ino f i /\ attrs (new_at d n x f) i = attrs f i.
Proof.
  intros Hi. assert (Hne : fresh (dom f) <> i) by (intros <-; by apply (is_fresh (dom f))). unfold new_at, add_entry, dir_ino, attrs.
  destruct (decide (d = i)) as [->|Hd]; [rewrite lookup_alter_eq, lookup_insert_ne by done; by destruct (f !! i) as [[[] ? ? ?]|]|].
  rewrite lookup_alter_ne, lookup_insert_ne by done. done.
Qed.

Lemma new_is_dir f d n x : d ∈ dom f -> i_node x = Dir ∅ -> dir_ino (new_at d n x f) (fresh (dom f)) = true.
Proof.
  intros Hd Hx. assert (Hne : d <> fresh (dom f)) by (intros ->; by apply (is_fresh (dom f))). unfold new_at, add_entry, dir_ino.
  rewrite lookup_alter_ne, lookup_insert_eq by done. unfold is_dir. by rewrite Hx.
Qed.

Lemma new_extends f d n x : dir_ino f d = true -> i_node x = Dir ∅ -> child f d n = None -> extends f (new_at d n x f).
Proof.
  intros Hd Hx Hn. pose proof (child_new f d n x) as Hc. split.
  - intros d' n' i H. rewrite Hc by done. rewrite decide_False; [done|]. intros [-> ->]. congruence.
  - intros i Hi. destruct (lookup_new f d n x i) as [-> _]; [by apply dir_ino_dom|done].
  - intros d' n' i. rewrite Hc by done. case_decide; [|by left]. intros [= <-]. right. split; [apply is_fresh|]. apply new_is_dir; [by apply dir_ino_dom|done].
  - unfold new_at, add_entry. rewrite dom_alter_L, dom_insert_L. set_solver.
  - intros i Hi. left. by destruct (lookup_new f d n x i Hi).
Qed.

Lemma open_dir_there f k d p c : child f d p = Some c -> dir_ino f c = true -> open_dir d p (mkW f [] k) = (mkW f [] (k + 1), Ok c).
Proof.
  intros Hc Hd. unfold open_dir, opened. cbv [mbind io_bind]. rewrite sys_quiet. cbn [fst snd]. rewrite Hc. unfold dir_ino in Hd. destruct (f !! c) as [x|]; [|done]. by rewrite Hd.
Qed.

Lemma open_dir_absent f k d p : child f d p = None -> open_dir d p (mkW f [] k) = (mkW f [] k, Raise FileNotFoundError).
Proof. intros Hc. unfold open_dir, opened. cbv [mbind io_bind]. rewrite sys_quiet. cbn [fst snd]. by rewrite Hc. Qed.

Lemma component_quiet f k d p mode :
  dir_ino f d = true -> removed f d = false -> way f d [p] = true ->
  exists f' c, open_or_make 2 d p mode (mkW f [] k) = (mkW f' [] (k + 1), Ok (Some c)) /\ extends f f' /\ child f' d p = Some c /\ dir_ino f' c = true.
Proof.
  intros Hd Hr Hw. cbn [way] in Hw. cbn [open_or_make]. cbv [mbind io_bind attempted]. destruct (child f d p) as [c|] eqn:Ec.
  - apply andb_prop in Hw as [Hc _]. rewrite (open_dir_there f k d p c) by done. exists f, c. done.
  - rewrite open_dir_absent by done. set (x := mkInode (Dir ∅) 0 0 (Z.land mode (Z.lnot umask))). set (f' := new_at d p x f).
    assert (Hm : mkdir_at d p mode (mkW f [] k) = (mkW f' [] k, Ok tt)) by (unfold mkdir_at; rewrite sys_quiet, Ec, Hr; done).
    assert (Hc : child f' d p = Some (fresh (dom f))) by (unfold f'; by rewrite child_new, decide_True).
    assert (Hn : dir_ino f' (fresh (dom f)) = true) by (apply new_is_dir; [by apply dir_ino_dom|done]).
    unfold try_io. rewrite Hm. cbv beta iota. rewrite (open_dir_there f' k d p _ Hc Hn). exists f', (fresh (dom f)). split_and!; [done|by apply new_extends|done|done].
Qed.

Lemma alter_extends f i g : dir_ino f i = true -> (forall x, i_node (g x) = i_node x) -> (forall x, f !! i = Some x -> (i_uid (g x), i_gid (g x), i_mode (g x)) = (uid, gid, 493)) -> extends f (alter g i f).
Proof.
  intros Hi Hg Ha. assert (Hc : forall d n, child (alter g i f) d n = child f d n).
  { intros d n. unfold child. destruct (decide (i = d)) as [->|Hne]; [|by rewrite lookup_alter_ne by done]. rewrite lookup_alter_eq. destruct (f !! d) as [x|]; [|done]. cbn.
    specialize (Hg x). by destruct x, (g _) as [n' ???]; cbn in *; subst n'. }
  split; [by intros ? ? ?; rewrite Hc| |intros ? ? ?; rewrite Hc; by left|by rewrite dom_alter_L|].
  - intros j. unfold dir_ino, is_dir. destruct (decide (i = j)) as [->|Hne]; [rewrite lookup_alter_eq|by rewrite lookup_alter_ne by done]. destruct (f !! j); cbn; [|done]. by rewrite Hg.
  - intros j Hj. unfold attrs. destruct (decide (i = j)) as [->|Hne]; [|left; by rewrite lookup_alter_ne by done]. right. rewrite lookup_alter_eq. apply elem_of_dom in Hj as [x Hx].
    rewrite Hx. cbn. f_equal. by apply Ha.
Qed.

Definition hand_over (x : inode) : inode := mkInode (i_node x) uid gid 493.

Lemma hand_over_quiet f k d : provision_walk d [] uid gid 493 (mkW f [] k) = (mkW (alter hand_over d f) [] (k - 1), Ok true).
Proof.
  cbn [provision_walk]. unfold finally, fchown, fchmod. cbv [mbind io_bind]. rewrite !sys_quiet. cbn [fst snd]. unfold close, count_fd. cbn.
  do 2 f_equal. apply map_eq. intros j. destruct (decide (d = j)) as [->|Hne]; [rewrite !lookup_alter_eq; by destruct (f !! j)|by rewrite !lookup_alter_ne].
Qed.

Lemma walk_quiet ps : forall f k d, dir_ino f d = true -> removed f d = false -> way f d ps = true ->
  exists f' i, provision_walk d ps uid gid 493 (mkW f [] k) = (mkW f' [] (k - 1), Ok true) /\ extends f f' /\
    dir_at f' d ps = Some i /\ dir_ino f' i = true /\ attrs f' i = Some (uid, gid, 493).
Proof.
  induction ps as [|p ps IH]; intros f k d Hd Hr Hw.
  - rewrite hand_over_quiet. exists (alter hand_over d f), d. assert (He : extends f (alter hand_over d f)) by (by apply alter_extends).
    split_and!; [done|done|done|by eapply ext_dir|]. unfold attrs. rewrite lookup_alter_eq. unfold dir_ino in Hd. by destruct (f !! d).
  - destruct (component_quiet f k d p 493 Hd Hr) as (f1 & c & E1 & He1 & Hc1 & Hd1).
    { cbn [way] in *. destruct (child f d p); [|done]. by apply andb_prop in Hw as [-> _]. }
    assert (Hw1 : way f1 c ps = true).
    { assert (H : way f1 d (p :: ps) = true) by (by eapply way_extends). cbn [way] in H. rewrite Hc1 in H. by apply andb_prop in H as [_ ?]. }
    destruct (IH f1 k c Hd1 (named_alive _ _ _ _ Hc1) Hw1) as (f2 & i & E2 & He2 & Hi & Hdi & Ha). exists f2, i. split_and!; [|by etrans| |done|done].
    + cbn [provision_walk]. unfold on_error, try_io. cbv [mbind io_bind]. rewrite E1. unfold close at 1, count_fd. cbn [w_fs w_moves w_fds]. replace (k + 1 + -1) with k by lia. done.
    + cbn [dir_at]. rewrite (ext_child _ _ He2 _ _ _ Hc1). done.
Qed.

(** The path a volume is provisioned at, below the root. *)
Definition volume_target (root_dir : pypath) (state_dir : string) (required : list string) (spec : tv) : option (list string) :=
  match (s ← text_of spec; expand_volume_path s state_dir) with
  | Raise _ => None
  | Ok x =>
      let host := host_part x in
      if String.eqb host "" || bool_decide (path_str (path_of host) ∈ required) then None
      else match relative_to (path_of host) root_dir with
           | Ok ps => if bool_decide (ps = []) || bool_decide (".." ∈ ps) then None else Some ps
           | Raise _ => None
           end
  end.

Definition readable (state_dir : string) (spec : tv) : bool := is_ok (s ← text_of spec; expand_volume_path s state_dir).

Section quiet.
Context (root_dir : pypath) (state_dir : string) (required : list string).
(** [Path.resolve] on a path of names below the root: where every component that is there
    is a directory, no link is followed and the path stays below the root. *)
Hypothesis below : forall f p ps, relative_to p root_dir = Ok ps -> ".." ∉ ps -> way f anchor ps = true -> resolves_below f p = true.

Let target := volume_target root_dir state_dir required.

Lemma volume_quiet f k spec :
  dir_ino f anchor = true -> readable state_dir spec = true -> (forall ps, target spec = Some ps -> way f anchor ps = true) ->
  exists f', setup_volume resolves_below uid gid root_dir state_dir required spec (mkW f [] k) = (mkW f' [] k, Ok tt) /\ extends f f' /\
    forall ps, target spec = Some ps -> provisioned f' ps.
Proof.
  intros Ha Hr Hw. unfold readable in Hr. unfold target, volume_target in *. unfold setup_volume. destruct (text_of spec) as [s|]; [|done]. cbn [mbind res_bind] in *.
  cbv [mbind io_bind pure]. destruct (expand_volume_path s state_dir) as [x|]; [|done]. destruct (String.eqb (host_part x) ""); [by exists f|]. cbn [orb] in *.
  destruct (bool_decide (_ ∈ required)); [by exists f|]. rewrite sys_quiet. cbn [fst snd]. destruct (resolves_below f (path_of (host_part x))) eqn:Eb.
  - unfold _provision_dir_secure. destruct (relative_to _ root_dir) as [ps|]; [|by exists f]. destruct (bool_decide (ps = []) || bool_decide (".." ∈ ps)); [by exists f|].
    destruct (walk_quiet ps f (k + 1) anchor Ha) as (f' & i & E & He & Hi); [unfold removed; by rewrite bool_decide_eq_true_2|by apply Hw|]. exists f'. split_and!; [|done|].
    + assert (Eo : open_root (mkW f [] k) = (mkW f [] (k + 1), Ok anchor)).
      { unfold open_root, opened. cbv [mbind io_bind]. rewrite sys_quiet. cbn [fst snd]. unfold dir_ino in Ha. destruct (f !! anchor) as [y|]; [|done]. by rewrite Ha. }
      cbv [mbind io_bind]. rewrite Eo, E. by replace (k + 1 - 1) with k by lia.
    + intros ps' [= <-]. by exists i.
  - exists f. split_and!; [done|done|]. destruct (relative_to _ root_dir) as [ps|] eqn:Er; [|done].
    destruct (bool_decide (ps = []) || bool_decide (".." ∈ ps)) eqn:Ed; [done|]. apply orb_false_elim in Ed as [_ Ed%bool_decide_eq_false_1].
    intros ps' [= <-]. rewrite (below f _ ps Er Ed) in Eb by (by apply Hw). done.
Qed.

Lemma volumes_quiet specs : forall f k,
  dir_ino f anchor = true -> (forall spec, spec ∈ specs -> readable state_dir spec = true /\ forall ps, target spec = Some ps -> way f anchor ps = true) ->
  exists f', for_io (setup_volume resolves_below uid gid root_dir state_dir required) specs (mkW f [] k) = (mkW f' [] k, Ok tt) /\ extends f f' /\
    forall spec ps, spec ∈ specs -> target spec = Some ps -> provisioned f' ps.
Proof.
  induction specs as [|spec specs IH]; intros f k Ha Hs; cbn [for_io]; [exists f; split_and!; [done|done|by intros ? ? ?%elem_of_nil]|].
  destruct (volume_quiet f k spec Ha) as (f1 & E1 & He1 & H1); [apply Hs; by left|apply Hs; by left|].
  destruct (IH f1 k) as (f2 & E2 & He2 & H2); [by eapply ext_dir| |].
  { intros x Hx. destruct (Hs x) as [Hr Hw]; [by right|]. split; [done|]. intros ps Hps. eapply way_extends; [done|by apply Hw]. }
  exists f2. split_and!; [cbv [mbind io_bind]; by rewrite E1|by etrans|]. intros x ps [->|Hx]%elem_of_cons Hps; [|by eapply H2].
  eapply provisioned_extends; [done|by apply H1].
Qed.
End quiet.

(** C20.  The volumes of a container workload are provisioned.  When the workload does not
    interfere, the root is a directory, every volume is a string that can be expanded, and
    of the components of a volume's path below the root those that are there are
    directories, [setup_volume_directories] succeeds, and every volume that names a path
    strictly below the root, without "..", and is no required file, is there afterwards
    as a directory of the workload's user and group with mode 0755.  Of Path.resolve it is
    assumed that a path below the root, without ".." and with only directories among the
    components that are there, resolves to a path below the root. *)
Theorem volumes_are_provisioned config w name required specs :
  let root_dir := workload_root_dir name in let state_dir := path_str (workload_state_dir name) in
  w_moves w = [] -> volume_plan config = Ok (name, required, specs) -> dir_ino (w_fs w) anchor = true ->
  (forall f p ps, relative_to p root_dir = Ok ps -> ".." ∉ ps -> way f anchor ps = true -> resolves_below f p = true) ->
  (forall spec, spec ∈ specs -> readable state_dir spec = true /\
     forall ps, volume_target root_dir state_dir required spec = Some ps -> way (w_fs w) anchor ps = true) ->
  exists w', setup_volume_directories resolves_below uid gid config w = (w', Ok tt) /\ w_fds w' = w_fds w /\
    forall spec ps, spec ∈ specs -> volume_target root_dir state_dir required spec = Some ps -> provisioned (w_fs w') ps.
Proof.
  intros root_dir state_dir Hm Hp Ha Hb Hs. destruct w as [f ms k]. cbn in Hm, Ha, Hs |- *. subst ms.
  destruct (volumes_quiet root_dir state_dir required Hb specs f k Ha Hs) as (f' & E & _ & H). exists (mkW f' [] k). split_and!; [|done|done].
  unfold setup_volume_directories. cbv [mbind io_bind pure]. rewrite Hp. exact E.
Qed.
End promises.

(** ** The home, by path *)

Section home.
Context (P : gset positive) (follow : fs -> positive -> string -> option positive).

(** The workload cannot write to its root, where [state] and [data] are directories if
    they are there at all. *)
Definition steady (f : fs) : Prop :=
  protected P f /\ writable f anchor = false /\
  forall sub i, sub = STATE_SUBDIR \/ sub = DATA_SUBDIR -> child f anchor sub = Some i -> dir_ino f i = true.

Definition guarded (w w' : world) : Prop := steady (w_fs w) -> frame P (w_fs w) (w_fs w') /\ steady (w_fs w').

#[local] Instance guarded_preorder : PreOrder guarded.
Proof.
  split; [by intros w Hw|]. intros u v w H1 H2 Hu. destruct (H1 Hu) as [Hf Hv]. destruct (H2 Hv) as [Hf' Hw]. split; [by etrans|done].
Qed.

Lemma frame_writable f f' : protected P f -> frame P f f' -> writable f' anchor = writable f anchor.
Proof. intros HP [Hs _]. by destruct (sig_checks f f' anchor (Hs _ (pr_root _ _ HP))) as (_ & _ & -> & _). Qed.

Lemma in_dir_elsewhere f d g n : writable f d = true -> writable f anchor = false -> child (alter (in_dir g) d f) anchor n = child f anchor n.
Proof. intros Hd Ha. rewrite child_in_dir. rewrite decide_False; [done|]. intros <-. congruence. Qed.

Lemma may_unlink_writable f d i : may_unlink f d i = true -> writable f d = true.
Proof. by intros [? _]%andb_prop. Qed.

Lemma writable_alter f d g e : writable (alter (in_dir g) d f) e = writable f e.
Proof. by destruct (sig_checks f (alter (in_dir g) d f) e (sig_in_dir f d g e)) as (_ & _ & -> & _). Qed.

Lemma new_elsewhere f d n x m : writable f d = true -> writable f anchor = false -> anchor ∈ dom f -> child (new_at d n x f) anchor m = child f anchor m.
Proof.
  intros Hd Ha Hin. assert (Hne : fresh (dom f) <> anchor) by (intros <-; by apply (is_fresh (dom f))). unfold new_at, add_entry. rewrite child_in_dir, decide_False.
  - unfold child. by rewrite lookup_insert_ne.
  - intros <-. congruence.
Qed.

Lemma move_root f m n : protected P f -> writable f anchor = false -> child (workload_move m f) anchor n = child f anchor n.
Proof.
  intros HP Ha. assert (Hin : anchor ∈ dom f) by apply (pr_known _ _ HP), (pr_root _ _ HP).
  assert (Hmk : forall d k x, child (make f d k x) anchor n = child f anchor n).
  { intros d k x. unfold make. destruct (writable f d) eqn:Ed; [|done]. destruct (negb _); [|done]. by apply new_elsewhere. }
  destruct m as [d k|d k|d k|d k to|d k|d k d' k'|i d k|i g m]; cbn [workload_move]; [apply Hmk|apply Hmk|apply Hmk|apply Hmk| | | |].
  - destruct (child f d k) as [i|]; [|done]. destruct (may_unlink f d i) eqn:E; [|done]. destruct (empty_dir f i); [|done]. apply in_dir_elsewhere; [by eapply may_unlink_writable|done].
  - destruct (child f d k) as [i|]; [|done]. destruct (may_unlink f d i) eqn:E; [|done]. destruct (writable f d') eqn:Ed'; [|done]. destruct (match _ with Some _ => _ | None => _ end); [|done].
    unfold add_entry, del_entry. cbn. rewrite in_dir_elsewhere by (by rewrite writable_alter). apply in_dir_elsewhere; [by eapply may_unlink_writable|done].
  - destruct (may_link f i); [|done]. destruct (writable f d) eqn:Ed; [|done]. destruct (negb _); [|done]. by apply in_dir_elsewhere.
  - destruct (f !! i) as [x|] eqn:Ex; [|done]. destruct (_ && _); [|done]. unfold child. destruct (decide (i = anchor)) as [->|Hne]; [rewrite lookup_insert_eq, Ex; by destruct x|by rewrite lookup_insert_ne].
Qed.

Lemma dir_in_dir f d g i : dir_ino (alter (in_dir g) d f) i = dir_ino f i.
Proof.
  unfold dir_ino, is_dir. destruct (decide (d = i)) as [->|Hne]; [|by rewrite lookup_alter_ne]. rewrite lookup_alter_eq. by destruct (f !! i) as [[[] ? ? ?]|].
Qed.

Lemma move_dir f m i : dir_ino f i = true -> dir_ino (workload_move m f) i = true.
Proof.
  intros Hi. assert (Hmk : forall d k x, dir_ino (make f d k x) i = true).
  { intros d k x. unfold make. destruct (_ && _); [|done]. destruct (lookup_new f d k (mkInode x user user 511) i) as [-> _]; [by apply dir_ino_dom|done]. }
  destruct m as [d k|d k|d k|d k to|d k|d k d' k'|j d k|j g m]; cbn [workload_move]; [apply Hmk|apply Hmk|apply Hmk|apply Hmk| | | |].
  - destruct (child f d k); [|done]. destruct (_ && _); [|done]. unfold del_entry. by rewrite dir_in_dir.
  - destruct (child f d k); [|done]. destruct (_ && _); [|done]. unfold add_entry, del_entry. by rewrite !dir_in_dir.
  - destruct (_ && _); [|done]. unfold add_entry. by rewrite dir_in_dir.
  - destruct (f !! j) as [x|] eqn:Ex; [|done]. destruct (_ && _); [|done]. unfold dir_ino, is_dir in *. destruct (decide (j = i)) as [->|Hne]; [rewrite lookup_insert_eq; by rewrite Ex in Hi|by rewrite lookup_insert_ne].
Qed.

Lemma steady_move f m : steady f -> frame P f (workload_move m f) /\ steady (workload_move m f).
Proof.
  intros (HP & Ha & Hs). pose proof (frame_move P f m HP) as Hf. split; [done|]. split_and!; [by eapply frame_protected|by rewrite (frame_writable f)|].
  intros sub i Hsub. rewrite move_root by done. intros Hc. apply move_dir. by eapply Hs.
Qed.

Lemma guarded_sys {A} (call : fs -> fs * res A) : (forall f, steady f -> frame P f (fst (call f)) /\ steady (fst (call f))) -> within guarded (sys call).
Proof.
  intros H w Hw. unfold sys. generalize (default [] (head (w_moves w))) as ms. intros ms.
  assert (Hm : frame P (w_fs w) (foldl (fun f m => workload_move m f) (w_fs w) ms) /\ steady (foldl (fun f m => workload_move m f) (w_fs w) ms)).
  { revert Hw. generalize (w_fs w). induction ms as [|m ms IH]; intros f Hf; [done|]. cbn [foldl]. destruct (steady_move f m Hf) as [H1 H2]. destruct (IH _ H2) as [H3 H4]. split; [by etrans|done]. }
  destruct Hm as [H1 H2]. destruct (H _ H2) as [H3 H4]. destruct (call _) as [f' r]. cbn in *. split; [by etrans|done].
Qed.

Lemma guarded_look {A} (g : fs -> res A) : within guarded (sys (fun f => (f, g f))).
Proof. by apply guarded_sys. Qed.

Lemma within_attempted {A} (m : io world A) : within guarded m -> within guarded (attempted m).
Proof. intros H w. specialize (H w). unfold attempted. by destruct (m w). Qed.

Lemma steady_step f sub i : steady f -> sub = STATE_SUBDIR \/ sub = DATA_SUBDIR -> step_into follow f anchor sub = Some i -> child f anchor sub = Some i /\ i ∉ P.
Proof.
  intros (HP & _ & Hs) Hsub. unfold step_into. destruct (child f anchor sub) as [j|] eqn:Ec; [|done]. cbn. specialize (Hs sub j Hsub Ec). unfold dir_ino in Hs.
  destruct (f !! j) as [[[] ? ? ?]|]; try done. intros [= <-]. split; [done|]. eapply child_outside; [done|by left|done].
Qed.

Lemma guarded_on_path g sub : sub = STATE_SUBDIR \/ sub = DATA_SUBDIR -> (forall x, i_node (g x) = i_node x) -> within guarded (on_path follow g [sub]).
Proof.
  intros Hsub Hg. apply guarded_sys. intros f Hf. cbn [at_path]. destruct (step_into follow f anchor sub) as [i|] eqn:E; [|done]. cbn.
  destruct (steady_step f sub i Hf Hsub E) as [Hc Hi]. pose proof (frame_alter P f i g Hi Hg) as Hfr. split; [done|]. destruct Hf as (HP & Ha & Hs).
  split_and!; [by eapply frame_protected|by rewrite (frame_writable f)|]. intros sub' j Hsub'. assert (Ech : child (alter g i f) anchor sub' = child f anchor sub').
  { unfold child. rewrite lookup_alter_ne; [done|]. intros ->. apply Hi. apply HP. }
  rewrite Ech. intros Hj. specialize (Hs _ _ Hsub' Hj). unfold dir_ino, is_dir in *. destruct (decide (i = j)) as [->|]; [rewrite lookup_alter_eq; destruct (f !! j); cbn; [by rewrite Hg|done]|by rewrite lookup_alter_ne].
Qed.

Lemma guarded_mkdir sub mode : within guarded (os_mkdir follow [sub] mode).
Proof.
  apply guarded_sys. intros f Hf. cbn [removelast at_path last]. destruct (bool_decide_reflect (is_Some (child f anchor sub))) as [|Hno]; [done|].
  destruct (_ && _) eqn:E; [|done]. apply andb_prop in E as [Ed _]. change (dir_ino f anchor = true) in Ed. set (x := mkInode _ _ _ _). cbn [fst]. destruct Hf as (HP & Ha & Hs).
  pose proof (frame_new P f anchor sub x (pr_known _ _ HP) (or_introl eq_refl)) as Hfr. split; [done|]. split_and!; [by eapply frame_protected|by rewrite (frame_writable f)|].
  intros sub' i Hsub' Hc. rewrite (child_new f anchor sub x anchor sub' Ed eq_refl) in Hc. case_decide as Hd.
  - injection Hc as <-. apply new_is_dir; [by apply dir_ino_dom|done].
  - destruct (lookup_new f anchor sub x i) as [-> _]; [apply dir_ino_dom; by eapply Hs|by eapply Hs].
Qed.

Lemma guarded_exist_ok ps e : within guarded (exist_ok follow ps e).
Proof. apply within_bind; [exact _|apply guarded_look|]. intros []; [apply within_ret, _|apply within_pure, _]. Qed.

Lemma guarded_mkdir_path sub mode : within guarded (mkdir_path follow 1 [sub] mode).
Proof.
  assert (Hroot : within guarded (os_mkdir follow [] 511)) by (by apply guarded_sys).
  assert (H0 : within guarded (mkdir_path follow 0 [] 511)).
  { apply within_bind; [exact _|by apply within_attempted|]. intros [|e]; [apply within_ret, _|]. destruct e; first [apply guarded_exist_ok|apply within_pure, _]. }
  apply within_bind; [exact _|apply within_attempted, guarded_mkdir|]. intros [|e]; [apply within_ret, _|]. destruct e; try apply guarded_exist_ok.
  apply within_bind; [exact _|exact H0|intros _]. apply within_try; [exact _|apply guarded_mkdir|apply guarded_exist_ok].
Qed.

(** The workload's home is made and handed over by path, which follows links; since the
    workload cannot write to its root, it cannot put one there, and what is protected
    keeps its owner and mode. *)
Lemma home_is_confined uid gid w : steady (w_fs w) -> same_attrs P (w_fs w) (w_fs (fst (setup_home_directory follow uid gid w))).
Proof.
  assert (H : forall sub, sub = STATE_SUBDIR \/ sub = DATA_SUBDIR -> within guarded (setup_home_subdir follow sub uid gid)).
  { intros sub Hsub. apply within_bind; [exact _|apply guarded_look|intros there]. apply within_bind; [exact _|destruct there; [apply within_ret, _|apply guarded_mkdir_path]|intros _].
    apply within_bind; [exact _|by apply guarded_on_path|intros _]. by apply guarded_on_path. }
  intros Hw. apply frame_attrs. assert (Hh : within guarded (setup_home_directory follow uid gid)).
  { apply within_bind; [exact _|apply H; by left|intros _]. apply H. by right. }
  by apply Hh.
Qed.
End home.
End tree.

(** ** Samples *)

Module Yard.
(** [/] is 1, [/etc] is 2, the root of the workload [site] is 3; the user is 990. *)
Definition user : Z := 990.
Definition dir (es : list (string * positive)) (uid mode : Z) : inode := mkInode (Dir (list_to_map es)) uid uid mode.

Definition tree (state data : list (string * positive)) (more : list (positive * inode)) : fs :=
  list_to_map ([(1%positive, dir [("etc", 2%positive); ("site", 3%positive)] 0 493); (2%positive, dir [] 0 493);
                (3%positive, dir [("state", 4%positive); ("data", 5%positive)] 0 493);
                (4%positive, dir state user 448); (5%positive, dir data user 448)] ++ more).

Definition host : gset positive := {[ 1%positive; 2%positive; 3%positive ]}.

Definition config (volumes required : list string) : table :=
  [("workload", TTab [("name", TStr "site")]); ("container", TTab [("image", TStr "x")]);
   ("storage", TTab [("volumes", TArr (map TStr volumes))]);
   ("setup", TTab [("required_files", TArr (map (fun p => TTab [("path", TStr p)]) required))])].

(** A workload that moves the directory root has just made out of the way and puts a link
    to [/etc] in its place, over and over. *)
Definition hostile : list (list (move)) :=
  repeat [Rename 5 "web" 4 "web"; Symlink 5 "web" "/etc"; Unlink 5 "web"; Symlink 5 "web" "/etc"] 12.

(** A resolver that answers for paths without ".." on which all that is there is a directory. *)
Definition below (f : fs) (p : pypath) : bool :=
  match relative_to p (workload_root_dir "site") with
  | Ok ps => negb (bool_decide (".." ∈ ps)) && way f 3 ps
  | Raise _ => false
  end.

Definition setup (vm : bool) (volumes required : list string) (f : fs) (moves : list (list move)) : world * res unit :=
  setup_tree user [user] 18 3 below user user vm (config volumes required) (mkW f moves 0).

Lemma host_protected : protected user [user] 3 host (tree [] [] []).
Proof. apply protectedb_sound. vm_compute. reflexivity. Qed.

(** The PKI directories are handed over by path, and the state directory they are in is
    the workload's: a link there gives it the directory the link leads to. *)
Lemma pki_chown_follows_links :
  let follow (_ : fs) (_ : positive) (to : string) := if String.eqb to "/etc" then Some 2%positive else None in
  let f := tree [("egress-ca", 6%positive)] [] [(6%positive, mkInode (Link "/etc") user user 511)] in
  protected user [user] 3 host f /\
  let '(w, r) := provision_egress_pki_dirs user [user] 18 3 follow ["egress-ca"] user user (mkW f [] 0) in
  r = Ok tt /\ attrs f 2 = Some (0, 0, 493) /\ attrs (w_fs w) 2 = Some (user, user, 493).
Proof. split; [apply protectedb_sound; vm_compute; reflexivity|]. vm_compute. done. Qed.

(** A FIFO in place of a required file: opening it does not return. *)
Lemma fifo_blocks_provisioning :
  snd (setup false [] ["data/key"] (tree [] [("key", 6%positive)] [(6%positive, mkInode Fifo user user 384)]) []) = Raise TimeoutError.
Proof. vm_compute. reflexivity. Qed.

(** A volume that is the data directory itself: it is made 0755 on every start, after
    the home was made 0700. *)
Lemma data_volume_opens_the_directory :
  let f := tree [] [] [] in
  attrs f 5 = Some (user, user, 448) /\ attrs (w_fs (fst (setup false ["data:/srv"] [] f []))) 5 = Some (user, user, 493).
Proof. split; vm_compute; reflexivity. Qed.

(** A required file whose path is not spelled as [str] of a path spells it is made a directory. *)
Lemma required_file_made_a_directory :
  let made spelled := dir_at (w_fs (fst (setup false [spelled +:+ ":/key"] [spelled] (tree [] [] []) []))) 3 ["data"; "key"] in
  made "data/key" = None /\ made "data/./key" <> None.
Proof. split; vm_compute; done. Qed.
End Yard.

Lemma provisioning_is_confined_witness :
  same_attrs Yard.host (Yard.tree [] [] []) (w_fs (fst (Yard.setup false ["data/web/css:/srv"] ["data/key"] (Yard.tree [] [] []) Yard.hostile))).
Proof.
  apply (provisioning_is_confined Yard.user [Yard.user] 18 3 Yard.below Yard.user Yard.user Yard.host false (Yard.config ["data/web/css:/srv"] ["data/key"]) (mkW (Yard.tree [] [] []) Yard.hostile 0)).
  apply Yard.host_protected.
Defined.

Lemma volumes_are_provisioned_witness :
  exists w', setup_volume_directories Yard.user [Yard.user] 18 3 Yard.below Yard.user Yard.user (Yard.config ["data/web/css:/srv"; "state/db:/db"] []) (mkW (Yard.tree [] [] []) [] 0) = (w', Ok tt) /\
    w_fds w' = 0 /\
    forall spec ps, spec ∈ [TStr "data/web/css:/srv"; TStr "state/db:/db"] ->
      volume_target (workload_root_dir "site") (path_str (workload_state_dir "site")) [] spec = Some ps -> provisioned 3 Yard.user Yard.user (w_fs w') ps.
Proof.
  apply (volumes_are_provisioned Yard.user [Yard.user] 18 3 Yard.below Yard.user Yard.user (Yard.config ["data/web/css:/srv"; "state/db:/db"] []) (mkW (Yard.tree [] [] []) [] 0)
           "site" [] [TStr "data/web/css:/srv"; TStr "state/db:/db"]).
  - reflexivity.
  - vm_compute. reflexivity.
  - vm_compute. reflexivity.
  - intros f p ps Hr Hd Hw. unfold Yard.below. rewrite Hr, bool_decide_eq_false_2 by done. exact Hw.
  - intros spec Hs. apply elem_of_cons in Hs as [->|Hs]; [split; vm_compute; [reflexivity|intros ps [= <-]; reflexivity]|].
    apply elem_of_cons in Hs as [->|Hs]; [split; vm_compute; [reflexivity|intros ps [= <-]; reflexivity]|by apply elem_of_nil in Hs].
Defined.
