(* ===== verification/VmProvision.v ===== *)
(** * Whether a guest was provisioned: [lib/vm_provision.py], the seed of [lib/ensure_vm.py], the watch of [lib/vm_notify.py]

    A guest runs its per-instance steps once for every instance id it is given.  The host
    keeps the id, the fingerprint of the user data the seed was built from, and a record
    of what the guest reported about that id; a recorded failure gives the guest one new
    id.

    The state is the files of the workload's home and of its runtime directory.  The
    record is the JSON value its file holds.  Parameters: the digest, the random part of
    an id, the clock, JSON, [int()] of what is not an integer, what the writes, staging and
    the ISO tool do on a given start, and what ssh prints on a given poll.  Every write of
    a start can fail: [write_text] empties a file before it writes it, so it may leave the
    beginning of the text, while the record is replaced as a whole or not at all. *)
From S2P Require Import Prelude PyStr Toml.
Local Open Scope Z_scope.

Definition PROVISION_DONE : string := "done".
Definition PROVISION_FAILED : string := "failed".
Definition PROVISION_UNVERIFIED : string := "unverified".
Definition MAX_HEAL_ATTEMPTS : Z := 1.

(** ** The record *)

Section records.
Variable int_of_other : tv -> option Z.

(** A record that can be used: an object that names an instance. *)
Definition usable (v : option tv) : option table :=
  match v with Some (TTab t) => if truthy_at t "instance_id" then Some t else None | _ => None end.

Definition is_for (t : table) (id : string) : bool := match assoc "instance_id" t with Some (TStr s) => String.eqb s id | _ => false end.

Definition has_status (t : table) (status : string) : bool := match assoc "status" t with Some (TStr s) => String.eqb s status | _ => false end.

Definition marker_vouches_for (marker : option table) (id : string) : bool :=
  match marker with Some t => negb (String.eqb id "") && is_for t id && has_status t PROVISION_DONE | None => false end.

Definition marker_reports_failure (marker : option table) (id : string) : bool :=
  match marker with Some t => negb (String.eqb id "") && is_for t id && has_status t PROVISION_FAILED | None => false end.

Definition heal_attempts (marker : option table) (id : string) : Z :=
  match marker with
  | Some t =>
      if is_for t id then
        match assoc "heal_attempts" t with
        | None => 0
        | Some (TInt n) => n
        | Some (TBool b) => Z.b2z b
        | Some (TStr s) => default 0 (py_int s)
        | Some v => default 0 (int_of_other v)
        end
      else 0
  | None => 0
  end.

Definition should_heal (marker : option table) (id : string) : bool :=
  marker_reports_failure marker id && (heal_attempts marker id <? MAX_HEAL_ATTEMPTS).

(** What [write_provision_marker] writes. *)
Definition marker_value (id status : string) (attempts : Z) (errors : list string) (now : string) : table :=
  [("instance_id", TStr id); ("status", TStr status); ("heal_attempts", TInt attempts); ("updated", TStr now)]
  ++ match errors with [] => [] | _ => [("errors", TArr (map TStr errors))] end.

Lemma written_is_usable id status n errors now : id <> "" -> usable (Some (TTab (marker_value id status n errors now))) = Some (marker_value id status n errors now).
Proof. by destruct id. Qed.

Lemma written_is_for id status n errors now id' : is_for (marker_value id status n errors now) id' = String.eqb id id'.
Proof. done. Qed.

Lemma written_attempts id status n errors now : heal_attempts (Some (marker_value id status n errors now)) id = n.
Proof. unfold heal_attempts. by rewrite written_is_for, String.eqb_refl. Qed.

Lemma written_fails id status n errors now : marker_reports_failure (Some (marker_value id status n errors now)) id = negb (String.eqb id "") && String.eqb status PROVISION_FAILED.
Proof. unfold marker_reports_failure. rewrite written_is_for, String.eqb_refl, andb_true_r. done. Qed.
End records.

(** ** The host *)

(** A seed image: the instance it names and its user data. *)
Record seed := mkSeed { sd_id : string; sd_text : string }.

Record phost := mkP {
  ph_fp : option string; ph_id : option string; ph_marker : option tv;
  ph_iso : option seed; ph_staged : bool; ph_minted : nat }.

Definition plook {A} (f : phost -> A) : io phost A := fun w => (w, Ok (f w)).
Definition pchange (f : phost -> phost) : io phost unit := fun w => (f w, Ok tt).

(** [write_text]: done, cut after some characters, or refused before the file is emptied. *)
Inductive written := Wrote | Cut (n : nat) | Refused.

Definition write_text_io (r : written) (put : string -> phost -> phost) (text : string) : io phost unit :=
  match r with
  | Wrote => pchange (put text)
  | Cut n => _ ← pchange (put (str_take n text)); pure (Raise OSError)
  | Refused => pure (Raise OSError)
  end.

Definition fails_with (o : option exn) : io phost unit := pure (match o with Some e => Raise e | None => Ok tt end).

(** What happens on one start: the write and the chown of the id file, the replacement of
    the record, an error before or while the seed is staged, whether a tool is installed,
    its status, the image a failed build leaves, the chown and chmod of the image, the write
    and the chown of the fingerprint. *)
Record start_env := mkEnv {
  e_id : written; e_id_chown : option exn; e_marker : option exn;
  e_stage : option exn; e_tool : bool; e_status : Z; e_left : option seed;
  e_iso : option exn; e_fp : written; e_fp_chown : option exn }.

Section provisioning.
Variable name : string.
Variable sha256 : string -> string.
Variable uuid : nat -> string.
Variable now : string.
Variable json_loads : string -> res tv.
Variable int_of_other : tv -> option Z.

Definition heals := should_heal int_of_other.
Definition attempts_of := heal_attempts int_of_other.

Definition new_id (n : nat) : string := name +:+ "-" +:+ uuid n.

Definition read_stripped (o : option string) : string := match o with Some s => strip s | None => "" end.

Definition read_provision_marker : io phost (option table) := plook (fun w => usable (ph_marker w)).

(** Written beside the record and renamed over it; an error leaves the record as it was. *)
Definition write_provision_marker (fault : option exn) (id status : string) (attempts : Z) (errors : list string) : io phost unit :=
  _ ← fails_with fault;
  pchange (fun w => mkP (ph_fp w) (ph_id w) (Some (TTab (marker_value id status attempts errors now))) (ph_iso w) (ph_staged w) (ph_minted w)).

Definition mint : io phost string := fun w =>
  (mkP (ph_fp w) (ph_id w) (ph_marker w) (ph_iso w) (ph_staged w) (S (ph_minted w)), Ok (new_id (ph_minted w))).

(** [_resolve_cloud_init_instance_id]: the id, whether it is new, the attempts to record. *)
Definition _resolve_cloud_init_instance_id (fp_unchanged : bool) (marker : option table) : io phost (string * bool * Z) :=
  existing ← plook (fun w => read_stripped (ph_id w));
  if fp_unchanged && negb (String.eqb existing "") then
    if negb (heals marker existing) then mret (existing, false, 0)
    else id ← mint; mret (id, true, attempts_of marker existing + 1)
  else id ← mint; mret (id, true, 0).

Definition fp_unchanged (text : string) (w : phost) : bool := match ph_fp w with Some s => String.eqb (strip s) (sha256 text) | None => false end.

Definition healing (text : string) (w : phost) : bool :=
  fp_unchanged text w && negb (String.eqb (read_stripped (ph_id w)) "") && heals (usable (ph_marker w)) (read_stripped (ph_id w)).

Definition stage_seed (e : start_env) : io phost unit :=
  _ ← pchange (fun w => mkP (ph_fp w) (ph_id w) (ph_marker w) (ph_iso w) true (ph_minted w));
  fails_with (e_stage e).

Definition make_iso (e : start_env) (id text : string) : io phost unit :=
  if negb (e_tool e) then mret tt
  else if negb (e_status e =? 0) then pchange (fun w => mkP (ph_fp w) (ph_id w) (ph_marker w) (e_left e) (ph_staged w) (ph_minted w))
  else
    _ ← pchange (fun w => mkP (ph_fp w) (ph_id w) (ph_marker w) (Some (mkSeed id text)) (ph_staged w) (ph_minted w));
    _ ← fails_with (e_iso e);
    _ ← write_text_io (e_fp e) (fun t w => mkP (Some t) (ph_id w) (ph_marker w) (ph_iso w) (ph_staged w) (ph_minted w)) (sha256 text);
    _ ← fails_with (e_fp_chown e);
    pchange (fun w => mkP (ph_fp w) (ph_id w) (ph_marker w) (ph_iso w) false (ph_minted w)).

(** [build_cloud_init_iso], from the rendered user data on. *)
Definition build_cloud_init_iso (text : string) (e : start_env) : io phost unit :=
  unchanged ← plook (fp_unchanged text);
  marker ← read_provision_marker;
  heal ← plook (healing text);
  there ← plook (fun w => match ph_iso w with Some _ => true | None => false end);
  if there && unchanged && negb heal then mret tt
  else
    '(id, minted, attempts) ← _resolve_cloud_init_instance_id unchanged marker;
    _ ← (if minted : bool then
           _ ← write_text_io (e_id e) (fun t w => mkP (ph_fp w) (Some t) (ph_marker w) (ph_iso w) (ph_staged w) (ph_minted w)) id;
           _ ← fails_with (e_id_chown e);
           write_provision_marker (e_marker e) id PROVISION_UNVERIFIED attempts []
         else mret tt);
    _ ← stage_seed e;
    make_iso e id text.

(** ** The guest's report *)

(** [_parse_guest_probe]: the outcome, the guest's own id, the errors. *)
Definition _parse_guest_probe (output : string) : res (option (string * option string * list string)) :=
  let '(guest, rest) := match cut LF output with Some p => p | None => (output, "") end in
  let guest_id := if String.eqb (strip guest) "" then None else Some (strip guest) in
  match json_loads rest with
  | Raise _ => Ok None
  | Ok (TTab data) =>
      errors ← match assoc "errors" data with Some v => if truthy v then iter v else Ok [] | None => Ok [] end;
      let status := assoc "status" data in
      let says s := match status with Some (TStr x) => String.eqb x s | _ => false end in
      Ok (if says "error" || negb (bool_decide (errors = [])) then Some (PROVISION_FAILED, guest_id, map py_str errors)
          else if says "done" then Some (PROVISION_DONE, guest_id, [])
          else if says "disabled" then Some (PROVISION_DONE, guest_id, [])
          else None)
  | Ok _ => Ok None
  end.

(** One poll; [None] is ssh that did not run, or a guest that cannot be asked.  [fault] is
    the error of replacing the record. *)
Definition record_guest_provision_result (fault : option exn) (id : string) (poll : option string) : io phost (option string) :=
  match poll with
  | None => mret None
  | Some output =>
      answer ← pure (_parse_guest_probe output);
      match answer with
      | None => mret None
      | Some (status, guest_id, errors) =>
          if match guest_id with Some g => negb (String.eqb g id) | None => false end then mret None
          else
            marker ← read_provision_marker;
            _ ← write_provision_marker fault id status (attempts_of marker id) errors;
            mret (Some status)
      end
  end.

(** The polls until the deadline; an error ends them. *)
Fixpoint watch_polls (fault : option exn) (id : string) (polls : list (option string)) : io phost unit :=
  match polls with
  | [] => mret tt
  | p :: polls =>
      r ← try_io (s ← record_guest_provision_result fault id p; mret (Some s)) (fun _ => true) (fun _ => mret None);
      match r with Some None => watch_polls fault id polls | _ => mret tt end
  end.

Definition watch_provisioning (fault : option exn) (polls : list (option string)) : io phost unit :=
  id ← plook (fun w => read_stripped (ph_id w));
  if String.eqb id "" then mret tt
  else
    marker ← read_provision_marker;
    if marker_vouches_for marker id || marker_reports_failure marker id then mret tt else watch_polls fault id polls.

(** ** The life of a VM *)

(** The setup unit runs, with the user data as rendered; the host is rebooted, which
    empties the runtime directory; the VM is restarted, which leaves setup alone; the VM
    runs and is watched. *)
Inductive event := Setup (text : string) (e : start_env) | HostReboot | Restart | Watch (fault : option exn) (polls : list (option string)).

Definition happen (ev : event) (w : phost) : phost :=
  match ev with
  | Setup text e => fst (build_cloud_init_iso text e w)
  | HostReboot => mkP (ph_fp w) (ph_id w) (ph_marker w) None false (ph_minted w)
  | Restart => w
  | Watch fault polls => fst (watch_provisioning fault polls w)
  end.

Definition life (evs : list event) (w : phost) : phost := foldl (fun w ev => happen ev w) w evs.

(** ** One new instance for one failure *)

Section lives.
Hypothesis sha_plain : forall t, strip (sha256 t) = sha256 t.
Hypothesis id_plain : forall n, strip (new_id n) = new_id n.

Definition current (w : phost) : string := read_stripped (ph_id w).
Definition recorded (w : phost) : option table := usable (ph_marker w).
Definition spent (w : phost) : Z := attempts_of (recorded w) (current w).

Lemma new_id_nonempty n : new_id n <> "".
Proof. unfold new_id. by destruct name. Qed.

(** The watch changes nothing but the record, and not the attempts in it. *)
Definition watched (w w' : phost) : Prop :=
  ph_fp w' = ph_fp w /\ ph_id w' = ph_id w /\ ph_iso w' = ph_iso w /\ ph_minted w' = ph_minted w /\ spent w' = spent w.

#[local] Instance watched_preorder : PreOrder watched.
Proof. split; [done|]. intros a b c (?&?&?&?&?) (?&?&?&?&?). unfold watched. split_and!; by etrans. Qed.

Lemma poll_watched fault id p w : current w = id -> id <> "" -> watched w (fst (record_guest_provision_result fault id p w)).
Proof.
  intros Hc Hid. destruct p as [output|]; [|done]. cbn [record_guest_provision_result]. cbv [mbind io_bind pure]. destruct (_parse_guest_probe output) as [[[[status g] errors]|]|]; [|done|done].
  destruct (match g with Some _ => _ | None => _ end); [done|].
  cbv [read_provision_marker plook write_provision_marker fails_with pure mbind io_bind pchange mret io_ret]. destruct fault; [done|].
  unfold watched. split_and!; [done|done|done|done|]. unfold spent, recorded, current in *. cbn [fst ph_marker ph_id].
  rewrite written_is_usable by done. rewrite Hc. apply written_attempts.
Qed.

Lemma polls_watched fault id polls : id <> "" -> forall w, current w = id -> watched w (fst (watch_polls fault id polls w)).
Proof.
  intros Hid. induction polls as [|p polls IH]; intros w Hc; [done|]. cbn [watch_polls]. cbv [mbind io_bind]. pose proof (poll_watched fault id p w Hc Hid) as Hp. unfold try_io.
  destruct (record_guest_provision_result fault id p w) as [w1 [[s|]|e]]; cbn in *; [done| |done]. etrans; [exact Hp|]. apply IH. destruct Hp as (_ & Hi & _). unfold current in *. by rewrite Hi.
Qed.

Lemma watch_watched fault polls w : watched w (fst (watch_provisioning fault polls w)).
Proof.
  unfold watch_provisioning. cbv [mbind io_bind plook read_provision_marker]. destruct (String.eqb_spec (read_stripped (ph_id w)) "") as [E|E]; [done|]. destruct (_ || _); [done|]. by apply polls_watched.
Qed.

Lemma watched_unchanged text w w' : watched w w' -> fp_unchanged text w' = fp_unchanged text w.
Proof. intros (H & _). unfold fp_unchanged. by rewrite H. Qed.

Lemma watched_current w w' : watched w w' -> current w' = current w.
Proof. intros (_ & H & _). unfold current. by rewrite H. Qed.

(** A report keeps the attempts of its instance, and counts none for another. *)
Lemma poll_counted fault id p w : id <> "" ->
  (forall i, 0 <= attempts_of (recorded w) i) -> forall i, 0 <= attempts_of (recorded (fst (record_guest_provision_result fault id p w))) i.
Proof.
  intros Hid Hw i. destruct p as [output|]; [|done]. cbn [record_guest_provision_result]. cbv [mbind io_bind pure].
  destruct (_parse_guest_probe output) as [[[[status g] errors]|]|]; [|done|done]. destruct (match g with Some _ => _ | None => _ end); [done|].
  cbv [read_provision_marker plook write_provision_marker fails_with pure mbind io_bind pchange mret io_ret]. destruct fault; [done|].
  unfold recorded. cbn [fst ph_marker]. rewrite written_is_usable by done. unfold attempts_of at 1, heal_attempts at 1. rewrite written_is_for.
  destruct (String.eqb id i); [|lia]. apply Hw.
Qed.

Lemma watch_counted fault polls w :
  (forall i, 0 <= attempts_of (recorded w) i) -> forall i, 0 <= attempts_of (recorded (fst (watch_provisioning fault polls w))) i.
Proof.
  intros Hw. unfold watch_provisioning. cbv [mbind io_bind plook read_provision_marker].
  destruct (String.eqb_spec (read_stripped (ph_id w)) "") as [E|E]; [done|]. destruct (_ || _); [done|].
  set (id := read_stripped (ph_id w)) in *. clearbody id. revert w Hw. induction polls as [|p polls IH]; intros w Hw; [done|].
  cbn [watch_polls]. cbv [mbind io_bind]. unfold try_io. pose proof (poll_counted fault id p w E Hw) as Hp.
  destruct (record_guest_provision_result fault id p w) as [w1 [[s|]|e]]; cbn in *; [done|by apply IH|done].
Qed.

(** ** A start *)

Lemma keeps_fp text w w' : fp_unchanged text w = true -> ph_fp w' = ph_fp w \/ ph_fp w' = Some (sha256 text) -> fp_unchanged text w' = true.
Proof. intros H [E|E]; unfold fp_unchanged in *; rewrite E; [done|]. by rewrite sha_plain, String.eqb_refl. Qed.

Lemma healing_same text w : fp_unchanged text w = true -> current w <> "" -> healing text w = heals (recorded w) (current w).
Proof. intros Hfp Hc. unfold healing. rewrite Hfp. unfold current in Hc. apply String.eqb_neq in Hc. by rewrite Hc. Qed.

(** A start that wrote the id and the record, and did not cut the fingerprint. *)
Definition untorn (e : start_env) : bool :=
  match e_id e, e_id_chown e, e_marker e, e_fp e with
  | Wrote, None, None, (Wrote | Refused) => true
  | _, _, _, _ => false
  end.

(** A start on which everything works. *)
Definition works (e : start_env) : bool :=
  match e_id e, e_id_chown e, e_marker e, e_stage e, e_iso e, e_fp e, e_fp_chown e with
  | Wrote, None, None, None, None, Wrote, None => e_tool e && (e_status e =? 0)
  | _, _, _, _, _, _, _ => false
  end.

(** The ways a start can go: once it stages, and before. *)
Ltac each_build e tac :=
  destruct (e_stage e); [tac|destruct (e_tool e);
    [destruct (e_status e =? 0); [destruct (e_iso e); [tac|destruct (e_fp e); [destruct (e_fp_chown e); tac|tac|tac]]|tac]|tac]].
Ltac each_start e tac :=
  destruct (e_id e); [destruct (e_id_chown e); [tac|destruct (e_marker e); [tac|each_build e tac]]|tac|tac].
Ltac open_start :=
  cbv [_resolve_cloud_init_instance_id plook mint mret io_ret pchange write_provision_marker write_text_io fails_with stage_seed make_iso
       pure mbind io_bind].

(** The same user data and no heal: the id and the record are kept, and so is the
    fingerprint unless its write is cut. *)
Lemma setup_kept text e w :
  fp_unchanged text w = true -> current w <> "" -> heals (recorded w) (current w) = false ->
  let w' := happen (Setup text e) w in
  ph_id w' = ph_id w /\ ph_marker w' = ph_marker w /\ ph_minted w' = ph_minted w /\
  (ph_fp w' = ph_fp w \/ ph_fp w' = Some (sha256 text) \/ exists n, e_fp e = Cut n).
Proof.
  intros Hfp Hc Eh w'. subst w'. cbn [happen]. pose proof (healing_same text w Hfp Hc) as Hh.
  unfold current in Hc. apply String.eqb_neq in Hc. rewrite Eh in Hh.
  cbv [build_cloud_init_iso read_provision_marker plook mbind io_bind]. rewrite Hfp, Hh. unfold current, recorded in *. cbn [negb].
  rewrite !andb_true_r. destruct (match ph_iso w with Some _ => true | None => false end); [by split_and!; [..|left]|].
  open_start. rewrite Hc. cbn [negb andb]. rewrite Eh. cbn [negb]. cbv beta iota.
  each_build e ltac:(by split_and!; eauto).
Qed.

(** A heal: a new id is minted; if the start is not torn it is recorded with one attempt
    more, and the fingerprint stays that of the user data. *)
Lemma setup_heals text e w :
  fp_unchanged text w = true -> current w <> "" -> heals (recorded w) (current w) = true ->
  let w' := happen (Setup text e) w in
  let made := Some (TTab (marker_value (new_id (ph_minted w)) PROVISION_UNVERIFIED (spent w + 1) [] now)) in
  ph_minted w' = S (ph_minted w) /\ (ph_marker w' = ph_marker w \/ ph_marker w' = made) /\
  (untorn e = true -> fp_unchanged text w' = true /\ ph_id w' = Some (new_id (ph_minted w)) /\ ph_marker w' = made) /\
  (works e = true -> ph_iso w' = Some (mkSeed (new_id (ph_minted w)) text) /\ ph_staged w' = false).
Proof.
  intros Hfp Hc Eh w' made. subst w' made. cbn [happen]. pose proof (healing_same text w Hfp Hc) as Hh.
  unfold current in Hc. apply String.eqb_neq in Hc. rewrite Eh in Hh.
  cbv [build_cloud_init_iso read_provision_marker plook mbind io_bind]. rewrite Hfp, Hh. unfold spent, current, recorded in *. cbn [negb].
  rewrite andb_false_r. open_start. rewrite Hc. cbn [negb andb]. rewrite Eh. cbn [negb]. cbv beta iota. unfold untorn, works.
  each_start e ltac:(split_and!; [done|by eauto
    |first [done|intros _; split_and!; [eapply keeps_fp; [exact Hfp|by eauto]|done|done]]|first [done|by intros _|by intros; exfalso; repeat case_match]]).
Qed.

(** No user data recorded, or other, or no id: one new id at most, and with all that a
    start writes when it works. *)
Lemma setup_anew text e w :
  fp_unchanged text w && negb (String.eqb (current w) "") = false ->
  let w' := happen (Setup text e) w in
  let made := Some (TTab (marker_value (new_id (ph_minted w)) PROVISION_UNVERIFIED 0 [] now)) in
  w' = w \/
  (ph_minted w' = S (ph_minted w) /\ (ph_marker w' = ph_marker w \/ ph_marker w' = made) /\
   (works e = true -> fp_unchanged text w' = true /\ ph_id w' = Some (new_id (ph_minted w)) /\ ph_marker w' = made)).
Proof.
  intros Ha w' made. subst w' made. cbn [happen]. unfold current in Ha.
  cbv [build_cloud_init_iso read_provision_marker plook mbind io_bind]. unfold healing. rewrite Ha. cbn [andb negb]. rewrite andb_true_r.
  destruct (_ && fp_unchanged text w); [by left|]. right. open_start. rewrite Ha. cbv beta iota. unfold works.
  assert (Hnew : forall id mk iso st n, fp_unchanged text (mkP (Some (sha256 text)) id mk iso st n) = true).
  { intros. unfold fp_unchanged. cbn [ph_fp]. by rewrite sha_plain, String.eqb_refl. }
  each_start e ltac:(split_and!; [done|by eauto|]; first [done|intros _; by split_and!; [apply Hnew|..]|by intros; exfalso; repeat case_match]).
Qed.

(** ** Over the life of a VM *)

(** The user data does not change. *)
Definition same_text (text : string) (ev : event) : Prop := match ev with Setup t _ => t = text | _ => True end.

Definition tears (ev : event) : bool := match ev with Setup _ e => negb (untorn e) | _ => false end.
Definition incomplete (ev : event) : bool := match ev with Setup _ e => negb (works e) | _ => false end.

(** No attempt count of the record is negative. *)
Definition counted (w : phost) : Prop := forall id, 0 <= attempts_of (recorded w) id.

Definition provisioned_with (text : string) (w : phost) : Prop := fp_unchanged text w = true /\ current w <> "" /\ counted w.

Lemma heals_unspent w : heals (recorded w) (current w) = true -> spent w < 1.
Proof. unfold heals, should_heal. intros [_ H%Z.ltb_lt]%andb_prop. exact H. Qed.

Lemma counted_made w n id errors st : 0 <= n -> id <> "" -> ph_marker w = Some (TTab (marker_value id st n errors now)) -> counted w.
Proof.
  intros Hn Hid Hm i. unfold recorded. rewrite Hm, written_is_usable by done. unfold attempts_of, heal_attempts. rewrite written_is_for.
  destruct (String.eqb id i); [|lia]. done.
Qed.

Lemma counted_same w w' : ph_marker w' = ph_marker w -> counted w -> counted w'.
Proof. intros H Hw id. unfold recorded. rewrite H. apply Hw. Qed.

Lemma spent_made w n id st errors : id <> "" -> current w = id -> ph_marker w = Some (TTab (marker_value id st n errors now)) -> spent w = n.
Proof. intros Hid Hc Hm. unfold spent, recorded. rewrite Hc, Hm, written_is_usable by done. apply written_attempts. Qed.

(** The ids that starts without errors can still mint: one while the attempt is not spent,
    and one more when the user data or the id is not on record. *)
Definition budget (text : string) (w : phost) : nat :=
  if fp_unchanged text w && negb (String.eqb (current w) "") then (if spent w <? 1 then 1 else 0) else 2.

Lemma budget_le text w : (budget text w <= 2)%nat.
Proof. unfold budget. destruct (_ && _); [destruct (_ <? _)|]; lia. Qed.

Lemma setup_budget text e w :
  counted w ->
  let w' := happen (Setup text e) w in
  counted w' /\ (ph_minted w' + budget text w' <= ph_minted w + budget text w + (if works e then 0 else 2))%nat.
Proof.
  intros Hw w'. pose proof (budget_le text w') as Hb.
  destruct (fp_unchanged text w && negb (String.eqb (current w) "")) eqn:Ea.
  - pose proof Ea as [Hfp Hc]%andb_prop. apply negb_true_iff, String.eqb_neq in Hc.
    assert (Hbw : budget text w = if spent w <? 1 then 1%nat else 0%nat) by (unfold budget; by rewrite Ea).
    destruct (heals (recorded w) (current w)) eqn:Eh.
    + destruct (setup_heals text e w Hfp Hc Eh) as (Hn & Hmk & Hu & _). fold w' in Hn, Hmk, Hu.
      pose proof (heals_unspent w Eh) as Hs. pose proof (Hw (current w)) as H0. change (attempts_of (recorded w) (current w)) with (spent w) in H0.
      rewrite (proj2 (Z.ltb_lt _ _) Hs) in Hbw. split.
      { destruct Hmk as [Hmk|Hmk]; [by eapply counted_same|]. eapply (counted_made _ (spent w + 1)); [lia|apply new_id_nonempty|exact Hmk]. }
      destruct (works e) eqn:Ee; [|lia].
      assert (Hut : untorn e = true) by (unfold works, untorn in *; destruct (e_id e), (e_id_chown e), (e_marker e), (e_stage e), (e_iso e), (e_fp e); done).
      destruct (Hu Hut) as (Hfp' & Hi & Hmk').
      assert (Hcur : current w' = new_id (ph_minted w)) by (unfold current; rewrite Hi; apply id_plain).
      assert (Hsp : spent w' = spent w + 1) by (eapply spent_made; [apply (new_id_nonempty (ph_minted w))|exact Hcur|exact Hmk']).
      assert (budget text w' = 0%nat) as ->; [|lia]. unfold budget. rewrite Hfp', Hcur, (proj2 (String.eqb_neq _ _) (new_id_nonempty _)), Hsp.
      cbn [negb andb]. by rewrite (proj2 (Z.ltb_ge _ _)) by lia.
    + destruct (setup_kept text e w Hfp Hc Eh) as (Hi & Hmk & Hn & Hf). fold w' in Hi, Hmk, Hn, Hf. split; [by eapply counted_same|].
      assert (Hcur : current w' = current w) by (unfold current; by rewrite Hi).
      assert (Hsp : spent w' = spent w) by (unfold spent, recorded; by rewrite Hcur, Hmk).
      destruct (works e) eqn:Ee; [|lia].
      assert (Hf' : fp_unchanged text w' = true).
      { apply (keeps_fp text w w' Hfp). destruct Hf as [?|[?|[n Hcut]]]; [by left|by right|]. unfold works in Ee. rewrite Hcut in Ee.
        destruct (e_id e), (e_id_chown e), (e_marker e), (e_stage e), (e_iso e); done. }
      assert (budget text w' = budget text w) as ->; [|lia]. unfold budget. by rewrite Hf', Hfp, Hcur, Hsp.
  - assert (Hbw : budget text w = 2%nat) by (unfold budget; by rewrite Ea).
    destruct (setup_anew text e w Ea) as [Hsame|(Hn & Hmk & Hu)]; [fold w' in Hsame; rewrite Hsame; split; [done|lia]|]. fold w' in Hn, Hmk, Hu. split.
    { destruct Hmk as [Hmk|Hmk]; [by eapply counted_same|]. eapply (counted_made _ 0); [lia|apply new_id_nonempty|exact Hmk]. }
    destruct (works e); [|lia]. destruct (Hu eq_refl) as (Hfp' & Hi & Hmk').
    assert (Hcur : current w' = new_id (ph_minted w)) by (unfold current; rewrite Hi; apply id_plain).
    assert (budget text w' <= 1)%nat; [|lia]. unfold budget. rewrite Hfp', Hcur, (proj2 (String.eqb_neq _ _) (new_id_nonempty _)). cbn [negb andb].
    destruct (_ <? _); lia.
Qed.

Lemma setup_budget_untorn text e w :
  provisioned_with text w -> untorn e = true ->
  let w' := happen (Setup text e) w in
  provisioned_with text w' /\ (ph_minted w' + budget text w' <= ph_minted w + budget text w)%nat.
Proof.
  intros (Hfp & Hc & Hw) Hut w'. destruct (setup_budget text e w Hw) as [Hw' _]. fold w' in Hw'.
  assert (Hne : String.eqb (current w) "" = false) by (by apply String.eqb_neq).
  destruct (heals (recorded w) (current w)) eqn:Eh.
  - destruct (setup_heals text e w Hfp Hc Eh) as (Hn & _ & Hu & _). fold w' in Hn, Hu. destruct (Hu Hut) as (Hfp' & Hi & Hmk').
    assert (Hcur : current w' = new_id (ph_minted w)) by (unfold current; rewrite Hi; apply id_plain).
    assert (Hsp : spent w' = spent w + 1) by (eapply spent_made; [apply (new_id_nonempty (ph_minted w))|exact Hcur|exact Hmk']).
    pose proof (heals_unspent w Eh) as Hs. pose proof (Hw (current w)) as H0. change (attempts_of (recorded w) (current w)) with (spent w) in H0.
    split; [split_and!; [done|rewrite Hcur; apply new_id_nonempty|done]|]. unfold budget.
    rewrite Hfp', Hcur, (proj2 (String.eqb_neq _ _) (new_id_nonempty _)), Hsp, Hfp, Hne. cbn [negb andb].
    rewrite (proj2 (Z.ltb_ge _ _)), (proj2 (Z.ltb_lt _ _)) by lia. lia.
  - destruct (setup_kept text e w Hfp Hc Eh) as (Hi & Hmk & Hn & Hf). fold w' in Hi, Hmk, Hn, Hf.
    assert (Hcur : current w' = current w) by (unfold current; by rewrite Hi).
    assert (Hsp : spent w' = spent w) by (unfold spent, recorded; by rewrite Hcur, Hmk).
    assert (Hf' : fp_unchanged text w' = true).
    { apply (keeps_fp text w w' Hfp). destruct Hf as [?|[?|[n Hcut]]]; [by left|by right|]. unfold untorn in Hut. rewrite Hcut in Hut.
      destruct (e_id e), (e_id_chown e), (e_marker e); done. }
    split; [split_and!; [done|congruence|done]|]. unfold budget. rewrite Hf', Hfp, Hcur, Hsp. lia.
Qed.

Lemma watch_budget text fault polls w :
  counted w -> let w' := happen (Watch fault polls) w in
  counted w' /\ ph_minted w' = ph_minted w /\ budget text w' = budget text w.
Proof.
  intros Hw w'. pose proof (watch_watched fault polls w) as H. fold w' in H. change (fst (watch_provisioning fault polls w)) with w' in H. split_and!.
  - intros i. by apply watch_counted.
  - apply H.
  - unfold budget. rewrite (watched_unchanged text _ _ H), (watched_current _ _ H). by destruct H as (_ & _ & _ & _ & ->).
Qed.

(** C16.  A guest whose user data stays the same is not provisioned anew for ever.  Take a
    host on which the user data and an id are on record, and no attempt count is
    negative; digests and minted ids are not changed by [strip].  Over any course of
    starts with this user data, reboots, restarts and reports, whatever the guest reports:
    if no start tears the records (fails to write, chown or replace the id and the record
    of a new instance, or cuts the fingerprint short), the guest is given at most one new
    instance, however staging, the ISO tool and the other steps fail; and in any case at
    most one and two more for each start on which something failed. *)
Theorem heals_are_bounded text evs w :
  provisioned_with text w -> Forall (same_text text) evs ->
  (Forall (fun ev => tears ev = false) evs -> (ph_minted (life evs w) <= S (ph_minted w))%nat) /\
  (ph_minted (life evs w) <= S (ph_minted w) + 2 * length (List.filter incomplete evs))%nat.
Proof.
  intros Hw Hevs.
  assert (Hb : (budget text w <= 1)%nat).
  { destruct Hw as (Hfp & Hc & _). unfold budget. rewrite Hfp, (proj2 (String.eqb_neq _ _) Hc). cbn [negb andb]. destruct (_ <? _); lia. }
  split.
  - intros Ht. assert (H : provisioned_with text (life evs w) /\ (ph_minted (life evs w) + budget text (life evs w) <= ph_minted w + budget text w)%nat); [|lia].
    clear Hb. revert w Hw. unfold life. induction evs as [|ev evs IH]; intros w Hw; [split; [done|cbn; lia]|]. cbn [foldl].
    inversion Hevs as [|? ? Hev Hevs']; inversion Ht as [|? ? Hte Ht']; subst.
    assert (H : provisioned_with text (happen ev w) /\ (ph_minted (happen ev w) + budget text (happen ev w) <= ph_minted w + budget text w)%nat).
    { destruct ev as [t e| | |fault polls]; [|split; [done|exact (Nat.le_refl _)]..|].
      - cbn in Hev, Hte. subst t. apply setup_budget_untorn; [done|]. by apply negb_false_iff.
      - pose proof (watch_watched fault polls w) as Hwd. destruct Hw as (Hfp & Hc & Hw).
        destruct (watch_budget text fault polls w Hw) as (Hw' & Hn & Hbu). split; [|lia].
        cbn [happen] in *.
        split_and!; [by rewrite (watched_unchanged text _ _ Hwd)|by rewrite (watched_current _ _ Hwd)|done]. }
    destruct H as [H1 H2]. destruct (IH Hevs' Ht' _ H1) as [H3 H4]. split; [done|lia].
  - assert (H : (ph_minted (life evs w) + budget text (life evs w) <= ph_minted w + budget text w + 2 * length (List.filter incomplete evs))%nat); [|lia].
    destruct Hw as (_ & _ & Hw). clear Hb. revert w Hw. unfold life. induction evs as [|ev evs IH]; intros w Hw; [cbn; lia|]. cbn [foldl List.filter].
    inversion Hevs as [|? ? Hev Hevs']; subst.
    assert (H : counted (happen ev w) /\ (ph_minted (happen ev w) + budget text (happen ev w) <= ph_minted w + budget text w + (if incomplete ev then 2 else 0))%nat).
    { destruct ev as [t e| | |fault polls]; [|split; [done|cbn [incomplete]; rewrite Nat.add_0_r; exact (Nat.le_refl _)]..|].
      - cbn in Hev. subst t. destruct (setup_budget text e w Hw) as [H1 H2]. split; [done|]. cbn [incomplete]. destruct (works e); cbn [negb]; lia.
      - destruct (watch_budget text fault polls w Hw) as (Hw' & Hn & Hbu). split; [done|cbn [incomplete]; lia]. }
    destruct H as [H1 H2]. specialize (IH Hevs' _ H1). destruct (incomplete ev); cbn [length]; lia.
Qed.

(** No poll of the watch reports a failure of [id]. *)
Definition no_failure (id : string) (ev : event) : Prop :=
  match ev with
  | Watch _ polls => forall output g errors, Some output ∈ polls -> _parse_guest_probe output = Ok (Some (PROVISION_FAILED, g, errors)) -> g <> None /\ g <> Some id
  | _ => True
  end.

Lemma poll_keeps fault id p w : id <> "" ->
  (forall output g errors, p = Some output -> _parse_guest_probe output = Ok (Some (PROVISION_FAILED, g, errors)) -> g <> None /\ g <> Some id) ->
  marker_reports_failure (recorded w) id = false -> marker_reports_failure (recorded (fst (record_guest_provision_result fault id p w))) id = false.
Proof.
  intros Hid Hp Hw. destruct p as [output|]; [|done]. cbn [record_guest_provision_result]. cbv [mbind io_bind pure]. destruct (_parse_guest_probe output) as [[[[status g] errors]|]|] eqn:E; [|done|done].
  destruct (match g with Some _ => _ | None => _ end) eqn:Eg; [done|].
  cbv [read_provision_marker plook write_provision_marker fails_with pure mbind io_bind pchange mret io_ret]. destruct fault; [done|]. unfold recorded. cbn [fst ph_marker].
  rewrite written_is_usable by done. rewrite written_fails. apply andb_false_iff. right. apply String.eqb_neq. intros ->. destruct (Hp output g errors eq_refl E) as [H1 H2].
  destruct g as [g|]; [|done]. apply negb_false_iff, String.eqb_eq in Eg. by subst.
Qed.

Lemma polls_keep fault id polls : id <> "" -> no_failure id (Watch fault polls) -> forall w,
  marker_reports_failure (recorded w) id = false -> marker_reports_failure (recorded (fst (watch_polls fault id polls w))) id = false.
Proof.
  intros Hid. induction polls as [|p polls IH]; intros Hn w Hw; [done|]. cbn [watch_polls]. cbv [mbind io_bind]. unfold try_io.
  assert (Hp : marker_reports_failure (recorded (fst (record_guest_provision_result fault id p w))) id = false).
  { apply poll_keeps; [done| |done]. intros output g errors ->. apply Hn. by left. }
  destruct (record_guest_provision_result fault id p w) as [w1 [[s|]|e]]; cbn in *; [done| |done]. apply IH; [|done]. intros output g errors Ho. apply Hn. by right.
Qed.

Lemma happen_healthy text id ev w :
  same_text text ev -> tears ev = false -> no_failure id ev -> id <> "" ->
  fp_unchanged text w = true /\ current w = id /\ marker_reports_failure (recorded w) id = false ->
  fp_unchanged text (happen ev w) = true /\ current (happen ev w) = id /\ marker_reports_failure (recorded (happen ev w)) id = false.
Proof.
  intros Ht Hto Hn Hid (Hfp & Hc & Hf). destruct ev as [t e| | |fault polls]; cbn [same_text tears] in Ht, Hto; [|done|done|].
  - subst t. apply negb_false_iff in Hto.
    assert (Eh : heals (recorded w) (current w) = false) by (rewrite Hc; unfold heals, should_heal; by rewrite Hf).
    destruct (setup_kept text e w Hfp ltac:(congruence) Eh) as (Hi & Hmk & _ & Hfp'). split.
    + eapply keeps_fp; [exact Hfp|]. destruct Hfp' as [?|[?|[n Hcut]]]; [by left|by right|]. unfold untorn in Hto. rewrite Hcut in Hto.
      destruct (e_id e), (e_id_chown e), (e_marker e); done.
    + unfold current, recorded in *. by rewrite Hi, Hmk.
  - cbn [happen]. pose proof (watch_watched fault polls w) as H. rewrite (watched_unchanged text _ _ H), (watched_current _ _ H). split_and!; [done|done|].
    unfold watch_provisioning. cbv [mbind io_bind plook read_provision_marker]. unfold current in Hc. rewrite Hc. destruct (String.eqb id ""); [done|]. destruct (_ || _); [done|]. by apply polls_keep.
Qed.

(** Only the guest's own report of a failure of the id it was given changes that id: no
    start that does not tear the records, reboot, restart or failed build does, nor a guest
    that does not answer. *)
Theorem only_failure_reprovisions text evs w :
  fp_unchanged text w = true -> current w <> "" -> marker_reports_failure (recorded w) (current w) = false ->
  Forall (same_text text) evs -> Forall (fun ev => tears ev = false) evs -> Forall (no_failure (current w)) evs ->
  current (life evs w) = current w.
Proof.
  intros Hfp Hc Hf Ht Hto Hn. unfold life. assert (H : forall u, fp_unchanged text u = true /\ current u = current w /\ marker_reports_failure (recorded u) (current w) = false ->
    fp_unchanged text (foldl (fun w ev => happen ev w) u evs) = true /\ current (foldl (fun w ev => happen ev w) u evs) = current w /\ marker_reports_failure (recorded (foldl (fun w ev => happen ev w) u evs)) (current w) = false).
  { induction evs as [|ev evs IH]; intros u Hu; [done|]. cbn [foldl]. inversion Ht; inversion Hto; inversion Hn; subst. apply IH; [done..|]. by apply happen_healthy. }
  by apply H.
Qed.

(** A poll that does not settle the matter. *)
Definition undecided (id : string) (p : option string) : Prop :=
  match p with
  | None => True
  | Some output => exists a, _parse_guest_probe output = Ok a /\ match a with Some (_, g, _) => g <> None /\ g <> Some id | None => True end
  end.

Lemma undecided_polls fault id ps : forall w rest, Forall (undecided id) ps -> watch_polls fault id (ps ++ rest) w = watch_polls fault id rest w.
Proof.
  induction ps as [|p ps IH]; intros w rest H; [done|]. inversion H as [|? ? Hp Hps]; subst. cbn [app watch_polls]. cbv [mbind io_bind]. unfold try_io.
  assert (E : record_guest_provision_result fault id p w = (w, Ok None)).
  { destruct p as [output|]; [|done]. destruct Hp as (a & Ea & Ha). cbn [record_guest_provision_result]. cbv [mbind io_bind pure]. rewrite Ea. destruct a as [[[st [g|]] er]|]; [|naive_solver|done].
    destruct Ha as [_ Hg]. rewrite (proj2 (String.eqb_neq g id)); [done|congruence]. }
  rewrite E. cbn. by apply IH.
Qed.

(** Events between a report and the next run of the setup unit. *)
Definition waiting (ev : event) : Prop := ev = HostReboot \/ ev = Restart.

Lemma waits_keep evs w : Forall waiting evs ->
  ph_fp (life evs w) = ph_fp w /\ ph_id (life evs w) = ph_id w /\ ph_marker (life evs w) = ph_marker w /\ ph_minted (life evs w) = ph_minted w.
Proof.
  intros H. revert w. unfold life. induction H as [|ev evs Hev _ IH]; intros w; [done|]. cbn [foldl].
  destruct (IH (happen ev w)) as (-> & -> & -> & ->). by destruct Hev as [-> | ->].
Qed.

(** C17.  A reported failure is healed by the next run of the setup unit, if all of that run
    works.  The user data and a nonempty id are on record, no outcome and no attempt is
    recorded for it; digests and minted ids are not changed by [strip].  If the watch polls
    any number of times without an answer for this id, then reads a failure of it (or one
    without an id) and can replace the record, and the host is then rebooted and the VM
    restarted any number of times before the setup unit runs again, that next run of the
    unit, on which every write, staging and the ISO tool work, leaves an image
    of the same user data that names a new id, records that id, and counts the attempt.
    (A run that fails loses the heal: [failed_heal_is_lost].) *)
Theorem reported_failure_is_healed text e ps output g errors rest waits w :
  fp_unchanged text w = true -> current w <> "" -> spent w = 0 ->
  marker_vouches_for (recorded w) (current w) = false -> marker_reports_failure (recorded w) (current w) = false ->
  Forall (undecided (current w)) ps -> _parse_guest_probe output = Ok (Some (PROVISION_FAILED, g, errors)) -> g = None \/ g = Some (current w) ->
  Forall waiting waits -> works e = true ->
  let w' := life (Watch None (ps ++ Some output :: rest) :: waits ++ [Setup text e]) w in
  ph_iso w' = Some (mkSeed (new_id (ph_minted w)) text) /\ current w' = new_id (ph_minted w) /\ spent w' = 1.
Proof.
  intros Hfp Hc Hs Hv Hf Hps Ho Hg Hwt He w'. subst w'. unfold life. cbn [foldl]. rewrite foldl_app. cbn [foldl].
  set (w1 := happen (Watch None (ps ++ Some output :: rest)) w).
  pose proof (watch_watched None (ps ++ Some output :: rest) w) as Hw. change (fst (watch_provisioning None (ps ++ Some output :: rest) w)) with w1 in Hw.
  assert (Hr : recorded w1 = Some (marker_value (current w) PROVISION_FAILED (spent w) errors now)).
  { unfold w1. cbn [happen]. unfold watch_provisioning. cbv [mbind io_bind plook read_provision_marker]. change (read_stripped (ph_id w)) with (current w).
    rewrite (proj2 (String.eqb_neq _ _) Hc). cbv beta iota. change (usable (ph_marker w)) with (recorded w). rewrite Hv, Hf. cbn [orb]. rewrite undecided_polls by done. cbn [watch_polls record_guest_provision_result]. cbv [mbind io_bind pure try_io]. rewrite Ho.
    assert (Eg : match g with Some g => negb (String.eqb g (current w)) | None => false end = false) by (destruct Hg as [->| ->]; [done|by rewrite String.eqb_refl]).
    rewrite Eg. cbv [read_provision_marker plook write_provision_marker fails_with pure mbind io_bind pchange mret io_ret]. unfold recorded. cbn [fst ph_marker]. by rewrite written_is_usable. }
  destruct (waits_keep waits w1 Hwt) as (Wf & Wi & Wm & Wn). unfold life in Wf, Wi, Wm, Wn. set (w2 := foldl _ w1 waits) in *.
  assert (Hc2 : current w2 = current w) by (unfold current; rewrite Wi; exact (watched_current _ _ Hw)).
  assert (Hr2 : recorded w2 = Some (marker_value (current w) PROVISION_FAILED (spent w) errors now)) by (unfold recorded; rewrite Wm; exact Hr).
  assert (Hh : heals (recorded w2) (current w2) = true).
  { rewrite Hc2, Hr2. unfold heals, should_heal. rewrite written_fails, written_attempts, Hs, (proj2 (String.eqb_neq _ _) Hc). done. }
  assert (Hfp2 : fp_unchanged text w2 = true) by (unfold fp_unchanged; rewrite Wf; fold (fp_unchanged text w1); by rewrite (watched_unchanged _ _ _ Hw)).
  assert (Hn : ph_minted w2 = ph_minted w) by (rewrite Wn; apply Hw).
  assert (Hsp : spent w2 = 0) by (unfold spent; rewrite Hc2, Hr2; unfold attempts_of; by rewrite written_attempts).
  destruct (setup_heals text e w2 Hfp2 ltac:(congruence) Hh) as (_ & _ & Hu & Hb). destruct (Hb He) as [Hiso _]. rewrite Hn in *. split; [done|].
  assert (Hut : untorn e = true) by (unfold works, untorn in *; destruct (e_id e), (e_id_chown e), (e_marker e), (e_stage e), (e_iso e), (e_fp e); done).
  destruct (Hu Hut) as (_ & Hi & Hmk).
  assert (Hcur : current (happen (Setup text e) w2) = new_id (ph_minted w)) by (unfold current; rewrite Hi; apply id_plain). split; [done|].
  rewrite Hsp in Hmk. eapply (spent_made _ 1); [apply (new_id_nonempty (ph_minted w))|exact Hcur|exact Hmk].
Qed.
End lives.
End provisioning.

(** ** Samples *)

Module Guest.
Definition sha (t : string) : string := str_Z (Z.of_nat (String.length t)).
Definition uuid (n : nat) : string := str_Z (Z.of_nat n).
Definition loads (s : string) : res tv :=
  if starts_with "error" s then Ok (TTab [("status", TStr "error"); ("errors", TArr [TStr "runcmd failed"])])
  else if starts_with "done" s then Ok (TTab [("status", TStr "done"); ("errors", TArr [])])
  else if starts_with "running" s then Ok (TTab [("status", TStr "running")]) else Raise ValueError.
Definition other (v : tv) : option Z := None.

Definition says (id status : string) : option string := Some (id +:+ chr LF +:+ status).

Definition after (evs : list event) (w : phost) : phost := life "web" sha uuid "now" loads other evs w.
Definition new : phost := mkP None None None None false 0.

Definition fine : start_env := mkEnv Wrote None None None true 0 None None Wrote None.
(** The ISO tool fails, and leaves an image as given. *)
Definition failing (left : option seed) : start_env := mkEnv Wrote None None None true 1 left None Wrote None.
(** The write of the fingerprint is cut short. *)
Definition torn : start_env := mkEnv Wrote None None None true 0 None None (Cut 0) None.

Definition first : phost := after [Setup "users" fine] new.

Lemma first_boot : ph_iso first = Some (mkSeed "web-0" "users") /\ current first = "web-0".
Proof. by vm_compute. Qed.

(** A failure is healed once, and a second failure is left as it is. *)
Lemma heals_once :
  let w := after [Watch None [None; says "web-0" "running"; says "web-0" "error"]; Setup "users" fine] first in
  ph_iso w = Some (mkSeed "web-1" "users") /\
  ph_iso (after [Watch None [says "web-1" "error"]; Setup "users" fine; HostReboot; Setup "users" fine] w) = Some (mkSeed "web-1" "users").
Proof. by vm_compute. Qed.

(** A fingerprint that was cut makes the next start mint an id with a new budget: the
    guest that fails every time is given three. *)
Lemma torn_fingerprint_gives_more :
  ph_minted (after [Watch None [says "web-0" "error"]; Setup "users" torn; HostReboot; Setup "users" fine;
                    Watch None [says "web-2" "error"]; Setup "users" fine] first) = 4%nat.
Proof. by vm_compute. Qed.

(** Restarting the VM does not run setup, so it does not give a failed guest a new
    instance, which the report of the failure says it does. *)
Lemma restart_does_not_heal :
  let w := after [Watch None [says "web-0" "error"]] first in
  marker_reports_failure (recorded w) "web-0" = true /\ ph_iso (after [Restart; Restart] w) = Some (mkSeed "web-0" "users").
Proof. by vm_compute. Qed.

(** The new id is recorded before its image is built: when that fails, the image of the
    failed instance stays in use, no later start of this boot replaces it, and what the
    guest reports is taken for another instance's. *)
Lemma failed_heal_is_lost :
  let w := after [Watch None [says "web-0" "error"]; Setup "users" (failing (Some (mkSeed "web-0" "users"))); Setup "users" fine;
                Watch None [says "web-0" "error"]; Setup "users" fine] first in
  ph_iso w = Some (mkSeed "web-0" "users") /\ current w = "web-1" /\ marker_reports_failure (recorded w) "web-1" = false.
Proof. by vm_compute. Qed.

(** An image a failed build has left is taken for a finished one by every later start. *)
Lemma broken_image_is_kept :
  let broken := mkSeed "" "" in
  ph_iso (after [HostReboot; Setup "users" (failing (Some broken)); Setup "users" fine; Setup "users" fine] first) = Some broken.
Proof. by vm_compute. Qed.
End Guest.

Lemma sample_sha_plain t : strip (Guest.sha t) = Guest.sha t.
Proof. apply strip_by_id, no_space_str_Z. lia. Qed.

Lemma sample_id_plain n : strip (new_id "web" Guest.uuid n) = new_id "web" Guest.uuid n.
Proof. apply strip_by_id. unfold new_id. rewrite !all_chars_app. unfold Guest.uuid. by rewrite no_space_str_Z by lia. Qed.

(** Three rounds of failures, with a failing ISO tool in each, and one torn start. *)
Lemma heals_are_bounded_witness :
  let round := [Watch None [Guest.says "web-0" "error"; Guest.says "web-1" "error"]; Setup "users" (Guest.failing None); Setup "users" Guest.fine; HostReboot] in
  (ph_minted (Guest.after (round ++ round ++ round) Guest.first) <= 2)%nat /\
  (ph_minted (Guest.after (Setup "users" Guest.torn :: round) Guest.first) <= 6)%nat.
Proof.
  assert (H0 : provisioned_with Guest.sha Guest.other "users" Guest.first).
  { split_and!; [vm_compute; reflexivity|vm_compute; discriminate|].
    apply (counted_made "now" Guest.other Guest.first 0 "web-0" [] PROVISION_UNVERIFIED); [lia|discriminate|vm_compute; reflexivity]. }
  intros round. split.
  - apply (heals_are_bounded "web" Guest.sha Guest.uuid "now" Guest.loads Guest.other sample_sha_plain sample_id_plain "users" (round ++ round ++ round) Guest.first H0);
      repeat constructor.
  - destruct (heals_are_bounded "web" Guest.sha Guest.uuid "now" Guest.loads Guest.other sample_sha_plain sample_id_plain "users"
      (Setup "users" Guest.torn :: round) Guest.first H0) as [_ H]; [repeat constructor|]. exact H.
Defined.

Lemma only_failure_reprovisions_witness :
  current (Guest.after [Watch None [None; Guest.says "web-0" "running"; Guest.says "other" "error"]; HostReboot; Setup "users" (Guest.failing None); Restart; Setup "users" Guest.fine] Guest.first) = "web-0".
Proof.
  apply (only_failure_reprovisions "web" Guest.sha Guest.uuid "now" Guest.loads Guest.other sample_sha_plain "users"
           [Watch None [None; Guest.says "web-0" "running"; Guest.says "other" "error"]; HostReboot; Setup "users" (Guest.failing None); Restart; Setup "users" Guest.fine] Guest.first).
  - vm_compute. reflexivity.
  - vm_compute. discriminate.
  - vm_compute. reflexivity.
  - repeat constructor.
  - repeat constructor.
  - constructor; [|repeat constructor]. intros output g errors Ho Hp. apply elem_of_cons in Ho as [Ho|Ho]; [discriminate Ho|]. apply elem_of_cons in Ho as [Ho|Ho].
    + injection Ho as ->. vm_compute in Hp. discriminate Hp.
    + apply elem_of_cons in Ho as [Ho|Ho]; [|by apply elem_of_nil in Ho]. injection Ho as ->. vm_compute in Hp. injection Hp as <- <-. by split.
Defined.

Lemma reported_failure_is_healed_witness :
  let w' := Guest.after [Watch None ([None; Guest.says "web-0" "running"] ++ Guest.says "web-0" "error" :: []); HostReboot; Restart; Setup "users" Guest.fine] Guest.first in
  ph_iso w' = Some (mkSeed "web-1" "users") /\ current w' = "web-1" /\ spent Guest.other w' = 1.
Proof.
  apply (reported_failure_is_healed "web" Guest.sha Guest.uuid "now" Guest.loads Guest.other sample_sha_plain sample_id_plain "users" Guest.fine
           [None; Guest.says "web-0" "running"] ("web-0" +:+ chr LF +:+ "error") (Some "web-0") ["runcmd failed"] [] [HostReboot; Restart] Guest.first);
    try (vm_compute; reflexivity).
  - vm_compute. discriminate.
  - constructor; [done|]. constructor; [|constructor]. exists None. split; [vm_compute; reflexivity|done].
  - right. vm_compute. reflexivity.
  - constructor; [by left|]. constructor; [by right|constructor].
Defined.
