(* ===== verification/VmSeed.v ===== *)
(** * The seed of a VM: [lib/vm_default_seed.py], [lib/vm_ptp.py], the user data of [lib/ensure_vm.py]

    The user data a guest is provisioned with is either rendered from the configuration or
    written by the operator; the latter must meet a contract, because the host pins the
    guest's key, inspects its traffic and shares its volumes whatever the seed says.

    Parameters: the keys and certificates of the workload's home, base64, the
    operator's file, and the credentials a template may name. *)
From S2P Require Import Prelude PyStr PyRe PyPath Toml WorkloadNames WorkloadAddr WorkloadConfig SecretsTemplate NetworkConfig BrokerConfig RunArgs GenCommon GenVm.
Local Open Scope Z_scope.

Definition q : string := chr DQUOTE.

(** ** The guest's clock: [vm_ptp.py] *)

Definition VM_PTP_KVM_MODULE : string := "ptp_kvm".
Definition VM_PTP_KVM_CLOCK_NAME : string := "KVM virtual PTP".
Definition VM_PTP_KVM_DEVICE : string := "/dev/ptp_kvm".
Definition VM_PTP_KVM_MODULES_LOAD_PATH : string := "/etc/modules-load.d/ptp-kvm.conf".
Definition VM_PTP_KVM_UDEV_RULE_PATH : string := "/etc/udev/rules.d/70-ptp-kvm.rules".
Definition VM_PTP_KVM_CHRONY_PATH : string := "/etc/chrony.conf".
Definition VM_PTP_KVM_CHRONY_MARKER : string := "# workloadctl: paravirtual clock".

Definition vm_ptp_kvm_seed_files : list (string * string * string) :=
  [(VM_PTP_KVM_MODULES_LOAD_PATH, "0644", VM_PTP_KVM_MODULE +:+ chr LF);
   (VM_PTP_KVM_UDEV_RULE_PATH, "0644",
    "SUBSYSTEM==" +:+ q +:+ "ptp" +:+ q +:+ ", ATTR{clock_name}==" +:+ q +:+ VM_PTP_KVM_CLOCK_NAME +:+ q +:+
    ", SYMLINK+=" +:+ q +:+ default VM_PTP_KVM_DEVICE (strip_prefix "/dev/" VM_PTP_KVM_DEVICE) +:+ q +:+ chr LF)].

Definition vm_ptp_kvm_runcmd_lines : list string :=
  ["udevadm control --reload-rules || true";
   "if modprobe " +:+ VM_PTP_KVM_MODULE +:+ " 2>/dev/null; then";
   "  for _ in 1 2 3 4 5; do [ -e " +:+ VM_PTP_KVM_DEVICE +:+ " ] && break; sleep 1; done";
   "fi";
   "if [ -e " +:+ VM_PTP_KVM_DEVICE +:+ " ] && [ -f " +:+ VM_PTP_KVM_CHRONY_PATH +:+ " ] && ! grep -qF '" +:+ VM_PTP_KVM_CHRONY_MARKER +:+ "' " +:+ VM_PTP_KVM_CHRONY_PATH +:+ "; then";
   "  sed -i '/^pool /d' " +:+ VM_PTP_KVM_CHRONY_PATH;
   "  printf '%s\n' '" +:+ VM_PTP_KVM_CHRONY_MARKER +:+ "' 'refclock PHC " +:+ VM_PTP_KVM_DEVICE +:+ " poll 2 dpoll -2 offset 0' 'makestep 1 -1' >> " +:+ VM_PTP_KVM_CHRONY_PATH;
   "  systemctl restart chronyd || true";
   "fi"].

(** ** The built-in seed *)

Definition VM_GUEST_HOME_BASE : string := "/home".
Definition VM_HOME_SELINUX_TYPES : list string := ["user_home_t"; "ssh_home_t"].
Definition VM_HOME_SELINUX_CONTEXT : string := "system_u:object_r:user_home_t:s0".
Definition VM_CA_BUNDLE_AVAILABLE : bool := true.
Definition VM_DEFAULT_GUEST_USER : string := "workload".

Definition vm_ca_env (config : table) : res (list (string * string)) :=
  inspected ← vm_uses_inspect config;
  Ok (if negb inspected || negb VM_CA_BUNDLE_AVAILABLE then [] else map (fun v => (v, CA_BUNDLE_PATH)) CA_ENV_VARS).

(** The text without its comment lines. *)
Definition uncommented (text : string) : string :=
  join (chr LF) (List.filter (fun l => negb (starts_with "#" (lstrip_by is_space l))) (splitlines text)).

Definition covers_guest_home (guest_path : string) (guest_home : pypath) : bool := is_ok (relative_to guest_home (path_of guest_path)).

Definition virtiofs_mount_opts (guest_path opts : string) (guest_home : pypath) : string :=
  if negb (covers_guest_home guest_path guest_home) then opts
  else if negb (String.eqb opts "rw") then opts
  else opts +:+ ",context=" +:+ q +:+ VM_HOME_SELINUX_CONTEXT +:+ q.

Definition indented (pad text : string) : list string := map (String.append pad) (splitlines text).

Record mount := mkMount { m_tag : string; m_path : string; m_type : string; m_opts : string }.

Definition seed_mount_line (m : mount) : string :=
  "  - [" +:+ repr_str (m_tag m) +:+ ", " +:+ repr_str (m_path m) +:+ ", " +:+ repr_str (m_type m) +:+ ", " +:+ repr_str (m_opts m) +:+ ", '0', '0']".

Definition data_disk_lines : list string :=
  ["if [ -b /dev/vdb ]; then";
   "  blkid /dev/vdb | grep -q TYPE || mkfs.ext4 -L workload-data /dev/vdb";
   "  mkdir -p /data";
   "  grep -q '^LABEL=workload-data ' /etc/fstab || echo 'LABEL=workload-data /data ext4 defaults 0 2' >> /etc/fstab";
   "  mountpoint -q /data || mount /data";
   "fi"].

Definition seed_file (f : string * string * string) : list string :=
  let '(path, permissions, content) := f in
  ["  - path: " +:+ path; "    permissions: '" +:+ permissions +:+ "'"; "    content: |"] ++ indented "      " content.

Definition key_lines (host_private_key host_public_key : string) : list string :=
  when (negb (String.eqb host_private_key "") && negb (String.eqb host_public_key ""))
    (["ssh_keys:"; "  ed25519_private: |"] ++ indented "    " host_private_key ++ ["  ed25519_public: " +:+ host_public_key]).

Definition env_lines (env : list (string * string)) : list string :=
  when (nonempty env)
    (["  - path: /etc/environment"; "    append: true"; "    content: |"] ++ map (fun kv => "      " +:+ fst kv +:+ "=" +:+ snd kv) env ++
     ["  - path: /etc/profile.d/99-workload-proxy.sh"; "    permissions: '0644'"; "    content: |"] ++
     map (fun kv => "      export " +:+ fst kv +:+ "=" +:+ snd kv) env).

Definition ca_file_lines (ca_cert : string) : list string := when (negb (String.eqb ca_cert "")) (seed_file (CA_BUNDLE_PATH, "0644", ca_cert)).

Definition ca_trust_lines (ca_cert : string) : list string :=
  when (negb (String.eqb ca_cert "")) (["ca_certs:"; "  trusted:"; "    - |"] ++ indented "      " ca_cert).

Definition mounts_lines (mounts : list mount) : list string := when (nonempty mounts) ("mounts:" :: map seed_mount_line mounts).

Definition runcmd_lines (has_data_disk : bool) : list string :=
  "runcmd:" :: concat (map (fun block => "  - |" :: map (String.append "    ") block) (vm_ptp_kvm_runcmd_lines :: when has_data_disk [data_disk_lines])).

Definition default_lines (name guest_user pubkey : string) (mounts : list mount) (has_data_disk : bool)
    (host_private_key host_public_key : string) (guest_env : list (string * string)) (ca_cert : string) : list string :=
  ["#cloud-config"; "hostname: " +:+ name; "fqdn: " +:+ name +:+ ".local"; "users:"; "  - name: " +:+ guest_user;
   "    uid: " +:+ str_Z VM_GUEST_UID; "    sudo: ALL=(ALL) NOPASSWD:ALL"; "    ssh_authorized_keys:"; "      - " +:+ pubkey] ++
  key_lines host_private_key host_public_key ++
  ["write_files:"] ++ concat (map seed_file vm_ptp_kvm_seed_files) ++ ca_file_lines ca_cert ++ env_lines guest_env ++
  ca_trust_lines ca_cert ++ mounts_lines mounts ++ runcmd_lines has_data_disk ++
  ["package_update: false"; "package_upgrade: false";
   "final_message: " +:+ q +:+ "workload " +:+ name +:+ " cloud-init complete after $UPTIME seconds" +:+ q; ""].

Definition render_default_user_data (name guest_user pubkey : string) (mounts : list mount) (has_data_disk : bool)
    (host_private_key host_public_key : string) (guest_env : list (string * string)) (ca_cert : string) : string :=
  join (chr LF) (default_lines name guest_user pubkey mounts has_data_disk host_private_key host_public_key guest_env ca_cert).

(** ** The contract of a custom seed *)

(** [^\s*ssh_deletekeys\s*:\s*(false|no|off|0)\s*$], with [re.M] and [re.I], at the start of
    a line. *)
Definition skip_space (s : string) : string := lstrip_by is_space s.

(** Only white space up to the end of the line. *)
Fixpoint line_ends (s : string) : bool :=
  match s with EmptyString => true | String c s => Ascii.eqb c LF || (is_space c && line_ends s) end.

Definition deletekeys_at (s : string) : bool :=
  match strip_prefix "ssh_deletekeys" (lower (skip_space s)) with
  | None => false
  | Some r =>
      match strip_prefix ":" (skip_space r) with
      | None => false
      | Some r => existsb (fun v => match strip_prefix v (skip_space r) with Some e => line_ends e | None => false end) ["false"; "no"; "off"; "0"]
      end
  end.

Fixpoint at_line_start (p : string -> bool) (s : string) : bool :=
  match s with EmptyString => false | String c r => (Ascii.eqb c LF && p r) || at_line_start p r end.

Definition keeps_host_keys (text : string) : bool := deletekeys_at text || at_line_start deletekeys_at text.

(** A match at some place of the text. *)
Fixpoint search (p : string -> bool) (s : string) : bool := p s || match s with EmptyString => false | String _ r => search p r end.

Definition is_context_char (c : ascii) : bool := is_alnum c || Ascii.eqb c "_" || Ascii.eqb c "." || Ascii.eqb c "-".

Definition after_part (s : string) : option string := strip_prefix ":" (snd (span is_context_char s)).

(** [context=], an optional quote, two parts that end in a colon, and one of the types with
    another. *)
Definition context_at (s : string) : bool :=
  match strip_prefix "context=" s with
  | None => false
  | Some r =>
      let r := match r with String c r' => if Ascii.eqb c DQUOTE || Ascii.eqb c "'" then r' else r | EmptyString => r end in
      match (a ← after_part r; after_part a) with
      | Some r => existsb (fun t => starts_with (t +:+ ":") r) VM_HOME_SELINUX_TYPES
      | None => false
      end
  end.

Definition names_home_context (live : string) : bool := search context_at live.

Section user_data.
Variable b64encode : string -> string.
Variable name : string.
Variable uid : Z.
(** The keys and the certificate in the workload's home, empty when they cannot be read. *)
Variable pubkey : string.
Variable host_private_key : string.
Variable host_public_key : string.
Variable egress_ca : string.
(** The operator's file, the environment, and the credentials: encrypted, with the text
    when [systemd-creds] opens it, and plain. *)
Variable user_data_file : option string.
Variable environ : list (string * string).
Variable encrypted : string -> option (option string).
Variable plain : string -> option string.

Definition _decrypt_systemd_credential (n : string) : res string :=
  match encrypted n with
  | Some (Some t) => Ok (rstrip_by (is_char LF) t)
  | Some None => Raise RuntimeError
  | None => match plain n with Some t => Ok (rstrip_by (is_char LF) t) | None => Raise FileNotFoundError end
  end.

(** [^[a-z_][a-z0-9_-]*$] matches before a final newline too. *)
Definition is_user_name (s : string) : bool :=
  match s with
  | String c r =>
      let r := if ends_with_char LF r then str_take (String.length r - 1) r else r in
      (is_lower c || Ascii.eqb c "_") && all_chars (fun c => is_lower c || is_dec c || Ascii.eqb c "_" || Ascii.eqb c "-") r
  | EmptyString => false
  end.

Definition _validated_guest_user (vm_cfg : tv) : res string :=
  v ← get_or vm_cfg "user" (TStr VM_DEFAULT_GUEST_USER);
  match v with
  | TStr s => if negb (is_user_name s) || (32 <? Z.of_nat (String.length s)) then Raise RuntimeError else Ok s
  | _ => Raise TypeError
  end.

Definition vm_table (config : table) : res tv := get_or (TTab config) "vm" (TTab []).

Definition spec_list (v : tv) : res (list string) := l ← iter v; mapM_res (fun x => match x with TStr s => Ok s | _ => Raise AttributeError end) l.

Definition volume_specs (vm_cfg : tv) : res (list string) :=
  v ← get_or vm_cfg "volumes" (TArr []); if truthy v then spec_list v else Ok [].

Definition tagged (specs : list string) : list (string * string) := combine (default [] (virtiofs_tags specs)) specs.

Definition guest_home (guest_user : string) : pypath := path_div (path_of VM_GUEST_HOME_BASE) guest_user.

(** One volume of the contract: it is named, and labelled when it covers the home. *)
Definition volume_contract (provides : tv) (home : pypath) (live : string) (tv_spec : string * string) : res unit :=
  let '(tag, spec) := tv_spec in
  if negb (contains tag live) then Raise SeedContractError
  else
    opted ← contains_key "home_context" provides;
    if negb opted && covers_guest_home (snd (fst (parse_volume_spec spec))) home && negb (names_home_context live) then Raise SeedContractError
    else Ok tt.

Fixpoint each_res {A} (f : A -> res unit) (l : list A) : res unit := match l with [] => Ok tt | x :: l => _ ← f x; each_res f l end.

(** The checks of [build_cloud_init_iso] on the text of a seed. *)
Definition seed_contract (config : table) (guest_user text : string) : res unit :=
  vm_cfg ← vm_table config;
  ci_cfg ← get_or vm_cfg "cloud_init" (TTab []);
  let via_ssh_keys := contains "ed25519_private" text in
  let via_write_files := contains (strip host_private_key) text || contains (b64encode host_private_key) text in
  if negb via_ssh_keys && negb via_write_files then Raise SeedContractError
  else if via_write_files && negb via_ssh_keys && negb (keeps_host_keys text) then Raise SeedContractError
  else
    p ← get_or ci_cfg "seed_provides" (TArr []);
    let provides := if truthy p then p else TArr [] in
    let live := uncommented text in
    inspected ← vm_uses_inspect config;
    no_ca ← contains_key "ca" provides;
    if VM_CA_BUNDLE_AVAILABLE && inspected && negb no_ca && negb (contains CA_BUNDLE_PATH live) then Raise SeedContractError
    else
      no_mounts ← contains_key "mounts" provides;
      if no_mounts : bool then Ok tt
      else specs ← volume_specs vm_cfg; each_res (volume_contract provides (guest_home guest_user) live) (tagged specs).

Definition setdefault (k : string) (v : tv) (t : table) : table := match assoc k t with Some _ => t | None => t ++ [(k, v)] end.

(** The variables of a template, those of the host after those of the operator. *)
Definition template_vars (config : table) (guest_user : string) (own : table) : res table :=
  net ← vm_network config;
  b ← get_or net "bridge" (TBool false);
  addr ← (if negb (truthy b) && (UID_MIN <=? uid) && (uid <=? UID_MAX) then a ← inspect_address uid; Ok [("WORKLOADCTL_VM_INSPECT_ADDR", TStr (v4 a))] else Ok []);
  Ok (foldl (fun t kv => setdefault (fst kv) (snd kv) t) own
        ([("WORKLOADCTL_SSH_KEY", TStr pubkey); ("WORKLOADCTL_WORKLOAD_NAME", TStr name); ("WORKLOADCTL_VM_USER", TStr guest_user);
          ("WORKLOADCTL_VM_HOST_KEY", TStr host_private_key); ("WORKLOADCTL_VM_HOST_KEY_B64", TStr (b64encode host_private_key));
          ("WORKLOADCTL_VM_HOST_PUBKEY", TStr host_public_key); ("WORKLOADCTL_VM_EGRESS_CA", TStr egress_ca);
          ("WORKLOADCTL_VM_EGRESS_CA_B64", TStr (if String.eqb egress_ca "" then "" else b64encode egress_ca))] ++ addr)).

Definition custom_user_data (config : table) (guest_user : string) (ci_cfg : tv) : res string :=
  raw ← match user_data_file with Some t => Ok t | None => Raise FileNotFoundError end;
  own ← get_or ci_cfg "template_vars" (TTab []);
  own ← items own;
  vars ← template_vars config guest_user own;
  text ← (let r := substitute_template vars environ (Some _decrypt_systemd_credential) raw in
          catch (catch r KeyError (Raise RuntimeError)) FileNotFoundError (Raise RuntimeError));
  let text := if starts_with "#cloud-config" text then text else "#cloud-config" +:+ chr LF +:+ text in
  _ ← seed_contract config guest_user text;
  Ok text.

Definition default_mounts (specs : list string) (home : pypath) : list mount :=
  map (fun tv_spec => let '(_, guest_path, opts) := parse_volume_spec (snd tv_spec) in
                      mkMount (fst tv_spec) guest_path "virtiofs" (virtiofs_mount_opts guest_path opts home)) (tagged specs).

Definition default_user_data (config : table) (guest_user : string) (vm_cfg : tv) : res string :=
  v ← get_or vm_cfg "volumes" (TArr []);
  specs ← spec_list v;
  size ← get_or vm_cfg "data_disk_size" (TBool false);
  ca_env ← vm_ca_env config;
  credential_env ← vm_credential_env config;
  inspected ← vm_uses_inspect config;
  Ok (render_default_user_data name guest_user pubkey (default_mounts specs (guest_home guest_user)) (truthy size) host_private_key host_public_key
        (foldl (fun d kv => assoc_set (fst kv) (snd kv) d) ca_env credential_env) (if inspected : bool then egress_ca else "")).

(** The user data, as [build_cloud_init_iso] decides it. *)
Definition build_user_data (config : table) : res string :=
  vm_cfg ← vm_table config;
  guest_user ← _validated_guest_user vm_cfg;
  ci_cfg ← get_or vm_cfg "cloud_init" (TTab []);
  if String.eqb pubkey "" then Raise RuntimeError
  else if String.eqb host_private_key "" || String.eqb host_public_key "" then Raise RuntimeError
  else
    f ← get_or ci_cfg "user_data_file" (TBool false);
    if truthy f then custom_user_data config guest_user ci_cfg else default_user_data config guest_user vm_cfg.
End user_data.

(** ** Lines of a text *)

Lemma contains_search sub s : contains sub s = search (starts_with sub) s.
Proof. induction s as [|c s IH]; [done|]. cbn [contains search]. by rewrite IH. Qed.

(** What matches [m] followed by anything matches where [m] is. *)
Lemma search_at p a m b : (forall r, p (m +:+ r) = true) -> search p (a +:+ m +:+ b) = true.
Proof.
  intros H. induction a as [|c a IH]; [|cbn; by rewrite IH, orb_true_r]. change ("" +:+ m +:+ b) with (m +:+ b). destruct (m +:+ b) as [|d r] eqn:E; cbn [search]; rewrite <- E, H; done.
Qed.

Lemma join_mid sep l1 l l2 : l1 <> [] -> l2 <> [] -> join sep (l1 ++ l :: l2) = join sep l1 +:+ sep +:+ l +:+ sep +:+ join sep l2.
Proof.
  intros H1 H2. induction l1 as [|x l1 IH]; [done|]. destruct l1 as [|y l1].
  - cbn [app]. destruct l2 as [|z l2]; [done|]. cbn [join]. done.
  - cbn [app] in *. change (join sep (x :: y :: l1 ++ l :: l2)) with (x +:+ sep +:+ join sep (y :: l1 ++ l :: l2)). rewrite IH by done.
    change (join sep (x :: y :: l1)) with (x +:+ sep +:+ join sep (y :: l1)). by rewrite !app_assoc_str.
Qed.

Lemma lines_from_mid n : forall pre cur p l post, (String.length pre <= n)%nat -> no_break l = true -> l <> "" ->
  l ∈ lines_from cur p (pre +:+ String LF (l +:+ String LF post)).
Proof.
  induction n as [n IH] using lt_wf_ind. intros pre cur p l post Hn Hl Hne.
  assert (Hhere : l ∈ lines_from "" false (l +:+ String LF post)) by (rewrite lines_from_app by done; cbn; left).
  destruct pre as [|c pre]; [cbn; destruct (l +:+ String LF post); by right|]. cbn [String.length] in Hn. cbn [String.append lines_from].
  assert (Hrec : forall k pre', k = String.length pre' -> (k < n)%nat -> forall cur p, l ∈ lines_from cur p (pre' +:+ String LF (l +:+ String LF post))).
  { intros k pre' -> Hk cur' p'. eapply (IH (String.length pre')); [done|lia|done|done]. }
  destruct (is_linebreak c); [|apply (Hrec (String.length pre)); [done|lia]]. right. destruct pre as [|d pre].
  - cbn [String.append]. destruct (Ascii.eqb c CR && Ascii.eqb LF LF); [done|]. apply (Hrec O ""); [done|lia].
  - cbn [String.append String.length] in *. destruct (Ascii.eqb c CR && Ascii.eqb d LF).
    + apply (Hrec (String.length pre)); [done|lia].
    + apply (Hrec (S (String.length pre)) (String d pre)); [done|lia].
Qed.

Definition is_comment (l : string) : bool := starts_with "#" (lstrip_by is_space l).

(** A line in the middle of a text that is no comment is searched by the contract. *)
Lemma live_line p l1 l l2 a m b :
  l1 <> [] -> l2 <> [] -> no_break l = true -> l = a +:+ m +:+ b -> l <> "" -> is_comment l = false -> (forall r, p (m +:+ r) = true) ->
  search p (uncommented (join (chr LF) (l1 ++ l :: l2))) = true.
Proof.
  intros H1 H2 Hl El Hne Hc Hp. unfold uncommented. rewrite join_mid by done. set (t := join (chr LF) l1 +:+ chr LF +:+ l +:+ chr LF +:+ join (chr LF) l2).
  assert (Hin : l ∈ splitlines t) by (by apply (lines_from_mid (String.length (join (chr LF) l1)))).
  assert (Hk : l ∈ List.filter (fun l => negb (starts_with "#" (lstrip_by is_space l))) (splitlines t)).
  { apply list_elem_of_In, filter_In. split; [by apply list_elem_of_In|]. unfold is_comment in Hc. by rewrite Hc. }
  apply list_elem_of_split in Hk as (k1 & k2 & ->). clear Hin. rewrite El. clear -Hp.
  assert (E : exists x y, join (chr LF) (k1 ++ (a +:+ m +:+ b) :: k2) = x +:+ m +:+ y).
  { induction k1 as [|z k1 (x & y & IH)].
    - cbn [app]. destruct k2 as [|w k2]; [by exists a, b|]. exists a, (b +:+ chr LF +:+ join (chr LF) (w :: k2)). cbn [join]. by rewrite !app_assoc_str.
    - destruct (k1 ++ (a +:+ m +:+ b) :: k2) as [|w k] eqn:Ek; [by apply app_eq_nil in Ek as [_ ?]|]. cbn [app]. rewrite Ek.
      change (join (chr LF) (z :: w :: k)) with (z +:+ chr LF +:+ join (chr LF) (w :: k)). rewrite IH. exists (z +:+ chr LF +:+ x), y. by rewrite !app_assoc_str. }
  destruct E as (x & y & ->). by apply search_at.
Qed.

(** ** What [repr] writes *)

Lemma repr_char_no_break c : no_break (repr_char "'" c) = true /\ no_break (repr_char DQUOTE c) = true.
Proof. by destruct c as [[] [] [] [] [] [] [] []]. Qed.

Lemma map_chars_no_break f s : (forall c, no_break (f c) = true) -> no_break (map_chars f s) = true.
Proof. intros H. induction s as [|c s IH]; [done|]. cbn [map_chars]. by rewrite no_break_app, H, IH. Qed.

Lemma repr_no_break s : no_break (repr_str s) = true.
Proof.
  unfold repr_str. destruct (has_char "'" s && negb (has_char DQUOTE s)); rewrite !no_break_app, map_chars_no_break; try done; intros c; apply repr_char_no_break.
Qed.

(** A tag is quoted and otherwise as it is. *)
Lemma repr_tag t : all_chars is_tag_char t = true -> repr_str t = "'" +:+ t +:+ "'".
Proof.
  intros H. unfold repr_str. assert (Hq : has_char "'" t = false) by (by apply (all_chars_no_char is_tag_char)). rewrite Hq. cbn [andb]. f_equal. f_equal.
  induction t as [|c t IH]; [done|]. cbn in H. apply andb_prop in H as [Hc Ht]. cbn [map_chars]. rewrite IH; [|done|by apply (all_chars_no_char is_tag_char)].
  clear -Hc. destruct c as [[] [] [] [] [] [] [] []]; done.
Qed.

Lemma mount_line_no_break m : no_break (seed_mount_line m) = true.
Proof. unfold seed_mount_line. by rewrite !no_break_app, !repr_no_break. Qed.

(** ** The built-in seed *)

Section built_in.
Context (name guest_user pubkey : string) (mounts : list mount) (has_data_disk : bool) (host_private_key host_public_key : string)
        (guest_env : list (string * string)) (ca_cert : string).

Let lines := default_lines name guest_user pubkey mounts has_data_disk host_private_key host_public_key guest_env ca_cert.
Let text := render_default_user_data name guest_user pubkey mounts has_data_disk host_private_key host_public_key guest_env ca_cert.

(** A line of one of the blocks between the first lines and the last is in the middle. *)
Lemma default_middle l :
  l ∈ key_lines host_private_key host_public_key \/ l ∈ ca_file_lines ca_cert \/ l ∈ mounts_lines mounts ->
  exists l1 l2, lines = l1 ++ l :: l2 /\ l1 <> [] /\ l2 <> [].
Proof.
  intros H. assert (Hmid : exists pre post, lines = pre ++ post /\ pre <> [] /\ exists mid last, post = mid ++ last /\ last <> [] /\ l ∈ mid).
  { unfold lines, default_lines. eexists [_; _; _; _; _; _; _; _; _]. eexists. split; [reflexivity|]. split; [done|].
    exists (key_lines host_private_key host_public_key ++ ["write_files:"] ++ concat (map seed_file vm_ptp_kvm_seed_files) ++ ca_file_lines ca_cert ++ env_lines guest_env ++
            ca_trust_lines ca_cert ++ mounts_lines mounts ++ runcmd_lines has_data_disk). eexists. split; [by rewrite <- !app_assoc|]. split; [done|].
    destruct H as [H|[H|H]]; repeat (rewrite ?elem_of_app; first [by left|right]). }
  destruct Hmid as (pre & post & -> & Hpre & mid & lst & -> & Hlst & Hl). apply list_elem_of_split in Hl as (m1 & m2 & ->).
  exists (pre ++ m1), (m2 ++ lst). split; [by rewrite <- !app_assoc|]. split; [by destruct pre|by destruct m2].
Qed.

Lemma default_live p l a m b :
  l ∈ ca_file_lines ca_cert \/ l ∈ mounts_lines mounts -> no_break l = true -> l = a +:+ m +:+ b -> l <> "" -> is_comment l = false ->
  (forall r, p (m +:+ r) = true) -> search p (uncommented text) = true.
Proof.
  intros Hl Hb El Hne Hc Hp. destruct (default_middle l) as (l1 & l2 & E & H1 & H2); [tauto|]. unfold text, render_default_user_data. fold lines. rewrite E. by eapply live_line.
Qed.

Lemma default_has_key : host_private_key <> "" -> host_public_key <> "" -> contains "ed25519_private" text = true.
Proof.
  intros H1%String.eqb_neq H2%String.eqb_neq. destruct (default_middle "  ed25519_private: |") as (l1 & l2 & E & Hl1 & Hl2).
  { left. unfold key_lines. rewrite H1, H2. right. left. }
  unfold text, render_default_user_data. fold lines. rewrite E, join_mid by done. rewrite contains_search.
  change "  ed25519_private: |" with ("  " +:+ "ed25519_private" +:+ ": |"). rewrite !app_assoc_str. rewrite <- (app_assoc_str (join (chr LF) l1)), <- (app_assoc_str (_ +:+ chr LF)). apply search_at. intros r. apply starts_with_app.
Qed.

Lemma default_has_ca : ca_cert <> "" -> contains CA_BUNDLE_PATH (uncommented text) = true.
Proof.
  intros H%String.eqb_neq. rewrite contains_search. apply (default_live _ ("  - path: " +:+ CA_BUNDLE_PATH) "  - path: " CA_BUNDLE_PATH ""); try done.
  left. unfold ca_file_lines. rewrite H. left.
Qed.

Lemma mount_listed m : m ∈ mounts -> seed_mount_line m ∈ mounts_lines mounts.
Proof. intros H. unfold mounts_lines. destruct mounts as [|m' ms]; [by apply elem_of_nil in H|]. cbn [nonempty when]. right. apply list_elem_of_fmap. eauto. Qed.

Lemma default_has_tag m : m ∈ mounts -> all_chars is_tag_char (m_tag m) = true -> contains (m_tag m) (uncommented text) = true.
Proof.
  intros Hm Ht. rewrite contains_search. eapply (default_live _ (seed_mount_line m) "  - ['" (m_tag m)); [right; by apply mount_listed|apply mount_line_no_break| |done|done|intros r; apply starts_with_app].
  unfold seed_mount_line. rewrite repr_tag by done. rewrite !app_assoc_str. done.
Qed.

Lemma default_has_context m : m ∈ mounts -> m_opts m = "rw,context=" +:+ q +:+ VM_HOME_SELINUX_CONTEXT +:+ q -> names_home_context (uncommented text) = true.
Proof.
  intros Hm Ho. unfold names_home_context.
  eapply (default_live _ (seed_mount_line m) ("  - [" +:+ repr_str (m_tag m) +:+ ", " +:+ repr_str (m_path m) +:+ ", " +:+ repr_str (m_type m) +:+ ", 'rw,")
    ("context=" +:+ q +:+ "system_u:object_r:user_home_t:")); [right; by apply mount_listed|apply mount_line_no_break| |done|done|intros r; reflexivity].
  unfold seed_mount_line. rewrite Ho. rewrite !app_assoc_str. repeat f_equal.
Qed.
End built_in.

(** ** Every seed meets the contract *)

Section contract.
Context (b64encode : string -> string) (name : string) (uid : Z) (pubkey host_private_key host_public_key egress_ca : string)
        (user_data_file : option string) (environ : list (string * string)) (encrypted : string -> option (option string)) (plain : string -> option string).

Let contract := seed_contract b64encode host_private_key.
Let build := build_user_data b64encode name uid pubkey host_private_key host_public_key egress_ca user_data_file environ encrypted plain.

Lemma each_res_not {A} (f : A -> res unit) l e : (forall x, x ∈ l -> f x <> Raise e) -> each_res f l <> Raise e.
Proof.
  induction l as [|x l IH]; intros H; [done|]. cbn [each_res]. specialize (H x ltac:(by left)) as Hx. destruct (f x) as [[]|e']; cbn; [|congruence]. apply IH. intros y Hy. apply H. by right.
Qed.

Lemma tagged_tag specs t spec : Z.of_nat (length specs) < 10 ^ 9 -> (t, spec) ∈ tagged specs -> all_chars is_tag_char t = true /\ spec ∈ specs.
Proof.
  intros Hn Hin. destruct (virtiofs_tags_spec specs Hn) as (tags & E & _ & _ & Hf & _). unfold tagged in Hin. rewrite E in Hin. cbn in Hin. apply list_elem_of_In in Hin.
  split; [|eapply list_elem_of_In, in_combine_r; exact Hin]. apply in_combine_l, list_elem_of_In in Hin. rewrite Forall_forall in Hf. by apply Hf.
Qed.

Lemma get_or_raises v k d : get_or v k d <> Raise SeedContractError.
Proof. by destruct v. Qed.

Lemma contains_key_raises k v : contains_key k v <> Raise SeedContractError.
Proof. by destruct v. Qed.

Lemma bind_raises {A B} (m : res A) (f : A -> res B) e : m <> Raise e -> (forall a, m = Ok a -> f a <> Raise e) -> (x ← m; f x) <> Raise e.
Proof. intros Hm Hf. destruct m; cbn; [by apply Hf|congruence]. Qed.

(** The volumes over the guest's home have the options they are given when they name none. *)
Definition plain_homes (specs : list string) (home : pypath) : Prop :=
  forall spec, spec ∈ specs -> covers_guest_home (snd (fst (parse_volume_spec spec))) home = true -> snd (parse_volume_spec spec) = "rw".

Lemma default_meets_contract config guest_user vm_cfg text :
  vm_table config = Ok vm_cfg -> host_private_key <> "" -> host_public_key <> "" -> (vm_uses_inspect config = Ok true -> egress_ca <> "") ->
  (forall specs, volume_specs vm_cfg = Ok specs -> Z.of_nat (length specs) < 10 ^ 9 /\ plain_homes specs (guest_home guest_user)) ->
  default_user_data name pubkey host_private_key host_public_key egress_ca config guest_user vm_cfg = Ok text -> contract config guest_user text <> Raise SeedContractError.
Proof.
  intros Hvm Hk1 Hk2 Hca Hvol Hd. unfold default_user_data in Hd. unfold contract, seed_contract. rewrite Hvm. cbn [mbind res_bind].
  assert (Hspecs : volume_specs vm_cfg = (v ← get_or vm_cfg "volumes" (TArr []); if truthy v then spec_list v else Ok [])) by done.
  destruct (get_or vm_cfg "volumes" (TArr [])) as [v|]; [|done]. cbn [mbind res_bind] in Hd, Hspecs. destruct (spec_list v) as [specs|] eqn:Ev; [|done]. cbn [mbind res_bind] in Hd.
  destruct (get_or vm_cfg "data_disk_size" _) as [size|]; [|done]. cbn [mbind res_bind] in Hd. destruct (vm_ca_env config) as [ca_env|]; [|done]. cbn [mbind res_bind] in Hd.
  destruct (vm_credential_env config) as [cred|]; [|done]. cbn [mbind res_bind] in Hd. destruct (vm_uses_inspect config) as [inspected|] eqn:Ei; [|done]. cbn [mbind res_bind] in Hd.
  apply Ok_inj in Hd. subst text. set (text := render_default_user_data _ _ _ _ _ _ _ _ _).
  apply bind_raises; [apply get_or_raises|intros ci _].
  rewrite (default_has_key name guest_user pubkey _ _ _ _ _ _ Hk1 Hk2 : contains "ed25519_private" text = true). cbn [negb andb]. rewrite andb_false_r. cbn [andb].
  apply bind_raises; [apply get_or_raises|intros p _]. cbn [mbind res_bind]. apply bind_raises; [apply contains_key_raises|intros no_ca _].
  assert (Ec : VM_CA_BUNDLE_AVAILABLE && inspected && negb no_ca && negb (contains CA_BUNDLE_PATH (uncommented text)) = false).
  { destruct inspected; [|done]. unfold text. rewrite default_has_ca by (by apply Hca). by rewrite andb_false_r. }
  rewrite Ec. apply bind_raises; [apply contains_key_raises|intros no_mounts _]. destruct no_mounts; [done|]. rewrite Hspecs. destruct (truthy v) eqn:Etv; [|done]. cbn [mbind res_bind].
  destruct (Hvol specs) as [Hn Hhome]; [by rewrite Hspecs|]. apply each_res_not. intros [tag spec] Hin. destruct (tagged_tag specs tag spec Hn Hin) as [Htag Hspec]. unfold volume_contract.
  set (m := mkMount tag (snd (fst (parse_volume_spec spec))) "virtiofs" (virtiofs_mount_opts (snd (fst (parse_volume_spec spec))) (snd (parse_volume_spec spec)) (guest_home guest_user))).
  assert (Hm : m ∈ default_mounts specs (guest_home guest_user)).
  { apply list_elem_of_fmap. exists (tag, spec). split; [|done]. cbn [fst snd]. unfold m. by destruct (parse_volume_spec spec) as [[? ?] ?]. }
  rewrite (default_has_tag name guest_user pubkey _ _ _ _ _ _ m Hm Htag : contains tag (uncommented text) = true). cbn [negb]. apply bind_raises; [apply contains_key_raises|intros opted _].
  destruct (covers_guest_home _ _) eqn:Eh; [|by rewrite andb_false_r].
  rewrite (default_has_context name guest_user pubkey _ _ _ _ _ _ m Hm : _ -> names_home_context (uncommented text) = true); [by rewrite andb_false_r|].
  unfold m, virtiofs_mount_opts. cbn [m_opts]. rewrite Eh, (Hhome spec Hspec Eh). done.
Qed.

(** What the built-in user data contains. *)
Lemma default_contents config guest_user vm_cfg text :
  host_private_key <> "" -> host_public_key <> "" -> (vm_uses_inspect config = Ok true -> egress_ca <> "") ->
  (forall specs, volume_specs vm_cfg = Ok specs -> Z.of_nat (length specs) < 10 ^ 9 /\ plain_homes specs (guest_home guest_user)) ->
  default_user_data name pubkey host_private_key host_public_key egress_ca config guest_user vm_cfg = Ok text ->
  contains "ed25519_private" text = true /\
  (vm_uses_inspect config = Ok true -> contains CA_BUNDLE_PATH (uncommented text) = true) /\
  forall specs tag spec, volume_specs vm_cfg = Ok specs -> (tag, spec) ∈ tagged specs ->
    contains tag (uncommented text) = true /\
    (covers_guest_home (snd (fst (parse_volume_spec spec))) (guest_home guest_user) = true -> names_home_context (uncommented text) = true).
Proof.
  intros Hk1 Hk2 Hca Hvol Hd. unfold default_user_data in Hd.
  assert (Hspecs : volume_specs vm_cfg = (v ← get_or vm_cfg "volumes" (TArr []); if truthy v then spec_list v else Ok [])) by done.
  destruct (get_or vm_cfg "volumes" (TArr [])) as [v|]; [|done]. cbn [mbind res_bind] in Hd, Hspecs. destruct (spec_list v) as [specs|] eqn:Ev; [|done]. cbn [mbind res_bind] in Hd.
  destruct (get_or vm_cfg "data_disk_size" _) as [size|]; [|done]. cbn [mbind res_bind] in Hd. destruct (vm_ca_env config) as [ca_env|]; [|done]. cbn [mbind res_bind] in Hd.
  destruct (vm_credential_env config) as [cred|]; [|done]. cbn [mbind res_bind] in Hd. destruct (vm_uses_inspect config) as [inspected|] eqn:Ei; [|done]. cbn [mbind res_bind] in Hd.
  apply Ok_inj in Hd. subst text. split_and!.
  - by apply default_has_key.
  - intros Hin. apply Ok_inj in Hin as ->. apply default_has_ca. by apply Hca.
  - intros specs' tag spec Hs Hin. rewrite Hspecs in Hs. destruct (truthy v) eqn:Etv.
    + apply Ok_inj in Hs as <-. destruct (Hvol specs) as [Hn Hhome]; [by rewrite Hspecs|]. destruct (tagged_tag specs tag spec Hn Hin) as [Htag Hspec].
      set (m := mkMount tag (snd (fst (parse_volume_spec spec))) "virtiofs" (virtiofs_mount_opts (snd (fst (parse_volume_spec spec))) (snd (parse_volume_spec spec)) (guest_home guest_user))).
      assert (Hm : m ∈ default_mounts specs (guest_home guest_user)).
      { apply list_elem_of_fmap. exists (tag, spec). split; [|done]. cbn [fst snd]. unfold m. by destruct (parse_volume_spec spec) as [[? ?] ?]. }
      split; [by apply (default_has_tag name guest_user pubkey _ _ _ _ _ _ m Hm Htag)|]. intros Eh.
      apply (default_has_context name guest_user pubkey _ _ _ _ _ _ m Hm). unfold m, virtiofs_mount_opts. cbn [m_opts]. by rewrite Eh, (Hhome spec Hspec Eh).
    + apply Ok_inj in Hs as <-. by apply not_elem_of_nil in Hin.
Qed.

End contract.

(** ** Samples *)

Module Field.
Definition config (volumes : list string) (more : table) : table :=
  [("workload", TTab [("name", TStr "dev")]);
   ("vm", TTab ([("memory", TStr "2G"); ("volumes", TArr (map TStr volumes)); ("network", TTab [("egress", TStr "filtered")])] ++ more))].

Definition b64 (s : string) : string := "b64:" +:+ s.
Definition key : string := "-----BEGIN-----" +:+ chr LF +:+ "abc" +:+ chr LF.

Definition build (file : option string) (config : table) : res string :=
  build_user_data b64 "dev" 10001 "ssh-ed25519 AAA" key "ssh-ed25519 BBB" "CERT" file [] (fun _ => None) (fun _ => None) config.

Definition custom : table := [("cloud_init", TTab [("user_data_file", TStr "user-data"); ("seed_provides", TArr [TStr "ca"])])].

(** A template whose block with the host key is commented out: it mentions the key. *)
Definition commented : string := "#cloud-config" +:+ chr LF +:+ "# ssh_keys:" +:+ chr LF +:+ "#   ed25519_private: later" +:+ chr LF.

Lemma commented_key_is_accepted : build (Some commented) (config [] custom) = Ok commented /\ contains "ed25519_private" (uncommented commented) = false.
Proof. split; vm_compute; reflexivity. Qed.

(** A home shared read-only keeps its options, so the built-in seed gives it no label. *)
Lemma read_only_home_is_unlabelled :
  match build None (config ["data/home:/home/workload:ro"] []) with
  | Ok text => seed_contract b64 key (config ["data/home:/home/workload:ro"] []) "workload" text = Raise SeedContractError
  | Raise _ => False
  end.
Proof. vm_compute. reflexivity. Qed.

(** The pattern for the guest's user lets a final newline through. *)
Lemma newline_user_is_accepted : _validated_guest_user (TTab [("user", TStr ("dev" +:+ chr LF))]) = Ok ("dev" +:+ chr LF).
Proof. vm_compute. reflexivity. Qed.
End Field.

