(* ===== verification/Ensure.v ===== *)
(** * Provisioning a workload: [lib/ensure_user.py]

    [provision] runs the steps of a workload's kind in order; some may fail with a warning,
    the others end it.  The steps are modelled in [SafePaths], [VmProvision], [VmSeed],
    [Cleanup] and [WorkloadUid]; here a step is its name, and which steps fail, and how, is
    a parameter.  The world is the steps that were run. *)
From S2P Require Import Prelude PyStr Toml WorkloadConfig NetworkConfig.
Local Open Scope Z_scope.

Inductive step :=
  | StaleHome | BaseDir | Home | Provenance
  | Nvram | RuntimeDir | VmVolumes | SshKeypair | HomeShareKey | HostKeypair | EgressCa | PkiDirs | CloudInitIso
  | Labels | EnvFile
  | Subids | Volumes | RequiredFiles | Linger | ManagerSlice.

#[export] Instance step_eq_dec : EqDecision step.
Proof. solve_decision. Defined.

(** What the failure of a step means. *)
Inductive severity := Warned | Needed | Contract.

#[export] Instance severity_eq_dec : EqDecision severity.
Proof. solve_decision. Defined.

Definition SEED_CONTRACT_EXIT : Z := 2.

Section provision.
Variable fails : step -> option exn.
(** The workload's user exists; its configuration, when that loads. *)
Variable user_exists : bool.
Variable config : option table.

Definition run_step (s : step) : io (list step) unit := fun w => (w ++ [s], match fails s with Some e => Raise e | None => Ok tt end).

(** A step whose failure is logged. *)
Definition warned (s : step) (k : io (list step) Z) : io (list step) Z := _ ← try_io (run_step s) (fun _ => true) (fun _ => mret tt); k.

(** A step whose failure ends provisioning. *)
Definition required (s : step) (k : io (list step) Z) : io (list step) Z :=
  r ← (fun w => let '(w', r) := run_step s w in (w', Ok r));
  match r with Ok _ => k | Raise _ => mret 1 end.

Definition cloud_init_iso (k : io (list step) Z) : io (list step) Z :=
  r ← (fun w => let '(w', r) := run_step CloudInitIso w in (w', Ok r));
  match r with Ok _ => k | Raise SeedContractError => mret SEED_CONTRACT_EXIT | Raise _ => mret 1 end.

Definition provision_vm (config : table) : io (list step) Z :=
  required Nvram (warned RuntimeDir (warned VmVolumes (required SshKeypair (required HomeShareKey (required HostKeypair (
    inspected ← pure (vm_uses_inspect config);
    let rest := cloud_init_iso (warned Labels (warned EnvFile (mret 0))) in
    if inspected : bool then required EgressCa (required PkiDirs rest) else rest)))))).

Definition provision_container (config : table) : io (list step) Z :=
  required Subids (
    inspected ← pure (container_uses_inspect config);
    let rest := required Volumes (required RequiredFiles (required EnvFile (warned Labels (required Linger (warned ManagerSlice (mret 0)))))) in
    if inspected : bool then required RuntimeDir (required EgressCa (required PkiDirs rest)) else rest).

Definition provision : io (list step) Z :=
  if negb user_exists then mret 1
  else warned StaleHome (
    _ ← run_step BaseDir;
    match config with
    | None => mret 1
    | Some config =>
        warned Home (
          _ ← (fun w => (w ++ [Provenance], Ok tt));
          match infer_workload_kind config with KVm => provision_vm config | KContainer => provision_container config end)
    end).

(** ** The plan *)

(** What is done for a kind of workload, and what its failure means. *)
Definition plan (k : kind) (inspected : bool) : list (step * severity) :=
  [(StaleHome, Warned); (BaseDir, Needed); (Home, Warned); (Provenance, Warned)] ++
  match k with
  | KVm => [(Nvram, Needed); (RuntimeDir, Warned); (VmVolumes, Warned); (SshKeypair, Needed); (HomeShareKey, Needed); (HostKeypair, Needed)] ++
           when inspected [(EgressCa, Needed); (PkiDirs, Needed)] ++ [(CloudInitIso, Contract); (Labels, Warned); (EnvFile, Warned)]
  | KContainer => [(Subids, Needed)] ++ when inspected [(RuntimeDir, Needed); (EgressCa, Needed); (PkiDirs, Needed)] ++
           [(Volumes, Needed); (RequiredFiles, Needed); (EnvFile, Needed); (Labels, Warned); (Linger, Needed); (ManagerSlice, Warned)]
  end.

(** The status a step ends provisioning with, if it does. *)
Definition stops (p : step * severity) : option Z :=
  match snd p, fails (fst p) with
  | Warned, _ | _, None => None
  | Needed, Some _ => Some 1
  | Contract, Some e => Some (if bool_decide (e = SeedContractError) then SEED_CONTRACT_EXIT else 1)
  end.

(** The steps up to the first that ends it, and the status. *)
Fixpoint carried (l : list (step * severity)) : list step * Z :=
  match l with
  | [] => ([], 0)
  | p :: l => match stops p with Some c => ([fst p], c) | None => let '(done, c) := carried l in (fst p :: done, c) end
  end.

Definition perform (p : step * severity) (k : io (list step) Z) : io (list step) Z :=
  match snd p with Warned => warned (fst p) k | Needed => required (fst p) k | Contract => cloud_init_iso k end.

Lemma perform_plan l k w : Forall (fun p => snd p = Contract -> fst p = CloudInitIso) l ->
  (forall w, k w = (w, Ok 0)) -> foldr perform k l w = (w ++ fst (carried l), Ok (snd (carried l))).
Proof.
  intros Hl Hk. revert w. induction Hl as [|[s sev] l Hs Hl IH]; intros w; [cbn; by rewrite Hk, app_nil_r|]. cbn [foldr carried]. generalize dependent (foldr perform k l). intros rest IH.
  unfold stops, perform. cbn [fst snd] in *.
  destruct sev; [| |rewrite (Hs eq_refl)]; unfold warned, required, cloud_init_iso, run_step, try_io; cbv [mbind io_bind].
  - destruct (fails s); cbv [mret io_ret]; rewrite IH; destruct (carried l); cbn; by rewrite <- app_assoc.
  - destruct (fails s); [done|]. rewrite IH. destruct (carried l). cbn. by rewrite <- app_assoc.
  - destruct (fails CloudInitIso) as [e|]; [by destruct e|]. rewrite IH. destruct (carried l). cbn. by rewrite <- app_assoc.
Qed.

Definition inspected_by (k : kind) (config : table) : res bool := match k with KVm => vm_uses_inspect config | KContainer => container_uses_inspect config end.

(** The provisioning of a configured workload is its plan, cut at the first step it needs
    and that fails. *)
Lemma provision_is_plan c b :
  user_exists = true -> config = Some c -> fails BaseDir = None -> fails Provenance = None -> inspected_by (infer_workload_kind c) c = Ok b ->
  provision [] = (fst (carried (plan (infer_workload_kind c) b)), Ok (snd (carried (plan (infer_workload_kind c) b)))).
Proof.
  intros Hu Hc Hbase Hprov Hi. assert (E : provision [] = foldr perform (mret 0) (plan (infer_workload_kind c) b) []).
  { unfold provision. rewrite Hu, Hc. cbn [negb]. unfold plan. rewrite foldr_app. set (rest := foldr perform (mret 0) _).
    assert (Er : forall w, (match infer_workload_kind c with KVm => provision_vm c | KContainer => provision_container c end) w = rest w).
    { intros w. unfold rest. destruct (infer_workload_kind c); cbn [inspected_by] in Hi; unfold provision_vm, provision_container; rewrite Hi; by destruct b. }
    cbn [foldr perform fst snd]. unfold warned, required, run_step, try_io. cbv [mbind io_bind]. rewrite Hbase, Hprov. destruct (fails StaleHome), (fails Home); cbn; apply Er. }
  rewrite E, perform_plan; [by rewrite app_nil_l| |done]. destruct (infer_workload_kind c), b; repeat constructor; by intros [=].
Qed.

Lemma carried_cases l :
  (snd (carried l) = 0 /\ fst (carried l) = map fst l /\ Forall (fun p => stops p = None) l) \/
  (exists l1 p l2 c, l = l1 ++ p :: l2 /\ Forall (fun p => stops p = None) l1 /\ stops p = Some c /\ carried l = (map fst l1 ++ [fst p], c)).
Proof.
  induction l as [|p l IH]; [by left|]. cbn [carried]. destruct (stops p) as [c|] eqn:E.
  - right. exists [], p, l, c. done.
  - destruct IH as [(H0 & H1 & H2)|(l1 & p' & l2 & c & -> & H1 & H2 & H3)].
    + left. destruct (carried l) as [ran st]. cbn in *. subst. split_and!; [done|done|by constructor].
    + right. exists (p :: l1), p', l2, c. rewrite H3. split_and!; [done|by constructor|done|done].
Qed.

Lemma stops_nonzero p c : stops p = Some c -> c <> 0.
Proof. unfold stops. destruct (snd p), (fails (fst p)); try done; [by intros [= <-]|]. destruct (bool_decide _); by intros [= <-]. Qed.

(** A step that was reached had every needed step before it succeed. *)
Lemma reached_after l l1 s sev l2 s' : l = l1 ++ (s, sev) :: l2 -> s ∉ map fst l1 -> s ∈ fst (carried l) -> (s', Needed) ∈ l1 -> fails s' = None.
Proof.
  intros El Hs Hin Hs'. assert (Hst : Forall (fun p => stops p = None) l1).
  { subst l. clear Hs'. revert Hin. induction l1 as [|p l1 IH]; intros Hin; [done|]. cbn [app carried map] in *. apply not_elem_of_cons in Hs as [Hp Hs]. destruct (stops p) eqn:E.
    - cbn in Hin. by apply list_elem_of_singleton in Hin.
    - destruct (carried (l1 ++ (s, sev) :: l2)) as [ran c]. cbn in *. apply elem_of_cons in Hin as [?|Hin]; [done|]. constructor; [done|]. by apply IH. }
  rewrite Forall_forall in Hst. apply Hst in Hs'. unfold stops in Hs'. cbn in Hs'. by destruct (fails s').
Qed.

Definition before_iso (inspected : bool) : list (step * severity) := take (length (plan KVm inspected) - 3) (plan KVm inspected).

Lemma vm_plan_split b : plan KVm b = before_iso b ++ (CloudInitIso, Contract) :: [(Labels, Warned); (EnvFile, Warned)].
Proof. by destruct b. Qed.

(** C21.  A run that ends with 0 has done every step of its plan, and none that is needed has
    failed; any other status is that of the last step it ran.  A seed is only built
    when the keys and the CA that go into it are there. *)
Theorem provisioning_is_complete_or_reported c b ran status :
  user_exists = true -> config = Some c -> fails BaseDir = None -> fails Provenance = None -> inspected_by (infer_workload_kind c) c = Ok b ->
  provision [] = (ran, Ok status) ->
  (status = 0 -> ran = map fst (plan (infer_workload_kind c) b) /\ forall s sev, (s, sev) ∈ plan (infer_workload_kind c) b -> sev <> Warned -> fails s = None) /\
  (status <> 0 -> exists p, p ∈ plan (infer_workload_kind c) b /\ last ran = Some (fst p) /\ stops p = Some status) /\
  (CloudInitIso ∈ ran -> fails SshKeypair = None /\ fails HostKeypair = None /\ (b = true -> fails EgressCa = None /\ fails PkiDirs = None)).
Proof.
  intros Hu Hc Hb Hp Hi. rewrite (provision_is_plan c b) by done. remember (plan (infer_workload_kind c) b) as l eqn:Hl. intros [= <- <-]. split_and!.
  - intros H. destruct (carried_cases l) as [(_ & H1 & H2)|(l1 & p & l2 & st & _ & _ & H2 & H3)]; [|apply stops_nonzero in H2; by rewrite H3 in H].
    split; [done|]. intros s sev Hin Hsev. rewrite Forall_forall in H2. apply H2 in Hin. unfold stops in Hin. cbn in Hin. by destruct sev, (fails s).
  - intros H. destruct (carried_cases l) as [(H0 & _)|(l1 & p & l2 & st & El & _ & H2 & H3)]; [done|]. exists p. rewrite H3. cbn [fst snd]. split_and!; [|by rewrite last_snoc|done].
    rewrite El. apply elem_of_app. right. left.
  - intros Hin. subst l. destruct (infer_workload_kind c) eqn:Ek.
    + assert (Hn : forall s, (s, Needed) ∈ before_iso b -> fails s = None).
      { intros s Hs. eapply (reached_after _ (before_iso b)); [apply vm_plan_split| |exact Hin|exact Hs]. destruct b; by apply (bool_decide_unpack _). }
      split_and!; [apply Hn; destruct b; by apply (bool_decide_unpack _)|apply Hn; destruct b; by apply (bool_decide_unpack _)|]. intros ->. split; apply Hn; by apply (bool_decide_unpack _).
    + exfalso. assert (Hsub : forall l s, s ∈ fst (carried l) -> s ∈ map fst l).
      { clear. induction l as [|p l IH]; intros s; [done|]. cbn [carried map]. destruct (stops p); [cbn; rewrite list_elem_of_singleton; intros ->; left|]. destruct (carried l). cbn in *. rewrite !elem_of_cons. naive_solver. }
      apply Hsub in Hin. revert Hin. change (CloudInitIso ∉ map fst (plan KContainer b)). destruct b; by apply (bool_decide_unpack _).
Qed.
End provision.

Definition sample_vm : table := [("workload", TTab [("name", TStr "dev")]); ("vm", TTab [("network", TTab [("egress", TStr "filtered")])])].

Lemma provisioning_is_complete_or_reported_witness :
  let fails s := if bool_decide (s = VmVolumes) then Some OSError else if bool_decide (s = CloudInitIso) then Some SeedContractError else None in
  let ran := [StaleHome; BaseDir; Home; Provenance; Nvram; RuntimeDir; VmVolumes; SshKeypair; HomeShareKey; HostKeypair; EgressCa; PkiDirs; CloudInitIso] in
  provision fails true (Some sample_vm) [] = (ran, Ok 2) /\
  (exists p, p ∈ plan KVm true /\ last ran = Some (fst p) /\ stops fails p = Some 2) /\ fails EgressCa = None.
Proof.
  intros fails ran. assert (E : provision fails true (Some sample_vm) [] = (ran, Ok 2)) by (vm_compute; reflexivity).
  destruct (provisioning_is_complete_or_reported fails true (Some sample_vm) sample_vm true ran 2 eq_refl eq_refl eq_refl eq_refl eq_refl E) as (_ & H2 & H3).
  split; [exact E|]. split; [by apply H2|]. apply H3; [|reflexivity]. by apply (bool_decide_unpack _).
Defined.
