(* ===== verification/Secret.v ===== *)
(** * Credentials: [lib/cmd_secret.py]

    The verbs on the store of sealed credentials, and the portable file one is moved in.

    The store is a map of files by their parts below the store's directory.  Parameters:
    [systemd-creds], which binds what it seals to a name and compares that name when it
    opens the file, by default with the name of the file; [openssl enc], PBKDF2 and HMAC; the
    random salts; what is typed or piped; the declarations as [tomllib] reads them; and
    which restarts fail.  A command that fails leaves the file it was to write as it was,
    and [systemd-creds] fails on a directory.  Modes, sizes and dates are left out. *)
From S2P Require Import Prelude PyStr PyPath Toml SecretsTemplate Seccomp RunArgs.
Local Open Scope Z_scope.

(** ** The portable file *)

Definition SECRET_EXPORT_V2_MAGIC : string := "WLCTLsecret-v2" +:+ chr LF.
Definition _SECRET_MAC_SALT_LEN : nat := 16.
Definition _SECRET_MAC_LEN : nat := 32.

Section format.
(** [openssl enc] with the arguments of version 2 and of version 1. *)
Variable encrypt2 : string -> string -> string -> option string.
Variable decrypt2 : string -> string -> option string.
Variable decrypt1 : string -> string -> option string.
(** [HMAC-SHA256] under the key PBKDF2 derives from a passphrase and a salt. *)
Variable mac : string -> string -> string -> string.

(** A command that is run with [check=True]. *)
Definition checked (o : option string) : res string := match o with Some t => Ok t | None => Raise CalledProcessError end.

Definition _secret_export_encrypt_v2 (salt mac_salt plaintext passphrase : string) : res string :=
  ciphertext ← checked (encrypt2 salt passphrase plaintext);
  let tag := mac passphrase mac_salt (SECRET_EXPORT_V2_MAGIC +:+ mac_salt +:+ ciphertext) in
  Ok (SECRET_EXPORT_V2_MAGIC +:+ mac_salt +:+ tag +:+ ciphertext).

Definition _secret_export_decrypt (blob passphrase : string) : res string :=
  if starts_with SECRET_EXPORT_V2_MAGIC blob then
    let body := str_drop (String.length SECRET_EXPORT_V2_MAGIC) blob in
    let mac_salt := str_take _SECRET_MAC_SALT_LEN body in
    let tag := str_take _SECRET_MAC_LEN (str_drop _SECRET_MAC_SALT_LEN body) in
    let ciphertext := str_drop (_SECRET_MAC_SALT_LEN + _SECRET_MAC_LEN) body in
    if negb (String.eqb (mac passphrase mac_salt (SECRET_EXPORT_V2_MAGIC +:+ mac_salt +:+ ciphertext)) tag) then Raise ValueError
    else checked (decrypt2 passphrase ciphertext)
  else checked (decrypt1 passphrase blob).

Section laws.
Hypothesis opens : forall salt p t c, encrypt2 salt p t = Some c -> decrypt2 p c = Some t.
Hypothesis mac_length : forall p s m, String.length (mac p s m) = _SECRET_MAC_LEN.

(** The parts of a file of version 2. *)
Lemma body_parts a g c :
  String.length a = _SECRET_MAC_SALT_LEN -> String.length g = _SECRET_MAC_LEN ->
  str_take _SECRET_MAC_SALT_LEN (a +:+ g +:+ c) = a /\
  str_take _SECRET_MAC_LEN (str_drop _SECRET_MAC_SALT_LEN (a +:+ g +:+ c)) = g /\
  str_drop (_SECRET_MAC_SALT_LEN + _SECRET_MAC_LEN) (a +:+ g +:+ c) = c.
Proof. intros <- <-. rewrite str_drop_drop, !str_drop_app. split_and!; [apply str_take_app_l..|done]. Qed.

(** What is exported is read back with the same passphrase. *)
Lemma export_reads_back salt mac_salt t p blob :
  String.length mac_salt = _SECRET_MAC_SALT_LEN -> _secret_export_encrypt_v2 salt mac_salt t p = Ok blob -> _secret_export_decrypt blob p = Ok t.
Proof.
  intros Hs H. apply bind_Ok_inv in H as (c & Hc & H). apply Ok_inj in H as <-. unfold _secret_export_decrypt. rewrite starts_with_app, str_drop_app.
  destruct (body_parts mac_salt (mac p mac_salt (SECRET_EXPORT_V2_MAGIC +:+ mac_salt +:+ c)) c Hs (mac_length _ _ _)) as (-> & -> & ->).
  rewrite String.eqb_refl. cbn [negb]. destruct (encrypt2 salt p t) eqn:E; [|done]. injection Hc as ->. by rewrite (opens _ _ _ _ E).
Qed.

(** A file of version 2 that is accepted carries the tag of its own salt and ciphertext. *)
Lemma accepted_is_tagged blob p t :
  starts_with SECRET_EXPORT_V2_MAGIC blob = true -> _secret_export_decrypt blob p = Ok t ->
  exists s c, blob = SECRET_EXPORT_V2_MAGIC +:+ s +:+ mac p s (SECRET_EXPORT_V2_MAGIC +:+ s +:+ c) +:+ c /\ decrypt2 p c = Some t.
Proof.
  intros Hm. unfold _secret_export_decrypt. rewrite Hm. set (body := str_drop _ blob). set (s := str_take _ body). set (c := str_drop (_ + _) body).
  destruct (String.eqb_spec (mac p s (SECRET_EXPORT_V2_MAGIC +:+ s +:+ c)) (str_take _SECRET_MAC_LEN (str_drop _SECRET_MAC_SALT_LEN body))) as [E|]; [|done]. cbn [negb]. intros H. exists s, c. split.
  - apply starts_with_spec in Hm as [r Hr]. assert (Eb : body = r) by (unfold body; by rewrite Hr, str_drop_app). rewrite E, Hr. f_equal. rewrite <- Eb. unfold s, c.
    rewrite str_drop_drop, str_take_drop. by rewrite str_take_drop.
  - unfold checked in H. destruct (decrypt2 p c); [by injection H as ->|done].
Qed.
End laws.
End format.

(** ** What is typed and piped *)

Definition _strip_trailing_newline (text : string) : string :=
  let n := String.length text in
  if String.eqb (str_drop (n - 2) text) (chr CR +:+ chr LF) then str_take (n - 2) text
  else if ends_with_char LF text then str_take (n - 1) text else text.

(** Where a passphrase comes from: standard input or a file, as they decode, or two prompts. *)
Inductive pass_source := PassStdin (text : res string) | PassFile (text : res string) | Prompted (first second : string).

Definition _read_passphrase (src : pass_source) (confirm : bool) : res string :=
  p ← match src with
      | PassStdin m => _strip_trailing_newline <$> m
      | PassFile (Raise e) => Raise (if is_oserror e then SystemExit else e)
      | PassFile (Ok t) => Ok (_strip_trailing_newline t)
      | Prompted a b => if confirm && negb (String.eqb a b) then Raise SystemExit else Ok a
      end;
  if String.eqb p "" then Raise SystemExit else if has_char LF p || has_char CR p then Raise SystemExit else Ok p.

Inductive value_source := NoStdin | Piped (bytes : string) | Typed (first second : string).

Definition _read_secret_value (src : value_source) : res string :=
  match src with
  | NoStdin => Raise SystemExit
  | Piped b => Ok b
  | Typed a b => if negb (String.eqb a b) then Raise SystemExit else if String.eqb a "" then Raise SystemExit else Ok a
  end.

(** ** The store *)

(** The files and directories of the store; the exported files; the workloads restarted. *)
Record shost := mkS { sh_creds : gmap (list string) string; sh_dirs : gset (list string); sh_files : gmap string string; sh_restarted : list string }.

Definition slook {A} (f : shost -> A) : io shost A := fun w => (w, Ok (f w)).
Definition schange (f : shost -> shost) : io shost unit := fun w => (f w, Ok tt).
Definition fail_unless (b : bool) (e : exn) : io shost unit := pure (if b then Ok tt else Raise e).

Definition set_creds (g : gmap (list string) string -> gmap (list string) string) (w : shost) : shost :=
  mkS (g (sh_creds w)) (sh_dirs w) (sh_files w) (sh_restarted w).

Definition CREDENTIAL_SCOPES : list string := ["broker"].

(** The name a file of the store is listed by. *)
Definition listed_name (f : list string) : option string :=
  match f with
  | [n] => Some n
  | [scope; w; leaf] => if bool_decide (scope ∈ CREDENTIAL_SCOPES) then Some (scope +:+ "/" +:+ w +:+ "/" +:+ leaf) else None
  | _ => None
  end.

(** The parts of a file are those of the name it is listed by. *)
Definition iter_credentials (w : shost) : list (string * list string) :=
  map (fun n => (n, split_on "/" n)) (py_sorted (omap (fun p => listed_name (fst p)) (map_to_list (sh_creds w)))).

Section verbs.
Variable is_root : bool.
Variable cred_dir : pypath.
(** [systemd-creds encrypt --with-key=<k> --name=<n>], and [decrypt] comparing with a name. *)
Variable seal : string -> string -> string -> option string.
Variable unseal : string -> string -> option string.
Variable encrypt2 : string -> string -> string -> option string.
Variable decrypt2 : string -> string -> option string.
Variable decrypt1 : string -> string -> option string.
Variable mac : string -> string -> string -> string.
(** The salts; decoding; which exported files can be written; the declarations; which restarts succeed. *)
Variable urandom : string * string.
Variable decode : string -> res string.
Variable writable : string -> bool.
Variable configs : list (option table).
Variable restarts : string -> bool.

(** The file of a credential, by its parts below the store, and the name it is sealed under. *)
Definition located (name : string) : res (list string * string) :=
  match credential_path cred_dir name with
  | Ok (f, seal_name) => Ok (drop (length (parts cred_dir)) (parts f), seal_name)
  | Raise _ => Raise SystemExit
  end.

Definition is_file (w : shost) (f : list string) : bool := bool_decide (is_Some (sh_creds w !! f)).
Definition cred_exists (w : shost) (f : list string) : bool := is_file w f || bool_decide (f ∈ sh_dirs w).

(** The directories above a file, below the store. *)
Definition above (f : list string) : list (list string) := map (fun n => take n f) (seq 1 (length f - 1)).

(** [cred_file.parent.mkdir(parents=True, exist_ok=True)] *)
Definition make_parents (f : list string) : io shost unit :=
  clash ← slook (fun w => List.filter (is_file w) (above f));
  match clash with
  | [] => schange (fun w => mkS (sh_creds w) (sh_dirs w ∪ list_to_set (above f)) (sh_files w) (sh_restarted w))
  | d :: _ => pure (Raise (if bool_decide (Some d = last (above f)) then FileExistsError else OSError))
  end.

Definition key_type (k : option string) : string := match k with Some s => if String.eqb s "" then "tpm2" else s | None => "tpm2" end.

(** [systemd-creds encrypt ... <file>], under [check=True] and the handler that exits. *)
Definition seal_to (k : option string) (seal_name : string) (f : list string) (value : string) : io shost unit :=
  in_the_way ← slook (fun w => bool_decide (f ∈ sh_dirs w));
  match seal (key_type k) seal_name value with
  | Some blob => if (in_the_way : bool) then pure (Raise SystemExit) else schange (set_creds (<[f := blob]>))
  | None => pure (Raise SystemExit)
  end.

(** [systemd-creds decrypt <file> -], without a name: that of the file. *)
Definition unsealed (f : list string) : io shost string :=
  o ← slook (fun w => blob ← sh_creds w !! f; n ← last f; unseal n blob);
  pure (match o with Some t => Ok t | None => Raise SystemExit end).

(** [file] is what [--file] holds, if it can be read. *)
Definition secret_create (name : string) (force : bool) (k : option string) (file : option (option string)) (src : value_source) : io shost unit :=
  '(f, seal_name) ← pure (located name);
  _ ← fail_unless is_root NotRoot;
  there ← slook (fun w => cred_exists w f);
  _ ← fail_unless (negb there || force) SystemExit;
  _ ← make_parents f;
  value ← pure (match file with Some (Some t) => Ok t | Some None => Raise SystemExit | None => _read_secret_value src end);
  seal_to k seal_name f value.

(** The answer to the question, when it is asked. *)
Definition secret_delete (name : string) (force : bool) (answer : string) : io shost unit :=
  '(f, _) ← pure (located name);
  _ ← fail_unless is_root NotRoot;
  there ← slook (fun w => cred_exists w f);
  _ ← fail_unless there SystemExit;
  if force || String.eqb answer "y" || String.eqb answer "Y" then
    file ← slook (fun w => is_file w f);
    if (file : bool) then schange (set_creds (delete f)) else pure (Raise OSError)
  else mret tt.

Definition secret_show (name : string) : io shost string :=
  '(f, _) ← pure (located name);
  _ ← fail_unless is_root NotRoot;
  there ← slook (fun w => cred_exists w f);
  _ ← fail_unless there SystemExit;
  t ← unsealed f; pure (decode t).

(** The workload a declaration names when it demands the credential; [None] also for one
    that cannot be restarted because its name is no string. *)
Definition affected_by (name : string) (o : option table) : option string :=
  config ← o;
  match auto_detect_credentials config with
  | Ok needed =>
      if existsb (fun v => match v with TStr s => String.eqb s name | _ => false end) needed then
        match (w ← index (TTab config) "workload"; index w "name") with Ok (TStr n) => Some n | _ => None end
      else None
  | Raise _ => None
  end.

Definition affected (name : string) : list string := omap (affected_by name) configs.

Definition restart_affected (n : string) : io shost unit :=
  if restarts n then schange (fun w => mkS (sh_creds w) (sh_dirs w) (sh_files w) (sh_restarted w ++ [n])) else mret tt.

Definition secret_rotate (name : string) (k : option string) (src : value_source) : io shost unit :=
  '(f, seal_name) ← pure (located name);
  _ ← fail_unless is_root NotRoot;
  there ← slook (fun w => cred_exists w f);
  _ ← fail_unless there SystemExit;
  value ← pure (_read_secret_value src);
  _ ← seal_to k seal_name f value;
  for_io restart_affected (affected name).

(** The file an export is written to. *)
Definition output_file (name : string) (output : option string) : string :=
  match output with Some o => if String.eqb o "" then name +:+ ".secret" else o | None => name +:+ ".secret" end.

Definition secret_export (name : string) (output : option string) (src : pass_source) : io shost unit :=
  '(f, _) ← pure (located name);
  _ ← fail_unless is_root NotRoot;
  there ← slook (fun w => cred_exists w f);
  _ ← fail_unless there SystemExit;
  plaintext ← unsealed f;
  passphrase ← pure (_read_passphrase src true);
  blob ← pure (catch (_secret_export_encrypt_v2 encrypt2 mac (fst urandom) (snd urandom) plaintext passphrase) CalledProcessError (Raise SystemExit));
  let out := output_file name output in
  if writable out then schange (fun w => mkS (sh_creds w) (sh_dirs w) (<[out := blob]> (sh_files w)) (sh_restarted w)) else pure (Raise OSError).

Definition secret_import (name file : string) (force : bool) (k : option string) (src : pass_source) : io shost unit :=
  '(f, seal_name) ← pure (located name);
  _ ← fail_unless is_root NotRoot;
  o ← slook (fun w => sh_files w !! file);
  blob ← pure (match o with Some b => Ok b | None => Raise SystemExit end);
  there ← slook (fun w => cred_exists w f);
  _ ← fail_unless (negb there || force) SystemExit;
  passphrase ← pure (_read_passphrase src false);
  plaintext ← pure (catch (catch (_secret_export_decrypt decrypt2 decrypt1 mac blob passphrase) ValueError (Raise SystemExit)) CalledProcessError (Raise SystemExit));
  _ ← make_parents f;
  seal_to k seal_name f plaintext.
End verbs.

(** ** What the verbs do *)

(** A name is of the store itself, or of a workload's part of a scope. *)
Lemma located_cases dir name f seal_name :
  located dir name = Ok (f, seal_name) ->
  (has_char "/" name = false /\ f = [name] /\ seal_name = name) \/
  exists w l, name = "broker/" +:+ w +:+ "/" +:+ l /\ f = ["broker"; w; l] /\ seal_name = "broker-" +:+ w +:+ "-" +:+ l.
Proof.
  unfold located. destruct (credential_path dir name) as [[g sn]|e] eqn:E; [|done]. intros [= <- <-].
  apply credential_path_cases in E as [(Hc & -> & ->)|(w & l & -> & -> & ->)]; cbn [parts]; rewrite drop_app_length; [left|right]; eauto.
Qed.

(** Where a name is kept does not depend on where the store is. *)
Lemma located_plain dir dir' name f seal_name : has_char "/" name = false -> located dir name = Ok (f, seal_name) -> located dir' name = Ok ([name], name).
Proof.
  intros Hc. unfold located, credential_path. rewrite split_on_no_char by done. destruct (segment_ok name) eqn:E; [|done]. intros _.
  apply segment_plain in E as [_ Hp]. rewrite path_div_segment by done. cbn [parts]. by rewrite drop_app_length.
Qed.

Section store.
Variable seal : string -> string -> string -> option string.

(** Sealing ends with the file written, or exits with the store as it was. *)
Lemma seal_to_spec k sn f v w :
  (exists blob, seal (key_type k) sn v = Some blob /\ (f ∉ sh_dirs w) /\ seal_to seal k sn f v w = (set_creds (<[f := blob]>) w, Ok tt)) \/
  seal_to seal k sn f v w = (w, Raise SystemExit).
Proof.
  cbv [seal_to mbind io_bind slook]. destruct (seal (key_type k) sn v) as [b|]; [|by right]. case_bool_decide; [by right|]. left. by exists b.
Qed.

(** Directories are made without touching a credential. *)
Lemma make_parents_spec f w : sh_creds (fst (make_parents f w)) = sh_creds w /\ sh_files (fst (make_parents f w)) = sh_files w /\
  sh_restarted (fst (make_parents f w)) = sh_restarted w.
Proof. cbv [make_parents mbind io_bind slook schange pure]. by destruct (List.filter _ _). Qed.

Lemma make_parents_plain n w : make_parents [n] w = (mkS (sh_creds w) (sh_dirs w ∪ ∅) (sh_files w) (sh_restarted w), Ok tt).
Proof. done. Qed.

(** Sealing below directories that are made first. *)
Lemma parents_then_seal (m : res string) k sn f w w' r :
  (_ ← make_parents f; value ← pure m; seal_to seal k sn f value) w = (w', r) ->
  match r with
  | Ok _ => exists v blob, m = Ok v /\ seal (key_type k) sn v = Some blob /\ sh_creds w' = <[f := blob]> (sh_creds w) /\ sh_files w' = sh_files w
  | Raise _ => sh_creds w' = sh_creds w /\ sh_files w' = sh_files w
  end.
Proof.
  cbv [mbind io_bind]. pose proof (make_parents_spec f w) as (Hc & Hf & _). destruct (make_parents f w) as [w1 [u|e]]; cbn in Hc, Hf; [|by intros [= <- <-]].
  destruct m as [v|e]; cbn [pure]; [|by intros [= <- <-]].
  destruct (seal_to_spec k sn f v w1) as [(b & Hb & _ & ->)| ->]; intros [= <- <-]; cbn; [|done]. exists v, b. by rewrite Hc.
Qed.
End store.

Section verb_specs.
Variable is_root : bool.
Variable cred_dir : pypath.
Variable seal : string -> string -> string -> option string.
Variable unseal : string -> string -> option string.
Variable encrypt2 : string -> string -> string -> option string.
Variable decrypt2 decrypt1 : string -> string -> option string.
Variable mac : string -> string -> string -> string.
Variable urandom : string * string.
Variable decode : string -> res string.
Variable writable : string -> bool.
Variable configs : list (option table).
Variable restarts : string -> bool.

Notation create := (secret_create is_root cred_dir seal).
Notation show_it := (secret_show is_root cred_dir unseal decode).
Notation export := (secret_export is_root cred_dir unseal encrypt2 mac urandom writable).
Notation import := (secret_import is_root cred_dir seal decrypt2 decrypt1 mac).
Notation rotate := (secret_rotate is_root cred_dir seal configs restarts).

(** The value a creation is given. *)
Definition given (file : option (option string)) (src : value_source) : res string :=
  match file with Some (Some t) => Ok t | Some None => Raise SystemExit | None => _read_secret_value src end.

(** A creation that returns has sealed the value under the name's seal; any other leaves
    the credentials as they were. *)
Lemma create_spec name force k file src w w' r :
  create name force k file src w = (w', r) ->
  match r with
  | Ok _ => exists f sn v blob, located cred_dir name = Ok (f, sn) /\ given file src = Ok v /\ seal (key_type k) sn v = Some blob /\
      sh_creds w' = <[f := blob]> (sh_creds w)
  | Raise _ => sh_creds w' = sh_creds w
  end.
Proof.
  unfold secret_create. destruct (located cred_dir name) as [[f sn]|e] eqn:E; cbv [mbind io_bind pure]; [|by intros [= <- <-]].
  unfold fail_unless, pure. destruct is_root; [|by intros [= <- <-]]. cbn [slook]. destruct (negb _ || force); [|by intros [= <- <-]].
  intros H. pose proof (parents_then_seal seal (given file src) k sn f w w' r H) as Hr. destruct r; [|by destruct Hr].
  destruct Hr as (v & b & Hv & Hb & Hc & _). by exists f, sn, v, b.
Qed.

(** An import that returns has read the file and sealed what it holds; any other leaves
    the credentials as they were. *)
Lemma import_spec name file force k src w w' r :
  import name file force k src w = (w', r) ->
  match r with
  | Ok _ => exists f sn blob p t b, located cred_dir name = Ok (f, sn) /\ sh_files w !! file = Some blob /\ _read_passphrase src false = Ok p /\
      _secret_export_decrypt decrypt2 decrypt1 mac blob p = Ok t /\ seal (key_type k) sn t = Some b /\ sh_creds w' = <[f := b]> (sh_creds w)
  | Raise _ => sh_creds w' = sh_creds w
  end.
Proof.
  unfold secret_import. destruct (located cred_dir name) as [[f sn]|e] eqn:E; cbv [mbind io_bind pure]; [|by intros [= <- <-]].
  unfold fail_unless, pure. destruct is_root; [|by intros [= <- <-]]. cbn [slook]. destruct (sh_files w !! file) as [blob|] eqn:Ef; [|by intros [= <- <-]].
  destruct (negb _ || force); [|by intros [= <- <-]]. destruct (_read_passphrase src false) as [p|e] eqn:Ep; [|by intros [= <- <-]].
  destruct (_secret_export_decrypt decrypt2 decrypt1 mac blob p) as [t|e] eqn:Ed.
  - cbn [catch]. intros H. pose proof (parents_then_seal seal (Ok t) k sn f w w' r H) as Hr. destruct r; [|by destruct Hr].
    destruct Hr as (v & b & [= <-] & Hb & Hc & _). by exists f, sn, blob, p, t, b.
  - destruct (catch (catch (Raise e) _ _) _ _) as [?|?] eqn:Ec; [|by intros [= <- <-]].
    exfalso. cbn [catch] in Ec. case_decide; cbn [catch] in Ec; by case_decide.
Qed.

(** What an export writes is the value it opened, under the passphrase it read. *)
Lemma export_spec name output src w w' u :
  export name output src w = (w', Ok u) ->
  exists f sn b n t p blob, located cred_dir name = Ok (f, sn) /\ sh_creds w !! f = Some b /\ last f = Some n /\ unseal n b = Some t /\
    _read_passphrase src true = Ok p /\ _secret_export_encrypt_v2 encrypt2 mac (fst urandom) (snd urandom) t p = Ok blob /\
    sh_files w' = <[output_file name output := blob]> (sh_files w) /\ sh_creds w' = sh_creds w.
Proof.
  unfold secret_export. destruct (located cred_dir name) as [[f sn]|e] eqn:E; cbv [mbind io_bind pure]; [|done].
  unfold fail_unless, pure. destruct is_root; [|done]. cbn [slook]. destruct (cred_exists w f); [|done]. cbv [unsealed mbind io_bind pure slook option_bind].
  destruct (sh_creds w !! f) as [b|] eqn:Eb; [|done]. destruct (last f) as [n|] eqn:En; [|done]. destruct (unseal n b) as [t|] eqn:Et; [|done].
  destruct (_read_passphrase src true) as [p|e] eqn:Ep; [|done].
  destruct (_secret_export_encrypt_v2 encrypt2 mac (fst urandom) (snd urandom) t p) as [blob|e] eqn:Eb2.
  - cbn [catch]. destruct (writable _); [|done]. intros [= <-]. by exists f, sn, b, n, t, p, blob.
  - cbn [catch]. by case_decide.
Qed.
End verb_specs.

(** ** Moving a credential *)

Section moving.
(** The host a credential is exported from, and the one it is imported on. *)
Variable dir_a dir_b : pypath.
Variable seal_a seal_b : string -> string -> string -> option string.
Variable unseal_a : string -> string -> option string.
Variable encrypt2 : string -> string -> string -> option string.
Variable decrypt2 decrypt1 : string -> string -> option string.
Variable mac : string -> string -> string -> string.
Variable urandom : string * string.
Variable writable : string -> bool.
Hypothesis opens_a : forall k n v b, seal_a k n v = Some b -> unseal_a n b = Some v.
Hypothesis decrypts : forall salt p t c, encrypt2 salt p t = Some c -> decrypt2 p c = Some t.
Hypothesis mac_length : forall p s m, String.length (mac p s m) = _SECRET_MAC_LEN.
Hypothesis salt_length : String.length (snd urandom) = _SECRET_MAC_SALT_LEN.

(** C39.  A credential moves between hosts.  One that is created on a host under a name of the store
    itself and exported there, its file carried over, is imported on any host whose
    [systemd-creds] seals it and whose store has room for the name: the import returns, and
    the store of that host is the one before it with that credential, sealed there under
    the same name, holding the same value. *)
Theorem moved_credential_is_the_same name v k kb force forceb output src src' p file wa wa' wb blob :
  has_char "/" name = false ->
  _read_passphrase src true = Ok p -> _read_passphrase src' false = Ok p ->
  (_ ← secret_create true dir_a seal_a name force k None (Piped v);
   secret_export true dir_a unseal_a encrypt2 mac urandom writable name output src) wa = (wa', Ok tt) ->
  sh_files wb !! file = sh_files wa' !! output_file name output ->
  cred_exists wb [name] = false \/ forceb = true -> [name] ∉ sh_dirs wb ->
  seal_b (key_type kb) name v = Some blob ->
  exists wb', secret_import true dir_b seal_b decrypt2 decrypt1 mac name file forceb kb src' wb = (wb', Ok tt) /\
    sh_creds wb' = <[[name] := blob]> (sh_creds wb).
Proof.
  intros Hn Hp Hp' Hm Hf Hroom Hdir Hb. apply io_bind_Ok in Hm as (w1 & [] & Hc & He).
  apply create_spec in Hc as (f & sn & v' & b & Hl & [= <-] & Hs & Hw1).
  apply export_spec in He as (f' & sn' & b' & n & t & p' & x & Hl' & Hb' & Hlast & Ht & Hp2 & Hx & Hw' & _).
  rewrite Hl in Hl'. injection Hl' as <- <-. rewrite Hp in Hp2. injection Hp2 as <-.
  pose proof (located_plain _ dir_b _ _ _ Hn Hl) as Hlb.
  apply located_cases in Hl as [(_ & -> & ->)|(w & l & -> & _)]; [|by rewrite !has_char_app in Hn].
  injection Hlast as <-. rewrite Hw1, lookup_insert_eq in Hb'. injection Hb' as <-. rewrite (opens_a _ _ _ _ Hs) in Ht. injection Ht as <-.
  pose proof (export_reads_back encrypt2 decrypt2 decrypt1 mac decrypts mac_length _ _ _ _ _ salt_length Hx) as Hd.
  unfold secret_import. rewrite Hlb. cbv [mbind io_bind pure fail_unless slook]. rewrite Hf, Hw', lookup_insert_eq, Hp'.
  assert (negb (cred_exists wb [name]) || forceb = true) as -> by (destruct Hroom as [-> | ->]; by rewrite ?orb_true_r).
  rewrite Hd. cbn [catch]. rewrite make_parents_plain. cbv [seal_to mbind io_bind slook]. rewrite Hb. cbn [sh_dirs]. rewrite bool_decide_eq_false_2 by set_solver.
  by eexists.
Qed.
End moving.

(** C32.  A file of version 2 is taken only with its tag.  An import that returns read a file made
    of the header, a salt, the tag that salt and the passphrase give for the header, the
    salt and the ciphertext, and that ciphertext; it seals what the ciphertext decrypts to.
    An import that does not return, as for a file that was changed or a passphrase that is
    wrong, leaves every credential as it was. *)
Theorem altered_export_is_refused is_root dir seal decrypt2 decrypt1 mac name file force k src w w' r blob :
  sh_files w !! file = Some blob -> starts_with SECRET_EXPORT_V2_MAGIC blob = true ->
  secret_import is_root dir seal decrypt2 decrypt1 mac name file force k src w = (w', r) ->
  match r with
  | Ok _ => exists p s c t f sn b, _read_passphrase src false = Ok p /\
      blob = SECRET_EXPORT_V2_MAGIC +:+ s +:+ mac p s (SECRET_EXPORT_V2_MAGIC +:+ s +:+ c) +:+ c /\ decrypt2 p c = Some t /\
      located dir name = Ok (f, sn) /\ seal (key_type k) sn t = Some b /\ sh_creds w' = <[f := b]> (sh_creds w)
  | Raise _ => sh_creds w' = sh_creds w
  end.
Proof.
  intros Hf Hm H. apply import_spec in H. destruct r as [u|e]; [|done].
  destruct H as (f & sn & blob' & p & t & b & Hl & Hf' & Hp & Hd & Hb & Hc). rewrite Hf in Hf'. injection Hf' as <-.
  destruct (accepted_is_tagged decrypt2 decrypt1 mac blob p t Hm Hd) as (s & c & Es & Ec). by exists p, s, c, t, f, sn, b.
Qed.

(** ** Listing, showing and rotating *)

Lemma elem_of_iter_credentials w n f :
  (n, f) ∈ iter_credentials w <-> f = split_on "/" n /\ exists g, is_Some (sh_creds w !! g) /\ listed_name g = Some n.
Proof.
  unfold iter_credentials. rewrite list_elem_of_fmap. setoid_rewrite py_sorted_perm. setoid_rewrite list_elem_of_omap. split.
  - intros (? & [= -> ->] & [g b] & Hg & Hn). split; [done|]. exists g. split; [|done]. apply elem_of_map_to_list in Hg. by eexists.
  - intros (-> & g & [b Hb] & Hn). exists n. split; [done|]. exists (g, b). split; [by apply elem_of_map_to_list|done].
Qed.

(** What was created is listed, under the name it was created by. *)
Lemma created_is_listed is_root dir seal name force k file src w w' u :
  secret_create is_root dir seal name force k file src w = (w', Ok u) -> name ∈ map fst (iter_credentials w').
Proof.
  intros H. apply create_spec in H as (f & sn & v & b & Hl & _ & _ & Hc). apply list_elem_of_fmap. exists (name, split_on "/" name). split; [done|].
  apply elem_of_iter_credentials. split; [done|]. exists f. rewrite Hc, lookup_insert_eq. split; [done|].
  by apply located_cases in Hl as [(_ & -> & _)|(x & l & -> & -> & _)].
Qed.

(** A credential of a scope is sealed under a name that is not that of its file, so it can
    be neither shown nor exported. *)
Theorem scoped_is_not_shown is_root dir seal unseal encrypt2 mac urandom decode writable w l force k file src output pass h h1 h2 r h3 r3 :
  (forall k n v b n', seal k n v = Some b -> n' <> n -> unseal n' b = None) ->
  secret_create is_root dir seal ("broker/" +:+ w +:+ "/" +:+ l) force k file src h = (h1, Ok tt) ->
  secret_show is_root dir unseal decode ("broker/" +:+ w +:+ "/" +:+ l) h1 = (h2, r) ->
  secret_export is_root dir unseal encrypt2 mac urandom writable ("broker/" +:+ w +:+ "/" +:+ l) output pass h1 = (h3, r3) ->
  is_ok r = false /\ is_ok r3 = false /\ sh_files h3 = sh_files h1.
Proof.
  intros Hlaw Hc Hs He. apply create_spec in Hc as (f & sn & v & b & Hl & _ & Hb & Hw). pose proof Hl as Hl2.
  apply located_cases in Hl as [(Hn & _)|(w' & l' & En & -> & Esn)]; [by rewrite !has_char_app in Hn|].
  assert (Hnone : unseal l' b = None).
  { eapply Hlaw; [exact Hb|]. rewrite Esn. intros E%(f_equal String.length). rewrite !length_app_str in E. cbn in E. lia. }
  assert (Hu : unsealed unseal ["broker"; w'; l'] h1 = (h1, Raise SystemExit)).
  { cbv [unsealed mbind io_bind slook pure]. rewrite Hw, lookup_insert_eq. cbn. by rewrite Hnone. }
  unfold secret_show in Hs. unfold secret_export in He. rewrite Hl2 in Hs, He. cbv [mbind io_bind pure fail_unless slook] in Hs, He.
  destruct is_root; [|by injection Hs as <- <-; injection He as <- <-]. destruct (cred_exists h1 _); [|by injection Hs as <- <-; injection He as <- <-].
  rewrite Hu in Hs, He. injection Hs as <- <-. by injection He as <- <-.
Qed.

(** The restarts a rotation ends with. *)
Lemma restarts_run restarts l w :
  for_io (restart_affected restarts) l w = (mkS (sh_creds w) (sh_dirs w) (sh_files w) (sh_restarted w ++ List.filter restarts l), Ok tt).
Proof.
  revert w. induction l as [|n l IH]; intros w; cbn [for_io List.filter]; [rewrite app_nil_r; by destruct w|].
  cbv [mbind io_bind restart_affected]. destruct (restarts n); cbn; rewrite IH; cbn; [by rewrite <- app_assoc|done].
Qed.

(** A rotation seals the new value and restarts, of the workloads whose declaration
    demands the credential, those that can be, each once, in the order they are declared;
    or it changes nothing. *)
Theorem rotation_restarts_the_demanding is_root dir seal configs restarts name k src w w' r :
  secret_rotate is_root dir seal configs restarts name k src w = (w', r) ->
  match r with
  | Ok _ => exists f sn v b, located dir name = Ok (f, sn) /\ cred_exists w f = true /\ _read_secret_value src = Ok v /\ seal (key_type k) sn v = Some b /\
      sh_creds w' = <[f := b]> (sh_creds w) /\ sh_restarted w' = sh_restarted w ++ List.filter restarts (omap (affected_by name) configs)
  | Raise _ => w' = w
  end.
Proof.
  unfold secret_rotate. destruct (located dir name) as [[f sn]|e] eqn:E; cbv [mbind io_bind pure fail_unless slook]; [|by intros [= <- <-]].
  destruct is_root; [|by intros [= <- <-]]. destruct (cred_exists w f) eqn:Ee; [|by intros [= <- <-]]. destruct (_read_secret_value src) as [v|e] eqn:Ev; [|by intros [= <- <-]].
  destruct (seal_to_spec seal k sn f v w) as [(b & Hb & _ & ->)| ->]; [|by intros [= <- <-]]. rewrite restarts_run. intros [= <- <-]. by exists f, sn, v, b.
Qed.

(** ** Samples *)

Module Sample.
(** A seal that is a prefix of what it seals, which no other name's seal is a prefix of. *)
Fixpoint marked (n : string) : string := match n with EmptyString => "." | String c n => String "x" (String c (marked n)) end.
Definition seal (k n v : string) : option string := Some (marked n +:+ v).
Definition unseal (n b : string) : option string := if starts_with (marked n) b then Some (str_drop (String.length (marked n)) b) else None.
Definition encrypt2 (salt p t : string) : option string := Some (p +:+ t).
Definition decrypt2 (p c : string) : option string := Some (str_drop (String.length p) c).
Definition decrypt1 (p c : string) : option string := None.
Definition mac (p s m : string) : string := str_take 32 (p +:+ "................................").
Definition empty : shost := mkS ∅ ∅ ∅ [].
Definition store : pypath := path_of "/etc/credstore.encrypted".
End Sample.

Lemma sample_opens k n v b : Sample.seal k n v = Some b -> Sample.unseal n b = Some v.
Proof. intros [= <-]. unfold Sample.unseal. by rewrite starts_with_app, str_drop_app. Qed.

Lemma sample_other n n' v : n' <> n -> Sample.unseal n' (Sample.marked n +:+ v) = None.
Proof.
  intros Hn. unfold Sample.unseal. destruct (starts_with _ _) eqn:E; [|done]. destruct Hn. revert n E.
  induction n' as [|c n' IH]; intros [|d n]; cbn; try done. destruct (Ascii.eqb_spec c d) as [->|]; [|done]. intros H. f_equal. by apply IH.
Qed.

Lemma sample_decrypts salt p t c : Sample.encrypt2 salt p t = Some c -> Sample.decrypt2 p c = Some t.
Proof. intros [= <-]. unfold Sample.decrypt2. by rewrite str_drop_app. Qed.

Lemma sample_mac_length p s m : String.length (Sample.mac p s m) = _SECRET_MAC_LEN.
Proof. unfold Sample.mac. rewrite length_str_take, length_app_str. cbn [String.length]. unfold _SECRET_MAC_LEN. lia. Qed.

Module Moved.
Import Sample.
Definition salts : string * string := ("", "0123456789abcdef").
Definition exported : shost :=
  fst ((_ ← secret_create true store seal "db" false None None (Piped "hunter2");
        secret_export true store unseal encrypt2 mac salts (fun _ => true) "db" None (Prompted "pw" "pw")) empty).
(** The host it is carried to has the file, and nothing in its store. *)
Definition target : shost := mkS ∅ ∅ (sh_files exported) [].
End Moved.

Lemma moved_credential_is_the_same_witness :
  exists wb', secret_import true Sample.store Sample.seal Sample.decrypt2 Sample.decrypt1 Sample.mac "db" "db.secret" false (Some "host") (PassStdin (Ok ("pw" +:+ chr LF))) Moved.target = (wb', Ok tt) /\
    sh_creds wb' = {[ ["db"] := Sample.marked "db" +:+ "hunter2" ]}.
Proof.
  destruct (moved_credential_is_the_same Sample.store Sample.store Sample.seal Sample.seal Sample.unseal Sample.encrypt2 Sample.decrypt2 Sample.decrypt1 Sample.mac Moved.salts (fun _ => true)
    sample_opens sample_decrypts sample_mac_length eq_refl "db" "hunter2" None (Some "host") false false None (Prompted "pw" "pw") (PassStdin (Ok ("pw" +:+ chr LF))) "pw" "db.secret"
    Sample.empty Moved.exported Moved.target (Sample.marked "db" +:+ "hunter2")) as (wb' & H & Hc); [vm_compute; reflexivity..|by left|by apply (bool_decide_unpack _)|done|].
  exists wb'. split; [exact H|]. rewrite Hc. reflexivity.
Defined.

Module Altered.
(** The exported file with its last byte changed. *)
Definition target : shost := mkS ∅ ∅ {[ "db.secret" := SECRET_EXPORT_V2_MAGIC +:+ "0123456789abcdef" +:+ "a tag of thirty-two characters.." +:+ "pwhunter2" ]} [].
End Altered.

Lemma altered_export_is_refused_witness :
  sh_creds (fst (secret_import true Sample.store Sample.seal Sample.decrypt2 Sample.decrypt1 Sample.mac "db" "db.secret" false None (Prompted "pw" "") Altered.target)) = ∅.
Proof.
  destruct (secret_import true Sample.store Sample.seal Sample.decrypt2 Sample.decrypt1 Sample.mac "db" "db.secret" false None (Prompted "pw" "") Altered.target) as [w' r] eqn:E.
  pose proof (altered_export_is_refused true Sample.store Sample.seal Sample.decrypt2 Sample.decrypt1 Sample.mac "db" "db.secret" false None (Prompted "pw" "") Altered.target w' r _ eq_refl eq_refl E) as H.
  assert (Er : is_ok r = false) by (change r with (snd (w', r)); rewrite <- E; vm_compute; reflexivity). by destruct r.
Defined.

(** A broker's credential is sealed, listed, and cannot be shown. *)
Example broker_key_is_not_shown :
  let h := fst (secret_create true Sample.store Sample.seal "broker/web/key" false None None (Typed "k" "k") Sample.empty) in
  iter_credentials h = [("broker/web/key", ["broker"; "web"; "key"])] /\ snd (secret_show true Sample.store Sample.unseal Ok "broker/web/key" h) = Raise SystemExit.
Proof. by vm_compute. Qed.
