(* ===== verification/Pcap.v ===== *)
(** * Captures: [lib/pcap.py]

    What a request asks for and when it is refused, the nftables rules and the command
    of the host vantage, the object of a VM's guest vantage, and the plan that is printed
    and handed to the helper.

    A workload is what [WorkloadConfig] answers about it.  The sentences that explain a
    vantage or a refusal are named, not quoted; the rendering of a plan as text and the
    search for tcpdump are left out. *)
From S2P Require Import Prelude PyStr PyRe Toml WorkloadAddr NftElements.
Local Open Scope Z_scope.

(** ** Vantages *)

Definition VANTAGE_HOST : string := "host".
Definition VANTAGE_GUEST : string := "guest".
Definition VANTAGES : list string := [VANTAGE_HOST; VANTAGE_GUEST].
Definition DIRECTION_DEFAULT : string := "inout".
Definition SNAPLEN_DEFAULT : Z := 1500.
Definition DURATION_DEFAULT : string := "5m".
Definition MAX_SIZE_DEFAULT : string := "100M".
Definition QEMU_MAXLEN_UNLIMITED : Z := 65536.

Inductive detail :=
  | LeavesHost | Redirected | Bridged (bridge : string) | GuestWire | HostNetwork | SharedNamespace | NoSockets | LoopbackOnly | Namespace.

Record Vantage := mkVantage {
  v_name : string; v_available : bool; v_detail : detail;
  supports_filter : bool; supports_direction : bool; supports_rotation : bool }.

(** [WorkloadConfig], as far as a capture asks. *)
Record wconfig := mkW {
  w_name : string; w_uid : res Z; w_is_vm : bool; w_bridge : option string; w_network_mode : string; w_mode : string;
  (** [vm_uses_inspect] or [container_uses_inspect] of the declaration *)
  w_inspected : bool;
  w_containers : list string; w_podman_name : string -> string }.

Definition pcap_vantages (c : wconfig) : list Vantage :=
  if w_is_vm c then
    [match w_bridge c with
     | Some b => mkVantage VANTAGE_HOST false (Bridged b) false true true
     | None => mkVantage VANTAGE_HOST true (if w_inspected c then Redirected else LeavesHost) false true true
     end;
     mkVantage VANTAGE_GUEST true GuestWire false false false]
  else if String.eqb (w_network_mode c) "host" then
    [mkVantage VANTAGE_HOST true HostNetwork false true true; mkVantage VANTAGE_GUEST false SharedNamespace true true true]
  else if String.eqb (w_network_mode c) "none" then
    [mkVantage VANTAGE_HOST false NoSockets true true true; mkVantage VANTAGE_GUEST false LoopbackOnly true true true]
  else
    [mkVantage VANTAGE_HOST true (if w_inspected c then Redirected else LeavesHost) false true true;
     mkVantage VANTAGE_GUEST true Namespace true true true].

Definition available_vantages (c : wconfig) : list string := map v_name (List.filter v_available (pcap_vantages c)).

(** The entry of a vantage in the dict by name. *)
Definition vantage_of (c : wconfig) (n : string) : option Vantage := List.find (fun v => String.eqb (v_name v) n) (pcap_vantages c).

(** ** Numbers *)

Definition int_of_digits (s : string) : Z := default 0 (py_int s).

(** [^(\d+)([smh]?)$] *)
Definition parse_duration (text : string) : res Z :=
  let '(n, unit) := span is_dec (strip text) in
  if String.eqb n "" then Raise ValueError
  else match unit with
       | "" | "s" => Ok (int_of_digits n)
       | "m" => Ok (int_of_digits n * 60)
       | "h" => Ok (int_of_digits n * 3600)
       | _ => Raise ValueError
       end.

(** [^(\d+)([KMG]?)B?$], in either case *)
Definition parse_size (text : string) : res Z :=
  let '(n, unit) := span is_dec (strip text) in
  if String.eqb n "" then Raise ValueError
  else match unit with
       | "" | "B" | "b" => Ok (int_of_digits n)
       | "K" | "k" | "KB" | "Kb" | "kB" | "kb" => Ok (int_of_digits n * 1000)
       | "M" | "m" | "MB" | "Mb" | "mB" | "mb" => Ok (int_of_digits n * 1000 ^ 2)
       | "G" | "g" | "GB" | "Gb" | "gB" | "gb" => Ok (int_of_digits n * 1000 ^ 3)
       | _ => Raise ValueError
       end.

(** [part.partition(":")] without the separator. *)
Definition partition_colon (part : string) : string * string := match cut ":" part with Some p => p | None => (part, "") end.

Fixpoint snaplen_parts (out : list (string * Z)) (parts : list string) : res (list (string * Z)) :=
  match parts with
  | [] => Ok out
  | part :: parts =>
      let '(vantage, raw) := partition_colon part in
      let vantage := strip vantage in
      if bool_decide (vantage ∈ VANTAGES) then n ← int_res raw; snaplen_parts (assoc_set vantage n out) parts
      else Raise ValueError
  end.

Definition parse_snaplen (spec : option string) (vantages : list string) : res (list (string * Z)) :=
  match spec with
  | None => Ok (map (fun n => (n, SNAPLEN_DEFAULT)) vantages)
  | Some spec =>
      let text := strip spec in
      if has_char ":" text then snaplen_parts (map (fun n => (n, SNAPLEN_DEFAULT)) vantages) (split_on "," text)
      else value ← int_res text; Ok (map (fun n => (n, value)) vantages)
  end.

Definition _humanize_duration (seconds : Z) : string :=
  if seconds mod 3600 =? 0 then str_Z (seconds / 3600) +:+ "h"
  else if seconds mod 60 =? 0 then str_Z (seconds / 60) +:+ "m" else str_Z seconds +:+ "s".

Definition _humanize_size (size : Z) : string :=
  let fits f := (f <=? size) && (size mod f =? 0) in
  if fits (1000 ^ 3) then str_Z (size / 1000 ^ 3) +:+ "G"
  else if fits (1000 ^ 2) then str_Z (size / 1000 ^ 2) +:+ "M"
  else if fits 1000 then str_Z (size / 1000) +:+ "K" else str_Z size +:+ "B".

(** ** The rules of the host vantage *)

Definition CT_MARK_TAG : Z := 0x40000000.
Definition CT_MARK_MASK : Z := 0xC0000000.
Definition CT_MARK_UID_MASK : Z := 0x3FFFFFFF.
Definition PCAP_OUTPUT_CHAIN : string := "pcap_output".
Definition PCAP_INPUT_CHAIN : string := "pcap_input".
Definition PCAP_CHAINS : list string := [PCAP_OUTPUT_CHAIN; PCAP_INPUT_CHAIN].

(** [f"{n:#x}"]; eight digits are enough for a mark. *)
Fixpoint hex_digits (fuel : nat) (n : Z) : string :=
  match fuel with
  | O => ""
  | S fuel => if n <? 16 then chr (hexd n) else hex_digits fuel (n / 16) +:+ chr (hexd (n mod 16))
  end.
Definition hex_Z (n : Z) : string := "0x" +:+ hex_digits 8 n.

Definition pcap_output_rule (uid snaplen : Z) : res string :=
  g ← nflog_group uid;
  Ok ("meta skuid " +:+ str_Z uid +:+ " counter log group " +:+ str_Z g +:+ " snaplen " +:+ str_Z snaplen +:+ " continue").

Definition pcap_input_rule (uid snaplen : Z) : res string :=
  g ← nflog_group uid;
  Ok ("ct mark and " +:+ hex_Z CT_MARK_MASK +:+ " == " +:+ hex_Z CT_MARK_TAG +:+ " ct mark and " +:+ hex_Z CT_MARK_UID_MASK +:+ " == " +:+ str_Z uid
      +:+ " counter log group " +:+ str_Z g +:+ " snaplen " +:+ str_Z snaplen +:+ " continue").

Definition add_chain (chain spec : string) : list string := [NFT_BIN; "add"; "chain"] ++ NFT_TABLE ++ [chain; spec].
Definition add_rule (chain rule : string) : list string := [NFT_BIN; "add"; "rule"] ++ NFT_TABLE ++ [chain] ++ words rule.

Definition pcap_rule_commands (uid snaplen : Z) (direction : string) : res (list (list string)) :=
  outbound ← (if bool_decide (direction ∈ ["out"; "inout"]) then
                r ← pcap_output_rule uid snaplen;
                Ok [add_chain PCAP_OUTPUT_CHAIN "{ type filter hook output priority filter - 10; policy accept; }"; add_rule PCAP_OUTPUT_CHAIN r]
              else Ok []);
  inbound ← (if bool_decide (direction ∈ ["in"; "inout"]) then
               r ← pcap_input_rule uid snaplen;
               Ok [add_chain PCAP_INPUT_CHAIN "{ type filter hook input priority 0; policy accept; }"; add_rule PCAP_INPUT_CHAIN r]
             else Ok []);
  Ok (outbound ++ inbound).

Definition pcap_delete_command (chain : string) (handle : Z) : list string :=
  [NFT_BIN; "delete"; "rule"] ++ NFT_TABLE ++ [chain; "handle"; str_Z handle].

(** ** Reading the rules back *)

(** The [log] statement of an expression; JSON's [null] counts as none. *)
Definition log_of (expr : tv) : option tv :=
  match expr with
  | TTab t => match assoc "log" t with Some (TOther "NoneType" _ _ _) => None | o => o end
  | _ => None
  end.

(** [log.get("group") == group] *)
Definition has_group (group : Z) (log : tv) : res bool := g ← get log "group"; Ok (match g with Some g => eq_int g group | None => false end).

(** [for expr in ...: ... break]: whether the first logging expression is of the group. *)
Fixpoint first_log (group : option Z) (exprs : list tv) : res bool :=
  match exprs with
  | [] => Ok false
  | expr :: exprs =>
      match log_of expr with
      | None => first_log group exprs
      | Some log => match group with None => Ok true | Some g => has_group g log end
      end
  end.

Definition rule_handle (group : option Z) (item : tv) : res (option tv) :=
  r ← get item "rule";
  match r with
  | None => Ok None
  | Some rule =>
      if negb (truthy rule) then Ok None
      else
        h ← contains_key "handle" rule;
        if negb h then Ok None
        else
          e ← get_or rule "expr" (TArr []); exprs ← iter e;
          b ← first_log group exprs;
          if (b : bool) then v ← index rule "handle"; Ok (Some v) else Ok None
  end.

Definition log_rule_handles (payload : option tv) (group : option Z) : res (list tv) :=
  items ← nftables_items payload; l ← mapM_res (rule_handle group) items; Ok (omap (M:=list) (fun x : option tv => x) l).

Definition is_tab (v : tv) : bool := match v with TTab _ => true | _ => false end.

(** [expr["counter"].get("packets", 0)], for the expressions that have one *)
Definition counted (expr : tv) : res Z :=
  match expr with
  | TTab t => match assoc "counter" t with
              | Some c => n ← get_or c "packets" (TInt 0); match as_int n with Some k => Ok k | None => Raise TypeError end
              | None => Ok 0
              end
  | _ => Ok 0
  end.

Definition rule_packets (group : option Z) (item : tv) : res Z :=
  r ← get item "rule";
  match r with
  | None => Ok 0
  | Some rule =>
      if negb (truthy rule) then Ok 0
      else
        e ← get_or rule "expr" (TArr []); all ← iter e;
        let exprs := List.filter is_tab all in
        match omap (fun x => match x with TTab t => assoc "log" t | _ => None end) exprs with
        | [] => Ok 0
        | log :: _ =>
            b ← match group with None => Ok true | Some g => has_group g log end;
            if (b : bool) then ns ← mapM_res counted exprs; Ok (foldr Z.add 0 ns) else Ok 0
        end
  end.

Definition log_rule_packets (payload : option tv) (group : option Z) : res Z :=
  items ← nftables_items payload; ns ← mapM_res (rule_packets group) items; Ok (foldr Z.add 0 ns).

(** ** The readers *)

Definition host_buffer_kib (rmem_max : option string) : option Z :=
  t ← rmem_max; value ← py_int (strip t);
  let k := value / 1024 in if k =? 0 then None else Some k.

(** What is handed to tcpdump beside the place. *)
Record tcpdump_options := mkOpts {
  packet_count : option Z; rotate_size : option Z; file_count : option Z; rotate_seconds : option Z; numeric : bool; bpf : list string }.
Definition no_options : tcpdump_options := mkOpts None None None None false [].

(** An option with its value, when the value is true. *)
Definition flag (f : string) (v : option Z) : list string := match v with Some n => if n =? 0 then [] else [f; str_Z n] | None => [] end.

(** [if write] *)
Definition given_path (write : option string) : option string := match write with Some p => if String.eqb p "" then None else Some p | None => None end.

Definition tcpdump_argv (uid snaplen : Z) (write : option string) (o : tcpdump_options) (buffer_kib : option Z) : res (list string) :=
  g ← nflog_group uid;
  Ok (["/usr/bin/tcpdump"; "-i"; "nflog:" +:+ str_Z g; "-s"; str_Z snaplen; "-U"]
      ++ flag "-B" buffer_kib ++ when (numeric o) ["-n"] ++ match given_path write with Some p => ["-w"; p] | None => [] end
      ++ flag "-c" (packet_count o) ++ flag "-C" (rotate_size o) ++ flag "-W" (file_count o) ++ flag "-G" (rotate_seconds o) ++ bpf o).

Definition filter_dump_id (index : Z) : string := "wl-pcap-" +:+ str_Z index.

Definition filter_dump_object (index : Z) (path : string) (snaplen : Z) : table :=
  [("qom-type", TStr "filter-dump"); ("id", TStr (filter_dump_id index)); ("netdev", TStr "net0"); ("file", TStr path);
   ("maxlen", TInt (if snaplen =? 0 then QEMU_MAXLEN_UNLIMITED else snaplen))].

Definition guest_staging_path (name : string) : string := "/run/workload-vm/" +:+ name +:+ "/pcap-guest.pcap".

(** ** The unit *)

Definition PCAP_UNIT_PREFIX : string := "workload-pcap-".
Definition PCAP_HELPER : string := "/usr/libexec/workloadctl/workload-pcap".
Definition pcap_unit_name (name : string) : string := PCAP_UNIT_PREFIX +:+ name +:+ ".service".

Definition systemd_run_argv (name : string) (helper_args : list string) (duration : Z) : list string :=
  ["systemd-run"; "--collect"; "--unit=" +:+ pcap_unit_name name; "--property=Type=exec";
   "--property=ExecStopPost=" +:+ PCAP_HELPER +:+ " cleanup " +:+ name]
  ++ when (negb (duration =? 0)) ["--property=RuntimeMaxSec=" +:+ str_Z duration] ++ PCAP_HELPER :: helper_args.

(** ** The plan *)

(** A step: the vantage, what it shows, and the commands as they are printed. *)
Record PcapPlan := mkPlan {
  pl_workload : string; pl_substrate : string; pl_uid : Z; pl_vantages : list string; pl_snaplen : list (string * Z);
  pl_direction : string; pl_write : option string; pl_duration : Z; pl_max_size : Z;
  pl_steps : list (string * detail * list string);
  pl_podman_container : option string; pl_has_qemu_object : bool; pl_buffer_kib : option Z }.

(** [write.rstrip('/')] below a directory, when there are several. *)
Definition vantage_path (write : option string) (vantage : string) (count : nat) : option string :=
  match given_path write with
  | None => write
  | Some p =>
      if String.eqb p "-" then write
      else Some (if Nat.ltb 1 count then rstrip_by (is_char "/") p +:+ "/" +:+ vantage +:+ ".pcap" else p)
  end.

Definition substrate_of (c : wconfig) : string :=
  if w_is_vm c then match w_bridge c with None => "VM, passt" | Some b => "VM, bridge " +:+ b end else "container, " +:+ w_network_mode c.

(** [snaplen[vantage]] *)
Definition snaplen_at (snaplen : list (string * Z)) (v : string) : res Z := match assoc v snaplen with Some n => Ok n | None => Raise KeyError end.

Section plan.
(** What [/proc/sys/net/core/rmem_max] reads as. *)
Variable rmem_max : option string.

Definition plan_step (c : wconfig) (uid : Z) (snaplen : list (string * Z)) (direction : string) (write : option string) (count : nat)
    (bpf : list string) (buffer : option Z) (podman : option string) (vantage : string) : res (string * detail * list string) :=
  n ← snaplen_at snaplen vantage;
  d ← match vantage_of c vantage with Some v => Ok (v_detail v) | None => Raise KeyError end;
  if String.eqb vantage VANTAGE_HOST then
    rules ← pcap_rule_commands uid n direction;
    reader ← tcpdump_argv uid n (vantage_path write vantage count) (mkOpts None None None None false bpf) buffer;
    Ok (vantage, d, map (join " ") rules ++ [join " " reader])
  else
    let path := match given_path (vantage_path write vantage count) with Some p => p | None => "(none)" end in
    if w_is_vm c then
      Ok (vantage, d, ("QMP object-add: " +:+ py_repr (TTab (filter_dump_object 0 (guest_staging_path (w_name c)) n)))
        :: if String.eqb path "-" then ["timestamps corrected on finalize"]
           else ["on finalize: correct timestamps, then move to " +:+ path;
                 "(QEMU writes into the workload's own runtime dir because it runs confined, as this workload's user)"])
    else
      Ok (vantage, d, ["nsenter into " +:+ default "None" podman +:+ "'s network namespace, then tcpdump -s " +:+ str_Z n
                       +:+ match given_path write with Some _ => " -w " +:+ path | None => "" end]).

Definition build_plan (c : wconfig) (vantages : list string) (snaplen : list (string * Z)) (direction : string) (write : option string)
    (duration max_size : Z) (bpf : list string) (container : option string) : res PcapPlan :=
  uid ← w_uid c;
  let podman := if w_is_vm c then None else Some (w_podman_name c (match container with Some n => if String.eqb n "" then w_name c else n | None => w_name c end)) in
  let buffer := if bool_decide (VANTAGE_HOST ∈ vantages) then host_buffer_kib rmem_max else None in
  steps ← mapM_res (plan_step c uid snaplen direction write (length vantages) bpf buffer podman) vantages;
  Ok (mkPlan (w_name c) (substrate_of c) uid vantages snaplen direction write duration max_size steps podman
        (w_is_vm c && bool_decide (VANTAGE_GUEST ∈ vantages)) buffer).
End plan.

(** ** Requests that are refused *)

Inductive refusal :=
  | VmHasNoContainers | NotAContainer | NameAContainer | NotAVantage (v : string) | Unavailable (v : string) (d : detail)
  | Unfilterable (vs : list string) | DirectionNotHonored | RotationNotHonored | BothClaimStdout | JsonNeedsPath | DetachNeedsPath
  | DetachedStdout | NeedsDirectory | NoTcpdump.

(** [write.rsplit("/", 1)[-1]] *)
Definition last_part (write : string) : string := default "" (last (split_on "/" write)).

Definition vantage_refusals (c : wconfig) (v : string) : list refusal :=
  match vantage_of c v with
  | None => [NotAVantage v]
  | Some x => when (negb (v_available x)) [Unavailable v (v_detail x)]
  end.

Definition validate_request (c : wconfig) (vantages : list string) (direction : string) (bpf : list string) (write : option string)
    (detach json_output rotation tcpdump_present : bool) (container : option string) : list refusal :=
  let known := omap (vantage_of c) vantages in
  let path := given_path write in
  let stdout := match path with Some p => String.eqb p "-" | None => false end in
  match container with
  | Some n => if w_is_vm c then [VmHasNoContainers] else when (negb (bool_decide (n ∈ w_containers c))) [NotAContainer]
  | None => when (negb (w_is_vm c) && bool_decide (VANTAGE_GUEST ∈ vantages) && String.eqb (w_mode c) "bridge") [NameAContainer]
  end
  ++ concat (map (vantage_refusals c) vantages)
  ++ match bpf, map v_name (List.filter (fun v => negb (supports_filter v)) known) with
     | _ :: _, (_ :: _) as vs => [Unfilterable vs]
     | _, _ => []
     end
  ++ when (negb (String.eqb direction DIRECTION_DEFAULT) && existsb (fun v => negb (supports_direction v)) known) [DirectionNotHonored]
  ++ when (rotation && existsb (fun v => negb (supports_rotation v)) known) [RotationNotHonored]
  ++ when (json_output && stdout) [BothClaimStdout]
  ++ when (json_output && bool_decide (path = None)) [JsonNeedsPath]
  ++ when (detach && bool_decide (path = None)) [DetachNeedsPath]
  ++ when (detach && stdout) [DetachedStdout]
  ++ match path with
     | Some p => when (Nat.ltb 1 (length vantages) && negb stdout && negb (ends_with_char "/" p) && has_char "." (last_part p)) [NeedsDirectory]
     | None => []
     end
  ++ when (negb tcpdump_present && bool_decide (VANTAGE_HOST ∈ vantages)) [NoTcpdump].

(** ** Durations and sizes *)

Lemma digits_unit n c t : 0 <= n -> is_dec c = false -> is_space c = false -> all_chars (fun c => negb (is_space c)) t = true ->
  span is_dec (strip (str_Z n +:+ String c t)) = (str_Z n, String c t).
Proof.
  intros Hn Hd Hs Ht. unfold strip. rewrite strip_by_id.
  - apply span_app; [by apply all_digits_str_Z|done].
  - rewrite all_chars_app. assert (all_chars (fun c => negb (is_space c)) (str_Z n) = true) as -> by (by apply no_space_str_Z). cbn [all_chars]. by rewrite Hs, Ht.
Qed.

Lemma int_of_digits_str n : 0 <= n -> int_of_digits (str_Z n) = n.
Proof. intros H. unfold int_of_digits. by rewrite py_int_str_Z. Qed.

Lemma digits_there n : 0 <= n -> String.eqb (str_Z n) "" = false.
Proof. intros Hn. by apply String.eqb_neq, str_Z_nonempty. Qed.

(** The duration and the size a plan prints are read as the ones it has. *)
Lemma printed_duration_is_read n : 0 <= n -> parse_duration (_humanize_duration n) = Ok n.
Proof.
  intros Hn. pose proof (Z.div_pos n 3600 Hn ltac:(lia)) as H1. pose proof (Z.div_pos n 60 Hn ltac:(lia)) as H2.
  unfold parse_duration, _humanize_duration. destruct (n mod 3600 =? 0) eqn:E1; [|destruct (n mod 60 =? 0) eqn:E2];
    rewrite digits_unit, digits_there, int_of_digits_str by done; f_equal; Z.to_euclidean_division_equations; lia.
Qed.

Lemma printed_size_is_read n : 0 <= n -> parse_size (_humanize_size n) = Ok n.
Proof.
  intros Hn. assert (Hp : forall f, 0 < f -> 0 <= n / f) by (intros f Hf; by apply Z.div_pos).
  unfold parse_size, _humanize_size. change (1000 ^ 3) with 1000000000. change (1000 ^ 2) with 1000000.
  destruct (_ && _) eqn:E1; [|destruct ((1000000 <=? n) && _) eqn:E2; [|destruct ((1000 <=? n) && _) eqn:E3]];
    rewrite digits_unit, digits_there, int_of_digits_str by (done || by apply Hp); f_equal; Z.to_euclidean_division_equations; lia.
Qed.

(** ** Marks *)

(** What [pcap_input_rule] asks of a connection's mark. *)
Definition input_selects (uid mark : Z) : bool := (Z.land mark CT_MARK_MASK =? CT_MARK_TAG) && (Z.land mark CT_MARK_UID_MASK =? uid).

(** The rule selects one mark of 32 bits: the tag with the uid. *)
Lemma input_selects_one uid mark :
  0 <= uid < 2 ^ 30 -> 0 <= mark < 2 ^ 32 -> input_selects uid mark = true <-> mark = Z.lor CT_MARK_TAG uid.
Proof.
  intros Hu Hm. unfold input_selects. rewrite andb_true_iff, !Z.eqb_eq. split.
  - intros [H1 H2]. rewrite <- H1, <- H2, <- Z.land_lor_distr_r. change (Z.lor CT_MARK_MASK CT_MARK_UID_MASK) with (Z.ones 32). rewrite Z.land_ones by lia.
    symmetry. by apply Z.mod_small.
  - intros ->. assert (Hl : forall k, Z.land uid (Z.ones 30) = uid /\ Z.land uid (Z.shiftl k 30) = 0).
    { intros k. split; [rewrite Z.land_ones by lia; by apply Z.mod_small|].
      apply Z.bits_inj'. intros i Hi. rewrite Z.land_spec, Z.bits_0. destruct (Z.lt_ge_cases i 30); [by rewrite Z.shiftl_spec_low, andb_false_r|].
      rewrite (Z.bits_above_log2 uid i), andb_false_l; [done|lia|]. destruct (Z.eq_dec uid 0) as [->|]; [cbn; lia|]. apply Z.log2_lt_pow2; [lia|].
      pose proof (Z.pow_le_mono_r 2 30 i ltac:(lia) ltac:(lia)). lia. }
    rewrite !Z.land_lor_distr_l. change CT_MARK_MASK with (Z.shiftl 3 30). change CT_MARK_UID_MASK with (Z.ones 30). destruct (Hl 3) as [-> ->]. split; [reflexivity|]. cbn. by rewrite Z.lor_0_l.
Qed.

(** ** Accepted requests *)

Lemma assoc_constant {A} (x : A) l v : v ∈ l -> assoc v (map (fun n => (n, x)) l) = Some x.
Proof. induction l as [|y l IH]; [by intros ?%not_elem_of_nil|]. cbn. rewrite elem_of_cons. case_decide; [done|]. intros [->|Hv]; [done|by apply IH]. Qed.

Lemma assoc_set_keeps {A} k (x : A) l v : is_Some (assoc v l) -> is_Some (assoc v (assoc_set k x l)).
Proof. destruct (decide (k = v)) as [->|Hn]; [by rewrite assoc_set_same|by rewrite assoc_set_other]. Qed.

Lemma snaplen_parts_keeps parts out s v : snaplen_parts out parts = Ok s -> is_Some (assoc v out) -> is_Some (assoc v s).
Proof.
  revert out. induction parts as [|p parts IH]; intros out; cbn [snaplen_parts]; [by intros [= ->]|]. destruct (partition_colon p) as [n raw].
  case_bool_decide; [|done]. intros Hp Hv. apply bind_Ok_inv in Hp as (k & _ & Hp). eapply IH; [exact Hp|]. by apply assoc_set_keeps.
Qed.

(** A length is known for every vantage that is asked for. *)
Lemma parse_snaplen_covers spec vantages s v : parse_snaplen spec vantages = Ok s -> v ∈ vantages -> exists n, snaplen_at s v = Ok n.
Proof.
  intros H Hv. assert (is_Some (assoc v s)) as [n Hn].
  { destruct spec as [spec|]; cbn [parse_snaplen] in H; [|injection H as <-; by rewrite assoc_constant].
    destruct (has_char ":" (strip spec)).
    - eapply snaplen_parts_keeps; [exact H|]. by rewrite assoc_constant.
    - apply bind_Ok_inv in H as (n & _ & H). apply Ok_inj in H as <-. by rewrite assoc_constant. }
  exists n. unfold snaplen_at. by rewrite Hn.
Qed.

Lemma when_nil {A} b (x : A) : when b [x] = [] -> b = false.
Proof. by destruct b. Qed.

Record served (c : wconfig) (direction : string) (bpf : list string) (rotation : bool) (v : string) : Prop := {
  served_vantage : exists x, vantage_of c v = Some x /\ v_available x = true /\ (bpf <> [] -> supports_filter x = true) /\
    (direction <> DIRECTION_DEFAULT -> supports_direction x = true) /\ (rotation = true -> supports_rotation x = true) }.

Lemma accepted_is_served c vantages direction bpf write detach json rotation present container v :
  validate_request c vantages direction bpf write detach json rotation present container = [] -> v ∈ vantages ->
  served c direction bpf rotation v /\ (v = VANTAGE_HOST -> present = true).
Proof.
  unfold validate_request. intros H Hv. apply app_eq_nil in H as [_ H]. apply app_eq_nil in H as [H1 H]. apply app_eq_nil in H as [H2 H].
  apply app_eq_nil in H as [H3%when_nil H]. apply app_eq_nil in H as [H4%when_nil H]. do 5 apply app_eq_nil in H as [_ H]. apply when_nil in H.
  assert (Hx : vantage_refusals c v = []).
  { apply list_elem_of_In, List.in_split in Hv as (a & b & ->). rewrite map_app, concat_app in H1. apply app_eq_nil in H1 as [_ H1]. cbn in H1. by apply app_eq_nil in H1 as [? _]. }
  unfold vantage_refusals in Hx. destruct (vantage_of c v) as [x|] eqn:E; [|done]. apply when_nil, negb_false_iff in Hx.
  assert (Hk : x ∈ omap (vantage_of c) vantages) by (apply list_elem_of_omap; eauto). apply list_elem_of_In in Hk.
  split; [constructor; exists x; split_and!; try done|].
  - intros Hb. destruct bpf as [|b0 bpf]; [done|]. destruct (supports_filter x) eqn:Es; [done|]. exfalso.
    assert (Hin : In (v_name x) (map v_name (List.filter (fun v => negb (supports_filter v)) (omap (vantage_of c) vantages)))).
    { apply in_map, filter_In. by rewrite Es. }
    by destruct (map v_name _).
  - intros Hd. destruct (String.eqb_spec direction DIRECTION_DEFAULT) as [|]; [done|]. cbn in H3. destruct (supports_direction x) eqn:Es; [done|].
    exfalso. rewrite (proj2 (existsb_exists _ _)) in H3; [done|]. exists x. by rewrite Es.
  - intros ->. cbn in H4. destruct (supports_rotation x) eqn:Es; [done|]. exfalso. rewrite (proj2 (existsb_exists _ _)) in H4; [done|]. exists x. by rewrite Es.
  - intros ->. apply andb_false_iff in H as [H|H]; [by apply negb_false_iff in H|]. by apply bool_decide_eq_false in H.
Qed.

Lemma steps_in_order {A B} (f : string -> res (string * A * B)) vs :
  (forall v, v ∈ vs -> exists d l, f v = Ok (v, d, l)) -> exists steps, mapM_res f vs = Ok steps /\ map (fun s => fst (fst s)) steps = vs.
Proof.
  induction vs as [|v vs IH]; intros Hf; [by exists []|]. destruct (Hf v) as (d & l & E); [by left|].
  destruct IH as (steps & Hs & Hm); [intros x Hx; apply Hf; by right|]. exists ((v, d, l) :: steps). cbn [mapM_res map]. rewrite E, bind_Ok, Hs, bind_Ok. cbn. by rewrite Hm.
Qed.

(** An accepted request has a plan with one step for each vantage, in the order asked
    for, and each of them is there and honors the filter, the direction and the rotation it
    was asked for. *)
Theorem accepted_request_is_planned rmem c uid spec vantages snaplen direction bpf write detach json rotation present container duration max_size :
  validate_request c vantages direction bpf write detach json rotation present container = [] ->
  parse_snaplen spec vantages = Ok snaplen -> w_uid c = Ok uid -> UID_MIN <= uid <= UID_MAX ->
  exists plan, build_plan rmem c vantages snaplen direction write duration max_size bpf container = Ok plan /\
    map (fun s => fst (fst s)) (pl_steps plan) = vantages /\ Forall (served c direction bpf rotation) vantages.
Proof.
  intros Hr Hs Hu Hrange. unfold build_plan. rewrite Hu, bind_Ok. set (podman := if w_is_vm c then _ else _). set (buffer := if bool_decide _ then _ else _).
  destruct (nflog_group uid) as [g|] eqn:Eg.
  2: { exfalso. destruct (nflog_group_range uid) as (_ & [_ Ho] & _). specialize (Ho Hrange). by rewrite Eg in Ho. }
  assert (Hstep : forall v, v ∈ vantages -> exists d l, plan_step c uid snaplen direction write (length vantages) bpf buffer podman v = Ok (v, d, l)).
  { intros v Hv. destruct (parse_snaplen_covers _ _ _ _ Hs Hv) as [n Hn]. destruct (accepted_is_served _ _ _ _ _ _ _ _ _ _ _ Hr Hv) as [[(x & Hx & _)] _].
    unfold plan_step. rewrite Hn, bind_Ok, Hx, bind_Ok. unfold pcap_rule_commands, pcap_output_rule, pcap_input_rule, tcpdump_argv. rewrite Eg, !bind_Ok.
    destruct (String.eqb v VANTAGE_HOST); [|destruct (w_is_vm c); eauto]. do 2 case_bool_decide; rewrite !bind_Ok; eauto. }
  destruct (steps_in_order _ _ Hstep) as (steps & -> & Hm). rewrite bind_Ok. eexists. split; [reflexivity|]. split; [exact Hm|].
  apply Forall_forall. intros v Hv. by eapply accepted_is_served.
Qed.
