(* ===== verification/PcapSession.v ===== *)
(** * Capture sessions: [lib/pcap_session.py] and the taps below it

    [run] is one capture with everything it installs, [cleanup] what the unit runs when the
    capture has ended in any way, and [_start_capture] of [lib/cmd_pcap.py] what starts it.

    [PcapNft] is what the host tap needs of nft, and [PcapNftLaws] what nft promises about
    the chains of the captures, where any command may also fail; the theorems are proved
    against it, and [Kernel] satisfies it.  The session's world adds the objects of the VM's
    QEMU, the staged file, the other files and the readers that run.  Parameters: which
    steps raise; whether QEMU creates the file of an object it accepts; what happens to the
    world while the capture waits; and [round((started - first) * ticks)]. *)
From S2P Require Import Prelude PyStr PyPath Toml WorkloadAddr NftElements PcapFile Pcap.
Local Open Scope Z_scope.

(** ** nft *)

Class PcapNft (K : Type) := {
  nft_run : list string -> K -> K * Z;
  (** [nft_chain]: the decoded listing, or [None] *)
  nft_chain : string -> K -> option tv }.

Section host_tap.
Context {K : Type} `{PcapNft K}.

Definition run_check (argv : list string) : io K unit := fun k =>
  let '(k', rc) := nft_run argv k in (k', if rc =? 0 then Ok tt else Raise CalledProcessError).

(** [run(argv)]: whether the status is zero. *)
Definition run_ok (argv : list string) : io K bool := fun k => let '(k', rc) := nft_run argv k in (k', Ok (rc =? 0)).

Definition chain_of (chain : string) : io K (option tv) := fun k => (k, Ok (nft_chain chain k)).

Definition host_up (plan : PcapPlan) : io K unit :=
  _ ← run_check [NFT_BIN; "-f"; NFT_SKELETON];
  n ← pure (snaplen_at (pl_snaplen plan) VANTAGE_HOST);
  commands ← pure (pcap_rule_commands (pl_uid plan) n (pl_direction plan));
  for_io run_check commands.

(** The total, and whether a rule was found. *)
Fixpoint matched_in (group : Z) (chains : list string) : io K (Z * bool) :=
  match chains with
  | [] => mret (0, false)
  | chain :: chains =>
      payload ← chain_of chain;
      '(n, here) ← match payload with
                   | None => mret (0, false)
                   | Some p =>
                       hs ← pure (log_rule_handles (Some p) (Some group));
                       match hs with [] => mret (0, false) | _ => n ← pure (log_rule_packets (Some p) (Some group)); mret (n, true) end
                   end;
      '(m, found) ← matched_in group chains;
      mret (n + m, here || found)
  end.

Definition matched_packets (uid : Z) : io K (option Z) :=
  group ← pure (nflog_group uid); '(total, found) ← matched_in group PCAP_CHAINS; mret (if (found : bool) then Some total else None).

(** [sorted(handles, reverse=True)]; nft's handles are integers. *)
Fixpoint insert_desc (n : Z) (l : list Z) : list Z :=
  match l with [] => [n] | m :: l' => if m <=? n then n :: l else m :: insert_desc n l' end.
Definition sorted_desc (l : list tv) : res (list Z) :=
  ns ← mapM_res (fun v => match v with TInt n => Ok n | _ => Raise TypeError end) l; Ok (foldr insert_desc [] ns).

Definition delete_chain_command (chain : string) : list string := [NFT_BIN; "delete"; "chain"] ++ NFT_TABLE ++ [chain].

Definition delete_handle (chain : string) (h : Z) : io K unit := _ ← run_ok (pcap_delete_command chain h); mret tt.

Definition chain_down (group : Z) (chain : string) : io K unit :=
  payload ← chain_of chain;
  match payload with
  | None => mret tt
  | Some p =>
      hs ← pure (log_rule_handles (Some p) (Some group)); handles ← pure (sorted_desc hs);
      _ ← for_io (delete_handle chain) handles;
      remaining ← chain_of chain;
      match remaining with
      | None => mret tt
      | Some r =>
          left ← pure (log_rule_handles (Some r) None);
          match left with [] => _ ← run_ok (delete_chain_command chain); mret tt | _ => mret tt end
      end
  end.

Definition host_down (uid : Z) : io K unit := group ← pure (nflog_group uid); for_io (chain_down group) PCAP_CHAINS.
End host_tap.

(** ** What nft promises *)

(** A rule of a capture: its handle, what it matches, the packets counted, the group. *)
Record nrule := mkRule { nr_handle : Z; nr_match : list tv; nr_packets : Z; nr_bytes : Z; nr_group : Z; nr_snaplen : Z }.

Definition json_rule (chain : string) (r : nrule) : tv :=
  TTab [("rule", TTab [("family", TStr "inet"); ("table", TStr "workload_filter"); ("chain", TStr chain); ("handle", TInt (nr_handle r));
    ("expr", TArr (map (fun m => TTab [("match", m)]) (nr_match r)
      ++ [TTab [("counter", TTab [("packets", TInt (nr_packets r)); ("bytes", TInt (nr_bytes r))])];
          TTab [("log", TTab [("snaplen", TInt (nr_snaplen r)); ("group", TInt (nr_group r))])]; TTab [("continue", TOther "NoneType" "None" "None" false)]]))])].

Definition json_chain (chain : string) (rs : list nrule) : tv :=
  TTab [("nftables", TArr (TTab [("metainfo", TTab [])] :: TTab [("chain", TTab [("name", TStr chain)])] :: map (json_rule chain) rs))].

(** The text of a rule that logs to a group. *)
Definition rule_text (group : Z) (text : string) : Prop :=
  exists uid snaplen, nflog_group uid = Ok group /\ (pcap_output_rule uid snaplen = Ok text \/ pcap_input_rule uid snaplen = Ok text).

Definition same_but {K} (rules : K -> string -> option (list nrule)) (chain : string) (k k' : K) : Prop :=
  forall c, c ∈ PCAP_CHAINS -> c <> chain -> rules k' c = rules k c.

Class PcapNftLaws (K : Type) `{PcapNft K} := {
  (** The rules of a chain of the captures, and whether nft answers. *)
  rules : K -> string -> option (list nrule);
  works : K -> Prop;
  law_handles k c rs : rules k c = Some rs -> NoDup (map nr_handle rs);
  law_listed k c p : c ∈ PCAP_CHAINS -> nft_chain c k = Some p -> exists rs, rules k c = Some rs /\ p = json_chain c rs;
  law_lists k c rs : works k -> c ∈ PCAP_CHAINS -> rules k c = Some rs -> nft_chain c k = Some (json_chain c rs);
  (** The skeleton neither declares nor flushes the chains of the captures. *)
  law_pcap_skeleton k k' rc : nft_run [NFT_BIN; "-f"; NFT_SKELETON] k = (k', rc) -> forall c, c ∈ PCAP_CHAINS -> rules k' c = rules k c;
  (** [add chain] creates what is not there. *)
  law_add_chain k k' rc c spec : c ∈ PCAP_CHAINS -> nft_run (add_chain c spec) k = (k', rc) ->
    same_but rules c k k' /\ rules k' c = if rc =? 0 then Some (default [] (rules k c)) else rules k c;
  (** [add rule] appends. *)
  law_add_rule k k' rc c text group : c ∈ PCAP_CHAINS -> rule_text group text -> nft_run (add_rule c text) k = (k', rc) ->
    same_but rules c k k' /\
    if rc =? 0 then exists rs r, rules k c = Some rs /\ rules k' c = Some (rs ++ [r]) /\ nr_group r = group else rules k' c = rules k c;
  law_delete_rule k k' rc c h : c ∈ PCAP_CHAINS -> nft_run (pcap_delete_command c h) k = (k', rc) ->
    same_but rules c k k' /\ (works k -> works k') /\
    (if rc =? 0 then exists rs, rules k c = Some rs /\ rules k' c = Some (List.filter (fun r => negb (nr_handle r =? h)) rs) else rules k' c = rules k c) /\
    (forall rs, works k -> rules k c = Some rs -> h ∈ map nr_handle rs -> rc = 0);
  (** [delete chain] takes the rules with it. *)
  law_delete_chain k k' rc c : c ∈ PCAP_CHAINS -> nft_run (delete_chain_command c) k = (k', rc) ->
    same_but rules c k k' /\ (works k -> works k') /\ (if rc =? 0 then rules k' c = None else rules k' c = rules k c) /\
    (forall rs, works k -> rules k c = Some rs -> rc = 0) }.

(** ** Taking the host tap down *)

Definition mine (g : Z) (r : nrule) : bool := nr_group r =? g.
Definition others (g : Z) (rs : list nrule) : list nrule := List.filter (fun r => negb (mine g r)) rs.

Lemma rule_handle_json c r group : rule_handle group (json_rule c r) = Ok (if match group with Some g => mine g r | None => true end then Some (TInt (nr_handle r)) else None).
Proof.
  assert (Hf : forall ms, first_log group (map (fun m => TTab [("match", m)]) ms
      ++ [TTab [("counter", TTab [("packets", TInt (nr_packets r)); ("bytes", TInt (nr_bytes r))])];
          TTab [("log", TTab [("snaplen", TInt (nr_snaplen r)); ("group", TInt (nr_group r))])]; TTab [("continue", TOther "NoneType" "None" "None" false)]])
      = Ok (match group with Some g => mine g r | None => true end)).
  { induction ms as [|m ms IH]; [by destruct group|]. exact IH. }
  specialize (Hf (nr_match r)). unfold json_rule. set (exprs := map _ _ ++ _) in *. clearbody exprs.
  change (rule_handle group _) with (b ← first_log group exprs; if (b : bool) then Ok (Some (TInt (nr_handle r))) else Ok None).
  rewrite Hf. by destruct group as [g|]; [destruct (mine g r)|].
Qed.

Lemma handles_listed c rs group :
  log_rule_handles (Some (json_chain c rs)) group = Ok (map (fun r => TInt (nr_handle r)) (List.filter (fun r => match group with Some g => mine g r | None => true end) rs)).
Proof.
  set (want := fun r => match group with Some g => mine g r | None => true end).
  assert (Hl : exists l, mapM_res (rule_handle group) (map (json_rule c) rs) = Ok l /\ omap (M:=list) (fun x => x) l = map (fun r => TInt (nr_handle r)) (List.filter want rs)).
  { induction rs as [|r rs (l & Hl & Hm)]; [by exists []|]. cbn [map mapM_res]. rewrite rule_handle_json, bind_Ok, Hl, bind_Ok.
    eexists. split; [reflexivity|]. cbn [List.filter]. fold (want r). destruct (want r); cbn; by rewrite Hm. }
  destruct Hl as (l & Hl & Hm).
  change (log_rule_handles (Some (json_chain c rs)) group) with
    (l ← (ys ← (ys ← mapM_res (rule_handle group) (map (json_rule c) rs); Ok (None :: ys)); Ok (None :: ys)); Ok (omap (M:=list) (fun x : option tv => x) l)).
  rewrite Hl, !bind_Ok. by rewrite <- Hm.
Qed.

Lemma elem_of_insert_desc n m l : n ∈ insert_desc m l <-> n = m \/ n ∈ l.
Proof. induction l as [|x l IH]; cbn; [set_solver|]. destruct (x <=? m); set_solver. Qed.

Lemma sorted_desc_ints l : exists l', sorted_desc (map (fun r => TInt (nr_handle r)) l) = Ok l' /\ forall n, n ∈ l' <-> n ∈ map nr_handle l.
Proof.
  unfold sorted_desc. assert (mapM_res (fun v => match v with TInt n => Ok n | _ => Raise TypeError end) (map (fun r => TInt (nr_handle r)) l) = Ok (map nr_handle l)) as ->.
  { induction l as [|r l IH]; [done|]. cbn [map mapM_res]. by rewrite bind_Ok, IH. }
  rewrite bind_Ok. eexists. split; [reflexivity|]. intros n. induction (map nr_handle l) as [|m ms IH]; [done|]. cbn [foldr]. rewrite elem_of_insert_desc, IH. set_solver.
Qed.

Section down.
Context {K : Type} `{PcapNftLaws K}.

Definition rule_list (k : K) (c : string) : list nrule := default [] (rules k c).

(** What taking a chain down does to it: the rules of others stay, in order; and where nft
    answers, they are what is left, and the chain goes with its last rule. *)
Record downed (g : Z) (c : string) (k k' : K) : Prop := {
  downed_rest : same_but rules c k k';
  downed_others : others g (rule_list k' c) = others g (rule_list k c);
  downed_works : works k -> works k';
  downed_exact : works k -> rules k' c = match rules k c with None => None | Some rs => match others g rs with [] => None | l => Some l end end }.

Lemma filter_others h g rs0 rs :
  NoDup (map nr_handle rs0) -> h ∈ map nr_handle (List.filter (mine g) rs0) -> (forall r, In r rs -> In r rs0) ->
  others g (List.filter (fun r => negb (nr_handle r =? h)) rs) = others g rs.
Proof.
  intros Hnd Hh Hsub. unfold others. induction rs as [|r rs IH]; [done|]. cbn [List.filter].
  assert (IH' := IH (fun x Hx => Hsub x (or_intror Hx))). destruct (Z.eqb_spec (nr_handle r) h) as [Eh|]; cbn [negb List.filter]; rewrite IH'; [|done].
  assert (mine g r = true) as ->; [|done]. apply list_elem_of_fmap in Hh as (r0 & E0 & Hr0). apply list_elem_of_In, filter_In in Hr0 as [Hr0 Hm].
  assert (r = r0) as ->; [|done]. assert (Hr : In r rs0) by (apply Hsub; by left).
  clear -Hnd Hr Hr0 Eh E0. subst h. induction rs0 as [|x rs0 IH]; [done|]. cbn [map] in Hnd. inversion Hnd as [|? ? Hx Hnd']; subst.
  assert (Hno : forall y, In y rs0 -> nr_handle y <> nr_handle x).
  { intros y Hy E. apply Hx. apply list_elem_of_fmap. exists y. split; [done|]. by apply list_elem_of_In. }
  destruct Hr as [->|Hr], Hr0 as [->|Hr0]; [done|by destruct (Hno r0 Hr0)|by destruct (Hno r Hr)|by apply IH].
Qed.

(** The state after the handles are deleted one by one, each with what it may. *)
Lemma delete_loop g c rs0 hs k rs :
  c ∈ PCAP_CHAINS -> NoDup (map nr_handle rs0) -> (forall h, h ∈ hs -> h ∈ map nr_handle (List.filter (mine g) rs0)) ->
  rules k c = Some rs -> (forall r, In r rs -> In r rs0) ->
  exists k' rs', for_io (delete_handle c) hs k = (k', Ok tt) /\ rules k' c = Some rs' /\ same_but rules c k k' /\ others g rs' = others g rs /\
    (forall r, In r rs' -> In r rs) /\ (works k -> works k' /\ forall r, In r rs' -> nr_handle r ∉ hs).
Proof.
  intros Hc Hnd. revert k rs. induction hs as [|h hs IH]; intros k rs Hhs Hk Hsub.
  { exists k, rs. split_and!; try done. intros Hw. split; [done|]. intros r _. by apply not_elem_of_nil. }
  cbn [for_io]. cbv [mbind io_bind delete_handle run_ok]. destruct (nft_run (pcap_delete_command c h) k) as [k1 rc] eqn:E.
  destruct (law_delete_rule k k1 rc c h Hc E) as (Hsame & Hw & Hr & Hdone). cbn [mret io_ret].
  assert (Hone : exists rs1, rules k1 c = Some rs1 /\ others g rs1 = others g rs /\ (forall r, In r rs1 -> In r rs) /\ (works k -> forall r, In r rs1 -> nr_handle r <> h)).
  { destruct (rc =? 0) eqn:Erc.
    - destruct Hr as (rs2 & E2 & E3). rewrite Hk in E2. injection E2 as <-. eexists. split; [exact E3|]. split_and!.
      + apply (filter_others h g rs0); [done|apply Hhs; by left|done].
      + by intros r [? _]%filter_In.
      + intros _ r [_ Hn]%filter_In. by intros Eh%Z.eqb_eq; rewrite Eh in Hn.
    - exists rs. split_and!; [by rewrite Hr|done|done|]. intros Hwk r Hin Eh. apply Z.eqb_neq in Erc. apply Erc, (Hdone rs Hwk Hk).
      apply list_elem_of_fmap. exists r. split; [done|]. by apply list_elem_of_In. }
  destruct Hone as (rs1 & Hk1 & Ho1 & Hs1 & Hn1).
  destruct (IH k1 rs1) as (k' & rs' & Hrun & Hk' & Hsame' & Ho' & Hs' & Hw'); [intros x Hx; apply Hhs; by right|done|by auto|].
  exists k', rs'. split_and!; try done.
  - intros x Hx Hne. by rewrite (Hsame' x Hx Hne), (Hsame x Hx Hne).
  - by rewrite Ho'.
  - by auto.
  - intros Hwk. destruct (Hw' (Hw Hwk)) as [Hwk' Hnot]. split; [done|]. intros r Hr'. apply not_elem_of_cons. split; [|by apply Hnot]. apply (Hn1 Hwk), Hs', Hr'.
Qed.

Lemma others_nil_app g rs rs' : others g rs' = others g rs -> (forall r, In r rs' -> mine g r = false) -> rs' = others g rs.
Proof.
  intros <- Hm. unfold others. induction rs' as [|r rs' IH]; [done|]. cbn [List.filter]. rewrite (Hm r) by (by left). cbn [negb]. f_equal. apply IH. intros x Hx. apply Hm. by right.
Qed.

(** One chain is taken down, whatever fails. *)
Lemma chain_down_spec g c k : c ∈ PCAP_CHAINS -> exists k', chain_down g c k = (k', Ok tt) /\ downed g c k k'.
Proof.
  intros Hc. cbv [chain_down mbind io_bind chain_of pure]. destruct (nft_chain c k) as [p|] eqn:Ep.
  2: { exists k. split; [done|]. constructor; try done. intros Hw. destruct (rules k c) as [rs|] eqn:Er; [|done]. by rewrite (law_lists k c rs Hw Hc Er) in Ep. }
  destruct (law_listed k c p Hc Ep) as (rs & Er & ->). rewrite handles_listed. destruct (sorted_desc_ints (List.filter (fun r => mine g r) rs)) as (hs & -> & Hhs).
  destruct (delete_loop g c rs hs k rs) as (k1 & rs1 & -> & Er1 & Hsame & Ho & Hsub & Hw); [done|by eapply law_handles|intros h Hh; by apply Hhs|done|done|].
  assert (Hgone : works k -> rs1 = others g rs).
  { intros Hwk. apply others_nil_app; [done|]. intros r Hr. destruct (mine g r) eqn:Em; [|done]. exfalso. destruct (Hw Hwk) as [_ Hnot]. apply (Hnot r Hr), Hhs.
    apply list_elem_of_fmap. exists r. split; [done|]. apply list_elem_of_In, filter_In. split; [by apply Hsub|done]. }
  destruct (nft_chain c k1) as [q|] eqn:Eq.
  2: { exists k1. split; [done|]. constructor; [done|unfold rule_list; by rewrite Er, Er1|intros Hwk; by apply Hw|].
    intros Hwk. by rewrite (law_lists k1 c rs1 (proj1 (Hw Hwk)) Hc Er1) in Eq. }
  destruct (law_listed k1 c q Hc Eq) as (rs2 & Er2 & ->). rewrite Er1 in Er2. injection Er2 as <-. rewrite handles_listed.
  destruct rs1 as [|r1 rs1]; cbn [List.filter map].
  - cbv [run_ok]. destruct (nft_run (delete_chain_command c) k1) as [k2 rc] eqn:E2. destruct (law_delete_chain k1 k2 rc c Hc E2) as (Hs2 & Hw2 & Hr2 & Hd2).
    exists k2. split; [done|]. constructor.
    + intros x Hx Hne. by rewrite (Hs2 x Hx Hne), (Hsame x Hx Hne).
    + unfold rule_list. rewrite Er. change (default [] (Some rs)) with rs. rewrite <- Ho. destruct (rc =? 0); rewrite Hr2; [done|by rewrite Er1].
    + intros Hwk. by apply Hw2, Hw.
    + intros Hwk. rewrite Er, <- (Hgone Hwk). rewrite (Hd2 [] (proj1 (Hw Hwk)) Er1) in Hr2. exact Hr2.
  - exists k1. split; [done|]. constructor; [done|unfold rule_list; by rewrite Er, Er1|intros Hwk; by apply Hw|].
    intros Hwk. by rewrite Er, <- (Hgone Hwk).
Qed.

(** Both chains: the rules of every other group are as they were, whatever fails; where
    nft answers, they are all that is left. *)
Record rules_down (g : Z) (k k' : K) : Prop := {
  rd_others : forall c, c ∈ PCAP_CHAINS -> others g (rule_list k' c) = others g (rule_list k c);
  rd_works : works k -> works k';
  rd_exact : works k -> forall c, c ∈ PCAP_CHAINS -> rules k' c = match rules k c with None => None | Some rs => match others g rs with [] => None | l => Some l end end }.

Lemma host_down_spec uid g k : nflog_group uid = Ok g -> exists k', host_down uid k = (k', Ok tt) /\ rules_down g k k'.
Proof.
  intros Hg. unfold host_down. rewrite Hg. cbv [mbind io_bind pure]. cbn [for_io PCAP_CHAINS]. cbv [mbind io_bind].
  destruct (chain_down_spec g PCAP_OUTPUT_CHAIN k) as (k1 & -> & D1); [by left|]. destruct (chain_down_spec g PCAP_INPUT_CHAIN k1) as (k2 & -> & D2); [by right; left|].
  exists k2. split; [done|].
  assert (E1 : rules k2 PCAP_OUTPUT_CHAIN = rules k1 PCAP_OUTPUT_CHAIN) by (apply (downed_rest _ _ _ _ D2); [by left|done]).
  assert (E2 : rules k1 PCAP_INPUT_CHAIN = rules k PCAP_INPUT_CHAIN) by (apply (downed_rest _ _ _ _ D1); [by right; left|done]).
  assert (Hcs : forall P : string -> Prop, P PCAP_OUTPUT_CHAIN -> P PCAP_INPUT_CHAIN -> forall c, c ∈ PCAP_CHAINS -> P c).
  { intros P H1 H2 c [->|[->|[]%not_elem_of_nil]%elem_of_cons]%elem_of_cons; done. }
  constructor.
  - apply Hcs; [|rewrite (downed_others _ _ _ _ D2)]; unfold rule_list; [rewrite E1; apply (downed_others _ _ _ _ D1)|by rewrite E2].
  - intros Hw. by apply (downed_works _ _ _ _ D2), (downed_works _ _ _ _ D1).
  - intros Hw. apply Hcs; [rewrite E1; by apply (downed_exact _ _ _ _ D1)|]. rewrite <- E2. by apply (downed_exact _ _ _ _ D2), (downed_works _ _ _ _ D1).
Qed.
End down.

(** ** The session *)

Inductive pstep := SObjectAdd | SObjectDel | SProbe | SInspect | SReader (vantage : string) | SWait | SMove | SReport.

(** nft; the objects of the VM's QEMU; the staged file; the other files; the readers that
    run; and the two locals of [run] that its [finally] reads. *)
Record sess (K : Type) := mkSess {
  ss_nft : K; ss_objects : gset string; ss_stage : option (list Z); ss_files : gmap string (list Z); ss_readers : list (list string);
  ss_object : option string; ss_started : bool }.
Arguments mkSess {K}. Arguments ss_nft {K}. Arguments ss_objects {K}. Arguments ss_stage {K}. Arguments ss_files {K}. Arguments ss_readers {K}.
Arguments ss_object {K}. Arguments ss_started {K}.

(** [report_completeness]: what it says. *)
Inductive report := NoRule | Matched (n : Z) | Complete (n : Z) (captured : option Z) | Incomplete (n captured : Z).

Section session.
Context {K : Type} `{PcapNft K}.
Variable fault : pstep -> option exn.
(** Whether QEMU takes the object, and whether it then creates the file. *)
Variables accepts creates : bool.
(** What the world does while the capture waits. *)
Variable waited : sess K -> sess K.
(** [round((started - first) * ticks)] *)
Variable offset_ticks : Z * Z * Z -> Z -> Z.
(** The pid of the container's process, and the interface of its default route. *)
Variable netns_pid : option Z.
Variable interface : string.
Variable name : string.
Variable plan : PcapPlan.
Variable opts : tcpdump_options.

Definition slook {A} (f : sess K -> A) : io (sess K) A := fun w => (w, Ok (f w)).
Definition schange (f : sess K -> sess K) : io (sess K) unit := fun w => (f w, Ok tt).
Definition step (s : pstep) : io (sess K) unit := pure (match fault s with Some e => Raise e | None => Ok tt end).
Definition on_nft {A} (m : io K A) : io (sess K) A := fun w =>
  let '(k, r) := m (ss_nft w) in (mkSess k (ss_objects w) (ss_stage w) (ss_files w) (ss_readers w) (ss_object w) (ss_started w), r).

Definition set_objects (o : gset string) (stage : option (list Z)) (w : sess K) : sess K :=
  mkSess (ss_nft w) o stage (ss_files w) (ss_readers w) (ss_object w) (ss_started w).
Definition set_files (stage : option (list Z)) (files : gmap string (list Z)) (w : sess K) : sess K :=
  mkSess (ss_nft w) (ss_objects w) stage files (ss_readers w) (ss_object w) (ss_started w).
Definition set_readers (rs : list (list string)) (w : sess K) : sess K :=
  mkSess (ss_nft w) (ss_objects w) (ss_stage w) (ss_files w) rs (ss_object w) (ss_started w).
Definition set_locals (o : option string) (started : bool) (w : sess K) : sess K :=
  mkSess (ss_nft w) (ss_objects w) (ss_stage w) (ss_files w) (ss_readers w) o started.

Definition wants (v : string) : bool := bool_decide (v ∈ pl_vantages plan).
Definition path_at (v : string) : option string := vantage_path (pl_write plan) v (length (pl_vantages plan)).

(** [qmp_command(name, "object-add", obj)]: an answer that is an error is returned like any
    other, and QEMU refuses an id it has. *)
Definition object_add (id : string) : io (sess K) unit :=
  _ ← step SObjectAdd;
  schange (fun w => if accepts && bool_decide (id ∉ ss_objects w) then set_objects ({[id]} ∪ ss_objects w) (if creates then Some [] else ss_stage w) w else w).

Definition object_del (id : string) : io (sess K) unit :=
  _ ← step SObjectDel; schange (fun w => set_objects (ss_objects w ∖ {[id]}) (ss_stage w) w).

(** [except Exception] takes what is no exit. *)
Definition any_exception (e : exn) : bool := negb (bool_decide (e = SystemExit)).

Definition guest_vm_down (id : string) : io (sess K) unit := try_io (object_del id) any_exception (fun _ => mret tt).

Definition guest_vm_up : io (sess K) (option string) :=
  n ← pure (snaplen_at (pl_snaplen plan) VANTAGE_GUEST);
  let id := filter_dump_id 0 in
  taken ← try_io (_ ← object_add id; mret true) any_exception (fun _ => mret false);
  if negb taken then mret None
  else
    there ← slook (fun w => bool_decide (is_Some (ss_stage w)));
    if (there : bool) then mret (Some id) else _ ← guest_vm_down id; mret None.

(** [emit_probe]: what it raises is an address that cannot be derived. *)
Definition emit_probe : io (sess K) unit := _ ← pure (management_address (pl_uid plan)); _ ← step SProbe; schange (fun w => set_locals (ss_object w) true w).

Definition spawn (v : string) (argv : list string) : io (sess K) unit := _ ← step (SReader v); schange (fun w => set_readers (ss_readers w ++ [argv]) w).

Definition container_argv (pid n : Z) (path : option string) : list string :=
  ["nsenter"; "-t"; str_Z pid; "-n"; "tcpdump"; "-i"; interface; "-s"; str_Z n; "-U"]
  ++ match given_path path with Some p => ["-w"; p] | None => [] end ++ bpf opts.

Definition container_reader : io (sess K) unit :=
  _ ← step SInspect;
  pid ← pure (match (match pl_podman_container plan with Some c => if String.eqb c "" then None else netns_pid | None => None end) with
              | Some pid => Ok pid | None => Raise RuntimeError end);
  n ← pure (snaplen_at (pl_snaplen plan) VANTAGE_GUEST);
  spawn VANTAGE_GUEST (container_argv pid n (path_at VANTAGE_GUEST)).

Definition host_reader : io (sess K) unit :=
  n ← pure (snaplen_at (pl_snaplen plan) VANTAGE_HOST);
  argv ← pure (tcpdump_argv (pl_uid plan) n (path_at VANTAGE_HOST) opts (pl_buffer_kib plan));
  spawn VANTAGE_HOST argv.

Definition is_vm_plan : bool := starts_with "VM" (pl_substrate plan).

(** [correct_timestamps]: the file is replaced whole, or left; of what the writer raises,
    [struct.error] is not caught. *)
Definition corrected (started : bool) (file : list Z) : res (list Z) :=
  if started then
    match pcap_first_timestamp file with
    | Ok (Some first) =>
        match pcap_shift_timestamps file (offset_ticks first) with
        | Ok (file', _) => Ok file'
        | Raise e => if is_oserror e || bool_decide (e = ValueError) then Ok file else Raise e
        end
    | _ => Ok file
    end
  else Ok file.

Definition finalize_guest (dest : option string) : io (sess K) unit :=
  stage ← slook ss_stage;
  match stage with
  | None => mret tt
  | Some file =>
      started ← slook ss_started;
      file' ← pure (corrected started file);
      _ ← schange (fun w => set_files (Some file') (ss_files w) w);
      match given_path dest with
      | None => schange (fun w => set_files None (ss_files w) w)
      | Some d =>
          if String.eqb d "-" then schange (fun w => set_files None (ss_files w) w)
          else _ ← step SMove; schange (fun w => set_files None (<[d := default [] (ss_stage w)]> (ss_files w)) w)
      end
  end.

(** [_packet_count] of the file, when there is one. *)
Definition report_of (matched : option Z) (file : option (list Z)) : report :=
  match matched with
  | None => NoRule
  | Some n =>
      match file with
      | None => Matched n
      | Some f => match pcap_packet_count f with
                  | Raise _ => Complete n None
                  | Ok k => if n <=? k then Complete n (Some k) else Incomplete n k
                  end
      end
  end.

Definition report_completeness : io (sess K) report :=
  _ ← step SReport;
  matched ← on_nft (matched_packets (pl_uid plan));
  slook (fun w => report_of matched (match given_path (path_at VANTAGE_HOST) with Some p => if String.eqb p "-" then None else ss_files w !! p | None => None end)).

(** ** [run] *)

(** [Some] is an early [return]. *)
Definition guest_part : io (sess K) (option Z) :=
  if wants VANTAGE_GUEST then
    if is_vm_plan then
      o ← guest_vm_up;
      match o with
      | None => mret (Some 1)
      | Some id => _ ← schange (fun w => set_locals (Some id) (ss_started w) w); _ ← emit_probe; mret None
      end
    else _ ← container_reader; mret None
  else mret None.

Definition run_body : io (sess K) Z :=
  _ ← (if wants VANTAGE_HOST then on_nft (host_up plan) else mret tt);
  early ← guest_part;
  match early with
  | Some rc => mret rc
  | None =>
      _ ← (if wants VANTAGE_HOST then host_reader else mret tt);
      _ ← schange waited; _ ← step SWait;
      mret 0
  end.

Definition run_finally : io (sess K) unit :=
  object ← slook ss_object;
  _ ← match object with Some id => _ ← guest_vm_down id; finalize_guest (path_at VANTAGE_GUEST) | None => mret tt end;
  _ ← schange (set_readers []);
  if wants VANTAGE_HOST then _ ← report_completeness; on_nft (host_down (pl_uid plan)) else mret tt.

Definition run : io (sess K) Z := _ ← schange (fun w => set_readers [] (set_locals None false w)); finally run_body run_finally.

(** ** [cleanup] *)

(** [uid] is that of the workload's user, if there is one. *)
Definition cleanup (uid : option Z) : io (sess K) Z :=
  match uid with
  | None => mret 0
  | Some u =>
      _ ← on_nft (host_down u);
      _ ← guest_vm_down (filter_dump_id 0);
      mret 0
  end.
End session.

(** ** Other captures *)

Section untouched.
Context {K : Type} `{PcapNftLaws K}.

(** The rules of every other group are as they were. *)
Definition kept (g : Z) (k k' : K) : Prop := forall c, c ∈ PCAP_CHAINS -> others g (rule_list k' c) = others g (rule_list k c).

#[export] Instance kept_preorder g : PreOrder (kept g).
Proof. split; [by intros k c|]. intros k1 k2 k3 H1 H2 c Hc. by rewrite (H2 c Hc), (H1 c Hc). Qed.

Lemma run_check_kept g argv : (forall k k' rc, nft_run argv k = (k', rc) -> kept g k k') -> within (kept g) (run_check argv).
Proof. intros Hk k. unfold run_check. destruct (nft_run argv k) as [k' rc] eqn:E. cbn. by eapply Hk. Qed.

Lemma add_chain_kept g c spec : c ∈ PCAP_CHAINS -> within (kept g) (run_check (add_chain c spec)).
Proof.
  intros Hc. apply run_check_kept. intros k k' rc E x Hx. destruct (law_add_chain k k' rc c spec Hc E) as [Hs Hr]. unfold rule_list.
  destruct (decide (x = c)) as [->|Hne]; [|by rewrite (Hs x Hx Hne)]. rewrite Hr. by destruct (rc =? 0), (rules k c).
Qed.

Lemma add_rule_kept g c text : c ∈ PCAP_CHAINS -> rule_text g text -> within (kept g) (run_check (add_rule c text)).
Proof.
  intros Hc Ht. apply run_check_kept. intros k k' rc E x Hx. destruct (law_add_rule k k' rc c text g Hc Ht E) as [Hs Hr]. unfold rule_list.
  destruct (decide (x = c)) as [->|Hne]; [|by rewrite (Hs x Hx Hne)]. destruct (rc =? 0); [|by rewrite Hr].
  destruct Hr as (rs & r & -> & -> & Hg). change (default [] (Some ?l)) with l. unfold others. rewrite List.filter_app. cbn [List.filter].
  assert (mine g r = true) as -> by (unfold mine; by apply Z.eqb_eq). cbn. apply app_nil_r.
Qed.

(** The commands of a capture create its chains and append rules of its group. *)
Lemma rule_commands_kept g uid n dir commands :
  nflog_group uid = Ok g -> pcap_rule_commands uid n dir = Ok commands -> forall cmd, cmd ∈ commands -> within (kept g) (run_check cmd).
Proof.
  intros Hg Hc. apply bind_Ok_inv in Hc as (out & Ho & Hc). apply bind_Ok_inv in Hc as (inb & Hi & Hc). apply Ok_inj in Hc as <-.
  assert (H1 : forall cmd, cmd ∈ out -> within (kept g) (run_check cmd)).
  { destruct (bool_decide (dir ∈ ["out"; "inout"])); [|apply Ok_inj in Ho as <-; by intros ? ?%not_elem_of_nil]. apply bind_Ok_inv in Ho as (r & Hr & Ho). apply Ok_inj in Ho as <-.
    intros cmd [->|[->|[]%not_elem_of_nil]%elem_of_cons]%elem_of_cons; [apply add_chain_kept; by left|]. apply add_rule_kept; [by left|]. exists uid, n. eauto. }
  assert (H2 : forall cmd, cmd ∈ inb -> within (kept g) (run_check cmd)).
  { destruct (bool_decide (dir ∈ ["in"; "inout"])); [|apply Ok_inj in Hi as <-; by intros ? ?%not_elem_of_nil]. apply bind_Ok_inv in Hi as (r & Hr & Hi). apply Ok_inj in Hi as <-.
    intros cmd [->|[->|[]%not_elem_of_nil]%elem_of_cons]%elem_of_cons; [apply add_chain_kept; by right; left|]. apply add_rule_kept; [by right; left|]. exists uid, n. eauto. }
  intros cmd [Hm|Hm]%elem_of_app; auto.
Qed.

Lemma host_up_kept g plan : nflog_group (pl_uid plan) = Ok g -> within (kept g) (host_up plan).
Proof.
  intros Hg. unfold host_up. apply within_bind; [apply _| |intros _].
  - apply run_check_kept. intros k k' rc E c Hc. unfold rule_list. by rewrite (law_pcap_skeleton k k' rc E c Hc).
  - apply within_bind; [apply _|apply within_pure, _|intros n]. intros k. destruct (pcap_rule_commands (pl_uid plan) n (pl_direction plan)) as [cs|e] eqn:E; [|done].
    revert k. change (within (kept g) (for_io run_check cs)). apply within_for; [apply _|]. by eapply rule_commands_kept.
Qed.

Lemma host_down_kept g uid : nflog_group uid = Ok g -> within (kept g) (host_down uid).
Proof. intros Hg k. destruct (host_down_spec uid g k Hg) as (k' & -> & Hd). exact (rd_others _ _ _ Hd). Qed.

Lemma matched_in_same g chains k : fst (matched_in g chains k) = k.
Proof.
  revert k. induction chains as [|c cs IH]; intros k; [done|]. cbn [matched_in]. cbv [mbind io_bind chain_of pure]. specialize (IH k).
  destruct (nft_chain c k) as [p|]; [destruct (log_rule_handles (Some p) (Some g)) as [[|h hs]|]; [|destruct (log_rule_packets _ _)|]|]; try done;
    cbn; by destruct (matched_in g cs k) as [k' [[m f]|e]].
Qed.

Lemma matched_packets_same uid k : fst (matched_packets uid k) = k.
Proof.
  unfold matched_packets. destruct (nflog_group uid) as [g|]; [|done]. cbv [mbind io_bind pure]. pose proof (matched_in_same g PCAP_CHAINS k) as E.
  by destruct (matched_in g PCAP_CHAINS k) as [k' [[m f]|e]].
Qed.
End untouched.

Section sessions.
Context {K : Type} `{PcapNftLaws K}.
Variable g : Z.

Definition sess_kept (w w' : sess K) : Prop := kept g (ss_nft w) (ss_nft w').

#[export] Instance sess_kept_preorder : PreOrder sess_kept.
Proof. split; [intros w; unfold sess_kept; reflexivity|]. intros w1 w2 w3 H1 H2. unfold sess_kept in *. by etrans. Qed.

Lemma change_kept f : (forall w, ss_nft (f w) = ss_nft w) -> within sess_kept (schange f).
Proof. intros Hf w. unfold sess_kept. cbn. rewrite Hf. reflexivity. Qed.

Lemma look_kept {A} (f : sess K -> A) : within sess_kept (slook f).
Proof. intros w. cbn. reflexivity. Qed.

Lemma step_kept fault s : within sess_kept (step fault s).
Proof. apply within_pure, _. Qed.

Lemma on_nft_kept {A} (m : io K A) : within (kept g) m -> within sess_kept (on_nft m).
Proof. intros Hm w. unfold on_nft. specialize (Hm (ss_nft w)). by destruct (m (ss_nft w)). Qed.

Lemma on_nft_same {A} (m : io K A) : (forall k, fst (m k) = k) -> within sess_kept (on_nft m).
Proof. intros Hm. apply on_nft_kept. intros k. rewrite Hm. reflexivity. Qed.

Create HintDb capture.
#[local] Hint Resolve look_kept step_kept : capture.
#[local] Hint Extern 2 (within sess_kept (pure _)) => apply within_pure; apply _ : capture.
#[local] Hint Extern 2 (within sess_kept (mret _)) => apply within_ret; apply _ : capture.
#[local] Hint Extern 2 (within sess_kept (schange _)) => apply change_kept; intros ?; done : capture.
#[local] Hint Extern 3 (within sess_kept (mbind _ _)) => apply within_bind; [apply _| |intros ?] : capture.
#[local] Hint Extern 3 (within sess_kept (try_io _ _ _)) => apply within_try; [apply _| |intros ?] : capture.

Lemma object_add_kept fault accepts creates id : within sess_kept (object_add fault accepts creates id).
Proof. unfold object_add. apply within_bind; [apply _|auto with capture|intros _]. apply change_kept. intros w. by destruct (_ && _). Qed.

Lemma object_del_kept fault id : within sess_kept (object_del fault id).
Proof. unfold object_del. auto 10 with capture. Qed.
#[local] Hint Resolve object_add_kept object_del_kept : capture.

Lemma guest_down_kept fault id : within sess_kept (guest_vm_down fault id).
Proof. unfold guest_vm_down. auto 10 with capture. Qed.
#[local] Hint Resolve guest_down_kept : capture.

Lemma guest_part_kept fault accepts creates pid iface plan opts : within sess_kept (guest_part fault accepts creates pid iface plan opts).
Proof.
  unfold guest_part. destruct (wants plan VANTAGE_GUEST); [|auto with capture]. destruct (is_vm_plan plan).
  - apply within_bind; [apply _| |].
    + unfold guest_vm_up. do 2 (apply within_bind; [apply _|auto 10 with capture|intros ?]). destruct (negb _); [auto with capture|].
      apply within_bind; [apply _|auto with capture|intros []]; auto 10 with capture.
    + intros [id|]; unfold emit_probe; auto 20 with capture.
  - unfold container_reader, spawn. auto 20 with capture.
Qed.

Lemma finalize_kept fault offset dest : within sess_kept (finalize_guest fault offset dest).
Proof.
  unfold finalize_guest. apply within_bind; [apply _|auto with capture|intros [file|]]; [|auto with capture].
  do 3 (apply within_bind; [apply _|auto with capture|intros ?]). destruct (given_path dest) as [d|]; [|auto with capture]. destruct (String.eqb d "-"); auto 10 with capture.
Qed.

(** The others' rules are kept, but for what happens once, while the capture waits. *)
Section around.
Variable waited : sess K -> sess K.

(** The state from which on the others' rules are kept: the first one, or the one in which
    the wait ends. *)
Definition since (w u : sess K) : Prop := sess_kept w u \/ exists v, sess_kept w v /\ u = waited v.
Definition around (w w' : sess K) : Prop := exists u, since w u /\ sess_kept u w'.

Lemma kept_around w w' : sess_kept w w' -> around w w'.
Proof. intros Hk. exists w. split; [left|]; [reflexivity|done]. Qed.

Lemma around_after w w1 w' : sess_kept w w1 -> around w1 w' -> around w w'.
Proof. intros Hk (u & [Hu|(v & Hv & ->)] & Hw); eexists; (split; [|exact Hw]); [left|right; exists v; split; [|done]]; by etrans. Qed.

Lemma around_then w w1 w' : around w w1 -> sess_kept w1 w' -> around w w'.
Proof. intros (u & Hu & Hk) Hk'. exists u. split; [done|by etrans]. Qed.

Lemma around_bind {A B} (m : io (sess K) A) (f : A -> io (sess K) B) :
  within sess_kept m -> (forall a, within around (f a)) -> within around (x ← m; f x).
Proof.
  intros Hm Hf w. specialize (Hm w). cbv [mbind io_bind]. destruct (m w) as [w1 [a|e]]; cbn in *; [|by apply kept_around].
  eapply around_after; [exact Hm|apply Hf].
Qed.

Lemma within_around {A} (m : io (sess K) A) : within sess_kept m -> within around m.
Proof. intros Hm w. apply kept_around, Hm. Qed.

(** A capture, however it ends, leaves the rules of every other one as they are, but for
    what the others do while it waits. *)
Lemma run_around fault accepts creates offset pid iface plan opts :
  nflog_group (pl_uid plan) = Ok g -> within around (run fault accepts creates waited offset pid iface plan opts).
Proof.
  intros Hg. unfold run. apply around_bind; [auto with capture|intros _].
  assert (Hb : within around (run_body fault accepts creates waited pid iface plan opts)).
  { unfold run_body. apply around_bind; [|intros _].
    - destruct (wants plan VANTAGE_HOST); [|auto with capture]. by apply on_nft_kept, host_up_kept.
    - apply around_bind; [apply guest_part_kept|intros [rc|]]; [apply within_around; auto with capture|]. apply around_bind; [|intros _].
      + destruct (wants plan VANTAGE_HOST); unfold host_reader, spawn; auto 20 with capture.
      + intros w. cbv [mbind io_bind schange]. exists (waited w). split; [right; exists w; split; [reflexivity|done]|].
        assert (Hk : within sess_kept (_ ← step fault SWait; mret 0)) by auto 10 with capture. exact (Hk (waited w)). }
  assert (Hf : within sess_kept (run_finally fault offset plan)).
  { unfold run_finally. apply within_bind; [apply _|auto with capture|intros o]. apply within_bind; [apply _| |intros _].
    - destruct o; [|auto with capture]. apply within_bind; [apply _|auto with capture|intros _]. apply finalize_kept.
    - apply within_bind; [apply _|auto with capture|intros _]. destruct (wants plan VANTAGE_HOST); [|auto with capture].
      apply within_bind; [apply _| |intros _; by apply on_nft_kept, host_down_kept]. unfold report_completeness.
      apply within_bind; [apply _|auto with capture|intros _]. apply within_bind; [apply _|apply on_nft_same, matched_packets_same|auto with capture]. }
  intros w. unfold finally. specialize (Hb w). destruct (run_body _ _ _ _ _ _ _ _ w) as [w1 r]. specialize (Hf w1).
  destruct (run_finally _ _ _ w1) as [w2 [?|?]]; cbn in *; by eapply around_then.
Qed.
End around.

(** What the unit's [ExecStopPost] does, in whatever state the capture left. *)
Lemma cleanup_spec fault uid w :
  nflog_group uid = Ok g -> fault SObjectDel <> Some SystemExit ->
  exists w', cleanup fault (Some uid) w = (w', Ok 0) /\ rules_down g (ss_nft w) (ss_nft w') /\ ss_stage w' = ss_stage w /\ ss_files w' = ss_files w /\
    ss_objects w' = (if fault SObjectDel then ss_objects w else ss_objects w ∖ {[filter_dump_id 0]}).
Proof.
  intros Hg Hf. unfold cleanup. cbv [mbind io_bind on_nft]. destruct (host_down_spec uid g (ss_nft w) Hg) as (k' & -> & Hd).
  cbv [guest_vm_down try_io object_del mbind io_bind step pure schange]. destruct (fault SObjectDel) as [e|] eqn:E.
  - assert (any_exception e = true) as ->; [|by eexists]. unfold any_exception. apply negb_true_iff, bool_decide_eq_false. congruence.
  - by eexists.
Qed.
End sessions.

(** ** The whole capture *)


(** ** Waiting *)

(** One look at the readers and at the files. *)
Record look := mkLook { lk_exited : list bool; lk_size : string -> option Z }.

Inductive wait_end := ReaderExited | SizeReached (total : Z).

Definition wait_paths (plan : PcapPlan) : list string :=
  omap (fun v => p ← given_path (path_at plan v); if String.eqb p "-" then None else Some p) (pl_vantages plan).

Definition wait_step (readers : nat) (plan : PcapPlan) (l : look) : option wait_end :=
  if existsb (fun b => b) (take readers (lk_exited l)) then Some ReaderExited
  else if pl_max_size plan =? 0 then None
  else let total := foldr Z.add 0 (omap (lk_size l) (wait_paths plan)) in
       if pl_max_size plan <=? total then Some (SizeReached total) else None.

(** [_wait]: how the first look that ends it does; [None] while none does. *)
Fixpoint _wait (readers : nat) (plan : PcapPlan) (looks : list look) : option wait_end :=
  match looks with
  | [] => None
  | l :: looks => match wait_step readers plan l with Some e => Some e | None => _wait readers plan looks end
  end.

(** A bound on the size ends the wait at the first look at which the files of the vantages
    have it, if no reader has ended it before. *)
Lemma size_ends_the_wait readers plan looks l later :
  pl_max_size plan <> 0 -> pl_max_size plan <= foldr Z.add 0 (omap (lk_size l) (wait_paths plan)) -> is_Some (_wait readers plan (looks ++ l :: later)).
Proof.
  intros Hm Ht. induction looks as [|x looks IH]; cbn [app _wait].
  - unfold wait_step. destruct (existsb _ _); [by eexists|]. destruct (Z.eqb_spec (pl_max_size plan) 0); [done|].
    destruct (pl_max_size plan <=? _) eqn:E; [by eexists|]. apply Z.leb_gt in E. lia.
  - destruct (wait_step readers plan x); [by eexists|exact IH].
Qed.

(** A capture of a VM's guest side alone has no reader, and the file it watches is the one
    that appears when it ends: no size of the staged file ends it. *)
Lemma guest_size_is_not_watched plan looks dest :
  pl_vantages plan = [VANTAGE_GUEST] -> given_path (pl_write plan) = Some dest -> 0 <= pl_max_size plan ->
  (forall l, In l looks -> lk_size l dest = None) -> _wait 0 plan looks = None.
Proof.
  intros Hv Hd Hm Hl. assert (Hp : forall p, p ∈ wait_paths plan -> p = dest).
  { unfold wait_paths, path_at. rewrite Hv. unfold vantage_path. rewrite Hd. cbn -[String.eqb given_path]. intros p Hp.
    destruct (String.eqb dest "-") eqn:E; rewrite ?Hd in Hp; cbn -[String.eqb] in Hp.
    - rewrite E in Hp. by apply not_elem_of_nil in Hp.
    - unfold given_path in Hp. assert (String.eqb dest "" = false) as Hne. { unfold given_path in Hd. destruct (pl_write plan) as [x|]; [|done]. destruct (String.eqb x "") eqn:Ex; [done|]. by injection Hd as <-. }
      rewrite Hne in Hp. cbn -[String.eqb] in Hp. rewrite E in Hp. by apply list_elem_of_singleton in Hp. }
  induction looks as [|l looks IH]; [done|]. cbn [_wait]. rewrite IH by (intros x Hx; apply Hl; by right).
  unfold wait_step. cbn [take existsb]. destruct (pl_max_size plan =? 0) eqn:E0; [done|].
  assert (Hs : foldr Z.add 0 (omap (lk_size l) (wait_paths plan)) = 0).
  { induction (wait_paths plan) as [|p ps IHp]; [done|]. cbn. rewrite (Hp p) by (by left). rewrite (Hl l) by (by left). apply IHp. intros q Hq. apply Hp. by right. }
  rewrite Hs. apply Z.eqb_neq in E0. destruct (pl_max_size plan <=? 0) eqn:E1; [|done]. apply Z.leb_le in E1. lia.
Qed.

(** ** A machine that satisfies the laws *)

Module Kernel.

Record raw := mkRaw { kn_loaded : bool; kn_chains : list (string * list nrule); kn_next : Z }.

Definition ok (r : raw) : bool := forallb (fun c => bool_decide (NoDup (map nr_handle (snd c)))) (kn_chains r).

(** The handles of a chain are different. *)
Definition kernel : Type := { r : raw | ok r = true }.

Definition commit (k : kernel) (r : raw) : kernel * Z :=
  match Bool.bool_dec (ok r) true with left H => (exist _ r H, 0) | right _ => (k, 1) end.

Fixpoint number_after (key : string) (l : list string) : option Z :=
  match l with
  | [] => None
  | x :: l => if String.eqb x key then match l with y :: _ => py_int y | [] => None end else number_after key l
  end.

Definition chains_of (k : kernel) : list (string * list nrule) := kn_chains (proj1_sig k).
Definition k_rules (k : kernel) (c : string) : option (list nrule) := assoc c (chains_of k).
Definition set_chains (k : kernel) (cs : list (string * list nrule)) (next : Z) : kernel * Z := commit k (mkRaw (kn_loaded (proj1_sig k)) cs next).

Definition on_chain (action object chain : string) (rest : list string) (k : kernel) : kernel * Z :=
  let next := kn_next (proj1_sig k) in
  match k_rules k chain with
  | None => if String.eqb action "add" && String.eqb object "chain" then set_chains k (chains_of k ++ [(chain, [])]) next else (k, 1)
  | Some rs =>
      if String.eqb action "add" then
        if String.eqb object "chain" then (k, 0)
        else match number_after "group" rest with
             | Some g => set_chains k (assoc_set chain (rs ++ [mkRule next [] 0 0 g (default 0 (number_after "snaplen" rest))]) (chains_of k)) (next + 1)
             | None => (k, 1)
             end
      else if String.eqb object "chain" then set_chains k (assoc_del chain (chains_of k)) next
      else match number_after "handle" rest with
           | Some h => if bool_decide (h ∈ map nr_handle rs)
                       then set_chains k (assoc_set chain (List.filter (fun r => negb (nr_handle r =? h)) rs) (chains_of k)) next else (k, 1)
           | None => (k, 1)
           end
  end.

Definition k_run (argv : list string) (k : kernel) : kernel * Z :=
  match argv with
  | [_; f; path] => if String.eqb f "-f" && String.eqb path NFT_SKELETON then commit k (mkRaw true (chains_of k) (kn_next (proj1_sig k))) else (k, 1)
  | _ :: action :: object :: family :: table :: chain :: rest =>
      if String.eqb family "inet" && String.eqb table "workload_filter" && kn_loaded (proj1_sig k) then on_chain action object chain rest k else (k, 1)
  | _ => (k, 1)
  end.

Definition k_chain (c : string) (k : kernel) : option tv := if kn_loaded (proj1_sig k) then json_chain c <$> k_rules k c else None.

#[global] Instance kernel_nft : PcapNft kernel := {| nft_run := k_run; nft_chain := k_chain |}.

Lemma commit_chains k r k' rc : commit k r = (k', rc) -> (rc = 0 /\ chains_of k' = kn_chains r /\ kn_loaded (proj1_sig k') = kn_loaded r) \/ (rc = 1 /\ k' = k /\ ok r = false).
Proof. unfold commit. destruct (Bool.bool_dec (ok r) true) as [e|e]; intros [= <- <-]; [by left|]. right. by apply not_true_is_false in e. Qed.

Lemma k_handles k c rs : k_rules k c = Some rs -> NoDup (map nr_handle rs).
Proof.
  destruct k as [r Hr]. unfold k_rules, chains_of. cbn. intros Ha%assoc_In%list_elem_of_In. unfold ok in Hr. rewrite forallb_forall in Hr. apply Hr in Ha. cbn in Ha. by apply bool_decide_eq_true in Ha.
Qed.

Lemma str_Z_word n : no_space (str_Z n) = true /\ str_Z n <> "".
Proof.
  destruct (Z_lt_ge_dec n 0) as [Hn|Hn].
  - destruct n as [| |p]; try lia. change (str_Z (Z.neg p)) with (String "-" (str_Z (Z.pos p))). split; [|done]. unfold no_space. cbn [all_chars].
    rewrite (no_space_str_Z (Z.pos p)) by lia. done.
  - split; [apply no_space_str_Z; lia|]. apply str_Z_nonempty. lia.
Qed.

Lemma words_join l : Forall (fun w => no_space w = true /\ w <> "") l -> words (join " " l) = l.
Proof.
  induction 1 as [|w l [Hs Hne] Hl IH]; [done|]. destruct l as [|x l]; [by apply words_single|].
  change (join " " (w :: x :: l)) with (w +:+ " " +:+ join " " (x :: l)). rewrite words_cons by done. by rewrite IH.
Qed.

(** A rule of a capture names its group. *)
Lemma rule_text_group group text : rule_text group text -> number_after "group" (words text) = Some group.
Proof.
  intros (uid & n & Hg & Ht). assert (Hpos : 0 <= group) by (destruct (nflog_group_range uid) as (Hr & _); specialize (Hr _ Hg); lia).
  pose proof (str_Z_word uid) as Su. pose proof (str_Z_word group) as Sg. pose proof (str_Z_word n) as Sn.
  assert (String.eqb (str_Z uid) "group" = false) as Hu.
  { apply String.eqb_neq. intros E. pose proof (str_Z_no_char "g" uid ltac:(done) ltac:(done)) as Hc. by rewrite E in Hc. }
  destruct Ht as [Ht|Ht]; [unfold pcap_output_rule in Ht|unfold pcap_input_rule in Ht]; rewrite Hg, bind_Ok in Ht; apply Ok_inj in Ht as <-.
  1: transitivity (number_after "group" (words (join " " ["meta"; "skuid"; str_Z uid; "counter"; "log"; "group"; str_Z group; "snaplen"; str_Z n; "continue"]))); [reflexivity|].
  2: transitivity (number_after "group" (words (join " " ["ct"; "mark"; "and"; hex_Z CT_MARK_MASK; "=="; hex_Z CT_MARK_TAG; "ct"; "mark"; "and"; hex_Z CT_MARK_UID_MASK; "=="; str_Z uid;
       "counter"; "log"; "group"; str_Z group; "snaplen"; str_Z n; "continue"]))); [reflexivity|].
  all: rewrite words_join by (repeat constructor; done || apply Su || apply Sg || apply Sn).
  all: transitivity (if String.eqb (str_Z uid) "group" then py_int "counter" else py_int (str_Z group)); [reflexivity|]; rewrite Hu; by apply py_int_str_Z.
Qed.

Lemma assoc_snoc_other {A} c (l : A) cs x : x <> c -> assoc x (cs ++ [(c, l)]) = assoc x cs.
Proof. intros Hne. induction cs as [|[y m] cs IH]; cbn; [by rewrite decide_False by done|]. case_decide; [done|exact IH]. Qed.

Lemma assoc_snoc_same {A} c (l : A) cs : assoc c cs = None -> assoc c (cs ++ [(c, l)]) = Some l.
Proof. induction cs as [|[y m] cs IH]; cbn; [by rewrite decide_True|]. case_decide; [done|exact IH]. Qed.

Lemma set_chains_same k cs next k' rc c : set_chains k cs next = (k', rc) -> (forall x, x <> c -> assoc x cs = assoc x (chains_of k)) -> same_but k_rules c k k'.
Proof.
  intros E Hs x _ Hne. unfold k_rules. destruct (commit_chains _ _ _ _ E) as [(_ & -> & _)|(_ & -> & _)]; [by apply Hs|done].
Qed.

(** What a command on a chain does to the others. *)
Lemma on_chain_same action object c rest k k' rc : on_chain action object c rest k = (k', rc) -> same_but k_rules c k k' /\ kn_loaded (proj1_sig k') = kn_loaded (proj1_sig k).
Proof.
  assert (Hset : forall cs next, set_chains k cs next = (k', rc) -> (forall x, x <> c -> assoc x cs = assoc x (chains_of k)) ->
    same_but k_rules c k k' /\ kn_loaded (proj1_sig k') = kn_loaded (proj1_sig k)).
  { intros cs next E Hs. split; [by eapply set_chains_same|]. by destruct (commit_chains _ _ _ _ E) as [(_ & _ & ->)|(_ & -> & _)]. }
  assert (Hid : (k, rc) = (k', rc) -> same_but k_rules c k k' /\ kn_loaded (proj1_sig k') = kn_loaded (proj1_sig k)) by (intros [= <-]; split; [by intros ???|done]).
  unfold on_chain. destruct (k_rules k c) as [rs|].
  - destruct (String.eqb action "add"), (String.eqb object "chain").
    + intros [= <- <-]. by apply Hid.
    + destruct (number_after "group" rest); [|intros [= <- <-]; by apply Hid]. intros E. apply (Hset _ _ E). intros x Hne. by apply assoc_set_other.
    + intros E. apply (Hset _ _ E). intros x Hne. by apply assoc_del_other.
    + destruct (number_after "handle" rest); [|intros [= <- <-]; by apply Hid]. case_bool_decide; [|intros [= <- <-]; by apply Hid].
      intros E. apply (Hset _ _ E). intros x Hne. by apply assoc_set_other.
  - destruct (_ && _); [|intros [= <- <-]; by apply Hid]. intros E. apply (Hset _ _ E). intros x Hne. by apply assoc_snoc_other.
Qed.

Lemma loaded_command action object c rest k :
  k_run ([NFT_BIN; action; object] ++ NFT_TABLE ++ c :: rest) k = if kn_loaded (proj1_sig k) then on_chain action object c rest k else (k, 1).
Proof. done. Qed.

Lemma ok_set cs c l b n : ok (mkRaw b cs n) = true -> NoDup (map nr_handle l) -> ok (mkRaw b (assoc_set c l cs) n) = true.
Proof.
  unfold ok. cbn. induction cs as [|[x y] cs IH]; cbn; intros Hc Hl; [by rewrite bool_decide_eq_true_2|]. apply andb_prop in Hc as [H1 H2].
  case_decide; cbn; [by rewrite bool_decide_eq_true_2, H2|]. rewrite H1. by apply IH.
Qed.

Lemma ok_del cs c b n : ok (mkRaw b cs n) = true -> ok (mkRaw b (assoc_del c cs) n) = true.
Proof. unfold ok, assoc_del. cbn. rewrite !forallb_forall. intros Hc x Hx. apply Hc. apply list_elem_of_In. apply list_elem_of_In, list_elem_of_filter in Hx. by destruct Hx. Qed.

Lemma ok_chains (k : kernel) : ok (mkRaw (kn_loaded (proj1_sig k)) (chains_of k) (kn_next (proj1_sig k))) = true.
Proof. destruct k as [[l cs n] Hk]. exact Hk. Qed.

Lemma nodup_filter_handles p rs : NoDup (map nr_handle rs) -> NoDup (map nr_handle (List.filter p rs)).
Proof.
  induction rs as [|r rs IH]; cbn; [done|]. inversion 1 as [|? ? Hx Hn]; subst. destruct (p r); cbn; [|by apply IH]. constructor; [|by apply IH].
  intros (y & Ey & Hy)%list_elem_of_fmap. apply Hx, list_elem_of_fmap. exists y. split; [done|]. apply list_elem_of_In, filter_In in Hy as [Hy _]. by apply list_elem_of_In.
Qed.

Lemma commit_ok k r : ok r = true -> exists k', commit k r = (k', 0) /\ chains_of k' = kn_chains r.
Proof. intros Hr. unfold commit. destruct (Bool.bool_dec (ok r) true) as [e|e]; [|done]. by eexists. Qed.

Lemma set_chains_rules k cs next k' rc c : set_chains k cs next = (k', rc) -> k_rules k' c = if rc =? 0 then assoc c cs else k_rules k c.
Proof. intros E. unfold k_rules. by destruct (commit_chains _ _ _ _ E) as [(-> & -> & _)|(-> & -> & _)]. Qed.

Lemma kernel_add_chain k k' rc c spec : k_run (add_chain c spec) k = (k', rc) ->
  same_but k_rules c k k' /\ k_rules k' c = if rc =? 0 then Some (default [] (k_rules k c)) else k_rules k c.
Proof.
  unfold add_chain. rewrite loaded_command. destruct (kn_loaded _); [|by intros [= <- <-]]. intros E. split; [by eapply on_chain_same|].
  unfold on_chain in E. destruct (k_rules k c) as [rs|] eqn:Er; [by injection E as <- <-|]. cbn -[set_chains] in E. rewrite (set_chains_rules _ _ _ _ _ c E).
  destruct (rc =? 0); [|done]. by apply assoc_snoc_same.
Qed.

Lemma kernel_add_rule k k' rc c text group : rule_text group text -> k_run (add_rule c text) k = (k', rc) ->
  same_but k_rules c k k' /\ if rc =? 0 then exists rs r, k_rules k c = Some rs /\ k_rules k' c = Some (rs ++ [r]) /\ nr_group r = group else k_rules k' c = k_rules k c.
Proof.
  intros Ht. unfold add_rule. change ([c] ++ words text) with (c :: words text). rewrite loaded_command. destruct (kn_loaded _); [|by intros [= <- <-]]. intros E. split; [by eapply on_chain_same|].
  unfold on_chain in E. rewrite (rule_text_group _ _ Ht) in E. destruct (k_rules k c) as [rs|] eqn:Er; cbn -[set_chains] in E; [|by injection E as <- <-].
  rewrite (set_chains_rules _ _ _ _ _ c E). destruct (rc =? 0); [|by rewrite Er]. eexists rs, _. split; [done|]. split; [apply assoc_set_same|done].
Qed.

Lemma py_int_str_neg p : py_int (str_Z (Z.neg p)) = Some (Z.neg p).
Proof.
  change (str_Z (Z.neg p)) with (String "-" (str_Z (Z.pos p))). unfold py_int, strip. rewrite strip_by_id.
  - change (Ascii.eqb "-" "-") with true. cbv iota. by rewrite int_digits_str_Z by lia.
  - cbn [all_chars]. by rewrite no_space_str_Z by lia.
Qed.

Lemma number_after_handle h : number_after "handle" ["handle"; str_Z h] = Some h.
Proof. change (number_after "handle" ["handle"; str_Z h]) with (py_int (str_Z h)). destruct h as [|p|p]; [done|by apply py_int_str_Z|apply py_int_str_neg]. Qed.

Lemma kernel_delete_rule k k' rc c h : k_run (pcap_delete_command c h) k = (k', rc) ->
  same_but k_rules c k k' /\ (kn_loaded (proj1_sig k) = true -> kn_loaded (proj1_sig k') = true) /\
  (if rc =? 0 then exists rs, k_rules k c = Some rs /\ k_rules k' c = Some (List.filter (fun r => negb (nr_handle r =? h)) rs) else k_rules k' c = k_rules k c) /\
  (forall rs, kn_loaded (proj1_sig k) = true -> k_rules k c = Some rs -> h ∈ map nr_handle rs -> rc = 0).
Proof.
  unfold pcap_delete_command. rewrite loaded_command. destruct (kn_loaded (proj1_sig k)) eqn:El; [|by intros [= <- <-]]. intros E.
  destruct (on_chain_same _ _ _ _ _ _ _ E) as [Hs Hl]. unfold on_chain in E. rewrite number_after_handle in E. destruct (k_rules k c) as [rs|] eqn:Er.
  2: { cbn in E. injection E as <- <-. split_and!; by rewrite ?Er. }
  cbn -[set_chains] in E. case_bool_decide as Hin.
  2: { injection E as <- <-. split_and!; [done|done|by rewrite Er|]. by intros rs' _ [= <-]. }
  assert (Hok : rc = 0).
  { destruct (commit_chains _ _ _ _ E) as [(-> & _)|(_ & _ & Hno)]; [done|]. rewrite ok_set in Hno; [done|exact (ok_chains k)|]. by eapply nodup_filter_handles, k_handles. }
  split_and!; [done|by rewrite Hl| |by intros]. rewrite (set_chains_rules _ _ _ _ _ c E), Hok. cbn. exists rs. split; [done|apply assoc_set_same].
Qed.

Lemma kernel_delete_chain k k' rc c : k_run (delete_chain_command c) k = (k', rc) ->
  same_but k_rules c k k' /\ (kn_loaded (proj1_sig k) = true -> kn_loaded (proj1_sig k') = true) /\ (if rc =? 0 then k_rules k' c = None else k_rules k' c = k_rules k c) /\
  (forall rs, kn_loaded (proj1_sig k) = true -> k_rules k c = Some rs -> rc = 0).
Proof.
  unfold delete_chain_command. rewrite loaded_command. destruct (kn_loaded (proj1_sig k)) eqn:El; [|by intros [= <- <-]]. intros E.
  destruct (on_chain_same _ _ _ _ _ _ _ E) as [Hs Hl]. unfold on_chain in E. destruct (k_rules k c) as [rs|] eqn:Er.
  2: { cbn in E. injection E as <- <-. split_and!; by rewrite ?Er. }
  cbn -[set_chains] in E. assert (Hok : rc = 0).
  { destruct (commit_chains _ _ _ _ E) as [(-> & _)|(_ & _ & Hno)]; [done|]. rewrite ok_del in Hno; [done|exact (ok_chains k)]. }
  split_and!; [done|by rewrite Hl| |by intros]. rewrite (set_chains_rules _ _ _ _ _ c E), Hok. apply assoc_del_same.
Qed.

Lemma kernel_skeleton k k' rc c : k_run [NFT_BIN; "-f"; NFT_SKELETON] k = (k', rc) -> k_rules k' c = k_rules k c.
Proof. intros E. unfold k_rules. by destruct (commit_chains _ _ _ _ E) as [(_ & -> & _)|(_ & -> & _)]. Qed.

#[global, refine] Instance kernel_pcap_laws : PcapNftLaws kernel := {| rules := k_rules; works := fun k => kn_loaded (proj1_sig k) = true |}.
Proof.
  - exact k_handles.
  - intros k c p _. cbn. unfold k_chain. destruct (kn_loaded _); [|done]. destruct (k_rules k c) as [rs|]; [|done]. intros [= <-]. by exists rs.
  - intros k c rs Hl _ Hr. cbn. unfold k_chain. by rewrite Hl, Hr.
  - intros k k' rc E c _. by eapply kernel_skeleton.
  - intros k k' rc c spec _. apply kernel_add_chain.
  - intros k k' rc c text group _. apply kernel_add_rule.
  - intros k k' rc c h _. apply kernel_delete_rule.
  - intros k k' rc c _. apply kernel_delete_chain.
Defined.
End Kernel.

(** ** Starting a capture: [lib/cmd_pcap.py] *)

Record pargs := mkArgs {
  a_interface : list string; a_duration : option string; a_max_size : option string; a_snapshot_length : option string; a_direction : option string;
  a_opts : tcpdump_options; a_write : option string; a_detach : bool; a_json : bool; a_dry_run : bool; a_container : option string }.

(** [list(dict.fromkeys(l))] *)
Fixpoint fromkeys (seen l : list string) : list string :=
  match l with [] => [] | x :: l => if bool_decide (x ∈ seen) then fromkeys seen l else x :: fromkeys (x :: seen) l end.

(** [v or default] *)
Definition or_str (v : option string) (d : string) : string := match given_path v with Some s => s | None => d end.

Definition is_set (v : option Z) : bool := match v with Some n => negb (n =? 0) | None => false end.

(** What a start comes to: the plan that is printed, and the command with the plan and the
    options the helper is handed. *)
Inductive started := BadNumber | Refused (why : list refusal) (available : list string) | DryRun (plan : PcapPlan) | AlreadyActive | NotStarted | NotSettled
  | Capturing (plan : PcapPlan) (argv : list string) (helper : PcapPlan * tcpdump_options).

Section start.
Variable rmem_max : option string.
Variable is_root tcpdump_present unit_active systemd_run_ok settled : bool.
(** [json.dumps] of the plan with the options. *)
Variable payload : PcapPlan -> tcpdump_options -> string.

Definition _start_capture (args : pargs) (c : wconfig) : res started :=
  let vantages := fromkeys [] (match a_interface args with [] => [VANTAGE_HOST] | l => l end) in
  match (d ← parse_duration (or_str (a_duration args) DURATION_DEFAULT); m ← parse_size (or_str (a_max_size args) MAX_SIZE_DEFAULT);
         s ← parse_snaplen (a_snapshot_length args) vantages; Ok (d, m, s)) with
  | Raise ValueError => Ok BadNumber
  | Raise e => Raise e
  | Ok (duration, max_size, snaplen) =>
      let direction := or_str (a_direction args) DIRECTION_DEFAULT in
      let o := a_opts args in
      let rotation := is_set (rotate_size o) || is_set (file_count o) || is_set (rotate_seconds o) in
      match validate_request c vantages direction (bpf o) (a_write args) (a_detach args) (a_json args) rotation tcpdump_present (a_container args) with
      | _ :: _ as errors => Ok (Refused errors (available_vantages c))
      | [] =>
          plan ← build_plan rmem_max c vantages snaplen direction (a_write args) duration max_size (bpf o) (a_container args);
          if a_dry_run args then Ok (DryRun plan)
          else if negb is_root then Raise NotRoot
          else if unit_active then Ok AlreadyActive
          else if negb systemd_run_ok then Ok NotStarted
          else if negb settled then Ok NotSettled
          else Ok (Capturing plan (systemd_run_argv (w_name c) ["run"; w_name c; payload plan o] duration) (plan, o))
      end
  end.
End start.

(** ** Samples *)

Module Sample.
Import Kernel.

(** A container in a namespace of its own, and a VM behind passt. *)
Definition web : wconfig := mkW "web" (Ok 10000) false None "pasta" "single" false ["web"] (fun n => "workload-" +:+ n).
Definition vm : wconfig := mkW "vm" (Ok 10001) true None "pasta" "single" false [] (fun n => n).

Definition request (vs : list string) (dir : option string) (o : tcpdump_options) (write : option string) : pargs :=
  mkArgs vs None None None dir o write false false false None.
Definition dry (a : pargs) : pargs :=
  mkArgs (a_interface a) (a_duration a) (a_max_size a) (a_snapshot_length a) (a_direction a) (a_opts a) (a_write a) (a_detach a) (a_json a) true (a_container a).
Definition start (a : pargs) (c : wconfig) : res started := _start_capture (Some "212992") true true false true true (fun _ _ => "{}") a c.
Definition nothing : PcapPlan := mkPlan "" "" 0 [] [] "" None 0 0 [] None false None.
Definition plan_for (a : pargs) (c : wconfig) : PcapPlan := match start a c with Ok (Capturing p _ _) => p | _ => nothing end.

(** The table with the rule of another capture. *)
Definition theirs : nrule := mkRule 7 [] 12 800 1009 1500.
Definition busy : kernel := exist _ (mkRaw true [("pcap_output", [theirs])] 8) eq_refl.
Definition world : sess kernel := mkSess busy ∅ None ∅ [] None false.
Definition none : pstep -> option exn := fun _ => None.
Definition outbound : PcapPlan := plan_for (request ["host"] (Some "out") no_options None) web.

(** A run that is stopped by a signal while it waits. *)
Definition stopped : pstep -> option exn := fun s => match s with SWait => Some SystemExit | _ => None end.
(** Meanwhile a third capture starts. *)
Definition third : list (list string) := match pcap_rule_commands 10005 1500 "out" with Ok cs => cs | Raise _ => [] end.
Definition meanwhile (w : sess kernel) : sess kernel :=
  mkSess (foldl (fun k cmd => fst (k_run cmd k)) (ss_nft w) third) (ss_objects w) (ss_stage w) (ss_files w) (ss_readers w) (ss_object w) (ss_started w).
Definition after : sess kernel := fst (run stopped true true meanwhile (fun _ _ => 0) None "" outbound no_options world).
End Sample.

Lemma accepted_request_is_planned_witness :
  exists plan, build_plan None Sample.web [VANTAGE_GUEST; VANTAGE_HOST] [("guest", 1500); ("host", 0)] "in" None 60 1000 [] None = Ok plan /\
    map (fun s => fst (fst s)) (pl_steps plan) = [VANTAGE_GUEST; VANTAGE_HOST] /\ Forall (served Sample.web "in" [] false) [VANTAGE_GUEST; VANTAGE_HOST].
Proof.
  apply (accepted_request_is_planned None Sample.web 10000 (Some "host:0") [VANTAGE_GUEST; VANTAGE_HOST] [("guest", 1500); ("host", 0)] "in" [] None false false false true None 60 1000);
    vm_compute; done.
Defined.


(** A machine on which another process runs commands before each of ours. *)
Module Race.
Definition race : Type := Kernel.kernel * list (list (list string)).

Definition race_run (argv : list string) (w : race) : race * Z :=
  let before := match snd w with cs :: _ => cs | [] => [] end in
  let k := foldl (fun k cmd => fst (Kernel.k_run cmd k)) (fst w) before in
  let '(k', rc) := Kernel.k_run argv k in ((k', tail (snd w)), rc).

#[global] Instance race_nft : PcapNft race := {| nft_run := race_run; nft_chain := fun c w => Kernel.k_chain c (fst w) |}.

(** Our capture runs alone; another one starts while ours is taken down. *)
Definition ours : Kernel.kernel := exist _ (Kernel.mkRaw true [("pcap_output", [mkRule 1 [] 5 300 1000 1500])] 2) eq_refl.
Definition their_start : list (list string) := match pcap_rule_commands 10009 1500 "out" with Ok cs => cs | Raise _ => [] end.
Definition raced : race := (ours, [[]; their_start]).
End Race.

(** Between the second listing and [delete chain] another capture may install its rule:
    its commands succeed, and the rule goes with the chain. *)
Example concurrent_capture_is_ended :
  Kernel.k_rules (foldl (fun k cmd => fst (Kernel.k_run cmd k)) (fst (Kernel.k_run (pcap_delete_command "pcap_output" 1) Race.ours)) Race.their_start) "pcap_output"
    = Some [mkRule 2 [] 0 0 1009 1500] /\
  Kernel.k_rules (fst (fst (host_down 10000 Race.raced))) "pcap_output" = None.
Proof. split; vm_compute; reflexivity. Qed.

(** What the options of a capture become, in the reader that runs. *)
Definition reader_of (plan : PcapPlan) (o : tcpdump_options) (pid : option Z) : list (list string) :=
  ss_readers (fst (run_body Sample.none true true (fun w => w) pid "tap0" plan o Sample.world)).

Definition all_options : tcpdump_options := mkOpts (Some 10) (Some 1) (Some 2) (Some 30) true [].

(** A direction, a count, a rotation and [-n] are accepted for the namespace of a
    container, and the reader that runs has none of them. *)
Example container_guest_drops_options :
  match Sample.start (Sample.request ["guest"] (Some "in") all_options (Some "/tmp/x.pcap")) Sample.web with
  | Ok (Capturing plan _ (plan', o)) => plan' = plan /\ o = all_options /\
      reader_of plan o (Some 42) = [["nsenter"; "-t"; "42"; "-n"; "tcpdump"; "-i"; "tap0"; "-s"; "1500"; "-U"; "-w"; "/tmp/x.pcap"]]
  | _ => False
  end.
Proof. vm_compute. done. Qed.

(** The reader a dry run prints is without the options the reader that runs has. *)
Example dry_run_prints_another_reader :
  match Sample.start (Sample.dry (Sample.request ["host"] (Some "out") all_options (Some "/tmp/x.pcap"))) Sample.web with
  | Ok (DryRun plan) =>
      last (concat (map snd (pl_steps plan))) = Some "/usr/bin/tcpdump -i nflog:1000 -s 1500 -U -B 208 -w /tmp/x.pcap" /\
      map (join " ") (reader_of plan all_options None) = ["/usr/bin/tcpdump -i nflog:1000 -s 1500 -U -B 208 -n -w /tmp/x.pcap -c 10 -C 1 -W 2 -G 30"]
  | _ => False
  end.
Proof. vm_compute. done. Qed.

(** A VM whose QEMU answers with an error has no object, but with the file a killed capture
    left in place the tap counts as up, and that file is delivered. *)
Example refused_object_delivers_the_old_file :
  let plan := Sample.plan_for (Sample.request ["guest"] None no_options (Some "/tmp/x.pcap")) Sample.vm in
  let w := mkSess Sample.busy ∅ (Some [1; 2; 3]) ∅ [] None false in
  let '(w', r) := run Sample.none false true (fun w => w) (fun _ _ => 0) None "" plan no_options w in
  r = Ok 0 /\ ss_files w' = {["/tmp/x.pcap" := [1; 2; 3]]} /\ ss_stage w' = None.
Proof. vm_compute. done. Qed.

(** On a little-endian machine the correction of the timestamps, which reads the lengths
    swapped, finds no record, and the file that is delivered has none of the packets. *)
Example guest_capture_is_emptied :
  let plan := Sample.plan_for (Sample.request ["guest"] None no_options (Some "/tmp/x.pcap")) Sample.vm in
  let captured w := set_objects (ss_objects w) (Some (little_endian_capture [sample_record])) w in
  let '(w', r) := run Sample.none true true captured (fun _ _ => 0) None "" plan no_options Sample.world in
  r = Ok 0 /\ ss_files w' = {["/tmp/x.pcap" := take 24 (little_endian_capture [sample_record])]} /\ ss_stage w' = None.
Proof. vm_compute. done. Qed.
