(* ===== verification/InspectDiag.v ===== *)
(** * Is the egress inspected: [lib/diagnose_inspect.py]

    The check that says whether a workload's traffic reaches its inspector, as a function of
    what it observes: the documents nft prints, the state of the socket, the listener's
    status document, the digests on disk.  The sentences it prints are named by
    constructors that carry the figures in them.

    [nft_view] is what the kernel has in the objects the check reads, and the documents
    nft prints of it have the shapes the source names; the check is compared with the plain
    reading of that view, and with what [InspectArm] installs.  Parameters: the names
    [moatery] gives to the keys of the status document, and the clock. *)
From S2P Require Import Prelude PyStr Toml Ipaddr WorkloadAddr NetworkConfig NftElements Seccomp BrokerConfig FilterArm InspectArm.
Local Open Scope Z_scope.

Inductive note :=
  | NoV6Route | MissingSelf (sets : list string) | MissingGuard (sets : list string) | SelfDials (packets : Z) | CredentialBacked (hosts : string)
  | Misdirected (n : string) | MisdirectedListed (n hosts : string) | CallerUnresolved (n : string) | NotHttp (n hosts : string) | NotHttpPolicy (n hosts : string)
  | Unauthorized (n which : string) | BrokerDown (n : string) | NeverBrokered | CaExpired | CaExpires (days : Z).

Inductive verdict :=
  | TableAbsent | NotRedirected | OneFamily (v4_armed : bool) | MissingAccept (sets : list string) | NotListening | OtherPolicy | OtherCa
  | Inspected (address : VmInspectAddress) (terminating : bool) (notes : list note).

Definition passed (v : verdict) : bool := match v with Inspected _ _ _ => true | _ => false end.

(** ** Reading nft's documents *)

Definition not_empty (s : string) : option string := if String.eqb s "" then None else Some s.

(** [str(key).split(":")[0].split(".")[0].strip() or None] *)
Definition leading_word (s : string) : option string :=
  not_empty (strip (default "" (head (split_on "." (default "" (head (split_on ":" s))))))).

Definition key_uid (key : tv) : res (option string) :=
  match key with
  | TTab t =>
      match assoc "concat" t with
      | Some parts => if truthy parts then (l ← iter parts; Ok (match l with p :: _ => Some (py_str p) | [] => None end)) else Ok None
      | None => Ok None
      end
  | TInt n => Ok (leading_word (str_Z n))
  | TBool b => Ok (leading_word (if b then "True" else "False"))
  | TStr s => Ok (leading_word s)
  | _ => Ok None
  end.

Definition _map_key_uid (elem : tv) : res (option string) :=
  let key := match elem with
             | TTab t => match assoc "elem" t with
                         | Some (TTab inner) => match assoc "key" inner with Some k => k | None => TTab inner end
                         | Some inner => inner
                         | None => elem
                         end
             | _ => elem
             end in
  key_uid (match key with TArr (k :: _) => k | k => k end).

(** [str(uid) in {_map_key_uid(e) for e in elements}] *)
Definition armed_in (uid : Z) (elements : list tv) : res bool :=
  keys ← mapM_res _map_key_uid elements; Ok (existsb (fun k => match k with Some s => String.eqb s (str_Z uid) | None => false end) keys).

(** [_named_set_elements]: the first set or map of the name. *)
Definition named_object (name : string) (item : tv) : option (res (list tv)) :=
  let obj kind := match item with
                  | TTab t => match assoc kind t with
                              | Some (TTab o) => if is_the_str (assoc "name" o) name then Some (e ← get_or (TTab o) "elem" (TArr []); or_nil e) else None
                              | _ => None
                              end
                  | _ => None
                  end in
  match obj "set" with Some r => Some r | None => obj "map" end.

Fixpoint named_in (name : string) (items : list tv) : res (option (list tv)) :=
  match items with
  | [] => Ok None
  | item :: items => match named_object name item with Some r => l ← r; Ok (Some l) | None => named_in name items end
  end.

Definition _named_set_elements (payload : option tv) (name : string) : res (option (list tv)) := items ← nftables_items payload; named_in name items.

Definition INSPECT_ACCEPT_SETS : list string := [fp_v4 NFT_PAIR_INSPECT_DST; fp_v6 NFT_PAIR_INSPECT_DST].
Definition INSPECT_SELF_SETS : list string := [fp_v4 NFT_PAIR_INSPECT_SELF; fp_v6 NFT_PAIR_INSPECT_SELF].
Definition INSPECT_GUARD_SETS : list string := [fp_v4 NFT_PAIR_INSPECT_LIVE; fp_v6 NFT_PAIR_INSPECT_LIVE].

(** [want == e or want in str(e)] *)
Definition shows_address (want : string) (e : tv) : bool := is_the_str (Some e) want || contains want (py_str e).

Definition has_uid (payload : option tv) (uid : Z) (s : string) : res (string * option bool) :=
  o ← _named_set_elements payload s;
  match o with None => Ok (s, None) | Some l => es ← owned_elements uid (unwrap_counted_elements l); Ok (s, Some (nonempty es)) end.

Definition has_address (payload : option tv) (p : string * string) : res (string * option bool) :=
  o ← _named_set_elements payload (fst p); Ok (fst p, match o with Some l => Some (existsb (shows_address (snd p)) l) | None => None end).

(** Whether each set has the workload: [None] for one that cannot be read. *)
Definition _inspect_filter_sets (payload : option tv) (uid : Z) : res (list (string * option bool)) :=
  owned ← mapM_res (has_uid payload uid) (INSPECT_ACCEPT_SETS ++ INSPECT_SELF_SETS);
  addr ← inspect_address uid;
  guards ← mapM_res (has_address payload) (zip INSPECT_GUARD_SETS [v4 addr; v6 addr]);
  Ok (owned ++ guards).

Definition missing_from (filter_sets : list (string * option bool)) (sets : list string) : list string :=
  List.filter (fun s => match assoc s filter_sets with Some (Some false) => true | _ => false end) sets.

(** [nft_element_counter]: the packets of the element of a uid in a counted set. *)
Fixpoint element_counter (uid : Z) (elems : list tv) : res (option Z) :=
  match elems with
  | [] => Ok None
  | elem :: elems =>
      match elem with
      | TTab t =>
          match assoc "elem" t with
          | Some (TTab inner) =>
              let parts := match assoc "val" inner with Some (TTab v) => assoc "concat" v | _ => None end in
              match parts with
              | Some (TArr (p :: _)) =>
                  if eq_int p uid then
                    match assoc "counter" inner with
                    | Some (TTab c) => match assoc "packets" c with Some (TInt n) => Ok (Some n) | Some _ => Raise TypeError | None => Ok (Some 0) end
                    | _ => Ok None
                    end
                  else element_counter uid elems
              | _ => element_counter uid elems
              end
          | _ => element_counter uid elems
          end
      | _ => element_counter uid elems
      end
  end.

(** [_inspect_self_counter], of the two documents *)
Definition _inspect_self_counter (uid : Z) (docs : list (option tv)) : res (option Z) :=
  ns ← mapM_res (fun d : option tv => match d with None => Ok None | Some p => l ← nft_set_elements (Some p); element_counter uid l end) docs;
  Ok (match omap (M:=list) (fun x : option Z => x) ns with [] => None | l => Some (foldr Z.add 0 l) end).

(** ** The listener's status *)

Section status.
(** The keys [moatery] writes, and the clock. *)
Variables OTHER_KEY DROP_BROKER_UNREACHABLE DROP_MISDIRECTED DROP_MISDIRECTED_LISTED DROP_NOT_HTTP DROP_NOT_HTTP_POLICY INSPECT_DIGEST_KEY TLS_DEFAULT : string.
Variable now : Z.

(** [isinstance(v, int) and v], and the text of such a figure *)
Definition figure (v : option tv) : option string := v ← v; n ← as_int v; if n =? 0 then None else Some (py_str v).

Fixpoint insert_busy (x : string * tv) (l : list (string * tv)) : list (string * tv) :=
  let key y := default 0 (as_int (snd y)) in
  match l with
  | [] => [x]
  | y :: l' => if (key y <? key x) || ((key x =? key y) && str_leb (fst x) (fst y)) then x :: l else y :: insert_busy x l'
  end.

Definition _named_hosts (counts : option tv) : string :=
  match counts with
  | Some (TTab t) =>
      let named := List.filter (fun p => negb (String.eqb (fst p) OTHER_KEY) && match as_int (snd p) with Some _ => true | None => false end) t in
      let parts := map (fun p => fst p +:+ " (" +:+ py_str (snd p) +:+ ")") (foldr insert_busy [] named) in
      join ", " (parts ++ match figure (assoc OTHER_KEY t) with Some n => ["plus " +:+ n +:+ " more from hosts past the per-host cap"] | None => [] end)
  | _ => ""
  end.

(** [status.get(key) or {}], and a key of it *)
Definition sub (status : table) (key : string) : tv := match assoc key status with Some v => or_empty v | None => TTab [] end.
Definition sub_figure (status : table) (key k : string) : res (option string) := v ← get (sub status key) k; Ok (figure v).

(** [any(status["dispositions"].values())] *)
Definition any_disposition (status : table) : bool := match assoc "dispositions" status with Some (TTab d) => existsb (fun p => truthy (snd p)) d | _ => false end.

Definition _credential_usage_fragments (status : table) : res (list note) :=
  p ← get (sub status "lists") "policy";
  entries ← match p with Some v => or_nil v | None => Ok [] end;
  if negb (existsb (fun e => match e with TTab t => truthy_at t "credential" | _ => false end) entries) then Ok []
  else
    let refused := match figure (assoc "credential_unauthorized" status) with
                   | Some n => [Unauthorized n (_named_hosts (assoc "per_credential" status))] | None => [] end in
    dropped ← sub_figure status "drop_reasons" DROP_BROKER_UNREACHABLE;
    Ok (refused ++ match dropped with
                   | Some n => [BrokerDown n]
                   | None => match assoc "credentialed" status with
                             | Some v => match as_int v with Some 0 => when (any_disposition status) [NeverBrokered] | _ => [] end
                             | None => []
                             end
                   end).

Definition _caller_identity_fragments (status : table) : list note :=
  match figure (assoc "caller_unresolved" status) with Some n => [CallerUnresolved n] | None => [] end.

(** A figure with the hosts it is made of. *)
Definition hosts_note (c : string -> string -> note) (status : table) (n : option string) (key : string) : res (list note) :=
  match n with Some n => hosts ← get (sub status "per_host") key; Ok [c n (_named_hosts hosts)] | None => Ok [] end.

Definition _binding_fragments (status : table) : res (list note) :=
  unlisted ← sub_figure status "drop_reasons" DROP_MISDIRECTED;
  listed ← sub_figure status "drop_reasons" DROP_MISDIRECTED_LISTED;
  second ← hosts_note MisdirectedListed status listed DROP_MISDIRECTED_LISTED;
  Ok (match unlisted with Some n => [Misdirected n] | None => [] end ++ second).

Definition _not_http_fragments (status : table) : res (list note) :=
  plain ← sub_figure status "per_host_totals" DROP_NOT_HTTP;
  governed ← sub_figure status "per_host_totals" DROP_NOT_HTTP_POLICY;
  first ← hosts_note NotHttp status plain DROP_NOT_HTTP; second ← hosts_note NotHttpPolicy status governed DROP_NOT_HTTP_POLICY;
  Ok (first ++ second).

Definition _ca_report (status : option table) : table :=
  match status with
  | Some s => match assoc "mint" s with Some (TTab m) => match assoc "ca" m with Some (TTab c) => c | _ => [] end | _ => [] end
  | None => []
  end.

Definition CA_EXPIRY_WARN_DAYS : Z := 365.

(** The days that are left, of a time in whole seconds. *)
Definition _ca_fragments (status : table) : list note :=
  match assoc "not_after" (_ca_report (Some status)) with
  | Some v =>
      match as_int v with
      | Some t => if CA_EXPIRY_WARN_DAYS * 86400 <? t - now then [] else if t - now <=? 0 then [CaExpired] else [CaExpires ((t - now) / 86400)]
      | None => []
      end
  | None => []
  end.

Definition _credential_fragments (config : table) : res (list note) :=
  entries ← vm_broker_hosts config;
  Ok (match entries with [] => [] | _ => [CredentialBacked (join ", " (py_sorted (remove_dups (map fst entries))))] end).

(** ** The check *)

(** What is observed. *)
Record observed := mkObs {
  ob_map4 : option tv; ob_map6 : option tv; ob_table : option tv; ob_socket : bool; ob_status : option table;
  ob_disk_digest : option string; ob_disk_ca : option string; ob_v6_route : bool; ob_self : list (option tv) }.

Definition inspect_map_listed (payload : option tv) : res (option (list tv)) :=
  match payload with None => Ok None | Some p => l ← nft_set_elements (Some p); Ok (Some l) end.

(** [running and disk and disk != running] *)
Definition differs (running : option tv) (disk : option string) : bool :=
  match running, disk with
  | Some r, Some d => truthy r && negb (String.eqb d "") && negb (is_the_str (Some r) d)
  | _, _ => false
  end.

Definition status_notes (status : option table) : res (list note) :=
  match status with
  | Some ((_ :: _) as s) =>
      a ← _binding_fragments s; b ← _not_http_fragments s; c ← _credential_usage_fragments s;
      Ok (a ++ _caller_identity_fragments s ++ b ++ c ++ _ca_fragments s)
  | _ => Ok []
  end.

(** A note about what is missing, if anything is. *)
Definition a_note {A} (c : list A -> note) (l : list A) : list note := match l with [] => [] | _ => [c l] end.

(** [net.get("tls", TLS_DEFAULT) == "inspect"], or a container's effective mode *)
Definition terminating (is_vm : bool) (net : table) : bool :=
  if is_vm then match assoc "tls" net with Some v => is_the_str (Some v) "inspect" | None => String.eqb TLS_DEFAULT "inspect" end
  else String.eqb (container_effective_tls_mode net) "inspect".

(** [net], of the declaration *)
Definition declared_net (is_vm : bool) (config : table) : res table :=
  n ← (if is_vm then v ← get_or (TTab config) "vm" (TTab []); get_or v "network" (TTab []) else get_or (TTab config) "network" (TTab []));
  Ok (match n with TTab t => t | _ => [] end).

Definition inspect_check (is_vm : bool) (config : table) (uid : option Z) (o : observed) : res (option verdict) :=
  uses ← (if is_vm then vm_uses_inspect config else container_uses_inspect config);
  match (if (uses : bool) then uid else None) with
  | None => Ok None
  | Some uid =>
      net ← declared_net is_vm config;
      m4 ← inspect_map_listed (ob_map4 o); m6 ← inspect_map_listed (ob_map6 o);
      match m4, m6 with
      | Some e4, Some e6 =>
          armed4 ← armed_in uid e4; armed6 ← armed_in uid e6;
          if negb armed4 && negb armed6 then Ok (Some NotRedirected)
          else if negb (Bool.eqb armed4 armed6) then Ok (Some (OneFamily armed4))
          else
            sets ← _inspect_filter_sets (ob_table o) uid;
            match missing_from sets INSPECT_ACCEPT_SETS with
            | (_ :: _) as l => Ok (Some (MissingAccept l))
            | [] =>
                if negb (ob_socket o) then Ok (Some NotListening)
                else if differs (s ← ob_status o; assoc INSPECT_DIGEST_KEY s) (ob_disk_digest o) then Ok (Some OtherPolicy)
                else if differs (assoc "sha256" (_ca_report (ob_status o))) (ob_disk_ca o) then Ok (Some OtherCa)
                else
                  addr ← inspect_address uid;
                  dials ← _inspect_self_counter uid (ob_self o);
                  creds ← _credential_fragments config;
                  more ← status_notes (ob_status o);
                  Ok (Some (Inspected addr (terminating is_vm net)
                    (when (negb (ob_v6_route o)) [NoV6Route]
                     ++ a_note MissingSelf (missing_from sets INSPECT_SELF_SETS)
                     ++ a_note MissingGuard (missing_from sets INSPECT_GUARD_SETS)
                     ++ match dials with Some n => when (negb (n =? 0)) [SelfDials n] | None => [] end
                     ++ creds ++ more)))
            end
      | _, _ => Ok (Some TableAbsent)
      end
  end.
End status.

(** ** What the kernel has *)

(** Of each family: the redirects, a guest's port to an address and port; the accepted
    tuples; the self-dials with their packets; the guarded addresses. *)
Record fam_view := mkFam { fv_map : list (Z * Z * string * Z); fv_dst : list (Z * string * Z); fv_self : list (Z * string * Z); fv_live : list string }.
Record nft_view := mkView { nv4 : fam_view; nv6 : fam_view }.

Definition map_elem (e : Z * Z * string * Z) : tv :=
  let '(u, g, a, i) := e in TArr [json_element [TInt u; TInt g]; json_element [TStr a; TInt i]].
Definition dst_element (e : Z * string * Z) : element := let '(u, a, i) := e in [TInt u; TStr a; TInt i].
Definition self_element (e : Z * string * Z) : element := let '(u, a, _) := e in [TInt u; TStr a].
(** A counted element is wrapped. *)
Definition self_elem (e : Z * string * Z) : tv :=
  TTab [("elem", TTab [("val", json_element (self_element e)); ("counter", TTab [("packets", TInt (snd e)); ("bytes", TInt 0)])])].

(** An object of a document; nft leaves out an empty list. *)
Definition nft_object (kind name : string) (elems : list tv) : tv :=
  TTab [(kind, TTab ([("family", TStr "inet"); ("name", TStr name)] ++ match elems with [] => [] | _ => [("elem", TArr elems)] end))].
Definition nft_doc (items : list tv) : tv := TTab [("nftables", TArr (TTab [("metainfo", TTab [])] :: items))].

Definition fam_sets (pick : family_pair -> string) (f : fam_view) : list tv :=
  [nft_object "set" (pick NFT_PAIR_INSPECT_DST) (map json_element (map dst_element (fv_dst f)));
   nft_object "set" (pick NFT_PAIR_INSPECT_SELF) (map self_elem (fv_self f));
   nft_object "set" (pick NFT_PAIR_INSPECT_LIVE) (map TStr (fv_live f))].

Definition table_doc (v : nft_view) : tv := nft_doc (TTab [("table", TTab [])] :: fam_sets fp_v4 (nv4 v) ++ fam_sets fp_v6 (nv6 v)).
Definition map_doc (name : string) (f : fam_view) : tv := nft_doc [nft_object "map" name (map map_elem (fv_map f))].
Definition self_doc (name : string) (f : fam_view) : tv := nft_doc [nft_object "set" name (map self_elem (fv_self f))].

(** What is observed on a machine in that state. *)
Definition observes (v : nft_view) (o : observed) : Prop :=
  ob_map4 o = Some (map_doc (fp_v4 NFT_PAIR_INSPECT_MAP) (nv4 v)) /\ ob_map6 o = Some (map_doc (fp_v6 NFT_PAIR_INSPECT_MAP) (nv6 v)) /\
  ob_table o = Some (table_doc v) /\
  ob_self o = [Some (self_doc (fp_v4 NFT_PAIR_INSPECT_SELF) (nv4 v)); Some (self_doc (fp_v6 NFT_PAIR_INSPECT_SELF) (nv6 v))].

(** The plain reading: does the workload own an element. *)
Definition in_map (uid : Z) (f : fam_view) : bool := existsb (fun e => fst (fst (fst e)) =? uid) (fv_map f).
Definition in_dst (uid : Z) (f : fam_view) : bool := existsb (fun e => fst (fst e) =? uid) (fv_dst f).
Definition in_self (uid : Z) (f : fam_view) : bool := existsb (fun e => fst (fst e) =? uid) (fv_self f).
Definition in_live (a : string) (f : fam_view) : bool := existsb (String.eqb a) (fv_live f).

(** The names of the two families for which something is missing. *)
Definition lacking (p : family_pair) (has4 has6 : bool) : list string := when (negb has4) [fp_v4 p] ++ when (negb has6) [fp_v6 p].

(** The packets of the first element of the workload. *)
Definition self_packets (uid : Z) (f : fam_view) : option Z := snd <$> List.find (fun e => fst (fst e) =? uid) (fv_self f).
Definition self_dials (uid : Z) (v : nft_view) : option Z :=
  match self_packets uid (nv4 v), self_packets uid (nv6 v) with
  | Some a, Some b => Some (a + b) | Some a, None => Some a | None, Some b => Some b | None, None => None
  end.

(** ** Reading the documents of a view *)

Lemma or_nil_arr l : or_nil (TArr l) = Ok l.
Proof. by destruct l. Qed.

Lemma doc_elements kind name l : kind = "set" \/ kind = "map" -> nft_set_elements (Some (nft_doc [nft_object kind name l])) = Ok l.
Proof. intros [-> | ->]; destruct l; reflexivity. Qed.

Lemma str_Z_eqb a b : String.eqb (str_Z a) (str_Z b) = (a =? b).
Proof. destruct (Z.eqb_spec a b) as [->|Hn]; [apply String.eqb_refl|]. apply String.eqb_neq. by intros E%str_Z_inj. Qed.

Lemma armed_listed uid f : armed_in uid (map map_elem (fv_map f)) = Ok (in_map uid f).
Proof.
  unfold armed_in, in_map. assert (mapM_res _map_key_uid (map map_elem (fv_map f)) = Ok (map (fun e => Some (str_Z (fst (fst (fst e))))) (fv_map f))) as ->.
  { induction (fv_map f) as [|[[[u g] a] i] l IH]; [done|]. cbn [map mapM_res]. rewrite IH. reflexivity. }
  rewrite bind_Ok. f_equal. induction (fv_map f) as [|[[[u g] a] i] l IH]; [done|]. cbn. by rewrite str_Z_eqb, IH.
Qed.

Lemma owned_listed uid l : Forall numeric l -> exists es, owned_elements uid (map json_element l) = Ok es /\ nonempty es = existsb (owner_is uid) l.
Proof.
  assert (Hone : forall e, numeric e -> owned_element uid (json_element e) = Ok (if owner_is uid e then Some (text_of e) else None)).
  { intros e (n & [|q rest] & ->); cbn [json_element owned_element owner_is eq_int assoc truthy negb]; rewrite ?decide_True by done; cbn [eq_int]; by destruct (Z.eqb_spec n uid) as [->|]. }
  unfold owned_elements. induction 1 as [|e l He _ (es & IH & Hn)]; [by eexists|]. cbn [map mapM_res]. rewrite Hone, bind_Ok by done.
  apply bind_Ok_inv in IH as (x & Hx & [= IH]). rewrite Hx, !bind_Ok. eexists. split; [reflexivity|]. cbn [existsb].
  destruct (owner_is uid e); [done|]. cbn [somes omap list_omap orb]. by rewrite <- Hn, <- IH.
Qed.

Lemma dst_owned uid f : exists es, owned_elements uid (unwrap_counted_elements (map json_element (map dst_element (fv_dst f)))) = Ok es /\ nonempty es = in_dst uid f.
Proof.
  assert (unwrap_counted_elements (map json_element (map dst_element (fv_dst f))) = map json_element (map dst_element (fv_dst f))) as ->.
  { unfold unwrap_counted_elements. induction (fv_dst f) as [|[[u a] i] l IH]; [done|]. cbn [map]. by rewrite IH. }
  destruct (owned_listed uid (map dst_element (fv_dst f))) as (es & He & Hn); [apply Forall_forall; intros e ([[u a] i] & -> & _)%list_elem_of_fmap; by eexists _, _|].
  exists es. split; [done|]. rewrite Hn. unfold in_dst. clear. induction (fv_dst f) as [|[[u a] i] l IH]; [done|]. cbn. by rewrite IH.
Qed.

Lemma self_owned uid f : exists es, owned_elements uid (unwrap_counted_elements (map self_elem (fv_self f))) = Ok es /\ nonempty es = in_self uid f.
Proof.
  assert (unwrap_counted_elements (map self_elem (fv_self f)) = map json_element (map self_element (fv_self f))) as ->.
  { unfold unwrap_counted_elements. induction (fv_self f) as [|[[u a] i] l IH]; [done|]. cbn [map]. by rewrite IH. }
  destruct (owned_listed uid (map self_element (fv_self f))) as (es & He & Hn); [apply Forall_forall; intros e ([[u a] i] & -> & _)%list_elem_of_fmap; by eexists _, _|].
  exists es. split; [done|]. rewrite Hn. unfold in_self. clear. induction (fv_self f) as [|[[u a] i] l IH]; [done|]. cbn. by rewrite IH.
Qed.

Lemma named_object_set name n l : named_object name (nft_object "set" n l) = if String.eqb n name then Some (Ok l) else None.
Proof.
  set (o := [("family", TStr "inet"); ("name", TStr n)] ++ match l with [] => [] | _ => [("elem", TArr l)] end).
  change (named_object name (nft_object "set" n l)) with
    (match (if String.eqb n name then Some (e ← get_or (TTab o) "elem" (TArr []); or_nil e) else None) with Some r => Some r | None => None end).
  destruct (String.eqb n name); [|done]. subst o. by destruct l.
Qed.

Lemma named_in_sets name objs :
  named_in name (map (fun p => nft_object "set" (fst p) (snd p)) objs) = Ok (snd <$> List.find (fun p => String.eqb (fst p) name) objs).
Proof.
  induction objs as [|[n l] objs IH]; [done|]. cbn [map named_in List.find fst snd]. rewrite named_object_set. by destruct (String.eqb n name).
Qed.

Definition view_sets (v : nft_view) : list (string * list tv) :=
  let sets pick f := [(pick NFT_PAIR_INSPECT_DST, map json_element (map dst_element (fv_dst f))); (pick NFT_PAIR_INSPECT_SELF, map self_elem (fv_self f));
                      (pick NFT_PAIR_INSPECT_LIVE, map TStr (fv_live f))] in
  sets fp_v4 (nv4 v) ++ sets fp_v6 (nv6 v).

Lemma named_listed v name : _named_set_elements (Some (table_doc v)) name = Ok (snd <$> List.find (fun p => String.eqb (fst p) name) (view_sets v)).
Proof. rewrite <- named_in_sets. reflexivity. Qed.

Lemma has_uid_listed v uid s l es b :
  snd <$> List.find (fun p => String.eqb (fst p) s) (view_sets v) = Some l -> owned_elements uid (unwrap_counted_elements l) = Ok es /\ nonempty es = b ->
  has_uid (Some (table_doc v)) uid s = Ok (s, Some b).
Proof. intros Hl [He <-]. unfold has_uid. by rewrite named_listed, bind_Ok, Hl, He. Qed.

(** What the filter's sets say of a workload. *)
Definition sets_of (v : nft_view) (uid : Z) (a : VmInspectAddress) : list (string * option bool) :=
  [(fp_v4 NFT_PAIR_INSPECT_DST, Some (in_dst uid (nv4 v))); (fp_v6 NFT_PAIR_INSPECT_DST, Some (in_dst uid (nv6 v)));
   (fp_v4 NFT_PAIR_INSPECT_SELF, Some (in_self uid (nv4 v))); (fp_v6 NFT_PAIR_INSPECT_SELF, Some (in_self uid (nv6 v)));
   (fp_v4 NFT_PAIR_INSPECT_LIVE, Some (existsb (shows_address (v4 a)) (map TStr (fv_live (nv4 v)))));
   (fp_v6 NFT_PAIR_INSPECT_LIVE, Some (existsb (shows_address (v6 a)) (map TStr (fv_live (nv6 v)))))].

Lemma filter_sets_listed v uid a : inspect_address uid = Ok a -> _inspect_filter_sets (Some (table_doc v)) uid = Ok (sets_of v uid a).
Proof.
  intros Ha. unfold _inspect_filter_sets. cbn [app INSPECT_ACCEPT_SETS INSPECT_SELF_SETS mapM_res].
  destruct (dst_owned uid (nv4 v)) as (e1 & H1). destruct (dst_owned uid (nv6 v)) as (e2 & H2). destruct (self_owned uid (nv4 v)) as (e3 & H3). destruct (self_owned uid (nv6 v)) as (e4 & H4).
  rewrite (has_uid_listed v uid (fp_v4 NFT_PAIR_INSPECT_DST) _ _ _ eq_refl H1), (has_uid_listed v uid (fp_v6 NFT_PAIR_INSPECT_DST) _ _ _ eq_refl H2),
    (has_uid_listed v uid (fp_v4 NFT_PAIR_INSPECT_SELF) _ _ _ eq_refl H3), (has_uid_listed v uid (fp_v6 NFT_PAIR_INSPECT_SELF) _ _ _ eq_refl H4), Ha, !bind_Ok.
  cbn [INSPECT_GUARD_SETS zip zip_with mapM_res]. unfold has_address. cbn [fst snd]. rewrite !named_listed, !bind_Ok. reflexivity.
Qed.

Lemma missing_listed v uid a :
  missing_from (sets_of v uid a) INSPECT_ACCEPT_SETS = lacking NFT_PAIR_INSPECT_DST (in_dst uid (nv4 v)) (in_dst uid (nv6 v)) /\
  missing_from (sets_of v uid a) INSPECT_SELF_SETS = lacking NFT_PAIR_INSPECT_SELF (in_self uid (nv4 v)) (in_self uid (nv6 v)) /\
  missing_from (sets_of v uid a) INSPECT_GUARD_SETS = lacking NFT_PAIR_INSPECT_LIVE (existsb (shows_address (v4 a)) (map TStr (fv_live (nv4 v)))) (existsb (shows_address (v6 a)) (map TStr (fv_live (nv6 v)))).
Proof.
  unfold sets_of. generalize (in_dst uid (nv4 v)) (in_dst uid (nv6 v)) (in_self uid (nv4 v)) (in_self uid (nv6 v))
    (existsb (shows_address (v4 a)) (map TStr (fv_live (nv4 v)))) (existsb (shows_address (v6 a)) (map TStr (fv_live (nv6 v)))).
  by intros [] [] [] [] [] [].
Qed.

(** No other guarded address contains the workload's own. *)
Definition unshadowed (a : string) (f : fam_view) : Prop := forall x, x ∈ fv_live f -> contains a x = true -> x = a.

Lemma contains_refl s : contains s s = true.
Proof. destruct s; [done|]. cbn [contains]. assert (starts_with (String a s) (String a s) = true) as ->; [|done]. rewrite <- (app_nil_r_str (String a s)) at 2. apply starts_with_app. Qed.

Lemma guard_listed a f : unshadowed a f -> existsb (shows_address a) (map TStr (fv_live f)) = in_live a f.
Proof.
  unfold unshadowed, in_live. induction (fv_live f) as [|x l IH]; intros Hs; [done|]. cbn [map existsb]. rewrite IH by (intros y Hy; apply Hs; by right). f_equal.
  unfold shows_address. cbn [is_the_str py_str]. destruct (String.eqb_spec x a) as [->|Hne]; [by rewrite String.eqb_refl|]. cbn [orb].
  destruct (contains a x) eqn:Ec; [by destruct Hne; apply Hs; [left|]|]. symmetry. apply String.eqb_neq. congruence.
Qed.

Lemma counter_listed uid f : element_counter uid (map self_elem (fv_self f)) = Ok (self_packets uid f).
Proof.
  unfold self_packets. induction (fv_self f) as [|[[u a] n] l IH]; [done|]. cbn [map List.find fst].
  transitivity (if u =? uid then Ok (Some n) else element_counter uid (map self_elem l)); [reflexivity|]. by destruct (u =? uid).
Qed.

Lemma dials_listed uid v o : observes v o -> _inspect_self_counter uid (ob_self o) = Ok (self_dials uid v).
Proof.
  intros (_ & _ & _ & ->). unfold _inspect_self_counter, self_doc, self_dials. cbn [mapM_res]. rewrite !doc_elements, !bind_Ok, !counter_listed, !bind_Ok by (by left).
  destruct (self_packets uid (nv4 v)), (self_packets uid (nv6 v)); cbn; do 2 f_equal; lia.
Qed.

(** ** The check is the plain reading *)

Section check.
Variables OTHER_KEY DROP_BROKER_UNREACHABLE DROP_MISDIRECTED DROP_MISDIRECTED_LISTED DROP_NOT_HTTP DROP_NOT_HTTP_POLICY INSPECT_DIGEST_KEY TLS_DEFAULT : string.
Variable now : Z.

Notation check := (inspect_check OTHER_KEY DROP_BROKER_UNREACHABLE DROP_MISDIRECTED DROP_MISDIRECTED_LISTED DROP_NOT_HTTP DROP_NOT_HTTP_POLICY INSPECT_DIGEST_KEY TLS_DEFAULT now).
Notation notes_of := (status_notes OTHER_KEY DROP_BROKER_UNREACHABLE DROP_MISDIRECTED DROP_MISDIRECTED_LISTED DROP_NOT_HTTP DROP_NOT_HTTP_POLICY now).

(** What the state of the kernel, of the socket and of the listener amounts to; whether
    the address is guarded in each family is given. *)
Definition reading (is_vm : bool) (net : table) (uid : Z) (a : VmInspectAddress) (v : nft_view) (o : observed) (guard4 guard6 : bool) (creds more : list note) : verdict :=
  let four := in_map uid (nv4 v) in let six := in_map uid (nv6 v) in
  if negb (four || six) then NotRedirected
  else if negb (four && six) then OneFamily four
  else if negb (in_dst uid (nv4 v) && in_dst uid (nv6 v)) then MissingAccept (lacking NFT_PAIR_INSPECT_DST (in_dst uid (nv4 v)) (in_dst uid (nv6 v)))
  else if negb (ob_socket o) then NotListening
  else if differs (s ← ob_status o; assoc INSPECT_DIGEST_KEY s) (ob_disk_digest o) then OtherPolicy
  else if differs (assoc "sha256" (_ca_report (ob_status o))) (ob_disk_ca o) then OtherCa
  else Inspected a (terminating TLS_DEFAULT is_vm net)
    (when (negb (ob_v6_route o)) [NoV6Route]
     ++ a_note MissingSelf (lacking NFT_PAIR_INSPECT_SELF (in_self uid (nv4 v)) (in_self uid (nv6 v)))
     ++ a_note MissingGuard (lacking NFT_PAIR_INSPECT_LIVE guard4 guard6)
     ++ match self_dials uid v with Some n => when (negb (n =? 0)) [SelfDials n] | None => [] end ++ creds ++ more).

Lemma check_reads (is_vm : bool) config net uid a v o creds more :
  (if is_vm then vm_uses_inspect config else container_uses_inspect config) = Ok true -> inspect_address uid = Ok a -> declared_net is_vm config = Ok net ->
  observes v o -> _credential_fragments config = Ok creds -> notes_of (ob_status o) = Ok more ->
  check is_vm config (Some uid) o = Ok (Some (reading is_vm net uid a v o (existsb (shows_address (v4 a)) (map TStr (fv_live (nv4 v))))
    (existsb (shows_address (v6 a)) (map TStr (fv_live (nv6 v)))) creds more)).
Proof.
  intros Hu Ha Hn Ho Hc Hm. pose proof (dials_listed uid v o Ho) as Hd. destruct Ho as (E4 & E6 & Et & Es). unfold inspect_check. rewrite Hu, bind_Ok, Hn, bind_Ok, E4, E6.
  unfold inspect_map_listed, map_doc. rewrite !doc_elements, !bind_Ok, !armed_listed, !bind_Ok by (by right). unfold reading.
  destruct (in_map uid (nv4 v)), (in_map uid (nv6 v)); cbn [negb andb orb Bool.eqb]; try done.
  rewrite Et, (filter_sets_listed v uid a Ha), bind_Ok. destruct (missing_listed v uid a) as (-> & -> & ->).
  destruct (in_dst uid (nv4 v)), (in_dst uid (nv6 v)); cbn [lacking when negb andb app]; try done.
  destruct (negb (ob_socket o)); [done|]. destruct (differs _ (ob_disk_digest o)); [done|]. destruct (differs _ (ob_disk_ca o)); [done|].
  by rewrite Ha, bind_Ok, Hd, bind_Ok, Hc, bind_Ok, Hm, bind_Ok.
Qed.

(** C25.  The check says what is.  On a machine whose nft prints what the kernel has, and where no
    other workload's guarded address contains this one's, the check of an inspected workload
    returns the plain reading of the redirects, the accepted tuples, the socket, the policy
    and the CA in that order, with a note for every element that is missing and no other. *)
Theorem check_is_the_reading (is_vm : bool) config net uid a v o creds more :
  (if is_vm then vm_uses_inspect config else container_uses_inspect config) = Ok true -> inspect_address uid = Ok a -> declared_net is_vm config = Ok net ->
  observes v o -> unshadowed (v4 a) (nv4 v) -> unshadowed (v6 a) (nv6 v) -> _credential_fragments config = Ok creds -> notes_of (ob_status o) = Ok more ->
  check is_vm config (Some uid) o = Ok (Some (reading is_vm net uid a v o (in_live (v4 a) (nv4 v)) (in_live (v6 a) (nv6 v)) creds more)).
Proof. intros Hu Ha Hn Ho H4 H6 Hc Hm. rewrite (check_reads is_vm config net uid a v o creds more) by done. by rewrite !guard_listed. Qed.

(** ** What is armed passes *)

Definition map_text (e : Z * Z * string * Z) : string := let '(u, g, a, i) := e in str_Z u +:+ " . " +:+ str_Z g +:+ " : " +:+ a +:+ " . " +:+ str_Z i.

(** The texts of the elements of a set, as [InspectArm] has them. *)
Definition fam_texts (pick : family_pair -> string) (f : fam_view) : elements :=
  [(pick NFT_PAIR_INSPECT_MAP, map map_text (fv_map f)); (pick NFT_PAIR_INSPECT_DST, map text_of (map dst_element (fv_dst f)));
   (pick NFT_PAIR_INSPECT_SELF, map text_of (map self_element (fv_self f))); (pick NFT_PAIR_INSPECT_LIVE, fv_live f)].
Definition view_texts (v : nft_view) : elements := fam_texts fp_v4 (nv4 v) ++ fam_texts fp_v6 (nv6 v).

(** Every element that arming gives the workload is there. *)
Definition arm_is_there (planes : list (Z * Z)) (uid : Z) (a : VmInspectAddress) (v : nft_view) : Prop :=
  forall s t, has_element (inspect_groups planes uid a) s t -> has_element (view_texts v) s t.

Lemma view_text_set v s es es' : (s, es) ∈ view_texts v -> (s, es') ∈ view_texts v -> es = es'.
Proof.
  assert (Hnd : NoDup (map fst (view_texts v))) by (apply NoDup_ListNoDup; repeat constructor; cbn; intuition discriminate).
  revert Hnd. induction (view_texts v) as [|[n l] els IH]; cbn; [by intros _ ?%not_elem_of_nil|]. inversion 1 as [|? ? Hx Hn]; subst.
  intros [[= -> ->]|H1]%elem_of_cons [[= <-]|H2]%elem_of_cons; [done|destruct Hx; apply list_elem_of_fmap; by eexists (_, _)|destruct Hx; subst; apply list_elem_of_fmap; by eexists (_, _)|by eapply IH].
Qed.

(** An element of a group, found in a family of the view. *)
Lemma there planes uid a v s es t l :
  arm_is_there planes uid a v -> (s, es) ∈ inspect_groups planes uid a -> t ∈ es -> (s, l) ∈ view_texts v -> t ∈ l.
Proof. intros Hall Hg Ht Hl. destruct (Hall s t) as (es' & He & Hin); [by exists es|]. by rewrite (view_text_set v s l es' Hl He). Qed.

Lemma owned_in {A} (f : A -> string) (own : A -> Z) uid l t :
  (forall e, exists r, f e = text_of (TInt (own e) :: r)) -> owned_by uid t -> t ∈ map f l -> existsb (fun e => own e =? uid) l = true.
Proof.
  intros Hf Ho (e & -> & He)%list_elem_of_fmap. apply existsb_exists. exists e. split; [by apply list_elem_of_In|]. destruct (Hf e) as [r Hr]. rewrite Hr in Ho.
  apply owned_by_text in Ho. by apply Z.eqb_eq.
Qed.

Lemma armed_family planes uid a v (pick : family_pair -> string) (addr : string) f :
  planes <> [] -> arm_is_there planes uid a v -> 
  (forall p b, (pick p, b addr) ∈ both_families p a b) -> (forall x, x ∈ fam_texts pick f -> x ∈ view_texts v) ->
  in_map uid f = true /\ in_dst uid f = true /\ in_self uid f = true /\ addr ∈ fv_live f.
Proof.
  intros Hp Hall Hpick Hin. destruct planes as [|[g i] planes]; [done|].
  assert (Hgrp : forall p b, (exists rest pre, inspect_groups ((g, i) :: planes) uid a = pre ++ both_families p a b ++ rest) -> (pick p, b addr) ∈ inspect_groups ((g, i) :: planes) uid a).
  { intros p b (rest & pre & ->). apply elem_of_app. right. apply elem_of_app. left. apply Hpick. }
  split_and!.
  - assert (Ht : str_Z uid +:+ " . " +:+ str_Z g +:+ " : " +:+ addr +:+ " . " +:+ str_Z i ∈ map map_text (fv_map f)).
    { eapply there; [exact Hall|apply (Hgrp NFT_PAIR_INSPECT_MAP (fun a => map (fun '(g, i) => str_Z uid +:+ " . " +:+ str_Z g +:+ " : " +:+ a +:+ " . " +:+ str_Z i) ((g, i) :: planes))); by eexists _, []|by left|].
      apply Hin. by left. }
    eapply (owned_in map_text (fun e => fst (fst (fst e)))); [|right; by eexists|exact Ht]. intros [[[u g'] a'] i']. by exists [TStr (str_Z g' +:+ " : " +:+ a' +:+ " . " +:+ str_Z i')].
  - assert (Ht : str_Z uid +:+ " . " +:+ addr +:+ " . " +:+ str_Z i ∈ map text_of (map dst_element (fv_dst f))).
    { eapply there; [exact Hall|apply (Hgrp NFT_PAIR_INSPECT_DST (fun a => map (fun '(_, i) => str_Z uid +:+ " . " +:+ a +:+ " . " +:+ str_Z i) ((g, i) :: planes))); by eexists _, (both_families NFT_PAIR_INSPECT_MAP a _)|by left|].
      apply Hin. by right; left. }
    rewrite map_map in Ht. eapply (owned_in (fun e => text_of (dst_element e)) (fun e => fst (fst e))); [|right; by eexists|exact Ht]. intros [[u a'] i']. by exists [TStr a'; TInt i'].
  - assert (Ht : str_Z uid +:+ " . " +:+ addr ∈ map text_of (map self_element (fv_self f))).
    { eapply there; [exact Hall|apply (Hgrp NFT_PAIR_INSPECT_SELF (fun a => [str_Z uid +:+ " . " +:+ a])); by eexists _, (both_families NFT_PAIR_INSPECT_MAP a _ ++ both_families NFT_PAIR_INSPECT_DST a _)|by left|].
      apply Hin. by do 2 right; left. }
    rewrite map_map in Ht. eapply (owned_in (fun e => text_of (self_element e)) (fun e => fst (fst e))); [|right; by eexists|exact Ht]. intros [[u a'] n]. by exists [TStr a'].
  - eapply there; [exact Hall|apply (Hgrp NFT_PAIR_INSPECT_LIVE (fun a => [a])); by eexists [], (both_families NFT_PAIR_INSPECT_MAP a _ ++ both_families NFT_PAIR_INSPECT_DST a _ ++ both_families NFT_PAIR_INSPECT_SELF a _)|by left|].
    apply Hin. by do 3 right; left.
Qed.

(** What is armed passes.  When everything [InspectArm] installs for a workload is among the
    elements of the kernel, its socket listens, and what the listener runs with is what is on
    disk, the check passes, with no note about a missing element. *)
Theorem armed_workload_passes planes (is_vm : bool) config net uid a v o creds more :
  (if is_vm then vm_uses_inspect config else container_uses_inspect config) = Ok true -> inspect_address uid = Ok a -> declared_net is_vm config = Ok net ->
  observes v o -> _credential_fragments config = Ok creds -> notes_of (ob_status o) = Ok more -> planes <> [] -> arm_is_there planes uid a v -> ob_socket o = true ->
  differs (s ← ob_status o; assoc INSPECT_DIGEST_KEY s) (ob_disk_digest o) = false -> differs (assoc "sha256" (_ca_report (ob_status o))) (ob_disk_ca o) = false ->
  check is_vm config (Some uid) o = Ok (Some (Inspected a (terminating TLS_DEFAULT is_vm net)
    (when (negb (ob_v6_route o)) [NoV6Route] ++ match self_dials uid v with Some n => when (negb (n =? 0)) [SelfDials n] | None => [] end ++ creds ++ more))).
Proof.
  intros Hu Ha Hn Ho Hc Hm Hp Hall Hs Hd Hca. rewrite (check_reads is_vm config net uid a v o creds more) by done.
  destruct (armed_family planes uid a v fp_v4 (v4 a) (nv4 v)) as (M4 & D4 & S4 & L4); [done|done|intros; by left|intros x Hx; apply elem_of_app; by left|].
  destruct (armed_family planes uid a v fp_v6 (v6 a) (nv6 v)) as (M6 & D6 & S6 & L6); [done|done|intros; by right; left|intros x Hx; apply elem_of_app; by right|].
  assert (Hshown : forall x f, x ∈ fv_live f -> existsb (shows_address x) (map TStr (fv_live f)) = true).
  { intros x f Hx. apply existsb_exists. exists (TStr x). split; [apply List.in_map; by apply list_elem_of_In|]. unfold shows_address. cbn [is_the_str]. by rewrite String.eqb_refl. }
  unfold reading. rewrite M4, M6, D4, D6, S4, S6, !Hshown, Hs, Hd, Hca by done. done.
Qed.
End check.

(** The same, as a computation. *)
Definition arm_shown (planes : list (Z * Z)) (uid : Z) (a : VmInspectAddress) (v : nft_view) : bool :=
  forallb (fun g => forallb (fun t => existsb (fun x => String.eqb (fst x) (fst g) && existsb (String.eqb t) (snd x)) (view_texts v)) (snd g)) (inspect_groups planes uid a).

Lemma arm_shown_spec planes uid a v : arm_shown planes uid a v = true -> arm_is_there planes uid a v.
Proof.
  unfold arm_shown. intros Hb s t (es & Hs & Ht). rewrite forallb_forall in Hb. specialize (Hb (s, es) (proj1 (list_elem_of_In _ _) Hs)). rewrite forallb_forall in Hb.
  specialize (Hb t (proj1 (list_elem_of_In _ _) Ht)). apply existsb_exists in Hb as ([n l] & Hl & Hx). cbn [fst snd] in Hx. apply andb_prop in Hx as [->%String.eqb_eq Hx].
  apply existsb_exists in Hx as (y & Hy & ->%String.eqb_eq). exists l. split; by apply list_elem_of_In.
Qed.

(** ** Samples *)

Module Sample.
(** The workload and another one, both armed. *)
Definition fam (web db : string) (live : list string) : fam_view :=
  mkFam [(10001, 80, web, 10080); (10001, 443, web, 10443); (10010, 80, db, 10080); (10010, 443, db, 10443)]
    [(10010, db, 10080); (10010, db, 10443); (10001, web, 10080); (10001, web, 10443)] [(10010, db, 7); (10001, web, 0)] live.
Definition db_address : VmInspectAddress := mkInspect "198.18.1.10" "2001:2::c612:10a".
Definition view (live4 live6 : list string) : nft_view := mkView (fam (v4 web_address) (v4 db_address) live4) (fam (v6 web_address) (v6 db_address) live6).
Definition whole : nft_view := view [v4 db_address; v4 web_address] [v6 db_address; v6 web_address].
(** The workload's address is not guarded in the first family. *)
Definition unguarded : nft_view := view [v4 db_address] [v6 db_address; v6 web_address].
(** Its redirect is gone from the second. *)
Definition half : nft_view :=
  let v := view [v4 web_address] [v6 web_address] in mkView (nv4 v) (mkFam [] (fv_dst (nv6 v)) (fv_self (nv6 v)) (fv_live (nv6 v))).

Definition status : table := [("policy_digest", TStr "abc"); ("caller_unresolved", TInt 3)].
Definition seen (v : nft_view) : observed :=
  mkObs (Some (map_doc "wl_inspect4" (nv4 v))) (Some (map_doc "wl_inspect6" (nv6 v))) (Some (table_doc v)) true (Some status) (Some "abc") None true
    [Some (self_doc "wl_inspect_self" (nv4 v)); Some (self_doc "wl_inspect_self6" (nv6 v))].
Definition net : table := match declared_net false inspected with Ok n => n | Raise _ => [] end.
Definition check (v : nft_view) : res (option verdict) :=
  inspect_check "(other)" "broker_unreachable" "misdirected" "misdirected_listed" "not_http" "not_http_policy" "policy_digest" "inspect" 0 false inspected (Some 10001) (seen v).
End Sample.

Lemma armed_workload_passes_witness : Sample.check Sample.whole = Ok (Some (Inspected web_address false [CallerUnresolved "3"])).
Proof.
  apply (armed_workload_passes "(other)" "broker_unreachable" "misdirected" "misdirected_listed" "not_http" "not_http_policy" "policy_digest" "inspect" 0
    sample_planes false inspected Sample.net 10001 web_address Sample.whole (Sample.seen Sample.whole) [] [CallerUnresolved "3"]);
    [vm_compute; reflexivity|vm_compute; reflexivity|vm_compute; reflexivity|split_and!; reflexivity|vm_compute; reflexivity|vm_compute; reflexivity|done| |reflexivity..].
  by apply arm_shown_spec; vm_compute.
Defined.

Lemma check_is_the_reading_witness : Sample.check Sample.half = Ok (Some (OneFamily true)).
Proof.
  apply (check_is_the_reading "(other)" "broker_unreachable" "misdirected" "misdirected_listed" "not_http" "not_http_policy" "policy_digest" "inspect" 0
    false inspected Sample.net 10001 web_address Sample.half (Sample.seen Sample.half) [] [CallerUnresolved "3"]);
    [vm_compute; reflexivity|vm_compute; reflexivity|vm_compute; reflexivity|split_and!; reflexivity| | |vm_compute; reflexivity|vm_compute; reflexivity].
  all: intros x Hx _; by apply list_elem_of_singleton in Hx.
Defined.

(** The address of another workload, 198.18.1.10, contains that of this one, 198.18.1.1:
    the check says nothing of the guard that is missing. *)
Example guard_is_shadowed :
  in_live (v4 web_address) (nv4 Sample.unguarded) = false /\ Sample.check Sample.unguarded = Ok (Some (Inspected web_address false [CallerUnresolved "3"])).
Proof. vm_compute. done. Qed.
